(* ===== verification/_CoqProject ===== *)
-Q . S2P
Prelude.v
Vma.v
Pm4.v
CsBuffers.v
WinsysCs.v
CsExec.v
CsRecord.v
CsSecondary.v
WinsysSubmit.v
SubmitProofs.v
SubmitMain.v
Barrier.v
BarrierSpec.v
BarrierPackets.v
BarrierProofs.v
BarrierFits.v
CmdStream.v
CmdBuffer.v
CpDma.v
CpDmaProofs.v
CpDmaMain.v
DescriptorLayout.v
DescriptorProofs.v
DescriptorSupport.v
DescriptorMain.v
DescriptorPool.v
PoolProofs.v
PoolOps.v
PoolMain.v
PoolCapacity.v
PoolCapacityMain.v
SamplerProofs.v
SamplerMain.v
ShaderArena.v
ArenaLists.v
ArenaInv.v
ArenaAlloc.v
ArenaTake.v
ArenaInsert.v
ArenaCreate.v
ArenaFree.v
ArenaReplay.v
ArenaMain.v
BoModel.v
BoLogic.v
BoKernel.v
BoInv.v
BoVa.v
BoBooks.v
BoHeld.v
BoDestroy.v
BoFree.v
BoAcquire.v
BoCreate.v
BoImport.v
BoVirtual.v
BoSparse.v
BoBind.v
BoTeardown.v
BoSteady.v
BoWinsys.v
BoSteps.v
BoSim.v
BoRuns.v
BoMain.v
BoSparseMain.v
BoMetadata.v
BoMetadataMain.v
CText.v
TitanMap.v
TitanProofs.v
TitanMain.v
RegPm4.v
RegPm4Spec.v
RegPm4Proofs.v
RegPm4Ops.v
RegPm4Main.v
RegSeq.v
Xclipse.v
CtxInitMain.v
