(* ===== verification/Prelude.v ===== *)
(** * Verification of RADV for Samsung Xclipse

    RADV is the Vulkan driver for AMD GPUs; this repository adapts it to the Xclipse
    GPUs.  An application's commands are recorded as PM4 packets into command streams,
    whose memory the window-system layer ("winsys") allocates, links and submits to the
    kernel.  The development models that path and the allocators and encodings it rests
    on, and proves that what the command processor executes is what was recorded.

    ** The parts and where they are modelled

    - [Prelude]: 16-, 32- and 64-bit unsigned arithmetic on [Z], the [assert] of the
      source as a step of the option monad ([None] is an aborted run), alignment and
      logarithms (util/macros.h, util/u_math.h, util/bitscan.h), removal from an array by
      moving its last element, and [VkResult].
    - [Vma]: the address-range heap of util/vma.c, a list of holes from high to low.
      [util_vma_heap_alloc], [_alloc_addr], [_free] with every assertion of the source.
    - [Pm4]: the packet builders of amd/common/ac_cmdbuf_cp.c as the dwords they emit,
      with the header macros of amd/common/sid.h; field positions follow
      registers/pkt3.json and the register databases.  [parse] splits dwords into packets.
    - [CsBuffers]: the buffer list of a command stream and the list built for the kernel
      (amd/vulkan/winsys/amdgpu/radv_amdgpu_cs.c).
    - [WinsysCs]: the operations of the same file that record: create, grow, finalize,
      pad, reset, destroy, chain, unchain, execute_secondary, execute_ib, the Xclipse IB
      cache.  The [world] holds the contents of every BO by GPU address; a write outside
      a BO is [None].  The kernel (BO creation, mapping, host allocation) is a parameter
      of type [kernel]; [kernel_ok] says what the proofs assume of it: distinct, aligned,
      non-overlapping addresses for the BOs that are created, and memory for [k_limit].
    - [CsExec]: the command processor's view: fetch an IB, split it into packets, follow
      chains.  Used as the specification of [WinsysCs].
    - [CsRecord], [CsSecondary]: the recording invariant and the theorems on it.
    - [Barrier]: amd/common/ac_barrier.c, all generations and queues.  [BarrierSpec]
      says what cache operations and waits a list of packets performs; [BarrierPackets]
      and [BarrierProofs] relate the two; [BarrierFits] bounds the size.
    - [CmdStream]: the class [CommandStream] of operations the driver uses on a stream
      (emit into reserved space, patch the last CP DMA header, add a buffer) and its
      laws [CommandStreamLaws]; the winsys stream is the instance.
    - [CmdBuffer]: amd/vulkan/radv_cp_dma.c, and the upload buffer, trace, cache flush
      and end-of-recording code of amd/vulkan/radv_cmd_buffer.c and radv_cs.c, over any
      [CommandStream].  Only the graphics and compute queues occur.
    - [CpDma], [CpDmaProofs], [CpDmaMain]: what the DMA packets do to memory, the
      recording invariant, and the theorems, both against the interface and end to end.
    - [WinsysSubmit]: the submission half of radv_amdgpu_cs.c: the cutting of a batch into
      kernel submissions, preambles and postambles, the chunks of one submission,
      semaphores, the retry loop, and the pacing of graphics jobs on the Xclipse 920.  The
      ioctls, the host allocator and the clock are a parameter of type [drm] with
      arbitrary answers.  [SubmitProofs], [SubmitMain]: lemmas and theorems.
    - [DescriptorLayout]: radv_CreateDescriptorSetLayout and the support query
      (amd/vulkan/radv_descriptor_set.c, radv_descriptors.c,
      vulkan/runtime/vk_descriptors.c).  [DescriptorProofs] has the reference placement
      ([offsets], [ends]) and relates the two passes of the code to it,
      [DescriptorSupport] the query; [DescriptorMain]: the theorems.
    - [DescriptorPool]: amd/vulkan/radv_descriptor_pool.c and the set operations of
      radv_descriptor_set.c, with the pool's memory and the reference counts of layouts;
      a pool that can free sets uses [Vma].  [PoolProofs] and [PoolOps] hold the pool
      invariant and what each operation does, [PoolMain] the theorems; [PoolCapacity]
      and [PoolCapacityMain] the sizing argument; [SamplerProofs] and [SamplerMain] the
      immutable samplers, from the layout to the memory of a set.
    - [ShaderArena]: the shader memory allocator of amd/vulkan/radv_shader.c over a store of
      block objects, so that the address list of an arena, the free lists and the object
      pool share the blocks they link; capture and replay of blocks (radv_pipeline_rt.c).
      malloc, buffer creation and mapping are oracles indexed by a count of the calls, so
      every pattern of failures is covered.  [ArenaLists] has the size classes and the
      free lists, [ArenaInv] the invariant (blocks tile their arena, holes are merged, free
      lists hold the holes) and the frame lemma of a local change; [ArenaAlloc],
      [ArenaTake], [ArenaInsert], [ArenaCreate], [ArenaFree] and [ArenaReplay] what each
      operation does; [ArenaMain] the theorems.
    - [BoModel]: the buffer objects of amd/vulkan/winsys/amdgpu/radv_amdgpu_bo.c and the
      life of a winsys (radv_amdgpu_winsys.c).  A process [proc] holds the winsys, the
      buffers by address, the memory counters of each device and the process-wide reuse
      cache of command buffers; an operation is a computation in the state monad [M], where
      [None] is a failed assertion or a dangling pointer.  The kernel, libdrm and libc are
      the class [Drm] of operations on an abstract state, all of which may fail.
      [BoKernel] states what is assumed of them: a view of the kernel's state (address
      ranges, buffer references, mappings of the GPU address space) and the class
      [DrmLaws]; [BoSim] is a kernel that satisfies the laws.  [BoLogic] has weakest
      preconditions and sums over the store; [BoInv] the invariant [inv]: counters and
      cache agree with the buffers ([books]), each structure owns its range, reference
      and mapping ([held]).  [BoVa], [BoBooks], [BoHeld] are what the shared steps do to
      it; [BoDestroy], [BoFree], [BoAcquire], [BoCreate], [BoImport] the operations on
      plain buffers; [BoVirtual], [BoSparse], [BoBind] sparse buffers, against the
      specification that a byte reaches the last binding that covers it; [BoTeardown],
      [BoWinsys] the teardown; [BoSteady] what no operation changes, and that the buffers of
      a state were there before or were just created; [BoSteps] the transition system of a process
      with the rules its clients keep ([allowed]) and rule induction over it; [BoRuns]
      concrete runs; [BoMain] and [BoSparseMain] the theorems.
    - [BoMetadata]: the metadata of a buffer object, from the surface of an exported image
      (amd/vulkan/radv_image.c) through the tiling word and libdrm
      (amd/common/ac_linux_drm.c) to the surface of an importer; the two ioctls are the
      class [Gem].  [BoMetadataMain]: bit fields, the three encodings, the round trip.
    - [CText]: strtoul, strtol, atoi and the environment, which the knobs are read with.
    - [TitanMap]: TITAN's register map: the generated tables (amd/common/ac_titan_kmap.h),
      the hand-recovered one by level, overrides, remapping and the run test
      (ac_titan_regmap.h), the validator and activation (ac_gpu_info.c).  The globals are
      the record [regmap]; a knob is read once per process, so the environment is a
      constant.  [TitanProofs], [TitanMain]: lemmas and theorems.
    - [RegPm4]: the register packet builder of amd/common/ac_pm4.c over its array of
      dwords (a failed assertion or an access out of bounds is a [Fault]), and the reader
      of SET packets in amd/common/ac_parse_ib.c, whose output is a list of register
      writes and of other packets kept whole.  [RegPm4Spec] has packets as data, what it
      is for dwords to encode them, and the reader on an encoding; [RegPm4Proofs] the
      array as a written part and a rest, and finalization; [RegPm4Ops] what recording one
      register does, in each of the forms a chip prefers; [RegPm4Main] any sequence of
      operations, the theorem, and the two ways it fails without its premises.
    - [RegSeq]: the SET packet macros of amd/common/ac_cmdbuf.h, and when a
      run may be one packet under the map.
    - [Xclipse]: the row of each Xclipse chip, the identification of a device, the knobs
      (with the properties of Android), TITAN's set-up (ac_gpu_info.c), and the mode of the
      context initialization, its table (ac_xclipse_ctxinit.h) and the head of
      radv_emit_graphics (amd/vulkan/radv_queue.c).  [CtxInitMain]: the theorem.

    ** What the theorems show

    - Recording, while there is memory: a stream executes exactly what was recorded across
      any number of grows ([recording_executes]), again after a reset, which releases each
      earlier IB once ([reset_records_again]), chained ([chain_unchain_executes]) and as a
      secondary ([execute_secondary_executes]).
    - Buffer lists are sets, looked up as by a linear search whichever growth fails, and
      the kernel's list is their union.
    - Barriers perform exactly the requested cache operations on GFX10 and later, hold
      what is behind them ([gfx10_barrier_completes] says what an acquire at PRE_DEPTH
      holds), and fit the reserved space on every generation.
    - CP DMA commands move exactly the bytes asked for and are finished at the end, on
      every queue but the compute queue of GFX6.
    - The heap never hands out memory in use (a boundary constraint needs the search from
      low addresses), finds space when there is some, and gives back what it took.
    - Submission: the kernel executes the streams of a batch in order with their preambles
      and postambles ([submit_executes_batch]), cut without separating gangs
      ([submit_partitions_batch]), within the limits but for the postambles, which are not
      counted per IP; a submission always returns ([cs_submit_returns]); a
      paced job waits for the job two before it ([pace_two_jobs_back]).
    - Layouts place bindings aligned, in range and apart ([layout_places_bindings]); the
      support query decides creation away from the limits ([support_decides_creation]).
    - Pools: sets never overlap in any reachable state ([pool_sets_separate]); a failed
      allocation is undone ([allocate_atomic]), freeing undoes an allocation, reset gives
      the created pool; a linear pool holds what it was sized for
      ([linear_pool_capacity]); immutable samplers are in every set
      ([immutable_samplers_written]).
    - Shader memory: live blocks are aligned, in range and apart in every reachable state and
      no byte of an arena is lost, if mapping one does not fail ([shader_arenas_sound],
      [map_failure_leaves_dangling_hole]); allocation, free, reuse of holes
      ([alloc_returns_fresh_memory], [free_shader_memory_exact], [alloc_reuses_holes]); a
      capture can be replayed in any order ([capture_replay_roundtrip]).
    - Buffer objects: in every reachable state the counters, the cache, the address space and
      the kernel's references agree with the buffers ([reachable_buffers]); operations
      return ([allowed_operations_return]); create (at an aligned address, with the memory
      that was asked for, a parked buffer being what an earlier creation got), import and destroy what they should
      ([create_provides], [import_provides], [destroy_releases]), and a winsys is torn
      down ([winsys_destroy_returns]), unless two are at once
      ([two_teardowns_never_return]).  Sparse buffers refine the map from bytes to bindings
      ([sparse_bindings_refine]); a failed sparse creation leaves a mapping
      ([sparse_failure_leaves_mapping]).  The tiling of an exported image reaches the
      importer ([image_tiling_shared]).
    - Registers: whatever is recorded that the buffer has room for, the stream of the packet builder reads back as
      it ([register_packets_execute]); the preamble leaves every register of its table with
      its value at the place the map gives it ([preamble_initializes_context]); a run of
      registers may be one packet exactly when the run test says so ([run_packet_exact]).
    - The map: what the validator accepts ([validator_exact]), that the tables pass it at
      every level ([default_maps_accepted]), that a map in force stays in its spaces
      ([active_map_confined]), the override syntax ([mapovr_roundtrip]), and the collision
      the validator misses ([override_collision_accepted]).
    - Errors: theorems state behaviours the code does not intend (growth without memory, the
      boundary constraint of high heaps, GFX6 compute DMA, streams with too many IBs,
      overflow in the support query, the order of mutable type lists, failed allocations
      on linear pools, pools without memory, the two failures inside a new shader arena, the padding of a packed
      packet that goes back to an old value, a register written past the buffer of its state).

    ** Conventions

    An operation that can fail an assertion or touch memory out of bounds has type
    [option] ([result] with the kind of failure in the packet builder); a theorem that says
    an operation works says it returns [Some] or [Ok].  Loops the
    source runs on machine integers take fuel; [copy_fuel] and the parser's fuel (the
    length of its input) are proved enough where they are used, the command processor's
    fuel is existentially bounded by the number of IBs, a batch has one unit per IB, and
    [submit_fuel] covers the milliseconds of the second a submission is retried.  The loop
    that empties the reuse cache has [PURGE_FUEL] = 65 rounds, one more than the cache
    has entries, and the binding of the zero buffer as many chunks as the size needs.  The
    padding of a packed packet records a register from within the recording of one and does
    not pad again: [set_reg_fuel] 2 covers it.  The reader has a unit per dword.  The
    sizes of C structures and the place of the sampler table in a layout depend on the
    platform and are parameters.

    ** Not modelled

    Register programming for draws and dispatches (of the preamble, what follows the context
    initialization), tracked registers, how the parser prints packets that set no register,
    image layout (addrlib), the compilers
    (NIR, SPIR-V, ACO), meta operations, the Vulkan runtime and WSI, video and ray
    tracing; tracing and logging side effects, the list of live buffers kept for them
    included; locks, beyond the interleaving of two teardowns; annotations of command streams; the
    kernel's scheduling of a submission beyond the order of its IBs. *)

From Stdlib Require Export ZArith Lia Bool ZifyBool.
From stdpp Require Export base tactics option numbers sets.
From stdpp Require Export list.

#[global] Set Default Proof Using "Type".
#[export] Set Warnings "-notation-overridden".

(** * Machine integers

    A w-bit unsigned C integer is a [Z] in [0, 2^w); arithmetic that may leave
    the range is wrapped where the source computes it. *)
Definition W16 : Z := 65536.
Definition W32 : Z := 4294967296.
Definition W64 : Z := 18446744073709551616.

Definition u16 (x : Z) : Z := x mod W16.
Definition u32 (x : Z) : Z := x mod W32.
Definition u64 (x : Z) : Z := x mod W64.

Declare Scope radv_scope.
Delimit Scope radv_scope with radv.
#[export] Set Warnings "+notation-overridden".

(** [assert b] of the source: [None] is the abort of a build with assertions. *)
Definition cassert (b : bool) : option unit := if b then Some tt else None.

Notation "'assert!' b ;; k" := (mbind (fun _ : unit => k) (cassert b))
  (at level 100, b at level 99, k at level 200, right associativity) : radv_scope.
Notation "'let!' x := m ';;' k" := (mbind (fun x => k) m)
  (at level 100, x pattern, m at level 99, k at level 200, right associativity) : radv_scope.

Open Scope radv_scope.
Open Scope Z_scope.

Ltac unfold_words := unfold W16, W32, W64 in *.

Create HintDb radv.
Create HintDb radv_rw.

Lemma u64_small x : 0 <= x < W64 -> u64 x = x.
Proof. apply Z.mod_small. Qed.

Lemma u32_small x : 0 <= x < W32 -> u32 x = x.
Proof. apply Z.mod_small. Qed.

Lemma u64_range x : 0 <= u64 x < W64.
Proof. apply Z.mod_pos_bound. reflexivity. Qed.

Lemma u32_range x : 0 <= u32 x < W32.
Proof. apply Z.mod_pos_bound. reflexivity. Qed.

Lemma u64_W64 : u64 W64 = 0.
Proof. reflexivity. Qed.

(** Remove every wrap whose argument is provably in range. *)
Ltac unwrap :=
  repeat match goal with
         | |- context [u64 ?x] => rewrite (u64_small x) by (unfold_words; lia)
         | |- context [u32 ?x] => rewrite (u32_small x) by (unfold_words; lia)
         end.
Ltac unwrap_in H :=
  repeat match type of H with
         | context [u64 ?x] => rewrite (u64_small x) in H by (unfold_words; lia)
         | context [u32 ?x] => rewrite (u32_small x) in H by (unfold_words; lia)
         end.

Lemma cassert_true b : b = true -> cassert b = Some tt.
Proof. by intros ->. Qed.

Lemma cassert_bind {A} b (k : option A) : b = true -> (assert! b ;; k) = k.
Proof. by intros ->. Qed.

(** Discharge an assertion whose condition is provable. *)
Ltac pass_assert :=
  rewrite cassert_bind by
    (repeat rewrite ?andb_true_iff, ?orb_true_iff, ?Z.leb_le, ?Z.ltb_lt, ?Z.eqb_eq; lia).

(** Case analysis on the integer comparisons of the code. *)
Ltac case_cmp :=
  match goal with
  | |- context [?a =? ?b] => destruct (Z.eqb_spec a b)
  | |- context [?a <=? ?b] => destruct (Z.leb_spec a b)
  | |- context [?a <? ?b] => destruct (Z.ltb_spec a b)
  | |- context [?a >=? ?b] => rewrite (Z.geb_leb a b); destruct (Z.leb_spec b a)
  | |- context [?a >? ?b] => rewrite (Z.gtb_ltb a b); destruct (Z.ltb_spec b a)
  end.

(** * Alignment (util/macros.h, util/u_math.h) *)

(** [ALIGN_POT] on w-bit operands. *)
Definition ALIGN_POT (w x pot_align : Z) : Z :=
  Z.land ((x + pot_align - 1) mod w) ((Z.lnot (pot_align - 1)) mod w).

(** [util_is_power_of_two_nonzero]: [v != 0 && IS_POT(v)]. *)
Definition util_is_power_of_two_nonzero (v : Z) : bool :=
  negb (v =? 0) && (Z.land v (v - 1) =? 0).

Definition align (value alignment : Z) : Z := ALIGN_POT W32 value alignment.
Definition align64 (value alignment : Z) : Z := ALIGN_POT W64 value alignment.

(** Round [x] up to a multiple of [a]: the arithmetic meaning of [ALIGN_POT]. *)
Definition round_up (x a : Z) : Z := (x + a - 1) / a * a.

(** [util_logbase2]: [31 - __builtin_clz(n | 1)]. *)
Definition util_logbase2 (n : Z) : Z := Z.log2 (Z.lor n 1).

(** [a[i] = a[--count]]: removal by moving the last element. *)
Definition swap_remove {A} (i : nat) (l : list A) : list A :=
  match last l with
  | Some x => take (length l - 1) (<[i := x]> l)
  | None => l
  end.

(** The results the modelled functions return. *)
Inductive VkResult :=
| VK_SUCCESS | VK_ERROR_OUT_OF_HOST_MEMORY | VK_ERROR_OUT_OF_DEVICE_MEMORY
| VK_ERROR_INITIALIZATION_FAILED | VK_ERROR_DEVICE_LOST | VK_ERROR_FRAGMENTED_POOL | VK_ERROR_UNKNOWN
| VK_ERROR_OUT_OF_POOL_MEMORY | VK_ERROR_INVALID_EXTERNAL_HANDLE
| VK_ERROR_INVALID_OPAQUE_CAPTURE_ADDRESS.

#[global] Instance VkResult_eq_dec : EqDecision VkResult.
Proof. solve_decision. Defined.

Lemma lnot_ones_mod n k : 0 <= k <= n -> Z.lnot (2 ^ k - 1) mod 2 ^ n = 2 ^ n - 2 ^ k.
Proof.
  intros Hk. unfold Z.lnot.
  assert (2 ^ k <= 2 ^ n) by (apply Z.pow_le_mono_r; lia).
  assert (0 < 2 ^ k) by (apply Z.pow_pos_nonneg; lia).
  replace (Z.pred (- (2 ^ k - 1))) with ((2 ^ n - 2 ^ k) + (-1) * 2 ^ n) by lia.
  rewrite Z_mod_plus_full. apply Z.mod_small. lia.
Qed.

(** Masking with [~(2^k - 1)] clears the low [k] bits. *)
Lemma land_lnot_ones x k : 0 <= k -> Z.land x (Z.lnot (2 ^ k - 1)) = x / 2 ^ k * 2 ^ k.
Proof.
  intros Hk.
  replace (2 ^ k - 1) with (Z.ones k) by (rewrite Z.ones_equiv; lia).
  change (Z.land x (Z.lnot (Z.ones k))) with (Z.land x (Z.lnot (Z.ones k))).
  rewrite <- Z.ldiff_land, Z.ldiff_ones_r, Z.shiftr_div_pow2, Z.shiftl_mul_pow2 by lia.
  reflexivity.
Qed.

Lemma land_mod_r x y n : 0 <= n -> 0 <= x < 2 ^ n -> Z.land x (y mod 2 ^ n) = Z.land x y.
Proof.
  intros Hn Hx. rewrite <- Z.land_ones by lia.
  rewrite (Z.land_comm y), Z.land_assoc, Z.land_ones by lia.
  by rewrite Z.mod_small.
Qed.

Lemma ALIGN_POT_round_up n x k :
  0 <= k <= n -> 0 <= x -> x + 2 ^ k - 1 < 2 ^ n ->
  ALIGN_POT (2 ^ n) x (2 ^ k) = round_up x (2 ^ k).
Proof.
  intros Hk Hx Hb. unfold ALIGN_POT, round_up.
  assert (0 < 2 ^ k) by (apply Z.pow_pos_nonneg; lia).
  rewrite (Z.mod_small (x + _ - 1)) by lia.
  rewrite land_mod_r by lia. by rewrite land_lnot_ones by lia.
Qed.

Lemma round_up_spec x a :
  0 < a -> x <= round_up x a < x + a /\ round_up x a mod a = 0.
Proof.
  intros Ha. unfold round_up. split; [|apply Z_mod_mult].
  pose proof (Z.mul_div_le (x + a - 1) a Ha).
  pose proof (Z.mul_succ_div_gt (x + a - 1) a Ha). lia.
Qed.

Lemma round_up_least x a y : 0 < a -> y mod a = 0 -> x <= y -> round_up x a <= y.
Proof.
  intros Ha Hm Hle. unfold round_up.
  apply Z.mod_divide in Hm as [q ->]; [|lia].
  assert ((x + a - 1) / a <= q); [|nia].
  apply Z.lt_succ_r, Z.div_lt_upper_bound; lia.
Qed.

Lemma round_up_id x a : 0 < a -> x mod a = 0 -> round_up x a = x.
Proof.
  intros Ha Hm. pose proof (round_up_spec x a Ha). pose proof (round_up_least x a x Ha Hm). lia.
Qed.

(** Alignments that are concrete powers of two. *)
Lemma align_round_up k x :
  0 <= k <= 32 -> 0 <= x -> x + 2 ^ k - 1 < W32 -> align x (2 ^ k) = round_up x (2 ^ k).
Proof. intros. by apply (ALIGN_POT_round_up 32). Qed.

Lemma align64_round_up k x :
  0 <= k <= 64 -> 0 <= x -> x + 2 ^ k - 1 < W64 -> align64 x (2 ^ k) = round_up x (2 ^ k).
Proof. intros. by apply (ALIGN_POT_round_up 64). Qed.

(** A power of two in the C sense is a power of two. *)
Lemma util_is_power_of_two_nonzero_spec v :
  0 <= v -> util_is_power_of_two_nonzero v = true -> exists k, 0 <= k /\ v = 2 ^ k.
Proof.
  intros Hv. unfold util_is_power_of_two_nonzero.
  rewrite andb_true_iff, negb_true_iff, Z.eqb_neq, Z.eqb_eq. intros [Hz Hl].
  exists (Z.log2 v). split; [apply Z.log2_nonneg|].
  pose proof (Z.log2_spec v ltac:(lia)) as [H1 H2].
  pose proof (Z.pow_pos_nonneg 2 (Z.log2 v) ltac:(lia) (Z.log2_nonneg v)).
  destruct (Z.eq_dec v (2 ^ Z.log2 v)) as [|Hne]; [done|].
  assert (Hb : Z.testbit (Z.land v (v - 1)) (Z.log2 v) = true).
  { rewrite Z.land_spec, Z.bit_log2 by lia. simpl.
    replace (Z.log2 v) with (Z.log2 (v - 1)); [apply Z.bit_log2; lia|].
    apply Z.log2_unique; [apply Z.log2_nonneg|lia]. }
  rewrite Hl, Z.bits_0 in Hb. done.
Qed.

Lemma util_is_power_of_two_nonzero_pow k :
  0 <= k -> util_is_power_of_two_nonzero (2 ^ k) = true.
Proof.
  intros Hk. unfold util_is_power_of_two_nonzero.
  assert (0 < 2 ^ k) by (apply Z.pow_pos_nonneg; lia).
  apply andb_true_iff. split; [apply negb_true_iff, Z.eqb_neq; lia|apply Z.eqb_eq].
  replace (2 ^ k - 1) with (Z.ones k) by (rewrite Z.ones_equiv; lia).
  rewrite Z.land_ones by lia. apply Z_mod_same_full.
Qed.

(** A larger power of two is a multiple of a smaller one. *)
Lemma pow2_mod_pow2 k n : 0 <= k <= n -> 2 ^ n mod 2 ^ k = 0.
Proof.
  intros. replace (2 ^ n) with (2 ^ (n - k) * 2 ^ k)
    by (rewrite <- Z.pow_add_r by lia; f_equal; lia).
  apply Z_mod_mult.
Qed.

(** Sequencing after a computed result. *)
Lemma bind_some {A B} (a : A) (k : A -> option B) : mbind k (Some a) = k a.
Proof. reflexivity. Qed.

Lemma swap_remove_Permutation {A} (i : nat) (x : A) (l : list A) :
  l !! i = Some x -> l ≡ₚ x :: swap_remove i l.
Proof.
  intros Hi. destruct l as [|z l _] using rev_ind; [done|].
  unfold swap_remove. rewrite last_snoc, length_app. simpl.
  replace (length l + 1 - 1)%nat with (length l) by lia.
  destruct (decide (i = length l)) as [->|Hne].
  - rewrite list_lookup_middle in Hi by done. injection Hi as <-.
    rewrite take_insert_ge by lia. rewrite take_app_length.
    by rewrite (Permutation_app_comm l [z]).
  - assert (i < length l)%nat as Hlt.
    { apply lookup_lt_Some in Hi. rewrite length_app in Hi. simpl in Hi. lia. }
    rewrite insert_app_l by done. rewrite lookup_app_l in Hi by done.
    rewrite <- (length_insert l i z) at 1. rewrite take_app_length.
    apply list_elem_of_split_length in Hi as (l1&l2&->&->).
    rewrite insert_app_r_alt by lia. rewrite Nat.sub_diag. simpl.
    rewrite <- app_assoc. simpl. rewrite <- (Permutation_middle l1 (l2 ++ [z]) x). constructor.
    by rewrite (Permutation_app_comm l2 [z]).
Qed.
