(* ===== verification/Vma.v ===== *)
(** The virtual-address heap of src/util/vma.c, with the assertions of the
    source ([None] is a failed assertion) and 64-bit wrap-around.

    A heap is its list of holes from high to low address.  The theorems relate
    every operation to the set of free addresses the list denotes. *)

From S2P Require Import Prelude.

(** [struct util_vma_hole], without its list link. *)
Record util_vma_hole := Hole { h_offset : Z; h_size : Z }.

(** [struct util_vma_heap]; [holes] is the linked list, high to low. *)
Record util_vma_heap := Heap {
  holes : list util_vma_hole;
  free_size : Z;
  alloc_high : bool;
  nospan_shift : Z
}.

Definition BITFIELD64_BIT (b : Z) : Z := u64 (Z.shiftl 1 b).
Definition BITFIELD64_MASK (b : Z) : Z :=
  if b =? 64 then W64 - 1 else BITFIELD64_BIT (Z.land b 63) - 1.

(** The loop of [util_vma_heap_validate]: the accumulated [free_size]. *)
Fixpoint validate_holes (topmost : bool) (prev_offset total : Z) (l : list util_vma_hole)
  : option Z :=
  match l with
  | [] => Some total
  | hole :: l =>
      assert! 0 <? h_offset hole ;;
      assert! 0 <? h_size hole ;;
      let total := u64 (total + h_size hole) in
      let top := u64 (h_size hole + h_offset hole) in
      assert! (if topmost
               then (top =? 0) || (h_offset hole <? top)
               else (h_offset hole <? top) && (top <? prev_offset)) ;;
      validate_holes false (h_offset hole) total l
  end.

Definition util_vma_heap_validate (heap : util_vma_heap) : option unit :=
  let! total := validate_holes true 0 0 (holes heap) ;;
  cassert (total =? free_size heap).

(** What [util_vma_hole_alloc] leaves in place of [hole], high to low. *)
Definition hole_remainder (hole : util_vma_hole) (offset size : Z)
  : option (list util_vma_hole) :=
  assert! h_offset hole <=? offset ;;
  assert! u64 (offset - h_offset hole + size) <=? h_size hole ;;
  if (offset =? h_offset hole) && (size =? h_size hole) then Some []
  else
    assert! u64 (offset - h_offset hole) <=? u64 (h_size hole - size) ;;
    let waste := u64 (u64 (h_size hole - size) - u64 (offset - h_offset hole)) in
    if waste =? 0 then Some [Hole (h_offset hole) (u64 (h_size hole - size))]
    else if offset =? h_offset hole then
      Some [Hole (u64 (h_offset hole + size)) (u64 (h_size hole - size))]
    else
      Some [Hole (u64 (offset + size)) waste;
            Hole (h_offset hole) (u64 (offset - h_offset hole))].

(** The hole is named by its neighbours: the list is [above ++ hole :: below]. *)
Definition util_vma_hole_alloc (heap : util_vma_heap) (above : list util_vma_hole)
    (hole : util_vma_hole) (below : list util_vma_hole) (offset size : Z)
  : option util_vma_heap :=
  let! rest := hole_remainder hole offset size ;;
  Some (Heap (above ++ rest ++ below) (u64 (free_size heap - size))
             (alloc_high heap) (nospan_shift heap)).

(** Body of the high-to-low search: [Some None] is [continue]. *)
Definition alloc_high_body (nospan size alignment : Z) (hole : util_vma_hole)
  : option (option Z) :=
  if h_size hole <? size then Some None
  else
    let offset := u64 (u64 (h_size hole - size) + h_offset hole) in
    let! candidate :=
      (if nospan =? 0 then Some (Some offset)
       else
         let end_ := u64 (offset + size - 1) in
         if Z.shiftr end_ nospan =? Z.shiftr offset nospan then Some (Some offset)
         else
           let end_ := Z.land end_ (Z.lnot (BITFIELD64_MASK nospan)) in
           assert! size <=? end_ ;;
           let offset := u64 (offset - size) in
           if offset <? h_offset hole then Some None else Some (Some offset)) ;;
    match candidate with
    | None => Some None
    | Some offset =>
        let offset := offset / alignment * alignment in
        if offset <? h_offset hole then Some None else Some (Some offset)
    end.

(** Body of the low-to-high search. *)
Definition alloc_low_body (nospan size alignment : Z) (hole : util_vma_hole)
  : option (option Z) :=
  if h_size hole <? size then Some None
  else
    let offset := h_offset hole in
    let misalign := offset mod alignment in
    let pad := alignment - misalign in
    if negb (misalign =? 0) && (u64 (h_size hole - size) <? pad) then Some None
    else
      let offset := if misalign =? 0 then offset else u64 (offset + pad) in
      if nospan =? 0 then Some (Some offset)
      else
        let end_ := u64 (offset + size - 1) in
        if Z.shiftr end_ nospan =? Z.shiftr offset nospan then Some (Some offset)
        else
          let offset := Z.land end_ (Z.lnot (BITFIELD64_MASK nospan)) in
          if u64 (h_offset hole + h_size hole) <? u64 (offset + size) then Some None
          else Some (Some offset).

(** The search itself: the first hole the body accepts, with its neighbours. *)
Fixpoint first_hole (body : util_vma_hole -> option (option Z))
    (before l : list util_vma_hole)
  : option (option (list util_vma_hole * util_vma_hole * list util_vma_hole * Z)) :=
  match l with
  | [] => Some None
  | hole :: l =>
      let! r := body hole ;;
      match r with
      | Some offset => Some (Some (before, hole, l, offset))
      | None => first_hole body (before ++ [hole]) l
      end
  end.

(** [util_vma_heap_alloc]: the offset, 0 when nothing fits. *)
Definition util_vma_heap_alloc (heap : util_vma_heap) (size alignment : Z)
  : option (Z * util_vma_heap) :=
  assert! 0 <? size ;;
  assert! 0 <? alignment ;;
  let! _ := util_vma_heap_validate heap ;;
  assert! (nospan_shift heap =? 0)
          || (util_is_power_of_two_nonzero alignment
              && (align64 (BITFIELD64_BIT (nospan_shift heap)) alignment
                  =? BITFIELD64_BIT (nospan_shift heap))) ;;
  if alloc_high heap then
    let! r := first_hole (alloc_high_body (nospan_shift heap) size alignment) [] (holes heap) ;;
    match r with
    | None => Some (0, heap)
    | Some (above, hole, below, offset) =>
        let! heap := util_vma_hole_alloc heap above hole below offset size ;;
        let! _ := util_vma_heap_validate heap ;;
        Some (offset, heap)
    end
  else
    let! r := first_hole (alloc_low_body (nospan_shift heap) size alignment) []
                         (reverse (holes heap)) ;;
    match r with
    | None => Some (0, heap)
    | Some (below, hole, above, offset) =>
        let! heap := util_vma_hole_alloc heap (reverse above) hole (reverse below) offset size ;;
        let! _ := util_vma_heap_validate heap ;;
        Some (offset, heap)
    end.

(** [util_vma_heap_alloc_addr]: the flag and the heap. *)
Definition util_vma_heap_alloc_addr (heap : util_vma_heap) (offset size : Z)
  : option (bool * util_vma_heap) :=
  assert! 0 <? offset ;;
  assert! 0 <? size ;;
  assert! (u64 (offset + size) =? 0) || (offset <? u64 (offset + size)) ;;
  let! r := first_hole (fun hole => Some (if offset <? h_offset hole then None else Some offset))
                       [] (holes heap) ;;
  match r with
  | None => Some (false, heap)
  | Some (above, hole, below, _) =>
      assert! h_offset hole <=? offset ;;
      if h_size hole <? u64 (offset - h_offset hole + size) then Some (false, heap)
      else
        let! heap := util_vma_hole_alloc heap above hole below offset size ;;
        Some (true, heap)
  end.

(** The neighbour search of [util_vma_heap_free]: the holes above [offset] and
    the rest. *)
Fixpoint split_at (offset : Z) (l : list util_vma_hole)
  : list util_vma_hole * list util_vma_hole :=
  match l with
  | [] => ([], [])
  | hole :: l' =>
      if h_offset hole <=? offset then ([], l)
      else let '(above, below) := split_at offset l' in (hole :: above, below)
  end.

(** The merge step of [util_vma_heap_free]: join the released range with the
    adjacent neighbours, or insert a hole of its own. *)
Definition merge_holes (above below : list util_vma_hole) (offset size : Z)
  : list util_vma_hole :=
  let high_hole := last above in
  let low_hole := head below in
  let high_adjacent := match high_hole with
                       | Some high => u64 (offset + size) =? h_offset high
                       | None => false
                       end in
  let low_adjacent := match low_hole with
                      | Some low => u64 (h_offset low + h_size low) =? offset
                      | None => false
                      end in
  match high_hole, low_hole, high_adjacent, low_adjacent with
  | Some high, Some low, true, true =>
      removelast above
        ++ Hole (h_offset low) (u64 (h_size low + u64 (size + h_size high))) :: tail below
  | _, Some low, _, true =>
      above ++ Hole (h_offset low) (u64 (h_size low + size)) :: tail below
  | Some high, _, true, _ =>
      removelast above ++ Hole offset (u64 (h_size high + size)) :: below
  | _, _, _, _ => above ++ Hole offset size :: below
  end.

Definition util_vma_heap_free (heap : util_vma_heap) (offset size : Z)
  : option util_vma_heap :=
  assert! 0 <? offset ;;
  assert! 0 <? size ;;
  assert! (u64 (offset + size) =? 0) || (offset <? u64 (offset + size)) ;;
  let! _ := util_vma_heap_validate heap ;;
  let '(above, below) := split_at offset (holes heap) in
  assert! match last above with
          | Some high => u64 (offset + size) <=? h_offset high
          | None => true
          end ;;
  assert! match head below with
          | Some low => (h_offset low <? u64 (h_offset low + h_size low))
                        && (u64 (h_offset low + h_size low) <=? offset)
          | None => true
          end ;;
  let heap := Heap (merge_holes above below offset size) (u64 (free_size heap + size))
                   (alloc_high heap) (nospan_shift heap) in
  let! _ := util_vma_heap_validate heap ;;
  Some heap.

(** [util_vma_heap_init] frees the whole range into an empty heap. *)
Definition util_vma_heap_init (start size : Z) : option util_vma_heap :=
  let heap := Heap [] 0 true 0 in
  let! heap := (if 0 <? size then util_vma_heap_free heap start size else Some heap) ;;
  Some (Heap (holes heap) (free_size heap) true 0).

Definition util_vma_heap_get_max_free_continuous_size (heap : util_vma_heap) : Z :=
  fold_left (fun max_size hole => Z.max max_size (h_size hole)) (holes heap) 0.

(** * The invariant and the meaning of a heap *)

(** Holes lie strictly below [bound], from high to low, with a used address
    between neighbours: the list is coalesced. *)
Fixpoint holes_below (bound : Z) (l : list util_vma_hole) : Prop :=
  match l with
  | [] => True
  | hole :: l =>
      0 < h_offset hole /\ 0 < h_size hole /\ h_offset hole + h_size hole < bound
      /\ holes_below (h_offset hole) l
  end.

Fixpoint total_size (l : list util_vma_hole) : Z :=
  match l with [] => 0 | hole :: l => h_size hole + total_size l end.

Definition in_hole (hole : util_vma_hole) (a : Z) : Prop :=
  h_offset hole <= a < h_offset hole + h_size hole.

(** The addresses a hole list makes available. *)
Definition free_in (l : list util_vma_hole) (a : Z) : Prop :=
  Exists (fun hole => in_hole hole a) l.

Definition is_free (heap : util_vma_heap) (a : Z) : Prop := free_in (holes heap) a.

Definition heap_wf (heap : util_vma_heap) : Prop :=
  holes_below (W64 + 1) (holes heap) /\ free_size heap = total_size (holes heap).

(** Lowest bound after a prefix of holes. *)
Fixpoint bound_after (bound : Z) (l : list util_vma_hole) : Z :=
  match l with [] => bound | hole :: l => bound_after (h_offset hole) l end.

Lemma holes_below_app bound l1 l2 :
  holes_below bound (l1 ++ l2)
  <-> holes_below bound l1 /\ holes_below (bound_after bound l1) l2.
Proof. revert bound. induction l1; intros; simpl; [tauto|]. rewrite IHl1. tauto. Qed.

Lemma holes_below_mono b b' l : b <= b' -> holes_below b l -> holes_below b' l.
Proof. destruct l; simpl; intuition lia. Qed.

Lemma bound_after_app b l1 l2 : bound_after b (l1 ++ l2) = bound_after (bound_after b l1) l2.
Proof. revert b. by induction l1; intros; simpl. Qed.

Lemma bound_after_le b l : holes_below b l -> bound_after b l <= b.
Proof.
  revert b. induction l as [|h l IH]; simpl; intros b; [lia|].
  intros (?&?&?&Hl). specialize (IH _ Hl). lia.
Qed.

Lemma bound_after_pos b l : 0 < b -> holes_below b l -> 0 < bound_after b l.
Proof.
  revert b. induction l as [|h l IH]; simpl; intros b ?; [done|].
  intros (?&?&?&Hl). eauto.
Qed.

Lemma bound_after_mono b b' l : b <= b' -> bound_after b l <= bound_after b' l.
Proof. destruct l; simpl; lia. Qed.

Lemma total_size_app l1 l2 : total_size (l1 ++ l2) = total_size l1 + total_size l2.
Proof. induction l1; simpl; lia. Qed.

Lemma free_in_app l1 l2 a : free_in (l1 ++ l2) a <-> free_in l1 a \/ free_in l2 a.
Proof. apply Exists_app. Qed.

Lemma free_in_cons h l a : free_in (h :: l) a <-> in_hole h a \/ free_in l a.
Proof. apply Exists_cons. Qed.

Lemma free_in_nil a : ~ free_in [] a.
Proof. inversion 1. Qed.

(** The free set is decidable, which lets [lia] reason about membership. *)
Definition freeb (l : list util_vma_hole) (a : Z) : bool :=
  existsb (fun hole => (h_offset hole <=? a) && (a <? h_offset hole + h_size hole)) l.

Lemma free_in_freeb l a : free_in l a <-> freeb l a = true.
Proof.
  unfold freeb. induction l as [|h l IH]; simpl; [split; [intros []%free_in_nil|done]|].
  rewrite free_in_cons, IH, orb_true_iff, andb_true_iff, Z.leb_le, Z.ltb_lt. done.
Qed.

Lemma free_in_single h a : free_in [h] a <-> in_hole h a.
Proof. rewrite free_in_cons. pose proof (free_in_nil a). tauto. Qed.

(** Free addresses of a bounded list are positive and below the bound, and
    above everything that follows the list. *)
Lemma free_in_bounds b l a : holes_below b l -> free_in l a -> 0 < bound_after b l <= a /\ a < b - 1.
Proof.
  revert b. induction l as [|h l IH]; intros b; simpl.
  { intros _ []%free_in_nil. }
  intros (?&?&?&Hl). rewrite free_in_cons. unfold in_hole. intros [Ha|Ha].
  - pose proof (bound_after_le _ _ Hl). pose proof (bound_after_pos _ _ H Hl). lia.
  - specialize (IH _ Hl Ha). lia.
Qed.

Lemma total_size_bound b l : 0 < b -> holes_below b l -> 0 <= total_size l < b.
Proof.
  revert b. induction l as [|h l IH]; simpl; intros b ?; [lia|].
  intros (?&?&?&Hl). specialize (IH _ H0 Hl). lia.
Qed.

Lemma total_size_nonneg b l : holes_below b l -> 0 <= total_size l.
Proof.
  destruct l as [|h l]; simpl; [lia|]. intros (?&?&?&Hl).
  pose proof (total_size_bound _ _ H Hl). lia.
Qed.

(** ** Validation accepts every well-formed heap *)

Lemma validate_holes_ok (topmost : bool) prev total l :
  holes_below (if topmost then W64 + 1 else prev) l -> (topmost = false -> prev <= W64) ->
  0 <= total -> total + total_size l < W64 ->
  validate_holes topmost prev total l = Some (total + total_size l).
Proof.
  revert topmost prev total. induction l as [|h l IH]; intros topmost prev total; simpl.
  { intros. f_equal. lia. }
  intros (?&?&?&Hl) Hp Ht Hb.
  pose proof (total_size_nonneg _ _ Hl).
  pass_assert. pass_assert. rewrite (u64_small (total + _)) by lia.
  assert (Htop : h_size h + h_offset h = W64 /\ topmost = true \/ h_size h + h_offset h < W64).
  { destruct topmost; [|specialize (Hp eq_refl)]; lia. }
  rewrite cassert_bind.
  - rewrite IH; [f_equal; lia|done| |lia|lia].
    intros _. destruct topmost; [|specialize (Hp eq_refl)]; lia.
  - destruct Htop as [[-> ->]|Htop]; [done|].
    rewrite u64_small by lia.
    destruct topmost; rewrite ?orb_true_iff, ?andb_true_iff, ?Z.ltb_lt; lia.
Qed.

Lemma util_vma_heap_validate_ok heap : heap_wf heap -> util_vma_heap_validate heap = Some tt.
Proof.
  intros [Hl Hf]. unfold util_vma_heap_validate.
  assert (Ht : total_size (holes heap) < W64).
  { destruct (holes heap) as [|h l]; simpl in *; [done|]. destruct Hl as (?&?&?&Hl).
    pose proof (total_size_bound _ _ H Hl). lia. }
  rewrite validate_holes_ok by (auto; lia). simpl. rewrite Hf. apply cassert_true, Z.eqb_refl.
Qed.

Lemma heap_wf_total heap : heap_wf heap -> 0 <= total_size (holes heap) < W64.
Proof.
  intros [Hl _]. destruct (holes heap) as [|h l]; simpl in *; [done|].
  destruct Hl as (?&?&?&Hl). pose proof (total_size_bound _ _ H Hl). lia.
Qed.

(** ** Replacing one hole by the pieces that remain of it *)

(** [rest] fills part of [hole]. *)
Definition pieces_of (hole : util_vma_hole) (rest : list util_vma_hole) : Prop :=
  holes_below (h_offset hole + h_size hole + 1) rest
  /\ h_offset hole <= bound_after (h_offset hole + h_size hole + 1) rest.

Lemma holes_below_replace b above hole rest below :
  holes_below b (above ++ hole :: below) -> pieces_of hole rest ->
  holes_below b (above ++ rest ++ below).
Proof.
  rewrite !holes_below_app. simpl. intros (Ha&?&?&?&Hb) (Hr&Hle).
  split; [done|].
  assert (Hr' : holes_below (bound_after b above) rest).
  { eapply holes_below_mono; [|exact Hr]. lia. }
  split; [done|]. destruct rest as [|r rest]; simpl in *.
  - eapply holes_below_mono; [|exact Hb]. lia.
  - eapply holes_below_mono; [|exact Hb]. lia.
Qed.

Lemma disjoint_neighbours b above hole below a :
  holes_below b (above ++ hole :: below) -> in_hole hole a ->
  ~ free_in above a /\ ~ free_in below a.
Proof.
  rewrite holes_below_app. simpl. intros (Ha&?&?&?&Hb) Hin. unfold in_hole in *.
  split; intros Hf.
  - pose proof (free_in_bounds _ _ _ Ha Hf). lia.
  - pose proof (free_in_bounds _ _ _ Hb Hf). lia.
Qed.

(** What [hole_remainder] computes when the range fits the hole. *)
Lemma hole_remainder_spec hole offset size :
  0 < h_offset hole -> h_offset hole + h_size hole <= W64 ->
  0 < size -> h_offset hole <= offset -> offset + size <= h_offset hole + h_size hole ->
  exists rest, hole_remainder hole offset size = Some rest
    /\ pieces_of hole rest
    /\ total_size rest = h_size hole - size
    /\ forall a, free_in rest a <-> in_hole hole a /\ ~ (offset <= a < offset + size).
Proof.
  intros. unfold hole_remainder. unwrap. pass_assert. pass_assert.
  pose proof free_in_nil as Hnil.
  destruct (Z.eqb_spec offset (h_offset hole)), (Z.eqb_spec size (h_size hole)); simpl;
    try (eexists; split; [reflexivity|]; unfold pieces_of; simpl; split; [lia|]; split; [lia|];
         intros a; split; [intros []%Hnil|unfold in_hole; lia]).
  all: pass_assert; repeat case_cmp; try lia;
    eexists; (split; [reflexivity|]); unwrap; unfold pieces_of; simpl;
    (split; [lia|]); (split; [lia|]); intros a;
    rewrite ?free_in_cons; unfold in_hole; simpl; split;
    try (intros [?|Hf]; [lia|try (exfalso; exact (Hnil _ Hf))]); try lia.
  all: try (destruct Hf as [?|Hf]; [lia|exfalso; exact (Hnil _ Hf)]).
Qed.

(** Carving [offset, offset+size) out of one hole of the list. *)
Definition carved (heap heap' : util_vma_heap) (offset size : Z) : Prop :=
  heap_wf heap'
  /\ (forall a, offset <= a < offset + size -> is_free heap a)
  /\ (forall a, is_free heap' a <-> is_free heap a /\ ~ (offset <= a < offset + size))
  /\ free_size heap' = free_size heap - size
  /\ alloc_high heap' = alloc_high heap /\ nospan_shift heap' = nospan_shift heap.

Lemma util_vma_hole_alloc_spec heap above hole below offset size :
  heap_wf heap -> holes heap = above ++ hole :: below ->
  0 < size -> h_offset hole <= offset -> offset + size <= h_offset hole + h_size hole ->
  exists heap', util_vma_hole_alloc heap above hole below offset size = Some heap'
    /\ carved heap heap' offset size.
Proof.
  intros Hwf Hh Hs Ho Hfit. pose proof (heap_wf_total _ Hwf) as Ht.
  destruct Hwf as [Hl Hf]. rewrite Hh in Hl, Ht. rewrite Hh in Hf.
  pose proof Hl as Hl'. rewrite holes_below_app in Hl'. simpl in Hl'.
  destruct Hl' as (Ha&?&?&?&Hb).
  pose proof (bound_after_le _ _ Ha).
  destruct (hole_remainder_spec hole offset size) as (rest&Hr&Hp&Hts&Hfree); try lia.
  unfold util_vma_hole_alloc. rewrite Hr. simpl. eexists. split; [done|].
  rewrite total_size_app in Ht, Hf. simpl in Ht, Hf.
  pose proof (total_size_nonneg _ _ Ha). pose proof (total_size_nonneg _ _ Hb).
  unfold carved, is_free, heap_wf. simpl. rewrite Hh, !total_size_app, Hts.
  split; [split; [by eapply holes_below_replace|rewrite u64_small; lia]|].
  split; [|split; [|split; [rewrite u64_small; lia|done]]].
  - intros a Hin. rewrite free_in_app, free_in_cons. unfold in_hole. lia.
  - intros a. rewrite !free_in_app, free_in_cons, Hfree.
    assert (in_hole hole a -> ~ free_in above a /\ ~ free_in below a)
      by (eapply disjoint_neighbours; eauto).
    assert (offset <= a < offset + size -> in_hole hole a) by (unfold in_hole; lia).
    tauto.
Qed.

(** ** The search loops *)

Lemma first_hole_spec body before l :
  Forall (fun hole => body hole <> None) l ->
  exists r, first_hole body before l = Some r
    /\ match r with
       | None => Forall (fun hole => body hole = Some None) l
       | Some (b, hole, after, offset) =>
           exists skipped, b = before ++ skipped /\ l = skipped ++ hole :: after
             /\ body hole = Some (Some offset)
             /\ Forall (fun hole => body hole = Some None) skipped
       end.
Proof.
  intros Hall. revert before. induction Hall as [|h l Hh Hall IH]; intros before; simpl.
  { eexists. split; [done|]. constructor. }
  destruct (body h) as [[offset|]|] eqn:Eb; [| |done]; simpl.
  - eexists. split; [done|]. exists []. rewrite app_nil_r. simpl. auto.
  - destruct (IH (before ++ [h])) as (r&Hr&Hspec). exists r. split; [done|].
    destruct r as [[[[b hole] after] offset]|]; [|by constructor].
    destruct Hspec as (skipped&->&->&Hb&Hs).
    exists (h :: skipped). rewrite <- app_assoc. simpl. auto.
Qed.

(** Every hole of a bounded list is positive and ends within the bound. *)
Lemma holes_below_Forall b l :
  holes_below b l ->
  Forall (fun hole => 0 < h_offset hole /\ 0 < h_size hole /\ h_offset hole + h_size hole < b) l.
Proof.
  revert b. induction l as [|h l IH]; intros b; simpl; [constructor|].
  intros (?&?&?&Hl). constructor; [done|].
  eapply Forall_impl; [by apply IH|]. simpl. intros. lia.
Qed.

(** A contiguous free range lies inside one hole: neighbours never touch. *)
Lemma free_range_in_hole b l offset size :
  holes_below b l -> 0 < size ->
  (forall a, offset <= a < offset + size -> free_in l a) ->
  exists above hole below, l = above ++ hole :: below
    /\ h_offset hole <= offset /\ offset + size <= h_offset hole + h_size hole.
Proof.
  revert b. induction l as [|h l IH]; intros b Hl Hs Hfree.
  { destruct (free_in_nil offset). apply Hfree. lia. }
  simpl in Hl. destruct Hl as (?&?&?&Hl).
  destruct (Z_le_gt_dec (h_offset h) offset) as [Hle|Hgt].
  - exists [], h, l. split; [done|]. split; [done|].
    destruct (Z_le_gt_dec (offset + size) (h_offset h + h_size h)); [done|exfalso].
    destruct (Z_le_gt_dec (h_offset h + h_size h) offset).
    + specialize (Hfree offset ltac:(lia)). apply free_in_cons in Hfree as [Hin|Hf].
      * unfold in_hole in Hin. lia.
      * pose proof (free_in_bounds _ _ _ Hl Hf). lia.
    + specialize (Hfree (h_offset h + h_size h) ltac:(lia)).
      apply free_in_cons in Hfree as [Hin|Hf].
      * unfold in_hole in Hin. lia.
      * pose proof (free_in_bounds _ _ _ Hl Hf). lia.
  - assert (offset + size <= h_offset h - 1) as Hbelow.
    { destruct (Z_le_gt_dec (offset + size) (h_offset h - 1)); [done|exfalso].
      specialize (Hfree (h_offset h - 1) ltac:(lia)).
      apply free_in_cons in Hfree as [Hin|Hf].
      - unfold in_hole in Hin. lia.
      - pose proof (free_in_bounds _ _ _ Hl Hf). lia. }
    destruct (IH _ Hl Hs) as (above&hole&below&->&?&?).
    { intros a Ha. specialize (Hfree a Ha). apply free_in_cons in Hfree as [Hin|Hf]; [|done].
      unfold in_hole in Hin. lia. }
    exists (h :: above), hole, below. done.
Qed.

(** ** The two loop bodies *)

(** A placement of [size] bytes in [hole] at an aligned address. *)
Definition fits (hole : util_vma_hole) (size alignment offset : Z) : Prop :=
  h_offset hole <= offset /\ offset + size <= h_offset hole + h_size hole
  /\ offset mod alignment = 0.

Definition hole_ok (hole : util_vma_hole) : Prop :=
  0 < h_offset hole /\ 0 < h_size hole /\ h_offset hole + h_size hole <= W64.

Lemma alloc_high_body_spec size alignment hole :
  hole_ok hole -> 0 < size -> 0 < alignment ->
  exists r, alloc_high_body 0 size alignment hole = Some r
    /\ match r with
       | Some offset => fits hole size alignment offset
                        /\ forall a, fits hole size alignment a -> a <= offset
       | None => forall a, ~ fits hole size alignment a
       end.
Proof.
  intros (?&?&?) Hs Ha. unfold alloc_high_body, fits.
  destruct (Z.ltb_spec (h_size hole) size); [eexists; split; [done|]; simpl; lia|].
  unwrap. simpl. set (top := h_size hole - size + h_offset hole).
  pose proof (Z.mul_div_le top alignment Ha).
  assert (Hmax : forall a, a mod alignment = 0 -> a <= top -> a <= top / alignment * alignment).
  { intros a Hm Hle. apply Z.mod_divide in Hm as [q ->]; [|lia].
    apply Z.mul_le_mono_nonneg_r; [lia|]. apply Z.div_le_lower_bound; lia. }
  case_cmp; eexists; (split; [reflexivity|]); simpl.
  - intros a (?&?&Hm). specialize (Hmax a Hm). lia.
  - rewrite Z_mod_mult. split; [lia|]. intros a (?&?&Hm). apply Hmax; [done|lia].
Qed.

(** Rounding [x] up with the modulus, as the low search does. *)
Lemma pad_round_up x a : 0 < a -> 0 <= x ->
  (if x mod a =? 0 then x else x + (a - x mod a)) = round_up x a.
Proof.
  intros Ha Hx. case_cmp; [by rewrite round_up_id|].
  pose proof (Z.mod_pos_bound x a Ha). pose proof (round_up_spec x a Ha) as [? Hm].
  assert (Hm' : (x + (a - x mod a)) mod a = 0).
  { rewrite (Z.div_mod x a) at 1 by lia.
    replace (a * (x / a) + x mod a + (a - x mod a)) with ((x / a + 1) * a) by lia.
    apply Z_mod_mult. }
  pose proof (round_up_least x a _ Ha Hm' ltac:(lia)).
  apply Z.mod_divide in Hm as [q Hq]; [|lia]. apply Z.mod_divide in Hm' as [q' Hq']; [|lia].
  assert (q' < q + 1) by (apply (Z.mul_lt_mono_pos_r a); lia).
  assert (q <= q') by (apply (Z.mul_le_mono_pos_r _ _ a); lia).
  replace q' with q in Hq' by lia. lia.
Qed.

Lemma alloc_low_body_spec size alignment hole :
  hole_ok hole -> 0 < size -> 0 < alignment ->
  exists r, alloc_low_body 0 size alignment hole = Some r
    /\ match r with
       | Some offset => fits hole size alignment offset
                        /\ forall a, fits hole size alignment a -> offset <= a
       | None => forall a, ~ fits hole size alignment a
       end.
Proof.
  intros (?&?&?) Hs Ha. unfold alloc_low_body, fits.
  destruct (Z.ltb_spec (h_size hole) size); [eexists; split; [done|]; simpl; lia|].
  pose proof (Z.mod_pos_bound (h_offset hole) alignment Ha).
  pose proof (pad_round_up (h_offset hole) alignment Ha ltac:(lia)) as Hpad.
  pose proof (round_up_spec (h_offset hole) alignment Ha) as [? Hm].
  pose proof (fun a H1 H2 => round_up_least (h_offset hole) alignment a Ha H1 H2) as Hleast.
  rewrite (u64_small (h_size hole - size)) by lia.
  destruct (Z.eqb_spec (h_offset hole mod alignment) 0); simpl.
  - eexists. split; [done|]. simpl. intuition lia.
  - case_cmp; eexists; (split; [reflexivity|]); simpl.
    + intros a (?&?&?). specialize (Hleast a). lia.
    + rewrite u64_small by lia. rewrite Hpad. split; [lia|]. intros a (?&?&?). by apply Hleast.
Qed.

(** ** The low search with a boundary that must not be spanned *)

Lemma BITFIELD64_BIT_pow b : 0 <= b < 64 -> BITFIELD64_BIT b = 2 ^ b.
Proof.
  intros. unfold BITFIELD64_BIT. rewrite Z.shiftl_1_l. apply u64_small.
  split; [apply Z.pow_nonneg; lia|]. apply (Z.pow_lt_mono_r 2 b 64); lia.
Qed.

Lemma BITFIELD64_MASK_pow b : 0 <= b < 64 -> BITFIELD64_MASK b = 2 ^ b - 1.
Proof.
  intros. unfold BITFIELD64_MASK. destruct (Z.eqb_spec b 64); [lia|].
  replace (Z.land b 63) with b; [by rewrite BITFIELD64_BIT_pow|].
  change 63 with (Z.ones 6). rewrite Z.land_ones by lia. symmetry. by apply Z.mod_small.
Qed.

(** [size] bytes at [offset] stay inside one [2^ns]-byte block. *)
Definition nospan (ns size offset : Z) : Prop := offset / 2 ^ ns = (offset + size - 1) / 2 ^ ns.

(** Moving up to the block boundary that the range crosses. *)
Lemma block_boundary ns size alignment o :
  0 < ns -> 0 < size <= 2 ^ ns -> (exists k, 0 <= k <= ns /\ alignment = 2 ^ k) ->
  let b := (o + size - 1) / 2 ^ ns * 2 ^ ns in
  o / 2 ^ ns <> (o + size - 1) / 2 ^ ns ->
  o < b <= o + size - 1 /\ b mod alignment = 0 /\ nospan ns size b.
Proof.
  intros Hns Hs (k&Hk&->) b Hne. subst b.
  assert (0 < 2 ^ ns) as Hp by (apply Z.pow_pos_nonneg; lia).
  set (e := o + size - 1) in *.
  pose proof (Z.mul_div_le e (2 ^ ns) Hp). pose proof (Z.div_le_mono o e (2 ^ ns) Hp ltac:(lia)).
  pose proof (Z.mul_succ_div_gt o (2 ^ ns) Hp).
  split; [|split].
  - split; [|lia]. assert (Z.succ (o / 2 ^ ns) <= e / 2 ^ ns) by lia. nia.
  - replace (2 ^ ns) with (2 ^ (ns - k) * 2 ^ k) at 2
      by (rewrite <- Z.pow_add_r by lia; f_equal; lia).
    rewrite Z.mul_assoc. apply Z_mod_mult.
  - unfold nospan. rewrite Z.div_mul by lia.
    replace (e / 2 ^ ns * 2 ^ ns + size - 1) with (size - 1 + e / 2 ^ ns * 2 ^ ns) by lia.
    rewrite Z.div_add, (Z.div_small (size - 1)) by lia. lia.
Qed.

Lemma alloc_low_body_nospan ns size alignment hole :
  hole_ok hole -> 0 < ns < 64 -> 0 < size <= 2 ^ ns ->
  (exists k, 0 <= k <= ns /\ alignment = 2 ^ k) -> h_offset hole + h_size hole + 2 ^ ns <= W64 ->
  exists r, alloc_low_body ns size alignment hole = Some r
    /\ forall offset, r = Some offset -> fits hole size alignment offset /\ nospan ns size offset.
Proof.
  intros (?&?&?) Hns Hs Hal Htop.
  assert (0 < alignment) as Ha by (destruct Hal as (k&?&->); apply Z.pow_pos_nonneg; lia).
  unfold alloc_low_body, fits.
  destruct (Z.ltb_spec (h_size hole) size); [eexists; by split|].
  pose proof (Z.mod_pos_bound (h_offset hole) alignment Ha).
  pose proof (pad_round_up (h_offset hole) alignment Ha ltac:(lia)) as Hpad.
  pose proof (round_up_spec (h_offset hole) alignment Ha) as [? Hm].
  rewrite (u64_small (h_size hole - size)) by lia.
  destruct (negb _ && _) eqn:Eskip; [eexists; by split|].
  assert (Hfit : round_up (h_offset hole) alignment + size <= h_offset hole + h_size hole).
  { rewrite <- Hpad. destruct (Z.eqb_spec (h_offset hole mod alignment) 0); simpl in *; [lia|].
    apply Z.ltb_ge in Eskip. lia. }
  replace (if h_offset hole mod alignment =? 0 then h_offset hole
           else u64 (h_offset hole + (alignment - h_offset hole mod alignment)))
    with (round_up (h_offset hole) alignment)
    by (rewrite <- Hpad in *; destruct (_ =? 0); [done|symmetry; apply u64_small; lia]).
  destruct (Z.eqb_spec ns 0); [lia|].
  set (o := round_up (h_offset hole) alignment) in *.
  rewrite (u64_small (o + size - 1)), !Z.shiftr_div_pow2 by lia.
  case_cmp.
  { eexists. split; [done|]. intros ? [= <-]. unfold nospan. intuition lia. }
  rewrite BITFIELD64_MASK_pow, land_lnot_ones by lia.
  destruct (block_boundary ns size alignment o) as (?&Hbm&Hbs); [lia|lia|done|lia|].
  unwrap. case_cmp; eexists; (split; [done|]); [done|]. intros ? [= <-]. intuition lia.
Qed.

(** ** Requests the searches can serve without failing an assertion *)

Definition nospan_request (heap : util_vma_heap) (size alignment : Z) : Prop :=
  alloc_high heap = false /\ 0 < nospan_shift heap < 64 /\ size <= 2 ^ nospan_shift heap
  /\ (exists k, 0 <= k <= nospan_shift heap /\ alignment = 2 ^ k)
  /\ (forall a, is_free heap a -> a + 2 ^ nospan_shift heap < W64).

Definition alloc_request (heap : util_vma_heap) (size alignment : Z) : Prop :=
  0 < size /\ 0 < alignment
  /\ (nospan_shift heap = 0 \/ nospan_request heap size alignment).

Definition alloc_body (heap : util_vma_heap) (size alignment : Z)
  : util_vma_hole -> option (option Z) :=
  if alloc_high heap then alloc_high_body (nospan_shift heap) size alignment
  else alloc_low_body (nospan_shift heap) size alignment.

(** Every hole of a well-formed heap gives the search an answer that fits. *)
Lemma alloc_body_fits heap size alignment hole :
  heap_wf heap -> alloc_request heap size alignment -> hole ∈ holes heap ->
  exists r, alloc_body heap size alignment hole = Some r
    /\ forall offset, r = Some offset -> fits hole size alignment offset.
Proof.
  intros [Hl _] (Hs&Ha&Hns) Hin.
  pose proof (holes_below_Forall _ _ Hl) as Hall. rewrite Forall_forall in Hall.
  destruct (Hall _ Hin) as (?&?&?). assert (hole_ok hole) as Hok by (unfold hole_ok; lia).
  unfold alloc_body. destruct Hns as [->|(->&Hns&Hsz&Hal&Htop)].
  - destruct (alloc_high heap).
    + destruct (alloc_high_body_spec size alignment hole) as (r&->&Hr); try done.
      eexists. split; [done|]. intros ? ->. tauto.
    + destruct (alloc_low_body_spec size alignment hole) as (r&->&Hr); try done.
      eexists. split; [done|]. intros ? ->. tauto.
  - destruct (alloc_low_body_nospan (nospan_shift heap) size alignment hole)
      as (r&->&Hr); try done.
    + assert (is_free heap (h_offset hole + h_size hole - 1)) as Hlast.
      { unfold is_free, free_in. rewrite Exists_exists. exists hole.
        split; [done|]. unfold in_hole. lia. }
      specialize (Htop _ Hlast). lia.
    + eexists. split; [done|]. intros ? ->. by apply Hr.
Qed.

Lemma nospan_assertion heap size alignment :
  alloc_request heap size alignment ->
  (nospan_shift heap =? 0)
  || (util_is_power_of_two_nonzero alignment
      && (align64 (BITFIELD64_BIT (nospan_shift heap)) alignment
          =? BITFIELD64_BIT (nospan_shift heap))) = true.
Proof.
  intros (_&_&[->|(_&Hns&_&(k&Hk&->)&_)]); [done|].
  rewrite util_is_power_of_two_nonzero_pow, BITFIELD64_BIT_pow by lia.
  assert (2 ^ nospan_shift heap <= 2 ^ 63) by (apply Z.pow_le_mono_r; lia).
  assert (2 ^ k <= 2 ^ 63) by (apply Z.pow_le_mono_r; lia).
  assert (0 < 2 ^ k) by (apply Z.pow_pos_nonneg; lia).
  rewrite align64_round_up; [|lia|lia|unfold_words; lia].
  rewrite round_up_id by (auto using pow2_mod_pow2 with lia).
  rewrite Z.eqb_refl. apply orb_true_r.
Qed.

(** The outcome of an allocation: nothing changed and every hole refused, or
    the first hole that accepted was carved. *)
Lemma util_vma_heap_alloc_cases heap size alignment :
  heap_wf heap -> alloc_request heap size alignment ->
  let body := alloc_body heap size alignment in
  exists r heap', util_vma_heap_alloc heap size alignment = Some (r, heap')
    /\ ((r = 0 /\ heap' = heap /\ Forall (fun hole => body hole = Some None) (holes heap))
        \/ exists above hole below, holes heap = above ++ hole :: below
             /\ body hole = Some (Some r) /\ fits hole size alignment r
             /\ carved heap heap' r size
             /\ Forall (fun hole => body hole = Some None)
                  (if alloc_high heap then above else below)).
Proof.
  intros Hwf Hreq body. pose proof Hreq as (Hs&Ha&_).
  unfold util_vma_heap_alloc. pass_assert. pass_assert.
  rewrite (util_vma_heap_validate_ok _ Hwf), (cassert_bind _ _ (nospan_assertion _ _ _ Hreq)). simpl.
  assert (Htot : Forall (fun hole => body hole <> None) (holes heap)).
  { apply Forall_forall. intros h Hin.
    destruct (alloc_body_fits heap size alignment h Hwf Hreq Hin) as (r&Hr&_).
    unfold body. by rewrite Hr. }
  assert (Hcarve : forall above hole below r, holes heap = above ++ hole :: below ->
            body hole = Some (Some r) ->
            fits hole size alignment r
            /\ exists heap', util_vma_hole_alloc heap above hole below r size = Some heap'
                 /\ carved heap heap' r size).
  { intros above hole below r Hh Hb.
    destruct (alloc_body_fits heap size alignment hole Hwf Hreq) as (r'&Hr'&Hfit).
    { rewrite Hh. set_solver. }
    unfold body in Hb. rewrite Hr' in Hb. injection Hb as ->.
    destruct (Hfit r eq_refl) as (?&?&?). split; [done|].
    by apply util_vma_hole_alloc_spec. }
  unfold body, alloc_body in *. destruct (alloc_high heap).
  - destruct (first_hole_spec _ [] _ Htot) as (r&->&Hr). simpl.
    destruct r as [[[[above hole] below] offset]|].
    + destruct Hr as (skipped&->&Hh&Hb&Hsk). change ([] ++ skipped) with skipped.
      destruct (Hcarve skipped hole below offset Hh Hb) as (Hfit&heap'&Ha'&Hc).
      rewrite Ha'. simpl. rewrite util_vma_heap_validate_ok by apply Hc. simpl.
      do 2 eexists. split; [done|]. right. eauto 10.
    + do 2 eexists. split; [done|]. auto.
  - rewrite <- Forall_reverse in Htot.
    destruct (first_hole_spec _ [] _ Htot) as (r&->&Hr). simpl.
    destruct r as [[[[below hole] above] offset]|].
    + destruct Hr as (skipped&->&Hh&Hb&Hsk). change ([] ++ skipped) with skipped.
      assert (Hh' : holes heap = reverse above ++ hole :: reverse skipped).
      { rewrite <- (reverse_involutive (holes heap)), Hh.
        by rewrite reverse_app, reverse_cons, <- app_assoc. }
      destruct (Hcarve _ _ _ offset Hh' Hb) as (Hfit&heap'&Ha'&Hc).
      rewrite Ha'. simpl. rewrite util_vma_heap_validate_ok by apply Hc. simpl.
      do 2 eexists. split; [done|]. right. do 3 eexists. split; [done|].
      rewrite Forall_reverse. eauto.
    + do 2 eexists. split; [done|]. left. by rewrite Forall_reverse in Hr.
Qed.

(** ** Freeing *)

Lemma split_at_spec offset l :
  exists above below, split_at offset l = (above, below) /\ l = above ++ below
    /\ Forall (fun hole => offset < h_offset hole) above
    /\ (forall low, head below = Some low -> h_offset low <= offset).
Proof.
  induction l as [|h l (above&below&Hs&->&Ha&Hb)]; simpl.
  { exists [], []. repeat split; [constructor|done]. }
  case_cmp.
  - exists [], (h :: above ++ below). simpl. split; [done|]. split; [done|].
    split; [constructor|]. intros ? [= <-]. done.
  - rewrite Hs. exists (h :: above), below. split; [done|]. split; [done|].
    split; [by constructor|done].
Qed.

(** Releasing [offset, offset+size). *)
Definition released (heap heap' : util_vma_heap) (offset size : Z) : Prop :=
  heap_wf heap'
  /\ (forall a, is_free heap' a <-> is_free heap a \/ offset <= a < offset + size)
  /\ free_size heap' = free_size heap + size
  /\ alloc_high heap' = alloc_high heap /\ nospan_shift heap' = nospan_shift heap.

(** A range that is in use lies strictly between its neighbours. *)
Lemma used_range_between l above below offset size :
  holes_below (W64 + 1) l -> l = above ++ below -> 0 < size ->
  Forall (fun hole => offset < h_offset hole) above ->
  (forall low, head below = Some low -> h_offset low <= offset) ->
  (forall a, offset <= a < offset + size -> ~ free_in l a) ->
  (forall high, last above = Some high -> offset + size <= h_offset high)
  /\ (forall low, head below = Some low -> h_offset low + h_size low <= offset).
Proof.
  intros Hl -> Hs Ha Hb Hused. split.
  - intros high Hhigh. apply last_Some in Hhigh as [above' ->].
    rewrite Forall_app, Forall_singleton in Ha. destruct Ha as [_ Ha].
    destruct (Z_le_gt_dec (offset + size) (h_offset high)); [done|exfalso].
    apply (Hused (h_offset high)); [lia|]. rewrite <- app_assoc.
    apply free_in_app. right. apply free_in_cons. left.
    apply holes_below_Forall in Hl. rewrite !Forall_app, Forall_singleton in Hl.
    unfold in_hole. lia.
  - intros low Hlow. specialize (Hb _ Hlow). destruct below as [|low' below]; [done|].
    injection Hlow as ->.
    destruct (Z_le_gt_dec (h_offset low + h_size low) offset); [done|exfalso].
    apply (Hused offset); [lia|]. apply free_in_app. right. apply free_in_cons. left.
    unfold in_hole. lia.
Qed.

(** The list in the shapes [util_vma_heap_free] builds. *)
Lemma holes_below_insert b above hole below :
  holes_below b above -> 0 < h_offset hole -> 0 < h_size hole ->
  h_offset hole + h_size hole < bound_after b above -> holes_below (h_offset hole) below ->
  holes_below b (above ++ hole :: below).
Proof. intros. rewrite holes_below_app. simpl. auto. Qed.

Ltac solve_free_set :=
  intros a; repeat rewrite ?free_in_app, ?free_in_cons; rewrite !free_in_freeb;
  unfold in_hole; change (freeb [] a) with false; simpl; lia.

Lemma merge_holes_spec above below offset size :
  holes_below (W64 + 1) (above ++ below) -> total_size (above ++ below) + size < W64 ->
  0 < offset -> 0 < size -> offset + size <= W64 ->
  (forall high, last above = Some high -> offset + size <= h_offset high) ->
  (forall low, head below = Some low -> h_offset low + h_size low <= offset) ->
  let holes' := merge_holes above below offset size in
  holes_below (W64 + 1) holes'
  /\ total_size holes' = total_size (above ++ below) + size
  /\ forall a, free_in holes' a <-> free_in (above ++ below) a \/ offset <= a < offset + size.
Proof.
  rewrite holes_below_app, total_size_app. intros [Hla Hlb] Ht Ho Hs Hfit Hhigh Hlow.
  pose proof (total_size_nonneg _ _ Hla). pose proof (total_size_nonneg _ _ Hlb).
  unfold merge_holes. destruct (last above) as [high|] eqn:El.
  - apply last_Some in El as [above' ->]. specialize (Hhigh _ eq_refl).
    rewrite removelast_last. rewrite holes_below_app in Hla. simpl in Hla.
    destruct Hla as (Hla&?&?&?&_). rewrite bound_after_app in Hlb. simpl in Hlb.
    rewrite !total_size_app in *. simpl in *.
    pose proof (bound_after_le _ _ Hla). pose proof (total_size_nonneg _ _ Hla).
    destruct below as [|low below]; simpl in *.
    + unwrap. case_cmp; rewrite ?holes_below_app, ?bound_after_app, ?total_size_app; simpl;
        (split; [intuition lia|]); (split; [lia|]); solve_free_set.
    + specialize (Hlow _ eq_refl). destruct Hlb as (?&?&?&Hlb).
      pose proof (total_size_nonneg _ _ Hlb). unwrap.
      repeat case_cmp; rewrite ?holes_below_app, ?bound_after_app, ?total_size_app; simpl; unwrap;
        (split; [intuition (done || lia)|]); (split; [lia|]); solve_free_set.
  - apply last_None in El as ->. simpl in *. destruct below as [|low below]; simpl in *.
    + split; [lia|]. split; [lia|]. solve_free_set.
    + specialize (Hlow _ eq_refl). destruct Hlb as (?&?&?&Hlb).
      pose proof (total_size_nonneg _ _ Hlb). unwrap.
      case_cmp; simpl; unwrap; (split; [intuition (done || lia)|]); (split; [lia|]); solve_free_set.
Qed.

(** A range outside the free set leaves room for its size in [free_size]. *)
Lemma total_size_gap b above below offset size :
  holes_below b (above ++ below) -> 0 < offset -> 0 < size -> offset + size < b ->
  (forall high, last above = Some high -> offset + size <= h_offset high) ->
  (forall low, head below = Some low -> h_offset low + h_size low <= offset) ->
  total_size (above ++ below) + size + 1 < b.
Proof.
  rewrite holes_below_app, total_size_app. intros [Ha Hb] Ho Hs Hfit Hhigh Hlow.
  assert (total_size below < offset).
  { destruct below as [|low below]; simpl in *; [lia|]. destruct Hb as (?&?&?&Hb).
    pose proof (total_size_bound _ _ H Hb). specialize (Hlow _ eq_refl). lia. }
  enough (total_size above + offset + size < b) by lia. clear Hb Hlow H.
  revert b Ha Hfit. induction above as [|h above IH]; intros b Ha Hfit; simpl in *; [lia|].
  destruct Ha as (?&?&?&Ha). destruct above as [|h' above]; simpl in *.
  - specialize (Hhigh _ eq_refl). lia.
  - specialize (IH Hhigh (h_offset h) Ha). destruct Ha as (?&?&?&Ha).
    enough (offset + size < h_offset h) by lia.
    assert (exists high, last (h' :: above) = Some high) as [high Hl].
    { destruct (last (h' :: above)) eqn:E; [eauto|]. by apply last_None in E. }
    specialize (Hhigh _ Hl). apply last_Some in Hl as [pre Hpre].
    assert (Hall : holes_below (h_offset h) (h' :: above)) by done.
    rewrite Hpre in Hall. apply holes_below_Forall in Hall.
    rewrite Forall_app, Forall_singleton in Hall. lia.
Qed.

Lemma util_vma_heap_free_spec heap offset size :
  heap_wf heap -> 0 < offset -> 0 < size -> offset + size <= W64 ->
  (forall a, offset <= a < offset + size -> ~ is_free heap a) ->
  exists heap', util_vma_heap_free heap offset size = Some heap'
    /\ released heap heap' offset size.
Proof.
  intros Hwf Ho Hs Hfit Hused. pose proof (util_vma_heap_validate_ok _ Hwf) as Hval.
  destruct Hwf as [Hl Hf].
  destruct (split_at_spec offset (holes heap)) as (above&below&Hsplit&Hh&Ha&Hb).
  destruct (used_range_between _ _ _ _ size Hl Hh Hs Ha Hb Hused) as [Hhigh Hlow].
  rewrite Hh in Hl, Hf.
  pose proof (total_size_gap _ _ _ offset size Hl Ho Hs ltac:(lia) Hhigh Hlow) as Hgap.
  pose proof (total_size_nonneg _ _ Hl).
  destruct (merge_holes_spec above below offset size) as (Hm1&Hm2&Hm3); try (done || lia).
  unfold util_vma_heap_free. pass_assert. pass_assert.
  rewrite cassert_bind.
  2:{ destruct (Z.eq_dec (offset + size) W64) as [->|]; [done|].
      rewrite u64_small by lia. rewrite orb_true_iff, Z.ltb_lt. lia. }
  rewrite Hval, bind_some, Hsplit. rewrite cassert_bind.
  2:{ destruct (last above) as [high|] eqn:E; [|done]. specialize (Hhigh _ eq_refl).
      apply last_Some in E as [? ->]. apply holes_below_Forall in Hl.
      rewrite !Forall_app, Forall_singleton in Hl. unwrap. apply Z.leb_le. lia. }
  rewrite cassert_bind.
  2:{ destruct below as [|low below]; simpl; [done|]. specialize (Hlow _ eq_refl).
      apply holes_below_Forall in Hl. rewrite Forall_app, Forall_cons in Hl. unwrap.
      rewrite andb_true_iff, Z.ltb_lt, Z.leb_le. lia. }
  rewrite u64_small by lia.
  rewrite util_vma_heap_validate_ok by (split; simpl; [done|lia]). simpl.
  eexists. split; [done|]. unfold released, is_free, heap_wf. simpl. rewrite Hh, Hm2, Hf. auto.
Qed.

(** ** The hole list is determined by the free set *)

Lemma holes_head_le b1 b2 h1 l1 h2 l2 :
  holes_below b1 (h1 :: l1) -> holes_below b2 (h2 :: l2) ->
  (forall a, free_in (h1 :: l1) a -> free_in (h2 :: l2) a) ->
  h_offset h1 + h_size h1 <= h_offset h2 + h_size h2.
Proof.
  simpl. intros (?&?&?&Hl1) (?&?&?&Hl2) Hsub.
  specialize (Hsub (h_offset h1 + h_size h1 - 1)). rewrite !free_in_cons in Hsub.
  destruct Hsub as [Hin|Hf]; [left|..]; unfold in_hole in *; [lia|lia|].
  pose proof (free_in_bounds _ _ _ Hl2 Hf). lia.
Qed.

Lemma holes_head_offset_le b1 b2 h1 l1 h2 l2 :
  holes_below b1 (h1 :: l1) -> holes_below b2 (h2 :: l2) ->
  (forall a, free_in (h1 :: l1) a -> free_in (h2 :: l2) a) ->
  h_offset h1 + h_size h1 = h_offset h2 + h_size h2 -> h_offset h2 <= h_offset h1.
Proof.
  simpl. intros (?&?&?&Hl1) (?&?&?&Hl2) Hsub Htop.
  destruct (Z_le_gt_dec (h_offset h2) (h_offset h1)); [done|exfalso].
  specialize (Hsub (h_offset h2 - 1)). rewrite !free_in_cons in Hsub.
  destruct Hsub as [Hin|Hf]; [left|..]; unfold in_hole in *; [lia|lia|].
  pose proof (free_in_bounds _ _ _ Hl2 Hf). lia.
Qed.

Lemma holes_canonical b1 b2 l1 l2 :
  holes_below b1 l1 -> holes_below b2 l2 -> (forall a, free_in l1 a <-> free_in l2 a) -> l1 = l2.
Proof.
  revert b1 b2 l2. induction l1 as [|h1 l1 IH]; intros b1 b2 [|h2 l2] H1 H2 Heq; [done| | |].
  - exfalso. apply (free_in_nil (h_offset h2)), Heq, free_in_cons. left.
    simpl in H2. unfold in_hole. lia.
  - exfalso. apply (free_in_nil (h_offset h1)), Heq, free_in_cons. left.
    simpl in H1. unfold in_hole. lia.
  - assert (Htop : h_offset h1 + h_size h1 = h_offset h2 + h_size h2).
    { apply Z.le_antisymm; eapply holes_head_le; eauto; intros a; apply Heq. }
    assert (Hoff : h_offset h1 = h_offset h2).
    { apply Z.le_antisymm; eapply holes_head_offset_le; eauto; intros a; apply Heq. }
    assert (h1 = h2) as <- by (destruct h1, h2; simpl in *; f_equal; lia).
    f_equal. simpl in H1, H2. destruct H1 as (?&?&?&H1), H2 as (?&?&?&H2).
    eapply IH; [exact H1|exact H2|]. intros a. specialize (Heq a).
    rewrite !free_in_cons in Heq. unfold in_hole in Heq.
    pose proof (free_in_bounds _ _ a H1). pose proof (free_in_bounds _ _ a H2).
    rewrite !free_in_freeb in *. lia.
Qed.

Lemma heap_ext heap1 heap2 :
  heap_wf heap1 -> heap_wf heap2 -> (forall a, is_free heap1 a <-> is_free heap2 a) ->
  alloc_high heap1 = alloc_high heap2 -> nospan_shift heap1 = nospan_shift heap2 ->
  heap1 = heap2.
Proof.
  destruct heap1 as [l1 f1 ah1 ns1], heap2 as [l2 f2 ah2 ns2]. unfold heap_wf, is_free. simpl.
  intros [H1 ->] [H2 ->] Heq -> ->. by rewrite (holes_canonical _ _ _ _ H1 H2 Heq).
Qed.

(** A free address of a well-formed heap is a positive 64-bit value. *)
Lemma is_free_range heap a : heap_wf heap -> is_free heap a -> 0 < a < W64.
Proof.
  intros [Hl _] Hf. pose proof (free_in_bounds _ _ _ Hl Hf). lia.
Qed.

(** Neighbours of a hole are strictly separated from it. *)
Lemma holes_order b above h below :
  holes_below b (above ++ h :: below) ->
  Forall (fun x => h_offset h + h_size h < h_offset x) above
  /\ Forall (fun x => h_offset x + h_size x < h_offset h) below.
Proof.
  intros Hl. split.
  - revert b Hl. induction above as [|x above IH]; intros b Hl; [constructor|].
    simpl in Hl. destruct Hl as (?&?&?&Hl). constructor; [|by eapply IH].
    apply holes_below_Forall in Hl. rewrite Forall_app, Forall_cons in Hl. tauto.
  - rewrite holes_below_app in Hl. simpl in Hl. destruct Hl as (_&?&?&?&Hl).
    eapply Forall_impl; [by apply holes_below_Forall|]. simpl. lia.
Qed.

(** What one answer of the search says about every placement in the hole. *)
Lemma alloc_body_exact heap size alignment hole r a :
  heap_wf heap -> hole ∈ holes heap -> 0 < size -> 0 < alignment -> nospan_shift heap = 0 ->
  alloc_body heap size alignment hole = Some r -> fits hole size alignment a ->
  match r with
  | None => False
  | Some offset => if alloc_high heap then a <= offset else offset <= a
  end.
Proof.
  intros [Hl _] Hin Hs Ha Hns Hb Hfit.
  apply holes_below_Forall in Hl. rewrite Forall_forall in Hl. destruct (Hl _ Hin) as (?&?&?).
  assert (hole_ok hole) as Hok by (unfold hole_ok; lia).
  unfold alloc_body in Hb. rewrite Hns in Hb. destruct (alloc_high heap).
  - destruct (alloc_high_body_spec size alignment hole Hok Hs Ha) as (r'&Er&Hr').
    rewrite Er in Hb. injection Hb as <-. destruct r'; [by apply Hr'|by eapply Hr'].
  - destruct (alloc_low_body_spec size alignment hole Hok Hs Ha) as (r'&Er&Hr').
    rewrite Er in Hb. injection Hb as <-. destruct r'; [by apply Hr'|by eapply Hr'].
Qed.

(** ** Main results *)

(** C4: [util_vma_heap_alloc] never fails an assertion on a well-formed heap, for a
    request of positive size and alignment on a heap without a boundary constraint; or,
    on a heap whose allocations must not cross a boundary, when the search goes from low
    addresses, the size is at most a block, the alignment is a power of two up to a
    block, and no free address is within a block of 2^64. It either returns 0 and leaves
    the heap alone, or returns an aligned address whose whole range was free, and
    removes exactly that range from the free set, keeping the heap well formed. (The
    search from high addresses with a boundary is left out: it can return a range that
    is not free, [util_vma_heap_alloc_high_nospan_broken].) *)
Theorem util_vma_heap_alloc_sound heap size alignment :
  heap_wf heap -> alloc_request heap size alignment ->
  exists r heap', util_vma_heap_alloc heap size alignment = Some (r, heap')
    /\ ((r = 0 /\ heap' = heap)
        \/ (0 < r /\ r mod alignment = 0 /\ carved heap heap' r size)).
Proof.
  intros Hwf Hreq.
  destruct (util_vma_heap_alloc_cases _ _ _ Hwf Hreq) as (r&heap'&->&Hr).
  do 2 eexists. split; [done|]. destruct Hr as [(?&?&_)|(above&hole&below&Hh&_&Hfit&Hc&_)]; [auto|].
  right. split; [|split; [apply Hfit|done]].
  destruct Hwf as [Hl _]. rewrite Hh in Hl. apply holes_below_Forall in Hl.
  rewrite Forall_app, Forall_cons in Hl. destruct Hfit. lia.
Qed.

Lemma util_vma_heap_alloc_sound_witness :
  exists r heap', util_vma_heap_alloc (Heap [Hole 4096 64; Hole 32 1024] 1088 false 0) 100 64
                  = Some (r, heap')
    /\ ((r = 0 /\ heap' = Heap [Hole 4096 64; Hole 32 1024] 1088 false 0)
        \/ (0 < r /\ r mod 64 = 0
            /\ carved (Heap [Hole 4096 64; Hole 32 1024] 1088 false 0) heap' r 100)).
Proof.
  apply (util_vma_heap_alloc_sound (Heap [Hole 4096 64; Hole 32 1024] 1088 false 0) 100 64).
  - unfold heap_wf. simpl. unfold_words. lia.
  - unfold alloc_request. simpl. lia.
Defined.

(** C33: Without a boundary constraint the search is exact: if some aligned
    placement is free then the allocation succeeds, at the highest such
    address when [alloc_high] is set and at the lowest otherwise. *)
Theorem util_vma_heap_alloc_optimal heap size alignment a :
  heap_wf heap -> 0 < size -> 0 < alignment -> nospan_shift heap = 0 ->
  a mod alignment = 0 -> (forall x, a <= x < a + size -> is_free heap x) ->
  exists r heap', util_vma_heap_alloc heap size alignment = Some (r, heap')
    /\ 0 < r /\ if alloc_high heap then a <= r else r <= a.
Proof.
  intros Hwf Hs Ha Hns Hm Hfree.
  assert (alloc_request heap size alignment) as Hreq by (unfold alloc_request; auto).
  destruct (util_vma_heap_alloc_cases _ _ _ Hwf Hreq) as (r&heap'&->&Hr).
  do 2 eexists. split; [done|]. pose proof Hwf as [Hl _].
  destruct (free_range_in_hole _ _ _ _ Hl Hs Hfree) as (ab&hole&be&Hh&?&?).
  assert (Hfa : fits hole size alignment a) by (unfold fits; auto).
  assert (Hin : hole ∈ holes heap) by (rewrite Hh; set_solver).
  pose proof (fun h r Hi Hb Hf => alloc_body_exact heap size alignment h r a Hwf Hi Hs Ha Hns Hb Hf)
    as Hexact.
  destruct Hr as [(_&_&Hall)|(above&h&below&Hh'&Hb&Hfit&Hc&Hsk)].
  { exfalso. rewrite Forall_forall in Hall. exact (Hexact _ _ Hin (Hall _ Hin) Hfa). }
  rewrite Hh' in Hl, Hin. destruct (holes_order _ _ _ _ Hl) as [Hab Hbe].
  apply holes_below_Forall in Hl. rewrite Forall_app, Forall_cons in Hl.
  destruct Hl as (_&(?&?&?)&_). rewrite !Forall_forall in Hab, Hbe, Hsk.
  pose proof Hfit as (?&?&?). split; [lia|].
  apply elem_of_app in Hin as [Hin|[->|Hin]%elem_of_cons].
  - specialize (Hab _ Hin). destruct (alloc_high heap); [|lia].
    exfalso. apply (Hexact hole None); [rewrite Hh'; set_solver|by apply Hsk|done].
  - apply (Hexact h (Some r)); [rewrite Hh'; set_solver|done|done].
  - specialize (Hbe _ Hin). destruct (alloc_high heap); [lia|].
    exfalso. apply (Hexact hole None); [rewrite Hh'; set_solver|by apply Hsk|done].
Qed.

Lemma util_vma_heap_alloc_optimal_witness :
  exists r heap', util_vma_heap_alloc (Heap [Hole 4096 512; Hole 32 1024] 1536 true 0) 100 256
                  = Some (r, heap')
    /\ 0 < r /\ 4352 <= r.
Proof.
  apply (util_vma_heap_alloc_optimal (Heap [Hole 4096 512; Hole 32 1024] 1536 true 0) 100 256 4352);
    [unfold heap_wf; simpl; unfold_words; lia|lia|lia|done|done|].
  intros x Hx. apply free_in_cons. left. unfold in_hole. simpl. lia.
Defined.

(** In a heap that allocates low, an allocation never spans a
    [1 << nospan_shift] boundary. *)
Theorem util_vma_heap_alloc_low_nospan heap size alignment r heap' :
  heap_wf heap -> 0 < size -> nospan_request heap size alignment ->
  util_vma_heap_alloc heap size alignment = Some (r, heap') ->
  r = 0 \/ nospan (nospan_shift heap) size r.
Proof.
  intros Hwf Hs Hreq Halloc. pose proof Hreq as (Hlow&Hns&Hsz&Hal&Htop).
  assert (alloc_request heap size alignment) as Hreq'.
  { unfold alloc_request. split_and!; [done| |by right].
    destruct Hal as (k&?&->). apply Z.pow_pos_nonneg; lia. }
  destruct (util_vma_heap_alloc_cases _ _ _ Hwf Hreq') as (r'&h'&E&Hr).
  rewrite E in Halloc. injection Halloc as -> ->.
  destruct Hr as [(?&_)|(above&hole&below&Hh&Hb&Hfit&Hc&_)]; [by left|right].
  destruct Hwf as [Hl _]. rewrite Hh in Hl. apply holes_below_Forall in Hl.
  rewrite Forall_app, Forall_cons in Hl. destruct Hl as (_&(?&?&?)&_).
  unfold alloc_body in Hb. rewrite Hlow in Hb.
  destruct (alloc_low_body_nospan (nospan_shift heap) size alignment hole) as (r'&Er&Hr');
    [unfold hole_ok; lia|done|lia|done| |].
  - assert (is_free heap (h_offset hole + h_size hole - 1)) as Hlast.
    { unfold is_free. rewrite Hh, free_in_app, free_in_cons. unfold in_hole. lia. }
    specialize (Htop _ Hlast). lia.
  - rewrite Er in Hb. injection Hb as ->. by apply Hr'.
Qed.

Lemma util_vma_heap_alloc_low_nospan_witness :
  let heap := Heap [Hole 4000 8192] 8192 false 12 in
  4096 = 0 \/ nospan 12 256 4096.
Proof.
  apply (util_vma_heap_alloc_low_nospan (Heap [Hole 4000 8192] 8192 false 12) 256 64 4096
           (Heap [Hole 4352 7840; Hole 4000 96] 7936 false 12)).
  - unfold heap_wf. simpl. unfold_words. lia.
  - lia.
  - unfold nospan_request. simpl. split_and!; try lia; [exists 6; lia|].
    intros a Ha. apply free_in_single in Ha. unfold in_hole in Ha. simpl in Ha. unfold_words. lia.
  - vm_compute. reflexivity.
Defined.

(** The boundary constraint is not respected by the high search: a request no
    larger than the block is placed across a block boundary, and one larger
    than the address of its hole makes the subtraction wrap and fails the
    assertion of [util_vma_hole_alloc]. *)
Theorem util_vma_heap_alloc_high_nospan_broken :
  (let heap := Heap [Hole 256 8192] 8192 true 12 in
   heap_wf heap
   /\ util_vma_heap_alloc heap 3840 1
      = Some (768, Heap [Hole 4608 3840; Hole 256 512] 4352 true 12)
   /\ ~ nospan 12 3840 768)
  /\ (let heap := Heap [Hole 3840 4096] 4096 true 12 in
      heap_wf heap /\ util_vma_heap_alloc heap 4096 1 = None).
Proof.
  split; (split; [unfold heap_wf; simpl; unfold_words; lia|]).
  - split; [vm_compute; reflexivity|]. unfold nospan. vm_compute. discriminate.
  - vm_compute. reflexivity.
Qed.

Lemma first_hole_addr offset before l :
  first_hole (fun hole => Some (if offset <? h_offset hole then None else Some offset)) before l
  = let '(above, below) := split_at offset l in
    match below with
    | [] => Some None
    | hole :: below => Some (Some (before ++ above, hole, below, offset))
    end.
Proof.
  revert before. induction l as [|h l IH]; intros before; simpl; [done|].
  destruct (Z.leb_spec (h_offset h) offset), (Z.ltb_spec offset (h_offset h)); try lia; simpl.
  - by rewrite app_nil_r.
  - rewrite IH. destruct (split_at offset l) as [above [|hole below]]; [done|].
    by rewrite <- app_assoc.
Qed.

(** [util_vma_heap_alloc_addr] succeeds exactly when the whole range is
    free, and then removes exactly that range. *)
Theorem util_vma_heap_alloc_addr_spec heap offset size :
  heap_wf heap -> 0 < offset -> 0 < size -> offset + size <= W64 ->
  exists ok heap', util_vma_heap_alloc_addr heap offset size = Some (ok, heap')
    /\ (ok = true <-> forall a, offset <= a < offset + size -> is_free heap a)
    /\ if ok then carved heap heap' offset size else heap' = heap.
Proof.
  intros Hwf Ho Hs Hfit. unfold util_vma_heap_alloc_addr. pass_assert. pass_assert.
  rewrite cassert_bind.
  2:{ destruct (Z.eq_dec (offset + size) W64) as [->|]; [done|].
      rewrite u64_small by lia. rewrite orb_true_iff, Z.ltb_lt. lia. }
  rewrite first_hole_addr.
  destruct (split_at_spec offset (holes heap)) as (above&below&->&Hh&Ha&Hb).
  pose proof Hwf as [Hl _]. rewrite Hh in Hl. rewrite Forall_forall in Ha.
  (* a free range starts in the first hole at or below [offset] *)
  assert (Hfirst : (forall a, offset <= a < offset + size -> is_free heap a) ->
            exists low rest, below = low :: rest
              /\ offset + size <= h_offset low + h_size low).
  { intros Hfree. unfold is_free in Hfree. rewrite Hh in Hfree.
    destruct (free_range_in_hole _ _ _ _ Hl Hs Hfree) as (ab&hole&be&E&?&?).
    assert (hole ∈ above ++ below) as [Hin|Hin]%elem_of_app by (rewrite E; set_solver).
    { specialize (Ha _ Hin). lia. }
    destruct below as [|low rest]; [by apply elem_of_nil in Hin|]. exists low, rest.
    split; [done|]. apply elem_of_cons in Hin as [->|Hin]; [lia|].
    destruct (holes_order _ _ _ _ Hl) as [_ Hbe]. rewrite Forall_forall in Hbe.
    specialize (Hbe _ Hin). specialize (Hb _ eq_refl). lia. }
  destruct below as [|low below].
  { simpl. do 2 eexists. split; [done|]. split; [|done].
    split; [done|]. intros Hfree. destruct (Hfirst Hfree) as (?&?&?&_). done. }
  specialize (Hb _ eq_refl). rewrite bind_some. pass_assert.
  pose proof Hl as Hall. apply holes_below_Forall in Hall. rewrite Forall_app, Forall_cons in Hall.
  destruct Hall as (_&(?&?&?)&_). rewrite (u64_small (offset - _ + _)) by (unfold_words; lia).
  case_cmp.
  - do 2 eexists. split; [done|]. split; [|done]. split; [done|].
    intros Hfree. destruct (Hfirst Hfree) as (?&?&[= <- <-]&?). lia.
  - change ([] ++ above) with above.
    destruct (util_vma_hole_alloc_spec heap above low below offset size)
      as (heap'&->&Hc); try (done || lia).
    do 2 eexists. split; [done|]. split; [|done]. split; [|done]. intros _. apply Hc.
Qed.

Lemma util_vma_heap_alloc_addr_spec_witness :
  exists ok heap', util_vma_heap_alloc_addr (Heap [Hole 4096 512; Hole 32 1024] 1536 true 0) 64 128
                   = Some (ok, heap')
    /\ (ok = true <-> forall a, 64 <= a < 64 + 128 ->
                      is_free (Heap [Hole 4096 512; Hole 32 1024] 1536 true 0) a)
    /\ if ok then carved (Heap [Hole 4096 512; Hole 32 1024] 1536 true 0) heap' 64 128
       else heap' = Heap [Hole 4096 512; Hole 32 1024] 1536 true 0.
Proof.
  apply (util_vma_heap_alloc_addr_spec (Heap [Hole 4096 512; Hole 32 1024] 1536 true 0) 64 128);
    [unfold heap_wf; simpl; unfold_words; lia|lia|lia|unfold_words; lia].
Defined.

(** C34: [util_vma_heap_free] of a range in use adds exactly that range to the
    free set, merges it with its neighbours and passes every assertion. *)
Theorem util_vma_heap_free_releases heap offset size :
  heap_wf heap -> 0 < offset -> 0 < size -> offset + size <= W64 ->
  (forall a, offset <= a < offset + size -> ~ is_free heap a) ->
  exists heap', util_vma_heap_free heap offset size = Some heap'
    /\ released heap heap' offset size.
Proof. apply util_vma_heap_free_spec. Qed.

Lemma util_vma_heap_free_releases_witness :
  exists heap', util_vma_heap_free (Heap [Hole 256 64; Hole 32 64] 128 true 0) 96 160 = Some heap'
    /\ released (Heap [Hole 256 64; Hole 32 64] 128 true 0) heap' 96 160.
Proof.
  apply (util_vma_heap_free_releases (Heap [Hole 256 64; Hole 32 64] 128 true 0) 96 160);
    [unfold heap_wf; simpl; unfold_words; lia|lia|lia|unfold_words; lia|].
  intros a Ha. unfold is_free. simpl. rewrite free_in_cons, free_in_single.
  unfold in_hole. simpl. lia.
Defined.

(** Freeing what was just allocated restores the heap itself, hole list
    and counters included. *)
Theorem util_vma_heap_alloc_free heap size alignment r heap' :
  heap_wf heap -> alloc_request heap size alignment ->
  util_vma_heap_alloc heap size alignment = Some (r, heap') -> r <> 0 ->
  util_vma_heap_free heap' r size = Some heap.
Proof.
  intros Hwf Hreq Halloc Hr. pose proof Hreq as (Hs&_&_).
  destruct (util_vma_heap_alloc_cases _ _ _ Hwf Hreq) as (r'&h'&E&Hcase).
  rewrite E in Halloc. injection Halloc as -> ->.
  destruct Hcase as [(?&_)|(_&_&_&_&_&_&(Hwf'&Hin&Hout&Hfs&Hah&Hns)&_)]; [done|].
  pose proof (is_free_range _ _ Hwf (Hin r ltac:(lia))).
  pose proof (is_free_range _ _ Hwf (Hin (r + size - 1) ltac:(lia))).
  destruct (util_vma_heap_free_spec heap' r size) as (heap2&->&(Hwf2&Hfree2&_&Hah2&Hns2));
    [done|lia|lia|lia|intros a Ha; rewrite Hout; tauto|].
  f_equal. apply heap_ext; [done|done| |congruence|congruence].
  intros a. rewrite Hfree2, Hout. specialize (Hin a). unfold is_free in *.
  rewrite !free_in_freeb in *. lia.
Qed.

Lemma util_vma_heap_alloc_free_witness :
  util_vma_heap_free (Heap [Hole 4352 3840] 3840 false 0) 4096 256
  = Some (Heap [Hole 4096 4096] 4096 false 0).
Proof.
  apply (util_vma_heap_alloc_free (Heap [Hole 4096 4096] 4096 false 0) 256 256 4096
           (Heap [Hole 4352 3840] 3840 false 0));
    [unfold heap_wf; simpl; unfold_words; lia|unfold alloc_request; simpl; lia
    |vm_compute; reflexivity|lia].
Defined.

(** ** Initialisation *)

Lemma util_vma_heap_init_spec start size :
  0 < start -> 0 <= size -> start + size <= W64 ->
  exists heap, util_vma_heap_init start size = Some heap /\ heap_wf heap
    /\ (forall a, is_free heap a <-> start <= a < start + size)
    /\ alloc_high heap = true /\ nospan_shift heap = 0.
Proof.
  intros Hst Hs Hfit. unfold util_vma_heap_init.
  assert (heap_wf (Heap [] 0 true 0)) as Hwf by (split; simpl; done).
  case_cmp.
  - destruct (util_vma_heap_free_spec (Heap [] 0 true 0) start size) as (heap&->&(Hw&Hf&_));
      [done..|by intros a _ []%free_in_nil|].
    rewrite bind_some. eexists. split; [done|]. split; [exact Hw|]. split; [|done].
    intros a. specialize (Hf a). unfold is_free in *. simpl in *.
    rewrite Hf. pose proof (free_in_nil a). tauto.
  - rewrite bind_some. eexists. split; [done|]. split; [done|]. split; [|done].
    intros a. unfold is_free. simpl. pose proof (free_in_nil a). split; [tauto|lia].
Qed.
