(* ===== verification/Pm4.v ===== *)
(** PM4 command packets: the bit fields of src/amd/common/sid.h and of the
    packet tables, the packet builders of src/amd/common/ac_cmdbuf_cp.c as
    functions returning the dwords they append, and the packet framing a command
    processor uses to read a stream back. *)

From S2P Require Import Prelude.

(** * Chip generations and queues (amd_family.h) *)

Inductive amd_gfx_level :=
| GFX6 | GFX7 | GFX8 | GFX9 | GFX10 | GFX10_3 | GFX11 | GFX11_5 | GFX11_7 | GFX12 | GFX12_1.

#[global] Instance amd_gfx_level_eq_dec : EqDecision amd_gfx_level.
Proof. solve_decision. Defined.

Definition gfx_rank (g : amd_gfx_level) : Z :=
  match g with
  | GFX6 => 8 | GFX7 => 9 | GFX8 => 10 | GFX9 => 11 | GFX10 => 12 | GFX10_3 => 13
  | GFX11 => 14 | GFX11_5 => 15 | GFX11_7 => 16 | GFX12 => 17 | GFX12_1 => 18
  end.

(** The enumerators are ordered, so [gfx_level >= GFXn] is a rank comparison. *)
Definition gfx_ge (a b : amd_gfx_level) : bool := gfx_rank b <=? gfx_rank a.
Definition gfx_lt (a b : amd_gfx_level) : bool := gfx_rank a <? gfx_rank b.
Definition gfx_le (a b : amd_gfx_level) : bool := gfx_rank a <=? gfx_rank b.
Definition gfx_eq (a b : amd_gfx_level) : bool := gfx_rank a =? gfx_rank b.

Inductive amd_ip_type :=
| AMD_IP_GFX | AMD_IP_COMPUTE | AMD_IP_SDMA | AMD_IP_UVD | AMD_IP_VCE | AMD_IP_UVD_ENC
| AMD_IP_VCN_DEC | AMD_IP_VCN_ENC | AMD_IP_VCN_JPEG | AMD_IP_VPE.

#[global] Instance amd_ip_type_eq_dec : EqDecision amd_ip_type.
Proof. solve_decision. Defined.

Definition ip_eq (a b : amd_ip_type) : bool := bool_decide (a = b).

(** * Bit fields

    The generated macros are [S_x(v) = ((unsigned)v & mask) << lo],
    [G_x(w) = (w >> lo) & mask] and [C_x = ~(mask << lo)]. *)
Definition S_field (lo width v : Z) : Z := Z.shiftl (Z.land v (Z.ones width)) lo.
Definition G_field (lo width w : Z) : Z := Z.land (Z.shiftr w lo) (Z.ones width).
Definition C_field (lo width : Z) : Z := W32 - 1 - Z.shiftl (Z.ones width) lo.

Lemma S_field_testbit lo w v n :
  0 <= lo -> 0 <= w -> 0 <= n ->
  Z.testbit (S_field lo w v) n = (lo <=? n) && (n <? lo + w) && Z.testbit v (n - lo).
Proof.
  intros Hlo Hw Hn. unfold S_field. rewrite Z.shiftl_spec, Z.land_spec by lia.
  destruct (Z.leb_spec lo n); [|by rewrite Z.testbit_neg_r by lia].
  rewrite Z.testbit_ones by lia. rewrite andb_comm.
  destruct (Z.ltb_spec n (lo + w)), (Z.leb_spec 0 (n - lo)), (Z.ltb_spec (n - lo) w); lia || done.
Qed.

Lemma G_field_testbit lo w x n :
  0 <= lo -> 0 <= w -> 0 <= n ->
  Z.testbit (G_field lo w x) n = (n <? w) && Z.testbit x (n + lo).
Proof.
  intros Hlo Hw Hn. unfold G_field. rewrite Z.land_spec, Z.shiftr_spec, Z.testbit_ones by lia.
  rewrite andb_comm. destruct (Z.leb_spec 0 n); lia || done.
Qed.

Lemma G_lor lo w x y :
  0 <= lo -> 0 <= w -> G_field lo w (Z.lor x y) = Z.lor (G_field lo w x) (G_field lo w y).
Proof. intros. unfold G_field. by rewrite Z.shiftr_lor, Z.land_lor_distr_l. Qed.

Lemma G_S_same lo w v : 0 <= lo -> 0 <= w -> G_field lo w (S_field lo w v) = Z.land v (Z.ones w).
Proof.
  intros. apply Z.bits_inj'. intros n Hn.
  rewrite G_field_testbit, S_field_testbit, Z.land_spec, Z.testbit_ones by lia.
  replace (n + lo - lo) with n by lia.
  destruct (Z.leb_spec lo (n + lo)), (Z.ltb_spec (n + lo) (lo + w)), (Z.ltb_spec n w),
    (Z.leb_spec 0 n); try lia; by rewrite ?andb_true_r, ?andb_false_r.
Qed.

(** Fields that do not overlap do not disturb each other. *)
Lemma G_S_other lo w lo' w' v :
  0 <= lo -> 0 <= w -> 0 <= lo' -> 0 <= w' -> lo + w <= lo' \/ lo' + w' <= lo ->
  G_field lo w (S_field lo' w' v) = 0.
Proof.
  intros ???? Hdis. apply Z.bits_inj'. intros n Hn.
  rewrite G_field_testbit, S_field_testbit, Z.bits_0 by lia.
  destruct (Z.ltb_spec n w); [|done].
  destruct (Z.leb_spec lo' (n + lo)), (Z.ltb_spec (n + lo) (lo' + w')); lia || done.
Qed.

Lemma G_field_0 lo w : G_field lo w 0 = 0.
Proof. unfold G_field. by rewrite Z.shiftr_0_l. Qed.

Lemma G_field_range lo w x : 0 <= w -> 0 <= G_field lo w x < 2 ^ w.
Proof. intros. unfold G_field. rewrite Z.land_ones by lia. apply Z.mod_pos_bound. lia. Qed.

Lemma land_ones_small v w : 0 <= w -> 0 <= v < 2 ^ w -> Z.land v (Z.ones w) = v.
Proof. intros. by rewrite Z.land_ones, Z.mod_small by lia. Qed.

(** Read a field back from a word assembled with [|]. *)
Ltac read_field :=
  repeat first
    [ rewrite G_lor by lia
    | rewrite G_S_same by lia
    | rewrite G_S_other by lia
    | rewrite G_field_0
    | rewrite Z.lor_0_l | rewrite Z.lor_0_r ].

Definition b2z (b : bool) : Z := if b then 1 else 0.

(** [x & mask] used as a condition. *)
Definition has (x mask : Z) : bool := negb (Z.land x mask =? 0).

(** * Packet headers (sid.h) *)

Definition PKT3 (op count predicate : Z) : Z :=
  Z.lor (Z.lor (Z.lor (S_field 30 2 3) (S_field 16 14 count)) (S_field 8 8 op))
        (Z.land predicate 1).
Definition PKT_TYPE_G (w : Z) : Z := G_field 30 2 w.
Definition PKT_COUNT_G (w : Z) : Z := G_field 16 14 w.
Definition PKT3_IT_OPCODE_G (w : Z) : Z := G_field 8 8 w.
Definition PKT2_NOP_PAD : Z := S_field 30 2 2.

#[global] Arguments PKT3 : simpl never.
#[global] Arguments S_field : simpl never.
#[global] Arguments G_field : simpl never.
#[global] Arguments PKT_TYPE_G : simpl never.
#[global] Arguments PKT_COUNT_G : simpl never.
#[global] Arguments PKT3_IT_OPCODE_G : simpl never.
#[global] Arguments PKT2_NOP_PAD : simpl never.

Definition PKT3_NOP : Z := 0x10.
Definition PKT3_NOP_PAD : Z := PKT3 PKT3_NOP 0x3fff 0.
#[global] Arguments PKT3_NOP_PAD : simpl never.
Definition PKT3_ATOMIC_MEM : Z := 0x1E.
Definition PKT3_SET_PREDICATION : Z := 0x20.
Definition PKT3_COND_EXEC : Z := 0x22.
Definition PKT3_WRITE_DATA : Z := 0x37.
Definition PKT3_WAIT_REG_MEM : Z := 0x3C.
Definition PKT3_INDIRECT_BUFFER : Z := 0x3F.
Definition PKT3_COPY_DATA : Z := 0x40.
Definition PKT3_CP_DMA : Z := 0x41.
Definition PKT3_PFP_SYNC_ME : Z := 0x42.
Definition PKT3_SURFACE_SYNC : Z := 0x43.
Definition PKT3_EVENT_WRITE : Z := 0x46.
Definition PKT3_EVENT_WRITE_EOP : Z := 0x47.
Definition PKT3_EVENT_WRITE_EOS : Z := 0x48.
Definition PKT3_RELEASE_MEM : Z := 0x49.
Definition PKT3_DMA_DATA : Z := 0x50.
Definition PKT3_ACQUIRE_MEM : Z := 0x58.
Definition PKT3_SET_SH_REG : Z := 0x76.

(** * Event types (VGT_EVENT_TYPE) *)

Definition V_CACHE_FLUSH_TS : Z := 4.
Definition V_CS_PARTIAL_FLUSH : Z := 7.
Definition V_VGT_STREAMOUT_SYNC : Z := 8.
Definition V_VS_PARTIAL_FLUSH : Z := 15.
Definition V_PS_PARTIAL_FLUSH : Z := 16.
Definition V_CACHE_FLUSH_AND_INV_TS_EVENT : Z := 20.
Definition V_ZPASS_DONE : Z := 21.
Definition V_PIPELINESTAT_START : Z := 25.
Definition V_PIPELINESTAT_STOP : Z := 26.
Definition V_VGT_FLUSH : Z := 36.
Definition V_BOTTOM_OF_PIPE_TS : Z := 40.
Definition V_FLUSH_AND_INV_DB_DATA_TS : Z := 43.
Definition V_FLUSH_AND_INV_DB_META : Z := 44.
Definition V_FLUSH_AND_INV_CB_DATA_TS : Z := 45.
Definition V_FLUSH_AND_INV_CB_META : Z := 46.
Definition V_CS_DONE : Z := 47.
Definition V_PS_DONE : Z := 48.
Definition V_PIXEL_PIPE_STAT_CONTROL : Z := 56.

Definition EVENT_TYPE (x : Z) : Z := S_field 0 6 x.
Definition EVENT_INDEX (x : Z) : Z := S_field 8 4 x.

(** * Engines and PWS stages *)

Definition V_581A_PREFETCH_PARSER : Z := 0.
Definition V_581A_MICRO_ENGINE : Z := 1.
Definition V_581B_PRE_DEPTH : Z := 0.
Definition V_581B_PRE_COLOR : Z := 2.
Definition V_581B_CP_PFP : Z := 4.
Definition V_581B_CP_ME : Z := 5.

Definition EOP_DST_SEL_MEM : Z := 0.
Definition EOP_INT_SEL_NONE : Z := 0.
Definition EOP_INT_SEL_SEND_DATA_AFTER_WR_CONFIRM : Z := 3.
Definition EOP_DATA_SEL_DISCARD : Z := 0.
Definition EOP_DATA_SEL_VALUE_32BIT : Z := 1.
Definition WAIT_REG_MEM_EQUAL : Z := 3.

(** * Packet builders (ac_cmdbuf_cp.c)

    [ac_cmdbuf_emit] stores the low 32 bits of its argument. *)

Definition dw (x : Z) : Z := u32 x.
Definition addr_lo (va : Z) : Z := u32 va.
Definition addr_hi (va : Z) : Z := u32 (Z.shiftr va 32).

Definition AC_CP_INDIRECT_BUFFER_CHAIN : Z := 1.
Definition AC_CP_INDIRECT_BUFFER_VALID : Z := 2.

Definition S_3F3_CHAIN (x : Z) : Z := S_field 20 1 x.
Definition S_3F3_PRE_ENA (x : Z) : Z := S_field 21 1 x.
Definition S_3F3_VALID (x : Z) : Z := S_field 23 1 x.
Definition G_3F3_IB_SIZE (x : Z) : Z := G_field 0 20 x.
Definition G_3F3_CHAIN (x : Z) : Z := G_field 20 1 x.
(** [~C_3F3_IB_SIZE] *)
Definition IB_SIZE_MAX : Z := 0xfffff.

Definition ac_emit_cp_indirect_buffer (va cdw flags : Z) (predicate : bool) : list Z :=
  let dword2_flags :=
    Z.lor (if has flags AC_CP_INDIRECT_BUFFER_CHAIN then S_3F3_CHAIN 1 else 0)
          (if has flags AC_CP_INDIRECT_BUFFER_VALID then S_3F3_VALID 1 else 0) in
  [PKT3 PKT3_INDIRECT_BUFFER 2 (b2z predicate); addr_lo va; addr_hi va; dw (Z.lor cdw dword2_flags)].

Definition ac_emit_cp_cond_exec (gfx_level : amd_gfx_level) (va count : Z) : list Z :=
  if gfx_ge gfx_level GFX7 then
    [PKT3 PKT3_COND_EXEC 3 0; addr_lo va; addr_hi va; 0; dw count]
  else [PKT3 PKT3_COND_EXEC 2 0; addr_lo va; addr_hi va; dw count].

Definition ac_emit_cp_write_data_head (engine_sel dst_sel va size : Z) (predicate : bool)
  : list Z :=
  [PKT3 PKT3_WRITE_DATA (2 + size) (b2z predicate);
   Z.lor (Z.lor (S_field 8 4 dst_sel) (S_field 20 1 1)) (S_field 30 2 engine_sel);
   addr_lo va; addr_hi va].

(** [size] is the number of dwords of [data]. *)
Definition ac_emit_cp_write_data (engine_sel dst_sel va : Z) (data : list Z) (predicate : bool)
  : list Z :=
  ac_emit_cp_write_data_head engine_sel dst_sel va (Z.of_nat (length data)) predicate ++ data.

Definition V_371_MEMORY : Z := 5.

Definition ac_emit_cp_write_data_imm (engine_sel va value : Z) : list Z :=
  ac_emit_cp_write_data engine_sel V_371_MEMORY va [dw value] false.

Definition ac_emit_cp_wait_mem (va ref mask flags : Z) : list Z :=
  [PKT3 PKT3_WAIT_REG_MEM 5 0; Z.lor (S_field 4 2 1) flags; addr_lo va; addr_hi va;
   dw ref; dw mask; 4].

Definition is_ts_event (event_type : Z) : bool :=
  (event_type =? V_CACHE_FLUSH_TS) || (event_type =? V_CACHE_FLUSH_AND_INV_TS_EVENT)
  || (event_type =? V_BOTTOM_OF_PIPE_TS) || (event_type =? V_FLUSH_AND_INV_DB_DATA_TS)
  || (event_type =? V_FLUSH_AND_INV_CB_DATA_TS).

Definition V_581B_TS_SELECT : Z := 0.
Definition V_581B_PS_SELECT : Z := 1.
Definition V_581B_CS_SELECT : Z := 2.

Definition ac_emit_cp_acquire_mem_pws (gfx_level : amd_gfx_level) (ip_type : amd_ip_type)
    (event_type stage_sel count gcr_cntl : Z) : option (list Z) :=
  assert! gfx_ge gfx_level GFX11 && ip_eq ip_type AMD_IP_GFX ;;
  let ts := is_ts_event event_type in
  let ps_done := event_type =? V_PS_DONE in
  let cs_done := event_type =? V_CS_DONE in
  let counter_sel := if ts then V_581B_TS_SELECT
                     else if ps_done then V_581B_PS_SELECT else V_581B_CS_SELECT in
  assert! b2z ts + b2z cs_done + b2z ps_done =? 1 ;;
  assert! (gcr_cntl =? 0) || (stage_sel =? V_581B_CP_PFP) || (stage_sel =? V_581B_CP_ME) ;;
  assert! negb (stage_sel =? V_581B_PRE_COLOR) ;;
  Some [PKT3 PKT3_ACQUIRE_MEM 6 0;
        Z.lor (Z.lor (Z.lor (S_field 11 3 stage_sel) (S_field 14 2 counter_sel)) (S_field 17 1 1))
              (S_field 18 6 count);
        0xffffffff; 0x01ffffff; 0; 0; S_field 31 1 1; dw gcr_cntl].

(** * GCR_CNTL (0x587) and the cache fields of RELEASE_MEM (0x491) *)

Definition S_587_GLI_INV := S_field 0 2.
Definition S_587_GLM_WB := S_field 4 1.
Definition S_587_GLM_INV := S_field 5 1.
Definition S_587_GLK_INV := S_field 7 1.
Definition S_587_GLV_INV := S_field 8 1.
Definition S_587_GL1_INV := S_field 9 1.
Definition S_587_GL2_INV := S_field 14 1.
Definition S_587_GL2_WB := S_field 15 1.
Definition S_587_SEQ := S_field 16 2.
Definition G_587_GLI_INV := G_field 0 2.
Definition G_587_GL1_RANGE := G_field 2 2.
Definition G_587_GLM_WB := G_field 4 1.
Definition G_587_GLM_INV := G_field 5 1.
Definition G_587_GLK_WB := G_field 6 1.
Definition G_587_GLK_INV := G_field 7 1.
Definition G_587_GLV_INV := G_field 8 1.
Definition G_587_GL1_INV := G_field 9 1.
Definition G_587_GL2_US := G_field 10 1.
Definition G_587_GL2_RANGE := G_field 11 2.
Definition G_587_GL2_DISCARD := G_field 13 1.
Definition G_587_GL2_INV := G_field 14 1.
Definition G_587_GL2_WB := G_field 15 1.
Definition G_587_SEQ := G_field 16 2.
Definition C_587_GLI_INV := C_field 0 2.
Definition C_587_GL1_RANGE := C_field 2 2.
Definition C_587_GLM_WB := C_field 4 1.
Definition C_587_GLM_INV := C_field 5 1.
Definition C_587_GLV_INV := C_field 8 1.
Definition C_587_GL1_INV := C_field 9 1.
Definition C_587_GL2_RANGE := C_field 11 2.
Definition C_587_GL2_INV := C_field 14 1.
Definition C_587_GL2_WB := C_field 15 1.
Definition C_587_SEQ := C_field 16 2.
Definition V_587_GLI_ALL : Z := 1.
Definition V_587_SEQ_FORWARD : Z := 1.

Definition S_491_GLM_WB := S_field 12 1.
Definition S_491_GLM_INV := S_field 13 1.
Definition S_491_GLV_INV := S_field 14 1.
Definition S_491_GL1_INV := S_field 15 1.
Definition S_491_GL2_INV := S_field 20 1.
Definition S_491_GL2_WB := S_field 21 1.
Definition S_491_SEQ := S_field 22 2.
Definition S_491_GLK_WB := S_field 24 1.
Definition S_491_GLK_INV := S_field 30 1.
Definition S_491_PWS_ENABLE := S_field 31 1.

Definition lors (l : list Z) : Z := fold_right Z.lor 0 l.

Definition ac_emit_cp_release_mem_pws (gfx_level : amd_gfx_level) (ip_type : amd_ip_type)
    (event_type gcr_cntl : Z) : option (list Z) :=
  assert! gfx_ge gfx_level GFX11 && ip_eq ip_type AMD_IP_GFX ;;
  assert! gfx_ge gfx_level GFX12 || (gcr_cntl =? 0)
          || (negb (event_type =? V_PS_DONE) && negb (event_type =? V_CS_DONE)) ;;
  assert! G_587_GLI_INV gcr_cntl =? 0 ;;
  assert! gfx_ge gfx_level GFX12 || (G_587_GL1_RANGE gcr_cntl =? 0) ;;
  assert! G_587_GL2_US gcr_cntl =? 0 ;;
  assert! G_587_GL2_RANGE gcr_cntl =? 0 ;;
  assert! G_587_GL2_DISCARD gcr_cntl =? 0 ;;
  let ts := is_ts_event event_type in
  Some [PKT3 PKT3_RELEASE_MEM 6 0;
        lors [EVENT_TYPE event_type; EVENT_INDEX (if ts then 5 else 6);
              (if gfx_ge gfx_level GFX12 then 0
               else lors [S_491_GLM_WB (G_587_GLM_WB gcr_cntl);
                          S_491_GLM_INV (G_587_GLM_INV gcr_cntl);
                          S_491_GL1_INV (G_587_GL1_INV gcr_cntl)]);
              S_491_GLV_INV (G_587_GLV_INV gcr_cntl);
              S_491_GL2_INV (G_587_GL2_INV gcr_cntl);
              S_491_GL2_WB (G_587_GL2_WB gcr_cntl);
              S_491_SEQ (G_587_SEQ gcr_cntl);
              S_491_GLK_WB (G_587_GLK_WB gcr_cntl);
              S_491_GLK_INV (G_587_GLK_INV gcr_cntl);
              S_491_PWS_ENABLE 1];
        0; 0; 0; 0; 0; 0].

(** [ac_cmdbuf_event_write] (ac_cmdbuf.h) *)
Definition ac_cmdbuf_event_write (event_type : Z) : list Z :=
  [PKT3 PKT3_EVENT_WRITE 0 0;
   Z.lor (EVENT_TYPE event_type)
         (EVENT_INDEX (if (event_type =? V_VS_PARTIAL_FLUSH) || (event_type =? V_PS_PARTIAL_FLUSH)
                          || (event_type =? V_CS_PARTIAL_FLUSH) then 4
                       else if event_type =? V_PIXEL_PIPE_STAT_CONTROL then 1 else 0))].

Definition ac_emit_cp_pfp_sync_me (predicate : bool) : list Z :=
  [PKT3 PKT3_PFP_SYNC_ME 0 (b2z predicate); 0].

(** The dwords, whether the context rolled, and whether PFP_SYNC_ME was added. *)
Definition ac_emit_cp_acquire_mem (gfx_level : amd_gfx_level) (ip_type : amd_ip_type)
    (engine gcr_cntl : Z) : option (list Z * bool * bool) :=
  assert! negb (ip_eq ip_type AMD_IP_GFX)
          || (engine =? V_581A_PREFETCH_PARSER) || (engine =? V_581A_MICRO_ENGINE) ;;
  assert! negb (gcr_cntl =? 0) ;;
  if gfx_ge gfx_level GFX10 then
    let engine_flag := if ip_eq ip_type AMD_IP_GFX then S_field 31 1 engine else 0 in
    let coher_size_hi :=
      if gfx_ge gfx_level GFX11 && ip_eq ip_type AMD_IP_GFX then 0xffffff else 0xff in
    Some ([PKT3 PKT3_ACQUIRE_MEM 6 0; engine_flag; 0xffffffff; coher_size_hi; 0; 0; 0xA;
           dw gcr_cntl], false, false)
  else
    let is_mec := gfx_ge gfx_level GFX7 && ip_eq ip_type AMD_IP_COMPUTE in
    let gcr_cntl := if gfx_eq gfx_level GFX7 then gcr_cntl
                    else Z.lor gcr_cntl (Z.shiftl 1 31) in
    let packet :=
      if gfx_eq gfx_level GFX9 || is_mec then
        [Z.lor (PKT3 PKT3_ACQUIRE_MEM 5 0) (S_field 1 1 (b2z is_mec)); dw gcr_cntl;
         0xffffffff; 0xff; 0; 0; 0xA]
      else [PKT3 PKT3_SURFACE_SYNC 3 0; dw gcr_cntl; 0xffffffff; 0; 0xA] in
    let sync := (engine =? V_581A_PREFETCH_PARSER) && negb is_mec in
    Some (packet ++ (if sync then ac_emit_cp_pfp_sync_me false else []),
          ip_eq ip_type AMD_IP_GFX, sync).

Definition ac_emit_cp_release_mem (gfx_level : amd_gfx_level) (ip_type : amd_ip_type)
    (event event_flags dst_sel int_sel data_sel va new_fence eop_bug_va : Z)
  : option (list Z) :=
  assert! gfx_ge gfx_level GFX12 || (event_flags =? 0)
          || (negb (event =? V_PS_DONE) && negb (event =? V_CS_DONE)) ;;
  let is_mec := gfx_ge gfx_level GFX7 && ip_eq ip_type AMD_IP_COMPUTE in
  let event := if gfx_eq gfx_level GFX7 && ((event =? V_CS_DONE) || (event =? V_PS_DONE))
               then V_BOTTOM_OF_PIPE_TS else event in
  let eos := (event =? V_CS_DONE) || (event =? V_PS_DONE) in
  let op := dw (lors [EVENT_TYPE event; EVENT_INDEX (if eos then 6 else 5); event_flags]) in
  let sel := dw (lors [Z.shiftl dst_sel 16; Z.shiftl int_sel 24; Z.shiftl data_sel 29]) in
  if gfx_ge gfx_level GFX9 || is_mec then
    Some ((if gfx_eq gfx_level GFX9 && negb is_mec && negb (eop_bug_va =? 0) then
             [PKT3 PKT3_EVENT_WRITE 2 0; Z.lor (EVENT_TYPE V_ZPASS_DONE) (EVENT_INDEX 1);
              addr_lo eop_bug_va; addr_hi eop_bug_va]
           else [])
          ++ [PKT3 PKT3_RELEASE_MEM (if gfx_ge gfx_level GFX9 then 6 else 5) 0; op; sel;
              addr_lo va; addr_hi va; dw new_fence; 0]
          ++ (if gfx_ge gfx_level GFX9 then [0] else []))
  else if eos then
    assert! (event_flags =? 0) && (dst_sel =? EOP_DST_SEL_MEM)
            && (data_sel =? EOP_DATA_SEL_VALUE_32BIT) ;;
    Some [PKT3 PKT3_EVENT_WRITE_EOS 3 0; op; addr_lo va;
          dw (Z.lor (Z.land (Z.shiftr va 32) 0xffff) (Z.shiftl 2 29)); dw new_fence]
  else
    Some ((if gfx_eq gfx_level GFX7 || gfx_eq gfx_level GFX8 then
             [PKT3 PKT3_EVENT_WRITE_EOP 4 0; op; addr_lo eop_bug_va;
              dw (Z.lor (Z.land (Z.shiftr eop_bug_va 32) 0xffff) sel); 0; 0]
           else [])
          ++ [PKT3 PKT3_EVENT_WRITE_EOP 4 0; op; addr_lo va;
              dw (Z.lor (Z.land (Z.shiftr va 32) 0xffff) sel); dw new_fence; 0]).

Definition ac_emit_cp_copy_data (src_sel dst_sel src_va dst_va flags : Z) (predicate : bool)
  : option (list Z) :=
  let dword0 := lors [S_field 0 4 src_sel; S_field 8 4 dst_sel;
                      if has flags 1 then Z.shiftl 1 20 else 0;
                      if has flags 2 then Z.shiftl 1 16 else 0;
                      if has flags 4 then Z.shiftl 1 30 else 0] in
  assert! negb (has flags 4) || (negb (src_sel =? 0) && negb (dst_sel =? 0)) ;;
  Some [PKT3 PKT3_COPY_DATA 4 (b2z predicate); dword0; addr_lo src_va; addr_hi src_va;
        addr_lo dst_va; addr_hi dst_va].

Definition ac_emit_cp_set_predication (gfx_level : amd_gfx_level) (va op : Z) : list Z :=
  if gfx_ge gfx_level GFX9 then
    [PKT3 PKT3_SET_PREDICATION 2 0; dw op; addr_lo va; addr_hi va]
  else [PKT3 PKT3_SET_PREDICATION 1 0; addr_lo va; dw (Z.lor op (Z.land (Z.shiftr va 32) 0xff))].

Definition ac_emit_cp_atomic_mem (atomic_op atomic_cmd va data compare_data : Z) : list Z :=
  [PKT3 PKT3_ATOMIC_MEM 7 0; Z.lor (S_field 0 7 atomic_op) (S_field 8 4 atomic_cmd);
   addr_lo va; addr_hi va; addr_lo data; addr_hi data; addr_lo compare_data; addr_hi compare_data;
   10].

Definition ac_emit_cp_nop (value : Z) : list Z := [PKT3 PKT3_NOP 0 0; dw value].

(** * Packet framing

    A command processor reads a header and takes as many dwords as the header
    says: [count + 2] for a type-3 packet, except that a NOP with count 0x3fff is
    the header alone, and one dword for a type-2 packet.  [None] is a header the
    command processor does not accept. *)
Definition packet_len (h : Z) : option nat :=
  if PKT_TYPE_G h =? 3 then
    Some (if (PKT3_IT_OPCODE_G h =? PKT3_NOP) && (PKT_COUNT_G h =? 0x3fff) then 1%nat
          else Z.to_nat (PKT_COUNT_G h + 2))
  else if PKT_TYPE_G h =? 2 then Some 1%nat
  else None.

Definition framed (p : list Z) : Prop :=
  match p with [] => False | h :: _ => packet_len h = Some (length p) end.

(** Cut the first packet off a stream of dwords. *)
Definition next_packet (ws : list Z) : option (list Z * list Z) :=
  match ws with
  | [] => None
  | h :: _ =>
      let! n := packet_len h ;;
      if (n <=? length ws)%nat then Some (take n ws, drop n ws) else None
  end.

Fixpoint parse_fuel (fuel : nat) (ws : list Z) : option (list (list Z)) :=
  match ws, fuel with
  | [], _ => Some []
  | _, O => None
  | _, S fuel =>
      let! (p, rest) := next_packet ws ;;
      let! ps := parse_fuel fuel rest ;;
      Some (p :: ps)
  end.

Definition parse (ws : list Z) : option (list (list Z)) := parse_fuel (length ws) ws.

Definition is_nop (p : list Z) : bool :=
  match p with
  | [] => false
  | h :: _ => (PKT_TYPE_G h =? 2) || (PKT3_IT_OPCODE_G h =? PKT3_NOP)
  end.

#[global] Arguments packet_len : simpl never.
#[global] Arguments next_packet : simpl never.
#[global] Arguments is_nop : simpl never.

Lemma PKT3_type op count pred : PKT_TYPE_G (PKT3 op count pred) = 3.
Proof.
  unfold PKT_TYPE_G, PKT3. rewrite !G_lor, G_S_same, !G_S_other by lia.
  replace (Z.land pred 1) with (S_field 0 1 pred)
    by (unfold S_field; by rewrite Z.shiftl_0_r).
  by rewrite G_S_other by lia.
Qed.

Lemma PKT3_count op count pred :
  0 <= count < 0x4000 -> PKT_COUNT_G (PKT3 op count pred) = count.
Proof.
  intros. unfold PKT_COUNT_G, PKT3.
  replace (Z.land pred 1) with (S_field 0 1 pred) by (unfold S_field; by rewrite Z.shiftl_0_r).
  read_field. apply land_ones_small; lia.
Qed.

Lemma PKT3_opcode op count pred :
  0 <= op < 0x100 -> PKT3_IT_OPCODE_G (PKT3 op count pred) = op.
Proof.
  intros. unfold PKT3_IT_OPCODE_G, PKT3.
  replace (Z.land pred 1) with (S_field 0 1 pred) by (unfold S_field; by rewrite Z.shiftl_0_r).
  read_field. apply land_ones_small; lia.
Qed.

Lemma PKT3_len op count pred :
  0 <= op < 0x100 -> 0 <= count < 0x3fff ->
  packet_len (PKT3 op count pred) = Some (Z.to_nat (count + 2)).
Proof.
  intros. unfold packet_len. rewrite PKT3_type, PKT3_opcode, PKT3_count by lia.
  replace (count =? 0x3fff) with false by lia. by rewrite andb_false_r.
Qed.

Lemma framed_PKT3 op count pred body :
  0 <= op < 0x100 -> 0 <= count < 0x3fff -> length body = Z.to_nat (count + 1) ->
  framed (PKT3 op count pred :: body).
Proof. intros. unfold framed. rewrite PKT3_len by lia. f_equal. simpl. lia. Qed.

Lemma next_packet_framed p rest : framed p -> next_packet (p ++ rest) = Some (p, rest).
Proof.
  destruct p as [|h t]; [done|]. unfold framed, next_packet. intros Hl.
  cbn [app]. rewrite Hl. cbn [mbind option_bind].
  rewrite (proj2 (Nat.leb_le _ _)) by (simpl; rewrite length_app; lia).
  change (h :: t ++ rest) with ((h :: t) ++ rest).
  by rewrite take_app_length, drop_app_length.
Qed.

Lemma framed_length p : framed p -> (0 < length p)%nat.
Proof. destruct p; simpl; [done|lia]. Qed.

Lemma parse_fuel_concat ps fuel :
  Forall framed ps -> (length (concat ps) <= fuel)%nat -> parse_fuel fuel (concat ps) = Some ps.
Proof.
  revert fuel. induction ps as [|p ps IH]; intros fuel Hf Hl; [by destruct fuel|].
  apply Forall_cons in Hf as [Hp Hps]. simpl in *. rewrite length_app in Hl.
  pose proof (framed_length _ Hp).
  destruct fuel as [|fuel]; [lia|].
  assert (exists a l, p ++ concat ps = a :: l) as (a & l & E)
    by (destruct p; [simpl in *; lia|by eexists _, _]).
  rewrite E. cbn [parse_fuel]. rewrite <- E, next_packet_framed by done. simpl.
  by rewrite IH by (done || lia).
Qed.

Lemma parse_concat ps : Forall framed ps -> parse (concat ps) = Some ps.
Proof. intros. by apply parse_fuel_concat. Qed.

(** A stream that splits into whole packets. *)
Definition well_framed (ws : list Z) : Prop := exists ps, Forall framed ps /\ ws = concat ps.

Lemma well_framed_parse ws : well_framed ws -> exists ps, parse ws = Some ps /\ concat ps = ws.
Proof. intros (ps & H & ->). exists ps. by rewrite parse_concat. Qed.

Lemma well_framed_nil : well_framed [].
Proof. by exists []. Qed.

Lemma well_framed_app a b : well_framed a -> well_framed b -> well_framed (a ++ b).
Proof.
  intros (pa & Ha & ->) (pb & Hb & ->). exists (pa ++ pb).
  by rewrite concat_app, Forall_app.
Qed.

Lemma well_framed_one p : framed p -> well_framed p.
Proof. exists [p]. simpl. rewrite app_nil_r. by split; [constructor|]. Qed.

Lemma well_framed_PKT3 op count pred body :
  0 <= op < 0x100 -> 0 <= count < 0x3fff -> length body = Z.to_nat (count + 1) ->
  well_framed (PKT3 op count pred :: body).
Proof. intros. by apply well_framed_one, framed_PKT3. Qed.

#[export] Hint Resolve well_framed_nil well_framed_app : radv.
#[export] Hint Extern 3 (well_framed (PKT3 _ _ _ :: _)) =>
  (apply well_framed_PKT3; [done|lia|simpl; lia]) : radv.

(** What an operation of the option monad that returns dwords promises. *)
Definition emits_whole_packets (r : option (list Z)) : Prop :=
  forall ws, r = Some ws -> well_framed ws.

Lemma emits_assert b k : emits_whole_packets k -> emits_whole_packets (assert! b ;; k).
Proof. destruct b; [done|by intros ???]. Qed.

Lemma emits_some ws : well_framed ws -> emits_whole_packets (Some ws).
Proof. by intros ?? [= <-]. Qed.

(** The engine bit of a compute ACQUIRE_MEM does not touch the fields that frame it. *)
Lemma well_framed_shader_type op count b body :
  0 <= op < 0x100 -> 0 <= count < 0x3fff -> length body = Z.to_nat (count + 1) ->
  well_framed (Z.lor (PKT3 op count 0) (S_field 1 1 b) :: body).
Proof.
  intros Ho Hc Hl. apply well_framed_one. unfold framed.
  replace (packet_len _) with (packet_len (PKT3 op count 0));
    [rewrite PKT3_len by lia; f_equal; simpl; lia|].
  unfold packet_len, PKT_TYPE_G, PKT3_IT_OPCODE_G, PKT_COUNT_G.
  rewrite !(G_lor _ _ (PKT3 _ _ _)), !G_S_other, !Z.lor_0_r by lia. done.
Qed.

#[export] Hint Extern 3 (well_framed (Z.lor (PKT3 _ _ _) _ :: _)) =>
  (apply well_framed_shader_type; [done|lia|simpl; lia]) : radv.
#[export] Hint Resolve emits_assert emits_some : radv.

Lemma acquire_mem_pws_frames g ip ev st n c :
  emits_whole_packets (ac_emit_cp_acquire_mem_pws g ip ev st n c).
Proof. unfold ac_emit_cp_acquire_mem_pws. auto 10 with radv. Qed.

Lemma release_mem_pws_frames g ip ev c :
  emits_whole_packets (ac_emit_cp_release_mem_pws g ip ev c).
Proof. unfold ac_emit_cp_release_mem_pws. auto 12 with radv. Qed.

Lemma acquire_mem_frames g ip eng c ws roll sync :
  ac_emit_cp_acquire_mem g ip eng c = Some (ws, roll, sync) -> well_framed ws.
Proof.
  unfold ac_emit_cp_acquire_mem. intros H.
  destruct (_ || _ || _), (negb (c =? 0)); try done. simpl in H.
  destruct (gfx_ge g GFX10); [injection H as <- <- <-; auto with radv|].
  injection H as <- <- <-. apply well_framed_app.
  - destruct (gfx_eq g GFX9 || _); auto with radv.
  - unfold ac_emit_cp_pfp_sync_me. destruct (_ && _); auto with radv.
Qed.

Lemma release_mem_frames g ip ev fl ds isel da va f bug :
  emits_whole_packets (ac_emit_cp_release_mem g ip ev fl ds isel da va f bug).
Proof.
  unfold ac_emit_cp_release_mem. apply emits_assert. cbv zeta.
  destruct (gfx_ge g GFX9 || (gfx_ge g GFX7 && _)).
  - apply emits_some, well_framed_app; [destruct (_ && _ && _); auto with radv|].
    destruct (gfx_ge g GFX9); cbn [app]; auto with radv.
  - destruct ((_ =? V_CS_DONE) || _); auto with radv.
    apply emits_some, well_framed_app; [|auto with radv].
    destruct (gfx_eq g GFX7 || gfx_eq g GFX8); auto with radv.
Qed.

Lemma write_data_frames eng dst va data p :
  Z.of_nat (length data) <= 0x3ffc -> well_framed (ac_emit_cp_write_data eng dst va data p).
Proof.
  intros. unfold ac_emit_cp_write_data, ac_emit_cp_write_data_head. simpl.
  apply well_framed_PKT3; [done|lia|]. simpl. lia.
Qed.

(** C40: the builders of this file, which are those of ac_cmdbuf_cp.c for indirect
    buffers, conditional execution, WRITE_DATA (with its data following the head, or
    an immediate), memory waits, acquires and releases with their PWS forms, COPY_DATA,
    PFP_SYNC_ME, predication, memory atomics and NOP, and the EVENT_WRITE of
    ac_cmdbuf.h, emit a whole number of packets whatever their arguments, on every
    generation and queue where their assertions hold: the count field of each header
    agrees with the dwords that follow, so a reader that frames the stream by headers
    alone stays in step.  The one bound is that the data of a WRITE_DATA is at most
    0x3ffc dwords; its 14-bit count field overflows beyond that. *)
Theorem packet_builders_well_framed (g : amd_gfx_level) (ip : amd_ip_type) :
  (forall va cdw fl p, well_framed (ac_emit_cp_indirect_buffer va cdw fl p)) /\
  (forall va n, well_framed (ac_emit_cp_cond_exec g va n)) /\
  (forall eng dst va data p, Z.of_nat (length data) <= 0x3ffc ->
     well_framed (ac_emit_cp_write_data_head eng dst va (Z.of_nat (length data)) p ++ data) /\
     well_framed (ac_emit_cp_write_data eng dst va data p)) /\
  (forall eng va v, well_framed (ac_emit_cp_write_data_imm eng va v)) /\
  (forall va ref mask fl, well_framed (ac_emit_cp_wait_mem va ref mask fl)) /\
  (forall ev st n c, emits_whole_packets (ac_emit_cp_acquire_mem_pws g ip ev st n c)) /\
  (forall ev c, emits_whole_packets (ac_emit_cp_release_mem_pws g ip ev c)) /\
  (forall eng c ws r s, ac_emit_cp_acquire_mem g ip eng c = Some (ws, r, s) -> well_framed ws) /\
  (forall ev fl ds isel da va f bug,
     emits_whole_packets (ac_emit_cp_release_mem g ip ev fl ds isel da va f bug)) /\
  (forall ss ds sva dva fl p, emits_whole_packets (ac_emit_cp_copy_data ss ds sva dva fl p)) /\
  (forall p, well_framed (ac_emit_cp_pfp_sync_me p)) /\
  (forall va op, well_framed (ac_emit_cp_set_predication g va op)) /\
  (forall op cmd va d cd, well_framed (ac_emit_cp_atomic_mem op cmd va d cd)) /\
  (forall ev, well_framed (ac_cmdbuf_event_write ev)) /\
  (forall v, well_framed (ac_emit_cp_nop v)).
Proof.
  repeat split; intros.
  - unfold ac_emit_cp_indirect_buffer. auto with radv.
  - unfold ac_emit_cp_cond_exec. destruct (gfx_ge g GFX7); auto with radv.
  - by apply write_data_frames.
  - by apply write_data_frames.
  - by apply write_data_frames.
  - unfold ac_emit_cp_wait_mem. auto with radv.
  - apply acquire_mem_pws_frames.
  - apply release_mem_pws_frames.
  - by eapply acquire_mem_frames.
  - apply release_mem_frames.
  - unfold ac_emit_cp_copy_data. auto with radv.
  - unfold ac_emit_cp_pfp_sync_me. auto with radv.
  - unfold ac_emit_cp_set_predication. destruct (gfx_ge g GFX9); auto with radv.
  - unfold ac_emit_cp_atomic_mem. auto with radv.
  - unfold ac_cmdbuf_event_write. auto with radv.
  - unfold ac_emit_cp_nop. auto with radv.
Qed.

Lemma packet_builders_well_framed_witness :
  well_framed (ac_emit_cp_write_data 1 V_371_MEMORY 0x1000 [1; 2; 3] false).
Proof.
  destruct (packet_builders_well_framed GFX10_3 AMD_IP_GFX) as (_ & _ & H & _).
  apply H. simpl. lia.
Defined.
