(* ===== verification/CsBuffers.v ===== *)
(** The buffer list of a command stream (src/amd/vulkan/winsys/amdgpu/radv_amdgpu_cs.c):
    the handle array with its 1024-entry hash table, and the merge of the lists
    of all command streams of a submission into the one list given to the kernel. *)

From stdpp Require Import gmap.
From S2P Require Import Prelude.

(** * Data *)

(** [struct drm_amdgpu_bo_list_entry] *)
Record bo_list_entry := Entry { bo_handle : Z; bo_priority : Z }.

#[global] Instance bo_list_entry_eq_dec : EqDecision bo_list_entry.
Proof. solve_decision. Defined.

(** The buffer fields of [struct radv_amdgpu_cs].  [handles] holds the
    [num_buffers] entries in use, and a hash-table slot that holds -1 is absent. *)
Record cs_buffers := CsBuffers {
  handles : list bo_list_entry;
  max_num_buffers : nat;
  buffer_hash_table : gmap Z nat
}.

Definition num_buffers (cs : cs_buffers) : nat := length (handles cs).

Definition hash_slot (bo : Z) : Z := Z.land bo 1023.

(** [radv_amdgpu_init_cs] on zeroed storage. *)
Definition init_cs_buffers : cs_buffers := CsBuffers [] 0 ∅.

(** * Operations *)

(** First index of [bo] in the handle array. *)
Fixpoint scan_handles (l : list bo_list_entry) (bo : Z) : option nat :=
  match l with
  | [] => None
  | e :: l => if bo_handle e =? bo then Some 0%nat else S <$> scan_handles l bo
  end.

(** A miss on the cached index falls back to a scan, which refreshes the slot.
    The outer [None] is an access outside the handle array. *)
Definition radv_amdgpu_cs_find_buffer (cs : cs_buffers) (bo : Z)
  : option (cs_buffers * option nat) :=
  let hash := hash_slot bo in
  match buffer_hash_table cs !! hash with
  | None => Some (cs, None)
  | Some index =>
      let! e := handles cs !! index ;;
      if bo_handle e =? bo then Some (cs, Some index)
      else match scan_handles (handles cs) bo with
           | Some i => Some (CsBuffers (handles cs) (max_num_buffers cs)
                                       (<[hash := i]> (buffer_hash_table cs)), Some i)
           | None => Some (cs, None)
           end
  end.

(** [realloc_ok n] tells whether growing the array to [n] entries succeeds; the
    returned flag is false when [status] becomes VK_ERROR_OUT_OF_HOST_MEMORY. *)
Definition radv_amdgpu_cs_add_buffer_internal (realloc_ok : nat -> bool)
    (cs : cs_buffers) (bo priority : Z) : option (cs_buffers * bool) :=
  let! (cs, index) := radv_amdgpu_cs_find_buffer cs bo ;;
  match index with
  | Some _ => Some (cs, true)
  | None =>
      let full := (num_buffers cs =? max_num_buffers cs)%nat in
      let new_count := Nat.max 1 (max_num_buffers cs * 2) in
      if full && negb (realloc_ok new_count) then Some (cs, false)
      else
        let cap := if full then new_count else max_num_buffers cs in
        assert! (num_buffers cs <? cap)%nat ;;
        Some (CsBuffers (handles cs ++ [Entry bo priority]) cap
                        (<[hash_slot bo := num_buffers cs]> (buffer_hash_table cs)), true)
  end.

(** The buffer part of [radv_amdgpu_cs_reset]: only the slots of listed handles
    are cleared. *)
Definition reset_buffers (cs : cs_buffers) : cs_buffers :=
  CsBuffers [] (max_num_buffers cs)
    (foldl (fun t e => delete (hash_slot (bo_handle e)) t) (buffer_hash_table cs) (handles cs)).

(** * The submission's list *)

(** A command stream and those it is chained to ([chained_to]), as one list. *)
Definition cs_chain := list cs_buffers.

Definition radv_amdgpu_count_cs_bo (c : cs_chain) : nat :=
  foldr (fun cs n => num_buffers cs + n)%nat 0%nat c.
Definition radv_amdgpu_count_cs_array_bo (a : list cs_chain) : nat :=
  foldr (fun c n => radv_amdgpu_count_cs_bo c + n)%nat 0%nat a.

(** Entries of [cs] are compared with the ones present on entry only. *)
Definition radv_amdgpu_add_cs_to_bo_list (cs : cs_buffers) (hs : list bo_list_entry)
  : list bo_list_entry :=
  match handles cs, hs with
  | [], _ => hs
  | l, [] => l
  | l, _ => hs ++ filter (fun e => bo_handle e ∉ bo_handle <$> hs) l
  end.

Definition radv_amdgpu_add_cs_array_to_bo_list (a : list cs_chain) (hs : list bo_list_entry)
  : list bo_list_entry :=
  foldl (fun hs c => foldl (fun hs cs => radv_amdgpu_add_cs_to_bo_list cs hs) hs c) hs a.

(** [malloc_ok n] tells whether the array of [n] entries can be allocated; [None]
    is VK_ERROR_OUT_OF_HOST_MEMORY. *)
Definition radv_amdgpu_get_bo_list (malloc_ok : nat -> bool) (debug_all_bos : bool)
    (global : list bo_list_entry) (cs_array initial cont postamble : list cs_chain)
  : option (list bo_list_entry) :=
  if debug_all_bos then if malloc_ok (length global) then Some global else None
  else match cs_array, initial, cont, postamble, global with
       | [[cs]], [], [], [], [] =>
           if (num_buffers cs =? 0)%nat then Some []
           else if malloc_ok (num_buffers cs) then Some (handles cs) else None
       | _, _, _, _, _ =>
           let total := (length global + radv_amdgpu_count_cs_array_bo cs_array
                         + radv_amdgpu_count_cs_array_bo initial
                         + radv_amdgpu_count_cs_array_bo cont
                         + radv_amdgpu_count_cs_array_bo postamble)%nat in
           if (total =? 0)%nat then Some []
           else if malloc_ok total then
             let hs := radv_amdgpu_add_cs_array_to_bo_list cs_array global in
             let hs := radv_amdgpu_add_cs_array_to_bo_list initial hs in
             let hs := radv_amdgpu_add_cs_array_to_bo_list cont hs in
             Some (radv_amdgpu_add_cs_array_to_bo_list postamble hs)
           else None
       end.

(** * Well-formedness *)

Definition handle_set (cs : cs_buffers) : list Z := bo_handle <$> handles cs.

(** The hash table is an index of the handle array: its slots point to entries of
    that slot, and every listed handle has its slot set. *)
Record buffers_wf (cs : cs_buffers) : Prop := {
  bw_nodup : NoDup (handle_set cs);
  bw_cap : (num_buffers cs <= max_num_buffers cs)%nat;
  bw_slot : forall h i, buffer_hash_table cs !! h = Some i ->
    exists e, handles cs !! i = Some e /\ hash_slot (bo_handle e) = h;
  bw_indexed : forall bo, bo ∈ handle_set cs -> is_Some (buffer_hash_table cs !! hash_slot bo)
}.

Lemma scan_handles_Some l bo i :
  scan_handles l bo = Some i -> exists e, l !! i = Some e /\ bo_handle e = bo.
Proof.
  revert i. induction l as [|e l IH]; intros i; simpl; [done|].
  destruct (Z.eqb_spec (bo_handle e) bo) as [He|He].
  - intros [= <-]. by exists e.
  - destruct (scan_handles l bo) as [j|]; [|done]. intros [= <-].
    destruct (IH j eq_refl) as (e' & ? & ?). by exists e'.
Qed.

Lemma scan_handles_None l bo : scan_handles l bo = None <-> bo ∉ bo_handle <$> l.
Proof.
  induction l as [|e l IH]; simpl; [by split; [intros _; apply not_elem_of_nil|]|].
  rewrite not_elem_of_cons, <- IH. destruct (Z.eqb_spec (bo_handle e) bo); [naive_solver|].
  rewrite fmap_None. naive_solver.
Qed.

Lemma elem_of_handles cs bo i e :
  handles cs !! i = Some e -> bo_handle e = bo -> bo ∈ handle_set cs.
Proof. intros He <-. apply list_elem_of_fmap_2. by eapply list_elem_of_lookup_2. Qed.

Lemma buffers_wf_refresh cs bo i e :
  buffers_wf cs -> handles cs !! i = Some e -> bo_handle e = bo ->
  buffers_wf (CsBuffers (handles cs) (max_num_buffers cs)
                        (<[hash_slot bo := i]> (buffer_hash_table cs))).
Proof.
  intros [Hnd Hc Hs Hi] He Hbo. split; simpl; [done|done| |].
  - intros h j. rewrite lookup_insert_Some. intros [[<- <-]|[_ Hj]]; [|by apply Hs].
    exists e. by rewrite Hbo.
  - intros bo' Hbo'. rewrite lookup_insert. case_decide; [done|]. by apply Hi.
Qed.

(** [find_buffer] never reads outside the array, keeps the list and finds exactly
    the listed handles. *)
Lemma find_buffer_spec cs bo :
  buffers_wf cs ->
  exists cs' r, radv_amdgpu_cs_find_buffer cs bo = Some (cs', r) /\ buffers_wf cs'
    /\ handles cs' = handles cs /\ max_num_buffers cs' = max_num_buffers cs
    /\ (bo ∉ handle_set cs -> cs' = cs)
    /\ match r with
       | Some i => exists e, handles cs !! i = Some e /\ bo_handle e = bo
       | None => bo ∉ handle_set cs
       end.
Proof.
  intros Hwf. unfold radv_amdgpu_cs_find_buffer.
  destruct (_ !! hash_slot bo) as [index|] eqn:Ht.
  2:{ exists cs, None. repeat split; try apply Hwf.
      intros Hin. apply (bw_indexed _ Hwf) in Hin. rewrite Ht in Hin. by destruct Hin. }
  destruct (bw_slot _ Hwf _ _ Ht) as (e & He & Hh). rewrite He. simpl.
  destruct (Z.eqb_spec (bo_handle e) bo) as [Hb|Hb].
  { exists cs, (Some index). repeat split; try apply Hwf. by exists e. }
  destruct (scan_handles _ _) as [i|] eqn:Hscan.
  - apply scan_handles_Some in Hscan as (e' & He' & Hb').
    eexists _, _. split; [done|]. split; [by eapply buffers_wf_refresh|].
    repeat split; [|by exists e'].
    intros []. by eapply elem_of_handles.
  - apply scan_handles_None in Hscan. exists cs, None. by repeat split; try apply Hwf.
Qed.

(** The cached lookup answers as a linear search of the list. *)
Lemma find_buffer_scan cs bo :
  buffers_wf cs -> snd <$> radv_amdgpu_cs_find_buffer cs bo = Some (scan_handles (handles cs) bo).
Proof.
  intros Hwf. destruct (find_buffer_spec cs bo Hwf) as (cs' & r & -> & _ & _ & _ & _ & Hr).
  simpl. f_equal. destruct r as [i|]; [|symmetry; by apply scan_handles_None].
  destruct Hr as (e & He & Hb). destruct (scan_handles (handles cs) bo) as [j|] eqn:Hs.
  - apply scan_handles_Some in Hs as (e' & He' & Hb'). f_equal.
    eapply NoDup_lookup; [apply (bw_nodup _ Hwf)| |]; unfold handle_set;
      rewrite list_lookup_fmap; [by rewrite He|rewrite He'; simpl; by rewrite Hb', Hb].
  - apply scan_handles_None in Hs. destruct Hs. by eapply elem_of_handles.
Qed.

Lemma init_cs_buffers_wf : buffers_wf init_cs_buffers.
Proof. split; unfold handle_set, num_buffers; simpl; [apply NoDup_nil_2|lia|done|by intros ? ?%not_elem_of_nil]. Qed.

Lemma buffers_wf_snoc cs bo prio cap :
  buffers_wf cs -> bo ∉ handle_set cs -> (num_buffers cs < cap)%nat ->
  buffers_wf (CsBuffers (handles cs ++ [Entry bo prio]) cap
                        (<[hash_slot bo := num_buffers cs]> (buffer_hash_table cs))).
Proof.
  intros [Hnd Hc Hs Hi] Hnew Hcap. split; unfold handle_set, num_buffers in *; simpl.
  - rewrite fmap_app. change (bo_handle <$> [Entry bo prio]) with [bo]. apply NoDup_app. split; [done|]. split; [|apply NoDup_singleton].
    intros x Hx ->%list_elem_of_singleton. done.
  - rewrite length_app. simpl. lia.
  - intros h j. rewrite lookup_insert_Some. intros [[<- <-]|[_ Hj]].
    + exists (Entry bo prio). by rewrite lookup_app_r, Nat.sub_diag by lia.
    + destruct (Hs _ _ Hj) as (e & He & ?). exists e. by rewrite lookup_app_l_Some with (x := e).
  - intros b. rewrite fmap_app. change (bo_handle <$> [Entry bo prio]) with [bo].
    rewrite elem_of_app, list_elem_of_singleton. intros Hb.
    rewrite lookup_insert. case_decide; [done|]. destruct Hb as [Hb| ->]; [by apply Hi|done].
Qed.

(** What [add_buffer_internal] does to the list: nothing when the handle is
    present, an append otherwise, and a failure only out of host memory. *)
Lemma add_buffer_internal_spec ok cs bo prio :
  buffers_wf cs ->
  exists cs' b, radv_amdgpu_cs_add_buffer_internal ok cs bo prio = Some (cs', b)
    /\ buffers_wf cs'
    /\ (b = true -> handles cs' = (if decide (bo ∈ handle_set cs) then handles cs
                                   else handles cs ++ [Entry bo prio]))
    /\ (b = false -> handles cs' = handles cs /\ (bo ∉ handle_set cs)
                     /\ num_buffers cs = max_num_buffers cs
                     /\ ok (Nat.max 1 (max_num_buffers cs * 2)) = false).
Proof.
  intros Hwf. unfold radv_amdgpu_cs_add_buffer_internal.
  destruct (find_buffer_spec cs bo Hwf) as (cs1 & r & -> & Hwf1 & Hh & Hm & Hsame & Hr). simpl.
  destruct r as [i|].
  { exists cs1, true. split_and!; [done|done| |done]. intros _.
    destruct Hr as (e & He & Hb). rewrite decide_True; [done|]. by eapply elem_of_handles. }
  specialize (Hsame Hr) as ->. clear Hh Hm Hwf1.
  destruct (Nat.eqb_spec (num_buffers cs) (max_num_buffers cs)) as [Hfull|Hfull]; simpl.
  - destruct (ok _) eqn:Hok; simpl.
    + rewrite cassert_bind by (apply Nat.ltb_lt; lia).
      eexists _, true. split; [done|]. split; [apply buffers_wf_snoc; [done..|lia]|].
      split; [|done]. by rewrite decide_False.
    + exists cs, false. by split_and!.
  - pose proof (bw_cap _ Hwf).
    rewrite cassert_bind by (apply Nat.ltb_lt; lia).
    eexists _, true. split; [done|]. split; [apply buffers_wf_snoc; [done..|lia]|].
    split; [|done]. by rewrite decide_False.
Qed.

Lemma foldl_delete_lookup l (t : gmap Z nat) h :
  foldl (fun t e => delete (hash_slot (bo_handle e)) t) t l !! h
  = if decide (h ∈ (fun e => hash_slot (bo_handle e)) <$> l) then None else t !! h.
Proof.
  revert t. induction l as [|e l IH]; intros t; simpl; [done|]. rewrite IH.
  destruct (decide (h = hash_slot (bo_handle e))) as [->|Hne].
  - rewrite lookup_delete_eq. case_decide; [|rewrite decide_True; [done|set_solver]].
    rewrite decide_True; [done|set_solver].
  - rewrite lookup_delete_ne by done.
    destruct (decide (h ∈ _ <$> l)); [rewrite decide_True by set_solver|
      rewrite decide_False by set_solver]; done.
Qed.

(** Clearing only the slots of listed handles empties the table. *)
Lemma reset_buffers_spec cs :
  buffers_wf cs -> reset_buffers cs = CsBuffers [] (max_num_buffers cs) ∅.
Proof.
  intros Hwf. unfold reset_buffers. f_equal. apply map_eq. intros h.
  rewrite foldl_delete_lookup, lookup_empty. case_decide as Hin; [done|].
  destruct (_ !! h) as [i|] eqn:Ht; [|done]. exfalso. apply Hin.
  destruct (bw_slot _ Hwf _ _ Ht) as (e & He & <-).
  apply list_elem_of_fmap. exists e. split; [done|]. by eapply list_elem_of_lookup_2.
Qed.

Lemma reset_buffers_wf cs : buffers_wf cs -> buffers_wf (reset_buffers cs).
Proof.
  intros Hwf. rewrite reset_buffers_spec by done.
  split; unfold handle_set, num_buffers; simpl; [apply NoDup_nil_2|lia|done|by intros ? ?%not_elem_of_nil].
Qed.

(** * Merging *)

Definition hset (l : list bo_list_entry) : list Z := bo_handle <$> l.

(** [r] extends [hs] by the handles satisfying [P], each handle once. *)
Record merges (hs r : list bo_list_entry) (n : nat) (P : Z -> Prop) : Prop := {
  mg_nodup : NoDup (hset r);
  mg_elem : forall b, b ∈ hset r <-> b ∈ hset hs \/ P b;
  mg_len : (length r <= length hs + n)%nat
}.

Lemma hset_filter_new hs l b :
  b ∈ hset (filter (fun e => bo_handle e ∉ bo_handle <$> hs) l) <-> b ∈ hset l /\ b ∉ hset hs.
Proof.
  unfold hset. split.
  - intros (e & -> & He)%list_elem_of_fmap. apply list_elem_of_filter in He as [Hn He].
    split; [by apply list_elem_of_fmap_2|done].
  - intros [(e & -> & He)%list_elem_of_fmap Hn].
    by apply list_elem_of_fmap_2, list_elem_of_filter.
Qed.

Lemma NoDup_hset_filter (P : bo_list_entry -> Prop) `{!forall x, Decision (P x)} l :
  NoDup (hset l) -> NoDup (hset (filter P l)).
Proof.
  unfold hset. intros Hnd. eapply sublist_NoDup; [done|].
  apply fmap_sublist, sublist_filter.
Qed.

Lemma filter_all {A} (P : A -> Prop) `{!forall x, Decision (P x)} (l : list A) :
  (forall x, P x) -> filter P l = l.
Proof.
  intros HP. induction l as [|x l IH]; [done|]. by rewrite filter_cons_True, IH.
Qed.

(** The two special cases of the code agree with the general one. *)
Lemma add_cs_eq cs hs :
  radv_amdgpu_add_cs_to_bo_list cs hs
  = hs ++ filter (fun e => bo_handle e ∉ bo_handle <$> hs) (handles cs).
Proof.
  unfold radv_amdgpu_add_cs_to_bo_list.
  destruct (handles cs) as [|e l]; [by rewrite filter_nil, app_nil_r|].
  destruct hs as [|e0 hs]; [|done]. rewrite filter_all; [done|].
  intros x. apply not_elem_of_nil.
Qed.

Lemma add_cs_merges cs hs :
  buffers_wf cs -> NoDup (hset hs) ->
  merges hs (radv_amdgpu_add_cs_to_bo_list cs hs) (num_buffers cs) (fun b => b ∈ handle_set cs).
Proof.
  intros Hwf Hhs. pose proof (bw_nodup _ Hwf) as Hnd. rewrite add_cs_eq.
  pose proof (hset_filter_new hs (handles cs)) as Hf.
  unfold num_buffers, handle_set in *. split.
  - unfold hset in *. rewrite fmap_app. apply NoDup_app. split; [done|].
    split; [|by apply NoDup_hset_filter].
    intros x Hx Hx'. by apply Hf in Hx' as [_ []].
  - intros b. unfold hset in *. rewrite fmap_app, elem_of_app, Hf.
    destruct (decide (b ∈ bo_handle <$> hs)); naive_solver.
  - rewrite length_app. pose proof (length_filter (fun e => bo_handle e ∉ bo_handle <$> hs)
      (handles cs)). lia.
Qed.

Lemma merges_trans hs r r' n m P Q :
  merges hs r n P -> merges r r' m Q -> merges hs r' (n + m) (fun b => P b \/ Q b).
Proof.
  intros [H1 H2 H3] [H1' H2' H3']. split; [done| |lia].
  intros b. rewrite H2', H2. tauto.
Qed.

Lemma merges_weaken hs r n m P Q :
  merges hs r n P -> (forall b, P b <-> Q b) -> n = m -> merges hs r m Q.
Proof. intros [H1 H2 H3] HPQ <-. split; [done| |done]. intros b. by rewrite H2, HPQ. Qed.

Lemma merges_refl hs : NoDup (hset hs) -> merges hs hs 0 (fun _ => False).
Proof. split; [done|tauto|lia]. Qed.

Definition in_chain (c : cs_chain) (b : Z) : Prop := exists cs, cs ∈ c /\ b ∈ handle_set cs.
Definition in_array (a : list cs_chain) (b : Z) : Prop := exists c, c ∈ a /\ in_chain c b.

Lemma add_chain_merges c hs :
  Forall buffers_wf c -> NoDup (hset hs) ->
  merges hs (foldl (fun hs cs => radv_amdgpu_add_cs_to_bo_list cs hs) hs c)
         (radv_amdgpu_count_cs_bo c) (in_chain c).
Proof.
  revert hs. induction c as [|cs c IH]; intros hs Hc Hhs; simpl.
  - eapply merges_weaken; [by apply merges_refl| |done]. intros b. unfold in_chain. set_solver.
  - apply Forall_cons in Hc as [Hcs Hc]. pose proof (add_cs_merges cs hs Hcs Hhs) as Hm.
    eapply merges_weaken; [eapply merges_trans; [done|apply IH; [done|apply Hm]]| |done].
    intros b. unfold in_chain. setoid_rewrite elem_of_cons. naive_solver.
Qed.

Lemma add_array_merges a hs :
  Forall (Forall buffers_wf) a -> NoDup (hset hs) ->
  merges hs (radv_amdgpu_add_cs_array_to_bo_list a hs)
         (radv_amdgpu_count_cs_array_bo a) (in_array a).
Proof.
  unfold radv_amdgpu_add_cs_array_to_bo_list.
  revert hs. induction a as [|c a IH]; intros hs Ha Hhs; simpl.
  - eapply merges_weaken; [by apply merges_refl| |done]. intros b. unfold in_array. set_solver.
  - apply Forall_cons in Ha as [Hc Ha]. pose proof (add_chain_merges c hs Hc Hhs) as Hm.
    eapply merges_weaken; [eapply merges_trans; [done|apply IH; [done|apply Hm]]| |done].
    intros b. unfold in_array. setoid_rewrite elem_of_cons. naive_solver.
Qed.

(** * Recording buffers on a command stream *)

(** A sequence of [cs_add_buffer] calls, each with its allocation outcome. *)
Fixpoint add_all (ok : nat -> bool) (l : list bo_list_entry) (cs : cs_buffers)
  : option (cs_buffers * bool) :=
  match l with
  | [] => Some (cs, true)
  | e :: l =>
      let! (cs, b) := radv_amdgpu_cs_add_buffer_internal ok cs (bo_handle e) (bo_priority e) ;;
      if (b : bool) then add_all ok l cs else Some (cs, false)
  end.

Lemma add_all_spec ok l cs :
  buffers_wf cs ->
  exists cs' b, add_all ok l cs = Some (cs', b) /\ buffers_wf cs'
    /\ (b = true -> forall bo, bo ∈ handle_set cs' <-> bo ∈ handle_set cs \/ bo ∈ hset l)
    /\ (forall bo, bo ∈ handle_set cs' -> bo ∈ handle_set cs \/ bo ∈ hset l)
    /\ ((forall n, ok n = true) -> b = true).
Proof.
  revert cs. induction l as [|e l IH]; intros cs Hwf; simpl.
  { exists cs, true. split_and!; [done|done| |by left|done]. intros _ bo. set_solver. }
  destruct (add_buffer_internal_spec ok cs (bo_handle e) (bo_priority e) Hwf)
    as (cs1 & b1 & -> & Hwf1 & Ht & Hf). simpl. destruct b1.
  - destruct (IH cs1 Hwf1) as (cs2 & b2 & -> & Hwf2 & Hm & Hsub & Hok).
    assert (forall bo, bo ∈ handle_set cs1 \/ bo ∈ hset l <->
                       bo ∈ handle_set cs \/ bo ∈ hset (e :: l)) as Hstep.
    { intros bo. specialize (Ht eq_refl). unfold handle_set, hset in *. rewrite Ht.
      destruct (decide _) as [Hin|Hin]; [set_solver|]. rewrite fmap_app. set_solver. }
    exists cs2, b2. split_and!; [done|done| | |done].
    + intros Hb bo. by rewrite (Hm Hb).
    + intros bo Hbo. by apply Hstep, Hsub.
  - exists cs1, false. split_and!; [done|done|done| |].
    { intros bo Hbo. left. unfold handle_set in *. by rewrite <- (proj1 (Hf eq_refl)). }
    intros Hall. destruct (Hf eq_refl) as (_ & _ & _ & Hno). by rewrite Hall in Hno.
Qed.

(** [cs] lists handles of [l], each once, and all of them unless host memory ran out,
    which [b] tells; the cached lookup of any handle answers as a linear search. *)
Definition lists (cs : cs_buffers) (l : list bo_list_entry) (b : bool) : Prop :=
  NoDup (handle_set cs)
  /\ (forall bo, bo ∈ handle_set cs -> bo ∈ hset l)
  /\ (b = true -> forall bo, bo ∈ hset l -> bo ∈ handle_set cs)
  /\ (forall bo, snd <$> radv_amdgpu_cs_find_buffer cs bo = Some (scan_handles (handles cs) bo)).

Lemma add_all_lists ok l cs :
  buffers_wf cs -> handles cs = [] ->
  exists cs' b, add_all ok l cs = Some (cs', b) /\ buffers_wf cs' /\ lists cs' l b
    /\ ((forall n, ok n = true) -> b = true).
Proof.
  intros Hwf He. destruct (add_all_spec ok l cs Hwf) as (cs' & b & E & Hwf' & Hm & Hsub & Hb).
  assert (forall bo, bo ∉ handle_set cs) as Hno
    by (intros bo; unfold handle_set; rewrite He; apply not_elem_of_nil).
  exists cs', b. split_and!; [done..|split; [apply Hwf'|]|done]. split_and!.
  - intros bo Hbo. destruct (Hsub bo Hbo) as [Hc|]; [by destruct (Hno bo)|done].
  - intros Ht bo Hbo. apply (Hm Ht). by right.
  - intros bo. by apply find_buffer_scan.
Qed.

(** C35: a command stream's buffer list behaves as a set.  Whatever handles are added, in
    whatever order, however their hashes collide and whichever growth of the array
    fails, no access leaves the handle array, no handle is listed twice, only added
    handles are listed, and the cached hash lookup of any handle answers as a linear
    search of the list.  If no growth fails every addition succeeds and every added
    handle is listed; additions stop with the error of the first growth that fails.  A
    reset empties the list, and the same holds of what is added after it. *)
Theorem buffer_list_is_a_set (ok : nat -> bool) (l l' : list bo_list_entry) :
  exists cs b cs' b', add_all ok l init_cs_buffers = Some (cs, b) /\ lists cs l b
    /\ add_all ok l' (reset_buffers cs) = Some (cs', b') /\ lists cs' l' b'
    /\ ((forall n, ok n = true) -> b = true /\ b' = true).
Proof.
  destruct (add_all_lists ok l _ init_cs_buffers_wf eq_refl) as (cs & b & E & Hwf & Hl & Hb).
  destruct (add_all_lists ok l' _ (reset_buffers_wf _ Hwf) eq_refl) as (cs' & b' & E' & _ & Hl' & Hb').
  exists cs, b, cs', b'. by split_and!; auto.
Qed.

(** Two handles that share slot 5, added twice. *)
Lemma buffer_list_is_a_set_witness :
  exists cs, add_all (fun _ => true) [Entry 5 0; Entry 1029 0; Entry 5 0; Entry 1029 0]
                     init_cs_buffers = Some (cs, true)
             /\ NoDup (handle_set cs).
Proof.
  destruct (buffer_list_is_a_set (fun _ => true)
              [Entry 5 0; Entry 1029 0; Entry 5 0; Entry 1029 0] [])
    as (cs & b & cs' & b' & H & (Hn & _) & _ & _ & Hb).
  destruct Hb as [-> _]; [reflexivity|].
  exists cs. split; [exact H|exact Hn].
Defined.

(** The sequential merge over four arrays is the merge over their concatenation. *)
Lemma add_array_app a b hs :
  radv_amdgpu_add_cs_array_to_bo_list b (radv_amdgpu_add_cs_array_to_bo_list a hs)
  = radv_amdgpu_add_cs_array_to_bo_list (a ++ b) hs.
Proof. unfold radv_amdgpu_add_cs_array_to_bo_list. by rewrite foldl_app. Qed.

Lemma count_array_app a b :
  radv_amdgpu_count_cs_array_bo (a ++ b)
  = (radv_amdgpu_count_cs_array_bo a + radv_amdgpu_count_cs_array_bo b)%nat.
Proof. induction a as [|c a IH]; [done|]. simpl. rewrite IH. lia. Qed.

(** The fast paths return what the general merge would. *)
Lemma get_bo_list_general ok global cs_array initial cont postamble hs :
  Forall (Forall buffers_wf) (cs_array ++ initial ++ cont ++ postamble) -> NoDup (hset global) ->
  radv_amdgpu_get_bo_list ok false global cs_array initial cont postamble = Some hs ->
  hs = radv_amdgpu_add_cs_array_to_bo_list (cs_array ++ initial ++ cont ++ postamble) global.
Proof.
  intros Hall Hg Hr. pose proof (add_array_merges _ _ Hall Hg) as Hm.
  assert (forall g a i c p,
    let total := (length g + radv_amdgpu_count_cs_array_bo a
                  + radv_amdgpu_count_cs_array_bo i + radv_amdgpu_count_cs_array_bo c
                  + radv_amdgpu_count_cs_array_bo p)%nat in
    merges g (radv_amdgpu_add_cs_array_to_bo_list (a ++ i ++ c ++ p) g)
      (radv_amdgpu_count_cs_array_bo (a ++ i ++ c ++ p)) (in_array (a ++ i ++ c ++ p)) ->
    (if (total =? 0)%nat then Some [] else if ok total then
       Some (radv_amdgpu_add_cs_array_to_bo_list p (radv_amdgpu_add_cs_array_to_bo_list c
         (radv_amdgpu_add_cs_array_to_bo_list i (radv_amdgpu_add_cs_array_to_bo_list a g))))
     else None) = Some hs ->
    hs = radv_amdgpu_add_cs_array_to_bo_list (a ++ i ++ c ++ p) g) as Hgen.
  { intros g a i c p total Hmg. rewrite !add_array_app.
    rewrite !count_array_app in Hmg. subst total.
    destruct (Nat.eqb_spec (length g + radv_amdgpu_count_cs_array_bo a
      + radv_amdgpu_count_cs_array_bo i + radv_amdgpu_count_cs_array_bo c
      + radv_amdgpu_count_cs_array_bo p) 0) as [Hz|_].
    - intros [= <-]. symmetry.
      apply nil_length_inv. pose proof (mg_len _ _ _ _ Hmg). lia.
    - destruct (ok _); [|done]. intros [= <-]. done. }
  unfold radv_amdgpu_get_bo_list in Hr.
  destruct cs_array as [|[|cs [|]] [|]], initial, cont, postamble, global;
    try (by eapply Hgen; [exact Hm|exact Hr]).
  simpl. rewrite add_cs_eq, filter_all by (intros; apply not_elem_of_nil).
  unfold num_buffers in Hr. destruct (handles cs) as [|e l]; [by injection Hr|].
  simpl in Hr. destruct (ok _); by inversion Hr.
Qed.

(** The kernel's buffer list of a submission lists every handle of the global
    list and of every command stream, preamble and postamble of it (through their
    chains) exactly once and nothing else, and never outgrows the array sized by
    the counting pass. *)
Theorem get_bo_list_union (ok : nat -> bool) (global : list bo_list_entry)
    (cs_array initial cont postamble : list cs_chain) (hs : list bo_list_entry) :
  NoDup (hset global) ->
  Forall (Forall buffers_wf) (cs_array ++ initial ++ cont ++ postamble) ->
  radv_amdgpu_get_bo_list ok false global cs_array initial cont postamble = Some hs ->
  NoDup (hset hs)
  /\ (forall b, b ∈ hset hs <->
        b ∈ hset global \/ in_array (cs_array ++ initial ++ cont ++ postamble) b)
  /\ (length hs <= length global
        + radv_amdgpu_count_cs_array_bo (cs_array ++ initial ++ cont ++ postamble))%nat.
Proof.
  intros Hg Hall Hr. set (total := (cs_array ++ initial ++ cont ++ postamble)).
  apply get_bo_list_general in Hr as ->; [|done..].
  by destruct (add_array_merges total global Hall Hg) as [H1 H2 H3].
Qed.

(** Two chained command streams and a preamble that share handle 7. *)
Definition recorded (l : list bo_list_entry) : cs_buffers :=
  from_option fst init_cs_buffers (add_all (fun _ => true) l init_cs_buffers).

Lemma recorded_wf l : buffers_wf (recorded l).
Proof.
  unfold recorded. destruct (add_all_spec (fun _ => true) l _ init_cs_buffers_wf)
    as (cs & b & -> & Hw & _). done.
Qed.

Lemma get_bo_list_union_witness :
  exists hs,
    radv_amdgpu_get_bo_list (fun _ => true) false [Entry 3 0]
      [[recorded [Entry 7 0; Entry 8 0]; recorded [Entry 9 0; Entry 7 0]]]
      [[recorded [Entry 9 0; Entry 7 0]]] [] [] = Some hs
    /\ hset hs = [3; 7; 8; 9] /\ NoDup (hset hs).
Proof.
  eexists. split; [reflexivity|]. split; [reflexivity|].
  eapply (get_bo_list_union (fun _ => true) [Entry 3 0] [[_; _]] [[_]] [] []);
    [apply NoDup_singleton|repeat constructor; apply recorded_wf|reflexivity].
Defined.
