(* ===== verification/WinsysCs.v ===== *)
(** Command streams of the amdgpu winsys
    (src/amd/vulkan/winsys/amdgpu/radv_amdgpu_cs.c): recording into indirect
    buffers (IBs) that are grown, padded, chained to each other and to other
    command streams, executed as secondaries, reset and recycled; and the command
    processor's view of the result. *)

From stdpp Require Import gmap.
From S2P Require Import Prelude Pm4 CsBuffers.

(** * Data *)

(** The fields of [struct radv_amdgpu_winsys_bo] a command stream looks at. *)
Record winsys_bo := Bo {
  bo_va : Z; bo_size : Z; bo_kms_handle : Z; bo_prio : Z; is_virtual : bool; is_local : bool
}.

(** [struct ac_cmdbuf].  A pointer into a mapped IB is the GPU address of the IB
    it belongs to (0 for NULL) with a dword index. *)
Record ac_cmdbuf := Cmdbuf { buf : Z; cdw : Z; max_dw : Z; reserved_dw : Z }.

(** [struct radv_amdgpu_ib] *)
Record radv_amdgpu_ib := Ib { ib_bo : option winsys_bo; ib_va : Z; ib_cdw : Z }.

(** [unsigned *ib_size_ptr]: it points to [ib.size] of the stream or to the last
    dword of the IB recorded before the current one. *)
Inductive size_ptr := AtIbSize | AtDword (ib idx : Z).

(** [struct radv_amdgpu_cs].  [chained_to] names a stream by the address of its
    first IB. *)
Record radv_amdgpu_cs := Cs {
  base : ac_cmdbuf;
  ib_mc_address : Z;
  ib_size : Z;
  ib_buffer : option winsys_bo;
  ib_buffers : list radv_amdgpu_ib;
  max_num_ib_buffers : nat;
  ib_size_ptr : size_ptr;
  status : VkResult;
  chained_to : option Z;
  chain_ib : bool;
  is_secondary : bool;
  hw_ip : amd_ip_type;
  buffers : cs_buffers;
  last_cp_dma_header : option (Z * Z)
}.

(** The parts of [radeon_info] used here. *)
Record cs_winsys_info := Winsys {
  gfx_level : amd_gfx_level;
  ws_chain_ib : bool;
  can_chain_ib2 : bool;
  gfx_ib_pad_with_type2 : bool;
  gfx11_shader_core : bool;
  ib_alignment : amd_ip_type -> Z;
  ib_pad_dw_mask : amd_ip_type -> Z
}.

(** The outcomes of the [n]th call of the winsys and of the host allocator:
    [buffer_create] gives a BO or fails, [buffer_map] works or not, and a new BO
    holds arbitrary dwords.  [k_limit] is a number of BOs there is memory for. *)
Record kernel := Kernel {
  k_create : nat -> Z -> option winsys_bo;
  k_contents : nat -> nat -> Z;
  k_map : nat -> bool;
  k_host : nat -> bool;
  k_limit : nat
}.

(** BO contents by GPU address, the winsys-wide IB cache, and the call counters. *)
Record world := World {
  mem : gmap Z (list Z);
  ib_cache : list winsys_bo;
  creates : nat;
  maps : nat
}.

Definition with_base (cs : radv_amdgpu_cs) (b : ac_cmdbuf) : radv_amdgpu_cs :=
  Cs b (ib_mc_address cs) (ib_size cs) (ib_buffer cs) (ib_buffers cs) (max_num_ib_buffers cs)
     (ib_size_ptr cs) (status cs) (chained_to cs) (chain_ib cs) (is_secondary cs) (hw_ip cs)
     (buffers cs) (last_cp_dma_header cs).
Definition with_cdw (cs : radv_amdgpu_cs) (n : Z) : radv_amdgpu_cs :=
  with_base cs (Cmdbuf (buf (base cs)) n (max_dw (base cs)) (reserved_dw (base cs))).
Definition with_reserved (cs : radv_amdgpu_cs) (n : Z) : radv_amdgpu_cs :=
  with_base cs (Cmdbuf (buf (base cs)) (cdw (base cs)) (max_dw (base cs)) n).
Definition with_ib (cs : radv_amdgpu_cs) (addr sz : Z) : radv_amdgpu_cs :=
  Cs (base cs) addr sz (ib_buffer cs) (ib_buffers cs) (max_num_ib_buffers cs)
     (ib_size_ptr cs) (status cs) (chained_to cs) (chain_ib cs) (is_secondary cs) (hw_ip cs)
     (buffers cs) (last_cp_dma_header cs).
Definition with_ib_buffer (cs : radv_amdgpu_cs) (b : option winsys_bo) : radv_amdgpu_cs :=
  Cs (base cs) (ib_mc_address cs) (ib_size cs) b (ib_buffers cs) (max_num_ib_buffers cs)
     (ib_size_ptr cs) (status cs) (chained_to cs) (chain_ib cs) (is_secondary cs) (hw_ip cs)
     (buffers cs) (last_cp_dma_header cs).
Definition with_ib_buffers (cs : radv_amdgpu_cs) (l : list radv_amdgpu_ib) (n : nat)
  : radv_amdgpu_cs :=
  Cs (base cs) (ib_mc_address cs) (ib_size cs) (ib_buffer cs) l n
     (ib_size_ptr cs) (status cs) (chained_to cs) (chain_ib cs) (is_secondary cs) (hw_ip cs)
     (buffers cs) (last_cp_dma_header cs).
Definition with_size_ptr (cs : radv_amdgpu_cs) (p : size_ptr) : radv_amdgpu_cs :=
  Cs (base cs) (ib_mc_address cs) (ib_size cs) (ib_buffer cs) (ib_buffers cs)
     (max_num_ib_buffers cs) p (status cs) (chained_to cs) (chain_ib cs) (is_secondary cs)
     (hw_ip cs) (buffers cs) (last_cp_dma_header cs).
Definition with_status (cs : radv_amdgpu_cs) (r : VkResult) : radv_amdgpu_cs :=
  Cs (base cs) (ib_mc_address cs) (ib_size cs) (ib_buffer cs) (ib_buffers cs)
     (max_num_ib_buffers cs) (ib_size_ptr cs) r (chained_to cs) (chain_ib cs) (is_secondary cs)
     (hw_ip cs) (buffers cs) (last_cp_dma_header cs).
Definition with_chained_to (cs : radv_amdgpu_cs) (c : option Z) : radv_amdgpu_cs :=
  Cs (base cs) (ib_mc_address cs) (ib_size cs) (ib_buffer cs) (ib_buffers cs)
     (max_num_ib_buffers cs) (ib_size_ptr cs) (status cs) c (chain_ib cs) (is_secondary cs)
     (hw_ip cs) (buffers cs) (last_cp_dma_header cs).
Definition with_buffers (cs : radv_amdgpu_cs) (b : cs_buffers) : radv_amdgpu_cs :=
  Cs (base cs) (ib_mc_address cs) (ib_size cs) (ib_buffer cs) (ib_buffers cs)
     (max_num_ib_buffers cs) (ib_size_ptr cs) (status cs) (chained_to cs) (chain_ib cs)
     (is_secondary cs) (hw_ip cs) b (last_cp_dma_header cs).
Definition radv_amdgpu_cs_set_last_cp_dma_header (cs : radv_amdgpu_cs) (p : option (Z * Z))
  : radv_amdgpu_cs :=
  Cs (base cs) (ib_mc_address cs) (ib_size cs) (ib_buffer cs) (ib_buffers cs)
     (max_num_ib_buffers cs) (ib_size_ptr cs) (status cs) (chained_to cs) (chain_ib cs)
     (is_secondary cs) (hw_ip cs) (buffers cs) p.
Definition radv_amdgpu_cs_get_last_cp_dma_header (cs : radv_amdgpu_cs) : option (Z * Z) :=
  last_cp_dma_header cs.

Definition with_mem (w : world) (m : gmap Z (list Z)) : world :=
  World m (ib_cache w) (creates w) (maps w).

(** * Memory

    A write outside a mapped IB is [None]. *)

Definition load (m : gmap Z (list Z)) (p i : Z) : option Z :=
  let! l := m !! p ;;
  if (0 <=? i) && (i <? Z.of_nat (length l)) then l !! Z.to_nat i else None.

Definition store (w : world) (p i v : Z) : option world :=
  let! l := mem w !! p ;;
  if (0 <=? i) && (i <? Z.of_nat (length l))
  then Some (with_mem w (<[p := <[Z.to_nat i := v]> l]> (mem w))) else None.

(** Consecutive dwords from [i] on. *)
Fixpoint stores (w : world) (p i : Z) (vs : list Z) : option world :=
  match vs with
  | [] => Some w
  | v :: vs => let! w := store w p i v ;; stores w p (i + 1) vs
  end.

Definition buffer_destroy (w : world) (bo : winsys_bo) : option world :=
  let! _ := mem w !! bo_va bo ;;
  Some (with_mem w (delete (bo_va bo) (mem w))).

(** * The IB cache *)

Fixpoint find_size (l : list winsys_bo) (sz : Z) : option nat :=
  match l with
  | [] => None
  | b :: l => if bo_size b =? sz then Some 0%nat else S <$> find_size l sz
  end.

Definition radv_xclipse_ib_cache_get (w : world) (sz : Z) : option winsys_bo * world :=
  match find_size (ib_cache w) sz with
  | Some i => (ib_cache w !! i,
               World (mem w) (swap_remove i (ib_cache w)) (creates w) (maps w))
  | None => (None, w)
  end.

Definition radv_xclipse_ib_cache_put (w : world) (bo : winsys_bo) : bool * world :=
  if (length (ib_cache w) <? 64)%nat
  then (true, World (mem w) (ib_cache w ++ [bo]) (creates w) (maps w))
  else (false, w).

Section Cs.
Context (ws : cs_winsys_info) (k : kernel).

(** * Buffers *)

(** [ws->buffer_create]: the new BO holds [bo_size / 4] dwords. *)
Definition buffer_create (w : world) (sz : Z) : option winsys_bo * world :=
  match k_create k (creates w) sz with
  | Some bo =>
      let data := k_contents k (creates w) <$> seq 0 (Z.to_nat (bo_size bo / 4)) in
      (Some bo, World (<[bo_va bo := data]> (mem w)) (ib_cache w) (S (creates w)) (maps w))
  | None => (None, World (mem w) (ib_cache w) (S (creates w)) (maps w))
  end.

(** [radv_buffer_map]: the mapping of a live BO, or NULL. *)
Definition radv_buffer_map (w : world) (bo : winsys_bo) : option Z * world :=
  (if k_map k (maps w) then Some (bo_va bo) else None,
   World (mem w) (ib_cache w) (creates w) (S (maps w))).

Definition radv_amdgpu_cs_add_buffer (cs : radv_amdgpu_cs) (bo : winsys_bo)
  : option radv_amdgpu_cs :=
  if bool_decide (status cs <> VK_SUCCESS) then Some cs
  else if is_virtual bo then Some cs
  else if is_local bo then Some cs
  else
    let! (b, ok) := radv_amdgpu_cs_add_buffer_internal (k_host k) (buffers cs)
                      (bo_kms_handle bo) (bo_prio bo) ;;
    Some (with_status (with_buffers cs b)
            (if (ok : bool) then status cs else VK_ERROR_OUT_OF_HOST_MEMORY)).

(** The BO becomes [cs->ib_buffer]; [None] is a creation failure, which leaves
    [cs->ib_buffer] as it is. *)
Definition radv_amdgpu_cs_bo_create (cs : radv_amdgpu_cs) (w : world) (sz : Z)
  : option winsys_bo * world :=
  if gfx11_shader_core ws then
    let '(cached, w) := radv_xclipse_ib_cache_get w sz in
    match cached with
    | Some bo => (Some bo, w)
    | None => buffer_create w sz
    end
  else buffer_create w sz.

(** * NOPs and padding *)

Definition get_nop_packet (cs : radv_amdgpu_cs) : option Z :=
  match hw_ip cs with
  | AMD_IP_GFX | AMD_IP_COMPUTE =>
      Some (if gfx_ib_pad_with_type2 ws then PKT2_NOP_PAD else PKT3_NOP_PAD)
  | AMD_IP_SDMA => Some (if gfx_eq (gfx_level ws) GFX6 then 0xF0000000 else 0)
  | AMD_IP_UVD | AMD_IP_UVD_ENC => Some PKT2_NOP_PAD
  | AMD_IP_VCN_DEC => Some 0x81FF
  | AMD_IP_VCN_ENC => Some 0
  | _ => None
  end.

Definition radeon_emit_unchecked (cs : radv_amdgpu_cs) (w : world) (v : Z)
  : option (radv_amdgpu_cs * world) :=
  let! w := store w (buf (base cs)) (cdw (base cs)) v ;;
  Some (with_cdw cs (u32 (cdw (base cs) + 1)), w).

(** One NOP packet; the dwords of its body keep whatever the IB holds. *)
Definition radv_amdgpu_cs_emit_pkt3_nop (cs : radv_amdgpu_cs) (w : world) (num_dw : Z)
  : option (radv_amdgpu_cs * world) :=
  assert! (if gfx_ib_pad_with_type2 ws then 2 else 1) <=? num_dw ;;
  let! (cs, w) := radeon_emit_unchecked cs w (PKT3 PKT3_NOP (u32 (num_dw - 2)) 0) ;;
  Some (with_cdw cs (u32 (cdw (base cs) + num_dw - 1)), w).

Fixpoint emit_nop_loop (n : nat) (cs : radv_amdgpu_cs) (w : world) (nop : Z)
  : option (radv_amdgpu_cs * world) :=
  match n with
  | O => Some (cs, w)
  | S n => let! (cs, w) := radeon_emit_unchecked cs w nop ;; emit_nop_loop n cs w nop
  end.

Definition is_pm4_ip (ip : amd_ip_type) : bool := ip_eq ip AMD_IP_GFX || ip_eq ip AMD_IP_COMPUTE.

Definition radv_amdgpu_cs_emit_nops (cs : radv_amdgpu_cs) (w : world) (num_dw : Z)
  : option (radv_amdgpu_cs * world) :=
  assert! negb (ip_eq (hw_ip cs) AMD_IP_VCN_ENC) ;;
  if num_dw =? 0 then Some (cs, w)
  else if (1 <? num_dw) && is_pm4_ip (hw_ip cs) then radv_amdgpu_cs_emit_pkt3_nop cs w num_dw
  else
    let! nop := get_nop_packet cs ;;
    emit_nop_loop (Z.to_nat num_dw) cs w nop.

Definition radv_amdgpu_winsys_cs_pad (cs : radv_amdgpu_cs) (w : world) (leave_dw_space : Z)
  : option (radv_amdgpu_cs * world) :=
  if ip_eq (hw_ip cs) AMD_IP_VCN_ENC then Some (cs, w)
  else if ip_eq (hw_ip cs) AMD_IP_UVD && (cdw (base cs) =? 0) then Some (cs, w)
  else
    let pad_dw_mask := ib_pad_dw_mask ws (hw_ip cs) in
    let unaligned_dw := Z.land (u32 (cdw (base cs) + leave_dw_space)) pad_dw_mask in
    let! (cs, w) :=
      (if negb (unaligned_dw =? 0) then
         radv_amdgpu_cs_emit_nops cs w (u32 (pad_dw_mask + 1 - unaligned_dw))
       else if (cdw (base cs) =? 0) && (leave_dw_space =? 0) then
         radv_amdgpu_cs_emit_nops cs w (u32 (pad_dw_mask + 1))
       else Some (cs, w)) ;;
    assert! Z.land (u32 (cdw (base cs) + leave_dw_space)) pad_dw_mask =? 0 ;;
    Some (cs, w).

(** * Finalizing, growing *)

Definition radv_amdgpu_cs_add_ib_buffer (cs : radv_amdgpu_cs) (bo : option winsys_bo) (va n : Z)
  : option radv_amdgpu_cs :=
  let full := (length (ib_buffers cs) =? max_num_ib_buffers cs)%nat in
  let new_max := Nat.max 1 (max_num_ib_buffers cs * 2) in
  if full && negb (k_host k new_max) then Some (with_status cs VK_ERROR_OUT_OF_HOST_MEMORY)
  else
    let cap := if full then new_max else max_num_ib_buffers cs in
    assert! (length (ib_buffers cs) <? cap)%nat ;;
    Some (with_ib_buffers cs (ib_buffers cs ++ [Ib bo va n]) cap).

Definition radv_amdgpu_restore_last_ib (cs : radv_amdgpu_cs) : option radv_amdgpu_cs :=
  let! ib := last (ib_buffers cs) ;;
  assert! bool_decide (is_Some (ib_bo ib)) ;;
  Some (with_ib_buffer
          (with_ib_buffers cs (take (pred (length (ib_buffers cs))) (ib_buffers cs))
                           (max_num_ib_buffers cs)) (ib_bo ib)).

(** [*ib_size_ptr |= cdw], giving the new value. *)
Definition add_ib_size (cs : radv_amdgpu_cs) (w : world) : option (Z * radv_amdgpu_cs * world) :=
  match ib_size_ptr cs with
  | AtIbSize =>
      let v := Z.lor (ib_size cs) (cdw (base cs)) in
      Some (v, with_ib cs (ib_mc_address cs) v, w)
  | AtDword p i =>
      let! old := load (mem w) p i ;;
      let v := Z.lor old (cdw (base cs)) in
      let! w := store w p i v ;;
      Some (v, cs, w)
  end.

Definition radv_amdgpu_cs_finalize (cs : radv_amdgpu_cs) (w : world)
  : option (radv_amdgpu_cs * world) :=
  assert! cdw (base cs) <=? reserved_dw (base cs) ;;
  let! (n, cs, w) :=
    (if chain_ib cs then
       let! (cs, w) := radv_amdgpu_winsys_cs_pad cs w 4 ;;
       let! (cs, w) := radv_amdgpu_cs_emit_nops cs w 4 ;;
       assert! cdw (base cs) <=? IB_SIZE_MAX ;;
       let! (v, cs, w) := add_ib_size cs w ;;
       Some (G_3F3_IB_SIZE v, cs, w)
     else
       let! (cs, w) := radv_amdgpu_winsys_cs_pad cs w 0 ;;
       Some (cdw (base cs), cs, w)) ;;
  let! bo := ib_buffer cs ;;
  let! cs := radv_amdgpu_cs_add_ib_buffer cs (Some bo) (bo_va bo) n ;;
  let cs := with_chained_to (with_ib_buffer cs None) None in
  assert! cdw (base cs) <=? u32 (max_dw (base cs) + 4) ;;
  Some (cs, w).

(** The dwords that make the end of an IB jump to another one. *)
Definition chain_packet (va sz : Z) : list Z :=
  [PKT3 PKT3_INDIRECT_BUFFER 2 0; addr_lo va; addr_hi va;
   Z.lor (Z.lor (S_3F3_CHAIN 1) (S_3F3_VALID 1)) sz].

#[global] Arguments chain_packet : simpl never.

Definition grow_size (cs : radv_amdgpu_cs) (min_size : Z) : Z :=
  let sz := Z.max (u64 (min_size * 4 + 16)) (u32 (max_dw (base cs) * 4 * 2)) in
  align (Z.min sz IB_SIZE_MAX) (ib_alignment ws (hw_ip cs)).

Definition radv_amdgpu_cs_grow (cs : radv_amdgpu_cs) (w : world) (min_size : Z)
  : option (radv_amdgpu_cs * world) :=
  if bool_decide (status cs <> VK_SUCCESS) then Some (with_cdw cs 0, w)
  else
    let! (cs, w) := radv_amdgpu_cs_finalize cs w ;;
    let sz := grow_size cs min_size in
    let '(created, w) := radv_amdgpu_cs_bo_create cs w sz in
    let! cs :=
      match created with
      | Some bo => Some (with_ib_buffer cs (Some bo))
      | None =>
          radv_amdgpu_restore_last_ib
            (with_status (with_cdw cs 0) VK_ERROR_OUT_OF_DEVICE_MEMORY)
      end ;;
    let! bo := ib_buffer cs ;;
    let '(ib_mapped, w) := radv_buffer_map w bo in
    let! (cs, w) :=
      match ib_mapped with
      | Some _ => Some (cs, w)
      | None =>
          let! w := buffer_destroy w bo ;;
          let! cs := radv_amdgpu_restore_last_ib
                       (with_status (with_cdw cs 0) VK_ERROR_OUT_OF_DEVICE_MEMORY) ;;
          Some (cs, w)
      end ;;
    let! bo := ib_buffer cs ;;
    let! cs := radv_amdgpu_cs_add_buffer cs bo ;;
    let! (cs, w) :=
      (if chain_ib cs then
         let n := cdw (base cs) in
         let p := buf (base cs) in
         let! w := store w p (u32 (n - 4)) (PKT3 PKT3_INDIRECT_BUFFER 2 0) ;;
         let! w := store w p (u32 (n - 3)) (addr_lo (bo_va bo)) ;;
         let! w := store w p (u32 (n - 2)) (addr_hi (bo_va bo)) ;;
         let! w := store w p (u32 (n - 1)) (Z.lor (S_3F3_CHAIN 1) (S_3F3_VALID 1)) ;;
         Some (with_size_ptr cs (AtDword p (u32 (n - 1))), w)
       else Some (cs, w)) ;;
    Some (radv_amdgpu_cs_set_last_cp_dma_header
            (with_base cs (Cmdbuf (default 0 ib_mapped) 0 (u32 (sz / 4 - 4)) 0)) None, w).

(** * Creating, resetting *)

(** [None] inside the result is the NULL the caller gets when no IB can be made. *)
Definition radv_amdgpu_cs_get_new_ib (cs : radv_amdgpu_cs) (w : world) (sz : Z)
  : option (option radv_amdgpu_cs * world) :=
  let '(created, w) := radv_amdgpu_cs_bo_create cs w sz in
  match created with
  | None => Some (None, w)
  | Some bo =>
      let '(ib_mapped, w) := radv_buffer_map w bo in
      match ib_mapped with
      | None => let! w := buffer_destroy w bo ;; Some (None, w)
      | Some p =>
          let cs := with_ib_buffer cs (Some bo) in
          let cs := with_ib (with_base cs (Cmdbuf p 0 (u32 (sz / 4 - 4)) 0)) (bo_va bo) 0 in
          let cs := radv_amdgpu_cs_set_last_cp_dma_header cs None in
          let cs := if chain_ib cs then with_size_ptr cs AtIbSize else cs in
          let! cs := radv_amdgpu_cs_add_buffer cs bo ;;
          Some (Some cs, w)
      end
  end.

Definition radv_amdgpu_cs_get_initial_size (ip : amd_ip_type) : option Z :=
  assert! util_is_power_of_two_nonzero (ib_alignment ws ip) ;;
  Some (align (20 * 1024 * 4) (ib_alignment ws ip)).

Definition radv_amdgpu_cs_create (w : world) (ip : amd_ip_type) (secondary : bool)
  : option (option radv_amdgpu_cs * world) :=
  let! sz := radv_amdgpu_cs_get_initial_size ip ;;
  let chain := ws_chain_ib ws && is_pm4_ip ip && negb (secondary && negb (can_chain_ib2 ws)) in
  let cs := Cs (Cmdbuf 0 0 0 0) 0 0 None [] 0 AtIbSize VK_SUCCESS None chain secondary ip
               init_cs_buffers None in
  radv_amdgpu_cs_get_new_ib cs w sz.

(** Chained IBs are parked in the cache or destroyed. *)
Fixpoint release_ibs (l : list radv_amdgpu_ib) (w : world) : option world :=
  match l with
  | [] => Some w
  | ib :: l =>
      match ib_bo ib with
      | None => release_ibs l w
      | Some bo =>
          let '(parked, w') := radv_xclipse_ib_cache_put w bo in
          if gfx11_shader_core ws && parked then release_ibs l w'
          else let! w := buffer_destroy w bo ;; release_ibs l w
      end
  end.

Definition radv_amdgpu_cs_reset (cs : radv_amdgpu_cs) (w : world)
  : option (radv_amdgpu_cs * world) :=
  let cs := with_base cs (Cmdbuf (buf (base cs)) 0 (max_dw (base cs)) 0) in
  let cs := radv_amdgpu_cs_set_last_cp_dma_header (with_status cs VK_SUCCESS) None in
  let cs := with_buffers cs (reset_buffers (buffers cs)) in
  assert! bool_decide (is_Some (ib_buffer cs)) || negb (bool_decide (ib_buffers cs = [])) ;;
  let! cs := match ib_buffer cs with
             | Some _ => Some cs
             | None => radv_amdgpu_restore_last_ib cs
             end ;;
  let! bo := ib_buffer cs ;;
  let! cs := radv_amdgpu_cs_add_buffer cs bo ;;
  let! w := release_ibs (ib_buffers cs) w ;;
  let cs := with_ib (with_ib_buffers cs [] (max_num_ib_buffers cs)) (bo_va bo) 0 in
  Some (if chain_ib cs then with_size_ptr cs AtIbSize else cs, w).

Definition radv_amdgpu_cs_destroy (cs : radv_amdgpu_cs) (w : world) : option world :=
  let! w := match ib_buffer cs with Some bo => buffer_destroy w bo | None => Some w end ;;
  foldr (fun ib r => let! w := r ;; let! bo := ib_bo ib ;; buffer_destroy w bo) (Some w)
        (rev (ib_buffers cs)).

(** * Recording (radv_cs.h, ac_cmdbuf.h) *)

Definition radeon_check_space (cs : radv_amdgpu_cs) (w : world) (needed : Z)
  : option (radv_amdgpu_cs * world) :=
  assert! cdw (base cs) <=? reserved_dw (base cs) ;;
  let! (cs, w) := (if u32 (max_dw (base cs) - cdw (base cs)) <? needed
                   then radv_amdgpu_cs_grow cs w needed else Some (cs, w)) ;;
  Some (with_reserved cs (Z.max (reserved_dw (base cs)) (u32 (cdw (base cs) + needed))), w).

Fixpoint ac_cmdbuf_emit_loop (reserved : Z) (w : world) (p num : Z) (ds : list Z)
  : option (Z * world) :=
  match ds with
  | [] => Some (num, w)
  | d :: ds =>
      assert! (reserved =? 0) || (num <? reserved) ;;
      let! w := store w p num d ;;
      ac_cmdbuf_emit_loop reserved w p (num + 1) ds
  end.

(** [ac_cmdbuf_begin] .. [ac_cmdbuf_end] around the emission of [ds]. *)
Definition ac_cmdbuf_emit_array (cs : radv_amdgpu_cs) (w : world) (ds : list Z)
  : option (radv_amdgpu_cs * world) :=
  let b := base cs in
  let! (num, w) := ac_cmdbuf_emit_loop (reserved_dw b) w (buf b) (cdw b) ds ;;
  assert! num <=? max_dw b ;;
  Some (with_cdw cs num, w).

(** * Chaining command streams *)

Definition radv_amdgpu_cs_unchain (cs : radv_amdgpu_cs) (w : world)
  : option (radv_amdgpu_cs * world) :=
  match chained_to cs with
  | None => Some (cs, w)
  | Some _ =>
      assert! cdw (base cs) <=? u32 (max_dw (base cs) + 4) ;;
      let! w := store w (buf (base cs)) (u32 (cdw (base cs) - 4)) (PKT3 PKT3_NOP 2 0) ;;
      Some (with_chained_to cs None, w)
  end.

Definition radv_amdgpu_cs_chain (cs : radv_amdgpu_cs) (w : world) (next : radv_amdgpu_cs)
    (pre_ena : bool) : option (bool * radv_amdgpu_cs * world) :=
  if negb (chain_ib cs) then Some (false, cs, w)
  else
    assert! cdw (base cs) <=? u32 (max_dw (base cs) + 4) ;;
    let n := cdw (base cs) in
    let p := buf (base cs) in
    let! w := store w p (u32 (n - 4)) (PKT3 PKT3_INDIRECT_BUFFER 2 0) ;;
    let! w := store w p (u32 (n - 3)) (addr_lo (ib_mc_address next)) ;;
    let! w := store w p (u32 (n - 2)) (addr_hi (ib_mc_address next)) ;;
    let! w := store w p (u32 (n - 1))
                (lors [S_3F3_CHAIN 1; S_3F3_VALID 1; S_3F3_PRE_ENA (b2z pre_ena); ib_size next]) ;;
    Some (true, with_chained_to cs (Some (ib_mc_address next)), w).

(** * Secondary command streams *)

Definition grow_if_needed (cs : radv_amdgpu_cs) (w : world) (n : Z)
  : option (radv_amdgpu_cs * world) :=
  let! (cs, w) := (if max_dw (base cs) <? u32 (cdw (base cs) + n)
                   then radv_amdgpu_cs_grow cs w n else Some (cs, w)) ;;
  Some (with_reserved cs (Z.max (reserved_dw (base cs)) (u32 (cdw (base cs) + n))), w).

Fixpoint emit_ib2 (ibs : list radv_amdgpu_ib) (parent : radv_amdgpu_cs) (w : world)
  : option (radv_amdgpu_cs * world) :=
  match ibs with
  | [] => Some (parent, w)
  | ib :: ibs =>
      let! (parent, w) := grow_if_needed parent w 4 ;;
      let! (parent, w) := ac_cmdbuf_emit_array parent w
                            (ac_emit_cp_indirect_buffer (ib_va ib) (ib_cdw ib) 0 false) ;;
      assert! cdw (base parent) <=? max_dw (base parent) ;;
      emit_ib2 ibs parent w
  end.

Definition radv_amdgpu_cs_emit_secondary_ib2 (parent child : radv_amdgpu_cs) (w : world)
  : option (radv_amdgpu_cs * world) :=
  assert! can_chain_ib2 ws || negb (chain_ib child) ;;
  if chain_ib child then let! ib := ib_buffers child !! 0%nat ;; emit_ib2 [ib] parent w
  else emit_ib2 (ib_buffers child) parent w.

(** [memcpy] of the first [n] dwords of an IB to the end of the parent. *)
Definition copy_ib (parent : radv_amdgpu_cs) (w : world) (src n : Z)
  : option (radv_amdgpu_cs * world) :=
  let! l := mem w !! src ;;
  assert! (0 <=? n) && (n <=? Z.of_nat (length l)) ;;
  let! w := stores w (buf (base parent)) (cdw (base parent)) (take (Z.to_nat n) l) ;;
  Some (with_cdw parent (u32 (cdw (base parent) + n)), w).

Fixpoint copy_secondary (chain : bool) (ibs : list radv_amdgpu_ib)
    (parent : radv_amdgpu_cs) (w : world) : option (radv_amdgpu_cs * world) :=
  match ibs with
  | [] => Some (parent, w)
  | ib :: ibs =>
      let n := if chain then u32 (ib_cdw ib - 4) else ib_cdw ib in
      let! bo := ib_bo ib ;;
      let! (parent, w) := grow_if_needed parent w n ;;
      let '(mapped, w) := radv_buffer_map w bo in
      match mapped with
      | None => Some (with_status parent VK_ERROR_OUT_OF_DEVICE_MEMORY, w)
      | Some src =>
          let! (parent, w) := copy_ib parent w src n ;;
          copy_secondary chain ibs parent w
      end
  end.

(** [radv_amdgpu_cs_add_buffer_internal] on the stream for every entry of the
    child's list. *)
Fixpoint add_child_buffers (parent : radv_amdgpu_cs) (l : list bo_list_entry)
  : option radv_amdgpu_cs :=
  match l with
  | [] => Some parent
  | e :: l =>
      let! (b, ok) := radv_amdgpu_cs_add_buffer_internal (k_host k) (buffers parent)
                        (bo_handle e) (bo_priority e) ;;
      add_child_buffers (with_status (with_buffers parent b)
        (if (ok : bool) then status parent else VK_ERROR_OUT_OF_HOST_MEMORY)) l
  end.

Definition radv_amdgpu_cs_execute_secondary (parent child : radv_amdgpu_cs) (w : world)
    (allow_ib2 : bool) : option (radv_amdgpu_cs * world) :=
  let use_ib2 := negb (is_secondary parent) && allow_ib2 && ip_eq (hw_ip parent) AMD_IP_GFX in
  if bool_decide (status parent <> VK_SUCCESS) || bool_decide (status child <> VK_SUCCESS)
  then Some (parent, w)
  else
    let! parent := add_child_buffers parent (handles (buffers child)) ;;
    if use_ib2 then radv_amdgpu_cs_emit_secondary_ib2 parent child w
    else copy_secondary (chain_ib child) (ib_buffers child) parent w.

(** [bo] is NULL when the IB is given by address. *)
Definition radv_amdgpu_cs_execute_ib (cs : radv_amdgpu_cs) (w : world) (bo : option winsys_bo)
    (va n : Z) (predicate : bool) : option (radv_amdgpu_cs * world) :=
  let addr := from_option bo_va va bo in
  if bool_decide (status cs <> VK_SUCCESS) then Some (cs, w)
  else
    assert! negb (addr =? 0) && (addr mod ib_alignment ws (hw_ip cs) =? 0) ;;
    assert! ip_eq (hw_ip cs) AMD_IP_GFX && (n <=? IB_SIZE_MAX) ;;
    ac_cmdbuf_emit_array cs w (ac_emit_cp_indirect_buffer addr n 0 predicate).

End Cs.
