(* ===== verification/CsExec.v ===== *)
(** What the command processor executes from a command stream of WinsysCs: a
    fetch-and-frame interpreter of chained indirect buffers, the invariant that
    relates a stream being recorded to the packets recorded so far, and the
    correctness of recording, growing, finalizing, resetting, chaining and of
    secondary command streams. *)

From stdpp Require Import gmap.
From S2P Require Import Prelude Pm4 CsBuffers WinsysCs.

(** * The command processor *)

(** [n] dwords from the start of the IB at [va]. *)
Definition fetch (m : gmap Z (list Z)) (va n : Z) : option (list Z) :=
  let! l := m !! va ;;
  if (0 <=? n) && (n <=? Z.of_nat (length l)) then Some (take (Z.to_nat n) l) else None.

Definition is_indirect_buffer (p : list Z) : bool :=
  match p with
  | [h; _; _; _] => (PKT_TYPE_G h =? 3) && (PKT3_IT_OPCODE_G h =? PKT3_INDIRECT_BUFFER)
  | _ => false
  end.

(** Address, size in dwords and CHAIN bit of an INDIRECT_BUFFER packet. *)
Definition ib_target (p : list Z) : option (Z * Z * bool) :=
  match p with
  | [_; lo; hi; c] =>
      if is_indirect_buffer p
      then Some (lo + hi * W32, G_3F3_IB_SIZE c, G_3F3_CHAIN c =? 1) else None
  | _ => None
  end.

Definition chain_target (p : list Z) : option (Z * Z) :=
  match ib_target p with Some (va, n, true) => Some (va, n) | _ => None end.

#[global] Arguments ib_target : simpl never.
#[global] Arguments chain_target : simpl never.

(** Frame the dwords of an IB, drop NOPs, and follow the chain at its end.  A chain
    before the end of an IB, and a malformed stream, are errors. *)
Fixpoint cp_run (fuel : nat) (m : gmap Z (list Z)) (ds : list Z) : option (list (list Z)) :=
  match ds, fuel with
  | [], _ => Some []
  | _, O => None
  | _, S fuel =>
      let! (p, rest) := next_packet ds ;;
      match chain_target p with
      | Some (va, n) =>
          if bool_decide (rest = []) then let! ds := fetch m va n ;; cp_run fuel m ds else None
      | None =>
          let! ps := cp_run fuel m rest ;;
          Some (if is_nop p then ps else p :: ps)
      end
  end.

Definition cp_exec (fuel : nat) (m : gmap Z (list Z)) (va n : Z) : option (list (list Z)) :=
  let! ds := fetch m va n ;; cp_run fuel m ds.

(** What is submitted of a finalized stream ([radv_amdgpu_submitted_ibs_per_cs]):
    the first IB when IBs are chained, else all of them. *)
Definition submitted_ibs (cs : radv_amdgpu_cs) : list radv_amdgpu_ib :=
  if chain_ib cs then take 1 (ib_buffers cs) else ib_buffers cs.

Fixpoint exec_ibs (fuel : nat) (m : gmap Z (list Z)) (ibs : list radv_amdgpu_ib)
  : option (list (list Z)) :=
  match ibs with
  | [] => Some []
  | ib :: ibs =>
      let! ps := cp_exec fuel m (ib_va ib) (ib_cdw ib) ;;
      let! qs := exec_ibs fuel m ibs ;;
      Some (ps ++ qs)
  end.

Definition executed (fuel : nat) (m : gmap Z (list Z)) (cs : radv_amdgpu_cs)
  : option (list (list Z)) := exec_ibs fuel m (submitted_ibs cs).

(** * Packets *)

(** A whole packet that does not leave the IB. *)
Definition plain (p : list Z) : Prop := framed p /\ chain_target p = None.

Definition visible (ps : list (list Z)) : list (list Z) := filter (fun p => is_nop p = false) ps.

Lemma visible_app a b : visible (a ++ b) = visible a ++ visible b.
Proof. apply filter_app. Qed.

Lemma cp_run_plain fuel m ps rest out :
  Forall plain ps -> cp_run fuel m rest = Some out ->
  cp_run (length ps + fuel) m (concat ps ++ rest) = Some (visible ps ++ out).
Proof.
  intros Hps Hrest. induction Hps as [|p ps [Hf Hc] Hps IH]; [done|].
  assert (exists h t, (concat (p :: ps) ++ rest) = h :: t) as (h & t & E).
  { destruct p as [|h t]; [done|]. by eexists _, _. }
  cbn [length Nat.add]. rewrite E. cbn [cp_run]. rewrite <- E. clear E.
  simpl concat. rewrite <- app_assoc, next_packet_framed by done. simpl.
  rewrite Hc, IH. simpl. unfold visible. f_equal.
  destruct (is_nop p) eqn:Hn; [by rewrite filter_cons_False by (rewrite Hn; done)|].
  by rewrite filter_cons_True.
Qed.

Lemma cp_run_mono fuel fuel' m ds out :
  cp_run fuel m ds = Some out -> (fuel <= fuel')%nat -> cp_run fuel' m ds = Some out.
Proof.
  revert fuel' ds out. induction fuel as [|fuel IH]; intros fuel' ds out Hr Hle.
  { destruct ds; [|done]. by destruct fuel'. }
  destruct ds as [|d ds]; [by destruct fuel'|]. destruct fuel' as [|fuel']; [lia|].
  cbn [cp_run] in *. destruct (next_packet _) as [[p rest]|]; [|done]. simpl in *.
  destruct (chain_target p) as [[va n]|].
  - destruct (bool_decide _); [|done]. destruct (fetch m va n); [|done].
    simpl in *. apply IH; [done|lia].
  - destruct (cp_run fuel m rest) as [ps|] eqn:E; [|done].
    by rewrite (IH fuel' rest ps) by (done || lia).
Qed.

Lemma addr_roundtrip va : 0 <= va < W64 -> addr_lo va + addr_hi va * W32 = va.
Proof.
  intros Hva. unfold addr_lo, addr_hi. rewrite Z.shiftr_div_pow2 by lia.
  unfold u32. change (2 ^ 32) with W32.
  rewrite (Z.mod_small (va / W32)).
  - pose proof (Z.div_mod va W32). unfold_words. lia.
  - split; [apply Z.div_pos; unfold_words; lia|].
    apply Z.div_lt_upper_bound; unfold_words; lia.
Qed.

Lemma G_field_self w v : 0 <= w -> 0 <= v < 2 ^ w -> G_field 0 w v = v.
Proof. intros. unfold G_field. rewrite Z.shiftr_0_r. by apply land_ones_small. Qed.

Lemma G_field_high lo w v : 0 <= lo -> 0 <= w -> 0 <= v < 2 ^ lo -> G_field lo w v = 0.
Proof.
  intros. unfold G_field. rewrite Z.shiftr_div_pow2, Z.div_small by lia. apply Z.land_0_l.
Qed.

Lemma chain_packet_target va n :
  0 <= va < W64 -> 0 <= n <= IB_SIZE_MAX ->
  framed (chain_packet va n) /\ chain_target (chain_packet va n) = Some (va, n).
Proof.
  intros Hva Hn. unfold IB_SIZE_MAX in Hn.
  split; [apply framed_PKT3; [done|lia|done]|].
  unfold chain_target, ib_target, chain_packet, is_indirect_buffer.
  rewrite PKT3_type, PKT3_opcode by done.
  change ((3 =? 3) && (PKT3_INDIRECT_BUFFER =? PKT3_INDIRECT_BUFFER)) with true. cbv iota.
  rewrite addr_roundtrip by done. unfold G_3F3_CHAIN, G_3F3_IB_SIZE, S_3F3_CHAIN, S_3F3_VALID.
  rewrite !G_lor, G_S_same, !G_S_other by lia.
  rewrite G_field_self, G_field_high by (change (2 ^ 20) with 1048576; lia). done.
Qed.

(** * Writing *)

Lemma store_ok w p i v l :
  mem w !! p = Some l -> 0 <= i < Z.of_nat (length l) ->
  store w p i v = Some (with_mem w (<[p := <[Z.to_nat i := v]> l]> (mem w))).
Proof.
  intros Hl Hi. unfold store. rewrite Hl. simpl.
  by rewrite (proj2 (Z.leb_le _ _)), (proj2 (Z.ltb_lt _ _)) by lia.
Qed.

Lemma with_mem_twice w p (l l' : list Z) :
  with_mem (with_mem w (<[p := l]> (mem w))) (<[p := l']> (<[p := l]> (mem w)))
  = with_mem w (<[p := l']> (mem w)).
Proof. unfold with_mem. simpl. by rewrite insert_insert_eq. Qed.

(** Both writing loops amount to an overwrite of the list from [i] on. *)
Lemma stores_ok w p i vs l :
  mem w !! p = Some l -> 0 <= i -> i + Z.of_nat (length vs) <= Z.of_nat (length l) ->
  stores w p i vs = Some (with_mem w (<[p := list_inserts (Z.to_nat i) vs l]> (mem w))).
Proof.
  revert w i l. induction vs as [|v vs IH]; intros w i l Hl Hi Hn; simpl.
  { f_equal. unfold with_mem. rewrite insert_id by done. by destruct w. }
  simpl in Hn. rewrite (store_ok w p i v l) by (done || lia). simpl.
  erewrite IH; [|simpl; apply lookup_insert_eq|lia|rewrite length_insert; lia].
  simpl. rewrite with_mem_twice. do 3 f_equal.
  replace (Z.to_nat (i + 1)) with (S (Z.to_nat i)) by lia.
  by rewrite list_insert_inserts_lt by lia.
Qed.

Lemma emit_loop_stores r w p i vs :
  0 <= i -> r = 0 \/ i + Z.of_nat (length vs) <= r ->
  ac_cmdbuf_emit_loop r w p i vs
  = (let! w := stores w p i vs ;; Some (i + Z.of_nat (length vs), w)).
Proof.
  revert w i. induction vs as [|v vs IH]; intros w i Hi Hr; simpl; [by rewrite Z.add_0_r|].
  simpl in Hr. pass_assert. destruct (store w p i v) as [w1|]; [|done]. simpl.
  rewrite IH by lia. destruct (stores w1 p (i + 1) vs); [|done]. simpl. do 2 f_equal. lia.
Qed.

Lemma take_inserts (l : list Z) i vs :
  (i + length vs <= length l)%nat ->
  take (i + length vs) (list_inserts i vs l) = take i l ++ vs.
Proof.
  intros Hn. rewrite <- (take_drop i l) at 1.
  assert (length (take i l) = i) as Hi by (rewrite length_take; lia).
  replace i with (length (take i l) + 0)%nat at 2 by lia.
  rewrite list_inserts_app_r. rewrite take_app. rewrite Hi.
  rewrite take_ge by lia. f_equal.
  replace (i + length vs - i)%nat with (length vs) by lia.
  rewrite <- (take_drop (length vs) (drop i l)) at 1.
  rewrite list_inserts_0_r by (rewrite length_take, length_drop; lia).
  by rewrite take_app_length.
Qed.

(** [cs'] and [w'] are [cs] and [w] with [ds] written at the end of the IB. *)
Definition appended (cs : radv_amdgpu_cs) (w : world) (ds : list Z)
    (cs' : radv_amdgpu_cs) (w' : world) : Prop :=
  exists l l', mem w !! buf (base cs) = Some l
    /\ w' = with_mem w (<[buf (base cs) := l']> (mem w))
    /\ length l' = length l
    /\ cs' = with_cdw cs (cdw (base cs) + Z.of_nat (length ds))
    /\ take (Z.to_nat (cdw (base cs)) + length ds) l' = take (Z.to_nat (cdw (base cs))) l ++ ds.

(** The current IB has room for [n] more dwords. *)
Definition room (cs : radv_amdgpu_cs) (w : world) (n : Z) : Prop :=
  exists l, mem w !! buf (base cs) = Some l /\ 0 <= cdw (base cs)
    /\ cdw (base cs) + n <= Z.of_nat (length l) /\ Z.of_nat (length l) < 2 ^ 31.

Lemma with_cdw_twice cs a b : with_cdw (with_cdw cs a) b = with_cdw cs b.
Proof. done. Qed.

Lemma with_cdw_id cs n : n = cdw (base cs) -> with_cdw cs n = cs.
Proof. intros ->. by destruct cs as [[]]. Qed.

Lemma appended_nil cs w l : mem w !! buf (base cs) = Some l -> appended cs w [] cs w.
Proof.
  intros Hl. exists l, l. split_and!; [done| |done| |].
  - unfold with_mem. rewrite insert_id by done. by destruct w.
  - by rewrite with_cdw_id by (simpl; lia).
  - simpl. by rewrite Nat.add_0_r, app_nil_r.
Qed.

Lemma appended_app cs w a cs1 w1 b cs2 w2 :
  0 <= cdw (base cs) ->
  appended cs w a cs1 w1 -> appended cs1 w1 b cs2 w2 -> appended cs w (a ++ b) cs2 w2.
Proof.
  intros Hc (l & l1 & Hl & -> & Hlen & -> & Ht) (l1' & l2 & Hl1 & -> & Hlen2 & -> & Ht2).
  simpl in *. rewrite lookup_insert_eq in Hl1. injection Hl1 as <-.
  exists l, l2. split_and!; [done| | |f_equal; rewrite length_app; lia|].
  - by rewrite with_mem_twice.
  - congruence.
  - replace (Z.to_nat (cdw (base cs) + Z.of_nat (length a)))
      with (Z.to_nat (cdw (base cs)) + length a)%nat in Ht2 by lia.
    rewrite length_app, Nat.add_assoc, Ht2, Ht. by rewrite app_assoc.
Qed.

Lemma appended_room cs w a cs1 w1 n :
  appended cs w a cs1 w1 -> room cs w (Z.of_nat (length a) + n) -> room cs1 w1 n.
Proof.
  intros (l & l1 & Hl & -> & Hlen & -> & Ht) (l0 & Hl0 & Hc & Hn & Hb).
  rewrite Hl in Hl0. injection Hl0 as <-. exists l1. simpl.
  rewrite lookup_insert_eq. rewrite Hlen. split_and!; [done|lia|lia|done].
Qed.

Lemma emit_array_appended cs w ds :
  room cs w (Z.of_nat (length ds)) ->
  reserved_dw (base cs) = 0 \/ cdw (base cs) + Z.of_nat (length ds) <= reserved_dw (base cs) ->
  cdw (base cs) + Z.of_nat (length ds) <= max_dw (base cs) ->
  exists cs' w', ac_cmdbuf_emit_array cs w ds = Some (cs', w') /\ appended cs w ds cs' w'.
Proof.
  intros (l & Hl & Hc & Hn & Hb) Hr Hm. unfold ac_cmdbuf_emit_array.
  rewrite emit_loop_stores, (stores_ok _ _ _ _ l) by done. simpl. pass_assert.
  eexists _, _. split; [done|]. eexists l, _. split_and!; [done|done| |done|].
  - apply length_inserts.
  - apply take_inserts. lia.
Qed.

(** * NOPs and padding *)

Definition nops (ps : list (list Z)) (n : Z) : Prop :=
  Forall plain ps /\ visible ps = [] /\ Z.of_nat (length (concat ps)) = n.

Lemma nop_plain p : framed p -> is_nop p = true -> plain p.
Proof.
  intros Hf Hn. split; [done|]. clear Hf. unfold chain_target, ib_target.
  destruct p as [|h [|a [|b [|c [|]]]]]; [reflexivity..| |reflexivity].
  unfold is_nop, is_indirect_buffer in *.
  destruct (Z.eqb_spec (PKT_TYPE_G h) 3) as [Ht|]; [|reflexivity]. rewrite Ht in Hn.
  destruct (Z.eqb_spec (PKT3_IT_OPCODE_G h) PKT3_INDIRECT_BUFFER) as [E|]; [|reflexivity].
  by rewrite E in Hn.
Qed.

Lemma nops_one p : framed p -> is_nop p = true -> nops [p] (Z.of_nat (length p)).
Proof.
  intros Hf Hn. split_and!.
  - constructor; [by apply nop_plain|done].
  - unfold visible. by rewrite filter_cons_False, filter_nil by (rewrite Hn; done).
  - simpl. by rewrite app_nil_r.
Qed.

Lemma nops_nil : nops [] 0.
Proof. by split_and!. Qed.

Lemma nop_packet_framed n junk :
  2 <= n < 0x4000 -> Z.of_nat (length junk) = n - 1 ->
  framed (PKT3 PKT3_NOP (n - 2) 0 :: junk) /\ is_nop (PKT3 PKT3_NOP (n - 2) 0 :: junk) = true.
Proof.
  intros. split; [apply framed_PKT3; [done|lia|lia]|].
  unfold is_nop. by rewrite PKT3_opcode, orb_true_r by done.
Qed.

Lemma nop_pad_framed ws :
  let p := [if gfx_ib_pad_with_type2 ws then PKT2_NOP_PAD else PKT3_NOP_PAD] in
  framed p /\ is_nop p = true.
Proof. intros p. subst p. destruct (gfx_ib_pad_with_type2 ws); split; vm_compute; reflexivity. Qed.

Lemma emit_unchecked_appended cs w v :
  room cs w 1 ->
  exists cs' w', radeon_emit_unchecked cs w v = Some (cs', w') /\ appended cs w [v] cs' w'.
Proof.
  intros (l & Hl & Hc & Hn & Hb). unfold radeon_emit_unchecked.
  rewrite (store_ok _ _ _ _ l) by (done || lia). simpl.
  rewrite u32_small by (unfold_words; lia).
  eexists _, _. split; [done|]. eexists l, _. split_and!; [done|done| |done|].
  - apply length_insert.
  - apply (take_inserts l (Z.to_nat (cdw (base cs))) [v]). simpl. lia.
Qed.

(** Moving [cdw] on takes over the dwords the IB already holds. *)
Lemma skip_appended cs w n :
  0 <= n -> room cs w n ->
  exists junk, Z.of_nat (length junk) = n
    /\ appended cs w junk (with_cdw cs (cdw (base cs) + n)) w.
Proof.
  intros Hn0 (l & Hl & Hc & Hn & Hb).
  exists (take (Z.to_nat n) (drop (Z.to_nat (cdw (base cs))) l)).
  assert (Z.of_nat (length (take (Z.to_nat n) (drop (Z.to_nat (cdw (base cs))) l))) = n) as Hj
    by (rewrite length_take, length_drop; lia).
  split; [done|]. exists l, l. split_and!; [done| |done|by rewrite Hj|].
  - unfold with_mem. rewrite insert_id by done. by destruct w.
  - rewrite take_take_drop. f_equal. lia.
Qed.

Section Exec.
Context (ws : cs_winsys_info) (k : kernel).

Lemma emit_nops_appended cs w n :
  is_pm4_ip (hw_ip cs) = true -> 0 <= n < 0x4000 -> room cs w n ->
  exists cs' w' ps, radv_amdgpu_cs_emit_nops ws cs w n = Some (cs', w')
    /\ appended cs w (concat ps) cs' w' /\ nops ps n
    /\ (1 < n -> exists junk, ps = [PKT3 PKT3_NOP (n - 2) 0 :: junk]).
Proof.
  intros Hip Hn Hroom. unfold radv_amdgpu_cs_emit_nops. rewrite Hip, andb_true_r.
  rewrite cassert_bind by (by destruct (hw_ip cs)).
  destruct (Z.eqb_spec n 0) as [->|Hn0].
  { destruct Hroom as (l & Hl & _). exists cs, w, []. split_and!; [done| |apply nops_nil|lia].
    by eapply appended_nil. }
  destruct (Z.ltb_spec 1 n) as [Hn1|Hn1].
  - unfold radv_amdgpu_cs_emit_pkt3_nop.
    rewrite cassert_bind by (destruct (gfx_ib_pad_with_type2 ws); lia).
    rewrite u32_small by (unfold_words; lia).
    destruct (emit_unchecked_appended cs w (PKT3 PKT3_NOP (n - 2) 0)) as (cs1 & w1 & -> & Ha).
    { destruct Hroom as (l & ? & ? & ? & ?). exists l. split_and!; [done|lia..]. }
    assert (room cs1 w1 (n - 1)) as Hroom1.
    { eapply appended_room; [done|]. by replace (_ + (n - 1)) with n by (cbn [length]; lia). }
    destruct (skip_appended cs1 w1 (n - 1)) as (junk & Hj & Ha1); [lia|done|]. simpl.
    replace (u32 (cdw (base cs1) + n - 1)) with (cdw (base cs1) + (n - 1)).
    2:{ destruct Hroom1 as (l & _ & ? & ? & ?). rewrite u32_small; [lia|unfold_words; lia]. }
    pose proof (nop_packet_framed n junk ltac:(lia) Hj) as [Hf Hnop].
    eexists _, _, [PKT3 PKT3_NOP (n - 2) 0 :: junk]. split_and!; [done| | |by exists junk].
    + simpl. rewrite app_nil_r. apply (appended_app _ _ [_] cs1 w1); [|done|done].
      by destruct Hroom as (? & _ & ? & _).
    + replace n with (Z.of_nat (length (PKT3 PKT3_NOP (n - 2) 0 :: junk))) at 2
        by (simpl; lia). by apply nops_one.
  - replace n with 1 in * by lia.
    assert (get_nop_packet ws cs = Some (if gfx_ib_pad_with_type2 ws then PKT2_NOP_PAD
                                         else PKT3_NOP_PAD)) as -> by
      (unfold get_nop_packet; by destruct (hw_ip cs)).
    destruct (emit_unchecked_appended cs w
      (if gfx_ib_pad_with_type2 ws then PKT2_NOP_PAD else PKT3_NOP_PAD) Hroom)
      as (cs1 & w1 & E & Ha).
    destruct (nop_pad_framed ws) as [Hf Hnop].
    eexists cs1, w1, [[_]]. split_and!; [|exact Ha|by apply (nops_one [_])|lia].
    simpl. by rewrite E.
Qed.

(** The padding keeps the IB a whole number of [pad_dw_mask + 1] dwords. *)
Lemma pad_appended cs w leave cap l :
  is_pm4_ip (hw_ip cs) = true -> ib_pad_dw_mask ws (hw_ip cs) = 7 -> 0 <= leave ->
  mem w !! buf (base cs) = Some l -> cap <= Z.of_nat (length l) < 2 ^ 31 ->
  0 <= cdw (base cs) -> cdw (base cs) + leave <= cap -> cap mod 8 = 0 -> 8 <= cap ->
  exists cs' w' ps n, radv_amdgpu_winsys_cs_pad ws cs w leave = Some (cs', w')
    /\ appended cs w (concat ps) cs' w' /\ nops ps n /\ 0 <= n <= 8
    /\ (cdw (base cs) + n + leave) mod 8 = 0
    /\ 0 < cdw (base cs) + n + leave <= cap.
Proof.
  intros Hip Hmask Hleave Hl Hlen Hc Hcap Hcap8 Hcap0.
  unfold radv_amdgpu_winsys_cs_pad. rewrite Hmask.
  replace (ip_eq (hw_ip cs) AMD_IP_VCN_ENC) with false by (by destruct (hw_ip cs)).
  replace (ip_eq (hw_ip cs) AMD_IP_UVD) with false by (by destruct (hw_ip cs)). simpl.
  rewrite u32_small by (unfold_words; lia). change 7 with (Z.ones 3).
  rewrite Z.land_ones by lia. change (2 ^ 3) with 8. change (Z.ones 3) with 7.
  set (una := (cdw (base cs) + leave) mod 8).
  assert (0 <= una < 8) as Huna by (apply Z.mod_pos_bound; lia).
  set (n := if negb (una =? 0) then 8 - una
            else if (cdw (base cs) =? 0) && (leave =? 0) then 8 else 0).
  assert (0 <= n <= 8) as Hn8 by (subst n; destruct (Z.eqb_spec una 0); simpl;
    [destruct (_ && _)|]; lia).
  assert ((cdw (base cs) + n + leave) mod 8 = 0) as Hmod.
  { subst n una. destruct (Z.eqb_spec ((cdw (base cs) + leave) mod 8) 0); simpl.
    - destruct (_ && _); Z.to_euclidean_division_equations; lia.
    - Z.to_euclidean_division_equations; lia. }
  assert (0 < cdw (base cs) + n + leave <= cap) as Hfit.
  { subst n una. destruct (Z.eqb_spec ((cdw (base cs) + leave) mod 8) 0); simpl.
    - destruct (Z.eqb_spec (cdw (base cs)) 0), (Z.eqb_spec leave 0); simpl; lia.
    - Z.to_euclidean_division_equations; lia. }
  destruct (emit_nops_appended cs w n) as (cs1 & w1 & ps & E & Ha & Hps & _);
    [done|lia|exists l; split_and!; [done|lia..]|].
  assert ((if negb (una =? 0) then radv_amdgpu_cs_emit_nops ws cs w (u32 (7 + 1 - una))
           else if (cdw (base cs) =? 0) && (leave =? 0)
                then radv_amdgpu_cs_emit_nops ws cs w (u32 (7 + 1))
                else Some (cs, w)) = Some (cs1, w1)) as ->.
  { subst n. destruct (Z.eqb_spec una 0) as [Hz|Hz]; simpl in *.
    - destruct (_ && _); [exact E|]. unfold radv_amdgpu_cs_emit_nops in E.
      rewrite cassert_bind in E by (by destruct (hw_ip cs)). exact E.
    - rewrite u32_small by (unfold_words; lia). by replace (7 + 1 - una) with (8 - una) by lia. }
  assert (cdw (base cs1) = cdw (base cs) + n) as Hcdw.
  { destruct Ha as (? & ? & _ & _ & _ & -> & _), Hps as (_ & _ & Hpl). simpl. lia. }
  cbn [mbind option_bind]. rewrite cassert_bind.
  2:{ rewrite Hcdw, u32_small by (unfold_words; lia). change 7 with (Z.ones 3).
      rewrite Z.land_ones by lia. change (2 ^ 3) with 8. lia. }
  exists cs1, w1, ps, n. split_and!; [done|done|apply Hps..|lia|lia|done|lia|lia].
Qed.
End Exec.
