(* ===== verification/CsRecord.v ===== *)
(** Correctness of command recording (radv_amdgpu_cs.c): the invariant of a stream
    whose earlier IBs are closed and chained and whose current IB is being filled,
    its preservation by every operation, and what the command processor executes
    from a finalized stream. *)

From stdpp Require Import gmap.
From S2P Require Import Prelude Pm4 CsBuffers WinsysCs CsExec.

(** * Chains of closed IBs *)

(** A closed IB: address, size in dwords, and the packets in front of its link. *)
Record seg := Seg { s_va : Z; s_n : Z; s_body : list (list Z) }.

Definition seg_ok (s : seg) : Prop :=
  0 <= s_va s < W64 /\ 4 <= s_n s <= 2 ^ 18 /\ Forall plain (s_body s).

Definition link (chain : bool) (va n : Z) : list Z := if chain then chain_packet va n else [].

(** Address and size of what follows: the next closed IB, or [nva], [nsz]. *)
Definition first_of (segs : list seg) (nva nsz : Z) : Z * Z :=
  match segs with [] => (nva, nsz) | s :: _ => (s_va s, s_n s) end.

(** Every IB holds its packets and then a jump to the next one. *)
Fixpoint linked (chain : bool) (m : gmap Z (list Z)) (segs : list seg) (nva nsz : Z) : Prop :=
  match segs with
  | [] => True
  | s :: rest =>
      fetch m (s_va s) (s_n s)
      = Some (concat (s_body s) ++ link chain (first_of rest nva nsz).1 (first_of rest nva nsz).2)
      /\ linked chain m rest nva nsz
  end.

Definition bodies (segs : list seg) : list (list Z) := concat (s_body <$> segs).

Lemma linked_snoc chain m segs s nva nsz :
  linked chain m (segs ++ [s]) nva nsz <->
  linked chain m segs (s_va s) (s_n s)
  /\ fetch m (s_va s) (s_n s) = Some (concat (s_body s) ++ link chain nva nsz).
Proof.
  induction segs as [|s0 segs IH]; simpl; [tauto|]. rewrite IH.
  assert (first_of (segs ++ [s]) nva nsz = first_of segs (s_va s) (s_n s)) as ->
    by (by destruct segs). tauto.
Qed.

Lemma linked_frame chain m m' segs nva nsz :
  (forall va, va ∈ s_va <$> segs -> m' !! va = m !! va) ->
  linked chain m segs nva nsz -> linked chain m' segs nva nsz.
Proof.
  induction segs as [|s segs IH]; simpl; [done|]. intros Hm [Hf Hl]. split.
  - rewrite <- Hf. unfold fetch. by rewrite Hm by set_solver.
  - apply IH; [|done]. intros va Hva. apply Hm. set_solver.
Qed.

Lemma bodies_snoc segs s : bodies (segs ++ [s]) = bodies segs ++ s_body s.
Proof. unfold bodies. rewrite fmap_app, concat_app. simpl. by rewrite app_nil_r. Qed.

(** With enough fuel, the command processor makes [out] of the IB at [va]. *)
Definition runs (m : gmap Z (list Z)) (va n : Z) (out : list (list Z)) : Prop :=
  exists f0, forall f, (f0 <= f)%nat -> cp_exec f m va n = Some out.

Lemma runs_plain m va n ps rest :
  Forall plain ps -> fetch m va n = Some (concat ps ++ rest) -> rest = [] ->
  runs m va n (visible ps).
Proof.
  intros Hps Hf ->. exists (length ps). intros f Hle. unfold cp_exec. rewrite Hf. simpl.
  eapply cp_run_mono; [|done]. rewrite <- (app_nil_r (visible ps)).
  rewrite <- (Nat.add_0_r (length ps)). by apply cp_run_plain.
Qed.

(** A chain packet at the end of an IB continues with the IB it names. *)
Lemma runs_jump m va n ps p va' n' out :
  Forall plain ps -> fetch m va n = Some (concat ps ++ p) -> framed p ->
  chain_target p = Some (va', n') -> runs m va' n' out ->
  runs m va n (visible ps ++ out).
Proof.
  intros Hps Hf Hfr Ht [f0 Hr]. exists (length ps + S f0)%nat. intros f Hle.
  assert (cp_run (S f0) m p = Some out) as Hc.
  { specialize (Hr f0 ltac:(lia)). unfold cp_exec in Hr.
    pose proof (next_packet_framed _ [] Hfr) as Hnp. rewrite app_nil_r in Hnp.
    destruct p as [|h t]; [done|]. cbn [cp_run]. rewrite Hnp.
    cbn [mbind option_bind]. rewrite Ht. by rewrite bool_decide_true. }
  unfold cp_exec. rewrite Hf. simpl. eapply cp_run_mono; [|done].
  by apply cp_run_plain.
Qed.

Lemma runs_chain m va n ps va' n' out :
  Forall plain ps -> fetch m va n = Some (concat ps ++ chain_packet va' n') ->
  0 <= va' < W64 -> 0 <= n' <= IB_SIZE_MAX -> runs m va' n' out ->
  runs m va n (visible ps ++ out).
Proof.
  intros Hps Hf Hva Hn Hr. destruct (chain_packet_target va' n' Hva Hn) as [Hfr Ht].
  by eapply runs_jump.
Qed.

(** Running a chain from its first IB gives the packets of all of them. *)
Lemma linked_runs m segs nva nsz out :
  Forall seg_ok segs -> linked true m segs nva nsz ->
  0 <= nva < W64 -> 0 <= nsz <= IB_SIZE_MAX -> runs m nva nsz out ->
  runs m (first_of segs nva nsz).1 (first_of segs nva nsz).2 (visible (bodies segs) ++ out).
Proof.
  intros Hok Hl Hva Hn Hout.
  induction Hok as [|s segs (Hsva & Hsn & Hsb) Hok IH]; [done|].
  destruct Hl as [Hf Hl]. simpl. unfold bodies. simpl. rewrite visible_app, <- app_assoc.
  eapply runs_chain; [done|exact Hf| | |by apply IH].
  - destruct Hok as [|s' ? (? & ? & ?)]; simpl; [done|lia].
  - destruct Hok as [|s' ? (? & ? & ?)]; simpl; [done|unfold IB_SIZE_MAX; lia].
Qed.

(** Without chaining every IB runs on its own. *)
Lemma linked_runs_each m segs nva nsz :
  Forall seg_ok segs -> linked false m segs nva nsz ->
  Forall (fun s => runs m (s_va s) (s_n s) (visible (s_body s))) segs.
Proof.
  induction segs as [|s segs IH]; [done|]. intros [(_ & _ & Hb) Hok]%Forall_cons [Hf Hl].
  constructor; [|by apply IH]. by eapply runs_plain.
Qed.

(** * The environment *)

Record ws_ok (ws : cs_winsys_info) : Prop := {
  wo_mask : forall ip, is_pm4_ip ip = true -> ib_pad_dw_mask ws ip = 7;
  wo_align : forall ip, is_pm4_ip ip = true ->
    exists a, 8 <= a <= 20 /\ ib_alignment ws ip = 2 ^ a
}.

(** Allocations and mappings succeed ([k_limit] BOs can be created), and BOs have the
    requested size and addresses of their own. *)
Record kernel_ok (k : kernel) : Prop := {
  ko_map : forall n, k_map k n = true;
  ko_host : forall n, k_host k n = true;
  ko_create : forall n sz, (n < k_limit k)%nat -> 0 < sz < 2 ^ 31 -> exists bo, k_create k n sz = Some bo
    /\ sz <= bo_size bo < 2 ^ 31 /\ 0 < bo_va bo < W64;
  ko_fresh : forall n n' sz sz' b b', k_create k n sz = Some b -> k_create k n' sz' = Some b' ->
    bo_va b = bo_va b' -> n = n'
}.

Definition bo_live (m : gmap Z (list Z)) (bo : winsys_bo) : Prop :=
  0 < bo_va bo < W64 /\ exists l, m !! bo_va bo = Some l
    /\ bo_size bo / 4 <= Z.of_nat (length l) < 2 ^ 31.

(** BOs stay mapped and keep their length. *)
Definition same_shape (m m' : gmap Z (list Z)) : Prop :=
  forall va l, m !! va = Some l -> exists l', m' !! va = Some l' /\ length l' = length l.

Lemma same_shape_refl m : same_shape m m.
Proof. intros va l Hl. by exists l. Qed.

Lemma same_shape_trans m1 m2 m3 : same_shape m1 m2 -> same_shape m2 m3 -> same_shape m1 m3.
Proof.
  intros H12 H23 va l Hl. destruct (H12 _ _ Hl) as (l2 & Hl2 & E2).
  destruct (H23 _ _ Hl2) as (l3 & Hl3 & E3). exists l3. by rewrite E3.
Qed.

Lemma same_shape_write m p l l' :
  m !! p = Some l -> length l' = length l -> same_shape m (<[p := l']> m).
Proof.
  intros Hl Hlen va l0 Hl0. destruct (decide (p = va)) as [->|Hne].
  - exists l'. rewrite lookup_insert_eq. split; [done|]. congruence.
  - exists l0. by rewrite lookup_insert_ne.
Qed.

Lemma same_shape_insert m p l : m !! p = None -> same_shape m (<[p := l]> m).
Proof.
  intros Hn va l0 Hl0. exists l0. rewrite lookup_insert_ne; [done|]. intros ->. congruence.
Qed.

Lemma bo_live_shape m m' bo : same_shape m m' -> bo_live m bo -> bo_live m' bo.
Proof.
  intros Hs [Hva (l & Hl & Hlen)]. split; [done|]. destruct (Hs _ _ Hl) as (l' & Hl' & E).
  exists l'. by rewrite E.
Qed.

Definition ib_live (m : gmap Z (list Z)) (ib : radv_amdgpu_ib) : Prop :=
  forall bo, ib_bo ib = Some bo -> bo_live m bo.

Lemma ib_live_shape m m' l : same_shape m m' -> Forall (ib_live m) l -> Forall (ib_live m') l.
Proof.
  intros Hs Hl. eapply Forall_impl; [exact Hl|]. intros ib Hib bo Hbo.
  eapply bo_live_shape; [done|]. by apply Hib.
Qed.

#[export] Hint Resolve same_shape_refl same_shape_trans same_shape_write bo_live_shape
  ib_live_shape : radv.

(** At most [nb] BOs were requested, later ones get addresses not in use, and the cache holds live BOs once each. *)
Record world_ok (k : kernel) (nb : nat) (w : world) : Prop := {
  wk_created : (creates w <= nb)%nat;
  wk_fresh : forall n sz bo, (creates w <= n)%nat -> k_create k n sz = Some bo ->
    mem w !! bo_va bo = None;
  wk_cache : Forall (bo_live (mem w)) (ib_cache w);
  wk_nodup : NoDup (bo_va <$> ib_cache w)
}.

Lemma world_ok_weaken k nb w : world_ok k nb w -> world_ok k (S nb) w.
Proof. intros []. split; [lia|done..]. Qed.

(** * Isolation

    [va] holds an IB that belongs neither to the stream with the IBs [live] nor to
    the cache; what the stream does leaves such IBs alone. *)
Definition away (w : world) (live : list Z) (va : Z) : Prop :=
  is_Some (mem w !! va) /\ (va ∉ bo_va <$> ib_cache w) /\ va ∉ live.

Definition isolated (w : world) (live : list Z) (w' : world) (live' : list Z) : Prop :=
  forall va, away w live va -> mem w' !! va = mem w !! va /\ away w' live' va.

Lemma isolated_refl w live : isolated w live w live.
Proof. done. Qed.

Lemma isolated_trans w1 l1 w2 l2 w3 l3 :
  isolated w1 l1 w2 l2 -> isolated w2 l2 w3 l3 -> isolated w1 l1 w3 l3.
Proof.
  intros H12 H23 va Ha. destruct (H12 va Ha) as [E2 H2]. destruct (H23 va H2) as [E3 H3].
  by rewrite E3.
Qed.

(** A step that writes to IBs of the stream only. *)
Lemma isolated_write w w' live live' :
  (forall va, va ∉ live -> mem w' !! va = mem w !! va) -> ib_cache w' = ib_cache w ->
  (forall va, va ∈ live' -> va ∈ live) -> isolated w live w' live'.
Proof.
  intros Hm Hc Hl va (Hs & Hn & Hv). rewrite (Hm va Hv). split; [done|].
  split_and!; [by rewrite Hm|by rewrite Hc|]. intros Hin. by apply Hv, Hl.
Qed.

(** * A stream being recorded *)

Definition size_ptr_of (segs : list seg) : size_ptr :=
  match last segs with None => AtIbSize | Some s => AtDword (s_va s) (s_n s - 1) end.

Definition ib_of_seg (ib : radv_amdgpu_ib) (s : seg) : Prop :=
  ib_va ib = s_va s /\ ib_cdw ib = s_n s
  /\ exists bo, ib_bo ib = Some bo /\ bo_va bo = s_va s /\ 0 < bo_va bo < W64.

(** What holds of a stream in every state: [segs] are its closed IBs. *)
Record cs_inv (cs : radv_amdgpu_cs) (segs : list seg) : Prop := {
  ci_status : status cs = VK_SUCCESS;
  ci_ip : is_pm4_ip (hw_ip cs) = true;
  ci_ibs : Forall2 ib_of_seg (ib_buffers cs) segs;
  ci_cap : (length (ib_buffers cs) <= max_num_ib_buffers cs)%nat;
  ci_segs : Forall seg_ok segs;
  ci_max : 4 <= max_dw (base cs) < 2 ^ 18 /\ (max_dw (base cs) + 4) mod 8 = 0;
  ci_bufs : buffers_wf (buffers cs)
}.

(** [cur] are the packets of the IB being filled. *)
Record cs_open (w : world) (cs : radv_amdgpu_cs) (segs : list seg) (cur : list (list Z))
  : Prop := {
  co_inv : cs_inv cs segs;
  co_bo : exists bo, ib_buffer cs = Some bo /\ bo_va bo = buf (base cs) /\ 0 < bo_va bo < W64;
  co_dw : 0 <= cdw (base cs) <= max_dw (base cs)
          /\ cdw (base cs) <= reserved_dw (base cs) <= max_dw (base cs);
  co_buf : exists l, mem w !! buf (base cs) = Some l
    /\ max_dw (base cs) + 4 <= Z.of_nat (length l) < 2 ^ 31
    /\ take (Z.to_nat (cdw (base cs))) l = concat cur;
  co_cur : Forall plain cur;
  co_linked : linked (chain_ib cs) (mem w) segs (buf (base cs)) 0;
  co_nodup : NoDup (buf (base cs) :: (s_va <$> segs));
  co_ptr : chain_ib cs = true -> ib_size_ptr cs = size_ptr_of segs;
  co_first : chain_ib cs = true ->
    (ib_mc_address cs, ib_size cs) = first_of segs (buf (base cs)) 0;
  co_cache : forall bo, bo ∈ ib_cache w -> bo_va bo ∉ buf (base cs) :: (s_va <$> segs);
  co_live : Forall (ib_live (mem w)) (ib_buffers cs)
            /\ forall bo, ib_buffer cs = Some bo -> bo_live (mem w) bo
}.

(** The end of a finalized IB: four dwords of NOP to be replaced by a link. *)
Definition end_of (chain : bool) (e : list Z) : Prop :=
  if chain then exists junk, e = PKT3 PKT3_NOP 2 0 :: junk /\ length junk = 3%nat else e = [].

(** A finalized stream: [s] is its last IB. *)
Record cs_closed (w : world) (cs : radv_amdgpu_cs) (segs : list seg) (s : seg) : Prop := {
  cc_inv : cs_inv cs (segs ++ [s]);
  cc_bo : ib_buffer cs = None;
  cc_unchained : chained_to cs = None;
  cc_va : s_va s = buf (base cs) /\ s_n s = cdw (base cs);
  cc_max : cdw (base cs) <= max_dw (base cs) + 4;
  cc_buf : exists l, mem w !! buf (base cs) = Some l
    /\ max_dw (base cs) + 4 <= Z.of_nat (length l) < 2 ^ 31;
  cc_linked : linked (chain_ib cs) (mem w) segs (s_va s) (s_n s);
  cc_last : exists e, fetch (mem w) (s_va s) (s_n s) = Some (concat (s_body s) ++ e)
    /\ end_of (chain_ib cs) e;
  cc_nodup : NoDup (s_va <$> (segs ++ [s]));
  cc_first : chain_ib cs = true ->
    (ib_mc_address cs, ib_size cs) = first_of segs (s_va s) (s_n s);
  cc_cache : forall bo, bo ∈ ib_cache w -> bo_va bo ∉ s_va <$> (segs ++ [s]);
  cc_live : Forall (ib_live (mem w)) (ib_buffers cs)
}.

(** * Writes *)

Lemma fetch_Some m va n ds :
  fetch m va n = Some ds <->
  exists l, m !! va = Some l /\ 0 <= n <= Z.of_nat (length l) /\ ds = take (Z.to_nat n) l.
Proof.
  unfold fetch. destruct (m !! va) as [l|]; simpl; [|naive_solver].
  destruct (Z.leb_spec 0 n), (Z.leb_spec n (Z.of_nat (length l))); simpl; naive_solver lia.
Qed.

Lemma world_ok_write k nb w p l l' :
  world_ok k nb w -> mem w !! p = Some l -> length l' = length l ->
  world_ok k nb (with_mem w (<[p := l']> (mem w))).
Proof.
  intros [Hcr0 Hf Hc Hn] Hl Hlen. split; simpl; [done| | |done].
  - intros n sz bo Hle Hcr. rewrite lookup_insert_ne; [by eapply Hf|].
    intros ->. specialize (Hf _ _ _ Hle Hcr). congruence.
  - eapply Forall_impl; [exact Hc|]. eauto with radv.
Qed.

Lemma appended_world k nb cs w ds cs' w' :
  appended cs w ds cs' w' -> world_ok k nb w -> world_ok k nb w'.
Proof. intros (l & l' & Hl & -> & Hlen & _) Hw. by eapply world_ok_write. Qed.

Lemma appended_shape cs w ds cs' w' :
  appended cs w ds cs' w' -> same_shape (mem w) (mem w').
Proof. intros (l & l' & Hl & -> & Hlen & _). simpl. eauto with radv. Qed.

(** The dword after a body's link packet header can be replaced in place. *)
Lemma insert_last (b : list Z) x y z v u :
  <[(length b + 3)%nat := u]> (b ++ [x; y; z; v]) = b ++ [x; y; z; u].
Proof. by rewrite insert_app_r. Qed.

Definition link_word (n : Z) : Z := Z.lor (Z.lor (S_3F3_CHAIN 1) (S_3F3_VALID 1)) n.

Lemma link_word_lor n : Z.lor (link_word 0) n = link_word n.
Proof. unfold link_word. by rewrite Z.lor_0_r. Qed.

Lemma link_word_size n : 0 <= n <= IB_SIZE_MAX -> G_3F3_IB_SIZE (link_word n) = n.
Proof.
  unfold IB_SIZE_MAX, link_word, G_3F3_IB_SIZE, S_3F3_CHAIN, S_3F3_VALID. intros.
  rewrite !G_lor, !G_S_other by lia. rewrite G_field_self; [done|lia|lia].
Qed.

Lemma plain_lengths ps : Forall plain ps -> (length ps <= length (concat ps))%nat.
Proof.
  induction 1 as [|p ps [Hf _] _ IH]; simpl; [lia|]. rewrite length_app.
  pose proof (framed_length _ Hf). lia.
Qed.

(** Filling in the size of the IB a chain leads to. *)
Lemma linked_set_size m segs s nva n :
  NoDup (s_va <$> (segs ++ [s])) -> linked true m (segs ++ [s]) nva 0 ->
  exists l, m !! s_va s = Some l
    /\ load m (s_va s) (s_n s - 1) = Some (link_word 0)
    /\ 0 <= s_n s - 1 < Z.of_nat (length l)
    /\ linked true (<[s_va s := <[Z.to_nat (s_n s - 1) := link_word n]> l]> m) (segs ++ [s]) nva n.
Proof.
  rewrite fmap_app. intros Hnd [Hl Hf]%linked_snoc. pose proof Hf as Hf0.
  apply fetch_Some in Hf as (l & Hm & Hn & Hds). simpl in Hds.
  assert (Z.to_nat (s_n s) = length (concat (s_body s)) + 4)%nat as Hlen.
  { apply (f_equal length) in Hds. rewrite length_app, length_take in Hds. simpl in Hds. lia. }
  assert (Z.to_nat (s_n s - 1) = length (concat (s_body s)) + 3)%nat as Hi by lia.
  exists l. split; [done|]. split; [|split; [lia|]].
  - unfold load. rewrite Hm. cbn [mbind option_bind].
    rewrite (proj2 (Z.leb_le _ _)), (proj2 (Z.ltb_lt _ _)) by lia. cbn [andb].
    rewrite <- (lookup_take_lt l (Z.to_nat (s_n s))) by lia.
    rewrite <- Hds, Hi, lookup_app_r by lia.
    by replace (length (concat (s_body s)) + 3 - length (concat (s_body s)))%nat with 3%nat by lia.
  - apply linked_snoc. split.
    + eapply linked_frame; [|exact Hl]. intros va Hva. rewrite lookup_insert_ne; [done|].
      intros <-. apply NoDup_app in Hnd as (_ & Hd & _). apply (Hd _ Hva). simpl. set_solver.
    + apply fetch_Some. eexists. rewrite lookup_insert_eq. split; [done|].
      rewrite length_insert. split; [lia|].
      rewrite take_insert_lt, <- Hds, Hi by lia. unfold link, chain_packet.
      by rewrite insert_last.
Qed.

(** [*ib_size_ptr |= cdw] at the end of the current IB. *)
Lemma add_ib_size_spec k nb cs w segs :
  chain_ib cs = true -> ib_size_ptr cs = size_ptr_of segs ->
  NoDup (buf (base cs) :: (s_va <$> segs)) -> Forall seg_ok segs ->
  linked true (mem w) segs (buf (base cs)) 0 ->
  (ib_mc_address cs, ib_size cs) = first_of segs (buf (base cs)) 0 ->
  0 <= cdw (base cs) <= IB_SIZE_MAX -> world_ok k nb w ->
  exists v cs' w', add_ib_size cs w = Some (v, cs', w')
    /\ G_3F3_IB_SIZE v = cdw (base cs)
    /\ cs' = with_ib cs (ib_mc_address cs) (first_of segs (buf (base cs)) (cdw (base cs))).2
    /\ ib_mc_address cs = (first_of segs (buf (base cs)) (cdw (base cs))).1
    /\ linked true (mem w') segs (buf (base cs)) (cdw (base cs))
    /\ mem w' !! buf (base cs) = mem w !! buf (base cs)
    /\ ib_cache w' = ib_cache w /\ world_ok k nb w' /\ same_shape (mem w) (mem w')
    /\ (forall va, va ∉ s_va <$> segs -> mem w' !! va = mem w !! va).
Proof.
  intros Hch Hptr Hnd Hok Hl Hfirst Hc Hw. unfold add_ib_size. rewrite Hptr. unfold size_ptr_of.
  induction segs as [|s segs _] using rev_ind.
  - simpl in *. injection Hfirst as Ha Hs. rewrite Hs, Z.lor_0_l.
    eexists _, _, _. split; [done|]. split_and!; [|done|done|done|done|done|done|auto with radv|done].
    unfold IB_SIZE_MAX in *. unfold G_3F3_IB_SIZE. apply G_field_self; lia.
  - rewrite last_snoc. apply NoDup_cons in Hnd as [Hb Hnd].
    destruct (linked_set_size (mem w) segs s (buf (base cs)) (cdw (base cs)) Hnd Hl)
      as (l & Hm & Hld & Hi & Hl').
    rewrite Hld. cbn [mbind option_bind].
    rewrite link_word_lor, (store_ok w _ _ _ l) by done. cbn [mbind option_bind].
    assert (first_of (segs ++ [s]) (buf (base cs)) (cdw (base cs))
            = first_of (segs ++ [s]) (buf (base cs)) 0) as Hff by (by destruct segs).
    rewrite Hff, <- Hfirst. eexists _, _, _. split; [done|].
    split_and!; [by apply link_word_size|by destruct cs|done|done| |done| | |].
    + simpl. rewrite lookup_insert_ne; [done|]. intros Heq. apply Hb. rewrite <- Heq, fmap_app.
      simpl. set_solver.
    + eapply world_ok_write; [done|done|]. apply length_insert.
    + simpl. eapply same_shape_write; [done|]. apply length_insert.
    + intros va Hva. simpl. rewrite lookup_insert_ne; [done|]. intros <-. apply Hva.
      rewrite fmap_app. simpl. set_solver.
Qed.

Lemma appended_frame cs w ds cs' w' va :
  appended cs w ds cs' w' -> va <> buf (base cs) -> mem w' !! va = mem w !! va.
Proof.
  intros (l & l' & _ & -> & _) Hne. simpl. by rewrite lookup_insert_ne by done.
Qed.

Lemma appended_fields cs w ds cs' w' :
  appended cs w ds cs' w' ->
  cs' = with_cdw cs (cdw (base cs) + Z.of_nat (length ds)) /\ ib_cache w' = ib_cache w.
Proof. by intros (l & l' & _ & -> & _ & -> & _). Qed.

(** What the current IB holds after an append. *)
Lemma appended_contents cs w ds cs' w' l body :
  appended cs w ds cs' w' -> mem w !! buf (base cs) = Some l -> 0 <= cdw (base cs) ->
  cdw (base cs) + Z.of_nat (length ds) <= Z.of_nat (length l) ->
  take (Z.to_nat (cdw (base cs))) l = body ->
  exists l', mem w' !! buf (base cs) = Some l' /\ length l' = length l
    /\ take (Z.to_nat (cdw (base cs) + Z.of_nat (length ds))) l' = body ++ ds
    /\ fetch (mem w') (buf (base cs)) (cdw (base cs) + Z.of_nat (length ds)) = Some (body ++ ds).
Proof.
  intros (l0 & l' & Hl0 & -> & Hlen & -> & Ht) Hl Hc Hfit Hbody.
  rewrite Hl in Hl0. injection Hl0 as <-. rewrite Hbody in Ht.
  exists l'. simpl. rewrite lookup_insert_eq. split; [done|]. split; [done|].
  assert (take (Z.to_nat (cdw (base cs) + Z.of_nat (length ds))) l' = body ++ ds) as E
    by (rewrite <- Ht; f_equal; lia).
  split; [done|]. apply fetch_Some. exists l'. rewrite lookup_insert_eq.
  split; [done|]. by split; [lia|].
Qed.

Section Record.
Context (ws : cs_winsys_info) (k : kernel).
Context (Hws : ws_ok ws) (Hk : kernel_ok k).
#[local] Set Default Proof Using "All".

Lemma cs_inv_fields cs segs cs' :
  cs_inv cs segs ->
  status cs' = status cs -> hw_ip cs' = hw_ip cs -> ib_buffers cs' = ib_buffers cs ->
  max_num_ib_buffers cs' = max_num_ib_buffers cs -> max_dw (base cs') = max_dw (base cs) ->
  buffers cs' = buffers cs -> cs_inv cs' segs.
Proof. intros [] H1 H2 H3 H4 H5 H6. split; by rewrite ?H1, ?H2, ?H3, ?H4, ?H5, ?H6. Qed.

(** Recording whole packets within the reserved space. *)
Lemma open_appended w cs segs cur ps cs' w' :
  cs_open w cs segs cur -> Forall plain ps -> appended cs w (concat ps) cs' w' ->
  cdw (base cs) + Z.of_nat (length (concat ps)) <= reserved_dw (base cs) ->
  cs_open w' cs' segs (cur ++ ps).
Proof.
  intros [] Hps Ha Hr. destruct co_buf0 as (l & Hl & Hlen & Ht), co_dw0 as [Hc Hres].
  destruct (appended_contents _ _ _ _ _ l (concat cur) Ha Hl) as (l' & Hl' & Hlen' & Ht' & _);
    [lia|lia|exact Ht|].
  destruct (appended_fields _ _ _ _ _ Ha) as [-> Hcache]. split; simpl; try done.
  - by eapply cs_inv_fields.
  - lia.
  - exists l'. rewrite Hlen', concat_app. split; [done|]. by split; [lia|].
  - by apply Forall_app.
  - eapply linked_frame; [|done]. intros va Hva. apply (appended_frame _ _ _ _ _ va Ha).
    intros ->. by apply NoDup_cons in co_nodup0 as [? _].
  - by rewrite Hcache.
  - apply appended_shape in Ha. destruct co_live0. split; [by eapply ib_live_shape|].
    intros bo Hbo. eapply bo_live_shape; eauto.
Qed.

Lemma emit_open w cs segs cur ps :
  cs_open w cs segs cur -> Forall plain ps ->
  cdw (base cs) + Z.of_nat (length (concat ps)) <= reserved_dw (base cs) ->
  exists cs' w', ac_cmdbuf_emit_array cs w (concat ps) = Some (cs', w')
    /\ appended cs w (concat ps) cs' w' /\ cs_open w' cs' segs (cur ++ ps).
Proof.
  intros Ho Hps Hr. destruct (co_buf _ _ _ _ Ho) as (l & Hl & Hlen & Ht).
  destruct (co_dw _ _ _ _ Ho) as [Hc Hres].
  destruct (emit_array_appended cs w (concat ps)) as (cs' & w' & E & Ha).
  - exists l. split_and!; [done|lia..].
  - by right.
  - lia.
  - exists cs', w'. split_and!; [done|done|]. by eapply open_appended.
Qed.

Lemma add_ib_buffer_ok cs bo va n :
  (length (ib_buffers cs) <= max_num_ib_buffers cs)%nat ->
  exists cap, radv_amdgpu_cs_add_ib_buffer k cs bo va n
    = Some (with_ib_buffers cs (ib_buffers cs ++ [Ib bo va n]) cap)
    /\ (length (ib_buffers cs) < cap)%nat.
Proof.
  intros Hcap. unfold radv_amdgpu_cs_add_ib_buffer. rewrite (ko_host _ Hk), andb_false_r.
  destruct (Nat.eqb_spec (length (ib_buffers cs)) (max_num_ib_buffers cs)).
  - rewrite cassert_bind by (apply Nat.ltb_lt; lia). eexists. split; [done|]. lia.
  - rewrite cassert_bind by (apply Nat.ltb_lt; lia). eexists. split; [done|]. lia.
Qed.

(** The tail of an IB at finalization: padding, and room for a link. *)
Lemma finalize_tail w cs segs cur :
  cs_open w cs segs cur ->
  exists cs' w' ps e,
    (if chain_ib cs then
       let! (cs, w) := radv_amdgpu_winsys_cs_pad ws cs w 4 ;; radv_amdgpu_cs_emit_nops ws cs w 4
     else radv_amdgpu_winsys_cs_pad ws cs w 0) = Some (cs', w')
    /\ appended cs w (concat ps ++ e) cs' w' /\ Forall plain ps /\ visible ps = []
    /\ end_of (chain_ib cs) e
    /\ (cdw (base cs) + Z.of_nat (length (concat ps ++ e))) mod 8 = 0
    /\ 4 <= cdw (base cs) + Z.of_nat (length (concat ps ++ e)) <= max_dw (base cs) + 4.
Proof.
  intros [[] _ [Hc Hres] (l & Hl & Hlen & Ht) _ _ _ _ _ _ _]. destruct ci_max0 as [Hmax Hmod].
  pose proof (wo_mask _ Hws _ ci_ip0) as Hmask.
  destruct (chain_ib cs).
  - destruct (pad_appended ws cs w 4 (max_dw (base cs) + 4) l)
      as (cs1 & w1 & ps & n & -> & Ha & (Hp & Hv & Hpl) & Hn & Hm8 & Hfit); [done|done|lia|done|lia..|].
    destruct (appended_fields _ _ _ _ _ Ha) as [Hcs1 _].
    destruct (emit_nops_appended ws cs1 w1 4) as (cs2 & w2 & qs & E & Hb & (Hq & _ & Hql) & Hj).
    { by rewrite Hcs1. }
    { lia. }
    { eapply appended_room; [exact Ha|]. exists l. split_and!; [done|lia..]. }
    destruct (Hj ltac:(lia)) as [junk ->]. simpl in Hql. rewrite app_nil_r in Hql.
    cbn [mbind option_bind]. exists cs2, w2, ps, (PKT3 PKT3_NOP 2 0 :: junk).
    assert (length (PKT3 PKT3_NOP 2 0 :: junk) = 4%nat) as He by (simpl; lia).
    split; [done|]. split.
    { eapply appended_app; [lia|exact Ha|]. simpl in Hb. by rewrite app_nil_r in Hb. }
    split; [done|]. split; [done|]. split.
    { exists junk. split; [done|]. simpl in He. lia. }
    rewrite length_app, He. split; [|lia]. rewrite <- Hm8. f_equal. lia.
  - destruct (pad_appended ws cs w 0 (max_dw (base cs) + 4) l)
      as (cs1 & w1 & ps & n & E & Ha & (Hp & Hv & Hpl) & Hn & Hm8 & Hfit); [done|done|lia|done|lia..|].
    exists cs1, w1, ps, []. rewrite app_nil_r, Hpl.
    split_and!; [done..|by rewrite <- Hm8; f_equal; lia| |lia].
    Z.to_euclidean_division_equations. lia.
Qed.

(** The two halves of [finalize]: writing the tail, then publishing the IB. *)
Definition publish (cs : radv_amdgpu_cs) (w : world) : option (radv_amdgpu_cs * world) :=
  let! (n, cs, w) :=
    (if chain_ib cs then
       assert! cdw (base cs) <=? IB_SIZE_MAX ;;
       let! (v, cs, w) := add_ib_size cs w ;;
       Some (G_3F3_IB_SIZE v, cs, w)
     else Some (cdw (base cs), cs, w)) ;;
  let! bo := ib_buffer cs ;;
  let! cs := radv_amdgpu_cs_add_ib_buffer k cs (Some bo) (bo_va bo) n ;;
  let cs := with_chained_to (with_ib_buffer cs None) None in
  assert! cdw (base cs) <=? u32 (max_dw (base cs) + 4) ;;
  Some (cs, w).

Lemma finalize_split w cs segs cur cs1 w1 :
  cs_open w cs segs cur -> chain_ib cs1 = chain_ib cs ->
  (if chain_ib cs then
     let! (cs, w) := radv_amdgpu_winsys_cs_pad ws cs w 4 ;; radv_amdgpu_cs_emit_nops ws cs w 4
   else radv_amdgpu_winsys_cs_pad ws cs w 0) = Some (cs1, w1) ->
  radv_amdgpu_cs_finalize ws k cs w = publish cs1 w1.
Proof.
  intros Ho Hch E. unfold radv_amdgpu_cs_finalize, publish. destruct (co_dw _ _ _ _ Ho).
  pass_assert. rewrite Hch. destruct (chain_ib cs).
  - destruct (radv_amdgpu_winsys_cs_pad ws cs w 4) as [[cs0 w0]|]; [|done].
    cbn [mbind option_bind] in *. by rewrite E.
  - by rewrite E.
Qed.

(** Publishing first fixes the size of the IB: in the link that leads to it when
    IBs are chained. *)
Lemma publish_size nb w cs segs n :
  cs_inv cs segs -> world_ok k nb w -> NoDup (buf (base cs) :: (s_va <$> segs)) ->
  (chain_ib cs = true -> ib_size_ptr cs = size_ptr_of segs) ->
  (chain_ib cs = true -> (ib_mc_address cs, ib_size cs) = first_of segs (buf (base cs)) 0) ->
  linked (chain_ib cs) (mem w) segs (buf (base cs)) 0 -> 0 <= n <= IB_SIZE_MAX ->
  exists cs2 w2,
    (if chain_ib cs then
       assert! n <=? IB_SIZE_MAX ;;
       let! (v, cs, w) := add_ib_size (with_cdw cs n) w ;; Some (G_3F3_IB_SIZE v, cs, w)
     else Some (n, with_cdw cs n, w)) = Some (n, cs2, w2)
    /\ cs2 = with_ib (with_cdw cs n) (ib_mc_address cs) (ib_size cs2)
    /\ linked (chain_ib cs) (mem w2) segs (buf (base cs)) n
    /\ mem w2 !! buf (base cs) = mem w !! buf (base cs)
    /\ ib_cache w2 = ib_cache w /\ world_ok k nb w2 /\ same_shape (mem w) (mem w2)
    /\ (forall va, va ∉ s_va <$> segs -> mem w2 !! va = mem w !! va)
    /\ (chain_ib cs = true ->
        (ib_mc_address cs, ib_size cs2) = first_of segs (buf (base cs)) n).
Proof.
  intros Hi Hw Hnd Hptr Hfirst Hl Hn. destruct (chain_ib cs) eqn:Hch.
  - pass_assert.
    destruct (add_ib_size_spec k nb (with_cdw cs n) w segs)
      as (v & cs2 & w2 & -> & Hv2 & -> & Hmc & Hl2 & Hm2 & Hc2 & Hw2 & Hsh2 & Hfr2);
      [done|by apply Hptr|done|apply Hi|done|by apply Hfirst|done|done|].
    simpl in *. eexists _, w2. rewrite Hv2. split; [done|]. simpl.
    split_and!; [done|done|congruence|congruence|done|done|done|]. intros _. rewrite Hmc.
    by destruct (first_of segs (buf (base cs)) n).
  - eexists _, w. split; [done|]. split_and!; [by destruct cs| |done|done|done|auto with radv|done|done].
    clear -Hl. induction segs as [|s0 segs IH]; [done|]. destruct Hl. split; [done|]. by apply IH.
Qed.

Lemma publish_spec nb w cs cs1 w1 segs cur ps e :
  cs_open w cs segs cur -> world_ok k nb w ->
  appended cs w (concat ps ++ e) cs1 w1 -> Forall plain ps -> visible ps = [] ->
  end_of (chain_ib cs) e ->
  4 <= cdw (base cs) + Z.of_nat (length (concat ps ++ e)) <= max_dw (base cs) + 4 ->
  exists cs' w' s, publish cs1 w1 = Some (cs', w') /\ cs_closed w' cs' segs s
    /\ isolated w (buf (base cs) :: (s_va <$> segs)) w' (s_va <$> (segs ++ [s]))
    /\ world_ok k nb w' /\ visible (s_body s) = visible cur
    /\ chain_ib cs' = chain_ib cs /\ hw_ip cs' = hw_ip cs /\ is_secondary cs' = is_secondary cs.
Proof.
  intros Ho Hw Ha Hps Hv He Hn. destruct Ho as [Hi Hbo [Hc Hres] Hbuf Hcur Hl Hnd Hptr Hfirst Hca [Hlive Hblive]].
  destruct Hbuf as (l & Hm & Hlen & Ht), Hbo as (bo & Hbo & Hbva & Hbr).
  destruct (appended_contents _ _ _ _ _ l (concat cur) Ha Hm) as (l1 & Hm1 & Hlen1 & _ & Hf1);
    [lia|lia|done|].
  pose proof (appended_world k nb _ _ _ _ _ Ha Hw) as Hw1.
  assert (linked (chain_ib cs) (mem w1) segs (buf (base cs)) 0) as Hl1.
  { eapply linked_frame; [|exact Hl]. intros va Hva. apply (appended_frame _ _ _ _ _ va Ha).
    intros ->. by apply NoDup_cons in Hnd as [? _]. }
  pose proof (appended_shape _ _ _ _ _ Ha) as Hsh1.
  assert (forall va, va ∉ buf (base cs) :: (s_va <$> segs) -> mem w1 !! va = mem w !! va) as Hfr1.
  { intros va [? _]%not_elem_of_cons. by eapply appended_frame. }
  destruct (appended_fields _ _ _ _ _ Ha) as [-> Hc1]. clear Ha.
  set (n := cdw (base cs) + Z.of_nat (length (concat ps ++ e))) in *.
  destruct (ci_max _ _ Hi) as [Hmax Hmod]. rewrite app_assoc, <- concat_app in Hf1.
  assert (0 <= n <= IB_SIZE_MAX) as Hn0 by (unfold IB_SIZE_MAX; lia).
  set (s := Seg (buf (base cs)) n (cur ++ ps)).
  assert (seg_ok s) as Hsok.
  { split_and!; [simpl; lia..|simpl; Z.to_euclidean_division_equations; lia|].
    simpl. by apply Forall_app. }
  assert (NoDup (s_va <$> (segs ++ [s]))) as Hnd'.
  { rewrite fmap_app. apply NoDup_app. apply NoDup_cons in Hnd as [? ?].
    split_and!; [done| |apply NoDup_singleton]. intros x Hx ->%list_elem_of_singleton. done. }
  assert (visible (s_body s) = visible cur) as Hvs by (simpl; by rewrite visible_app, Hv, app_nil_r).
  destruct (publish_size nb w1 cs segs n) as (cs2 & w2 & Es & Hcs2 & Hl2 & Hm2 & Hc2 & Hw2 & Hsh2 & Hfr2 & Hf2);
    [done..|]. rewrite Hm1 in Hm2. rewrite Hc1 in Hc2.
  destruct (add_ib_buffer_ok cs2 (Some bo) (bo_va bo) n) as (cap & Eadd & Hcap).
  { rewrite Hcs2. apply Hi. }
  unfold publish. cbn [with_cdw with_base chain_ib base cdw]. rewrite Es. cbn [mbind option_bind].
  assert (ib_buffer cs2 = Some bo) as -> by (by rewrite Hcs2). cbn [mbind option_bind].
  rewrite Eadd. cbn [mbind option_bind].
  assert (cdw (base cs2) = n /\ max_dw (base cs2) = max_dw (base cs)) as [Hd2 Hx2]
    by (by rewrite Hcs2).
  cbn [with_chained_to with_ib_buffer with_ib_buffers base cdw max_dw]. rewrite Hd2, Hx2.
  rewrite u32_small by (unfold_words; lia). pass_assert.
  assert (isolated w (buf (base cs) :: (s_va <$> segs)) w2 (s_va <$> (segs ++ [s]))) as Hiso.
  { apply isolated_write; [|done|].
    - intros va Hva. rewrite Hfr2 by set_solver. by apply Hfr1.
    - intros va. rewrite fmap_app. simpl. set_solver. }
  eexists _, w2, s. split; [done|]. split; [|by rewrite Hcs2].
  split; simpl; rewrite ?Hd2, ?Hx2; try done.
  - destruct Hi. split; simpl; try (rewrite Hcs2; simpl; done).
    + rewrite Hcs2. simpl. apply Forall2_app; [done|]. constructor; [|done].
      split_and!; [done|done|]. by exists bo.
    + rewrite Hcs2 in *. rewrite length_app. simpl in *. lia.
    + by apply Forall_app; split; [|constructor].
  - by rewrite Hcs2.
  - lia.
  - rewrite Hcs2. simpl. exists l1. split; [done|]. lia.
  - by rewrite Hcs2.
  - rewrite Hcs2. exists e. split; [|done]. rewrite fetch_Some in *.
    destruct Hf1 as (l1' & Hm1' & Hlen1' & Heq). rewrite Hm1 in Hm1'.
    injection Hm1' as <-. by exists l1.
  - rewrite Hcs2. simpl. done.
  - intros b Hb. rewrite Hc2 in Hb. specialize (Hca b Hb). rewrite fmap_app.
    simpl. set_solver.
  - rewrite Hcs2. simpl. assert (same_shape (mem w) (mem w2)) as Hsh by eauto with radv.
    apply Forall_app. split; [by eapply ib_live_shape|]. constructor; [|done].
    intros b [= <-]. eauto with radv.
Qed.

Lemma finalize_spec nb w cs segs cur :
  cs_open w cs segs cur -> world_ok k nb w ->
  exists cs' w' s, radv_amdgpu_cs_finalize ws k cs w = Some (cs', w') /\ cs_closed w' cs' segs s
    /\ isolated w (buf (base cs) :: (s_va <$> segs)) w' (s_va <$> (segs ++ [s]))
    /\ world_ok k nb w' /\ visible (s_body s) = visible cur
    /\ chain_ib cs' = chain_ib cs /\ hw_ip cs' = hw_ip cs /\ is_secondary cs' = is_secondary cs.
Proof.
  intros Ho Hw.
  destruct (finalize_tail w cs segs cur Ho) as (cs1 & w1 & ps & e & E & Ha & Hp & Hv & He & _ & Hn).
  erewrite finalize_split; [|done| |exact E]; [by eapply publish_spec|].
  by destruct (appended_fields _ _ _ _ _ Ha) as [-> _].
Qed.

(** What a finalized stream executes: every recorded packet, in order. *)
Definition executes (w : world) (cs : radv_amdgpu_cs) (out : list (list Z)) : Prop :=
  exists f0, forall f, (f0 <= f)%nat -> executed f (mem w) cs = Some out.

Lemma exec_ibs_runs m ibs segs :
  Forall2 ib_of_seg ibs segs ->
  Forall (fun s => runs m (s_va s) (s_n s) (visible (s_body s))) segs ->
  exists f0, forall f, (f0 <= f)%nat -> exec_ibs f m ibs = Some (visible (bodies segs)).
Proof.
  induction 1 as [|ib s ibs segs (Hva & Hn & _) _ IH]; intros Hr; [by exists 0%nat|].
  apply Forall_cons in Hr as [[f1 Hs] Hr]. destruct (IH Hr) as [f2 Hf2].
  exists (f1 + f2)%nat. intros f Hle. simpl. rewrite Hva, Hn, (Hs f) by lia. simpl.
  rewrite (Hf2 f) by lia. simpl. unfold bodies. simpl. by rewrite visible_app.
Qed.

Lemma end_runs m s e :
  seg_ok s -> fetch m (s_va s) (s_n s) = Some (concat (s_body s) ++ e) -> end_of true e ->
  runs m (s_va s) (s_n s) (visible (s_body s)).
Proof.
  intros (_ & _ & Hp) Hf (junk & -> & Hj).
  destruct (nop_packet_framed 4 junk) as [Hfr Hnop]; [lia|lia|].
  change (4 - 2) with 2 in *.
  replace (visible (s_body s)) with (visible (s_body s ++ [PKT3 PKT3_NOP 2 0 :: junk])).
  - eapply runs_plain; [| |done].
    + apply Forall_app. split; [done|]. constructor; [by apply nop_plain|done].
    + rewrite concat_app. simpl. by rewrite !app_nil_r.
  - rewrite visible_app. unfold visible at 2.
    by rewrite filter_cons_False, filter_nil, app_nil_r by (rewrite Hnop; done).
Qed.

(** A chained stream is executed from its first IB. *)
Lemma chain_executes w cs segs s out :
  chain_ib cs = true -> cs_inv cs (segs ++ [s]) ->
  linked true (mem w) segs (s_va s) (s_n s) -> runs (mem w) (s_va s) (s_n s) out ->
  runs (mem w) (first_of segs (s_va s) (s_n s)).1 (first_of segs (s_va s) (s_n s)).2
       (visible (bodies segs) ++ out)
  /\ executes w cs (visible (bodies segs) ++ out).
Proof.
  intros Hch Hi Hl Hr. pose proof (ci_segs _ _ Hi) as Hok.
  apply Forall_app in Hok as [Hok Hs]. apply Forall_inv in Hs as (Hsva & Hsn & _).
  eapply linked_runs in Hr; [|done..|unfold IB_SIZE_MAX; lia]. split; [done|]. destruct Hr as [f0 Hr].
  exists f0. intros f Hle. specialize (Hr f Hle). pose proof (ci_ibs _ _ Hi) as Hibs.
  unfold executed, submitted_ibs. rewrite Hch.
  destruct segs as [|s0 segs]; inversion Hibs as [|ib ? ibs ? (Hva & Hn & _)]; subst; simpl;
    rewrite Hva, Hn; simpl in Hr; by rewrite Hr; simpl; rewrite app_nil_r.
Qed.

Lemma closed_last_runs w cs segs s :
  cs_closed w cs segs s -> chain_ib cs = true ->
  runs (mem w) (s_va s) (s_n s) (visible (s_body s)).
Proof.
  intros [Hi _ _ _ _ _ _ (e & Hf & He) _ _ _ _] Hch. rewrite Hch in He.
  pose proof (ci_segs _ _ Hi) as Hok. apply Forall_app in Hok as [_ Hs]. apply Forall_inv in Hs.
  by eapply end_runs.
Qed.

Lemma closed_executes w cs segs s :
  cs_closed w cs segs s -> executes w cs (visible (bodies segs ++ s_body s)).
Proof.
  intros Hcl. destruct (chain_ib cs) eqn:Hch.
  - pose proof (closed_last_runs _ _ _ _ Hcl Hch) as Hr. destruct Hcl. rewrite Hch in *.
    rewrite visible_app. by eapply chain_executes.
  - destruct Hcl. destruct cc_last0 as (e & Hf & He). rewrite Hch in *.
    pose proof (ci_segs _ _ cc_inv0) as Hok. apply Forall_app in Hok as [Hok Hs].
    apply Forall_inv in Hs as (_ & _ & Hsb). rewrite He, app_nil_r in Hf. rewrite <- bodies_snoc.
    unfold executes, executed, submitted_ibs. rewrite Hch.
    apply exec_ibs_runs; [by apply ci_ibs|]. apply Forall_app. split; [by eapply linked_runs_each|].
    constructor; [|done]. apply (runs_plain _ _ _ (s_body s) []); [done| |done].
    by rewrite app_nil_r.
Qed.

(** * New IBs *)

Lemma find_size_Some l sz i :
  find_size l sz = Some i -> exists b, l !! i = Some b /\ bo_size b = sz.
Proof.
  revert i. induction l as [|b l IH]; intros i; simpl; [done|].
  destruct (Z.eqb_spec (bo_size b) sz); [intros [= <-]; by exists b|].
  destruct (find_size l sz) as [j|]; [|done]. intros [= <-]. by apply IH.
Qed.

(** A new or recycled IB is large enough and nobody else's. *)
Lemma bo_create_spec nb cs w sz :
  world_ok k nb w -> (nb < k_limit k)%nat -> 0 < sz < 2 ^ 31 ->
  exists bo w', radv_amdgpu_cs_bo_create ws k cs w sz = (Some bo, w')
    /\ bo_live (mem w') bo /\ sz <= bo_size bo
    /\ world_ok k (S nb) w'
    /\ (forall va, va <> bo_va bo -> mem w' !! va = mem w !! va) /\ same_shape (mem w) (mem w')
    /\ (mem w !! bo_va bo = None \/ bo ∈ ib_cache w)
    /\ (forall b, b ∈ ib_cache w' -> b ∈ ib_cache w /\ bo_va b <> bo_va bo).
Proof.
  intros Hw Hlim Hsz. pose proof Hw as [Hcreated Hfresh Hcache Hnd].
  destruct (ko_create _ Hk (creates w) sz ltac:(lia) Hsz) as (bo & Hcr & Hbsz & Hbva).
  assert (exists w', buffer_create k w sz = (Some bo, w')
    /\ bo_live (mem w') bo /\ world_ok k (S nb) w'
    /\ (forall va, va <> bo_va bo -> mem w' !! va = mem w !! va)
    /\ same_shape (mem w) (mem w')
    /\ ib_cache w' = ib_cache w) as (w' & Ec & Hlive & Hw' & Hframe & Hshape & Hca).
  { unfold buffer_create. rewrite Hcr. eexists. split; [done|]. simpl.
    set (data := _ <$> seq _ _).
    assert (Z.of_nat (length data) = bo_size bo / 4) as Hdl.
    { unfold data. rewrite length_fmap, length_seq. Z.to_euclidean_division_equations. lia. }
    assert (bo_live (<[bo_va bo := data]> (mem w)) bo) as Hlive.
    { split; [done|]. exists data. rewrite lookup_insert_eq. split; [done|].
      Z.to_euclidean_division_equations. lia. }
    specialize (Hfresh (creates w) sz bo ltac:(lia) Hcr) as Hnone.
    split_and!; [done| |intros; by rewrite lookup_insert_ne|by apply same_shape_insert|done].
    split; simpl; [lia| | |done].
    - intros n sz' b Hle Hb. rewrite lookup_insert_ne; [apply (Hfresh n sz' b); [lia|done]|].
      intros Heq. pose proof (ko_fresh _ Hk _ _ _ _ _ _ Hcr Hb Heq). lia.
    - eapply Forall_impl; [exact Hcache|]. intros b [Hva (l & Hl & Hlen)]. split; [done|].
      exists l. rewrite lookup_insert_ne; [done|]. intros Heq. congruence. }
  assert (mem w !! bo_va bo = None) as Hnone by (by eapply (Hfresh (creates w))).
  assert (forall b, b ∈ ib_cache w -> b ∈ ib_cache w /\ bo_va b <> bo_va bo) as Hother.
  { intros b Hb. split; [done|]. intros Heq. rewrite Forall_forall in Hcache.
    destruct (Hcache b Hb) as [_ (l & Hl & _)]. congruence. }
  unfold radv_amdgpu_cs_bo_create. destruct (gfx11_shader_core ws).
  2:{ exists bo, w'. split_and!; [done|apply Hlive..|lia|done|done|done|by left|by rewrite Hca]. }
  unfold radv_xclipse_ib_cache_get. destruct (find_size (ib_cache w) sz) as [i|] eqn:Hfind.
  2:{ exists bo, w'. split_and!; [done|apply Hlive..|lia|done|done|done|by left|by rewrite Hca]. }
  apply find_size_Some in Hfind as (b & Hb & Hsize). rewrite Hb.
  pose proof (swap_remove_Permutation _ _ _ Hb) as Hperm. rewrite Hperm in Hcache, Hnd.
  apply Forall_cons in Hcache as [Hblive Hcache]. simpl in Hnd. apply NoDup_cons in Hnd as [Hnb Hnd].
  eexists b, _. split; [done|]. simpl. split_and!; [apply Hblive..|lia|split; simpl; [lia|done..]|done|auto with radv| |].
  - right. by eapply list_elem_of_lookup_2.
  - intros b' Hb'. rewrite Hperm. split; [by right|]. intros Heq. apply Hnb. rewrite <- Heq.
    by apply list_elem_of_fmap_2.
Qed.

(** The new IB is taken from none of the other streams. *)
Lemma bo_create_isolated w w' bo live :
  (forall va, va <> bo_va bo -> mem w' !! va = mem w !! va) ->
  mem w !! bo_va bo = None \/ bo ∈ ib_cache w ->
  (forall b, b ∈ ib_cache w' -> b ∈ ib_cache w /\ bo_va b <> bo_va bo) ->
  isolated w live w' (bo_va bo :: live).
Proof.
  intros Hframe Hfresh Hcache va (Hsm & Hnc & Hnl).
  assert (va <> bo_va bo) as Hne.
  { intros ->. destruct Hfresh as [Hnone|Hinc]; [rewrite Hnone in Hsm; by destruct Hsm|].
    apply Hnc. by apply list_elem_of_fmap_2. }
  split; [by apply Hframe|]. split_and!; [by rewrite Hframe| |by apply not_elem_of_cons].
  intros (b & -> & Hb)%list_elem_of_fmap. apply Hnc, list_elem_of_fmap_2. by apply Hcache.
Qed.

(** Sizes of IBs: an aligned request below the limit of 0xfffff bytes. *)
Lemma aligned_size_spec x a :
  16 <= x <= IB_SIZE_MAX -> 8 <= a <= 20 ->
  let sz := align x (2 ^ a) in
  x <= sz <= 2 ^ 20 /\ sz mod 256 = 0 /\ 0 < sz < 2 ^ 31 /\ u32 (sz / 4 - 4) = sz / 4 - 4
  /\ 4 <= sz / 4 - 4 < 2 ^ 18 /\ (sz / 4 - 4 + 4) mod 8 = 0.
Proof.
  intros Hx Ha sz. subst sz. unfold IB_SIZE_MAX in Hx.
  assert (256 <= 2 ^ a <= 2 ^ 20 /\ (2 ^ a) mod 256 = 0 /\ (2 ^ 20) mod 2 ^ a = 0) as (Hp & Hp256 & Hdiv).
  { split; [split; [change 256 with (2 ^ 8)|]; apply Z.pow_le_mono_r; lia|].
    split; [change 256 with (2 ^ 8)|]; apply pow2_mod_pow2; lia. }
  rewrite align_round_up by (unfold_words; lia).
  pose proof (round_up_spec x (2 ^ a) ltac:(lia)) as [Hr Hmod].
  assert (round_up x (2 ^ a) <= 2 ^ 20) as Hle by (apply round_up_least; lia).
  assert (round_up x (2 ^ a) mod 256 = 0) as Hm256.
  { apply Z.mod_divide; [lia|]. apply Z.mod_divide in Hmod, Hp256; [|lia..].
    by transitivity (2 ^ a). }
  assert (256 <= round_up x (2 ^ a)) by (Z.to_euclidean_division_equations; lia).
  rewrite u32_small by (unfold_words; Z.to_euclidean_division_equations; lia).
  repeat split; Z.to_euclidean_division_equations; lia.
Qed.

Lemma grow_size_spec cs n :
  is_pm4_ip (hw_ip cs) = true -> 4 <= max_dw (base cs) < 2 ^ 18 -> 0 <= n <= 2 ^ 18 - 4 ->
  let sz := grow_size ws cs n in
  0 < sz < 2 ^ 31 /\ u32 (sz / 4 - 4) = sz / 4 - 4
  /\ n <= sz / 4 - 4 /\ 4 <= sz / 4 - 4 < 2 ^ 18 /\ (sz / 4 - 4 + 4) mod 8 = 0.
Proof.
  intros Hip Hmax Hn. destruct (wo_align _ Hws _ Hip) as (a & Ha & Hal).
  unfold grow_size. rewrite Hal, u64_small, u32_small by (unfold_words; lia).
  set (x := Z.min _ IB_SIZE_MAX).
  destruct (aligned_size_spec x a) as (Hx & Hm & ? & ? & ? & ?);
    [subst x; unfold IB_SIZE_MAX; lia|done|].
  assert (Z.min (n * 4 + 16) IB_SIZE_MAX <= x) as Hge by (subst x; lia).
  split_and!; try done; try lia. unfold IB_SIZE_MAX in Hge.
  destruct (Z.le_gt_cases (n * 4 + 16) 1048575); Z.to_euclidean_division_equations; lia.
Qed.

Lemma add_buffer_ok cs bo :
  status cs = VK_SUCCESS -> buffers_wf (buffers cs) ->
  exists b, radv_amdgpu_cs_add_buffer k cs bo = Some (with_buffers cs b) /\ buffers_wf b.
Proof.
  intros Hs Hb. unfold radv_amdgpu_cs_add_buffer. rewrite bool_decide_false by (intros []; done).
  assert (cs = with_buffers cs (buffers cs)) as Hid by (by destruct cs).
  destruct (is_virtual bo); [exists (buffers cs); by rewrite <- Hid|].
  destruct (is_local bo); [exists (buffers cs); by rewrite <- Hid|].
  destruct (add_buffer_internal_spec (k_host k) (buffers cs) (bo_kms_handle bo) (bo_prio bo) Hb)
    as (b & ok & -> & Hwf & _ & Hf). simpl. exists b. split; [|done].
  destruct ok; [by destruct cs|]. destruct (Hf eq_refl) as (_ & _ & _ & Hno).
  by rewrite (ko_host _ Hk) in Hno.
Qed.

(** Replacing the four dwords of NOP at the end of an IB. *)
Lemma patch_end w p n b e v1 v2 v3 v4 :
  fetch (mem w) p n = Some (b ++ e) -> length e = 4%nat -> n < W32 ->
  exists l l', mem w !! p = Some l /\ length l' = length l
    /\ (let! w := store w p (u32 (n - 4)) v1 ;;
        let! w := store w p (u32 (n - 3)) v2 ;;
        let! w := store w p (u32 (n - 2)) v3 ;;
        store w p (u32 (n - 1)) v4) = Some (with_mem w (<[p := l']> (mem w)))
    /\ fetch (<[p := l']> (mem w)) p n = Some (b ++ [v1; v2; v3; v4]).
Proof.
  intros Hf He Hn. apply fetch_Some in Hf as (l & Hm & Hr & Hbe).
  assert (Z.to_nat n = length b + 4)%nat as Hlen.
  { apply (f_equal length) in Hbe. rewrite length_app, length_take in Hbe. lia. }
  exists l, (list_inserts (length b) [v1; v2; v3; v4] l).
  split; [done|]. split; [apply length_inserts|].
  rewrite !u32_small by lia. split.
  - pose proof (stores_ok w p (n - 4) [v1; v2; v3; v4] l Hm ltac:(lia)) as Hst.
    simpl in Hst. replace (n - 4 + 1) with (n - 3) in Hst by lia.
    replace (n - 3 + 1) with (n - 2) in Hst by lia. replace (n - 2 + 1) with (n - 1) in Hst by lia.
    replace (Z.to_nat (n - 4)) with (length b) in Hst by lia. etrans; [|exact (Hst ltac:(lia))].
    destruct (store w p (n - 4) v1) as [w1|]; [simpl|done].
    destruct (store w1 p (n - 3) v2) as [w2|]; [simpl|done].
    destruct (store w2 p (n - 2) v3) as [w3|]; [simpl|done].
    by destruct (store w3 p (n - 1) v4).
  - apply fetch_Some. eexists. rewrite lookup_insert_eq. split; [done|].
    rewrite length_inserts. split; [done|]. rewrite Hlen.
    pose proof (take_inserts l (length b) [v1; v2; v3; v4]) as Hti. simpl length in Hti.
    rewrite Hti by lia. f_equal.
    replace (take (length b) l) with (take (length b) (take (Z.to_nat n) l)).
    + by rewrite <- Hbe, take_app_length.
    + by rewrite take_take, Nat.min_l by lia.
Qed.

(** After [finalize], [grow] gets an IB and links to it. *)
Lemma relink nb w cs segs s bo cs0 :
  cs_closed w cs segs s -> 0 < bo_va bo < W64 -> world_ok k nb w ->
  base cs0 = base cs -> chain_ib cs0 = chain_ib cs ->
  exists w',
    (if chain_ib cs0 then
       let n := cdw (base cs0) in
       let p := buf (base cs0) in
       let! w := store w p (u32 (n - 4)) (PKT3 PKT3_INDIRECT_BUFFER 2 0) ;;
       let! w := store w p (u32 (n - 3)) (addr_lo (bo_va bo)) ;;
       let! w := store w p (u32 (n - 2)) (addr_hi (bo_va bo)) ;;
       let! w := store w p (u32 (n - 1)) (Z.lor (S_3F3_CHAIN 1) (S_3F3_VALID 1)) ;;
       Some (with_size_ptr cs0 (AtDword p (u32 (n - 1))), w)
     else Some (cs0, w))
    = Some (with_size_ptr cs0 (if chain_ib cs then size_ptr_of (segs ++ [s])
                               else ib_size_ptr cs0), w')
    /\ linked (chain_ib cs) (mem w') (segs ++ [s]) (bo_va bo) 0
    /\ (forall va, va <> s_va s -> mem w' !! va = mem w !! va)
    /\ ib_cache w' = ib_cache w /\ world_ok k nb w' /\ same_shape (mem w) (mem w').
Proof.
  intros Hcl Hbva Hw Hb0 Hch0. rewrite Hb0, Hch0. destruct Hcl as [Hi _ _ [Hsva Hsn] Hmax _ Hl (e & Hf & He) Hnd _ _ _].
  pose proof (ci_segs _ _ Hi) as Hok. apply Forall_app in Hok as [_ Hs].
  apply Forall_inv in Hs as (_ & Hsn' & _).
  destruct (chain_ib cs).
  - destruct He as (junk & -> & Hj). rewrite <- Hsva, <- Hsn.
    destruct (patch_end w (s_va s) (s_n s) (concat (s_body s)) (PKT3 PKT3_NOP 2 0 :: junk)
      (PKT3 PKT3_INDIRECT_BUFFER 2 0) (addr_lo (bo_va bo)) (addr_hi (bo_va bo))
      (Z.lor (S_3F3_CHAIN 1) (S_3F3_VALID 1)))
      as (l & l' & Hm & Hlen & Est & Hf'); [done|simpl; lia|unfold IB_SIZE_MAX, W32 in *; lia|].
    assert (size_ptr_of (segs ++ [s]) = AtDword (s_va s) (u32 (s_n s - 1))) as Hptr.
    { unfold size_ptr_of. rewrite last_snoc, u32_small; [done|]. unfold IB_SIZE_MAX, W32 in *. lia. }
    cbv zeta. rewrite Hptr. eexists _. split; [|split].
    + destruct (store w _ _ _) as [w1|]; [|done]. cbn [mbind option_bind] in *.
      destruct (store w1 _ _ _) as [w2|]; [|done]. cbn [mbind option_bind] in *.
      destruct (store w2 _ _ _) as [w3|]; [|done]. cbn [mbind option_bind] in *.
      rewrite Est. cbn [mbind option_bind]. done.
    + apply linked_snoc. simpl mem. split.
      * eapply linked_frame; [|exact Hl]. intros va Hva. rewrite lookup_insert_ne; [done|].
        intros <-. rewrite fmap_app in Hnd. apply NoDup_app in Hnd as (_ & Hd & _).
        apply (Hd _ Hva). simpl. set_solver.
      * rewrite Hf'. unfold link, chain_packet. by rewrite Z.lor_0_r.
    + split_and!; [|done| |].
      * intros va Hva. simpl. by rewrite lookup_insert_ne.
      * by eapply world_ok_write.
      * simpl. eauto with radv.
  - exists w. split; [by destruct cs0|]. split_and!; [|done|done|done|auto with radv].
    apply linked_snoc. split; [done|]. by rewrite Hf, He.
Qed.

Lemma closed_frame w w' cs segs s :
  cs_closed w cs segs s ->
  (forall va, va ∈ s_va <$> (segs ++ [s]) -> mem w' !! va = mem w !! va) ->
  (forall b, b ∈ ib_cache w' -> b ∈ ib_cache w) -> same_shape (mem w) (mem w') ->
  cs_closed w' cs segs s.
Proof.
  intros [] Hm Hc Hsh. destruct cc_va0 as [Hva Hn].
  assert (mem w' !! s_va s = mem w !! s_va s) as Hs
    by (apply Hm; rewrite fmap_app; simpl; set_solver).
  split; try done.
  - by rewrite <- Hva, Hs, Hva.
  - eapply linked_frame; [|done]. intros va Hv. apply Hm. rewrite fmap_app. set_solver.
  - unfold fetch in *. by rewrite Hs.
  - intros b Hb. by apply cc_cache0, Hc.
  - by eapply ib_live_shape.
Qed.

Lemma closed_with_buffers w cs segs s b :
  cs_closed w cs segs s -> buffers_wf b -> cs_closed w (with_buffers cs b) segs s.
Proof. intros [[]] Hb. by split; try done. Qed.

Lemma linked_mapped chain m segs nva nsz va :
  linked chain m segs nva nsz -> va ∈ s_va <$> segs -> is_Some (m !! va).
Proof.
  induction segs as [|s segs IH]; simpl; [by intros _ ?%not_elem_of_nil|].
  intros [Hf Hl] [->|Hin]%elem_of_cons; [|by apply IH].
  apply fetch_Some in Hf as (l & Hm & _). by exists l.
Qed.

Lemma closed_seg_mapped w cs segs s va :
  cs_closed w cs segs s -> va ∈ s_va <$> (segs ++ [s]) -> is_Some (mem w !! va).
Proof.
  intros Hcl. rewrite fmap_app, elem_of_app. intros [Hin|Hin].
  - by eapply linked_mapped; [apply Hcl|].
  - apply list_elem_of_singleton in Hin as ->.
    destruct (cc_last _ _ _ _ Hcl) as (e & (l & Hm & _)%fetch_Some & _). by exists l.
Qed.

(** The stream keeps its kind. *)
Definition same_kind (cs cs' : radv_amdgpu_cs) : Prop :=
  chain_ib cs' = chain_ib cs /\ hw_ip cs' = hw_ip cs /\ is_secondary cs' = is_secondary cs.

Lemma same_kind_trans a b c : same_kind a b -> same_kind b c -> same_kind a c.
Proof. unfold same_kind. intros (?&?&?) (?&?&?). split_and!; congruence. Qed.

Lemma grow_spec nb w cs segs cur n :
  cs_open w cs segs cur -> world_ok k nb w -> (nb < k_limit k)%nat -> 0 <= n <= 2 ^ 18 - 4 ->
  exists cs' w' s, radv_amdgpu_cs_grow ws k cs w n = Some (cs', w')
    /\ cs_open w' cs' (segs ++ [s]) [] /\ world_ok k (S nb) w'
    /\ isolated w (buf (base cs) :: (s_va <$> segs))
                w' (buf (base cs') :: (s_va <$> (segs ++ [s])))
    /\ visible (s_body s) = visible cur /\ same_kind cs cs'
    /\ cdw (base cs') = 0 /\ n <= max_dw (base cs').
Proof.
  intros Ho Hw Hlim Hn. unfold radv_amdgpu_cs_grow.
  rewrite bool_decide_false by (pose proof (ci_status _ _ (co_inv _ _ _ _ Ho)); by intros []).
  destruct (finalize_spec nb w cs segs cur Ho Hw) as (cs1 & w1 & s & -> & Hcl & Hiso1 & Hw1 & Hv & Hkind).
  cbn [mbind option_bind].
  destruct (ci_max _ _ (cc_inv _ _ _ _ Hcl)) as [Hmax _].
  destruct (grow_size_spec cs1 n (ci_ip _ _ (cc_inv _ _ _ _ Hcl)) Hmax Hn)
    as (Hsz & Hu & Hfit & Hmax' & Hmod). set (sz := grow_size ws cs1 n) in *.
  destruct (bo_create_spec nb cs1 w1 sz Hw1 Hlim Hsz)
    as (bo & w2 & -> & Hblive & Hbsz & Hw2 & Hframe & Hsh2 & Hfresh & Hcache).
  pose proof Hblive as [Hbva (l & Hl & Hlen)].
  cbn [mbind option_bind]. change (ib_buffer (with_ib_buffer cs1 (Some bo))) with (Some bo).
  cbn [mbind option_bind]. unfold radv_buffer_map at 1. rewrite (ko_map _ Hk).
  cbn [mbind option_bind]. change (ib_buffer (with_ib_buffer cs1 (Some bo))) with (Some bo).
  cbn [mbind option_bind].
  set (w3 := World (mem w2) (ib_cache w2) (creates w2) (S (maps w2))).
  assert (world_ok k (S nb) w3) as Hw3 by (by destruct Hw2).
  destruct (add_buffer_ok (with_ib_buffer cs1 (Some bo)) bo) as (bl & -> & Hbl);
    [apply (cc_inv _ _ _ _ Hcl)..|]. cbn [mbind option_bind].
  assert (bo_va bo ∉ s_va <$> (segs ++ [s])) as Hnew.
  { intros Hin. destruct Hfresh as [Hnone|Hinc]; [|by eapply (cc_cache _ _ _ _ Hcl)].
    destruct (closed_seg_mapped w1 cs1 segs s _ Hcl Hin) as [l0 Hl0]. congruence. }
  assert (cs_closed w3 cs1 segs s) as Hcl3.
  { eapply closed_frame; [done| |by intros b []%Hcache|done].
    intros va Hva. apply Hframe. by intros ->. }
  destruct (relink (S nb) w3 cs1 segs s bo (with_buffers (with_ib_buffer cs1 (Some bo)) bl) Hcl3 Hbva Hw3)
    as (w4 & Er & Hl4 & Hf4 & Hc4 & Hw4 & Hsh4); [done|done|]. cbv zeta in Er. rewrite Er.
  cbn [mbind option_bind].
  assert (isolated w (buf (base cs) :: (s_va <$> segs))
                   w4 (bo_va bo :: (s_va <$> (segs ++ [s])))) as Hiso.
  { eapply isolated_trans; [exact Hiso1|].
    eapply isolated_trans; [by apply (bo_create_isolated w1 w3 bo)|].
    apply isolated_write; [|done|done].
    intros va Hva. apply Hf4. intros ->. apply Hva. rewrite fmap_app. simpl. set_solver. }
  eexists _, w4, s. split; [done|]. split; [|by simpl; rewrite ?Hu].
  destruct Hcl. destruct cc_inv0. split; simpl; rewrite ?Hu.
  - by split.
  - by exists bo.
  - lia.
  - exists l. rewrite Hf4 by (intros Heq; apply Hnew; rewrite Heq, fmap_app; simpl; set_solver).
    split; [done|]. split; [|done]. simpl. Z.to_euclidean_division_equations. lia.
  - done.
  - done.
  - by apply NoDup_cons.
  - by intros ->.
  - intros Hch. rewrite (cc_first0 Hch). by destruct segs.
  - intros b Hb. rewrite Hc4 in Hb. apply Hcache in Hb as [Hb Hne].
    apply not_elem_of_cons. split; [done|]. by apply cc_cache0.
  - split; [eauto with radv|]. intros b [= <-]. eauto with radv.
Qed.

(** IBs and packets of a stream being recorded. *)
Definition live_of (cs : radv_amdgpu_cs) (segs : list seg) : list Z :=
  buf (base cs) :: (s_va <$> segs).
Definition recorded_packets (segs : list seg) (cur : list (list Z)) : list (list Z) :=
  visible (bodies segs ++ cur).

Lemma open_with_reserved w cs segs cur n :
  cs_open w cs segs cur -> cdw (base cs) <= n <= max_dw (base cs) ->
  cs_open w (with_reserved cs n) segs cur.
Proof. intros [[]] Hn. split; simpl; try done. lia. Qed.

(** Making room keeps the recorded packets, whether or not it starts a new IB. *)
Lemma reserve_spec nb w cs segs cur n (need_grow : bool) :
  cs_open w cs segs cur -> world_ok k nb w -> (nb < k_limit k)%nat -> 0 <= n <= 2 ^ 18 - 4 ->
  (need_grow = false -> cdw (base cs) + n <= max_dw (base cs)) ->
  exists cs' w' segs' cur',
    (let! (cs, w) := (if need_grow then radv_amdgpu_cs_grow ws k cs w n else Some (cs, w)) ;;
     Some (with_reserved cs (Z.max (reserved_dw (base cs)) (u32 (cdw (base cs) + n))), w))
    = Some (cs', w')
    /\ cs_open w' cs' segs' cur' /\ world_ok k (S nb) w'
    /\ isolated w (live_of cs segs) w' (live_of cs' segs')
    /\ recorded_packets segs' cur' = recorded_packets segs cur
    /\ same_kind cs cs' /\ cdw (base cs') + n <= reserved_dw (base cs')
    /\ (length segs' <= S (length segs))%nat.
Proof.
  intros Ho Hw Hlim Hn Hroom. destruct need_grow.
  - destruct (grow_spec nb w cs segs cur n Ho Hw Hlim Hn)
      as (cs1 & w1 & s & -> & Ho1 & Hw1 & Hiso & Hv & Hkind & Hc0 & Hmax). cbn [mbind option_bind].
    pose proof (co_dw _ _ _ _ Ho1) as Hdw. pose proof (ci_max _ _ (co_inv _ _ _ _ Ho1)) as Hm.
    rewrite Hc0 in *. rewrite u32_small by (unfold_words; lia).
    eexists _, w1, (segs ++ [s]), []. split; [done|]. split; [apply open_with_reserved; [done|lia]|].
    split_and!; [done|done| |done|simpl; lia|rewrite length_app; simpl; lia].
    unfold recorded_packets. rewrite bodies_snoc, app_nil_r, !visible_app. by rewrite Hv.
  - specialize (Hroom eq_refl). cbn [mbind option_bind].
    pose proof (co_dw _ _ _ _ Ho) as Hdw. pose proof (ci_max _ _ (co_inv _ _ _ _ Ho)) as Hm.
    rewrite u32_small by (unfold_words; lia).
    eexists _, w, segs, cur. split; [done|]. split; [apply open_with_reserved; [done|lia]|].
    split_and!; [by apply world_ok_weaken|apply isolated_refl|done|done|simpl; lia|lia].
Qed.

Lemma check_space_spec nb w cs segs cur n :
  cs_open w cs segs cur -> world_ok k nb w -> (nb < k_limit k)%nat -> 0 <= n <= 2 ^ 18 - 4 ->
  exists cs' w' segs' cur', radeon_check_space ws k cs w n = Some (cs', w')
    /\ cs_open w' cs' segs' cur' /\ world_ok k (S nb) w'
    /\ isolated w (live_of cs segs) w' (live_of cs' segs')
    /\ recorded_packets segs' cur' = recorded_packets segs cur
    /\ same_kind cs cs' /\ cdw (base cs') + n <= reserved_dw (base cs')
    /\ (length segs' <= S (length segs))%nat.
Proof.
  intros Ho Hw Hlim Hn. unfold radeon_check_space. pose proof (co_dw _ _ _ _ Ho) as Hdw.
  pose proof (ci_max _ _ (co_inv _ _ _ _ Ho)) as Hm. pass_assert.
  rewrite u32_small by (unfold_words; lia). apply reserve_spec; [done..|]. lia.
Qed.

(** * Recording a sequence of packets *)

(** A caller reserves [needed] dwords, then emits [ps]. *)
Fixpoint record (ops : list (Z * list (list Z))) (cs : radv_amdgpu_cs) (w : world)
  : option (radv_amdgpu_cs * world) :=
  match ops with
  | [] => Some (cs, w)
  | (needed, ps) :: ops =>
      let! (cs, w) := radeon_check_space ws k cs w needed ;;
      let! (cs, w) := ac_cmdbuf_emit_array cs w (concat ps) ;;
      record ops cs w
  end.

Definition op_ok (op : Z * list (list Z)) : Prop :=
  Z.of_nat (length (concat op.2)) <= op.1 <= 2 ^ 18 - 4 /\ Forall plain op.2.

Lemma appended_isolated cs w ds cs' w' segs :
  appended cs w ds cs' w' -> isolated w (live_of cs segs) w' (live_of cs' segs).
Proof.
  intros Ha. destruct (appended_fields _ _ _ _ _ Ha) as [Hcs Hc].
  apply isolated_write; [|done|by rewrite Hcs].
  intros va [Hne _]%not_elem_of_cons. by eapply appended_frame.
Qed.

Lemma record_spec nb ops w cs segs cur :
  cs_open w cs segs cur -> world_ok k nb w -> (nb + length ops <= k_limit k)%nat ->
  Forall op_ok ops ->
  exists cs' w' segs' cur', record ops cs w = Some (cs', w')
    /\ cs_open w' cs' segs' cur' /\ world_ok k (nb + length ops) w'
    /\ isolated w (live_of cs segs) w' (live_of cs' segs') /\ same_kind cs cs'
    /\ (length segs' <= length segs + length ops)%nat
    /\ recorded_packets segs' cur'
       = recorded_packets segs cur ++ visible (concat (snd <$> ops)).
Proof.
  intros Ho Hw Hlim Hops. revert nb w cs segs cur Ho Hw Hlim.
  induction Hops as [|[n ps] ops [Hn Hps] _ IH]; intros nb w cs segs cur Ho Hw Hlim; simpl in *.
  { exists cs, w, segs, cur. split_and!; [done|done|by rewrite Nat.add_0_r|apply isolated_refl|done|lia|].
    unfold visible at 1. by rewrite filter_nil, app_nil_r. }
  destruct (check_space_spec nb w cs segs cur n Ho Hw ltac:(lia) ltac:(lia))
    as (cs1 & w1 & segs1 & cur1 & -> & Ho1 & Hw1 & Hi1 & Hr1 & Hk1 & Hres & Hl1). simpl.
  destruct (emit_open w1 cs1 segs1 cur1 ps Ho1 Hps ltac:(lia)) as (cs2 & w2 & -> & Ha & Ho2). simpl.
  destruct (IH (S nb) w2 cs2 segs1 (cur1 ++ ps) Ho2 ltac:(by eapply appended_world) ltac:(lia))
    as (cs3 & w3 & segs3 & cur3 & -> & Ho3 & Hw3 & Hi3 & Hk3 & Hl3 & Hr3).
  exists cs3, w3, segs3, cur3.
  split_and!; [done|done|by replace (nb + S (length ops))%nat with (S nb + length ops)%nat by lia| | |lia|].
  - eapply isolated_trans; [done|]. eapply isolated_trans; [by eapply appended_isolated|done].
  - destruct (appended_fields _ _ _ _ _ Ha) as [-> _]. by eapply same_kind_trans.
  - rewrite Hr3. unfold recorded_packets in *. rewrite app_assoc, visible_app, Hr1.
    by rewrite <- !app_assoc, <- !visible_app.
Qed.

(** * Creating and resetting *)

Lemma create_spec nb w ip secondary :
  is_pm4_ip ip = true -> world_ok k nb w -> (nb < k_limit k)%nat ->
  exists cs w', radv_amdgpu_cs_create ws k w ip secondary = Some (Some cs, w')
    /\ cs_open w' cs [] [] /\ world_ok k (S nb) w' /\ hw_ip cs = ip /\ is_secondary cs = secondary
    /\ chain_ib cs = ws_chain_ib ws && negb (secondary && negb (can_chain_ib2 ws))
    /\ isolated w [] w' (live_of cs []).
Proof.
  intros Hip Hw Hlim. destruct (wo_align _ Hws _ Hip) as (a & Ha & Hal).
  destruct (aligned_size_spec (20 * 1024 * 4) a) as (_ & _ & Hsz & Hu & Hmax & Hmod);
    [unfold IB_SIZE_MAX; lia|done|].
  unfold radv_amdgpu_cs_create, radv_amdgpu_cs_get_initial_size. rewrite Hal, Hip, andb_true_r.
  rewrite cassert_bind by (apply util_is_power_of_two_nonzero_pow; lia).
  cbn [mbind option_bind]. set (sz := align _ _) in *. set (chain := ws_chain_ib ws && _).
  set (cs0 := Cs _ _ _ _ _ _ _ _ _ _ _ _ _ _). unfold radv_amdgpu_cs_get_new_ib.
  destruct (bo_create_spec nb cs0 w sz Hw Hlim Hsz)
    as (bo & w1 & -> & Hlive & Hbsz & Hw1 & Hframe & Hsh & Hfresh & Hcache).
  pose proof Hlive as [Hbva (l & Hl & Hlen)].
  unfold radv_buffer_map. rewrite (ko_map _ Hk), Hu.
  set (cs1 := with_ib_buffer (with_ib (with_base cs0 (Cmdbuf (bo_va bo) 0 (sz / 4 - 4) 0))
                                      (bo_va bo) 0) (Some bo)).
  match goal with
  | |- context [radv_amdgpu_cs_add_buffer k ?c bo] =>
      replace c with cs1 by (subst cs1 cs0; simpl; by destruct chain)
  end.
  destruct (add_buffer_ok cs1 bo) as (b & -> & Hb); [done|apply init_cs_buffers_wf|].
  cbn [mbind option_bind].
  eexists _, _. split; [done|]. split; [split; simpl; try done|].
  - by exists bo.
  - lia.
  - exists l. split; [done|]. split; [|done]. Z.to_euclidean_division_equations. lia.
  - apply NoDup_singleton.
  - intros b' Hb' Hin%list_elem_of_singleton. by apply Hcache in Hb' as [_ Hne].
  - split; [done|]. by intros b' [= <-].
  - split_and!; [by destruct Hw1|done|done|done|]. by apply bo_create_isolated.
Qed.

Lemma destroy_world nb w bo l :
  mem w !! bo_va bo = Some l -> (bo_va bo ∉ bo_va <$> ib_cache w) -> world_ok k nb w ->
  world_ok k nb (with_mem w (delete (bo_va bo) (mem w))).
Proof.
  intros Hl Hn [Hcr0 Hf Hc Hnd]. split; simpl; [done| | |done].
  - intros n sz b Hle Hb. apply lookup_delete_None. right. by eapply Hf.
  - apply Forall_forall. intros b Hb. rewrite Forall_forall in Hc.
    destruct (Hc b Hb) as [Hva (lb & Hlb & Hlen)]. split; [done|]. exists lb.
    rewrite lookup_delete_ne; [done|]. intros Heq. apply Hn. rewrite Heq.
    by apply list_elem_of_fmap_2.
Qed.

Lemma put_world nb w bo :
  bo_live (mem w) bo -> (bo_va bo ∉ bo_va <$> ib_cache w) -> world_ok k nb w ->
  world_ok k nb (World (mem w) (ib_cache w ++ [bo]) (creates w) (maps w)).
Proof.
  intros Hl Hn [Hcr0 Hf Hc Hnd]. split; simpl; [done|done| |].
  - by apply Forall_app; split; [|constructor].
  - rewrite fmap_app. apply NoDup_app. split_and!; [done| |apply NoDup_singleton].
    intros x Hx ->%list_elem_of_singleton. done.
Qed.

(** One IB is parked or destroyed. *)
Lemma release_one nb ib bo w l :
  ib_bo ib = Some bo -> bo_live (mem w) bo -> (bo_va bo ∉ bo_va <$> ib_cache w) ->
  world_ok k nb w ->
  exists w1, release_ibs ws (ib :: l) w = release_ibs ws l w1 /\ world_ok k nb w1
    /\ (forall va, va <> bo_va bo -> mem w1 !! va = mem w !! va)
    /\ (forall b, b ∈ ib_cache w1 -> b ∈ ib_cache w \/ bo_va b = bo_va bo).
Proof.
  intros Hbo Hl Hnc Hw. pose proof Hl as [_ (l0 & Hm & _)]. simpl. rewrite Hbo.
  assert (exists w1,
    (let! w := buffer_destroy w bo ;; release_ibs ws l w) = release_ibs ws l w1 /\ world_ok k nb w1
    /\ (forall va, va <> bo_va bo -> mem w1 !! va = mem w !! va)
    /\ (forall b, b ∈ ib_cache w1 -> b ∈ ib_cache w \/ bo_va b = bo_va bo)) as Hdestroy.
  { unfold buffer_destroy. rewrite Hm. simpl. eexists. split; [done|].
    split; [by eapply destroy_world|]. split; [|by left].
    intros va Hne. simpl. by rewrite lookup_delete_ne. }
  unfold radv_xclipse_ib_cache_put.
  destruct (length (ib_cache w) <? 64)%nat, (gfx11_shader_core ws); simpl; try exact Hdestroy.
  eexists. split; [done|]. split; [by apply put_world|]. split; [done|]. simpl.
  intros b. rewrite elem_of_app, list_elem_of_singleton. intros [Hb| ->]; [by left|by right].
Qed.

(** Releasing IBs frees or parks each of them once and touches nothing else. *)
Lemma release_ibs_spec nb ibs segs w :
  Forall2 ib_of_seg ibs segs -> Forall (ib_live (mem w)) ibs -> NoDup (s_va <$> segs) ->
  (forall b, b ∈ ib_cache w -> bo_va b ∉ s_va <$> segs) -> world_ok k nb w ->
  exists w', release_ibs ws ibs w = Some w' /\ world_ok k nb w'
    /\ (forall va, va ∉ s_va <$> segs -> mem w' !! va = mem w !! va)
    /\ (forall b, b ∈ ib_cache w' -> b ∈ ib_cache w \/ bo_va b ∈ s_va <$> segs).
Proof.
  intros HF. revert w. induction HF as [|ib s ibs segs (_ & _ & bo & Hbo & Hva & _) HF IH];
    intros w Hlive Hnd Hc Hw.
  { exists w. split_and!; [done|done|done|]. by left. }
  apply Forall_cons in Hlive as [Hl Hlive]. apply NoDup_cons in Hnd as [Hns Hnd].
  change (s_va <$> (s :: segs)) with (s_va s :: (s_va <$> segs)) in *.
  destruct (release_one nb ib bo w ibs Hbo (Hl bo Hbo)) as (w1 & -> & Hw1 & Hm1 & Hc1); [|done|].
  { intros (b & Heq & Hb)%list_elem_of_fmap. apply (Hc b Hb). rewrite <- Heq, Hva. set_solver. }
  rewrite Hva in Hm1, Hc1.
  destruct (IH w1) as (w' & -> & Hw' & Hm' & Hc'); [|done| |done|].
  - apply Forall_forall. intros ib' Hib' bo' Hbo'. rewrite Forall_forall in Hlive.
    destruct (Hlive ib' Hib' bo' Hbo') as [Hr (l' & Hl' & Hlen')]. split; [done|].
    exists l'. split; [|done]. rewrite Hm1; [done|]. intros Heq. apply Hns. rewrite <- Heq.
    apply list_elem_of_lookup in Hib' as [i Hi].
    destruct (Forall2_lookup_l _ _ _ _ _ HF Hi) as (s' & Hs' & _ & _ & b' & Hb' & Hv' & _).
    rewrite Hbo' in Hb'. injection Hb' as <-. rewrite Hv'.
    by eapply list_elem_of_fmap_2, list_elem_of_lookup_2.
  - intros b Hb. apply Hc1 in Hb as [Hb| ->]; [|done]. specialize (Hc b Hb). set_solver.
  - exists w'. split_and!; [done|done| |].
    + intros va Hn. rewrite Hm', Hm1; set_solver.
    + intros b Hb. apply Hc' in Hb as [Hb|Hb]; [|set_solver].
      apply Hc1 in Hb as [Hb|Hb]; [by left|]. right. rewrite Hb. set_solver.
Qed.

Lemma if_size_ptr (c : bool) cs p :
  (if c then with_size_ptr cs p else cs) = with_size_ptr cs (if c then p else ib_size_ptr cs).
Proof. destruct c; [done|by destruct cs]. Qed.

Lemma reset_spec nb w cs segs s :
  cs_closed w cs segs s -> world_ok k nb w ->
  exists cs' w', radv_amdgpu_cs_reset ws k cs w = Some (cs', w')
    /\ cs_open w' cs' [] [] /\ world_ok k nb w' /\ same_kind cs cs'.
Proof.
  intros Hcl Hw. pose proof Hcl as [[] Hnone _ [Hsva Hsn] _ Hbuf _ _ Hnd _ Hcache Hlive].
  apply Forall2_app_inv_r in ci_ibs0 as (ibs & l2 & HF & HF2 & Hibs).
  destruct l2 as [|ib l2]; [by inversion HF2|]. apply Forall2_cons in HF2 as [Hib HF2].
  apply Forall2_nil_inv_r in HF2 as ->. destruct Hib as (_ & _ & bo & Hbo & Hbva & Hbr).
  rewrite fmap_app in Hnd. apply NoDup_app in Hnd as (Hnd & Hdis & _).
  rewrite Hibs in Hlive. apply Forall_app in Hlive as [Hlive Hlast]. apply Forall_inv in Hlast.
  unfold radv_amdgpu_cs_reset. simpl. rewrite Hnone, Hibs.
  rewrite cassert_bind by (by destruct ibs).
  unfold radv_amdgpu_restore_last_ib. simpl. rewrite Hibs, last_snoc. simpl.
  rewrite Hbo, cassert_bind by (apply bool_decide_eq_true; by exists bo). simpl.
  rewrite length_app, Nat.add_1_r. simpl. rewrite take_app_length.
  match goal with |- context [radv_amdgpu_cs_add_buffer k ?c bo] => set (cs1 := c) end.
  destruct (add_buffer_ok cs1 bo) as (b & -> & Hb); [done|by apply reset_buffers_wf|]. simpl.
  destruct (release_ibs_spec nb ibs segs w HF Hlive Hnd) as (w1 & -> & Hw1 & Hm1 & Hc1); [|done|].
  { intros b' Hb'. specialize (Hcache b' Hb'). rewrite fmap_app in Hcache. set_solver. }
  simpl. eexists _, w1. split; [done|]. split; [|by destruct (chain_ib cs)].
  assert (mem w1 !! s_va s = mem w !! s_va s) as Hsame.
  { apply Hm1. intros Hin. apply (Hdis _ Hin). simpl. set_solver. }
  assert (bo_live (mem w1) bo) as Hbl.
  { destruct (Hlast bo Hbo) as [Hr (l & Hl & Hlen)]. split; [done|]. exists l.
    by rewrite Hbva, Hsame, <- Hbva. }
  destruct Hbuf as (l & Hl & Hlen).
  rewrite if_size_ptr. split; simpl; try done.
  - split; simpl; try done. lia.
  - exists bo. by rewrite <- Hsva, <- Hbva.
  - lia.
  - exists l. by rewrite <- Hsva, Hsame, Hsva.
  - apply NoDup_singleton.
  - by intros ->.
  - intros _. by rewrite Hbva, Hsva.
  - intros b' Hb' Hin%list_elem_of_singleton. apply Hc1 in Hb' as [Hb'|Hb'].
    + apply (Hcache b' Hb'). rewrite Hin, <- Hsva, fmap_app. simpl. set_solver.
    + rewrite Hin, <- Hsva in Hb'. apply (Hdis _ Hb'). simpl. set_solver.
  - split; [done|]. by intros b' [= <-].
Qed.

(** ** What a reset gives back

    The BOs of the IBs but the last: the cache takes as many as it has room for (on
    chips that use it), the others are destroyed. *)
Definition cache_room (w : world) : nat :=
  if gfx11_shader_core ws then (64 - length (ib_cache w))%nat else 0%nat.

Definition unmap (m : gmap Z (list Z)) (bos : list winsys_bo) : gmap Z (list Z) :=
  foldl (fun m bo => delete (bo_va bo) m) m bos.

Definition after_release (w : world) (bos : list winsys_bo) : world :=
  World (unmap (mem w) (drop (cache_room w) bos)) (ib_cache w ++ take (cache_room w) bos)
        (creates w) (maps w).

Lemma lookup_unmap_ne m bos va : va ∉ bo_va <$> bos -> unmap m bos !! va = m !! va.
Proof.
  revert m. induction bos as [|bo bos IH]; intros m; [done|]. cbn [fmap list_fmap].
  intros [Hne Hn]%not_elem_of_cons. simpl. rewrite IH by done. by apply lookup_delete_ne.
Qed.

Lemma lookup_unmap m bos va : va ∈ bo_va <$> bos -> unmap m bos !! va = None.
Proof.
  revert m. induction bos as [|bo bos IH]; intros m; [by intros ?%not_elem_of_nil|]. simpl.
  destruct (decide (va ∈ bo_va <$> bos)) as [Hin|Hn]; [intros _; by apply IH|].
  intros [->|?]%elem_of_cons; [|done]. rewrite lookup_unmap_ne by done. apply lookup_delete_eq.
Qed.

Lemma release_ibs_exact ibs bos w :
  ib_bo <$> ibs = Some <$> bos -> NoDup (bo_va <$> bos) ->
  Forall (fun bo => is_Some (mem w !! bo_va bo)) bos ->
  release_ibs ws ibs w = Some (after_release w bos).
Proof.
  revert bos w. induction ibs as [|ib ibs IH]; intros [|bo bos] w He Hnd Hm; try discriminate He.
  { unfold after_release. rewrite drop_nil, take_nil, app_nil_r. by destruct w. }
  injection He as Hb He. apply NoDup_cons in Hnd as [Hn Hnd].
  apply Forall_cons in Hm as [Hl Hm]. simpl. rewrite Hb.
  assert (cache_room w = 0%nat ->
    (let! w := buffer_destroy w bo ;; release_ibs ws ibs w) = Some (after_release w (bo :: bos))) as Hd.
  { intros Hr. unfold buffer_destroy. destruct Hl as [l ->]. simpl. rewrite (IH bos); [|done..|].
    - unfold after_release. change (cache_room (with_mem w _)) with (cache_room w).
      by rewrite Hr.
    - apply Forall_forall. intros b Hin. rewrite Forall_forall in Hm. simpl.
      rewrite lookup_delete_ne; [by apply Hm|]. intros E. apply Hn. rewrite E.
      by apply list_elem_of_fmap_2. }
  unfold cache_room in Hd. unfold radv_xclipse_ib_cache_put.
  destruct (Nat.ltb_spec (length (ib_cache w)) 64) as [Hlt|Hge], (gfx11_shader_core ws) eqn:Hg;
    simpl; try (apply Hd; lia).
  rewrite (IH bos) by done. unfold after_release, cache_room. rewrite Hg. simpl.
  rewrite length_app. simpl.
  replace (64 - length (ib_cache w))%nat with (S (64 - (length (ib_cache w) + 1))) by lia.
  simpl. by rewrite <- app_assoc.
Qed.

Lemma ibs_bos ibs segs :
  Forall2 ib_of_seg ibs segs ->
  exists bos, ib_bo <$> ibs = Some <$> bos /\ bo_va <$> bos = s_va <$> segs.
Proof.
  induction 1 as [|ib s ibs segs (_ & _ & bo & Hbo & Hva & _) _ (bos & E1 & E2)]; [by exists []|].
  exists (bo :: bos). split; [change (ib_bo ib :: (ib_bo <$> ibs) = Some bo :: (Some <$> bos))|
    change (bo_va bo :: (bo_va <$> bos) = s_va s :: (s_va <$> segs))]; congruence.
Qed.

Lemma reset_releases nb w cs segs s cs' w' :
  cs_closed w cs segs s -> world_ok k nb w -> radv_amdgpu_cs_reset ws k cs w = Some (cs', w') ->
  exists bos last_bo, ib_bo <$> ib_buffers cs = Some <$> (bos ++ [last_bo])
    /\ NoDup (bo_va <$> (ib_cache w ++ bos ++ [last_bo]))
    /\ Forall (fun bo => is_Some (mem w !! bo_va bo)) bos
    /\ w' = after_release w bos /\ ib_buffer cs' = Some last_bo.
Proof.
  intros Hcl Hw. pose proof Hcl as [[] Hnone _ _ _ _ _ _ Hnd _ Hcache Hlive].
  destruct (ibs_bos _ _ ci_ibs0) as (all & Hall & Hva).
  destruct all as [|last_bo bos _] using rev_ind.
  { rewrite fmap_app in Hva. simpl in Hva. by destruct (s_va <$> segs). }
  assert (Forall (fun bo => is_Some (mem w !! bo_va bo)) (bos ++ [last_bo])) as Hm.
  { apply Forall_forall. intros bo Hin. assert (Some bo ∈ ib_bo <$> ib_buffers cs) as Hib
      by (rewrite Hall; by apply list_elem_of_fmap_2).
    apply list_elem_of_fmap in Hib as (ib & Hbo & Hib). rewrite Forall_forall in Hlive.
    destruct (Hlive ib Hib bo (eq_sym Hbo)) as [_ (l & Hl & _)]. by exists l. }
  apply Forall_app in Hm as [Hm _]. rewrite <- Hva in Hnd.
  rewrite fmap_app in Hall. apply fmap_app_inv in Hall as (ibs & l2 & Hbos & Hlast & Hibs).
  destruct l2 as [|ib [|]]; try discriminate Hlast. injection Hlast as Hbo.
  unfold radv_amdgpu_cs_reset. simpl. rewrite Hnone, Hibs.
  rewrite cassert_bind by (by destruct ibs).
  unfold radv_amdgpu_restore_last_ib. simpl. rewrite Hibs, last_snoc. simpl.
  rewrite <- Hbo, cassert_bind by (apply bool_decide_eq_true; by exists last_bo). simpl.
  rewrite length_app, Nat.add_1_r. simpl. rewrite take_app_length.
  match goal with |- context [radv_amdgpu_cs_add_buffer k ?c last_bo] => set (cs1 := c) end.
  destruct (add_buffer_ok cs1 last_bo) as (b & -> & Hb); [done|by apply reset_buffers_wf|]. simpl.
  assert (NoDup (bo_va <$> bos)) as Hnd' by (rewrite fmap_app in Hnd; by apply NoDup_app in Hnd as [? _]).
  rewrite (release_ibs_exact ibs bos w) by done. simpl. intros [= <- <-].
  exists bos, last_bo. split_and!; [rewrite !fmap_app, Hbos; simpl; by rewrite Hbo| |done|done|by destruct (chain_ib cs)].
  rewrite fmap_app. apply NoDup_app. split_and!; [apply Hw| |done].
  intros va (b' & -> & Hb')%list_elem_of_fmap. rewrite Hva. by apply Hcache.
Qed.

Lemma open_empty w cs : cs_open w cs [] [] -> cdw (base cs) = 0.
Proof.
  intros Ho. destruct (co_buf _ _ _ _ Ho) as (l & _ & Hlen & Ht), (co_dw _ _ _ _ Ho) as [Hc _].
  apply (f_equal length) in Ht. rewrite length_take in Ht. simpl in Ht. lia.
Qed.

(** Whatever one stream does, another one that is finalized stays as it is. *)
Lemma closed_away w w' cs segs s live live' :
  cs_closed w cs segs s -> isolated w live w' live' ->
  (forall va, va ∈ s_va <$> (segs ++ [s]) -> va ∉ live) ->
  cs_closed w' cs segs s /\ (forall va, va ∈ s_va <$> (segs ++ [s]) -> va ∉ live').
Proof.
  intros Hcl Hiso Hdis.
  assert (forall va, va ∈ s_va <$> (segs ++ [s]) ->
                     mem w' !! va = mem w !! va /\ away w' live' va) as Hall.
  { intros va Hva. apply Hiso. split_and!; [by eapply closed_seg_mapped| |by apply Hdis].
    intros (b & -> & Hb)%list_elem_of_fmap. by apply (cc_cache _ _ _ _ Hcl b). }
  split; [|intros va Hva; by apply Hall in Hva as (_ & _ & _ & ?)].
  pose proof Hcl as []. destruct cc_va0 as [Hva Hn].
  assert (mem w' !! s_va s = mem w !! s_va s) as Hs
    by (apply Hall; rewrite fmap_app; simpl; set_solver).
  split; try done.
  - by rewrite <- Hva, Hs, Hva.
  - eapply linked_frame; [|done]. intros va Hv. apply Hall. rewrite fmap_app. set_solver.
  - unfold fetch in *. by rewrite Hs.
  - intros b Hb Hin. apply Hall in Hin as (_ & _ & Hnc & _). apply Hnc.
    by apply list_elem_of_fmap_2.
  - apply Forall_forall. intros ib Hib bo Hbo. rewrite Forall_forall in cc_live0.
    destruct (cc_live0 ib Hib bo Hbo) as [Hr (l & Hl & Hlen)]. split; [done|]. exists l.
    apply list_elem_of_lookup in Hib as [i Hi].
    destruct (Forall2_lookup_l _ _ _ _ _ (ci_ibs _ _ cc_inv0) Hi)
      as (s0 & Hs0 & _ & _ & b' & Hb' & Hv' & _).
    rewrite Hbo in Hb'. injection Hb' as <-. split; [|done].
    destruct (Hall (bo_va bo)) as [-> _]; [|done]. rewrite Hv'.
    by eapply list_elem_of_fmap_2, list_elem_of_lookup_2.
Qed.

(** A finalized stream with the given packets. *)
Lemma make_stream nb w ip secondary ops :
  world_ok k nb w -> (nb + 1 + length ops <= k_limit k)%nat ->
  is_pm4_ip ip = true -> Forall op_ok ops ->
  exists cs w' segs s,
    (let! (c, w) := radv_amdgpu_cs_create ws k w ip secondary ;;
     let! cs := c ;;
     let! (cs, w) := record ops cs w ;;
     radv_amdgpu_cs_finalize ws k cs w) = Some (cs, w')
    /\ cs_closed w' cs segs s /\ world_ok k (nb + 1 + length ops) w'
    /\ isolated w [] w' (s_va <$> (segs ++ [s]))
    /\ hw_ip cs = ip /\ is_secondary cs = secondary
    /\ chain_ib cs = ws_chain_ib ws && negb (secondary && negb (can_chain_ib2 ws))
    /\ (length segs <= length ops)%nat
    /\ visible (bodies segs ++ s_body s) = visible (concat (snd <$> ops)).
Proof.
  intros Hw Hlim Hip Hops.
  destruct (create_spec nb w ip secondary Hip Hw ltac:(lia))
    as (cs0 & w0 & -> & Ho0 & Hw0 & Hip0 & Hsec0 & Hch0 & Hi0).
  destruct (record_spec (S nb) ops w0 cs0 [] [] Ho0 Hw0 ltac:(lia) Hops)
    as (cs1 & w1 & segs & cur & E1 & Ho1 & Hw1 & Hi1 & (Hk1 & Hk2 & Hk3) & Hl1 & Hr).
  destruct (finalize_spec _ w1 cs1 segs cur Ho1 Hw1)
    as (cs2 & w2 & s & E2 & Hcl & Hi2 & Hw2 & Hv & Hk4 & Hk5 & Hk6).
  cbn [mbind option_bind]. rewrite E1. cbn [mbind option_bind].
  exists cs2, w2, segs, s. split_and!; [done|done| | |congruence|congruence|congruence|done|].
  - by replace (nb + 1 + length ops)%nat with (S nb + length ops)%nat by lia.
  - eapply isolated_trans; [exact Hi0|]. by eapply isolated_trans.
  - rewrite visible_app, Hv, <- visible_app. exact Hr.
Qed.

(** C1: a command stream executes what was recorded, as long as there is memory for it.
    For any sequence of reservations of at most 262140 dwords, each with packets that
    fit it, on a graphics or compute queue of an environment where allocations and
    mappings succeed and which has memory for one IB per reservation: creating,
    recording and finalizing the stream succeeds without a failed assertion or a write
    outside a mapped IB, and the command processor, starting from the IBs the driver
    submits and following the chain links, executes exactly the recorded packets in
    order, however often the stream had to grow.  (Without memory for the next IB
    recording does fault, [grow_out_of_memory_faults].) *)
Theorem recording_executes (nb : nat) (w : world) (ip : amd_ip_type) (secondary : bool)
    (ops : list (Z * list (list Z))) :
  world_ok k nb w -> (nb + 1 + length ops <= k_limit k)%nat ->
  is_pm4_ip ip = true -> Forall op_ok ops ->
  exists cs0 w0 cs1 w1 cs2 w2,
    radv_amdgpu_cs_create ws k w ip secondary = Some (Some cs0, w0)
    /\ record ops cs0 w0 = Some (cs1, w1)
    /\ radv_amdgpu_cs_finalize ws k cs1 w1 = Some (cs2, w2)
    /\ status cs2 = VK_SUCCESS
    /\ executes w2 cs2 (visible (concat (snd <$> ops))).
Proof.
  intros Hw Hlim Hip Hops.
  destruct (create_spec nb w ip secondary Hip Hw ltac:(lia)) as (cs0 & w0 & E0 & Ho0 & Hw0 & _).
  destruct (record_spec (S nb) ops w0 cs0 [] [] Ho0 Hw0 ltac:(lia) Hops)
    as (cs1 & w1 & segs & cur & E1 & Ho1 & Hw1 & _ & _ & _ & Hr).
  destruct (finalize_spec _ w1 cs1 segs cur Ho1 Hw1) as (cs2 & w2 & s & E2 & Hcl & _ & _ & Hv & _).
  exists cs0, w0, cs1, w1, cs2, w2. split_and!; [done|done|done|apply Hcl|].
  apply closed_executes in Hcl. rewrite visible_app, Hv, <- visible_app in Hcl.
  unfold recorded_packets in Hr. by rewrite Hr in Hcl.
Qed.

(** What happened to a BO of an earlier IB: it was mapped and not in the cache, and now
    either the cache holds it, still mapped, or it is destroyed and not in the cache. *)
Definition released_once (w w' : world) (bo : winsys_bo) : Prop :=
  is_Some (mem w !! bo_va bo) /\ (bo_va bo ∉ bo_va <$> ib_cache w) /\
  ((bo ∈ ib_cache w' /\ mem w' !! bo_va bo = mem w !! bo_va bo)
   \/ ((bo_va bo ∉ bo_va <$> ib_cache w') /\ mem w' !! bo_va bo = None)).

Lemma after_release_once w bos last_bo :
  NoDup (bo_va <$> (ib_cache w ++ bos ++ [last_bo])) ->
  Forall (fun bo => is_Some (mem w !! bo_va bo)) bos ->
  Forall (released_once w (after_release w bos)) bos
  /\ NoDup (bo_va <$> ib_cache (after_release w bos))
  /\ (forall va, va ∉ bo_va <$> bos -> mem (after_release w bos) !! va = mem w !! va).
Proof.
  rewrite !fmap_app. intros (Hnc & Hdis & Hnb)%NoDup_app Hm. apply NoDup_app in Hnb as (Hnb & _ & _).
  rewrite <- (take_drop (cache_room w) bos), fmap_app in Hnb.
  apply NoDup_app in Hnb as (Hnt & Htd & Hnd).
  assert (forall va, va ∈ bo_va <$> bos -> va ∉ bo_va <$> ib_cache w) as Hout
    by (intros va Hv Hc; apply (Hdis va Hc); set_solver).
  assert (bo_va <$> bos = (bo_va <$> take (cache_room w) bos) ++ (bo_va <$> drop (cache_room w) bos))
    as Hs by by rewrite <- fmap_app, take_drop.
  split_and!.
  - apply Forall_forall. intros bo Hin. rewrite Forall_forall in Hm.
    split; [by apply Hm|]. split; [by apply Hout, list_elem_of_fmap_2|]. unfold after_release. simpl.
    rewrite <- (take_drop (cache_room w) bos) in Hin. apply elem_of_app in Hin as [Hin|Hin].
    + left. split; [set_solver|]. apply lookup_unmap_ne. by apply Htd, list_elem_of_fmap_2.
    + right. split; [|by apply lookup_unmap, list_elem_of_fmap_2]. rewrite fmap_app.
      apply (list_elem_of_fmap_2 bo_va) in Hin. intros [Hc|Ht]%elem_of_app.
      * apply (Hout (bo_va bo)); [|done]. rewrite Hs. set_solver.
      * by apply (Htd _ Ht).
  - simpl. rewrite fmap_app. apply NoDup_app. split_and!; [done| |done].
    intros va Hc Ht. apply (Hout va); [|done]. rewrite Hs. set_solver.
  - intros va Hn. apply lookup_unmap_ne. rewrite Hs in Hn. set_solver.
Qed.

(** C32: resetting a finalized stream releases the BO of every IB but the last exactly
    once: each was mapped and is afterwards either parked in the cache, where no BO is
    twice, or destroyed, never both and never neither; the cache takes as many as it
    has room for (none before the GFX11 shader core); the last one becomes the IB being
    filled, and no other memory changes.  The stream then records again from scratch:
    what it executes is the second recording alone.  As for C1 the stream is of a
    graphics or compute queue, every allocation and mapping the two recordings make
    succeeds, and no reservation is larger than 262140 dwords. *)
Theorem reset_records_again (nb : nat) (w : world) (ip : amd_ip_type) (secondary : bool)
    (ops ops' : list (Z * list (list Z))) :
  world_ok k nb w -> (nb + 1 + length ops + length ops' <= k_limit k)%nat ->
  is_pm4_ip ip = true -> Forall op_ok ops -> Forall op_ok ops' ->
  exists cs1 w1 bos last_bo cs w' cs' w'',
    (let! (c, w) := radv_amdgpu_cs_create ws k w ip secondary ;;
     let! cs := c ;;
     let! (cs, w) := record ops cs w ;;
     radv_amdgpu_cs_finalize ws k cs w) = Some (cs1, w1)
    /\ ib_bo <$> ib_buffers cs1 = Some <$> (bos ++ [last_bo])
    /\ radv_amdgpu_cs_reset ws k cs1 w1 = Some (cs, w')
    /\ (Forall (released_once w1 w') bos /\ NoDup (bo_va <$> ib_cache w')
        /\ ib_cache w' = ib_cache w1 ++ take (cache_room w1) bos
        /\ (forall va, va ∉ bo_va <$> bos -> mem w' !! va = mem w1 !! va))
    /\ ib_buffer cs = Some last_bo /\ ib_buffers cs = [] /\ cdw (base cs) = 0
    /\ (let! (cs, w) := record ops' cs w' ;;
        radv_amdgpu_cs_finalize ws k cs w) = Some (cs', w'')
    /\ executes w'' cs' (visible (concat (snd <$> ops'))).
Proof.
  intros Hw Hlim Hip Hops Hops'.
  destruct (make_stream nb w ip secondary ops Hw ltac:(lia) Hip Hops)
    as (cs1 & w1 & segs & s & E1 & Hcl & Hw1 & _).
  destruct (reset_spec _ w1 cs1 segs s Hcl Hw1) as (cs & w2 & E2 & Ho & Hw2 & _).
  destruct (reset_releases _ w1 cs1 segs s cs w2 Hcl Hw1 E2)
    as (bos & last_bo & Hbos & Hnd & Hm & -> & Hlast).
  destruct (record_spec _ ops' _ cs [] [] Ho Hw2 ltac:(lia) Hops')
    as (cs4 & w4 & segs' & cur' & E4 & Ho4 & Hw4 & _ & _ & _ & Hr).
  destruct (finalize_spec _ w4 cs4 segs' cur' Ho4 Hw4) as (cs5 & w5 & s' & E5 & Hcl' & _ & _ & Hv & _).
  destruct (after_release_once w1 bos last_bo Hnd Hm) as (H1 & H2 & H3).
  exists cs1, w1, bos, last_bo, cs, (after_release w1 bos), cs5, w5. rewrite E4. cbn [mbind option_bind].
  split_and!; try done.
  - by eapply Forall2_nil_inv_r, (ci_ibs _ _ (co_inv _ _ _ _ Ho)).
  - by eapply open_empty.
  - apply closed_executes in Hcl'. rewrite visible_app, Hv, <- visible_app in Hcl'.
    unfold recorded_packets in Hr. by rewrite Hr in Hcl'.
Qed.

(** * Chaining finalized streams *)

(** [cs'] is finalized and none of its IBs is one of [live]. *)
Definition other_stream (w : world) (cs' : radv_amdgpu_cs) (live : list Z) : Prop :=
  exists segs' s', cs_closed w cs' segs' s'
    /\ forall va, va ∈ s_va <$> (segs' ++ [s']) -> va ∉ live.

Lemma chain_word_target va n (pre : bool) :
  0 <= va < W64 -> 0 <= n <= IB_SIZE_MAX ->
  let p := [PKT3 PKT3_INDIRECT_BUFFER 2 0; addr_lo va; addr_hi va;
            lors [S_3F3_CHAIN 1; S_3F3_VALID 1; S_3F3_PRE_ENA (b2z pre); n]] in
  framed p /\ chain_target p = Some (va, n).
Proof.
  intros Hva Hn p. unfold IB_SIZE_MAX in Hn. split; [apply framed_PKT3; [done|lia|done]|].
  unfold p, chain_target, ib_target, is_indirect_buffer.
  rewrite PKT3_type, PKT3_opcode by done.
  change ((3 =? 3) && (PKT3_INDIRECT_BUFFER =? PKT3_INDIRECT_BUFFER)) with true. cbv iota.
  rewrite addr_roundtrip by done.
  unfold lors, G_3F3_CHAIN, G_3F3_IB_SIZE, S_3F3_CHAIN, S_3F3_VALID, S_3F3_PRE_ENA. cbn [foldr].
  rewrite !G_lor, G_S_same, !G_S_other, !G_field_0 by lia.
  rewrite G_field_self, G_field_high by (change (2 ^ 20) with 1048576; lia).
  by rewrite ?Z.lor_0_r, ?Z.lor_0_l, ?Z.lor_0_r.
Qed.

(** Where a finalized stream starts, as [cs_chain] reads it. *)
Lemma closed_start w cs segs s :
  cs_closed w cs segs s -> chain_ib cs = true ->
  0 <= ib_mc_address cs < W64 /\ 0 <= ib_size cs <= IB_SIZE_MAX
  /\ runs (mem w) (ib_mc_address cs) (ib_size cs) (visible (bodies segs ++ s_body s)).
Proof.
  intros Hcl Hch. pose proof (closed_last_runs _ _ _ _ Hcl Hch) as Hr.
  destruct Hcl. rewrite Hch in *. specialize (cc_first0 eq_refl).
  pose proof (ci_segs _ _ cc_inv0) as Hok. apply Forall_app in Hok as [Hok Hs].
  apply Forall_inv in Hs as (Hsva & Hsn & _).
  eapply chain_executes in Hr as [Hr _]; [|done..].
  assert (0 <= (first_of segs (s_va s) (s_n s)).1 < W64
          /\ 0 <= (first_of segs (s_va s) (s_n s)).2 <= IB_SIZE_MAX) as Hrange
    by (destruct Hok as [|s0 ? (? & ? & ?)]; simpl; unfold IB_SIZE_MAX; lia).
  rewrite <- cc_first0 in Hr, Hrange. simpl in *. rewrite visible_app.
  destruct Hrange as [H1 H2]. split; [exact H1|]. split; [exact H2|exact Hr].
Qed.

(** The last IB of a finalized stream with another end in its last four dwords. *)
Lemma patched_executes w cs segs s l' p out :
  cs_closed w cs segs s -> chain_ib cs = true ->
  let m := <[s_va s := l']> (mem w) in
  fetch m (s_va s) (s_n s) = Some (concat (s_body s) ++ p) ->
  runs m (s_va s) (s_n s) out ->
  forall cs' w', mem w' = m -> cs_inv cs' (segs ++ [s]) -> chain_ib cs' = true ->
  executes w' cs' (visible (bodies segs) ++ out).
Proof.
  intros Hcl Hch m Hf Hr cs' w' Hm Hi Hch'. destruct Hcl. rewrite Hch in *.
  apply chain_executes with (s := s); rewrite ?Hm; try done.
  eapply linked_frame; [|done]. intros va Hva. unfold m. rewrite lookup_insert_ne; [done|].
  intros <-. rewrite fmap_app in cc_nodup0. apply NoDup_app in cc_nodup0 as (_ & Hd & _).
  apply (Hd _ Hva). simpl. set_solver.
Qed.

(** Rewriting the last IB leaves another stream as it is. *)
Lemma other_closed w (live : list Z) next segs' s' va l l' :
  cs_closed w next segs' s' ->
  (forall va, va ∈ s_va <$> (segs' ++ [s']) -> va ∉ live) -> va ∈ live ->
  mem w !! va = Some l -> length l' = length l ->
  cs_closed (with_mem w (<[va := l']> (mem w))) next segs' s'.
Proof.
  intros Hcln Hdis Hin Hlk Hlen. eapply closed_frame; [exact Hcln| |done|simpl; eauto with radv].
  intros va' Hin'. simpl. rewrite lookup_insert_ne; [done|]. intros <-. by apply (Hdis _ Hin').
Qed.

Lemma chain_step w cs segs s next pre segs' s' :
  cs_closed w cs segs s -> chain_ib cs = true -> chain_ib next = true ->
  cs_closed w next segs' s' ->
  (forall va, va ∈ s_va <$> (segs' ++ [s']) -> va ∉ s_va <$> (segs ++ [s])) ->
  exists l l1 p, mem w !! s_va s = Some l /\ length l1 = length l /\ length p = 4%nat
    /\ let w1 := with_mem w (<[s_va s := l1]> (mem w)) in
       let cs1 := with_chained_to cs (Some (ib_mc_address next)) in
       radv_amdgpu_cs_chain cs w next pre = Some (true, cs1, w1)
       /\ fetch (mem w1) (s_va s) (s_n s) = Some (concat (s_body s) ++ p)
       /\ executes w1 cs1 (visible (bodies segs ++ s_body s) ++ visible (bodies segs' ++ s_body s'))
       /\ cs_closed w1 next segs' s'.
Proof.
  intros Hcl Hch Hchn Hcln Hdis.
  pose proof (closed_start w next segs' s' Hcln Hchn) as (Hva & Hsz & _).
  pose proof Hcl as [Hi _ _ [Hsva Hsn] Hmax _ Hl (e & Hf & He) Hnd _ _ _]. rewrite Hch in He.
  destruct He as (junk & -> & Hj). pose proof (ci_max _ _ Hi) as [Hm18 _].
  pose proof (ci_segs _ _ Hi) as Hok. apply Forall_app in Hok as [_ Hs].
  apply Forall_inv in Hs as (_ & Hn & Hb). unfold IB_SIZE_MAX in Hn.
  destruct (chain_word_target (ib_mc_address next) (ib_size next) pre Hva Hsz) as [Hfr Ht].
  destruct (patch_end w (s_va s) (s_n s) (concat (s_body s)) (PKT3 PKT3_NOP 2 0 :: junk)
    (PKT3 PKT3_INDIRECT_BUFFER 2 0) (addr_lo (ib_mc_address next)) (addr_hi (ib_mc_address next))
    (lors [S_3F3_CHAIN 1; S_3F3_VALID 1; S_3F3_PRE_ENA (b2z pre); ib_size next]))
    as (l & l1 & Hlk & Hlen & Est & Hf1); [done|simpl; lia|unfold W32 in *; lia|].
  assert (cs_closed (with_mem w (<[s_va s := l1]> (mem w))) next segs' s') as Hcln1.
  { eapply other_closed; [done..| |done|done]. rewrite fmap_app. simpl. set_solver. }
  eexists l, l1, [_; _; _; _]. do 3 (split; [done|]). split; [|split; [exact Hf1|split]].
  - unfold radv_amdgpu_cs_chain. rewrite Hch. cbn [negb].
    rewrite (u32_small (max_dw (base cs) + 4)) by (unfold_words; lia).
    pass_assert. rewrite <- Hsva, <- Hsn.
    destruct (store w _ _ _) as [w1|]; [|done]. cbn [mbind option_bind] in *.
    destruct (store w1 _ _ _) as [w2|]; [|done]. cbn [mbind option_bind] in *.
    destruct (store w2 _ _ _) as [w3|]; [|done]. cbn [mbind option_bind] in *.
    by rewrite Est.
  - destruct (closed_start _ _ _ _ Hcln1 Hchn) as (_ & _ & Hrun).
    rewrite visible_app, <- app_assoc.
    eapply patched_executes; [exact Hcl|done|exact Hf1| |done|by destruct Hi|done].
    by eapply runs_jump.
  - done.
Qed.

Lemma unchain_step w cs segs s next segs' s' l l1 p c :
  cs_closed w cs segs s -> chain_ib cs = true -> cs_closed w next segs' s' ->
  (forall va, va ∈ s_va <$> (segs' ++ [s']) -> va ∉ s_va <$> (segs ++ [s])) ->
  mem w !! s_va s = Some l -> length l1 = length l -> length p = 4%nat ->
  let w1 := with_mem w (<[s_va s := l1]> (mem w)) in
  fetch (mem w1) (s_va s) (s_n s) = Some (concat (s_body s) ++ p) ->
  exists w2, radv_amdgpu_cs_unchain (with_chained_to cs (Some c)) w1
             = Some (with_chained_to cs None, w2)
    /\ executes w2 (with_chained_to cs None) (visible (bodies segs ++ s_body s))
    /\ cs_closed w2 next segs' s'.
Proof.
  intros Hcl Hch Hcln Hdis Hlk Hlen Hp w1 Hf1.
  pose proof Hcl as [Hi _ _ [Hsva Hsn] Hmax _ _ _ _ _ _ _].
  pose proof (ci_max _ _ Hi) as [Hm18 _]. pose proof (ci_segs _ _ Hi) as Hok.
  apply Forall_app in Hok as [_ Hs]. apply Forall_inv in Hs. pose proof Hs as (_ & Hn & _).
  pose proof Hf1 as (l1' & Hl1 & Hr & Heq)%fetch_Some. simpl in Hl1.
  rewrite lookup_insert_eq in Hl1. injection Hl1 as <-.
  destruct p as [|x [|y [|z [|v [|]]]]]; try done.
  assert (Z.to_nat (s_n s - 4) = length (concat (s_body s))) as Hidx.
  { apply (f_equal length) in Heq. rewrite length_app, length_take in Heq. simpl in Heq. lia. }
  set (l2 := <[Z.to_nat (s_n s - 4) := PKT3 PKT3_NOP 2 0]> l1).
  assert (length l2 = length l) as Hlen2 by (unfold l2; by rewrite length_insert).
  exists (with_mem w (<[s_va s := l2]> (mem w))). split; [|split].
  - unfold radv_amdgpu_cs_unchain. cbn [chained_to with_chained_to base].
    unfold IB_SIZE_MAX in Hn. rewrite !u32_small by (unfold_words; lia). pass_assert.
    rewrite <- Hsva, <- Hsn, (store_ok w1 _ _ _ l1); [|simpl; apply lookup_insert_eq|lia].
    cbn [mbind option_bind]. simpl. rewrite insert_insert_eq. by destruct cs.
  - assert (fetch (<[s_va s := l2]> (mem w)) (s_va s) (s_n s)
            = Some (concat (s_body s) ++ PKT3 PKT3_NOP 2 0 :: [y; z; v])) as Hf2.
    { apply fetch_Some. exists l2. rewrite lookup_insert_eq. split; [done|].
      split; [unfold l2; rewrite length_insert; lia|]. unfold l2.
      rewrite take_insert_lt by lia. rewrite <- Heq, Hidx.
      rewrite insert_app_r_alt, Nat.sub_diag by lia. done. }
    rewrite visible_app.
    eapply patched_executes; [exact Hcl|done|exact Hf2| |done|by destruct Hi|done].
    eapply end_runs; [done|exact Hf2|]. by eexists.
  - eapply other_closed; [done..| |done|done]. rewrite fmap_app. simpl. set_solver.
Qed.

(** C31: chaining a finalized stream to another one makes the command processor
    execute the packets of the first and then those of the second, from a
    submission of the first alone, and leaves the second unchanged; unchaining
    restores what the first stream executes on its own. *)
Theorem chain_unchain_executes (w : world) (cs : radv_amdgpu_cs) (segs : list seg) (s : seg)
    (next : radv_amdgpu_cs) (pre : bool) :
  cs_closed w cs segs s -> chain_ib cs = true -> chain_ib next = true ->
  other_stream w next (s_va <$> (segs ++ [s])) ->
  exists cs' w' cs'' w'' ps out,
    executes w cs ps /\ executes w next out
    /\ radv_amdgpu_cs_chain cs w next pre = Some (true, cs', w')
    /\ executes w' cs' (ps ++ out) /\ executes w' next out
    /\ radv_amdgpu_cs_unchain cs' w' = Some (cs'', w'')
    /\ executes w'' cs'' ps /\ executes w'' next out.
Proof.
  intros Hcl Hch Hchn (segs' & s' & Hcln & Hdis).
  destruct (chain_step w cs segs s next pre segs' s')
    as (l & l1 & p & Hlk & Hlen & Hp & E & Hf & Hex & Hcln1); [done..|].
  destruct (unchain_step w cs segs s next segs' s' l l1 p (ib_mc_address next))
    as (w2 & E2 & Hex2 & Hcln2); [done..|].
  eexists _, _, _, w2, _, _. split_and!; [by apply closed_executes|by apply closed_executes|exact E
    |exact Hex|by apply closed_executes|exact E2|exact Hex2|by apply closed_executes].
Qed.

End Record.

(** * A concrete environment *)

Definition demo_ws : cs_winsys_info :=
  Winsys GFX11 true true false true (fun _ => 256) (fun _ => 7).

(** BO [n] lives at address [(n + 1) << 32]; there is memory for 1024 BOs. *)
Definition demo_kernel : kernel :=
  Kernel (fun n sz => if (n <? 1024)%nat then
                        Some (Bo ((Z.of_nat n + 1) * 2 ^ 32) sz (Z.of_nat n + 1) 0 false false)
                      else None)
         (fun _ _ => 0xdeadbeef) (fun _ => true) (fun _ => true) 1024.

Definition demo_world : world := World ∅ [] 0 0.

Lemma demo_ws_ok : ws_ok demo_ws.
Proof. split; intros ip Hip; [done|]. by exists 8. Qed.

Lemma demo_kernel_ok : kernel_ok demo_kernel.
Proof.
  split; simpl; [done|done| |].
  - intros n sz Hn Hsz. rewrite (proj2 (Nat.ltb_lt n 1024)) by lia.
    eexists. split; [done|]. simpl. unfold_words. lia.
  - intros n n' sz sz' b b'. destruct (Nat.ltb_spec n 1024); [|done].
    destruct (Nat.ltb_spec n' 1024); [|done]. intros [= <-] [= <-]. simpl. lia.
Qed.

Lemma demo_world_ok : world_ok demo_kernel 0 demo_world.
Proof. split; simpl; [lia|done|constructor|apply NoDup_nil_2]. Qed.

(** A small packet, and one that does not fit beside it in the first IB. *)
Definition demo_ops : list (Z * list (list Z)) :=
  [(9, [ac_emit_cp_nop 1; ac_emit_cp_wait_mem 0x1000 1 0xff 3]);
   (30000, [ac_emit_cp_write_data_imm 1 0x2000 5])].

Lemma demo_ops_ok : Forall op_ok demo_ops.
Proof.
  constructor; [split; [vm_compute; split; intros H; discriminate H|]|];
    [|constructor; [split; [vm_compute; split; intros H; discriminate H|]|constructor]].
  all: repeat (constructor; [split; vm_compute; reflexivity|]); constructor.
Qed.

Lemma recording_executes_witness :
  exists cs0 w0 cs1 w1 cs2 w2,
    radv_amdgpu_cs_create demo_ws demo_kernel demo_world AMD_IP_GFX false = Some (Some cs0, w0)
    /\ record demo_ws demo_kernel demo_ops cs0 w0 = Some (cs1, w1)
    /\ radv_amdgpu_cs_finalize demo_ws demo_kernel cs1 w1 = Some (cs2, w2)
    /\ status cs2 = VK_SUCCESS
    /\ executes w2 cs2 (visible (concat (snd <$> demo_ops))).
Proof.
  apply (recording_executes demo_ws demo_kernel demo_ws_ok demo_kernel_ok 0).
  - apply demo_world_ok.
  - simpl. lia.
  - reflexivity.
  - apply demo_ops_ok.
Defined.

Lemma reset_records_again_witness :
  exists cs1 w1 bos last_bo cs w' cs' w'',
    (let! (c, w) := radv_amdgpu_cs_create demo_ws demo_kernel demo_world AMD_IP_COMPUTE true ;;
     let! cs := c ;;
     let! (cs, w) := record demo_ws demo_kernel demo_ops cs w ;;
     radv_amdgpu_cs_finalize demo_ws demo_kernel cs w) = Some (cs1, w1)
    /\ ib_bo <$> ib_buffers cs1 = Some <$> (bos ++ [last_bo])
    /\ radv_amdgpu_cs_reset demo_ws demo_kernel cs1 w1 = Some (cs, w')
    /\ (Forall (released_once w1 w') bos /\ NoDup (bo_va <$> ib_cache w')
        /\ ib_cache w' = ib_cache w1 ++ take (cache_room demo_ws w1) bos
        /\ (forall va, va ∉ bo_va <$> bos -> mem w' !! va = mem w1 !! va))
    /\ ib_buffer cs = Some last_bo /\ ib_buffers cs = [] /\ cdw (base cs) = 0
    /\ (let! (cs, w) := record demo_ws demo_kernel demo_ops cs w' ;;
        radv_amdgpu_cs_finalize demo_ws demo_kernel cs w) = Some (cs', w'')
    /\ executes w'' cs' (visible (concat (snd <$> demo_ops))).
Proof.
  apply (reset_records_again demo_ws demo_kernel demo_ws_ok demo_kernel_ok 0).
  - apply demo_world_ok.
  - simpl. lia.
  - reflexivity.
  - apply demo_ops_ok.
  - apply demo_ops_ok.
Defined.

(** Two streams recorded one after the other in the same winsys. *)
Lemma chain_unchain_executes_witness :
  exists cs next w cs' w' ps out,
    chain_ib cs = true
    /\ radv_amdgpu_cs_chain cs w next true = Some (true, cs', w')
    /\ executes w cs ps /\ executes w next out /\ executes w' cs' (ps ++ out).
Proof.
  destruct (make_stream demo_ws demo_kernel demo_ws_ok demo_kernel_ok 0 demo_world AMD_IP_GFX false
              demo_ops demo_world_ok ltac:(simpl; lia) eq_refl demo_ops_ok)
    as (cs & w1 & segs & s & _ & Hcl & Hw1 & _ & _ & _ & Hch & _).
  destruct (make_stream demo_ws demo_kernel demo_ws_ok demo_kernel_ok _ w1 AMD_IP_GFX false
              demo_ops Hw1 ltac:(simpl; lia) eq_refl demo_ops_ok)
    as (next & w2 & segs' & s' & _ & Hcln & Hw2 & Hiso & _ & _ & Hchn & _).
  destruct (closed_away demo_ws demo_kernel demo_ws_ok demo_kernel_ok w1 w2 cs segs s [] _ Hcl Hiso) as [Hcl2 Hdis].
  { intros va _. apply not_elem_of_nil. }
  destruct (chain_unchain_executes demo_ws demo_kernel demo_ws_ok demo_kernel_ok
              w2 cs segs s next true Hcl2 Hch Hchn) as (cs' & w' & _ & _ & ps & out & H1 & H2 & H3 & H4 & _).
  { exists segs', s'. split; [exact Hcln|]. intros va Hva Hin. by apply (Hdis va). }
  exists cs, next, w2, cs', w', ps, out. by split_and!.
Defined.

(** * Running out of device memory *)

(** When no IB can be created, [grow] resets [cdw] to 0 and goes on to patch the four
    dwords before [buf + cdw]: the write is outside the IB, whatever the stream. *)
Theorem grow_out_of_memory_faults (ws : cs_winsys_info) (k : kernel) (cs cs1 : radv_amdgpu_cs)
    (w w1 w2 : world) (n : Z) :
  status cs = VK_SUCCESS -> chain_ib cs1 = true ->
  radv_amdgpu_cs_finalize ws k cs w = Some (cs1, w1) ->
  radv_amdgpu_cs_bo_create ws k cs1 w1 (grow_size ws cs1 n) = (None, w2) ->
  (forall p l, mem w2 !! p = Some l -> Z.of_nat (length l) < 2 ^ 31) ->
  radv_amdgpu_cs_grow ws k cs w n = None.
Proof.
  intros Hs Hch Hf Hc Hlen. unfold radv_amdgpu_cs_grow.
  rewrite bool_decide_false by (by intros []). rewrite Hf. cbn [mbind option_bind]. rewrite Hc.
  assert (forall c c', radv_amdgpu_restore_last_ib c = Some c' ->
            base c' = base c /\ chain_ib c' = chain_ib c /\ status c' = status c) as Hrestore.
  { intros c c'. unfold radv_amdgpu_restore_last_ib. destruct (last _) as [ib|]; [simpl|done].
    destruct (bool_decide _); [simpl|done]. by intros [= <-]. }
  destruct (radv_amdgpu_restore_last_ib _) as [c1|] eqn:E1; [cbn [mbind option_bind]|done].
  apply Hrestore in E1 as (Hb1 & Hc1 & Hs1). simpl in Hb1, Hc1, Hs1.
  destruct (ib_buffer c1) as [bo|]; [cbn [mbind option_bind]|done].
  unfold radv_buffer_map. cbv beta iota zeta.
  assert (forall w' p v, (forall p l, mem w' !! p = Some l -> Z.of_nat (length l) < 2 ^ 31) ->
            store w' p (u32 (0 - 4)) v = None) as Hstore.
  { intros w' p v Hl. unfold store. destruct (mem w' !! p) as [l|] eqn:El; [simpl|done].
    specialize (Hl p l El). change (u32 (0 - 4)) with 4294967292.
    by rewrite (proj2 (Z.ltb_ge _ _)) by lia. }
  assert (forall c b w' v, base c = base (with_cdw cs1 0) -> chain_ib c = true ->
    status c = VK_ERROR_OUT_OF_DEVICE_MEMORY ->
    (forall p l, mem w' !! p = Some l -> Z.of_nat (length l) < 2 ^ 31) ->
    radv_amdgpu_cs_add_buffer k c b = Some c
    /\ store w' (buf (base c)) (u32 (cdw (base c) - 4)) v = None) as Hfault.
  { intros c b w' v Hb Hch' Hst Hl. unfold radv_amdgpu_cs_add_buffer.
    rewrite bool_decide_true by (by rewrite Hst). rewrite Hb. split; [done|]. by apply Hstore. }
  set (w3 := World (mem w2) (ib_cache w2) (creates w2) (S (maps w2))).
  destruct (k_map k (maps w2)).
  - cbn [mbind option_bind]. destruct (ib_buffer c1) as [bo'|]; [cbn [mbind option_bind]|done].
    destruct (Hfault c1 bo' w3 (PKT3 PKT3_INDIRECT_BUFFER 2 0)) as [-> Hst]; [exact Hb1|congruence|done|done|].
    cbn [mbind option_bind]. rewrite Hc1, Hch, Hst. done.
  - unfold buffer_destroy. destruct (mem w3 !! bo_va bo); [cbn [mbind option_bind]|done].
    destruct (radv_amdgpu_restore_last_ib _) as [c2|] eqn:E2; [cbn [mbind option_bind]|done].
    apply Hrestore in E2 as (Hb2 & Hc2 & Hs2). simpl in Hb2, Hc2, Hs2. rewrite Hb1 in Hb2.
    destruct (ib_buffer c2) as [bo'|]; [cbn [mbind option_bind]|done].
    destruct (Hfault c2 bo' (with_mem w3 (delete (bo_va bo) (mem w3)))
                (PKT3 PKT3_INDIRECT_BUFFER 2 0)) as [-> Hst]; [exact Hb2|congruence|done| |].
    { intros p l' Hl. simpl in Hl. apply lookup_delete_Some in Hl as [_ Hl]. by eapply Hlen. }
    cbn [mbind option_bind]. rewrite Hc2, Hc1, Hch, Hst. done.
Qed.

(** There is memory for the first IB only. *)
Definition oom_kernel : kernel :=
  Kernel (fun n sz => if (n <? 1)%nat then k_create demo_kernel n sz else None)
         (fun _ _ => 0xdeadbeef) (fun _ => true) (fun _ => true) 1.

Definition oom_demo : bool :=
  match radv_amdgpu_cs_create demo_ws oom_kernel demo_world AMD_IP_GFX false with
  | Some (Some cs, w) =>
      match radv_amdgpu_cs_finalize demo_ws oom_kernel cs w with
      | Some (cs1, w1) =>
          match radv_amdgpu_cs_bo_create demo_ws oom_kernel cs1 w1 (grow_size demo_ws cs1 30000) with
          | (None, w2) =>
              bool_decide (status cs = VK_SUCCESS) && chain_ib cs1
              && bool_decide (map_Forall (fun _ l => Z.of_nat (length l) < 2 ^ 31) (mem w2))
          | _ => false
          end
      | _ => false
      end
  | _ => false
  end.

Lemma grow_out_of_memory_faults_witness :
  exists cs w,
    radv_amdgpu_cs_create demo_ws oom_kernel demo_world AMD_IP_GFX false = Some (Some cs, w)
    /\ radv_amdgpu_cs_grow demo_ws oom_kernel cs w 30000 = None.
Proof.
  assert (oom_demo = true) as H by (vm_compute; reflexivity). unfold oom_demo in H.
  destruct (radv_amdgpu_cs_create _ _ _ _ _) as [[[cs|] w]|] eqn:E; try discriminate H.
  destruct (radv_amdgpu_cs_finalize _ _ _ _) as [[cs1 w1]|] eqn:E1; try discriminate H.
  destruct (radv_amdgpu_cs_bo_create _ _ _ _ _) as [[?|] w2] eqn:E2; try discriminate H.
  apply andb_prop in H as [H H3]. apply andb_prop in H as [H1 H2].
  apply bool_decide_eq_true_1 in H1, H3.
  exists cs, w. split; [reflexivity|].
  by apply (grow_out_of_memory_faults demo_ws oom_kernel cs cs1 w w1 w2).
Defined.
