(* ===== verification/CsSecondary.v ===== *)
(** Secondary command streams (radv_amdgpu_cs_execute_secondary): executing a child
    by nested indirect buffers (IB2) and by copying its packets into the parent are
    both shown to make the command processor execute the child's packets in place. *)

From stdpp Require Import gmap.
From S2P Require Import Prelude Pm4 CsBuffers WinsysCs CsExec CsRecord.

(** * IB2 on the command processor *)

(** An INDIRECT_BUFFER packet without the CHAIN bit runs the IB it names and comes
    back. *)
Fixpoint expand (fuel : nat) (m : gmap Z (list Z)) (ps : list (list Z))
  : option (list (list Z)) :=
  match ps with
  | [] => Some []
  | p :: ps =>
      let! a := match ib_target p with
                | Some (va, n, false) => cp_exec fuel m va n
                | _ => Some [p]
                end ;;
      let! b := expand fuel m ps ;;
      Some (a ++ b)
  end.

(** What a stream executes, IB2 included. *)
Definition executes_ib2 (w : world) (cs : radv_amdgpu_cs) (out : list (list Z)) : Prop :=
  exists f0, forall f, (f0 <= f)%nat ->
    (let! ps := executed f (mem w) cs ;; expand f (mem w) ps) = Some out.

(** Packets that call no IB. *)
Definition no_calls (ps : list (list Z)) : Prop := Forall (fun p => ib_target p = None) ps.

Lemma expand_app f m ps qs a b :
  expand f m ps = Some a -> expand f m qs = Some b -> expand f m (ps ++ qs) = Some (a ++ b).
Proof.
  revert a. induction ps as [|p ps IH]; intros a Ha Hb; simpl in *; [by injection Ha as <-|].
  destruct (match ib_target p with Some (va, n, false) => cp_exec f m va n | _ => Some [p] end)
    as [x|]; [|done]. simpl in *.
  destruct (expand f m ps) as [y|]; [|done]. simpl in *. injection Ha as <-.
  rewrite (IH y) by done. simpl. by rewrite app_assoc.
Qed.

Lemma expand_no_calls f m ps : no_calls ps -> expand f m ps = Some ps.
Proof. induction 1 as [|p ps Hp _ IH]; [done|]. simpl. rewrite Hp. simpl. by rewrite IH. Qed.

Definition ib2_packet (va n : Z) : list Z := ac_emit_cp_indirect_buffer va n 0 false.

Lemma ib2_packet_spec va n :
  0 <= va < W64 -> 0 <= n <= IB_SIZE_MAX ->
  plain (ib2_packet va n) /\ ib_target (ib2_packet va n) = Some (va, n, false)
  /\ is_nop (ib2_packet va n) = false.
Proof.
  intros Hva Hn. unfold IB_SIZE_MAX in Hn.
  unfold ib2_packet, ac_emit_cp_indirect_buffer. change (has 0 _) with false. cbv iota zeta.
  change (Z.lor 0 0) with 0. rewrite Z.lor_0_r.
  assert (dw n = n) as -> by (apply u32_small; unfold_words; lia).
  assert (ib_target [PKT3 PKT3_INDIRECT_BUFFER 2 (b2z false); addr_lo va; addr_hi va; n]
          = Some (va, n, false)) as Ht.
  { unfold ib_target, is_indirect_buffer. rewrite PKT3_type, PKT3_opcode by done.
    change ((3 =? 3) && (PKT3_INDIRECT_BUFFER =? PKT3_INDIRECT_BUFFER)) with true. cbv iota.
    rewrite addr_roundtrip by done. unfold G_3F3_IB_SIZE, G_3F3_CHAIN.
    by rewrite G_field_self, G_field_high by (change (2 ^ 20) with 1048576; lia). }
  split_and!; [split; [apply framed_PKT3; [done|lia|done]|by unfold chain_target; rewrite Ht]|done|].
  unfold is_nop. by rewrite PKT3_type, PKT3_opcode by done.
Qed.

Lemma expand_call f m va n out :
  0 <= va < W64 -> 0 <= n <= IB_SIZE_MAX -> cp_exec f m va n = Some out ->
  expand f m [ib2_packet va n] = Some out.
Proof.
  intros Hva Hn Hr. destruct (ib2_packet_spec va n Hva Hn) as (_ & Ht & _).
  cbn [expand]. rewrite Ht, Hr. cbn [mbind option_bind]. by rewrite app_nil_r.
Qed.

(** * The contents of a finalized stream *)

Definition tail_len (chain : bool) : Z := if chain then 4 else 0.

(** Every IB holds its packets and a link (or the space for one). *)
Lemma closed_contents w cs segs s s0 :
  cs_closed w cs segs s -> s0 ∈ segs ++ [s] ->
  exists t, fetch (mem w) (s_va s0) (s_n s0) = Some (concat (s_body s0) ++ t)
    /\ Z.of_nat (length t) = tail_len (chain_ib cs).
Proof.
  intros Hcl. rewrite elem_of_app, list_elem_of_singleton. intros [Hin| ->].
  - pose proof (cc_linked _ _ _ _ Hcl) as Hl. clear Hcl.
    induction segs as [|s1 segs IH]; [by apply not_elem_of_nil in Hin|].
    destruct Hl as [Hf Hl]. apply elem_of_cons in Hin as [->|Hin]; [|by apply IH].
    eexists. split; [exact Hf|]. by destruct (chain_ib cs).
  - destruct (cc_last _ _ _ _ Hcl) as (e & Hf & He). exists e. split; [done|].
    destruct (chain_ib cs); simpl in *; [|by rewrite He].
    destruct He as (junk & -> & Hj). simpl. lia.
Qed.

Section Secondary.
Context (ws : cs_winsys_info) (k : kernel).
Context (Hws : ws_ok ws) (Hk : kernel_ok k).
#[local] Set Default Proof Using "All".

Lemma open_with_buffers w cs segs cur b :
  cs_open w cs segs cur -> buffers_wf b -> cs_open w (with_buffers cs b) segs cur.
Proof. intros [[]] Hb. by split. Qed.

Lemma add_child_buffers_spec w parent segs cur l :
  cs_open w parent segs cur ->
  exists b, add_child_buffers k parent l = Some (with_buffers parent b)
    /\ cs_open w (with_buffers parent b) segs cur.
Proof.
  revert parent. induction l as [|e l IH]; intros parent Ho; simpl.
  { exists (buffers parent). split; [by destruct parent|]. apply open_with_buffers; [done|].
    apply (co_inv _ _ _ _ Ho). }
  pose proof (ci_bufs _ _ (co_inv _ _ _ _ Ho)) as Hwf.
  destruct (add_buffer_internal_spec (k_host k) (buffers parent) (bo_handle e) (bo_priority e) Hwf)
    as (b & ok & -> & Hwf' & _ & Hf). simpl.
  assert (ok = true) as ->.
  { destruct ok; [done|]. destruct (Hf eq_refl) as (_ & _ & _ & Hno).
    by rewrite (ko_host _ Hk) in Hno. }
  destruct (IH (with_buffers parent b)) as (b' & E & Ho'); [by apply open_with_buffers|].
  exists b'. split; [|exact Ho'].
  replace (with_status (with_buffers parent b) (status parent)) with (with_buffers parent b)
    by (by destruct parent). exact E.
Qed.

Lemma grow_if_needed_spec nb w cs segs cur n :
  cs_open w cs segs cur -> world_ok k nb w -> (nb < k_limit k)%nat -> 0 <= n <= 2 ^ 18 - 4 ->
  exists cs' w' segs' cur', grow_if_needed ws k cs w n = Some (cs', w')
    /\ cs_open w' cs' segs' cur' /\ world_ok k (S nb) w'
    /\ isolated w (live_of cs segs) w' (live_of cs' segs')
    /\ recorded_packets segs' cur' = recorded_packets segs cur
    /\ same_kind cs cs' /\ cdw (base cs') + n <= reserved_dw (base cs')
    /\ (length segs' <= S (length segs))%nat.
Proof.
  intros Ho Hw Hlim Hn. unfold grow_if_needed. pose proof (co_dw _ _ _ _ Ho) as Hdw.
  pose proof (ci_max _ _ (co_inv _ _ _ _ Ho)) as Hm.
  rewrite (u32_small (cdw (base cs) + n)) by (unfold_words; lia).
  apply reserve_spec; [done..|]. lia.
Qed.

(** ** By IB2 *)

Definition ib_ranges (ib : radv_amdgpu_ib) : Prop :=
  0 <= ib_va ib < W64 /\ 0 <= ib_cdw ib <= IB_SIZE_MAX.

Lemma emit_ib2_spec nb ibs w cs segs cur :
  cs_open w cs segs cur -> world_ok k nb w -> (nb + length ibs <= k_limit k)%nat ->
  Forall ib_ranges ibs ->
  exists cs' w' segs' cur', emit_ib2 ws k ibs cs w = Some (cs', w')
    /\ cs_open w' cs' segs' cur' /\ world_ok k (nb + length ibs) w'
    /\ isolated w (live_of cs segs) w' (live_of cs' segs')
    /\ recorded_packets segs' cur'
       = recorded_packets segs cur ++ ((fun ib => ib2_packet (ib_va ib) (ib_cdw ib)) <$> ibs).
Proof.
  intros Ho Hw Hlim Hr. revert nb w cs segs cur Ho Hw Hlim.
  induction Hr as [|ib ibs [Hva Hn] _ IH]; intros nb w cs segs cur Ho Hw Hlim.
  { exists cs, w, segs, cur. split_and!; [done|done|by rewrite Nat.add_0_r|apply isolated_refl|].
    by rewrite app_nil_r. }
  simpl in Hlim. destruct (grow_if_needed_spec nb w cs segs cur 4 Ho Hw ltac:(lia) ltac:(lia))
    as (cs1 & w1 & segs1 & cur1 & E1 & Ho1 & Hw1 & Hi1 & Hr1 & _ & Hres & _).
  destruct (ib2_packet_spec _ _ Hva Hn) as (Hp & _ & Hnop).
  destruct (emit_open ws k Hws Hk w1 cs1 segs1 cur1 [ib2_packet (ib_va ib) (ib_cdw ib)] Ho1)
    as (cs2 & w2 & E2 & Ha & Ho2); [by constructor|simpl; lia|].
  destruct (IH (S nb) w2 cs2 segs1 _ Ho2 ltac:(by eapply appended_world) ltac:(lia))
    as (cs3 & w3 & segs3 & cur3 & E3 & Ho3 & Hw3 & Hi3 & Hr3).
  exists cs3, w3, segs3, cur3. cbn [emit_ib2]. rewrite E1. cbn [mbind option_bind].
  change (concat [ib2_packet (ib_va ib) (ib_cdw ib)])
    with (ac_emit_cp_indirect_buffer (ib_va ib) (ib_cdw ib) 0 false) in E2. rewrite E2.
  cbn [mbind option_bind]. pose proof (co_dw _ _ _ _ Ho2) as Hdw. pass_assert.
  split_and!; [done|done| | |].
  - simpl. by replace (nb + S (length ibs))%nat with (S nb + length ibs)%nat by lia.
  - eapply isolated_trans; [done|]. eapply isolated_trans; [by eapply appended_isolated|done].
  - rewrite Hr3. unfold recorded_packets in *. rewrite app_assoc, visible_app, Hr1.
    unfold visible at 2. rewrite filter_cons_True, filter_nil by done.
    by rewrite <- app_assoc.
Qed.

(** ** By copying *)

Lemma copy_ib_spec w cs segs cur src n ps t :
  cs_open w cs segs cur -> Forall plain ps ->
  fetch (mem w) src n = Some (concat ps ++ t) ->
  cdw (base cs) + Z.of_nat (length (concat ps)) <= reserved_dw (base cs) ->
  exists cs' w', copy_ib cs w src (Z.of_nat (length (concat ps))) = Some (cs', w')
    /\ appended cs w (concat ps) cs' w' /\ cs_open w' cs' segs (cur ++ ps).
Proof.
  intros Ho Hps Hf Hr. apply fetch_Some in Hf as (l & Hl & Hn & Heq).
  destruct (co_buf _ _ _ _ Ho) as (lb & Hlb & Hlen & _), (co_dw _ _ _ _ Ho) as [Hc Hres].
  assert (take (length (concat ps)) l = concat ps) as Htake.
  { replace (take (length (concat ps)) l)
      with (take (length (concat ps)) (take (Z.to_nat n) l)).
    - by rewrite <- Heq, take_app_length.
    - rewrite take_take, Nat.min_l; [done|]. apply (f_equal length) in Heq.
      rewrite length_app, length_take in Heq. lia. }
  assert (length (concat ps) <= length l)%nat as Hle.
  { rewrite <- Htake at 1. rewrite length_take. lia. }
  assert (appended cs w (concat ps) (with_cdw cs (cdw (base cs) + Z.of_nat (length (concat ps))))
    (with_mem w (<[buf (base cs) := list_inserts (Z.to_nat (cdw (base cs))) (concat ps) lb]> (mem w))))
    as Ha.
  { exists lb, (list_inserts (Z.to_nat (cdw (base cs))) (concat ps) lb).
    split_and!; [done|done|apply length_inserts|done|apply take_inserts; lia]. }
  eexists _, _. split; [|split; [exact Ha|by eapply open_appended]].
  unfold copy_ib. rewrite Hl. cbn [mbind option_bind]. pass_assert.
  rewrite Nat2Z.id, Htake, (stores_ok _ _ _ _ lb) by (done || lia). cbn [mbind option_bind].
  rewrite u32_small; [done|]. unfold_words. lia.
Qed.

(** The IBs still to be copied are intact and not the parent's. *)
Definition copyable (chain : bool) (w : world) (live : list Z) (s : seg) : Prop :=
  away w live (s_va s) /\ s_n s <= 2 ^ 18 - 4 + tail_len chain /\ seg_ok s
  /\ exists t, fetch (mem w) (s_va s) (s_n s) = Some (concat (s_body s) ++ t)
               /\ Z.of_nat (length t) = tail_len chain.

Lemma copyable_isolated chain w live w' live' s :
  isolated w live w' live' -> copyable chain w live s -> copyable chain w' live' s.
Proof.
  intros Hiso (Ha & Hn & Hok & t & Hf & Ht). destruct (Hiso _ Ha) as [Em Ha'].
  do 3 (split; [done|]). exists t. split; [|done].
  unfold fetch in *. by rewrite Em.
Qed.

Lemma copyable_length chain w s t :
  fetch (mem w) (s_va s) (s_n s) = Some (concat (s_body s) ++ t) ->
  Z.of_nat (length t) = tail_len chain ->
  s_n s = Z.of_nat (length (concat (s_body s))) + tail_len chain.
Proof.
  intros (l & _ & Hr & Heq)%fetch_Some Ht. apply (f_equal length) in Heq.
  rewrite length_app, length_take in Heq. lia.
Qed.

Lemma copy_secondary_spec chain ibs child nb w cs segs cur :
  Forall2 ib_of_seg ibs child ->
  cs_open w cs segs cur -> world_ok k nb w -> (nb + length ibs <= k_limit k)%nat ->
  Forall (copyable chain w (live_of cs segs)) child ->
  exists cs' w' segs' cur', copy_secondary ws k chain ibs cs w = Some (cs', w')
    /\ cs_open w' cs' segs' cur' /\ world_ok k (nb + length ibs) w'
    /\ isolated w (live_of cs segs) w' (live_of cs' segs')
    /\ recorded_packets segs' cur' = recorded_packets segs cur ++ visible (bodies child).
Proof.
  intros HF. revert nb w cs segs cur.
  induction HF as [|ib s ibs child (Hva & Hn & bo & Hbo & Hbva & _) _ IH];
    intros nb w cs segs cur Ho Hw Hlim Hc.
  { exists cs, w, segs, cur. split_and!; [done|done|by rewrite Nat.add_0_r|apply isolated_refl|].
    by rewrite app_nil_r. }
  simpl in Hlim. apply Forall_cons in Hc as [Hs Hc].
  pose proof Hs as (_ & Hsmall & (_ & Hsn & Hplain) & t & Hf & Ht).
  pose proof (copyable_length chain w s t Hf Ht) as Hlen.
  assert ((if chain then u32 (ib_cdw ib - 4) else ib_cdw ib)
          = Z.of_nat (length (concat (s_body s)))) as En.
  { rewrite Hn, Hlen. unfold tail_len in *. destruct chain; [|lia].
    rewrite u32_small; [lia|]. unfold_words. lia. }
  destruct (grow_if_needed_spec nb w cs segs cur (Z.of_nat (length (concat (s_body s)))) Ho Hw
    ltac:(lia)) as (cs1 & w1 & segs1 & cur1 & E1 & Ho1 & Hw1 & Hi1 & Hr1 & _ & Hres & _); [lia|].
  pose proof (copyable_isolated _ _ _ _ _ _ Hi1 Hs) as (_ & _ & _ & t1 & Hf1 & _).
  set (w1' := World (mem w1) (ib_cache w1) (creates w1) (S (maps w1))).
  assert (cs_open w1' cs1 segs1 cur1) as Ho1' by (by destruct Ho1).
  assert (world_ok k (S nb) w1') as Hw1' by (by destruct Hw1).
  destruct (copy_ib_spec w1' cs1 segs1 cur1 (s_va s) (s_n s) (s_body s) t1 Ho1' Hplain Hf1 Hres)
    as (cs2 & w2 & E2 & Ha & Ho2).
  assert (isolated w (live_of cs segs) w2 (live_of cs2 segs1)) as Hi2.
  { eapply isolated_trans; [exact Hi1|]. by eapply (appended_isolated ws k Hws Hk cs1 w1'). }
  destruct (IH (S nb) w2 cs2 segs1 (cur1 ++ s_body s) Ho2)
    as (cs3 & w3 & segs3 & cur3 & E3 & Ho3 & Hw3 & Hi3 & Hr3);
    [by eapply appended_world|lia|eapply Forall_impl; [exact Hc|]; intros; by eapply copyable_isolated|].
  exists cs3, w3, segs3, cur3. cbn [copy_secondary]. rewrite En, Hbo. cbn [mbind option_bind].
  rewrite E1. cbn [mbind option_bind]. unfold radv_buffer_map. rewrite (ko_map _ Hk), Hbva.
  cbv beta iota zeta. fold w1'. rewrite E2. cbn [mbind option_bind].
  split_and!; [done|done| | |].
  - simpl. by replace (nb + S (length ibs))%nat with (S nb + length ibs)%nat by lia.
  - by eapply isolated_trans.
  - rewrite Hr3. unfold recorded_packets, bodies in *. simpl.
    rewrite (app_assoc (concat _) cur1), (visible_app _ (s_body s)), Hr1, <- app_assoc.
    by rewrite <- visible_app.
Qed.

(** ** Both ways *)

(** A parent being recorded beside a finalized child. *)
Record parent_child (nb : nat) (w : world) (parent child : radv_amdgpu_cs)
    (segs : list seg) (cur : list (list Z)) (csegs : list seg) (cs_last : seg) : Prop := {
  pc_open : cs_open w parent segs cur;
  pc_child : cs_closed w child csegs cs_last;
  pc_world : world_ok k nb w;
  pc_room : (nb + S (length csegs) <= k_limit k)%nat;
  pc_apart : forall va, va ∈ s_va <$> (csegs ++ [cs_last]) -> va ∉ live_of parent segs;
  pc_chain : can_chain_ib2 ws || negb (chain_ib child) = true;
  pc_small : chain_ib child = false -> Forall (fun s => s_n s <= 2 ^ 18 - 4) (csegs ++ [cs_last]);
  pc_calls : no_calls (recorded_packets segs cur)
             /\ no_calls (visible (bodies (csegs ++ [cs_last])))
}.

Lemma pc_copyable nb w parent child segs cur csegs s :
  parent_child nb w parent child segs cur csegs s ->
  Forall (copyable (chain_ib child) w (live_of parent segs)) (csegs ++ [s]).
Proof.
  intros []. apply Forall_forall. intros s0 Hs0.
  assert (s_va s0 ∈ s_va <$> (csegs ++ [s])) as Hin by (by apply list_elem_of_fmap_2).
  pose proof (ci_segs _ _ (cc_inv _ _ _ _ pc_child0)) as Hok. rewrite Forall_forall in Hok.
  split; [split_and!|split; [|split]].
  - by eapply (closed_seg_mapped ws k Hws Hk).
  - intros (b & Heq & Hb)%list_elem_of_fmap. apply (cc_cache _ _ _ _ pc_child0 b Hb).
    by rewrite <- Heq.
  - by apply pc_apart0.
  - destruct (chain_ib child) eqn:Hch; simpl.
    + destruct (Hok s0 Hs0) as (_ & ? & _). lia.
    + specialize (pc_small0 eq_refl). rewrite Forall_forall in pc_small0.
      specialize (pc_small0 s0 Hs0). simpl in pc_small0. lia.
  - by apply Hok.
  - by eapply closed_contents.
Qed.

Lemma pc_length nb w parent child segs cur csegs s :
  parent_child nb w parent child segs cur csegs s -> length (ib_buffers child) = S (length csegs).
Proof.
  intros []. pose proof (Forall2_length _ _ _ (ci_ibs _ _ (cc_inv _ _ _ _ pc_child0))) as Hl.
  rewrite length_app in Hl. simpl in Hl. lia.
Qed.

(** The IB2 packets of a child. *)
Definition calls (child : radv_amdgpu_cs) : list (list Z) :=
  (fun ib => ib2_packet (ib_va ib) (ib_cdw ib)) <$> submitted_ibs child.

Lemma submitted_ranges w child csegs s :
  cs_closed w child csegs s -> Forall ib_ranges (submitted_ibs child).
Proof.
  intros Hcl. pose proof (ci_segs _ _ (cc_inv _ _ _ _ Hcl)) as Hok.
  assert (Forall ib_ranges (ib_buffers child)) as Hall.
  { apply Forall_forall. intros ib Hib. apply list_elem_of_lookup in Hib as [i Hi].
    destruct (Forall2_lookup_l _ _ _ _ _ (ci_ibs _ _ (cc_inv _ _ _ _ Hcl)) Hi)
      as (s0 & Hs0 & Hva & Hn & _).
    rewrite Forall_lookup in Hok. destruct (Hok _ _ Hs0) as (? & ? & _).
    unfold ib_ranges, IB_SIZE_MAX. rewrite Hva, Hn. lia. }
  unfold submitted_ibs. destruct (chain_ib child); [by apply Forall_take|done].
Qed.

Lemma expand_calls f m ibs out :
  Forall ib_ranges ibs -> exec_ibs f m ibs = Some out ->
  expand f m ((fun ib => ib2_packet (ib_va ib) (ib_cdw ib)) <$> ibs) = Some out.
Proof.
  intros Hr. revert out. induction Hr as [|ib ibs [Hva Hn] _ IH]; intros out; [done|].
  pose proof (ib2_packet_spec _ _ Hva Hn) as (_ & Ht & _). rewrite fmap_cons.
  cbn [exec_ibs expand]. rewrite Ht.
  destruct (cp_exec f m (ib_va ib) (ib_cdw ib)) as [a|]; [cbn [mbind option_bind]|done].
  destruct (exec_ibs f m ibs) as [b|]; [cbn [mbind option_bind]|done].
  intros [= <-]. by rewrite (IH b eq_refl).
Qed.

(** The parent after [execute_secondary]: with the child's packets, or calls to it. *)
Lemma execute_secondary_spec nb w parent child segs cur csegs s allow_ib2 :
  parent_child nb w parent child segs cur csegs s ->
  exists cs' w' segs' cur' nb',
    radv_amdgpu_cs_execute_secondary ws k parent child w allow_ib2 = Some (cs', w')
    /\ cs_open w' cs' segs' cur' /\ world_ok k nb' w'
    /\ isolated w (live_of parent segs) w' (live_of cs' segs')
    /\ (recorded_packets segs' cur' = recorded_packets segs cur ++ visible (bodies (csegs ++ [s]))
        \/ recorded_packets segs' cur' = recorded_packets segs cur ++ calls child).
Proof.
  intros Hpc. pose proof (pc_length _ _ _ _ _ _ _ _ Hpc) as Hlen.
  pose proof (pc_copyable _ _ _ _ _ _ _ _ Hpc) as Hcopy. destruct Hpc.
  unfold radv_amdgpu_cs_execute_secondary.
  rewrite !bool_decide_false
    by (intros []; first [apply (co_inv _ _ _ _ pc_open0)|apply (cc_inv _ _ _ _ pc_child0)]).
  cbn [orb]. destruct (add_child_buffers_spec w parent segs cur (handles (buffers child)) pc_open0)
    as (b & -> & Hob). cbn [mbind option_bind]. cbv zeta.
  destruct (negb (is_secondary parent) && allow_ib2 && ip_eq (hw_ip parent) AMD_IP_GFX).
  - pose proof (submitted_ranges _ _ _ _ pc_child0) as Hrng.
    assert (length (submitted_ibs child) <= S (length csegs))%nat as Hsub.
    { unfold submitted_ibs. destruct (chain_ib child); [rewrite length_take|]; lia. }
    destruct (emit_ib2_spec nb (submitted_ibs child) w _ segs cur Hob pc_world0 ltac:(lia) Hrng)
      as (cs' & w' & segs' & cur' & E & Ho' & Hw' & Hi' & Hr').
    eexists cs', w', segs', cur', _. split; [|split_and!; [done|exact Hw'|done|by right]].
    unfold radv_amdgpu_cs_emit_secondary_ib2. rewrite pc_chain0. cbn [cassert mbind option_bind].
    unfold submitted_ibs in E. destruct (chain_ib child); [|done].
    destruct (ib_buffers child) as [|ib l]; [done|]. done.
  - destruct (copy_secondary_spec (chain_ib child) (ib_buffers child) (csegs ++ [s]) nb w _ segs cur
      (ci_ibs _ _ (cc_inv _ _ _ _ pc_child0)) Hob pc_world0 ltac:(lia) Hcopy)
      as (cs' & w' & segs' & cur' & E & Ho' & Hw' & Hi' & Hr').
    eexists cs', w', segs', cur', _. split_and!; [exact E|done|exact Hw'|done|by left].
Qed.

(** C16: executing a secondary stream from a parent works the same whether it is
    called as an IB2 or copied: once the parent is finalized, the command processor
    executes the packets the parent had recorded followed by the child's packets, in
    order; the child's own IBs are left as they were, so it can be executed again. *)
Theorem execute_secondary_executes (nb : nat) (w : world) (parent child : radv_amdgpu_cs)
    (segs : list seg) (cur : list (list Z)) (csegs : list seg) (s : seg) (allow_ib2 : bool) :
  parent_child nb w parent child segs cur csegs s ->
  exists cs1 w1 cs2 w2 out,
    executes w child out
    /\ radv_amdgpu_cs_execute_secondary ws k parent child w allow_ib2 = Some (cs1, w1)
    /\ radv_amdgpu_cs_finalize ws k cs1 w1 = Some (cs2, w2)
    /\ executes_ib2 w2 cs2 (recorded_packets segs cur ++ out)
    /\ executes w2 child out.
Proof.
  intros Hpc. set (out := visible (bodies (csegs ++ [s]))).
  destruct (execute_secondary_spec nb w parent child segs cur csegs s allow_ib2 Hpc)
    as (cs1 & w1 & segs1 & cur1 & nb1 & E1 & Ho1 & Hw1 & Hi1 & Hr1).
  destruct (finalize_spec ws k Hws Hk nb1 w1 cs1 segs1 cur1 Ho1 Hw1)
    as (cs2 & w2 & s2 & E2 & Hcl2 & Hi2 & _ & Hv & _). destruct Hpc.
  destruct (closed_away ws k Hws Hk w w2 child csegs s _ _ pc_child0
    (isolated_trans _ _ _ _ _ _ Hi1 Hi2) pc_apart0) as [Hcc2 _].
  pose proof (closed_executes ws k Hws Hk _ _ _ _ pc_child0) as Hex.
  pose proof (closed_executes ws k Hws Hk _ _ _ _ Hcc2) as Hex2.
  pose proof (closed_executes ws k Hws Hk _ _ _ _ Hcl2) as [f1 Hex1].
  rewrite <- bodies_snoc in Hex, Hex2. fold out in Hex, Hex2.
  exists cs1, w1, cs2, w2, out. split_and!; [done|done|done| |done].
  rewrite visible_app, Hv, <- visible_app in Hex1. fold (recorded_packets segs1 cur1) in Hex1.
  destruct Hex2 as [f2 Hex2], pc_calls0 as [Hnp Hnc]. exists (f1 + f2)%nat. intros f Hle.
  rewrite Hex1 by lia. cbn [mbind option_bind]. destruct Hr1 as [->| ->].
  - apply expand_app; by apply expand_no_calls.
  - apply expand_app; [by apply expand_no_calls|]. apply expand_calls.
    + by eapply submitted_ranges.
    + by apply Hex2; lia.
Qed.
End Secondary.

Lemma demo_no_calls : no_calls (visible (concat (snd <$> demo_ops))).
Proof. repeat (constructor; [vm_compute; reflexivity|]). constructor. Qed.

Lemma execute_secondary_executes_witness :
  exists parent child w cs1 w1 cs2 w2 out,
    is_secondary child = true
    /\ radv_amdgpu_cs_execute_secondary demo_ws demo_kernel parent child w true = Some (cs1, w1)
    /\ radv_amdgpu_cs_finalize demo_ws demo_kernel cs1 w1 = Some (cs2, w2)
    /\ executes w child out
    /\ executes_ib2 w2 cs2 (visible (concat (snd <$> demo_ops)) ++ out).
Proof.
  destruct (make_stream demo_ws demo_kernel demo_ws_ok demo_kernel_ok 0 demo_world AMD_IP_GFX true
              demo_ops demo_world_ok ltac:(simpl; lia) eq_refl demo_ops_ok)
    as (child & w1 & csegs & s & _ & Hcl & Hw1 & _ & _ & Hsec & Hch & Hcl_len & Hout).
  destruct (create_spec demo_ws demo_kernel demo_ws_ok demo_kernel_ok _ w1 AMD_IP_GFX false eq_refl
              Hw1 ltac:(simpl; lia)) as (cs0 & w2 & _ & Ho0 & Hw2 & _ & _ & _ & Hi2).
  destruct (record_spec demo_ws demo_kernel demo_ws_ok demo_kernel_ok _ demo_ops w2 cs0 [] [] Ho0
              Hw2 ltac:(simpl; lia) demo_ops_ok)
    as (parent & w3 & segs & cur & _ & Ho & Hw3 & Hi3 & _ & _ & Hr).
  destruct (closed_away demo_ws demo_kernel demo_ws_ok demo_kernel_ok w1 w3 child csegs s _ _ Hcl
              (isolated_trans _ _ _ _ _ _ Hi2 Hi3)) as [Hcl3 Hdis].
  { intros va _. apply not_elem_of_nil. }
  change (recorded_packets [] []) with ([] : list (list Z)) in Hr. rewrite app_nil_l in Hr.
  simpl in Hcl_len.
  eassert (parent_child demo_ws demo_kernel _ w3 parent child segs cur csegs s) as Hpc.
  { split; [exact Ho|exact Hcl3|exact Hw3|simpl; lia|exact Hdis|done|by rewrite Hch|].
    rewrite Hr, bodies_snoc, Hout. split; apply demo_no_calls. }
  destruct (execute_secondary_executes demo_ws demo_kernel demo_ws_ok demo_kernel_ok
              _ w3 parent child segs cur csegs s true Hpc)
    as (cs1 & w4 & cs2 & w5 & out & H1 & H2 & H3 & H4 & _).
  exists parent, child, w3, cs1, w4, cs2, w5, out. rewrite Hr in H4. by split_and!.
Defined.
