(* ===== verification/WinsysSubmit.v ===== *)
(** Submission of command streams to the kernel
    (src/amd/vulkan/winsys/amdgpu/radv_amdgpu_cs.c): the splitting of a list of streams
    into kernel submissions with their preambles and postambles, the chunks of each
    submission, semaphores, the retry loop, and the pacing of graphics jobs on the
    Xclipse 920. *)

From stdpp Require Import gmap.
From S2P Require Import Prelude Pm4 CsBuffers WinsysCs.

(** The value of an enumerator of [amd_ip_type]. *)
Definition ip_index (ip : amd_ip_type) : Z :=
  match ip with
  | AMD_IP_GFX => 0 | AMD_IP_COMPUTE => 1 | AMD_IP_SDMA => 2 | AMD_IP_UVD => 3
  | AMD_IP_VCE => 4 | AMD_IP_UVD_ENC => 5 | AMD_IP_VCN_DEC => 6 | AMD_IP_VCN_ENC => 7
  | AMD_IP_VCN_JPEG => 8 | AMD_IP_VPE => 9
  end.

#[global] Instance amd_ip_type_countable : Countable amd_ip_type.
Proof.
  refine (inj_countable' ip_index
    (fun n => match n with
              | 0 => AMD_IP_GFX | 1 => AMD_IP_COMPUTE | 2 => AMD_IP_SDMA | 3 => AMD_IP_UVD
              | 4 => AMD_IP_VCE | 5 => AMD_IP_UVD_ENC | 6 => AMD_IP_VCN_DEC
              | 7 => AMD_IP_VCN_ENC | 8 => AMD_IP_VCN_JPEG | _ => AMD_IP_VPE
              end) _).
  by intros [].
Defined.

(** * Data *)

(** [struct radv_amdgpu_cs_ib_info] *)
Record radv_amdgpu_cs_ib_info := IbInfo {
  ii_flags : Z; ii_address : Z; ii_size : Z; ii_ip_type : amd_ip_type
}.

(** [struct radv_winsys_sem_counts]: the [syncobj_count] first handles, and the timeline
    handles that follow them with their points. *)
Record radv_winsys_sem_counts := SemCounts {
  sc_syncobj : list Z; sc_timeline : list (Z * Z)
}.

Record radv_winsys_sem_info := SemInfo {
  sem_wait : radv_winsys_sem_counts; sem_signal : radv_winsys_sem_counts;
  cs_emit_wait : bool; cs_emit_signal : bool
}.

(** The chunks of a submission ([struct drm_amdgpu_cs_chunk] with its data).  A timeline
    entry is (handle, flags, point). *)
Inductive cs_chunk :=
| ChunkIb (va_start ib_bytes : Z) (ip_type : amd_ip_type) (ip_instance ring flags : Z)
| ChunkFence (handle offset : Z)
| ChunkSyncobjIn (l : list Z)
| ChunkSyncobjOut (l : list Z)
| ChunkTimelineWait (l : list (Z * Z * Z))
| ChunkTimelineSignal (l : list (Z * Z * Z))
| ChunkBoHandles (l : list bo_list_entry).

(** [struct radv_xclipse_pace]; [seq] is indexed by the parity of a point. *)
Record radv_xclipse_pace := Pace {
  p_syncobj : Z; p_count : Z; p_seq0 : Z; p_seq1 : Z; p_last_ns : Z; p_avg_ns : Z
}.

Definition zero_pace : radv_xclipse_pace := Pace 0 0 0 0 0 0.
Definition p_seq (p : radv_xclipse_pace) (point : Z) : Z :=
  if Z.land point 1 =? 0 then p_seq0 p else p_seq1 p.
Definition set_p_seq (p : radv_xclipse_pace) (point v count : Z) : radv_xclipse_pace :=
  if Z.land point 1 =? 0 then Pace (p_syncobj p) count v (p_seq1 p) (p_last_ns p) (p_avg_ns p)
  else Pace (p_syncobj p) count (p_seq0 p) v (p_last_ns p) (p_avg_ns p).

(** [struct radv_amdgpu_fence] of the last submission on a ring. *)
Record submit_fence := Fence { f_ip_type : amd_ip_type; f_ring : Z; f_seq_no : Z }.

(** The results of the submit ioctl the code tells apart. *)
Inductive errno := EOK | ENOMEM | ECANCELED | ENODATA | ETIME | EOTHER.

#[global] Instance errno_eq_dec : EqDecision errno.
Proof. solve_decision. Defined.

(** [struct radv_amdgpu_ctx], together with the state of the outside world: the monotonic
    clock in nanoseconds, the number of external calls made so far, and the submissions
    the kernel has accepted. *)
Record radv_amdgpu_ctx := Ctx {
  queue_syncobj : gmap (amd_ip_type * Z) Z;
  queue_syncobj_wait : gmap (amd_ip_type * Z) bool;
  last_submission : gmap (amd_ip_type * Z) submit_fence;
  xclipse_pace : gmap Z radv_xclipse_pace;
  now : Z;
  calls : nat;
  accepted : list (list cs_chunk)
}.

(** The kernel and the host allocator: how long the [n]th external call takes and what it
    returns.  [d_expired] is the answer to a fence query, [None] when it fails. *)
Record drm := Drm {
  d_delay : nat -> N;
  d_create_syncobj : nat -> option Z;
  d_malloc : nat -> bool;
  d_expired : nat -> Z -> option bool;
  d_submit : nat -> list cs_chunk -> errno * Z
}.

(** The device properties a submission depends on; [pace_mode] is the result of
    [radv_xclipse_pace_mode], [user_fence] that of [radv_xclipse_user_fence_enabled]. *)
Record submit_info := SubmitInfo {
  has_timeline_syncobj : bool;
  user_fence : bool;
  pace_mode : Z;
  fence_bo : Z;
  max_submitted_ibs : amd_ip_type -> Z
}.

(** [struct radv_amdgpu_cs_request] *)
Record radv_amdgpu_cs_request := Request {
  r_ip_type : amd_ip_type; r_ip_instance : Z; r_ring : Z;
  r_handles : list bo_list_entry; r_ibs : list radv_amdgpu_cs_ib_info
}.

(** * External calls *)

Section Submit.
Context (d : drm) (info : submit_info).

(** One external call: time passes. *)
Definition call (ctx : radv_amdgpu_ctx) : radv_amdgpu_ctx :=
  Ctx (queue_syncobj ctx) (queue_syncobj_wait ctx) (last_submission ctx) (xclipse_pace ctx)
      (now ctx + Z.of_N (d_delay d (calls ctx))) (S (calls ctx)) (accepted ctx).

(** [os_time_sleep]: at least the time asked for. *)
Definition os_time_sleep (usecs : Z) (ctx : radv_amdgpu_ctx) : radv_amdgpu_ctx :=
  let ctx := call ctx in
  Ctx (queue_syncobj ctx) (queue_syncobj_wait ctx) (last_submission ctx) (xclipse_pace ctx)
      (now ctx + usecs * 1000) (calls ctx) (accepted ctx).

Definition malloc (ctx : radv_amdgpu_ctx) : bool * radv_amdgpu_ctx :=
  (d_malloc d (calls ctx), call ctx).

Definition with_queue_syncobj (ctx : radv_amdgpu_ctx) q : radv_amdgpu_ctx :=
  Ctx q (queue_syncobj_wait ctx) (last_submission ctx) (xclipse_pace ctx) (now ctx) (calls ctx)
      (accepted ctx).
Definition with_queue_wait (ctx : radv_amdgpu_ctx) q : radv_amdgpu_ctx :=
  Ctx (queue_syncobj ctx) q (last_submission ctx) (xclipse_pace ctx) (now ctx) (calls ctx)
      (accepted ctx).
Definition with_last_submission (ctx : radv_amdgpu_ctx) l : radv_amdgpu_ctx :=
  Ctx (queue_syncobj ctx) (queue_syncobj_wait ctx) l (xclipse_pace ctx) (now ctx) (calls ctx)
      (accepted ctx).
Definition with_pace (ctx : radv_amdgpu_ctx) (ring : Z) (p : radv_xclipse_pace) : radv_amdgpu_ctx :=
  Ctx (queue_syncobj ctx) (queue_syncobj_wait ctx) (last_submission ctx)
      (<[ring := p]> (xclipse_pace ctx)) (now ctx) (calls ctx) (accepted ctx).
Definition with_accepted (ctx : radv_amdgpu_ctx) l : radv_amdgpu_ctx :=
  Ctx (queue_syncobj ctx) (queue_syncobj_wait ctx) (last_submission ctx) (xclipse_pace ctx)
      (now ctx) (calls ctx) l.

(** The syncobj of a queue, created on first use; 0 when that fails. *)
Definition radv_amdgpu_ctx_queue_syncobj (ctx : radv_amdgpu_ctx) (ip : amd_ip_type) (ring : Z)
  : Z * radv_amdgpu_ctx :=
  let syncobj := default 0 (queue_syncobj ctx !! (ip, ring)) in
  if syncobj =? 0 then
    let syncobj := default 0 (d_create_syncobj d (calls ctx)) in
    let ctx := call ctx in
    (syncobj, with_queue_syncobj ctx (<[(ip, ring) := syncobj]> (queue_syncobj ctx)))
  else (syncobj, ctx).

(** * Semaphore chunks *)

Definition DRM_SYNCOBJ_WAIT_FLAGS_WAIT_FOR_SUBMIT : Z := 2.

(** [None] is a failed allocation. *)
Definition radv_amdgpu_cs_alloc_syncobj_chunk (counts : radv_winsys_sem_counts)
    (queue_syncobj : Z) (mk : list Z -> cs_chunk) (ctx : radv_amdgpu_ctx)
  : option cs_chunk * radv_amdgpu_ctx :=
  let '(ok, ctx) := malloc ctx in
  if (ok : bool) then
    (Some (mk (sc_syncobj counts ++ (if queue_syncobj =? 0 then [] else [queue_syncobj]))), ctx)
  else (None, ctx).

Definition radv_amdgpu_cs_alloc_timeline_syncobj_chunk (counts : radv_winsys_sem_counts)
    (queue_syncobj : Z) (mk : list (Z * Z * Z) -> cs_chunk) (pace_syncobj pace_point : Z)
    (ctx : radv_amdgpu_ctx) : option cs_chunk * radv_amdgpu_ctx :=
  let '(ok, ctx) := malloc ctx in
  if (ok : bool) then
    (Some (mk (((fun h => (h, 0, 0)) <$> sc_syncobj counts)
               ++ ((fun hp => (hp.1, DRM_SYNCOBJ_WAIT_FLAGS_WAIT_FOR_SUBMIT, hp.2))
                     <$> sc_timeline counts)
               ++ (if queue_syncobj =? 0 then [] else [(queue_syncobj, 0, 0)])
               ++ (if pace_syncobj =? 0 then [] else [(pace_syncobj, 0, pace_point)]))), ctx)
  else (None, ctx).

(** * Pacing *)

Definition RADV_XCLIPSE_PACE_MIN_NS : Z := 500000.
Definition MAX_RINGS_PER_TYPE : Z := 8.

Definition pace_of (ctx : radv_amdgpu_ctx) (ring : Z) : radv_xclipse_pace :=
  default zero_pace (xclipse_pace ctx !! ring).

(** The running mean of the submit interval. *)
Definition pace_time (p : radv_xclipse_pace) (t : Z) : radv_xclipse_pace :=
  let dt := Z.min (u64 (t - p_last_ns p)) 100000000 in
  Pace (p_syncobj p) (p_count p) (p_seq0 p) (p_seq1 p) t
       (u64 (u64 (p_avg_ns p - p_avg_ns p / 8) + dt / 8)).

(** [syncobj], [wait_point], [signal_point]. *)
Definition radv_xclipse_pace_begin (ctx : radv_amdgpu_ctx) (request : radv_amdgpu_cs_request)
  : (Z * Z * Z) * radv_amdgpu_ctx :=
  if negb (ip_eq (r_ip_type request) AMD_IP_GFX) || (MAX_RINGS_PER_TYPE <=? r_ring request)
  then ((0, 0, 0), ctx)
  else if pace_mode info =? 0 then ((0, 0, 0), ctx)
  else
    let min_ns := if 2 <=? pace_mode info then 0 else RADV_XCLIPSE_PACE_MIN_NS in
    let p := pace_of ctx (r_ring request) in
    let '(ok, p, ctx) :=
      (if p_syncobj p =? 0 then
         let h := d_create_syncobj d (calls ctx) in
         (bool_decide (is_Some h),
          Pace (default 0 h) (p_count p) (p_seq0 p) (p_seq1 p) (p_last_ns p) (p_avg_ns p), call ctx)
       else (true, p, ctx)) in
    if negb ok then ((0, 0, 0), with_pace ctx (r_ring request) p)
    else
      let p := pace_time p (now ctx) in
      let ctx := with_pace (call ctx) (r_ring request) p in
      if p_avg_ns p <? min_ns / 2 then ((0, 0, 0), ctx)
      else
        let '(wait_point, ctx) :=
          (if (2 <=? p_count p) && (min_ns <=? p_avg_ns p) then
             (if bool_decide (d_expired d (calls ctx) (p_seq p (u64 (p_count p - 1))) = Some false)
              then u64 (p_count p - 1) else 0, call ctx)
           else (0, ctx)) in
        ((p_syncobj p, wait_point, u64 (p_count p + 1)), ctx).

Definition radv_xclipse_pace_end (ctx : radv_amdgpu_ctx) (ring signal_point seq_no : Z)
  : radv_amdgpu_ctx :=
  with_pace ctx ring (set_p_seq (pace_of ctx ring) signal_point seq_no signal_point).

(** * One submission *)

Definition radv_amdgpu_cs_has_user_fence (request : radv_amdgpu_cs_request) : bool :=
  user_fence info
  && negb (bool_decide (r_ip_type request ∈ [AMD_IP_UVD; AMD_IP_VCE; AMD_IP_UVD_ENC; AMD_IP_VCN_DEC;
                                             AMD_IP_VCN_ENC; AMD_IP_VCN_JPEG])).

(** The chunk of an IB, with the assertions on it. *)
Definition ib_chunk (ws : cs_winsys_info) (request : radv_amdgpu_cs_request)
    (ib : radv_amdgpu_cs_ib_info) : option cs_chunk :=
  assert! negb (ii_address ib =? 0)
          && (ii_address ib mod ib_alignment ws (ii_ip_type ib) =? 0) ;;
  assert! negb (ii_size ib =? 0) ;;
  Some (ChunkIb (ii_address ib) (u32 (ii_size ib * 4)) (ii_ip_type ib) (r_ip_instance request)
                (r_ring request) (ii_flags ib)).

Fixpoint ib_chunks (ws : cs_winsys_info) (request : radv_amdgpu_cs_request)
    (l : list radv_amdgpu_cs_ib_info) : option (list cs_chunk) :=
  match l with
  | [] => Some []
  | ib :: l =>
      let! c := ib_chunk ws request ib ;;
      let! cs := ib_chunks ws request l ;;
      Some (c :: cs)
  end.

(** [os_time_get_absolute_timeout(1000000000)] *)
Definition absolute_timeout (t : Z) : Z :=
  if 2 ^ 63 - 1 <? t + 1000000000 then W64 - 1 else t + 1000000000.

(** The retry loop: [first] is false after an ENOMEM.  A retry sleeps for a millisecond
    and the deadline is a second away, so [submit_fuel] attempts are enough. *)
Fixpoint submit_loop (fuel : nat) (first : bool) (deadline : Z) (chunks : list cs_chunk)
    (ctx : radv_amdgpu_ctx) : option (errno * Z * radv_amdgpu_ctx) :=
  match fuel with
  | O => None
  | S fuel =>
      let ctx := if first then ctx else os_time_sleep 1000 ctx in
      let '(r, seq_no) := d_submit d (calls ctx) chunks in
      let ctx := call ctx in
      let ctx := if bool_decide (r = EOK) then with_accepted ctx (accepted ctx ++ [chunks]) else ctx in
      if bool_decide (r = ENOMEM) then
        let t := now ctx in
        let ctx := call ctx in
        if t <? deadline then submit_loop fuel false deadline chunks ctx else Some (r, seq_no, ctx)
      else Some (r, seq_no, ctx)
  end.

Definition submit_fuel : nat := 1002.

Definition submit_result (r : errno) : VkResult :=
  match r with
  | EOK => VK_SUCCESS
  | ENOMEM => VK_ERROR_OUT_OF_HOST_MEMORY
  | ECANCELED | ENODATA | ETIME => VK_ERROR_DEVICE_LOST
  | EOTHER => VK_ERROR_UNKNOWN
  end.

(** The semaphores to wait for: the first submission of a batch takes them. *)
Definition wait_chunk (sem : radv_winsys_sem_info) (wait_queue : bool) (queue_syncobj : Z)
    (ctx : radv_amdgpu_ctx) : option (option cs_chunk) * radv_amdgpu_ctx :=
  let l := sem_wait sem in
  if cs_emit_wait sem
     && (negb (bool_decide (sc_timeline l = [])) || negb (bool_decide (sc_syncobj l = []))
         || wait_queue) then
    let q := if wait_queue then queue_syncobj else 0 in
    let '(c, ctx) :=
      (if has_timeline_syncobj info
       then radv_amdgpu_cs_alloc_timeline_syncobj_chunk l q ChunkTimelineWait 0 0 ctx
       else radv_amdgpu_cs_alloc_syncobj_chunk l q ChunkSyncobjIn ctx) in
    (Some <$> c, ctx)
  else (Some None, ctx).

Definition signal_chunk (sem : radv_winsys_sem_info) (queue_syncobj pace_syncobj pace_signal : Z)
    (ctx : radv_amdgpu_ctx) : option (option cs_chunk) * radv_amdgpu_ctx :=
  if cs_emit_signal sem then
    let '(c, ctx) :=
      (if has_timeline_syncobj info
       then radv_amdgpu_cs_alloc_timeline_syncobj_chunk (sem_signal sem) queue_syncobj
              ChunkTimelineSignal pace_syncobj pace_signal ctx
       else radv_amdgpu_cs_alloc_syncobj_chunk (sem_signal sem) queue_syncobj ChunkSyncobjOut ctx) in
    (Some <$> c, ctx)
  else (Some None, ctx).

(** [radv_amdgpu_cs_submit]: the result, the sequence number, and the state. *)
Definition radv_amdgpu_cs_submit (ws : cs_winsys_info) (ctx : radv_amdgpu_ctx)
    (request : radv_amdgpu_cs_request) (sem : radv_winsys_sem_info)
  : option (VkResult * Z * radv_amdgpu_ctx * radv_winsys_sem_info) :=
  let key := (r_ip_type request, r_ring request) in
  let '(queue_syncobj, ctx) := radv_amdgpu_ctx_queue_syncobj ctx (r_ip_type request) (r_ring request) in
  if queue_syncobj =? 0 then Some (VK_ERROR_OUT_OF_HOST_MEMORY, 0, ctx, sem)
  else
    let wait_queue := default false (queue_syncobj_wait ctx !! key) in
    let '((pace_syncobj, pace_wait, pace_signal), ctx) := radv_xclipse_pace_begin ctx request in
    let '(ok, ctx) := malloc ctx in
    if negb ok then Some (VK_ERROR_OUT_OF_HOST_MEMORY, 0, ctx, sem)
    else
      let '(ok, ctx) := malloc ctx in
      if negb ok then Some (VK_ERROR_OUT_OF_HOST_MEMORY, 0, ctx, sem)
      else
        let! ibs := ib_chunks ws request (r_ibs request) ;;
        let! ib := last (r_ibs request) ;;
        assert! ip_eq (ii_ip_type ib) (r_ip_type request) ;;
        let fence :=
          if radv_amdgpu_cs_has_user_fence request
          then [ChunkFence (fence_bo info)
                  ((ip_index (r_ip_type request) * MAX_RINGS_PER_TYPE + r_ring request) * 4)]
          else [] in
        let '(wait, ctx) := wait_chunk sem wait_queue queue_syncobj ctx in
        match wait with
        | None => Some (VK_ERROR_OUT_OF_HOST_MEMORY, 0, ctx, sem)
        | Some wait =>
            let '(sem, ctx) :=
              (if bool_decide (is_Some wait)
               then (SemInfo (sem_wait sem) (sem_signal sem) false (cs_emit_signal sem),
                     with_queue_wait ctx (<[key := false]> (queue_syncobj_wait ctx)))
               else (sem, ctx)) in
            let pace := if pace_wait =? 0 then [] else [ChunkTimelineWait [(pace_syncobj, 0, pace_wait)]] in
            assert! (pace_syncobj =? 0) || cs_emit_signal sem ;;
            let '(signal, ctx) := signal_chunk sem queue_syncobj pace_syncobj pace_signal ctx in
            match signal with
            | None => Some (VK_ERROR_OUT_OF_HOST_MEMORY, 0, ctx, sem)
            | Some signal =>
                let chunks := ibs ++ fence ++ option_list wait ++ pace ++ option_list signal
                              ++ [ChunkBoHandles (r_handles request)] in
                let deadline := absolute_timeout (now ctx) in
                let! (r, seq_no, ctx) := submit_loop submit_fuel true deadline chunks (call ctx) ;;
                let ctx := if bool_decide (r = EOK) && negb (pace_signal =? 0)
                           then radv_xclipse_pace_end ctx (r_ring request) pace_signal seq_no else ctx in
                Some (submit_result r, seq_no, ctx, sem)
            end
        end.

(** * A batch of command streams *)

Definition RADV_MAX_IBS_PER_SUBMIT : Z := 192.
Definition AMDGPU_IB_FLAG_PREEMPT : Z := 4.
Definition AMDGPU_IB_FLAGS_SECURE : Z := 32.

Definition radv_amdgpu_cs_ib_to_info (cs : radv_amdgpu_cs) (ib : radv_amdgpu_ib)
  : radv_amdgpu_cs_ib_info := IbInfo 0 (ib_va ib) (ib_cdw ib) (hw_ip cs).

Definition or_flags (ib : radv_amdgpu_cs_ib_info) (b : bool) (v : Z) : radv_amdgpu_cs_ib_info :=
  if b then IbInfo (Z.lor (ii_flags ib) v) (ii_address ib) (ii_size ib) (ii_ip_type ib) else ib.

(** Secure submissions mark the IBs of the graphics and DMA queues. *)
Definition secure_ib (secure : bool) (ib : radv_amdgpu_cs_ib_info) : radv_amdgpu_cs_ib_info :=
  or_flags ib (secure && (ip_eq (ii_ip_type ib) AMD_IP_GFX || ip_eq (ii_ip_type ib) AMD_IP_SDMA))
    AMDGPU_IB_FLAGS_SECURE.

(** The flags of a main IB. *)
Definition main_ib (uses_shadow_regs secure : bool) (ib : radv_amdgpu_cs_ib_info)
  : radv_amdgpu_cs_ib_info :=
  secure_ib secure
    (or_flags ib (uses_shadow_regs && ip_eq (ii_ip_type ib) AMD_IP_GFX) AMDGPU_IB_FLAG_PREEMPT).

Definition radv_amdgpu_submitted_ibs_per_cs (cs : radv_amdgpu_cs) : Z :=
  if chain_ib cs then 1 else Z.of_nat (length (ib_buffers cs)).

Definition sum_ibs (l : list radv_amdgpu_cs) : Z :=
  foldr (fun cs n => radv_amdgpu_submitted_ibs_per_cs cs + n) 0 l.

Definition radv_amdgpu_count_submitted_ibs (cs_array : list radv_amdgpu_cs)
    (initial_preamble_count continue_preamble_count postamble_count : Z) : Z :=
  Z.max initial_preamble_count continue_preamble_count + sum_ibs cs_array + postamble_count.

(** [ibs_per_ip[ip]++] *)
Definition bump (f : amd_ip_type -> Z) (ip : amd_ip_type) : amd_ip_type -> Z :=
  fun x => if ip_eq x ip then f x + 1 else f x.

(** [ibs[num_submitted_ibs++] = ib] in an array of [cap] entries. *)
Definition push_ib (cap : Z) (ibs : list radv_amdgpu_cs_ib_info) (ib : radv_amdgpu_cs_ib_info)
  : option (list radv_amdgpu_cs_ib_info) :=
  assert! Z.of_nat (length ibs) <? cap ;;
  Some (ibs ++ [ib]).

(** Preambles and postambles, which have one IB each; only preambles get the flag. *)
Fixpoint copy_ambles (cap : Z) (mark : radv_amdgpu_cs_ib_info -> radv_amdgpu_cs_ib_info)
    (l : list radv_amdgpu_cs) (ibs : list radv_amdgpu_cs_ib_info) (per_ip : amd_ip_type -> Z)
  : option (list radv_amdgpu_cs_ib_info * (amd_ip_type -> Z)) :=
  match l with
  | [] => Some (ibs, per_ip)
  | cs :: l =>
      match ib_buffers cs with
      | [ib] =>
          let! ibs := push_ib cap ibs (mark (radv_amdgpu_cs_ib_to_info cs ib)) ;;
          copy_ambles cap mark l ibs (bump per_ip (hw_ip cs))
      | _ => None
      end
  end.

Section Batch.
Context (leader : amd_ip_type) (uses_shadow_regs secure : bool) (ib_per_submit cap : Z).

(** The checks at the first IB of a stream: [true] leaves the stream to the next
    submission.  A stream for another IP belongs to a gang, whose leader follows it. *)
Definition must_break (cs : radv_amdgpu_cs) (rest : list radv_amdgpu_cs) (i : Z)
    (per_ip : amd_ip_type -> Z) : option bool :=
  let n := radv_amdgpu_submitted_ibs_per_cs cs in
  if (ib_per_submit <? i + n)
     || (max_submitted_ibs info (hw_ip cs) <? per_ip (hw_ip cs) + n) then Some true
  else if negb (ip_eq (hw_ip cs) leader) then
    let! next := head rest ;;
    assert! ip_eq (hw_ip next) leader ;;
    let n' := radv_amdgpu_submitted_ibs_per_cs next in
    Some ((ib_per_submit <? i + n + n')
          || (max_submitted_ibs info (hw_ip next) <? per_ip (hw_ip next) + n'))
  else Some false.

(** The loop over the IBs of the streams that are left; [cs_ib_idx] is the next IB of the
    first of them. *)
Fixpoint fill_submit (fuel : nat) (i : Z) (rest : list radv_amdgpu_cs) (cs_ib_idx : nat)
    (ibs : list radv_amdgpu_cs_ib_info) (per_ip : amd_ip_type -> Z)
  : option (list radv_amdgpu_cs * nat * list radv_amdgpu_cs_ib_info * (amd_ip_type -> Z)) :=
  match rest with
  | [] => Some (rest, cs_ib_idx, ibs, per_ip)
  | cs :: rest' =>
      if negb (i <? ib_per_submit) then Some (rest, cs_ib_idx, ibs, per_ip)
      else
        match fuel with
        | O => None
        | S fuel =>
            let! stop := (if (cs_ib_idx =? 0)%nat then must_break cs rest' i per_ip else Some false) ;;
            if (stop : bool) then Some (rest, cs_ib_idx, ibs, per_ip)
            else
              let! (ib, rest2, idx2) :=
                (if chain_ib cs then
                   let! ib := head (ib_buffers cs) ;;
                   Some (ib, rest', cs_ib_idx)
                 else
                   let! ib := ib_buffers cs !! cs_ib_idx ;;
                   if (S cs_ib_idx =? length (ib_buffers cs))%nat
                   then Some (ib, rest', 0%nat) else Some (ib, rest, S cs_ib_idx)) ;;
              let! ibs := push_ib cap ibs
                            (main_ib uses_shadow_regs secure (radv_amdgpu_cs_ib_to_info cs ib)) ;;
              fill_submit fuel (i + 1) rest2 idx2 ibs (bump per_ip (hw_ip cs))
        end
  end.

End Batch.

(** The batch given to [radv_amdgpu_winsys_cs_submit_internal]. *)
Record batch := Batch {
  b_cs : list radv_amdgpu_cs;
  b_initial : list radv_amdgpu_cs; b_continue : list radv_amdgpu_cs;
  b_postamble : list radv_amdgpu_cs;
  b_shadow_regs : bool; b_secure : bool
}.

(** The outer loop; [started] is [cs_idx != 0]. *)
Fixpoint submit_batch (fuel : nat) (ws : cs_winsys_info) (leader : amd_ip_type) (ring cap : Z)
    (handles : list bo_list_entry) (b : batch) (started : bool) (rest : list radv_amdgpu_cs)
    (cs_ib_idx : nat) (ctx : radv_amdgpu_ctx) (sem : radv_winsys_sem_info) (seq_no : Z)
  : option (VkResult * Z * radv_amdgpu_ctx * radv_winsys_sem_info) :=
  match rest with
  | [] => Some (VK_SUCCESS, seq_no, ctx, sem)
  | _ :: _ =>
      match fuel with
      | O => None
      | S fuel =>
          let preambles := if started then b_continue b else b_initial b in
          let preamble_count := Z.of_nat (length preambles) in
          let ib_per_submit := u32 (RADV_MAX_IBS_PER_SUBMIT - preamble_count
                                    - Z.of_nat (length (b_postamble b))) in
          let! (ibs, per_ip) := copy_ambles cap (secure_ib (b_secure b)) preambles [] (fun _ => 0) ;;
          let! (rest', idx', ibs, per_ip) :=
            fill_submit leader (b_shadow_regs b) (b_secure b) ib_per_submit cap
              (S (Z.to_nat (sum_ibs rest))) 0 rest cs_ib_idx ibs per_ip ;;
          assert! preamble_count <? Z.of_nat (length ibs) ;;
          let! (ibs, _) := copy_ambles cap id (b_postamble b) ibs per_ip ;;
          let request := Request leader 0 ring handles ibs in
          let! (result, seq_no, ctx, sem) := radv_amdgpu_cs_submit ws ctx request sem ;;
          if bool_decide (result <> VK_SUCCESS) then Some (result, seq_no, ctx, sem)
          else
            let started := started || negb (length rest' =? length rest)%nat in
            submit_batch fuel ws leader ring cap handles b started rest' idx' ctx sem seq_no
      end
  end.

(** [radv_amdgpu_winsys_cs_submit_internal]; [handles] is the result of
    [radv_amdgpu_get_bo_list].  The array of IBs is on the stack up to 8 entries, and its
    allocation is not checked otherwise. *)
Definition radv_amdgpu_winsys_cs_submit_internal (ws : cs_winsys_info) (ctx : radv_amdgpu_ctx)
    (queue_idx : Z) (sem : radv_winsys_sem_info) (b : batch)
    (handles : option (list bo_list_entry)) : option (VkResult * radv_amdgpu_ctx * radv_winsys_sem_info) :=
  let! last_cs := last (b_cs b) ;;
  let leader := hw_ip last_cs in
  let num_ibs := radv_amdgpu_count_submitted_ibs (b_cs b) (Z.of_nat (length (b_initial b)))
                   (Z.of_nat (length (b_continue b))) (Z.of_nat (length (b_postamble b))) in
  let cap := Z.min RADV_MAX_IBS_PER_SUBMIT num_ibs in
  let '(ok, ctx) := (if 8 <? cap then malloc ctx else (true, ctx)) in
  assert! ok ;;
  match handles with
  | None => Some (VK_ERROR_OUT_OF_HOST_MEMORY, ctx, sem)
  | Some handles =>
      let! (result, seq_no, ctx, sem) :=
        submit_batch (S (Z.to_nat (sum_ibs (b_cs b)))) ws leader queue_idx cap handles b false
          (b_cs b) 0 ctx sem 0 ;;
      if bool_decide (result <> VK_SUCCESS) then Some (result, ctx, sem)
      else
        let ctx := with_last_submission ctx
                     (<[(leader, queue_idx) := Fence leader queue_idx seq_no]> (last_submission ctx)) in
        Some (VK_SUCCESS, ctx, sem)
  end.

(** * Entry point *)

(** A [vk_sync]: the dummy type, or a DRM syncobj. *)
Inductive vk_sync := SyncDummy | SyncDrm (syncobj : Z).

(** The syncobjs of a wait or signal list, dummies dropped. *)
Fixpoint real_syncs (l : list (vk_sync * Z)) : list (Z * Z) :=
  match l with
  | [] => []
  | (SyncDummy, _) :: l => real_syncs l
  | (SyncDrm h, v) :: l => (h, v) :: real_syncs l
  end.

Definition sem_counts (l : list (vk_sync * Z)) : radv_winsys_sem_counts :=
  if has_timeline_syncobj info then SemCounts [] (real_syncs l)
  else SemCounts (fst <$> real_syncs l) [].

(** The branch of [radv_amdgpu_winsys_cs_submit] with command streams. *)
Definition radv_amdgpu_winsys_cs_submit (ws : cs_winsys_info) (ctx : radv_amdgpu_ctx) (queue_idx : Z)
    (waits signals : list (vk_sync * Z)) (b : batch) (handles : option (list bo_list_entry))
  : option (VkResult * radv_amdgpu_ctx * radv_winsys_sem_info) :=
  let sem := SemInfo (sem_counts waits) (sem_counts signals) true true in
  radv_amdgpu_winsys_cs_submit_internal ws ctx queue_idx sem b handles.

End Submit.
