(* ===== verification/SubmitProofs.v ===== *)
(** Correctness of submission: how a batch of command streams is cut into kernel
    submissions, what the kernel is given, and that it executes the recorded packets. *)

From stdpp Require Import gmap.
From S2P Require Import Prelude Pm4 CsBuffers WinsysCs CsExec WinsysSubmit.

(** * The IBs of streams *)

Section Fill.
Context (info : submit_info) (leader : amd_ip_type) (sh se : bool) (per cap : Z).

(** The IBs a stream contributes, as the kernel gets them. *)
Definition stream_ibs (cs : radv_amdgpu_cs) : list radv_amdgpu_cs_ib_info :=
  main_ib sh se ∘ radv_amdgpu_cs_ib_to_info cs <$> submitted_ibs cs.

Definition streams_ibs (l : list radv_amdgpu_cs) : list radv_amdgpu_cs_ib_info :=
  concat (stream_ibs <$> l).

Abbreviation nib := radv_amdgpu_submitted_ibs_per_cs.

(** Per-IP counts after the IBs of some streams. *)
Definition count_ip (f : amd_ip_type -> Z) (l : list radv_amdgpu_cs) (ip : amd_ip_type) : Z :=
  f ip + sum_ibs (filter (fun cs => hw_ip cs = ip) l).

Definition nonempty (cs : radv_amdgpu_cs) : Prop := ib_buffers cs <> [].

Lemma nonempty_pos cs : nonempty cs -> 1 <= nib cs.
Proof.
  unfold nonempty, radv_amdgpu_submitted_ibs_per_cs. destruct (chain_ib cs), (ib_buffers cs);
    simpl; try done; lia.
Qed.

Lemma length_stream_ibs cs : nonempty cs -> Z.of_nat (length (stream_ibs cs)) = nib cs.
Proof.
  intros H. unfold stream_ibs, submitted_ibs, radv_amdgpu_submitted_ibs_per_cs.
  rewrite length_fmap. destruct (chain_ib cs); [|done].
  unfold nonempty in H. destruct (ib_buffers cs) as [|? [|]]; done.
Qed.

Lemma sum_ibs_app a b : sum_ibs (a ++ b) = sum_ibs a + sum_ibs b.
Proof. unfold sum_ibs. induction a as [|x a IH]; simpl; [done|]. rewrite IH. lia. Qed.

Lemma sum_ibs_nonneg l : 0 <= sum_ibs l.
Proof.
  unfold sum_ibs. induction l as [|x l IH]; simpl; [done|].
  unfold radv_amdgpu_submitted_ibs_per_cs at 1. destruct (chain_ib x); lia.
Qed.

Lemma length_streams_ibs l : Forall nonempty l -> Z.of_nat (length (streams_ibs l)) = sum_ibs l.
Proof.
  induction 1 as [|x l Hx _ IH]; [done|].
  change (streams_ibs (x :: l)) with (stream_ibs x ++ streams_ibs l).
  rewrite length_app, Nat2Z.inj_add, length_stream_ibs, IH by done. done.
Qed.

(** A follower is directly before a leader. *)
Fixpoint ganged (l : list radv_amdgpu_cs) : Prop :=
  match l with
  | [] => True
  | cs :: l => (hw_ip cs = leader \/ exists next l', l = next :: l' /\ hw_ip next = leader) /\ ganged l
  end.

(** A group of streams that does not separate a follower from its leader. *)
Definition closed (l : list radv_amdgpu_cs) : Prop :=
  match last l with Some cs => hw_ip cs = leader | None => True end.

(** * One stream in the loop *)

Definition bumps (n : nat) (f : amd_ip_type -> Z) (ip : amd_ip_type) : amd_ip_type -> Z :=
  Nat.iter n (fun f => bump f ip) f.

Lemma bumps_spec n f ip x : bumps n f ip x = f x + (if ip_eq x ip then Z.of_nat n else 0).
Proof.
  unfold bumps. induction n as [|n IH]; simpl; [destruct (ip_eq x ip); lia|].
  unfold bump at 1. rewrite IH. destruct (ip_eq x ip); lia.
Qed.

Lemma bumps_shift n f ip : bumps n (bump f ip) ip = bump (bumps n f ip) ip.
Proof. unfold bumps. induction n as [|n IH]; simpl; [done|]. by rewrite IH. Qed.

Lemma push_ok ibs ib : Z.of_nat (length ibs) < cap -> push_ib cap ibs ib = Some (ibs ++ [ib]).
Proof. intros H. unfold push_ib. by rewrite (proj2 (Z.ltb_lt _ _)) by lia. Qed.

(** The IBs of an unchained stream from index [idx] on. *)
Lemma fill_tail k : forall fuel i cs rest idx ibs f,
  chain_ib cs = false -> (idx + k = length (ib_buffers cs))%nat -> (0 < k)%nat ->
  i + Z.of_nat k <= per -> Z.of_nat (length ibs) + Z.of_nat k <= cap ->
  (idx <> 0%nat \/ must_break info leader per cs rest i f = Some false) ->
  fill_submit info leader sh se per cap (k + fuel) i (cs :: rest) idx ibs f
  = fill_submit info leader sh se per cap fuel (i + Z.of_nat k) rest 0
      (ibs ++ (main_ib sh se ∘ radv_amdgpu_cs_ib_to_info cs <$> drop idx (ib_buffers cs)))
      (bumps k f (hw_ip cs)).
Proof.
  induction k as [|k IH]; intros fuel i cs rest idx ibs f Hch Hk Hpos Hi Hcap Hb; [lia|].
  cbn [Nat.add fill_submit]. rewrite (proj2 (Z.ltb_lt i per)) by lia. cbn [negb].
  assert ((if (idx =? 0)%nat then must_break info leader per cs rest i f else Some false)
          = Some false) as ->.
  { destruct (Nat.eqb_spec idx 0) as [->|]; [|done]. by destruct Hb. }
  cbn [mbind option_bind]. rewrite Hch.
  destruct (lookup_lt_is_Some_2 (ib_buffers cs) idx) as [ib Hib]; [lia|]. rewrite Hib.
  cbn [mbind option_bind].
  rewrite (drop_S _ ib _ Hib), fmap_cons.
  destruct (Nat.eqb_spec (S idx) (length (ib_buffers cs))) as [He|He].
  - assert (k = 0%nat) as -> by lia. cbn [mbind option_bind]. rewrite push_ok by lia. cbn [mbind option_bind].
    rewrite He, drop_all. done.
  - cbn [mbind option_bind]. rewrite push_ok by lia. cbn [mbind option_bind]. rewrite IH; [|done|lia|lia|lia| |by left].
    + f_equal; [lia|by rewrite <- (assoc_L (++))|by rewrite bumps_shift].
    + rewrite length_app. simpl. lia.
Qed.

Lemma fill_stream fuel i cs rest ibs f :
  nonempty cs -> i + nib cs <= per -> Z.of_nat (length ibs) + nib cs <= cap ->
  must_break info leader per cs rest i f = Some false ->
  fill_submit info leader sh se per cap (Z.to_nat (nib cs) + fuel) i (cs :: rest) 0 ibs f
  = fill_submit info leader sh se per cap fuel (i + nib cs) rest 0
      (ibs ++ stream_ibs cs) (bumps (Z.to_nat (nib cs)) f (hw_ip cs)).
Proof.
  intros Hne Hi Hcap Hb. pose proof (nonempty_pos cs Hne) as Hp.
  unfold stream_ibs, submitted_ibs. destruct (chain_ib cs) eqn:Hch.
  - assert (nib cs = 1) as E by (unfold radv_amdgpu_submitted_ibs_per_cs; by rewrite Hch).
    rewrite E in *. change (Z.to_nat 1) with 1%nat. cbn [Nat.add fill_submit].
    rewrite (proj2 (Z.ltb_lt i per)) by lia. cbn [negb Nat.eqb]. rewrite Hb. cbn [mbind option_bind].
    rewrite Hch. unfold nonempty in Hne. destruct (ib_buffers cs) as [|ib l]; [done|].
    cbn [head mbind option_bind fst snd]. rewrite push_ok by lia. cbn [mbind option_bind]. done.
  - assert (nib cs = Z.of_nat (length (ib_buffers cs))) as E
      by (unfold radv_amdgpu_submitted_ibs_per_cs; by rewrite Hch).
    rewrite E in *. rewrite Nat2Z.id.
    rewrite fill_tail; [by rewrite drop_0|done|lia|lia|lia|lia|by right].
Qed.

(** * The streams of one submission *)

Lemma ganged_cons cs l : ganged (cs :: l) -> ganged l.
Proof. by intros [_ ?]. Qed.

Lemma must_break_some cs rest i f :
  ganged (cs :: rest) -> is_Some (must_break info leader per cs rest i f).
Proof.
  intros [Hg _]. unfold must_break. destruct (_ || _); [done|].
  unfold ip_eq at 1. case_bool_decide as Hip; simpl; [done|].
  destruct Hg as [?|(next & l' & -> & Hn)]; [done|]. simpl. unfold ip_eq.
  by rewrite bool_decide_true.
Qed.

Lemma must_break_false cs rest i f :
  ganged (cs :: rest) ->
  must_break info leader per cs rest i f = Some false <->
  i + nib cs <= per /\ f (hw_ip cs) + nib cs <= max_submitted_ibs info (hw_ip cs)
  /\ (hw_ip cs = leader
      \/ exists next rest', rest = next :: rest' /\ hw_ip next = leader
           /\ i + nib cs + nib next <= per
           /\ f leader + nib next <= max_submitted_ibs info leader).
Proof.
  intros [Hg _]. unfold must_break.
  destruct (Z.ltb_spec per (i + nib cs)) as [H1|H1]; simpl; [split; [done|lia]|].
  destruct (Z.ltb_spec (max_submitted_ibs info (hw_ip cs)) (f (hw_ip cs) + nib cs)) as [H2|H2];
    [split; [done|lia]|].
  unfold ip_eq at 1. case_bool_decide as Hip; simpl.
  { split; [intros _|done]. split_and!; [lia|lia|by left]. }
  destruct Hg as [?|(next & l' & -> & Hn)]; [done|]. simpl. unfold ip_eq.
  rewrite bool_decide_true by done. simpl. rewrite Hn. split.
  - intros [= H]. apply orb_false_iff in H as [H3%Z.ltb_ge H4%Z.ltb_ge].
    split_and!; [lia|lia|]. right. exists next, l'. split_and!; [done|done|lia|lia].
  - intros (_ & _ & [?|(x & y & [= <- <-] & _ & H3 & H4)]); [done|].
    by rewrite !(proj2 (Z.ltb_ge _ _)) by lia.
Qed.

Lemma count_ip_cons f cs l ip :
  count_ip f (cs :: l) ip = count_ip (bumps (Z.to_nat (nib cs)) f (hw_ip cs)) l ip.
Proof.
  unfold count_ip. rewrite bumps_spec, filter_cons. unfold ip_eq.
  assert (0 <= nib cs) by (unfold radv_amdgpu_submitted_ibs_per_cs; destruct (chain_ib cs); lia).
  destruct (decide (hw_ip cs = ip)) as [<-|Hne].
  - rewrite bool_decide_true by done. change (sum_ibs (cs :: ?l)) with (nib cs + sum_ibs l). lia.
  - rewrite bool_decide_false by congruence. lia.
Qed.

Lemma closed_cons cs l : l <> [] -> closed l -> closed (cs :: l).
Proof. unfold closed. destruct l as [|x l]; [done|]. done. Qed.

Lemma closed_one cs l : hw_ip cs = leader -> closed l -> closed (cs :: l).
Proof. unfold closed. by destruct l as [|x l]. Qed.

(** What the loop takes of the streams that are left. *)
Record takes (i : Z) (f : amd_ip_type -> Z) (l taken rest' : list radv_amdgpu_cs)
    (g : amd_ip_type -> Z) : Prop := {
  takes_split : l = taken ++ rest';
  takes_closed : closed taken;
  takes_count : forall ip, g ip = count_ip f taken ip;
  takes_per : i + sum_ibs taken <= per;
  takes_max : forall ip, f ip <= max_submitted_ibs info ip -> g ip <= max_submitted_ibs info ip;
  takes_some : forall cs rest, l = cs :: rest -> i < per ->
                 must_break info leader per cs rest i f = Some false -> taken <> []
}.

Lemma takes_nothing i f l :
  i <= per -> (forall cs rest, l = cs :: rest -> i < per ->
                 must_break info leader per cs rest i f <> Some false) ->
  takes i f l [] l f.
Proof.
  intros Hi Hb. split; try done; try (unfold sum_ibs; simpl; lia).
  - intros ip. unfold count_ip, sum_ibs. simpl. lia.
  - intros cs rest Hl Hlt H. by destruct (Hb cs rest Hl Hlt).
Qed.

Lemma takes_cons i f cs rest taken rest' g :
  nonempty cs ->
  hw_ip cs = leader \/ taken <> [] ->
  f (hw_ip cs) + nib cs <= max_submitted_ibs info (hw_ip cs) ->
  takes (i + nib cs) (bumps (Z.to_nat (nib cs)) f (hw_ip cs)) rest taken rest' g ->
  takes i f (cs :: rest) (cs :: taken) rest' g.
Proof.
  intros Hne Hc Hm [Hs Hcl Hg Hp Hx _]. pose proof (nonempty_pos cs Hne). split.
  - by rewrite Hs.
  - destruct Hc; [by apply closed_one|by apply closed_cons].
  - intros ip. by rewrite Hg, count_ip_cons.
  - change (sum_ibs (cs :: taken)) with (nib cs + sum_ibs taken). lia.
  - intros ip Hf. apply Hx. rewrite bumps_spec. unfold ip_eq.
    case_bool_decide as E; [subst ip; lia|lia].
  - done.
Qed.

Lemma fill_all n : forall l fuel i ibs f pre,
  (length l <= n)%nat -> Forall nonempty l -> ganged l ->
  Z.of_nat (length ibs) = pre + i -> sum_ibs l < Z.of_nat fuel ->
  pre + Z.min per (i + sum_ibs l) <= cap -> i <= per ->
  exists taken rest' g,
    fill_submit info leader sh se per cap fuel i l 0 ibs f
    = Some (rest', 0%nat, ibs ++ streams_ibs taken, g)
    /\ takes i f l taken rest' g.
Proof.
  induction n as [n IH] using lt_wf_ind. intros l fuel i ibs f pre Hn Hne Hg Hlen Hfuel Hcap Hi.
  destruct l as [|cs rest].
  { exists [], [], f. split; [destruct fuel; simpl; by rewrite app_nil_r|].
    by apply takes_nothing. }
  apply Forall_cons in Hne as [Hcs Hne]. pose proof (nonempty_pos cs Hcs) as Hpos.
  pose proof (sum_ibs_nonneg rest) as Hrest.
  change (sum_ibs (cs :: rest)) with (nib cs + sum_ibs rest) in *.
  assert (forall fuel, (0 < fuel)%nat -> (per <= i \/ must_break info leader per cs rest i f = Some true) ->
    fill_submit info leader sh se per cap fuel i (cs :: rest) 0 ibs f
    = Some (cs :: rest, 0%nat, ibs, f)) as Hstop.
  { intros [|fl] ? Hs; [lia|]. cbn [fill_submit]. destruct (Z.ltb_spec i per); [|done].
    cbn [negb Nat.eqb]. destruct Hs as [Hs|Hs]; [lia|]. by rewrite Hs. }
  destruct (decide (per <= i)) as [Hfull|Hfull].
  { exists [], (cs :: rest), f. rewrite Hstop by (lia || by left). split; [by rewrite app_nil_r|].
    apply takes_nothing; [done|]. intros; lia. }
  destruct (must_break_some cs rest i f Hg) as [[|] Hb].
  { exists [], (cs :: rest), f. rewrite Hstop by (lia || by right). split; [by rewrite app_nil_r|].
    apply takes_nothing; [done|]. intros c r [= <- <-] _. by rewrite Hb. }
  pose proof (proj1 (must_break_false cs rest i f Hg) Hb) as (Hp & Hm & Hgang).
  replace fuel with (Z.to_nat (nib cs) + (fuel - Z.to_nat (nib cs)))%nat by lia.
  rewrite fill_stream by (done || lia). set (f1 := bumps _ f _).
  assert (Z.of_nat (length (ibs ++ stream_ibs cs)) = pre + (i + nib cs)) as Hlen1.
  { rewrite length_app, Nat2Z.inj_add, length_stream_ibs by done. lia. }
  pose proof (ganged_cons _ _ Hg) as Hg1.
  destruct (decide (hw_ip cs = leader)) as [Hl|Hfol].
  - destruct (IH (length rest)) with (l := rest) (fuel := (fuel - Z.to_nat (nib cs))%nat)
      (i := i + nib cs) (ibs := ibs ++ stream_ibs cs) (f := f1) (pre := pre)
      as (taken & rest' & g & -> & Ht); simpl in *; try done; try lia.
    exists (cs :: taken), rest', g. split; [by rewrite <- (assoc_L (++))|].
    apply takes_cons; auto.
  - destruct Hgang as [?|(next & rest1 & -> & Hl & Hp1 & Hm1)]; [done|].
    apply Forall_cons in Hne as [Hnx Hne]. pose proof (nonempty_pos next Hnx).
    change (sum_ibs (next :: rest1)) with (nib next + sum_ibs rest1) in *.
    pose proof (sum_ibs_nonneg rest1). pose proof (ganged_cons _ _ Hg1) as Hg2.
    assert (f1 leader = f leader) as Hf1.
    { unfold f1. rewrite bumps_spec. unfold ip_eq. rewrite bool_decide_false by congruence. lia. }
    assert (must_break info leader per next rest1 (i + nib cs) f1 = Some false) as Hb1.
    { apply must_break_false; [done|]. rewrite Hl, Hf1. split_and!; [lia|lia|by left]. }
    replace (fuel - Z.to_nat (nib cs))%nat
      with (Z.to_nat (nib next) + (fuel - Z.to_nat (nib cs) - Z.to_nat (nib next)))%nat by lia.
    rewrite fill_stream by (done || lia). set (f2 := bumps _ f1 _).
    destruct (IH (length rest1)) with (l := rest1)
      (fuel := (fuel - Z.to_nat (nib cs) - Z.to_nat (nib next))%nat)
      (i := i + nib cs + nib next) (ibs := (ibs ++ stream_ibs cs) ++ stream_ibs next) (f := f2)
      (pre := pre) as (taken & rest' & g & -> & Ht); simpl in *; try done; try lia.
    { rewrite length_app, Nat2Z.inj_add, length_stream_ibs by done. lia. }
    exists (cs :: next :: taken), rest', g. split; [by rewrite <- !(assoc_L (++))|].
    apply takes_cons; [done|by right|done|]. apply takes_cons; [done|by left| |done].
    fold f1. rewrite Hl, Hf1. lia.
Qed.

End Fill.

(** * What the kernel gets *)

Definition chunk_ib (c : cs_chunk) : option radv_amdgpu_cs_ib_info :=
  match c with
  | ChunkIb va bytes ip _ _ flags => Some (IbInfo flags va (bytes / 4) ip)
  | _ => None
  end.

(** The IBs of a submission, the syncobj points it waits for and those it signals. *)
Definition chunk_ibs (l : list cs_chunk) : list radv_amdgpu_cs_ib_info := omap chunk_ib l.

Definition wait_points (l : list cs_chunk) : list (Z * Z) :=
  concat ((fun c => match c with
                    | ChunkTimelineWait l => (fun e => (e.1.1, e.2)) <$> l
                    | ChunkSyncobjIn l => (fun h => (h, 0)) <$> l
                    | _ => []
                    end) <$> l).

Definition signal_points (l : list cs_chunk) : list (Z * Z) :=
  concat ((fun c => match c with
                    | ChunkTimelineSignal l => (fun e => (e.1.1, e.2)) <$> l
                    | ChunkSyncobjOut l => (fun h => (h, 0)) <$> l
                    | _ => []
                    end) <$> l).

Lemma chunk_ibs_app a b : chunk_ibs (a ++ b) = chunk_ibs a ++ chunk_ibs b.
Proof. apply omap_app. Qed.

Lemma wait_points_app a b : wait_points (a ++ b) = wait_points a ++ wait_points b.
Proof. unfold wait_points. by rewrite fmap_app, concat_app. Qed.

Lemma signal_points_app a b : signal_points (a ++ b) = signal_points a ++ signal_points b.
Proof. unfold signal_points. by rewrite fmap_app, concat_app. Qed.

Definition ib_ok (ws : cs_winsys_info) (ib : radv_amdgpu_cs_ib_info) : Prop :=
  ii_address ib <> 0 /\ ii_address ib mod ib_alignment ws (ii_ip_type ib) = 0
  /\ 0 < ii_size ib < 2 ^ 30.

(** A request the assertions of [radv_amdgpu_cs_submit] accept. *)
Definition request_ok (ws : cs_winsys_info) (request : radv_amdgpu_cs_request) : Prop :=
  Forall (ib_ok ws) (r_ibs request)
  /\ exists ib, last (r_ibs request) = Some ib /\ ii_ip_type ib = r_ip_type request.

Lemma ib_chunks_ok ws request l : Forall (ib_ok ws) l ->
  exists cs, ib_chunks ws request l = Some cs /\ chunk_ibs cs = l
             /\ wait_points cs = [] /\ signal_points cs = [].
Proof.
  induction 1 as [|ib l (H1 & H2 & H3) _ (cs & E & IH1 & IH2 & IH3)]; [by exists []|].
  cbn [ib_chunks]. unfold ib_chunk. rewrite (proj2 (Z.eqb_neq _ _) H1), H2.
  rewrite (proj2 (Z.eqb_neq (ii_size ib) 0)) by lia. cbn [negb andb Z.eqb cassert mbind option_bind].
  rewrite E. cbn [mbind option_bind]. eexists. split; [done|].
  assert (u32 (ii_size ib * 4) / 4 = ii_size ib) as Hs.
  { rewrite u32_small by (unfold_words; lia). apply Z.div_mul. lia. }
  change (?c :: cs) with ([c] ++ cs).
  rewrite chunk_ibs_app, wait_points_app, signal_points_app, IH1, IH2, IH3.
  unfold chunk_ibs. simpl. rewrite Hs. by destruct ib.
Qed.

(** * One submission *)

Section Submission.
Context (d : drm) (info : submit_info) (ws : cs_winsys_info).

(** The points of a semaphore list. *)
Definition sem_points (counts : radv_winsys_sem_counts) : list (Z * Z) :=
  ((fun h => (h, 0)) <$> sc_syncobj counts)
  ++ (if has_timeline_syncobj info then sc_timeline counts else []).

Lemma now_call ctx : now ctx <= now (call d ctx).
Proof. simpl. lia. Qed.

Lemma submit_loop_total fuel : forall deadline chunks ctx,
  (0 < fuel)%nat -> deadline - now ctx <= Z.of_nat fuel * 1000000 ->
  is_Some (submit_loop d fuel false deadline chunks ctx).
Proof.
  induction fuel as [|fuel IH]; intros deadline chunks ctx Hpos Hd; [lia|].
  cbn [submit_loop]. destruct (d_submit d _ _) as [r s].
  destruct (decide (r = ENOMEM)) as [->|Hr]; [|by rewrite (bool_decide_false (r = ENOMEM))].
  rewrite (bool_decide_false (ENOMEM = EOK)), (bool_decide_true (ENOMEM = ENOMEM)) by done.
  set (ctx1 := call d (os_time_sleep d 1000 ctx)).
  destruct (Z.ltb_spec (now ctx1) deadline) as [Hlt|]; [|done].
  assert (now ctx + 1000000 <= now ctx1) as Hn by (simpl; lia).
  apply IH; [lia|]. pose proof (now_call ctx1). lia.
Qed.

Lemma submit_loop_first m t chunks ctx :
  (1000 <= m)%nat -> t <= now ctx -> t + 1000000000 <= 2 ^ 63 - 1 ->
  is_Some (submit_loop d (S m) true (absolute_timeout t) chunks ctx).
Proof.
  intros Hm Ht Hb. unfold absolute_timeout. rewrite (proj2 (Z.ltb_ge _ _)) by lia.
  cbn [submit_loop]. destruct (d_submit d _ _) as [r s].
  destruct (decide (r = ENOMEM)) as [->|Hr]; [|by rewrite (bool_decide_false (r = ENOMEM))].
  rewrite (bool_decide_false (ENOMEM = EOK)), (bool_decide_true (ENOMEM = ENOMEM)) by done.
  match goal with |- context [if ?b then _ else _] => destruct b end; [|done].
  apply submit_loop_total; [lia|]. simpl. lia.
Qed.

(** The second of retries never runs out of attempts. *)
Lemma submit_loop_enough t chunks ctx :
  t <= now ctx -> t + 1000000000 <= 2 ^ 63 - 1 ->
  is_Some (submit_loop d submit_fuel true (absolute_timeout t) chunks ctx).
Proof. apply (submit_loop_first 1001). apply Nat.leb_le. reflexivity. Qed.

(** Every call of the outside world succeeds. *)
Record accepting : Prop := {
  acc_submit : forall n l, fst (d_submit d n l) = EOK;
  acc_malloc : forall n, d_malloc d n = true;
  acc_create : forall n, exists h, d_create_syncobj d n = Some h /\ h <> 0
}.

Lemma queue_syncobj_ok ctx ip ring : accepting ->
  exists h ctx', radv_amdgpu_ctx_queue_syncobj d ctx ip ring = (h, ctx')
                 /\ h <> 0 /\ accepted ctx' = accepted ctx.
Proof.
  intros Ha. unfold radv_amdgpu_ctx_queue_syncobj. destruct (Z.eqb_spec (default 0 (queue_syncobj ctx !! (ip, ring))) 0) as [E|E].
  - destruct (acc_create Ha (calls ctx)) as (h & -> & Hh). by exists h, (with_queue_syncobj (call d ctx)
      (<[(ip, ring) := h]> (queue_syncobj (call d ctx)))).
  - by eexists _, _.
Qed.

Lemma pace_begin_accepted ctx request :
  accepted (radv_xclipse_pace_begin d info ctx request).2 = accepted ctx.
Proof.
  unfold radv_xclipse_pace_begin. repeat (case_match; simplify_eq/=; try done).
Qed.

Lemma timeline_points counts tail :
  ((fun e : Z * Z * Z => (e.1.1, e.2)) <$>
     (((fun h => (h, 0, 0)) <$> sc_syncobj counts)
      ++ ((fun hp => (hp.1, DRM_SYNCOBJ_WAIT_FLAGS_WAIT_FOR_SUBMIT, hp.2)) <$> sc_timeline counts)
      ++ tail))
  = ((fun h => (h, 0)) <$> sc_syncobj counts) ++ sc_timeline counts
    ++ ((fun e : Z * Z * Z => (e.1.1, e.2)) <$> tail).
Proof.
  rewrite !fmap_app, <- !list_fmap_compose. f_equal. f_equal.
  rewrite <- (list_fmap_id (sc_timeline counts)) at 2. apply list_fmap_ext. by intros ? [] ?.
Qed.

(** The chunk of a semaphore list and what it holds. *)
Lemma syncobj_chunk_ok counts q mk ctx : accepting ->
  radv_amdgpu_cs_alloc_syncobj_chunk d counts q mk ctx
  = (Some (mk (sc_syncobj counts ++ (if q =? 0 then [] else [q]))), call d ctx).
Proof.
  intros Ha. unfold radv_amdgpu_cs_alloc_syncobj_chunk, malloc. by rewrite (acc_malloc Ha).
Qed.

Lemma timeline_chunk_ok counts q mk p pt ctx : accepting ->
  radv_amdgpu_cs_alloc_timeline_syncobj_chunk d counts q mk p pt ctx
  = (Some (mk (((fun h => (h, 0, 0)) <$> sc_syncobj counts)
           ++ ((fun hp => (hp.1, DRM_SYNCOBJ_WAIT_FLAGS_WAIT_FOR_SUBMIT, hp.2)) <$> sc_timeline counts)
           ++ (if q =? 0 then [] else [(q, 0, 0)]) ++ (if p =? 0 then [] else [(p, 0, pt)]))),
     call d ctx).
Proof.
  intros Ha. unfold radv_amdgpu_cs_alloc_timeline_syncobj_chunk, malloc. by rewrite (acc_malloc Ha).
Qed.

Lemma wait_chunk_ok sem wq q ctx : accepting ->
  exists c ctx', wait_chunk d info sem wq q ctx = (Some c, ctx') /\ accepted ctx' = accepted ctx
    /\ (cs_emit_wait sem = true -> sem_points (sem_wait sem) ⊆ wait_points (option_list c))
    /\ signal_points (option_list c) = [] /\ chunk_ibs (option_list c) = [].
Proof.
  intros Ha. unfold wait_chunk. rewrite !syncobj_chunk_ok, !timeline_chunk_ok by done.
  unfold sem_points. destruct (_ && _) eqn:E.
  - destruct (has_timeline_syncobj info); (eexists _, _; split; [done|]);
      (split_and!; [done| |done|done]); intros _; unfold wait_points; simpl; rewrite app_nil_r.
    + rewrite timeline_points. set_solver.
    + rewrite fmap_app. set_solver.
  - exists None, ctx. split_and!; try done. intros Hw. rewrite Hw in E. simpl in E.
    apply orb_false_iff in E as [E _]. apply orb_false_iff in E as [E1 E2].
    apply negb_false_iff, bool_decide_eq_true in E1, E2. rewrite E1, E2.
    by destruct (has_timeline_syncobj info).
Qed.

Lemma signal_chunk_ok sem q p pt ctx : accepting -> cs_emit_signal sem = true ->
  exists c ctx', signal_chunk d info sem q p pt ctx = (Some c, ctx') /\ accepted ctx' = accepted ctx
    /\ sem_points (sem_signal sem) ⊆ signal_points (option_list c)
    /\ wait_points (option_list c) = [] /\ chunk_ibs (option_list c) = [].
Proof.
  intros Ha Hs. unfold signal_chunk. rewrite Hs, !syncobj_chunk_ok, !timeline_chunk_ok by done.
  unfold sem_points. destruct (has_timeline_syncobj info); (eexists _, _; split; [done|]);
    (split_and!; [done| |done|done]); unfold signal_points; simpl; rewrite app_nil_r.
  - rewrite timeline_points. set_solver.
  - rewrite fmap_app. set_solver.
Qed.

Lemma submit_loop_eok m deadline chunks ctx : accepting ->
  submit_loop d (S m) true deadline chunks ctx
  = Some (EOK, (d_submit d (calls ctx) chunks).2,
          with_accepted (call d ctx) (accepted ctx ++ [chunks])).
Proof.
  intros Ha. cbn [submit_loop]. pose proof (acc_submit Ha (calls ctx) chunks) as Hr.
  destruct (d_submit d (calls ctx) chunks) as [r seq]. simpl in Hr. subst r.
  by rewrite (bool_decide_true (EOK = EOK)), (bool_decide_false (EOK = ENOMEM)).
Qed.

(** A submission the kernel accepts: its IBs, its semaphores and its buffers. *)
Record submission (request : radv_amdgpu_cs_request) (sem : radv_winsys_sem_info)
    (chunks : list cs_chunk) : Prop := {
  sub_ibs : chunk_ibs chunks = r_ibs request;
  sub_waits : cs_emit_wait sem = true -> sem_points (sem_wait sem) ⊆ wait_points chunks;
  sub_signals : sem_points (sem_signal sem) ⊆ signal_points chunks;
  sub_handles : ChunkBoHandles (r_handles request) ∈ chunks
}.

Lemma cs_submit_accepts ctx request sem :
  accepting -> request_ok ws request -> cs_emit_signal sem = true ->
  exists seq_no ctx' sem' chunks,
    radv_amdgpu_cs_submit d info ws ctx request sem = Some (VK_SUCCESS, seq_no, ctx', sem')
    /\ accepted ctx' = accepted ctx ++ [chunks] /\ submission request sem chunks
    /\ sem_signal sem' = sem_signal sem /\ cs_emit_signal sem' = true.
Proof.
  intros Ha (Hibs & ib & Hlast & Hip) Hsig. unfold radv_amdgpu_cs_submit.
  destruct (queue_syncobj_ok ctx (r_ip_type request) (r_ring request) Ha) as (q & ctx1 & -> & Hq & Hacc1).
  rewrite (proj2 (Z.eqb_neq q 0) Hq). set (wq := default false _).
  pose proof (pace_begin_accepted ctx1 request) as Hacc2.
  destruct (radv_xclipse_pace_begin d info ctx1 request) as [[[ps pw] pg] ctx2]. simpl in Hacc2.
  unfold malloc. rewrite !(acc_malloc Ha). cbn [negb].
  destruct (ib_chunks_ok ws request (r_ibs request) Hibs) as (ibs & -> & Hc & Hw & Hs).
  cbn [mbind option_bind]. rewrite Hlast. cbn [mbind option_bind]. unfold ip_eq at 1.
  rewrite Hip, bool_decide_true by done. cbn [cassert mbind option_bind].
  set (fence := if radv_amdgpu_cs_has_user_fence info request then _ else _).
  destruct (wait_chunk_ok sem wq q (call d (call d ctx2)) Ha) as (wc & ctx3 & -> & Hacc3 & Hwc & Hws & Hwi).
  set (semctx := if bool_decide (is_Some wc) then _ else _).
  assert (exists sem1 ctx4, semctx = (sem1, ctx4) /\ accepted ctx4 = accepted ctx3
            /\ sem_signal sem1 = sem_signal sem /\ cs_emit_signal sem1 = true)
    as (sem1 & ctx4 & -> & Hacc4 & Hsig1 & Hsig2).
  { subst semctx. case_bool_decide; by eexists _, _. }
  rewrite Hsig2, orb_true_r. cbn [cassert mbind option_bind].
  destruct (signal_chunk_ok sem1 q ps pg ctx4 Ha Hsig2) as (sc & ctx5 & -> & Hacc5 & Hsc & Hsw & Hsi).
  set (chunks := ibs ++ _). change submit_fuel with (S 1001). rewrite submit_loop_eok by done.
  cbn [mbind option_bind andb submit_result]. rewrite bool_decide_true by done. cbn [andb].
  eexists _, _, sem1, chunks. split; [done|]. split_and!; [|split|done|done].
  - simpl in Hacc3. destruct (negb (pg =? 0)); simpl; congruence.
  - subst chunks. rewrite !chunk_ibs_app, Hc, Hwi, Hsi. subst fence.
    destruct (radv_amdgpu_cs_has_user_fence _ _), (pw =? 0); simpl; by rewrite ?app_nil_r.
  - intros He. subst chunks. rewrite !wait_points_app. specialize (Hwc He). set_solver.
  - subst chunks. rewrite !signal_points_app. rewrite Hsig1 in Hsc. set_solver.
  - subst chunks. set_solver.
Qed.

End Submission.
