(* ===== verification/SubmitMain.v ===== *)
(** The theorems on submission: batches are cut into submissions without losing,
    repeating, reordering or separating anything, the kernel executes what was recorded,
    retries end, and paced graphics jobs wait for the job two before them. *)

From stdpp Require Import gmap.
From S2P Require Import Prelude Pm4 CsBuffers WinsysCs CsExec WinsysSubmit SubmitProofs.

(** * Preambles and postambles *)

Definition one_ib (cs : radv_amdgpu_cs) : Prop := exists ib, ib_buffers cs = [ib].

Definition amble_ibs (mark : radv_amdgpu_cs_ib_info -> radv_amdgpu_cs_ib_info)
    (l : list radv_amdgpu_cs) : list radv_amdgpu_cs_ib_info :=
  concat ((fun cs => mark ∘ radv_amdgpu_cs_ib_to_info cs <$> ib_buffers cs) <$> l).

Lemma one_ib_nonempty cs : one_ib cs -> nonempty cs.
Proof. intros [ib H]. unfold nonempty. by rewrite H. Qed.

Lemma one_ib_count cs : one_ib cs -> radv_amdgpu_submitted_ibs_per_cs cs = 1.
Proof.
  intros [ib H]. unfold radv_amdgpu_submitted_ibs_per_cs. rewrite H. by destruct (chain_ib cs).
Qed.

Lemma length_amble_ibs mark l : Forall one_ib l -> length (amble_ibs mark l) = length l.
Proof.
  induction 1 as [|cs l [ib Hib] _ IH]; [done|].
  change (amble_ibs mark (cs :: l))
    with ((mark ∘ radv_amdgpu_cs_ib_to_info cs <$> ib_buffers cs) ++ amble_ibs mark l).
  rewrite length_app, IH, Hib. done.
Qed.

Lemma copy_ambles_ok cap mark l : forall ibs f,
  Forall one_ib l -> Z.of_nat (length ibs) + Z.of_nat (length l) <= cap ->
  exists g, copy_ambles cap mark l ibs f = Some (ibs ++ amble_ibs mark l, g)
            /\ forall ip, g ip = count_ip f l ip.
Proof.
  induction l as [|cs l IH]; intros ibs f Hl Hcap.
  { exists f. split; [by rewrite app_nil_r|]. intros ip. unfold count_ip, sum_ibs. simpl. lia. }
  apply Forall_cons in Hl as [Hcs Hl]. pose proof (one_ib_count cs Hcs) as Hn.
  destruct Hcs as [ib Hib]. simpl in Hcap.
  destruct (IH (ibs ++ [mark (radv_amdgpu_cs_ib_to_info cs ib)]) (bump f (hw_ip cs))) as (g & E & Hg).
  { done. } { rewrite length_app. simpl. lia. }
  exists g. split.
  - cbn [copy_ambles]. rewrite Hib, push_ok by lia. cbn [mbind option_bind]. rewrite E.
    rewrite <- (assoc_L (++)). f_equal. f_equal. f_equal.
    change (amble_ibs mark (cs :: l))
      with ((mark ∘ radv_amdgpu_cs_ib_to_info cs <$> ib_buffers cs) ++ amble_ibs mark l).
    by rewrite Hib.
  - intros ip. rewrite Hg, count_ip_cons, Hn. done.
Qed.

(** * A batch *)

Section Batch.
Context (d : drm) (info : submit_info) (ws : cs_winsys_info) (leader : amd_ip_type) (b : batch).

Definition preambles (started : bool) : list radv_amdgpu_cs :=
  if started then b_continue b else b_initial b.

Definition ib_room (started : bool) : Z :=
  RADV_MAX_IBS_PER_SUBMIT - Z.of_nat (length (preambles started))
  - Z.of_nat (length (b_postamble b)).

Definition preamble_count (started : bool) : amd_ip_type -> Z :=
  count_ip (fun _ => 0) (preambles started).

(** A stream, with its leader when it is a follower, can start a submission. *)
Definition fits_first (started : bool) (cs : radv_amdgpu_cs) (rest : list radv_amdgpu_cs) : Prop :=
  let n := radv_amdgpu_submitted_ibs_per_cs in
  n cs <= ib_room started
  /\ preamble_count started (hw_ip cs) + n cs <= max_submitted_ibs info (hw_ip cs)
  /\ (hw_ip cs = leader
      \/ exists next rest', rest = next :: rest' /\ hw_ip next = leader
           /\ n cs + n next <= ib_room started
           /\ preamble_count started leader + n next <= max_submitted_ibs info leader).

Fixpoint all_fit (l : list radv_amdgpu_cs) : Prop :=
  match l with
  | [] => True
  | cs :: rest => (forall started, fits_first started cs rest) /\ all_fit rest
  end.

(** The IBs of a submission, in order. *)
Definition submission_ibs (started : bool) (group : list radv_amdgpu_cs)
  : list radv_amdgpu_cs_ib_info :=
  amble_ibs (secure_ib (b_secure b)) (preambles started)
  ++ streams_ibs (b_shadow_regs b) (b_secure b) group
  ++ amble_ibs id (b_postamble b).

Record streams_ok (l : list radv_amdgpu_cs) : Prop := {
  so_nonempty : Forall nonempty l;
  so_ganged : ganged leader l;
  so_fit : all_fit l;
  so_ibs : Forall (ib_ok ws) (streams_ibs (b_shadow_regs b) (b_secure b) l)
}.

(** What the caller of the winsys provides. *)
Record batch_ok : Prop := {
  bo_streams : streams_ok (b_cs b);
  bo_initial : Forall one_ib (b_initial b);
  bo_continue : Forall one_ib (b_continue b);
  bo_postamble : Forall one_ib (b_postamble b);
  bo_pre_ibs : forall s, Forall (ib_ok ws) (amble_ibs (secure_ib (b_secure b)) (preambles s));
  bo_post_ibs : Forall (ib_ok ws) (amble_ibs id (b_postamble b));
  bo_post_leader : forall cs, last (b_postamble b) = Some cs -> hw_ip cs = leader;
  bo_room : forall s, 0 < ib_room s
}.

(** The submissions a batch is cut into, against the chunks the kernel accepted. *)
Inductive submitted (handles : list bo_list_entry)
  : bool -> radv_winsys_sem_info -> list (list radv_amdgpu_cs) -> list (list cs_chunk) -> Prop :=
| submitted_nil started sem : submitted handles started sem [] []
| submitted_cons started sem sem' ring group groups chunks l :
    group <> [] -> closed leader group ->
    sum_ibs group <= ib_room started ->
    (forall ip, preamble_count started ip <= max_submitted_ibs info ip ->
       count_ip (preamble_count started) group ip <= max_submitted_ibs info ip) ->
    submission info (Request leader 0 ring handles (submission_ibs started group)) sem chunks ->
    sem_signal sem' = sem_signal sem ->
    submitted handles true sem' groups l ->
    submitted handles started sem (group :: groups) (chunks :: l).

Lemma streams_ok_app a l : streams_ok (a ++ l) -> streams_ok l.
Proof.
  induction a as [|cs a IH]; [done|]. intros [Hn Hg Hf Hi]. apply IH. split.
  - by apply Forall_cons in Hn as [_ ?].
  - by apply ganged_cons in Hg.
  - by destruct Hf.
  - change (streams_ibs ?s ?e ((cs :: a) ++ l)) with (stream_ibs s e cs ++ streams_ibs s e (a ++ l)) in Hi.
    by apply Forall_app in Hi as [_ ?].
Qed.

Lemma streams_ibs_app sh se a l : streams_ibs sh se (a ++ l) = streams_ibs sh se a ++ streams_ibs sh se l.
Proof. unfold streams_ibs. by rewrite fmap_app, concat_app. Qed.

Lemma last_streams_ip sh se l cs : Forall nonempty l -> last l = Some cs ->
  exists ib, last (streams_ibs sh se l) = Some ib /\ ii_ip_type ib = hw_ip cs.
Proof.
  intros Hn Hl. apply last_Some in Hl as [l' ->]. apply Forall_app in Hn as [_ Hn].
  apply Forall_cons in Hn as [Hne _]. rewrite streams_ibs_app.
  assert (exists l0 ib, submitted_ibs cs = l0 ++ [ib]) as (l0 & ib & E).
  { unfold submitted_ibs, nonempty in *. destruct (chain_ib cs).
    - destruct (ib_buffers cs) as [|ib ?]; [done|]. by exists [], ib.
    - destruct (ib_buffers cs) as [|? ?] using rev_ind; [done|]. by eexists _, _. }
  set (f := main_ib sh se ∘ radv_amdgpu_cs_ib_to_info cs).
  assert (streams_ibs sh se [cs] = (f <$> l0) ++ [f ib]) as Hs.
  { change (streams_ibs sh se [cs]) with (stream_ibs sh se cs ++ []).
    unfold stream_ibs. by rewrite app_nil_r, E, fmap_app. }
  exists (f ib). rewrite Hs, (assoc_L (++)), last_snoc. split; [done|]. subst f.
  unfold main_ib, secure_ib, or_flags. simpl. by repeat case_match.
Qed.

Lemma last_amble_ip mark l cs : Forall one_ib l -> last l = Some cs ->
  (forall ib, ii_ip_type (mark ib) = ii_ip_type ib) ->
  exists ib, last (amble_ibs mark l) = Some ib /\ ii_ip_type ib = hw_ip cs.
Proof.
  intros Hn Hl Hm. apply last_Some in Hl as [l' ->]. apply Forall_app in Hn as [_ Hn].
  apply Forall_cons in Hn as [[ib Hib] _]. unfold amble_ibs. rewrite fmap_app, concat_app. simpl.
  rewrite Hib. simpl. eexists. rewrite last_snoc. split; [done|]. by rewrite Hm.
Qed.

Lemma request_of_group started group ring handles :
  batch_ok -> group <> [] -> closed leader group -> Forall nonempty group ->
  Forall (ib_ok ws) (streams_ibs (b_shadow_regs b) (b_secure b) group) ->
  request_ok ws (Request leader 0 ring handles (submission_ibs started group)).
Proof.
  intros Hb Hne Hcl Hn Hi. split; simpl.
  - unfold submission_ibs. rewrite !Forall_app. split_and!; [apply (bo_pre_ibs Hb)|done|apply (bo_post_ibs Hb)].
  - unfold submission_ibs. rewrite !last_app. unfold closed in Hcl.
    destruct (last (b_postamble b)) as [cs|] eqn:E.
    + destruct (last_amble_ip id (b_postamble b) cs (bo_postamble Hb) E) as (ib & -> & Hip); [done|].
      exists ib. split; [done|]. rewrite Hip. by apply (bo_post_leader Hb).
    + apply last_None in E. rewrite E. simpl.
      destruct (last group) as [cs|] eqn:Eg; [|by apply last_None in Eg].
      destruct (last_streams_ip (b_shadow_regs b) (b_secure b) group cs Hn Eg) as (ib & -> & Hip).
      exists ib. by rewrite Hip.
Qed.

Lemma ganged_app_r a l : ganged leader (a ++ l) -> ganged leader l.
Proof. induction a as [|cs a IH]; [done|]. intros H. by apply IH, (ganged_cons leader cs). Qed.

(** What one round of the outer loop takes and puts into [ibs]. *)
Lemma round_ok started rest cap :
  batch_ok -> streams_ok rest -> rest <> [] ->
  Z.of_nat (length (preambles started)) + sum_ibs rest + Z.of_nat (length (b_postamble b)) <= cap
  \/ RADV_MAX_IBS_PER_SUBMIT <= cap ->
  exists ibs f taken rest' g,
    copy_ambles cap (secure_ib (b_secure b)) (preambles started) [] (fun _ => 0) = Some (ibs, f)
    /\ ibs = amble_ibs (secure_ib (b_secure b)) (preambles started)
    /\ fill_submit info leader (b_shadow_regs b) (b_secure b) (ib_room started) cap
         (S (Z.to_nat (sum_ibs rest))) 0 rest 0 ibs f
       = Some (rest', 0%nat, ibs ++ streams_ibs (b_shadow_regs b) (b_secure b) taken, g)
    /\ rest = taken ++ rest' /\ taken <> [] /\ closed leader taken
    /\ sum_ibs taken <= ib_room started
    /\ (forall ip, preamble_count started ip <= max_submitted_ibs info ip ->
         count_ip (preamble_count started) taken ip <= max_submitted_ibs info ip).
Proof.
  intros Hb [Hn Hg Hf Hi] Hne Hcap. pose proof (bo_room Hb started) as Hroom. unfold ib_room in Hroom.
  pose proof (sum_ibs_nonneg rest) as Hsum.
  assert (Forall one_ib (preambles started)) as Hone
    by (destruct started; [apply (bo_continue Hb)|apply (bo_initial Hb)]).
  set (ibs := amble_ibs (secure_ib (b_secure b)) (preambles started)).
  assert (Z.of_nat (length ibs) = Z.of_nat (length (preambles started))) as Hlen
    by (unfold ibs; by rewrite length_amble_ibs).
  destruct (copy_ambles_ok cap (secure_ib (b_secure b)) (preambles started) [] (fun _ => 0))
    as (f & E & Hfc); [done|simpl; lia|].
  destruct (fill_all info leader (b_shadow_regs b) (b_secure b) (ib_room started) cap (length rest) rest
              (S (Z.to_nat (sum_ibs rest))) 0 ibs f (Z.of_nat (length (preambles started))))
    as (taken & rest' & g & Efill & [Hs Hcl Hct Hp Hm Hsome]); [done|done|done|lia|lia| |unfold ib_room; lia|].
  { unfold ib_room. lia. }
  exists ibs, f, taken, rest', g. split_and!; try done.
  - destruct rest as [|cs rest]; [done|]. eapply Hsome; [done|unfold ib_room; lia|].
    apply must_break_false; [done|]. destruct Hf as [Hf _]. destruct (Hf started) as (H1 & H2 & H3).
    rewrite !Hfc. split_and!; [done|done|].
    destruct H3 as [?|(nx & r' & -> & ? & ? & ?)]; [by left|right]. by exists nx, r'.
  - intros ip Hle. assert (count_ip (preamble_count started) taken ip = g ip) as ->.
    { rewrite Hct. unfold count_ip. by rewrite Hfc. }
    apply Hm. by rewrite Hfc.
Qed.

Lemma submit_batch_ok n : forall started rest fuel cap ring handles ctx sem seq_no,
  accepting d -> batch_ok -> streams_ok rest -> cs_emit_signal sem = true ->
  (length rest <= n)%nat -> (length rest < fuel)%nat ->
  (forall s, Z.of_nat (length (preambles s)) + sum_ibs rest + Z.of_nat (length (b_postamble b)) <= cap)
  \/ RADV_MAX_IBS_PER_SUBMIT <= cap ->
  exists seq' ctx' sem' groups new,
    submit_batch d info fuel ws leader ring cap handles b started rest 0 ctx sem seq_no
    = Some (VK_SUCCESS, seq', ctx', sem')
    /\ concat groups = rest /\ accepted ctx' = accepted ctx ++ new
    /\ submitted handles started sem groups new.
Proof.
  induction n as [|n IH]; intros started rest fuel cap ring handles ctx sem seq_no Ha Hb Hr Hsig Hn Hfuel Hcap.
  { assert (rest = []) as -> by (destruct rest; simpl in *; [done|lia]).
    exists seq_no, ctx, sem, [], []. destruct fuel; [lia|]. simpl. split_and!; try done.
    - by rewrite app_nil_r.
    - constructor. }
  destruct rest as [|cs rest].
  { exists seq_no, ctx, sem, [], []. destruct fuel; [simpl in *; lia|]. simpl. split_and!; try done.
    - by rewrite app_nil_r.
    - constructor. }
  destruct fuel as [|fuel]; [lia|]. set (l := cs :: rest) in *.
  destruct (round_ok started l cap Hb Hr) as
    (ibs & f & taken & rest' & g & E1 & Hibs & E2 & Hl & Htk & Hcl & Hper & Hmax).
  { done. } { destruct Hcap as [H|H]; [left; apply H|by right]. }
  pose proof (bo_room Hb started) as Hroom.
  assert (Forall nonempty taken /\ Forall (ib_ok ws) (streams_ibs (b_shadow_regs b) (b_secure b) taken))
    as [Hne Hok].
  { destruct Hr as [Hn1 _ _ Hi1]. rewrite Hl in Hn1, Hi1. rewrite streams_ibs_app in Hi1.
    split; [by apply Forall_app in Hn1 as [? _]|by apply Forall_app in Hi1 as [? _]]. }
  assert (streams_ok rest') as Hr' by (rewrite Hl in Hr; by apply streams_ok_app in Hr).
  assert (sum_ibs l = sum_ibs taken + sum_ibs rest') as Hsum by (rewrite Hl; apply sum_ibs_app).
  assert (length l = (length taken + length rest')%nat) as Hll by (rewrite Hl; apply length_app).
  assert (0 < length taken)%nat as Htl by (destruct taken; simpl; [done|lia]).
  pose proof (length_streams_ibs (b_shadow_regs b) (b_secure b) taken Hne) as Hlen.
  pose proof (sum_ibs_nonneg rest') as Hnn.
  assert (length ibs = length (preambles started)) as Hil.
  { rewrite Hibs. apply length_amble_ibs. destruct started; [apply (bo_continue Hb)|apply (bo_initial Hb)]. }
  assert (1 <= sum_ibs taken) as Hpos.
  { destruct taken as [|c tk]; [done|]. apply Forall_cons in Hne as [Hc _].
    pose proof (nonempty_pos c Hc). pose proof (sum_ibs_nonneg tk).
    change (sum_ibs (c :: tk)) with (radv_amdgpu_submitted_ibs_per_cs c + sum_ibs tk). lia. }
  destruct (copy_ambles_ok cap id (b_postamble b)
              (ibs ++ streams_ibs (b_shadow_regs b) (b_secure b) taken) g) as (g' & E3 & _).
  { apply (bo_postamble Hb). }
  { rewrite length_app, Nat2Z.inj_add, Hlen, Hil. unfold ib_room in Hper.
    destruct Hcap as [H|H]; [specialize (H started)|]; lia. }
  set (request := Request leader 0 ring handles (submission_ibs started taken)).
  destruct (cs_submit_accepts d info ws ctx request sem Ha) as (seq1 & ctx1 & sem1 & chunks & E4 & Hacc & Hsub & Hs1 & Hs2).
  { by apply request_of_group. } { done. }
  destruct (IH true rest' fuel cap ring handles ctx1 sem1 seq1) as
    (seq' & ctx' & sem' & groups & new & E5 & Hcat & Hacc' & Hgr); try done.
  { simpl in *; lia. } { simpl in *; lia. }
  { destruct Hcap as [H|H]; [left|by right]. intros s. specialize (H s). lia. }
  exists seq', ctx', sem', (taken :: groups), (chunks :: new). split_and!.
  - unfold l at 1. cbn [submit_batch]. fold l.
    change (if started then b_continue b else b_initial b) with (preambles started).
    rewrite E1. cbn [mbind option_bind].
    assert (u32 (RADV_MAX_IBS_PER_SUBMIT - Z.of_nat (length (preambles started))
                 - Z.of_nat (length (b_postamble b))) = ib_room started) as ->.
    { apply u32_small. unfold ib_room, RADV_MAX_IBS_PER_SUBMIT in *. unfold_words. lia. }
    rewrite E2. cbn [mbind option_bind].
    rewrite (proj2 (Z.ltb_lt _ _)) by (rewrite length_app, Nat2Z.inj_add, Hlen, Hil; lia).
    cbn [cassert mbind option_bind]. rewrite E3. cbn [mbind option_bind].
    replace ((ibs ++ streams_ibs (b_shadow_regs b) (b_secure b) taken) ++ amble_ibs id (b_postamble b))
      with (submission_ibs started taken)
      by (unfold submission_ibs; by rewrite Hibs, <- (assoc_L (++))).
    fold request. rewrite E4. cbn [mbind option_bind].
    rewrite bool_decide_false by (by intros []).
    replace (started || negb (length rest' =? length l)%nat) with true; [exact E5|].
    rewrite (proj2 (Nat.eqb_neq _ _)) by lia. by rewrite orb_true_r.
  - simpl. by rewrite Hcat.
  - rewrite Hacc', Hacc. by rewrite <- (assoc_L (++)).
  - by apply (submitted_cons handles started sem sem1 ring).
Qed.

End Batch.

(** * Execution *)

Definition run_info (ib : radv_amdgpu_cs_ib_info) : radv_amdgpu_ib :=
  Ib None (ii_address ib) (ii_size ib).

(** What the command processor executes of a submission, and of several in order. *)
Definition run_submission (fuel : nat) (m : gmap Z (list Z)) (chunks : list cs_chunk)
  : option (list (list Z)) := exec_ibs fuel m (run_info <$> chunk_ibs chunks).

Fixpoint run_submissions (fuel : nat) (m : gmap Z (list Z)) (l : list (list cs_chunk))
  : option (list (list Z)) :=
  match l with
  | [] => Some []
  | chunks :: l =>
      let! ps := run_submission fuel m chunks ;;
      let! qs := run_submissions fuel m l ;;
      Some (ps ++ qs)
  end.

(** The packets of a batch: every submission has its preamble and its postamble. *)
Fixpoint batch_packets (b : batch) (out : radv_amdgpu_cs -> list (list Z)) (started : bool)
    (groups : list (list radv_amdgpu_cs)) : list (list Z) :=
  match groups with
  | [] => []
  | g :: groups =>
      concat (out <$> preambles b started) ++ concat (out <$> g) ++ concat (out <$> b_postamble b)
      ++ batch_packets b out true groups
  end.

Lemma exec_ibs_app fuel m a c ps qs :
  exec_ibs fuel m a = Some ps -> exec_ibs fuel m c = Some qs ->
  exec_ibs fuel m (a ++ c) = Some (ps ++ qs).
Proof.
  revert ps. induction a as [|ib a IH]; intros ps H1 H2; simpl in *; [by injection H1 as <-|].
  destruct (cp_exec _ _ _ _) as [x|]; [simpl in *|done].
  destruct (exec_ibs fuel m a) as [y|]; [simpl in *|done]. injection H1 as <-.
  rewrite (IH y) by done. simpl. by rewrite (assoc_L (++)).
Qed.

Lemma exec_ibs_ext fuel m a c :
  (fun ib => (ib_va ib, ib_cdw ib)) <$> a = (fun ib => (ib_va ib, ib_cdw ib)) <$> c ->
  exec_ibs fuel m a = exec_ibs fuel m c.
Proof.
  revert c. induction a as [|x a IH]; intros [|y c] E; try done. simpl in E.
  injection E as E1 E2 E3. simpl. rewrite E1, E2. by rewrite (IH c).
Qed.

Lemma run_marked fuel m mark cs (l : list radv_amdgpu_ib) :
  (forall ib, run_info (mark ib) = run_info ib) ->
  exec_ibs fuel m (run_info <$> (mark ∘ radv_amdgpu_cs_ib_to_info cs <$> l)) = exec_ibs fuel m l.
Proof.
  intros Hm. apply exec_ibs_ext. rewrite <- !list_fmap_compose. apply list_fmap_ext.
  intros ? ib ?. pose proof (Hm (radv_amdgpu_cs_ib_to_info cs ib)) as E. injection E as E1 E2.
  simpl in *. by rewrite E1, E2.
Qed.

Lemma run_info_main sh se ib : run_info (main_ib sh se ib) = run_info ib.
Proof. unfold main_ib, secure_ib, or_flags. by repeat case_match. Qed.

Lemma run_info_secure se ib : run_info (secure_ib se ib) = run_info ib.
Proof. unfold secure_ib, or_flags. by repeat case_match. Qed.

Section Run.
Context (fuel : nat) (m : gmap Z (list Z)) (out : radv_amdgpu_cs -> list (list Z)).

Lemma run_parts (part : radv_amdgpu_cs -> list radv_amdgpu_cs_ib_info) l :
  (forall cs, cs ∈ l -> exec_ibs fuel m (run_info <$> part cs) = Some (out cs)) ->
  exec_ibs fuel m (run_info <$> concat (part <$> l)) = Some (concat (out <$> l)).
Proof.
  induction l as [|cs l IH]; intros H; [done|]. simpl. rewrite fmap_app.
  apply exec_ibs_app; [apply H; set_solver|]. apply IH. set_solver.
Qed.

Lemma run_streams sh se l :
  (forall cs, cs ∈ l -> executed fuel m cs = Some (out cs)) ->
  exec_ibs fuel m (run_info <$> streams_ibs sh se l) = Some (concat (out <$> l)).
Proof.
  intros H. apply run_parts. intros cs Hin. unfold stream_ibs.
  rewrite run_marked by apply run_info_main. by apply H.
Qed.

Lemma run_ambles mark l :
  (forall ib, run_info (mark ib) = run_info ib) -> Forall one_ib l ->
  (forall cs, cs ∈ l -> executed fuel m cs = Some (out cs)) ->
  exec_ibs fuel m (run_info <$> amble_ibs mark l) = Some (concat (out <$> l)).
Proof.
  intros Hm Hone H. unfold amble_ibs. apply run_parts. intros cs Hin. rewrite run_marked by done.
  rewrite <- (H cs Hin). unfold executed, submitted_ibs.
  rewrite Forall_forall in Hone. destruct (Hone cs Hin) as [ib ->]. by destruct (chain_ib cs).
Qed.

Lemma run_submitted info leader b handles ws started sem groups new :
  batch_ok info ws leader b -> submitted info leader b handles started sem groups new ->
  (forall cs, cs ∈ concat groups ++ b_initial b ++ b_continue b ++ b_postamble b ->
     executed fuel m cs = Some (out cs)) ->
  run_submissions fuel m new = Some (batch_packets b out started groups).
Proof.
  intros Hb. induction 1 as [|started sem sem' ring g groups chunks l _ _ _ _ Hsub _ _ IH]; intros H;
    [done|]. simpl.
  assert (run_submission fuel m chunks
          = Some (concat (out <$> preambles b started) ++ concat (out <$> g)
                  ++ concat (out <$> b_postamble b))) as ->.
  { unfold run_submission. rewrite (sub_ibs _ _ _ _ Hsub). simpl. unfold submission_ibs.
    rewrite !fmap_app. apply exec_ibs_app; [|apply exec_ibs_app].
    - apply run_ambles; [apply run_info_secure| |].
      + destruct started; [apply (bo_continue _ _ _ _ Hb)|apply (bo_initial _ _ _ _ Hb)].
      + intros cs Hin. apply H. simpl. destruct started; set_solver.
    - apply run_streams. intros cs Hin. apply H. simpl. set_solver.
    - apply run_ambles; [done|apply (bo_postamble _ _ _ _ Hb)|]. intros cs Hin. apply H. simpl. set_solver. }
  cbn [mbind option_bind]. rewrite IH; [|intros cs Hin; apply H; simpl; set_solver].
  cbn [mbind option_bind]. by rewrite <- !(assoc_L (++)).
Qed.

End Run.

(** * The theorems *)

Section Main.
Context (d : drm) (info : submit_info) (ws : cs_winsys_info).

Lemma winsys_submit_spec ctx queue_idx waits signals b cs handles :
  accepting d -> last (b_cs b) = Some cs -> batch_ok info ws (hw_ip cs) b ->
  let sem := SemInfo (sem_counts info waits) (sem_counts info signals) true true in
  exists ctx' sem' groups new,
    radv_amdgpu_winsys_cs_submit d info ws ctx queue_idx waits signals b (Some handles)
    = Some (VK_SUCCESS, ctx', sem')
    /\ concat groups = b_cs b /\ accepted ctx' = accepted ctx ++ new
    /\ submitted info (hw_ip cs) b handles false sem groups new.
Proof.
  intros Ha Hlast Hb sem. unfold radv_amdgpu_winsys_cs_submit, radv_amdgpu_winsys_cs_submit_internal.
  rewrite Hlast. cbn [mbind option_bind]. fold sem.
  set (cap := Z.min _ _).
  assert (exists ctx1, (if 8 <? cap then malloc d ctx else (true, ctx)) = (true, ctx1)
                       /\ accepted ctx1 = accepted ctx) as (ctx1 & -> & Hacc).
  { destruct (8 <? cap); [|by exists ctx]. unfold malloc. rewrite (acc_malloc _ Ha).
    by exists (call d ctx). }
  cbn [cassert mbind option_bind].
  assert (length (b_cs b) < S (Z.to_nat (sum_ibs (b_cs b))))%nat as Hfuel.
  { pose proof (so_nonempty _ _ _ _ _ (bo_streams _ _ _ _ Hb)) as Hne. clear -Hne.
    assert (Z.of_nat (length (b_cs b)) <= sum_ibs (b_cs b)); [|lia].
    induction Hne as [|x l Hx _ IH]; [done|]. pose proof (nonempty_pos x Hx).
    change (sum_ibs (x :: l)) with (radv_amdgpu_submitted_ibs_per_cs x + sum_ibs l).
    simpl length. lia. }
  destruct (submit_batch_ok d info ws (hw_ip cs) b (length (b_cs b)) false (b_cs b)
              (S (Z.to_nat (sum_ibs (b_cs b)))) cap queue_idx handles ctx1 sem 0)
    as (seq' & ctx' & sem' & groups & new & -> & Hcat & Hacc' & Hsub); try done.
  { apply (bo_streams _ _ _ _ Hb). }
  { destruct (Z.le_gt_cases RADV_MAX_IBS_PER_SUBMIT
      (radv_amdgpu_count_submitted_ibs (b_cs b) (Z.of_nat (length (b_initial b)))
         (Z.of_nat (length (b_continue b))) (Z.of_nat (length (b_postamble b))))).
    - right. unfold cap. lia.
    - left. intros s. unfold cap, radv_amdgpu_count_submitted_ibs in *. unfold preambles.
      destruct s; lia. }
  cbn [mbind option_bind]. rewrite bool_decide_false by (by intros []).
  eexists _, sem', groups, new. split; [done|]. simpl. by rewrite Hacc', Hacc.
Qed.

(** C30: A batch of streams is cut into kernel submissions: every stream is in
    exactly one of them, in order, and never apart from the leader of its gang; each has
    its preamble (the initial one only in the first) and postamble, at most 192 IBs with
    them, and its preamble and streams are no more IBs per IP than the kernel takes, on an
    IP whose preambles alone are not more. The IBs of the postamble, which the driver adds
    without counting them for the IP, can exceed that limit. The first submission waits
    for every semaphore and all of them signal, and each carries the buffer list. *)
Theorem submit_partitions_batch (ctx : radv_amdgpu_ctx) (queue_idx : Z)
    (waits signals : list (vk_sync * Z)) (b : batch) (cs : radv_amdgpu_cs)
    (handles : list bo_list_entry) :
  accepting d -> last (b_cs b) = Some cs -> batch_ok info ws (hw_ip cs) b ->
  exists ctx' sem' groups new,
    radv_amdgpu_winsys_cs_submit d info ws ctx queue_idx waits signals b (Some handles)
    = Some (VK_SUCCESS, ctx', sem')
    /\ concat groups = b_cs b /\ accepted ctx' = accepted ctx ++ new
    /\ submitted info (hw_ip cs) b handles false
         (SemInfo (sem_counts info waits) (sem_counts info signals) true true) groups new
    /\ Forall (fun s => Z.of_nat (length (chunk_ibs s)) <= RADV_MAX_IBS_PER_SUBMIT) new.
Proof.
  intros Ha Hl Hb.
  destruct (winsys_submit_spec ctx queue_idx waits signals b cs handles Ha Hl Hb)
    as (ctx' & sem' & groups & new & E & Hcat & Hacc & Hsub).
  exists ctx', sem', groups, new. split_and!; try done. rewrite <- Hcat in *.
  assert (Forall nonempty (concat groups)) as Hne
    by (rewrite Hcat; apply (so_nonempty _ _ _ _ _ (bo_streams _ _ _ _ Hb))).
  clear -Hsub Hb Hne. induction Hsub as [|started sem sem1 ring g groups chunks l _ _ Hr _ Hs _ _ IH];
    constructor.
  - simpl in Hne. apply Forall_app in Hne as [Hg _].
    rewrite (sub_ibs _ _ _ _ Hs). simpl. unfold submission_ibs.
    rewrite !length_app, !Nat2Z.inj_add, length_streams_ibs, !length_amble_ibs; [|apply (bo_postamble _ _ _ _ Hb)| |done].
    + unfold ib_room in Hr. lia.
    + destruct started; [apply (bo_continue _ _ _ _ Hb)|apply (bo_initial _ _ _ _ Hb)].
  - apply IH. simpl in Hne. by apply Forall_app in Hne as [_ ?].
Qed.

(** C18: The command processor executes the packets of a submitted batch: given
    what every finalized stream executes on its own, the accepted submissions execute,
    in order, the streams of the batch with the preamble and the postamble of each
    submission around them. *)
Theorem submit_executes_batch (ctx : radv_amdgpu_ctx) (queue_idx : Z)
    (waits signals : list (vk_sync * Z)) (b : batch) (cs : radv_amdgpu_cs)
    (handles : list bo_list_entry) (fuel : nat) (m : gmap Z (list Z))
    (out : radv_amdgpu_cs -> list (list Z)) :
  accepting d -> last (b_cs b) = Some cs -> batch_ok info ws (hw_ip cs) b ->
  (forall s, s ∈ b_cs b ++ b_initial b ++ b_continue b ++ b_postamble b ->
     executed fuel m s = Some (out s)) ->
  exists ctx' sem' groups new,
    radv_amdgpu_winsys_cs_submit d info ws ctx queue_idx waits signals b (Some handles)
    = Some (VK_SUCCESS, ctx', sem')
    /\ concat groups = b_cs b /\ accepted ctx' = accepted ctx ++ new
    /\ run_submissions fuel m new = Some (batch_packets b out false groups).
Proof.
  intros Ha Hl Hb Hout.
  destruct (winsys_submit_spec ctx queue_idx waits signals b cs handles Ha Hl Hb)
    as (ctx' & sem' & groups & new & E & Hcat & Hacc & Hsub).
  exists ctx', sem', groups, new. split_and!; try done.
  eapply run_submitted; [exact Hb|exact Hsub|]. by rewrite Hcat.
Qed.

(** ** Retries *)

Lemma now_queue_syncobj ctx ip ring :
  (forall n, Z.of_N (d_delay d n) <= 2 ^ 40) ->
  now (radv_amdgpu_ctx_queue_syncobj d ctx ip ring).2 <= now ctx + 2 ^ 40.
Proof.
  intros Hd. unfold radv_amdgpu_ctx_queue_syncobj. pose proof (Hd (calls ctx)).
  destruct (_ =? 0); simpl; lia.
Qed.

Lemma now_pace_begin ctx request :
  (forall n, Z.of_N (d_delay d n) <= 2 ^ 40) ->
  now (radv_xclipse_pace_begin d info ctx request).2 <= now ctx + 3 * 2 ^ 40.
Proof.
  intros Hd. unfold radv_xclipse_pace_begin.
  pose proof (Hd (calls ctx)). pose proof (Hd (S (calls ctx))). pose proof (Hd (S (S (calls ctx)))).
  repeat (case_match; simplify_eq/=; try lia).
Qed.

Lemma now_wait_chunk sem wq q ctx :
  (forall n, Z.of_N (d_delay d n) <= 2 ^ 40) ->
  now (wait_chunk d info sem wq q ctx).2 <= now ctx + 2 ^ 40.
Proof.
  intros Hd. unfold wait_chunk, radv_amdgpu_cs_alloc_syncobj_chunk,
    radv_amdgpu_cs_alloc_timeline_syncobj_chunk, malloc. pose proof (Hd (calls ctx)).
  repeat (case_match; simplify_eq/=; try lia).
Qed.

Lemma now_signal_chunk sem q p pt ctx :
  (forall n, Z.of_N (d_delay d n) <= 2 ^ 40) ->
  now (signal_chunk d info sem q p pt ctx).2 <= now ctx + 2 ^ 40.
Proof.
  intros Hd. unfold signal_chunk, radv_amdgpu_cs_alloc_syncobj_chunk,
    radv_amdgpu_cs_alloc_timeline_syncobj_chunk, malloc. pose proof (Hd (calls ctx)).
  repeat (case_match; simplify_eq/=; try lia).
Qed.

Lemma queue_syncobj_accepted ctx ip ring :
  accepted (radv_amdgpu_ctx_queue_syncobj d ctx ip ring).2 = accepted ctx.
Proof. unfold radv_amdgpu_ctx_queue_syncobj. by destruct (_ =? 0). Qed.

Lemma wait_chunk_accepted sem wq q ctx : accepted (wait_chunk d info sem wq q ctx).2 = accepted ctx.
Proof.
  unfold wait_chunk, radv_amdgpu_cs_alloc_syncobj_chunk, radv_amdgpu_cs_alloc_timeline_syncobj_chunk,
    malloc. by repeat (case_match; simplify_eq/=).
Qed.

Lemma signal_chunk_accepted sem q p pt ctx :
  accepted (signal_chunk d info sem q p pt ctx).2 = accepted ctx.
Proof.
  unfold signal_chunk, radv_amdgpu_cs_alloc_syncobj_chunk,
    radv_amdgpu_cs_alloc_timeline_syncobj_chunk, malloc. by repeat (case_match; simplify_eq/=).
Qed.

(** The kernel has the chunks exactly when the ioctl succeeded in the end. *)
Lemma submit_loop_accepted fuel : forall first deadline chunks ctx r s ctx',
  submit_loop d fuel first deadline chunks ctx = Some (r, s, ctx') ->
  accepted ctx' = accepted ctx ++ (if bool_decide (r = EOK) then [chunks] else []).
Proof.
  induction fuel as [|fuel IH]; intros first deadline chunks ctx r s ctx' H; [done|].
  cbn [submit_loop] in H. set (ctx0 := if first then ctx else os_time_sleep d 1000 ctx) in H.
  assert (accepted ctx0 = accepted ctx) as H0 by (by destruct first).
  destruct (d_submit d (calls ctx0) chunks) as [r0 s0].
  destruct (decide (r0 = ENOMEM)) as [->|Hr].
  - rewrite (bool_decide_false (ENOMEM = EOK)), (bool_decide_true (ENOMEM = ENOMEM)) in H by done.
    destruct (_ <? deadline).
    + apply IH in H. by rewrite H, <- H0.
    + injection H as <- <- <-. rewrite bool_decide_false by done. by rewrite app_nil_r.
  - rewrite (bool_decide_false (r0 = ENOMEM)) in H by done. injection H as <- <- <-.
    rewrite <- H0. case_bool_decide; [done|]. by rewrite app_nil_r.
Qed.

Lemma submit_result_success r : submit_result r = VK_SUCCESS <-> r = EOK.
Proof. by destruct r. Qed.

(** C36: A submission always comes back, however often the kernel is out of
    memory: retries sleep for a millisecond and stop after a second.  Either it succeeds
    and the kernel has accepted one submission, or it returns an error and nothing was
    submitted. *)
Theorem cs_submit_returns (ctx : radv_amdgpu_ctx) (request : radv_amdgpu_cs_request)
    (sem : radv_winsys_sem_info) :
  request_ok ws request -> cs_emit_signal sem = true ->
  now ctx <= 2 ^ 61 -> (forall n, Z.of_N (d_delay d n) <= 2 ^ 40) ->
  exists result seq_no ctx' sem',
    radv_amdgpu_cs_submit d info ws ctx request sem = Some (result, seq_no, ctx', sem')
    /\ ((result = VK_SUCCESS /\ exists chunks, accepted ctx' = accepted ctx ++ [chunks])
        \/ (result <> VK_SUCCESS /\ accepted ctx' = accepted ctx)).
Proof.
  intros (Hibs & ib & Hlast & Hip) Hsig Hnow Hd. unfold radv_amdgpu_cs_submit.
  assert (forall (c : radv_amdgpu_ctx) (s : radv_winsys_sem_info), accepted c = accepted ctx ->
    exists result seq_no ctx' sem',
      Some (VK_ERROR_OUT_OF_HOST_MEMORY, 0, c, s) = Some (result, seq_no, ctx', sem')
      /\ ((result = VK_SUCCESS /\ exists chunks, accepted ctx' = accepted ctx ++ [chunks])
          \/ (result <> VK_SUCCESS /\ accepted ctx' = accepted ctx))) as Herr.
  { intros c s Hc. eexists _, _, _, _. split; [done|]. right. by split. }
  pose proof (now_queue_syncobj ctx (r_ip_type request) (r_ring request) Hd) as H1.
  pose proof (queue_syncobj_accepted ctx (r_ip_type request) (r_ring request)) as A1.
  destruct (radv_amdgpu_ctx_queue_syncobj _ _ _ _) as [q ctx1]. destruct (q =? 0); [by apply Herr|].
  pose proof (now_pace_begin ctx1 request Hd) as H2.
  pose proof (pace_begin_accepted d info ctx1 request) as A2.
  destruct (radv_xclipse_pace_begin d info ctx1 request) as [[[ps pw] pg] ctx2]. unfold malloc.
  simpl in A1, A2. rewrite A1 in A2.
  destruct (d_malloc d (calls ctx2)); [|by apply Herr]. cbn [negb].
  destruct (d_malloc d (calls (call d ctx2))); [|by apply Herr]. cbn [negb].
  destruct (ib_chunks_ok ws request (r_ibs request) Hibs) as (ibs & -> & _).
  cbn [mbind option_bind]. rewrite Hlast. cbn [mbind option_bind]. unfold ip_eq at 1.
  rewrite Hip, bool_decide_true by done. cbn [cassert mbind option_bind].
  set (wq := default false _).
  pose proof (now_wait_chunk sem wq q (call d (call d ctx2)) Hd) as H3.
  pose proof (wait_chunk_accepted sem wq q (call d (call d ctx2))) as A3. simpl in A3. rewrite A2 in A3.
  destruct (wait_chunk _ _ _ _ _ _) as [[wc|] ctx3]; [|by apply Herr].
  set (semctx := if bool_decide (is_Some wc) then _ else _).
  assert (cs_emit_signal semctx.1 = true /\ now semctx.2 = now ctx3 /\ accepted semctx.2 = accepted ctx3)
    as (Hs1 & Hn1 & A4) by (subst semctx; by case_bool_decide).
  destruct semctx as [sem1 ctx4]. simpl in Hs1, Hn1, A3, A4. rewrite Hs1, orb_true_r.
  cbn [cassert mbind option_bind].
  pose proof (now_signal_chunk sem1 q ps pg ctx4 Hd) as H4.
  pose proof (signal_chunk_accepted sem1 q ps pg ctx4) as A5. rewrite A4, A3 in A5.
  destruct (signal_chunk _ _ _ _ _ _ _) as [[sc|] ctx5]; [|by apply Herr]. simpl in A5.
  set (chunks := ibs ++ _).
  destruct (submit_loop_enough d (now ctx5) chunks (call d ctx5)) as [[[r s] ctx6] E].
  - simpl. lia.
  - pose proof (Hd (calls ctx2)). pose proof (Hd (S (calls ctx2))). simpl in *. lia.
  - rewrite E. apply submit_loop_accepted in E. simpl in E. rewrite A5 in E. cbn [mbind option_bind].
    eexists _, _, _, _. split; [done|]. rewrite submit_result_success.
    set (c := if _ && _ then _ else _).
    assert (accepted c = accepted ctx6) as -> by (subst c; by destruct (_ && _)). rewrite E.
    case_bool_decide; [left; by eauto|right]. by rewrite app_nil_r.
Qed.

End Main.

(** * Pacing *)

(** [hist] holds the sequence numbers of the points signalled so far. *)
Definition pace_inv (p : radv_xclipse_pace) (hist : list Z) : Prop :=
  p_count p = Z.of_nat (length hist) /\ Z.of_nat (length hist) < 2 ^ 63
  /\ forall n, 1 <= n -> p_count p - 1 <= n <= p_count p ->
       hist !! Z.to_nat (n - 1) = Some (p_seq p n).

Lemma parity n : (Z.land n 1 =? 0) = Z.even n.
Proof.
  change 1 with (Z.ones 1). rewrite Z.land_ones by lia. change (2 ^ 1) with 2.
  rewrite Zmod_even. by destruct (Z.even n).
Qed.

Lemma p_seq_set p n v c : p_seq (set_p_seq p n v c) n = v.
Proof. unfold p_seq, set_p_seq. by destruct (Z.land n 1 =? 0). Qed.

Lemma p_seq_set_other p n v c : p_seq (set_p_seq p (n + 1) v c) n = p_seq p n.
Proof.
  unfold p_seq, set_p_seq. rewrite !parity, Z.add_1_r, Z.even_succ, <- Z.negb_even.
  by destruct (Z.even n).
Qed.

Lemma pace_inv_proper p q hist :
  p_count p = p_count q -> p_seq0 p = p_seq0 q -> p_seq1 p = p_seq1 q ->
  pace_inv p hist -> pace_inv q hist.
Proof. intros E1 E2 E3. unfold pace_inv, p_seq. by rewrite E1, E2, E3. Qed.

Lemma pace_inv_push p hist seq_no :
  pace_inv p hist -> Z.of_nat (length hist) + 1 < 2 ^ 63 ->
  pace_inv (set_p_seq p (p_count p + 1) seq_no (p_count p + 1)) (hist ++ [seq_no]).
Proof.
  intros (Hc & Hb & Hh) Hb'. set (q := set_p_seq _ _ _ _).
  assert (p_count q = p_count p + 1) as Hq by (unfold q, set_p_seq; by destruct (_ =? 0)).
  split_and!.
  - rewrite Hq, Hc, length_app. simpl. lia.
  - rewrite length_app. simpl. lia.
  - intros n Hn Hr. rewrite Hq in Hr. assert (n = p_count p + 1 \/ n = p_count p) as [->| ->] by lia.
    + unfold q. rewrite p_seq_set, lookup_app_r by lia.
      by replace (Z.to_nat _ - length hist)%nat with 0%nat by lia.
    + unfold q. rewrite p_seq_set_other, lookup_app_l by lia. apply Hh; lia.
Qed.

Lemma pace_of_with ctx ring p : pace_of (with_pace ctx ring p) ring = p.
Proof. unfold pace_of. simpl. by rewrite lookup_insert_eq. Qed.

Lemma pace_of_call d ctx ring : pace_of (call d ctx) ring = pace_of ctx ring.
Proof. done. Qed.

(** Graphics jobs are numbered consecutively by the points they signal, and a
    job that is made to wait waits for the job two before it, which the kernel has just
    said to be unfinished; when pacing is forced, a job that does not wait follows a job
    two before it that is not known to be unfinished. *)
Theorem pace_two_jobs_back (d : drm) (info : submit_info) (ctx ctx' : radv_amdgpu_ctx)
    (request : radv_amdgpu_cs_request) (hist : list Z) (syncobj wait_point signal_point : Z) :
  pace_inv (pace_of ctx (r_ring request)) hist ->
  Z.of_nat (length hist) + 1 < 2 ^ 63 ->
  radv_xclipse_pace_begin d info ctx request = ((syncobj, wait_point, signal_point), ctx') ->
  pace_inv (pace_of ctx' (r_ring request)) hist
  /\ (signal_point <> 0 ->
        signal_point = Z.of_nat (length hist) + 1
        /\ forall seq_no, pace_inv (pace_of (radv_xclipse_pace_end ctx' (r_ring request) signal_point seq_no)
                                            (r_ring request)) (hist ++ [seq_no]))
  /\ (wait_point <> 0 ->
        wait_point = signal_point - 2
        /\ exists seq_no n, hist !! Z.to_nat (wait_point - 1) = Some seq_no
                            /\ d_expired d n seq_no = Some false)
  /\ (2 <= pace_mode info -> signal_point <> 0 -> (2 <= length hist)%nat -> wait_point = 0 ->
        exists seq_no n, hist !! (length hist - 2)%nat = Some seq_no
                         /\ d_expired d n seq_no <> Some false).
Proof.
  intros Hinv Hb. unfold radv_xclipse_pace_begin. set (ring := r_ring request) in *.
  destruct (_ || _); [intros [= <- <- <- <-]; by split_and!|].
  destruct (pace_mode info =? 0); [intros [= <- <- <- <-]; by split_and!|].
  set (min_ns := if 2 <=? pace_mode info then 0 else _). set (p0 := pace_of ctx ring) in *.
  set (created := if p_syncobj p0 =? 0 then _ else _).
  assert (pace_inv created.1.2 hist) as Hinv1.
  { subst created. destruct (p_syncobj p0 =? 0); [|done]. revert Hinv. by apply pace_inv_proper. }
  destruct created as [[ok p1] ctx1]. simpl in Hinv1.
  destruct ok; cbn [negb]; [|intros [= <- <- <- <-]; rewrite pace_of_with; by split_and!].
  set (p := pace_time p1 (now ctx1)).
  assert (pace_inv p hist) as Hp by (revert Hinv1; by apply pace_inv_proper).
  pose proof Hp as (Hc & Hlen & Hh).
  destruct (Z.ltb_spec (p_avg_ns p) (min_ns / 2)) as [Hav|Hav];
    [intros [= <- <- <- <-]; rewrite pace_of_with; by split_and!|].
  assert (u64 (p_count p + 1) = Z.of_nat (length hist) + 1) as Hsig
    by (rewrite u64_small by (unfold_words; lia); lia).
  assert (forall c seq_no, pace_of c ring = p ->
    pace_inv (pace_of (radv_xclipse_pace_end c ring (u64 (p_count p + 1)) seq_no) ring) (hist ++ [seq_no]))
    as Hend.
  { intros c seq_no Hcp. unfold radv_xclipse_pace_end. rewrite pace_of_with, Hcp, Hsig, <- Hc.
    by apply pace_inv_push. }
  destruct ((2 <=? p_count p) && (min_ns <=? p_avg_ns p)) eqn:Econd.
  - apply andb_prop in Econd as [Ec%Z.leb_le _].
    assert (u64 (p_count p - 1) = p_count p - 1) as Hw by (rewrite u64_small by (unfold_words; lia); lia).
    assert (hist !! Z.to_nat (p_count p - 1 - 1) = Some (p_seq p (p_count p - 1))) as Hlook
      by (apply Hh; lia).
    intros [= <- <- <- <-]. rewrite pace_of_call, pace_of_with. split_and!; [done| | |].
    + intros _. split; [done|]. intros seq_no. apply Hend. by rewrite pace_of_call, pace_of_with.
    + change (p_count p1) with (p_count p). case_bool_decide as Hex; [|done]. intros _. rewrite Hw, Hsig. split; [lia|].
      rewrite Hw in Hex. by eauto.
    + change (p_count p1) with (p_count p). intros _ _ _. case_bool_decide as Hex; [intros H0; exfalso; lia|]. intros _. rewrite Hw in Hex.
      eexists _, _. split; [|exact Hex]. rewrite <- Hlook. f_equal. lia.
  - intros [= <- <- <- <-]. rewrite pace_of_with. split_and!; [done| |done|].
    + intros _. split; [done|]. intros seq_no. apply Hend. by rewrite pace_of_with.
    + intros Hm _ Hl _. exfalso. apply andb_false_iff in Econd as [E%Z.leb_gt|E%Z.leb_gt]; [lia|].
      unfold min_ns in E. rewrite (proj2 (Z.leb_le 2 (pace_mode info))) in E by lia.
      unfold p, pace_time in E. simpl in E. pose proof (u64_range (u64 (p_avg_ns p1 - p_avg_ns p1 / 8)
        + Z.min (u64 (now ctx1 - p_last_ns p1)) 100000000 / 8)). lia.
Qed.

(** * Streams that do not fit *)

(** A stream that cannot chain its IBs and has more of them than a
    submission holds is never submitted: the loop makes no progress on it and runs into
    the assertion that it does. *)
Theorem oversized_stream_not_submitted (d : drm) (info : submit_info) (ws : cs_winsys_info)
    (ctx : radv_amdgpu_ctx) (queue_idx : Z) (waits signals : list (vk_sync * Z)) (b : batch)
    (cs : radv_amdgpu_cs) (rest : list radv_amdgpu_cs) (handles : list bo_list_entry) :
  b_cs b = cs :: rest -> Forall one_ib (b_initial b) -> 0 < ib_room b false ->
  ib_room b false < radv_amdgpu_submitted_ibs_per_cs cs
  \/ max_submitted_ibs info (hw_ip cs)
     < preamble_count b false (hw_ip cs) + radv_amdgpu_submitted_ibs_per_cs cs ->
  radv_amdgpu_winsys_cs_submit d info ws ctx queue_idx waits signals b (Some handles) = None.
Proof.
  intros Hcs Hone Hroom Hbig. unfold radv_amdgpu_winsys_cs_submit, radv_amdgpu_winsys_cs_submit_internal.
  destruct (last (b_cs b)) as [lst|]; [cbn [mbind option_bind]|done]. set (cap := Z.min _ _).
  destruct (if 8 <? cap then malloc d ctx else (true, ctx)) as [[] ctx1]; [|done].
  cbn [cassert mbind option_bind]. rewrite Hcs. cbn [submit_batch].
  pose proof (sum_ibs_nonneg (b_cs b)) as Hs. unfold ib_room in *. cbn [preambles] in *.
  destruct (copy_ambles_ok cap (secure_ib (b_secure b)) (b_initial b) [] (fun _ => 0)) as (f & -> & Hf).
  { done. } { unfold cap, radv_amdgpu_count_submitted_ibs. simpl length. lia. }
  cbn [mbind option_bind].
  rewrite u32_small by (unfold RADV_MAX_IBS_PER_SUBMIT in *; unfold_words; lia).
  cbn [fill_submit]. rewrite (proj2 (Z.ltb_lt _ _)) by lia. cbn [negb Nat.eqb].
  unfold must_break. rewrite Hf.
  change (count_ip (fun _ => 0) (b_initial b)) with (preamble_count b false).
  rewrite (proj2 (orb_true_iff _ _)); [|rewrite !Z.ltb_lt; lia]. cbn [mbind option_bind].
  rewrite (proj2 (Z.ltb_ge _ _)); [done|]. simpl. by rewrite length_amble_ibs.
Qed.

(** * A concrete batch *)

Definition demo_drm : drm :=
  Drm (fun _ => 1000%N) (fun n => Some (Z.of_nat n + 1)) (fun _ => true) (fun _ _ => Some false)
      (fun n _ => (EOK, Z.of_nat n)).

Definition demo_submit_info : submit_info :=
  SubmitInfo true true 1 77 (fun ip => match ip with AMD_IP_GFX => 4 | AMD_IP_COMPUTE => 3 | _ => 50 end).

Definition demo_submit_ws : cs_winsys_info :=
  Winsys GFX11 true true false true (fun _ => 256) (fun _ => 7).

Definition demo_cs (ip : amd_ip_type) (chain : bool) (ibs : list (Z * Z)) : radv_amdgpu_cs :=
  Cs (Cmdbuf 0 0 0 0) 0 0 None ((fun i => Ib None i.1 i.2) <$> ibs) 0 AtIbSize VK_SUCCESS None chain
     false ip init_cs_buffers None.

(** An unchained stream of two IBs, a compute follower with its graphics leader, and one
    more graphics stream, which needs a second submission. *)
Definition demo_batch : batch :=
  Batch [demo_cs AMD_IP_GFX false [(0x1000, 2); (0x2000, 2)];
         demo_cs AMD_IP_COMPUTE true [(0x3000, 2)];
         demo_cs AMD_IP_GFX true [(0x4000, 2)];
         demo_cs AMD_IP_GFX true [(0x5000, 2)]]
        [demo_cs AMD_IP_GFX true [(0x6000, 2)]] [demo_cs AMD_IP_GFX true [(0x7000, 2)]]
        [demo_cs AMD_IP_GFX true [(0x8000, 2)]] true true.

Definition demo_ctx : radv_amdgpu_ctx := Ctx ∅ ∅ ∅ ∅ 5000 0 [].

Lemma demo_accepting : accepting demo_drm.
Proof. split; try done. intros n. exists (Z.of_nat n + 1). split; [done|lia]. Qed.

Definition ib_okb (ws : cs_winsys_info) (ib : radv_amdgpu_cs_ib_info) : bool :=
  negb (ii_address ib =? 0) && (ii_address ib mod ib_alignment ws (ii_ip_type ib) =? 0)
  && (0 <? ii_size ib) && (ii_size ib <? 2 ^ 30).

Lemma ibs_ok_dec ws l : forallb (ib_okb ws) l = true -> Forall (ib_ok ws) l.
Proof.
  intros H. apply Forall_forall. intros ib Hin. rewrite forallb_forall in H.
  apply list_elem_of_In, H in Hin. unfold ib_okb in Hin. unfold ib_ok. lia.
Qed.

Ltac demo_ibs := apply ibs_ok_dec; vm_compute; reflexivity.

Lemma demo_batch_ok : batch_ok demo_submit_info demo_submit_ws AMD_IP_GFX demo_batch.
Proof.
  split; try (repeat constructor; by eexists).
  - split.
    + by repeat constructor.
    + split; [by left|split; [right; by eexists _, _|split; [by left|split; [by left|done]]]].
    + cbn [all_fit demo_batch b_cs]. split_and!; try done; intros []; vm_compute;
        (split_and!; try done; try (by left)); right; eexists _, _; split_and!; done.
    + demo_ibs.
  - intros []; demo_ibs.
  - demo_ibs.
  - by intros cs [= <-].
  - by intros [].
Qed.

Lemma submit_partitions_batch_witness :
  exists ctx' sem' groups new,
    radv_amdgpu_winsys_cs_submit demo_drm demo_submit_info demo_submit_ws demo_ctx 0
      [(SyncDrm 11, 5)] [(SyncDummy, 0); (SyncDrm 12, 6)] demo_batch (Some [])
    = Some (VK_SUCCESS, ctx', sem')
    /\ concat groups = b_cs demo_batch /\ accepted ctx' = [] ++ new
    /\ submitted demo_submit_info AMD_IP_GFX demo_batch [] false
         (SemInfo (SemCounts [] [(11, 5)]) (SemCounts [] [(12, 6)]) true true) groups new
    /\ Forall (fun s => Z.of_nat (length (chunk_ibs s)) <= RADV_MAX_IBS_PER_SUBMIT) new.
Proof.
  apply (submit_partitions_batch demo_drm demo_submit_info demo_submit_ws demo_ctx 0
           [(SyncDrm 11, 5)] [(SyncDummy, 0); (SyncDrm 12, 6)] demo_batch
           (demo_cs AMD_IP_GFX true [(0x5000, 2)]) []).
  - apply demo_accepting.
  - reflexivity.
  - apply demo_batch_ok.
Defined.

(** Every IB holds one NOP packet with its own payload. *)
Definition demo_ib_mem : gmap Z (list Z) :=
  list_to_map ((fun n => (n * 0x1000, [PKT3 PKT3_WRITE_DATA 0 0; n])) <$> seqZ 1 8).

Lemma submit_executes_batch_witness :
  exists ctx' sem' groups new,
    radv_amdgpu_winsys_cs_submit demo_drm demo_submit_info demo_submit_ws demo_ctx 0
      [] [] demo_batch (Some [])
    = Some (VK_SUCCESS, ctx', sem')
    /\ concat groups = b_cs demo_batch /\ accepted ctx' = [] ++ new
    /\ run_submissions 10 demo_ib_mem new
       = Some (batch_packets demo_batch (fun s => default [] (executed 10 demo_ib_mem s)) false groups).
Proof.
  apply (submit_executes_batch demo_drm demo_submit_info demo_submit_ws demo_ctx 0 [] [] demo_batch
           (demo_cs AMD_IP_GFX true [(0x5000, 2)]) [] 10 demo_ib_mem).
  - apply demo_accepting.
  - reflexivity.
  - apply demo_batch_ok.
  - apply Forall_forall. repeat (constructor; [vm_compute; reflexivity|]). constructor.
Defined.

Lemma cs_submit_returns_witness :
  exists result seq_no ctx' sem',
    radv_amdgpu_cs_submit demo_drm demo_submit_info demo_submit_ws demo_ctx
      (Request AMD_IP_GFX 0 0 [] [IbInfo 0 0x1000 8 AMD_IP_GFX])
      (SemInfo (SemCounts [] []) (SemCounts [] []) true true) = Some (result, seq_no, ctx', sem')
    /\ ((result = VK_SUCCESS /\ exists chunks, accepted ctx' = [] ++ [chunks])
        \/ (result <> VK_SUCCESS /\ accepted ctx' = [])).
Proof.
  apply (cs_submit_returns demo_drm demo_submit_info demo_submit_ws demo_ctx
           (Request AMD_IP_GFX 0 0 [] [IbInfo 0 0x1000 8 AMD_IP_GFX])
           (SemInfo (SemCounts [] []) (SemCounts [] []) true true)).
  - split; [demo_ibs|]. eexists. split; reflexivity.
  - reflexivity.
  - simpl. lia.
  - intros n. simpl. lia.
Defined.

(** A ring on which three jobs were submitted, long ones, and pacing is on. *)
Definition demo_paced : radv_amdgpu_ctx :=
  Ctx ∅ ∅ ∅ {[0 := Pace 9 3 12 13 0 900000]} 900000 0 [].

Lemma pace_two_jobs_back_witness :
  let r := radv_xclipse_pace_begin demo_drm demo_submit_info demo_paced
             (Request AMD_IP_GFX 0 0 [] []) in
  r.1 = (9, 2, 4)
  /\ pace_inv (pace_of (radv_xclipse_pace_end r.2 0 4 14) 0) ([11; 12; 13] ++ [14])
  /\ exists n, d_expired demo_drm n 12 = Some false.
Proof.
  destruct (radv_xclipse_pace_begin demo_drm demo_submit_info demo_paced
              (Request AMD_IP_GFX 0 0 [] [])) as [[[s w] g] c] eqn:E.
  pose proof E as E'. vm_compute in E'. injection E' as <- <- <- _.
  destruct (pace_two_jobs_back demo_drm demo_submit_info demo_paced c
              (Request AMD_IP_GFX 0 0 [] []) [11; 12; 13] 9 2 4) as (_ & H1 & H2 & _).
  - split_and!; [reflexivity|simpl; lia|]. intros n Hn Hr. change (p_count _) with 3 in Hr.
    assert (n = 2 \/ n = 3) as [-> | ->] by lia; reflexivity.
  - simpl. lia.
  - exact E.
  - destruct H1 as [_ H1]; [done|]. destruct H2 as (_ & s0 & n0 & Hs & Hx); [done|].
    injection Hs as <-. split_and!; [reflexivity|apply H1|by exists n0].
Defined.

Lemma oversized_stream_not_submitted_witness :
  radv_amdgpu_winsys_cs_submit demo_drm demo_submit_info demo_submit_ws demo_ctx 0 [] []
    (Batch [demo_cs AMD_IP_SDMA false ((fun n => (n * 256, 2)) <$> seqZ 1 51)] [] [] [] false false)
    (Some []) = None.
Proof.
  eapply (oversized_stream_not_submitted demo_drm demo_submit_info demo_submit_ws).
  - reflexivity.
  - constructor.
  - vm_compute. reflexivity.
  - right. vm_compute. reflexivity.
Defined.
