(* ===== verification/Barrier.v ===== *)
(** Pipeline barriers (src/amd/common/ac_barrier.c): the translation of barrier
    flags into cache-control and synchronization packets on GFX6-9 and GFX10+, and
    radv_cs_emit_cache_flush (src/amd/vulkan/radv_cs.c), which calls it. *)

From S2P Require Import Prelude Pm4.

(** * Flags (ac_barrier.h, ac_rgp.h) *)

Definition AC_BARRIER_INV_ICACHE : Z := 0x1.
Definition AC_BARRIER_INV_SMEM : Z := 0x2.
Definition AC_BARRIER_INV_VMEM : Z := 0x4.
Definition AC_BARRIER_INV_L2 : Z := 0x8.
Definition AC_BARRIER_WB_L2 : Z := 0x10.
Definition AC_BARRIER_INV_L2_METADATA : Z := 0x20.
Definition AC_BARRIER_SYNC_AND_INV_CB : Z := 0x40.
Definition AC_BARRIER_SYNC_AND_INV_CB_META : Z := 0x80.
Definition AC_BARRIER_SYNC_AND_INV_DB : Z := 0x100.
Definition AC_BARRIER_SYNC_AND_INV_DB_META : Z := 0x200.
Definition AC_BARRIER_PFP_SYNC_ME : Z := 0x400.
Definition AC_BARRIER_VGT_FLUSH : Z := 0x800.
Definition AC_BARRIER_VGT_STREAMOUT_SYNC : Z := 0x1000.
Definition AC_BARRIER_SYNC_VS : Z := 0x2000.
Definition AC_BARRIER_SYNC_PS : Z := 0x4000.
Definition AC_BARRIER_SYNC_CS : Z := 0x8000.
Definition AC_BARRIER_SYNC_BOTTOM_OF_PIPE : Z := 0x10000.
Definition AC_BARRIER_SYNC_CP_DMA : Z := 0x20000.
Definition AC_BARRIER_PIPELINESTAT_START : Z := 0x40000.
Definition AC_BARRIER_PIPELINESTAT_STOP : Z := 0x80000.

Definition AC_BARRIER_ALL_COMPUTE : Z :=
  lors [AC_BARRIER_INV_ICACHE; AC_BARRIER_INV_SMEM; AC_BARRIER_INV_VMEM; AC_BARRIER_INV_L2;
        AC_BARRIER_WB_L2; AC_BARRIER_INV_L2_METADATA; AC_BARRIER_SYNC_CS;
        AC_BARRIER_SYNC_BOTTOM_OF_PIPE; AC_BARRIER_PIPELINESTAT_START;
        AC_BARRIER_PIPELINESTAT_STOP].

Definition AC_RGP_FLUSH_WAIT_ON_EOP_TS : Z := 0x1.
Definition AC_RGP_FLUSH_VS_PARTIAL_FLUSH : Z := 0x2.
Definition AC_RGP_FLUSH_PS_PARTIAL_FLUSH : Z := 0x4.
Definition AC_RGP_FLUSH_CS_PARTIAL_FLUSH : Z := 0x8.
Definition AC_RGP_FLUSH_PFP_SYNC_ME : Z := 0x10.
Definition AC_RGP_FLUSH_SYNC_CP_DMA : Z := 0x20.
Definition AC_RGP_FLUSH_INVAL_VMEM_L0 : Z := 0x40.
Definition AC_RGP_FLUSH_INVAL_ICACHE : Z := 0x80.
Definition AC_RGP_FLUSH_INVAL_SMEM_L0 : Z := 0x100.
Definition AC_RGP_FLUSH_FLUSH_L2 : Z := 0x200.
Definition AC_RGP_FLUSH_INVAL_L2 : Z := 0x400.
Definition AC_RGP_FLUSH_FLUSH_CB : Z := 0x800.
Definition AC_RGP_FLUSH_INVAL_CB : Z := 0x1000.
Definition AC_RGP_FLUSH_FLUSH_DB : Z := 0x2000.
Definition AC_RGP_FLUSH_INVAL_DB : Z := 0x4000.
Definition AC_RGP_FLUSH_INVAL_L1 : Z := 0x8000.

Inductive ac_pws_acquire_point :=
| AC_PWS_ACQUIRE_POINT_NONE | AC_PWS_ACQUIRE_POINT_PRE_DEPTH
| AC_PWS_ACQUIRE_POINT_ME | AC_PWS_ACQUIRE_POINT_PFP.

(** [struct ac_barrier_state]; [wait_mem_number] is the value of the counter. *)
Record ac_barrier_state := BarrierState {
  flags : Z;
  pws_acquire_point : ac_pws_acquire_point;
  wait_mem_va : Z;
  wait_mem_number : Z;
  eop_bug_va : Z
}.

(** What a barrier appends to the command buffer and updates: the dwords, the RGP
    flush bits, the counter and whether the context rolled. *)
Record barrier_out := Out { dwords : list Z; rgp : Z; counter : Z; roll : bool }.

(** [flags & ~mask] *)
Definition clear (x mask : Z) : Z := Z.land x (W32 - 1 - mask).

Definition any (x : Z) (masks : list Z) : bool := has x (lors masks).

(** * Common parts *)

Definition ac_get_reduced_barrier_flags (g : amd_gfx_level) (ip : amd_ip_type) (fl : Z) : Z :=
  let fl := if ip_eq ip AMD_IP_COMPUTE then Z.land fl AC_BARRIER_ALL_COMPUTE else fl in
  let uses_ts_event :=
    gfx_ge g GFX9 && any fl [AC_BARRIER_SYNC_AND_INV_CB; AC_BARRIER_SYNC_AND_INV_DB;
                             AC_BARRIER_SYNC_BOTTOM_OF_PIPE] in
  if uses_ts_event
  then clear fl (lors [AC_BARRIER_SYNC_VS; AC_BARRIER_SYNC_PS; AC_BARRIER_SYNC_CS])
  else fl.

(** [ac_cmdbuf_set_sh_reg] of COMPUTE_PIPELINESTAT_ENABLE (0xB828); [remap] is the
    register map applied where an offset is emitted ([ac_titan_remap_dw]). *)
Definition set_pipelinestat_enable (remap : Z -> Z) (v : Z) : list Z :=
  [PKT3 PKT3_SET_SH_REG 1 0; dw (remap (Z.shiftr (0xB828 - 0xB000) 2)); v].

Definition ac_emit_common_barrier_flags (remap : Z -> Z) (g : amd_gfx_level) (ip : amd_ip_type)
    (fl : Z) : list Z :=
  let is_mec := ip_eq ip AMD_IP_COMPUTE && gfx_ge g GFX7 in
  (if has fl AC_BARRIER_PIPELINESTAT_START then
     if negb is_mec then ac_cmdbuf_event_write V_PIPELINESTAT_START
     else set_pipelinestat_enable remap 1
   else if has fl AC_BARRIER_PIPELINESTAT_STOP then
     if negb is_mec then ac_cmdbuf_event_write V_PIPELINESTAT_STOP
     else set_pipelinestat_enable remap 0
   else [])
  ++ (if has fl AC_BARRIER_VGT_FLUSH then ac_cmdbuf_event_write V_VGT_FLUSH else []).

Definition when (b : bool) (v : Z) : Z := if b then v else 0.
Definition emit_when (b : bool) (l : list Z) : list Z := if b then l else [].

(** * GFX10 and later *)

(** The cache operations the flags ask for, as GCR_CNTL. *)
Definition gfx10_gcr_cntl (g : amd_gfx_level) (fl : Z) : Z :=
  lors [when (has fl AC_BARRIER_INV_ICACHE) (S_587_GLI_INV V_587_GLI_ALL);
        when (has fl AC_BARRIER_INV_SMEM) (S_587_GLK_INV 1);
        when (has fl AC_BARRIER_INV_VMEM) (S_587_GLV_INV 1);
        when (gfx_lt g GFX12 && any fl [AC_BARRIER_INV_SMEM; AC_BARRIER_INV_VMEM])
             (S_587_GL1_INV 1);
        (if has fl AC_BARRIER_INV_L2 then Z.lor (S_587_GL2_INV 1) (S_587_GL2_WB 1)
         else when (has fl AC_BARRIER_WB_L2) (S_587_GL2_WB 1));
        when (gfx_lt g GFX12
              && any fl [AC_BARRIER_INV_L2; AC_BARRIER_WB_L2; AC_BARRIER_INV_L2_METADATA])
             (Z.lor (S_587_GLM_INV 1) (S_587_GLM_WB 1))].

Definition gfx10_cache_rgp (g : amd_gfx_level) (fl : Z) : Z :=
  lors [when (has fl AC_BARRIER_INV_ICACHE) AC_RGP_FLUSH_INVAL_ICACHE;
        when (has fl AC_BARRIER_INV_SMEM) AC_RGP_FLUSH_INVAL_SMEM_L0;
        when (has fl AC_BARRIER_INV_VMEM) AC_RGP_FLUSH_INVAL_VMEM_L0;
        when (gfx_lt g GFX12 && any fl [AC_BARRIER_INV_SMEM; AC_BARRIER_INV_VMEM])
             AC_RGP_FLUSH_INVAL_L1;
        (if has fl AC_BARRIER_INV_L2 then AC_RGP_FLUSH_INVAL_L2
         else when (has fl AC_BARRIER_WB_L2) AC_RGP_FLUSH_FLUSH_L2)].

Definition RGP_CB : Z := Z.lor AC_RGP_FLUSH_FLUSH_CB AC_RGP_FLUSH_INVAL_CB.
Definition RGP_DB : Z := Z.lor AC_RGP_FLUSH_FLUSH_DB AC_RGP_FLUSH_INVAL_DB.

(** The end-of-pipe event that flushes CB and DB, with its RGP bits. *)
Definition gfx10_eop_event (g : amd_gfx_level) (fl : Z) : option (Z * Z) :=
  let cb := has fl AC_BARRIER_SYNC_AND_INV_CB in
  let db := has fl AC_BARRIER_SYNC_AND_INV_DB in
  if (cb && db) || (gfx_eq g GFX11 && db)
  then Some (V_CACHE_FLUSH_AND_INV_TS_EVENT, Z.lor RGP_CB RGP_DB)
  else if cb then Some (V_FLUSH_AND_INV_CB_DATA_TS, RGP_CB)
  else if db then Some (V_FLUSH_AND_INV_DB_DATA_TS, RGP_DB)
  else assert! has fl AC_BARRIER_SYNC_BOTTOM_OF_PIPE ;; Some (V_BOTTOM_OF_PIPE_TS, 0).

(** The PWS stage and the GCR bits of the acquire, from the acquire point. *)
Definition gfx11_pws_stage (st : ac_barrier_state) (fl gcr_cntl : Z) : Z * Z :=
  let acquire_gcr_cntl := clear gcr_cntl C_587_GLI_INV in
  let default_stage := if has fl AC_BARRIER_PFP_SYNC_ME then V_581B_CP_PFP else V_581B_CP_ME in
  let gli := negb (G_587_GLI_INV acquire_gcr_cntl =? 0) in
  let acquire_point :=
    match pws_acquire_point st with
    | AC_PWS_ACQUIRE_POINT_NONE | AC_PWS_ACQUIRE_POINT_PRE_DEPTH =>
        if gli then AC_PWS_ACQUIRE_POINT_ME else pws_acquire_point st
    | p => p
    end in
  match acquire_point with
  | AC_PWS_ACQUIRE_POINT_PRE_DEPTH => (V_581B_PRE_DEPTH, 0)
  | AC_PWS_ACQUIRE_POINT_ME => (V_581B_CP_ME, acquire_gcr_cntl)
  | _ => (default_stage, acquire_gcr_cntl)
  end.

(** Release and acquire through PWS.  The acquire is emitted with the GLI_INV field
    of [gcr_cntl], not with the acquire bits computed for the stage. *)
Definition gfx11_emit_pws (g : amd_gfx_level) (ip : amd_ip_type) (st : ac_barrier_state)
    (fl eop_event gcr_cntl : Z) : option (list Z * Z) :=
  let! release := ac_emit_cp_release_mem_pws g ip eop_event (Z.land gcr_cntl C_587_GLI_INV) ;;
  let '(pws_stage, _) := gfx11_pws_stage st fl gcr_cntl in
  let! acquire := ac_emit_cp_acquire_mem_pws g ip eop_event pws_stage 0
                    (clear gcr_cntl C_587_GLI_INV) ;;
  Some (release ++ acquire,
        if pws_stage =? V_581B_CP_PFP then clear fl AC_BARRIER_PFP_SYNC_ME else fl).

(** The cache fields a RELEASE_MEM takes over from [gcr_cntl], and what stays. *)
Definition gfx10_release_flags (g : amd_gfx_level) (gcr_cntl : Z) : Z :=
  lors [(if gfx_ge g GFX12 then 0
         else lors [S_491_GLM_WB (G_587_GLM_WB gcr_cntl); S_491_GLM_INV (G_587_GLM_INV gcr_cntl);
                    S_491_GL1_INV (G_587_GL1_INV gcr_cntl)]);
        S_491_GLV_INV (G_587_GLV_INV gcr_cntl); S_491_GL2_INV (G_587_GL2_INV gcr_cntl);
        S_491_GL2_WB (G_587_GL2_WB gcr_cntl); S_491_SEQ (G_587_SEQ gcr_cntl)].

Definition gfx10_release_rest (g : amd_gfx_level) (gcr_cntl : Z) : Z :=
  let keep := if gfx_ge g GFX12 then W32 - 1
              else Z.land (Z.land C_587_GLM_WB C_587_GLM_INV) C_587_GL1_INV in
  Z.land gcr_cntl
    (Z.land (Z.land (Z.land keep C_587_GLV_INV) C_587_GL2_INV) C_587_GL2_WB).

(** Release and wait through memory. *)
Definition gfx10_emit_release_wait (g : amd_gfx_level) (ip : amd_ip_type)
    (st : ac_barrier_state) (eop_event gcr_cntl : Z) : option (list Z * Z * Z) :=
  assert! G_587_GL2_US gcr_cntl =? 0 ;;
  assert! G_587_GL2_RANGE gcr_cntl =? 0 ;;
  assert! G_587_GL2_DISCARD gcr_cntl =? 0 ;;
  assert! negb (wait_mem_va st =? 0) ;;
  let n := u32 (wait_mem_number st + 1) in
  let! release := ac_emit_cp_release_mem g ip eop_event (gfx10_release_flags g gcr_cntl)
                    EOP_DST_SEL_MEM EOP_INT_SEL_SEND_DATA_AFTER_WR_CONFIRM
                    EOP_DATA_SEL_VALUE_32BIT (wait_mem_va st) n (eop_bug_va st) ;;
  Some (release ++ ac_emit_cp_wait_mem (wait_mem_va st) n 0xffffffff WAIT_REG_MEM_EQUAL,
        gfx10_release_rest g gcr_cntl, n).

(** The part of a barrier that flushes CB or DB or waits for the end of the pipe:
    dwords, the cache operations and flags left, the counter, RGP bits. *)
Definition gfx10_emit_eop (g : amd_gfx_level) (ip : amd_ip_type) (st : ac_barrier_state)
    (fl gcr_cntl : Z) : option (list Z * Z * Z * Z * Z) :=
  let! (eop_event, rgp) := gfx10_eop_event g fl ;;
  let meta :=
    emit_when (gfx_lt g GFX12 && (eop_event =? V_FLUSH_AND_INV_CB_DATA_TS))
              (ac_cmdbuf_event_write V_FLUSH_AND_INV_CB_META)
    ++ emit_when (gfx_lt g GFX12 && (eop_event =? V_FLUSH_AND_INV_DB_DATA_TS))
                 (ac_cmdbuf_event_write V_FLUSH_AND_INV_DB_META) in
  let gcr_cntl := Z.lor gcr_cntl (S_587_SEQ V_587_SEQ_FORWARD) in
  if gfx_ge g GFX11 && ip_eq ip AMD_IP_GFX then
    let! (ds, fl) := gfx11_emit_pws g ip st fl eop_event gcr_cntl ;;
    Some (meta ++ ds, 0, fl, wait_mem_number st, Z.lor rgp AC_RGP_FLUSH_WAIT_ON_EOP_TS)
  else
    let! (ds, gcr_cntl, n) := gfx10_emit_release_wait g ip st eop_event gcr_cntl ;;
    Some (meta ++ ds, gcr_cntl, fl, n, Z.lor rgp AC_RGP_FLUSH_WAIT_ON_EOP_TS).

(** Otherwise shaders are waited for by partial flushes. *)
Definition gfx10_emit_partial_flushes (g : amd_gfx_level) (fl : Z) : list Z * Z :=
  let vs := has fl AC_BARRIER_SYNC_VS && (gfx_lt g GFX12 || negb (has fl AC_BARRIER_SYNC_PS)) in
  let ps := has fl AC_BARRIER_SYNC_PS in
  let cs := has fl AC_BARRIER_SYNC_CS in
  (emit_when vs (ac_cmdbuf_event_write V_VS_PARTIAL_FLUSH)
   ++ emit_when ps (ac_cmdbuf_event_write V_PS_PARTIAL_FLUSH)
   ++ emit_when cs (ac_cmdbuf_event_write V_CS_PARTIAL_FLUSH),
   lors [when vs AC_RGP_FLUSH_VS_PARTIAL_FLUSH; when ps AC_RGP_FLUSH_PS_PARTIAL_FLUSH;
         when cs AC_RGP_FLUSH_CS_PARTIAL_FLUSH]).

(** The mask of the fields that are operations of their own. *)
Definition gfx10_op_mask (g : amd_gfx_level) : Z :=
  Z.land (Z.land C_587_GL2_RANGE C_587_SEQ) (if gfx_ge g GFX12 then W32 - 1 else C_587_GL1_RANGE).

Definition gfx10_emit_acquire (g : amd_gfx_level) (ip : amd_ip_type) (fl gcr_cntl : Z)
  : option (list Z * Z * bool) :=
  if has gcr_cntl (gfx10_op_mask g) then
    let! (ds, rolled, sync) :=
      ac_emit_cp_acquire_mem g ip
        (if has fl AC_BARRIER_PFP_SYNC_ME then V_581A_PREFETCH_PARSER else V_581A_MICRO_ENGINE)
        gcr_cntl ;;
    Some (ds, when sync AC_RGP_FLUSH_PFP_SYNC_ME, rolled)
  else if has fl AC_BARRIER_PFP_SYNC_ME && ip_eq ip AMD_IP_GFX then
    Some (ac_emit_cp_pfp_sync_me false, AC_RGP_FLUSH_PFP_SYNC_ME, false)
  else Some ([], 0, false).

Definition ac_gfx10_emit_barrier (remap : Z -> Z) (g : amd_gfx_level) (ip : amd_ip_type)
    (st : ac_barrier_state) (rgp0 : Z) : option barrier_out :=
  let fl := ac_get_reduced_barrier_flags g ip (flags st) in
  if fl =? 0 then Some (Out [] rgp0 (wait_mem_number st) false)
  else
    let common := ac_emit_common_barrier_flags remap g ip fl in
    assert! negb (any fl [AC_BARRIER_SYNC_AND_INV_DB_META; AC_BARRIER_VGT_STREAMOUT_SYNC]) ;;
    assert! gfx_lt g GFX12 || negb (has fl AC_BARRIER_INV_L2_METADATA) ;;
    let gcr_cntl := gfx10_gcr_cntl g fl in
    let rgp1 := Z.lor rgp0 (gfx10_cache_rgp g fl) in
    let! (sync, gcr_cntl, fl, n, rgp2) :=
      (if any fl [AC_BARRIER_SYNC_AND_INV_CB; AC_BARRIER_SYNC_AND_INV_DB;
                  AC_BARRIER_SYNC_BOTTOM_OF_PIPE]
       then gfx10_emit_eop g ip st fl gcr_cntl
       else let '(ds, r) := gfx10_emit_partial_flushes g fl in
            Some (ds, gcr_cntl, fl, wait_mem_number st, r)) ;;
    let! (acq, rgp3, rolled) := gfx10_emit_acquire g ip fl gcr_cntl ;;
    Some (Out (common ++ sync ++ acq) (Z.lor (Z.lor rgp1 rgp2) rgp3) n rolled).

(** * GFX6 to GFX9 *)

(** CP_COHER_CNTL (0x0085F0, 0x0301F0) *)
Definition S_0085F0_CB_DEST_BASE_ENA_ALL : Z := S_field 6 8 0xff.
Definition S_0085F0_DB_DEST_BASE_ENA (x : Z) : Z := S_field 14 1 x.
Definition S_0085F0_TCL1_ACTION_ENA (x : Z) : Z := S_field 22 1 x.
Definition S_0085F0_TC_ACTION_ENA (x : Z) : Z := S_field 23 1 x.
Definition S_0085F0_CB_ACTION_ENA (x : Z) : Z := S_field 25 1 x.
Definition S_0085F0_DB_ACTION_ENA (x : Z) : Z := S_field 26 1 x.
Definition S_0085F0_SH_KCACHE_ACTION_ENA (x : Z) : Z := S_field 27 1 x.
Definition S_0085F0_SH_ICACHE_ACTION_ENA (x : Z) : Z := S_field 29 1 x.
Definition S_0301F0_TC_NC_ACTION_ENA (x : Z) : Z := S_field 3 1 x.
Definition S_0301F0_TC_WB_ACTION_ENA (x : Z) : Z := S_field 18 1 x.

Definition EVENT_TC_WB_ACTION_ENA : Z := Z.shiftl 1 15.
Definition EVENT_TC_ACTION_ENA : Z := Z.shiftl 1 17.
Definition EVENT_TC_MD_ACTION_ENA : Z := Z.shiftl 1 21.

(** Everything but the TC bits. *)
Definition gfx6_coher_cntl (g : amd_gfx_level) (fl : Z) : Z :=
  lors [when (has fl AC_BARRIER_INV_ICACHE) (S_0085F0_SH_ICACHE_ACTION_ENA 1);
        when (has fl AC_BARRIER_INV_SMEM) (S_0085F0_SH_KCACHE_ACTION_ENA 1);
        when (gfx_le g GFX8 && has fl AC_BARRIER_SYNC_AND_INV_CB)
             (Z.lor (S_0085F0_CB_ACTION_ENA 1) S_0085F0_CB_DEST_BASE_ENA_ALL);
        when (gfx_le g GFX8 && has fl AC_BARRIER_SYNC_AND_INV_DB)
             (Z.lor (S_0085F0_DB_ACTION_ENA 1) (S_0085F0_DB_DEST_BASE_ENA 1))].

Definition gfx6_cache_rgp (g : amd_gfx_level) (fl : Z) : Z :=
  lors [when (has fl AC_BARRIER_INV_ICACHE) AC_RGP_FLUSH_INVAL_ICACHE;
        when (has fl AC_BARRIER_INV_SMEM) AC_RGP_FLUSH_INVAL_SMEM_L0;
        when (gfx_le g GFX8 && has fl AC_BARRIER_SYNC_AND_INV_CB) RGP_CB;
        when (gfx_le g GFX8 && has fl AC_BARRIER_SYNC_AND_INV_DB) RGP_DB].

(** GFX8 flushes DCC with an event of its own. *)
Definition gfx8_emit_dcc_flush (g : amd_gfx_level) (ip : amd_ip_type) (st : ac_barrier_state)
    (fl : Z) : option (list Z) :=
  if gfx_eq g GFX8 && has fl AC_BARRIER_SYNC_AND_INV_CB then
    ac_emit_cp_release_mem g ip V_FLUSH_AND_INV_CB_DATA_TS 0 EOP_DST_SEL_MEM EOP_INT_SEL_NONE
      EOP_DATA_SEL_DISCARD 0 0 (eop_bug_va st)
  else Some [].

Definition EOP_FLUSH_FLAGS : Z :=
  lors [AC_BARRIER_SYNC_AND_INV_CB; AC_BARRIER_SYNC_AND_INV_DB; AC_BARRIER_SYNC_BOTTOM_OF_PIPE].

Definition gfx6_emit_waits (g : amd_gfx_level) (fl : Z) : list Z * Z :=
  let shaders := gfx_le g GFX8 || negb (has fl EOP_FLUSH_FLAGS) in
  let ps := shaders && has fl AC_BARRIER_SYNC_PS in
  let vs := shaders && negb (has fl AC_BARRIER_SYNC_PS) && has fl AC_BARRIER_SYNC_VS in
  let cs := has fl AC_BARRIER_SYNC_CS in
  (emit_when (has fl AC_BARRIER_SYNC_AND_INV_CB_META)
             (ac_cmdbuf_event_write V_FLUSH_AND_INV_CB_META)
   ++ emit_when (has fl AC_BARRIER_SYNC_AND_INV_DB_META)
                (ac_cmdbuf_event_write V_FLUSH_AND_INV_DB_META)
   ++ emit_when ps (ac_cmdbuf_event_write V_PS_PARTIAL_FLUSH)
   ++ emit_when vs (ac_cmdbuf_event_write V_VS_PARTIAL_FLUSH)
   ++ emit_when cs (ac_cmdbuf_event_write V_CS_PARTIAL_FLUSH),
   lors [when ps AC_RGP_FLUSH_PS_PARTIAL_FLUSH; when vs AC_RGP_FLUSH_VS_PARTIAL_FLUSH;
         when cs AC_RGP_FLUSH_CS_PARTIAL_FLUSH]).

(** The TS event on GFX9, with its RGP bits. *)
Definition gfx9_eop_event (g : amd_gfx_level) (eop_flush_flags : Z) : Z * Z :=
  if gfx_eq g GFX9 then
    let cb := has eop_flush_flags AC_BARRIER_SYNC_AND_INV_CB in
    let db := has eop_flush_flags AC_BARRIER_SYNC_AND_INV_DB in
    if cb && db then (V_CACHE_FLUSH_AND_INV_TS_EVENT, Z.lor RGP_CB RGP_DB)
    else if cb then (V_FLUSH_AND_INV_CB_DATA_TS, RGP_CB)
    else if db then (V_FLUSH_AND_INV_DB_DATA_TS, RGP_DB)
    else (V_BOTTOM_OF_PIPE_TS, 0)
  else (V_BOTTOM_OF_PIPE_TS, 0).

(** L2 operations that go with the TS event: the TC flags, the flags left, RGP. *)
Definition gfx8_tc_flags (g : amd_gfx_level) (fl : Z) : Z * Z * Z :=
  if gfx_ge g GFX8 then
    let '(tc, fl) :=
      if has fl AC_BARRIER_INV_L2_METADATA then
        (Z.lor EVENT_TC_ACTION_ENA
               (if gfx_eq g GFX9 then EVENT_TC_MD_ACTION_ENA else EVENT_TC_WB_ACTION_ENA),
         clear fl AC_BARRIER_INV_L2_METADATA)
      else (0, fl) in
    if has fl AC_BARRIER_INV_L2 then
      (Z.lor EVENT_TC_ACTION_ENA EVENT_TC_WB_ACTION_ENA,
       clear fl (Z.lor AC_BARRIER_INV_L2 AC_BARRIER_WB_L2), AC_RGP_FLUSH_INVAL_L2)
    else (tc, fl, 0)
  else (0, fl, 0).

(** Dwords, flags left, counter, RGP bits. *)
Definition gfx6_emit_eop (g : amd_gfx_level) (ip : amd_ip_type) (st : ac_barrier_state) (fl : Z)
  : option (list Z * Z * Z * Z) :=
  let eop_flush_flags := Z.land fl EOP_FLUSH_FLAGS in
  if (gfx_eq g GFX9 && negb (eop_flush_flags =? 0)) || has fl AC_BARRIER_SYNC_BOTTOM_OF_PIPE then
    let '(eop_event, rgp) := gfx9_eop_event g eop_flush_flags in
    assert! negb (eop_event =? V_BOTTOM_OF_PIPE_TS) || has fl AC_BARRIER_SYNC_BOTTOM_OF_PIPE ;;
    let '(tc_flags, fl, rgp_l2) := gfx8_tc_flags g fl in
    assert! negb (wait_mem_va st =? 0) ;;
    let n := u32 (wait_mem_number st + 1) in
    let! release := ac_emit_cp_release_mem g ip eop_event tc_flags EOP_DST_SEL_MEM
                      EOP_INT_SEL_SEND_DATA_AFTER_WR_CONFIRM EOP_DATA_SEL_VALUE_32BIT
                      (wait_mem_va st) n (eop_bug_va st) ;;
    Some (release ++ ac_emit_cp_wait_mem (wait_mem_va st) n 0xffffffff WAIT_REG_MEM_EQUAL,
          fl, n, lors [rgp; AC_RGP_FLUSH_WAIT_ON_EOP_TS; rgp_l2])
  else Some ([], fl, wait_mem_number st, 0).

(** The ACQUIRE_MEM or SURFACE_SYNC packets at the end: dwords, RGP bits, whether
    the context rolled. *)
Definition gfx6_emit_acquires (g : amd_gfx_level) (ip : amd_ip_type) (fl cp_coher_cntl : Z)
  : option (list Z * Z * bool) :=
  let is_mec := ip_eq ip AMD_IP_COMPUTE && gfx_ge g GFX7 in
  let engine :=
    if has fl AC_BARRIER_PFP_SYNC_ME then V_581A_PREFETCH_PARSER else V_581A_MICRO_ENGINE in
  if has fl AC_BARRIER_INV_L2 || (gfx_le g GFX7 && has fl AC_BARRIER_WB_L2) then
    let! (ds, rolled, sync) :=
      ac_emit_cp_acquire_mem g ip engine
        (lors [cp_coher_cntl; S_0085F0_TC_ACTION_ENA 1; S_0085F0_TCL1_ACTION_ENA 1;
               S_0301F0_TC_WB_ACTION_ENA (b2z (gfx_ge g GFX8))]) ;;
    Some (ds, lors [when sync AC_RGP_FLUSH_PFP_SYNC_ME; AC_RGP_FLUSH_INVAL_L2;
                    AC_RGP_FLUSH_INVAL_VMEM_L0], rolled)
  else
    let! (wb, fl, cp_coher_cntl, rgp1, roll1) :=
      (if has fl AC_BARRIER_WB_L2 then
         let last_acquire_mem := negb (has fl AC_BARRIER_INV_VMEM) in
         let! (ds, rolled, sync) :=
           ac_emit_cp_acquire_mem g ip (if last_acquire_mem then engine else V_581A_MICRO_ENGINE)
             (lors [cp_coher_cntl; S_0301F0_TC_WB_ACTION_ENA 1; S_0301F0_TC_NC_ACTION_ENA 1]) ;;
         Some (ds, if last_acquire_mem then clear fl AC_BARRIER_PFP_SYNC_ME else fl, 0,
               lors [when sync AC_RGP_FLUSH_PFP_SYNC_ME; AC_RGP_FLUSH_FLUSH_L2;
                     AC_RGP_FLUSH_INVAL_VMEM_L0], rolled)
       else Some ([], fl, cp_coher_cntl, 0, false)) ;;
    let vmem := has fl AC_BARRIER_INV_VMEM in
    let cp_coher_cntl := Z.lor cp_coher_cntl (when vmem (S_0085F0_TCL1_ACTION_ENA 1)) in
    let! (acq, fl, rgp2, roll2) :=
      (if negb (cp_coher_cntl =? 0) then
         let! (ds, rolled, sync) := ac_emit_cp_acquire_mem g ip engine cp_coher_cntl ;;
         Some (ds, clear fl AC_BARRIER_PFP_SYNC_ME, when sync AC_RGP_FLUSH_PFP_SYNC_ME, rolled)
       else Some ([], fl, 0, false)) ;;
    let pfp := has fl AC_BARRIER_PFP_SYNC_ME && negb is_mec in
    Some (wb ++ acq ++ emit_when pfp (ac_emit_cp_pfp_sync_me false),
          lors [rgp1; when vmem AC_RGP_FLUSH_INVAL_VMEM_L0; rgp2; when pfp AC_RGP_FLUSH_PFP_SYNC_ME],
          roll1 || roll2).

Definition ac_gfx6_emit_barrier (remap : Z -> Z) (g : amd_gfx_level) (ip : amd_ip_type)
    (st : ac_barrier_state) (rgp0 : Z) : option barrier_out :=
  let fl := ac_get_reduced_barrier_flags g ip (flags st) in
  if fl =? 0 then Some (Out [] rgp0 (wait_mem_number st) false)
  else
    let common := ac_emit_common_barrier_flags remap g ip fl in
    let cp_coher_cntl := gfx6_coher_cntl g fl in
    let! dcc := gfx8_emit_dcc_flush g ip st fl ;;
    let '(waits, rgp2) := gfx6_emit_waits g fl in
    let! (eop, fl, n, rgp3) := gfx6_emit_eop g ip st fl ;;
    let streamout := emit_when (has fl AC_BARRIER_VGT_STREAMOUT_SYNC)
                               (ac_cmdbuf_event_write V_VGT_STREAMOUT_SYNC) in
    let! (acq, rgp4, rolled) := gfx6_emit_acquires g ip fl cp_coher_cntl ;;
    Some (Out (common ++ dcc ++ waits ++ eop ++ streamout ++ acq)
              (lors [rgp0; gfx6_cache_rgp g (ac_get_reduced_barrier_flags g ip (flags st));
                     rgp2; rgp3; rgp4]) n rolled).

Definition ac_emit_barrier (remap : Z -> Z) (g : amd_gfx_level) (ip : amd_ip_type)
    (st : ac_barrier_state) (rgp0 : Z) : option barrier_out :=
  if gfx_ge g GFX10 then ac_gfx10_emit_barrier remap g ip st rgp0
  else ac_gfx6_emit_barrier remap g ip st rgp0.

