(* ===== verification/BarrierSpec.v ===== *)
(** What a barrier does, read back from the packets it emits: the cache operations
    and the stages it waits for, and the lemmas about the packets of
    src/amd/common/ac_barrier.c the theorems of BarrierProofs use. *)

From S2P Require Import Prelude Pm4 Barrier.

(** * The cache operations in a command stream (GFX10+)

    Read back from the packets: GCR_CNTL of an ACQUIRE_MEM, and the cache fields of a
    RELEASE_MEM in the layout of GCR_CNTL. *)
Inductive gcr_op := GLI_INV | GLM_WB | GLM_INV | GLK_INV | GLV_INV | GL1_INV | GL2_INV | GL2_WB.

Definition op_lo (o : gcr_op) : Z :=
  match o with
  | GLI_INV => 0 | GLM_WB => 4 | GLM_INV => 5 | GLK_INV => 7 | GLV_INV => 8 | GL1_INV => 9
  | GL2_INV => 14 | GL2_WB => 15
  end.
Definition op_width (o : gcr_op) : Z := match o with GLI_INV => 2 | _ => 1 end.
Definition op_field (o : gcr_op) (gcr : Z) : Z := G_field (op_lo o) (op_width o) gcr.

Definition decode_gcr (p : list Z) : Z :=
  match p with
  | [h; _; _; _; _; _; _; gcr] =>
      if PKT3_IT_OPCODE_G h =? PKT3_ACQUIRE_MEM then gcr
      else if PKT3_IT_OPCODE_G h =? PKT3_RELEASE_MEM then
        match p with
        | _ :: d :: _ =>
            lors [S_587_GLM_WB (G_field 12 1 d); S_587_GLM_INV (G_field 13 1 d);
                  S_587_GLV_INV (G_field 14 1 d); S_587_GL1_INV (G_field 15 1 d);
                  S_587_GL2_INV (G_field 20 1 d); S_587_GL2_WB (G_field 21 1 d);
                  S_587_GLK_INV (G_field 30 1 d)]
        | _ => 0
        end
      else 0
  | _ => 0
  end.

(** The packets of a stream, and all cache operations they carry. *)
Definition packets (ds : list Z) : list (list Z) := default [] (parse ds).
Definition stream_gcr (ds : list Z) : Z := lors (decode_gcr <$> packets ds).

(** What the flags ask for. *)
Definition requested (g : amd_gfx_level) (fl : Z) (o : gcr_op) : bool :=
  match o with
  | GLI_INV => has fl AC_BARRIER_INV_ICACHE
  | GLK_INV => has fl AC_BARRIER_INV_SMEM
  | GLV_INV => has fl AC_BARRIER_INV_VMEM
  | GL1_INV => gfx_lt g GFX12 && (has fl AC_BARRIER_INV_SMEM || has fl AC_BARRIER_INV_VMEM)
  | GL2_INV => has fl AC_BARRIER_INV_L2
  | GL2_WB => has fl AC_BARRIER_INV_L2 || has fl AC_BARRIER_WB_L2
  | GLM_INV | GLM_WB =>
      gfx_lt g GFX12 && (has fl AC_BARRIER_INV_L2 || has fl AC_BARRIER_WB_L2
                         || has fl AC_BARRIER_INV_L2_METADATA)
  end.

Lemma lors_app a b : lors (a ++ b) = Z.lor (lors a) (lors b).
Proof.
  unfold lors. induction a as [|x a IH]; simpl; [by rewrite Z.lor_0_l|].
  by rewrite IH, Z.lor_assoc.
Qed.

Lemma packets_concat ps : Forall framed ps -> packets (concat ps) = ps.
Proof. intros. unfold packets. by rewrite parse_concat. Qed.

Lemma has_lor x a b : has x (Z.lor a b) = has x a || has x b.
Proof.
  unfold has. rewrite Z.land_lor_distr_r.
  destruct (Z.eqb_spec (Z.land x a) 0) as [->|Ha], (Z.eqb_spec (Z.land x b) 0) as [->|Hb]; simpl.
  - done.
  - rewrite Z.lor_0_l. by rewrite (proj2 (Z.eqb_neq _ _)).
  - rewrite Z.lor_0_r. by rewrite (proj2 (Z.eqb_neq _ _)).
  - destruct (Z.eqb_spec (Z.lor (Z.land x a) (Z.land x b)) 0) as [E|]; [|done].
    by apply Z.lor_eq_0_iff in E as [? _].
Qed.

Lemma has_0_r x : has x 0 = false.
Proof. unfold has. by rewrite Z.land_0_r. Qed.

Lemma any_cons x m ms : any x (m :: ms) = has x m || any x ms.
Proof. unfold any. simpl. apply has_lor. Qed.

Lemma any_nil x : any x [] = false.
Proof. apply has_0_r. Qed.

Lemma G_when lo w b x : G_field lo w (when b x) = when b (G_field lo w x).
Proof. destruct b; [done|]. apply G_field_0. Qed.

Lemma when_0 b : when b 0 = 0.
Proof. by destruct b. Qed.

Lemma when_1 b : when b 1 = b2z b.
Proof. done. Qed.

(** A field of a wrapped word. *)
Lemma G_field_u32 lo w x : 0 <= lo -> 0 <= w -> lo + w <= 32 -> G_field lo w (u32 x) = G_field lo w x.
Proof.
  intros. apply Z.bits_inj'. intros n Hn. rewrite !G_field_testbit by lia.
  destruct (Z.ltb_spec n w); [|done]. unfold u32, W32. change 4294967296 with (2 ^ 32).
  by rewrite Z.mod_pow2_bits_low by lia.
Qed.

(** Fields kept and dropped by a mask. *)
Lemma G_land lo w x y :
  0 <= lo -> 0 <= w -> G_field lo w (Z.land x y) = Z.land (G_field lo w x) (G_field lo w y).
Proof.
  intros. apply Z.bits_inj'. intros n Hn. rewrite Z.land_spec, !G_field_testbit, Z.land_spec by lia.
  by destruct (n <? w).
Qed.

(** A mask keeps or drops a field. *)
Lemma G_land_ones lo w x y :
  0 <= lo -> 0 <= w -> G_field lo w y = Z.ones w -> G_field lo w (Z.land x y) = G_field lo w x.
Proof.
  intros ?? E. rewrite G_land, E by lia. rewrite Z.land_ones by lia.
  apply Z.mod_small. by apply G_field_range.
Qed.

Lemma G_land_zero lo w x y :
  0 <= lo -> 0 <= w -> G_field lo w y = 0 -> G_field lo w (Z.land x y) = 0.
Proof. intros ?? E. by rewrite G_land, E, Z.land_0_r by lia. Qed.

Lemma G_ones lo w x : 0 <= w -> Z.land (G_field lo w x) (Z.ones w) = G_field lo w x.
Proof. intros. apply land_ones_small; [done|by apply G_field_range]. Qed.

Ltac gcr_names :=
  unfold op_field, G_587_GLI_INV, G_587_GLM_WB, G_587_GLM_INV, G_587_GLK_INV, G_587_GLV_INV,
    G_587_GL1_INV, G_587_GL2_INV, G_587_GL2_WB, G_587_GL2_US, G_587_GL2_RANGE,
    G_587_GL2_DISCARD, G_587_GL1_RANGE, S_587_GLI_INV, S_587_GLM_WB, S_587_GLM_INV,
    S_587_GLK_INV, S_587_GLV_INV, S_587_GL1_INV, S_587_GL2_INV, S_587_GL2_WB, S_587_SEQ,
    G_587_SEQ, G_587_GLK_WB, S_491_GLM_WB, S_491_GLM_INV, S_491_GLV_INV, S_491_GL1_INV,
    S_491_GL2_INV, S_491_GL2_WB, S_491_SEQ, S_491_GLK_WB, S_491_GLK_INV, S_491_PWS_ENABLE,
    EVENT_TYPE, EVENT_INDEX, lors, dw, clear in *;
  cbn [foldr op_lo op_width] in *.

(** Read a field of a word assembled with [|], conditions and masks. *)
Ltac read_gcr :=
  repeat first
    [ rewrite G_field_u32 by lia
    | rewrite G_lor by lia | rewrite G_when | rewrite G_S_same by lia | rewrite G_S_other by lia
    | rewrite G_land_ones by (lia || by vm_compute)
    | rewrite G_land_zero by (lia || by vm_compute)
    | rewrite G_field_0 | rewrite when_0 | rewrite Z.lor_0_l | rewrite Z.lor_0_r
    | rewrite G_ones by lia | rewrite land_ones_small by lia ].

Ltac flag_cases fl g :=
  repeat match goal with
         | |- context [has fl ?m] => destruct (has fl m) eqn:?
         | |- context [gfx_lt g ?m] => destruct (gfx_lt g m) eqn:?
         end.

(** [gcr_cntl] asks for exactly the requested operations. *)
Lemma gcr_cntl_requested g fl o : op_field o (gfx10_gcr_cntl g fl) = b2z (requested g fl o).
Proof.
  unfold gfx10_gcr_cntl. rewrite !any_cons, !any_nil, !orb_false_r, !orb_assoc.
  destruct o; simpl requested; destruct (has fl AC_BARRIER_INV_L2); gcr_names; read_gcr;
    cbn [orb]; rewrite ?andb_true_r; flag_cases fl g; done.
Qed.

(** It sets no field that only modifies others. *)
Lemma gcr_cntl_no_modifier g fl lo w :
  In (lo, w) [(2, 2); (6, 1); (10, 1); (11, 2); (13, 1); (16, 2)] ->
  G_field lo w (gfx10_gcr_cntl g fl) = 0.
Proof.
  simpl. intros H. unfold gfx10_gcr_cntl. rewrite !any_cons, !any_nil.
  destruct (has fl AC_BARRIER_INV_L2);
    repeat (destruct H as [[= <- <-]|H]); try done; gcr_names; by read_gcr.
Qed.

Lemma op_field_lor o x y : op_field o (Z.lor x y) = Z.lor (op_field o x) (op_field o y).
Proof. unfold op_field. apply G_lor; by destruct o. Qed.

Lemma op_field_0 o : op_field o 0 = 0.
Proof. apply G_field_0. Qed.

(** * Streams as packet lists *)

Definition packs (ds : list Z) (ps : list (list Z)) : Prop := Forall framed ps /\ ds = concat ps.

Lemma packs_packets ds ps : packs ds ps -> packets ds = ps.
Proof. intros [H ->]. by apply packets_concat. Qed.

Lemma packs_framed ds ps : packs ds ps -> well_framed ds.
Proof. intros [H ->]. by exists ps. Qed.

Lemma packs_nil : packs [] [].
Proof. by split. Qed.

Lemma packs_app a b ps qs : packs a ps -> packs b qs -> packs (a ++ b) (ps ++ qs).
Proof. intros [? ->] [? ->]. by split; [apply Forall_app|rewrite concat_app]. Qed.

Lemma packs_PKT3 op count pred body :
  0 <= op < 0x100 -> 0 <= count < 0x3fff -> length body = Z.to_nat (count + 1) ->
  packs (PKT3 op count pred :: body) [PKT3 op count pred :: body].
Proof.
  intros. split; [constructor; [by apply framed_PKT3|done]|]. simpl. by rewrite app_nil_r.
Qed.

(** Packets that are not eight dwords long carry no cache operation. *)
Definition silent (ps : list (list Z)) : Prop := Forall (fun p => length p <> 8%nat) ps.

Lemma lors_fmap_app ps qs :
  lors (decode_gcr <$> ps ++ qs) = Z.lor (lors (decode_gcr <$> ps)) (lors (decode_gcr <$> qs)).
Proof. by rewrite fmap_app, lors_app. Qed.

Lemma decode_gcr_short p : length p <> 8%nat -> decode_gcr p = 0.
Proof. by do 9 (destruct p as [|? p]; [done|]). Qed.

Lemma silent_gcr ps : silent ps -> lors (decode_gcr <$> ps) = 0.
Proof.
  induction 1 as [|p ps Hp _ IH]; [done|].
  change (p :: ps) with ([p] ++ ps). rewrite lors_fmap_app, IH, Z.lor_0_r. simpl.
  by rewrite decode_gcr_short, Z.lor_0_r.
Qed.

Definition quiet (ds : list Z) : Prop := exists ps, packs ds ps /\ silent ps.

Lemma quiet_nil : quiet [].
Proof. exists []. split; [apply packs_nil|constructor]. Qed.

Lemma quiet_app a b : quiet a -> quiet b -> quiet (a ++ b).
Proof.
  intros (ps & ? & ?) (qs & ? & ?). exists (ps ++ qs).
  split; [by apply packs_app|by apply Forall_app].
Qed.

Lemma quiet_if (b : bool) x y : quiet x -> quiet y -> quiet (if b then x else y).
Proof. by destruct b. Qed.

Lemma quiet_PKT3 op count pred body :
  0 <= op < 0x100 -> 0 <= count < 0x3fff -> count <> 6 ->
  length body = Z.to_nat (count + 1) -> quiet (PKT3 op count pred :: body).
Proof.
  intros. eexists. split; [by apply packs_PKT3|]. constructor; [simpl; lia|constructor].
Qed.

#[export] Hint Resolve quiet_nil quiet_app quiet_if : radv.
#[export] Hint Extern 3 (quiet (PKT3 _ _ _ :: _)) =>
  (apply quiet_PKT3; [done|lia|lia|simpl; lia]) : radv.

Lemma quiet_event_write e : quiet (ac_cmdbuf_event_write e).
Proof. unfold ac_cmdbuf_event_write. auto with radv. Qed.

Lemma quiet_wait_mem va r m f : quiet (ac_emit_cp_wait_mem va r m f).
Proof. unfold ac_emit_cp_wait_mem. auto with radv. Qed.

Lemma quiet_pfp_sync_me p : quiet (ac_emit_cp_pfp_sync_me p).
Proof. unfold ac_emit_cp_pfp_sync_me. auto with radv. Qed.

Lemma quiet_pipelinestat remap v : quiet (set_pipelinestat_enable remap v).
Proof. unfold set_pipelinestat_enable. auto with radv. Qed.

Lemma quiet_when b ds : quiet ds -> quiet (emit_when b ds).
Proof. intros. unfold emit_when. auto with radv. Qed.

#[export] Hint Resolve quiet_event_write quiet_wait_mem quiet_pfp_sync_me quiet_pipelinestat
  quiet_when : radv.

Lemma quiet_framed ds : quiet ds -> well_framed ds.
Proof. intros (ps & ? & _). by eapply packs_framed. Qed.

Lemma quiet_gcr ds : quiet ds -> stream_gcr ds = 0.
Proof.
  intros (ps & Hp & Hs). unfold stream_gcr. rewrite (packs_packets _ _ Hp). by apply silent_gcr.
Qed.

Lemma stream_gcr_app a b :
  well_framed a -> well_framed b -> stream_gcr (a ++ b) = Z.lor (stream_gcr a) (stream_gcr b).
Proof.
  intros (pa & Ha & ->) (pb & Hb & ->). unfold stream_gcr.
  rewrite <- concat_app, !packets_concat by (done || by apply Forall_app). apply lors_fmap_app.
Qed.

Lemma stream_gcr_one p : framed p -> stream_gcr p = decode_gcr p.
Proof.
  intros Hp. unfold stream_gcr. rewrite <- (app_nil_r p) at 1.
  change (p ++ []) with (concat [p]). rewrite packets_concat by (by constructor).
  simpl. apply Z.lor_0_r.
Qed.

Lemma common_quiet remap g ip fl : quiet (ac_emit_common_barrier_flags remap g ip fl).
Proof. unfold ac_emit_common_barrier_flags. cbv zeta. auto 12 with radv. Qed.

Lemma partial_flushes_quiet g fl : quiet (gfx10_emit_partial_flushes g fl).1.
Proof. unfold gfx10_emit_partial_flushes. simpl. auto 10 with radv. Qed.

(** ** The acquire *)

Lemma acquire_mem_gcr g ip eng c :
  gfx_ge g GFX10 = true -> c <> 0 -> eng = V_581A_PREFETCH_PARSER \/ eng = V_581A_MICRO_ENGINE ->
  exists p, ac_emit_cp_acquire_mem g ip eng c = Some (p, false, false) /\ framed p /\
            decode_gcr p = u32 c.
Proof.
  intros Hg Hc He. unfold ac_emit_cp_acquire_mem. rewrite Hg.
  rewrite (proj2 (Z.eqb_neq c 0)) by done.
  assert ((eng =? V_581A_PREFETCH_PARSER) || (eng =? V_581A_MICRO_ENGINE) = true) as E
    by (destruct He; subst; done).
  rewrite <- orb_assoc, E, orb_true_r. simpl.
  eexists. split; [done|]. split; [by apply framed_PKT3|].
  unfold decode_gcr. by rewrite PKT3_opcode.
Qed.

Lemma op_mask_field g o : G_field (op_lo o) (op_width o) (gfx10_op_mask g) = Z.ones (op_width o).
Proof. unfold gfx10_op_mask. by destruct (gfx_ge g GFX12), o. Qed.

(** The final acquire performs all operations left in [gcr_cntl]. *)
Lemma emit_acquire_gcr g ip fl gcr :
  gfx_ge g GFX10 = true ->
  exists ds r b, gfx10_emit_acquire g ip fl gcr = Some (ds, r, b) /\ well_framed ds /\
    forall o, op_field o (stream_gcr ds) = op_field o gcr.
Proof.
  intros Hg. unfold gfx10_emit_acquire. destruct (has gcr (gfx10_op_mask g)) eqn:Hm.
  - destruct (acquire_mem_gcr g ip (if has fl AC_BARRIER_PFP_SYNC_ME then V_581A_PREFETCH_PARSER
                                    else V_581A_MICRO_ENGINE) gcr) as (p & -> & Hf & Hd).
    + done.
    + intros ->. unfold has in Hm. by rewrite Z.land_0_l in Hm.
    + destruct (has fl _); auto.
    + eexists _, _, _. split; [done|]. split; [by apply well_framed_one|].
      intros o. rewrite stream_gcr_one, Hd by done. unfold op_field.
      rewrite G_field_u32; by destruct o.
  - assert (forall o, op_field o gcr = 0) as Hz.
    { intros o. unfold has in Hm. apply negb_false_iff, Z.eqb_eq in Hm.
      unfold op_field. rewrite <- (G_land_ones _ _ _ (gfx10_op_mask g)).
      - rewrite Hm. apply G_field_0.
      - by destruct o.
      - by destruct o.
      - apply op_mask_field. }
    assert (quiet (ac_emit_cp_pfp_sync_me false)) as Hq by auto with radv.
    destruct (_ && _); eexists _, _, _; (split; [done|]).
    + split; [by apply quiet_framed|]. intros o. by rewrite quiet_gcr, op_field_0, Hz.
    + split; [apply well_framed_nil|]. intros o. by rewrite quiet_gcr, op_field_0, Hz by apply quiet_nil.
Qed.

(** * What a stream waits for

    Read back from the packets: partial flushes, an end-of-pipe write of a value to
    memory and the wait for it, and their PWS forms, where an acquire names the
    stage that waits and how many events may be outstanding. *)
Inductive sync_op :=
| Event (event : Z)
| Release (event va value : Z)
| ReleasePws (event : Z)
| WaitMem (va value : Z)
| AcquirePws (stage count : Z)
| NoSync.

Definition decode_sync (p : list Z) : sync_op :=
  match p with
  | h :: d :: rest =>
      let op := PKT3_IT_OPCODE_G h in
      let event := G_field 0 6 d in
      if op =? PKT3_EVENT_WRITE then Event event
      else if op =? PKT3_RELEASE_MEM then
        if (length rest =? 6)%nat && (G_field 31 1 d =? 1) then ReleasePws event
        else match rest with
             | sel :: lo :: hi :: v :: _ =>
                 if G_field 29 3 sel =? EOP_DATA_SEL_VALUE_32BIT
                 then Release event (lo + hi * W32) v else NoSync
             | _ => NoSync
             end
      else if op =? PKT3_EVENT_WRITE_EOP then
        match rest with
        | lo :: sel :: v :: _ =>
            if G_field 29 3 sel =? EOP_DATA_SEL_VALUE_32BIT
            then Release event (lo + G_field 0 16 sel * W32) v else NoSync
        | _ => NoSync
        end
      else if op =? PKT3_WAIT_REG_MEM then
        match rest with
        | lo :: hi :: v :: mask :: _ =>
            if (G_field 4 2 d =? 1) && (G_field 0 3 d =? WAIT_REG_MEM_EQUAL)
               && (mask =? 0xffffffff)
            then WaitMem (lo + hi * W32) v else NoSync
        | _ => NoSync
        end
      else if op =? PKT3_ACQUIRE_MEM then
        if (length rest =? 6)%nat && (G_field 17 1 d =? 1) && (G_field 14 2 d =? V_581B_TS_SELECT)
        then AcquirePws (G_field 11 3 d) (G_field 18 6 d) else NoSync
      else NoSync
  | _ => NoSync
  end.

Inductive stage := StageCB | StageDB | StageVS | StagePS | StageCS | StageAll.

Definition event_flushes (event : Z) (s : stage) : bool :=
  match s with
  | StageCB => (event =? V_CACHE_FLUSH_AND_INV_TS_EVENT) || (event =? V_FLUSH_AND_INV_CB_DATA_TS)
  | StageDB => (event =? V_CACHE_FLUSH_AND_INV_TS_EVENT) || (event =? V_FLUSH_AND_INV_DB_DATA_TS)
  | _ => is_ts_event event
  end.

(** A PS partial flush waits for the vertex stages too, except on GFX10 to GFX11.7. *)
Definition event_waits (g : amd_gfx_level) (event : Z) (s : stage) : bool :=
  match s with
  | StageVS => (event =? V_VS_PARTIAL_FLUSH)
               || ((event =? V_PS_PARTIAL_FLUSH) && (gfx_lt g GFX10 || gfx_ge g GFX12))
  | StagePS => event =? V_PS_PARTIAL_FLUSH
  | StageCS => event =? V_CS_PARTIAL_FLUSH
  | _ => false
  end.

Definition waits_for (va value : Z) (op : sync_op) : bool :=
  match op with WaitMem a v => (a =? va) && (v =? value) | _ => false end.

(** What is held until the wait is over: every later command, at the command
    processor, or only the depth and fragment work of later draws. *)
Inductive hold_point := HoldCommands | HoldPreDepth.

(** A PWS acquire holds what passes its stage; the command processor itself only
    waits when the stage is its prefetch parser or its micro engine. *)
Definition acquire_holds (h : hold_point) (op : sync_op) : bool :=
  match op with
  | AcquirePws stg n =>
      (n =? 0) && ((stg =? V_581B_CP_PFP) || (stg =? V_581B_CP_ME)
                   || match h with HoldCommands => false | HoldPreDepth => stg =? V_581B_PRE_DEPTH end)
  | _ => false
  end.

(** What [h] names is held until [s] is done. *)
Fixpoint completes (g : amd_gfx_level) (h : hold_point) (s : stage) (ops : list sync_op) : bool :=
  match ops with
  | [] => false
  | op :: rest =>
      match op with
      | Event e => event_waits g e s
      | Release e va v => event_flushes e s && existsb (waits_for va v) rest
      | ReleasePws e => event_flushes e s && existsb (acquire_holds h) rest
      | _ => false
      end || completes g h s rest
  end.

Definition stream_sync (ds : list Z) : list sync_op := decode_sync <$> packets ds.

(** What the flags ask for. *)
Definition sync_requested (fl : Z) (s : stage) : bool :=
  has fl match s with
         | StageCB => AC_BARRIER_SYNC_AND_INV_CB
         | StageDB => AC_BARRIER_SYNC_AND_INV_DB
         | StageVS => AC_BARRIER_SYNC_VS
         | StagePS => AC_BARRIER_SYNC_PS
         | StageCS => AC_BARRIER_SYNC_CS
         | StageAll => AC_BARRIER_SYNC_BOTTOM_OF_PIPE
         end.

(** ** The release *)

Lemma addr_split va : 0 <= va < W64 -> addr_lo va + addr_hi va * W32 = va.
Proof.
  unfold addr_lo, addr_hi, u32. unfold_words. intros. rewrite Z.shiftr_div_pow2 by lia.
  change (2 ^ 32) with 4294967296.
  rewrite (Z.mod_small (va / _)); [pose proof (Z.div_mod va 4294967296); lia|].
  split; [apply Z.div_pos; lia|apply Z.div_lt_upper_bound; lia].
Qed.

Lemma is_ts_event_cases ev :
  is_ts_event ev = true -> In ev [V_CACHE_FLUSH_TS; V_CACHE_FLUSH_AND_INV_TS_EVENT;
    V_BOTTOM_OF_PIPE_TS; V_FLUSH_AND_INV_DB_DATA_TS; V_FLUSH_AND_INV_CB_DATA_TS].
Proof. unfold is_ts_event. rewrite !orb_true_iff, !Z.eqb_eq. simpl. intuition auto. Qed.

Definition gcr_plain (gcr : Z) : Prop :=
  Forall (fun f => G_field f.1 f.2 gcr = 0) [(2, 2); (6, 1); (10, 1); (11, 2); (13, 1)].

Lemma wait_mem_sync va n :
  0 <= va < W64 ->
  decode_sync (ac_emit_cp_wait_mem va n 0xffffffff WAIT_REG_MEM_EQUAL) = WaitMem va (u32 n).
Proof.
  intros. unfold ac_emit_cp_wait_mem, decode_sync. rewrite PKT3_opcode by done.
  simpl. by rewrite addr_split.
Qed.

(** No metadata and L1 operation on GFX12, which has neither. *)
Definition gcr_gfx12 (g : amd_gfx_level) (gcr : Z) : Prop :=
  gfx_ge g GFX12 = true ->
  op_field GLM_WB gcr = 0 /\ op_field GLM_INV gcr = 0 /\ op_field GL1_INV gcr = 0.

Lemma gfx_ge_trans_10 g : gfx_ge g GFX11 = true -> gfx_ge g GFX10 = true.
Proof. by destruct g. Qed.

Lemma release_mem_gfx10 g ip ev fl va n bug :
  gfx_ge g GFX10 = true -> is_ts_event ev = true ->
  ac_emit_cp_release_mem g ip ev fl EOP_DST_SEL_MEM EOP_INT_SEL_SEND_DATA_AFTER_WR_CONFIRM
    EOP_DATA_SEL_VALUE_32BIT va n bug
  = Some [PKT3 PKT3_RELEASE_MEM 6 0; dw (lors [EVENT_TYPE ev; EVENT_INDEX 5; fl]); 0x23000000;
          addr_lo va; addr_hi va; dw n; 0; 0].
Proof.
  intros Hg He. apply is_ts_event_cases in He. unfold ac_emit_cp_release_mem.
  assert (gfx_ge g GFX9 = true /\ gfx_eq g GFX7 = false /\ gfx_eq g GFX9 = false) as (-> & -> & ->)
    by (destruct g; done).
  simpl in He. by destruct He as [<-|[<-|[<-|[<-|[<-|[]]]]]]; rewrite orb_true_r.
Qed.

(** The cache operations and the event of the dword a RELEASE_MEM carries. *)
Definition release_gcr (d : Z) : Z :=
  lors [S_587_GLM_WB (G_field 12 1 d); S_587_GLM_INV (G_field 13 1 d);
        S_587_GLV_INV (G_field 14 1 d); S_587_GL1_INV (G_field 15 1 d);
        S_587_GL2_INV (G_field 20 1 d); S_587_GL2_WB (G_field 21 1 d);
        S_587_GLK_INV (G_field 30 1 d)].

Lemma decode_gcr_release d a b c e f i :
  decode_gcr [PKT3 PKT3_RELEASE_MEM 6 0; d; a; b; c; e; f; i] = release_gcr d.
Proof. unfold decode_gcr. by rewrite PKT3_opcode. Qed.

Definition released (o : gcr_op) : bool :=
  match o with GLI_INV | GLK_INV => false | _ => true end.

Lemma release_flags_gcr g ev idx gcr o :
  gcr_gfx12 g gcr ->
  op_field o (release_gcr (dw (lors [EVENT_TYPE ev; EVENT_INDEX idx; gfx10_release_flags g gcr])))
  = when (released o) (op_field o gcr).
Proof.
  intros H12. unfold release_gcr, gfx10_release_flags, gcr_gfx12 in *.
  destruct (gfx_ge g GFX12) eqn:E.
  - destruct (H12 eq_refl) as (Ha & Hb & Hc). destruct o; gcr_names; read_gcr; cbn [when released];
      done || congruence.
  - destruct o; gcr_names; read_gcr; done.
Qed.

Lemma release_flags_event g ev idx gcr :
  0 <= ev < 64 ->
  G_field 0 6 (dw (lors [EVENT_TYPE ev; EVENT_INDEX idx; gfx10_release_flags g gcr])) = ev.
Proof.
  intros. unfold gfx10_release_flags. destruct (gfx_ge g GFX12); gcr_names; read_gcr; done.
Qed.

Lemma release_flags_pws g ev idx gcr :
  G_field 31 1 (dw (lors [EVENT_TYPE ev; EVENT_INDEX idx; gfx10_release_flags g gcr])) = 0.
Proof.
  unfold gfx10_release_flags. destruct (gfx_ge g GFX12); gcr_names; read_gcr; done.
Qed.

Lemma release_rest_gcr g gcr o :
  gcr_gfx12 g gcr ->
  op_field o (gfx10_release_rest g gcr) = when (negb (released o)) (op_field o gcr).
Proof.
  intros H12. unfold gfx10_release_rest, gcr_gfx12 in *. destruct (gfx_ge g GFX12) eqn:E.
  - destruct (H12 eq_refl) as (Ha & Hb & Hc). destruct o; gcr_names; read_gcr; cbn [when released negb];
      done || congruence.
  - destruct o; gcr_names; read_gcr; done.
Qed.

Lemma when_split b x : Z.lor (when b x) (when (negb b) x) = x.
Proof. destruct b; simpl; [apply Z.lor_0_r|done]. Qed.
