(* ===== verification/BarrierPackets.v ===== *)
(** The packets of a GFX10+ barrier: what the release, the wait and the acquire of
    src/amd/common/ac_barrier.c read back as. *)

From S2P Require Import Prelude Pm4 Barrier BarrierSpec.

Lemma eop_event_ok g fl :
  any fl [AC_BARRIER_SYNC_AND_INV_CB; AC_BARRIER_SYNC_AND_INV_DB;
          AC_BARRIER_SYNC_BOTTOM_OF_PIPE] = true ->
  exists ev r, gfx10_eop_event g fl = Some (ev, r) /\ is_ts_event ev = true /\
    forall s, sync_requested fl s = true -> event_flushes ev s = true.
Proof.
  rewrite !any_cons, any_nil, orb_false_r. unfold gfx10_eop_event, sync_requested. intros H.
  destruct (has fl AC_BARRIER_SYNC_AND_INV_CB) eqn:Ecb, (has fl AC_BARRIER_SYNC_AND_INV_DB) eqn:Edb,
    (gfx_eq g GFX11), (has fl AC_BARRIER_SYNC_BOTTOM_OF_PIPE) eqn:Eb; simpl in H |- *; try done;
    eexists _, _; (split; [done|]); (split; [done|]); intros []; congruence || done.
Qed.

(** ** Release and wait through memory *)

Lemma release_wait_ok g ip st ev gcr :
  gfx_ge g GFX10 = true -> is_ts_event ev = true -> 0 < wait_mem_va st < W64 ->
  gcr_plain gcr -> gcr_gfx12 g gcr ->
  exists ds, gfx10_emit_release_wait g ip st ev gcr
             = Some (ds, gfx10_release_rest g gcr, u32 (wait_mem_number st + 1)) /\
    well_framed ds /\
    (forall o, op_field o (stream_gcr ds) = when (released o) (op_field o gcr)) /\
    stream_sync ds = [Release ev (wait_mem_va st) (u32 (wait_mem_number st + 1));
                      WaitMem (wait_mem_va st) (u32 (wait_mem_number st + 1))].
Proof.
  intros Hg He Hva Hp H12. unfold gfx10_emit_release_wait.
  rewrite release_mem_gfx10 by done.
  apply Forall_cons in Hp as [_ Hp]. apply Forall_cons in Hp as [_ Hp].
  apply Forall_cons in Hp as [H1 Hp]. apply Forall_cons in Hp as [H2 Hp].
  apply Forall_cons in Hp as [H3 _]. simpl in H1, H2, H3.
  unfold G_587_GL2_US, G_587_GL2_RANGE, G_587_GL2_DISCARD. rewrite H1, H2, H3.
  rewrite (proj2 (Z.eqb_neq (wait_mem_va st) 0)) by lia.
  cbn [cassert negb mbind option_bind Z.eqb].
  eexists. split; [done|].
  set (rel := [PKT3 PKT3_RELEASE_MEM 6 0; _; _; _; _; _; _; _]).
  set (wait := ac_emit_cp_wait_mem _ _ _ _).
  assert (framed rel) as Fr by by apply framed_PKT3.
  assert (framed wait) as Fw by by apply framed_PKT3.
  assert (packs (rel ++ wait) [rel; wait]) as Hpk.
  { split; [by repeat constructor|]. cbn [concat]. by rewrite app_nil_r. }
  split; [by eapply packs_framed|]. split.
  - intros o. rewrite stream_gcr_app, (quiet_gcr wait) by (apply quiet_wait_mem || by apply well_framed_one).
    rewrite Z.lor_0_r, stream_gcr_one by done. unfold rel.
    rewrite decode_gcr_release. by apply release_flags_gcr.
  - unfold stream_sync. rewrite (packs_packets _ _ Hpk). cbn [fmap list_fmap].
    unfold wait. rewrite wait_mem_sync by lia. f_equal.
    + unfold rel, decode_sync. rewrite PKT3_opcode by done.
      rewrite release_flags_event, release_flags_pws, addr_split
        by (lia || apply is_ts_event_cases in He; simpl in He; intuition subst; vm_compute; done).
      simpl. unfold dw. f_equal. unfold u32. by rewrite Zmod_mod.
    + f_equal. unfold u32. by rewrite Zmod_mod.
Qed.

(** ** Release and wait through PWS *)

(** What the release takes: everything but GLI_INV. *)
Definition pws_release_word (g : amd_gfx_level) (ev gcr : Z) : Z :=
  lors [EVENT_TYPE ev; EVENT_INDEX 5;
        (if gfx_ge g GFX12 then 0
         else lors [S_491_GLM_WB (G_587_GLM_WB gcr); S_491_GLM_INV (G_587_GLM_INV gcr);
                    S_491_GL1_INV (G_587_GL1_INV gcr)]);
        S_491_GLV_INV (G_587_GLV_INV gcr); S_491_GL2_INV (G_587_GL2_INV gcr);
        S_491_GL2_WB (G_587_GL2_WB gcr); S_491_SEQ (G_587_SEQ gcr);
        S_491_GLK_WB (G_587_GLK_WB gcr); S_491_GLK_INV (G_587_GLK_INV gcr);
        S_491_PWS_ENABLE 1].

Definition is_gli (o : gcr_op) : bool := match o with GLI_INV => true | _ => false end.

Lemma pws_word_gcr g ev gcr o :
  gcr_gfx12 g gcr ->
  op_field o (release_gcr (pws_release_word g ev (Z.land gcr C_587_GLI_INV)))
  = when (negb (is_gli o)) (op_field o gcr).
Proof.
  intros H12. unfold release_gcr, pws_release_word, gcr_gfx12 in *.
  destruct (gfx_ge g GFX12) eqn:E.
  - destruct (H12 eq_refl) as (Ha & Hb & Hc).
    destruct o; gcr_names; read_gcr; cbn [when is_gli negb]; done || congruence.
  - destruct o; gcr_names; read_gcr; done.
Qed.

Lemma pws_word_event g ev gcr :
  0 <= ev < 64 -> G_field 0 6 (pws_release_word g ev gcr) = ev.
Proof. intros. unfold pws_release_word. destruct (gfx_ge g GFX12); gcr_names; read_gcr; done. Qed.

Lemma pws_word_enable g ev gcr : G_field 31 1 (pws_release_word g ev gcr) = 1.
Proof. unfold pws_release_word. destruct (gfx_ge g GFX12); gcr_names; read_gcr; done. Qed.

Lemma ts_event_range ev : is_ts_event ev = true -> 0 <= ev < 64.
Proof. intros H%is_ts_event_cases. simpl in H. intuition subst; vm_compute; done. Qed.

Lemma release_mem_pws_ok g ip ev gcr :
  gfx_ge g GFX11 = true -> ip = AMD_IP_GFX -> is_ts_event ev = true -> gcr_plain gcr ->
  ac_emit_cp_release_mem_pws g ip ev (Z.land gcr C_587_GLI_INV)
  = Some [PKT3 PKT3_RELEASE_MEM 6 0; pws_release_word g ev (Z.land gcr C_587_GLI_INV);
          0; 0; 0; 0; 0; 0].
Proof.
  intros Hg -> He Hp. unfold ac_emit_cp_release_mem_pws. rewrite Hg, He.
  apply Forall_cons in Hp as [H0 Hp]. apply Forall_cons in Hp as [_ Hp].
  apply Forall_cons in Hp as [H1 Hp]. apply Forall_cons in Hp as [H2 Hp].
  apply Forall_cons in Hp as [H3 _]. simpl in H0, H1, H2, H3.
  assert (negb (ev =? V_PS_DONE) && negb (ev =? V_CS_DONE) = true) as ->
    by (apply is_ts_event_cases in He; simpl in He; intuition subst; done).
  assert (G_587_GLI_INV (Z.land gcr C_587_GLI_INV) = 0) as -> by by apply G_land_zero.
  assert (G_587_GL1_RANGE (Z.land gcr C_587_GLI_INV) = 0) as ->
    by (rewrite <- H0; by apply G_land_ones).
  assert (G_587_GL2_US (Z.land gcr C_587_GLI_INV) = 0) as ->
    by (rewrite <- H1; by apply G_land_ones).
  assert (G_587_GL2_RANGE (Z.land gcr C_587_GLI_INV) = 0) as ->
    by (rewrite <- H2; by apply G_land_ones).
  assert (G_587_GL2_DISCARD (Z.land gcr C_587_GLI_INV) = 0) as ->
    by (rewrite <- H3; by apply G_land_ones).
  by rewrite !orb_true_r.
Qed.

(** A GLI_INV left for the acquire keeps the acquire at ME or PFP, so the bits passed
    to the acquire are those computed for the stage. *)
Lemma pws_stage_ok st fl gcr :
  let '(stg, acq) := gfx11_pws_stage st fl gcr in
  acq = clear gcr C_587_GLI_INV /\ stg <> V_581B_PRE_COLOR /\
  ((acq =? 0) || (stg =? V_581B_CP_PFP) || (stg =? V_581B_CP_ME)) = true /\
  (stg = V_581B_CP_PFP -> has fl AC_BARRIER_PFP_SYNC_ME = true) /\
  (stg = V_581B_PRE_DEPTH ->
   pws_acquire_point st = AC_PWS_ACQUIRE_POINT_PRE_DEPTH /\ op_field GLI_INV gcr = 0) /\
  In stg [V_581B_PRE_DEPTH; V_581B_CP_PFP; V_581B_CP_ME].
Proof.
  unfold gfx11_pws_stage. unfold op_field.
  rewrite <- (G_land_ones (op_lo GLI_INV) (op_width GLI_INV) gcr (W32 - 1 - C_587_GLI_INV)) by done.
  change (Z.land gcr (W32 - 1 - C_587_GLI_INV)) with (clear gcr C_587_GLI_INV).
  change (G_field (op_lo GLI_INV) (op_width GLI_INV)) with G_587_GLI_INV.
  destruct (Z.eqb_spec (G_587_GLI_INV (clear gcr C_587_GLI_INV)) 0) as [E|E].
  - assert (clear gcr C_587_GLI_INV = 0) as ->.
    { unfold clear in *. change (W32 - 1 - C_587_GLI_INV) with (Z.ones 2) in *.
      rewrite <- E. unfold G_587_GLI_INV, G_field. by rewrite Z.shiftr_0_r, <- Z.land_assoc. }
    destruct (pws_acquire_point st), (has fl AC_BARRIER_PFP_SYNC_ME); simpl; split_and!; try done; auto.
  - destruct (pws_acquire_point st), (has fl AC_BARRIER_PFP_SYNC_ME); simpl;
      rewrite ?orb_true_r; split_and!; try done; auto.
Qed.
