(* ===== verification/BarrierProofs.v ===== *)
(** Barriers on GFX10 and later perform exactly the cache operations their flags ask
    for, and wait for every stage the flags name. *)

From S2P Require Import Prelude Pm4 Barrier BarrierSpec BarrierPackets.

Lemma acquire_mem_pws_ok g ip ev stg gcr :
  gfx_ge g GFX11 = true -> ip = AMD_IP_GFX -> is_ts_event ev = true ->
  stg <> V_581B_PRE_COLOR -> 0 <= stg < 8 ->
  ((gcr =? 0) || (stg =? V_581B_CP_PFP) || (stg =? V_581B_CP_ME)) = true ->
  exists p, ac_emit_cp_acquire_mem_pws g ip ev stg 0 gcr = Some p /\ framed p /\
            decode_gcr p = u32 gcr /\ decode_sync p = AcquirePws stg 0.
Proof.
  intros Hg -> He Hc Hr Hs. unfold ac_emit_cp_acquire_mem_pws. rewrite Hg, He, Hs.
  rewrite (proj2 (Z.eqb_neq stg _)) by done.
  assert ((ev =? V_CS_DONE) = false /\ (ev =? V_PS_DONE) = false) as [-> ->]
    by (apply is_ts_event_cases in He; simpl in He; intuition subst; done).
  cbn. eexists. split; [done|]. split; [by apply framed_PKT3|].
  split; [unfold decode_gcr; by rewrite PKT3_opcode|].
  unfold decode_sync. rewrite PKT3_opcode by done. cbn [length Nat.eqb].
  rewrite !G_lor, !G_S_same, !G_S_other by lia. cbn. rewrite !Z.lor_0_r.
  by rewrite (land_ones_small stg 3) by done.
Qed.

(** A barrier's synchronizing part: the cache operations it performs and those it
    leaves, and the stages [P] it holds [h] for. *)
Definition performs (g : amd_gfx_level) (h : hold_point) (gcr : Z) (P : stage -> bool) (ds : list Z) (rest : Z) : Prop :=
  well_framed ds /\
  (forall o, Z.lor (op_field o (stream_gcr ds)) (op_field o rest) = op_field o gcr) /\
  (forall s, P s = true -> completes g h s (stream_sync ds) = true).

(** Later commands run ahead of a PWS wait at PRE_DEPTH, which the driver only uses
    when the barrier allows it and the instruction caches stay. *)
Definition may_hold (h : hold_point) (st : ac_barrier_state) (gcr : Z) : Prop :=
  h = HoldCommands -> pws_acquire_point st = AC_PWS_ACQUIRE_POINT_PRE_DEPTH ->
  op_field GLI_INV gcr <> 0.

Lemma pws_ok g h ip st fl ev gcr P :
  gfx_ge g GFX11 = true -> ip = AMD_IP_GFX -> is_ts_event ev = true ->
  gcr_plain gcr -> gcr_gfx12 g gcr ->
  (forall s, P s = true -> event_flushes ev s = true) -> may_hold h st gcr ->
  exists ds fl', gfx11_emit_pws g ip st fl ev gcr = Some (ds, fl') /\ performs g h gcr P ds 0.
Proof.
  intros Hg Hip He Hp H12 Hfl Hh. unfold gfx11_emit_pws. rewrite release_mem_pws_ok by done.
  cbn [mbind option_bind]. pose proof (pws_stage_ok st fl gcr) as Hst.
  destruct (gfx11_pws_stage st fl gcr) as [stg acq]. destruct Hst as (-> & Hc & Hs & _ & Hpd & Hin).
  destruct (acquire_mem_pws_ok g ip ev stg (clear gcr C_587_GLI_INV)) as (p & -> & Hf & Hd & Hy);
    [done|done|done|done|simpl in Hin; intuition subst; done|done|].
  assert (acquire_holds h (AcquirePws stg 0) = true) as Hah.
  { destruct Hin as [<-|[<-|[<-|[]]]]; [|done..]. destruct h; [|done].
    destruct (Hpd eq_refl) as [Hpt Hz]. by destruct (Hh eq_refl Hpt). } cbn [mbind option_bind]. eexists _, _. split; [done|].
  set (rel := [PKT3 PKT3_RELEASE_MEM 6 0; _; _; _; _; _; _; _]).
  assert (framed rel) as Fr by by apply framed_PKT3.
  assert (packs (rel ++ p) [rel; p]) as Hpk.
  { split; [by repeat constructor|]. cbn [concat]. by rewrite app_nil_r. }
  split; [by eapply packs_framed|]. split.
  - intros o. rewrite op_field_0, Z.lor_0_r.
    rewrite stream_gcr_app, !stream_gcr_one, Hd, op_field_lor by (done || by apply well_framed_one).
    unfold rel. rewrite decode_gcr_release, pws_word_gcr by done.
    destruct o; cbn [when is_gli negb]; gcr_names; read_gcr; done.
  - intros s Hr. unfold stream_sync. rewrite (packs_packets _ _ Hpk). cbn [fmap list_fmap].
    rewrite Hy. assert (decode_sync rel = ReleasePws ev) as ->.
    { unfold rel, decode_sync. rewrite PKT3_opcode by done. cbn [length Nat.eqb].
      by rewrite pws_word_enable, pws_word_event by by apply ts_event_range. }
    cbn [completes existsb]. by rewrite (Hfl s Hr), Hah.
Qed.

Lemma release_wait_performs g h ip st ev gcr P :
  gfx_ge g GFX10 = true -> is_ts_event ev = true -> 0 < wait_mem_va st < W64 ->
  gcr_plain gcr -> gcr_gfx12 g gcr ->
  (forall s, P s = true -> event_flushes ev s = true) ->
  exists ds rest n, gfx10_emit_release_wait g ip st ev gcr = Some (ds, rest, n) /\
    performs g h gcr P ds rest.
Proof.
  intros Hg He Hva Hp H12 Hfl.
  destruct (release_wait_ok g ip st ev gcr) as (ds & -> & Hw & Hgcr & Hs); [done..|].
  eexists _, _, _. split; [done|]. split; [done|]. split.
  - intros o. rewrite Hgcr, release_rest_gcr by done. apply when_split.
  - intros s Hr. rewrite Hs. cbn. by rewrite (Hfl s Hr), !Z.eqb_refl.
Qed.

Lemma existsb_app_l {A} (f : A -> bool) a b : existsb f a = true -> existsb f (a ++ b) = true.
Proof. intros H. by rewrite existsb_app, H. Qed.

Lemma completes_app_l g h s a b : completes g h s a = true -> completes g h s (a ++ b) = true.
Proof.
  induction a as [|op a IH]; [done|]. cbn [completes app]. intros [H|H]%orb_true_iff;
    apply orb_true_iff; [left|right; auto].
  destruct op; try done; apply andb_true_iff in H as [-> H]; simpl; by apply existsb_app_l.
Qed.

Lemma completes_app_r g h s a b : completes g h s b = true -> completes g h s (a ++ b) = true.
Proof. intros H. induction a; [done|]. cbn [completes app]. by rewrite IHa, orb_true_r. Qed.

Lemma stream_sync_app a b :
  well_framed a -> well_framed b -> stream_sync (a ++ b) = stream_sync a ++ stream_sync b.
Proof.
  intros (pa & Ha & ->) (pb & Hb & ->). unfold stream_sync.
  by rewrite <- concat_app, !packets_concat, fmap_app by (done || by apply Forall_app).
Qed.

(** Quiet packets around a synchronizing part change nothing. *)
Lemma performs_quiet_l g h gcr P a ds rest :
  quiet a -> performs g h gcr P ds rest -> performs g h gcr P (a ++ ds) rest.
Proof.
  intros Ha (Hw & Hg & Hs). pose proof (quiet_framed _ Ha). split; [by apply well_framed_app|]. split.
  - intros o. by rewrite stream_gcr_app, (quiet_gcr a), Z.lor_0_l by done.
  - intros s Hp. rewrite stream_sync_app by done. by apply completes_app_r, Hs.
Qed.

Lemma gcr_plain_gfx10 g fl : gcr_plain (Z.lor (gfx10_gcr_cntl g fl) (S_587_SEQ V_587_SEQ_FORWARD)).
Proof.
  unfold gcr_plain. repeat constructor; cbn [fst snd]; rewrite G_lor by lia;
    rewrite (gcr_cntl_no_modifier g fl) by (simpl; tauto); by unfold S_587_SEQ; rewrite G_S_other by lia.
Qed.

Lemma op_field_SEQ o gcr : op_field o (Z.lor gcr (S_587_SEQ V_587_SEQ_FORWARD)) = op_field o gcr.
Proof. rewrite op_field_lor. destruct o; apply Z.lor_0_r. Qed.

Lemma gcr_gfx12_gfx10 g fl :
  gcr_gfx12 g (Z.lor (gfx10_gcr_cntl g fl) (S_587_SEQ V_587_SEQ_FORWARD)).
Proof.
  intros H. rewrite !op_field_SEQ, !gcr_cntl_requested.
  assert (gfx_lt g GFX12 = false) as E by (destruct g; done). simpl. by rewrite E.
Qed.

(** ** The end-of-pipe part *)

Lemma emit_eop_ok g h ip st fl P :
  gfx_ge g GFX10 = true -> 0 < wait_mem_va st < W64 ->
  any fl [AC_BARRIER_SYNC_AND_INV_CB; AC_BARRIER_SYNC_AND_INV_DB;
          AC_BARRIER_SYNC_BOTTOM_OF_PIPE] = true ->
  (forall s, P s = true -> In s [StageCB; StageDB] -> sync_requested fl s = true) ->
  (gfx_ge g GFX11 && ip_eq ip AMD_IP_GFX = true -> may_hold h st (gfx10_gcr_cntl g fl)) ->
  exists ds rest fl' n r,
    gfx10_emit_eop g ip st fl (gfx10_gcr_cntl g fl) = Some (ds, rest, fl', n, r) /\
    performs g h (gfx10_gcr_cntl g fl) P ds rest.
Proof.
  intros Hg Hva Hany HP Hh. destruct (eop_event_ok g fl Hany) as (ev & r & Hev & Hts & Hfl).
  assert (forall s, P s = true -> event_flushes ev s = true) as HPf.
  { intros s Hs. specialize (HP s Hs). destruct s; try done; apply Hfl, HP; simpl; tauto. }
  unfold gfx10_emit_eop. rewrite Hev. cbn [mbind option_bind].
  set (meta := _ ++ emit_when _ _). assert (quiet meta) as Hm by (unfold meta; auto with radv).
  set (gcr := Z.lor (gfx10_gcr_cntl g fl) _).
  assert (forall ds rest, performs g h gcr P ds rest ->
                          performs g h (gfx10_gcr_cntl g fl) P (meta ++ ds) rest) as Hfin.
  { intros ds rest (Hw & Ho & Hs)%(performs_quiet_l _ _ _ _ _ _ _ Hm). split; [done|]. split; [|done].
    intros o. rewrite Ho. apply op_field_SEQ. }
  destruct (gfx_ge g GFX11 && ip_eq ip AMD_IP_GFX) eqn:E.
  - specialize (Hh eq_refl). apply andb_true_iff in E as [Hg11 Hip%bool_decide_eq_true].
    destruct (pws_ok g h ip st fl ev gcr P) as (ds & fl' & -> & Hp);
      [done..|apply gcr_plain_gfx10|apply gcr_gfx12_gfx10|done| |].
    { intros E1 E2. unfold gcr. rewrite op_field_SEQ. by apply Hh. }
    cbn [mbind option_bind]. eexists _, _, _, _, _. split; [done|]. by apply Hfin.
  - destruct (release_wait_performs g h ip st ev gcr P) as (ds & rest & n & -> & Hp);
      [done..|apply gcr_plain_gfx10|apply gcr_gfx12_gfx10|done|].
    cbn [mbind option_bind]. eexists _, _, _, _, _. split; [done|]. by apply Hfin.
Qed.

(** ** Partial flushes *)

Lemma event_write_sync e :
  0 <= e < 64 -> stream_sync (ac_cmdbuf_event_write e) = [Event e].
Proof.
  intros. unfold stream_sync, ac_cmdbuf_event_write.
  erewrite packs_packets by (apply packs_PKT3; done). cbn [fmap list_fmap]. f_equal.
  unfold decode_sync. rewrite PKT3_opcode by done. cbn [Z.eqb]. simpl. f_equal.
  unfold EVENT_TYPE, EVENT_INDEX. rewrite G_lor, G_S_same, G_S_other by lia.
  rewrite Z.lor_0_r. by apply land_ones_small.
Qed.

Lemma when_event_sync (b : bool) e :
  0 <= e < 64 ->
  stream_sync (emit_when b (ac_cmdbuf_event_write e)) = if b then [Event e] else [].
Proof. intros. destruct b; [by apply event_write_sync|done]. Qed.

Lemma partial_flushes_ok g h fl :
  gfx_ge g GFX10 = true ->
  any fl [AC_BARRIER_SYNC_AND_INV_CB; AC_BARRIER_SYNC_AND_INV_DB;
          AC_BARRIER_SYNC_BOTTOM_OF_PIPE] = false ->
  let ds := (gfx10_emit_partial_flushes g fl).1 in
  performs g h (gfx10_gcr_cntl g fl) (sync_requested fl) ds (gfx10_gcr_cntl g fl).
Proof.
  intros Hg Hany. pose proof (partial_flushes_quiet g fl) as Hq. cbv zeta.
  rewrite !any_cons, any_nil, !orb_false_iff in Hany. destruct Hany as (Hcb & Hdb & Hb & _).
  split; [by apply quiet_framed|]. split.
  - intros o. by rewrite quiet_gcr, op_field_0 by done.
  - intros s Hs. unfold gfx10_emit_partial_flushes. cbn [fst].
    rewrite !stream_sync_app, !when_event_sync
      by (done || apply quiet_framed; auto with radv).
    unfold sync_requested in Hs.
    destruct s; try congruence; rewrite Hs; simpl.
    all: destruct (has fl AC_BARRIER_SYNC_VS), (has fl AC_BARRIER_SYNC_PS), (gfx_lt g GFX12) eqn:E,
           (has fl AC_BARRIER_SYNC_CS); try done; simpl; try done.
    all: by destruct g.
Qed.

(** ** The whole barrier *)

(** The flags a queue looks at: compute queues drop the graphics ones. *)
Definition queue_flags (ip : amd_ip_type) (fl : Z) : Z :=
  if ip_eq ip AMD_IP_COMPUTE then Z.land fl AC_BARRIER_ALL_COMPUTE else fl.

Lemma has_land x m k : Z.land m k = k -> has (Z.land x m) k = has x k.
Proof. intros E. unfold has. by rewrite <- Z.land_assoc, E. Qed.

Definition ts_flags (fl : Z) : bool :=
  any fl [AC_BARRIER_SYNC_AND_INV_CB; AC_BARRIER_SYNC_AND_INV_DB; AC_BARRIER_SYNC_BOTTOM_OF_PIPE].

(** A timestamp event takes the shader waits out of the flags and nothing else. *)
Lemma reduced_has g ip fl m :
  Z.land (W32 - 1 - lors [AC_BARRIER_SYNC_VS; AC_BARRIER_SYNC_PS; AC_BARRIER_SYNC_CS]) m = m ->
  has (ac_get_reduced_barrier_flags g ip fl) m = has (queue_flags ip fl) m.
Proof.
  intros Hm. unfold ac_get_reduced_barrier_flags, queue_flags, clear.
  destruct (_ && _); [by apply has_land|done].
Qed.

Lemma reduced_no_ts g ip fl :
  ts_flags (queue_flags ip fl) = false -> ac_get_reduced_barrier_flags g ip fl = queue_flags ip fl.
Proof.
  intros H. unfold ac_get_reduced_barrier_flags. cbv zeta. unfold ts_flags, queue_flags in H.
  by rewrite H, andb_false_r.
Qed.

Lemma queue_requested g ip fl o : requested g (queue_flags ip fl) o = requested g fl o.
Proof.
  unfold queue_flags. destruct (ip_eq ip AMD_IP_COMPUTE); [|done].
  destruct o; unfold requested; by rewrite ?has_land by by vm_compute.
Qed.

Lemma reduced_requested g ip fl o :
  requested g (ac_get_reduced_barrier_flags g ip fl) o = requested g fl o.
Proof.
  rewrite <- (queue_requested g ip fl).
  destruct o; unfold requested; by rewrite ?reduced_has by by vm_compute.
Qed.

(** Flags a barrier on GFX10+ accepts. *)
Definition barrier_flags_ok (g : amd_gfx_level) (ip : amd_ip_type) (fl : Z) : bool :=
  negb (any (queue_flags ip fl) [AC_BARRIER_SYNC_AND_INV_DB_META; AC_BARRIER_VGT_STREAMOUT_SYNC])
  && (gfx_lt g GFX12 || negb (has fl AC_BARRIER_INV_L2_METADATA)).

Lemma ts_reduced g ip fl :
  ts_flags (ac_get_reduced_barrier_flags g ip fl) = ts_flags (queue_flags ip fl).
Proof. unfold ts_flags, any. by apply reduced_has. Qed.

Lemma sync_requested_0 s : sync_requested 0 s = false.
Proof. by destruct s. Qed.

Lemma requested_0 g o : requested g 0 o = false.
Proof. unfold requested, has. rewrite !Z.land_0_l. destruct o; simpl; by rewrite ?andb_false_r. Qed.

(** What a barrier holds: the commands behind it, or, when a flush of the colour or
    depth caches or the end of the pipe is awaited through PWS on a GFX11+ graphics
    queue, the state asks for PRE_DEPTH and the instruction caches are not
    invalidated, the depth and fragment work behind it. *)
Definition held (g : amd_gfx_level) (ip : amd_ip_type) (st : ac_barrier_state) : hold_point :=
  if gfx_ge g GFX11 && ip_eq ip AMD_IP_GFX && ts_flags (queue_flags ip (flags st))
     && match pws_acquire_point st with AC_PWS_ACQUIRE_POINT_PRE_DEPTH => true | _ => false end
     && negb (has (flags st) AC_BARRIER_INV_ICACHE)
  then HoldPreDepth else HoldCommands.

Lemma held_may_hold g ip st :
  ts_flags (queue_flags ip (flags st)) = true -> gfx_ge g GFX11 && ip_eq ip AMD_IP_GFX = true ->
  may_hold (held g ip st) st (gfx10_gcr_cntl g (ac_get_reduced_barrier_flags g ip (flags st))).
Proof.
  intros Hts E. unfold held, may_hold. rewrite E, Hts, gcr_cntl_requested, reduced_requested.
  intros Hh Hp. rewrite Hp in Hh. cbn in Hh |- *.
  by destruct (has (flags st) AC_BARRIER_INV_ICACHE).
Qed.

(** The part that flushes and waits, for either kind of barrier. *)
Lemma sync_part_ok g ip st P :
  gfx_ge g GFX10 = true -> 0 < wait_mem_va st < W64 ->
  P = sync_requested (queue_flags ip (flags st)) -> let h := held g ip st in
  let fl := ac_get_reduced_barrier_flags g ip (flags st) in
  exists ds rest fl' n r,
    (if ts_flags fl then gfx10_emit_eop g ip st fl (gfx10_gcr_cntl g fl)
     else let '(ds, r) := gfx10_emit_partial_flushes g fl in
          Some (ds, gfx10_gcr_cntl g fl, fl, wait_mem_number st, r)) = Some (ds, rest, fl', n, r) /\
    performs g h (gfx10_gcr_cntl g fl) P ds rest.
Proof.
  intros Hg Hva -> h fl. destruct (ts_flags fl) eqn:E.
  - apply emit_eop_ok; [done..| |].
    + intros s Hs Hin. unfold fl, sync_requested in *. simpl in Hin.
      destruct Hin as [<-|[<-|[]]]; rewrite reduced_has; done.
    + apply held_may_hold. by rewrite <- (ts_reduced g).
  - pose proof (partial_flushes_ok g h fl Hg E) as Hp.
    destruct (gfx10_emit_partial_flushes g fl) as [ds r]. eexists _, _, _, _, _. split; [done|].
    unfold fl in *. rewrite ts_reduced in E. by rewrite (reduced_no_ts g) in Hp |- * by done.
Qed.

Lemma gfx10_barrier_spec remap g ip st rgp0 :
  gfx_ge g GFX10 = true -> 0 < wait_mem_va st < W64 -> barrier_flags_ok g ip (flags st) = true ->
  exists out, ac_emit_barrier remap g ip st rgp0 = Some out /\ well_framed (dwords out) /\
    (forall o, op_field o (stream_gcr (dwords out)) = b2z (requested g (flags st) o)) /\
    (forall s, sync_requested (queue_flags ip (flags st)) s = true ->
               completes g (held g ip st) s (stream_sync (dwords out)) = true).
Proof.
  intros Hg Hva [Hf1%negb_true_iff Hf2]%andb_true_iff.
  unfold ac_emit_barrier, ac_gfx10_emit_barrier. rewrite Hg.
  destruct (Z.eqb_spec (ac_get_reduced_barrier_flags g ip (flags st)) 0) as [Ez|Ez].
  - eexists. split; [done|]. cbn [dwords]. split; [apply well_framed_nil|]. split.
    + intros o. rewrite <- (reduced_requested g ip), Ez, requested_0. apply op_field_0.
    + destruct (ts_flags (queue_flags ip (flags st))) eqn:E.
      * by rewrite <- (ts_reduced g), Ez in E.
      * rewrite (reduced_no_ts g) in Ez by done. rewrite Ez. intros s. by rewrite sync_requested_0.
  - assert (any (ac_get_reduced_barrier_flags g ip (flags st))
              [AC_BARRIER_SYNC_AND_INV_DB_META; AC_BARRIER_VGT_STREAMOUT_SYNC] = false) as ->
      by (rewrite <- Hf1; by apply reduced_has).
    assert (gfx_lt g GFX12 || negb (has (ac_get_reduced_barrier_flags g ip (flags st))
              AC_BARRIER_INV_L2_METADATA) = true) as ->.
    { rewrite reduced_has by by vm_compute. unfold queue_flags.
      destruct (ip_eq ip AMD_IP_COMPUTE); by rewrite ?has_land by by vm_compute. }
    cbn [cassert negb mbind option_bind].
    destruct (sync_part_ok g ip st _ Hg Hva eq_refl) as (ds & rest & fl' & n & r & Hsy & Hw & Ho & Hs).
    unfold ts_flags in Hsy. rewrite Hsy. cbn [mbind option_bind].
    destruct (emit_acquire_gcr g ip fl' rest Hg) as (da & ra & ba & -> & Hwa & Hga).
    cbn [mbind option_bind]. eexists. split; [done|]. cbn [dwords].
    pose proof (common_quiet remap g ip (ac_get_reduced_barrier_flags g ip (flags st))) as Hc.
    pose proof (quiet_framed _ Hc). split; [auto with radv|]. split.
    + intros o. rewrite !stream_gcr_app, (quiet_gcr _ Hc), Z.lor_0_l, op_field_lor by auto with radv.
      rewrite Hga, Ho, gcr_cntl_requested. by rewrite reduced_requested.
    + intros s Hr. rewrite !stream_sync_app by auto with radv.
      by apply completes_app_r, completes_app_l, Hs.
Qed.

(** C14: on GFX10 and later a barrier performs exactly the cache operations its flags
    ask for: each invalidation and write-back of the instruction, scalar, vector, L1,
    L2 and metadata caches appears in the packets, as a field of the release or of an
    acquire, if and only if the flags request it, on graphics and on compute queues,
    whether or not CB or DB are flushed and whatever the PWS acquire point.  No
    assertion fires on flags the generation supports, and the packets are whole. *)
Theorem gfx10_barrier_exact_caches remap g ip st rgp0 :
  gfx_ge g GFX10 = true -> 0 < wait_mem_va st < W64 -> barrier_flags_ok g ip (flags st) = true ->
  exists out, ac_emit_barrier remap g ip st rgp0 = Some out /\ well_framed (dwords out) /\
    forall o, op_field o (stream_gcr (dwords out)) = b2z (requested g (flags st) o).
Proof.
  intros. destruct (gfx10_barrier_spec remap g ip st rgp0) as (out & ? & ? & ? & _); [done..|].
  by exists out.
Qed.

Definition demo_barrier : ac_barrier_state :=
  BarrierState (lors [AC_BARRIER_SYNC_AND_INV_CB; AC_BARRIER_SYNC_CS; AC_BARRIER_INV_ICACHE;
                      AC_BARRIER_INV_VMEM; AC_BARRIER_INV_L2; AC_BARRIER_PFP_SYNC_ME])
    AC_PWS_ACQUIRE_POINT_PRE_DEPTH 0x800000001000 41 0.

Lemma gfx10_barrier_exact_caches_witness :
  exists out, ac_emit_barrier id GFX10_3 AMD_IP_GFX demo_barrier 0 = Some out /\
              well_framed (dwords out) /\
    forall o, op_field o (stream_gcr (dwords out)) = b2z (requested GFX10_3 (flags demo_barrier) o).
Proof. apply gfx10_barrier_exact_caches; by vm_compute. Defined.

(** C15: on GFX10 and later what comes behind a barrier is held until every stage the
    flags name is done: the colour or depth caches are flushed by the timestamp event
    of a release whose completion is awaited (a write of a fresh value to memory and
    the wait for it, or a PWS acquire with no event outstanding), and shader stages
    are awaited by that event or by their partial flush.  Held are all later
    commands: a PWS acquire counts only if it waits at the prefetch parser or the
    micro engine.  The one exception is a barrier of a GFX11+ graphics queue that
    waits for a timestamp event, names PRE_DEPTH as its acquire point and does not
    invalidate the instruction caches: for it an acquire at PRE_DEPTH counts too, so
    only the depth and fragment work behind it is known to be held.  On compute
    queues, where the driver drops the graphics flags, the stages are those of the
    compute flags (compute shaders and the end of the pipe). *)
Theorem gfx10_barrier_completes remap g ip st rgp0 s :
  gfx_ge g GFX10 = true -> 0 < wait_mem_va st < W64 -> barrier_flags_ok g ip (flags st) = true ->
  sync_requested (queue_flags ip (flags st)) s = true ->
  exists out, ac_emit_barrier remap g ip st rgp0 = Some out /\
    completes g (held g ip st) s (stream_sync (dwords out)) = true.
Proof.
  intros. destruct (gfx10_barrier_spec remap g ip st rgp0) as (out & ? & _ & _ & Hs); [done..|].
  exists out. auto.
Qed.

Lemma gfx10_barrier_completes_witness :
  exists out, ac_emit_barrier id GFX10_3 AMD_IP_GFX demo_barrier 0 = Some out /\
    completes GFX10_3 HoldCommands StageCS (stream_sync (dwords out)) = true.
Proof. apply gfx10_barrier_completes; by vm_compute. Defined.

(** ** GFX6 to GFX9: no assertion fires *)

Lemma acquire_mem_ok g ip eng c :
  c <> 0 -> eng = V_581A_PREFETCH_PARSER \/ eng = V_581A_MICRO_ENGINE ->
  is_Some (ac_emit_cp_acquire_mem g ip eng c).
Proof.
  intros Hc He. unfold ac_emit_cp_acquire_mem. rewrite (proj2 (Z.eqb_neq c 0)) by done.
  assert ((eng =? V_581A_PREFETCH_PARSER) || (eng =? V_581A_MICRO_ENGINE) = true) as E
    by (destruct He; subst; done).
  rewrite <- orb_assoc, E, orb_true_r. simpl. by destruct (gfx_ge g GFX10).
Qed.

Lemma release_mem_ok g ip ev fl ds isel da va n bug :
  is_ts_event ev = true -> is_Some (ac_emit_cp_release_mem g ip ev fl ds isel da va n bug).
Proof.
  intros He%is_ts_event_cases. unfold ac_emit_cp_release_mem.
  assert ((ev =? V_CS_DONE) = false /\ (ev =? V_PS_DONE) = false) as [E1 E2]
    by (simpl in He; intuition subst; done).
  rewrite E1, E2, orb_true_r, andb_false_r. cbn [orb]. rewrite E1, E2. simpl.
  by destruct (gfx_ge g GFX9 || _).
Qed.

Lemma lor_bit_nonzero a b n : Z.testbit b n = true -> Z.lor a b <> 0.
Proof.
  intros Hb E. apply Z.lor_eq_0_iff in E as [_ ->]. by rewrite Z.bits_0 in Hb.
Qed.

Ltac acquire_step :=
  match goal with
  | Hok : forall eng c : Z, _ -> _ -> exists ds r s, ac_emit_cp_acquire_mem ?g ?ip eng c = _
    |- context [ac_emit_cp_acquire_mem ?g ?ip ?e ?c0] => destruct (Hok e c0) as (? & ? & ? & ->)
  end.

Lemma gfx6_acquires_ok g ip fl c : is_Some (gfx6_emit_acquires g ip fl c).
Proof.
  unfold gfx6_emit_acquires.
  assert (forall b : bool, (if b then V_581A_PREFETCH_PARSER else V_581A_MICRO_ENGINE)
            = V_581A_PREFETCH_PARSER \/ (if b then V_581A_PREFETCH_PARSER else V_581A_MICRO_ENGINE)
            = V_581A_MICRO_ENGINE) as He by (intros []; auto).
  assert (forall eng c, eng = V_581A_PREFETCH_PARSER \/ eng = V_581A_MICRO_ENGINE -> c <> 0 ->
            exists ds r s, ac_emit_cp_acquire_mem g ip eng c = Some (ds, r, s)) as Hok.
  { intros eng c0 Heng Hc. destruct (acquire_mem_ok g ip eng c0) as [[[? ?] ?] ->]; eauto. }
  destruct (_ || _).
  - acquire_step; [auto| |done]. unfold lors. cbn [foldr]. rewrite Z.lor_assoc. intros E. apply Z.lor_eq_0_iff in E as [E _].
    by eapply (lor_bit_nonzero _ _ 23) in E.
  - assert (forall fl0 c0, is_Some (let! (acq, fl1, rgp2, roll2) :=
      (if negb (c0 =? 0) then
         let! (ds, rolled, sync) := ac_emit_cp_acquire_mem g ip
           (if has fl AC_BARRIER_PFP_SYNC_ME then V_581A_PREFETCH_PARSER else V_581A_MICRO_ENGINE) c0 ;;
         Some (ds, clear fl0 AC_BARRIER_PFP_SYNC_ME, when sync AC_RGP_FLUSH_PFP_SYNC_ME, rolled)
       else Some ([], fl0, 0, false)) ;; Some (acq : list Z, fl1 : Z, rgp2 : Z, roll2 : bool))) as Hl.
    { intros fl0 c0. destruct (Z.eqb_spec c0 0); [done|]. cbn [negb].
      acquire_step; [auto|done|done]. }
    destruct (has fl AC_BARRIER_WB_L2).
    + acquire_step.
      { destruct (negb _); auto. }
      { unfold lors. cbn [foldr]. rewrite Z.lor_assoc. intros E. apply Z.lor_eq_0_iff in E as [E _].
        by eapply (lor_bit_nonzero _ _ 18) in E. }
      cbn [mbind option_bind]. match goal with |- context [negb (?c0 =? 0)] => set (c1 := c0) end.
      match goal with |- context [if negb (c1 =? 0) then _ else Some ([], ?f, _, _)] =>
        destruct (Hl f c1) as [[[[? ?] ?] ?] E] end.
      apply bind_Some in E as ([[[acq f1] r1] b1] & -> & _). done.
    + cbn [mbind option_bind]. match goal with |- context [negb (?c0 =? 0)] => set (c1 := c0) end.
      destruct (Hl fl c1) as [[[[? ?] ?] ?] E].
      apply bind_Some in E as ([[[acq f1] r1] b1] & -> & _). done.
Qed.

Lemma gfx6_eop_ok g ip st fl : wait_mem_va st <> 0 -> is_Some (gfx6_emit_eop g ip st fl).
Proof.
  intros Hva. unfold gfx6_emit_eop. destruct (_ || _) eqn:Ec; [|done].
  destruct (gfx9_eop_event g (Z.land fl EOP_FLUSH_FLAGS)) as [ev r] eqn:Eev.
  assert (is_ts_event ev = true
          /\ (negb (ev =? V_BOTTOM_OF_PIPE_TS) || has fl AC_BARRIER_SYNC_BOTTOM_OF_PIPE) = true) as [Hts ->].
  { unfold gfx9_eop_event in Eev. rewrite !has_land in Eev by by vm_compute.
    destruct (gfx_eq g GFX9) eqn:Eg; cbn [andb orb] in Ec.
    - change (negb (Z.land fl EOP_FLUSH_FLAGS =? 0)) with (has fl EOP_FLUSH_FLAGS) in Ec.
      unfold EOP_FLUSH_FLAGS, lors in Ec. cbn [foldr] in Ec. rewrite !has_lor, has_0_r in Ec.
      destruct (has fl AC_BARRIER_SYNC_AND_INV_CB), (has fl AC_BARRIER_SYNC_AND_INV_DB);
        simplify_eq/=; try done. by rewrite orb_false_r, orb_diag in Ec.
    - injection Eev as <- <-. by rewrite Ec. }
  cbn [cassert mbind option_bind]. destruct (gfx8_tc_flags g fl) as [[tc fl0] r0].
  rewrite (proj2 (Z.eqb_neq _ 0)) by done. cbn [cassert negb mbind option_bind].
  destruct (release_mem_ok g ip ev tc EOP_DST_SEL_MEM EOP_INT_SEL_SEND_DATA_AFTER_WR_CONFIRM
    EOP_DATA_SEL_VALUE_32BIT (wait_mem_va st) (u32 (wait_mem_number st + 1)) (eop_bug_va st) Hts)
    as [rel ->]. done.
Qed.

Lemma gfx6_barrier_ok remap g ip st rgp0 :
  wait_mem_va st <> 0 -> is_Some (ac_gfx6_emit_barrier remap g ip st rgp0).
Proof.
  intros Hva. unfold ac_gfx6_emit_barrier. destruct (_ =? 0); [done|].
  assert (is_Some (gfx8_emit_dcc_flush g ip st (ac_get_reduced_barrier_flags g ip (flags st)))) as [dcc ->].
  { unfold gfx8_emit_dcc_flush. destruct (_ && _); [by apply release_mem_ok|done]. }
  cbn [mbind option_bind]. destruct (gfx6_emit_waits _ _) as [waits r2].
  destruct (gfx6_eop_ok g ip st (ac_get_reduced_barrier_flags g ip (flags st)) Hva)
    as [[[[eop fl'] n] r3] ->]. cbn [mbind option_bind].
  destruct (gfx6_acquires_ok g ip fl' (gfx6_coher_cntl g (ac_get_reduced_barrier_flags g ip (flags st))))
    as [[[acq r4] b] ->]. done.
Qed.

(** A barrier is emitted, on every generation. *)
Lemma emit_barrier_ok remap g ip st rgp0 :
  0 < wait_mem_va st < W64 -> (gfx_ge g GFX10 = true -> barrier_flags_ok g ip (flags st) = true) ->
  is_Some (ac_emit_barrier remap g ip st rgp0).
Proof.
  intros Hva Hf. destruct (gfx_ge g GFX10) eqn:Hg.
  - destruct (gfx10_barrier_spec remap g ip st rgp0) as (out & -> & _); auto.
  - unfold ac_emit_barrier. rewrite Hg. apply gfx6_barrier_ok. lia.
Qed.
