(* ===== verification/BarrierFits.v ===== *)
(** On every generation a barrier of src/amd/common/ac_barrier.c fits the 128 dwords
    radv_cs_emit_cache_flush reserves for it, and consists of whole packets none of
    which jumps to another IB or moves memory. *)

From S2P Require Import Prelude Pm4 CsExec Barrier.

(** Packets that only synchronize, set state or write a value. *)
Definition ordinary (p : list Z) : Prop :=
  framed p /\
  match p with
  | [] => False
  | h :: _ => let op := PKT3_IT_OPCODE_G h in
              op <> PKT3_INDIRECT_BUFFER /\ op <> PKT3_DMA_DATA /\ op <> PKT3_CP_DMA
  end.

Definition fits (n : nat) (ds : list Z) : Prop :=
  exists ps, Forall ordinary ps /\ ds = concat ps /\ (length ds <= n)%nat.

Lemma fits_nil n : fits n [].
Proof. exists []. simpl. split_and!; [constructor|done|lia]. Qed.

Lemma fits_app n m a b : fits n a -> fits m b -> fits (n + m) (a ++ b).
Proof.
  intros (pa & Ha & -> & Hn) (pb & Hb & -> & Hm). exists (pa ++ pb).
  rewrite concat_app, length_app. split_and!; [by apply Forall_app|done|lia].
Qed.

Lemma fits_le n m ds : (n <= m)%nat -> fits n ds -> fits m ds.
Proof. intros Hnm (ps & Hp & -> & Hn). exists ps. split_and!; [done..|lia]. Qed.

Lemma fits_if (b : bool) n x y : fits n x -> fits n y -> fits n (if b then x else y).
Proof. by destruct b. Qed.

Lemma fits_when b n ds : fits n ds -> fits n (emit_when b ds).
Proof. intros. apply fits_if; [done|apply fits_nil]. Qed.

Lemma fits_one p : ordinary p -> fits (length p) p.
Proof.
  intros. exists [p]. split_and!; [by constructor| |done]. simpl. by rewrite app_nil_r.
Qed.

Lemma ordinary_PKT3 op count pred body :
  0 <= op < 0x100 -> 0 <= count < 0x3fff -> length body = Z.to_nat (count + 1) ->
  op <> PKT3_INDIRECT_BUFFER -> op <> PKT3_DMA_DATA -> op <> PKT3_CP_DMA ->
  ordinary (PKT3 op count pred :: body).
Proof.
  intros. split; [by apply framed_PKT3|]. by rewrite PKT3_opcode.
Qed.

Lemma ordinary_shader_type op count b body :
  0 <= op < 0x100 -> 0 <= count < 0x3fff -> length body = Z.to_nat (count + 1) ->
  op <> PKT3_INDIRECT_BUFFER -> op <> PKT3_DMA_DATA -> op <> PKT3_CP_DMA ->
  ordinary (Z.lor (PKT3 op count 0) (S_field 1 1 b) :: body).
Proof.
  intros. split.
  - destruct (well_framed_shader_type op count b body) as (ps & Hps & E); [done..|].
    unfold framed. simpl. unfold packet_len, PKT_TYPE_G, PKT3_IT_OPCODE_G, PKT_COUNT_G.
    rewrite !(G_lor _ _ (PKT3 _ _ _)), !G_S_other, !Z.lor_0_r by lia.
    fold (PKT_TYPE_G (PKT3 op count 0)) (PKT_COUNT_G (PKT3 op count 0))
      (PKT3_IT_OPCODE_G (PKT3 op count 0)). fold (packet_len (PKT3 op count 0)).
    rewrite PKT3_len by done. f_equal. lia.
  - unfold PKT3_IT_OPCODE_G. rewrite G_lor, G_S_other, Z.lor_0_r by lia.
    fold (PKT3_IT_OPCODE_G (PKT3 op count 0)). by rewrite PKT3_opcode.
Qed.

Lemma fits_PKT3 n op count pred body :
  0 <= op < 0x100 -> 0 <= count < 0x3fff -> length body = Z.to_nat (count + 1) ->
  op <> PKT3_INDIRECT_BUFFER -> op <> PKT3_DMA_DATA -> op <> PKT3_CP_DMA ->
  (Datatypes.S (length body) <= n)%nat -> fits n (PKT3 op count pred :: body).
Proof. intros. eapply fits_le; [|by apply fits_one, ordinary_PKT3]. done. Qed.

Ltac fits_packet := apply fits_PKT3; [done|lia|simpl; lia|done|done|done|simpl; lia].

#[export] Hint Resolve fits_nil fits_if fits_when : radv.
#[export] Hint Extern 3 (fits _ (PKT3 _ _ _ :: _)) => fits_packet : radv.

Lemma fits_event_write e : fits 2 (ac_cmdbuf_event_write e).
Proof. unfold ac_cmdbuf_event_write. auto with radv. Qed.

Lemma fits_wait_mem va r m f : fits 7 (ac_emit_cp_wait_mem va r m f).
Proof. unfold ac_emit_cp_wait_mem. auto with radv. Qed.

Lemma fits_pfp_sync_me p : fits 2 (ac_emit_cp_pfp_sync_me p).
Proof. unfold ac_emit_cp_pfp_sync_me. auto with radv. Qed.

#[export] Hint Resolve fits_event_write fits_wait_mem fits_pfp_sync_me : radv.

Lemma fits_common remap g ip fl : fits 5 (ac_emit_common_barrier_flags remap g ip fl).
Proof.
  unfold ac_emit_common_barrier_flags. apply (fits_app 3 2); [|auto with radv].
  assert (forall e, fits 3 (ac_cmdbuf_event_write e)) as He
    by (intros; by apply (fits_le 2); [lia|auto with radv]).
  assert (forall v, fits 3 (set_pipelinestat_enable remap v)) as Hv
    by (intros; unfold set_pipelinestat_enable; auto with radv).
  auto 10 with radv.
Qed.

Lemma fits_acquire_mem g ip eng c ws roll sync :
  ac_emit_cp_acquire_mem g ip eng c = Some (ws, roll, sync) -> fits 9 ws.
Proof.
  unfold ac_emit_cp_acquire_mem. intros H.
  apply bind_Some in H as ([] & _ & H). apply bind_Some in H as ([] & _ & H).
  destruct (gfx_ge g GFX10); [injection H as <- <- <-; auto with radv|].
  injection H as <- <- <-. apply (fits_app 7 2); [|auto with radv].
  destruct (gfx_eq g GFX9 || _); [|auto with radv].
  eapply fits_le; [|apply fits_one, ordinary_shader_type; done]. simpl. lia.
Qed.

Lemma fits_release_mem g ip ev fl ds isel da va f bug ws :
  ac_emit_cp_release_mem g ip ev fl ds isel da va f bug = Some ws -> fits 12 ws.
Proof.
  unfold ac_emit_cp_release_mem. intros H. apply bind_Some in H as ([] & _ & H).
  destruct (gfx_ge g GFX9 || (gfx_ge g GFX7 && _)).
  - injection H as <-. apply (fits_app 4 8); [auto with radv|].
    destruct (gfx_ge g GFX9); cbn [app]; auto with radv.
  - destruct ((_ =? V_CS_DONE) || _).
    + apply bind_Some in H as ([] & _ & H). injection H as <-. auto with radv.
    + injection H as <-. apply (fits_app 6 6); auto with radv.
Qed.

Lemma fits_release_mem_pws g ip ev c ws :
  ac_emit_cp_release_mem_pws g ip ev c = Some ws -> fits 8 ws.
Proof.
  unfold ac_emit_cp_release_mem_pws. intros H.
  repeat apply bind_Some in H as ([] & _ & H). injection H as <-. auto with radv.
Qed.

Lemma fits_acquire_mem_pws g ip ev st n c ws :
  ac_emit_cp_acquire_mem_pws g ip ev st n c = Some ws -> fits 8 ws.
Proof.
  unfold ac_emit_cp_acquire_mem_pws. intros H.
  repeat apply bind_Some in H as ([] & _ & H). injection H as <-. auto with radv.
Qed.

(** ** GFX10 and later *)

Lemma fits_gfx10_eop g ip st fl gcr ds gcr' fl' n r :
  gfx10_emit_eop g ip st fl gcr = Some (ds, gcr', fl', n, r) -> fits 23 ds.
Proof.
  unfold gfx10_emit_eop. intros H. apply bind_Some in H as ([ev r0] & _ & H).
  assert (forall b b' e e', fits 4 (emit_when b (ac_cmdbuf_event_write e)
                                    ++ emit_when b' (ac_cmdbuf_event_write e'))) as Hm
    by (intros; apply (fits_app 2 2); auto with radv).
  destruct (_ && _).
  - apply bind_Some in H as ([ds0 fl0] & Hp & H). injection H as <- _ _ _ _.
    apply (fits_app 4 19); [apply Hm|]. unfold gfx11_emit_pws in Hp.
    apply bind_Some in Hp as (rel & Hr & Hp). destruct (gfx11_pws_stage _ _ _).
    apply bind_Some in Hp as (acq & Ha & Hp). injection Hp as <- _.
    apply (fits_le 16); [lia|]. apply (fits_app 8 8).
    + by eapply fits_release_mem_pws.
    + by eapply fits_acquire_mem_pws.
  - apply bind_Some in H as ([[ds0 g0] n0] & Hp & H). injection H as <- _ _ _ _.
    apply (fits_app 4 19); [apply Hm|]. unfold gfx10_emit_release_wait in Hp.
    do 4 apply bind_Some in Hp as ([] & _ & Hp).
    apply bind_Some in Hp as (rel & Hr & Hp). injection Hp as <- _ _.
    apply (fits_app 12 7); [by eapply fits_release_mem|auto with radv].
Qed.

Lemma fits_gfx10_acquire g ip fl gcr ds r b :
  gfx10_emit_acquire g ip fl gcr = Some (ds, r, b) -> fits 9 ds.
Proof.
  unfold gfx10_emit_acquire. intros H. destruct (has _ _).
  - apply bind_Some in H as ([[ds0 r0] s0] & Ha & H). injection H as <- _ _.
    by eapply fits_acquire_mem.
  - destruct (_ && _); injection H as <- _ _; [|auto with radv].
    apply (fits_le 2); [lia|auto with radv].
Qed.

Lemma fits_gfx10_partial g fl : fits 23 (gfx10_emit_partial_flushes g fl).1.
Proof.
  unfold gfx10_emit_partial_flushes. cbn [fst]. apply (fits_le 6); [lia|].
  apply (fits_app 2 4); [auto with radv|]. apply (fits_app 2 2); auto with radv.
Qed.

Lemma fits_gfx10_barrier remap g ip st rgp0 out :
  ac_gfx10_emit_barrier remap g ip st rgp0 = Some out -> fits 128 (dwords out).
Proof.
  unfold ac_gfx10_emit_barrier. intros H. destruct (_ =? 0).
  { injection H as <-. auto with radv. }
  do 2 apply bind_Some in H as ([] & _ & H).
  apply bind_Some in H as ([[[[ds gcr] fl'] n] r] & Hs & H).
  apply bind_Some in H as ([[acq r'] b] & Ha & H). injection H as <-. cbn [dwords].
  apply (fits_le 37); [lia|]. apply (fits_app 5 32); [apply fits_common|].
  apply (fits_app 23 9); [|by eapply fits_gfx10_acquire].
  destruct (any _ _); [by eapply fits_gfx10_eop|].
  destruct (gfx10_emit_partial_flushes g _) as [ds0 r0] eqn:E. injection Hs as <- _ _ _ _.
  pose proof (fits_gfx10_partial g (ac_get_reduced_barrier_flags g ip (flags st))) as Hf.
  by rewrite E in Hf.
Qed.

(** ** GFX6 to GFX9 *)

Lemma fits_gfx8_dcc g ip st fl ds : gfx8_emit_dcc_flush g ip st fl = Some ds -> fits 12 ds.
Proof.
  unfold gfx8_emit_dcc_flush. destruct (_ && _).
  - apply fits_release_mem.
  - intros [= <-]. auto with radv.
Qed.

Lemma fits_gfx6_waits g fl : fits 10 (gfx6_emit_waits g fl).1.
Proof.
  unfold gfx6_emit_waits. cbn [fst].
  apply (fits_app 2 8); [auto with radv|]. apply (fits_app 2 6); [auto with radv|].
  apply (fits_app 2 4); [auto with radv|]. apply (fits_app 2 2); auto with radv.
Qed.

Lemma fits_gfx6_eop g ip st fl ds fl' n r :
  gfx6_emit_eop g ip st fl = Some (ds, fl', n, r) -> fits 19 ds.
Proof.
  unfold gfx6_emit_eop. intros H. destruct (_ || _).
  - destruct (gfx9_eop_event _ _) as [ev r0]. apply bind_Some in H as ([] & _ & H).
    destruct (gfx8_tc_flags _ _) as [[tc fl0] r1]. apply bind_Some in H as ([] & _ & H).
    apply bind_Some in H as (rel & Hr & H). injection H as <- _ _ _.
    apply (fits_app 12 7); [by eapply fits_release_mem|auto with radv].
  - injection H as <- _ _ _. auto with radv.
Qed.

Lemma fits_gfx6_acquires g ip fl c ds r b :
  gfx6_emit_acquires g ip fl c = Some (ds, r, b) -> fits 20 ds.
Proof.
  unfold gfx6_emit_acquires. intros H. destruct (_ || _).
  - apply bind_Some in H as ([[ds0 r0] s0] & Ha & H). injection H as <- _ _.
    apply (fits_le 9); [lia|]. by eapply fits_acquire_mem.
  - apply bind_Some in H as ([[[[wb fl0] c0] r1] b1] & Hw & H).
    apply bind_Some in H as ([[[acq fl1] r2] b2] & Ha & H). injection H as <- _ _.
    apply (fits_app 9 11).
    + destruct (has _ _).
      * apply bind_Some in Hw as ([[ds0 r0] s0] & Hm & Hw). injection Hw as <- _ _ _ _.
        by eapply fits_acquire_mem.
      * injection Hw as <- _ _ _ _. auto with radv.
    + apply (fits_app 9 2); [|auto with radv]. destruct (negb (_ =? 0)).
      * apply bind_Some in Ha as ([[ds0 r0] s0] & Hm & Ha). injection Ha as <- _ _ _.
        by eapply fits_acquire_mem.
      * injection Ha as <- _ _ _. auto with radv.
Qed.

Lemma fits_gfx6_barrier remap g ip st rgp0 out :
  ac_gfx6_emit_barrier remap g ip st rgp0 = Some out -> fits 128 (dwords out).
Proof.
  unfold ac_gfx6_emit_barrier. intros H. destruct (_ =? 0).
  { injection H as <-. auto with radv. }
  apply bind_Some in H as (dcc & Hd & H).
  pose proof (fits_gfx6_waits g (ac_get_reduced_barrier_flags g ip (flags st))) as Hw.
  destruct (gfx6_emit_waits _ _) as [waits r2].
  apply bind_Some in H as ([[[eop fl'] n] r3] & He & H).
  apply bind_Some in H as ([[acq r4] b] & Ha & H). injection H as <-. cbn [dwords].
  apply (fits_le 68); [lia|]. apply (fits_app 5 63); [apply fits_common|].
  apply (fits_app 12 51); [by eapply fits_gfx8_dcc|]. apply (fits_app 10 41); [done|].
  apply (fits_app 19 22); [by eapply fits_gfx6_eop|].
  apply (fits_app 2 20); [auto with radv|by eapply fits_gfx6_acquires].
Qed.

Lemma emit_barrier_fits remap g ip st rgp0 out :
  ac_emit_barrier remap g ip st rgp0 = Some out -> fits 128 (dwords out).
Proof.
  unfold ac_emit_barrier. destruct (gfx_ge g GFX10);
    [apply fits_gfx10_barrier|apply fits_gfx6_barrier].
Qed.

(** On every generation, for any flags, a barrier that is emitted fits the 128
    dwords its caller reserves and is made of whole packets, none of which is an
    INDIRECT_BUFFER or a CP DMA. *)
Theorem barrier_fits remap g ip st rgp0 out :
  ac_emit_barrier remap g ip st rgp0 = Some out -> fits 128 (dwords out).
Proof. apply emit_barrier_fits. Qed.

Lemma barrier_fits_witness :
  exists out,
    ac_emit_barrier id GFX9 AMD_IP_GFX
      (BarrierState (lors [AC_BARRIER_SYNC_AND_INV_CB; AC_BARRIER_SYNC_AND_INV_DB;
                           AC_BARRIER_WB_L2; AC_BARRIER_INV_VMEM; AC_BARRIER_PFP_SYNC_ME])
         AC_PWS_ACQUIRE_POINT_NONE 0x10000 7 0x20000) 0 = Some out /\ fits 128 (dwords out).
Proof.
  eexists. split; [vm_compute; reflexivity|].
  eapply (barrier_fits id GFX9 AMD_IP_GFX
      (BarrierState (lors [AC_BARRIER_SYNC_AND_INV_CB; AC_BARRIER_SYNC_AND_INV_DB;
                           AC_BARRIER_WB_L2; AC_BARRIER_INV_VMEM; AC_BARRIER_PFP_SYNC_ME])
         AC_PWS_ACQUIRE_POINT_NONE 0x10000 7 0x20000) 0).
  vm_compute. reflexivity.
Defined.
