(* ===== verification/CmdStream.v ===== *)
(** The command stream as its users see it: an interface for recording packets, for
    remembering the header dword of the last CP DMA packet and for setting bits in it
    later, with its laws, and the winsys implementation of it (radeon_check_space of
    src/amd/vulkan/radv_cs.h, the emission macros of src/amd/common/ac_cmdbuf.h and
    the accessors of radv_amdgpu_cs.c). *)

From stdpp Require Import gmap.
From S2P Require Import Prelude Pm4 CsBuffers WinsysCs CsExec CsRecord.

(** * The interface *)

Class CommandStream (S : Type) := {
  (** Reserve the given number of dwords and emit; [Some i] also remembers the address
      of dword [i] of what is emitted as the last CP DMA header. *)
  cs_emit : S -> Z -> list Z -> option nat -> option S;
  (** The remembered header lies in the current IB, less than 30 dwords back. *)
  cs_header_near : S -> bool;
  (** Set bits in the remembered header. *)
  cs_header_or : S -> Z -> option S;
  (** Forget it. *)
  cs_forget_header : S -> S;
  (** Make a buffer resident while the stream executes. *)
  cs_add_buffer : S -> winsys_bo -> option S
}.

(** [holds n s ps mark]: [s] holds the packets [ps] and can start [n] more IBs; [mark]
    is the packet and the dword in it that is remembered. *)
Class CommandStreamLaws (S : Type) `{CommandStream S} := {
  holds : nat -> S -> list (list Z) -> option (nat * nat) -> Prop;
  weaken_law n s ps mark : holds (Datatypes.S n) s ps mark -> holds n s ps mark;
  emit_law n s ps mark needed qs :
    holds (Datatypes.S n) s ps mark -> Forall plain qs ->
    Z.of_nat (length (concat qs)) <= needed <= 2 ^ 18 - 4 ->
    exists s' mark', cs_emit s needed (concat qs) None = Some s'
      /\ holds n s' (ps ++ visible qs) mark' /\ (mark' = mark \/ mark' = None);
  emit_marked_law n s ps mark needed p i :
    holds (Datatypes.S n) s ps mark -> plain p -> is_nop p = false ->
    is_indirect_buffer p = false -> (0 < i < length p)%nat ->
    Z.of_nat (length p) <= needed <= 2 ^ 18 - 4 ->
    exists s', cs_emit s needed p (Some i) = Some s'
      /\ holds n s' (ps ++ [p]) (Some (length ps, i));
  near_law n s ps mark :
    holds n s ps mark -> cs_header_near s = true -> mark <> None;
  or_law n s ps i j v :
    holds n s ps (Some (i, j)) -> cs_header_near s = true ->
    exists s' p d, cs_header_or s v = Some s' /\ ps !! i = Some p /\ p !! j = Some d
      /\ holds n s' (<[i := <[j := Z.lor d v]> p]> ps) (Some (i, j));
  forget_law n s ps mark : holds n s ps mark -> holds n (cs_forget_header s) ps None;
  add_buffer_law n s ps mark bo :
    holds n s ps mark -> exists s', cs_add_buffer s bo = Some s' /\ holds n s' ps mark
}.

(** * The winsys implementation *)

Lemma is_indirect_buffer_alt h t :
  is_indirect_buffer (h :: t)
  = (length t =? 3)%nat && ((PKT_TYPE_G h =? 3) && (PKT3_IT_OPCODE_G h =? PKT3_INDIRECT_BUFFER)).
Proof. do 4 (destruct t as [|? t]; [reflexivity|]). reflexivity. Qed.

Lemma visible_cons_keep q l : is_nop q = false -> visible (q :: l) = q :: visible l.
Proof. intros H. unfold visible. by rewrite filter_cons_True. Qed.

Section Winsys.
Context (ws : cs_winsys_info) (k : kernel).

Definition ws_emit (s : radv_amdgpu_cs * world) (needed : Z) (ds : list Z) (mark : option nat)
  : option (radv_amdgpu_cs * world) :=
  let '(cs, w) := s in
  let! (cs, w) := radeon_check_space ws k cs w needed ;;
  let header := (fun i => (buf (base cs), cdw (base cs) + Z.of_nat i)) <$> mark in
  let! (cs, w) := ac_cmdbuf_emit_array cs w ds ;;
  Some (match header with
        | Some h => radv_amdgpu_cs_set_last_cp_dma_header cs (Some h)
        | None => cs
        end, w).

(** The comparison of the header's address with the current IB in
    radv_cp_dma_wait_for_idle; the address of a dword is its IB and index. *)
Definition ws_header_near (s : radv_amdgpu_cs * world) : bool :=
  let b := base s.1 in
  match radv_amdgpu_cs_get_last_cp_dma_header s.1 with
  | Some (p, i) => (p =? buf b) && (0 <? i) && (i <? cdw b) && (cdw b - i <? 30)
  | None => false
  end.

Definition ws_header_or (s : radv_amdgpu_cs * world) (v : Z) : option (radv_amdgpu_cs * world) :=
  let '(cs, w) := s in
  let! (p, i) := radv_amdgpu_cs_get_last_cp_dma_header cs ;;
  let! d := load (mem w) p i ;;
  let! w := store w p i (Z.lor d v) ;;
  Some (cs, w).

Definition ws_forget_header (s : radv_amdgpu_cs * world) : radv_amdgpu_cs * world :=
  (radv_amdgpu_cs_set_last_cp_dma_header s.1 None, s.2).

Definition ws_add_buffer (s : radv_amdgpu_cs * world) (bo : winsys_bo)
  : option (radv_amdgpu_cs * world) :=
  let! cs := radv_amdgpu_cs_add_buffer k s.1 bo ;;
  Some (cs, s.2).

#[export] Instance winsys_stream : CommandStream (radv_amdgpu_cs * world) := {
  cs_emit := ws_emit;
  cs_header_near := ws_header_near;
  cs_header_or := ws_header_or;
  cs_forget_header := ws_forget_header;
  cs_add_buffer := ws_add_buffer
}.

Context (Hws : ws_ok ws) (Hk : kernel_ok k).
#[local] Set Default Proof Using "All".

(** Where the remembered dword is. *)
Definition marked (cs : radv_amdgpu_cs) (segs : list seg) (cur : list (list Z))
    (mark : option (nat * nat)) : Prop :=
  match last_cp_dma_header cs with
  | None => mark = None
  | Some (p, i) =>
      p = buf (base cs) /\
      exists pre q post j, cur = pre ++ q :: post /\ is_nop q = false
        /\ is_indirect_buffer q = false /\ (0 < j < length q)%nat
        /\ i = Z.of_nat (length (concat pre) + j)
        /\ mark = Some (length (visible (bodies segs ++ pre)), j)
  end.

Definition ws_holds (n : nat) (s : radv_amdgpu_cs * world) (ps : list (list Z))
    (mark : option (nat * nat)) : Prop :=
  exists segs cur nb, cs_open s.2 s.1 segs cur /\ world_ok k nb s.2 /\ (nb + n <= k_limit k)%nat
    /\ ps = recorded_packets segs cur /\ marked s.1 segs cur mark.

Lemma marked_none cs segs cur : last_cp_dma_header cs = None -> marked cs segs cur None.
Proof. unfold marked. by intros ->. Qed.

Lemma marked_unique cs segs cur mark :
  last_cp_dma_header cs = None -> marked cs segs cur mark -> mark = None.
Proof. unfold marked. by intros ->. Qed.

Lemma marked_app cs cs' segs cur qs mark :
  last_cp_dma_header cs' = last_cp_dma_header cs -> buf (base cs') = buf (base cs) ->
  marked cs segs cur mark -> marked cs' segs (cur ++ qs) mark.
Proof.
  unfold marked. intros -> ->. destruct (last_cp_dma_header cs) as [[p i]|]; [|done].
  intros (-> & pre & q & post & j & -> & ?). split; [done|].
  exists pre, q, (post ++ qs), j. by rewrite <- app_assoc.
Qed.

(** Starting a new IB forgets the header. *)
Lemma grow_header cs w n cs' w' :
  radv_amdgpu_cs_grow ws k cs w n = Some (cs', w') -> status cs = VK_SUCCESS ->
  last_cp_dma_header cs' = None.
Proof.
  unfold radv_amdgpu_cs_grow. intros H Hs. rewrite bool_decide_false in H by (by intros []).
  repeat (apply bind_Some in H as ([? ?] & _ & H) || apply bind_Some in H as (? & _ & H)
          || destruct (radv_amdgpu_cs_bo_create _ _ _ _ _) || destruct (radv_buffer_map _ _ _)).
  by simplify_eq.
Qed.

(** Reserving space keeps the current IB and its header, or forgets the header. *)
Lemma check_space_marked n cs w segs cur nb mark :
  cs_open w cs segs cur -> world_ok k nb w -> (nb < k_limit k)%nat -> 0 <= n <= 2 ^ 18 - 4 ->
  marked cs segs cur mark ->
  exists cs' w' segs' cur' mark', radeon_check_space ws k cs w n = Some (cs', w')
    /\ cs_open w' cs' segs' cur' /\ world_ok k (S nb) w'
    /\ recorded_packets segs' cur' = recorded_packets segs cur
    /\ cdw (base cs') + n <= reserved_dw (base cs')
    /\ marked cs' segs' cur' mark' /\ (mark' = mark \/ mark' = None).
Proof.
  intros Ho Hw Hlim Hn Hm. pose proof (co_dw _ _ _ _ Ho) as Hdw.
  pose proof (ci_max _ _ (co_inv _ _ _ _ Ho)) as Hmax.
  destruct (check_space_spec ws k Hws Hk nb w cs segs cur n Ho Hw Hlim Hn)
    as (cs' & w' & segs' & cur' & E & Ho' & Hw' & _ & Hr & _ & Hres & _).
  pose proof E as E'. unfold radeon_check_space in E'.
  apply bind_Some in E' as ([] & _ & E'). apply bind_Some in E' as ([cs1 w1] & E1 & E2).
  injection E2 as Hcs Hw1. destruct (_ <? n).
  - exists cs', w', segs', cur', None. split_and!; try done; [|by right].
    apply marked_none. rewrite <- Hcs. apply grow_header in E1; [done|]. apply Ho.
  - injection E1 as <- <-. exists cs', w', segs, cur, mark. rewrite <- Hcs, <- Hw1 in *.
    split_and!; try done; [|by left].
    apply (open_with_reserved ws k Hws Hk); [done|]. simpl. apply Ho'.
Qed.

(** Setting bits in a dword of a packet of the current IB. *)
Lemma plain_patch q j d :
  plain q -> is_indirect_buffer q = false -> (0 < j < length q)%nat ->
  plain (<[j := d]> q) /\ is_nop (<[j := d]> q) = is_nop q
  /\ is_indirect_buffer (<[j := d]> q) = false /\ length (<[j := d]> q) = length q.
Proof.
  intros [Hf _] Hib Hj. destruct q as [|h t]; [done|]. destruct j as [|j]; [lia|]. cbn [length] in Hj. change (<[S j := d]> (h :: t)) with (h :: <[j := d]> t).
  assert (is_indirect_buffer (h :: <[j := d]> t) = false) as Hib'.
  { rewrite is_indirect_buffer_alt, length_insert. by rewrite is_indirect_buffer_alt in Hib. }
  split_and!; [|reflexivity|exact Hib'|apply (length_insert (h :: t) (S j))]. split.
  - unfold framed in *. cbn [length] in *. by rewrite length_insert.
  - unfold chain_target, ib_target. rewrite Hib'.
    by destruct (<[j := d]> t) as [|? [|? [|? []]]].
Qed.

Lemma lookup_concat_mid (pre : list (list Z)) q post j :
  (j < length q)%nat -> concat (pre ++ q :: post) !! (length (concat pre) + j)%nat = q !! j.
Proof.
  intros Hj. rewrite concat_app, lookup_app_r by lia. simpl.
  replace (_ + j - _)%nat with j by lia. by rewrite lookup_app_l.
Qed.

Lemma insert_concat_mid (pre : list (list Z)) q post j (d : Z) :
  (j < length q)%nat ->
  <[(length (concat pre) + j)%nat := d]> (concat (pre ++ q :: post))
  = concat (pre ++ <[j := d]> q :: post).
Proof.
  intros Hj. rewrite !concat_app, insert_app_r_alt by lia. simpl.
  replace (_ + j - _)%nat with j by lia. by rewrite insert_app_l.
Qed.

Lemma open_patch nb w cs segs pre q post j d l :
  cs_open w cs segs (pre ++ q :: post) -> world_ok k nb w -> is_indirect_buffer q = false ->
  (0 < j < length q)%nat -> mem w !! buf (base cs) = Some l ->
  let i := (length (concat pre) + j)%nat in
  let w' := with_mem w (<[buf (base cs) := <[i := d]> l]> (mem w)) in
  cs_open w' cs segs (pre ++ <[j := d]> q :: post) /\ world_ok k nb w'.
Proof.
  intros Ho Hw Hib Hj Hl i w'. split; [|by eapply world_ok_write; [| |apply length_insert]].
  destruct Ho. destruct co_buf as (l0 & Hl0 & Hlen & Ht). rewrite Hl in Hl0. simplify_eq.
  apply Forall_app in co_cur as [Hpre [Hq Hpost]%Forall_cons].
  destruct (plain_patch q j d Hq Hib Hj) as (Hq' & _ & _ & Hlq).
  assert (same_shape (mem w) (mem w')) as Hsh by (eapply same_shape_write; [done|apply length_insert]).
  assert (i < length (concat (pre ++ q :: post)))%nat as Hi.
  { rewrite concat_app, length_app. simpl. rewrite length_app. subst i. lia. }
  split; try done.
  - exists (<[i := d]> l0). simpl. rewrite lookup_insert_eq, length_insert.
    split; [done|]. split; [done|]. rewrite take_insert_lt, Ht.
    + by apply insert_concat_mid; lia.
    + rewrite <- Ht, length_take in Hi. lia.
  - apply Forall_app. by split; [|constructor].
  - eapply linked_frame; [|done]. intros va Hva. simpl. rewrite lookup_insert_ne; [done|].
    intros <-. by apply NoDup_cons in co_nodup as [? _].
  - destruct co_live. split; [by eapply ib_live_shape|].
    intros bo Hbo. eapply bo_live_shape; eauto.
Qed.

(** The remembered packet among the recorded ones. *)
Lemma recorded_mid segs pre q post :
  is_nop q = false ->
  recorded_packets segs (pre ++ q :: post)
  = visible (bodies segs ++ pre) ++ q :: visible post.
Proof.
  intros Hq. unfold recorded_packets. by rewrite app_assoc, visible_app, visible_cons_keep.
Qed.

Lemma recorded_app segs cur qs :
  recorded_packets segs (cur ++ qs) = recorded_packets segs cur ++ visible qs.
Proof. unfold recorded_packets. by rewrite app_assoc, visible_app. Qed.

Lemma ws_emit_law n s ps mark needed qs :
  ws_holds (S n) s ps mark -> Forall plain qs ->
  Z.of_nat (length (concat qs)) <= needed <= 2 ^ 18 - 4 ->
  exists s' mark', ws_emit s needed (concat qs) None = Some s'
    /\ ws_holds n s' (ps ++ visible qs) mark' /\ (mark' = mark \/ mark' = None).
Proof.
  destruct s as [cs w]. intros (segs & cur & nb & Ho & Hw & Hlim & -> & Hm) Hqs Hn. simpl in *.
  destruct (check_space_marked needed cs w segs cur nb mark Ho Hw ltac:(lia) ltac:(lia) Hm)
    as (cs1 & w1 & segs1 & cur1 & mark1 & -> & Ho1 & Hw1 & Hr1 & Hres & Hm1 & Hk1). simpl.
  destruct (emit_open ws k Hws Hk w1 cs1 segs1 cur1 qs Ho1 Hqs ltac:(lia)) as (cs2 & w2 & -> & Ha & Ho2).
  simpl. exists (cs2, w2), mark1. split; [done|]. split; [|done].
  exists segs1, (cur1 ++ qs), (S nb). simpl. split_and!; [done|by eapply appended_world|lia| |].
  - by rewrite recorded_app, Hr1.
  - apply appended_fields in Ha as [-> _]. by eapply marked_app.
Qed.

Lemma ws_emit_marked_law n s ps mark needed p i :
  ws_holds (S n) s ps mark -> plain p -> is_nop p = false -> is_indirect_buffer p = false ->
  (0 < i < length p)%nat -> Z.of_nat (length p) <= needed <= 2 ^ 18 - 4 ->
  exists s', ws_emit s needed p (Some i) = Some s' /\ ws_holds n s' (ps ++ [p]) (Some (length ps, i)).
Proof.
  destruct s as [cs w]. intros (segs & cur & nb & Ho & Hw & Hlim & -> & Hm) Hp Hnop Hib Hi Hn. simpl in *.
  destruct (check_space_marked needed cs w segs cur nb mark Ho Hw ltac:(lia) ltac:(lia) Hm)
    as (cs1 & w1 & segs1 & cur1 & mark1 & -> & Ho1 & Hw1 & Hr1 & Hres & Hm1 & Hk1). simpl.
  assert (concat [p] = p) as Ep by (simpl; apply app_nil_r).
  destruct (emit_open ws k Hws Hk w1 cs1 segs1 cur1 [p] Ho1 ltac:(by constructor)) as (cs2 & w2 & E & Ha & Ho2).
  { rewrite Ep. lia. }
  rewrite Ep in E, Ha. rewrite E. simpl. eexists (_, _). split; [done|].
  exists segs1, (cur1 ++ [p]), (S nb). simpl.
  split_and!; [by destruct Ho2 as [[]]|by eapply appended_world|lia| |].
  - rewrite recorded_app, Hr1. by rewrite visible_cons_keep.
  - destruct (co_buf _ _ _ _ Ho1) as (l & _ & Hlen & Ht).
    pose proof (co_dw _ _ _ _ Ho1) as Hdw.
    apply appended_fields in Ha as [-> _]. unfold marked. simpl. split; [done|].
    exists cur1, p, [], i. split_and!; try done; try lia; [|by unfold recorded_packets in *; rewrite Hr1].
    rewrite <- Ht, length_take. lia.
Qed.

Lemma marked_near cs w segs cur mark :
  marked cs segs cur mark -> ws_header_near (cs, w) = true -> mark <> None.
Proof.
  unfold marked, ws_header_near, radv_amdgpu_cs_get_last_cp_dma_header. simpl.
  destruct (last_cp_dma_header cs) as [[p i]|]; [|done].
  by intros (_ & pre & q & post & j & _ & _ & _ & _ & _ & ->).
Qed.

Lemma ws_or_law n s ps i j v :
  ws_holds n s ps (Some (i, j)) -> ws_header_near s = true ->
  exists s' p d, ws_header_or s v = Some s' /\ ps !! i = Some p /\ p !! j = Some d
    /\ ws_holds n s' (<[i := <[j := Z.lor d v]> p]> ps) (Some (i, j)).
Proof.
  destruct s as [cs w]. intros (segs & cur & nb & Ho & Hw & Hlim & -> & Hm) _. simpl in *.
  unfold marked in Hm. unfold radv_amdgpu_cs_get_last_cp_dma_header.
  destruct (last_cp_dma_header cs) as [[p0 i0]|] eqn:Eh; [|done].
  destruct Hm as (-> & pre & q & post & j0 & -> & Hnop & Hib & Hj & -> & [= -> ->]).
  destruct (lookup_lt_is_Some_2 q j0 ltac:(lia)) as [d Hd].
  destruct (co_buf _ _ _ _ Ho) as (l & Hl & Hlen & Ht). pose proof (co_dw _ _ _ _ Ho) as Hdw.
  assert (length (concat pre) + j0 < Z.to_nat (cdw (base cs)))%nat as Hi.
  { pose proof (f_equal length Ht) as Hl'. rewrite length_take, concat_app, length_app in Hl'.
    simpl in Hl'. rewrite length_app in Hl'. lia. }
  assert (l !! (length (concat pre) + j0)%nat = Some d) as Hld.
  { rewrite <- (lookup_take_lt l (Z.to_nat (cdw (base cs)))), Ht by done.
    by rewrite lookup_concat_mid by lia. }
  destruct (open_patch nb w cs segs pre q post j0 (Z.lor d v) l Ho Hw Hib Hj Hl) as [Ho' Hw'].
  cbn [mbind option_bind]. unfold load, store. rewrite Hl. cbn [mbind option_bind].
  rewrite (proj2 (Z.leb_le 0 _)), (proj2 (Z.ltb_lt (Z.of_nat (_ + j0)) _)) by lia. simpl.
  rewrite Nat2Z.id, Hld. simpl. eexists _, q, d. split; [done|].
  rewrite recorded_mid by done. split; [by apply list_lookup_middle|]. split; [done|].
  pose proof (co_cur _ _ _ _ Ho) as Hcur. apply Forall_app in Hcur as [_ [Hq _]%Forall_cons].
  destruct (plain_patch q j0 (Z.lor d v) Hq Hib Hj) as (_ & Hn' & Hib' & Hl').
  exists segs, (pre ++ <[j0 := Z.lor d v]> q :: post), nb. simpl. split_and!; [done|done|done| |].
  - rewrite recorded_mid by (by rewrite Hn'). by rewrite insert_app_r_alt, Nat.sub_diag by lia.
  - unfold marked. rewrite Eh. split; [done|].
    exists pre, (<[j0 := Z.lor d v]> q), post, j0. by rewrite Hn', Hl'.
Qed.

Lemma ws_forget_law n s ps mark : ws_holds n s ps mark -> ws_holds n (ws_forget_header s) ps None.
Proof.
  destruct s as [cs w]. intros (segs & cur & nb & Ho & Hw & Hlim & -> & Hm).
  exists segs, cur, nb. simpl in *. split_and!; try done. by destruct Ho as [[]].
Qed.

Lemma ws_add_buffer_law n s ps mark bo :
  ws_holds n s ps mark -> exists s', ws_add_buffer s bo = Some s' /\ ws_holds n s' ps mark.
Proof.
  destruct s as [cs w]. intros (segs & cur & nb & Ho & Hw & Hlim & -> & Hm). simpl in *.
  destruct (add_buffer_ok ws k Hws Hk cs bo) as (b & E & Hb); [apply Ho..|].
  unfold ws_add_buffer. simpl. rewrite E. simpl. eexists (_, _). split; [done|].
  exists segs, cur, nb. simpl. split_and!; try done. by destruct Ho as [[]].
Qed.

#[export, refine] Instance winsys_laws : CommandStreamLaws (radv_amdgpu_cs * world) := {
  holds := ws_holds
}.
Proof.
  - intros n s ps mark (segs & cur & nb & Ho & Hw & Hn & Hr). exists segs, cur, nb.
    split; [done|]. split; [done|]. split; [lia|done].
  - intros. by eapply ws_emit_law.
  - intros. by eapply ws_emit_marked_law.
  - intros n [cs w] ps mark (? & ? & ? & _ & _ & _ & _ & Hm) Hn. by eapply marked_near.
  - intros. by apply ws_or_law.
  - intros. by eapply ws_forget_law.
  - intros. by apply ws_add_buffer_law.
Defined.

(** What a winsys stream holds is what the command processor executes once it is
    finalized. *)
Lemma holds_executes n cs w ps mark :
  ws_holds n (cs, w) ps mark ->
  exists cs' w', radv_amdgpu_cs_finalize ws k cs w = Some (cs', w') /\ executes w' cs' ps.
Proof.
  intros (segs & cur & nb & Ho & Hw & _ & -> & _). simpl in *.
  destruct (finalize_spec ws k Hws Hk nb w cs segs cur Ho Hw)
    as (cs' & w' & s & -> & Hcl & _ & _ & Hv & _).
  exists cs', w'. split; [done|]. unfold recorded_packets. rewrite visible_app, <- Hv, <- visible_app.
  by apply (closed_executes ws k Hws Hk).
Qed.

End Winsys.
