(* ===== verification/CmdBuffer.v ===== *)
(** Command buffers: CP DMA (src/amd/vulkan/radv_cp_dma.c), cache flushes
    (radv_emit_cache_flush and the end of radv_EndCommandBuffer in
    radv_cmd_buffer.c, radv_cs_emit_cache_flush in radv_cs.c), the upload buffer and
    trace points (radv_cmd_buffer.c), over the command-stream interface. *)

From stdpp Require Import gmap.
From S2P Require Import Prelude Pm4 Barrier WinsysCs CmdStream.

(** * Devices and command buffers *)

(** What the code reads of the physical device and of the command buffer's creation. *)
Record device := Device {
  dev_gfx_level : amd_gfx_level;
  cp_dma_use_L2 : bool;
  has_cp_dma_unaligned_copy_perf_issue : bool;
  gfx11_full_size_cp_dma : bool;
  no_cp_dma_prefetch : bool;
  full_db_flush : bool;
  fault_detection : bool;
  trace_va : Z;
  (** Register offsets as they are emitted. *)
  remap : Z -> Z;
  (** The winsys allocates, maps; the host allocates. *)
  bo_create : nat -> Z -> option winsys_bo;
  bo_map : nat -> bool;
  host_malloc : nat -> bool
}.

(** The queue families that record PM4 commands. *)
Inductive radv_queue_family := RADV_QUEUE_GENERAL | RADV_QUEUE_COMPUTE.

Definition is_compute_queue (q : radv_queue_family) : bool :=
  match q with RADV_QUEUE_COMPUTE => true | RADV_QUEUE_GENERAL => false end.

Definition ring (q : radv_queue_family) : amd_ip_type :=
  match q with RADV_QUEUE_COMPUTE => AMD_IP_COMPUTE | RADV_QUEUE_GENERAL => AMD_IP_GFX end.

(** [struct radv_cmd_buffer_upload] *)
Record radv_cmd_buffer_upload := Upload {
  upload_bo : option winsys_bo;
  upload_size : Z;
  upload_offset : Z;
  upload_list : list (option winsys_bo * Z * Z)
}.

(** The fields of [struct radv_cmd_buffer] and its state used here; [requests] counts
    the calls of the allocators. *)
Record radv_cmd_buffer (S : Type) := CmdBuffer {
  stream : S;
  qf : radv_queue_family;
  is_primary : bool;
  eop_fence_idx : Z;
  eop_fence_va : Z;
  cb_eop_bug_va : Z;
  flush_bits : Z;
  rgp_flush_bits : Z;
  acquire_point : ac_pws_acquire_point;
  dma_is_busy : bool;
  cp_dma_realignment_is_busy : bool;
  rb_noncoherent_dirty : bool;
  active_query_flush_bits : Z;
  pending_reset_query : bool;
  bc_decode_pending : bool;
  bc_decode_active : bool;
  trace_id : Z;
  upload : radv_cmd_buffer_upload;
  record_result : VkResult;
  requests : nat
}.

#[global] Arguments CmdBuffer {S}.
#[global] Arguments stream {S}.
#[global] Arguments qf {S}.
#[global] Arguments is_primary {S}.
#[global] Arguments eop_fence_idx {S}.
#[global] Arguments eop_fence_va {S}.
#[global] Arguments cb_eop_bug_va {S}.
#[global] Arguments flush_bits {S}.
#[global] Arguments rgp_flush_bits {S}.
#[global] Arguments acquire_point {S}.
#[global] Arguments dma_is_busy {S}.
#[global] Arguments cp_dma_realignment_is_busy {S}.
#[global] Arguments rb_noncoherent_dirty {S}.
#[global] Arguments active_query_flush_bits {S}.
#[global] Arguments pending_reset_query {S}.
#[global] Arguments bc_decode_pending {S}.
#[global] Arguments bc_decode_active {S}.
#[global] Arguments trace_id {S}.
#[global] Arguments upload {S}.
#[global] Arguments record_result {S}.
#[global] Arguments requests {S}.

Section Setters.
Context {S : Type}.
Implicit Types cb : radv_cmd_buffer S.

Definition set_stream cb (v : S) : radv_cmd_buffer S :=
  CmdBuffer v (qf cb) (is_primary cb) (eop_fence_idx cb) (eop_fence_va cb) (cb_eop_bug_va
    cb) (flush_bits cb) (rgp_flush_bits cb) (acquire_point cb) (dma_is_busy cb)
    (cp_dma_realignment_is_busy cb) (rb_noncoherent_dirty cb) (active_query_flush_bits cb)
    (pending_reset_query cb) (bc_decode_pending cb) (bc_decode_active cb) (trace_id cb)
    (upload cb) (record_result cb) (requests cb).
Definition set_flush_bits cb (v : Z) : radv_cmd_buffer S :=
  CmdBuffer (stream cb) (qf cb) (is_primary cb) (eop_fence_idx cb) (eop_fence_va cb)
    (cb_eop_bug_va cb) v (rgp_flush_bits cb) (acquire_point cb) (dma_is_busy cb)
    (cp_dma_realignment_is_busy cb) (rb_noncoherent_dirty cb) (active_query_flush_bits cb)
    (pending_reset_query cb) (bc_decode_pending cb) (bc_decode_active cb) (trace_id cb)
    (upload cb) (record_result cb) (requests cb).
Definition set_rgp_flush_bits cb (v : Z) : radv_cmd_buffer S :=
  CmdBuffer (stream cb) (qf cb) (is_primary cb) (eop_fence_idx cb) (eop_fence_va cb)
    (cb_eop_bug_va cb) (flush_bits cb) v (acquire_point cb) (dma_is_busy cb)
    (cp_dma_realignment_is_busy cb) (rb_noncoherent_dirty cb) (active_query_flush_bits cb)
    (pending_reset_query cb) (bc_decode_pending cb) (bc_decode_active cb) (trace_id cb)
    (upload cb) (record_result cb) (requests cb).
Definition set_acquire_point cb (v : ac_pws_acquire_point) : radv_cmd_buffer S :=
  CmdBuffer (stream cb) (qf cb) (is_primary cb) (eop_fence_idx cb) (eop_fence_va cb)
    (cb_eop_bug_va cb) (flush_bits cb) (rgp_flush_bits cb) v (dma_is_busy cb)
    (cp_dma_realignment_is_busy cb) (rb_noncoherent_dirty cb) (active_query_flush_bits cb)
    (pending_reset_query cb) (bc_decode_pending cb) (bc_decode_active cb) (trace_id cb)
    (upload cb) (record_result cb) (requests cb).
Definition set_dma_is_busy cb (v : bool) : radv_cmd_buffer S :=
  CmdBuffer (stream cb) (qf cb) (is_primary cb) (eop_fence_idx cb) (eop_fence_va cb)
    (cb_eop_bug_va cb) (flush_bits cb) (rgp_flush_bits cb) (acquire_point cb) v
    (cp_dma_realignment_is_busy cb) (rb_noncoherent_dirty cb) (active_query_flush_bits cb)
    (pending_reset_query cb) (bc_decode_pending cb) (bc_decode_active cb) (trace_id cb)
    (upload cb) (record_result cb) (requests cb).
Definition set_cp_dma_realignment_is_busy cb (v : bool) : radv_cmd_buffer S :=
  CmdBuffer (stream cb) (qf cb) (is_primary cb) (eop_fence_idx cb) (eop_fence_va cb)
    (cb_eop_bug_va cb) (flush_bits cb) (rgp_flush_bits cb) (acquire_point cb) (dma_is_busy
    cb) v (rb_noncoherent_dirty cb) (active_query_flush_bits cb) (pending_reset_query cb)
    (bc_decode_pending cb) (bc_decode_active cb) (trace_id cb) (upload cb) (record_result
    cb) (requests cb).
Definition set_eop_fence_idx cb (v : Z) : radv_cmd_buffer S :=
  CmdBuffer (stream cb) (qf cb) (is_primary cb) v (eop_fence_va cb) (cb_eop_bug_va cb)
    (flush_bits cb) (rgp_flush_bits cb) (acquire_point cb) (dma_is_busy cb)
    (cp_dma_realignment_is_busy cb) (rb_noncoherent_dirty cb) (active_query_flush_bits cb)
    (pending_reset_query cb) (bc_decode_pending cb) (bc_decode_active cb) (trace_id cb)
    (upload cb) (record_result cb) (requests cb).
Definition set_rb_noncoherent_dirty cb (v : bool) : radv_cmd_buffer S :=
  CmdBuffer (stream cb) (qf cb) (is_primary cb) (eop_fence_idx cb) (eop_fence_va cb)
    (cb_eop_bug_va cb) (flush_bits cb) (rgp_flush_bits cb) (acquire_point cb) (dma_is_busy
    cb) (cp_dma_realignment_is_busy cb) v (active_query_flush_bits cb) (pending_reset_query
    cb) (bc_decode_pending cb) (bc_decode_active cb) (trace_id cb) (upload cb)
    (record_result cb) (requests cb).
Definition set_active_query_flush_bits cb (v : Z) : radv_cmd_buffer S :=
  CmdBuffer (stream cb) (qf cb) (is_primary cb) (eop_fence_idx cb) (eop_fence_va cb)
    (cb_eop_bug_va cb) (flush_bits cb) (rgp_flush_bits cb) (acquire_point cb) (dma_is_busy
    cb) (cp_dma_realignment_is_busy cb) (rb_noncoherent_dirty cb) v (pending_reset_query cb)
    (bc_decode_pending cb) (bc_decode_active cb) (trace_id cb) (upload cb) (record_result
    cb) (requests cb).
Definition set_pending_reset_query cb (v : bool) : radv_cmd_buffer S :=
  CmdBuffer (stream cb) (qf cb) (is_primary cb) (eop_fence_idx cb) (eop_fence_va cb)
    (cb_eop_bug_va cb) (flush_bits cb) (rgp_flush_bits cb) (acquire_point cb) (dma_is_busy
    cb) (cp_dma_realignment_is_busy cb) (rb_noncoherent_dirty cb) (active_query_flush_bits
    cb) v (bc_decode_pending cb) (bc_decode_active cb) (trace_id cb) (upload cb)
    (record_result cb) (requests cb).
Definition set_bc_decode_pending cb (v : bool) : radv_cmd_buffer S :=
  CmdBuffer (stream cb) (qf cb) (is_primary cb) (eop_fence_idx cb) (eop_fence_va cb)
    (cb_eop_bug_va cb) (flush_bits cb) (rgp_flush_bits cb) (acquire_point cb) (dma_is_busy
    cb) (cp_dma_realignment_is_busy cb) (rb_noncoherent_dirty cb) (active_query_flush_bits
    cb) (pending_reset_query cb) v (bc_decode_active cb) (trace_id cb) (upload cb)
    (record_result cb) (requests cb).
Definition set_trace_id cb (v : Z) : radv_cmd_buffer S :=
  CmdBuffer (stream cb) (qf cb) (is_primary cb) (eop_fence_idx cb) (eop_fence_va cb)
    (cb_eop_bug_va cb) (flush_bits cb) (rgp_flush_bits cb) (acquire_point cb) (dma_is_busy
    cb) (cp_dma_realignment_is_busy cb) (rb_noncoherent_dirty cb) (active_query_flush_bits
    cb) (pending_reset_query cb) (bc_decode_pending cb) (bc_decode_active cb) v (upload cb)
    (record_result cb) (requests cb).
Definition set_upload cb (v : radv_cmd_buffer_upload) : radv_cmd_buffer S :=
  CmdBuffer (stream cb) (qf cb) (is_primary cb) (eop_fence_idx cb) (eop_fence_va cb)
    (cb_eop_bug_va cb) (flush_bits cb) (rgp_flush_bits cb) (acquire_point cb) (dma_is_busy
    cb) (cp_dma_realignment_is_busy cb) (rb_noncoherent_dirty cb) (active_query_flush_bits
    cb) (pending_reset_query cb) (bc_decode_pending cb) (bc_decode_active cb) (trace_id cb)
    v (record_result cb) (requests cb).
Definition set_record_result cb (v : VkResult) : radv_cmd_buffer S :=
  CmdBuffer (stream cb) (qf cb) (is_primary cb) (eop_fence_idx cb) (eop_fence_va cb)
    (cb_eop_bug_va cb) (flush_bits cb) (rgp_flush_bits cb) (acquire_point cb) (dma_is_busy
    cb) (cp_dma_realignment_is_busy cb) (rb_noncoherent_dirty cb) (active_query_flush_bits
    cb) (pending_reset_query cb) (bc_decode_pending cb) (bc_decode_active cb) (trace_id cb)
    (upload cb) v (requests cb).
Definition set_requests cb (v : nat) : radv_cmd_buffer S :=
  CmdBuffer (stream cb) (qf cb) (is_primary cb) (eop_fence_idx cb) (eop_fence_va cb)
    (cb_eop_bug_va cb) (flush_bits cb) (rgp_flush_bits cb) (acquire_point cb) (dma_is_busy
    cb) (cp_dma_realignment_is_busy cb) (rb_noncoherent_dirty cb) (active_query_flush_bits
    cb) (pending_reset_query cb) (bc_decode_pending cb) (bc_decode_active cb) (trace_id cb)
    (upload cb) (record_result cb) v.
End Setters.

(** * CP DMA packets (DMA_DATA 0x50, CP_DMA 0x41) *)

Definition S_501_DST_SEL := S_field 20 2.
Definition S_501_SRC_SEL := S_field 29 2.
Definition S_501_CP_SYNC := S_field 31 1.
Definition S_412_SRC_ADDR_HI := S_field 0 16.
Definition S_506_BYTE_COUNT := S_field 0 26.
Definition S_506_DISABLE_WR_CONFIRM := S_field 31 1.
Definition S_415_BYTE_COUNT := S_field 0 21.
Definition S_415_DISABLE_WR_CONFIRM := S_field 21 1.
Definition V_501_DST_NOWHERE : Z := 2.
Definition V_501_DST_ADDR_USING_L2 : Z := 3.
Definition V_501_DATA : Z := 2.
Definition V_501_SRC_ADDR_USING_L2 : Z := 3.

Definition CP_DMA_SYNC : Z := 1.
Definition CP_DMA_USE_L2 : Z := 2.
Definition CP_DMA_CLEAR : Z := 4.
Definition CP_DMA_SAVE_HEADER_PTR_FOR_SYNC : Z := 16.

Definition SI_CPDMA_ALIGNMENT : Z := 32.

Section CmdBuffer.
Context {S : Type} `{CommandStream S} (dev : device).
Implicit Types cb : radv_cmd_buffer S.

Definition is_mec cb : bool := gfx_ge (dev_gfx_level dev) GFX7 && is_compute_queue (qf cb).

(** [S_506_BYTE_COUNT(~0u)] and [S_415_BYTE_COUNT(~0u)] are the field masks. *)
Definition cp_dma_max_byte_count : Z :=
  let max :=
    if gfx_ge (dev_gfx_level dev) GFX11 && negb (gfx11_full_size_cp_dma dev) then 32767
    else if gfx_ge (dev_gfx_level dev) GFX9 then S_506_BYTE_COUNT (W32 - 1)
    else S_415_BYTE_COUNT (W32 - 1) in
  Z.land max (W32 - 1 - (SI_CPDMA_ALIGNMENT - 1)).

(** ** Trace points *)

Definition V_371_MICRO_ENGINE : Z := 0.
Definition AC_ENCODE_TRACE_POINT (id : Z) : Z := Z.lor 0xcafe0000 (Z.land id 0xffff).

(** [radv_cs_write_data] on the queues that record PM4. *)
Definition radv_cs_write_data (s : S) (engine_sel va : Z) (data : list Z) (predicating : bool)
  : option S :=
  cs_emit s (4 + Z.of_nat (length data))
    (ac_emit_cp_write_data engine_sel V_371_MEMORY va data predicating) None.

Definition radv_cmd_buffer_trace_emit cb : option (radv_cmd_buffer S) :=
  let va := trace_va dev + (if is_primary cb then 0 else 4) in
  let cb := set_trace_id cb (u32 (trace_id cb + 1)) in
  let! s := radv_cs_write_data (stream cb) V_371_MICRO_ENGINE va [trace_id cb] false ;;
  let! s := cs_emit s 2 (ac_emit_cp_nop (AC_ENCODE_TRACE_POINT (trace_id cb))) None ;;
  Some (set_stream cb s).

Definition trace_if_enabled cb : option (radv_cmd_buffer S) :=
  if fault_detection dev then radv_cmd_buffer_trace_emit cb else Some cb.

(** ** The upload buffer *)

(** [false] is the failure return. *)
Definition radv_cmd_buffer_resize_upload_buf cb (min_needed : Z)
  : option (bool * radv_cmd_buffer S) :=
  let new_size := Z.max min_needed (16 * 1024) in
  let new_size := Z.max new_size (u64 (2 * upload_size (upload cb))) in
  let new_size := Z.max new_size (128 * 1024) in
  let n := requests cb in
  let cb := set_requests cb (Datatypes.S n) in
  match bo_create dev n new_size with
  | None => Some (false, set_record_result cb VK_ERROR_OUT_OF_DEVICE_MEMORY)
  | Some bo =>
      let! s := cs_add_buffer (stream cb) bo ;;
      let cb := set_stream cb s in
      let old := upload cb in
      match upload_bo old with
      | Some _ =>
          if negb (host_malloc dev n)
          then Some (false, set_record_result cb VK_ERROR_OUT_OF_HOST_MEMORY)
          else
            let l := (upload_bo old, upload_size old, upload_offset old) :: upload_list old in
            let cb := set_upload cb (Upload (Some bo) new_size 0 l) in
            if bo_map dev n then Some (true, cb)
            else Some (false, set_record_result cb VK_ERROR_OUT_OF_DEVICE_MEMORY)
      | None =>
          let cb := set_upload cb (Upload (Some bo) new_size 0 (upload_list old)) in
          if bo_map dev n then Some (true, cb)
          else Some (false, set_record_result cb VK_ERROR_OUT_OF_DEVICE_MEMORY)
      end
  end.

(** The offset, or [None] for the failure return. *)
Definition radv_cmd_buffer_upload_alloc_aligned cb (sz alignment : Z)
  : option (option Z * radv_cmd_buffer S) :=
  assert! sz mod 4 =? 0 ;;
  let offset := upload_offset (upload cb) in
  let line_size := if gfx_ge (dev_gfx_level dev) GFX10 then 64 else 32 in
  let gap := u32 (align offset line_size - offset) in
  let offset := if gap <? Z.land sz (line_size - 1) then align offset line_size else offset in
  let offset := if alignment =? 0 then offset else align offset alignment in
  let! (ok, cb, offset) :=
    (if upload_size (upload cb) <? u32 (offset + sz) then
       let! (ok, cb) := radv_cmd_buffer_resize_upload_buf cb sz ;;
       Some (ok, cb, 0)
     else Some (true, cb, offset)) ;;
  if ok : bool then
    let u := upload cb in
    Some (Some offset,
          set_upload cb (Upload (upload_bo u) (upload_size u) (u32 (offset + sz)) (upload_list u)))
  else Some (None, cb).

Definition radv_cmd_buffer_upload_alloc cb (sz : Z) : option (option Z * radv_cmd_buffer S) :=
  radv_cmd_buffer_upload_alloc_aligned cb sz 0.

(** ** CP DMA *)

Definition radv_emit_cp_dma cb (dst_va src_va sz fl : Z) : option (radv_cmd_buffer S) :=
  let g := dev_gfx_level dev in
  let use_L2 := has fl CP_DMA_USE_L2 && cp_dma_use_L2 dev in
  let use_mall := gfx_eq g GFX12 in
  let tc_l2 := use_L2 || use_mall in
  assert! sz <=? cp_dma_max_byte_count ;;
  let command := if gfx_ge g GFX9 then S_506_BYTE_COUNT sz else S_415_BYTE_COUNT sz in
  let header :=
    lors [when (negb (is_mec cb) && has fl CP_DMA_SYNC) (S_501_CP_SYNC 1);
          when tc_l2 (S_501_DST_SEL V_501_DST_ADDR_USING_L2);
          (if has fl CP_DMA_CLEAR then S_501_SRC_SEL V_501_DATA
           else when tc_l2 (S_501_SRC_SEL V_501_SRC_ADDR_USING_L2))] in
  let save := negb (is_mec cb) && has fl CP_DMA_SAVE_HEADER_PTR_FOR_SYNC in
  let! s :=
    (if gfx_ge g GFX7 then
       cs_emit (stream cb) 9
         [PKT3 PKT3_DMA_DATA 5 0; header; addr_lo src_va; addr_hi src_va; addr_lo dst_va;
          addr_hi dst_va; command]
         (if save then Some 1%nat else None)
     else
       assert! negb tc_l2 ;;
       let header := Z.lor header (S_412_SRC_ADDR_HI (Z.shiftr src_va 32)) in
       cs_emit (stream cb) 9
         [PKT3 PKT3_CP_DMA 4 0; addr_lo src_va; header; addr_lo dst_va;
          Z.land (Z.shiftr dst_va 32) 0xffff; command]
         (if save then Some 2%nat else None)) ;;
  trace_if_enabled (set_stream cb s).

Definition radv_cs_cp_dma_prefetch (s : S) (va sz : Z) : option S :=
  let g := dev_gfx_level dev in
  let sz := if gfx_ge g GFX11 then Z.min sz (32768 - SI_CPDMA_ALIGNMENT) else sz in
  assert! sz <=? cp_dma_max_byte_count ;;
  if no_cp_dma_prefetch dev then Some s
  else
    let mask := W64 - SI_CPDMA_ALIGNMENT in
    let aligned_va := Z.land va mask in
    let aligned_size :=
      u64 (Z.land (u64 (va + sz + SI_CPDMA_ALIGNMENT - 1)) mask - aligned_va) in
    let command :=
      if gfx_ge g GFX9 then Z.lor (S_506_BYTE_COUNT aligned_size) (S_506_DISABLE_WR_CONFIRM 1)
      else Z.lor (S_415_BYTE_COUNT aligned_size) (S_415_DISABLE_WR_CONFIRM 1) in
    let header :=
      Z.lor (S_501_DST_SEL (if gfx_ge g GFX9 then V_501_DST_NOWHERE else V_501_DST_ADDR_USING_L2))
            (S_501_SRC_SEL V_501_SRC_ADDR_USING_L2) in
    cs_emit s 9
      [PKT3 PKT3_DMA_DATA 5 0; header; addr_lo aligned_va; addr_hi aligned_va;
       addr_lo aligned_va; addr_hi aligned_va; command] None.

(** The result of the allocation is not tested: after a failure the offset is not
    initialized. *)
Definition radv_cp_dma_realign_engine cb (sz : Z) : option (radv_cmd_buffer S) :=
  assert! sz <? SI_CPDMA_ALIGNMENT ;;
  let! (offset, cb) := radv_cmd_buffer_upload_alloc cb (SI_CPDMA_ALIGNMENT * 2) ;;
  let! bo := upload_bo (upload cb) ;;
  let! offset := offset ;;
  let va := u64 (bo_va bo + offset) in
  radv_emit_cp_dma cb va (u64 (va + SI_CPDMA_ALIGNMENT)) sz 0.

Definition radv_cp_dma_wait_for_idle cb : option (radv_cmd_buffer S) :=
  if negb (dma_is_busy cb) then Some cb
  else
    assert! negb (is_mec cb) ;;
    let! cb :=
      (if cs_header_near (stream cb) then
         let! s := cs_header_or (stream cb) (S_501_CP_SYNC 1) ;;
         Some (set_stream cb s)
       else
         let! cb := radv_emit_cp_dma cb 0 0 0 CP_DMA_SYNC ;;
         Some (set_cp_dma_realignment_is_busy cb false)) ;;
    let cb := set_dma_is_busy cb false in
    Some (set_stream cb (cs_forget_header (stream cb))).

(** ** Cache flushes *)

Definition radv_cs_emit_cache_flush (s : S) (g : amd_gfx_level) (ip : amd_ip_type)
    (flush_cnt flush_va bits rgp0 : Z) (point : ac_pws_acquire_point) (bug_va : Z)
  : option (S * barrier_out) :=
  let barrier := BarrierState bits point flush_va flush_cnt bug_va in
  let! out := ac_emit_barrier (remap dev) g ip barrier rgp0 ;;
  let! s := cs_emit s 128 (dwords out) None ;;
  Some (s, out).

(** The acquire point a flush uses. *)
Definition resolve_acquire_point (point : ac_pws_acquire_point) (pws_defer_allowed : bool)
  : ac_pws_acquire_point :=
  match point with
  | AC_PWS_ACQUIRE_POINT_NONE => AC_PWS_ACQUIRE_POINT_PFP
  | AC_PWS_ACQUIRE_POINT_PRE_DEPTH =>
      if pws_defer_allowed then AC_PWS_ACQUIRE_POINT_PRE_DEPTH else AC_PWS_ACQUIRE_POINT_ME
  | p => p
  end.

(** The deferred flush of a BCn decode is drained unless a decode is active. *)
Definition drain_bc_decode cb : radv_cmd_buffer S :=
  if bc_decode_pending cb && negb (bc_decode_active cb) then
    set_flush_bits (set_bc_decode_pending cb false)
      (Z.lor (flush_bits cb) (lors [AC_BARRIER_SYNC_CS; AC_BARRIER_WB_L2; AC_BARRIER_INV_L2;
                                    AC_BARRIER_INV_VMEM]))
  else cb.

Definition radv_emit_cache_flush cb (pws_defer_allowed : bool) : option (radv_cmd_buffer S) :=
  let g := dev_gfx_level dev in
  let cb := drain_bc_decode cb in
  let cb := if is_compute_queue (qf cb)
            then set_flush_bits cb (Z.land (flush_bits cb) AC_BARRIER_ALL_COMPUTE) else cb in
  if flush_bits cb =? 0 then Some (set_acquire_point cb AC_PWS_ACQUIRE_POINT_NONE)
  else
    let! cb :=
      (if has (flush_bits cb) AC_BARRIER_SYNC_CP_DMA then
         let! cb := radv_cp_dma_wait_for_idle cb ;;
         let cb := set_flush_bits cb (clear (flush_bits cb) AC_BARRIER_SYNC_CP_DMA) in
         Some (set_rgp_flush_bits cb (Z.lor (rgp_flush_bits cb) AC_RGP_FLUSH_SYNC_CP_DMA))
       else Some cb) ;;
    let point := resolve_acquire_point (acquire_point cb) pws_defer_allowed in
    let cb :=
      if (Z.land (flush_bits cb) (Z.lor AC_BARRIER_SYNC_AND_INV_DB AC_BARRIER_SYNC_AND_INV_CB)
          =? AC_BARRIER_SYNC_AND_INV_DB) && full_db_flush dev
      then set_flush_bits cb (Z.lor (flush_bits cb) AC_BARRIER_SYNC_AND_INV_CB) else cb in
    let! (s, out) :=
      radv_cs_emit_cache_flush (stream cb) g (ring (qf cb)) (eop_fence_idx cb) (eop_fence_va cb)
        (flush_bits cb) (rgp_flush_bits cb) point (cb_eop_bug_va cb) ;;
    let cb := set_rgp_flush_bits (set_eop_fence_idx (set_stream cb s) (counter out)) (rgp out) in
    let! cb := trace_if_enabled cb ;;
    let cb := if has (flush_bits cb) AC_BARRIER_INV_L2
              then set_rb_noncoherent_dirty cb false else cb in
    let cb := set_active_query_flush_bits cb (clear (active_query_flush_bits cb) (flush_bits cb)) in
    let cb := set_acquire_point (set_flush_bits cb 0) AC_PWS_ACQUIRE_POINT_NONE in
    Some (set_pending_reset_query cb false).

Definition flush_if_needed cb : option (radv_cmd_buffer S) :=
  if flush_bits cb =? 0 then Some cb else radv_emit_cache_flush cb false.

(** ** Copies and fills *)

(** The loop of a copy; every iteration makes progress, so [sz + 1] steps suffice. *)
Fixpoint copy_loop (fuel : nat) cb (main_dest_va main_src_va sz fl : Z)
  : option (radv_cmd_buffer S) :=
  if sz =? 0 then Some cb
  else
    match fuel with
    | O => None
    | Datatypes.S fuel =>
        let byte_count := Z.min sz cp_dma_max_byte_count in
        let! cb := radv_emit_cp_dma cb main_dest_va main_src_va byte_count fl ;;
        copy_loop fuel cb (u64 (main_dest_va + byte_count)) (u64 (main_src_va + byte_count))
          (sz - byte_count) fl
    end.

Definition copy_fuel (sz : Z) : nat := Z.to_nat (sz / cp_dma_max_byte_count + 1).

Definition radv_cp_dma_copy_memory cb (src_va dest_va sz : Z) : option (radv_cmd_buffer S) :=
  let cb := if cp_dma_use_L2 dev then cb
            else set_flush_bits cb (Z.lor (flush_bits cb) AC_BARRIER_INV_L2) in
  let issue := has_cp_dma_unaligned_copy_perf_issue dev in
  let realign_size :=
    if issue && negb (sz mod SI_CPDMA_ALIGNMENT =? 0)
    then SI_CPDMA_ALIGNMENT - sz mod SI_CPDMA_ALIGNMENT else 0 in
  let skipped_size :=
    if issue && negb (src_va mod SI_CPDMA_ALIGNMENT =? 0)
    then Z.min (SI_CPDMA_ALIGNMENT - src_va mod SI_CPDMA_ALIGNMENT) sz else 0 in
  let sz := sz - skipped_size in
  let main_src_va := u64 (src_va + skipped_size) in
  let main_dest_va := u64 (dest_va + skipped_size) in
  let! cb := flush_if_needed cb ;;
  let! cb := copy_loop (copy_fuel sz) cb main_dest_va main_src_va sz
               (Z.lor CP_DMA_USE_L2
                      (when (skipped_size =? 0) CP_DMA_SAVE_HEADER_PTR_FOR_SYNC)) ;;
  let! cb :=
    (if skipped_size =? 0 then Some cb
     else radv_emit_cp_dma cb dest_va src_va skipped_size
            (Z.lor CP_DMA_USE_L2 CP_DMA_SAVE_HEADER_PTR_FOR_SYNC)) ;;
  let! cb :=
    (if realign_size =? 0 then Some cb
     else
       let! cb := radv_cp_dma_realign_engine cb realign_size ;;
       Some (set_cp_dma_realignment_is_busy cb (negb (is_mec cb)))) ;;
  Some (set_dma_is_busy cb (negb (is_mec cb))).

Fixpoint fill_loop (fuel : nat) cb (va sz value fl : Z) : option (radv_cmd_buffer S) :=
  if sz =? 0 then Some cb
  else
    match fuel with
    | O => None
    | Datatypes.S fuel =>
        let byte_count := Z.min sz cp_dma_max_byte_count in
        let! cb := radv_emit_cp_dma cb va value byte_count fl ;;
        fill_loop fuel cb (u64 (va + byte_count)) (sz - byte_count) value fl
    end.

Definition radv_cp_dma_fill_memory cb (va sz value : Z) (cb_db_cp_coherent : bool)
  : option (radv_cmd_buffer S) :=
  if sz =? 0 then Some cb
  else
    let use_L2 := gfx_ge (dev_gfx_level dev) GFX9 || negb cb_db_cp_coherent in
    let cb := if use_L2 && negb (cp_dma_use_L2 dev)
              then set_flush_bits cb (Z.lor (flush_bits cb) AC_BARRIER_INV_L2) else cb in
    assert! (va mod 4 =? 0) && (sz mod 4 =? 0) ;;
    let! cb := flush_if_needed cb ;;
    let! cb := fill_loop (copy_fuel sz) cb va sz value
                 (lors [CP_DMA_CLEAR; when use_L2 CP_DMA_USE_L2;
                        CP_DMA_SAVE_HEADER_PTR_FOR_SYNC]) ;;
    Some (set_dma_is_busy cb (negb (is_mec cb))).

(** The flush at the end of radv_EndCommandBuffer, for the queues modelled here. *)
Definition end_command_buffer_flush cb : option (radv_cmd_buffer S) :=
  let! cb :=
    (if cp_dma_realignment_is_busy cb then
       assert! has_cp_dma_unaligned_copy_perf_issue dev ;;
       let cb := set_dma_is_busy cb true in
       Some (set_stream cb (cs_forget_header (stream cb)))
     else Some cb) ;;
  let cb := set_flush_bits cb (Z.lor (flush_bits cb) AC_BARRIER_SYNC_CP_DMA) in
  radv_emit_cache_flush cb false.

End CmdBuffer.
