(* ===== verification/CpDma.v ===== *)
(** CP DMA is a memory copy and fill: what the packets recorded by
    src/amd/vulkan/radv_cp_dma.c do to memory, and when they are waited for.  The
    theorems are proved against the command-stream interface. *)

From stdpp Require Import gmap.
From S2P Require Import Prelude Pm4 CsExec Barrier BarrierSpec BarrierProofs BarrierFits WinsysCs CmdStream CmdBuffer.

(** * What CP DMA packets do *)

Inductive dma_op := DmaCopy (dst src n : Z) | DmaFill (dst value n : Z).

(** The dword of a packet that holds the selects and the sync bit. *)
Definition header_index (p : list Z) : option nat :=
  match p with
  | [h; _; _; _; _; _; _] => if PKT3_IT_OPCODE_G h =? PKT3_DMA_DATA then Some 1%nat else None
  | [h; _; _; _; _; _] => if PKT3_IT_OPCODE_G h =? PKT3_CP_DMA then Some 2%nat else None
  | _ => None
  end.

Definition no_write_confirm (g : amd_gfx_level) (command : Z) : bool :=
  if gfx_ge g GFX9 then G_field 31 1 command =? 1 else G_field 21 1 command =? 1.

Definition dma_of (header dst src command : Z) (g : amd_gfx_level) : option dma_op :=
  let n := G_field 0 (if gfx_ge g GFX9 then 26 else 21) command in
  if no_write_confirm g command then None
  else if G_field 29 2 header =? V_501_DATA then Some (DmaFill dst (u32 src) n)
  else Some (DmaCopy dst src n).

(** A prefetch (no write confirmation) changes nothing. *)
Definition decode_dma (g : amd_gfx_level) (p : list Z) : option dma_op :=
  match p with
  | [h; header; slo; shi; dlo; dhi; command] =>
      if PKT3_IT_OPCODE_G h =? PKT3_DMA_DATA
      then dma_of header (dlo + dhi * W32) (slo + shi * W32) command g else None
  | [h; slo; header; dlo; dhi; command] =>
      if PKT3_IT_OPCODE_G h =? PKT3_CP_DMA
      then dma_of header (dlo + dhi * W32) (slo + G_field 0 16 header * W32) command g else None
  | _ => None
  end.

(** CP_SYNC: the command processor waits for this and all earlier DMAs. *)
Definition dma_synced (p : list Z) : bool :=
  match header_index p with
  | Some i => match p !! i with Some h => G_field 31 1 h =? 1 | None => false end
  | None => false
  end.

(** Memory is bytes by address. *)
Definition memcpy (dst src n : Z) (m : Z -> Z) : Z -> Z :=
  fun a => if (dst <=? a) && (a <? dst + n) then m (src + (a - dst)) else m a.
Definition memset (dst value n : Z) (m : Z -> Z) : Z -> Z :=
  fun a => if (dst <=? a) && (a <? dst + n)
           then Z.land (Z.shiftr value (8 * ((a - dst) mod 4))) 255 else m a.

Definition exec_dma (op : dma_op) : (Z -> Z) -> Z -> Z :=
  match op with DmaCopy d s n => memcpy d s n | DmaFill d v n => memset d v n end.

Definition step_dma (g : amd_gfx_level) (m : Z -> Z) (p : list Z) : Z -> Z :=
  match decode_dma g p with Some op => exec_dma op m | None => m end.

(** The memory after the packets of a stream. *)
Definition effect (g : amd_gfx_level) (ps : list (list Z)) (m : Z -> Z) : Z -> Z :=
  fold_left (step_dma g) ps m.

(** Some DMA of the stream is not waited for. *)
Definition unsynced (g : amd_gfx_level) (ps : list (list Z)) : bool :=
  fold_left (fun b p => match decode_dma g p with Some _ => negb (dma_synced p) | None => b end)
    ps false.

(** * Packets other than DMA *)

Lemma ordinary_no_dma g p : ordinary p -> decode_dma g p = None.
Proof.
  intros [_ Hp]. destruct p as [|h t]; [done|]. destruct Hp as (_ & H1 & H2).
  apply Z.eqb_neq in H1, H2. unfold decode_dma.
  do 7 (destruct t as [|? t]; [by rewrite ?H1, ?H2|]). done.
Qed.

Lemma ordinary_plain p : ordinary p -> plain p.
Proof.
  intros [Hf Hp]. split; [done|]. destruct p as [|h t]; [done|]. destruct Hp as (H1 & _).
  apply Z.eqb_neq in H1. unfold chain_target, ib_target.
  destruct t as [|? [|? [|? []]]]; try reflexivity.
  by rewrite is_indirect_buffer_alt, H1, !andb_false_r.
Qed.

Lemma effect_app g ps qs m : effect g (ps ++ qs) m = effect g qs (effect g ps m).
Proof. apply fold_left_app. Qed.

Lemma effect_ordinary g qs m : Forall ordinary qs -> effect g qs m = m.
Proof.
  induction 1 as [|p qs Hp _ IH]; [done|]. unfold effect. simpl. unfold step_dma at 2.
  by rewrite ordinary_no_dma.
Qed.

Lemma unsynced_app_ordinary g ps qs :
  Forall ordinary qs -> unsynced g (ps ++ qs) = unsynced g ps.
Proof.
  intros Hq. unfold unsynced. rewrite fold_left_app. induction Hq as [|p qs Hp _ IH]; [done|].
  simpl. by rewrite ordinary_no_dma.
Qed.

Lemma unsynced_snoc g ps p :
  unsynced g (ps ++ [p])
  = match decode_dma g p with Some _ => negb (dma_synced p) | None => unsynced g ps end.
Proof. unfold unsynced. by rewrite fold_left_app. Qed.

(** Setting the sync bit of a DMA packet. *)
Definition with_sync (p : list Z) : list Z :=
  match header_index p with
  | Some i => match p !! i with Some h => <[i := Z.lor h (S_501_CP_SYNC 1)]> p | None => p end
  | None => p
  end.

Lemma sync_bit_fields h :
  G_field 29 2 (Z.lor h (S_501_CP_SYNC 1)) = G_field 29 2 h
  /\ G_field 0 16 (Z.lor h (S_501_CP_SYNC 1)) = G_field 0 16 h
  /\ G_field 31 1 (Z.lor h (S_501_CP_SYNC 1)) = 1.
Proof.
  unfold S_501_CP_SYNC. rewrite !G_lor, !(G_S_other _ _ 31 1), G_S_same, !Z.lor_0_r by lia.
  split_and!; [done|done|]. pose proof (G_field_range 31 1 h ltac:(lia)) as Hr.
  assert (G_field 31 1 h = 0 \/ G_field 31 1 h = 1) as [-> | ->] by lia; done.
Qed.

Lemma with_sync_spec g p :
  decode_dma g (with_sync p) = decode_dma g p
  /\ (is_Some (decode_dma g p) -> dma_synced (with_sync p) = true).
Proof.
  unfold with_sync, header_index, dma_synced, header_index, decode_dma, dma_of.
  destruct p as [|h [|d1 [|d2 [|d3 [|d4 [|d5 [|d6 [|? ?]]]]]]]]; try (by split; [|intros []]).
  - destruct (PKT3_IT_OPCODE_G h =? PKT3_CP_DMA) eqn:E; cbn; rewrite ?E; cbn; [|by split; [|intros []]].
    destruct (sync_bit_fields d2) as (-> & -> & ->). by split.
  - destruct (PKT3_IT_OPCODE_G h =? PKT3_DMA_DATA) eqn:E; cbn; rewrite ?E; cbn; [|by split; [|intros []]].
    destruct (sync_bit_fields d1) as (-> & _ & ->). by split.
Qed.

(** Setting it in the middle of a stream changes no memory effect. *)
Lemma effect_with_sync g ps i p m :
  ps !! i = Some p -> effect g (<[i := with_sync p]> ps) m = effect g ps m.
Proof.
  intros Hi. rewrite <- (take_drop_middle ps i p Hi) at 2.
  rewrite insert_take_drop by (by eapply lookup_lt_Some).
  rewrite !effect_app. unfold effect. simpl. unfold step_dma at 2 4.
  by destruct (with_sync_spec g p) as [-> _].
Qed.

(** * Recording one DMA *)

Record device_ok (dev : device) : Prop := {
  do_no_L2 : gfx_ge (dev_gfx_level dev) GFX7 = false -> cp_dma_use_L2 dev = false
}.

Definition addr_ok (a : Z) : Prop := 0 <= a < 2 ^ 48.

Section Words.
Context (dev : device).
#[local] Abbreviation g := (dev_gfx_level dev).

Lemma max_byte_count_range : 32736 <= cp_dma_max_byte_count dev < 2 ^ 26.
Proof.
  unfold cp_dma_max_byte_count. destruct (_ && _); [by vm_compute|].
  destruct (gfx_ge _ GFX9); by vm_compute.
Qed.

(** Below GFX9 the count fits the narrower field. *)
Lemma max_byte_count_field :
  cp_dma_max_byte_count dev < 2 ^ (if gfx_ge g GFX9 then 26 else 21).
Proof.
  destruct (gfx_ge g GFX9) eqn:E; [apply max_byte_count_range|].
  unfold cp_dma_max_byte_count. rewrite E.
  assert (gfx_ge g GFX11 = false) as -> by (by destruct g). by vm_compute.
Qed.

Definition dma_header (sync tc_l2 fill : bool) : Z :=
  lors [when sync (S_501_CP_SYNC 1); when tc_l2 (S_501_DST_SEL V_501_DST_ADDR_USING_L2);
        (if fill then S_501_SRC_SEL V_501_DATA
         else when tc_l2 (S_501_SRC_SEL V_501_SRC_ADDR_USING_L2))].

Lemma dma_header_src_sel sync tc_l2 fill :
  (G_field 29 2 (dma_header sync tc_l2 fill) =? V_501_DATA) = fill.
Proof. by destruct sync, tc_l2, fill. Qed.

Lemma dma_header_sync sync tc_l2 fill :
  (G_field 31 1 (dma_header sync tc_l2 fill) =? 1) = sync.
Proof. by destruct sync, tc_l2, fill. Qed.

Lemma dma_header_low sync tc_l2 fill : G_field 0 16 (dma_header sync tc_l2 fill) = 0.
Proof. by destruct sync, tc_l2, fill. Qed.

Definition dma_command (sz : Z) : Z :=
  if gfx_ge g GFX9 then S_506_BYTE_COUNT sz else S_415_BYTE_COUNT sz.

Definition dma_words (sync tc_l2 fill : bool) (dst src sz : Z) : list Z * nat :=
  let header := dma_header sync tc_l2 fill in
  if gfx_ge g GFX7 then
    ([PKT3 PKT3_DMA_DATA 5 0; header; addr_lo src; addr_hi src; addr_lo dst; addr_hi dst;
      dma_command sz], 1%nat)
  else
    ([PKT3 PKT3_CP_DMA 4 0; addr_lo src; Z.lor header (S_412_SRC_ADDR_HI (Z.shiftr src 32));
      addr_lo dst; Z.land (Z.shiftr dst 32) 0xffff; dma_command sz], 2%nat).

Lemma command_fields sz :
  0 <= sz <= cp_dma_max_byte_count dev ->
  no_write_confirm g (dma_command sz) = false
  /\ G_field 0 (if gfx_ge g GFX9 then 26 else 21) (dma_command sz) = sz.
Proof.
  intros Hsz. pose proof max_byte_count_field as Hm.
  unfold no_write_confirm, dma_command, S_506_BYTE_COUNT, S_415_BYTE_COUNT.
  destruct (gfx_ge g GFX9); rewrite G_S_same, G_S_other by lia;
    (split; [done|apply land_ones_small; lia]).
Qed.

Lemma addr_hi_16 a : addr_ok a -> Z.land (Z.shiftr a 32) 0xffff = addr_hi a.
Proof.
  intros [Ha Hb]. unfold addr_hi. rewrite u32_small.
  - change 0xffff with (Z.ones 16). apply land_ones_small; [lia|]. rewrite Z.shiftr_div_pow2 by lia.
    split; [apply Z.div_pos; lia|apply Z.div_lt_upper_bound; lia].
  - rewrite Z.shiftr_div_pow2 by lia. unfold W32.
    split; [apply Z.div_pos; lia|apply Z.div_lt_upper_bound; lia].
Qed.

Definition dma_op_of (fill : bool) (dst src sz : Z) : dma_op :=
  if fill then DmaFill dst src sz else DmaCopy dst src sz.

Lemma dma_words_decode sync tc_l2 fill dst src sz :
  addr_ok dst -> addr_ok src -> (fill = true -> src < W32) ->
  0 <= sz <= cp_dma_max_byte_count dev ->
  let '(p, i) := dma_words sync tc_l2 fill dst src sz in
  decode_dma g p = Some (dma_op_of fill dst src sz) /\ dma_synced p = sync
  /\ header_index p = Some i.
Proof.
  intros Hd Hs Hf Hsz. destruct (command_fields sz Hsz) as [Hw Hn].
  assert (0 <= dst < W64 /\ 0 <= src < W64) as [Hd64 Hs64] by (unfold addr_ok, W64 in *; lia).
  unfold dma_words, decode_dma, dma_synced, header_index.
  destruct (gfx_ge g GFX7); cbv beta iota zeta; rewrite PKT3_opcode, Z.eqb_refl by done;
    cbn [lookup list_lookup]; unfold dma_of.
  - rewrite Hw, Hn, dma_header_src_sel, dma_header_sync, !addr_split by done.
    split_and!; [|done|done]. destruct fill; [|done]. by rewrite u32_small by (split; [apply Hs|auto]).
  - rewrite Hw, Hn. unfold S_412_SRC_ADDR_HI. rewrite !G_lor by lia.
    rewrite (G_S_same 0 16), !(G_S_other _ _ 0 16), !Z.lor_0_r by lia.
    rewrite dma_header_src_sel, dma_header_sync, dma_header_low, Z.lor_0_l.
    change (Z.ones 16) with 0xffff. rewrite !addr_hi_16, !addr_split by done.
    split_and!; [|done|done]. destruct fill; [|done]. by rewrite u32_small by (split; [apply Hs|auto]).
Qed.

Lemma dma_words_plain sync tc_l2 fill dst src sz :
  let '(p, i) := dma_words sync tc_l2 fill dst src sz in
  plain p /\ is_nop p = false /\ is_indirect_buffer p = false /\ (0 < i < length p)%nat
  /\ (length p <= 7)%nat.
Proof.
  unfold dma_words. destruct (gfx_ge g GFX7); split_and!; try (simpl; lia).
  - split; [by apply framed_PKT3|reflexivity].
  - unfold is_nop. by rewrite PKT3_type, PKT3_opcode.
  - split; [by apply framed_PKT3|reflexivity].
  - unfold is_nop. by rewrite PKT3_type, PKT3_opcode.
Qed.
End Words.

Section Emit.
Context {S : Type} `{CommandStreamLaws S} (dev : device) (Hdev : device_ok dev).
Implicit Types cb : radv_cmd_buffer S.
#[local] Set Default Proof Using "All".
#[local] Abbreviation g := (dev_gfx_level dev).

Lemma emit_cp_dma_alt cb dst src sz fl :
  radv_emit_cp_dma dev cb dst src sz fl
  = (assert! sz <=? cp_dma_max_byte_count dev ;;
     let tc_l2 := (has fl CP_DMA_USE_L2 && cp_dma_use_L2 dev) || gfx_eq g GFX12 in
     let '(ds, i) := dma_words dev (negb (is_mec dev cb) && has fl CP_DMA_SYNC) tc_l2
                       (has fl CP_DMA_CLEAR) dst src sz in
     let! s := cs_emit (stream cb) 9 ds
                 (if negb (is_mec dev cb) && has fl CP_DMA_SAVE_HEADER_PTR_FOR_SYNC
                  then Some i else None) ;;
     trace_if_enabled dev (set_stream cb s)).
Proof.
  unfold radv_emit_cp_dma. destruct (sz <=? _); [|done]. cbn [cassert mbind option_bind].
  unfold dma_words. destruct (gfx_ge g GFX7) eqn:E; [done|].
  rewrite (do_no_L2 _ Hdev E), andb_false_r.
  assert (gfx_eq g GFX12 = false) as -> by (by destruct g). done.
Qed.


Lemma visible_ordinary ps : Forall ordinary ps -> Forall ordinary (visible ps).
Proof.
  intros Hp. apply Forall_forall. intros p [_ Hin]%list_elem_of_filter.
  by eapply Forall_forall.
Qed.

(** Packets that are no DMA. *)
Lemma emit_fits n s ps mark needed k ds :
  holds (Datatypes.S n) s ps mark -> fits k ds -> Z.of_nat k <= needed <= 2 ^ 18 - 4 ->
  exists s' qs mark', cs_emit s needed ds None = Some s' /\ holds n s' (ps ++ qs) mark'
    /\ Forall ordinary qs /\ (mark' = mark \/ mark' = None).
Proof.
  intros Hs (qs & Hq & -> & Hl) Hn.
  destruct (emit_law n s ps mark needed qs Hs) as (s' & mark' & E & Hs' & Hm).
  - eapply Forall_impl; [done|]. apply ordinary_plain.
  - lia.
  - exists s', (visible qs), mark'. split_and!; try done. by apply visible_ordinary.
Qed.

Definition moved cb (s : S) (t : Z) : radv_cmd_buffer S := set_trace_id (set_stream cb s) t.

Lemma trace_spec n cb ps mark :
  holds (2 + n) (stream cb) ps mark ->
  exists s t qs mark', trace_if_enabled dev cb = Some (moved cb s t)
    /\ holds n s (ps ++ qs) mark' /\ Forall ordinary qs /\ (mark' = mark \/ mark' = None).
Proof.
  intros Hs. unfold trace_if_enabled. destruct (fault_detection dev).
  - unfold radv_cmd_buffer_trace_emit, radv_cs_write_data. cbn [stream set_trace_id trace_id].
    set (va := trace_va dev + _). set (id := u32 _).
    destruct (emit_fits (Datatypes.S n) (stream cb) ps mark 5 5
      (ac_emit_cp_write_data V_371_MICRO_ENGINE V_371_MEMORY va [id] false)) as (s1 & q1 & m1 & E1 & H1 & Ho1 & Hm1);
      [done| |lia|].
    { unfold ac_emit_cp_write_data, ac_emit_cp_write_data_head. cbn [app length]. auto with radv. }
    change (4 + Z.of_nat (length [id])) with 5. rewrite E1. cbn [mbind option_bind].
    destruct (emit_fits n s1 (ps ++ q1) m1 2 2 (ac_emit_cp_nop (AC_ENCODE_TRACE_POINT id)))
      as (s2 & q2 & m2 & E2 & H2 & Ho2 & Hm2); [done| |lia|].
    { unfold ac_emit_cp_nop. auto with radv. }
    rewrite E2. cbn [mbind option_bind]. exists s2, id, (q1 ++ q2), m2.
    rewrite app_assoc. split_and!; [done|done|by apply Forall_app|].
    destruct Hm1, Hm2; subst; auto.
  - exists (stream cb), (trace_id cb), [], mark. rewrite app_nil_r.
    split_and!; [by destruct cb|by do 2 apply weaken_law|constructor|by left].
Qed.

(** A DMA is recorded as one packet; the mark moves to it if asked to. *)
Lemma emit_cp_dma_spec n cb ps mark dst src sz fl :
  holds (3 + n) (stream cb) ps mark ->
  addr_ok dst -> addr_ok src -> (has fl CP_DMA_CLEAR = true -> src < W32) ->
  0 <= sz <= cp_dma_max_byte_count dev ->
  exists s t p i qs mark',
    radv_emit_cp_dma dev cb dst src sz fl = Some (moved cb s t)
    /\ holds n s (ps ++ p :: qs) mark' /\ Forall ordinary qs
    /\ decode_dma g p = Some (dma_op_of (has fl CP_DMA_CLEAR) dst src sz)
    /\ dma_synced p = negb (is_mec dev cb) && has fl CP_DMA_SYNC
    /\ header_index p = Some i
    /\ (mark' = None \/ mark' = if negb (is_mec dev cb) && has fl CP_DMA_SAVE_HEADER_PTR_FOR_SYNC
                                then Some (length ps, i) else mark).
Proof.
  intros Hs Hd Hsrc Hc Hsz. rewrite emit_cp_dma_alt.
  rewrite (proj2 (Z.leb_le _ _)) by lia. cbn [cassert mbind option_bind]. cbv zeta.
  set (sync := negb (is_mec dev cb) && _). set (tc := _ || gfx_eq g GFX12).
  set (save := negb (is_mec dev cb) && _).
  pose proof (dma_words_decode dev sync tc (has fl CP_DMA_CLEAR) dst src sz Hd Hsrc Hc Hsz) as Hw.
  pose proof (dma_words_plain dev sync tc (has fl CP_DMA_CLEAR) dst src sz) as Hp.
  destruct (dma_words dev sync tc (has fl CP_DMA_CLEAR) dst src sz) as [p i].
  destruct Hw as (Hdec & Hsy & Hi), Hp as (Hpl & Hnop & Hib & Hr & Hlen).
  assert (exists s mark1, cs_emit (stream cb) 9 p (if save then Some i else None) = Some s
    /\ holds (2 + n) s (ps ++ [p]) mark1
    /\ (mark1 = None \/ mark1 = if save then Some (length ps, i) else mark)) as (s & mark1 & -> & Hs1 & Hm1).
  { destruct save.
    - destruct (emit_marked_law (2 + n) (stream cb) ps mark 9 p i) as (s & -> & Hs'); [done..|lia|].
      exists s, (Some (length ps, i)). auto.
    - destruct (emit_law (2 + n) (stream cb) ps mark 9 [p]) as (s & mark1 & E & Hs' & Hm);
        [done|by constructor|simpl; rewrite app_nil_r; lia|].
      rewrite visible_cons_keep in Hs' by done. simpl in E. rewrite app_nil_r in E.
      exists s, mark1. split_and!; [done|done|]. destruct Hm; auto. }
  cbn [mbind option_bind].
  destruct (trace_spec n (set_stream cb s) (ps ++ [p]) mark1 Hs1) as (s2 & t & qs & mark2 & E & Hs2 & Hq & Hm2).
  rewrite E. exists s2, t, p, i, qs, mark2. rewrite <- app_assoc in Hs2.
  split_and!; try done. destruct Hm2 as [-> | ->]; auto.
Qed.
End Emit.
