(* ===== verification/CpDmaProofs.v ===== *)
(** Correctness of CP DMA in command buffers: copies and fills have the effect of
    memcpy and memset on memory, and no DMA is left running at the end of a command
    buffer. *)

From stdpp Require Import gmap.
From S2P Require Import Prelude Pm4 CsExec Barrier BarrierSpec BarrierProofs BarrierFits WinsysCs CmdStream CmdBuffer CpDma.

(** * Memory up to scratch space *)

(** [U] is the set of addresses whose content does not matter. *)
Definition mem_eq (U : Z -> Prop) (m m' : Z -> Z) : Prop := forall a, ~ U a -> m a = m' a.

#[export] Instance mem_eq_equivalence U : Equivalence (mem_eq U).
Proof.
  split.
  - by intros m a.
  - intros m m' Hm a Ha. by rewrite Hm.
  - intros m1 m2 m3 H1 H2 a Ha. by rewrite H1, H2.
Qed.

Definition none (a : Z) : Prop := False.

(** Reading from scratch space is excluded. *)
Definition reads_outside (U : Z -> Prop) (op : dma_op) : Prop :=
  match op with DmaCopy _ src n => forall a, src <= a < src + n -> ~ U a | DmaFill _ _ _ => True end.

Lemma exec_dma_eq U op m m' :
  reads_outside U op -> mem_eq U m m' -> mem_eq U (exec_dma op m) (exec_dma op m').
Proof.
  intros Hr Hm a Ha. destruct op as [d s n|d v n]; simpl.
  - unfold memcpy. destruct (_ && _) eqn:E; [|by apply Hm]. apply Hm, Hr. lia.
  - unfold memset. destruct (_ && _); [done|by apply Hm].
Qed.

#[export] Instance exec_dma_proper op : Proper (mem_eq none ==> mem_eq none) (exec_dma op).
Proof. intros m m' Hm. apply exec_dma_eq; [|done]. destruct op; [by intros ? _ []|done]. Qed.

#[export] Instance effect_proper g ps : Proper (mem_eq none ==> mem_eq none) (effect g ps).
Proof.
  induction ps as [|p ps IH]; intros m m' Hm; [done|]. unfold effect. simpl. apply IH.
  unfold step_dma. destruct (decode_dma g p); [by rewrite Hm|done].
Qed.

Lemma effect_snoc g ps p qs m :
  Forall ordinary qs -> effect g (ps ++ p :: qs) m = step_dma g (effect g ps m) p.
Proof.
  intros Hq. rewrite effect_app. change (p :: qs) with ([p] ++ qs).
  by rewrite effect_app, (effect_ordinary g qs).
Qed.

Lemma unsynced_cons_ordinary g ps p qs :
  Forall ordinary qs ->
  unsynced g (ps ++ p :: qs)
  = match decode_dma g p with Some _ => negb (dma_synced p) | None => unsynced g ps end.
Proof.
  intros Hq. change (p :: qs) with ([p] ++ qs). rewrite app_assoc, unsynced_app_ordinary by done.
  apply unsynced_snoc.
Qed.

Definition no_dma (g : amd_gfx_level) (ps : list (list Z)) : Prop :=
  Forall (fun p => decode_dma g p = None) ps.

Lemma ordinary_no_dmas g qs : Forall ordinary qs -> no_dma g qs.
Proof. intros Hq. eapply Forall_impl; [done|]. intros p. apply ordinary_no_dma. Qed.

Lemma unsynced_last g ps p qs :
  is_Some (decode_dma g p) -> dma_synced p = true -> no_dma g qs ->
  unsynced g (ps ++ p :: qs) = false.
Proof.
  intros [op Hp] Hs Hq. unfold unsynced. rewrite fold_left_app. simpl. rewrite Hp, Hs. simpl.
  induction Hq as [|q qs Hq _ IH]; [done|]. simpl. by rewrite Hq.
Qed.

(** Copying or setting in two steps. *)
Lemma memcpy_split dst src n k m :
  0 <= k <= n -> dst + n <= src \/ src + n <= dst ->
  mem_eq none (memcpy (dst + k) (src + k) (n - k) (memcpy dst src k m)) (memcpy dst src n m).
Proof.
  intros Hk Hdis a _. unfold memcpy.
  destruct (Z.leb_spec (dst + k) a), (Z.ltb_spec a (dst + k + (n - k))), (Z.leb_spec dst a),
    (Z.ltb_spec a (dst + n)), (Z.ltb_spec a (dst + k)); simpl; try lia; try done.
  destruct (Z.leb_spec dst (src + k + (a - (dst + k)))),
    (Z.ltb_spec (src + k + (a - (dst + k))) (dst + k)); simpl; try lia; f_equal; lia.
Qed.

(** The tail first, then the head. *)
Lemma memcpy_split_tail dst src n k m :
  0 <= k <= n -> dst + n <= src \/ src + n <= dst ->
  mem_eq none (memcpy dst src k (memcpy (dst + k) (src + k) (n - k) m)) (memcpy dst src n m).
Proof.
  intros Hk Hdis a _. unfold memcpy.
  destruct (Z.leb_spec (dst + k) a), (Z.ltb_spec a (dst + k + (n - k))), (Z.leb_spec dst a),
    (Z.ltb_spec a (dst + n)), (Z.ltb_spec a (dst + k)); simpl; try lia; try done.
  - f_equal. lia.
  - destruct (Z.leb_spec (dst + k) (src + (a - dst))),
      (Z.ltb_spec (src + (a - dst)) (dst + k + (n - k))); simpl; try lia; done.
Qed.

Lemma memset_split dst v n k m :
  0 <= k <= n -> k mod 4 = 0 ->
  mem_eq none (memset (dst + k) v (n - k) (memset dst v k m)) (memset dst v n m).
Proof.
  intros Hk H4 a _. unfold memset.
  assert ((a - (dst + k)) mod 4 = (a - dst) mod 4) as ->.
  { replace (a - (dst + k)) with (a - dst - k) by lia. rewrite Zminus_mod, H4, Z.sub_0_r.
    apply Zmod_mod. }
  destruct (Z.leb_spec (dst + k) a), (Z.ltb_spec a (dst + k + (n - k))), (Z.leb_spec dst a),
    (Z.ltb_spec a (dst + n)), (Z.ltb_spec a (dst + k)); simpl; lia || done.
Qed.

Lemma memcpy_0 dst src m : mem_eq none (memcpy dst src 0 m) m.
Proof. intros a _. unfold memcpy. destruct (_ && _) eqn:E; [lia|done]. Qed.

Lemma memset_0 dst v m : mem_eq none (memset dst v 0 m) m.
Proof. intros a _. unfold memset. destruct (_ && _) eqn:E; [lia|done]. Qed.

(** * The state of a command buffer *)

(** Buffers the allocator can return: their contents are scratch. *)
Definition in_upload (dev : device) (a : Z) : Prop :=
  exists n sz bo, bo_create dev n sz = Some bo /\ bo_va bo <= a < bo_va bo + sz.

(** Allocations succeed, below the limit that is never reached. *)
Definition alloc_ok (dev : device) : Prop :=
  has_cp_dma_unaligned_copy_perf_issue dev = true ->
  forall n sz, 0 < sz <= 2 ^ 30 -> exists bo, bo_create dev n sz = Some bo
    /\ 0 <= bo_va bo /\ bo_va bo + sz <= 2 ^ 48 /\ bo_map dev n = true /\ host_malloc dev n = true.

(** [c] bounds the number of realignments so far. *)
Record upload_ok (dev : device) (c : Z) (u : radv_cmd_buffer_upload) : Prop := {
  uo_offset : 0 <= upload_offset u <= upload_size u /\ upload_offset u <= 64 * c;
  uo_size : 0 <= upload_size u <= Z.max (2 ^ 17) (128 * c);
  uo_bo : match upload_bo u with
          | None => upload_size u = 0
          | Some bo => (exists n, bo_create dev n (upload_size u) = Some bo)
                       /\ 0 <= bo_va bo /\ bo_va bo + upload_size u <= 2 ^ 48
          end
}.

(** Flags that barriers accept, whatever the queue. *)
Definition flush_bits_ok (g : amd_gfx_level) (fl : Z) : Prop :=
  gfx_ge g GFX10 = true ->
  has fl AC_BARRIER_SYNC_AND_INV_DB_META = false /\ has fl AC_BARRIER_VGT_STREAMOUT_SYNC = false
  /\ (gfx_lt g GFX12 || negb (has fl AC_BARRIER_INV_L2_METADATA)) = true.

Section Inv.
Context {S : Type} `{CommandStreamLaws S} (dev : device) (Hdev : device_ok dev)
  (Halloc : alloc_ok dev).
Implicit Types cb : radv_cmd_buffer S.
#[local] Set Default Proof Using "All".
#[local] Abbreviation g := (dev_gfx_level dev).

(** The remembered packet is a DMA; only realignments can follow it. *)
Definition mark_ok cb (ps : list (list Z)) (mark : option (nat * nat)) : Prop :=
  match mark with
  | None => True
  | Some (i, j) => exists p, ps !! i = Some p /\ is_Some (decode_dma g p)
      /\ header_index p = Some j
      /\ (cp_dma_realignment_is_busy cb = false -> no_dma g (drop (Datatypes.S i) ps))
  end.

Record dma_inv (n : nat) (c : Z) cb (ps : list (list Z)) (mark : option (nat * nat)) : Prop := {
  di_holds : holds n (stream cb) ps mark;
  di_mark : mark_ok cb ps mark;
  di_idle : is_mec dev cb = false -> dma_is_busy cb = false ->
            cp_dma_realignment_is_busy cb = false -> unsynced g ps = false;
  di_mec : is_mec dev cb = true ->
           dma_is_busy cb = false /\ cp_dma_realignment_is_busy cb = false /\ mark = None;
  di_realign : cp_dma_realignment_is_busy cb = true ->
               has_cp_dma_unaligned_copy_perf_issue dev = true;
  di_upload : upload_ok dev c (upload cb);
  di_flags : flush_bits_ok g (flush_bits cb);
  di_fence : 0 < eop_fence_va cb < W64
}.

Lemma no_dma_app_ordinary (ps qs : list (list Z)) :
  no_dma g ps -> Forall ordinary qs -> no_dma g (ps ++ qs).
Proof. intros. apply Forall_app. split; [done|by apply ordinary_no_dmas]. Qed.

(** Recording other packets keeps the remembered one. *)
Lemma mark_ok_app cb cb' ps qs mark mark' :
  cp_dma_realignment_is_busy cb' = cp_dma_realignment_is_busy cb ->
  mark_ok cb ps mark -> Forall ordinary qs -> (mark' = mark \/ mark' = None) ->
  mark_ok cb' (ps ++ qs) mark'.
Proof.
  intros Hr Hm Hq [-> | ->]; [|done]. unfold mark_ok in *. destruct mark as [[i j]|]; [|done].
  destruct Hm as (p & Hp & Hd & Hj & Hn). exists p. rewrite Hr.
  pose proof (lookup_lt_Some _ _ _ Hp). split_and!; [by apply lookup_app_l_Some|done|done|].
  intros Hb. rewrite drop_app_le by lia. by apply no_dma_app_ordinary; [apply Hn|].
Qed.

(** A newly marked DMA is the last one. *)
Lemma mark_ok_new cb (ps : list (list Z)) p i qs :
  is_Some (decode_dma g p) -> header_index p = Some i -> Forall ordinary qs ->
  mark_ok cb (ps ++ p :: qs) (Some (length ps, i)).
Proof.
  intros Hd Hi Hq. exists p. split_and!; [by apply list_lookup_middle|done|done|].
  intros _. rewrite drop_app_ge by lia. replace (Datatypes.S (length ps) - length ps)%nat with 1%nat by lia.
  by apply ordinary_no_dmas.
Qed.

(** A DMA that is not marked may only be recorded while a realignment is busy or the
    mark is about to move. *)
Lemma lookup_header_dword p i :
  header_index p = Some i -> exists d, p !! i = Some d.
Proof.
  unfold header_index.
  destruct p as [|h [|d1 [|d2 [|d3 [|d4 [|d5 [|d6 [|? ?]]]]]]]]; try done;
    destruct (_ =? _); intros [= <-]; eauto.
Qed.

Lemma with_sync_eq p i d :
  header_index p = Some i -> p !! i = Some d ->
  with_sync p = <[i := Z.lor d (S_501_CP_SYNC 1)]> p.
Proof. intros Hi Hd. unfold with_sync. by rewrite Hi, Hd. Qed.

(** ** Waiting *)

Lemma wait_for_idle_spec n c cb ps mark :
  dma_inv (3 + n) c cb ps mark ->
  exists cb' ps' mark', radv_cp_dma_wait_for_idle dev cb = Some cb'
    /\ dma_inv n c cb' ps' mark' /\ (forall m, mem_eq none (effect g ps' m) (effect g ps m))
    /\ dma_is_busy cb' = false
    /\ flush_bits cb' = flush_bits cb /\ qf cb' = qf cb
    /\ (cp_dma_realignment_is_busy cb = false -> cp_dma_realignment_is_busy cb' = false)
    /\ (dma_is_busy cb = true -> mark = None -> cp_dma_realignment_is_busy cb' = false).
Proof.
  intros Hi. unfold radv_cp_dma_wait_for_idle. destruct (dma_is_busy cb) eqn:Hbusy; cbn [negb].
  2:{ exists cb, ps, mark. split_and!; try done. destruct Hi. split; try done.
      by do 3 apply weaken_law. }
  assert (is_mec dev cb = false) as Hmec.
  { destruct (is_mec dev cb) eqn:E; [|done]. destruct (di_mec _ _ _ _ _ Hi E). congruence. }
  rewrite Hmec. cbn [negb cassert mbind option_bind].
  destruct (cs_header_near (stream cb)) eqn:Hnear.
  - destruct mark as [[i j]|]; [|by destruct (near_law _ _ _ _ (di_holds _ _ _ _ _ Hi) Hnear)].
    destruct (or_law _ _ _ _ _ (S_501_CP_SYNC 1) (di_holds _ _ _ _ _ Hi) Hnear)
      as (s' & p & d & -> & Hp & Hd & Hs'). cbn [mbind option_bind].
    destruct (di_mark _ _ _ _ _ Hi) as (p0 & Hp0 & Hdec & Hj & Hnd). simplify_eq.
    rewrite <- (with_sync_eq p j d Hj Hd) in Hs'.
    eexists _, (<[i := with_sync p]> ps), None. split; [done|].
    split; [|by split; [intros m; by rewrite effect_with_sync|]].
    destruct Hi. split; try done; simpl.
    + do 3 apply weaken_law. by eapply forget_law.
    + intros _ _ Hr. specialize (Hnd Hr). destruct (with_sync_spec g p) as [Hsd Hss].
      rewrite insert_take_drop by (by eapply lookup_lt_Some).
      apply unsynced_last; [by rewrite Hsd|by apply Hss|done].
    + intros E. change (is_mec dev cb = true) in E. congruence.
  - destruct (emit_cp_dma_spec dev Hdev n cb ps mark 0 0 0 CP_DMA_SYNC) as
      (s & t & p & i & qs & mark' & -> & Hs & Hq & Hdec & Hsy & Hidx & _);
      [apply Hi|unfold addr_ok; lia..|unfold W32; lia|pose proof (max_byte_count_range dev); lia|].
    cbn [mbind option_bind]. eexists _, (ps ++ p :: qs), None. split; [done|].
    rewrite Hmec in Hsy. simpl in Hsy. split; [|split; [|done]].
    + destruct Hi. split; try done; simpl.
      * by eapply forget_law.
      * intros _ _ _. rewrite unsynced_cons_ordinary by done. by rewrite Hdec, Hsy.
    + intros m. rewrite effect_snoc by done. unfold step_dma. rewrite Hdec. simpl. apply memcpy_0.
Qed.

(** ** Cache flushes *)

Lemma has_lor_l x y m : has (Z.lor x y) m = has x m || has y m.
Proof.
  unfold has. rewrite Z.land_lor_distr_l.
  pose proof (has_lor m x y) as E. unfold has in E. rewrite Z.land_lor_distr_r in E.
  by rewrite (Z.land_comm x), (Z.land_comm y).
Qed.

Lemma has_land_false x k m : has x m = false -> has (Z.land x k) m = false.
Proof.
  unfold has. intros E%negb_false_iff%Z.eqb_eq. apply negb_false_iff, Z.eqb_eq.
  by rewrite <- Z.land_assoc, (Z.land_comm k), Z.land_assoc, E.
Qed.

Lemma flush_bits_ok_land fl k : flush_bits_ok g fl -> flush_bits_ok g (Z.land fl k).
Proof.
  intros Hf Hg. destruct (Hf Hg) as (H1 & H2 & H3). split_and!; [by apply has_land_false..|].
  destruct (gfx_lt g GFX12); [done|]. simpl in *. apply negb_true_iff in H3.
  by rewrite has_land_false.
Qed.

Lemma flush_bits_ok_lor fl k :
  flush_bits_ok g fl ->
  any k [AC_BARRIER_SYNC_AND_INV_DB_META; AC_BARRIER_VGT_STREAMOUT_SYNC;
         AC_BARRIER_INV_L2_METADATA] = false ->
  flush_bits_ok g (Z.lor fl k).
Proof.
  rewrite !any_cons, any_nil, orb_false_r. intros Hf [Hk1 [Hk2 Hk3]%orb_false_iff]%orb_false_iff Hg.
  destruct (Hf Hg) as (H1 & H2 & H3). rewrite !has_lor_l, Hk1, Hk2, Hk3, H1, H2, !orb_false_r. done.
Qed.

Lemma flush_bits_barrier ip fl :
  flush_bits_ok g fl -> gfx_ge g GFX10 = true -> barrier_flags_ok g ip fl = true.
Proof.
  intros Hf Hg. destruct (Hf Hg) as (H1 & H2 & H3). unfold barrier_flags_ok.
  rewrite H3, andb_true_r, !any_cons, any_nil, orb_false_r. unfold queue_flags.
  destruct (ip_eq ip AMD_IP_COMPUTE); [|by rewrite H1, H2]. by rewrite !has_land_false.
Qed.

(** Changing what the invariant does not look at. *)
Lemma dma_inv_fields n c cb cb' ps mark :
  dma_inv n c cb ps mark -> stream cb' = stream cb -> qf cb' = qf cb ->
  dma_is_busy cb' = dma_is_busy cb ->
  cp_dma_realignment_is_busy cb' = cp_dma_realignment_is_busy cb ->
  upload cb' = upload cb -> eop_fence_va cb' = eop_fence_va cb ->
  flush_bits_ok g (flush_bits cb') -> dma_inv n c cb' ps mark.
Proof.
  intros [] Hst Hq Hb Hr Hu Hv Hf.
  split; unfold mark_ok, is_mec in *; by rewrite ?Hst, ?Hq, ?Hb, ?Hr, ?Hu, ?Hv.
Qed.

Lemma dma_inv_moved n n' c cb ps mark s t qs mark' :
  dma_inv n c cb ps mark -> holds n' s (ps ++ qs) mark' -> Forall ordinary qs ->
  (mark' = mark \/ mark' = None) -> dma_inv n' c (moved cb s t) (ps ++ qs) mark'.
Proof.
  intros [] Hs Hq Hm. split; try done.
  - by eapply mark_ok_app.
  - intros. rewrite unsynced_app_ordinary by done. by apply di_idle0.
  - intros E. destruct (di_mec0 E) as (? & ? & ->). by destruct Hm as [-> | ->].
Qed.

Lemma weaken_n k n s ps mark : holds (k + n) s ps mark -> holds n s ps mark.
Proof. induction k; [done|]. intros Hs%weaken_law. auto. Qed.

Lemma flush_zero : flush_bits_ok g 0.
Proof. intros _. unfold has. rewrite !Z.land_0_l. by rewrite orb_true_r. Qed.

(** After the early exits: wait for DMAs if asked to. *)
Lemma flush_wait_spec n c cb ps mark :
  dma_inv (3 + n) c cb ps mark ->
  exists cb' ps' mark',
    (if has (flush_bits cb) AC_BARRIER_SYNC_CP_DMA then
       let! cb := radv_cp_dma_wait_for_idle dev cb ;;
       let cb := set_flush_bits cb (clear (flush_bits cb) AC_BARRIER_SYNC_CP_DMA) in
       Some (set_rgp_flush_bits cb (Z.lor (rgp_flush_bits cb) AC_RGP_FLUSH_SYNC_CP_DMA))
     else Some cb) = Some cb'
    /\ dma_inv n c cb' ps' mark' /\ (forall m, mem_eq none (effect g ps' m) (effect g ps m))
    /\ qf cb' = qf cb /\ (dma_is_busy cb = false -> dma_is_busy cb' = false)
    /\ (cp_dma_realignment_is_busy cb = false -> cp_dma_realignment_is_busy cb' = false)
    /\ (has (flush_bits cb) AC_BARRIER_SYNC_CP_DMA = true -> dma_is_busy cb' = false
        /\ (dma_is_busy cb = true -> mark = None -> cp_dma_realignment_is_busy cb' = false)).
Proof.
  intros Hi. destruct (has (flush_bits cb) AC_BARRIER_SYNC_CP_DMA).
  - destruct (wait_for_idle_spec n c cb ps mark Hi) as (cb1 & ps1 & mark1 & -> & H1 & He & Hb & Hf & Hq & Hr & Hrn).
    cbn [mbind option_bind]. eexists _, ps1, mark1. split; [done|]. split_and!; try done.
    eapply dma_inv_fields; [done..|]. simpl. apply flush_bits_ok_land. apply H1.
  - exists cb, ps, mark. split_and!; try done. destruct Hi. split; try done. by do 3 apply weaken_law.
Qed.

(** The barrier and the trace point. *)
Lemma flush_barrier_spec n c cb ps mark point :
  dma_inv (3 + n) c cb ps mark ->
  exists s t out qs mark',
    radv_cs_emit_cache_flush dev (stream cb) g (ring (qf cb)) (eop_fence_idx cb) (eop_fence_va cb)
      (flush_bits cb) (rgp_flush_bits cb) point (cb_eop_bug_va cb) = Some (s, out)
    /\ forall cb1, cb1 = set_rgp_flush_bits (set_eop_fence_idx (set_stream cb s) (counter out)) (rgp out) ->
       exists s', trace_if_enabled dev cb1 = Some (moved cb1 s' t) /\ holds n s' (ps ++ qs) mark'
       /\ Forall ordinary qs /\ (mark' = mark \/ mark' = None).
Proof.
  intros Hi. unfold radv_cs_emit_cache_flush.
  set (st := BarrierState _ _ _ _ _).
  destruct (emit_barrier_ok (remap dev) g (ring (qf cb)) st (rgp_flush_bits cb)) as [out Hout].
  - apply Hi.
  - intros Hg. apply flush_bits_barrier; [apply Hi|done].
  - rewrite Hout. cbn [mbind option_bind].
    destruct (emit_fits dev Hdev (2 + n) (stream cb) ps mark 128 128 (dwords out))
      as (s & q1 & m1 & -> & Hs & Hq1 & Hm1); [apply Hi|by eapply emit_barrier_fits|lia|].
    cbn [mbind option_bind].
    destruct (trace_spec dev Hdev n (set_rgp_flush_bits (set_eop_fence_idx (set_stream cb s) (counter out)) (rgp out))
      (ps ++ q1) m1 Hs) as (s2 & t & q2 & m2 & E & Hs2 & Hq2 & Hm2).
    exists s, t, out, (q1 ++ q2), m2. split; [done|]. intros cb1 ->. exists s2.
    rewrite app_assoc. split_and!; [done|done|by apply Forall_app|]. destruct Hm1, Hm2; subst; auto.
Qed.

Lemma cache_flush_spec n c cb ps mark defer :
  dma_inv (6 + n) c cb ps mark ->
  exists cb' ps' mark', radv_emit_cache_flush dev cb defer = Some cb'
    /\ dma_inv n c cb' ps' mark' /\ (forall m, mem_eq none (effect g ps' m) (effect g ps m))
    /\ flush_bits cb' = 0 /\ qf cb' = qf cb
    /\ (dma_is_busy cb = false -> dma_is_busy cb' = false)
    /\ (cp_dma_realignment_is_busy cb = false -> cp_dma_realignment_is_busy cb' = false)
    /\ (is_compute_queue (qf cb) = false -> has (flush_bits cb) AC_BARRIER_SYNC_CP_DMA = true ->
        dma_is_busy cb' = false
        /\ (dma_is_busy cb = true -> mark = None -> cp_dma_realignment_is_busy cb' = false)).
Proof.
  intros Hi. unfold radv_emit_cache_flush.
  set (cb1 := if is_compute_queue (qf (drain_bc_decode cb)) then _ else _).
  assert (dma_inv (6 + n) c cb1 ps mark /\ qf cb1 = qf cb /\ dma_is_busy cb1 = dma_is_busy cb
    /\ cp_dma_realignment_is_busy cb1 = cp_dma_realignment_is_busy cb
    /\ (is_compute_queue (qf cb) = false -> has (flush_bits cb) AC_BARRIER_SYNC_CP_DMA = true ->
        has (flush_bits cb1) AC_BARRIER_SYNC_CP_DMA = true)) as (Hi1 & Hq1 & Hb1 & Hr1 & Hs1).
  { assert (dma_inv (6 + n) c (drain_bc_decode cb) ps mark
      /\ (has (flush_bits cb) AC_BARRIER_SYNC_CP_DMA = true ->
          has (flush_bits (drain_bc_decode cb)) AC_BARRIER_SYNC_CP_DMA = true)
      /\ qf (drain_bc_decode cb) = qf cb /\ dma_is_busy (drain_bc_decode cb) = dma_is_busy cb
      /\ cp_dma_realignment_is_busy (drain_bc_decode cb) = cp_dma_realignment_is_busy cb)
      as (Hi0 & Hs0 & Hq0 & Hb0 & Hr0).
    { unfold drain_bc_decode. destruct (_ && _); [|done]. split_and!; [|simpl|done..].
      - eapply dma_inv_fields; [done..|]. simpl. apply flush_bits_ok_lor; [apply Hi|done].
      - intros E. by rewrite has_lor_l, E. }
    subst cb1. rewrite Hq0. destruct (is_compute_queue (qf cb)); [|auto].
    split_and!; [|done..]. eapply dma_inv_fields; [done..|]. simpl.
    apply flush_bits_ok_land, Hi0. }
  clearbody cb1. destruct (Z.eqb_spec (flush_bits cb1) 0) as [Ez|Ez].
  { eexists _, ps, mark. split; [done|]. rewrite <- Hq1, <- Hb1, <- Hr1. split_and!; try done.
    - destruct Hi1. split; try done. by do 6 apply weaken_law.
    - simpl. intros E1 E2. rewrite <- Hq1 in Hs1. specialize (Hs1 E1 E2). by rewrite Ez in Hs1. }
  destruct (flush_wait_spec (3 + n) c cb1 ps mark Hi1) as (cb2 & ps2 & mark2 & E & Hi2 & He2 & Hq2 & Hb2 & Hr2 & Hs2).
  cbv zeta in E. rewrite E. clear E.
  cbn [mbind option_bind]. set (point := resolve_acquire_point _ _).
  set (cb3 := if _ && full_db_flush dev then _ else _).
  assert (dma_inv (3 + n) c cb3 ps2 mark2 /\ qf cb3 = qf cb2 /\ dma_is_busy cb3 = dma_is_busy cb2
    /\ cp_dma_realignment_is_busy cb3 = cp_dma_realignment_is_busy cb2) as (Hi3 & Hq3 & Hb3 & Hr3).
  { subst cb3. destruct (_ && _); [|done]. split_and!; [|done..].
    eapply dma_inv_fields; [done..|]. simpl. apply flush_bits_ok_lor; [apply Hi2|done]. }
  clearbody cb3 point.
  destruct (flush_barrier_spec n c cb3 ps2 mark2 point Hi3) as (s & t & out & qs & mark3 & -> & Hc).
  cbn [mbind option_bind]. destruct (Hc _ eq_refl) as (s' & -> & Hs3 & Hqs & Hm3).
  cbn [mbind option_bind]. eexists _, (ps2 ++ qs), mark3. split; [done|].
  pose proof (dma_inv_moved _ _ _ _ _ _ _ t _ _ Hi3 Hs3 Hqs Hm3) as Hfin.
  split_and!.
  - eapply dma_inv_fields; [exact Hfin|..]; simpl; try apply flush_zero; by destruct (has _ AC_BARRIER_INV_L2).
  - intros m. rewrite effect_app, effect_ordinary by done. apply He2.
  - done.
  - simpl. destruct (has _ AC_BARRIER_INV_L2); simpl; congruence.
  - simpl. destruct (has _ AC_BARRIER_INV_L2); simpl; rewrite Hb3, <- Hb1; auto.
  - simpl. destruct (has _ AC_BARRIER_INV_L2); simpl; rewrite Hr3, <- Hr1; auto.
  - simpl. intros E1 E2. destruct (Hs2 (Hs1 E1 E2)) as [Hs2a Hs2b]. rewrite <- Hb1.
    destruct (has _ AC_BARRIER_INV_L2); simpl; rewrite Hb3, Hr3; auto.
Qed.

(** ** Sequences of DMAs *)

(** The mark, if any, is on the last DMA. *)
Definition tail_marked (ps : list (list Z)) (mark : option (nat * nat)) : Prop :=
  mark = None \/ exists pre p post i, ps = pre ++ p :: post /\ mark = Some (length pre, i)
    /\ is_Some (decode_dma g p) /\ header_index p = Some i /\ Forall ordinary post.

Lemma tail_marked_ok cb ps mark : tail_marked ps mark -> mark_ok cb ps mark.
Proof. intros [-> | (pre & p & post & i & -> & -> & ? & ? & ?)]; [done|by apply mark_ok_new]. Qed.

(** What recording DMAs does to the mark. *)
Definition remarked (save : bool) (mark : option (nat * nat)) (ps : list (list Z))
    (mark' : option (nat * nat)) : Prop :=
  if save then tail_marked ps mark' else mark' = mark \/ mark' = None.

Definition saves cb (fl : Z) : bool :=
  negb (is_mec dev cb) && has fl CP_DMA_SAVE_HEADER_PTR_FOR_SYNC.

Lemma emit_step n cb ps mark dst src sz fl :
  holds (3 + n) (stream cb) ps mark ->
  addr_ok dst -> addr_ok src -> (has fl CP_DMA_CLEAR = true -> src < W32) ->
  0 <= sz <= cp_dma_max_byte_count dev ->
  exists s t qs mark', radv_emit_cp_dma dev cb dst src sz fl = Some (moved cb s t)
    /\ holds n s (ps ++ qs) mark' /\ remarked (saves cb fl) mark (ps ++ qs) mark'
    /\ forall m, effect g (ps ++ qs) m
                = exec_dma (dma_op_of (has fl CP_DMA_CLEAR) dst src sz) (effect g ps m).
Proof.
  intros Hs Hd Hsrc Hc Hsz.
  destruct (emit_cp_dma_spec dev Hdev n cb ps mark dst src sz fl)
    as (s & t & p & i & qs & mark' & -> & Hs' & Hq & Hdec & _ & Hidx & Hm); [done..|].
  exists s, t, (p :: qs), mark'. split_and!; [done|done| |].
  - unfold remarked, saves. destruct (_ && _); [|by destruct Hm; auto].
    destruct Hm as [-> | ->]; [by left|]. right. exists ps, p, qs, i. by rewrite Hdec.
  - intros m. rewrite effect_snoc by done. unfold step_dma. by rewrite Hdec.
Qed.

Lemma moved_moved cb s t s' t' : moved (moved cb s t) s' t' = moved cb s' t'.
Proof. done. Qed.

Lemma remarked_trans save mark ps mark1 ps' mark' :
  remarked save mark ps mark1 -> remarked save mark1 ps' mark' ->
  remarked save mark ps' mark'.
Proof. unfold remarked. destruct save; [done|]. intros [-> | ->] [-> | ->]; auto. Qed.

Lemma loop_fuel fuel sz :
  0 < sz -> sz / cp_dma_max_byte_count dev < Z.of_nat (Datatypes.S fuel) ->
  let k := Z.min sz (cp_dma_max_byte_count dev) in
  sz - k = 0 \/ (sz - k) / cp_dma_max_byte_count dev < Z.of_nat fuel.
Proof.
  intros Hs Hf k. pose proof (max_byte_count_range dev) as Hm.
  destruct (Z.le_gt_cases sz (cp_dma_max_byte_count dev)); [left; lia|right].
  subst k. rewrite Z.min_r by lia.
  replace (sz - cp_dma_max_byte_count dev) with (sz + (-1) * cp_dma_max_byte_count dev) by lia.
  rewrite Z.div_add by lia. lia.
Qed.

(** The copy loop ends, and copies. *)
Lemma copy_loop_spec fuel n cb ps mark dst src sz fl :
  holds (3 * fuel + n) (stream cb) ps mark -> has fl CP_DMA_CLEAR = false ->
  0 <= sz -> sz = 0 \/ sz / cp_dma_max_byte_count dev < Z.of_nat fuel ->
  0 <= dst /\ dst + sz <= 2 ^ 48 -> 0 <= src /\ src + sz <= 2 ^ 48 ->
  dst + sz <= src \/ src + sz <= dst ->
  exists s t qs mark', copy_loop dev fuel cb dst src sz fl = Some (moved cb s t)
    /\ holds n s (ps ++ qs) mark'
    /\ (if sz =? 0 then mark' = mark /\ qs = [] else remarked (saves cb fl) mark (ps ++ qs) mark')
    /\ forall m, mem_eq none (effect g (ps ++ qs) m) (memcpy dst src sz (effect g ps m)).
Proof.
  intros Hs Hfl. revert cb ps mark dst src sz Hs.
  induction fuel as [|fuel IH]; intros cb ps mark dst src sz Hs Hsz Hf Hd Hsrc Hdis.
  { destruct Hf as [->|Hf]; [|pose proof (max_byte_count_range dev);
      assert (0 <= sz / cp_dma_max_byte_count dev) by (apply Z.div_pos; lia); lia].
    exists (stream cb), (trace_id cb), [], mark. rewrite app_nil_r.
    split_and!; [by destruct cb|done|done|]. intros m. symmetry. apply memcpy_0. }
  cbn [copy_loop]. destruct (Z.eqb_spec sz 0) as [->|Hne].
  { exists (stream cb), (trace_id cb), [], mark. rewrite app_nil_r.
    split_and!; [by destruct cb|by eapply weaken_n|done|done|].
    intros m. symmetry. apply memcpy_0. }
  destruct Hf as [->|Hf]; [done|]. pose proof (max_byte_count_range dev) as Hmax.
  pose proof (loop_fuel fuel sz ltac:(lia) Hf) as Hk. cbv zeta in Hk. set (k := Z.min _ _) in *.
  destruct (emit_step (3 * fuel + n) cb ps mark dst src k fl) as (s1 & t1 & q1 & m1 & -> & Hs1 & Hr1 & He1);
    [by replace (3 + (3 * fuel + n))%nat with (3 * Datatypes.S fuel + n)%nat by lia
    |unfold addr_ok; lia..|by rewrite Hfl|lia|].
  cbn [mbind option_bind]. rewrite !u64_small by (unfold W64; lia).
  destruct (IH (moved cb s1 t1) (ps ++ q1) m1 (dst + k) (src + k) (sz - k))
    as (s2 & t2 & q2 & m2 & -> & Hs2 & Hr2 & He2); [done|lia|done|lia..|].
  rewrite moved_moved. exists s2, t2, (q1 ++ q2), m2. rewrite app_assoc. split_and!; [done|done| |].
  - destruct (Z.eqb_spec (sz - k) 0) as [E|E].
    + destruct Hr2 as [-> ->]. by rewrite app_nil_r.
    + by eapply remarked_trans.
  - intros m. rewrite He2, He1, Hfl. simpl. apply memcpy_split; lia.
Qed.

Lemma max_mod_4 : cp_dma_max_byte_count dev mod 4 = 0.
Proof.
  unfold cp_dma_max_byte_count. destruct (_ && _); [done|]. by destruct (gfx_ge _ GFX9).
Qed.

(** The fill loop ends, and fills. *)
Lemma fill_loop_spec fuel n cb ps mark va sz value fl :
  holds (3 * fuel + n) (stream cb) ps mark -> has fl CP_DMA_CLEAR = true ->
  0 <= sz -> sz mod 4 = 0 -> sz = 0 \/ sz / cp_dma_max_byte_count dev < Z.of_nat fuel ->
  0 <= va /\ va + sz <= 2 ^ 48 -> 0 <= value < W32 ->
  exists s t qs mark', fill_loop dev fuel cb va sz value fl = Some (moved cb s t)
    /\ holds n s (ps ++ qs) mark'
    /\ (if sz =? 0 then mark' = mark /\ qs = [] else remarked (saves cb fl) mark (ps ++ qs) mark')
    /\ forall m, mem_eq none (effect g (ps ++ qs) m) (memset va value sz (effect g ps m)).
Proof.
  intros Hs Hfl. revert cb ps mark va sz Hs.
  induction fuel as [|fuel IH]; intros cb ps mark va sz Hs Hsz H4 Hf Hd Hv.
  { destruct Hf as [->|Hf]; [|pose proof (max_byte_count_range dev);
      assert (0 <= sz / cp_dma_max_byte_count dev) by (apply Z.div_pos; lia); lia].
    exists (stream cb), (trace_id cb), [], mark. rewrite app_nil_r.
    split_and!; [by destruct cb|done|done|]. intros m. symmetry. apply memset_0. }
  cbn [fill_loop]. destruct (Z.eqb_spec sz 0) as [->|Hne].
  { exists (stream cb), (trace_id cb), [], mark. rewrite app_nil_r.
    split_and!; [by destruct cb|by eapply weaken_n|done|done|].
    intros m. symmetry. apply memset_0. }
  destruct Hf as [->|Hf]; [done|]. pose proof (max_byte_count_range dev) as Hmax.
  pose proof max_mod_4 as Hmax4.
  pose proof (loop_fuel fuel sz ltac:(lia) Hf) as Hk. cbv zeta in Hk. set (k := Z.min _ _) in *.
  assert (k mod 4 = 0) as Hk4 
    by (subst k; by destruct (Z.min_spec sz (cp_dma_max_byte_count dev)) as [[_ ->]|[_ ->]]).
  destruct (emit_step (3 * fuel + n) cb ps mark va value k fl) as (s1 & t1 & q1 & m1 & -> & Hs1 & Hr1 & He1);
    [by replace (3 + (3 * fuel + n))%nat with (3 * Datatypes.S fuel + n)%nat by lia
    |unfold addr_ok, W32 in *; lia..|].
  cbn [mbind option_bind]. rewrite !u64_small by (unfold W64; lia).
  destruct (IH (moved cb s1 t1) (ps ++ q1) m1 (va + k) (sz - k))
    as (s2 & t2 & q2 & m2 & -> & Hs2 & Hr2 & He2); [done|lia| |done|lia|done|].
  { rewrite Zminus_mod, H4, Hk4. done. }
  rewrite moved_moved. exists s2, t2, (q1 ++ q2), m2. rewrite app_assoc. split_and!; [done|done| |].
  - destruct (Z.eqb_spec (sz - k) 0) as [E|E].
    + destruct Hr2 as [-> ->]. by rewrite app_nil_r.
    + by eapply remarked_trans.
  - intros m. rewrite He2, He1, Hfl. simpl. apply memset_split; [lia|done].
Qed.

(** ** The realignment *)

Lemma upload_bound c u : upload_ok dev c u -> 0 <= c < 2 ^ 20 ->
  0 <= upload_offset u <= upload_size u /\ upload_size u <= 2 ^ 27 /\ upload_offset u <= 64 * c.
Proof. intros [] Hc. lia. Qed.

(** What holds during an operation, before its state is updated. *)
Record base_inv (n : nat) (c : Z) cb (ps : list (list Z)) (mark : option (nat * nat)) : Prop := {
  bi_holds : holds n (stream cb) ps mark;
  bi_upload : upload_ok dev c (upload cb);
  bi_flags : flush_bits_ok g (flush_bits cb);
  bi_fence : 0 < eop_fence_va cb < W64
}.

Lemma resize_spec n c cb ps mark :
  has_cp_dma_unaligned_copy_perf_issue dev = true ->
  base_inv n c cb ps mark -> 0 <= c < 2 ^ 20 ->
  upload_size (upload cb) < upload_offset (upload cb) + 64 ->
  exists s k bo sz l, radv_cmd_buffer_resize_upload_buf dev cb 64
    = Some (true, set_upload (set_stream (set_requests cb k) s) (Upload (Some bo) sz 0 l))
    /\ holds n s ps mark /\ (exists k, bo_create dev k sz = Some bo)
    /\ 2 ^ 17 <= sz <= Z.max (2 ^ 17) (128 * (c + 1))
    /\ 0 <= bo_va bo /\ bo_va bo + sz <= 2 ^ 48.
Proof.
  intros Hiss Hi Hc Hfull.
  destruct (upload_bound _ _ (bi_upload _ _ _ _ _ Hi) Hc) as (Ho & Hsz & Hoc).
  unfold radv_cmd_buffer_resize_upload_buf. rewrite u64_small by (unfold W64; lia).
  set (sz := Z.max (Z.max _ _) _).
  assert (2 ^ 17 <= sz <= Z.max (2 ^ 17) (128 * (c + 1))) as Hb by (subst sz; lia). clearbody sz.
  destruct (Halloc Hiss (requests cb) sz ltac:(lia)) as (bo & Ebo & Hva & Hva' & Hmap & Hmal).
  rewrite Ebo.
  destruct (add_buffer_law n (stream cb) ps mark bo (bi_holds _ _ _ _ _ Hi)) as (s & E & Hs).
  cbn [stream set_requests]. rewrite E. cbn [mbind option_bind upload set_stream set_requests].
  rewrite Hmap, Hmal. cbn [negb].
  destruct (upload_bo (upload cb)); eexists _, _, _, _, _; (split; [done|]); split_and!; try done; try lia; eauto.
Qed.

(** Allocating the 64 bytes of a realignment. *)
Lemma upload_alloc_spec n c cb ps mark :
  has_cp_dma_unaligned_copy_perf_issue dev = true ->
  base_inv n c cb ps mark -> 0 <= c < 2 ^ 20 ->
  exists off cb' bo, radv_cmd_buffer_upload_alloc dev cb 64 = Some (Some off, cb')
    /\ base_inv n (c + 1) cb' ps mark /\ upload_bo (upload cb') = Some bo
    /\ qf cb' = qf cb
    /\ (exists k, bo_create dev k (upload_size (upload cb')) = Some bo)
    /\ 0 <= off /\ off + 64 <= upload_size (upload cb')
    /\ 0 <= bo_va bo /\ bo_va bo + upload_size (upload cb') <= 2 ^ 48.
Proof.
  intros Hiss Hi Hc. destruct (upload_bound _ _ (bi_upload _ _ _ _ _ Hi) Hc) as (Ho & Hsz & Hoc).
  unfold radv_cmd_buffer_upload_alloc, radv_cmd_buffer_upload_alloc_aligned.
  cbn [cassert mbind option_bind Z.modulo]. change (64 mod 4 =? 0) with true.
  cbn [cassert mbind option_bind].
  assert (forall line, line = 64 \/ line = 32 -> Z.land 64 (line - 1) = 0) as Hl by (intros ? [-> | ->]; done).
  rewrite Hl by (destruct (gfx_ge g GFX10); auto). change (0 =? 0) with true. cbv iota.
  assert ((u32 (align (upload_offset (upload cb)) (if gfx_ge g GFX10 then 64 else 32)
             - upload_offset (upload cb)) <? 0) = false) as ->.
  { apply Z.ltb_ge. apply Z.mod_pos_bound. by vm_compute. }
  rewrite u32_small by (unfold W32; lia).
  destruct (Z.ltb_spec (upload_size (upload cb)) (upload_offset (upload cb) + 64)) as [Hfull|Hroom].
  - destruct (resize_spec n c cb ps mark Hiss Hi Hc Hfull) as (s & k & bo & sz & l & -> & Hs & Hbo & Hb & Hva & Hva').
    cbn [mbind option_bind]. eexists _, _, bo. split; [done|]. simpl.
    split; [|split_and!; [done|done|done|lia..]].
    destruct Hi. split; try done. simpl.
    split; simpl; rewrite ?u32_small by (unfold W32; lia); [lia|lia|done].
  - cbn [mbind option_bind].
    pose proof (uo_bo _ _ _ (bi_upload _ _ _ _ _ Hi)) as Hbo.
    destruct (upload_bo (upload cb)) as [bo|] eqn:Ebo; [|lia]. destruct Hbo as (Hcr & Hva & Hva').
    eexists _, _, bo. split; [done|]. simpl. split; [|split_and!; [done|done|done|lia..]].
    destruct Hi. split; try done. simpl. destruct bi_upload0.
    split; simpl; rewrite ?Ebo, ?u32_small by (unfold W32; lia); [lia|lia|done].
Qed.

Lemma saves_0 cb : saves cb 0 = false.
Proof. unfold saves. apply andb_false_r. Qed.

Lemma realign_spec n c cb ps mark sz :
  has_cp_dma_unaligned_copy_perf_issue dev = true ->
  base_inv (3 + n) c cb ps mark -> 0 <= c < 2 ^ 20 -> 0 <= sz < 32 ->
  exists cb' qs mark', radv_cp_dma_realign_engine dev cb sz = Some cb'
    /\ holds n (stream cb') (ps ++ qs) mark' /\ upload_ok dev (c + 1) (upload cb')
    /\ qf cb' = qf cb /\ flush_bits_ok g (flush_bits cb') /\ 0 < eop_fence_va cb' < W64
    /\ (mark' = mark \/ mark' = None)
    /\ forall m, mem_eq (in_upload dev) (effect g (ps ++ qs) m) (effect g ps m).
Proof.
  intros Hiss Hi Hc Hsz. unfold radv_cp_dma_realign_engine.
  rewrite (proj2 (Z.ltb_lt _ _)) by (unfold SI_CPDMA_ALIGNMENT; lia).
  cbn [cassert mbind option_bind]. change (SI_CPDMA_ALIGNMENT * 2) with 64.
  destruct (upload_alloc_spec (3 + n) c cb ps mark Hiss Hi Hc)
    as (off & cb1 & bo & -> & Hi1 & Ebo & Hq & Hcr & Hoff & Hfit & Hva & Hva').
  cbn [mbind option_bind]. rewrite Ebo. cbn [mbind option_bind].
  unfold SI_CPDMA_ALIGNMENT. rewrite !(u64_small (bo_va bo + off)), u64_small by (unfold W64; lia).
  pose proof (max_byte_count_range dev) as Hmax.
  destruct (emit_step n cb1 ps mark (bo_va bo + off) (bo_va bo + off + 32) sz 0)
    as (s & t & qs & mark' & -> & Hs & Hr & He); [apply Hi1|unfold addr_ok; lia..|done|lia|].
  rewrite saves_0 in Hr. exists (moved cb1 s t), qs, mark'. split; [done|].
  split_and!; try done; try apply Hi1.
  intros m. rewrite He. simpl. intros a Ha. unfold memcpy. destruct (_ && _) eqn:E; [|done].
  destruct Ha. destruct Hcr as [k Hk]. exists k, (upload_size (upload cb1)), bo. split; [done|lia].
Qed.

(** * Copies and fills *)

Definition chunks (sz : Z) : nat := copy_fuel dev sz.

(** Enough IBs for the packets of an operation. *)
Definition dma_budget (sz : Z) : nat := (12 + 3 * chunks sz)%nat.

Definition disjoint (a n b k : Z) : Prop := a + n <= b \/ b + k <= a.

Lemma mark_ok_realigning cb cb' ps qs mark mark' :
  cp_dma_realignment_is_busy cb' = true -> mark_ok cb ps mark ->
  (mark' = mark \/ mark' = None) -> mark_ok cb' (ps ++ qs) mark'.
Proof.
  intros Hr Hm [-> | ->]; [|done]. unfold mark_ok in *. destruct mark as [[i j]|]; [|done].
  destruct Hm as (p & Hp & ? & ? & _). exists p. rewrite Hr.
  split_and!; [by apply lookup_app_l_Some|done|done|done].
Qed.

Lemma copy_fuel_enough sz :
  0 <= sz -> sz / cp_dma_max_byte_count dev < Z.of_nat (copy_fuel dev sz).
Proof.
  intros. pose proof (max_byte_count_range dev). unfold copy_fuel.
  assert (0 <= sz / cp_dma_max_byte_count dev) by (apply Z.div_pos; lia). lia.
Qed.

(** The main part and the skipped head of a copy. *)
Lemma copy_parts_spec n cb ps mark src dst sz skipped :
  holds (3 * chunks (sz - skipped) + 3 + n) (stream cb) ps mark ->
  mark_ok cb ps mark -> (is_mec dev cb = true -> mark = None) ->
  0 <= skipped <= sz -> 0 <= dst /\ dst + sz <= 2 ^ 48 -> 0 <= src /\ src + sz <= 2 ^ 48 ->
  disjoint dst sz src sz -> skipped <= 32 ->
  exists s t qs mark',
    (let! cb := copy_loop dev (copy_fuel dev (sz - skipped)) cb (u64 (dst + skipped))
                  (u64 (src + skipped)) (sz - skipped)
                  (Z.lor CP_DMA_USE_L2
                     (when (skipped =? 0) CP_DMA_SAVE_HEADER_PTR_FOR_SYNC)) ;;
     if skipped =? 0 then Some cb
     else radv_emit_cp_dma dev cb dst src skipped
            (Z.lor CP_DMA_USE_L2 CP_DMA_SAVE_HEADER_PTR_FOR_SYNC)) = Some (moved cb s t)
    /\ holds n s (ps ++ qs) mark' /\ mark_ok cb (ps ++ qs) mark'
    /\ (is_mec dev cb = true -> mark' = None)
    /\ forall m, mem_eq none (effect g (ps ++ qs) m) (memcpy dst src sz (effect g ps m)).
Proof.
  intros Hs Hm Hmec Hsk Hd Hsrc Hdis H32. unfold disjoint in Hdis.
  rewrite !u64_small by (unfold W64; lia).
  set (fl := Z.lor CP_DMA_USE_L2 (when _ _)).
  destruct (copy_loop_spec (copy_fuel dev (sz - skipped)) (3 + n) cb ps mark (dst + skipped)
    (src + skipped) (sz - skipped) fl) as (s1 & t1 & q1 & m1 & -> & Hs1 & Hr1 & He1);
    [|by destruct (skipped =? 0)|lia|right; apply copy_fuel_enough; lia|lia..|].
  { unfold chunks in Hs. by replace (3 * copy_fuel dev (sz - skipped) + (3 + n))%nat
      with (3 * copy_fuel dev (sz - skipped) + 3 + n)%nat by lia. }
  cbn [mbind option_bind]. destruct (Z.eqb_spec skipped 0) as [->|Hne].
  - exists s1, t1, q1, m1. split; [done|]. rewrite !Z.add_0_r, Z.sub_0_r in *.
    split_and!; [by do 3 apply weaken_law| | |done].
    + destruct (sz =? 0); [by destruct Hr1 as [-> ->]; rewrite app_nil_r|].
      unfold remarked, saves in Hr1. destruct (is_mec dev cb) eqn:E.
      * rewrite (Hmec eq_refl) in Hr1. by destruct Hr1 as [-> | ->].
      * by apply tail_marked_ok.
    + intros E. destruct (sz =? 0); [by destruct Hr1 as [-> _]; auto|].
      unfold remarked, saves in Hr1. rewrite E, (Hmec E) in Hr1. by destruct Hr1.
  - pose proof (max_byte_count_range dev) as Hmax.
    destruct (emit_step n (moved cb s1 t1) (ps ++ q1) m1 dst src skipped
      (Z.lor CP_DMA_USE_L2 CP_DMA_SAVE_HEADER_PTR_FOR_SYNC))
      as (s2 & t2 & q2 & m2 & -> & Hs2 & Hr2 & He2); [done|unfold addr_ok; lia..|done|lia|].
    rewrite moved_moved. exists s2, t2, (q1 ++ q2), m2. rewrite app_assoc. split; [done|].
    assert (is_mec dev cb = true -> m2 = None) as Hm2.
    { intros E. unfold remarked, saves in Hr2. change (is_mec dev (moved cb s1 t1)) with (is_mec dev cb) in Hr2.
      rewrite E in Hr2. simpl in Hr2. destruct Hr2 as [-> | ->]; [|done].
      destruct (sz - skipped =? 0); [by destruct Hr1 as [-> _]; auto|].
      unfold remarked, saves in Hr1. rewrite E, (Hmec E) in Hr1. by destruct Hr1. }
    split_and!; [done| |done|].
    + destruct (is_mec dev cb) eqn:E; [by rewrite (Hm2 eq_refl)|]. apply tail_marked_ok.
      unfold remarked, saves in Hr2. change (is_mec dev (moved cb s1 t1)) with (is_mec dev cb) in Hr2.
      by rewrite E in Hr2.
    + intros m. rewrite He2. simpl.
      rewrite <- (memcpy_split_tail dst src sz skipped) by lia.
      apply (exec_dma_proper (DmaCopy dst src skipped)), He1.
Qed.

Lemma mem_eq_none U m m' : mem_eq none m m' -> mem_eq U m m'.
Proof. intros Hm a _. apply Hm. by intros []. Qed.

Lemma upload_ok_mono c c' u : upload_ok dev c u -> c <= c' -> upload_ok dev c' u.
Proof. intros [] Hc. split; [lia|lia|done]. Qed.

Lemma dma_inv_weaken k n c cb ps mark : dma_inv (k + n) c cb ps mark -> dma_inv n c cb ps mark.
Proof. intros []. split; try done. by eapply weaken_n. Qed.

Lemma flush_if_needed_spec n c cb ps mark :
  dma_inv (6 + n) c cb ps mark ->
  exists cb' ps' mark', flush_if_needed dev cb = Some cb'
    /\ dma_inv n c cb' ps' mark' /\ (forall m, mem_eq none (effect g ps' m) (effect g ps m))
    /\ qf cb' = qf cb.
Proof.
  intros Hi. unfold flush_if_needed. destruct (_ =? 0).
  - exists cb, ps, mark. split_and!; try done. by apply (dma_inv_weaken 6).
  - destruct (cache_flush_spec n c cb ps mark false Hi) as (cb' & ps' & mark' & -> & ? & ? & _ & ? & _).
    by exists cb', ps', mark'.
Qed.

Lemma chunks_mono a b : 0 <= a <= b -> (chunks a <= chunks b)%nat.
Proof.
  intros Hab. unfold chunks, copy_fuel. pose proof (max_byte_count_range dev).
  assert (0 <= a / cp_dma_max_byte_count dev <= b / cp_dma_max_byte_count dev).
  { split; [apply Z.div_pos; lia|apply Z.div_le_mono; lia]. }
  lia.
Qed.

Lemma is_mec_qf cb cb' : qf cb' = qf cb -> is_mec dev cb' = is_mec dev cb.
Proof. unfold is_mec. by intros ->. Qed.

(** The state after an operation that recorded DMAs. *)
Lemma dma_inv_busy n c cb ps mark (r : bool) :
  base_inv n c cb ps mark -> (is_mec dev cb = true -> mark = None) ->
  mark_ok (set_cp_dma_realignment_is_busy cb r) ps mark ->
  (r = true -> has_cp_dma_unaligned_copy_perf_issue dev = true /\ is_mec dev cb = false) ->
  dma_inv n c (set_dma_is_busy (set_cp_dma_realignment_is_busy cb r) (negb (is_mec dev cb))) ps mark.
Proof.
  intros [] Hm Hmark Hr. split; try done; simpl.
  - change (is_mec dev (set_dma_is_busy (set_cp_dma_realignment_is_busy cb r) (negb (is_mec dev cb))))
      with (is_mec dev cb). intros E. by rewrite E.
  - change (is_mec dev (set_dma_is_busy (set_cp_dma_realignment_is_busy cb r) (negb (is_mec dev cb))))
      with (is_mec dev cb). intros E. rewrite E. split; [done|]. split; [|auto].
    destruct r; [|done]. destruct (Hr eq_refl). congruence.
  - intros E. by apply Hr.
Qed.

Lemma copy_memory_spec n c cb ps mark src dst sz :
  dma_inv (dma_budget sz + n) c cb ps mark -> 0 <= c < 2 ^ 20 -> 0 <= sz ->
  0 <= dst /\ dst + sz <= 2 ^ 48 -> 0 <= src /\ src + sz <= 2 ^ 48 -> disjoint dst sz src sz ->
  exists cb' ps' mark', radv_cp_dma_copy_memory dev cb src dst sz = Some cb'
    /\ dma_inv n (c + 1) cb' ps' mark' /\ qf cb' = qf cb
    /\ forall m, mem_eq (in_upload dev) (effect g ps' m) (memcpy dst src sz (effect g ps m)).
Proof.
  intros Hi Hc Hsz Hd Hsrc Hdis. unfold radv_cp_dma_copy_memory.
  set (cb0 := if cp_dma_use_L2 dev then _ else _).
  assert (dma_inv (dma_budget sz + n) c cb0 ps mark /\ qf cb0 = qf cb) as [Hi0 Hq0].
  { subst cb0. destruct (cp_dma_use_L2 dev); [done|]. split; [|done].
    eapply dma_inv_fields; [done..|]. simpl. apply flush_bits_ok_lor; [apply Hi|done]. }
  clearbody cb0. set (issue := has_cp_dma_unaligned_copy_perf_issue dev).
  set (realign := if issue && _ then _ else 0).
  assert (0 <= realign < 32 /\ (realign <> 0 -> issue = true)) as [Hre Hri].
  { subst realign. unfold SI_CPDMA_ALIGNMENT. pose proof (Z.mod_pos_bound sz 32 ltac:(lia)).
    destruct issue; simpl; [|by split; [lia|]]. destruct (Z.eqb_spec (sz mod 32) 0); simpl; split; try done; lia. }
  set (skipped := if issue && _ then _ else 0).
  assert (0 <= skipped <= sz /\ skipped <= 32) as [Hsk Hsk32].
  { subst skipped. unfold SI_CPDMA_ALIGNMENT. pose proof (Z.mod_pos_bound src 32 ltac:(lia)).
    destruct issue; simpl; [|lia]. destruct (Z.eqb_spec (src mod 32) 0); simpl; lia. }
  clearbody realign skipped.
  pose proof (chunks_mono (sz - skipped) sz ltac:(lia)) as Hch.
  set (n1 := (3 * chunks (sz - skipped) + 3 + (3 + n))%nat).
  destruct (flush_if_needed_spec n1 c cb0 ps mark) as (cb1 & ps1 & mark1 & -> & Hi1 & He1 & Hq1).
  { unfold dma_budget in Hi0. eapply (dma_inv_weaken (3 * (chunks sz - chunks (sz - skipped)))%nat).
    subst n1. by replace (3 * (chunks sz - chunks (sz - skipped)) + (6 + (3 * chunks (sz - skipped) + 3 + (3 + n))))%nat
      with (12 + 3 * chunks sz + n)%nat by lia. }
  cbn [mbind option_bind]. subst n1.
  destruct (copy_parts_spec (3 + n) cb1 ps1 mark1 src dst sz skipped)
    as (s & t & qs & mark2 & Ep & Hs2 & Hm2 & Hmec2 & He2); [apply Hi1|apply Hi1| |done..|].
  { intros E. by apply (di_mec _ _ _ _ _ Hi1). }
  match type of Ep with ?e = _ => assert (forall (k : radv_cmd_buffer S -> option (radv_cmd_buffer S)),
    (let! cb := e ;; k cb) = k (moved cb1 s t)) as Hbind by (intros; by rewrite Ep) end.
  assert (base_inv (3 + n) c (moved cb1 s t) (ps1 ++ qs) mark2) as Hb2 by (destruct Hi1; by split).
  assert (forall m, mem_eq none (effect g (ps1 ++ qs) m) (memcpy dst src sz (effect g ps m))) as He.
  { intros m. rewrite He2. apply (exec_dma_proper (DmaCopy dst src sz)), He1. }
  destruct (copy_loop dev _ cb1 _ _ _ _) as [cb2|]; [|done]. cbn [mbind option_bind] in Hbind |- *.
  rewrite Hbind. clear Hbind Ep. destruct (Z.eqb_spec realign 0) as [->|Hne].
  - cbn [mbind option_bind]. eexists _, (ps1 ++ qs), mark2. split; [done|].
    change (is_mec dev (moved cb1 s t)) with (is_mec dev cb1).
    split_and!; [|simpl; congruence|intros m; by apply mem_eq_none, He].
    pose proof (dma_inv_busy n (c + 1) (moved cb1 s t) (ps1 ++ qs) mark2 (cp_dma_realignment_is_busy cb1)) as Hfin.
    eapply dma_inv_fields; [apply Hfin|..]; try done.
    + destruct Hb2. split; try done; [by do 3 apply weaken_law|by apply (upload_ok_mono c); [|lia]].
    + intros Hr. split; [by apply Hi1|]. destruct (is_mec dev cb1) eqn:E; [|done].
      destruct (di_mec _ _ _ _ _ Hi1 E) as (_ & Hf & _). congruence.
    + apply Hi1.
  - destruct (realign_spec n c (moved cb1 s t) (ps1 ++ qs) mark2 realign)
      as (cb3 & q3 & mark3 & -> & Hs3 & Hu3 & Hq3 & Hf3 & Hv3 & Hm3 & He3); [by apply Hri|done..|].
    cbn [mbind option_bind]. eexists _, ((ps1 ++ qs) ++ q3), mark3. split; [done|].
    change (is_mec dev (set_cp_dma_realignment_is_busy cb3 (negb (is_mec dev cb3)))) with (is_mec dev cb3).
    assert (is_mec dev cb3 = is_mec dev cb1) as Hmc by by apply is_mec_qf.
    split_and!; [|simpl; rewrite Hq3; simpl; congruence|].
    + apply dma_inv_busy; [by split| | |].
      * intros E. rewrite Hmc in E. by destruct Hm3 as [-> | ->]; [apply Hmec2|].
      * destruct (is_mec dev cb3) eqn:E.
        -- destruct Hm3 as [-> | ->]; [by rewrite (Hmec2 (eq_sym Hmc))|done].
        -- by eapply mark_ok_realigning.
      * intros E%negb_true_iff. split; [by apply Hri|done].
    + intros m. rewrite He3. by apply mem_eq_none, He.
Qed.

Lemma fill_memory_spec n c cb ps mark va sz value coherent :
  dma_inv (dma_budget sz + n) c cb ps mark -> 0 <= c < 2 ^ 20 -> 0 <= sz ->
  va mod 4 = 0 -> sz mod 4 = 0 -> 0 <= va /\ va + sz <= 2 ^ 48 -> 0 <= value < W32 ->
  exists cb' ps' mark', radv_cp_dma_fill_memory dev cb va sz value coherent = Some cb'
    /\ dma_inv n (c + 1) cb' ps' mark' /\ qf cb' = qf cb
    /\ forall m, mem_eq (in_upload dev) (effect g ps' m) (memset va value sz (effect g ps m)).
Proof.
  intros Hi Hc Hsz Hva4 Hsz4 Hva Hv. unfold radv_cp_dma_fill_memory.
  destruct (Z.eqb_spec sz 0) as [->|Hne].
  { exists cb, ps, mark. split_and!; [done| |done|intros m; symmetry; apply mem_eq_none, memset_0].
    apply (dma_inv_weaken (dma_budget 0)) in Hi. destruct Hi. split; try done.
    by apply (upload_ok_mono c); [|lia]. }
  set (use_L2 := _ || negb coherent). set (cb0 := if use_L2 && _ then _ else _).
  assert (dma_inv (dma_budget sz + n) c cb0 ps mark /\ qf cb0 = qf cb) as [Hi0 Hq0].
  { subst cb0. destruct (use_L2 && _); [|done]. split; [|done].
    eapply dma_inv_fields; [done..|]. simpl. apply flush_bits_ok_lor; [apply Hi|done]. }
  clearbody cb0. rewrite Hva4, Hsz4. cbn [andb cassert mbind option_bind Z.eqb].
  destruct (flush_if_needed_spec (3 * chunks sz + n) c cb0 ps mark) as (cb1 & ps1 & mark1 & -> & Hi1 & He1 & Hq1).
  { unfold dma_budget in Hi0. apply (dma_inv_weaken 6).
    by replace (6 + (6 + (3 * chunks sz + n)))%nat with (12 + 3 * chunks sz + n)%nat by lia. }
  cbn [mbind option_bind]. set (fl := lors _).
  assert (has fl CP_DMA_CLEAR = true /\ has fl CP_DMA_SAVE_HEADER_PTR_FOR_SYNC = true) as [Hcl Hsv]
    by (subst fl; by destruct use_L2).
  destruct (fill_loop_spec (copy_fuel dev sz) n cb1 ps1 mark1 va sz value fl)
    as (s & t & qs & mark2 & -> & Hs2 & Hr2 & He2);
    [apply Hi1|done|done|done|right; apply copy_fuel_enough; lia|done|done|].
  rewrite (proj2 (Z.eqb_neq sz 0)) in Hr2 by done.
  cbn [mbind option_bind]. eexists _, (ps1 ++ qs), mark2. split; [done|].
  change (is_mec dev (moved cb1 s t)) with (is_mec dev cb1).
  split_and!; [|simpl; congruence|].
  - pose proof (dma_inv_busy n (c + 1) (moved cb1 s t) (ps1 ++ qs) mark2 (cp_dma_realignment_is_busy cb1)) as Hfin.
    unfold remarked, saves in Hr2. rewrite Hsv, andb_true_r in Hr2.
    assert (is_mec dev cb1 = true -> mark2 = None) as Hmec2.
    { intros E. destruct (di_mec _ _ _ _ _ Hi1 E) as (_ & _ & ->). rewrite E in Hr2. by destruct Hr2. }
    eapply dma_inv_fields; [apply Hfin|..]; try done.
    + destruct Hi1. split; try done. by apply (upload_ok_mono c); [|lia].
    + destruct (is_mec dev cb1) eqn:E; [by rewrite (Hmec2 eq_refl)|by apply tail_marked_ok].
    + intros Hr. split; [by apply Hi1|]. destruct (is_mec dev cb1) eqn:E; [|done].
      destruct (di_mec _ _ _ _ _ Hi1 E) as (_ & Hf & _). congruence.
    + apply Hi1.
  - intros m. apply mem_eq_none. rewrite He2. apply (exec_dma_proper (DmaFill va value sz)), He1.
Qed.

(** ** The end of a command buffer *)

Lemma end_flush_spec n c cb ps mark :
  dma_inv (6 + n) c cb ps mark ->
  (is_compute_queue (qf cb) = true -> is_mec dev cb = true) ->
  exists cb' ps' mark', end_command_buffer_flush dev cb = Some cb'
    /\ dma_inv n c cb' ps' mark' /\ (forall m, mem_eq none (effect g ps' m) (effect g ps m))
    /\ qf cb' = qf cb /\ (is_mec dev cb = false -> unsynced g ps' = false).
Proof.
  intros Hi Hq. unfold end_command_buffer_flush.
  assert (exists cb1 mark1,
    (if cp_dma_realignment_is_busy cb then
       assert! has_cp_dma_unaligned_copy_perf_issue dev ;;
       Some (set_stream (set_dma_is_busy cb true) (cs_forget_header (stream (set_dma_is_busy cb true))))
     else Some cb) = Some cb1 /\ dma_inv (6 + n) c cb1 ps mark1 /\ qf cb1 = qf cb
    /\ (cp_dma_realignment_is_busy cb1 = true -> dma_is_busy cb1 = true /\ mark1 = None))
    as (cb1 & mark1 & Ecb & Hi1 & Hq1 & Hr1).
  { destruct (cp_dma_realignment_is_busy cb) eqn:Er; [|exists cb, mark; by rewrite Er].
    rewrite (di_realign _ _ _ _ _ Hi Er). eexists _, None. split; [done|]. split_and!; [|done|done].
    assert (is_mec dev cb = false) as Hm.
    { destruct (is_mec dev cb) eqn:E; [|done]. destruct (di_mec _ _ _ _ _ Hi E) as (_ & ? & _). congruence. }
    destruct Hi. split; try done; simpl; [by eapply forget_law|].
    intros E. change (is_mec dev cb = true) in E. congruence. }
  cbv zeta. rewrite Ecb. cbn [mbind option_bind].
  destruct (cache_flush_spec n c (set_flush_bits cb1 (Z.lor (flush_bits cb1) AC_BARRIER_SYNC_CP_DMA)) ps mark1 false)
    as (cb2 & ps2 & mark2 & -> & Hi2 & He2 & _ & Hq2 & _ & Hr2 & Hs2).
  { eapply dma_inv_fields; [done..|]. simpl. apply flush_bits_ok_lor; [apply Hi1|done]. }
  simpl in Hq2, Hr2, Hs2. exists cb2, ps2, mark2. split_and!; [done|done|done|congruence|].
  intros Hm. assert (is_compute_queue (qf cb1) = false) as Hc.
  { rewrite Hq1. destruct (is_compute_queue (qf cb)) eqn:E; [|done]. specialize (Hq eq_refl). congruence. }
  destruct (Hs2 Hc) as [Hb Hn].
  { rewrite has_lor_l. apply orb_true_r. }
  apply (di_idle _ _ _ _ _ Hi2); [by rewrite (is_mec_qf cb) by congruence|done|].
  destruct (cp_dma_realignment_is_busy cb1); [|auto]. destruct (Hr1 eq_refl). auto.
Qed.

(** ** Prefetches *)

Lemma effect_no_dma qs m : no_dma g qs -> effect g qs m = m.
Proof.
  induction 1 as [|p qs Hp _ IH]; [done|]. unfold effect. simpl. unfold step_dma at 2. by rewrite Hp.
Qed.

Lemma prefetch_spec n c cb ps mark va sz :
  dma_inv (1 + n) c cb ps mark -> 0 <= sz ->
  (gfx_ge g GFX11 = true \/ sz <= cp_dma_max_byte_count dev) ->
  exists s ps' mark', radv_cs_cp_dma_prefetch dev (stream cb) va sz = Some s
    /\ dma_inv n c (set_stream cb s) ps' mark'
    /\ forall m, mem_eq none (effect g ps' m) (effect g ps m).
Proof.
  intros Hi Hsz Hmax. unfold radv_cs_cp_dma_prefetch.
  rewrite (proj2 (Z.leb_le _ _))
    by (pose proof (max_byte_count_range dev); unfold SI_CPDMA_ALIGNMENT; destruct Hmax as [-> |]; [lia|];
        destruct (gfx_ge g GFX11); lia).
  cbn [cassert mbind option_bind]. destruct (no_cp_dma_prefetch dev).
  { exists (stream cb), ps, mark. split_and!; [done| |done].
    apply (dma_inv_weaken 1) in Hi. by eapply dma_inv_fields; [done..|apply Hi]. }
  set (p := [_; _; _; _; _; _; _]).
  assert (decode_dma g p = None) as Hdec.
  { unfold decode_dma, p. rewrite PKT3_opcode, Z.eqb_refl by done. unfold dma_of, no_write_confirm.
    unfold S_506_BYTE_COUNT, S_415_BYTE_COUNT, S_506_DISABLE_WR_CONFIRM, S_415_DISABLE_WR_CONFIRM.
    destruct (gfx_ge g GFX9); rewrite G_lor, G_S_same, G_S_other by lia; done. }
  destruct (emit_law n (stream cb) ps mark 9 [p]) as (s & mark' & E & Hs & Hm); [apply Hi| |simpl; lia|].
  { constructor; [|done]. split; [by apply framed_PKT3|reflexivity]. }
  change (concat [p]) with p in E. rewrite E.
  rewrite visible_cons_keep in Hs by (unfold is_nop, p; by rewrite PKT3_type, PKT3_opcode).
  exists s, (ps ++ [p]), mark'. split; [done|]. assert (no_dma g [p]) as Hno by by constructor.
  split; [|intros m; by rewrite effect_app, effect_no_dma].
  destruct Hi. split; try done; simpl.
  - destruct Hm as [-> | ->]; [|done]. unfold mark_ok in *. destruct mark as [[i j]|]; [|done].
    destruct di_mark0 as (q & Hq & Hd & Hj & Hn). exists q.
    pose proof (lookup_lt_Some _ _ _ Hq). split_and!; [by apply lookup_app_l_Some|done|done|].
    intros Hr. rewrite drop_app_le by lia. apply Forall_app. split; [by apply Hn|done].
  - intros. rewrite unsynced_snoc, Hdec. by apply di_idle0.
  - intros E'. destruct (di_mec0 E') as (? & ? & ->). by destruct Hm as [-> | ->].
Qed.

(** * Sequences of commands *)

Inductive cmd_op :=
| OpCopy (src dst sz : Z)
| OpFill (va sz value : Z) (coherent : bool)
| OpPrefetch (va sz : Z)
| OpBarrier (bits : Z) (defer : bool)
| OpWait.

Definition run_op cb (op : cmd_op) : option (radv_cmd_buffer S) :=
  match op with
  | OpCopy src dst sz => radv_cp_dma_copy_memory dev cb src dst sz
  | OpFill va sz value coherent => radv_cp_dma_fill_memory dev cb va sz value coherent
  | OpPrefetch va sz =>
      let! s := radv_cs_cp_dma_prefetch dev (stream cb) va sz ;; Some (set_stream cb s)
  | OpBarrier bits defer =>
      radv_emit_cache_flush dev (set_flush_bits cb (Z.lor (flush_bits cb) bits)) defer
  | OpWait => radv_cp_dma_wait_for_idle dev cb
  end.

Fixpoint run_ops cb (ops : list cmd_op) : option (radv_cmd_buffer S) :=
  match ops with
  | [] => Some cb
  | op :: ops => let! cb := run_op cb op ;; run_ops cb ops
  end.

(** What the caller asks for. *)
Definition op_effect (op : cmd_op) (m : Z -> Z) : Z -> Z :=
  match op with
  | OpCopy src dst sz => memcpy dst src sz m
  | OpFill va sz value _ => memset va value sz m
  | _ => m
  end.

Definition ops_effect (ops : list cmd_op) (m : Z -> Z) : Z -> Z :=
  fold_left (fun m op => op_effect op m) ops m.

Definition op_valid (op : cmd_op) : Prop :=
  match op with
  | OpCopy src dst sz =>
      0 <= sz /\ 0 <= dst /\ dst + sz <= 2 ^ 48 /\ 0 <= src /\ src + sz <= 2 ^ 48
      /\ disjoint dst sz src sz /\ (forall a, src <= a < src + sz -> ~ in_upload dev a)
  | OpFill va sz value _ =>
      0 <= sz /\ va mod 4 = 0 /\ sz mod 4 = 0 /\ 0 <= va /\ va + sz <= 2 ^ 48 /\ 0 <= value < W32
  | OpPrefetch va sz => 0 <= sz /\ (gfx_ge g GFX11 = true \/ sz <= cp_dma_max_byte_count dev)
  | OpBarrier bits _ => flush_bits_ok g bits
  | OpWait => True
  end.

Definition op_budget (op : cmd_op) : nat :=
  match op with OpCopy _ _ sz | OpFill _ sz _ _ => dma_budget sz | _ => 6%nat end.

Definition ops_budget (ops : list cmd_op) : nat := list_sum (op_budget <$> ops).

Lemma flush_bits_ok_both a b :
  flush_bits_ok g a -> flush_bits_ok g b -> flush_bits_ok g (Z.lor a b).
Proof.
  intros Ha Hb Hg. destruct (Ha Hg) as (Ha1 & Ha2 & Ha3), (Hb Hg) as (Hb1 & Hb2 & Hb3).
  rewrite !has_lor_l, Ha1, Ha2, Hb1, Hb2. split_and!; [done|done|].
  destruct (gfx_lt g GFX12); [done|]. simpl in *. apply negb_true_iff in Ha3, Hb3.
  by rewrite Ha3, Hb3.
Qed.

Lemma run_op_spec n c cb ps mark op :
  dma_inv (op_budget op + n) c cb ps mark -> 0 <= c < 2 ^ 20 -> op_valid op ->
  exists cb' ps' mark', run_op cb op = Some cb' /\ dma_inv n (c + 1) cb' ps' mark'
    /\ qf cb' = qf cb
    /\ forall m, mem_eq (in_upload dev) (effect g ps' m) (op_effect op (effect g ps m)).
Proof.
  assert (forall n cb ps mark, dma_inv n c cb ps mark -> dma_inv n (c + 1) cb ps mark) as Hc1.
  { intros ???? []. split; try done. apply (upload_ok_mono c); [done|lia]. }
  destruct op as [src dst sz|va sz value coh|va sz|bits defer|]; intros Hi Hc Hv; simpl in *.
  - destruct Hv as (? & ? & ? & ? & ? & ? & _). by apply (copy_memory_spec n c cb ps mark).
  - destruct Hv as (? & ? & ? & ? & ? & ?). by apply (fill_memory_spec n c cb ps mark).
  - destruct Hv as [? ?]. destruct (prefetch_spec n c cb ps mark va sz) as (s & ps' & mark' & -> & Hi' & He);
      [by apply (dma_inv_weaken 5)|done..|]. cbn [mbind option_bind].
    eexists _, ps', mark'. split_and!; [done|by apply Hc1|done|]. intros m. by apply mem_eq_none, He.
  - destruct (cache_flush_spec n c (set_flush_bits cb (Z.lor (flush_bits cb) bits)) ps mark defer)
      as (cb' & ps' & mark' & -> & Hi' & He & _ & Hq & _).
    { eapply dma_inv_fields; [done..|]. simpl. apply flush_bits_ok_both; [apply Hi|done]. }
    exists cb', ps', mark'. split_and!; [done|by apply Hc1|done|]. intros m. by apply mem_eq_none, He.
  - destruct (wait_for_idle_spec n c cb ps mark) as (cb' & ps' & mark' & -> & Hi' & He & _ & _ & Hq & _).
    { by apply (dma_inv_weaken 3). }
    exists cb', ps', mark'. split_and!; [done|by apply Hc1|done|]. intros m. by apply mem_eq_none, He.
Qed.

Lemma op_effect_eq op m m' :
  op_valid op -> mem_eq (in_upload dev) m m' -> mem_eq (in_upload dev) (op_effect op m) (op_effect op m').
Proof.
  intros Hv Hm. destruct op as [src dst sz|va sz value coh| | |]; simpl in *; try done.
  - destruct Hv as (_ & _ & _ & _ & _ & _ & Hr). by apply (exec_dma_eq _ (DmaCopy dst src sz)).
  - by apply (exec_dma_eq _ (DmaFill va value sz)).
Qed.

Lemma ops_effect_eq ops m m' :
  Forall op_valid ops -> mem_eq (in_upload dev) m m' ->
  mem_eq (in_upload dev) (ops_effect ops m) (ops_effect ops m').
Proof.
  intros Hv. revert m m'. induction Hv as [|op ops Hop _ IH]; intros m m' Hm; [done|].
  unfold ops_effect. simpl. by apply IH, op_effect_eq.
Qed.

Lemma run_ops_spec ops n c cb ps mark :
  dma_inv (ops_budget ops + n) c cb ps mark -> 0 <= c -> c + Z.of_nat (length ops) <= 2 ^ 20 ->
  Forall op_valid ops ->
  exists cb' ps' mark' c', run_ops cb ops = Some cb' /\ dma_inv n c' cb' ps' mark'
    /\ qf cb' = qf cb
    /\ forall m, mem_eq (in_upload dev) (effect g ps' m) (ops_effect ops (effect g ps m)).
Proof.
  intros Hi Hc Hlen Hv. revert c cb ps mark Hi Hc Hlen.
  induction Hv as [|op ops Hop Hops IH]; intros c cb ps mark Hi Hc Hlen; simpl in *.
  { exists cb, ps, mark, c. by split_and!. }
  destruct (run_op_spec (ops_budget ops + n) c cb ps mark op) as (cb1 & ps1 & mark1 & -> & Hi1 & Hq1 & He1);
    [|lia|done|].
  { unfold ops_budget in *. simpl in Hi. by rewrite Nat.add_assoc. }
  cbn [mbind option_bind].
  destruct (IH (c + 1) cb1 ps1 mark1 Hi1) as (cb2 & ps2 & mark2 & c2 & -> & Hi2 & Hq2 & He2); [lia..|].
  exists cb2, ps2, mark2, c2. split_and!; [done|done|congruence|]. intros m. rewrite He2.
  unfold ops_effect. simpl. by apply ops_effect_eq.
Qed.
End Inv.
