(* ===== verification/CpDmaMain.v ===== *)
(** The theorems about CP DMA: for any command stream that satisfies the interface,
    and end to end for the winsys, from the commands recorded to the packets the
    command processor executes. *)

From stdpp Require Import gmap.
From S2P Require Import Prelude Pm4 CsExec Barrier BarrierSpec BarrierProofs BarrierFits CsBuffers WinsysCs CsRecord CmdStream CmdBuffer CpDma CpDmaProofs.

(** A command buffer that has just begun. *)
Record begun {S : Type} (dev : device) (cb : radv_cmd_buffer S) : Prop := {
  bg_dma : dma_is_busy cb = false;
  bg_realign : cp_dma_realignment_is_busy cb = false;
  bg_upload : upload cb = Upload None 0 0 [];
  bg_flags : flush_bits_ok (dev_gfx_level dev) (flush_bits cb);
  bg_fence : 0 < eop_fence_va cb < W64
}.

Section Theorems.
Context {S : Type} `{CommandStreamLaws S} (dev : device) (Hdev : device_ok dev)
  (Halloc : alloc_ok dev).
#[local] Set Default Proof Using "All".
#[local] Abbreviation g := (dev_gfx_level dev).

Lemma begun_inv n (cb : radv_cmd_buffer S) :
  begun dev cb -> holds n (stream cb) [] None -> dma_inv dev n 0 cb [] None.
Proof.
  intros [] Hs. split; try done.
  - by intros E; rewrite bg_realign0 in E.
  - rewrite bg_upload0. by split; simpl; [lia|lia|].
Qed.

Lemma commands_spec n ops (cb : radv_cmd_buffer S) :
  begun dev cb -> holds (ops_budget dev ops + (6 + n)) (stream cb) [] None ->
  Z.of_nat (length ops) <= 2 ^ 20 -> Forall (op_valid dev) ops ->
  (is_compute_queue (qf cb) = true -> is_mec dev cb = true) ->
  exists cb1 cb2 ps mark, run_ops dev cb ops = Some cb1
    /\ end_command_buffer_flush dev cb1 = Some cb2 /\ holds n (stream cb2) ps mark
    /\ (forall m, mem_eq (in_upload dev) (effect g ps m) (ops_effect ops m))
    /\ (is_mec dev cb = false -> unsynced g ps = false).
Proof.
  intros Hb Hs Hlen Hv Hq.
  destruct (run_ops_spec dev Hdev Halloc ops (6 + n) 0 cb [] None (begun_inv _ _ Hb Hs))
    as (cb1 & ps1 & mark1 & c1 & E1 & Hi1 & Hq1 & He1); [lia..|done|].
  destruct (end_flush_spec dev Hdev Halloc n c1 cb1 ps1 mark1 Hi1)
    as (cb2 & ps2 & mark2 & E2 & Hi2 & He2 & Hq2 & Hu2).
  { rewrite Hq1. intros E. by rewrite (is_mec_qf dev Hdev Halloc cb); [apply Hq|]. }
  exists cb1, cb2, ps2, mark2. split_and!; [done|done|apply Hi2| |].
  - intros m. rewrite <- (He1 m). by apply (mem_eq_none dev Hdev Halloc), He2.
  - intros E. apply Hu2. by rewrite (is_mec_qf dev Hdev Halloc cb).
Qed.

(** C17: recording any sequence of valid copies, fills, prefetches, barriers and waits
    and the end of the command buffer succeeds on every generation and queue, with or
    without realignment of the DMA engine, tracing and a full database flush, and the
    CP DMA packets it leaves in the stream transform memory exactly as the memcpys and
    memsets asked for, in order, up to the driver's own upload buffers: every byte of
    every range is moved once, whatever the sizes and alignments, and no other byte. *)
Theorem cp_dma_commands_effect n ops (cb : radv_cmd_buffer S) :
  begun dev cb -> holds (ops_budget dev ops + (6 + n)) (stream cb) [] None ->
  Z.of_nat (length ops) <= 2 ^ 20 -> Forall (op_valid dev) ops ->
  (is_compute_queue (qf cb) = true -> is_mec dev cb = true) ->
  exists cb1 cb2 ps mark, run_ops dev cb ops = Some cb1
    /\ end_command_buffer_flush dev cb1 = Some cb2 /\ holds n (stream cb2) ps mark
    /\ forall m a, ~ in_upload dev a -> effect g ps m a = ops_effect ops m a.
Proof.
  intros. destruct (commands_spec n ops cb) as (cb1 & cb2 & ps & mark & ? & ? & ? & He & _); [done..|].
  by exists cb1, cb2, ps, mark.
Qed.

(** At the end of a command buffer no CP DMA is left running: every DMA packet is
    followed by (or is itself) one that makes the command processor wait, although
    the wait may be requested by setting a bit in an earlier packet, although the
    dummy copies that realign the engine are not waited for on that path, and although
    the header's address is lost when a new IB is started. *)
Theorem cp_dma_idle_at_end n ops (cb : radv_cmd_buffer S) :
  begun dev cb -> holds (ops_budget dev ops + (6 + n)) (stream cb) [] None ->
  Z.of_nat (length ops) <= 2 ^ 20 -> Forall (op_valid dev) ops ->
  (is_compute_queue (qf cb) = true -> is_mec dev cb = true) -> is_mec dev cb = false ->
  exists cb1 cb2 ps mark, run_ops dev cb ops = Some cb1
    /\ end_command_buffer_flush dev cb1 = Some cb2 /\ holds n (stream cb2) ps mark
    /\ unsynced g ps = false.
Proof.
  intros. destruct (commands_spec n ops cb) as (cb1 & cb2 & ps & mark & ? & ? & ? & _ & Hu); [done..|].
  exists cb1, cb2, ps, mark. split_and!; try done. by apply Hu.
Qed.
End Theorems.

(** * End to end *)

Section Winsys.
Context (ws : cs_winsys_info) (k : kernel) (Hws : ws_ok ws) (Hk : kernel_ok k).
#[local] Existing Instance winsys_stream.
#[local] Set Default Proof Using "All".

Lemma add_buffer_header cs bo cs' :
  radv_amdgpu_cs_add_buffer k cs bo = Some cs' -> last_cp_dma_header cs' = last_cp_dma_header cs.
Proof.
  unfold radv_amdgpu_cs_add_buffer. intros E.
  destruct (bool_decide _); [by simplify_eq|]. destruct (is_virtual bo); [by simplify_eq|].
  destruct (is_local bo); [by simplify_eq|].
  apply bind_Some in E as ([b ok] & _ & E). by simplify_eq.
Qed.

(** A new stream remembers no header. *)
Lemma create_header w ip sec cs w' :
  radv_amdgpu_cs_create ws k w ip sec = Some (Some cs, w') -> last_cp_dma_header cs = None.
Proof.
  unfold radv_amdgpu_cs_create. intros E. apply bind_Some in E as (sz & _ & E).
  unfold radv_amdgpu_cs_get_new_ib in E. destruct (radv_amdgpu_cs_bo_create _ _ _ _ _) as [[bo|] w1]; [|done].
  destruct (radv_buffer_map _ _ _) as [[p|] w2].
  - apply bind_Some in E as (cs1 & E1 & E). simplify_eq. apply add_buffer_header in E1.
    rewrite E1. simpl. by destruct (_ && _).
  - repeat (apply bind_Some in E as (? & _ & E)); by simplify_eq.
Qed.

Lemma create_holds nb n w ip sec cs w' :
  is_pm4_ip ip = true -> world_ok k nb w -> (Datatypes.S nb + n <= k_limit k)%nat ->
  radv_amdgpu_cs_create ws k w ip sec = Some (Some cs, w') ->
  ws_holds k n (cs, w') [] None.
Proof.
  intros Hip Hw Hlim E. destruct (create_spec ws k Hws Hk nb w ip sec Hip Hw ltac:(lia))
    as (cs0 & w0 & E0 & Ho & Hw0 & _). simplify_eq.
  exists [], [], (Datatypes.S nb). simpl. split_and!; [done|done|lia|done|].
  apply (marked_none ws k Hws Hk). by eapply create_header.
Qed.
End Winsys.

(** C2: end to end, on every queue but the compute queue of GFX6, with memory for the IBs
    and the upload buffers.  A command stream is created in the winsys, any sequence of
    at most 2^20 valid copies, fills, prefetches, barriers and waits is recorded into
    it, the command buffer is ended and the stream finalized: all of it succeeds, and
    what the command processor executes from the chained indirect buffers transforms
    memory, outside the driver's upload buffers, as the memcpys and memsets asked for.
    On the queues of the ME no DMA is left running at the end; on compute queues from
    GFX7 on (MEC, which always syncs) there is nothing to wait for.  The GFX6 compute
    queue is left out because its ME does leave a DMA running,
    [gfx6_compute_dma_left_running]. *)
Theorem cp_dma_winsys_executes (ws : cs_winsys_info) (k : kernel) (dev : device) (nb : nat)
    (w : world) (ops : list cmd_op) (cb : radv_cmd_buffer (radv_amdgpu_cs * world)) :
  ws_ok ws -> kernel_ok k -> device_ok dev -> alloc_ok dev -> world_ok k nb w ->
  (nb + 7 + ops_budget dev ops <= k_limit k)%nat ->
  radv_amdgpu_cs_create ws k w (ring (qf cb)) false = Some (Some (stream cb).1, (stream cb).2) ->
  begun dev cb -> Z.of_nat (length ops) <= 2 ^ 20 -> Forall (op_valid dev) ops ->
  (is_compute_queue (qf cb) = true -> is_mec dev cb = true) ->
  exists cb1 cb2 cs w' ps,
    run_ops (H := winsys_stream ws k) dev cb ops = Some cb1
    /\ end_command_buffer_flush (H := winsys_stream ws k) dev cb1 = Some cb2
    /\ radv_amdgpu_cs_finalize ws k (stream cb2).1 (stream cb2).2 = Some (cs, w')
    /\ executes w' cs ps
    /\ (forall m a, ~ in_upload dev a -> effect (dev_gfx_level dev) ps m a = ops_effect ops m a)
    /\ (is_mec dev cb = false -> unsynced (dev_gfx_level dev) ps = false).
Proof.
  intros Hws Hk Hdev Halloc Hw Hlim Hcr Hb Hlen Hv Hq.
  pose proof (create_holds ws k Hws Hk nb (ops_budget dev ops + (6 + 0)) w (ring (qf cb)) false
    (stream cb).1 (stream cb).2 ltac:(by destruct (qf cb)) Hw ltac:(lia) Hcr) as Hs.
  rewrite <- surjective_pairing in Hs.
  destruct (commands_spec (H0 := winsys_laws ws k Hws Hk) dev Hdev Halloc 0 ops cb Hb Hs Hlen Hv Hq)
    as (cb1 & cb2 & ps & mark & E1 & E2 & Hs2 & He & Hu).
  destruct (stream cb2) as [cs2 w2] eqn:Est.
  destruct (holds_executes ws k Hws Hk 0 cs2 w2 ps mark Hs2) as (cs' & w' & E3 & Hex).
  exists cb1, cb2, cs', w', ps. rewrite Est. by split_and!.
Qed.

(** * A concrete run *)

Definition demo_device (gl : amd_gfx_level) (issue : bool) : device :=
  Device gl (gfx_ge gl GFX7) issue false false false false 0 id
    (fun n sz => Some (Bo (2 ^ 44 + Z.of_nat n mod 1024 * 2 ^ 31) sz 1 0 false false))
    (fun _ => true) (fun _ => true).

Lemma demo_device_ok gl issue : device_ok (demo_device gl issue).
Proof. by split. Qed.

Lemma demo_alloc_ok gl issue : alloc_ok (demo_device gl issue).
Proof.
  intros _ n sz Hsz. eexists. split; [done|]. cbn [bo_va bo_map host_malloc demo_device].
  pose proof (Z.mod_pos_bound (Z.of_nat n) 1024). split_and!; [lia|lia|done|done].
Qed.

Definition demo_cb {S} (q : radv_queue_family) (s : S) : radv_cmd_buffer S :=
  CmdBuffer s q true 0 0x1000 0 0 0 AC_PWS_ACQUIRE_POINT_NONE false false false 0 false false
    false 0 (Upload None 0 0 []) VK_SUCCESS 0.

Lemma demo_begun {S} gl issue q (s : S) : begun (demo_device gl issue) (demo_cb q s).
Proof.
  split; try done. simpl. intros _. unfold has. rewrite !Z.land_0_l. by rewrite orb_true_r.
Qed.

(** An unaligned copy larger than a packet, a fill and a barrier. *)
Definition demo_dma_ops : list cmd_op :=
  [OpCopy 0x10001 0x200000 100001; OpFill 0x400000 4096 0xdeadbeef false;
   OpBarrier (Z.lor AC_BARRIER_SYNC_CP_DMA AC_BARRIER_INV_L2) false; OpPrefetch 0x10001 100].

Lemma demo_dma_ops_valid issue : Forall (op_valid (demo_device GFX11 issue)) demo_dma_ops.
Proof.
  unfold demo_dma_ops. rewrite !Forall_cons. split; [|split; [|split; [|split; [|done]]]].
  all: cbn [op_valid]; unfold disjoint, W32.
  - do 6 (split; [lia|]). intros a Ha (n & sz & bo & [= <-] & Hin). simpl in Hin.
    pose proof (Z.mod_pos_bound (Z.of_nat n) 1024 ltac:(lia)). lia.
  - done.
  - done.
  - split; [lia|]. by left.
Qed.

Lemma demo_stream :
  exists cs w, radv_amdgpu_cs_create demo_ws demo_kernel demo_world AMD_IP_GFX false = Some (Some cs, w).
Proof.
  destruct (create_spec demo_ws demo_kernel demo_ws_ok demo_kernel_ok 0 demo_world AMD_IP_GFX false)
    as (cs & w & E & _); [done|apply demo_world_ok|simpl; lia|]. by exists cs, w.
Qed.

Lemma demo_budget issue : (ops_budget (demo_device GFX11 issue) demo_dma_ops <= 100)%nat.
Proof. apply Nat.leb_le. by vm_compute. Qed.

Lemma cp_dma_winsys_executes_witness :
  exists cb cb1 cb2 cs w' ps,
    run_ops (H := winsys_stream demo_ws demo_kernel) (demo_device GFX11 true) cb demo_dma_ops = Some cb1
    /\ end_command_buffer_flush (H := winsys_stream demo_ws demo_kernel) (demo_device GFX11 true) cb1
       = Some cb2
    /\ radv_amdgpu_cs_finalize demo_ws demo_kernel (stream cb2).1 (stream cb2).2 = Some (cs, w')
    /\ executes w' cs ps
    /\ unsynced GFX11 ps = false.
Proof.
  destruct demo_stream as (cs & w & E).
  destruct (cp_dma_winsys_executes demo_ws demo_kernel (demo_device GFX11 true) 0 demo_world
    demo_dma_ops (demo_cb RADV_QUEUE_GENERAL (cs, w)))
    as (cb1 & cb2 & cs' & w' & ps & H1 & H2 & H3 & H4 & _ & H5).
  - apply demo_ws_ok.
  - apply demo_kernel_ok.
  - apply demo_device_ok.
  - apply demo_alloc_ok.
  - apply demo_world_ok.
  - pose proof (demo_budget true). cbn [k_limit demo_kernel]. lia.
  - exact E.
  - apply demo_begun.
  - vm_compute. discriminate.
  - apply demo_dma_ops_valid.
  - done.
  - exists (demo_cb RADV_QUEUE_GENERAL (cs, w)), cb1, cb2, cs', w', ps. split_and!; [done..|]. by apply H5.
Defined.

Lemma demo_holds n cs w :
  (n <= 1000)%nat ->
  radv_amdgpu_cs_create demo_ws demo_kernel demo_world AMD_IP_GFX false = Some (Some cs, w) ->
  ws_holds demo_kernel n (cs, w) [] None.
Proof.
  intros Hn E. eapply (create_holds demo_ws demo_kernel demo_ws_ok demo_kernel_ok 0); [| | |exact E];
    [done|apply demo_world_ok|simpl; lia].
Qed.

Lemma cp_dma_commands_effect_witness :
  exists cb cb1 cb2 ps, run_ops (H := winsys_stream demo_ws demo_kernel)
      (demo_device GFX11 true) cb demo_dma_ops = Some cb1
    /\ end_command_buffer_flush (H := winsys_stream demo_ws demo_kernel) (demo_device GFX11 true) cb1
       = Some cb2
    /\ effect GFX11 ps (fun a => a mod 256) 0x200003
       = ops_effect demo_dma_ops (fun a => a mod 256) 0x200003.
Proof.
  destruct demo_stream as (cs & w & E). pose proof (demo_budget true) as Hb.
  destruct (cp_dma_commands_effect
    (H0 := winsys_laws demo_ws demo_kernel demo_ws_ok demo_kernel_ok)
    (demo_device GFX11 true) (demo_device_ok GFX11 true) (demo_alloc_ok GFX11 true) 0
    demo_dma_ops (demo_cb RADV_QUEUE_GENERAL (cs, w)))
    as (cb1 & cb2 & ps & mark & H1 & H2 & _ & H3).
  - apply demo_begun.
  - apply demo_holds; [lia|exact E].
  - vm_compute. discriminate.
  - apply demo_dma_ops_valid.
  - done.
  - exists (demo_cb RADV_QUEUE_GENERAL (cs, w)), cb1, cb2, ps. split_and!; [done|done|]. apply H3.
    intros (n & sz & bo & [= <-] & Hin). simpl in Hin.
    pose proof (Z.mod_pos_bound (Z.of_nat n) 1024 ltac:(lia)). lia.
Defined.

Lemma cp_dma_idle_at_end_witness :
  exists cb cb1 cb2 ps, run_ops (H := winsys_stream demo_ws demo_kernel)
      (demo_device GFX11 true) cb demo_dma_ops = Some cb1
    /\ end_command_buffer_flush (H := winsys_stream demo_ws demo_kernel) (demo_device GFX11 true) cb1
       = Some cb2
    /\ unsynced GFX11 ps = false.
Proof.
  destruct demo_stream as (cs & w & E). pose proof (demo_budget true) as Hb.
  destruct (cp_dma_idle_at_end
    (H0 := winsys_laws demo_ws demo_kernel demo_ws_ok demo_kernel_ok)
    (demo_device GFX11 true) (demo_device_ok GFX11 true) (demo_alloc_ok GFX11 true) 0
    demo_dma_ops (demo_cb RADV_QUEUE_GENERAL (cs, w)))
    as (cb1 & cb2 & ps & mark & H1 & H2 & _ & H3).
  - apply demo_begun.
  - apply demo_holds; [lia|exact E].
  - vm_compute. discriminate.
  - apply demo_dma_ops_valid.
  - done.
  - done.
  - by exists (demo_cb RADV_QUEUE_GENERAL (cs, w)), cb1, cb2, ps.
Defined.

(** * Compute queues on GFX6 *)

Definition gfx6_ws : cs_winsys_info :=
  Winsys GFX6 true false true false (fun _ => 256) (fun _ => 7).

(** The packets of a command buffer that makes one copy on a GFX6 compute queue. *)
Definition gfx6_compute_packets : option (list (list Z)) :=
  let! (c, w) := radv_amdgpu_cs_create gfx6_ws demo_kernel demo_world AMD_IP_COMPUTE false ;;
  let! cs := c ;;
  let! cb := run_ops (H := winsys_stream gfx6_ws demo_kernel) (demo_device GFX6 false)
               (demo_cb RADV_QUEUE_COMPUTE (cs, w)) [OpCopy 0x10000 0x20000 256] ;;
  let! cb := end_command_buffer_flush (H := winsys_stream gfx6_ws demo_kernel)
               (demo_device GFX6 false) cb ;;
  let! (cs, w) := radv_amdgpu_cs_finalize gfx6_ws demo_kernel (stream cb).1 (stream cb).2 ;;
  executed 100 (mem w) cs.

(** A GFX6 compute queue is not a MEC, so its DMAs have to be waited for, but
    radv_emit_cache_flush drops AC_BARRIER_SYNC_CP_DMA on compute queues: the copy is
    still running at the end of the command buffer. *)
Theorem gfx6_compute_dma_left_running :
  exists ps, gfx6_compute_packets = Some ps /\ unsynced GFX6 ps = true.
Proof. eexists. split; [vm_compute; reflexivity|]. vm_compute. reflexivity. Qed.
