(* ===== verification/DescriptorLayout.v ===== *)
(** Descriptor set layouts (src/amd/vulkan/radv_descriptor_set.c,
    radv_descriptors.c, src/vulkan/runtime/vk_descriptors.c): descriptor sizes and
    alignments, the two-pass placement of bindings, the immutable samplers of a layout,
    and the support query. *)

From stdpp Require Import gmap sorting.
From S2P Require Import Prelude WinsysCs.

(** * Data *)

(** [VkDescriptorType]; [VK_DESCRIPTOR_TYPE_OTHER] stands for the values the driver does
    not know. *)
Inductive VkDescriptorType :=
| VK_DESCRIPTOR_TYPE_SAMPLER | VK_DESCRIPTOR_TYPE_COMBINED_IMAGE_SAMPLER
| VK_DESCRIPTOR_TYPE_SAMPLED_IMAGE | VK_DESCRIPTOR_TYPE_STORAGE_IMAGE
| VK_DESCRIPTOR_TYPE_UNIFORM_TEXEL_BUFFER | VK_DESCRIPTOR_TYPE_STORAGE_TEXEL_BUFFER
| VK_DESCRIPTOR_TYPE_UNIFORM_BUFFER | VK_DESCRIPTOR_TYPE_STORAGE_BUFFER
| VK_DESCRIPTOR_TYPE_UNIFORM_BUFFER_DYNAMIC | VK_DESCRIPTOR_TYPE_STORAGE_BUFFER_DYNAMIC
| VK_DESCRIPTOR_TYPE_INPUT_ATTACHMENT | VK_DESCRIPTOR_TYPE_INLINE_UNIFORM_BLOCK
| VK_DESCRIPTOR_TYPE_ACCELERATION_STRUCTURE_KHR | VK_DESCRIPTOR_TYPE_MUTABLE_EXT
| VK_DESCRIPTOR_TYPE_OTHER.

#[global] Instance VkDescriptorType_eq_dec : EqDecision VkDescriptorType.
Proof. solve_decision. Defined.

Definition type_eq (a b : VkDescriptorType) : bool := bool_decide (a = b).

(** A sampler: its descriptor, and the plane count of its YCbCr conversion. *)
Record radv_sampler := Sampler { smp_state : list Z; smp_planes : option Z }.

(** [VkDescriptorSetLayoutBinding] *)
Record layout_binding := Binding {
  lb_binding : Z; lb_type : VkDescriptorType; lb_count : Z; lb_stages : Z;
  lb_samplers : option (list radv_sampler)
}.

(** [VkDescriptorSetLayoutCreateInfo] with the structures chained to it: the binding
    flags (the VARIABLE_DESCRIPTOR_COUNT bit of each) and the mutable type lists. *)
Record layout_info := LayoutInfo {
  li_bindings : list layout_binding;
  li_push : bool;
  li_variable : option (list bool);
  li_mutable : list (list VkDescriptorType)
}.

(** [struct radv_descriptor_set_binding_layout], zero when not set. *)
Record binding_layout := BindingLayout {
  bl_type : option VkDescriptorType; bl_array_size : Z; bl_offset : Z;
  bl_dynamic_offset_offset : Z; bl_dynamic_offset_count : Z; bl_size : Z;
  bl_immutable_samplers_offset : Z; bl_has_ycbcr_sampler : bool
}.

Definition zero_binding : binding_layout := BindingLayout None 0 0 0 0 0 0 false.

(** [struct radv_descriptor_set_layout]; the samplers stored after it are the list of
    their dwords. *)
Record radv_descriptor_set_layout := Layout {
  l_binding_count : Z; l_size : Z; l_dynamic_shader_stages : Z; l_dynamic_offset_count : Z;
  l_has_immutable_samplers : bool; l_has_variable_descriptors : bool;
  l_binding : gmap Z binding_layout; l_samplers : list Z
}.

(** * Sizes and alignments *)

Definition RADV_SAMPLER_DESC_SIZE : Z := 16.
Definition RADV_STORAGE_IMAGE_DESC_SIZE : Z := 32.
Definition RADV_BUFFER_DESC_SIZE : Z := 16.
Definition RADV_ACCEL_STRUCT_DESC_SIZE : Z := 16.
Definition MAX_INLINE_UNIFORM_BLOCK_SIZE : Z := 4194304.

Definition radv_descriptor_alignment (t : VkDescriptorType) : Z :=
  match t with
  | VK_DESCRIPTOR_TYPE_UNIFORM_BUFFER | VK_DESCRIPTOR_TYPE_STORAGE_BUFFER
  | VK_DESCRIPTOR_TYPE_UNIFORM_TEXEL_BUFFER | VK_DESCRIPTOR_TYPE_STORAGE_TEXEL_BUFFER
  | VK_DESCRIPTOR_TYPE_SAMPLER | VK_DESCRIPTOR_TYPE_INLINE_UNIFORM_BLOCK
  | VK_DESCRIPTOR_TYPE_ACCELERATION_STRUCTURE_KHR => 16
  | VK_DESCRIPTOR_TYPE_STORAGE_IMAGE | VK_DESCRIPTOR_TYPE_SAMPLED_IMAGE
  | VK_DESCRIPTOR_TYPE_INPUT_ATTACHMENT | VK_DESCRIPTOR_TYPE_COMBINED_IMAGE_SAMPLER
  | VK_DESCRIPTOR_TYPE_MUTABLE_EXT => 32
  | _ => 1
  end.

Section Layout.

(** [fmask] is [use_fmask || force_64_byte_sampled_image] of the physical device;
    [samplers_base n] is the offset of [binding[n]] in the layout structure. *)
Context (fmask : bool) (samplers_base : Z -> Z).

Definition radv_get_sampled_image_desc_size : Z := 32 + (if fmask then 32 else 0).

Definition radv_get_combined_image_sampler_desc_size : Z :=
  align (radv_get_sampled_image_desc_size + RADV_SAMPLER_DESC_SIZE) 32.

Definition radv_get_combined_image_sampler_offset : Z :=
  radv_get_combined_image_sampler_desc_size - RADV_SAMPLER_DESC_SIZE.

(** The size of a type a mutable descriptor may hold. *)
Definition mutable_type_size (t : VkDescriptorType) : option Z :=
  match t with
  | VK_DESCRIPTOR_TYPE_UNIFORM_BUFFER | VK_DESCRIPTOR_TYPE_STORAGE_BUFFER
  | VK_DESCRIPTOR_TYPE_UNIFORM_TEXEL_BUFFER | VK_DESCRIPTOR_TYPE_STORAGE_TEXEL_BUFFER
  | VK_DESCRIPTOR_TYPE_ACCELERATION_STRUCTURE_KHR => Some RADV_BUFFER_DESC_SIZE
  | VK_DESCRIPTOR_TYPE_SAMPLER => Some RADV_SAMPLER_DESC_SIZE
  | VK_DESCRIPTOR_TYPE_STORAGE_IMAGE => Some RADV_STORAGE_IMAGE_DESC_SIZE
  | VK_DESCRIPTOR_TYPE_SAMPLED_IMAGE => Some radv_get_sampled_image_desc_size
  | _ => None
  end.

(** Size and alignment of a mutable descriptor; [None] when it returns false, which leaves
    the outputs as they were. *)
Fixpoint mutable_loop (l : list VkDescriptorType) (max_size max_align : Z) : option (Z * Z) :=
  match l with
  | [] => Some (max_size, max_align)
  | t :: l =>
      match mutable_type_size t with
      | None => None
      | Some size => mutable_loop l (Z.max max_size size) (Z.max max_align (radv_descriptor_alignment t))
      end
  end.

Definition radv_mutable_descriptor_type_size_alignment (l : list VkDescriptorType) : option (Z * Z) :=
  mutable_loop l 0 0.

(** * Sorting *)

Definition binding_le (a b : layout_binding) : Prop := lb_binding a <= lb_binding b.

#[global] Instance binding_le_dec : RelDecision binding_le.
Proof. intros a b. unfold binding_le. apply _. Defined.

(** [vk_create_sorted_bindings] without binding flags; [None] is a failed allocation. *)
Definition vk_create_sorted_bindings (malloc_ok : bool) (l : list layout_binding)
  : option (list layout_binding) :=
  if (length l =? 0)%nat then Some [] else if malloc_ok then Some (merge_sort binding_le l) else None.

(** * Layout creation *)

(** The mutable type list looked up for the binding at sorted index [j]. *)
Definition mutable_size_align (info : layout_info) (j : nat) : option (option (Z * Z)) :=
  let! l := li_mutable info !! j ;;
  Some (radv_mutable_descriptor_type_size_alignment l).

(** The alignment of the bindings placed in the first pass: the last binding goes into
    the second. *)
Definition first_alignment_of (info : layout_info) (bindings : list layout_binding) : option Z :=
  match last bindings with
  | None => Some 32
  | Some b =>
      let! last_alignment :=
        (if type_eq (lb_type b) VK_DESCRIPTOR_TYPE_MUTABLE_EXT then
           let! r := mutable_size_align info (length bindings - 1) ;;
           Some (default 0 (snd <$> r))
         else Some (radv_descriptor_alignment (lb_type b))) ;;
      Some (if last_alignment =? 32 then 16 else 32)
  end.

(** Plane count over the immutable samplers of a binding, and whether one has a YCbCr
    conversion. *)
Definition max_planes (b : layout_binding) : Z * bool :=
  match lb_samplers b with
  | Some l =>
      if type_eq (lb_type b) VK_DESCRIPTOR_TYPE_COMBINED_IMAGE_SAMPLER then
        foldl (fun '(n, y) s => match smp_planes s with
                                | Some p => (Z.max n p, true)
                                | None => (n, y)
                                end) (1, false) l
      else (1, false)
  | None => (1, false)
  end.

Definition is_dynamic (t : VkDescriptorType) : bool :=
  type_eq t VK_DESCRIPTOR_TYPE_UNIFORM_BUFFER_DYNAMIC
  || type_eq t VK_DESCRIPTOR_TYPE_STORAGE_BUFFER_DYNAMIC.

(** The switch over the type: size of an element, alignment, and number of elements. *)
Definition binding_shape (info : layout_info) (j : nat) (b : layout_binding) : option (Z * Z * Z) :=
  let a := radv_descriptor_alignment (lb_type b) in
  match lb_type b with
  | VK_DESCRIPTOR_TYPE_UNIFORM_BUFFER_DYNAMIC | VK_DESCRIPTOR_TYPE_STORAGE_BUFFER_DYNAMIC =>
      assert! negb (li_push info) ;;
      Some (0, a, lb_count b)
  | VK_DESCRIPTOR_TYPE_UNIFORM_BUFFER | VK_DESCRIPTOR_TYPE_STORAGE_BUFFER
  | VK_DESCRIPTOR_TYPE_UNIFORM_TEXEL_BUFFER | VK_DESCRIPTOR_TYPE_STORAGE_TEXEL_BUFFER =>
      Some (RADV_BUFFER_DESC_SIZE, a, lb_count b)
  | VK_DESCRIPTOR_TYPE_STORAGE_IMAGE => Some (RADV_STORAGE_IMAGE_DESC_SIZE, a, lb_count b)
  | VK_DESCRIPTOR_TYPE_SAMPLED_IMAGE | VK_DESCRIPTOR_TYPE_INPUT_ATTACHMENT =>
      Some (radv_get_sampled_image_desc_size, a, lb_count b)
  | VK_DESCRIPTOR_TYPE_COMBINED_IMAGE_SAMPLER =>
      Some (u32 ((max_planes b).1 * radv_get_combined_image_sampler_desc_size), a, lb_count b)
  | VK_DESCRIPTOR_TYPE_SAMPLER => Some (RADV_SAMPLER_DESC_SIZE, a, lb_count b)
  | VK_DESCRIPTOR_TYPE_MUTABLE_EXT =>
      let! r := mutable_size_align info j ;;
      let '(size, al) := default (0, 0) r in
      assert! negb (size =? 0) && negb (al =? 0) ;;
      Some (size, al, lb_count b)
  | VK_DESCRIPTOR_TYPE_INLINE_UNIFORM_BLOCK => Some (lb_count b, a, 1)
  | VK_DESCRIPTOR_TYPE_ACCELERATION_STRUCTURE_KHR => Some (RADV_ACCEL_STRUCT_DESC_SIZE, a, lb_count b)
  | VK_DESCRIPTOR_TYPE_OTHER => Some (0, a, lb_count b)
  end.

Definition RADV_RT_STAGE_BITS : Z := 0x3f00.
Definition VK_SHADER_STAGE_COMPUTE_BIT : Z := 0x20.

Definition dynamic_stages (b : layout_binding) : Z :=
  if is_dynamic (lb_type b) then
    Z.lor (lb_stages b)
      (if Z.land (lb_stages b) RADV_RT_STAGE_BITS =? 0 then 0 else VK_SHADER_STAGE_COMPUTE_BIT)
  else 0.

Definition has_immutable (b : layout_binding) : option (list radv_sampler) :=
  if type_eq (lb_type b) VK_DESCRIPTOR_TYPE_COMBINED_IMAGE_SAMPLER
     || type_eq (lb_type b) VK_DESCRIPTOR_TYPE_SAMPLER then lb_samplers b else None.

(** The loop state: the layout so far and the count of dynamic offsets. *)
Definition layout_state := (radv_descriptor_set_layout * Z)%type.

(** The binding at sorted index [j]; it is placed when [second] is its pass. *)
Definition place_binding (info : layout_info) (num_bindings first_alignment : Z) (second : bool)
    (j : nat) (b : layout_binding) (st : layout_state) : option layout_state :=
  let '(l, dynamic_offset_count) := st in
  let! (size, al, count) := binding_shape info j b ;;
  let old := default zero_binding (l_binding l !! lb_binding b) in
  let dyn := if is_dynamic (lb_type b) then 1 else bl_dynamic_offset_count old in
  let stages := u16 (Z.lor (l_dynamic_shader_stages l) (dynamic_stages b)) in
  let bl0 := BindingLayout (bl_type old) (bl_array_size old) (bl_offset old)
               (bl_dynamic_offset_offset old) dyn size (bl_immutable_samplers_offset old)
               (bl_has_ycbcr_sampler old) in
  if eqb (al =? first_alignment) second then
    Some (Layout (l_binding_count l) (l_size l) stages (l_dynamic_offset_count l)
                 (l_has_immutable_samplers l) (l_has_variable_descriptors l)
                 (<[lb_binding b := bl0]> (l_binding l)) (l_samplers l), dynamic_offset_count)
  else
    let offset := align (l_size l) al in
    let variable := default false (li_variable info ≫= fun v => v !! j) in
    assert! negb variable
            || (negb (bool_decide (is_Some (lb_samplers b))) && (lb_binding b =? num_bindings - 1)) ;;
    let samplers := has_immutable b in
    let samplers_offset := samplers_base num_bindings + 4 * Z.of_nat (length (l_samplers l)) in
    let bl := BindingLayout (Some (lb_type b)) count offset (u16 dynamic_offset_count) dyn size
                (if bool_decide (is_Some samplers) then u32 samplers_offset
                 else bl_immutable_samplers_offset old)
                (max_planes b).2 in
    Some (Layout (l_binding_count l) (u32 (offset + u32 (count * size))) stages
                 (l_dynamic_offset_count l)
                 (l_has_immutable_samplers l || bool_decide (is_Some samplers))
                 (l_has_variable_descriptors l || variable)
                 (<[lb_binding b := bl]> (l_binding l))
                 (l_samplers l ++ concat (smp_state <$> default [] samplers)),
          u32 (dynamic_offset_count + u32 (count * dyn))).

Fixpoint place_all (info : layout_info) (num_bindings first_alignment : Z) (second : bool)
    (j : nat) (bindings : list layout_binding) (st : layout_state) : option layout_state :=
  match bindings with
  | [] => Some st
  | b :: bindings =>
      let! st := place_binding info num_bindings first_alignment second j b st ;;
      place_all info num_bindings first_alignment second (S j) bindings st
  end.

Definition num_bindings_of (l : list layout_binding) : Z :=
  foldl (fun n b => Z.max n (u32 (lb_binding b + 1))) 0 l.

(** [radv_CreateDescriptorSetLayout]: an error result, or the layout. *)
Definition radv_CreateDescriptorSetLayout (alloc_ok malloc_ok : bool) (info : layout_info)
  : option (VkResult + radv_descriptor_set_layout) :=
  let num_bindings := num_bindings_of (li_bindings info) in
  if negb alloc_ok then Some (inl VK_ERROR_OUT_OF_HOST_MEMORY)
  else
    match vk_create_sorted_bindings malloc_ok (li_bindings info) with
    | None => Some (inl VK_ERROR_OUT_OF_HOST_MEMORY)
    | Some bindings =>
        let l := Layout num_bindings 0 0 0 false false ∅ [] in
        let! first_alignment := first_alignment_of info bindings ;;
        let! st := place_all info num_bindings first_alignment false 0 bindings (l, 0) ;;
        let! (l, dynamic_offset_count) := place_all info num_bindings first_alignment true 0 bindings st ;;
        Some (inr (Layout (l_binding_count l) (l_size l) (l_dynamic_shader_stages l)
                     (u16 dynamic_offset_count) (l_has_immutable_samplers l)
                     (l_has_variable_descriptors l) (l_binding l) (l_samplers l)))
    end.

(** * The support query *)

Definition INT32_MAX : Z := 2147483647.
Definition UINT32_MAX : Z := 4294967295.

(** The switch of the support query: whether the type is accepted, the size of an element,
    its alignment, and the number of elements. *)
Definition support_shape (info : layout_info) (i : nat) (b : layout_binding) : option (bool * Z * Z * Z) :=
  let a := radv_descriptor_alignment (lb_type b) in
  match lb_type b with
  | VK_DESCRIPTOR_TYPE_UNIFORM_BUFFER | VK_DESCRIPTOR_TYPE_STORAGE_BUFFER
  | VK_DESCRIPTOR_TYPE_UNIFORM_TEXEL_BUFFER | VK_DESCRIPTOR_TYPE_STORAGE_TEXEL_BUFFER =>
      Some (true, RADV_BUFFER_DESC_SIZE, a, lb_count b)
  | VK_DESCRIPTOR_TYPE_STORAGE_IMAGE => Some (true, RADV_STORAGE_IMAGE_DESC_SIZE, a, lb_count b)
  | VK_DESCRIPTOR_TYPE_SAMPLED_IMAGE | VK_DESCRIPTOR_TYPE_INPUT_ATTACHMENT =>
      Some (true, radv_get_sampled_image_desc_size, a, lb_count b)
  | VK_DESCRIPTOR_TYPE_COMBINED_IMAGE_SAMPLER =>
      Some (true, radv_get_combined_image_sampler_desc_size, a, lb_count b)
  | VK_DESCRIPTOR_TYPE_SAMPLER => Some (true, RADV_SAMPLER_DESC_SIZE, a, lb_count b)
  | VK_DESCRIPTOR_TYPE_INLINE_UNIFORM_BLOCK => Some (true, lb_count b, a, 1)
  | VK_DESCRIPTOR_TYPE_MUTABLE_EXT =>
      let! r := mutable_size_align info i ;;
      match r with
      | Some (size, al) => Some (true, size, al, lb_count b)
      | None => Some (false, 0, a, lb_count b)
      end
  | VK_DESCRIPTOR_TYPE_ACCELERATION_STRUCTURE_KHR =>
      Some (true, RADV_ACCEL_STRUCT_DESC_SIZE, a, lb_count b)
  | _ => Some (true, 0, a, lb_count b)
  end.

(** The state of the query: the answer, the size so far, and the variable count reported. *)
Record support_state := Support { sup_supported : bool; sup_size : Z; sup_max_variable : Z }.

(** The largest count of a binding that starts at [size]. *)
Definition support_max_count (t : VkDescriptorType) (descriptor_size size : Z) : Z :=
  if type_eq t VK_DESCRIPTOR_TYPE_INLINE_UNIFORM_BLOCK then u64 (MAX_INLINE_UNIFORM_BLOCK_SIZE - size)
  else if negb (descriptor_size =? 0) then u64 (INT32_MAX - size) / descriptor_size
  else INT32_MAX.

Definition support_binding (info : layout_info) (first_alignment : Z) (second : bool)
    (i : nat) (b : layout_binding) (st : support_state) : option support_state :=
  let! (ok, descriptor_size, al, count) := support_shape info i b ;;
  let supported := sup_supported st && ok in
  if eqb (al =? first_alignment) second then
    Some (Support supported (sup_size st) (sup_max_variable st))
  else
    assert! util_is_power_of_two_nonzero al ;;
    let size := align64 (sup_size st) al in
    let supported := supported && ((sup_size st =? 0) || negb (size =? 0)) in
    let max_count := support_max_count (lb_type b) descriptor_size size in
    let variable := default false (li_variable info ≫= fun v => v !! i) in
    Some (Support (supported && negb (max_count <? count)) (u64 (size + u64 (count * descriptor_size)))
            (if variable then Z.min UINT32_MAX max_count else sup_max_variable st)).

Fixpoint support_all (info : layout_info) (first_alignment : Z) (second : bool)
    (i : nat) (bindings : list layout_binding) (st : support_state) : option support_state :=
  match bindings with
  | [] => Some st
  | b :: bindings =>
      let! st := support_binding info first_alignment second i b st ;;
      support_all info first_alignment second (S i) bindings st
  end.

(** [radv_GetDescriptorSetLayoutSupport] with a variable-count structure chained: the
    answer, and the largest variable count (not written when the sort cannot allocate). *)
Definition radv_GetDescriptorSetLayoutSupport (malloc_ok : bool) (info : layout_info)
  : option (bool * option Z) :=
  match vk_create_sorted_bindings malloc_ok (li_bindings info) with
  | None => Some (false, None)
  | Some bindings =>
      let! first_alignment := first_alignment_of info bindings ;;
      let! st := support_all info first_alignment false 0 bindings (Support true 0 0) ;;
      let! st := support_all info first_alignment true 0 bindings st ;;
      Some (sup_supported st, Some (sup_max_variable st))
  end.

End Layout.
