(* ===== verification/DescriptorProofs.v ===== *)
(** Lemmas about descriptor set layouts: bindings do not overlap, are aligned and lie in
    the set, and the last one is at the end. *)

From stdpp Require Import gmap sorting.
From S2P Require Import Prelude WinsysCs DescriptorLayout.

(** A binding number names one binding. *)
Lemma same_binding B b b' :
  NoDup (lb_binding <$> B) -> b ∈ B -> b' ∈ B -> lb_binding b = lb_binding b' -> b = b'.
Proof.
  intros Hnd [i Hi]%list_elem_of_lookup [j Hj]%list_elem_of_lookup Heq.
  assert (i = j) as ->; [|congruence].
  eapply (NoDup_lookup _ _ _ (lb_binding b) Hnd); rewrite list_lookup_fmap; [by rewrite Hi|by rewrite Hj, Heq].
Qed.

Section LayoutProofs.
Context (fmask : bool).

(** A binding with its index, element size, alignment and element count. *)
Record shaped := Shaped {
  sh_binding : layout_binding; sh_size : Z; sh_align : Z; sh_count : Z
}.

Definition num (x : shaped) : Z := lb_binding (sh_binding x).
Definition bytes (x : shaped) : Z := sh_count x * sh_size x.

Definition shape_at (info : layout_info) (j : nat) (b : layout_binding) : option shaped :=
  let! (size, al, count) := binding_shape fmask info j b ;;
  Some (Shaped b size al count).

Fixpoint shapes (info : layout_info) (j : nat) (l : list layout_binding) : option (list shaped) :=
  match l with
  | [] => Some []
  | b :: l =>
      let! x := shape_at info j b ;;
      let! xs := shapes info (S j) l ;;
      Some (x :: xs)
  end.

(** The reference placement: one binding after the other, each aligned. *)
Fixpoint ends (s : Z) (l : list shaped) : Z :=
  match l with
  | [] => s
  | x :: l => ends (round_up s (sh_align x) + bytes x) l
  end.

Fixpoint offsets (s : Z) (l : list shaped) : list (shaped * Z) :=
  match l with
  | [] => []
  | x :: l => let off := round_up s (sh_align x) in (x, off) :: offsets (off + bytes x) l
  end.

(** The bindings of a pass. *)
Definition in_pass (first : Z) (second : bool) (x : shaped) : bool :=
  negb (eqb (sh_align x =? first) second).

Definition pass_of (first : Z) (second : bool) (l : list shaped) : list shaped :=
  filter (fun x => in_pass first second x = true) l.

Definition order (first : Z) (l : list shaped) : list shaped :=
  pass_of first false l ++ pass_of first true l.

(** An alignment the driver uses. *)
Definition align_ok (a : Z) : Prop := a = 1 \/ a = 16 \/ a = 32.

Definition shape_ok (x : shaped) : Prop :=
  align_ok (sh_align x) /\ 0 <= sh_size x /\ 0 <= sh_count x.

Lemma align_ok_pos a : align_ok a -> 0 < a <= 32.
Proof. unfold align_ok. lia. Qed.

Lemma align_exact a s : align_ok a -> 0 <= s <= 2 ^ 31 -> align s a = round_up s a.
Proof.
  intros [-> | [-> | ->]] Hs;
    [apply (align_round_up 0)|apply (align_round_up 4)|apply (align_round_up 5)];
    try (unfold_words; lia); lia.
Qed.

Lemma bytes_nonneg x : shape_ok x -> 0 <= bytes x.
Proof. intros (_ & ? & ?). unfold bytes. nia. Qed.

Lemma ends_le s l : Forall shape_ok l -> s <= ends s l.
Proof.
  intros H. revert s. induction H as [|x l Hx _ IH]; intros s; [done|]. simpl.
  pose proof (bytes_nonneg x Hx). destruct Hx as [Ha _].
  pose proof (round_up_spec s (sh_align x) ltac:(by apply align_ok_pos)) as [? _].
  specialize (IH (round_up s (sh_align x) + bytes x)). lia.
Qed.

Lemma ends_app s a b : ends s (a ++ b) = ends (ends s a) b.
Proof. revert s. induction a as [|x a IH]; intros s; [done|]. apply IH. Qed.

Lemma offsets_app s a b : offsets s (a ++ b) = offsets s a ++ offsets (ends s a) b.
Proof. revert s. induction a as [|x a IH]; intros s; [done|]. simpl. by rewrite IH. Qed.

(** Placement: every binding in the range, aligned, and before the next one. *)
Lemma offsets_spec s l : Forall shape_ok l ->
  forall x off, (x, off) ∈ offsets s l ->
    s <= off /\ off mod sh_align x = 0 /\ off + bytes x <= ends s l /\ x ∈ l.
Proof.
  intros H. revert s. induction H as [|y l Hy Hl IH]; intros s x off; simpl; [by intros ?%elem_of_nil|].
  pose proof (bytes_nonneg y Hy). destruct Hy as [Ha _].
  pose proof (round_up_spec s (sh_align y) ltac:(by apply align_ok_pos)) as [Hr Hm].
  rewrite elem_of_cons. intros [[= -> ->]|Hin].
  - split_and!; [lia|done| |set_solver]. by apply ends_le.
  - destruct (IH _ _ _ Hin) as (? & ? & ? & ?). split_and!; [lia|done|done|set_solver].
Qed.

Definition disjoint_ranges (a n b m : Z) : Prop := a + n <= b \/ b + m <= a.

Lemma offsets_disjoint s l : Forall shape_ok l -> NoDup (num <$> l) ->
  forall x off y off', (x, off) ∈ offsets s l -> (y, off') ∈ offsets s l -> num x <> num y ->
    disjoint_ranges off (bytes x) off' (bytes y).
Proof.
  intros H. revert s. induction H as [|z l Hz Hl IH]; intros s Hnd x off y off'; simpl;
    [by intros ?%elem_of_nil|].
  simpl in Hnd. apply NoDup_cons in Hnd as [_ Hnd]. unfold disjoint_ranges in *.
  rewrite !elem_of_cons. intros [[= -> ->]|Hx] [[= -> ->]|Hy] Hne; [done| | |by eapply IH].
  - destruct (offsets_spec _ _ Hl _ _ Hy) as [? _]. by left.
  - destruct (offsets_spec _ _ Hl _ _ Hx) as [? _]. by right.
Qed.

Lemma offsets_lookup s l x : x ∈ l -> exists off, (x, off) ∈ offsets s l.
Proof.
  revert s. induction l as [|y l IH]; intros s; [by intros ?%elem_of_nil|].
  rewrite elem_of_cons. intros [->|Hx]; simpl.
  - eexists. apply elem_of_cons. by left.
  - destruct (IH (round_up s (sh_align y) + bytes y) Hx) as [off ?]. exists off. apply elem_of_cons. by right.
Qed.

(** * One pass of the code *)

Context (samplers_base : Z -> Z).

(** The entry of a binding that has been placed. *)
Definition placed (x : shaped) (off : Z) (bl : binding_layout) : Prop :=
  bl_type bl = Some (lb_type (sh_binding x)) /\ bl_array_size bl = sh_count x
  /\ bl_offset bl = off /\ bl_size bl = sh_size x.

(** The binding flags, looked up by sorted index, respect the rules of the API. *)
Definition flags_at (info : layout_info) (num_bindings : Z) (j : nat) (b : layout_binding) : bool :=
  negb (default false (li_variable info ≫= fun v => v !! j))
  || (negb (bool_decide (is_Some (lb_samplers b))) && (lb_binding b =? num_bindings - 1)).

Fixpoint flags_ok (info : layout_info) (num_bindings : Z) (j : nat) (l : list layout_binding) : Prop :=
  match l with
  | [] => True
  | b :: l => flags_at info num_bindings j b = true /\ flags_ok info num_bindings (S j) l
  end.

Lemma place_binding_spec info nb first second j b x l d :
  shape_at info j b = Some x -> shape_ok x -> flags_at info nb j b = true ->
  0 <= l_size l -> (in_pass first second x = true -> round_up (l_size l) (sh_align x) + bytes x <= 2 ^ 31) ->
  exists l' d', place_binding fmask samplers_base info nb first second j b (l, d) = Some (l', d')
    /\ l_size l' = (if in_pass first second x then round_up (l_size l) (sh_align x) + bytes x else l_size l)
    /\ (forall k, k <> lb_binding b -> l_binding l' !! k = l_binding l !! k)
    /\ exists bl, l_binding l' !! lb_binding b = Some bl
         /\ (in_pass first second x = true -> placed x (round_up (l_size l) (sh_align x)) bl)
         /\ (in_pass first second x = false -> forall off bl0,
               l_binding l !! lb_binding b = Some bl0 -> placed x off bl0 -> placed x off bl).
Proof.
  unfold shape_at. intros Hs Hok Hf Hsz Hb. unfold place_binding.
  destruct (binding_shape fmask info j b) as [[[size al] count]|] eqn:E; [simpl in Hs|done].
  injection Hs as <-. cbn [mbind option_bind]. simpl in *. unfold in_pass in *. simpl in *.
  pose proof (bytes_nonneg _ Hok) as Hpos. destruct Hok as (Ha & Hsize & Hcount). simpl in *.
  unfold bytes in *. simpl in *.
  pose proof (round_up_spec (l_size l) al ltac:(by apply align_ok_pos)) as [Hr _].
  destruct (eqb (al =? first) second); simpl in *.
  - eexists _, _. split; [done|]. simpl. split_and!; [done|by intros; rewrite lookup_insert_ne|].
    rewrite lookup_insert_eq. eexists. split; [done|]. split; [done|]. intros _ off bl0 Hl.
    rewrite Hl. unfold placed. simpl. intros (? & ? & ? & ?). by split_and!.
  - fold (flags_at info nb j b). rewrite Hf. cbn [cassert mbind option_bind].
    specialize (Hb eq_refl). rewrite align_exact by (done || lia).
    assert (u32 (count * size) = count * size) as Hm by (apply u32_small; unfold_words; lia).
    eexists _, _. split; [done|]. simpl. rewrite Hm. split_and!.
    + apply u32_small. unfold_words. lia.
    + by intros; rewrite lookup_insert_ne.
    + rewrite lookup_insert_eq. eexists. by split.
Qed.

Lemma shape_at_binding info j b x : shape_at info j b = Some x -> sh_binding x = b.
Proof.
  unfold shape_at. destruct (binding_shape fmask info j b) as [[[? ?] ?]|]; [|done]. by intros [= <-].
Qed.

Lemma shapes_bindings info j bs xs : shapes info j bs = Some xs -> sh_binding <$> xs = bs.
Proof.
  revert j xs. induction bs as [|b bs IH]; intros j xs; simpl; [by intros [= <-]|].
  destruct (shape_at info j b) as [x|] eqn:E; [simpl|done].
  destruct (shapes info (S j) bs) as [ys|] eqn:E2; [simpl|done]. intros [= <-]. rewrite fmap_cons.
  by rewrite (shape_at_binding _ _ _ _ E), (IH _ _ E2).
Qed.

Lemma shapes_nums info j bs xs : shapes info j bs = Some xs -> num <$> xs = lb_binding <$> bs.
Proof. intros H%shapes_bindings. rewrite <- H, <- list_fmap_compose. done. Qed.

Lemma pass_of_cons first second x l :
  pass_of first second (x :: l)
  = (if in_pass first second x then [x] else []) ++ pass_of first second l.
Proof.
  unfold pass_of. rewrite filter_cons. by destruct (in_pass first second x).
Qed.

Lemma pass_of_ok first second l : Forall shape_ok l -> Forall shape_ok (pass_of first second l).
Proof.
  induction 1 as [|x l Hx _ IH]; [constructor|]. rewrite pass_of_cons.
  destruct (in_pass first second x); [by constructor|done].
Qed.

Lemma place_all_spec info nb first second bs : forall j xs l d,
  shapes info j bs = Some xs -> Forall shape_ok xs -> NoDup (lb_binding <$> bs) ->
  flags_ok info nb j bs -> 0 <= l_size l -> ends (l_size l) (pass_of first second xs) <= 2 ^ 31 ->
  exists l' d', place_all fmask samplers_base info nb first second j bs (l, d) = Some (l', d')
    /\ l_size l' = ends (l_size l) (pass_of first second xs)
    /\ (forall k, k ∉ lb_binding <$> bs -> l_binding l' !! k = l_binding l !! k)
    /\ (forall x off, (x, off) ∈ offsets (l_size l) (pass_of first second xs) ->
         exists bl, l_binding l' !! num x = Some bl /\ placed x off bl)
    /\ (forall x off bl0, x ∈ xs -> in_pass first second x = false ->
         l_binding l !! num x = Some bl0 -> placed x off bl0 ->
         exists bl, l_binding l' !! num x = Some bl /\ placed x off bl).
Proof.
  induction bs as [|b bs IH]; intros j xs l d Hsh Hok Hnd Hfl Hsz Hend.
  { injection Hsh as <-. exists l, d. split_and!; try done.
    - by intros ? ? ?%elem_of_nil.
    - by intros ? ? ? ?%elem_of_nil. }
  simpl in Hsh. destruct (shape_at info j b) as [x|] eqn:Ex; [simpl in Hsh|done].
  destruct (shapes info (S j) bs) as [ys|] eqn:Ey; [simpl in Hsh|done]. injection Hsh as <-.
  apply Forall_cons in Hok as [Hx Hok]. simpl in Hnd. apply NoDup_cons in Hnd as [Hnin Hnd].
  destruct Hfl as [Hf Hfl]. pose proof (shape_at_binding _ _ _ _ Ex) as Hxb.
  assert (num x = lb_binding b) as Hnum by (unfold num; by rewrite Hxb).
  assert (Forall shape_ok (pass_of first second ys)) as Hokp by (by apply pass_of_ok).
  rewrite pass_of_cons in Hend |- *.
  destruct (place_binding_spec info nb first second j b x l d Ex Hx Hf Hsz)
    as (l1 & d1 & E1 & Hs1 & Hk1 & bl & Hbl & Hin & Hout).
  { intros Hp. rewrite Hp in Hend. simpl in Hend.
    pose proof (ends_le (round_up (l_size l) (sh_align x) + bytes x) _ Hokp). lia. }
  assert (0 <= l_size l1) as Hsz1.
  { rewrite Hs1. destruct (in_pass first second x); [|done]. pose proof (bytes_nonneg x Hx).
    destruct Hx as [Ha _]. pose proof (round_up_spec (l_size l) (sh_align x) ltac:(by apply align_ok_pos)). lia. }
  assert (ends (l_size l) ((if in_pass first second x then [x] else []) ++ pass_of first second ys)
          = ends (l_size l1) (pass_of first second ys)) as Hends
    by (rewrite Hs1; by destruct (in_pass first second x)).
  assert (forall (bl1 : binding_layout) l2 off,
    (forall k, k ∉ lb_binding <$> bs -> l_binding l2 !! k = l_binding l1 !! k) ->
    placed x off bl -> exists bl2, l_binding l2 !! num x = Some bl2 /\ placed x off bl2) as Hkeep.
  { intros _ l2 off Hk Hp. exists bl. by rewrite Hnum, Hk. }
  destruct (IH (S j) ys l1 d1 Ey Hok Hnd Hfl Hsz1) as (l2 & d2 & E2 & Hs2 & Hk2 & Hp2 & Ho2);
    [by rewrite <- Hends|].
  exists l2, d2. split_and!.
  - cbn [place_all]. rewrite E1. cbn [mbind option_bind]. exact E2.
  - by rewrite Hs2, Hends.
  - intros k Hk. simpl in Hk. rewrite Hk2, Hk1; set_solver.
  - intros y off. rewrite Hs1 in Hp2. destruct (in_pass first second x); [|apply Hp2].
    simpl. rewrite elem_of_cons. intros [[= -> ->]|Hy]; [|by apply Hp2].
    eapply Hkeep; [exact bl|exact Hk2|by apply Hin].
  - intros y off bl0 Hy Hpass Hl0 Hpl. rewrite elem_of_cons in Hy.
    destruct Hy as [->|Hy].
    + rewrite Hnum in Hl0. eapply Hkeep; [exact bl|exact Hk2|]. by eapply Hout.
    + eapply Ho2; [done|done| |done]. rewrite Hk1; [done|]. intros Heq.
      apply Hnin. change (lb_binding b ∈ lb_binding <$> bs).
      rewrite <- (shapes_nums _ _ _ _ Ey), <- Heq. by apply list_elem_of_fmap_2.
Qed.

(** * Shapes *)

Lemma mutable_loop_spec l : forall s a s' a',
  mutable_loop fmask l s a = Some (s', a') -> 0 <= s -> (a = 0 \/ a = 16 \/ a = 32) ->
  0 <= s' /\ (a' = 0 \/ a' = 16 \/ a' = 32).
Proof.
  induction l as [|t l IH]; intros s a s' a' H Hs Ha; simpl in H; [by injection H as <- <-|].
  destruct (mutable_type_size fmask t) as [sz|] eqn:E; [|done].
  assert (radv_descriptor_alignment t = 16 \/ radv_descriptor_alignment t = 32) as Hal
    by (destruct t; simpl in E |- *; auto; done).
  eapply IH; [exact H|lia|lia].
Qed.

Lemma binding_shape_ok info j b x :
  0 <= lb_count b -> shape_at info j b = Some x -> shape_ok x.
Proof.
  intros Hc. unfold shape_at, binding_shape, shape_ok, align_ok.
  assert (0 <= radv_get_sampled_image_desc_size fmask) as Hs
    by (unfold radv_get_sampled_image_desc_size; destruct fmask; lia).
  destruct (lb_type b) eqn:Et; cbn [mbind option_bind];
    try (intros [= <-]; cbn [sh_align sh_size sh_count radv_descriptor_alignment];
         unfold RADV_SAMPLER_DESC_SIZE, RADV_BUFFER_DESC_SIZE, RADV_STORAGE_IMAGE_DESC_SIZE,
           RADV_ACCEL_STRUCT_DESC_SIZE; repeat split; try lia; apply u32_range).
  1, 2: destruct (negb (li_push info)); [|done]; intros [= <-]; simpl; lia.
  unfold mutable_size_align. destruct (li_mutable info !! j) as [l|]; [cbn [mbind option_bind]|done].
  destruct (radv_mutable_descriptor_type_size_alignment fmask l) as [[s a]|] eqn:Em; simpl; [|done].
  apply mutable_loop_spec in Em as [Hs' Ha']; [|lia|by left].
  destruct (Z.eqb_spec s 0), (Z.eqb_spec a 0); simpl; try done. intros [= <-]. simpl. lia.
Qed.

Lemma shapes_ok info j bs xs :
  Forall (fun b => 0 <= lb_count b) bs -> shapes info j bs = Some xs -> Forall shape_ok xs.
Proof.
  intros H. revert j xs. induction H as [|b bs Hb _ IH]; intros j xs; simpl; [by intros [= <-]|].
  destruct (shape_at info j b) as [x|] eqn:E; [simpl|done].
  destruct (shapes info (S j) bs) as [ys|] eqn:E2; [simpl|done]. intros [= <-].
  constructor; [by eapply binding_shape_ok|by eapply IH].
Qed.

(** The last binding is placed in the second pass. *)
Lemma last_second info first bs xs x :
  first_alignment_of fmask info bs = Some first -> shapes info 0 bs = Some xs -> last xs = Some x ->
  in_pass first true x = true.
Proof.
  intros Hf Hs Hl. pose proof (shapes_bindings _ _ _ _ Hs) as Hb.
  assert (last bs = Some (sh_binding x)) as Hlb by (rewrite <- Hb, fmap_last, Hl; done).
  assert (shape_at info (length bs - 1) (sh_binding x) = Some x) as Hx.
  { clear Hf Hb Hlb. revert xs Hs Hl.
    assert (forall j xs, shapes info j bs = Some xs -> last xs = Some x ->
              shape_at info (j + (length bs - 1)) (sh_binding x) = Some x) as H; [|intros; by apply (H 0%nat xs)].
    induction bs as [|b bs IH]; intros j xs; simpl; [by intros [= <-]|].
    destruct (shape_at info j b) as [y|] eqn:E; [simpl|done].
    destruct (shapes info (S j) bs) as [ys|] eqn:E2; [simpl|done]. intros [= <-] Hl.
    destruct ys as [|y' ys].
    - injection Hl as <-. pose proof (shapes_bindings _ _ _ _ E2) as <-.
      rewrite (shape_at_binding _ _ _ _ E). simpl. by rewrite Nat.add_0_r.
    - pose proof (shapes_bindings _ _ _ _ E2) as Hbs. destruct bs as [|b' bs']; [done|].
      specialize (IH (S j) (y' :: ys) eq_refl Hl) || specialize (IH (S j) (y' :: ys) E2 Hl).
      rewrite <- IH. f_equal. simpl. lia. }
  unfold in_pass. unfold first_alignment_of in Hf. rewrite Hlb in Hf. unfold shape_at in Hx.
  unfold type_eq in Hf. case_bool_decide as Hm.
  - unfold binding_shape in Hx. rewrite Hm in Hx.
    destruct (mutable_size_align fmask info (length bs - 1)) as [r|]; [cbn [mbind option_bind] in *|done].
    destruct (default (0, 0) r) as [s a] eqn:Er.
    assert (default 0 (snd <$> r) = a) as Ha by (destruct r as [[? ?]|]; simpl in *; congruence).
    rewrite Ha in Hf. injection Hf as <-.
    destruct (cassert _); [cbn [mbind option_bind] in Hx|done]. injection Hx as <-. simpl.
    destruct (Z.eqb_spec a 32) as [->|]; [done|]. by rewrite (proj2 (Z.eqb_neq a 32)).
  - cbn [mbind option_bind] in Hf. injection Hf as <-.
    assert (sh_align x = radv_descriptor_alignment (lb_type (sh_binding x))) as ->.
    { destruct (binding_shape fmask info _ (sh_binding x)) as [[[s a] c]|] eqn:Eb; [|done].
      injection Hx as Hx. rewrite <- Hx. simpl. unfold binding_shape in Eb.
      destruct (lb_type (sh_binding x)); try (injection Eb as <- <- <-; done); try done.
      all: destruct (cassert _); [cbn [mbind option_bind] in Eb; by injection Eb as <- <- <-|done]. }
    destruct (lb_type (sh_binding x)); done.
Qed.

(** * A whole layout *)

Lemma in_pass_negb first x : in_pass first true x = negb (in_pass first false x).
Proof. unfold in_pass. by destruct (sh_align x =? first). Qed.

Lemma elem_of_pass first second x l : x ∈ pass_of first second l <-> in_pass first second x = true /\ x ∈ l.
Proof. unfold pass_of. by rewrite list_elem_of_filter. Qed.

Lemma order_perm first l : order first l ≡ₚ l.
Proof.
  unfold order. induction l as [|x l IH]; [done|]. rewrite !pass_of_cons, in_pass_negb.
  destruct (in_pass first false x); simpl; [by rewrite IH|].
  by rewrite <- Permutation_middle, IH.
Qed.

Lemma order_ok first l : Forall shape_ok l -> Forall shape_ok (order first l).
Proof. by rewrite (order_perm first l). Qed.

Definition sorted_bindings (info : layout_info) : list layout_binding :=
  merge_sort binding_le (li_bindings info).

Lemma sorted_perm info : sorted_bindings info ≡ₚ li_bindings info.
Proof. apply merge_sort_Permutation. Qed.

(** A create info that satisfies the rules of the API and describes a set of at most
    [INT32_MAX] bytes; [xs] are its shapes in sorted order. *)
Record info_ok (info : layout_info) (first : Z) (xs : list shaped) : Prop := {
  io_nodup : NoDup (lb_binding <$> li_bindings info);
  io_counts : Forall (fun b => 0 <= lb_count b) (li_bindings info);
  io_shapes : shapes info 0 (sorted_bindings info) = Some xs;
  io_flags : flags_ok info (num_bindings_of (li_bindings info)) 0 (sorted_bindings info);
  io_first : first_alignment_of fmask info (sorted_bindings info) = Some first
}.

Lemma info_shape_ok info first xs : info_ok info first xs -> Forall shape_ok xs.
Proof.
  intros [_ Hc Hs _ _]. eapply shapes_ok; [|exact Hs]. by rewrite sorted_perm.
Qed.

Lemma info_nodup info first xs : info_ok info first xs -> NoDup (num <$> xs).
Proof.
  intros [Hn _ Hs _ _]. rewrite (shapes_nums _ _ _ _ Hs). by rewrite sorted_perm.
Qed.

Lemma sorted_result info : vk_create_sorted_bindings true (li_bindings info) = Some (sorted_bindings info).
Proof. unfold vk_create_sorted_bindings, sorted_bindings. by destruct (li_bindings info). Qed.

(** The layout the code builds is the reference placement. *)
Lemma layout_create_spec info first xs :
  info_ok info first xs -> ends 0 (order first xs) <= INT32_MAX ->
  exists l, radv_CreateDescriptorSetLayout fmask samplers_base true true info = Some (inr l)
    /\ l_size l = ends 0 (order first xs)
    /\ (forall x off, (x, off) ∈ offsets 0 (order first xs) ->
         exists bl, l_binding l !! num x = Some bl /\ placed x off bl).
Proof.
  intros Hok Hfit. pose proof (info_shape_ok _ _ _ Hok) as Hsh. destruct Hok as [Hn _ Hs Hf Hfi].
  unfold radv_CreateDescriptorSetLayout. cbn [negb]. rewrite sorted_result, Hfi. cbn [mbind option_bind].
  assert (NoDup (lb_binding <$> sorted_bindings info)) as Hn' by (by rewrite sorted_perm).
  set (nb := num_bindings_of (li_bindings info)) in *.
  unfold order in Hfit |- *. rewrite ends_app in Hfit |- *.
  pose proof (pass_of_ok first false _ Hsh) as H1. pose proof (pass_of_ok first true _ Hsh) as H2.
  pose proof (ends_le 0 _ H1). pose proof (ends_le (ends 0 (pass_of first false xs)) _ H2).
  destruct (place_all_spec info nb first false (sorted_bindings info) 0 xs
              (Layout nb 0 0 0 false false ∅ []) 0 Hs Hsh Hn' Hf) as (l1 & d1 & E1 & S1 & _ & P1 & _);
    [done|simpl; unfold INT32_MAX in Hfit; lia|].
  simpl in S1, P1.
  destruct (place_all_spec info nb first true (sorted_bindings info) 0 xs l1 d1 Hs Hsh Hn' Hf)
    as (l2 & d2 & E2 & S2 & _ & P2 & Q2); [lia|rewrite S1; unfold INT32_MAX in Hfit; lia|].
  rewrite E1. cbn [mbind option_bind]. rewrite E2. cbn [mbind option_bind]. eexists. split; [done|]. simpl.
  split; [by rewrite S2, S1|]. intros x off. rewrite offsets_app, elem_of_app, <- S1. intros [Hx|Hx]; [|by apply P2].
  destruct (P1 _ _ Hx) as (bl & Hl & Hp).
  apply offsets_spec in Hx as (_ & _ & _ & [Hp1 Hxs]%elem_of_pass); [|done].
  eapply Q2; [done| |done|done]. by rewrite in_pass_negb, Hp1.
Qed.

Lemma last_offset s l x : last l = Some x ->
  exists off, (x, off) ∈ offsets s l /\ off + bytes x = ends s l.
Proof.
  intros (l' & ->)%last_Some. exists (round_up (ends s l') (sh_align x)).
  rewrite offsets_app, ends_app. simpl. split; [|done].
  apply elem_of_app. right. by apply elem_of_cons; left.
Qed.

(** The last binding in sorted order is the last one placed. *)
Lemma order_last info first xs x :
  info_ok info first xs -> last xs = Some x -> last (order first xs) = Some x.
Proof.
  intros [_ _ Hs _ Hf] Hl. pose proof (last_second _ _ _ _ _ Hf Hs Hl) as Hp.
  apply last_Some in Hl as [l' ->]. unfold order, pass_of.
  rewrite (filter_app _ l' [x]), (filter_app _ l' [x]). rewrite !filter_cons, !filter_nil.
  rewrite in_pass_negb in Hp. apply negb_true_iff in Hp. rewrite in_pass_negb, Hp. simpl.
  by rewrite app_assoc, last_snoc.
Qed.

End LayoutProofs.
