(* ===== verification/DescriptorSupport.v ===== *)
(** The support query of descriptor set layouts
    ([radv_GetDescriptorSetLayoutSupport]) against the reference placement. *)

From stdpp Require Import gmap sorting.
From S2P Require Import Prelude WinsysCs DescriptorLayout DescriptorProofs.

Section SupportProofs.
Context (fmask : bool).

(** No immutable sampler of the binding has a multi-planar conversion: the query does not
    look at them. *)
Definition single_plane (b : layout_binding) : Prop := (max_planes b).1 = 1.

Definition is_inline (x : shaped) : bool :=
  type_eq (lb_type (sh_binding x)) VK_DESCRIPTOR_TYPE_INLINE_UNIFORM_BLOCK.

(** A start from which the limits of the query do not wrap around. *)
Definition start_ok (x : shaped) (off : Z) : Prop :=
  off <= INT32_MAX /\ (is_inline x = true -> off <= MAX_INLINE_UNIFORM_BLOCK_SIZE).

(** The binding is within the limits of the device when it starts at [off]. *)
Definition within (x : shaped) (off : Z) : Prop :=
  if is_inline x then off < MAX_INLINE_UNIFORM_BLOCK_SIZE
  else if sh_size x =? 0 then sh_count x <= INT32_MAX
  else off + bytes x <= INT32_MAX.

Lemma support_shape_eq info j b x :
  shape_at fmask info j b = Some x -> single_plane b ->
  support_shape fmask info j b = Some (true, sh_size x, sh_align x, sh_count x).
Proof.
  unfold shape_at, binding_shape, support_shape, single_plane. intros Hs Hp.
  destruct (lb_type b); try (injection Hs as <-; done).
  - rewrite Hp in Hs. injection Hs as <-. cbn [sh_size sh_align sh_count]. rewrite Z.mul_1_l, u32_small; [done|].
    by destruct fmask; split; vm_compute.
  - destruct (cassert _); [|done]. by injection Hs as <-.
  - destruct (cassert _); [|done]. by injection Hs as <-.
  - destruct (mutable_size_align fmask info j) as [r|]; [cbn [mbind option_bind] in *|done].
    destruct r as [[s a]|]; cbn [default id from_option] in Hs; [|done].
    destruct (cassert _); [|done]. by injection Hs as <-.
Qed.

Lemma align_ok_pow2 a : align_ok a -> util_is_power_of_two_nonzero a = true.
Proof. by intros [->|[->| ->]]. Qed.

Lemma align64_exact s a : align_ok a -> 0 <= s <= INT32_MAX -> align64 s a = round_up s a.
Proof.
  unfold INT32_MAX. intros [->|[->| ->]] Hs;
    [apply (align64_round_up 0)|apply (align64_round_up 4)|apply (align64_round_up 5)];
    unfold_words; lia.
Qed.

Lemma within_max_count x off : shape_ok x -> 0 <= off -> start_ok x off ->
  (is_inline x = true -> sh_count x = 1) ->
  negb (support_max_count (lb_type (sh_binding x)) (sh_size x) off <? sh_count x) = true <-> within x off.
Proof.
  intros (_ & Hs & Hc) Ho [H1 H2] Hi. rewrite negb_true_iff, Z.ltb_ge.
  unfold support_max_count, within. fold (is_inline x). unfold INT32_MAX in *.
  destruct (is_inline x).
  - rewrite (Hi eq_refl). specialize (H2 eq_refl). unfold MAX_INLINE_UNIFORM_BLOCK_SIZE in *. unwrap. lia.
  - destruct (Z.eqb_spec (sh_size x) 0) as [|Hne]; cbn [negb]; [done|]. unwrap. unfold bytes. split.
    + intros H. pose proof (Z.mul_div_le (2147483647 - off) (sh_size x) ltac:(lia)). nia.
    + intros H. apply Z.div_le_lower_bound; nia.
Qed.

Lemma shape_inline_count info j b x :
  shape_at fmask info j b = Some x -> is_inline x = true -> sh_count x = 1.
Proof.
  intros Hs Hi. pose proof (shape_at_binding _ _ _ _ _ Hs) as Hb. unfold is_inline, type_eq in Hi.
  apply bool_decide_eq_true in Hi. rewrite Hb in Hi. unfold shape_at, binding_shape in Hs.
  rewrite Hi in Hs. by injection Hs as <-.
Qed.

(** One binding: the state follows the placement, and the answer the limits. *)
Lemma support_binding_spec info first second j b x st s :
  shape_at fmask info j b = Some x -> single_plane b -> shape_ok x -> 0 <= s -> sup_size st = u64 s ->
  (in_pass first second x = true -> start_ok x (round_up s (sh_align x))) ->
  exists st', support_binding fmask info first second j b st = Some st'
    /\ sup_size st' = u64 (if in_pass first second x then round_up s (sh_align x) + bytes x else s)
    /\ (sup_supported st' = true <->
        sup_supported st = true
        /\ (in_pass first second x = true -> within x (round_up s (sh_align x)))).
Proof.
  intros Hs Hp Hok H0 Hsz Hst. unfold support_binding.
  rewrite (support_shape_eq _ _ _ _ Hs Hp). cbn [mbind option_bind]. unfold in_pass in *.
  rewrite andb_true_r. destruct (eqb (sh_align x =? first) second); cbn [negb] in *.
  { eexists. split; [done|]. split; [done|]. simpl. naive_solver. }
  specialize (Hst eq_refl). pose proof Hok as (Ha & _ & _).
  pose proof (round_up_spec s (sh_align x) ltac:(by apply align_ok_pos)) as [Hr _].
  assert (0 <= s <= INT32_MAX) as Hsr by (destruct Hst; lia).
  assert (u64 s = s) as Hu by (apply u64_small; unfold INT32_MAX in Hsr; unfold_words; lia).
  rewrite align_ok_pow2 by done. cbn [cassert mbind option_bind]. rewrite Hsz, Hu, align64_exact by done.
  eexists. split; [done|]. cbn [sup_size sup_supported]. split.
  { unfold u64. by rewrite Zplus_mod_idemp_r. }
  assert ((s =? 0) || negb (round_up s (sh_align x) =? 0) = true) as -> by lia.
  rewrite andb_true_r, andb_true_iff, <- (shape_at_binding _ _ _ _ _ Hs), within_max_count;
    [naive_solver|done|lia|done|by eapply shape_inline_count].
Qed.

Lemma support_all_spec info first second bs : forall j xs st s,
  shapes fmask info j bs = Some xs -> Forall shape_ok xs -> Forall single_plane bs -> 0 <= s ->
  sup_size st = u64 s ->
  (forall x off, (x, off) ∈ offsets s (pass_of first second xs) -> start_ok x off) ->
  exists st', support_all fmask info first second j bs st = Some st'
    /\ sup_size st' = u64 (ends s (pass_of first second xs))
    /\ (sup_supported st' = true <->
        sup_supported st = true
        /\ forall x off, (x, off) ∈ offsets s (pass_of first second xs) -> within x off).
Proof.
  induction bs as [|b bs IH]; intros j xs st s Hsh Hok Hp H0 Hsz Hst.
  { injection Hsh as <-. exists st. split_and!; [done|done|]. split; [|tauto]. intros ->. split; [done|].
    by intros ? ? ?%elem_of_nil. }
  simpl in Hsh. destruct (shape_at fmask info j b) as [x|] eqn:Ex; [simpl in Hsh|done].
  destruct (shapes fmask info (S j) bs) as [ys|] eqn:Ey; [simpl in Hsh|done]. injection Hsh as <-.
  apply Forall_cons in Hok as [Hx Hok]. apply Forall_cons in Hp as [Hb Hp].
  rewrite pass_of_cons in Hst |- *.
  destruct (support_binding_spec info first second j b x st s Ex Hb Hx H0 Hsz) as (st1 & E1 & S1 & A1).
  { intros Hin. apply Hst. rewrite Hin. by apply elem_of_cons; left. }
  set (s1 := if in_pass first second x then round_up s (sh_align x) + bytes x else s) in *.
  assert (0 <= s1) as H1.
  { subst s1. destruct (in_pass first second x); [|done]. pose proof (bytes_nonneg x Hx).
    destruct Hx as [Ha _]. pose proof (round_up_spec s (sh_align x) ltac:(by apply align_ok_pos)). lia. }
  destruct (IH (S j) ys st1 s1 Ey Hok Hp H1 S1) as (st2 & E2 & S2 & A2).
  { intros y off Hy. apply Hst. unfold s1 in Hy. destruct (in_pass first second x); [|done].
    simpl. apply elem_of_cons. by right. }
  exists st2. split_and!.
  - cbn [support_all]. rewrite E1. exact E2.
  - rewrite S2. unfold s1. by destruct (in_pass first second x).
  - rewrite A2, A1. unfold s1. destruct (in_pass first second x); simpl; [|naive_solver].
    setoid_rewrite elem_of_cons. naive_solver.
Qed.

(** The whole query. *)
Lemma support_spec info first xs :
  info_ok fmask info first xs -> Forall single_plane (li_bindings info) ->
  (forall x off, (x, off) ∈ offsets 0 (order first xs) -> start_ok x off) ->
  exists ok m, radv_GetDescriptorSetLayoutSupport fmask true info = Some (ok, Some m)
    /\ (ok = true <-> forall x off, (x, off) ∈ offsets 0 (order first xs) -> within x off).
Proof.
  intros Hok Hp Hst. pose proof (info_shape_ok _ _ _ _ Hok) as Hsh. destruct Hok as [_ _ Hs _ Hf].
  assert (Forall single_plane (sorted_bindings info)) as Hp' by (by rewrite sorted_perm).
  unfold radv_GetDescriptorSetLayoutSupport. rewrite sorted_result, Hf. cbn [mbind option_bind].
  unfold order in *. rewrite offsets_app in Hst |- *. setoid_rewrite elem_of_app in Hst.
  destruct (support_all_spec info first false _ 0 xs (Support true 0 0) 0 Hs Hsh Hp') as (s1 & E1 & S1 & A1);
    [done|done|naive_solver|].
  destruct (support_all_spec info first true _ 0 xs s1 (ends 0 (pass_of first false xs)) Hs Hsh Hp')
    as (s2 & E2 & S2 & A2); [by apply ends_le, pass_of_ok|done|naive_solver|].
  rewrite E1. cbn [mbind option_bind]. rewrite E2. cbn [mbind option_bind]. eexists _, _. split; [done|].
  rewrite A2, A1. setoid_rewrite elem_of_app. simpl. naive_solver.
Qed.

End SupportProofs.
