(* ===== verification/DescriptorMain.v ===== *)
(** The theorems about descriptor set layouts. *)

From stdpp Require Import gmap sorting.
From S2P Require Import Prelude WinsysCs DescriptorLayout DescriptorProofs DescriptorSupport.

(** Inline uniform blocks respect [maxInlineUniformBlockSize]. *)
Definition inline_ok (x : shaped) : Prop :=
  is_inline x = true -> bytes x <= MAX_INLINE_UNIFORM_BLOCK_SIZE.

(** When every binding is within the limits, the set fits in [INT32_MAX] bytes. *)
Lemma within_fits fmask info first xs :
  info_ok fmask info first xs -> Forall inline_ok xs ->
  (forall x off, (x, off) ∈ offsets 0 (order first xs) -> start_ok x off /\ within x off) ->
  ends 0 (order first xs) <= INT32_MAX.
Proof.
  intros Hok Hi Hw. destruct (last (order first xs)) as [x|] eqn:El.
  2:{ apply last_None in El. by rewrite El. }
  destruct (last_offset 0 _ _ El) as (off & Hin & <-). destruct (Hw _ _ Hin) as [[Hs _] Hx].
  unfold within in Hx. destruct (is_inline x) eqn:Ei.
  - assert (x ∈ xs) as Hx'.
    { rewrite <- (order_perm first). apply last_Some in El as [l ->]. set_solver. }
    rewrite Forall_forall in Hi. specialize (Hi x Hx' Ei).
    unfold INT32_MAX, MAX_INLINE_UNIFORM_BLOCK_SIZE in *. lia.
  - destruct (Z.eqb_spec (sh_size x) 0) as [Hz|]; [|done]. unfold bytes. rewrite Hz. lia.
Qed.

(** C27: Creating a layout places every binding: a create info that follows the rules
    of the API and describes a set of at most [INT32_MAX] bytes gives a layout of the
    reference size in which each binding has its type, count and element size, is aligned
    for its descriptors and lies inside the set, no two bindings overlap, and the binding
    with the largest number, the one that may have a variable count, ends the set. *)
Theorem layout_places_bindings fmask base info first xs :
  info_ok fmask info first xs -> ends 0 (order first xs) <= INT32_MAX ->
  exists l, radv_CreateDescriptorSetLayout fmask base true true info = Some (inr l)
    /\ sh_binding <$> xs ≡ₚ li_bindings info
    /\ (forall x, x ∈ xs -> exists bl, l_binding l !! num x = Some bl
          /\ bl_type bl = Some (lb_type (sh_binding x))
          /\ bl_array_size bl = sh_count x /\ bl_size bl = sh_size x
          /\ bl_offset bl mod sh_align x = 0
          /\ 0 <= bl_offset bl /\ bl_offset bl + bl_array_size bl * bl_size bl <= l_size l)
    /\ (forall x y bx by_, x ∈ xs -> y ∈ xs -> num x <> num y ->
          l_binding l !! num x = Some bx -> l_binding l !! num y = Some by_ ->
          disjoint_ranges (bl_offset bx) (bl_array_size bx * bl_size bx)
                          (bl_offset by_) (bl_array_size by_ * bl_size by_))
    /\ (forall x bx, last xs = Some x -> l_binding l !! num x = Some bx ->
          bl_offset bx + bl_array_size bx * bl_size bx = l_size l).
Proof.
  intros Hok Hfit. destruct (layout_create_spec fmask base info first xs Hok Hfit) as (l & E & Hsz & Hpl).
  pose proof (order_ok first _ (info_shape_ok _ _ _ _ Hok)) as Hsh.
  assert (forall x, x ∈ xs -> exists off, (x, off) ∈ offsets 0 (order first xs)) as Hoff.
  { intros x Hx. apply offsets_lookup. by rewrite order_perm. }
  exists l. split; [done|]. split_and!.
  - rewrite (shapes_bindings _ _ _ _ _ (io_shapes _ _ _ _ Hok)). apply sorted_perm.
  - intros x Hx. destruct (Hoff x Hx) as [off Hin]. destruct (Hpl _ _ Hin) as (bl & Hl & H1 & H2 & H3 & H4).
    destruct (offsets_spec _ _ Hsh _ _ Hin) as (? & ? & ? & _). exists bl. rewrite H2, H3, H4, Hsz.
    by split_and!.
  - intros x y bx by_ Hx Hy Hne Hbx Hby. destruct (Hoff x Hx) as [o1 I1]. destruct (Hoff y Hy) as [o2 I2].
    destruct (Hpl _ _ I1) as (b1 & L1 & _ & C1 & O1 & Z1). destruct (Hpl _ _ I2) as (b2 & L2 & _ & C2 & O2 & Z2).
    simplify_eq. rewrite C1, C2, Z1, Z2. eapply offsets_disjoint; [exact Hsh| |done|done|done].
    rewrite order_perm. by eapply info_nodup.
  - intros x bx Hx Hbx. apply (order_last _ _ _ _ _ Hok) in Hx.
    destruct (last_offset 0 _ _ Hx) as (off & Hin & He). destruct (Hpl _ _ Hin) as (b & L & _ & C & O & Z).
    simplify_eq. by rewrite C, Z, Hsz.
Qed.

(** A layout with every kind of binding: 16-byte and 32-byte descriptors, an inline
    block, a mutable binding and a variable-count array of images, in any order. *)
Definition sample_info : layout_info :=
  LayoutInfo [Binding 0 VK_DESCRIPTOR_TYPE_UNIFORM_BUFFER 3 1 None;
              Binding 2 VK_DESCRIPTOR_TYPE_COMBINED_IMAGE_SAMPLER 2 16
                (Some [Sampler [1;2;3;4] None; Sampler [5;6;7;8] None]);
              Binding 3 VK_DESCRIPTOR_TYPE_INLINE_UNIFORM_BLOCK 12 16 None;
              Binding 4 VK_DESCRIPTOR_TYPE_MUTABLE_EXT 2 16 None;
              Binding 7 VK_DESCRIPTOR_TYPE_SAMPLED_IMAGE 100 16 None]
             false (Some [false; false; false; false; true])
             [[]; []; []; [VK_DESCRIPTOR_TYPE_SAMPLER; VK_DESCRIPTOR_TYPE_STORAGE_IMAGE]; []].

Definition sample_shapes : list shaped := default [] (shapes false sample_info 0 (sorted_bindings sample_info)).

Lemma sample_ok : info_ok false sample_info 16 sample_shapes.
Proof.
  constructor; try (vm_compute; reflexivity).
  - apply (bool_decide_unpack _). vm_compute. exact I.
  - apply (bool_decide_unpack _). vm_compute. exact I.
  - vm_compute. tauto.
Qed.

Lemma layout_places_bindings_witness :
  exists l, radv_CreateDescriptorSetLayout false (fun _ => 100) true true sample_info = Some (inr l)
    /\ l_size l = 3456.
Proof.
  destruct (layout_places_bindings false (fun _ => 100) sample_info 16 sample_shapes sample_ok
              ltac:(by vm_compute)) as (l & E & _).
  exists l. split; [exact E|]. vm_compute in E. injection E as <-. reflexivity.
Defined.

(** The support query decides whether a layout can be created: as long as no
    binding starts beyond the limits of the query and no immutable sampler is
    multi-planar, the answer is yes exactly when every binding is within the limits, and
    then the layout is created with no more than [INT32_MAX] bytes. *)
Theorem support_decides_creation fmask base info first xs :
  info_ok fmask info first xs -> Forall single_plane (li_bindings info) -> Forall inline_ok xs ->
  (forall x off, (x, off) ∈ offsets 0 (order first xs) -> start_ok x off) ->
  exists ok m, radv_GetDescriptorSetLayoutSupport fmask true info = Some (ok, Some m)
    /\ (ok = true <-> forall x off, (x, off) ∈ offsets 0 (order first xs) -> within x off)
    /\ (ok = true -> exists l,
          radv_CreateDescriptorSetLayout fmask base true true info = Some (inr l)
          /\ l_size l = ends 0 (order first xs) /\ l_size l <= INT32_MAX).
Proof.
  intros Hok Hp Hi Hst. destruct (support_spec _ _ _ _ Hok Hp Hst) as (ok & m & E & A).
  exists ok, m. split; [done|]. split; [done|]. intros ->.
  assert (ends 0 (order first xs) <= INT32_MAX) as Hfit.
  { eapply within_fits; [done|done|]. intros x off Hin. split; [by apply Hst|by apply A]. }
  destruct (layout_create_spec fmask base info first xs Hok Hfit) as (l & El & Hsz & _). exists l.
  by rewrite Hsz.
Qed.

Lemma support_decides_creation_witness :
  radv_GetDescriptorSetLayoutSupport false true sample_info = Some (true, Some 67108855).
Proof.
  destruct (support_decides_creation false (fun _ => 100) sample_info 16 sample_shapes sample_ok)
    as (ok & m & E & _).
  - repeat constructor.
  - unfold inline_ok. repeat constructor; vm_compute; discriminate.
  - assert (Forall (fun p => start_ok p.1 p.2) (offsets 0 (order 16 sample_shapes))) as H.
    { repeat constructor; vm_compute; discriminate. }
    intros x off Hin. rewrite Forall_forall in H. exact (H (x, off) Hin).
  - rewrite E. vm_compute in E. injection E as <- <-. reflexivity.
Defined.

(** Buffers up to the last 16 bytes below 2^31, then images. *)
Definition huge_info : layout_info :=
  LayoutInfo [Binding 0 VK_DESCRIPTOR_TYPE_UNIFORM_BUFFER 134217727 1 None;
              Binding 1 VK_DESCRIPTOR_TYPE_STORAGE_IMAGE 4294967295 1 None] false None [].

(** The query lets a layout through that creation cannot hold: when aligning takes
    the size past [INT32_MAX], the limit wraps around to a huge count, a binding of 128 GiB
    is reported as supported, and the layout that is created for it is smaller than the
    offset of that binding. *)
Theorem support_accepts_overflow fmask :
  radv_GetDescriptorSetLayoutSupport fmask true huge_info = Some (true, Some 0)
  /\ exists l bl, radv_CreateDescriptorSetLayout fmask (fun _ => 100) true true huge_info = Some (inr l)
       /\ l_binding l !! 1 = Some bl /\ l_size l < bl_offset bl.
Proof.
  split; [by destruct fmask; vm_compute|].
  eexists _, _. split_and!; destruct fmask; vm_compute; reflexivity.
Qed.

(** Two mutable bindings, listed as 0 then 1 and as 1 then 0 with their type lists in the
    same order. *)
Definition mutable_image : layout_binding := Binding 0 VK_DESCRIPTOR_TYPE_MUTABLE_EXT 1 1 None.
Definition mutable_buffer : layout_binding := Binding 1 VK_DESCRIPTOR_TYPE_MUTABLE_EXT 1 1 None.

Definition mutable_info (swapped : bool) : layout_info :=
  let image := [VK_DESCRIPTOR_TYPE_STORAGE_IMAGE] in
  let buffer := [VK_DESCRIPTOR_TYPE_UNIFORM_BUFFER] in
  if swapped then LayoutInfo [mutable_buffer; mutable_image] false None [buffer; image]
  else LayoutInfo [mutable_image; mutable_buffer] false None [image; buffer].

(** The mutable type lists are looked up by the index of a binding after sorting,
    though they are given in the order of [pBindings]: a create info that names the same
    bindings and lists in another order reserves 16 bytes for a binding that holds a
    32-byte image descriptor. *)
Theorem mutable_lists_by_sorted_index fmask :
  exists l l' bl bl',
    radv_CreateDescriptorSetLayout fmask (fun _ => 100) true true (mutable_info false) = Some (inr l)
    /\ radv_CreateDescriptorSetLayout fmask (fun _ => 100) true true (mutable_info true) = Some (inr l')
    /\ l_binding l !! 0 = Some bl /\ l_binding l' !! 0 = Some bl'
    /\ bl_size bl = RADV_STORAGE_IMAGE_DESC_SIZE /\ bl_size bl' = RADV_BUFFER_DESC_SIZE.
Proof. eexists _, _, _, _. split_and!; destruct fmask; vm_compute; reflexivity. Qed.
