(* ===== verification/DescriptorPool.v ===== *)
(** Descriptor pools and descriptor sets (src/amd/vulkan/radv_descriptor_pool.c,
    radv_descriptor_set.c): pool creation and reset, set creation and destruction,
    vkAllocateDescriptorSets and vkFreeDescriptorSets.

    A pool without FREE_DESCRIPTOR_SET_BIT takes descriptor memory and set structures from
    two bump allocators; a pool with it uses a [util_vma_heap] and the host allocator. *)

From stdpp Require Import gmap.
From S2P Require Import Prelude Vma WinsysCs DescriptorLayout.

(** * Data *)

(** [struct radv_descriptor_set]: its address, its layout (with the handle that counts
    references), the place of its memory in the pool, and its GPU address. *)
Record radv_descriptor_set := DSet {
  ds_ptr : Z; ds_handle : Z; ds_layout : radv_descriptor_set_layout;
  ds_offset : Z; ds_size : Z; ds_mapped : Z; ds_va : Z
}.

(** [host_memory_base], [host_memory_ptr] and [host_memory_end]. *)
Record host_memory := Host { hm_base : Z; hm_ptr : Z; hm_end : Z }.

(** [struct radv_descriptor_pool]; [p_mem] is the mapped memory by dword, [p_heap] is
    absent when it was never initialised. *)
Record radv_descriptor_pool := Pool {
  p_bo_va : option Z; p_mem : gmap Z Z; p_current_offset : Z; p_size : Z;
  p_host : option host_memory; p_sets : list radv_descriptor_set; p_heap : option util_vma_heap;
  p_entry_count : Z; p_max_entry_count : Z
}.

(** Reference counts of the set layouts; a destroyed layout is absent. *)
Notation layout_refs := (gmap Z Z).

Definition vk_descriptor_set_layout_ref (refs : layout_refs) (h : Z) : option layout_refs :=
  let! n := refs !! h ;;
  assert! 1 <=? n ;;
  Some (<[h := n + 1]> refs).

Definition vk_descriptor_set_layout_unref (refs : layout_refs) (h : Z) : option layout_refs :=
  let! n := refs !! h ;;
  assert! 1 <=? n ;;
  Some (if n - 1 =? 0 then delete h refs else <[h := n - 1]> refs).

Definition RADV_POOL_HEAP_OFFSET : Z := 32.

(** [VkDescriptorPoolCreateInfo] with the structures chained to it. *)
Record pool_info := PoolInfo {
  pi_max_sets : Z; pi_sizes : list (VkDescriptorType * Z); pi_free_bit : bool; pi_host_only : bool;
  pi_inline : option Z; pi_mutable : list (list VkDescriptorType)
}.

(** What the allocators answer: the pool structure, the buffer object (an error or its
    GPU address) and its mapping, and host memory of a host-only pool. *)
Record pool_oracle := PoolOracle {
  o_pool : option Z; o_bo : VkResult + Z; o_map : bool; o_host_bo : bool
}.

Definition with_sets (p : radv_descriptor_pool) (sets : list radv_descriptor_set) : radv_descriptor_pool :=
  Pool (p_bo_va p) (p_mem p) (p_current_offset p) (p_size p) (p_host p) sets (p_heap p)
       (p_entry_count p) (p_max_entry_count p).
Definition with_heap (p : radv_descriptor_pool) (h : option util_vma_heap) : radv_descriptor_pool :=
  Pool (p_bo_va p) (p_mem p) (p_current_offset p) (p_size p) (p_host p) (p_sets p) h
       (p_entry_count p) (p_max_entry_count p).
Definition with_current_offset (p : radv_descriptor_pool) (o : Z) : radv_descriptor_pool :=
  Pool (p_bo_va p) (p_mem p) o (p_size p) (p_host p) (p_sets p) (p_heap p)
       (p_entry_count p) (p_max_entry_count p).
Definition with_host (p : radv_descriptor_pool) (h : option host_memory) : radv_descriptor_pool :=
  Pool (p_bo_va p) (p_mem p) (p_current_offset p) (p_size p) h (p_sets p) (p_heap p)
       (p_entry_count p) (p_max_entry_count p).
Definition with_entry_count (p : radv_descriptor_pool) (n : Z) : radv_descriptor_pool :=
  Pool (p_bo_va p) (p_mem p) (p_current_offset p) (p_size p) (p_host p) (p_sets p) (p_heap p)
       n (p_max_entry_count p).
Definition pool_with_mem (p : radv_descriptor_pool) (m : gmap Z Z) : radv_descriptor_pool :=
  Pool (p_bo_va p) m (p_current_offset p) (p_size p) (p_host p) (p_sets p) (p_heap p)
       (p_entry_count p) (p_max_entry_count p).

Section Pool.

(** [fmask] and [samplers_base] as for layouts; [set_bytes], [range_bytes] and
    [pool_bytes] are the sizes of the structures, which depend on the platform. *)
Context (fmask : bool) (samplers_base : Z -> Z) (set_bytes range_bytes pool_bytes : Z).

(** * Pool creation *)

(** The sizes summed over the pool sizes: bytes of descriptor memory, dynamic ranges, and
    16-byte descriptors. *)
Record pool_sums := Sums { sum_bo : Z; sum_ranges : Z; sum_16 : Z }.

Definition pool_size_step (info : pool_info) (i : nat) (t : VkDescriptorType) (count : Z) (s : pool_sums)
  : pool_sums :=
  let add n := Sums (u64 (sum_bo s + n)) (sum_ranges s) (sum_16 s) in
  match t with
  | VK_DESCRIPTOR_TYPE_UNIFORM_BUFFER_DYNAMIC | VK_DESCRIPTOR_TYPE_STORAGE_BUFFER_DYNAMIC =>
      Sums (sum_bo s) (u64 (sum_ranges s + count)) (sum_16 s)
  | VK_DESCRIPTOR_TYPE_UNIFORM_BUFFER | VK_DESCRIPTOR_TYPE_STORAGE_BUFFER
  | VK_DESCRIPTOR_TYPE_UNIFORM_TEXEL_BUFFER | VK_DESCRIPTOR_TYPE_STORAGE_TEXEL_BUFFER
  | VK_DESCRIPTOR_TYPE_SAMPLER | VK_DESCRIPTOR_TYPE_ACCELERATION_STRUCTURE_KHR =>
      Sums (u64 (sum_bo s + u32 (RADV_BUFFER_DESC_SIZE * count))) (sum_ranges s) (u64 (sum_16 s + count))
  | VK_DESCRIPTOR_TYPE_STORAGE_IMAGE => add (u32 (RADV_STORAGE_IMAGE_DESC_SIZE * count))
  | VK_DESCRIPTOR_TYPE_SAMPLED_IMAGE | VK_DESCRIPTOR_TYPE_INPUT_ATTACHMENT =>
      add (u32 (radv_get_sampled_image_desc_size fmask * count))
  | VK_DESCRIPTOR_TYPE_MUTABLE_EXT =>
      match pi_mutable info !! i with
      | Some l =>
          match radv_mutable_descriptor_type_size_alignment fmask l with
          | Some (mutable_size, _) =>
              let mutable_size := align mutable_size 32 in
              Sums (u64 (sum_bo s + u64 (mutable_size * count))) (sum_ranges s)
                   (if mutable_size <? 32 then u64 (sum_16 s + count) else sum_16 s)
          | None => s
          end
      | None => add (u32 (radv_get_sampled_image_desc_size fmask * count))
      end
  | VK_DESCRIPTOR_TYPE_COMBINED_IMAGE_SAMPLER =>
      add (u32 (count * radv_get_combined_image_sampler_desc_size fmask))
  | VK_DESCRIPTOR_TYPE_INLINE_UNIFORM_BLOCK => add count
  | VK_DESCRIPTOR_TYPE_OTHER => s
  end.

Fixpoint pool_size_loop (info : pool_info) (i : nat) (l : list (VkDescriptorType * Z)) (s : pool_sums)
  : pool_sums :=
  match l with
  | [] => s
  | (t, count) :: l => pool_size_loop info (S i) l (pool_size_step info i t count s)
  end.

(** The descriptor memory and the dynamic ranges of a pool. *)
Definition pool_sizes (info : pool_info) : Z * Z :=
  let bo := match pi_inline info with Some n => u64 (28 * n) | None => 0 end in
  let s := pool_size_loop info 0 (pi_sizes info) (Sums bo 0 0) in
  (if sum_16 s =? 0 then sum_bo s else u64 (sum_bo s + 16 * Z.min (sum_16 s) (pi_max_sets info)),
   sum_ranges s).

(** A heap that allocates from low addresses over the pool's memory. *)
Definition init_heap (size : Z) : option util_vma_heap :=
  let! h := util_vma_heap_init RADV_POOL_HEAP_OFFSET size ;;
  Some (Heap (holes h) (free_size h) false (nospan_shift h)).

(** [radv_create_descriptor_pool] *)
Definition radv_create_descriptor_pool (o : pool_oracle) (info : pool_info)
  : option (VkResult + radv_descriptor_pool) :=
  let '(bo_size, range_count) := pool_sizes info in
  let size :=
    if pi_free_bit info then pool_bytes
    else u64 (u64 (pool_bytes + pi_max_sets info * set_bytes) + range_bytes * range_count) in
  match o_pool o with
  | None => Some (inl VK_ERROR_OUT_OF_HOST_MEMORY)
  | Some ptr =>
      let host := if pi_free_bit info then None
                  else Some (Host (ptr + pool_bytes) (ptr + pool_bytes) (ptr + size)) in
      let! heap := (if pi_free_bit info && negb (bo_size =? 0)
                    then let! h := init_heap bo_size ;; Some (Some h)
                    else Some None) ;;
      let pool bo := Pool bo ∅ 0 bo_size host [] heap 0 (pi_max_sets info) in
      if bo_size =? 0 then Some (inr (pool None))
      else if negb (pi_host_only info) then
        match o_bo o with
        | inl r => Some (inl r)
        | inr va => if o_map o then Some (inr (pool (Some va))) else Some (inl VK_ERROR_OUT_OF_DEVICE_MEMORY)
        end
      else if o_host_bo o then Some (inr (pool None))
      else Some (inl VK_ERROR_OUT_OF_HOST_MEMORY)
  end.

(** * Sets *)

(** [radv_alloc_descriptor_pool_entry]: the result, and the pool and set it leaves. *)
Definition radv_alloc_descriptor_pool_entry (p : radv_descriptor_pool) (set : radv_descriptor_set)
  : option (VkResult * radv_descriptor_pool) :=
  let finish p offset current :=
    let set := DSet (ds_ptr set) (ds_handle set) (ds_layout set) offset (ds_size set) current
                 (match p_bo_va p with Some va => u64 (va + current) | None => 0 end) in
    Some (VK_SUCCESS, with_entry_count (with_sets p (p_sets p ++ [set])) (u32 (p_entry_count p + 1))) in
  match p_host p with
  | None =>
      if ds_size set =? 0 then finish p (ds_offset set) (p_current_offset p)
      else
        let! heap := p_heap p ;;
        let! (pool_vma_offset, heap) := util_vma_heap_alloc heap (ds_size set) 32 ;;
        if pool_vma_offset =? 0 then
          Some (if free_size heap <? ds_size set then VK_ERROR_OUT_OF_POOL_MEMORY else VK_ERROR_FRAGMENTED_POOL, p)
        else
          assert! (RADV_POOL_HEAP_OFFSET <=? pool_vma_offset)
                  && (pool_vma_offset <=? u64 (p_size p + RADV_POOL_HEAP_OFFSET)) ;;
          let offset := u32 (pool_vma_offset - RADV_POOL_HEAP_OFFSET) in
          finish (with_heap p (Some heap)) offset offset
  | Some _ =>
      if p_size p <? u64 (p_current_offset p + ds_size set) then Some (VK_ERROR_OUT_OF_POOL_MEMORY, p)
      else finish (with_current_offset p (u64 (p_current_offset p + ds_size set)))
                  (ds_offset set) (p_current_offset p)
  end.

(** The size of a set: with a variable count the last binding is cut or extended. *)
Definition descriptor_set_size (layout : radv_descriptor_set_layout) (variable_count : Z) : Z :=
  let layout_size :=
    if variable_count =? 0 then l_size layout
    else
      let b := default zero_binding (l_binding layout !! (l_binding_count layout - 1)) in
      let stride := if bool_decide (bl_type b = Some VK_DESCRIPTOR_TYPE_INLINE_UNIFORM_BLOCK) then 1
                    else bl_size b in
      u32 (bl_offset b + u32 (variable_count * stride)) in
  align layout_size 32.

(** [memcpy] of one sampler. *)
Fixpoint write_dwords (mem : gmap Z Z) (at_ : Z) (l : list Z) : gmap Z Z :=
  match l with
  | [] => mem
  | d :: l => write_dwords (<[at_ := d]> mem) (at_ + 1) l
  end.

(** The samplers of one binding: [n] elements, [offset] in dwords from the set. *)
Fixpoint write_samplers (mem : gmap Z Z) (base offset stride : Z) (samplers : list Z) (n : nat)
  : option (gmap Z Z) :=
  match n with
  | O => Some mem
  | S n =>
      assert! (4 <=? length samplers)%nat ;;
      write_samplers (write_dwords mem (base + offset) (take 4 samplers)) base (u32 (offset + stride)) stride
                     (drop 4 samplers) n
  end.

Definition write_binding_samplers (layout : radv_descriptor_set_layout) (base : Z) (mem : gmap Z Z) (i : nat)
  : option (gmap Z Z) :=
  let b := default zero_binding (l_binding layout !! Z.of_nat i) in
  if bl_immutable_samplers_offset b =? 0 then Some mem
  else
    let offset := bl_offset b / 4
                  + (if bool_decide (bl_type b = Some VK_DESCRIPTOR_TYPE_COMBINED_IMAGE_SAMPLER)
                     then radv_get_combined_image_sampler_offset fmask / 4 else 0) in
    let first := (bl_immutable_samplers_offset b - samplers_base (l_binding_count layout)) / 4 in
    write_samplers mem base (u32 offset) (bl_size b / 4) (drop (Z.to_nat first) (l_samplers layout))
                   (Z.to_nat (bl_array_size b)).

(** The loop over the bindings of a layout with immutable samplers. *)
Fixpoint write_immutable_samplers (layout : radv_descriptor_set_layout) (base : Z) (mem : gmap Z Z)
    (l : list nat) : option (gmap Z Z) :=
  match l with
  | [] => Some mem
  | i :: l =>
      let! mem := write_binding_samplers layout base mem i ;;
      write_immutable_samplers layout base mem l
  end.

(** [radv_descriptor_set_create]; [zalloc] is the answer of the host allocator. *)
Definition radv_descriptor_set_create (p : radv_descriptor_pool) (refs : layout_refs)
    (handle : Z) (layout : radv_descriptor_set_layout) (variable_count : Z) (zalloc : option Z)
  : option (VkResult * option Z * radv_descriptor_pool * layout_refs) :=
  if p_entry_count p =? p_max_entry_count p then Some (VK_ERROR_OUT_OF_POOL_MEMORY, None, p, refs)
  else
    let mem_size := u32 (set_bytes + range_bytes * l_dynamic_offset_count layout) in
    let taken :=
      match p_host p with
      | Some h =>
          if hm_end h - hm_ptr h <? mem_size then inl VK_ERROR_OUT_OF_POOL_MEMORY
          else inr (hm_ptr h, with_host p (Some (Host (hm_base h) (hm_ptr h + mem_size) (hm_end h))))
      | None =>
          match zalloc with
          | Some ptr => inr (ptr, p)
          | None => inl VK_ERROR_OUT_OF_HOST_MEMORY
          end
      end in
    match taken with
    | inl r => Some (r, None, p, refs)
    | inr (ptr, p1) =>
        let set := DSet ptr handle layout 0 (descriptor_set_size layout variable_count) 0 0 in
        let! (r, p2) := radv_alloc_descriptor_pool_entry p1 set ;;
        if bool_decide (r = VK_SUCCESS) then
          let base := default 0 (ds_mapped <$> last (p_sets p2)) / 4 in
          let! mem := (if l_has_immutable_samplers layout
                       then write_immutable_samplers layout base (p_mem p2)
                              (seq 0 (Z.to_nat (l_binding_count layout)))
                       else Some (p_mem p2)) ;;
          let! refs := vk_descriptor_set_layout_ref refs handle ;;
          Some (VK_SUCCESS, Some ptr, pool_with_mem p2 mem, refs)
        else
          Some (r, None,
                match p_host p2 with
                | Some h => with_host p2 (Some (Host (hm_base h) (hm_ptr h - mem_size) (hm_end h)))
                | None => p2
                end, refs)
    end.

(** [radv_descriptor_set_destroy] *)
Definition radv_descriptor_set_destroy (p : radv_descriptor_pool) (refs : layout_refs) (ptr : Z)
  : option (radv_descriptor_pool * layout_refs) :=
  assert! bool_decide (p_host p = None) ;;
  let! (i, set) := list_find (fun s => ds_ptr s = ptr) (p_sets p) ;;
  let p := with_sets p (delete i (p_sets p)) in
  let! refs := vk_descriptor_set_layout_unref refs (ds_handle set) ;;
  let! p := (if ds_size set =? 0 then Some p
             else let! heap := p_heap p ;;
                  let! heap := util_vma_heap_free heap (ds_offset set + RADV_POOL_HEAP_OFFSET) (ds_size set) ;;
                  Some (with_heap p (Some heap))) ;;
  Some (with_entry_count p (u32 (p_entry_count p - 1)), refs).

(** [radv_FreeDescriptorSets]; a null handle is [None]. *)
Fixpoint radv_FreeDescriptorSets (p : radv_descriptor_pool) (refs : layout_refs) (l : list (option Z))
  : option (radv_descriptor_pool * layout_refs) :=
  match l with
  | [] => Some (p, refs)
  | s :: l =>
      let! (p, refs) :=
        match s, p_host p with
        | Some ptr, None => radv_descriptor_set_destroy p refs ptr
        | _, _ => Some (p, refs)
        end ;;
      radv_FreeDescriptorSets p refs l
  end.

(** One set to allocate: the layout, its variable count, and the answer of the allocator. *)
Record set_request := Request {
  rq_handle : Z; rq_layout : radv_descriptor_set_layout; rq_push : bool; rq_variable : Z; rq_zalloc : option Z
}.

(** The loop of vkAllocateDescriptorSets: the result, and the sets made so far. *)
Fixpoint allocate_loop (p : radv_descriptor_pool) (refs : layout_refs) (made : list Z) (l : list set_request)
  : option (VkResult * list Z * radv_descriptor_pool * layout_refs) :=
  match l with
  | [] => Some (VK_SUCCESS, made, p, refs)
  | q :: l =>
      let variable_count := if l_has_variable_descriptors (rq_layout q) then rq_variable q else 0 in
      assert! negb (rq_push q) ;;
      let! (r, s, p, refs) :=
        radv_descriptor_set_create p refs (rq_handle q) (rq_layout q) variable_count (rq_zalloc q) ;;
      match s with
      | Some ptr => allocate_loop p refs (made ++ [ptr]) l
      | None => Some (r, made, p, refs)
      end
  end.

(** [radv_AllocateDescriptorSets]: the result and the handles written. *)
Definition radv_AllocateDescriptorSets (p : radv_descriptor_pool) (refs : layout_refs) (l : list set_request)
  : option (VkResult * list (option Z) * radv_descriptor_pool * layout_refs) :=
  let! (r, made, p, refs) := allocate_loop p refs [] l ;;
  if bool_decide (r = VK_SUCCESS) then Some (r, Some <$> made, p, refs)
  else
    let! (p, refs) := radv_FreeDescriptorSets p refs (Some <$> made) ;;
    Some (r, (fun _ => None) <$> l, p, refs).

(** * Destroying the entries, and reset *)

Fixpoint destroy_all_sets (p : radv_descriptor_pool) (refs : layout_refs) (l : list radv_descriptor_set)
  : option (radv_descriptor_pool * layout_refs) :=
  match l with
  | [] => Some (p, refs)
  | s :: l =>
      let! (p, refs) := radv_descriptor_set_destroy p refs (ds_ptr s) ;;
      destroy_all_sets p refs l
  end.

Fixpoint unref_all (refs : layout_refs) (l : list radv_descriptor_set) : option layout_refs :=
  match l with
  | [] => Some refs
  | s :: l =>
      let! refs := vk_descriptor_set_layout_unref refs (ds_handle s) ;;
      unref_all refs l
  end.

Definition radv_destroy_descriptor_pool_entries (p : radv_descriptor_pool) (refs : layout_refs)
  : option (radv_descriptor_pool * layout_refs) :=
  match p_host p with
  | None => destroy_all_sets p refs (p_sets p)
  | Some _ =>
      let! refs := unref_all refs (p_sets p) ;;
      Some (with_sets p [], refs)
  end.

(** [radv_ResetDescriptorPool] *)
Definition radv_ResetDescriptorPool (p : radv_descriptor_pool) (refs : layout_refs)
  : option (radv_descriptor_pool * layout_refs) :=
  let! (p, refs) := radv_destroy_descriptor_pool_entries p refs ;;
  let! p := (if bool_decide (p_host p = None) && negb (p_size p =? 0)
             then let! h := init_heap (p_size p) ;; Some (with_heap p (Some h))
             else Some p) ;;
  let host := (fun h => Host (hm_base h) (hm_base h) (hm_end h)) <$> p_host p in
  Some (with_host (with_current_offset (with_entry_count p 0) 0) host, refs).

End Pool.
