(* ===== verification/PoolProofs.v ===== *)
(** The invariant of descriptor pools and its preservation by every operation. *)

From stdpp Require Import gmap.
From S2P Require Import Prelude Vma WinsysCs DescriptorLayout DescriptorProofs DescriptorPool.

(** * Reference counts *)

Definition count_handle (h : Z) (sets : list radv_descriptor_set) : Z :=
  Z.of_nat (length (filter (fun s => ds_handle s = h) sets)).

(** Every layout is referenced by its other owners, [base], and by the live sets. *)
Definition refs_ok (base : Z -> Z) (refs : layout_refs) (sets : list radv_descriptor_set) : Prop :=
  (forall h, 0 <= base h)
  /\ forall h, refs !! h = let n := base h + count_handle h sets in if n =? 0 then None else Some n.

Lemma count_handle_nonneg h l : 0 <= count_handle h l.
Proof. unfold count_handle. lia. Qed.

Lemma count_handle_app h l1 l2 : count_handle h (l1 ++ l2) = count_handle h l1 + count_handle h l2.
Proof. unfold count_handle. rewrite filter_app, length_app. lia. Qed.

Lemma count_handle_cons h s l :
  count_handle h (s :: l) = (if decide (ds_handle s = h) then 1 else 0) + count_handle h l.
Proof. unfold count_handle. rewrite filter_cons. case_decide; simpl; lia. Qed.

Lemma count_handle_delete h l i s : l !! i = Some s ->
  count_handle h (delete i l) = count_handle h l - (if decide (ds_handle s = h) then 1 else 0).
Proof.
  revert i. induction l as [|x l IH]; intros [|i] Hl; try done; simpl in *.
  - injection Hl as ->. rewrite count_handle_cons. lia.
  - rewrite !count_handle_cons, (IH _ Hl). lia.
Qed.

Lemma ref_spec base refs sets s :
  refs_ok base refs sets -> 1 <= base (ds_handle s) ->
  exists refs', vk_descriptor_set_layout_ref refs (ds_handle s) = Some refs'
    /\ refs_ok base refs' (sets ++ [s]).
Proof.
  intros [Hb Hr] H1. unfold vk_descriptor_set_layout_ref. rewrite Hr. simpl.
  pose proof (count_handle_nonneg (ds_handle s) sets).
  destruct (Z.eqb_spec (base (ds_handle s) + count_handle (ds_handle s) sets) 0); [lia|].
  cbn [mbind option_bind]. pass_assert. eexists. split; [done|]. split; [done|]. intros h. cbv zeta.
  rewrite count_handle_app, count_handle_cons. change (count_handle h []) with 0.
  destruct (decide (ds_handle s = h)) as [<-|Hne].
  - rewrite lookup_insert_eq. case_cmp; [lia|]. f_equal. lia.
  - rewrite lookup_insert_ne, Hr by done. simpl. by rewrite Z.add_0_r.
Qed.

Lemma unref_spec base refs sets i s :
  refs_ok base refs sets -> sets !! i = Some s ->
  exists refs', vk_descriptor_set_layout_unref refs (ds_handle s) = Some refs'
    /\ refs_ok base refs' (delete i sets).
Proof.
  intros [Hb Hr] Hi. unfold vk_descriptor_set_layout_unref. rewrite Hr. simpl.
  pose proof (count_handle_delete (ds_handle s) sets i s Hi) as Hd. rewrite decide_True in Hd by done.
  pose proof (count_handle_nonneg (ds_handle s) (delete i sets)). specialize (Hb (ds_handle s)) as Hb'.
  destruct (Z.eqb_spec (base (ds_handle s) + count_handle (ds_handle s) sets) 0); [lia|].
  cbn [mbind option_bind]. pass_assert. eexists. split; [done|]. split; [done|]. intros h. cbv zeta.
  rewrite (count_handle_delete h sets i s Hi).
  destruct (decide (ds_handle s = h)) as [<-|Hne].
  - replace (base (ds_handle s) + (count_handle (ds_handle s) sets - 1))
      with (base (ds_handle s) + count_handle (ds_handle s) sets - 1) by lia.
    case_cmp; [by rewrite lookup_delete_eq|by rewrite lookup_insert_eq].
  - rewrite Z.sub_0_r. case_cmp; [rewrite lookup_delete_ne by done|rewrite lookup_insert_ne by done]; apply Hr.
Qed.

(** * The pool *)

(** The heap addresses of a set. *)
Definition covers (s : radv_descriptor_set) (a : Z) : Prop :=
  ds_offset s + RADV_POOL_HEAP_OFFSET <= a < ds_offset s + RADV_POOL_HEAP_OFFSET + ds_size s.

Definition covered (sets : list radv_descriptor_set) (a : Z) : Prop := Exists (fun s => covers s a) sets.

Definition in_pool (p : radv_descriptor_pool) (s : radv_descriptor_set) : Prop :=
  0 <= ds_mapped s /\ 0 <= ds_size s /\ ds_mapped s + ds_size s <= p_size p.

Definition sets_disjoint (sets : list radv_descriptor_set) : Prop :=
  forall i j s t, i <> j -> sets !! i = Some s -> sets !! j = Some t ->
    disjoint_ranges (ds_mapped s) (ds_size s) (ds_mapped t) (ds_size t).

(** A pool that only bumps its offsets. *)
Definition linear_ok (p : radv_descriptor_pool) (h : host_memory) : Prop :=
  p_heap p = None /\ hm_base h <= hm_ptr h <= hm_end h /\ 0 <= p_current_offset p <= p_size p
  /\ Forall (fun s => ds_mapped s + ds_size s <= p_current_offset p) (p_sets p).

(** The offset of a set in a heap pool; an empty set is at the start. *)
Definition placed_set (s : radv_descriptor_set) : Prop :=
  ds_offset s = ds_mapped s /\ (ds_size s = 0 -> ds_mapped s = 0).

(** A pool whose free memory is exactly what its heap says. *)
Definition heap_ok (p : radv_descriptor_pool) : Prop :=
  NoDup (ds_ptr <$> p_sets p) /\ p_current_offset p = 0
  /\ Forall placed_set (p_sets p)
  /\ if p_size p =? 0 then p_heap p = None
     else exists heap, p_heap p = Some heap /\ heap_wf heap /\ alloc_high heap = false
            /\ nospan_shift heap = 0
            /\ forall a, is_free heap a <->
                 RADV_POOL_HEAP_OFFSET <= a < RADV_POOL_HEAP_OFFSET + p_size p /\ ~ covered (p_sets p) a.

Record pool_ok (p : radv_descriptor_pool) : Prop := {
  po_size : 0 <= p_size p <= W32;
  po_count : p_entry_count p = Z.of_nat (length (p_sets p));
  po_max : p_entry_count p <= p_max_entry_count p < W32;
  po_bounds : Forall (in_pool p) (p_sets p);
  po_disjoint : sets_disjoint (p_sets p);
  po_kind : match p_host p with Some h => linear_ok p h | None => heap_ok p end
}.

(** The host memory of a linear pool. *)
Definition host_range (p : radv_descriptor_pool) : option (Z * Z) :=
  (fun h => (hm_base h, hm_end h)) <$> p_host p.

(** What no allocation or release changes. *)
Definition same_pool (p p' : radv_descriptor_pool) : Prop :=
  p_bo_va p' = p_bo_va p /\ p_size p' = p_size p /\ p_max_entry_count p' = p_max_entry_count p
  /\ (p_host p' = None <-> p_host p = None) /\ host_range p' = host_range p.

Lemma same_pool_refl p : same_pool p p.
Proof. done. Qed.

Lemma same_pool_trans p q r : same_pool p q -> same_pool q r -> same_pool p r.
Proof. unfold same_pool. intros (?&?&?&?&?) (?&?&?&?&?). split_and!; try congruence; tauto. Qed.

Lemma covered_cons s l a : covered (s :: l) a <-> covers s a \/ covered l a.
Proof. apply Exists_cons. Qed.

Lemma covered_app l1 l2 a : covered (l1 ++ l2) a <-> covered l1 a \/ covered l2 a.
Proof. apply Exists_app. Qed.

Lemma covered_dec l a : covered l a \/ ~ covered l a.
Proof.
  induction l as [|s l IH]; [right; inversion 1|]. rewrite covered_cons.
  assert (covers s a \/ ~ covers s a) by (unfold covers; lia). tauto.
Qed.

Lemma sets_disjoint_snoc sets s :
  sets_disjoint sets ->
  Forall (fun t => disjoint_ranges (ds_mapped t) (ds_size t) (ds_mapped s) (ds_size s)) sets ->
  sets_disjoint (sets ++ [s]).
Proof.
  intros Hd Hf i j x y Hne Hi Hj. rewrite Forall_lookup in Hf.
  apply lookup_snoc_Some in Hi as [[Hi1 Hi]|[-> <-]]; apply lookup_snoc_Some in Hj as [[Hj1 Hj]|[-> <-]].
  - by eapply Hd.
  - by eapply Hf.
  - destruct (Hf _ _ Hj); [by right|by left].
  - done.
Qed.

Lemma lookup_delete_inv {A} (l : list A) i j x : delete i l !! j = Some x ->
  exists j', l !! j' = Some x /\ j' <> i /\ j' = (if (j <? i)%nat then j else S j).
Proof.
  destruct (Nat.ltb_spec j i).
  - rewrite list_lookup_delete_lt by done. intros ?. exists j. split_and!; [done|lia|done].
  - rewrite list_lookup_delete_ge by done. intros ?. exists (S j). split_and!; [done|lia|done].
Qed.

Lemma sets_disjoint_delete sets i : sets_disjoint sets -> sets_disjoint (delete i sets).
Proof.
  intros Hd j k s t Hne (j'&Hj&_&Ej)%lookup_delete_inv (k'&Hk&_&Ek)%lookup_delete_inv.
  eapply (Hd j' k'); [|done|done].
  destruct (Nat.ltb_spec j i), (Nat.ltb_spec k i); lia.
Qed.

#[global] Instance covered_Permutation : Proper ((≡ₚ) ==> eq ==> iff) covered.
Proof. intros l l' Hp a ? <-. unfold covered. by rewrite Hp. Qed.

Lemma covered_delete sets i s a :
  sets !! i = Some s -> covered sets a <-> covers s a \/ covered (delete i sets) a.
Proof.
  intros Hi. rewrite <- covered_cons. apply covered_Permutation; [by apply delete_Permutation|done].
Qed.

(** Two sets of a heap pool with disjoint memory share no heap address. *)
Lemma disjoint_covers p sets i s a :
  Forall (in_pool p) sets -> Forall placed_set sets -> sets_disjoint sets ->
  sets !! i = Some s -> covers s a -> ~ covered (delete i sets) a.
Proof.
  intros Hin Ho Hd Hi Hc (t&Ht&Hct)%Exists_exists. apply list_elem_of_lookup in Ht as [j Ht].
  apply lookup_delete_inv in Ht as (j'&Hj&Hne&_). rewrite Forall_lookup in Hin, Ho.
  destruct (Ho _ _ Hi) as [? _]. destruct (Ho _ _ Hj) as [? _]. destruct (Hin _ _ Hi), (Hin _ _ Hj).
  destruct (Hd i j' s t ltac:(done) Hi Hj); unfold covers in *; lia.
Qed.

(** The sets of a heap pool determine it. *)
Lemma heap_pool_ext p p' :
  pool_ok p -> pool_ok p' -> p_host p = None -> same_pool p p' -> p_sets p' = p_sets p ->
  p' = pool_with_mem p (p_mem p').
Proof.
  intros [_ C1 _ _ _ K1] [_ C2 _ _ _ K2] Hh (E1&E2&E3&E4) Es.
  assert (p_host p' = None) as Hh' by (by apply E4). rewrite Hh in K1. rewrite Hh' in K2.
  destruct K1 as (_&F1&_&H1), K2 as (_&F2&_&H2). rewrite E2 in H2. rewrite Es in C2, H2.
  assert (p_heap p' = p_heap p) as Ehp.
  { destruct (p_size p =? 0); [by rewrite H1, H2|].
    destruct H1 as (h1&->&W1&A1&N1&I1), H2 as (h2&->&W2&A2&N2&I2).
    f_equal. apply heap_ext; [done|done| |congruence|congruence]. intros a. by rewrite I1, I2. }
  destruct p, p'. unfold pool_with_mem. simpl in *. congruence.
Qed.

(** * Allocation *)

Lemma align_range x a : 0 <= align x a < W32.
Proof.
  unfold align, ALIGN_POT. change W32 with (2 ^ 32).
  set (y := (x + a - 1) mod 2 ^ 32). set (z := Z.lnot (a - 1) mod 2 ^ 32).
  assert (y = Z.land y (Z.ones 32)) as ->.
  { rewrite Z.land_ones by lia. symmetry. apply Z.mod_small, Z.mod_pos_bound. lia. }
  rewrite (Z.land_comm y), <- Z.land_assoc, Z.land_comm, Z.land_ones by lia.
  apply Z.mod_pos_bound. lia.
Qed.

(** The set an allocation adds, and what it keeps of the pool. *)
Definition added (p p' : radv_descriptor_pool) (s : radv_descriptor_set) : Prop :=
  pool_ok p' /\ same_pool p p' /\ p_sets p' = p_sets p ++ [s].

(** A set structure the pool can take: its size is a 32-bit value, and for a heap pool its
    address is new and the heap exists. *)
Definition entry_ok (p : radv_descriptor_pool) (size : Z) (ptr : Z) : Prop :=
  0 <= size < W32
  /\ (p_host p = None -> (p_size p = 0 -> size = 0) /\ ptr ∉ ds_ptr <$> p_sets p).

Lemma snoc_count p s : pool_ok p -> p_entry_count p <> p_max_entry_count p ->
  u32 (p_entry_count p + 1) = Z.of_nat (length (p_sets p ++ [s]))
  /\ u32 (p_entry_count p + 1) <= p_max_entry_count p.
Proof. intros [_ Hc Hm _ _ _] Hne. rewrite length_app. simpl. unwrap. lia. Qed.

Lemma alloc_linear p h set :
  pool_ok p -> p_host p = Some h -> p_entry_count p <> p_max_entry_count p -> 0 <= ds_size set < W32 ->
  exists r p', radv_alloc_descriptor_pool_entry p set = Some (r, p')
    /\ ((r = VK_ERROR_OUT_OF_POOL_MEMORY /\ p' = p /\ p_size p < p_current_offset p + ds_size set)
        \/ (r = VK_SUCCESS /\ p_host p' = Some h /\ p_mem p' = p_mem p
            /\ p_current_offset p' = p_current_offset p + ds_size set
            /\ exists s, added p p' s /\ ds_ptr s = ds_ptr set /\ ds_handle s = ds_handle set
                 /\ ds_layout s = ds_layout set /\ ds_size s = ds_size set
                 /\ ds_mapped s = p_current_offset p)).
Proof.
  intros Hok Hh Hne Hs. pose proof Hok as [Hsz Hc Hm Hb Hd Hk]. rewrite Hh in Hk.
  destruct Hk as (Hhp&Hhm&Hco&Hcur). unfold radv_alloc_descriptor_pool_entry. rewrite Hh.
  destruct (snoc_count p set Hok Hne) as [Hc1 Hc2].
  rewrite u64_small by (unfold_words; lia).
  destruct (Z.ltb_spec (p_size p) (p_current_offset p + ds_size set)); eexists _, _.
  { split; [done|]. left. done. }
  split; [done|]. right. cbn [p_host p_mem with_entry_count with_sets with_current_offset p_sets p_current_offset].
  split_and!; [done|done|done|done|].
  exists (DSet (ds_ptr set) (ds_handle set) (ds_layout set) (ds_offset set) (ds_size set) (p_current_offset p)
        match p_bo_va p with Some va => u64 (va + p_current_offset p) | None => 0 end).
  split_and!; [|done..].
  unfold added, same_pool. simpl. split_and!; try done. constructor; simpl.
  - done.
  - rewrite Hc1, !length_app. done.
  - lia.
  - apply Forall_app. split; [done|]. apply Forall_singleton. unfold in_pool. simpl. lia.
  - apply sets_disjoint_snoc; [done|]. rewrite Forall_forall in Hcur |- *. intros t Ht. simpl. left. by apply Hcur.
  - rewrite Hh. unfold linear_ok. simpl. split; [done|]. split; [done|]. split; [lia|]. apply Forall_app. split.
    + eapply Forall_impl; [exact Hcur|]. simpl. intros. lia.
    + apply Forall_singleton. simpl. lia.
Qed.

(** A free range of the heap, as a set, keeps the invariant. *)
Lemma heap_added p heap heap' s :
  pool_ok p -> p_host p = None -> p_entry_count p <> p_max_entry_count p -> p_size p <> 0 ->
  p_heap p = Some heap -> carved heap heap' (ds_offset s + RADV_POOL_HEAP_OFFSET) (ds_size s) ->
  0 < ds_size s -> ds_mapped s = ds_offset s -> ds_ptr s ∉ ds_ptr <$> p_sets p ->
  added p (with_entry_count (with_sets (with_heap p (Some heap')) (p_sets p ++ [s]))
                            (u32 (p_entry_count p + 1))) s.
Proof.
  intros Hok Hh Hne Hz Hhp (Hw'&Hfree&Hiff&_&Hah'&Hns') Hs Hmo Hnew.
  destruct (snoc_count p s Hok Hne) as [Hc1 Hc2]. destruct Hok as [Hsz Hc Hm Hb Hd Hk].
  rewrite Hh in Hk. destruct Hk as (Hnd&Hcur&Ho&Hk). rewrite (proj2 (Z.eqb_neq _ _) Hz) in Hk.
  destruct Hk as (heap0&E&Hw&Hah&Hns&Hf). rewrite Hhp in E. injection E as <-.
  assert (forall a, covers s a ->
            RADV_POOL_HEAP_OFFSET <= a < RADV_POOL_HEAP_OFFSET + p_size p /\ ~ covered (p_sets p) a) as Hcov.
  { intros a Ha. apply Hf, Hfree. unfold covers in Ha. lia. }
  pose proof (Hcov (ds_offset s + RADV_POOL_HEAP_OFFSET) ltac:(unfold covers; lia)) as [Hlo _].
  pose proof (Hcov (ds_offset s + RADV_POOL_HEAP_OFFSET + ds_size s - 1) ltac:(unfold covers; lia)) as [Hhi _].
  unfold added, same_pool. simpl. split_and!; try done. constructor; simpl.
  - done.
  - done.
  - lia.
  - apply Forall_app. split; [done|]. apply Forall_singleton. unfold in_pool. simpl. lia.
  - apply sets_disjoint_snoc; [done|]. rewrite Forall_forall in Hb, Ho |- *. intros t Ht.
    destruct (Hb t Ht) as (?&?&?). destruct (Ho t Ht). unfold disjoint_ranges.
    destruct (Z.le_gt_cases (ds_mapped t + ds_size t) (ds_mapped s)); [by left|].
    destruct (Z.le_gt_cases (ds_mapped s + ds_size s) (ds_mapped t)); [by right|]. exfalso.
    destruct (Z.eq_dec (ds_size t) 0); [lia|].
    apply (proj2 (Hcov (Z.max (ds_offset s) (ds_offset t) + RADV_POOL_HEAP_OFFSET)
                    ltac:(unfold covers; lia))).
    apply Exists_exists. exists t. split; [done|]. unfold covers. lia.
  - rewrite Hh. unfold heap_ok. simpl. split_and!.
    + rewrite fmap_app. apply NoDup_app. split_and!; [done| |apply NoDup_singleton].
      intros x Hx Hx'. apply list_elem_of_singleton in Hx' as ->. done.
    + done.
    + apply Forall_app. split; [done|]. apply Forall_singleton. unfold placed_set. lia.
    + rewrite (proj2 (Z.eqb_neq _ _) Hz). exists heap'. split_and!; [done|done|congruence|congruence|].
      intros a. rewrite Hiff, Hf, covered_app, covered_cons.
      assert (~ covered [] a) by (inversion 1). unfold covers at 1. tauto.
Qed.

(** An empty set needs no memory. *)
Lemma heap_added_empty p s :
  pool_ok p -> p_host p = None -> p_entry_count p <> p_max_entry_count p ->
  ds_size s = 0 -> ds_mapped s = 0 -> ds_offset s = 0 -> ds_ptr s ∉ ds_ptr <$> p_sets p ->
  added p (with_entry_count (with_sets p (p_sets p ++ [s])) (u32 (p_entry_count p + 1))) s.
Proof.
  intros Hok Hh Hne Hs Hmo Hof Hnew.
  destruct (snoc_count p s Hok Hne) as [Hc1 Hc2]. destruct Hok as [Hsz Hc Hm Hb Hd Hk].
  rewrite Hh in Hk. destruct Hk as (Hnd&Hcur&Ho&Hk).
  unfold added, same_pool. simpl. split_and!; try done. constructor; simpl.
  - done.
  - done.
  - lia.
  - apply Forall_app. split; [done|]. apply Forall_singleton. unfold in_pool. simpl. lia.
  - apply sets_disjoint_snoc; [done|]. rewrite Forall_forall in Hb |- *. intros t Ht.
    destruct (Hb t Ht) as (?&?&?). right. lia.
  - rewrite Hh. unfold heap_ok. simpl. split_and!.
    + rewrite fmap_app. apply NoDup_app. split_and!; [done| |apply NoDup_singleton].
      intros x Hx Hx'. apply list_elem_of_singleton in Hx' as ->. done.
    + done.
    + apply Forall_app. split; [done|]. apply Forall_singleton. unfold placed_set. lia.
    + destruct (p_size p =? 0); [done|]. destruct Hk as (heap&->&Hw&Hah&Hns&Hf). exists heap.
      split_and!; try done. intros a. rewrite Hf, covered_app, covered_cons.
      assert (~ covered [] a) by (inversion 1). assert (~ covers s a) by (unfold covers; lia). tauto.
Qed.

(** The new set has the structure of the request. *)
Definition like (set s : radv_descriptor_set) : Prop :=
  ds_ptr s = ds_ptr set /\ ds_handle s = ds_handle set /\ ds_layout s = ds_layout set
  /\ ds_size s = ds_size set.

Lemma alloc_heap p set :
  pool_ok p -> p_host p = None -> p_entry_count p <> p_max_entry_count p ->
  entry_ok p (ds_size set) (ds_ptr set) -> ds_offset set = 0 ->
  exists r p', radv_alloc_descriptor_pool_entry p set = Some (r, p')
    /\ (((r = VK_ERROR_OUT_OF_POOL_MEMORY \/ r = VK_ERROR_FRAGMENTED_POOL) /\ p' = p)
        \/ (r = VK_SUCCESS /\ p_mem p' = p_mem p /\ exists s, added p p' s /\ like set s)).
Proof.
  intros Hok Hh Hne [Hs He] Hof. destruct (He Hh) as [Hz Hnew].
  pose proof Hok as [Hsz Hc Hm Hb Hd Hk]. rewrite Hh in Hk. destruct Hk as (Hnd&Hcur&Ho&Hk).
  unfold radv_alloc_descriptor_pool_entry. rewrite Hh.
  destruct (Z.eqb_spec (ds_size set) 0) as [H0|H0].
  { eexists _, _. split; [done|]. right. split_and!; [done|done|].
    eexists. split; [by apply heap_added_empty|done]. }
  assert (p_size p <> 0) as Hp0 by tauto. rewrite (proj2 (Z.eqb_neq _ _) Hp0) in Hk.
  destruct Hk as (heap&Ehp&Hw&Hah&Hns&Hf). rewrite Ehp. cbn [mbind option_bind].
  assert (alloc_request heap (ds_size set) 32) as Hreq by (unfold alloc_request; lia).
  destruct (util_vma_heap_alloc_cases _ _ _ Hw Hreq) as (r&heap'&->&Hr). cbn [mbind option_bind].
  destruct Hr as [(->&->&_)|(?&?&?&_&_&_&Hcv&_)].
  { simpl. eexists _, _. split; [done|]. left. split; [|done]. case_cmp; auto. }
  pose proof Hcv as (_&Hfree&_).
  pose proof (proj1 (Hf r) (Hfree r ltac:(lia))) as [Hlo _].
  pose proof (proj1 (Hf (r + ds_size set - 1)) (Hfree (r + ds_size set - 1) ltac:(lia))) as [Hhi _].
  unfold RADV_POOL_HEAP_OFFSET in *. destruct (Z.eqb_spec r 0); [lia|].
  rewrite u64_small by (unfold_words; lia). rewrite cassert_bind by lia.
  rewrite u32_small by (unfold_words; lia). eexists _, _. split; [done|]. right. split_and!; [done|done|].
  exists (DSet (ds_ptr set) (ds_handle set) (ds_layout set) (r - 32) (ds_size set) (r - 32)
            match p_bo_va p with Some va => u64 (va + (r - 32)) | None => 0 end).
  split; [|done]. apply (heap_added p heap heap'); try done; simpl; [|lia].
  unfold RADV_POOL_HEAP_OFFSET. by rewrite Z.sub_add.
Qed.

(** * Destruction *)

Lemma find_ptr sets i s :
  NoDup (ds_ptr <$> sets) -> sets !! i = Some s ->
  list_find (fun t => ds_ptr t = ds_ptr s) sets = Some (i, s).
Proof.
  intros Hnd Hi. apply list_find_Some. split_and!; [done|done|]. intros j t Hj Hlt Heq.
  assert (j = i) as ->; [|lia]. eapply (NoDup_lookup (ds_ptr <$> sets)); [done| |];
    rewrite list_lookup_fmap; [by rewrite Hj|by rewrite Hi, Heq].
Qed.

Lemma NoDup_delete {A} (l : list A) i : NoDup l -> NoDup (delete i l).
Proof. intros H. eapply sublist_NoDup; [done|]. apply sublist_delete. Qed.

Lemma fmap_delete {A B} (f : A -> B) (l : list A) i : f <$> delete i l = delete i (f <$> l).
Proof. revert i. induction l as [|x l IH]; intros [|i]; simpl; try done. by rewrite IH. Qed.

Lemma Forall_delete' {A} (P : A -> Prop) (l : list A) i : Forall P l -> Forall P (delete i l).
Proof. intros H. by apply Forall_delete. Qed.

(** Dropping a set from a heap pool, given the heap its memory was returned to. *)
Lemma heap_dropped p i s heap :
  pool_ok p -> p_host p = None -> p_sets p !! i = Some s ->
  (if ds_size s =? 0 then heap = p_heap p
   else exists h h', p_heap p = Some h /\ heap = Some h'
          /\ released h h' (ds_offset s + RADV_POOL_HEAP_OFFSET) (ds_size s)) ->
  let p' := with_entry_count (with_heap (with_sets p (delete i (p_sets p))) heap) (u32 (p_entry_count p - 1)) in
  pool_ok p' /\ same_pool p p'.
Proof.
  intros [Hsz Hc Hm Hb Hd Hk] Hh Hi Hhp. rewrite Hh in Hk. destruct Hk as (Hnd&Hcur&Ho&Hk).
  assert (length (delete i (p_sets p)) = (length (p_sets p) - 1)%nat) as Hlen
    by (apply length_delete; by eexists).
  pose proof (lookup_lt_Some _ _ _ Hi) as Hlt.
  simpl. split; [|by unfold same_pool]. constructor; simpl.
  - done.
  - rewrite Hlen. unwrap. lia.
  - unwrap. lia.
  - by apply Forall_delete'.
  - by apply sets_disjoint_delete.
  - rewrite Hh. unfold heap_ok. simpl. split_and!.
    + rewrite fmap_delete. by apply NoDup_delete.
    + done.
    + by apply Forall_delete'.
    + pose proof Hb as Hb'. rewrite Forall_lookup in Hb'. destruct (Hb' _ _ Hi) as (?&?&?).
      pose proof (proj1 (Forall_lookup _ _) Ho _ _ Hi) as [Hoff _].
      destruct (Z.eqb_spec (ds_size s) 0) as [E0|E0].
      * subst heap. destruct (p_size p =? 0); [done|]. destruct Hk as (h&->&Hw&Hah&Hns&Hf). exists h.
        split_and!; try done. intros a. rewrite Hf, (covered_delete _ _ _ _ Hi).
        assert (~ covers s a) by (unfold covers; lia). tauto.
      * destruct Hhp as (h0&h'&E&->&Hw'&Hf'&_&Hah'&Hns').
        destruct (Z.eqb_spec (p_size p) 0); [lia|]. destruct Hk as (h&E'&Hw&Hah&Hns&Hf).
        rewrite E in E'. injection E' as ->. exists h'. split_and!; [done|done|congruence|congruence|].
        intros a. rewrite Hf', Hf, (covered_delete _ _ _ _ Hi).
        pose proof (disjoint_covers p (p_sets p) i s a Hb Ho Hd Hi) as Hdc. unfold covers in *.
        unfold RADV_POOL_HEAP_OFFSET in *.
        assert (32 <= a < 32 + p_size p \/ ~ (ds_offset s + 32 <= a < ds_offset s + 32 + ds_size s)) by lia.
        assert ((ds_offset s + 32 <= a < ds_offset s + 32 + ds_size s) \/
                ~ (ds_offset s + 32 <= a < ds_offset s + 32 + ds_size s)) by lia. tauto.
Qed.

Lemma destroy_spec base p refs i s :
  pool_ok p -> p_host p = None -> refs_ok base refs (p_sets p) -> p_sets p !! i = Some s ->
  exists p' refs', radv_descriptor_set_destroy p refs (ds_ptr s) = Some (p', refs')
    /\ pool_ok p' /\ same_pool p p' /\ p_sets p' = delete i (p_sets p)
    /\ refs_ok base refs' (p_sets p').
Proof.
  intros Hok Hh Hr Hi. unfold radv_descriptor_set_destroy. rewrite bool_decide_eq_true_2 by done.
  cbn [cassert mbind option_bind].
  pose proof Hok as [Hsz _ _ Hb Hd Hk]. rewrite Hh in Hk. destruct Hk as (Hnd&_&Ho&Hk).
  rewrite (find_ptr _ _ _ Hnd Hi). cbn [mbind option_bind].
  destruct (unref_spec base refs _ _ _ Hr Hi) as (refs'&->&Hr'). cbn [mbind option_bind].
  rewrite Forall_lookup in Hb. destruct (Hb _ _ Hi) as (H1&H2&H3).
  pose proof (proj1 (Forall_lookup _ _) Ho _ _ Hi) as [Hoff _].
  pose proof (heap_dropped p i s) as Hdrop.
  destruct (Z.eqb_spec (ds_size s) 0) as [E0|E0].
  { destruct (Hdrop (p_heap p) Hok Hh Hi eq_refl) as [A B]. cbn [mbind option_bind].
    eexists _, _. split; [done|]. split; [by destruct p|]. by split_and!. }
  destruct (Z.eqb_spec (p_size p) 0); [lia|]. destruct Hk as (h&Eh&Hw&Hah&Hns&Hf).
  simpl p_heap. rewrite Eh. cbn [mbind option_bind]. unfold RADV_POOL_HEAP_OFFSET in *.
  destruct (util_vma_heap_free_spec h (ds_offset s + 32) (ds_size s)) as (h'&->&Hrel);
    [done|lia|lia|unfold_words; lia| |].
  { intros a Ha. rewrite Hf. intros [_ Hn]. apply Hn. apply Exists_exists. exists s.
    split; [by eapply list_elem_of_lookup_2|]. exact Ha. }
  cbn [mbind option_bind]. destruct (Hdrop (Some h') Hok Hh Hi) as [A B]; [by exists h, h'|].
  eexists _, _. split; [done|]. by split_and!.
Qed.
