(* ===== verification/PoolOps.v ===== *)
(** Set creation, vkAllocateDescriptorSets, vkFreeDescriptorSets, reset and pool creation
    preserve the pool invariant. *)

From stdpp Require Import gmap.
From S2P Require Import Prelude Vma WinsysCs DescriptorLayout DescriptorProofs DescriptorPool PoolProofs.

(** The immutable samplers of every binding lie in the layout structure. *)
Definition samplers_room (samplers_base : Z -> Z) (l : radv_descriptor_set_layout) : Prop :=
  forall i b, l_binding l !! i = Some b -> bl_immutable_samplers_offset b <> 0 ->
    let first := (bl_immutable_samplers_offset b - samplers_base (l_binding_count l)) / 4 in
    (Z.to_nat first + 4 * Z.to_nat (bl_array_size b) <= length (l_samplers l))%nat.

Lemma write_samplers_total n : forall mem base offset stride samplers,
  (4 * n <= length samplers)%nat -> is_Some (write_samplers mem base offset stride samplers n).
Proof.
  induction n as [|n IH]; intros mem base offset stride samplers Hl; cbn [write_samplers]; [by eexists|].
  rewrite cassert_bind by (apply Nat.leb_le; lia). apply IH. rewrite length_drop. lia.
Qed.

Section Ops.
Context (fmask : bool) (samplers_base : Z -> Z).

Lemma write_immutable_total layout base : samplers_room samplers_base layout ->
  forall l mem, is_Some (write_immutable_samplers fmask samplers_base layout base mem l).
Proof.
  intros Hroom. induction l as [|i l IH]; intros mem; cbn [write_immutable_samplers]; [by eexists|].
  assert (is_Some (write_binding_samplers fmask samplers_base layout base mem i)) as [mem' ->]; [|apply IH].
  unfold write_binding_samplers. destruct (l_binding layout !! Z.of_nat i) as [b|] eqn:E; [|by eexists].
  simpl. destruct (Z.eqb_spec (bl_immutable_samplers_offset b) 0); [by eexists|].
  apply write_samplers_total. rewrite length_drop. specialize (Hroom _ _ E ltac:(done)). simpl in Hroom. lia.
Qed.

Context (set_bytes range_bytes : Z).

Lemma with_host_ok p h h' :
  pool_ok p -> p_host p = Some h -> hm_base h = hm_base h' -> hm_end h = hm_end h' ->
  hm_ptr h <= hm_ptr h' <= hm_end h' -> pool_ok (with_host p (Some h')).
Proof.
  intros [? ? ? ? ? Hk] Hh H1 H2 H3. rewrite Hh in Hk. constructor; simpl; try done.
  destruct Hk as (?&?&?&?). unfold linear_ok. simpl. split_and!; try done; lia.
Qed.

Lemma pool_with_mem_ok p m : pool_ok p -> pool_ok (pool_with_mem p m).
Proof. by intros [? ? ? ? ? ?]. Qed.

(** The set a request asks for. *)
Definition asked (handle : Z) (layout : radv_descriptor_set_layout) (variable : Z) (s : radv_descriptor_set)
  : Prop :=
  ds_handle s = handle /\ ds_layout s = layout /\ ds_size s = descriptor_set_size layout variable.

(** The memory for the structure of a set. *)
Definition struct_bytes (layout : radv_descriptor_set_layout) : Z :=
  u32 (set_bytes + range_bytes * l_dynamic_offset_count layout).

(** A set that can be created in the pool. *)
Definition set_ok (base : Z -> Z) (p : radv_descriptor_pool) (handle : Z)
    (layout : radv_descriptor_set_layout) (variable : Z) (zalloc : option Z) : Prop :=
  1 <= base handle /\ samplers_room samplers_base layout
  /\ (p_host p = None -> (p_size p = 0 -> descriptor_set_size layout variable = 0)
                         /\ forall ptr, zalloc = Some ptr -> ptr ∉ ds_ptr <$> p_sets p).

Notation create := (radv_descriptor_set_create fmask samplers_base set_bytes range_bytes).

(** Creation in a linear pool: it fails exactly when a limit of the pool is reached. *)
Lemma create_linear base p refs h handle layout variable zalloc :
  pool_ok p -> p_host p = Some h -> refs_ok base refs (p_sets p) ->
  set_ok base p handle layout variable zalloc ->
  exists r o p' refs', create p refs handle layout variable zalloc = Some (r, o, p', refs')
    /\ ((r = VK_ERROR_OUT_OF_POOL_MEMORY /\ o = None /\ p' = p /\ refs' = refs
         /\ (p_entry_count p = p_max_entry_count p \/ hm_end h - hm_ptr h < struct_bytes layout
             \/ p_size p < p_current_offset p + descriptor_set_size layout variable))
        \/ (r = VK_SUCCESS /\ refs_ok base refs' (p_sets p')
            /\ p_host p' = Some (Host (hm_base h) (hm_ptr h + struct_bytes layout) (hm_end h))
            /\ p_current_offset p' = p_current_offset p + descriptor_set_size layout variable
            /\ exists s, o = Some (ds_ptr s) /\ added p p' s /\ asked handle layout variable s)).
Proof.
  intros Hok Hh Hr (Hb&Hroom&_). unfold radv_descriptor_set_create. rewrite Hh.
  fold (struct_bytes layout). destruct (Z.eqb_spec (p_entry_count p) (p_max_entry_count p)).
  { eexists _, _, _, _. split; [done|]. left. split_and!; try done. by left. }
  destruct (Z.ltb_spec (hm_end h - hm_ptr h) (struct_bytes layout)).
  { eexists _, _, _, _. split; [done|]. left. split_and!; try done. right. by left. }
  set (h1 := Host (hm_base h) (hm_ptr h + struct_bytes layout) (hm_end h)).
  set (set := DSet (hm_ptr h) handle layout 0 (descriptor_set_size layout variable) 0 0).
  assert (0 <= struct_bytes layout) as Hpos by apply u32_range.
  assert (pool_ok (with_host p (Some h1))) as Hok1.
  { eapply with_host_ok; [done|done|done|done|]. subst h1. simpl. lia. }
  destruct (alloc_linear (with_host p (Some h1)) h1 set) as (r&p2&E&[(->&->&Hf)|(->&Hh2&Hm2&Hc2&s&Ha&Hs)]);
    [done|done|done|apply align_range| |]; rewrite E; cbn [mbind option_bind];
    [rewrite bool_decide_eq_false_2 by done|rewrite bool_decide_eq_true_2 by done].
  - eexists _, _, _, _. split; [done|]. left. split_and!; try done; [|by right; right].
    simpl. replace (hm_ptr h + struct_bytes layout - struct_bytes layout) with (hm_ptr h) by lia.
    destruct p, h. simpl in *. unfold with_host. simpl. by rewrite Hh.
  - destruct Ha as (Hok2&Hsame&Hsets). destruct Hs as (Hs1&Hs2&Hs3&Hs4&_).
    set (bs := default 0 (ds_mapped <$> last (p_sets p2)) / 4).
    assert (is_Some (if l_has_immutable_samplers layout
                     then write_immutable_samplers fmask samplers_base layout bs (p_mem p2)
                            (seq 0 (Z.to_nat (l_binding_count layout)))
                     else Some (p_mem p2))) as [mem ->].
    { destruct (l_has_immutable_samplers layout); [by apply write_immutable_total|by eexists]. }
    cbn [mbind option_bind]. destruct (ref_spec base refs (p_sets p) s) as (refs'&Er&Hr'); [done|by rewrite Hs2|].
    rewrite Hs2 in Er. change (ds_handle set) with handle in Er. rewrite Er. cbn [mbind option_bind].
    eexists _, _, _, _. split; [done|]. right. simpl in Hsets. split_and!; simpl; try done.
    + by rewrite Hsets.
    + exists s. split; [by rewrite Hs1|]. split; [|done].
      split; [by apply pool_with_mem_ok|]. split; [|done]. destruct Hsame as (?&?&?&?&?). unfold same_pool. simpl in *.
      split_and!; try done; [by rewrite Hh, Hh2|]. unfold host_range. simpl. by rewrite Hh, Hh2.
Qed.

(** Creation in a heap pool. *)
Lemma create_heap base p refs handle layout variable zalloc :
  pool_ok p -> p_host p = None -> refs_ok base refs (p_sets p) ->
  set_ok base p handle layout variable zalloc ->
  exists r o p' refs', create p refs handle layout variable zalloc = Some (r, o, p', refs')
    /\ ((r <> VK_SUCCESS /\ o = None /\ p' = p /\ refs' = refs)
        \/ (r = VK_SUCCESS /\ refs_ok base refs' (p_sets p')
            /\ exists s, o = Some (ds_ptr s) /\ zalloc = Some (ds_ptr s)
                 /\ added p p' s /\ asked handle layout variable s)).
Proof.
  intros Hok Hh Hr (Hb&Hroom&Hnew). destruct (Hnew Hh) as [Hz Hptr]. unfold radv_descriptor_set_create. rewrite Hh.
  destruct (Z.eqb_spec (p_entry_count p) (p_max_entry_count p)).
  { eexists _, _, _, _. split; [done|]. by left. }
  destruct zalloc as [ptr|].
  2:{ eexists _, _, _, _. split; [done|]. by left. }
  set (set := DSet ptr handle layout 0 (descriptor_set_size layout variable) 0 0).
  destruct (alloc_heap p set) as (r&p2&E&[([->| ->]&->)|(->&Hm2&s&Ha&Hs)]);
    [done|done|done| |done| | |]; [|rewrite E; cbn [mbind option_bind]..].
  { split; [apply align_range|]. intros _. split; [done|]. by apply Hptr. }
  1, 2: rewrite bool_decide_eq_false_2 by done; eexists _, _, _, _; (split; [done|]); left;
    rewrite Hh; done.
  rewrite bool_decide_eq_true_2 by done.
  destruct Ha as (Hok2&Hsame&Hsets). destruct Hs as (Hs1&Hs2&Hs3&Hs4).
  set (bs := default 0 (ds_mapped <$> last (p_sets p2)) / 4).
  assert (is_Some (if l_has_immutable_samplers layout
                   then write_immutable_samplers fmask samplers_base layout bs (p_mem p2)
                          (seq 0 (Z.to_nat (l_binding_count layout)))
                   else Some (p_mem p2))) as [mem ->].
  { destruct (l_has_immutable_samplers layout); [by apply write_immutable_total|by eexists]. }
  cbn [mbind option_bind]. destruct (ref_spec base refs (p_sets p) s) as (refs'&Er&Hr'); [done|by rewrite Hs2|].
  rewrite Hs2 in Er. change (ds_handle set) with handle in Er. rewrite Er. cbn [mbind option_bind].
  eexists _, _, _, _. split; [done|]. right. split_and!; simpl; [done|by rewrite Hsets|].
  exists s. rewrite Hs1. split_and!; [done|done| |done].
  split; [by apply pool_with_mem_ok|]. by split.
Qed.

(** Either kind of pool: an error changes nothing, a success adds the set asked for. *)
Lemma set_create_spec base p refs handle layout variable zalloc :
  pool_ok p -> refs_ok base refs (p_sets p) -> set_ok base p handle layout variable zalloc ->
  exists r o p' refs', create p refs handle layout variable zalloc = Some (r, o, p', refs')
    /\ ((r <> VK_SUCCESS /\ o = None /\ p' = p /\ refs' = refs)
        \/ (r = VK_SUCCESS /\ refs_ok base refs' (p_sets p')
            /\ exists s, o = Some (ds_ptr s) /\ (p_host p = None -> zalloc = Some (ds_ptr s))
                 /\ added p p' s /\ asked handle layout variable s)).
Proof.
  intros Hok Hr Hs. destruct (p_host p) as [h|] eqn:Hh.
  - destruct (create_linear base p refs h handle layout variable zalloc Hok Hh Hr Hs)
      as (r&o&p'&refs'&E&[(->&?&?&?&_)|(?&?&_&_&s&?&?&?)]); exists r, o, p', refs' || exists VK_ERROR_OUT_OF_POOL_MEMORY, o, p', refs'; (split; [done|]).
    + by left.
    + right. split_and!; try done. by exists s.
  - destruct (create_heap base p refs handle layout variable zalloc Hok Hh Hr Hs)
      as (r&o&p'&refs'&E&[?|(?&?&s&?&?&?&?)]); exists r, o, p', refs'; (split; [done|]); [by left|].
    right. split_and!; try done. by exists s.
Qed.

End Ops.

(** * vkFreeDescriptorSets *)

Definition keep (l : list Z) (sets : list radv_descriptor_set) : list radv_descriptor_set :=
  filter (fun s => ds_ptr s ∉ l) sets.

Lemma keep_all l sets : (forall s, s ∈ sets -> ds_ptr s ∉ l) -> keep l sets = sets.
Proof.
  unfold keep. induction sets as [|s sets IH]; intros H; [done|]. rewrite filter_cons, decide_True, IH; try done.
  - intros t Ht. apply H. apply elem_of_cons. by right.
  - apply H. apply elem_of_cons. by left.
Qed.

Lemma delete_keep sets i s :
  NoDup (ds_ptr <$> sets) -> sets !! i = Some s -> delete i sets = keep [ds_ptr s] sets.
Proof.
  revert i. unfold keep. induction sets as [|x sets IH]; intros [|i] Hnd Hi; simpl in *; try done;
    apply NoDup_cons in Hnd as [Hx Hnd]; rewrite filter_cons.
  - injection Hi as ->. rewrite decide_False by set_solver. symmetry. apply keep_all.
    intros y Hy Hin. apply list_elem_of_singleton in Hin. apply Hx. rewrite <- Hin.
    by apply list_elem_of_fmap_2.
  - rewrite decide_True; [by rewrite (IH _ Hnd Hi)|]. intros Heq%list_elem_of_singleton. apply Hx. rewrite Heq.
    apply list_elem_of_fmap_2. by eapply list_elem_of_lookup_2.
Qed.

Lemma keep_cons x l sets : keep l (keep [x] sets) = keep (x :: l) sets.
Proof.
  unfold keep. rewrite list_filter_filter. apply list_filter_iff. intros s.
  rewrite !not_elem_of_cons. pose proof (not_elem_of_nil (ds_ptr s)). tauto.
Qed.

Lemma keep_nil sets : keep [] sets = sets.
Proof. apply keep_all. by intros ? _ ?%elem_of_nil. Qed.

(** Freeing live sets removes them and nothing else; null handles are skipped. *)
Lemma free_spec base l : forall p refs,
  pool_ok p -> p_host p = None -> refs_ok base refs (p_sets p) ->
  NoDup (omap id l) -> omap id l ⊆ (ds_ptr <$> p_sets p) ->
  exists p' refs', radv_FreeDescriptorSets p refs l = Some (p', refs')
    /\ pool_ok p' /\ same_pool p p' /\ p_sets p' = keep (omap id l) (p_sets p)
    /\ refs_ok base refs' (p_sets p').
Proof.
  induction l as [|[ptr|] l IH]; intros p refs Hok Hh Hr Hnd Hsub; simpl.
  - exists p, refs. rewrite keep_nil. by split_and!.
  - simpl in Hnd. apply NoDup_cons in Hnd as [Hnin Hnd].
    assert (ptr ∈ ds_ptr <$> p_sets p) as (s&->&[i Hi]%list_elem_of_lookup)%list_elem_of_fmap
      by (apply Hsub; simpl; apply elem_of_cons; by left).
    pose proof (po_kind p Hok) as Hk. rewrite Hh in Hk. destruct Hk as (Hndp&_).
    destruct (destroy_spec base p refs i s Hok Hh Hr Hi) as (p1&refs1&E&Hok1&Hs1&Es1&Hr1).
    rewrite Hh, E. cbn [mbind option_bind]. rewrite (delete_keep _ _ _ Hndp Hi) in Es1.
    assert (p_host p1 = None) as Hh1 by (by apply Hs1).
    destruct (IH p1 refs1 Hok1 Hh1 Hr1 Hnd) as (p2&refs2&E2&Hok2&Hs2&Es2&Hr2).
    { intros x Hx. specialize (Hsub x). simpl in Hsub. rewrite elem_of_cons in Hsub.
      destruct (proj1 (list_elem_of_fmap _ _ _) (Hsub (or_intror Hx))) as (t&->&Ht).
      apply list_elem_of_fmap_2. rewrite Es1. apply list_elem_of_filter. split; [|done].
      intros Heq%list_elem_of_singleton. apply Hnin. by rewrite <- Heq. }
    exists p2, refs2. split_and!; [done|done|by eapply same_pool_trans| |done].
    by rewrite Es2, Es1, keep_cons.
  - destruct (IH p refs Hok Hh Hr Hnd Hsub) as (p2&refs2&E2&?). exists p2, refs2. by rewrite E2.
Qed.

(** A linear pool frees nothing. *)
Lemma free_linear p refs l h : p_host p = Some h -> radv_FreeDescriptorSets p refs l = Some (p, refs).
Proof.
  intros Hh. induction l as [|s l IH]; simpl; [done|]. rewrite Hh. by destruct s.
Qed.

(** * vkAllocateDescriptorSets *)

Lemma refs_unique base r1 r2 sets : refs_ok base r1 sets -> refs_ok base r2 sets -> r1 = r2.
Proof. intros [_ H1] [_ H2]. apply map_eq. intros h. by rewrite H1, H2. Qed.

(** The variable count a request takes effect with. *)
Definition variable_of (q : set_request) : Z :=
  if l_has_variable_descriptors (rq_layout q) then rq_variable q else 0.

Definition asked_by (q : set_request) (s : radv_descriptor_set) : Prop :=
  asked (rq_handle q) (rq_layout q) (variable_of q) s.

(** Requests that follow the rules of the API, with an allocator that returns new
    addresses. *)
Definition requests_ok (samplers_base base : Z -> Z) (p : radv_descriptor_pool) (l : list set_request) : Prop :=
  Forall (fun q => rq_push q = false /\ 1 <= base (rq_handle q) /\ samplers_room samplers_base (rq_layout q)
            /\ (p_host p = None -> p_size p = 0 -> descriptor_set_size (rq_layout q) (variable_of q) = 0)) l
  /\ (p_host p = None ->
        NoDup (omap rq_zalloc l) /\ forall ptr, ptr ∈ omap rq_zalloc l -> ptr ∉ ds_ptr <$> p_sets p).

Lemma requests_set_ok samplers_base base p q l :
  requests_ok samplers_base base p (q :: l) ->
  rq_push q = false /\ set_ok samplers_base base p (rq_handle q) (rq_layout q) (variable_of q) (rq_zalloc q).
Proof.
  intros [[(Hp&Hb&Hr&Hz) _]%Forall_cons Hn]. split; [done|]. unfold set_ok. split_and!; [done|done|].
  intros Hh. split; [by apply Hz|]. intros ptr Hq. destruct (Hn Hh) as [_ Hf]. apply Hf.
  simpl. rewrite Hq. apply elem_of_cons. by left.
Qed.

Lemma requests_next samplers_base base p p' s q l :
  requests_ok samplers_base base p (q :: l) -> added p p' s ->
  (p_host p = None -> rq_zalloc q = Some (ds_ptr s)) -> requests_ok samplers_base base p' l.
Proof.
  intros [[_ Hl]%Forall_cons Hn] (_&(_&Es&_&Eh)&Esets) Hq. split.
  - eapply Forall_impl; [exact Hl|]. simpl. intros x (?&?&?&Hx). split_and!; [done|done|done|].
    intros Hh Hsz. apply Hx; [by apply Eh|congruence].
  - intros Hh. apply Eh in Hh. destruct (Hn Hh) as [Hnd Hf]. simpl in Hnd, Hf. rewrite (Hq Hh) in Hnd, Hf.
    apply NoDup_cons in Hnd as [Hnin Hnd]. split; [done|]. intros ptr Hptr. rewrite Esets, fmap_app.
    rewrite not_elem_of_app. split; [apply Hf; apply elem_of_cons; by right|].
    intros Heq%list_elem_of_singleton. apply Hnin. simpl in Heq. by rewrite <- Heq.
Qed.

Lemma omap_id_Some (l : list Z) : omap id (Some <$> l) = l.
Proof. induction l as [|x l IH]; [done|]. cbn. f_equal. exact IH. Qed.

Lemma keep_none l sets : (forall s, s ∈ sets -> ds_ptr s ∈ l) -> keep l sets = [].
Proof.
  unfold keep. induction sets as [|s sets IH]; intros H; [done|]. rewrite filter_cons, decide_False, IH; try done.
  - intros t Ht. apply H. apply elem_of_cons. by right.
  - intros Hn. apply Hn, H. apply elem_of_cons. by left.
Qed.

(** Dropping the sets at the end of the list. *)
Lemma keep_tail sets new :
  NoDup (ds_ptr <$> sets ++ new) -> keep (ds_ptr <$> new) (sets ++ new) = sets.
Proof.
  rewrite fmap_app. intros (_&Hdis&_)%NoDup_app. unfold keep. rewrite filter_app.
  fold (keep (ds_ptr <$> new) sets) (keep (ds_ptr <$> new) new). rewrite keep_all, keep_none.
  - apply app_nil_r.
  - intros s Hs. by apply list_elem_of_fmap_2.
  - intros s Hs Hin. apply (Hdis (ds_ptr s)); [by apply list_elem_of_fmap_2|done].
Qed.

Section Allocate.
Context (fmask : bool) (samplers_base : Z -> Z) (set_bytes range_bytes : Z).

Notation loop := (allocate_loop fmask samplers_base set_bytes range_bytes).

Lemma allocate_loop_spec base l : forall p refs made,
  pool_ok p -> refs_ok base refs (p_sets p) -> requests_ok samplers_base base p l ->
  exists r p' refs' new, loop p refs made l = Some (r, made ++ (ds_ptr <$> new), p', refs')
    /\ pool_ok p' /\ same_pool p p' /\ p_sets p' = p_sets p ++ new /\ refs_ok base refs' (p_sets p')
    /\ Forall2 asked_by (take (length new) l) new /\ (r = VK_SUCCESS <-> length new = length l)
    /\ (p_host p = None -> NoDup (ds_ptr <$> new)).
Proof.
  induction l as [|q l IH]; intros p refs made Hok Hr Hq; cbn [allocate_loop].
  { exists VK_SUCCESS, p, refs, []. rewrite !app_nil_r. simpl.
    split_and!; try done; intros; apply Forall2_nil_2 || constructor; done. }
  destruct (requests_set_ok _ _ _ _ _ Hq) as [Hp Hs].
  rewrite Hp. cbn [negb cassert mbind option_bind]. fold (variable_of q).
  destruct (set_create_spec fmask samplers_base set_bytes range_bytes base p refs (rq_handle q) (rq_layout q)
              (variable_of q) (rq_zalloc q) Hok Hr Hs)
    as (r&o&p1&refs1&E&[(Hne&->&->&->)|(->&Hr1&s&->&Hz&Ha&Hask)]); rewrite E; cbn [mbind option_bind].
  { exists r, p, refs, []. rewrite !app_nil_r. simpl.
    split_and!; try done; intros; apply Forall2_nil_2 || constructor; done. }
  pose proof Ha as (Hok1&Hsame&Hsets).
  destruct (IH p1 refs1 (made ++ [ds_ptr s]) Hok1 Hr1) as (r&p2&refs2&new&E2&Hok2&Hs2&Hsets2&Hr2&Hf&Hlen&Hnd).
  { by eapply requests_next. }
  exists r, p2, refs2, (s :: new). rewrite E2, Hsets2, Hsets, fmap_cons, <- !app_assoc. simpl in Hr2 |- *.
  rewrite Hsets2, Hsets, <- app_assoc in Hr2.
  split_and!; try done; [by eapply same_pool_trans|by constructor|rewrite Hlen; lia|].
  intros Hh. constructor; [|by apply Hnd, Hsame].
  pose proof (po_kind p2 Hok2) as Hk.
  assert (p_host p2 = None) as Hh2 by (by apply Hs2, Hsame). rewrite Hh2 in Hk. destruct Hk as (Hndp&_).
  rewrite Hsets2, Hsets, !fmap_app in Hndp. rewrite <- app_assoc in Hndp.
  apply NoDup_app in Hndp as (_&_&Hndp). simpl in Hndp. by apply NoDup_cons in Hndp as [? _].
Qed.

(** The whole command. *)
Lemma allocate_spec base p refs l :
  pool_ok p -> refs_ok base refs (p_sets p) -> requests_ok samplers_base base p l ->
  exists r hs p' refs',
    radv_AllocateDescriptorSets fmask samplers_base set_bytes range_bytes p refs l = Some (r, hs, p', refs')
    /\ pool_ok p' /\ same_pool p p' /\ refs_ok base refs' (p_sets p')
    /\ ((r = VK_SUCCESS /\ exists new, hs = Some <$> (ds_ptr <$> new) /\ p_sets p' = p_sets p ++ new
                                       /\ Forall2 asked_by l new)
        \/ (r <> VK_SUCCESS /\ hs = (fun _ => None) <$> l
            /\ (p_host p = None -> p' = pool_with_mem p (p_mem p') /\ refs' = refs))).
Proof.
  intros Hok Hr Hq. unfold radv_AllocateDescriptorSets.
  destruct (allocate_loop_spec base l p refs [] Hok Hr Hq)
    as (r&p1&refs1&new&E&Hok1&Hs1&Hsets1&Hr1&Hf&Hlen&Hnd). rewrite E. cbn [mbind option_bind app].
  case_bool_decide as Hrs.
  { eexists _, _, _, _. split; [done|]. split_and!; try done. left. split; [done|]. exists new.
    split_and!; [done|done|]. apply Hlen in Hrs. rewrite Hrs, firstn_all in Hf. done. }
  destruct (p_host p) as [h|] eqn:Hh.
  { destruct (p_host p1) as [h1|] eqn:Hh1; [|by apply Hs1 in Hh1; congruence].
    rewrite (free_linear _ _ _ _ Hh1). cbn [mbind option_bind]. eexists _, _, _, _. split; [done|].
    split_and!; try done. right. by split_and!. }
  assert (p_host p1 = None) as Hh1 by (by apply Hs1).
  pose proof (omap_id_Some (ds_ptr <$> new)) as Hid.
  pose proof (po_kind p1 Hok1) as Hk. rewrite Hh1 in Hk. destruct Hk as (Hndp&_). rewrite Hsets1 in Hndp.
  destruct (free_spec base (Some <$> (ds_ptr <$> new)) p1 refs1 Hok1 Hh1 Hr1) as (p2&refs2&E2&Hok2&Hs2&Hsets2&Hr2).
  { rewrite Hid. by apply Hnd. }
  { rewrite Hid, Hsets1, fmap_app. intros x Hx. apply elem_of_app. by right. }
  rewrite E2. cbn [mbind option_bind].
  assert (p_sets p2 = p_sets p) as Heq by (rewrite Hsets2, Hid, Hsets1; by apply keep_tail).
  eexists _, _, _, _. split; [done|]. split_and!; try done; [by eapply same_pool_trans|].
  right. split_and!; try done. intros _. split.
  - apply heap_pool_ext; [done|done|done|by eapply same_pool_trans|done].
  - eapply refs_unique; [|exact Hr]. by rewrite <- Heq.
Qed.

End Allocate.

(** * Reset *)

Lemma destroy_all_sets_spec base l : forall p refs,
  pool_ok p -> p_host p = None -> refs_ok base refs (p_sets p) -> p_sets p = l ->
  exists p' refs', destroy_all_sets p refs l = Some (p', refs')
    /\ pool_ok p' /\ same_pool p p' /\ p_sets p' = [] /\ refs_ok base refs' [].
Proof.
  induction l as [|s l IH]; intros p refs Hok Hh Hr Hl; cbn [destroy_all_sets].
  { exists p, refs. rewrite Hl in Hr. by split_and!. }
  destruct (destroy_spec base p refs 0 s Hok Hh Hr) as (p1&refs1&E&Hok1&Hs1&Es1&Hr1); [by rewrite Hl|].
  rewrite E. cbn [mbind option_bind]. rewrite Hl in Es1. simpl in Es1.
  destruct (IH p1 refs1) as (p2&refs2&E2&Hok2&Hs2&Es2&Hr2); [done|by apply Hs1|by rewrite Es1 in *|done|].
  exists p2, refs2. split_and!; try done. by eapply same_pool_trans.
Qed.

Lemma unref_all_spec base l : forall refs, refs_ok base refs l ->
  exists refs', unref_all refs l = Some refs' /\ refs_ok base refs' [].
Proof.
  induction l as [|s l IH]; intros refs Hr; cbn [unref_all]; [by exists refs|].
  destruct (unref_spec base refs (s :: l) 0 s Hr eq_refl) as (refs1&E&Hr1). rewrite E. by apply IH.
Qed.

Lemma init_heap_spec size : 0 < size <= W32 ->
  exists h, init_heap size = Some h /\ heap_wf h /\ alloc_high h = false /\ nospan_shift h = 0
    /\ forall a, is_free h a <-> RADV_POOL_HEAP_OFFSET <= a < RADV_POOL_HEAP_OFFSET + size.
Proof.
  intros Hs. unfold init_heap. unfold RADV_POOL_HEAP_OFFSET.
  destruct (util_vma_heap_init_spec 32 size) as (h&E&Hw&Hf&_&Hn); [lia|lia|unfold_words; lia|].
  rewrite E. cbn [mbind option_bind]. eexists. by split_and!.
Qed.

(** A pool without sets, as creation leaves it. *)
Definition fresh (p : radv_descriptor_pool) : Prop :=
  p_sets p = [] /\ p_entry_count p = 0 /\ p_current_offset p = 0
  /\ match p_host p with
     | Some h => p_heap p = None /\ hm_ptr h = hm_base h /\ hm_base h <= hm_end h
     | None => if p_size p =? 0 then p_heap p = None else p_heap p = init_heap (p_size p)
     end.

Lemma fresh_ok p : fresh p -> 0 <= p_size p <= W32 -> 0 <= p_max_entry_count p < W32 -> pool_ok p.
Proof.
  intros (Hs&He&Hc&Hk) H1 H2. constructor; rewrite ?Hs, ?He; simpl; try done.
  destruct (p_host p) as [h|] eqn:Hh.
  - destruct Hk as (?&?&?). unfold linear_ok. rewrite Hs, Hc. split_and!; try lia; [done|constructor].
  - unfold heap_ok. rewrite Hs. split_and!; [constructor|done|constructor|].
    destruct (Z.eqb_spec (p_size p) 0); [done|].
    destruct (init_heap_spec (p_size p)) as (h&E&Hw&Ha&Hn&Hf); [lia|]. exists h. rewrite Hk, E.
    split_and!; try done. intros a. rewrite Hf. assert (~ covered [] a) by (inversion 1). tauto.
Qed.

(** Fresh pools of the same shape are equal up to the contents of memory. *)
Lemma fresh_unique p p' : fresh p -> fresh p' -> same_pool p p' -> p' = pool_with_mem p (p_mem p').
Proof.
  intros (S1&C1&O1&K1) (S2&C2&O2&K2) (E1&E2&E3&E4&E5). unfold host_range in E5.
  destruct p as [a b c d h s hp e m], p' as [a' b' c' d' h' s' hp' e' m']. unfold pool_with_mem. simpl in *. subst.
  destruct h as [h|], h' as [h'|]; simpl in *; try done.
  - destruct K1 as (?&?&?), K2 as (?&?&?). injection E5 as E5 E6. destruct h, h'. simpl in *. by subst.
  - destruct (d =? 0); by subst.
Qed.

(** Reset returns every set, and the pool is as it was created. *)
Lemma pool_reset_spec base p refs :
  pool_ok p -> refs_ok base refs (p_sets p) ->
  exists p' refs', radv_ResetDescriptorPool p refs = Some (p', refs')
    /\ fresh p' /\ same_pool p p' /\ refs_ok base refs' [].
Proof.
  intros Hok Hr. unfold radv_ResetDescriptorPool, radv_destroy_descriptor_pool_entries.
  destruct (p_host p) as [h|] eqn:Hh.
  - pose proof (po_kind p Hok) as Hk. rewrite Hh in Hk. destruct Hk as (?&?&?&_).
    destruct (unref_all_spec base (p_sets p) refs Hr) as (refs'&E&Hr'). rewrite E. cbn [mbind option_bind].
    simpl p_host. rewrite Hh. simpl. eexists _, _. split; [done|]. split_and!; try done.
    + unfold fresh. simpl. rewrite Hh. simpl. split_and!; try done. lia.
    + unfold same_pool, host_range. simpl. by rewrite Hh.
  - destruct (destroy_all_sets_spec base (p_sets p) p refs Hok Hh Hr eq_refl) as (p1&refs1&E&Hok1&Hs1&Es1&Hr1).
    rewrite E. cbn [mbind option_bind]. assert (p_host p1 = None) as Hh1 by (by apply Hs1).
    rewrite bool_decide_eq_true_2 by done. simpl andb. pose proof Hs1 as (?&Hsz&?&?&?).
    pose proof (po_kind p1 Hok1) as Hk. rewrite Hh1 in Hk. destruct Hk as (_&_&_&Hk).
    destruct (Z.eqb_spec (p_size p1) 0) as [Hz|Hz]; simpl negb; cbn [mbind option_bind].
    + eexists _, _. split; [done|]. split_and!; [|by unfold same_pool, host_range; simpl; rewrite Hh, Hh1; split_and!|done].
      unfold fresh. simpl. rewrite Hh1. simpl. split_and!; try done. by rewrite Hz.
    + destruct (init_heap_spec (p_size p1)) as (h&Ei&_); [pose proof (po_size p1 Hok1); lia|]. rewrite Ei.
      cbn [mbind option_bind]. eexists _, _. split; [done|].
      split_and!; [|by unfold same_pool, host_range; simpl; rewrite Hh, Hh1; split_and!|done].
      unfold fresh. simpl. rewrite Hh1. simpl. split_and!; try done. by rewrite (proj2 (Z.eqb_neq _ _) Hz).
Qed.

(** * Creation *)

(** A create info whose sizes fit in the address space of a pool. *)
Definition pool_info_ok (fmask : bool) (set_bytes range_bytes pool_bytes : Z) (info : pool_info) : Prop :=
  0 <= pi_max_sets info < W32 /\ (pool_sizes fmask info).1 <= W32
  /\ 0 <= pool_bytes /\ 0 <= set_bytes /\ 0 <= range_bytes
  /\ pool_bytes + pi_max_sets info * set_bytes + range_bytes * (pool_sizes fmask info).2 < W64.

Lemma pool_step_nonneg fmask info i t count s :
  0 <= count -> 0 <= sum_bo s -> 0 <= sum_ranges s ->
  0 <= sum_bo (pool_size_step fmask info i t count s) /\ 0 <= sum_ranges (pool_size_step fmask info i t count s).
Proof.
  intros Hc H1 H2. unfold pool_size_step.
  destruct t; cbn [sum_bo sum_ranges]; try (split; [apply u64_range|done]);
    try (split; [done|apply u64_range]); try done.
  destruct (pi_mutable info !! i) as [l|]; [|cbn [sum_bo sum_ranges]; split; [apply u64_range|done]].
  destruct (radv_mutable_descriptor_type_size_alignment fmask l) as [[? ?]|]; [|done].
  cbn [sum_bo sum_ranges]. split; [apply u64_range|done].
Qed.

Lemma pool_loop_nonneg fmask info l : forall i s,
  Forall (fun '(_, c) => 0 <= c) l -> 0 <= sum_bo s -> 0 <= sum_ranges s ->
  0 <= sum_bo (pool_size_loop fmask info i l s) /\ 0 <= sum_ranges (pool_size_loop fmask info i l s).
Proof.
  induction l as [|[t c] l IH]; intros i s Hl H1 H2; cbn [pool_size_loop]; [done|].
  apply Forall_cons in Hl as [Hc Hl]. destruct (pool_step_nonneg fmask info i t c s Hc H1 H2). by apply IH.
Qed.

Lemma pool_sizes_nonneg fmask info :
  Forall (fun '(_, c) => 0 <= c) (pi_sizes info) ->
  0 <= (pool_sizes fmask info).1 /\ 0 <= (pool_sizes fmask info).2.
Proof.
  intros Hl. unfold pool_sizes. cbn [fst snd].
  set (b := match pi_inline info with Some n => u64 (28 * n) | None => 0 end).
  assert (0 <= b) as Hb by (subst b; destruct (pi_inline info); [apply u64_range|done]).
  destruct (pool_loop_nonneg fmask info (pi_sizes info) 0 (Sums b 0 0) Hl Hb ltac:(done)).
  split; [|done]. case_cmp; [done|apply u64_range].
Qed.

(** A pool that is created is fresh and has the size computed from the create info; the
    only results are success and the errors of the allocators. *)
Lemma create_pool_spec fmask set_bytes range_bytes pool_bytes o info :
  pool_info_ok fmask set_bytes range_bytes pool_bytes info ->
  Forall (fun '(_, c) => 0 <= c) (pi_sizes info) ->
  exists r, radv_create_descriptor_pool fmask set_bytes range_bytes pool_bytes o info = Some r
    /\ forall p, r = inr p ->
         fresh p /\ pool_ok p /\ p_size p = (pool_sizes fmask info).1
         /\ p_max_entry_count p = pi_max_sets info
         /\ exists ptr, o_pool o = Some ptr
              /\ p_host p = if pi_free_bit info then None
                            else Some (Host (ptr + pool_bytes) (ptr + pool_bytes)
                                        (ptr + (pool_bytes + pi_max_sets info * set_bytes
                                                + range_bytes * (pool_sizes fmask info).2))).
Proof.
  intros (Hmax&Hbo&Hp&Hs&Hr&Htot) Hl. pose proof (pool_sizes_nonneg fmask info Hl) as [Hn1 Hn2].
  unfold radv_create_descriptor_pool. destruct (pool_sizes fmask info) as [bo ranges] eqn:Esz. cbn [fst snd] in *.
  destruct (o_pool o) as [ptr|]; [|eexists; split; [done|by intros p [=]]].
  assert (u64 (u64 (pool_bytes + pi_max_sets info * set_bytes) + range_bytes * ranges)
          = pool_bytes + pi_max_sets info * set_bytes + range_bytes * ranges) as -> by (unwrap; nia).
  set (size := pool_bytes + pi_max_sets info * set_bytes + range_bytes * ranges) in *.
  set (host := if pi_free_bit info then None else Some (Host (ptr + pool_bytes) (ptr + pool_bytes)
         (ptr + (if pi_free_bit info then pool_bytes else size)))).
  assert (exists heap, (if pi_free_bit info && negb (bo =? 0) then let! h := init_heap bo ;; Some (Some h)
                        else Some None) = Some heap
            /\ heap = if pi_free_bit info && negb (bo =? 0) then init_heap bo else None) as (heap&->&Hheap).
  { destruct (pi_free_bit info && negb (bo =? 0)) eqn:Eb; [|by eexists].
    destruct (init_heap_spec bo) as (h&->&_); [lia|]. by eexists. }
  cbn [mbind option_bind].
  assert (forall va, fresh (Pool va ∅ 0 bo host [] heap 0 (pi_max_sets info))) as Hfr.
  { intros va. unfold fresh, host. simpl. split_and!; try done. destruct (pi_free_bit info); simpl in Hheap |- *.
    - destruct (bo =? 0); done.
    - split_and!; [done|done|nia]. }
  assert (forall va (r : VkResult + radv_descriptor_pool), r = inr (Pool va ∅ 0 bo host [] heap 0 (pi_max_sets info)) -> forall p, r = inr p ->
    fresh p /\ pool_ok p /\ p_size p = bo /\ p_max_entry_count p = pi_max_sets info
    /\ exists ptr0, Some ptr = Some ptr0 /\ p_host p = if pi_free_bit info then None
         else Some (Host (ptr0 + pool_bytes) (ptr0 + pool_bytes) (ptr0 + size))) as Hdone.
  { intros va r -> p [= <-]. specialize (Hfr va). split_and!; try done; [by apply fresh_ok|].
    exists ptr. split; [done|]. subst host. by destruct (pi_free_bit info). }
  assert (forall e p, @inl VkResult radv_descriptor_pool e = inr p -> False) as Hinl by done.
  destruct (bo =? 0); [eexists; split; [done|by eapply Hdone]|].
  destruct (pi_host_only info); cbn [negb].
  - destruct (o_host_bo o); (eexists; split; [done|]); [by eapply Hdone|by intros p ?%Hinl].
  - destruct (o_bo o) as [e|va]; [eexists; split; [done|by intros p ?%Hinl]|].
    destruct (o_map o); (eexists; split; [done|]); [by eapply Hdone|by intros p ?%Hinl].
Qed.
