(* ===== verification/PoolMain.v ===== *)
(** The theorems about descriptor pools: the invariant of every reachable pool, the
    atomicity of a failed allocation, and reset. *)

From stdpp Require Import gmap relations.
From S2P Require Import Prelude Vma WinsysCs DescriptorLayout DescriptorProofs DescriptorPool PoolProofs PoolOps.

Section Reach.
Context (fmask : bool) (samplers_base : Z -> Z) (set_bytes range_bytes pool_bytes : Z).

(** A pool, the reference counts, and the references the application holds. *)
Record pool_state := PoolState {
  ps_pool : radv_descriptor_pool; ps_refs : layout_refs; ps_base : Z -> Z
}.

(** The commands on a pool, used as the API allows; an allocation may fail. *)
Inductive pool_step : pool_state -> pool_state -> Prop :=
| step_allocate p refs base l r hs p' refs' :
    requests_ok samplers_base base p l ->
    radv_AllocateDescriptorSets fmask samplers_base set_bytes range_bytes p refs l = Some (r, hs, p', refs') ->
    pool_step (PoolState p refs base) (PoolState p' refs' base)
| step_free p refs base l p' refs' :
    p_host p = None -> NoDup (omap id l) -> omap id l ⊆ ds_ptr <$> p_sets p ->
    radv_FreeDescriptorSets p refs l = Some (p', refs') ->
    pool_step (PoolState p refs base) (PoolState p' refs' base)
| step_reset p refs base p' refs' :
    radv_ResetDescriptorPool p refs = Some (p', refs') ->
    pool_step (PoolState p refs base) (PoolState p' refs' base)
| step_destroy_layout p refs base h refs' :
    1 <= base h -> vk_descriptor_set_layout_unref refs h = Some refs' ->
    pool_step (PoolState p refs base) (PoolState p refs' (fun k => if k =? h then base k - 1 else base k)).

Definition state_ok (st : pool_state) : Prop :=
  pool_ok (ps_pool st) /\ refs_ok (ps_base st) (ps_refs st) (p_sets (ps_pool st)).

Lemma destroy_layout_ok base refs sets h refs' :
  refs_ok base refs sets -> 1 <= base h -> vk_descriptor_set_layout_unref refs h = Some refs' ->
  refs_ok (fun k => if k =? h then base k - 1 else base k) refs' sets.
Proof.
  intros [Hb Hr] Hh. unfold vk_descriptor_set_layout_unref. rewrite Hr. cbv zeta.
  pose proof (count_handle_nonneg h sets). destruct (Z.eqb_spec (base h + count_handle h sets) 0); [lia|].
  cbn [mbind option_bind]. rewrite cassert_bind by lia. intros [= <-]. split.
  - intros k. specialize (Hb k). case_cmp; subst; lia.
  - intros k. destruct (Z.eqb_spec k h) as [->|Hne].
    + replace (base h - 1 + count_handle h sets) with (base h + count_handle h sets - 1) by lia.
      cbv zeta. case_cmp; [by rewrite lookup_delete_eq|by rewrite lookup_insert_eq].
    + case_cmp; [rewrite lookup_delete_ne by done|rewrite lookup_insert_ne by done]; apply Hr.
Qed.

Lemma pool_step_ok st st' : pool_step st st' -> state_ok st ->
  state_ok st' /\ same_pool (ps_pool st) (ps_pool st').
Proof.
  unfold state_ok. intros Hstep [Hok Hr].
  destruct Hstep as [p refs base l r hs p' refs' Hq E|p refs base l p' refs' Hh Hnd Hs E|p refs base p' refs' E
                    |p refs base h refs' Hh E]; simpl in *.
  - destruct (allocate_spec fmask samplers_base set_bytes range_bytes base p refs l Hok Hr Hq)
      as (?&?&?&?&E'&?&?&?&_). rewrite E' in E. by simplify_eq.
  - destruct (free_spec base l p refs Hok Hh Hr Hnd Hs) as (?&?&E'&?&?&?&?). rewrite E' in E. by simplify_eq.
  - destruct (pool_reset_spec base p refs Hok Hr) as (?&?&E'&Hf&Hs&?). rewrite E' in E. simplify_eq.
    split; [|done]. split; [|by rewrite (proj1 Hf)]. destruct Hs as (_&Hsz&Hm&_), Hok.
    apply fresh_ok; [done|by rewrite Hsz|rewrite Hm; lia].
  - split; [|done]. split; [done|]. by eapply destroy_layout_ok.
Qed.

Lemma pool_steps_ok st st' : rtc pool_step st st' -> state_ok st ->
  state_ok st' /\ same_pool (ps_pool st) (ps_pool st').
Proof.
  induction 1 as [st|st1 st2 st3 Hs _ IH]; intros H; [done|].
  destruct (pool_step_ok _ _ Hs H) as [H2 S2]. destruct (IH H2) as [H3 S3]. split; [done|].
  by eapply same_pool_trans.
Qed.

(** The pool the commands start from. *)
Definition created (o : pool_oracle) (info : pool_info) (p0 : radv_descriptor_pool) : Prop :=
  pool_info_ok fmask set_bytes range_bytes pool_bytes info
  /\ Forall (fun '(_, c) => 0 <= c) (pi_sizes info)
  /\ radv_create_descriptor_pool fmask set_bytes range_bytes pool_bytes o info = Some (inr p0).

Lemma created_ok o info p0 : created o info p0 -> fresh p0 /\ pool_ok p0.
Proof.
  intros (Hi&Hc&E). destruct (create_pool_spec fmask set_bytes range_bytes pool_bytes o info Hi Hc) as (r&E'&H).
  rewrite E' in E. injection E as ->. destruct (H p0 eq_refl) as (?&?&_). done.
Qed.

(** C25: The sets of a pool never share memory: after any sequence of allocations,
    successful or not, frees, resets and layout destructions on a pool that was created,
    every live set lies inside the pool, no two of them overlap, there are no more than
    [maxSets], and the layout of each one is still alive. *)
Theorem pool_sets_separate o info p0 refs0 base0 p refs base :
  created o info p0 -> refs_ok base0 refs0 [] ->
  rtc pool_step (PoolState p0 refs0 base0) (PoolState p refs base) ->
  sets_disjoint (p_sets p) /\ Forall (in_pool p) (p_sets p) /\ p_size p = (pool_sizes fmask info).1
  /\ Z.of_nat (length (p_sets p)) <= pi_max_sets info
  /\ forall s, s ∈ p_sets p -> exists n, refs !! ds_handle s = Some n /\ 1 <= n.
Proof.
  intros (Hi&Hc&E) Hr Hst. destruct (create_pool_spec _ _ _ _ o info Hi Hc) as (r&E'&H).
  rewrite E' in E. injection E as ->. destruct (H p0 eq_refl) as (Hf&Hok&Hsz&Hmx&_).
  destruct (pool_steps_ok _ _ Hst) as [[Hok' [Hb Hr']] Hs].
  { split; [done|]. simpl. by rewrite (proj1 Hf). }
  simpl in *. destruct Hs as (_&Hs1&Hs2&_), Hok' as [H1 H2 H3 H4 H5 _].
  split_and!; [done|done|congruence|rewrite <- Hmx, <- Hs2; lia|].
  intros s Hin. rewrite Hr'. cbv zeta. specialize (Hb (ds_handle s)).
  assert (1 <= count_handle (ds_handle s) (p_sets p)).
  { apply list_elem_of_lookup in Hin as [i Hin]. pose proof (count_handle_delete (ds_handle s) _ _ _ Hin) as Hd.
    rewrite decide_True in Hd by done. pose proof (count_handle_nonneg (ds_handle s) (delete i (p_sets p))). lia. }
  destruct (Z.eqb_spec (base (ds_handle s) + count_handle (ds_handle s) (p_sets p)) 0); [lia|].
  eexists. split; [done|]. lia.
Qed.

(** Resetting a pool gives back the pool that was created: whatever was allocated
    and freed in between, the heap or the bump offsets, the set list and the counters are
    those of the new pool, and every reference to a layout is returned. *)
Theorem reset_restores_pool o info p0 refs0 base0 p refs base :
  created o info p0 -> refs_ok base0 refs0 [] ->
  rtc pool_step (PoolState p0 refs0 base0) (PoolState p refs base) ->
  exists m refs', radv_ResetDescriptorPool p refs = Some (pool_with_mem p0 m, refs') /\ refs_ok base refs' [].
Proof.
  intros Hc Hr Hst. destruct (created_ok _ _ _ Hc) as [Hf Hok].
  destruct (pool_steps_ok _ _ Hst) as [[Hok' Hr'] Hs].
  { split; [done|]. simpl. by rewrite (proj1 Hf). }
  destruct (pool_reset_spec base p refs Hok' Hr') as (p'&refs'&E&Hf'&Hs'&Hr2). exists (p_mem p'), refs'.
  split; [|done]. rewrite E. do 2 f_equal. apply fresh_unique; [done|done|]. by eapply same_pool_trans.
Qed.

(** C37: for requests of live layouts that are not push-descriptor layouts, with their samplers in
    place, and with fresh addresses for the sets, vkAllocateDescriptorSets returns and is atomic on a
    pool that can free sets: on success one new set per request, with the layout asked for, is appended;
    on an error every handle is null, and the pool, its heap included, and the reference counts are what
    they were before the call. On a pool created without descriptor memory the sets asked for must be
    empty: there the heap was never initialized, and a set with descriptors is a fault,
    [empty_heap_pool_faults]. *)
Theorem allocate_atomic base p refs l :
  pool_ok p -> p_host p = None -> refs_ok base refs (p_sets p) -> requests_ok samplers_base base p l ->
  exists r hs p' refs',
    radv_AllocateDescriptorSets fmask samplers_base set_bytes range_bytes p refs l = Some (r, hs, p', refs')
    /\ ((r = VK_SUCCESS /\ exists new, hs = Some <$> (ds_ptr <$> new) /\ p_sets p' = p_sets p ++ new
                                       /\ Forall2 asked_by l new)
        \/ (r <> VK_SUCCESS /\ hs = (fun _ => None) <$> l /\ p' = pool_with_mem p (p_mem p') /\ refs' = refs)).
Proof.
  intros Hok Hh Hr Hq.
  destruct (allocate_spec fmask samplers_base set_bytes range_bytes base p refs l Hok Hr Hq)
    as (r&hs&p'&refs'&E&_&_&_&[?|(?&?&H)]); exists r, hs, p', refs'; (split; [done|]); [by left|].
  right. destruct (H Hh). done.
Qed.

(** Freeing the sets of an allocation undoes it: the pool, its heap included, and the
    reference counts are what they were before the sets were allocated. *)
Theorem allocate_free_roundtrip base p refs l r hs p' refs' :
  pool_ok p -> p_host p = None -> refs_ok base refs (p_sets p) -> requests_ok samplers_base base p l ->
  radv_AllocateDescriptorSets fmask samplers_base set_bytes range_bytes p refs l = Some (r, hs, p', refs') ->
  exists m, radv_FreeDescriptorSets p' refs' hs = Some (pool_with_mem p m, refs).
Proof.
  intros Hok Hh Hr Hq E.
  destruct (allocate_spec fmask samplers_base set_bytes range_bytes base p refs l Hok Hr Hq)
    as (?&?&?&?&E'&Hok'&Hs&Hr'&Hcase). rewrite E in E'. injection E' as <- <- <- <-.
  assert (p_host p' = None) as Hh' by (by apply Hs).
  assert (exists new, omap id hs = ds_ptr <$> new /\ p_sets p' = p_sets p ++ new) as (new&Hid&Hsets).
  { destruct Hcase as [(_&new&->&->&_)|(_&->&H)].
    - exists new. by rewrite omap_id_Some.
    - exists []. destruct (H Hh) as [-> _]. split; [|by rewrite app_nil_r].
      clear. induction l as [|q l IH]; [done|exact IH]. }
  pose proof (po_kind p' Hok') as Hk. rewrite Hh' in Hk. destruct Hk as (Hndp&_).
  rewrite Hsets in Hndp. pose proof Hndp as Hnd. rewrite fmap_app in Hnd. apply NoDup_app in Hnd as (_&_&Hnd).
  destruct (free_spec base hs p' refs' Hok' Hh' Hr') as (p2&refs2&E2&Hok2&Hs2&Hsets2&Hr2).
  { by rewrite Hid. }
  { rewrite Hid, Hsets, fmap_app. intros x Hx. apply elem_of_app. by right. }
  assert (p_sets p2 = p_sets p) as Heq by (rewrite Hsets2, Hid, Hsets; by apply keep_tail).
  exists (p_mem p2). rewrite E2. f_equal. f_equal.
  - apply heap_pool_ext; [done|done|done|by eapply same_pool_trans|done].
  - eapply refs_unique; [|exact Hr]. by rewrite <- Heq.
Qed.

End Reach.

(** * A pool of two kinds of descriptors, used *)

Definition demo_layout : radv_descriptor_set_layout :=
  Layout 1 48 0 0 false false
    {[0 := BindingLayout (Some VK_DESCRIPTOR_TYPE_UNIFORM_BUFFER) 3 0 0 0 16 0 false]} [].

Definition demo_info (free_bit : bool) : pool_info :=
  PoolInfo 4 [(VK_DESCRIPTOR_TYPE_UNIFORM_BUFFER, 12); (VK_DESCRIPTOR_TYPE_SAMPLED_IMAGE, 2)] free_bit false None [].

Definition demo_oracle : pool_oracle := PoolOracle (Some 4096) (inr 65536) true true.

Definition demo_pool (free_bit : bool) : radv_descriptor_pool :=
  Pool (Some 65536) ∅ 0 320
    (if free_bit then None else Some (Host 4296 4296 4776)) []
    (if free_bit then Some (Heap [Hole 32 320] 320 false 0) else None) 0 4.

Definition demo_refs : layout_refs := {[7 := 1]}.
Definition demo_base (h : Z) : Z := if h =? 7 then 1 else 0.

Lemma demo_created free_bit : created false 120 16 200 demo_oracle (demo_info free_bit) (demo_pool free_bit).
Proof.
  split_and!; [|repeat constructor; done|by destruct free_bit; vm_compute].
  unfold pool_info_ok. destruct free_bit; vm_compute; repeat split; done.
Qed.

Lemma demo_refs_ok : refs_ok demo_base demo_refs [].
Proof.
  unfold demo_base. split; [intros h; case_cmp; lia|]. intros h. change (count_handle h []) with 0. cbv zeta.
  unfold demo_refs. destruct (Z.eqb_spec h 7) as [->|]; [done|]. simpl. by rewrite lookup_singleton_ne.
Qed.

Definition demo_requests : list set_request :=
  [Request 7 demo_layout false 0 (Some 1000); Request 7 demo_layout false 0 (Some 2000)].

Lemma demo_requests_ok p :
  p_sets p = [] -> p_size p <> 0 -> requests_ok (fun _ => 100) demo_base p demo_requests.
Proof.
  intros Hs Hz. unfold requests_ok. rewrite Hs. split.
  - assert (samplers_room (fun _ => 100) demo_layout) as Hr.
    { intros i b Hl Hne. exfalso. simpl in Hl. apply lookup_singleton_Some in Hl as [_ <-]. by apply Hne. }
    repeat constructor; try done.
  - intros _. split; [|intros ptr _; by apply not_elem_of_nil].
    simpl. apply NoDup_cons. split; [set_solver|apply NoDup_singleton].
Qed.

Lemma pool_sets_separate_witness :
  exists p refs, rtc (pool_step false (fun _ => 100) 120 16) (PoolState (demo_pool true) demo_refs demo_base)
                     (PoolState p refs demo_base)
    /\ length (p_sets p) = 2%nat /\ sets_disjoint (p_sets p).
Proof.
  destruct (radv_AllocateDescriptorSets false (fun _ => 100) 120 16 (demo_pool true) demo_refs demo_requests)
    as [[[[r hs] p] refs]|] eqn:E; [|vm_compute in E; discriminate].
  assert (rtc (pool_step false (fun _ => 100) 120 16)
    (PoolState (demo_pool true) demo_refs demo_base) (PoolState p refs demo_base)) as Hst.
  { eapply rtc_once, step_allocate; [by apply (demo_requests_ok (demo_pool true))|exact E]. }
  exists p, refs. split; [exact Hst|]. split; [vm_compute in E; by injection E as <- <- <- <-|].
  apply (pool_sets_separate false (fun _ => 100) 120 16 200 demo_oracle (demo_info true) (demo_pool true)
           demo_refs demo_base _ _ _ (demo_created true) demo_refs_ok Hst).
Defined.

Lemma reset_restores_pool_witness :
  exists p refs m refs', rtc (pool_step false (fun _ => 100) 120 16)
      (PoolState (demo_pool false) demo_refs demo_base) (PoolState p refs demo_base)
    /\ length (p_sets p) = 2%nat
    /\ radv_ResetDescriptorPool p refs = Some (pool_with_mem (demo_pool false) m, refs').
Proof.
  destruct (radv_AllocateDescriptorSets false (fun _ => 100) 120 16 (demo_pool false) demo_refs demo_requests)
    as [[[[r hs] p] refs]|] eqn:E; [|vm_compute in E; discriminate].
  assert (rtc (pool_step false (fun _ => 100) 120 16)
    (PoolState (demo_pool false) demo_refs demo_base) (PoolState p refs demo_base)) as Hst.
  { eapply rtc_once, step_allocate; [by apply (demo_requests_ok (demo_pool false))|exact E]. }
  destruct (reset_restores_pool false (fun _ => 100) 120 16 200 demo_oracle (demo_info false) (demo_pool false)
              demo_refs demo_base _ _ _ (demo_created false) demo_refs_ok Hst) as (m&refs'&E2&_).
  exists p, refs, m, refs'. split; [exact Hst|]. split; [vm_compute in E; by injection E as <- <- <- <-|exact E2].
Defined.

Lemma demo_pool_ok : pool_ok (demo_pool true).
Proof. apply (created_ok false 120 16 200 demo_oracle (demo_info true)). apply demo_created. Qed.

Lemma allocate_atomic_witness :
  exists r hs p' refs', radv_AllocateDescriptorSets false (fun _ => 100) 120 16 (demo_pool true) demo_refs
      demo_requests = Some (r, hs, p', refs') /\ hs = [Some 1000; Some 2000].
Proof.
  destruct (allocate_atomic false (fun _ => 100) 120 16 demo_base (demo_pool true) demo_refs demo_requests
              demo_pool_ok eq_refl demo_refs_ok (demo_requests_ok (demo_pool true) eq_refl ltac:(done)))
    as (r&hs&p'&refs'&E&_).
  exists r, hs, p', refs'. split; [exact E|]. vm_compute in E. by injection E as <- <- <- <-.
Defined.

Lemma allocate_free_roundtrip_witness :
  exists hs p' refs' m, radv_AllocateDescriptorSets false (fun _ => 100) 120 16 (demo_pool true) demo_refs
      demo_requests = Some (VK_SUCCESS, hs, p', refs')
    /\ radv_FreeDescriptorSets p' refs' hs = Some (pool_with_mem (demo_pool true) m, demo_refs).
Proof.
  destruct (radv_AllocateDescriptorSets false (fun _ => 100) 120 16 (demo_pool true) demo_refs demo_requests)
    as [[[[r hs] p'] refs']|] eqn:E; [|vm_compute in E; discriminate].
  destruct (allocate_free_roundtrip false (fun _ => 100) 120 16 demo_base (demo_pool true) demo_refs demo_requests
              r hs p' refs' demo_pool_ok eq_refl demo_refs_ok
              (demo_requests_ok (demo_pool true) eq_refl ltac:(done)) E) as (m&E2).
  exists hs, p', refs', m. split; [|exact E2]. vm_compute in E. by injection E as <- <- <- <-.
Defined.

(** * Two behaviours the API does not describe *)

Definition big_layout : radv_descriptor_set_layout := Layout 0 288 0 0 false false ∅ [].

Definition big_request : set_request := Request 7 big_layout false 0 (Some 3000).
Definition small_request : set_request := Request 7 demo_layout false 0 (Some 1000).

(** A failed allocation on a linear pool is not undone: the sets made before the one
    that does not fit stay in the pool until it is reset, so that a set that fitted before
    the failing call does not fit after it. *)
Theorem linear_failure_keeps_sets :
  exists hs p refs hs' p' refs',
    radv_AllocateDescriptorSets false (fun _ => 100) 120 16 (demo_pool false) demo_refs [small_request; big_request]
      = Some (VK_ERROR_OUT_OF_POOL_MEMORY, hs, p, refs)
    /\ hs = [None; None] /\ length (p_sets p) = 1%nat
    /\ radv_AllocateDescriptorSets false (fun _ => 100) 120 16 (demo_pool false) demo_refs [big_request]
      = Some (VK_SUCCESS, hs', p', refs')
    /\ radv_AllocateDescriptorSets false (fun _ => 100) 120 16 p refs [big_request]
      = Some (VK_ERROR_OUT_OF_POOL_MEMORY, [None], p, refs).
Proof.
  destruct (radv_AllocateDescriptorSets false (fun _ => 100) 120 16 (demo_pool false) demo_refs
              [small_request; big_request]) as [[[[r hs] p] refs]|] eqn:E; [|vm_compute in E; discriminate].
  destruct (radv_AllocateDescriptorSets false (fun _ => 100) 120 16 (demo_pool false) demo_refs [big_request])
    as [[[[r' hs'] p'] refs']|] eqn:E'; [|vm_compute in E'; discriminate].
  vm_compute in E, E'. injection E as <- <- <- <-. injection E' as <- <- <- <-.
  eexists _, _, _, _, _, _. split; [reflexivity|]. split; [reflexivity|]. split; [reflexivity|].
  split; [reflexivity|]. vm_compute. reflexivity.
Qed.

(** A pool that can free sets and was created without descriptor memory never
    initialises its heap, and allocating a set that needs memory from it walks an empty
    list head instead of reporting VK_ERROR_OUT_OF_POOL_MEMORY, which the linear pool of
    the same sizes does. *)
Theorem empty_heap_pool_faults :
  (exists p, radv_create_descriptor_pool false 120 16 200 demo_oracle
               (PoolInfo 4 [(VK_DESCRIPTOR_TYPE_UNIFORM_BUFFER_DYNAMIC, 4)] true false None []) = Some (inr p)
     /\ radv_AllocateDescriptorSets false (fun _ => 100) 120 16 p demo_refs [small_request] = None)
  /\ (exists p, radv_create_descriptor_pool false 120 16 200 demo_oracle
               (PoolInfo 4 [(VK_DESCRIPTOR_TYPE_UNIFORM_BUFFER_DYNAMIC, 4)] false false None []) = Some (inr p)
     /\ radv_AllocateDescriptorSets false (fun _ => 100) 120 16 p demo_refs [small_request]
        = Some (VK_ERROR_OUT_OF_POOL_MEMORY, [None], p, demo_refs)).
Proof.
  split.
  - destruct (radv_create_descriptor_pool _ _ _ _ _ _) as [[?|p]|] eqn:E; vm_compute in E; try discriminate.
    injection E as <-. eexists. split; [reflexivity|]. vm_compute. reflexivity.
  - destruct (radv_create_descriptor_pool _ _ _ _ _ _) as [[?|p]|] eqn:E; vm_compute in E; try discriminate.
    injection E as <-. eexists. split; [reflexivity|]. vm_compute. reflexivity.
Qed.
