(* ===== verification/PoolCapacity.v ===== *)
(** How much pool memory a set needs, and that a pool sized by the application always
    has it: the padding of a layout is covered by what pool creation reserves. *)

From stdpp Require Import gmap sorting.
From S2P Require Import Prelude Pm4 Vma WinsysCs DescriptorLayout DescriptorProofs DescriptorPool PoolProofs PoolOps.

(** * Sums *)

Fixpoint sum_by {A} (f : A -> Z) (l : list A) : Z :=
  match l with [] => 0 | x :: l => f x + sum_by f l end.

Lemma sum_by_app {A} (f : A -> Z) l1 l2 : sum_by f (l1 ++ l2) = sum_by f l1 + sum_by f l2.
Proof. induction l1 as [|x l1 IH]; simpl; [done|]. lia. Qed.

#[global] Instance sum_by_Permutation {A} (f : A -> Z) : Proper ((≡ₚ) ==> eq) (sum_by f).
Proof. induction 1; simpl; lia. Qed.

Lemma sum_by_le {A} (f g : A -> Z) l : Forall (fun x => f x <= g x) l -> sum_by f l <= sum_by g l.
Proof. induction 1; simpl; lia. Qed.

Lemma sum_by_nonneg {A} (f : A -> Z) l : Forall (fun x => 0 <= f x) l -> 0 <= sum_by f l.
Proof. induction 1; simpl; lia. Qed.

Lemma sum_by_plus {A} (f g : A -> Z) l : sum_by (fun x => f x + g x) l = sum_by f l + sum_by g l.
Proof. induction l; simpl; lia. Qed.

(** * Weights *)

(** Bytes a pool reserves for one unit of a descriptor type: a descriptor, one plane of
    a combined image sampler, or a byte of an inline block. *)
Definition pool_weight (fmask : bool) (t : VkDescriptorType) : Z :=
  match t with
  | VK_DESCRIPTOR_TYPE_UNIFORM_BUFFER | VK_DESCRIPTOR_TYPE_STORAGE_BUFFER
  | VK_DESCRIPTOR_TYPE_UNIFORM_TEXEL_BUFFER | VK_DESCRIPTOR_TYPE_STORAGE_TEXEL_BUFFER
  | VK_DESCRIPTOR_TYPE_SAMPLER | VK_DESCRIPTOR_TYPE_ACCELERATION_STRUCTURE_KHR => 16
  | VK_DESCRIPTOR_TYPE_STORAGE_IMAGE => 32
  | VK_DESCRIPTOR_TYPE_SAMPLED_IMAGE | VK_DESCRIPTOR_TYPE_INPUT_ATTACHMENT
  | VK_DESCRIPTOR_TYPE_MUTABLE_EXT => radv_get_sampled_image_desc_size fmask
  | VK_DESCRIPTOR_TYPE_COMBINED_IMAGE_SAMPLER => radv_get_combined_image_sampler_desc_size fmask
  | VK_DESCRIPTOR_TYPE_INLINE_UNIFORM_BLOCK => 1
  | _ => 0
  end.

(** The 16-byte descriptors that are counted for padding. *)
Definition counts_16 (t : VkDescriptorType) : bool :=
  match t with
  | VK_DESCRIPTOR_TYPE_UNIFORM_BUFFER | VK_DESCRIPTOR_TYPE_STORAGE_BUFFER
  | VK_DESCRIPTOR_TYPE_UNIFORM_TEXEL_BUFFER | VK_DESCRIPTOR_TYPE_STORAGE_TEXEL_BUFFER
  | VK_DESCRIPTOR_TYPE_SAMPLER | VK_DESCRIPTOR_TYPE_ACCELERATION_STRUCTURE_KHR => true
  | _ => false
  end.

Definition ty (x : shaped) : VkDescriptorType := lb_type (sh_binding x).

Definition inline_block (x : shaped) : bool := type_eq (ty x) VK_DESCRIPTOR_TYPE_INLINE_UNIFORM_BLOCK.

(** Units of its type a binding takes from the pool. *)
Definition units (x : shaped) : Z :=
  match ty x with
  | VK_DESCRIPTOR_TYPE_INLINE_UNIFORM_BLOCK => sh_size x
  | VK_DESCRIPTOR_TYPE_COMBINED_IMAGE_SAMPLER => sh_count x * (max_planes (sh_binding x)).1
  | _ => sh_count x
  end.

Definition charge (fmask : bool) (x : shaped) : Z :=
  pool_weight fmask (ty x) * units x + 28 * b2z (inline_block x).

Definition is_16 (x : shaped) : bool := counts_16 (ty x) && (0 <? units x).

(** The three kinds of placement. *)
Definition kind_a (x : shaped) : Prop := sh_align x = 32 /\ bytes x mod 32 = 0.
Definition kind_b (x : shaped) : Prop := sh_align x = 16 /\ bytes x mod 4 = 0
  /\ (inline_block x = false -> bytes x mod 16 = 0).
Definition kind_z (x : shaped) : Prop := sh_align x = 1 /\ bytes x = 0.

(** What the charge covers: the bytes, the padding after an inline block, and the
    alignment of a set to 32 bytes when something is there to align. *)
Definition charged (fmask : bool) (x : shaped) : Prop :=
  bytes x + 12 * b2z (inline_block x) <= charge fmask x
  /\ (sh_align x <> 32 -> (0 < bytes x \/ inline_block x = true) ->
      is_16 x = true \/ bytes x + 12 * b2z (inline_block x) + 16 <= charge fmask x).

(** * Runs of bindings *)

Lemma mod_add_mult x y a : 0 < a -> x mod a = 0 -> y mod a = 0 -> (x + y) mod a = 0.
Proof. intros Ha Hx Hy. rewrite Z.add_mod, Hx, Hy by lia. apply Z.mod_0_l. lia. Qed.

Lemma mod_16_4 x : x mod 16 = 0 -> x mod 4 = 0.
Proof. intros [q ->]%Z.mod_divide; [|lia]. apply Z.mod_divide; [lia|]. exists (q * 4). lia. Qed.

Lemma round_up_16_32 e : round_up e 32 <= round_up e 16 + 16.
Proof.
  unfold round_up. pose proof (Z.div_mod (e + 32 - 1) 32 ltac:(lia)). pose proof (Z.mod_pos_bound (e + 32 - 1) 32 ltac:(lia)).
  pose proof (Z.div_mod (e + 16 - 1) 16 ltac:(lia)). pose proof (Z.mod_pos_bound (e + 16 - 1) 16 ltac:(lia)). lia.
Qed.

Lemma round_up_4_16 e : e mod 4 = 0 -> round_up e 16 <= e + 12.
Proof.
  intros [q ->]%Z.mod_divide; [|lia]. pose proof (round_up_spec (q * 4) 16 ltac:(lia)) as [H Hm].
  apply Z.mod_divide in Hm as [r Hr]; lia.
Qed.

Lemma round_up_1 e : round_up e 1 = e.
Proof. unfold round_up. rewrite Z.div_1_r. lia. Qed.

Definition padded (x : shaped) : Z := bytes x + 12 * b2z (inline_block x).

(** 16-byte aligned bindings: the only gaps follow inline blocks. *)
Lemma run_16 l : forall s, Forall (fun x => kind_b x \/ kind_z x) l ->
  round_up (ends s l) 16 <= round_up s 16 + sum_by padded l.
Proof.
  induction l as [|x l IH]; intros s Hl; simpl; [lia|].
  apply Forall_cons in Hl as [Hx Hl]. pose proof (round_up_spec s 16 ltac:(lia)) as [Hr Hm].
  specialize (IH (round_up s (sh_align x) + bytes x) Hl). etrans; [exact IH|]. unfold padded at 2.
  destruct Hx as [(->&Hb&Hi)|[-> Hb]].
  - assert (round_up (round_up s 16 + bytes x) 16 <= round_up s 16 + bytes x + 12 * b2z (inline_block x)); [|lia].
    unfold b2z. destruct (inline_block x).
    + apply round_up_4_16, mod_add_mult; [lia|by apply mod_16_4|done].
    + rewrite round_up_id; [lia|lia|]. apply mod_add_mult; [lia|done|by apply Hi].
  - rewrite round_up_1, Hb, Z.add_0_r. unfold b2z. destruct (inline_block x); lia.
Qed.

(** 32-byte aligned bindings: no gap after the first. *)
Lemma run_32 l : forall s, Forall (fun x => kind_a x \/ kind_z x) l ->
  round_up (ends s l) 32 = round_up s 32 + sum_by bytes l.
Proof.
  induction l as [|x l IH]; intros s Hl; simpl; [lia|].
  apply Forall_cons in Hl as [Hx Hl]. pose proof (round_up_spec s 32 ltac:(lia)) as [Hr Hm].
  rewrite (IH _ Hl). destruct Hx as [[-> Hb]|[-> Hb]].
  - rewrite (round_up_id (round_up s 32 + bytes x)); [lia|lia|]. by apply mod_add_mult.
  - rewrite round_up_1, Hb, Z.add_0_r. lia.
Qed.

(** * The need of a set *)

Section Need.
Context (fmask : bool).

(** Sixteen bytes of padding are reserved for a set with a 16-byte descriptor. *)
Definition pad_16 (l : list shaped) : Z := 16 * b2z (existsb is_16 l).

Lemma pad_16_nonneg l : 0 <= pad_16 l.
Proof. unfold pad_16, b2z. destruct (existsb is_16 l); lia. Qed.

Lemma charge_padded l : Forall (charged fmask) l -> sum_by padded l <= sum_by (charge fmask) l.
Proof. intros H. apply sum_by_le. eapply Forall_impl; [exact H|]. by intros x [Hx _]. Qed.

(** A run that is not empty has the alignment to 32 bytes paid for. *)
Lemma run_charge l :
  Forall shape_ok l -> Forall (charged fmask) l -> Forall (fun x => kind_b x \/ kind_z x) l ->
  sum_by padded l = 0 \/ sum_by padded l + 16 <= sum_by (charge fmask) l + pad_16 l.
Proof.
  induction 1 as [|x l Hok Hoks IH]; intros Hc Hk; [by left|].
  apply Forall_cons in Hk as [Hx Hk]. apply Forall_cons in Hc as [[Hc Hc'] Hl].
  specialize (IH Hl Hk). pose proof (charge_padded l Hl). pose proof (pad_16_nonneg l).
  pose proof (bytes_nonneg x Hok). assert (sh_align x <> 32) as Ha by (destruct Hx as [[-> _]|[-> _]]; lia).
  unfold pad_16 in *. simpl. destruct (is_16 x) eqn:E16; simpl.
  { right. unfold padded at 1. lia. }
  destruct (inline_block x) eqn:Ei.
  { right. destruct (Hc' Ha (or_intror eq_refl)) as [|Hp]; [done|]. unfold padded at 1. rewrite Ei. lia. }
  destruct (Z.eq_dec (bytes x) 0) as [E0|E0].
  { unfold padded at 1 3. rewrite Ei, E0 in *. simpl in *. lia. }
  right. destruct (Hc' Ha) as [|Hp]; [left; lia|done|]. unfold padded at 1. rewrite Ei. lia.
Qed.

Lemma run_16_aligned s l :
  Forall shape_ok l -> Forall (charged fmask) l -> Forall (fun x => kind_b x \/ kind_z x) l ->
  round_up (ends s l) 32 <= round_up s 32 + sum_by (charge fmask) l + pad_16 l.
Proof.
  intros Hok Hc Hk. pose proof (run_16 l s Hk) as H16. pose proof (charge_padded l Hc). pose proof (pad_16_nonneg l).
  pose proof (round_up_spec s 32 ltac:(lia)) as [Hs Hsm].
  assert (round_up s 16 <= round_up s 32) as Hle.
  { apply round_up_least; [lia| |lia]. apply Z.mod_divide in Hsm as [q Hq]; [|lia].
    apply Z.mod_divide; [lia|]. exists (q * 2). lia. }
  pose proof (round_up_spec (ends s l) 16 ltac:(lia)) as [He _].
  destruct (run_charge l Hok Hc Hk) as [Hz|Hz].
  - assert (round_up (ends s l) 32 <= round_up s 32); [|lia]. apply round_up_least; [lia|done|lia].
  - pose proof (round_up_16_32 (ends s l)). lia.
Qed.

Lemma pad_16_mono l1 l2 : (forall x, x ∈ l1 -> x ∈ l2) -> pad_16 l1 <= pad_16 l2.
Proof.
  intros H. unfold pad_16, b2z. destruct (existsb is_16 l1) eqn:E1; [|by destruct (existsb is_16 l2)].
  destruct (existsb is_16 l2) eqn:E2; [done|]. exfalso.
  apply existsb_exists in E1 as (x&Hx&Hp). apply list_elem_of_In in Hx. specialize (H x Hx).
  apply list_elem_of_In in H. assert (existsb is_16 l2 = true); [|congruence]. apply existsb_exists. by exists x.
Qed.

Definition kinded (x : shaped) : Prop := kind_a x \/ kind_b x \/ kind_z x.

Lemma pass_Forall (P : shaped -> Prop) first second l : Forall P l -> Forall P (pass_of first second l).
Proof.
  intros H. apply Forall_forall. intros x Hx. apply elem_of_pass in Hx as [_ Hx].
  rewrite Forall_forall in H. by apply H.
Qed.

Lemma pass_kinds first second l : Forall kinded l ->
  Forall (fun x => kinded x /\ eqb (sh_align x =? first) second = false) (pass_of first second l).
Proof.
  intros H. apply Forall_forall. intros x Hx. apply elem_of_pass in Hx as [Hp Hx].
  rewrite Forall_forall in H. split; [by apply H|]. unfold in_pass in Hp. by apply negb_true_iff in Hp.
Qed.

(** The size of a set is covered by the charges of its bindings. *)
Lemma set_need first xs :
  Forall shape_ok xs -> Forall (charged fmask) xs -> Forall kinded xs -> first = 16 \/ first = 32 ->
  round_up (ends 0 (order first xs)) 32 <= sum_by (charge fmask) xs + pad_16 xs.
Proof.
  intros Hok Hc Hk Hf. unfold order. rewrite ends_app.
  assert (sum_by (charge fmask) xs = sum_by (charge fmask) (pass_of first false xs)
                                     + sum_by (charge fmask) (pass_of first true xs)) as ->.
  { rewrite <- sum_by_app. fold (order first xs). by rewrite order_perm. }
  set (P := pass_of first false xs) in *. set (Q := pass_of first true xs) in *.
  pose proof (pass_kinds first false xs Hk) as HP. pose proof (pass_kinds first true xs Hk) as HQ.
  fold P in HP. fold Q in HQ.
  assert (forall second, pad_16 (pass_of first second xs) <= pad_16 xs) as Hpad.
  { intros second. apply pad_16_mono. by intros x [_ Hx]%elem_of_pass. }
  assert (forall l, Forall (charged fmask) l -> Forall shape_ok l -> sum_by bytes l <= sum_by (charge fmask) l) as Hbc.
  { intros l Hl _. etrans; [|by apply charge_padded]. apply sum_by_le, Forall_forall. intros x _.
    unfold padded, b2z. destruct (inline_block x); lia. }
  pose proof (pass_Forall shape_ok first false xs Hok) as OP. pose proof (pass_Forall shape_ok first true xs Hok) as OQ.
  pose proof (pass_Forall _ first false xs Hc) as CP. pose proof (pass_Forall _ first true xs Hc) as CQ.
  fold P in OP, CP. fold Q in OQ, CQ.
  assert (round_up 0 32 = 0) as H0 by done.
  destruct Hf as [-> | ->].
  - rewrite run_32.
    2:{ eapply Forall_impl; [exact HQ|]. intros x [[?|[[-> _]|?]] Hx]; [by left| |by right]. done. }
    pose proof (run_16_aligned 0 P OP CP) as Hrun. rewrite H0 in Hrun.
    specialize (Hrun ltac:(eapply Forall_impl; [exact HP|]; intros x [[[-> _]|[?|[-> _]]] Hx]; [done|by left|done])).
    specialize (Hpad false). fold P in Hpad. specialize (Hbc Q CQ OQ). lia.
  - pose proof (run_16_aligned (ends 0 P) Q OQ CQ) as Hrun.
    specialize (Hrun ltac:(eapply Forall_impl; [exact HQ|]; intros x [[[-> _]|[?|?]] Hx]; [done|by left|by right])).
    rewrite (run_32 P 0) in Hrun.
    2:{ eapply Forall_impl; [exact HP|]. intros x [[?|[[-> _]|[-> _]]] Hx]; [by left|done|done]. }
    rewrite H0 in Hrun. specialize (Hpad true). fold Q in Hpad. specialize (Hbc P CP OP). lia.
Qed.

End Need.

(** * Shapes of a layout *)

Section Shapes.
Context (fmask : bool).

(** The rules of the API on a binding: inline blocks are a multiple of four bytes, and a
    format has at most three planes. *)
Definition binding_ok (b : layout_binding) : Prop :=
  0 <= lb_count b < W32
  /\ (lb_type b = VK_DESCRIPTOR_TYPE_INLINE_UNIFORM_BLOCK -> lb_count b mod 4 = 0)
  /\ 1 <= (max_planes b).1 <= 3.

Definition mutable_case (s a : Z) : Prop :=
  (s = 0 /\ a = 0) \/ (s = 16 /\ a = 16)
  \/ (a = 32 /\ (s = 32 \/ s = radv_get_sampled_image_desc_size fmask)).

Lemma mutable_loop_case l : forall s a s' a',
  mutable_case s a -> mutable_loop fmask l s a = Some (s', a') -> mutable_case s' a'.
Proof.
  induction l as [|t l IH]; intros s a s' a' H E; simpl in E; [by injection E as <- <-|].
  destruct (mutable_type_size fmask t) as [sz|] eqn:Et; [|done]. eapply IH; [|exact E].
  unfold mutable_case, radv_get_sampled_image_desc_size in *.
  destruct t; simpl in Et; try done; injection Et as <-; simpl;
    unfold RADV_BUFFER_DESC_SIZE, RADV_SAMPLER_DESC_SIZE, RADV_STORAGE_IMAGE_DESC_SIZE,
      radv_get_sampled_image_desc_size; destruct fmask; lia.
Qed.

Lemma mult_mod c s a : 0 < a -> s mod a = 0 -> (c * s) mod a = 0.
Proof. intros Ha [q ->]%Z.mod_divide; [|lia]. rewrite Z.mul_assoc. apply Z_mod_mult. Qed.

Lemma combined_size : radv_get_combined_image_sampler_desc_size fmask = if fmask then 96 else 64.
Proof. by destruct fmask. Qed.

Ltac unfold_kinds :=
  unfold kinded, kind_a, kind_b, kind_z, charged, charge, is_16, inline_block, units, bytes, ty, type_eq in *;
  cbn [sh_binding sh_size sh_align sh_count] in *.

Lemma shape_kinds info j b x :
  binding_ok b -> shape_at fmask info j b = Some x -> kinded x /\ charged fmask x.
Proof.
  intros (Hc&Hi&Hp) Hs. unfold shape_at, binding_shape in Hs.
  assert (radv_get_sampled_image_desc_size fmask = if fmask then 64 else 32) as Hsz by (by destruct fmask).
  pose proof combined_size as Hcs.
  destruct (lb_type b) eqn:Et; cbn [mbind option_bind radv_descriptor_alignment] in Hs;
    try (injection Hs as <-); unfold_kinds; rewrite ?Et; simpl; unfold RADV_BUFFER_DESC_SIZE,
      RADV_SAMPLER_DESC_SIZE, RADV_STORAGE_IMAGE_DESC_SIZE, RADV_ACCEL_STRUCT_DESC_SIZE.
  all: try solve [split; [right; left; split_and!; [done|by apply mult_mod|by intros; apply mult_mod]|];
    split; [lia|]; intros _ [H|H]; [left; lia|done]].
  all: try solve [split; [left; split; [done|apply mult_mod; [lia|rewrite ?Hsz; by destruct fmask]]|]; split; [nia|done]].
  (* combined image samplers *)
  - assert (u32 ((max_planes b).1 * radv_get_combined_image_sampler_desc_size fmask)
            = (max_planes b).1 * radv_get_combined_image_sampler_desc_size fmask) as ->.
    { apply u32_small. rewrite Hcs. unfold_words. destruct fmask; lia. }
    split; [left; split; [done|]|split; [nia|done]].
    rewrite Z.mul_assoc. apply mult_mod; [lia|]. rewrite Hcs. by destruct fmask.
  (* dynamic buffers *)
  - destruct (negb (li_push info)); [|done]. injection Hs as <-. unfold_kinds. rewrite Et. simpl.
    split; [right; right; lia|split; [lia|lia]].
  - destruct (negb (li_push info)); [|done]. injection Hs as <-. unfold_kinds. rewrite Et. simpl.
    split; [right; right; lia|split; [lia|lia]].
  (* inline blocks *)
  - specialize (Hi eq_refl). unfold b2z. rewrite ?bool_decide_eq_true_2 by done.
    split.
    { right; left. split; [done|]. split; [by rewrite Z.mul_1_l|]. done. }
    split; [lia|]. intros _ _. right. lia.
  (* mutable descriptors *)
  - unfold mutable_size_align in Hs. destruct (li_mutable info !! j) as [l|]; [cbn [mbind option_bind] in Hs|done].
    destruct (radv_mutable_descriptor_type_size_alignment fmask l) as [[s a]|] eqn:Em; simpl in Hs; [|done].
    apply mutable_loop_case in Em; [|by left].
    destruct (Z.eqb_spec s 0); [done|]. destruct (Z.eqb_spec a 0); [done|]. injection Hs as <-.
    unfold_kinds. rewrite Et. simpl. destruct Em as [?|[[-> ->]|[-> Hs']]]; [lia| |].
    + split; [right; left; split_and!; [done|by apply mult_mod|by intros; apply mult_mod]|].
      rewrite Hsz. split; [destruct fmask; lia|]. intros _ [H|H]; [|done]. right. destruct fmask; lia.
    + split; [left; split; [done|apply mult_mod; [lia|]]|split; [|done]].
      * destruct Hs' as [-> | ->]; [done|]. rewrite Hsz. by destruct fmask.
      * rewrite Hsz in *. destruct fmask; destruct Hs' as [-> | ->]; lia.
  (* acceleration structures, unknown types *)
  - split; [right; right; lia|split; lia].
Qed.

Lemma shapes_kinds info bs : forall j xs, Forall binding_ok bs -> shapes fmask info j bs = Some xs ->
  Forall kinded xs /\ Forall (charged fmask) xs.
Proof.
  induction bs as [|b bs IH]; intros j xs Hb; simpl; [by intros [= <-]|].
  apply Forall_cons in Hb as [Hb Hbs].
  destruct (shape_at fmask info j b) as [x|] eqn:E; [simpl|done].
  destruct (shapes fmask info (S j) bs) as [ys|] eqn:E2; [simpl|done]. intros [= <-].
  destruct (shape_kinds _ _ _ _ Hb E), (IH _ _ Hbs E2). split; by constructor.
Qed.

(** The memory of a set is covered by the charges of its bindings. *)
Lemma layout_need info first xs :
  info_ok fmask info first xs -> Forall binding_ok (li_bindings info) -> ends 0 (order first xs) <= INT32_MAX ->
  align (ends 0 (order first xs)) 32 <= sum_by (charge fmask) xs + pad_16 xs.
Proof.
  intros Hok Hb Hfit. pose proof (info_shape_ok _ _ _ _ Hok) as Hsh. destruct Hok as [_ _ Hs _ Hf].
  assert (Forall binding_ok (sorted_bindings info)) as Hb' by (by rewrite sorted_perm).
  destruct (shapes_kinds _ _ _ _ Hb' Hs) as [Hk Hc].
  pose proof (ends_le 0 _ (order_ok first xs Hsh)).
  rewrite align_exact; [|by right; right|unfold INT32_MAX in Hfit; lia].
  apply set_need; [done|done|done|]. unfold first_alignment_of in Hf.
  destruct (last (sorted_bindings info)) as [b|]; [|injection Hf as <-; by right].
  destruct (if type_eq (lb_type b) VK_DESCRIPTOR_TYPE_MUTABLE_EXT then _ else _) as [a|]; [|done].
  cbn [mbind option_bind] in Hf. injection Hf as <-. case_cmp; [by left|by right].
Qed.

End Shapes.
