(* ===== verification/PoolCapacityMain.v ===== *)
(** A linear descriptor pool never runs out before the application exceeds the counts it
    asked for. *)

From stdpp Require Import gmap sorting.
From S2P Require Import Prelude Pm4 Vma WinsysCs DescriptorLayout DescriptorProofs DescriptorPool PoolProofs PoolOps.
From S2P Require Import PoolCapacity.

(** * The dynamic offsets of a layout *)

Definition dynamic_units (x : shaped) : Z := if is_dynamic (ty x) then sh_count x else 0.

Section Dynamic.
Context (fmask : bool).

(** Only dynamic bindings have dynamic offsets. *)
Definition dynamic_inv (B : list layout_binding) (l : radv_descriptor_set_layout) : Prop :=
  forall k bl, l_binding l !! k = Some bl ->
    bl_dynamic_offset_count bl = 0
    \/ (bl_dynamic_offset_count bl = 1 /\ exists b, b ∈ B /\ lb_binding b = k /\ is_dynamic (lb_type b) = true).

Context (samplers_base : Z -> Z).

Lemma place_binding_dynamic info nb first second j b B x l d l' d' :
  NoDup (lb_binding <$> B) -> b ∈ B -> shape_at fmask info j b = Some x -> 0 <= sh_count x ->
  dynamic_inv B l -> 0 <= d ->
  place_binding fmask samplers_base info nb first second j b (l, d) = Some (l', d') ->
  dynamic_inv B l' /\ 0 <= d' <= d + (if in_pass first second x then dynamic_units x else 0).
Proof.
  intros Hnd Hb Hs Hc Hinv Hd. unfold place_binding, shape_at in *.
  destruct (binding_shape fmask info j b) as [[[size al] count]|]; [|done].
  cbn [mbind option_bind] in *. injection Hs as <-. unfold in_pass, dynamic_units, ty in *. simpl in *.
  set (old := default zero_binding (l_binding l !! lb_binding b)).
  assert ((if is_dynamic (lb_type b) then 1 else bl_dynamic_offset_count old)
          = if is_dynamic (lb_type b) then 1 else 0) as ->.
  { destruct (is_dynamic (lb_type b)) eqn:Ed; [done|]. unfold old.
    destruct (l_binding l !! lb_binding b) as [bl|] eqn:El; simpl; [|done].
    destruct (Hinv _ _ El) as [|(_&b'&Hb'&Hn&Hd')]; [done|].
    rewrite (same_binding B b' b Hnd Hb' Hb Hn) in Hd'. congruence. }
  assert (forall bl, bl_dynamic_offset_count bl = (if is_dynamic (lb_type b) then 1 else 0) ->
    forall k bl', <[lb_binding b := bl]> (l_binding l) !! k = Some bl' ->
    bl_dynamic_offset_count bl' = 0
    \/ (bl_dynamic_offset_count bl' = 1
        /\ exists b, b ∈ B /\ lb_binding b = k /\ is_dynamic (lb_type b) = true)) as Hins.
  { intros bl Hbl k bl' [[<- <-]|[_ Hl]]%lookup_insert_Some; [|by apply Hinv].
    rewrite Hbl. destruct (is_dynamic (lb_type b)) eqn:Ed; [right|by left]. split; [done|]. by exists b. }
  destruct (eqb (al =? first) second); simpl.
  - intros [= <- <-]. split; [|lia]. intros k bl'. simpl. by apply Hins.
  - destruct (cassert _); [cbn [mbind option_bind]|done]. intros [= <- <-]. split.
    { intros k bl'. simpl. by apply Hins. }
    assert (forall n, 0 <= n -> 0 <= u32 n <= n) as Hu.
    { intros n Hn. split; [apply u32_range|]. by apply Z.mod_le. }
    destruct (is_dynamic (lb_type b)).
    + destruct (Hu (count * 1) ltac:(lia)). destruct (Hu (d + u32 (count * 1)) ltac:(lia)). lia.
    + rewrite Z.mul_0_r. change (u32 0) with 0. destruct (Hu (d + 0) ltac:(lia)). lia.
Qed.

Lemma place_all_dynamic info nb first second B bs : NoDup (lb_binding <$> B) -> forall j xs l d l' d',
  (forall b, b ∈ bs -> b ∈ B) -> shapes fmask info j bs = Some xs -> Forall shape_ok xs ->
  dynamic_inv B l -> 0 <= d ->
  place_all fmask samplers_base info nb first second j bs (l, d) = Some (l', d') ->
  dynamic_inv B l' /\ 0 <= d' <= d + sum_by dynamic_units (pass_of first second xs).
Proof.
  intros Hnd. induction bs as [|b bs IH]; intros j xs l d l' d' Hsub Hsh Hok Hinv Hd E;
    simpl in Hsh; cbn [place_all] in E.
  { injection Hsh as <-. injection E as <- <-. simpl. split; [done|lia]. }
  destruct (shape_at fmask info j b) as [x|] eqn:Ex; [simpl in Hsh|done].
  destruct (shapes fmask info (S j) bs) as [ys|] eqn:Ey; [simpl in Hsh|done]. injection Hsh as <-.
  apply Forall_cons in Hok as [Hx Hok].
  destruct (place_binding _ _ _ _ _ _ _ _ _) as [[l1 d1]|] eqn:E1; [cbn [mbind option_bind] in E|done].
  destruct (place_binding_dynamic info nb first second j b B x l d l1 d1) as [Hinv1 Hd1];
    [done|apply Hsub, elem_of_cons; by left|done|by destruct Hx as (_&_&?)|done|done|done|].
  destruct (IH (S j) ys l1 d1 l' d') as [Hinv2 Hd2]; try done; [|lia|].
  { intros b' Hb'. apply Hsub, elem_of_cons. by right. }
  split; [done|]. rewrite pass_of_cons, sum_by_app. destruct (in_pass first second x); simpl; lia.
Qed.

(** A layout has no more dynamic offsets than dynamic descriptors. *)
Lemma layout_dynamic info first xs l :
  info_ok fmask info first xs ->
  radv_CreateDescriptorSetLayout fmask samplers_base true true info = Some (inr l) ->
  0 <= l_dynamic_offset_count l <= sum_by dynamic_units xs.
Proof.
  intros Hok. pose proof (info_shape_ok _ _ _ _ Hok) as Hsh. destruct Hok as [Hn _ Hs _ Hf].
  unfold radv_CreateDescriptorSetLayout. cbn [negb]. rewrite sorted_result, Hf. cbn [mbind option_bind].
  assert (NoDup (lb_binding <$> sorted_bindings info)) as Hn' by (by rewrite sorted_perm).
  destruct (place_all _ _ _ _ _ false _ _ _) as [[l1 d1]|] eqn:E1; [cbn [mbind option_bind]|done].
  destruct (place_all _ _ _ _ _ true _ _ _) as [[l2 d2]|] eqn:E2; [cbn [mbind option_bind]|done].
  intros [= <-]. simpl.
  assert (dynamic_inv (sorted_bindings info)
            (Layout (num_bindings_of (li_bindings info)) 0 0 0 false false ∅ [])) as I0.
  { intros k bl Hk. simpl in Hk. by rewrite lookup_empty in Hk. }
  destruct (place_all_dynamic _ _ _ _ _ _ Hn' _ _ _ _ _ _ (fun b H => H) Hs Hsh I0 (Z.le_refl 0) E1) as [I1 D1].
  destruct (place_all_dynamic _ _ _ _ _ _ Hn' _ _ _ _ _ _ (fun b H => H) Hs Hsh I1 (proj1 D1) E2) as [I2 D2].
  assert (sum_by dynamic_units xs = sum_by dynamic_units (pass_of first false xs)
                                    + sum_by dynamic_units (pass_of first true xs)) as ->.
  { rewrite <- sum_by_app. fold (order first xs). by rewrite order_perm. }
  unfold u16. pose proof (Z.mod_pos_bound d2 W16 ltac:(done)). pose proof (Z.mod_le d2 W16 ltac:(lia) ltac:(done)). lia.
Qed.

End Dynamic.

(** * Supply *)

Definition weigh (w : VkDescriptorType -> Z) (p : VkDescriptorType * Z) : Z := w p.1 * p.2.

Lemma weigh_pair w t c : weigh w (t, c) = w t * c.
Proof. done. Qed.

Definition weight_16 (t : VkDescriptorType) : Z := b2z (counts_16 t).
Definition weight_dynamic (t : VkDescriptorType) : Z := b2z (is_dynamic t).

Definition all_types : list VkDescriptorType :=
  [VK_DESCRIPTOR_TYPE_SAMPLER; VK_DESCRIPTOR_TYPE_COMBINED_IMAGE_SAMPLER; VK_DESCRIPTOR_TYPE_SAMPLED_IMAGE;
   VK_DESCRIPTOR_TYPE_STORAGE_IMAGE; VK_DESCRIPTOR_TYPE_UNIFORM_TEXEL_BUFFER;
   VK_DESCRIPTOR_TYPE_STORAGE_TEXEL_BUFFER; VK_DESCRIPTOR_TYPE_UNIFORM_BUFFER; VK_DESCRIPTOR_TYPE_STORAGE_BUFFER;
   VK_DESCRIPTOR_TYPE_UNIFORM_BUFFER_DYNAMIC; VK_DESCRIPTOR_TYPE_STORAGE_BUFFER_DYNAMIC;
   VK_DESCRIPTOR_TYPE_INPUT_ATTACHMENT; VK_DESCRIPTOR_TYPE_INLINE_UNIFORM_BLOCK;
   VK_DESCRIPTOR_TYPE_ACCELERATION_STRUCTURE_KHR; VK_DESCRIPTOR_TYPE_MUTABLE_EXT; VK_DESCRIPTOR_TYPE_OTHER].

(** How much of a type a list of pool sizes, or of demands, holds. *)
Definition amount (t : VkDescriptorType) (l : list (VkDescriptorType * Z)) : Z :=
  sum_by (fun p => if type_eq p.1 t then p.2 else 0) l.

Lemma sum_by_zero {A} (f : A -> Z) l : (forall x, x ∈ l -> f x = 0) -> sum_by f l = 0.
Proof.
  induction l as [|x l IH]; intros H; simpl; [done|]. rewrite (H x), IH; [done| |]; [|apply elem_of_cons; by left].
  intros y Hy. apply H, elem_of_cons. by right.
Qed.

Lemma sum_by_pick (w : VkDescriptorType -> Z) t c l : NoDup l -> t ∈ l ->
  sum_by (fun t' => w t' * (if type_eq t t' then c else 0)) l = w t * c.
Proof.
  unfold type_eq. induction 1 as [|x l Hx Hnd IH]; [by intros ?%elem_of_nil|]. simpl.
  rewrite elem_of_cons. intros [<-|Hin].
  - rewrite bool_decide_eq_true_2 by done. rewrite sum_by_zero; [lia|]. intros y Hy.
    rewrite bool_decide_eq_false_2 by (intros ->; done). lia.
  - rewrite bool_decide_eq_false_2 by (intros ->; done). rewrite IH by done. lia.
Qed.

Lemma all_types_NoDup : NoDup all_types.
Proof. apply (bool_decide_unpack _). by vm_compute. Qed.

Lemma all_types_complete t : t ∈ all_types.
Proof. destruct t; apply (bool_decide_unpack _); by vm_compute. Qed.

Lemma sum_by_ext {A} (f g : A -> Z) l : (forall x, f x = g x) -> sum_by f l = sum_by g l.
Proof. intros H. induction l as [|x l IH]; simpl; [done|]. by rewrite H, IH. Qed.

Lemma weigh_by_type w l :
  sum_by (weigh w) l = sum_by (fun t => w t * amount t l) all_types.
Proof.
  induction l as [|[t c] l IH]; [symmetry; apply sum_by_zero; intros; apply Z.mul_0_r|].
  cbn [sum_by]. rewrite IH. unfold weigh. cbn [fst snd].
  rewrite <- (sum_by_pick w t c all_types all_types_NoDup (all_types_complete t)), <- sum_by_plus.
  apply sum_by_ext. intros t'. unfold amount. cbn [sum_by fst snd]. lia.
Qed.

(** More of every type weighs more. *)
Lemma weigh_le w l1 l2 :
  (forall t, 0 <= w t) -> (forall t, amount t l1 <= amount t l2) -> sum_by (weigh w) l1 <= sum_by (weigh w) l2.
Proof.
  intros Hw Ha. rewrite !weigh_by_type. apply sum_by_le, Forall_forall. intros t _.
  specialize (Hw t). specialize (Ha t). nia.
Qed.

Section Supply.
Context (fmask : bool).

Definition inline_bindings (info : pool_info) : Z := default 0 (pi_inline info).

(** A pool without mutable type lists whose memory and dynamic ranges are 32-bit values. *)
Definition pool_fits (info : pool_info) : Prop :=
  pi_mutable info = [] /\ Forall (fun p => 0 <= p.2) (pi_sizes info)
  /\ 0 <= inline_bindings info /\ 0 <= pi_max_sets info
  /\ 28 * inline_bindings info + sum_by (weigh (pool_weight fmask)) (pi_sizes info)
     + 16 * pi_max_sets info < W32
  /\ sum_by (weigh weight_dynamic) (pi_sizes info) < W32.

Lemma pool_weight_nonneg t : 0 <= pool_weight fmask t.
Proof.
  destruct t; simpl; try lia; unfold radv_get_sampled_image_desc_size; try (destruct fmask; lia).
  rewrite combined_size. destruct fmask; lia.
Qed.

Lemma weights_nonneg w l : (forall t, 0 <= w t) -> Forall (fun p : VkDescriptorType * Z => 0 <= p.2) l ->
  0 <= sum_by (weigh w) l.
Proof.
  intros Hw H. apply sum_by_nonneg. eapply Forall_impl; [exact H|]. intros [t c]. simpl. unfold weigh. simpl.
  specialize (Hw t). nia.
Qed.

Lemma weight_16_nonneg t : 0 <= weight_16 t.
Proof. unfold weight_16, b2z. destruct (counts_16 t); lia. Qed.

Lemma weight_dynamic_nonneg t : 0 <= weight_dynamic t.
Proof. unfold weight_dynamic, b2z. destruct (is_dynamic t); lia. Qed.

Lemma pool_step_exact info i t c s :
  pi_mutable info = [] -> 0 <= c -> 0 <= sum_bo s -> 0 <= sum_ranges s -> 0 <= sum_16 s ->
  sum_bo s + pool_weight fmask t * c < W32 -> sum_ranges s + weight_dynamic t * c < W32 ->
  sum_16 s + weight_16 t * c < W32 ->
  pool_size_step fmask info i t c s
  = Sums (sum_bo s + pool_weight fmask t * c) (sum_ranges s + weight_dynamic t * c)
         (sum_16 s + weight_16 t * c).
Proof.
  intros Hm Hc H1 H2 H3. destruct s as [bo r n]. unfold pool_size_step. cbn [sum_bo sum_ranges sum_16] in *.
  pose proof (pool_weight_nonneg t) as Hw.
  destruct t; unfold weight_dynamic, weight_16, b2z; simpl in *; intros B1 B2 B3;
    rewrite ?Z.mul_0_l, ?Z.mul_1_l, ?Z.add_0_r in *;
    unfold RADV_BUFFER_DESC_SIZE, RADV_STORAGE_IMAGE_DESC_SIZE in *; rewrite ?Hm; simpl;
    unwrap; try done; f_equal; try lia.
Qed.

Lemma pool_loop_exact info l : pi_mutable info = [] -> forall i s,
  Forall (fun p => 0 <= p.2) l -> 0 <= sum_bo s -> 0 <= sum_ranges s -> 0 <= sum_16 s ->
  sum_bo s + sum_by (weigh (pool_weight fmask)) l < W32 ->
  sum_ranges s + sum_by (weigh weight_dynamic) l < W32 ->
  sum_16 s + sum_by (weigh weight_16) l < W32 ->
  pool_size_loop fmask info i l s
  = Sums (sum_bo s + sum_by (weigh (pool_weight fmask)) l) (sum_ranges s + sum_by (weigh weight_dynamic) l)
         (sum_16 s + sum_by (weigh weight_16) l).
Proof.
  intros Hm. induction l as [|[t c] l IH]; intros i s Hl H1 H2 H3 B1 B2 B3; cbn [pool_size_loop sum_by] in *.
  { rewrite !Z.add_0_r. by destruct s. }
  apply Forall_cons in Hl as [Hc Hl]. rewrite !weigh_pair in *. cbn [fst snd] in Hc.
  pose proof (weights_nonneg (pool_weight fmask) l pool_weight_nonneg Hl).
  pose proof (weights_nonneg weight_dynamic l weight_dynamic_nonneg Hl).
  pose proof (weights_nonneg weight_16 l weight_16_nonneg Hl).
  pose proof (pool_weight_nonneg t). pose proof (weight_16_nonneg t). pose proof (weight_dynamic_nonneg t).
  rewrite (pool_step_exact info i t c s) by (done || lia). rewrite IH; simpl; try done; try nia.
  f_equal; lia.
Qed.

(** The memory and the ranges of a pool, without wrap-around. *)
Lemma pool_sizes_exact info : pool_fits info ->
  (pool_sizes fmask info).1 = 28 * inline_bindings info + sum_by (weigh (pool_weight fmask)) (pi_sizes info)
                              + 16 * Z.min (sum_by (weigh weight_16) (pi_sizes info)) (pi_max_sets info)
  /\ (pool_sizes fmask info).2 = sum_by (weigh weight_dynamic) (pi_sizes info).
Proof.
  intros (Hm&Hc&Hi&Hx&B1&B2).
  pose proof (weights_nonneg (pool_weight fmask) _ pool_weight_nonneg Hc).
  pose proof (weights_nonneg weight_dynamic _ weight_dynamic_nonneg Hc).
  pose proof (weights_nonneg weight_16 _ weight_16_nonneg Hc).
  assert (sum_by (weigh weight_16) (pi_sizes info) <= sum_by (weigh (pool_weight fmask)) (pi_sizes info)) as H16.
  { apply sum_by_le. eapply Forall_impl; [exact Hc|]. intros [t c] Hp. unfold weigh. simpl in *.
    unfold weight_16. pose proof (pool_weight_nonneg t). destruct t; simpl in *; lia || nia. }
  unfold pool_sizes. cbn [fst snd].
  assert (match pi_inline info with Some n => u64 (28 * n) | None => 0 end = 28 * inline_bindings info) as ->.
  { unfold inline_bindings in *. destruct (pi_inline info) as [n|]; simpl in *; [|done]. unwrap. done. }
  rewrite pool_loop_exact; cbn [sum_bo sum_ranges sum_16]; try done; try lia. rewrite !Z.add_0_l.
  split; [|done]. case_cmp; [lia|]. apply u64_small. unfold_words. lia.
Qed.

End Supply.

(** * Demand *)

(** What sets with these bindings take from a pool, by type. *)
Definition demand (xss : list (list shaped)) : list (VkDescriptorType * Z) :=
  concat (map (fun xs => map (fun x => (ty x, units x)) xs) xss).

Definition inline_count (xs : list shaped) : Z := sum_by (fun x => b2z (inline_block x)) xs.

Section Demand.
Context (fmask : bool).

Definition need (xs : list shaped) : Z := sum_by (charge fmask) xs + pad_16 xs.

Lemma sum_by_map {A B} (f : B -> Z) (g : A -> B) l : sum_by f (map g l) = sum_by (fun x => f (g x)) l.
Proof. induction l as [|x l IH]; simpl; [done|]. by rewrite IH. Qed.

Lemma charge_demand xs :
  sum_by (charge fmask) xs
  = sum_by (weigh (pool_weight fmask)) (map (fun x => (ty x, units x)) xs) + 28 * inline_count xs.
Proof.
  unfold inline_count. rewrite sum_by_map. induction xs as [|x xs IH]; simpl; [done|].
  unfold charge at 1. rewrite weigh_pair, IH. lia.
Qed.

Lemma has_16_units xs : Forall (fun x => 0 <= units x) xs ->
  b2z (existsb is_16 xs) <= sum_by (weigh weight_16) (map (fun x => (ty x, units x)) xs).
Proof.
  rewrite sum_by_map. induction 1 as [|x xs Hx _ IH]; simpl; [done|]. rewrite weigh_pair.
  assert (0 <= sum_by (fun x => weigh weight_16 (ty x, units x)) xs) as Hn.
  { destruct (existsb is_16 xs); simpl in IH; lia. }
  assert (weight_16 (ty x) = b2z (counts_16 (ty x))) as -> by done. unfold is_16 at 1.
  destruct (counts_16 (ty x)); simpl; [|lia].
  destruct (Z.ltb_spec 0 (units x)); simpl; lia.
Qed.

Lemma need_demand xss : Forall (Forall (fun x => 0 <= units x)) xss ->
  exists n16, 0 <= n16 /\ sum_by need xss
    = sum_by (weigh (pool_weight fmask)) (demand xss) + 28 * sum_by inline_count xss + 16 * n16
    /\ n16 <= Z.of_nat (length xss) /\ n16 <= sum_by (weigh weight_16) (demand xss).
Proof.
  induction 1 as [|xs xss Hxs _ (n&H0&H1&H2&H3)]; [exists 0; by vm_compute|].
  exists (b2z (existsb is_16 xs) + n). unfold demand in *. cbn [map concat sum_by].
  rewrite !sum_by_app, H1. unfold need at 1. rewrite charge_demand. pose proof (has_16_units xs Hxs).
  unfold pad_16 in *. rewrite length_cons. unfold b2z in *. destruct (existsb is_16 xs); lia.
Qed.

Lemma dynamic_demand xss :
  sum_by (sum_by dynamic_units) xss = sum_by (weigh weight_dynamic) (demand xss).
Proof.
  induction xss as [|xs xss IH]; [done|]. unfold demand in *. cbn [map concat sum_by].
  rewrite sum_by_app, IH, sum_by_map. f_equal. apply sum_by_ext. intros x. rewrite weigh_pair.
  unfold dynamic_units, weight_dynamic, units, b2z. destruct (ty x); simpl; lia.
Qed.

(** Sets within the counts of a pool need no more than its memory and ranges. *)
Lemma need_supply info xss :
  pool_fits fmask info -> Forall (Forall (fun x => 0 <= units x)) xss ->
  (forall t, amount t (demand xss) <= amount t (pi_sizes info)) ->
  sum_by inline_count xss <= inline_bindings info -> Z.of_nat (length xss) <= pi_max_sets info ->
  sum_by need xss <= (pool_sizes fmask info).1
  /\ sum_by (sum_by dynamic_units) xss <= (pool_sizes fmask info).2.
Proof.
  intros Hf Hu Ha Hi Hn. destruct (pool_sizes_exact fmask info Hf) as [-> ->].
  destruct (need_demand xss Hu) as (n&H0&->&H1&H2). rewrite dynamic_demand.
  pose proof (weigh_le _ _ _ (pool_weight_nonneg fmask) Ha). pose proof (weigh_le _ _ _ weight_16_nonneg Ha).
  pose proof (weigh_le _ _ _ weight_dynamic_nonneg Ha). split; [|done]. lia.
Qed.

End Demand.

(** * The loop on a linear pool *)

Section Loop.
Context (fmask : bool) (samplers_base : Z -> Z) (set_bytes range_bytes : Z).

Definition request_bytes (q : set_request) : Z := descriptor_set_size (rq_layout q) (variable_of q).

Lemma allocate_loop_linear base l : forall p refs made h,
  pool_ok p -> p_host p = Some h -> refs_ok base refs (p_sets p) -> requests_ok samplers_base base p l ->
  p_entry_count p + Z.of_nat (length l) <= p_max_entry_count p ->
  sum_by (fun q => struct_bytes set_bytes range_bytes (rq_layout q)) l <= hm_end h - hm_ptr h ->
  p_current_offset p + sum_by request_bytes l <= p_size p ->
  exists made' p' refs',
    allocate_loop fmask samplers_base set_bytes range_bytes p refs made l = Some (VK_SUCCESS, made', p', refs').
Proof.
  induction l as [|q l IH]; intros p refs made h Hok Hh Hr Hq Hn Hm Hs; cbn [allocate_loop]; [by eexists _, _, _|].
  destruct (requests_set_ok _ _ _ _ _ Hq) as [Hp Hset].
  rewrite Hp. cbn [negb cassert mbind option_bind]. fold (variable_of q).
  cbn [sum_by] in Hm, Hs. rewrite length_cons in Hn.
  assert (0 <= sum_by (fun q => struct_bytes set_bytes range_bytes (rq_layout q)) l) as H1
    by (apply sum_by_nonneg, Forall_forall; intros; apply u32_range).
  assert (0 <= sum_by request_bytes l) as H2
    by (apply sum_by_nonneg, Forall_forall; intros; apply align_range).
  destruct (create_linear fmask samplers_base set_bytes range_bytes base p refs h (rq_handle q) (rq_layout q)
              (variable_of q) (rq_zalloc q) Hok Hh Hr Hset)
    as (r&o&p1&refs1&E&[(_&_&_&_&Hfail)|(->&Hr1&Hh1&Hc1&s&->&Ha&Hask)]).
  { fold (request_bytes q) in Hfail. lia. }
  rewrite E. cbn [mbind option_bind]. pose proof Ha as (Hok1&(_&Hsz&Hmx&_)&Hsets).
  eapply IH; [done|exact Hh1|done| | | |].
  - eapply requests_next; [done|done|congruence].
  - destruct Hok1 as [_ Hc _ _ _ _]. rewrite Hc, Hsets, length_app, Hmx. destruct Hok. simpl. lia.
  - simpl. lia.
  - fold (request_bytes q) in Hc1. lia.
Qed.

Context (pool_bytes : Z).

(** A set asked for by a request: the layout was created from a valid description and the
    set is not cut to a variable count. *)
Definition wants (q : set_request) (w : layout_info * list shaped) : Prop :=
  variable_of q = 0
  /\ exists first, info_ok fmask w.1 first w.2 /\ Forall binding_ok (li_bindings w.1)
       /\ ends 0 (order first w.2) <= INT32_MAX
       /\ radv_CreateDescriptorSetLayout fmask samplers_base true true w.1 = Some (inr (rq_layout q)).

Lemma units_nonneg info first xs :
  info_ok fmask info first xs -> Forall binding_ok (li_bindings info) -> Forall (fun x => 0 <= units x) xs.
Proof.
  intros Hok Hb. pose proof (info_shape_ok _ _ _ _ Hok) as Hsh. destruct Hok as [_ _ Hs _ _].
  apply Forall_forall. intros x Hx. rewrite Forall_forall in Hsh. rewrite Forall_forall in Hb. destruct (Hsh x Hx) as (_&H1&H2).
  assert (sh_binding x ∈ li_bindings info) as Hin.
  { rewrite <- (sorted_perm info), <- (shapes_bindings _ _ _ _ _ Hs). by apply list_elem_of_fmap_2. }
  destruct (Hb _ Hin) as (_&_&Hp). unfold units. destruct (ty x); lia || nia.
Qed.

Lemma wants_need q w : wants q w -> 0 <= set_bytes -> 0 <= range_bytes ->
  request_bytes q <= need fmask w.2
  /\ struct_bytes set_bytes range_bytes (rq_layout q) <= set_bytes + range_bytes * sum_by dynamic_units w.2.
Proof.
  intros (Hv&first&Hok&Hb&Hfit&E) H1 H2. split.
  - destruct (layout_create_spec fmask samplers_base w.1 first w.2 Hok Hfit) as (l&E'&Hsz&_).
    rewrite E in E'. injection E' as <-. unfold request_bytes, descriptor_set_size. rewrite Hv. simpl. rewrite Hsz.
    by apply (layout_need fmask w.1).
  - destruct (layout_dynamic fmask samplers_base w.1 first w.2 _ Hok E). unfold struct_bytes.
    etrans; [apply Z.mod_le; [nia|done]|]. nia.
Qed.

(** C24: A pool holds what it was made for: when the sets of one vkAllocateDescriptorSets
    call on a new linear pool take, type by type, no more descriptors than the pool was
    created with, no more inline blocks than declared and no more sets than [maxSets], the
    call succeeds; the padding of every layout is covered. *)
Theorem linear_pool_capacity o info p0 base refs l ws :
  pool_info_ok fmask set_bytes range_bytes pool_bytes info -> pi_free_bit info = false -> pool_fits fmask info ->
  radv_create_descriptor_pool fmask set_bytes range_bytes pool_bytes o info = Some (inr p0) ->
  refs_ok base refs [] -> requests_ok samplers_base base p0 l -> Forall2 wants l ws ->
  (forall t, amount t (demand (snd <$> ws)) <= amount t (pi_sizes info)) ->
  sum_by inline_count (snd <$> ws) <= inline_bindings info -> Z.of_nat (length l) <= pi_max_sets info ->
  exists hs p refs',
    radv_AllocateDescriptorSets fmask samplers_base set_bytes range_bytes p0 refs l = Some (VK_SUCCESS, hs, p, refs').
Proof.
  intros Hinfo Hbit Hfits E Hr Hq Hw Ha Hi Hn. pose proof Hinfo as (_&_&_&Hsb&Hrb&_).
  destruct (create_pool_spec fmask set_bytes range_bytes pool_bytes o info Hinfo) as (r&E'&Hp).
  { destruct Hfits as (_&Hc&_). eapply Forall_impl; [exact Hc|]. by intros [t c]. }
  rewrite E' in E. injection E as ->. destruct (Hp p0 eq_refl) as ((Hs0&He0&Hc0&_)&Hok&Hsz&Hmx&ptr&_&Hh).
  rewrite Hbit in Hh.
  assert (Forall (Forall (fun x => 0 <= units x)) (snd <$> ws)) as Hu.
  { apply Forall_fmap. eapply Forall2_Forall_r; [exact Hw|]. apply Forall_forall.
    intros q _ w (_&first&Hwi&Hwb&_). by eapply units_nonneg. }
  pose proof (Forall2_length _ _ _ Hw) as Hlen.
  destruct (need_supply fmask info (snd <$> ws) Hfits Hu Ha Hi) as [Hneed Hdyn]; [rewrite length_fmap; lia|].
  assert (sum_by request_bytes l <= sum_by (need fmask) (snd <$> ws)
          /\ sum_by (fun q => struct_bytes set_bytes range_bytes (rq_layout q)) l
             <= Z.of_nat (length l) * set_bytes + range_bytes * sum_by (sum_by dynamic_units) (snd <$> ws)) as [B1 B2].
  { clear -Hw Hsb Hrb. induction Hw as [|q w l ws Hqw _ [I1 I2]]; [simpl; lia|].
    destruct (wants_need q w Hqw Hsb Hrb). rewrite length_cons, fmap_cons. cbn [sum_by]. lia. }
  unfold radv_AllocateDescriptorSets.
  destruct (allocate_loop_linear base l p0 refs [] _ Hok Hh) as (made&p&refs'&El); try done.
  - by rewrite Hs0.
  - lia.
  - cbn [hm_end hm_ptr]. pose proof (Z.mul_le_mono_nonneg_r _ _ _ Hsb Hn). pose proof (Z.mul_le_mono_nonneg_l _ _ _ Hrb Hdyn). lia.
  - rewrite Hc0, Hsz. lia.
  - rewrite El. cbn [mbind option_bind]. rewrite bool_decide_eq_true_2 by done. by eexists _, _, _.
Qed.

End Loop.

(** Two sets of a layout with a buffer, an inline block of 12 bytes and an image, from a
    pool with exactly that many descriptors. *)
Definition tight_layout_info : layout_info :=
  LayoutInfo [Binding 0 VK_DESCRIPTOR_TYPE_UNIFORM_BUFFER 1 1 None;
              Binding 1 VK_DESCRIPTOR_TYPE_INLINE_UNIFORM_BLOCK 12 1 None;
              Binding 2 VK_DESCRIPTOR_TYPE_STORAGE_IMAGE 1 1 None;
              Binding 3 VK_DESCRIPTOR_TYPE_UNIFORM_BUFFER_DYNAMIC 2 1 None] false None [].

Definition tight_shapes : list shaped :=
  default [] (shapes false tight_layout_info 0 (sorted_bindings tight_layout_info)).

Definition tight_layout : radv_descriptor_set_layout :=
  match radv_CreateDescriptorSetLayout false (fun _ => 100) true true tight_layout_info with
  | Some (inr l) => l
  | _ => Layout 0 0 0 0 false false ∅ []
  end.

Definition tight_pool_info : pool_info :=
  PoolInfo 2 [(VK_DESCRIPTOR_TYPE_UNIFORM_BUFFER, 2); (VK_DESCRIPTOR_TYPE_INLINE_UNIFORM_BLOCK, 24);
              (VK_DESCRIPTOR_TYPE_STORAGE_IMAGE, 2); (VK_DESCRIPTOR_TYPE_UNIFORM_BUFFER_DYNAMIC, 4)]
           false false (Some 2) [].

Definition tight_requests : list set_request :=
  [Request 7 tight_layout false 0 None; Request 7 tight_layout false 0 None].

Definition tight_base (h : Z) : Z := if h =? 7 then 1 else 0.

Lemma tight_room : samplers_room (fun _ => 100) tight_layout.
Proof.
  assert (map_Forall (fun _ b => bl_immutable_samplers_offset b = 0) (l_binding tight_layout)) as Hall
    by (apply (bool_decide_unpack _); by vm_compute).
  intros i b Hl Hne. destruct (Hne (Hall i b Hl)).
Qed.

Lemma tight_wants q : q ∈ tight_requests -> wants false (fun _ => 100) q (tight_layout_info, tight_shapes).
Proof.
  intros Hq. assert (q = Request 7 tight_layout false 0 None) as ->.
  { unfold tight_requests in Hq. set_solver. }
  split; [by vm_compute|]. exists 32. split_and!; [|repeat constructor; by vm_compute|by vm_compute|by vm_compute].
  constructor; try (vm_compute; reflexivity).
  - apply (bool_decide_unpack _). by vm_compute.
  - apply (bool_decide_unpack _). by vm_compute.
  - vm_compute. tauto.
Qed.

Lemma linear_pool_capacity_witness :
  exists p0 hs p refs',
    radv_create_descriptor_pool false 120 16 200 (PoolOracle (Some 4096) (inr 65536) true true) tight_pool_info
      = Some (inr p0)
    /\ radv_AllocateDescriptorSets false (fun _ => 100) 120 16 p0 {[7 := 1]} tight_requests
       = Some (VK_SUCCESS, hs, p, refs').
Proof.
  destruct (radv_create_descriptor_pool false 120 16 200 (PoolOracle (Some 4096) (inr 65536) true true)
              tight_pool_info) as [[?|p0]|] eqn:E; [vm_compute in E; discriminate| |vm_compute in E; discriminate].
  exists p0. destruct (linear_pool_capacity false (fun _ => 100) 120 16 200
    (PoolOracle (Some 4096) (inr 65536) true true) tight_pool_info p0 tight_base {[7 := 1]} tight_requests
    [(tight_layout_info, tight_shapes); (tight_layout_info, tight_shapes)]) as (hs&p&refs'&E2).
  - unfold pool_info_ok. vm_compute. repeat split; discriminate.
  - reflexivity.
  - split; [reflexivity|]. split; [repeat constructor; by vm_compute|]. vm_compute. repeat split; discriminate.
  - exact E.
  - unfold tight_base. split; [intros h; case_cmp; lia|]. intros h. change (count_handle h []) with 0. cbv zeta.
    destruct (Z.eqb_spec h 7) as [->|]; [done|]. simpl. by rewrite lookup_singleton_ne.
  - vm_compute in E. injection E as <-. split; [|intros Hh; vm_compute in Hh; discriminate Hh].
    apply Forall_forall. intros q Hq. assert (q = Request 7 tight_layout false 0 None) as ->.
    { unfold tight_requests in Hq. set_solver. }
    split; [reflexivity|]. split; [vm_compute; discriminate|].
    split; [|intros Hh; vm_compute in Hh; discriminate Hh].
    exact tight_room.
  - repeat constructor; apply tight_wants; unfold tight_requests; set_solver.
  - intros t. destruct t; by vm_compute.
  - by vm_compute.
  - by vm_compute.
  - exists hs, p, refs'. split; [reflexivity|exact E2].
Defined.
