(* ===== verification/SamplerProofs.v ===== *)
(** Immutable samplers: creation stores them after the layout, and every set gets them
    written at the place of its binding. *)

From stdpp Require Import gmap sorting.
From S2P Require Import Prelude Vma WinsysCs DescriptorLayout DescriptorProofs DescriptorPool PoolProofs PoolOps.

(** * In the layout *)

Section Stored.
Context (fmask : bool) (samplers_base : Z -> Z).

(** The dwords of the immutable samplers of a binding. *)
Definition sampler_dwords (ss : list radv_sampler) : list Z := concat (smp_state <$> ss).

(** An application passes one sampler per element, each a descriptor of four dwords. *)
Definition samplers_ok (b : layout_binding) : Prop :=
  forall ss, has_immutable b = Some ss ->
    Z.of_nat (length ss) = lb_count b /\ Forall (fun s => length (smp_state s) = 4%nat) ss.

(** Every sampler offset of the layout names the samplers of its binding. *)
Definition stored (B : list layout_binding) (nb : Z) (l : radv_descriptor_set_layout) : Prop :=
  forall k bl, l_binding l !! k = Some bl -> bl_immutable_samplers_offset bl <> 0 ->
    exists b ss pre post, b ∈ B /\ lb_binding b = k /\ has_immutable b = Some ss
      /\ bl_array_size bl = lb_count b /\ l_samplers l = pre ++ sampler_dwords ss ++ post
      /\ bl_immutable_samplers_offset bl = samplers_base nb + 4 * Z.of_nat (length pre).

Definition has_offset (l : radv_descriptor_set_layout) (k : Z) : Prop :=
  exists bl, l_binding l !! k = Some bl /\ bl_immutable_samplers_offset bl <> 0.

Lemma immutable_count info j b ss size al count :
  has_immutable b = Some ss -> binding_shape fmask info j b = Some (size, al, count) -> count = lb_count b.
Proof.
  unfold has_immutable, type_eq, binding_shape. intros Hs.
  destruct (lb_type b); simpl in Hs; try done; by intros [= <- <- <-].
Qed.

(** One binding. *)
Lemma place_binding_stored info nb first second j b x B l d l' d' :
  NoDup (lb_binding <$> B) -> b ∈ B -> shape_at fmask info j b = Some x -> 0 < samplers_base nb ->
  place_binding fmask samplers_base info nb first second j b (l, d) = Some (l', d') ->
  samplers_base nb + 4 * Z.of_nat (length (l_samplers l')) < W32 -> stored B nb l ->
  stored B nb l' /\ (length (l_samplers l) <= length (l_samplers l'))%nat
  /\ l_binding_count l' = l_binding_count l
  /\ (forall k, has_offset l k -> has_offset l' k)
  /\ (l_has_immutable_samplers l = true -> l_has_immutable_samplers l' = true)
  /\ (in_pass first second x = true -> is_Some (has_immutable b) ->
      has_offset l' (lb_binding b) /\ l_has_immutable_samplers l' = true).
Proof.
  intros Hnd Hb Hs Hpos E Hfit Hst. unfold place_binding, shape_at in *.
  destruct (binding_shape fmask info j b) as [[[size al] count]|] eqn:Esh; [|done].
  cbn [mbind option_bind] in *. injection Hs as <-. unfold in_pass. cbn [sh_align].
  set (old := default zero_binding (l_binding l !! lb_binding b)) in *.
  assert (forall bl, l_binding l !! lb_binding b = Some bl -> old = bl) as Hold by (intros bl Hl; unfold old; by rewrite Hl).
  destruct (eqb (al =? first) second).
  - injection E as <- <-. cbn [l_samplers l_binding_count l_binding l_has_immutable_samplers] in *.
    split_and!; try done.
    + intros k bl. cbn [l_binding l_samplers].
      intros [[<- <-]|[_ Hl]]%lookup_insert_Some; cbn [bl_immutable_samplers_offset bl_array_size];
        [|by apply Hst]. intros Hne. unfold old in Hne |- *.
      destruct (l_binding l !! lb_binding b) as [bl|] eqn:El; [|done]. simpl in *. by apply Hst.
    + intros k (bl&Hl&Hne). unfold has_offset. cbn [l_binding].
      destruct (decide (lb_binding b = k)) as [<-|Hk].
      * rewrite lookup_insert_eq. eexists. split; [done|]. cbn [bl_immutable_samplers_offset]. by rewrite (Hold _ Hl).
      * rewrite lookup_insert_ne by done. by exists bl.
  - destruct (cassert _); [cbn [mbind option_bind] in E|done]. injection E as <- <-.
    cbn [l_samplers l_binding_count l_binding l_has_immutable_samplers] in *.
    rewrite length_app in Hfit |- *.
    split_and!; [|lia|done| | |].
    + intros k bl. cbn [l_binding l_samplers].
      intros [[<- <-]|[Hk Hl]]%lookup_insert_Some; cbn [bl_immutable_samplers_offset bl_array_size].
      * destruct (has_immutable b) as [ss|] eqn:Ei.
        -- rewrite bool_decide_eq_true_2 by done. rewrite u32_small by lia. intros _.
           exists b, ss, (l_samplers l), []. rewrite app_nil_r. split_and!; try done. by eapply immutable_count.
        -- rewrite bool_decide_eq_false_2 by (by intros [? ?]). intros Hne. exfalso. unfold old in Hne.
           destruct (l_binding l !! lb_binding b) as [bl|] eqn:El; [|done]. simpl in Hne.
           destruct (Hst _ _ El Hne) as (b'&ss&_&_&Hb'&Hn&Hi&_).
           rewrite (same_binding B b' b Hnd Hb' Hb Hn) in Hi. congruence.
      * intros Hne. destruct (Hst _ _ Hl Hne) as (b'&ss&pre&post&?&?&?&?&Hp&?).
        exists b', ss, pre, (post ++ concat (smp_state <$> default [] (has_immutable b))).
        rewrite Hp, <- !app_assoc. by split_and!.
    + intros k (bl&Hl&Hne). unfold has_offset. cbn [l_binding].
      destruct (decide (lb_binding b = k)) as [<-|Hk].
      * rewrite lookup_insert_eq. eexists. split; [done|]. cbn [bl_immutable_samplers_offset].
        case_bool_decide; [rewrite u32_small by lia; lia|]. by rewrite (Hold _ Hl).
      * rewrite lookup_insert_ne by done. by exists bl.
    + by intros ->.
    + intros _ Hi. rewrite (bool_decide_eq_true_2 (is_Some (has_immutable b))) by done. split; [|apply orb_true_r].
      unfold has_offset. cbn [l_binding]. rewrite lookup_insert_eq. eexists. split; [done|].
      cbn [bl_immutable_samplers_offset]. rewrite u32_small by lia. lia.
Qed.

Lemma place_binding_grows info nb first second j b l d l' d' :
  place_binding fmask samplers_base info nb first second j b (l, d) = Some (l', d') ->
  (length (l_samplers l) <= length (l_samplers l'))%nat.
Proof.
  unfold place_binding. destruct (binding_shape fmask info j b) as [[[size al] count]|]; [|done].
  cbn [mbind option_bind]. destruct (eqb (al =? first) second); [by intros [= <- <-]|].
  destruct (cassert _); [cbn [mbind option_bind]|done]. intros [= <- <-]. cbn [l_samplers]. rewrite length_app. lia.
Qed.

Lemma place_all_grows info nb first second bs : forall j l d l' d',
  place_all fmask samplers_base info nb first second j bs (l, d) = Some (l', d') ->
  (length (l_samplers l) <= length (l_samplers l'))%nat.
Proof.
  induction bs as [|b bs IH]; intros j l d l' d' E; cbn [place_all] in E; [by injection E as <- <-|].
  destruct (place_binding _ _ _ _ _ _ _ _ _) as [[l1 d1]|] eqn:E1; [cbn [mbind option_bind] in E|done].
  apply place_binding_grows in E1. apply IH in E. lia.
Qed.

Lemma place_all_stored info nb first second B bs : NoDup (lb_binding <$> B) -> 0 < samplers_base nb ->
  forall j xs l d l' d', (forall b, b ∈ bs -> b ∈ B) -> shapes fmask info j bs = Some xs ->
  place_all fmask samplers_base info nb first second j bs (l, d) = Some (l', d') ->
  samplers_base nb + 4 * Z.of_nat (length (l_samplers l')) < W32 -> stored B nb l ->
  stored B nb l' /\ l_binding_count l' = l_binding_count l
  /\ (forall k, has_offset l k -> has_offset l' k)
  /\ (l_has_immutable_samplers l = true -> l_has_immutable_samplers l' = true)
  /\ (forall x, x ∈ pass_of first second xs -> is_Some (has_immutable (sh_binding x)) ->
      has_offset l' (num x) /\ l_has_immutable_samplers l' = true).
Proof.
  intros Hnd Hpos. induction bs as [|b bs IH]; intros j xs l d l' d' Hsub Hsh E Hfit Hst;
    simpl in Hsh; cbn [place_all] in E.
  { injection Hsh as <-. injection E as <- <-. split_and!; try done. by intros x ?%elem_of_nil. }
  destruct (shape_at fmask info j b) as [x|] eqn:Ex; [simpl in Hsh|done].
  destruct (shapes fmask info (S j) bs) as [ys|] eqn:Ey; [simpl in Hsh|done]. injection Hsh as <-.
  destruct (place_binding _ _ _ _ _ _ _ _ _) as [[l1 d1]|] eqn:E1; [cbn [mbind option_bind] in E|done].
  pose proof (place_all_grows _ _ _ _ _ _ _ _ _ _ E) as Hg.
  destruct (place_binding_stored info nb first second j b x B l d l1 d1) as (S1&_&C1&O1&H1&P1);
    [done|apply Hsub, elem_of_cons; by left|done|done|done|lia|done|].
  destruct (IH (S j) ys l1 d1 l' d') as (S2&C2&O2&H2&P2); try done.
  { intros b' Hb'. apply Hsub, elem_of_cons. by right. }
  split_and!; [done|congruence|auto|auto|]. intros y. rewrite pass_of_cons, elem_of_app.
  intros [Hy|Hy] Hi; [|by apply P2]. destruct (in_pass first second x) eqn:Ep; [|by apply elem_of_nil in Hy].
  apply list_elem_of_singleton in Hy as ->. pose proof (shape_at_binding _ _ _ _ _ Ex) as Hxb. unfold num.
  rewrite Hxb in *. destruct (P1 eq_refl Hi). auto.
Qed.

(** A layout that is created stores the samplers of every binding that has some. *)
Lemma create_stored info first xs l :
  info_ok fmask info first xs -> 0 < samplers_base (num_bindings_of (li_bindings info)) ->
  radv_CreateDescriptorSetLayout fmask samplers_base true true info = Some (inr l) ->
  samplers_base (num_bindings_of (li_bindings info)) + 4 * Z.of_nat (length (l_samplers l)) < W32 ->
  stored (sorted_bindings info) (num_bindings_of (li_bindings info)) l
  /\ l_binding_count l = num_bindings_of (li_bindings info)
  /\ forall x, x ∈ xs -> is_Some (has_immutable (sh_binding x)) ->
       has_offset l (num x) /\ l_has_immutable_samplers l = true.
Proof.
  intros [Hn _ Hs _ Hf] Hpos. unfold radv_CreateDescriptorSetLayout. cbn [negb].
  rewrite sorted_result, Hf. cbn [mbind option_bind].
  assert (NoDup (lb_binding <$> sorted_bindings info)) as Hn' by (by rewrite sorted_perm).
  set (nb := num_bindings_of (li_bindings info)) in *.
  destruct (place_all _ _ _ _ _ false _ _ _) as [[l1 d1]|] eqn:E1; [cbn [mbind option_bind]|done].
  destruct (place_all _ _ _ _ _ true _ _ _) as [[l2 d2]|] eqn:E2; [cbn [mbind option_bind]|done].
  intros [= <-]. cbn [l_samplers l_binding_count]. intros Hfit.
  pose proof (place_all_grows _ _ _ _ _ _ _ _ _ _ E2) as Hg.
  assert (stored (sorted_bindings info) nb (Layout nb 0 0 0 false false ∅ [])) as S0.
  { intros k bl Hk. simpl in Hk. by rewrite lookup_empty in Hk. }
  destruct (place_all_stored info nb first false _ _ Hn' Hpos _ _ _ _ _ _ (fun b H => H) Hs E1 ltac:(lia) S0)
    as (S1&C1&O1&H1&P1).
  destruct (place_all_stored info nb first true _ _ Hn' Hpos _ _ _ _ _ _ (fun b H => H) Hs E2 Hfit S1)
    as (S2&C2&O2&H2&P2).
  split; [exact S2|]. split; [by rewrite C2, C1|]. intros x Hx Hi. unfold has_offset. cbn [l_binding l_has_immutable_samplers].
  destruct (in_pass first false x) eqn:Ep.
  - destruct (P1 x) as [Ho Hh]; [by apply elem_of_pass|done|]. split; [by apply O2|by apply H2].
  - apply P2; [|done]. apply elem_of_pass. by rewrite in_pass_negb, Ep.
Qed.

Lemma sampler_dwords_length ss :
  Forall (fun s => length (smp_state s) = 4%nat) ss -> length (sampler_dwords ss) = (4 * length ss)%nat.
Proof.
  unfold sampler_dwords. induction 1 as [|s ss Hs _ IH]; [done|]. rewrite fmap_cons. cbn [concat].
  rewrite length_app, Hs, IH. simpl. lia.
Qed.

(** What a set needs to find its samplers. *)
Lemma stored_room B nb l :
  stored B nb l -> l_binding_count l = nb -> Forall samplers_ok B -> samplers_room samplers_base l.
Proof.
  intros Hst Hnb Hok k bl Hl Hne. cbv zeta. destruct (Hst _ _ Hl Hne) as (b&ss&pre&post&Hb&_&Hi&Hc&Hs&Ho).
  rewrite Forall_forall in Hok. destruct (Hok b Hb ss Hi) as [Hlen H4].
  rewrite Ho, Hnb, Hs, Hc, <- Hlen, !length_app, sampler_dwords_length by done.
  replace (samplers_base nb + 4 * Z.of_nat (length pre) - samplers_base nb) with (Z.of_nat (length pre) * 4) by lia.
  rewrite Z.div_mul by lia. lia.
Qed.

End Stored.

(** * In the memory of a set *)

Lemma write_dwords_out l : forall mem a k, k < a \/ a + Z.of_nat (length l) <= k ->
  write_dwords mem a l !! k = mem !! k.
Proof.
  induction l as [|d l IH]; intros mem a k Hk; cbn [write_dwords]; [done|].
  rewrite length_cons in Hk. rewrite IH, lookup_insert_ne; [done|lia|lia].
Qed.

Lemma write_dwords_in l : forall mem a i, (i < length l)%nat ->
  write_dwords mem a l !! (a + Z.of_nat i) = l !! i.
Proof.
  induction l as [|d l IH]; intros mem a i Hi; [simpl in Hi; lia|]. cbn [write_dwords]. destruct i as [|i].
  - rewrite write_dwords_out by lia. rewrite Z.add_0_r, lookup_insert_eq. done.
  - replace (a + Z.of_nat (S i)) with (a + 1 + Z.of_nat i) by lia. apply IH. simpl in Hi. lia.
Qed.

(** The dword of element [j] of a binding written at [base + offset]. *)
Definition element (base offset stride : Z) (j : nat) : Z := base + offset + Z.of_nat j * stride.

Lemma write_samplers_spec n : forall mem base offset stride samplers mem',
  0 <= offset -> 4 <= stride -> offset + Z.of_nat n * stride < W32 ->
  write_samplers mem base offset stride samplers n = Some mem' ->
  (forall j i, (j < n)%nat -> (i < 4)%nat ->
     mem' !! (element base offset stride j + Z.of_nat i) = samplers !! (4 * j + i)%nat)
  /\ (forall k, (forall j, (j < n)%nat -> k < element base offset stride j \/ element base offset stride j + 4 <= k) ->
     mem' !! k = mem !! k).
Proof.
  unfold element. induction n as [|n IH]; intros mem base offset stride samplers mem' H0 Hs Hf E;
    cbn [write_samplers] in E; [injection E as <-; split; [lia|done]|].
  destruct (Nat.leb_spec 4 (length samplers)) as [Hl|]; cbn [cassert mbind option_bind] in E; [|done].
  rewrite u32_small in E by lia.
  apply IH in E as [Hin Hout]; [|lia|lia|lia].
  assert (length (take 4 samplers) = 4%nat) as Ht by (rewrite length_take; lia). split.
  - intros [|j] i Hj Hi.
    + rewrite Hout by lia. rewrite Z.mul_0_l, Z.add_0_r, write_dwords_in by lia.
      rewrite lookup_take_lt by lia. done.
    + replace (base + offset + Z.of_nat (S j) * stride) with (base + (offset + stride) + Z.of_nat j * stride) by lia.
      rewrite Hin by lia. rewrite lookup_drop. f_equal. lia.
  - intros k Hk. rewrite Hout.
    + apply write_dwords_out. rewrite Ht. specialize (Hk 0%nat ltac:(lia)). lia.
    + intros j Hj. specialize (Hk (S j) ltac:(lia)). lia.
Qed.

Section Written.
Context (fmask : bool) (samplers_base : Z -> Z).

(** Where the sampler of an element of a binding is, in bytes from the binding. *)
Definition sampler_offset (t : option VkDescriptorType) : Z :=
  if bool_decide (t = Some VK_DESCRIPTOR_TYPE_COMBINED_IMAGE_SAMPLER)
  then radv_get_combined_image_sampler_offset fmask else 0.

(** A placed binding whose samplers stay inside its elements. *)
Definition sampler_binding (l : radv_descriptor_set_layout) (bl : binding_layout) : Prop :=
  0 <= bl_offset bl /\ bl_offset bl mod 4 = 0 /\ bl_size bl mod 4 = 0 /\ 0 <= bl_array_size bl
  /\ sampler_offset (bl_type bl) + 16 <= bl_size bl
  /\ bl_offset bl + bl_array_size bl * bl_size bl <= INT32_MAX.

Lemma sampler_offset_cases t : exists c, 0 <= c <= 20 /\ sampler_offset t = 4 * c.
Proof.
  unfold sampler_offset. case_bool_decide; [|by exists 0].
  unfold radv_get_combined_image_sampler_offset. destruct fmask; [by exists 20|by exists 12].
Qed.

(** The dwords of a binding. *)
Definition in_binding (base : Z) (bl : binding_layout) (k : Z) : Prop :=
  base + bl_offset bl / 4 <= k < base + (bl_offset bl + bl_array_size bl * bl_size bl) / 4.

(** The dword of the sampler of element [j]. *)
Definition sampler_dword (base : Z) (bl : binding_layout) (j : nat) : Z :=
  base + (bl_offset bl + sampler_offset (bl_type bl) + Z.of_nat j * bl_size bl) / 4.

Lemma write_binding_spec l base mem i bl mem' :
  l_binding l !! Z.of_nat i = Some bl -> bl_immutable_samplers_offset bl <> 0 -> sampler_binding l bl ->
  write_binding_samplers fmask samplers_base l base mem i = Some mem' ->
  let first := (bl_immutable_samplers_offset bl - samplers_base (l_binding_count l)) / 4 in
  (forall j d, Z.of_nat j < bl_array_size bl -> (d < 4)%nat ->
     mem' !! (sampler_dword base bl j + Z.of_nat d) = drop (Z.to_nat first) (l_samplers l) !! (4 * j + d)%nat
     /\ in_binding base bl (sampler_dword base bl j + Z.of_nat d))
  /\ (forall k, ~ in_binding base bl k -> mem' !! k = mem !! k).
Proof.
  intros Hl Hne (H1&H2&H3&H4&H5&H6). unfold write_binding_samplers. rewrite Hl. cbn [default from_option id].
  destruct (Z.eqb_spec (bl_immutable_samplers_offset bl) 0); [done|].
  destruct (sampler_offset_cases (bl_type bl)) as (c&Hc&Ec).
  assert (bl_offset bl / 4
          + (if bool_decide (bl_type bl = Some VK_DESCRIPTOR_TYPE_COMBINED_IMAGE_SAMPLER)
             then radv_get_combined_image_sampler_offset fmask / 4 else 0) = bl_offset bl / 4 + c) as ->.
  { f_equal. unfold sampler_offset in Ec. case_bool_decide; [rewrite Ec, Z.mul_comm, Z.div_mul; lia|lia]. }
  apply Z.mod_divide in H2 as [q Hq], H3 as [s Hs]; try lia. rewrite Hq, Hs, !Z.div_mul by lia.
  unfold sampler_dword, in_binding. rewrite Ec in *. rewrite Hq, Hs in *. unfold INT32_MAX in H6.
  rewrite u32_small by (unfold_words; nia).
  intros E. set (first := (_ - _) / 4) in *. cbv zeta.
  apply write_samplers_spec in E as [Hin Hout]; [|lia|lia|rewrite Z2Nat.id by lia; unfold_words; nia].
  assert (forall j, (q * 4 + 4 * c + Z.of_nat j * (s * 4)) / 4 = q + c + Z.of_nat j * s) as Hdiv.
  { intros j. replace (q * 4 + 4 * c + Z.of_nat j * (s * 4)) with ((q + c + Z.of_nat j * s) * 4) by lia.
    apply Z.div_mul. lia. }
  replace (q * 4 + bl_array_size bl * (s * 4)) with ((q + bl_array_size bl * s) * 4) by lia.
  rewrite !Z.div_mul by lia. split.
  - intros j d Hj Hd. rewrite Hdiv. split; [|nia]. rewrite <- (Hin j d) by lia. f_equal. unfold element. lia.
  - intros k Hk. apply Hout. intros j Hj. unfold element. nia.
Qed.

(** The bindings with samplers do not overlap. *)
Definition separate_bindings (l : radv_descriptor_set_layout) (base : Z) : Prop :=
  forall i i' bl bl' k, i <> i' -> l_binding l !! i = Some bl -> l_binding l !! i' = Some bl' ->
    bl_immutable_samplers_offset bl <> 0 -> bl_immutable_samplers_offset bl' <> 0 ->
    in_binding base bl k -> in_binding base bl' k -> False.

Lemma write_all_spec l base : separate_bindings l base ->
  (forall i bl, l_binding l !! i = Some bl -> bl_immutable_samplers_offset bl <> 0 -> sampler_binding l bl) ->
  forall ks mem mem', NoDup ks ->
  write_immutable_samplers fmask samplers_base l base mem ks = Some mem' ->
  (forall i bl j d, i ∈ ks -> l_binding l !! Z.of_nat i = Some bl -> bl_immutable_samplers_offset bl <> 0 ->
     Z.of_nat j < bl_array_size bl -> (d < 4)%nat ->
     mem' !! (sampler_dword base bl j + Z.of_nat d)
     = drop (Z.to_nat ((bl_immutable_samplers_offset bl - samplers_base (l_binding_count l)) / 4))
            (l_samplers l) !! (4 * j + d)%nat)
  /\ (forall k, (forall i bl, i ∈ ks -> l_binding l !! Z.of_nat i = Some bl ->
                  bl_immutable_samplers_offset bl <> 0 -> ~ in_binding base bl k) -> mem' !! k = mem !! k).
Proof.
  intros Hsep Hok. induction ks as [|i ks IH]; intros mem mem' Hnd E; cbn [write_immutable_samplers] in E.
  { injection E as <-. split; [|done]. by intros ? ? ? ? ?%elem_of_nil. }
  apply NoDup_cons in Hnd as [Hi Hnd].
  destruct (write_binding_samplers fmask samplers_base l base mem i) as [mem1|] eqn:E1;
    cbn [mbind option_bind] in E; [|done]. destruct (IH _ _ Hnd E) as [Hin Hout].
  destruct (l_binding l !! Z.of_nat i) as [b|] eqn:Eb.
  2:{ unfold write_binding_samplers in E1. rewrite Eb in E1. injection E1 as <-. split.
      - intros i' bl j d [->|Hi']%elem_of_cons Hl Hne Hj Hd; [congruence|by eapply Hin].
      - intros k Hk. apply Hout. intros i' bl Hi'. apply (Hk i' bl). apply elem_of_cons. by right. }
  destruct (Z.eq_dec (bl_immutable_samplers_offset b) 0) as [Hz|Hz].
  { unfold write_binding_samplers in E1. rewrite Eb in E1. cbn [default from_option id] in E1. rewrite Hz in E1.
    injection E1 as <-. split.
    - intros i' bl j d [->|Hi']%elem_of_cons Hl Hne Hj Hd; [congruence|by eapply Hin].
    - intros k Hk. apply Hout. intros i' bl Hi'. apply (Hk i' bl). apply elem_of_cons. by right. }
  destruct (write_binding_spec _ _ _ _ _ _ Eb Hz (Hok _ _ Eb Hz) E1) as [Hin1 Hout1]. split.
  - intros i' bl j d [->|Hi']%elem_of_cons Hl Hne Hj Hd; [|by eapply Hin].
    rewrite Eb in Hl. injection Hl as <-. destruct (Hin1 j d Hj Hd) as [Hv Hb]. rewrite Hout; [exact Hv|].
    intros i' bl' Hi' Hl' Hne' Hb'. eapply (Hsep (Z.of_nat i) (Z.of_nat i')); [|done..].
    intros ?%Nat2Z.inj. by subst.
  - intros k Hk. rewrite Hout.
    + apply Hout1. eapply Hk; [by apply elem_of_cons; left|done|done].
    + intros i' bl Hi'. apply (Hk i' bl). apply elem_of_cons. by right.
Qed.

End Written.
