(* ===== verification/SamplerMain.v ===== *)
(** The theorem about immutable samplers: from the create info of a layout to the memory
    of a set. *)

From stdpp Require Import gmap sorting.
From S2P Require Import Prelude Vma WinsysCs DescriptorLayout DescriptorProofs DescriptorPool PoolProofs PoolOps.
From S2P Require Import SamplerProofs.

Lemma num_bindings_ge bs : forall n, n <= foldl (fun n b => Z.max n (u32 (lb_binding b + 1))) n bs.
Proof. induction bs as [|b bs IH]; intros n; simpl; [lia|]. etrans; [|apply IH]. lia. Qed.

Lemma num_bindings_bound bs b :
  Forall (fun b => 0 <= lb_binding b < W32 - 1) bs -> b ∈ bs -> lb_binding b < num_bindings_of bs.
Proof.
  intros Hf Hb. unfold num_bindings_of. revert Hb.
  enough (forall n, b ∈ bs -> lb_binding b < foldl (fun n b => Z.max n (u32 (lb_binding b + 1))) n bs) by auto.
  induction Hf as [|x bs Hx Hf IH]; intros n Hb; [by apply elem_of_nil in Hb|].
  apply elem_of_cons in Hb as [->|Hb]; simpl; [|by apply IH].
  eapply Z.lt_le_trans; [|apply num_bindings_ge]. rewrite u32_small by lia. lia.
Qed.

(** The set a successful allocation appends. *)
Lemma alloc_entry_success p set p' :
  radv_alloc_descriptor_pool_entry p set = Some (VK_SUCCESS, p') ->
  exists s, p_sets p' = p_sets p ++ [s] /\ ds_ptr s = ds_ptr set.
Proof.
  unfold radv_alloc_descriptor_pool_entry. destruct (p_host p) as [h|].
  - destruct (_ <? _); [done|]. intros [= <-]. simpl. by eexists.
  - destruct (_ =? 0); [intros [= <-]; simpl; by eexists|].
    destruct (p_heap p) as [heap|]; [cbn [mbind option_bind]|done].
    destruct (util_vma_heap_alloc heap (ds_size set) 32) as [[off heap']|]; [cbn [mbind option_bind]|done].
    destruct (off =? 0); [by destruct (_ <? _)|].
    destruct (cassert _); [cbn [mbind option_bind]|done]. intros [= <-]. simpl. by eexists.
Qed.

Section Main.
Context (fmask : bool) (samplers_base : Z -> Z) (set_bytes range_bytes : Z).

(** The write loop a successful creation runs. *)
Lemma create_writes p refs handle l z ptr p' refs' :
  radv_descriptor_set_create fmask samplers_base set_bytes range_bytes p refs handle l 0 z
    = Some (VK_SUCCESS, Some ptr, p', refs') ->
  exists s mem, last (p_sets p') = Some s /\ ds_ptr s = ptr
    /\ (l_has_immutable_samplers l = true ->
        write_immutable_samplers fmask samplers_base l (ds_mapped s / 4) mem
          (seq 0 (Z.to_nat (l_binding_count l))) = Some (p_mem p')).
Proof.
  unfold radv_descriptor_set_create. destruct (_ =? _); [done|].
  match goal with |- context [match ?t with inl r => _ | inr p => _ end] => destruct t as [r|[ptr0 p1]]; [done|] end.
  destruct (radv_alloc_descriptor_pool_entry p1 _) as [[r p2]|] eqn:E; [cbn [mbind option_bind]|done].
  case_bool_decide as Hr; [|done]. subst r. apply alloc_entry_success in E as (s&Hs&Hp).
  rewrite Hs, last_snoc. cbn [fmap option_fmap option_map default from_option id].
  destruct (if l_has_immutable_samplers l then _ else _) as [mem|] eqn:Em; [cbn [mbind option_bind]|done].
  destruct (vk_descriptor_set_layout_ref refs handle) as [refs1|]; [cbn [mbind option_bind]|done].
  intros [= <- <- <-]. exists s, (p_mem p2). cbn [pool_with_mem p_sets p_mem]. rewrite Hs, last_snoc.
  split_and!; [done|done|]. intros Hi. rewrite Hi in Em. exact Em.
Qed.

(** A create info with immutable samplers: binding numbers are 32-bit, a format has at
    most three planes, and there is a sampler for every element. *)
Definition sampler_info_ok (info : layout_info) : Prop :=
  Forall (fun b => 0 <= lb_binding b < W32 - 1) (li_bindings info)
  /\ Forall samplers_ok (li_bindings info)
  /\ Forall (fun b => 1 <= (max_planes b).1 <= 3) (li_bindings info).

(** The element of an immutable binding has room for its sampler. *)
Lemma immutable_shape info j b x ss :
  1 <= (max_planes b).1 <= 3 -> has_immutable b = Some ss -> shape_at fmask info j b = Some x ->
  sampler_offset fmask (Some (lb_type b)) + 16 <= sh_size x /\ sh_size x mod 16 = 0
  /\ (sh_align x = 16 \/ sh_align x = 32) /\ 0 < sh_size x.
Proof.
  unfold has_immutable, type_eq, shape_at, binding_shape, sampler_offset. intros Hp Hi Hs.
  assert (radv_get_combined_image_sampler_desc_size fmask = if fmask then 96 else 64) as Hc by (by destruct fmask).
  destruct (lb_type b) eqn:Et; simpl in Hi; try done; cbn [mbind option_bind] in Hs; injection Hs as <-;
    cbn [sh_size sh_align].
  - rewrite bool_decide_eq_false_2 by done. by split_and!; [..|left|].
  - rewrite bool_decide_eq_true_2 by done. unfold radv_get_combined_image_sampler_offset, RADV_SAMPLER_DESC_SIZE.
    rewrite Hc, u32_small by (unfold_words; destruct fmask; lia).
    split_and!; [destruct fmask; lia| |by right|destruct fmask; lia].
    destruct fmask; apply Z.mod_divide; try lia; [exists ((max_planes b).1 * 6)|exists ((max_planes b).1 * 4)]; lia.
Qed.

Lemma shapes_at info bs : forall j xs x, shapes fmask info j bs = Some xs -> x ∈ xs ->
  exists j', shape_at fmask info j' (sh_binding x) = Some x.
Proof.
  induction bs as [|b bs IH]; intros j xs x; simpl; [by intros [= <-] ?%elem_of_nil|].
  destruct (shape_at fmask info j b) as [y|] eqn:E; [simpl|done].
  destruct (shapes fmask info (S j) bs) as [ys|] eqn:E2; [simpl|done]. intros [= <-] [->|Hx]%elem_of_cons.
  - exists j. by rewrite (shape_at_binding _ _ _ _ _ E).
  - by eapply IH.
Qed.

(** ** One layout *)

Section Layout.
Context (info : layout_info) (first : Z) (xs : list shaped) (l : radv_descriptor_set_layout).
Context (Hok : info_ok fmask info first xs) (Hfit : ends 0 (order first xs) <= INT32_MAX).
Context (Hinfo : sampler_info_ok info).
Context (Ecr : radv_CreateDescriptorSetLayout fmask samplers_base true true info = Some (inr l)).
Context (Hst : stored samplers_base (sorted_bindings info) (num_bindings_of (li_bindings info)) l).
Context (Hnb : l_binding_count l = num_bindings_of (li_bindings info)).

Lemma binding_of_shape x : x ∈ xs -> sh_binding x ∈ li_bindings info.
Proof using Hok.
  intros Hx. rewrite <- (sorted_perm info), <- (shapes_bindings _ _ _ _ _ (io_shapes _ _ _ _ Hok)).
  by apply list_elem_of_fmap_2.
Qed.

Definition samplers_at (bl : binding_layout) : list Z :=
  drop (Z.to_nat ((bl_immutable_samplers_offset bl - samplers_base (l_binding_count l)) / 4)) (l_samplers l).

(** Every entry with samplers is a placed binding, and its samplers are in the layout. *)
Lemma entry_placed k bl :
  l_binding l !! k = Some bl -> bl_immutable_samplers_offset bl <> 0 ->
  exists x off ss post, x ∈ xs /\ num x = k /\ (x, off) ∈ offsets 0 (order first xs) /\ placed x off bl
    /\ has_immutable (sh_binding x) = Some ss /\ bl_array_size bl = lb_count (sh_binding x)
    /\ samplers_at bl = sampler_dwords ss ++ post.
Proof using Hok Hfit Ecr Hst Hnb.
  intros Hl Hne. destruct (layout_create_spec fmask samplers_base info first xs Hok Hfit) as (l0&E0&_&Hplaced).
  rewrite Ecr in E0. injection E0 as <-.
  destruct (Hst _ _ Hl Hne) as (b&ss&pre&post&Hb&Hk&Hi&Hc&Hsd&Ho).
  rewrite <- (shapes_bindings _ _ _ _ _ (io_shapes _ _ _ _ Hok)) in Hb. apply list_elem_of_fmap in Hb as (x&->&Hx).
  destruct (offsets_lookup 0 (order first xs) x) as [off Hin]; [by rewrite order_perm|].
  destruct (Hplaced _ _ Hin) as (bl'&Hl'&Hpl'). unfold num in Hl'. rewrite Hk, Hl in Hl'. injection Hl' as <-.
  exists x, off, ss, post. split_and!; try done. unfold samplers_at.
  rewrite Hnb, Ho. replace (samplers_base _ + 4 * _ - samplers_base _) with (Z.of_nat (length pre) * 4) by lia.
  by rewrite Z.div_mul, Nat2Z.id, Hsd, drop_app_length by lia.
Qed.

Lemma entry_room k bl :
  l_binding l !! k = Some bl -> bl_immutable_samplers_offset bl <> 0 -> sampler_binding fmask l bl.
Proof using Hok Hfit Hinfo Ecr Hst Hnb.
  intros Hl Hne. destruct (entry_placed _ _ Hl Hne) as (x&off&ss&_&Hx&_&Hin&(P1&P2&P3&P4)&Hi&_).
  destruct (offsets_spec _ _ (order_ok first _ (info_shape_ok _ _ _ _ Hok)) _ _ Hin) as (O1&O2&O3&_).
  destruct (shapes_at _ _ _ _ _ (io_shapes _ _ _ _ Hok) Hx) as [j Hj]. destruct Hinfo as (_&_&Hpl).
  rewrite Forall_forall in Hpl.
  destruct (immutable_shape _ _ _ _ _ (Hpl _ (binding_of_shape _ Hx)) Hi Hj) as (S1&S2&S3&S4).
  pose proof (info_shape_ok _ _ _ _ Hok) as Hxok. rewrite Forall_forall in Hxok. destruct (Hxok x Hx) as (_&_&Hc).
  unfold sampler_binding. rewrite P1, P2, P3, P4. unfold bytes in O3. split_and!; [lia| | |done|done|lia].
  - apply Z.mod_divide in O2 as [q ->]; [|lia]. apply Z.mod_divide; [lia|].
    destruct S3 as [-> | ->]; [exists (q * 4)|exists (q * 8)]; lia.
  - apply Z.mod_divide in S2 as [q ->]; [|lia]. apply Z.mod_divide; [lia|]. exists (q * 4). lia.
Qed.

Lemma entry_separate base : separate_bindings l base.
Proof using Hok Hfit Hinfo Ecr Hst Hnb.
  intros i i' bl bl' k Hne Hl Hl' Hn Hn' Hk Hk'.
  destruct (entry_room _ _ Hl Hn) as (_&M1&M2&_), (entry_room _ _ Hl' Hn') as (_&M1'&M2'&_).
  destruct (entry_placed _ _ Hl Hn) as (x&off&_&_&Hx&<-&Hin&(_&P2&P3&P4)&_).
  destruct (entry_placed _ _ Hl' Hn') as (x'&off'&_&_&Hx'&<-&Hin'&(_&P2'&P3'&P4')&_).
  unfold in_binding in Hk, Hk'. rewrite P2, P3, P4 in *. rewrite P2', P3', P4' in *.
  assert (disjoint_ranges off (bytes x) off' (bytes x')) as Hd.
  { eapply offsets_disjoint; [exact (order_ok first _ (info_shape_ok _ _ _ _ Hok))| |done|done|done].
    rewrite order_perm. by eapply info_nodup. }
  unfold disjoint_ranges, bytes in Hd.
  apply Z.mod_divide in M1 as [q ->], M2 as [r Hr], M1' as [q' ->], M2' as [r' Hr']; try lia. rewrite Hr, Hr' in *.
  rewrite !Z.mul_assoc, <- !Z.mul_add_distr_r, !Z.div_mul in * by lia. lia.
Qed.

(** The shape of a binding number is unique. *)
Lemma shape_unique x y : x ∈ xs -> y ∈ xs -> num x = num y -> x = y.
Proof using Hok.
  intros [a Ha]%list_elem_of_lookup [b Hb]%list_elem_of_lookup Heq.
  assert (a = b) as ->; [|congruence].
  eapply (NoDup_lookup _ _ _ (num x) (info_nodup _ _ _ _ Hok)); rewrite list_lookup_fmap;
    [by rewrite Ha|by rewrite Hb, Heq].
Qed.

End Layout.

Lemma sampler_dword_lookup ss j smp d post :
  Forall (fun s => length (smp_state s) = 4%nat) ss -> ss !! j = Some smp -> (d < 4)%nat ->
  (sampler_dwords ss ++ post) !! (4 * j + d)%nat = smp_state smp !! d.
Proof.
  intros H. revert j. unfold sampler_dwords. induction H as [|s ss Hs _ IH]; intros [|j] Hj Hd; simpl in Hj; try done.
  - injection Hj as ->. rewrite fmap_cons. cbn [concat]. by rewrite <- app_assoc, lookup_app_l by lia.
  - rewrite fmap_cons. cbn [concat]. rewrite <- app_assoc, lookup_app_r by lia.
    rewrite <- (IH j) by done. f_equal. lia.
Qed.

(** C26: Immutable samplers reach the shader: when a layout is created from a description
    with immutable samplers and a set of it is created in any pool, then for every binding
    and every element of it the four dwords of its sampler are in the memory of the set,
    at the offset of the element (after the image of a combined descriptor), and no other
    binding has overwritten them. *)
Theorem immutable_samplers_written info first xs l p refs handle z ptr p' refs' :
  info_ok fmask info first xs -> ends 0 (order first xs) <= INT32_MAX -> sampler_info_ok info ->
  0 < samplers_base (num_bindings_of (li_bindings info)) ->
  radv_CreateDescriptorSetLayout fmask samplers_base true true info = Some (inr l) ->
  samplers_base (num_bindings_of (li_bindings info)) + 4 * Z.of_nat (length (l_samplers l)) < W32 ->
  radv_descriptor_set_create fmask samplers_base set_bytes range_bytes p refs handle l 0 z
    = Some (VK_SUCCESS, Some ptr, p', refs') ->
  exists s, last (p_sets p') = Some s /\ ds_ptr s = ptr
    /\ forall x ss bl j smp d, x ∈ xs -> has_immutable (sh_binding x) = Some ss ->
         l_binding l !! num x = Some bl -> ss !! j = Some smp -> (d < 4)%nat ->
         p_mem p' !! (sampler_dword fmask (ds_mapped s / 4) bl j + Z.of_nat d) = smp_state smp !! d.
Proof.
  intros Hok Hfit Hinfo Hpos Ecr Hw E.
  destruct (create_writes _ _ _ _ _ _ _ _ E) as (s&mem&Hs&Hp&Hwr). exists s. split_and!; [done|done|].
  destruct (create_stored fmask samplers_base info first xs l Hok Hpos Ecr Hw) as (Hst&Hnb&Hoff).
  intros x ss bl j smp d Hx Hi Hl Hj Hd.
  destruct (Hoff x Hx ltac:(by eexists)) as [(bl0&Hl0&Hne) Him]. rewrite Hl in Hl0. injection Hl0 as <-.
  destruct (entry_placed info first xs l Hok Hfit Ecr Hst Hnb _ _ Hl Hne) as (x'&_&ss'&post&Hx'&Hnx&_&_&Hi'&Hc&Hdw).
  rewrite (shape_unique info first xs Hok x' x Hx' Hx Hnx) in *. rewrite Hi in Hi'. injection Hi' as <-.
  pose proof (binding_of_shape info first xs Hok x Hx) as Hbin. pose proof Hinfo as (Hnum&Hsmp&_).
  pose proof (num_bindings_bound _ _ Hnum Hbin) as Hlt.
  rewrite Forall_forall in Hnum. rewrite Forall_forall in Hsmp.
  specialize (Hnum _ Hbin). destruct (Hsmp _ Hbin _ Hi) as [Hlen H4].
  destruct (write_all_spec fmask samplers_base l (ds_mapped s / 4)
              (entry_separate info first xs l Hok Hfit Hinfo Ecr Hst Hnb _)
              (entry_room info first xs l Hok Hfit Hinfo Ecr Hst Hnb) _ _ _ (NoDup_seq 0 _) (Hwr Him)) as [Hread _].
  unfold num in *. rewrite (Hread (Z.to_nat (lb_binding (sh_binding x))) bl j d).
  - fold (samplers_at l bl). rewrite Hdw. by apply sampler_dword_lookup.
  - apply elem_of_seq. rewrite Hnb. lia.
  - by rewrite Z2Nat.id by lia.
  - done.
  - apply lookup_lt_Some in Hj. rewrite Hc. lia.
  - done.
Qed.

End Main.

(** Two combined image samplers and a sampler, in a small linear pool. *)
Definition smp_info : layout_info :=
  LayoutInfo [Binding 0 VK_DESCRIPTOR_TYPE_COMBINED_IMAGE_SAMPLER 2 1
                (Some [Sampler [1; 2; 3; 4] None; Sampler [5; 6; 7; 8] (Some 3)]);
              Binding 1 VK_DESCRIPTOR_TYPE_SAMPLER 1 1 (Some [Sampler [9; 10; 11; 12] None])] false None [].

Definition smp_shapes : list shaped := default [] (shapes false smp_info 0 (sorted_bindings smp_info)).

Definition smp_pool : radv_descriptor_pool :=
  Pool (Some 65536) ∅ 32 1024 (Some (Host 4296 4296 4776)) [] None 0 4.

Lemma smp_ok : info_ok false smp_info 32 smp_shapes.
Proof.
  constructor; try (vm_compute; reflexivity).
  - apply (bool_decide_unpack _). by vm_compute.
  - apply (bool_decide_unpack _). by vm_compute.
  - vm_compute. tauto.
Qed.

Lemma smp_infos_ok : sampler_info_ok smp_info.
Proof.
  split_and!.
  - apply Forall_cons; split; [by vm_compute|]. apply Forall_cons; split; [by vm_compute|apply Forall_nil_2].
  - apply Forall_cons; split; [|apply Forall_cons; split; [|apply Forall_nil_2]];
      intros ss [= <-]; (split; [done|by repeat constructor]).
  - apply Forall_cons; split; [by vm_compute|]. apply Forall_cons; split; [by vm_compute|apply Forall_nil_2].
Qed.

Lemma immutable_samplers_written_witness :
  exists l ptr p' refs',
    radv_CreateDescriptorSetLayout false (fun _ => 100) true true smp_info = Some (inr l)
    /\ radv_descriptor_set_create false (fun _ => 100) 120 16 smp_pool {[7 := 1]} 7 l 0 None
       = Some (VK_SUCCESS, Some ptr, p', refs')
    /\ exists s, last (p_sets p') = Some s /\ ds_ptr s = ptr.
Proof.
  destruct (radv_CreateDescriptorSetLayout false (fun _ => 100) true true smp_info) as [[?|l]|] eqn:El;
    [vm_compute in El; discriminate| |vm_compute in El; discriminate].
  destruct (radv_descriptor_set_create false (fun _ => 100) 120 16 smp_pool {[7 := 1]} 7 l 0 None)
    as [[[[r o] p'] refs']|] eqn:E; [|vm_compute in El; injection El as <-; vm_compute in E; discriminate].
  assert (samplers_base_fits : 100 + 4 * Z.of_nat (length (l_samplers l)) < W32)
    by (vm_compute in El; injection El as <-; reflexivity).
  assert (r = VK_SUCCESS /\ o = Some 4296) as [-> ->]
    by (vm_compute in El; injection El as <-; vm_compute in E; by injection E as <- <- _ _).
  exists l, 4296, p', refs'. split; [reflexivity|]. split; [exact E|].
  destruct (immutable_samplers_written false (fun _ => 100) 120 16 smp_info 32 smp_shapes l smp_pool {[7 := 1]} 7
              None 4296 p' refs' smp_ok ltac:(by vm_compute) smp_infos_ok ltac:(by vm_compute) El
              samplers_base_fits E) as (s&Hs&Hp&_).
  exists s. by split.
Defined.
