(* ===== verification/ShaderArena.v ===== *)
(** The shader memory allocator of src/amd/vulkan/radv_shader.c: arenas (one buffer object each)
    cut into blocks, a block being an allocation or a hole, and segregated free lists of holes.

    Block and arena objects are named by addresses; [d_blocks] and [d_arenas] are the store they
    live in, so that an operation on a block is seen by every list that links it.  The linked lists
    of the code are lists of addresses: [a_entries] (through [list]), [free_lists] (through
    [freelist]) and [d_block_obj_pool] (through [pool], which shares its storage with [list]).
    A result [None] is a null or dangling dereference or a failed assertion of the source. *)

From stdpp Require Import gmap.
From S2P Require Import Prelude Pm4.

Definition RADV_SHADER_ALLOC_ALIGNMENT : Z := 256.
Definition RADV_SHADER_ALLOC_MIN_ARENA_SIZE : Z := 256 * 1024.
Definition RADV_SHADER_ALLOC_MAX_ARENA_SIZE_SHIFT : Z := 5.
Definition RADV_SHADER_ALLOC_MIN_SIZE_CLASS : Z := 8.
Definition RADV_SHADER_ALLOC_MAX_SIZE_CLASS : Z := 15.
Definition RADV_SHADER_ALLOC_NUM_FREE_LISTS : Z :=
  RADV_SHADER_ALLOC_MAX_SIZE_CLASS - RADV_SHADER_ALLOC_MIN_SIZE_CLASS + 1.

(** * Data *)

Inductive radv_shader_arena_type :=
| RADV_SHADER_ARENA_DEFAULT | RADV_SHADER_ARENA_REPLAYABLE | RADV_SHADER_ARENA_REPLAYED.

(** [union radv_shader_arena_block]: [b_prev] says that [freelist.prev] is not null (the block is a
    hole), [b_next] is [freelist.next] of an allocation, the pointer of its user. *)
Record radv_shader_arena_block := Block {
  b_arena : Z;
  b_offset : Z;
  b_size : Z;
  b_prev : bool;
  b_next : Z
}.

(** [struct radv_shader_arena], without its buffer object and its mapping. *)
Record radv_shader_arena := Arena {
  a_entries : list Z;
  a_size : Z;
  a_type : radv_shader_arena_type
}.

Record radv_shader_free_list := FreeList { size_mask : Z; free_lists : list (list Z) }.

(** The two free lists of the device. *)
Inductive free_list_name := SHADER_FREE_LIST | CAPTURE_REPLAY_FREE_LIST.

#[global] Instance free_list_name_eq_dec : EqDecision free_list_name.
Proof. solve_decision. Defined.

(** [struct radv_serialized_shader_arena_block]. *)
Record radv_serialized_shader_arena_block := Serialized {
  s_offset : Z; s_size : Z; s_arena_va : Z; s_arena_size : Z
}.

(** The fields of [struct radv_device] the allocator keeps.  [d_clock] counts the calls that may
    fail; it is also the address the next object gets. *)
Record arena_device := ArenaDevice {
  d_blocks : gmap Z radv_shader_arena_block;
  d_arenas : gmap Z radv_shader_arena;
  d_shader_arenas : list Z;
  d_free_list : radv_shader_free_list;
  d_replay_free_list : radv_shader_free_list;
  d_block_obj_pool : list Z;
  d_arena_vas : gmap Z Z;
  d_arena_shift : Z;
  d_clock : Z
}.

(** What the device answers: whether the n-th [malloc]/[calloc], buffer creation or mapping
    succeeds, and the properties of the physical device the allocator reads. *)
Record arena_env := ArenaEnv {
  malloc_ok : Z -> bool;
  bo_create_ok : Z -> bool;
  buffer_map_ok : Z -> bool;
  shader_use_invisible_vram : bool;
  e_gfx_level : amd_gfx_level;
  instr_prefetch_distance : Z
}.

(** * Field updates *)

Definition with_blocks (d : arena_device) bs : arena_device :=
  ArenaDevice bs (d_arenas d) (d_shader_arenas d) (d_free_list d) (d_replay_free_list d)
    (d_block_obj_pool d) (d_arena_vas d) (d_arena_shift d) (d_clock d).
Definition with_arenas (d : arena_device) ars : arena_device :=
  ArenaDevice (d_blocks d) ars (d_shader_arenas d) (d_free_list d) (d_replay_free_list d)
    (d_block_obj_pool d) (d_arena_vas d) (d_arena_shift d) (d_clock d).
Definition with_shader_arenas (d : arena_device) l : arena_device :=
  ArenaDevice (d_blocks d) (d_arenas d) l (d_free_list d) (d_replay_free_list d)
    (d_block_obj_pool d) (d_arena_vas d) (d_arena_shift d) (d_clock d).
Definition with_pool (d : arena_device) p : arena_device :=
  ArenaDevice (d_blocks d) (d_arenas d) (d_shader_arenas d) (d_free_list d) (d_replay_free_list d)
    p (d_arena_vas d) (d_arena_shift d) (d_clock d).
Definition with_vas (d : arena_device) v : arena_device :=
  ArenaDevice (d_blocks d) (d_arenas d) (d_shader_arenas d) (d_free_list d) (d_replay_free_list d)
    (d_block_obj_pool d) v (d_arena_shift d) (d_clock d).
Definition with_shift (d : arena_device) s : arena_device :=
  ArenaDevice (d_blocks d) (d_arenas d) (d_shader_arenas d) (d_free_list d) (d_replay_free_list d)
    (d_block_obj_pool d) (d_arena_vas d) s (d_clock d).
Definition tick (d : arena_device) : arena_device :=
  ArenaDevice (d_blocks d) (d_arenas d) (d_shader_arenas d) (d_free_list d) (d_replay_free_list d)
    (d_block_obj_pool d) (d_arena_vas d) (d_arena_shift d) (d_clock d + 1).

Definition get_list (w : free_list_name) (d : arena_device) : radv_shader_free_list :=
  match w with SHADER_FREE_LIST => d_free_list d | CAPTURE_REPLAY_FREE_LIST => d_replay_free_list d end.
Definition with_list (w : free_list_name) (d : arena_device) (fl : radv_shader_free_list) : arena_device :=
  match w with
  | SHADER_FREE_LIST =>
      ArenaDevice (d_blocks d) (d_arenas d) (d_shader_arenas d) fl (d_replay_free_list d)
        (d_block_obj_pool d) (d_arena_vas d) (d_arena_shift d) (d_clock d)
  | CAPTURE_REPLAY_FREE_LIST =>
      ArenaDevice (d_blocks d) (d_arenas d) (d_shader_arenas d) (d_free_list d) fl
        (d_block_obj_pool d) (d_arena_vas d) (d_arena_shift d) (d_clock d)
  end.

Definition set_block (id : Z) (b : radv_shader_arena_block) (d : arena_device) : arena_device :=
  with_blocks d (<[id := b]> (d_blocks d)).
Definition set_arena (id : Z) (a : radv_shader_arena) (d : arena_device) : arena_device :=
  with_arenas d (<[id := a]> (d_arenas d)).
Definition with_entries (a : radv_shader_arena) (l : list Z) : radv_shader_arena :=
  Arena l (a_size a) (a_type a).

Definition link_free (b : radv_shader_arena_block) : radv_shader_arena_block :=
  Block (b_arena b) (b_offset b) (b_size b) true 0.
Definition link_user (ptr : Z) (b : radv_shader_arena_block) : radv_shader_arena_block :=
  Block (b_arena b) (b_offset b) (b_size b) false ptr.
Definition resize (offset size : Z) (b : radv_shader_arena_block) : radv_shader_arena_block :=
  Block (b_arena b) offset size (b_prev b) (b_next b).

(** * Linked lists *)

Definition list_del (x : Z) (l : list Z) : list Z := filter (fun y => y <> x) l.

(** [list_addtail (&x->list, &h->list)]: [x] goes just before [h]. *)
Fixpoint insert_before (h x : Z) (l : list Z) : list Z :=
  match l with
  | [] => []
  | y :: l => if y =? h then x :: y :: l else y :: insert_before h x l
  end.

(** [list_add (&x->list, &h->list)]: [x] goes just after [h]. *)
Fixpoint insert_after (h x : Z) (l : list Z) : list Z :=
  match l with
  | [] => []
  | y :: l => if y =? h then y :: x :: l else y :: insert_after h x l
  end.

(** [list.next] and [list.prev] of [x]; [None] is the head of the list. *)
Fixpoint next_of (x : Z) (l : list Z) : option Z :=
  match l with
  | [] => None
  | y :: l => if y =? x then head l else next_of x l
  end.
Fixpoint prev_from (p : option Z) (x : Z) (l : list Z) : option Z :=
  match l with
  | [] => None
  | y :: l => if y =? x then p else prev_from (Some y) x l
  end.
Definition prev_of (x : Z) (l : list Z) : option Z := prev_from None x l.

(** * Sizes *)

(** The portable branch of [util_logbase2], for a compiler without [__builtin_clz]. *)
Definition util_logbase2_portable (n : Z) : Z :=
  let '(n, pos) := (n, 0) in
  let '(n, pos) := if Z.shiftl 1 16 <=? n then (Z.shiftr n 16, pos + 16) else (n, pos) in
  let '(n, pos) := if Z.shiftl 1 8 <=? n then (Z.shiftr n 8, pos + 8) else (n, pos) in
  let '(n, pos) := if Z.shiftl 1 4 <=? n then (Z.shiftr n 4, pos + 4) else (n, pos) in
  let '(n, pos) := if Z.shiftl 1 2 <=? n then (Z.shiftr n 2, pos + 2) else (n, pos) in
  if Z.shiftl 1 1 <=? n then pos + 1 else pos.

Definition util_logbase2_ceil (n : Z) : Z := if n <=? 1 then 0 else 1 + util_logbase2 (n - 1).

Definition get_size_class (size : Z) (round_up : bool) : Z :=
  let size := if round_up then util_logbase2_ceil size else util_logbase2 size in
  let size_class :=
    Z.max size RADV_SHADER_ALLOC_MIN_SIZE_CLASS - RADV_SHADER_ALLOC_MIN_SIZE_CLASS in
  Z.min size_class (RADV_SHADER_ALLOC_NUM_FREE_LISTS - 1).

Definition ac_align_shader_binary_for_prefetch (g : amd_gfx_level) (prefetch_distance size : Z) : Z :=
  if prefetch_distance =? 0 then size
  else if gfx_ge g GFX11 then align (u32 (size + u32 (prefetch_distance * 64))) 128
  else align (u32 (size + u32 (prefetch_distance * 64))) 64.

(** [ffs]: the index of the lowest set bit, from 1, and 0 when there is none. *)
Fixpoint ffs_from (fuel : nat) (i x : Z) : Z :=
  match fuel with
  | O => 0
  | S fuel => if Z.testbit x i then i + 1 else ffs_from fuel (i + 1) x
  end.
Definition ffs (x : Z) : Z := ffs_from 32 0 x.

Definition BITFIELD_MASK (b : Z) : Z :=
  if b =? 32 then W32 - 1 else Z.shiftl 1 (Z.land b 31) - 1.

(** * Free lists and block objects *)

Definition is_nil {A} (l : list A) : bool := match l with [] => true | _ => false end.

Definition nth_list (fl : list (list Z)) (c : Z) : list Z := default [] (fl !! Z.to_nat c).

Definition remove_hole (w : free_list_name) (hole : Z) (d : arena_device) : option arena_device :=
  let! b := d_blocks d !! hole ;;
  let size_class := get_size_class (b_size b) false in
  let fl := get_list w d in
  let lists := list_del hole <$> free_lists fl in
  let d := set_block hole (link_user 0 b) d in
  Some (with_list w d
          (FreeList (if is_nil (nth_list lists size_class)
                     then Z.land (size_mask fl) (Z.lnot (Z.shiftl 1 size_class))
                     else size_mask fl)
                    lists)).

Definition add_hole (w : free_list_name) (hole : Z) (d : arena_device) : option arena_device :=
  let! b := d_blocks d !! hole ;;
  let size_class := get_size_class (b_size b) false in
  let fl := get_list w d in
  let d := set_block hole (link_free b) d in
  Some (with_list w d
          (FreeList (Z.lor (size_mask fl) (Z.shiftl 1 size_class))
                    (alter (fun l => l ++ [hole]) (Z.to_nat size_class) (free_lists fl)))).

(** [if (free_list) ...]. *)
Definition opt_list (w : option free_list_name)
    (f : free_list_name -> Z -> arena_device -> option arena_device) (hole : Z) (d : arena_device)
  : option arena_device :=
  match w with Some w => f w hole d | None => Some d end.

(** The object's contents are whatever they were; every caller writes them. *)
Definition alloc_block_obj (e : arena_env) (d : arena_device) : option Z * arena_device :=
  match d_block_obj_pool d with
  | id :: pool => (Some id, with_pool d pool)
  | [] => (if malloc_ok e (d_clock d) then Some (d_clock d) else None, tick d)
  end.

(** [list_del (&block->pool)] unlinks the block from the entries of its arena: [pool] is [list]. *)
Definition free_block_obj (block : Z) (d : arena_device) : option arena_device :=
  let! b := d_blocks d !! block ;;
  let! a := d_arenas d !! b_arena b ;;
  let d := set_arena (b_arena b) (with_entries a (list_del block (a_entries a))) d in
  Some (with_pool d (block :: d_block_obj_pool d)).

(** * Arenas *)

(** The new arena is not in [d_shader_arenas] yet.  On the failure of [radv_buffer_map] the block
    object returns to the pool and the arena is freed, while the free list keeps its link. *)
Definition radv_create_shader_arena (e : arena_env) (free_list : option free_list_name)
    (min_size arena_size : Z) (replayable : bool) (replay_va : Z) (d : arena_device)
  : option (option Z * arena_device) :=
  let arena := d_clock d in
  let d := tick d in
  if negb (malloc_ok e arena) then Some (None, d)
  else
    let arena_size :=
      if arena_size =? 0
      then Z.max (u32 (Z.shiftl RADV_SHADER_ALLOC_MIN_ARENA_SIZE
                         (Z.min RADV_SHADER_ALLOC_MAX_ARENA_SIZE_SHIFT (d_arena_shift d))))
                 min_size
      else arena_size in
    let bo := bo_create_ok e (d_clock d) in
    let d := tick d in
    if negb bo then Some (None, d)
    else
      let '(alloc, d) := alloc_block_obj e d in
      match alloc with
      | None => Some (None, d)
      | Some alloc =>
          let type :=
            if negb (replay_va =? 0) then RADV_SHADER_ARENA_REPLAYED
            else if replayable then RADV_SHADER_ARENA_REPLAYABLE
            else RADV_SHADER_ARENA_DEFAULT in
          let d := set_block alloc (Block arena 0 arena_size true 0) d in
          let d := set_arena arena (Arena [alloc] arena_size type) d in
          let! d := opt_list free_list add_hole alloc d ;;
          if shader_use_invisible_vram e then Some (Some arena, d)
          else if buffer_map_ok e (d_clock d) then Some (Some arena, tick d)
          else
            let! d := free_block_obj alloc (tick d) ;;
            Some (None, with_arenas d (delete arena (d_arenas d)))
      end.

(** The object for a remainder of the hole; [Some None] is the failure of its allocation. *)
Definition new_hole (e : arena_env) (w : option free_list_name) (arena offset size : Z)
    (d : arena_device) : option (option Z * arena_device) :=
  let '(h, d) := alloc_block_obj e d in
  match h with
  | None => Some (None, d)
  | Some h =>
      let! d := opt_list w add_hole h (set_block h (Block arena offset size true 0) d) ;;
      Some (Some h, d)
  end.

(** [free (left_hole)]: the object disappears; a link of a free list to it stays. *)
Definition free_obj (h : option Z) (d : arena_device) : arena_device :=
  match h with Some h => with_blocks d (delete h (d_blocks d)) | None => d end.

(** [if (left_hole)]: the hole shrinks from below. *)
Definition link_left (hole : Z) (left_hole : option Z) (d : arena_device) : option arena_device :=
  match left_hole with
  | None => Some d
  | Some l =>
      let! b := d_blocks d !! hole ;;
      let! lb := d_blocks d !! l ;;
      let! a := d_arenas d !! b_arena b ;;
      let d := set_block hole (resize (u32 (b_offset b + b_size lb)) (u32 (b_size b - b_size lb)) b) d in
      Some (set_arena (b_arena b) (with_entries a (insert_before hole l (a_entries a))) d)
  end.

(** [if (right_hole)]: the hole shrinks from above. *)
Definition link_right (hole : Z) (right_hole : option Z) (d : arena_device) : option arena_device :=
  match right_hole with
  | None => Some d
  | Some r =>
      let! b := d_blocks d !! hole ;;
      let! rb := d_blocks d !! r ;;
      let! a := d_arenas d !! b_arena b ;;
      let d := set_block hole (resize (b_offset b) (u32 (b_size b - b_size rb)) b) d in
      Some (set_arena (b_arena b) (with_entries a (insert_after hole r (a_entries a))) d)
  end.

Definition insert_block (e : arena_env) (hole offset_in_hole size : Z) (w : option free_list_name)
    (d : arena_device) : option (option Z * arena_device) :=
  let! b := d_blocks d !! hole ;;
  let hole_begin := b_offset b in
  let hole_end := u32 (b_offset b + b_size b) in
  let! (left_ok, left_hole, d) :=
    (if negb (offset_in_hole =? 0) then
       let! (h, d) := new_hole e w (b_arena b) (b_offset b) offset_in_hole d ;;
       Some (bool_decide (is_Some h), h, d)
     else Some (true, None, d)) ;;
  if negb left_ok then Some (None, d)
  else
    let! (right_ok, right_hole, d) :=
      (if u32 (offset_in_hole + size) <? b_size b then
         let offset := u32 (hole_begin + offset_in_hole + size) in
         let! (h, d) := new_hole e w (b_arena b) offset (u32 (hole_end - offset)) d ;;
         Some (bool_decide (is_Some h), h, d)
       else Some (true, None, d)) ;;
    if negb right_ok then Some (None, free_obj left_hole d)
    else
      let! d := link_left hole left_hole d ;;
      let! d := link_right hole right_hole d ;;
      let! d := opt_list w remove_hole hole d ;;
      Some (Some hole, d).

(** [alloc->freelist.prev = NULL; alloc->freelist.next = ptr]. *)
Definition give_to (ptr id : Z) (d : arena_device) : option arena_device :=
  let! b := d_blocks d !! id ;; Some (set_block id (link_user ptr b) d).

(** * Allocation *)

(** The loop over one free list: its first hole of at least [size] bytes. *)
Fixpoint first_fit (d : arena_device) (size : Z) (l : list Z) : option (option Z) :=
  match l with
  | [] => Some None
  | hole :: l =>
      let! b := d_blocks d !! hole ;;
      if b_size b <? size then first_fit d size l
      else
        assert! b_offset b mod RADV_SHADER_ALLOC_ALIGNMENT =? 0 ;;
        Some (Some hole)
  end.

(** What the loop does with the hole it stops at. *)
Definition take_hole (e : arena_env) (w : free_list_name) (size ptr hole : Z) (d : arena_device)
  : option (option Z * arena_device) :=
  let! b := d_blocks d !! hole ;;
  if size =? b_size b then
    let! d := remove_hole w hole d ;;
    let! b := d_blocks d !! hole ;;
    Some (Some hole, set_block hole (Block (b_arena b) (b_offset b) (b_size b) (b_prev b) ptr) d)
  else
    let '(alloc, d) := alloc_block_obj e d in
    match alloc with
    | None => Some (None, d)
    | Some alloc =>
        let! a := d_arenas d !! b_arena b ;;
        let d := set_arena (b_arena b) (with_entries a (insert_before hole alloc (a_entries a))) d in
        let d := set_block alloc (Block (b_arena b) (b_offset b) size false ptr) d in
        let! d := remove_hole w hole d ;;
        let! b := d_blocks d !! hole ;;
        let d := set_block hole (resize (u32 (b_offset b + size)) (u32 (b_size b - size)) b) d in
        let! d := add_hole w hole d ;;
        Some (Some alloc, d)
    end.

Definition aligned_size (e : arena_env) (size : Z) : Z :=
  align (ac_align_shader_binary_for_prefetch (e_gfx_level e) (instr_prefetch_distance e) size)
        RADV_SHADER_ALLOC_ALIGNMENT.

Definition alloc_list (replayable : bool) : free_list_name :=
  if replayable then CAPTURE_REPLAY_FREE_LIST else SHADER_FREE_LIST.

(** The search of the free lists: the hole to use. *)
Definition find_hole (w : free_list_name) (size : Z) (d : arena_device) : option (option Z) :=
  let fl := get_list w d in
  let free_list_mask := BITFIELD_MASK RADV_SHADER_ALLOC_NUM_FREE_LISTS in
  let size_class :=
    ffs (Z.land (size_mask fl) (u32 (Z.shiftl free_list_mask (get_size_class size true)))) in
  if size_class =? 0 then Some None
  else first_fit d size (nth_list (free_lists fl) (size_class - 1)).

(** The tail of [radv_alloc_shader_memory]: a block at the start of a new arena.  The result of
    [insert_block] is dereferenced without a test. *)
Definition alloc_in_new_arena (e : arena_env) (w : free_list_name) (size : Z) (replayable : bool)
    (ptr : Z) (d : arena_device) : option (option Z * arena_device) :=
  let! (arena, d) := radv_create_shader_arena e (Some w) size 0 replayable 0 d ;;
  match arena with
  | None => Some (None, d)
  | Some arena =>
      let! a := d_arenas d !! arena ;;
      let! first := head (a_entries a) ;;
      let! (alloc, d) := insert_block e first 0 size (Some w) d ;;
      let! alloc := alloc ;;
      let! d := give_to ptr alloc d ;;
      let d := with_shift d (u32 (d_arena_shift d + 1)) in
      Some (Some alloc, with_shader_arenas d (d_shader_arenas d ++ [arena]))
  end.

Definition radv_alloc_shader_memory (e : arena_env) (size : Z) (replayable : bool) (ptr : Z)
    (d : arena_device) : option (option Z * arena_device) :=
  let size := aligned_size e size in
  let w := alloc_list replayable in
  let! hole := find_hole w size d ;;
  match hole with
  | Some hole => take_hole e w size ptr hole d
  | None => alloc_in_new_arena e w size replayable ptr d
  end.

(** * Free *)

(** [None] of the argument is the head of the entries. *)
Definition get_hole (d : arena_device) (head : option Z) : option (option Z) :=
  match head with
  | None => Some None
  | Some id => let! b := d_blocks d !! id ;; Some (if b_prev b then Some id else None)
  end.

Definition arena_free_list (t : radv_shader_arena_type) : option free_list_name :=
  match t with
  | RADV_SHADER_ARENA_DEFAULT => Some SHADER_FREE_LIST
  | RADV_SHADER_ARENA_REPLAYABLE => Some CAPTURE_REPLAY_FREE_LIST
  | RADV_SHADER_ARENA_REPLAYED => None
  end.

Definition merge_prev (w : option free_list_name) (hole_prev : option Z) (hole : Z) (d : arena_device)
  : option (Z * arena_device) :=
  match hole_prev with
  | None => Some (hole, d)
  | Some p =>
      let! d := opt_list w remove_hole p d ;;
      let! pb := d_blocks d !! p ;;
      let! b := d_blocks d !! hole ;;
      let d := set_block p (resize (b_offset pb) (u32 (b_size pb + b_size b)) pb) d in
      let! d := free_block_obj hole d ;;
      Some (p, d)
  end.

Definition merge_next (w : option free_list_name) (hole_next : option Z) (hole : Z) (d : arena_device)
  : option (Z * arena_device) :=
  match hole_next with
  | None => Some (hole, d)
  | Some n =>
      let! d := opt_list w remove_hole n d ;;
      let! nb := d_blocks d !! n ;;
      let! b := d_blocks d !! hole ;;
      let d := set_block n (resize (u32 (b_offset nb - b_size b)) (u32 (b_size nb + b_size b)) nb) d in
      let! d := free_block_obj hole d ;;
      Some (n, d)
  end.

(** The arena's buffer is destroyed; the hash table loses the entry whose data is the arena. *)
Definition destroy_arena (arena : Z) (d : arena_device) : arena_device :=
  let d := with_shader_arenas d (list_del arena (d_shader_arenas d)) in
  let d := with_vas d (filter (fun kv => kv.2 <> arena) (d_arena_vas d)) in
  with_arenas d (delete arena (d_arenas d)).

Definition radv_free_shader_memory (alloc : option Z) (d : arena_device) : option arena_device :=
  match alloc with
  | None => Some d
  | Some alloc =>
      let! b := d_blocks d !! alloc ;;
      let! a := d_arenas d !! b_arena b ;;
      let! hole_prev := get_hole d (prev_of alloc (a_entries a)) ;;
      let! hole_next := get_hole d (next_of alloc (a_entries a)) ;;
      let w := arena_free_list (a_type a) in
      let! (hole, d) := merge_prev w hole_prev alloc d ;;
      let! (hole, d) := merge_next w hole_next hole d ;;
      let! hb := d_blocks d !! hole ;;
      let! a := d_arenas d !! b_arena hb ;;
      if bool_decide (a_entries a = [hole]) then
        let! d := free_block_obj hole d ;;
        Some (destroy_arena (b_arena hb) d)
      else
        match w with
        | Some w => add_hole w hole d
        | None => Some (set_block hole (link_free hb) d)
        end
  end.

(** * Capture and replay *)

(** The fields [radv_GetRayTracingCaptureReplayShaderGroupHandlesKHR] stores for a block;
    [va] gives the address of an arena's buffer. *)
Definition serialize_block (va : Z -> Z) (id : Z) (d : arena_device)
  : option radv_serialized_shader_arena_block :=
  let! b := d_blocks d !! id ;;
  let! a := d_arenas d !! b_arena b ;;
  Some (Serialized (b_offset b) (b_size b) (va (b_arena b)) (a_size a)).

(** The loop over the entries: [Some None] is [goto out] or the end of the loop. *)
Fixpoint replay_hole (d : arena_device) (block_begin block_end : Z) (l : list Z) : option (option Z) :=
  match l with
  | [] => Some None
  | hole :: l =>
      let! b := d_blocks d !! hole ;;
      if negb (b_prev b) then replay_hole d block_begin block_end l
      else
        let hole_begin := b_offset b in
        let hole_end := u32 (b_offset b + b_size b) in
        if hole_end <? block_end then replay_hole d block_begin block_end l
        else if block_begin <? hole_begin then Some None
        else Some (Some hole)
  end.

(** The arena of a replayed address, created on its first use. *)
Definition replay_arena (e : arena_env) (src : radv_serialized_shader_arena_block) (d : arena_device)
  : option (option Z * arena_device) :=
  match d_arena_vas d !! s_arena_va src with
  | Some arena => Some (Some arena, d)
  | None =>
      let! (arena, d) :=
        radv_create_shader_arena e None 0 (s_arena_size src) true (s_arena_va src) d ;;
      match arena with
      | None => Some (None, d)
      | Some arena =>
          let d := with_vas d (<[s_arena_va src := arena]> (d_arena_vas d)) in
          Some (Some arena, with_shader_arenas d (d_shader_arenas d ++ [arena]))
      end
  end.

Definition radv_replay_shader_arena_block (e : arena_env) (src : radv_serialized_shader_arena_block)
    (ptr : Z) (d : arena_device) : option (option Z * arena_device) :=
  let! (arena, d) := replay_arena e src d ;;
  match arena with
  | None => Some (None, d)
  | Some arena =>
      let! a := d_arenas d !! arena ;;
      let block_begin := s_offset src in
      let block_end := u32 (s_offset src + s_size src) in
      let! hole := replay_hole d block_begin block_end (a_entries a) ;;
      match hole with
      | None => Some (None, d)
      | Some hole =>
          let! b := d_blocks d !! hole ;;
          let! (block, d) :=
            insert_block e hole (u32 (block_begin - b_offset b)) (s_size src) None d ;;
          match block with
          | None => Some (None, d)
          | Some block =>
              let! d := give_to ptr block d ;;
              Some (Some hole, d)
          end
      end
  end.

(** * Initialisation *)

Definition empty_free_list : radv_shader_free_list :=
  FreeList 0 (replicate (Z.to_nat RADV_SHADER_ALLOC_NUM_FREE_LISTS) []).

(** [radv_init_shader_arenas], on a zeroed device with an empty table of replayed arenas. *)
Definition radv_init_shader_arenas : arena_device :=
  ArenaDevice ∅ ∅ [] empty_free_list empty_free_list [] ∅ 0 1.

(** [radv_destroy_shader_arenas]: the block objects it frees and the arenas whose buffers it
    destroys, in this order. *)
Definition radv_destroy_shader_arenas (d : arena_device) : list Z * list Z :=
  (d_block_obj_pool d, d_shader_arenas d).
