(* ===== verification/ArenaLists.v ===== *)
(** The data structures of the shader memory allocator: size classes, free lists, and the blocks
    that tile an arena. *)

From stdpp Require Import gmap.
From S2P Require Import Prelude Pm4 ShaderArena.

(** * Size classes *)

(** The branch with [__builtin_clz] and the portable one agree. *)
Lemma log2_lor_1 n : 0 <= n -> Z.log2 (Z.lor n 1) = Z.log2 n.
Proof.
  intros Hn. rewrite Z.log2_lor by lia. change (Z.log2 1) with 0. pose proof (Z.log2_nonneg n). lia.
Qed.

Lemma log2_step n k : 0 <= k -> Z.shiftl 1 k <= n -> Z.log2 n = Z.log2 (Z.shiftr n k) + k.
Proof.
  intros Hk. rewrite Z.shiftl_1_l. intros Hn.
  assert (0 < 2 ^ k) by (apply Z.pow_pos_nonneg; lia).
  rewrite Z.log2_shiftr by lia. pose proof (Z.log2_le_mono _ _ Hn) as Hl.
  rewrite Z.log2_pow2 in Hl by lia. lia.
Qed.

Lemma shiftr_lt n k m : 0 <= k -> 0 <= m -> n < 2 ^ (k + m) -> Z.shiftr n k < 2 ^ m.
Proof.
  intros Hk Hm Hn. rewrite Z.shiftr_div_pow2 by lia.
  apply Z.div_lt_upper_bound; [apply Z.pow_pos_nonneg; lia|].
  by rewrite <- Z.pow_add_r by lia.
Qed.

Lemma util_logbase2_portable_ok n : 0 <= n < W32 -> util_logbase2_portable n = util_logbase2 n.
Proof.
  intros [Hn0 Hn]. unfold util_logbase2. rewrite log2_lor_1 by lia. unfold util_logbase2_portable.
  assert (Hs : forall x k : Z, 0 <= k -> 0 <= x -> 0 <= Z.shiftr x k)
    by (intros; by apply Z.shiftr_nonneg).
  set (go16 := if Z.shiftl 1 16 <=? n then _ else _).
  assert (exists m p, go16 = (m, p) /\ 0 <= m < 2 ^ 16 /\ Z.log2 n = Z.log2 m + p) as (m&p&->&Hm&Hl).
  { subst go16. destruct (Z.leb_spec (Z.shiftl 1 16) n) as [H|H]; do 2 eexists; split; [done| |done|].
    - split; [|rewrite (log2_step n 16) by lia; lia]. split; [by apply Hs|]. apply (shiftr_lt n 16 16); [lia|lia|exact Hn].
    - rewrite Z.shiftl_1_l in H. lia. }
  revert m p Hm Hl.
  assert (step : forall k m p, 0 < k -> 0 <= m < 2 ^ (k + k) -> Z.log2 n = Z.log2 m + p ->
    exists m' p', (if Z.shiftl 1 k <=? m then (Z.shiftr m k, p + k) else (m, p)) = (m', p')
      /\ 0 <= m' < 2 ^ k /\ Z.log2 n = Z.log2 m' + p').
  { intros k m p Hk Hm Hl. destruct (Z.leb_spec (Z.shiftl 1 k) m) as [H|H]; do 2 eexists; split; [done| |done|].
    - split; [|rewrite Hl, (log2_step m k) by lia; lia]. split; [by apply Hs; lia|]. apply shiftr_lt; lia.
    - rewrite Z.shiftl_1_l in H. lia. }
  intros m p Hm Hl.
  destruct (step 8 m p ltac:(lia) Hm Hl) as (m8&p8&->&Hm8&Hl8).
  destruct (step 4 m8 p8 ltac:(lia) Hm8 Hl8) as (m4&p4&->&Hm4&Hl4).
  destruct (step 2 m4 p4 ltac:(lia) Hm4 Hl4) as (m2&p2&->&Hm2&Hl2).
  assert (Z.log2 m2 = if 2 <=? m2 then 1 else 0) as Hlog.
  { assert (m2 = 0 \/ m2 = 1 \/ m2 = 2 \/ m2 = 3) as [->|[->|[->| ->]]] by lia; reflexivity. }
  rewrite Hl2, Hlog. change (Z.shiftl 1 1) with 2. destruct (2 <=? m2); lia.
Qed.

Lemma get_size_class_range s r : 0 <= get_size_class s r < 8.
Proof.
  unfold get_size_class, RADV_SHADER_ALLOC_NUM_FREE_LISTS, RADV_SHADER_ALLOC_MAX_SIZE_CLASS,
    RADV_SHADER_ALLOC_MIN_SIZE_CLASS. lia.
Qed.

(** A hole's class says how large the hole is. *)
Lemma size_class_lower s c : 256 <= s -> 0 <= c < 8 -> c <= get_size_class s false <-> 2 ^ (c + 8) <= s.
Proof.
  intros Hs Hc.
  unfold get_size_class, RADV_SHADER_ALLOC_NUM_FREE_LISTS, RADV_SHADER_ALLOC_MAX_SIZE_CLASS,
    RADV_SHADER_ALLOC_MIN_SIZE_CLASS, util_logbase2.
  rewrite log2_lor_1 by lia. rewrite (Z.log2_le_pow2 s (c + 8)) by lia.
  pose proof (Z.log2_le_mono 256 s Hs) as Hl. change (Z.log2 256) with 8 in Hl. lia.
Qed.

(** The class a request rounds up to, when it is not the last one, is large enough for it. *)
Lemma size_class_upper s : 0 < s -> get_size_class s true < 7 -> s <= 2 ^ (get_size_class s true + 8).
Proof.
  intros Hs.
  unfold get_size_class, RADV_SHADER_ALLOC_NUM_FREE_LISTS, RADV_SHADER_ALLOC_MAX_SIZE_CLASS,
    RADV_SHADER_ALLOC_MIN_SIZE_CLASS, util_logbase2_ceil, util_logbase2.
  destruct (Z.leb_spec s 1); [intros _; replace s with 1 by lia; vm_compute; discriminate|].
  rewrite log2_lor_1 by lia. intros Hc.
  pose proof (Z.log2_spec (s - 1) ltac:(lia)) as [_ Hl].
  pose proof (Z.log2_nonneg (s - 1)).
  assert (2 ^ Z.succ (Z.log2 (s - 1)) <= 2 ^ (Z.min (Z.max (1 + Z.log2 (s - 1)) 8 - 8) (15 - 8 + 1 - 1) + 8)).
  { apply Z.pow_le_mono_r; lia. }
  lia.
Qed.

(** A hole of twice the size is in a class the search looks at. *)
Lemma size_class_double s h : 0 < s -> 256 <= h -> 2 * s <= h -> get_size_class s true <= get_size_class h false.
Proof.
  intros Hs Hh Hd. pose proof (get_size_class_range s true) as Hr.
  apply size_class_lower; [done|done|]. revert Hr.
  unfold get_size_class, RADV_SHADER_ALLOC_NUM_FREE_LISTS, RADV_SHADER_ALLOC_MAX_SIZE_CLASS,
    RADV_SHADER_ALLOC_MIN_SIZE_CLASS, util_logbase2_ceil, util_logbase2.
  destruct (Z.leb_spec s 1); [intros _; transitivity 256; [by vm_compute|lia]|].
  rewrite log2_lor_1 by lia. intros _. pose proof (Z.log2_nonneg (s - 1)).
  destruct (Z.leb_spec (Z.log2 (s - 1)) 7).
  - replace (Z.max (1 + Z.log2 (s - 1)) 8 - 8) with 0 by lia. transitivity 256; [by vm_compute|lia].
  - pose proof (Z.log2_spec (s - 1) ltac:(lia)) as [Hl _].
    transitivity (2 ^ (1 + Z.log2 (s - 1))); [apply Z.pow_le_mono_r; lia|].
    rewrite Z.pow_add_r by lia. lia.
Qed.

(** * Free lists *)

Definition fl_remove (hole c : Z) (fl : radv_shader_free_list) : radv_shader_free_list :=
  let lists := list_del hole <$> free_lists fl in
  FreeList (if is_nil (nth_list lists c) then Z.land (size_mask fl) (Z.lnot (Z.shiftl 1 c)) else size_mask fl)
           lists.
Definition fl_add (hole c : Z) (fl : radv_shader_free_list) : radv_shader_free_list :=
  FreeList (Z.lor (size_mask fl) (Z.shiftl 1 c))
           (alter (fun l => l ++ [hole]) (Z.to_nat c) (free_lists fl)).

(** [fl] holds the holes [P]: [P id c] when the hole [id] is in class [c]. *)
Record list_ok (fl : radv_shader_free_list) (P : Z -> Z -> Prop) : Prop := ListOk {
  lo_len : length (free_lists fl) = 8%nat;
  lo_nodup : forall c, 0 <= c < 8 -> NoDup (nth_list (free_lists fl) c);
  lo_elem : forall c id, 0 <= c < 8 -> id ∈ nth_list (free_lists fl) c <-> P id c;
  lo_mask : 0 <= size_mask fl < 256;
  lo_bit : forall c, 0 <= c < 8 -> Z.testbit (size_mask fl) c = negb (is_nil (nth_list (free_lists fl) c))
}.

Lemma list_ok_iff fl P Q :
  (forall id c, 0 <= c < 8 -> P id c <-> Q id c) -> list_ok fl P -> list_ok fl Q.
Proof. intros HPQ [H1 H2 H3 H4 H5]. split; try done. intros c id Hc. by rewrite H3, HPQ. Qed.

Lemma list_ok_empty : list_ok empty_free_list (fun _ _ => False).
Proof.
  assert (Hn : forall c, nth_list (free_lists empty_free_list) c = []).
  { intros c. unfold nth_list, empty_free_list. cbn [free_lists].
    destruct (_ !! _) as [l|] eqn:E; [|done]. by apply lookup_replicate_1 in E as [-> _]. }
  split; [done|..]; intros; rewrite ?Hn; [constructor|split; [by intros ?%elem_of_nil|done]|done|apply Z.bits_0].
Qed.

Lemma elem_list_del x y l : x ∈ list_del y l <-> x <> y /\ x ∈ l.
Proof. unfold list_del. by rewrite list_elem_of_filter. Qed.

Lemma nodup_list_del y l : NoDup l -> NoDup (list_del y l).
Proof. apply NoDup_filter. Qed.

Lemma list_del_notin y l : y ∉ l -> list_del y l = l.
Proof.
  intros H. unfold list_del. induction l as [|x l IH]; [done|].
  rewrite not_elem_of_cons in H. destruct H as [Hx H].
  rewrite filter_cons_True by congruence. by rewrite IH.
Qed.

Lemma list_del_cons_eq y l : list_del y (y :: l) = list_del y l.
Proof. unfold list_del. by rewrite filter_cons_False by naive_solver. Qed.

Lemma list_del_cons_ne x y l : x <> y -> list_del y (x :: l) = x :: list_del y l.
Proof. intros. unfold list_del. by rewrite filter_cons_True. Qed.

Lemma list_del_app y l1 l2 : list_del y (l1 ++ l2) = list_del y l1 ++ list_del y l2.
Proof. apply filter_app. Qed.

Lemma is_nil_true {A} (l : list A) : is_nil l = true <-> l = [].
Proof. by destruct l. Qed.

Lemma nth_list_fmap f ls c : length ls = 8%nat -> 0 <= c < 8 -> nth_list (f <$> ls) c = f (nth_list ls c).
Proof.
  intros Hl Hc. unfold nth_list. rewrite list_lookup_fmap.
  destruct (lookup_lt_is_Some_2 ls (Z.to_nat c)) as [l ->]; [lia|done].
Qed.

Lemma nth_list_alter f ls c c' : length ls = 8%nat -> 0 <= c < 8 -> 0 <= c' < 8 ->
  nth_list (alter f (Z.to_nat c) ls) c' = if c =? c' then f (nth_list ls c') else nth_list ls c'.
Proof.
  intros Hl Hc Hc'. unfold nth_list. destruct (Z.eqb_spec c c') as [->|].
  - rewrite list_lookup_alter_eq. by destruct (lookup_lt_is_Some_2 ls (Z.to_nat c')) as [l ->]; [lia|].
  - rewrite list_lookup_alter_ne by lia. done.
Qed.

Lemma mask_below m n : 0 <= m -> (forall i, n <= i -> Z.testbit m i = false) -> 0 <= n -> m < 2 ^ n.
Proof.
  intros Hm Hb Hn. destruct (Z.eq_dec m 0) as [->|]; [by apply Z.pow_pos_nonneg; lia|].
  apply Z.log2_lt_pow2; [lia|]. destruct (Z.lt_ge_cases (Z.log2 m) n); [done|].
  specialize (Hb _ H). rewrite Z.bit_log2 in Hb by lia. done.
Qed.

Lemma byte_bits m i : 0 <= m < 256 -> 8 <= i -> Z.testbit m i = false.
Proof.
  intros Hm Hi. destruct (Z.eq_dec m 0) as [->|]; [apply Z.bits_0|].
  apply Z.bits_above_log2; [lia|]. apply Z.log2_lt_pow2; [lia|].
  assert (2 ^ 8 <= 2 ^ i) by (apply Z.pow_le_mono_r; lia). change (2 ^ 8) with 256 in *. lia.
Qed.

(** [remove_hole] on the list: the class whose mask bit it reconsiders may be another one than the
    hole's, provided the hole is not the last one of its class. *)
Lemma fl_remove_ok hole c fl P :
  0 <= c < 8 -> list_ok fl P ->
  (forall c', P hole c' -> 0 <= c' < 8 -> c' = c \/ exists h, h <> hole /\ P h c') ->
  list_ok (fl_remove hole c fl) (fun id c' => id <> hole /\ P id c').
Proof.
  intros Hc [H1 H2 H3 H4 H5] Hlast.
  assert (Hnth : forall c', 0 <= c' < 8 ->
    nth_list (free_lists (fl_remove hole c fl)) c' = list_del hole (nth_list (free_lists fl) c'))
    by (intros; by apply nth_list_fmap).
  split.
  - simpl. by rewrite length_fmap.
  - intros c' Hc'. rewrite Hnth by done. apply nodup_list_del. auto.
  - intros c' id Hc'. rewrite Hnth by done. rewrite elem_list_del, H3 by done. done.
  - simpl. destruct (is_nil _); [|done].
    assert (0 <= Z.land (size_mask fl) (Z.lnot (Z.shiftl 1 c))) by (apply Z.land_nonneg; lia).
    split; [done|]. change 256 with (2 ^ 8). apply mask_below; [done| |lia].
    intros i Hi. rewrite Z.land_spec, byte_bits by done. done.
  - intros c' Hc'. rewrite Hnth by done. simpl. rewrite nth_list_fmap by done.
    assert (Hkeep : c' <> c \/ is_nil (list_del hole (nth_list (free_lists fl) c')) = false ->
      Z.testbit (size_mask fl) c' = negb (is_nil (list_del hole (nth_list (free_lists fl) c')))).
    { intros Hor. rewrite H5 by done. f_equal.
      destruct (decide (hole ∈ nth_list (free_lists fl) c')) as [Hin|Hout];
        [|by rewrite list_del_notin].
      assert (is_nil (list_del hole (nth_list (free_lists fl) c')) = false) as ->.
      { destruct Hor as [Hne|]; [|done]. apply (H3 c' hole Hc') in Hin.
        destruct (Hlast c' Hin Hc') as [|(h&Hh&HP)]; [done|]. apply (H3 c' h Hc') in HP.
        apply not_true_iff_false. rewrite is_nil_true. intros E.
        assert (Hd : h ∈ list_del hole (nth_list (free_lists fl) c')) by (by apply elem_list_del).
        rewrite E in Hd. by apply elem_of_nil in Hd. }
      destruct (nth_list (free_lists fl) c') eqn:E; [|done]. by apply elem_of_nil in Hin. }
    destruct (is_nil (list_del hole (nth_list (free_lists fl) c))) eqn:Ec.
    + rewrite Z.land_spec, Z.lnot_spec, Z.shiftl_1_l by lia.
      destruct (Z.eq_dec c' c) as [->|Hne].
      * rewrite Z.pow2_bits_true by lia. by rewrite Ec, andb_false_r.
      * rewrite Z.pow2_bits_false by lia. rewrite andb_true_r. apply Hkeep. by left.
    + apply Hkeep. destruct (Z.eq_dec c' c) as [->|]; [by right|by left].
Qed.

Lemma fl_add_ok hole c fl P :
  0 <= c < 8 -> list_ok fl P -> (forall c', 0 <= c' < 8 -> ~ P hole c') ->
  list_ok (fl_add hole c fl) (fun id c' => (id = hole /\ c' = c) \/ P id c').
Proof.
  intros Hc [H1 H2 H3 H4 H5] Hnew.
  assert (Hnth : forall c', 0 <= c' < 8 -> nth_list (free_lists (fl_add hole c fl)) c'
    = if c =? c' then nth_list (free_lists fl) c' ++ [hole] else nth_list (free_lists fl) c')
    by (intros; by apply nth_list_alter).
  split.
  - simpl. by rewrite length_alter.
  - intros c' Hc'. rewrite Hnth by done. destruct (c =? c'); [|auto].
    apply NoDup_app. split_and!; [auto| |apply NoDup_singleton].
    intros x Hx ->%list_elem_of_singleton. apply (H3 c' hole Hc') in Hx. by eapply Hnew.
  - intros c' id Hc'. rewrite Hnth by done. destruct (Z.eqb_spec c c') as [->|].
    + rewrite elem_of_app, list_elem_of_singleton, H3 by done. naive_solver.
    + rewrite H3 by done. naive_solver.
  - simpl. assert (0 <= Z.lor (size_mask fl) (Z.shiftl 1 c)).
    { apply Z.lor_nonneg. rewrite Z.shiftl_nonneg. lia. }
    split; [done|]. change 256 with (2 ^ 8). apply mask_below; [done| |lia].
    intros i Hi. rewrite Z.lor_spec, byte_bits, Z.shiftl_1_l, Z.pow2_bits_false by lia. done.
  - intros c' Hc'. rewrite Hnth by done. simpl. rewrite Z.lor_spec, Z.shiftl_1_l, H5 by done.
    destruct (Z.eqb_spec c c') as [->|].
    + rewrite Z.pow2_bits_true by lia. rewrite orb_true_r. by destruct (nth_list _ _).
    + rewrite Z.pow2_bits_false by lia. apply orb_false_r.
Qed.
