(* ===== verification/ArenaInv.v ===== *)
(** The invariant of the shader memory allocator, and the frame lemma its operations share: a
    segment of one arena's entries is replaced by another one that covers the same bytes. *)

From stdpp Require Import gmap.
From S2P Require Import Prelude Pm4 ShaderArena ArenaLists.

(** Prove the conjuncts that are immediate, in order. *)
Ltac conj_done := repeat (split; [done|]).

(** * Blocks that tile a range *)

(** The blocks [l] of arena [aid] cover [pos, stop) in address order, each a positive multiple of
    the alignment, and no hole follows a hole; [ph] and [ph'] say whether the block before the first
    one and the last one are holes. *)
Fixpoint tiles (bs : gmap Z radv_shader_arena_block) (aid pos : Z) (ph : bool) (l : list Z)
    (stop : Z) (ph' : bool) : Prop :=
  match l with
  | [] => pos = stop /\ ph = ph'
  | id :: l =>
      exists b, bs !! id = Some b /\ b_arena b = aid /\ b_offset b = pos
        /\ (0 < b_size b /\ b_size b mod 256 = 0) /\ ph && b_prev b = false
        /\ tiles bs aid (pos + b_size b) (b_prev b) l stop ph'
  end.

Lemma tiles_app bs aid l1 : forall pos ph l2 stop ph',
  tiles bs aid pos ph (l1 ++ l2) stop ph'
  <-> exists m phm, tiles bs aid pos ph l1 m phm /\ tiles bs aid m phm l2 stop ph'.
Proof.
  induction l1 as [|id l1 IH]; intros pos ph l2 stop ph'; simpl.
  - split; [intros H; by exists pos, ph|by intros (m&phm&[-> ->]&H)].
  - split.
    + intros (b&?&?&?&?&?&(m&phm&?&?)%IH). exists m, phm. split; [by exists b|done].
    + intros (m&phm&(b&?&?&?&?&?&?)&?). exists b. conj_done. apply IH. by exists m, phm.
Qed.

Lemma tiles_frame bs bs' aid l : forall pos ph stop ph',
  (forall id, id ∈ l -> bs' !! id = bs !! id) -> tiles bs aid pos ph l stop ph' ->
  tiles bs' aid pos ph l stop ph'.
Proof.
  induction l as [|id l IH]; intros pos ph stop ph' Hf; simpl; [done|].
  intros (b&Hb&?&?&?&?&?). exists b. rewrite Hf by apply list_elem_of_here.
  conj_done. apply IH; [|done]. intros i Hi. apply Hf. by apply list_elem_of_further.
Qed.

(** Where the blocks lie. *)
Lemma tiles_elem bs aid l : forall pos ph stop ph' id,
  tiles bs aid pos ph l stop ph' -> id ∈ l ->
  exists b, bs !! id = Some b /\ b_arena b = aid /\ pos <= b_offset b
    /\ (0 < b_size b /\ b_size b mod 256 = 0) /\ b_offset b + b_size b <= stop
    /\ (pos mod 256 = 0 -> b_offset b mod 256 = 0).
Proof.
  assert (Hle : forall l pos ph stop ph', tiles bs aid pos ph l stop ph' -> pos <= stop).
  { clear l. induction l as [|x l IH]; intros pos ph stop ph'; simpl; [lia|].
    intros (b&?&?&?&?&?&?%IH). lia. }
  induction l as [|x l IH]; intros pos ph stop ph' id; simpl; [by intros _ ?%elem_of_nil|].
  intros (b&Hb&Ha&Ho&Hs&Hp&Ht) [->|Hin]%elem_of_cons.
  - exists b. conj_done. split; [lia|]. conj_done. split; [apply Hle in Ht; lia|by rewrite Ho].
  - destruct (IH _ _ _ _ _ Ht Hin) as (b'&?&?&?&?&?&Hm). exists b'. conj_done. split; [lia|]. conj_done.
    intros Hpos. apply Hm. rewrite Z.add_mod, Hpos by lia. destruct Hs as [_ ->]. done.
Qed.

Lemma tiles_nodup bs aid l : forall pos ph stop ph', tiles bs aid pos ph l stop ph' -> NoDup l.
Proof.
  induction l as [|x l IH]; intros pos ph stop ph'; simpl; [constructor|].
  intros (b&Hb&?&?&?&?&Ht). constructor; [|by eapply IH].
  intros Hin. destruct (tiles_elem _ _ _ _ _ _ _ _ Ht Hin) as (b'&Hb'&?&?&_).
  rewrite Hb in Hb'. injection Hb' as <-. lia.
Qed.

(** Two blocks of an arena are apart. *)
Lemma tiles_disjoint bs aid l : forall pos ph stop ph' i j bi bj,
  tiles bs aid pos ph l stop ph' -> i ∈ l -> j ∈ l -> i <> j ->
  bs !! i = Some bi -> bs !! j = Some bj ->
  b_offset bi + b_size bi <= b_offset bj \/ b_offset bj + b_size bj <= b_offset bi.
Proof.
  induction l as [|x l IH]; intros pos ph stop ph' i j bi bj; simpl; [by intros _ ?%elem_of_nil|].
  intros (b&Hb&?&?&?&?&Ht) [->|Hi]%elem_of_cons [->|Hj]%elem_of_cons Hne Hbi Hbj;
    [done| | |exact (IH _ _ _ _ _ _ _ _ Ht Hi Hj Hne Hbi Hbj)].
  - destruct (tiles_elem _ _ _ _ _ _ _ _ Ht Hj) as (b'&Hb'&?&?&_). simplify_map_eq. lia.
  - destruct (tiles_elem _ _ _ _ _ _ _ _ Ht Hi) as (b'&Hb'&?&?&_). simplify_map_eq. lia.
Qed.

(** * The invariant *)

Definition arena_ok (bs : gmap Z radv_shader_arena_block) (aid : Z) (a : radv_shader_arena) : Prop :=
  a_size a < W32 /\ exists ph, tiles bs aid 0 false (a_entries a) (a_size a) ph.

Definition linked (d : arena_device) (id : Z) : Prop :=
  exists aid a, d_arenas d !! aid = Some a /\ id ∈ a_entries a.

(** The hole [id] of an arena served by list [w] has class [c]. *)
Definition holes_in (d : arena_device) (w : free_list_name) (id c : Z) : Prop :=
  exists b a, d_blocks d !! id = Some b /\ d_arenas d !! b_arena b = Some a /\ id ∈ a_entries a
    /\ arena_free_list (a_type a) = Some w /\ b_prev b = true /\ c = get_size_class (b_size b) false.

(** What holds at every point of the allocator's operations at which no block is half linked. *)
Record core_inv (d : arena_device) : Prop := CoreInv {
  ci_arenas : forall aid a, d_arenas d !! aid = Some a -> arena_ok (d_blocks d) aid a;
  ci_lists : forall w, list_ok (get_list w d) (holes_in d w);
  ci_pool_nodup : NoDup (d_block_obj_pool d);
  ci_pool : forall id, id ∈ d_block_obj_pool d -> ~ linked d id /\ id < d_clock d;
  ci_linked : forall id, linked d id -> id < d_clock d;
  ci_aids : forall aid, is_Some (d_arenas d !! aid) -> aid < d_clock d;
  ci_vas : forall va aid, d_arena_vas d !! va = Some aid ->
    exists a, d_arenas d !! aid = Some a /\ a_type a = RADV_SHADER_ARENA_REPLAYED;
  ci_vas_inj : forall va va' aid,
    d_arena_vas d !! va = Some aid -> d_arena_vas d !! va' = Some aid -> va = va'
}.

(** An arena that is not kept for replay has an allocation. *)
Definition arena_used (d : arena_device) (a : radv_shader_arena) : Prop :=
  a_type a <> RADV_SHADER_ARENA_REPLAYED ->
  exists id b, id ∈ a_entries a /\ d_blocks d !! id = Some b /\ b_prev b = false.

(** The invariant between operations. *)
Record arena_inv (d : arena_device) : Prop := ArenaInv {
  ai_core : core_inv d;
  ai_nodup : NoDup (d_shader_arenas d);
  ai_known : forall aid, aid ∈ d_shader_arenas d <-> is_Some (d_arenas d !! aid);
  ai_used : forall aid a, d_arenas d !! aid = Some a -> arena_used d a;
  ai_shift : 0 <= d_arena_shift d
}.

(** * Live allocations *)

Definition is_live (d : arena_device) (kv : Z * radv_shader_arena_block) : bool :=
  negb (b_prev kv.2)
  && match d_arenas d !! b_arena kv.2 with
     | Some a => bool_decide (kv.1 ∈ a_entries a)
     | None => false
     end.

(** The allocations of the device: what its users hold. *)
Definition live (d : arena_device) : gmap Z radv_shader_arena_block :=
  filter (fun kv => is_live d kv = true) (d_blocks d).

Lemma lookup_live d id b :
  live d !! id = Some b <->
  d_blocks d !! id = Some b /\ b_prev b = false
  /\ exists a, d_arenas d !! b_arena b = Some a /\ id ∈ a_entries a.
Proof.
  unfold live. rewrite map_lookup_filter_Some. unfold is_live. simpl. split.
  - intros [Hb Hl]. rewrite andb_true_iff, negb_true_iff in Hl. destruct Hl as [Hp Hl].
    destruct (d_arenas d !! b_arena b) as [a|]; [|done]. apply bool_decide_eq_true in Hl.
    split_and!; [done..|]. by exists a.
  - intros (Hb&Hp&a&Ha&Hin). split; [done|]. rewrite Hp, Ha. by apply bool_decide_eq_true.
Qed.

Lemma map_eq_some {A} (m1 m2 : gmap Z A) :
  (forall i x, m1 !! i = Some x <-> m2 !! i = Some x) -> m1 = m2.
Proof. intros H. apply map_eq. intros i. apply option_eq. intros x. apply H. Qed.

(** * Facts of a state that satisfies the invariant *)

Section Facts.
Context (d : arena_device) (Hinv : core_inv d).

Lemma linked_block aid a id :
  d_arenas d !! aid = Some a -> id ∈ a_entries a ->
  exists b, d_blocks d !! id = Some b /\ b_arena b = aid /\ 0 <= b_offset b
    /\ b_offset b mod 256 = 0 /\ (0 < b_size b /\ b_size b mod 256 = 0)
    /\ b_offset b + b_size b <= a_size a < W32.
Proof using Hinv.
  intros Ha Hin. destruct (ci_arenas _ Hinv _ _ Ha) as (Hs&ph&Ht).
  destruct (tiles_elem _ _ _ _ _ _ _ _ Ht Hin) as (b&?&?&?&?&?&Hm). exists b. conj_done. split; [by apply Hm|]. conj_done. lia.
Qed.

Lemma linked_arena aid a id b :
  d_arenas d !! aid = Some a -> id ∈ a_entries a -> d_blocks d !! id = Some b -> b_arena b = aid.
Proof using Hinv.
  intros Ha Hin Hb. destruct (linked_block _ _ _ Ha Hin) as (b'&Hb'&?&_). by simplify_map_eq.
Qed.

Lemma entries_nodup aid a : d_arenas d !! aid = Some a -> NoDup (a_entries a).
Proof using Hinv. intros Ha. destruct (ci_arenas _ Hinv _ _ Ha) as (?&?&Ht). by eapply tiles_nodup. Qed.

(** A block is in one arena. *)
Lemma linked_unique aid a aid' a' id :
  d_arenas d !! aid = Some a -> id ∈ a_entries a ->
  d_arenas d !! aid' = Some a' -> id ∈ a_entries a' -> aid = aid'.
Proof using Hinv.
  intros Ha Hin Ha' Hin'. destruct (linked_block _ _ _ Ha Hin) as (b&Hb&<-&_).
  by eapply linked_arena.
Qed.

Lemma live_linked id b : live d !! id = Some b -> linked d id.
Proof using Type. intros (?&?&a&Ha&Hin)%lookup_live. by exists (b_arena b), a. Qed.

Lemma holes_linked w id c : holes_in d w id c -> linked d id.
Proof using Type. intros (b&a&?&?&?&_). by exists (b_arena b), a. Qed.

End Facts.

(** * Replacing a segment of the entries of one arena *)

Section Splice.
Context (d d' : arena_device) (Hinv : core_inv d).
Context (aid : Z) (a : radv_shader_arena) (l1 old new l2 : list Z).
Context (Ha : d_arenas d !! aid = Some a) (He : a_entries a = l1 ++ old ++ l2).
Context (Hars : d_arenas d' = <[aid := with_entries a (l1 ++ new ++ l2)]> (d_arenas d)).
Context (Hbs : forall id, id ∉ old -> id ∉ new -> d_blocks d' !! id = d_blocks d !! id).
Context (Hnew : forall id, id ∈ new -> id ∈ old \/ ~ linked d id).
Context (Hok : arena_ok (d_blocks d') aid (with_entries a (l1 ++ new ++ l2))).

Lemma splice_old id : id ∈ old -> id ∈ a_entries a.
Proof using He. intros. rewrite He, !elem_of_app. auto. Qed.

(** A linked block outside the old segment is not in the new one either. *)
Lemma splice_out id : linked d id -> id ∉ old -> id ∉ new.
Proof using Hnew. intros Hl Hn [?|?]%Hnew; done. Qed.

Lemma splice_other aid' a' id :
  d_arenas d !! aid' = Some a' -> aid' <> aid -> id ∈ a_entries a' -> (id ∉ old) /\ id ∉ new.
Proof using Hinv Ha He Hnew.
  intros Ha' Hne Hin.
  assert (id ∉ old).
  { intros Ho%splice_old. apply Hne. by eapply (linked_unique d Hinv aid' a' aid a id). }
  split; [done|]. apply splice_out; [by exists aid', a'|done].
Qed.

Lemma splice_arenas aid' a' : d_arenas d' !! aid' = Some a' -> arena_ok (d_blocks d') aid' a'.
Proof using Hinv Ha He Hars Hbs Hnew Hok.
  rewrite Hars. destruct (decide (aid' = aid)) as [->|Hne].
  - rewrite lookup_insert_eq. by intros [= <-].
  - rewrite lookup_insert_ne by done. intros Ha'. destruct (ci_arenas _ Hinv _ _ Ha') as (Hs&ph&Ht).
    split; [done|]. exists ph. eapply tiles_frame; [|done].
    intros id Hin. by apply Hbs; eapply splice_other.
Qed.

(** A block that is linked after the replacement. *)
Lemma splice_linked id :
  linked d' id <-> id ∈ new \/ ((id ∉ old) /\ linked d id).
Proof using Hinv Ha He Hars Hbs Hnew.
  assert (Hnd : NoDup (l1 ++ old ++ l2)) by (rewrite <- He; by eapply entries_nodup).
  split.
  - intros (aid'&a'&Ha'&Hin). rewrite Hars in Ha'. destruct (decide (aid' = aid)) as [->|Hne].
    + rewrite lookup_insert_eq in Ha'. injection Ha' as <-. simpl in Hin.
      rewrite !elem_of_app in Hin. destruct Hin as [Hin|[Hin|Hin]]; [right|by left|right].
      * split; [|exists aid, a; by rewrite He, !elem_of_app; auto].
        apply NoDup_app in Hnd as (_&Hd&_). intros Ho. apply (Hd id Hin). rewrite elem_of_app. auto.
      * split; [|exists aid, a; by rewrite He, !elem_of_app; auto].
        apply NoDup_app in Hnd as (_&_&Hd). apply NoDup_app in Hd as (_&Hd&_). intros Ho. by apply (Hd id).
    + rewrite lookup_insert_ne in Ha' by done. right.
      split; [by eapply splice_other|by exists aid', a'].
  - intros [Hin|[Ho (aid'&a'&Ha'&Hin)]].
    + exists aid, (with_entries a (l1 ++ new ++ l2)). rewrite Hars, lookup_insert_eq. split; [done|].
      simpl. rewrite !elem_of_app. auto.
    + destruct (decide (aid' = aid)) as [->|Hne].
      * exists aid, (with_entries a (l1 ++ new ++ l2)). rewrite Hars, lookup_insert_eq. split; [done|].
        rewrite Ha in Ha'. injection Ha' as <-. rewrite He in Hin. simpl.
        rewrite !elem_of_app in Hin |- *. naive_solver.
      * exists aid', a'. by rewrite Hars, lookup_insert_ne by done.
Qed.

(** What a property of linked blocks [R b t] ([t] the arena's type) becomes. *)
Lemma splice_blocks (R : radv_shader_arena_block -> radv_shader_arena_type -> Prop) id b :
  (d_blocks d' !! id = Some b
   /\ exists a', d_arenas d' !! b_arena b = Some a' /\ id ∈ a_entries a' /\ R b (a_type a'))
  <-> (id ∈ new /\ d_blocks d' !! id = Some b /\ R b (a_type a))
      \/ ((id ∉ old) /\ d_blocks d !! id = Some b
          /\ exists a', d_arenas d !! b_arena b = Some a' /\ id ∈ a_entries a' /\ R b (a_type a')).
Proof using Hinv Ha He Hars Hbs Hnew Hok.
  assert (Hnb : id ∈ new -> d_blocks d' !! id = Some b -> b_arena b = aid).
  { intros Hin Hb. destruct Hok as (_&ph&Ht).
    destruct (tiles_elem _ _ _ _ _ _ _ id Ht) as (b'&Hb'&?&_); [simpl; rewrite !elem_of_app; auto|].
    by simplify_map_eq. }
  split.
  - intros (Hb&a'&Ha'&Hin&HR).
    assert (Hl : linked d' id) by (by exists (b_arena b), a').
    apply splice_linked in Hl as [Hn|[Ho Hl]].
    + left. split_and!; try done. rewrite Hars, (Hnb Hn Hb), lookup_insert_eq in Ha'.
      by injection Ha' as <-.
    + right. pose proof (splice_out id Hl Ho) as Hn. rewrite (Hbs id Ho Hn) in Hb. split_and!; try done.
      destruct Hl as (aid2&a2&Ha2&Hin2). pose proof (linked_arena d Hinv _ _ _ _ Ha2 Hin2 Hb) as Hab.
      exists a2. rewrite Hab. split_and!; try done. rewrite Hars, Hab in Ha'.
      destruct (decide (aid2 = aid)) as [->|].
      * rewrite lookup_insert_eq in Ha'. rewrite Ha in Ha2. by simplify_map_eq.
      * rewrite lookup_insert_ne in Ha' by done. by simplify_map_eq.
  - intros [(Hn&Hb&HR)|(Ho&Hb&a'&Ha'&Hin&HR)].
    + split; [done|]. exists (with_entries a (l1 ++ new ++ l2)). rewrite (Hnb Hn Hb), Hars, lookup_insert_eq.
      split_and!; [done| |done]. simpl. rewrite !elem_of_app. auto.
    + assert (Hl : linked d id) by (by exists (b_arena b), a').
      pose proof (splice_out id Hl Ho) as Hn. rewrite (Hbs id Ho Hn). split; [done|].
      assert (linked d' id) as (aid2&a2&Ha2&Hin2) by (apply splice_linked; auto).
      rewrite Hars in Ha2. destruct (decide (aid2 = aid)) as [->|Hne].
      * rewrite lookup_insert_eq in Ha2. injection Ha2 as <-. simpl in Hin2.
        assert (id ∈ a_entries a) by (rewrite He, !elem_of_app; rewrite !elem_of_app in Hin2; naive_solver).
        rewrite (linked_arena d Hinv _ _ _ _ Ha H Hb) in Ha' |- *. rewrite Ha in Ha'. injection Ha' as <-.
        exists (with_entries a (l1 ++ new ++ l2)). rewrite Hars, lookup_insert_eq. done.
      * rewrite lookup_insert_ne in Ha2 by done.
        pose proof (linked_arena d Hinv _ _ _ _ Ha2 Hin2 Hb) as Hab. rewrite Hab in Ha' |- *.
        exists a2. rewrite Hars, lookup_insert_ne by done. by simplify_map_eq.
Qed.

Lemma splice_live id b :
  live d' !! id = Some b <->
  (id ∈ new /\ d_blocks d' !! id = Some b /\ b_prev b = false) \/ ((id ∉ old) /\ live d !! id = Some b).
Proof using Hinv Ha He Hars Hbs Hnew Hok.
  rewrite !lookup_live. pose proof (splice_blocks (fun b _ => b_prev b = false) id b) as HR. naive_solver.
Qed.

Lemma splice_holes w id c :
  holes_in d' w id c <->
  (arena_free_list (a_type a) = Some w /\ id ∈ new
   /\ exists b, d_blocks d' !! id = Some b /\ b_prev b = true /\ c = get_size_class (b_size b) false)
  \/ ((id ∉ old) /\ holes_in d w id c).
Proof using Hinv Ha He Hars Hbs Hnew Hok.
  unfold holes_in.
  pose proof (fun b => splice_blocks (fun b t => arena_free_list t = Some w /\ b_prev b = true
    /\ c = get_size_class (b_size b) false) id b) as HR.
  split.
  - intros (b&a'&Hb&Ha'&Hin&HP). destruct (HR b) as [[(?&?&?)|(?&?&a2&?&?&?)] _]; naive_solver.
  - intros [(Hw&Hin&b&Hb&HP)|(Ho&b&a'&Hb&Ha'&Hin&HP)].
    + destruct (HR b) as [_ (Hb2&a2&?&?&?)]; [by left|]. by exists b, a2.
    + destruct (HR b) as [_ (Hb2&a2&?&?&?)]; [right; split_and!; try done; by exists a'|]. by exists b, a2.
Qed.

(** The free lists: only the list of the arena changes. *)
Lemma splice_lists f :
  (forall w, get_list w d' = if decide (arena_free_list (a_type a) = Some w) then f (get_list w d)
                             else get_list w d) ->
  (forall w, arena_free_list (a_type a) = Some w ->
     list_ok (f (get_list w d))
       (fun id c => (id ∈ new /\ exists b, d_blocks d' !! id = Some b /\ b_prev b = true
                                           /\ c = get_size_class (b_size b) false)
                    \/ ((id ∉ old) /\ holes_in d w id c))) ->
  forall w, list_ok (get_list w d') (holes_in d' w).
Proof using Hinv Ha He Hars Hbs Hnew Hok.
  intros Hf Hl w. rewrite Hf. destruct (decide _) as [Hw|Hw].
  - eapply list_ok_iff; [|by apply Hl]. intros id c _. rewrite splice_holes. naive_solver.
  - eapply list_ok_iff; [|apply (ci_lists _ Hinv)]. intros id c _. rewrite splice_holes.
    split; [|naive_solver]. intros Hh. right. split; [|done].
    intros Ho%splice_old. destruct Hh as (b&a'&Hb&Ha'&Hin&Ht&_).
    rewrite (linked_arena d Hinv _ _ _ _ Ha Ho Hb), Ha in Ha'. by simplify_eq.
Qed.

Lemma splice_core :
  (forall w, list_ok (get_list w d') (holes_in d' w)) ->
  NoDup (d_block_obj_pool d') ->
  (forall id, id ∈ d_block_obj_pool d' -> (id ∈ old \/ id ∈ d_block_obj_pool d) /\ id ∉ new) ->
  (forall id, id ∈ new -> id < d_clock d') -> d_clock d <= d_clock d' ->
  d_arena_vas d' = d_arena_vas d -> core_inv d'.
Proof using Hinv Ha He Hars Hbs Hnew Hok.
  intros Hl Hnd Hp Hn Hc Hv. split; try done.
  - exact splice_arenas.
  - intros id Hid. destruct (Hp id Hid) as [Hor Hout]. rewrite splice_linked. split.
    + intros [|[Ho Hli]]; [done|]. destruct Hor as [|Hin]; [done|]. by destruct (ci_pool _ Hinv id Hin).
    + destruct Hor as [Ho|Hin]; [|destruct (ci_pool _ Hinv id Hin); lia].
      assert (Hli : linked d id) by (exists aid, a; split; [done|by apply splice_old]).
      pose proof (ci_linked _ Hinv id Hli). lia.
  - intros id [|[_ Hli]]%splice_linked; [auto|]. pose proof (ci_linked _ Hinv id Hli). lia.
  - intros aid'. rewrite Hars. intros His. assert (is_Some (d_arenas d !! aid')) as H%(ci_aids _ Hinv); [|lia].
    destruct (decide (aid' = aid)) as [->|]; [done|]. by rewrite lookup_insert_ne in His by done.
  - rewrite Hv. intros va aid' (a'&Ha'&Ht)%(ci_vas _ Hinv). rewrite Hars.
    destruct (decide (aid' = aid)) as [->|]; [|rewrite lookup_insert_ne by done; by exists a'].
    rewrite lookup_insert_eq. eexists; split; [done|]. rewrite Ha in Ha'. by injection Ha' as ->.
  - rewrite Hv. apply (ci_vas_inj _ Hinv).
Qed.

Lemma splice_known aid' : is_Some (d_arenas d' !! aid') <-> is_Some (d_arenas d !! aid').
Proof using Ha Hars.
  rewrite Hars. destruct (decide (aid' = aid)) as [->|].
  - rewrite lookup_insert_eq, Ha. split; by eexists.
  - by rewrite lookup_insert_ne.
Qed.

Lemma splice_used aid' a' :
  d_arenas d' !! aid' = Some a' ->
  (forall a0, d_arenas d !! aid' = Some a0 -> arena_used d a0) ->
  arena_used d' (with_entries a (l1 ++ new ++ l2)) -> arena_used d' a'.
Proof using Hinv Ha He Hars Hbs Hnew.
  rewrite Hars. destruct (decide (aid' = aid)) as [->|Hne].
  - rewrite lookup_insert_eq. by intros [= <-].
  - rewrite lookup_insert_ne by done. intros Ha' Hu _ Ht. destruct (Hu a' Ha' Ht) as (id&b&Hin&Hb&Hp).
    exists id, b. split; [done|]. rewrite Hbs; [done|by eapply splice_other..].
Qed.

End Splice.

(** * Block objects *)

(** What stays the same: the linked blocks, the lists and the table. *)
Definition same_store (d d' : arena_device) : Prop :=
  (forall id, linked d id -> d_blocks d' !! id = d_blocks d !! id)
  /\ d_arenas d' = d_arenas d /\ d_shader_arenas d' = d_shader_arenas d
  /\ (forall w, get_list w d' = get_list w d) /\ d_arena_vas d' = d_arena_vas d
  /\ d_arena_shift d' = d_arena_shift d /\ d_clock d <= d_clock d'.

Lemma same_store_refl d : same_store d d.
Proof. unfold same_store. by split_and!. Qed.

Lemma same_store_trans d1 d2 d3 : same_store d1 d2 -> same_store d2 d3 -> same_store d1 d3.
Proof.
  intros (A1&A2&A3&A4&A5&A6&A7) (B1&B2&B3&B4&B5&B6&B7). unfold same_store.
  rewrite B2, B3, B5, B6. split; [|split_and!; try done; [intros; by rewrite B4|lia]].
  intros id Hl. rewrite B1; [by apply A1|]. unfold linked. by rewrite A2.
Qed.

Lemma same_store_linked d d' id : same_store d d' -> linked d' id <-> linked d id.
Proof. intros (_&H&_). unfold linked. by rewrite H. Qed.

(** A statement about a linked block and its arena. *)
Lemma same_store_block d d' id b a :
  same_store d d' -> d_arenas d !! b_arena b = Some a -> id ∈ a_entries a ->
  d_blocks d' !! id = Some b <-> d_blocks d !! id = Some b.
Proof. intros (H&_) Ha Hin. rewrite H; [done|]. by exists (b_arena b), a. Qed.

Lemma same_store_holes d d' w id c : same_store d d' -> holes_in d' w id c <-> holes_in d w id c.
Proof.
  intros Hs. unfold holes_in. assert (d_arenas d' = d_arenas d) as -> by apply Hs.
  split; intros (b&a&Hb&Ha&Hin&H); exists b, a; (split; [by apply (same_store_block d d' id b a)|by conj_done]).
Qed.

Lemma same_store_live d d' : same_store d d' -> live d' = live d.
Proof.
  intros Hs. apply map_eq_some. intros i b. rewrite !lookup_live.
  assert (d_arenas d' = d_arenas d) as -> by apply Hs.
  split; intros (Hb&Hp&a&Ha&Hin); (split; [by apply (same_store_block d d' i b a)|by split; [done|exists a]]).
Qed.

Lemma same_store_core d d' :
  core_inv d -> same_store d d' -> NoDup (d_block_obj_pool d') ->
  (forall id, id ∈ d_block_obj_pool d' -> id ∈ d_block_obj_pool d) -> core_inv d'.
Proof.
  intros Hinv Hs Hnd Hp. pose proof Hs as (H1&H2&H3&H4&H5&H6&H7). split; try done.
  - rewrite H2. intros aid a Ha. destruct (ci_arenas _ Hinv _ _ Ha) as (Hsz&ph&Ht). split; [done|].
    exists ph. eapply tiles_frame; [|done]. intros id Hin. apply H1. by exists aid, a.
  - intros w. rewrite H4. eapply list_ok_iff; [|apply (ci_lists _ Hinv)].
    intros. symmetry. by apply same_store_holes.
  - intros id Hid%Hp%(ci_pool _ Hinv). rewrite (same_store_linked _ _ _ Hs). split; [naive_solver|lia].
  - intros id. rewrite (same_store_linked _ _ _ Hs). intros H%(ci_linked _ Hinv). lia.
  - intros aid. rewrite H2. intros H%(ci_aids _ Hinv). lia.
  - rewrite H5, H2. apply (ci_vas _ Hinv).
  - rewrite H5. apply (ci_vas_inj _ Hinv).
Qed.

Lemma same_store_used d d' aid a :
  same_store d d' -> d_arenas d !! aid = Some a -> arena_used d a -> arena_used d' a.
Proof.
  intros (H1&_) Ha Hu Ht. destruct (Hu Ht) as (id&b&Hin&Hb&Hp). exists id, b.
  rewrite H1; [done|]. by exists aid, a.
Qed.

Lemma same_store_inv d d' : arena_inv d -> core_inv d' -> same_store d d' -> arena_inv d'.
Proof.
  intros [_ ? Hk Hu ?] Hc Hs. pose proof Hs as (_&H2&H3&_&_&H6&_). split; [done|by rewrite H3| | |by rewrite H6].
  - intros aid. by rewrite H2, H3.
  - intros aid a. rewrite H2. intros Ha. eapply same_store_used; eauto.
Qed.

Lemma same_store_tick d : same_store d (tick d).
Proof. unfold same_store. simpl. split_and!; try done; lia. Qed.

Lemma tick_core d : core_inv d -> core_inv (tick d).
Proof.
  intros Hinv. apply (same_store_core d); [done|apply same_store_tick|apply (ci_pool_nodup _ Hinv)|done].
Qed.

(** A block object is a fresh one: no arena links it. *)
Lemma alloc_block_obj_ok e d r d1 :
  core_inv d -> alloc_block_obj e d = (r, d1) ->
  core_inv d1 /\ same_store d d1
  /\ (forall id, r = Some id -> ~ linked d1 id /\ (id ∉ d_block_obj_pool d1) /\ id < d_clock d1
                 /\ (id ∈ d_block_obj_pool d \/ d_clock d <= id))
  /\ (forall id, id ∈ d_block_obj_pool d1 -> id ∈ d_block_obj_pool d)
  /\ d_blocks d1 = d_blocks d
  /\ (r = None -> malloc_ok e (d_clock d) = false).
Proof.
  intros Hinv. unfold alloc_block_obj. destruct (d_block_obj_pool d) as [|x pool] eqn:Ep.
  - pose proof (tick_core d Hinv) as Hc. pose proof (same_store_tick d) as Hs.
    destruct (malloc_ok e (d_clock d)) eqn:Em; intros [= <- <-]; simpl; rewrite Ep;
      (split_and!; [done|done| |done|done|done]).
    2: done. intros id [= <-]. split_and!; [|apply not_elem_of_nil|lia|right; lia].
    intros Hl%(same_store_linked _ _ _ Hs)%(ci_linked _ Hinv). lia.
  - intros [= <- <-].
    assert (Hs : same_store d (with_pool d pool)) by (unfold same_store; simpl; split_and!; try done; lia).
    pose proof (ci_pool_nodup _ Hinv) as Hnd. rewrite Ep in Hnd. inversion Hnd as [|?? Hx Hnd']; subst.
    split_and!; [|done| | |done|done].
    + apply (same_store_core d); simpl; rewrite ?Ep; try done. intros id ?. by apply list_elem_of_further.
    + intros id [= <-]. rewrite (same_store_linked _ _ _ Hs). simpl.
      destruct (ci_pool _ Hinv x) as [Hl Hc]; [rewrite Ep; apply list_elem_of_here|].
      split_and!; try done. left. apply list_elem_of_here.
    + intros id. apply list_elem_of_further.
Qed.
