(* ===== verification/ArenaAlloc.v ===== *)
(** Allocation of shader memory from the holes of existing arenas. *)

From stdpp Require Import gmap.
From S2P Require Import Prelude Pm4 ShaderArena ArenaLists ArenaInv.

(** * Projections of the updated device *)

Lemma blocks_with_list w d fl : d_blocks (with_list w d fl) = d_blocks d.
Proof. by destruct w. Qed.
Lemma arenas_with_list w d fl : d_arenas (with_list w d fl) = d_arenas d.
Proof. by destruct w. Qed.
Lemma shader_arenas_with_list w d fl : d_shader_arenas (with_list w d fl) = d_shader_arenas d.
Proof. by destruct w. Qed.
Lemma pool_with_list w d fl : d_block_obj_pool (with_list w d fl) = d_block_obj_pool d.
Proof. by destruct w. Qed.
Lemma vas_with_list w d fl : d_arena_vas (with_list w d fl) = d_arena_vas d.
Proof. by destruct w. Qed.
Lemma shift_with_list w d fl : d_arena_shift (with_list w d fl) = d_arena_shift d.
Proof. by destruct w. Qed.
Lemma clock_with_list w d fl : d_clock (with_list w d fl) = d_clock d.
Proof. by destruct w. Qed.
Lemma get_list_with_list w w' d fl :
  get_list w' (with_list w d fl) = if decide (w = w') then fl else get_list w' d.
Proof. by destruct w, w'. Qed.
Lemma get_list_set_block w id b d : get_list w (set_block id b d) = get_list w d.
Proof. by destruct w. Qed.
Lemma get_list_set_arena w id a d : get_list w (set_arena id a d) = get_list w d.
Proof. by destruct w. Qed.
Lemma get_list_with_pool w d p : get_list w (with_pool d p) = get_list w d.
Proof. by destruct w. Qed.
Lemma blocks_set_block id b d : d_blocks (set_block id b d) = <[id := b]> (d_blocks d).
Proof. done. Qed.
Lemma blocks_set_arena id a d : d_blocks (set_arena id a d) = d_blocks d.
Proof. done. Qed.
Lemma arenas_set_block id b d : d_arenas (set_block id b d) = d_arenas d.
Proof. done. Qed.
Lemma arenas_set_arena id a d : d_arenas (set_arena id a d) = <[id := a]> (d_arenas d).
Proof. done. Qed.

Create Rewrite HintDb arena.
#[export] Hint Rewrite blocks_with_list arenas_with_list shader_arenas_with_list pool_with_list
  vas_with_list shift_with_list clock_with_list get_list_with_list get_list_set_block
  get_list_set_arena get_list_with_pool blocks_set_block blocks_set_arena arenas_set_block
  arenas_set_arena : arena.

Ltac arena_simpl :=
  repeat (progress (autorewrite with arena; simplify_map_eq)).

Lemma remove_hole_eq w h d b : d_blocks d !! h = Some b ->
  remove_hole w h d = Some (with_list w (set_block h (link_user 0 b) d)
                              (fl_remove h (get_size_class (b_size b) false) (get_list w d))).
Proof. intros H. unfold remove_hole. by rewrite H. Qed.

Lemma add_hole_eq w h d b : d_blocks d !! h = Some b ->
  add_hole w h d = Some (with_list w (set_block h (link_free b) d)
                           (fl_add h (get_size_class (b_size b) false) (get_list w d))).
Proof. intros H. unfold add_hole. by rewrite H. Qed.

(** * The linked lists around a block *)

Lemma insert_before_app h x l1 l2 : h ∉ l1 -> insert_before h x (l1 ++ h :: l2) = l1 ++ x :: h :: l2.
Proof.
  induction l1 as [|y l1 IH]; simpl; [by rewrite Z.eqb_refl|].
  rewrite not_elem_of_cons. intros [Hy Hl]. destruct (Z.eqb_spec y h) as [->|]; [done|]. by rewrite IH.
Qed.

Lemma insert_after_app h x l1 l2 : h ∉ l1 -> insert_after h x (l1 ++ h :: l2) = l1 ++ h :: x :: l2.
Proof.
  induction l1 as [|y l1 IH]; simpl; [by rewrite Z.eqb_refl|].
  rewrite not_elem_of_cons. intros [Hy Hl]. destruct (Z.eqb_spec y h) as [->|]; [done|]. by rewrite IH.
Qed.

Lemma next_of_app h l1 l2 : h ∉ l1 -> next_of h (l1 ++ h :: l2) = head l2.
Proof.
  induction l1 as [|y l1 IH]; simpl; [by rewrite Z.eqb_refl|].
  rewrite not_elem_of_cons. intros [Hy Hl]. destruct (Z.eqb_spec y h) as [->|]; [done|]. auto.
Qed.

Lemma prev_from_app h l1 : forall p l2, h ∉ l1 ->
  prev_from p h (l1 ++ h :: l2) = match last l1 with Some y => Some y | None => p end.
Proof.
  induction l1 as [|y l1 IH]; intros p l2; simpl; [by rewrite Z.eqb_refl|].
  rewrite not_elem_of_cons. intros [Hy Hl]. destruct (Z.eqb_spec y h) as [->|]; [done|].
  rewrite IH by done. by rewrite last_cons; destruct (last l1).
Qed.

Lemma prev_of_app h l1 l2 : h ∉ l1 -> prev_of h (l1 ++ h :: l2) = last l1.
Proof. intros H. unfold prev_of. rewrite prev_from_app by done. by destruct (last l1). Qed.

Lemma nodup_middle {A} (l1 : list A) x l2 : NoDup (l1 ++ x :: l2) -> (x ∉ l1) /\ (x ∉ l2).
Proof.
  intros (_&Hd&Hn)%NoDup_app. split; [intros Hin; apply (Hd x Hin), list_elem_of_here|by inversion Hn].
Qed.

(** * Changing what tiles an arena *)

(** After an allocation anything may follow. *)
Lemma tiles_after_alloc bs aid pos l stop ph' :
  tiles bs aid pos true l stop ph' -> exists ph'', tiles bs aid pos false l stop ph''.
Proof.
  destruct l as [|x l]; simpl; [intros [-> _]; by eexists|].
  intros (b&?&?&?&?&Hp&?). exists ph', b. by conj_done.
Qed.

(** A hole may follow what a hole may follow. *)
Definition head_alloc (bs : gmap Z radv_shader_arena_block) (l : list Z) : Prop :=
  forall x b, head l = Some x -> bs !! x = Some b -> b_prev b = false.

Lemma tiles_after_hole bs aid pos ph l stop ph' :
  head_alloc bs l -> tiles bs aid pos ph l stop ph' -> exists ph'', tiles bs aid pos true l stop ph''.
Proof.
  destruct l as [|x l]; simpl; [intros _ [-> _]; by eexists|].
  intros Hh (b&Hb&?&?&?&Hp&?). exists ph', b. conj_done. split; [|done].
  simpl. by apply (Hh x).
Qed.

Lemma tiles_head_alloc bs aid pos l stop ph' : tiles bs aid pos true l stop ph' -> head_alloc bs l.
Proof.
  destruct l as [|x l]; intros Ht y b Hy Hb; [done|]. injection Hy as ->.
  destruct Ht as (b'&Hb'&_&_&_&Hp&_). rewrite Hb in Hb'. by injection Hb' as <-.
Qed.

(** An arena around a segment of its entries. *)
Lemma arena_split bs aid a l1 mid l2 :
  arena_ok bs aid (with_entries a (l1 ++ mid ++ l2))
  <-> a_size a < W32 /\ exists m phm s phs ph, tiles bs aid 0 false l1 m phm
      /\ tiles bs aid m phm mid s phs /\ tiles bs aid s phs l2 (a_size a) ph.
Proof.
  unfold arena_ok. simpl. split.
  - intros (Hs&ph&(m&phm&H1&(s&phs&H2&H3)%tiles_app)%tiles_app). split; [done|]. by exists m, phm, s, phs, ph.
  - intros (Hs&m&phm&s&phs&ph&H1&H2&H3). split; [done|]. exists ph. apply tiles_app. exists m, phm.
    split; [done|]. apply tiles_app. by exists s, phs.
Qed.

(** * Taking a hole *)

(** [h] is a hole, with record [b], between [l1] and [l2] in arena [a]. *)
Record hole_at (d : arena_device) (h : Z) (b : radv_shader_arena_block) (a : radv_shader_arena)
    (l1 l2 : list Z) : Prop := HoleAt {
  ha_block : d_blocks d !! h = Some b;
  ha_arena : d_arenas d !! b_arena b = Some a;
  ha_entries : a_entries a = l1 ++ h :: l2;
  ha_prev : b_prev b = true
}.

(** What the tiling says around the hole. *)
Record hole_around (d : arena_device) (b : radv_shader_arena_block) (a : radv_shader_arena)
    (l1 l2 : list Z) : Prop := HoleAround {
  hr_size : a_size a < W32;
  hr_pos : 0 < b_size b /\ b_size b mod 256 = 0;
  hr_low : 0 <= b_offset b;
  hr_mod : b_offset b mod 256 = 0;
  hr_stop : b_offset b + b_size b <= a_size a;
  hr_left : tiles (d_blocks d) (b_arena b) 0 false l1 (b_offset b) false;
  hr_right : exists ph, tiles (d_blocks d) (b_arena b) (b_offset b + b_size b) true l2 (a_size a) ph
}.

Lemma hole_around_ok d h b a l1 l2 :
  core_inv d -> hole_at d h b a l1 l2 -> hole_around d b a l1 l2 /\ (h ∉ l1) /\ (h ∉ l2).
Proof.
  intros Hinv [Hb Ha He Hp]. pose proof (entries_nodup d Hinv _ _ Ha) as Hnd. rewrite He in Hnd.
  split; [|by apply nodup_middle].
  assert (h ∈ a_entries a) as Hin by (rewrite He, elem_of_app; right; apply list_elem_of_here).
  destruct (linked_block d Hinv _ _ _ Ha Hin) as (b'&Hb'&_&?&?&?&?&?). rewrite Hb in Hb'. injection Hb' as <-.
  destruct (ci_arenas _ Hinv _ _ Ha) as (Hs&ph&Ht). rewrite He in Ht.
  apply tiles_app in Ht as (m&phm&HL&(b'&Hb'&_&Ho&_&Hph&HR)). rewrite Hb in Hb'. injection Hb' as <-.
  rewrite Hp in Hph, HR. rewrite andb_true_r in Hph. subst m phm. split; try done. by exists ph.
Qed.

(** The whole free list of the arena, before. *)
Lemma hole_in_list d w h b a l1 l2 : hole_at d h b a l1 l2 -> arena_free_list (a_type a) = Some w ->
  holes_in d w h (get_size_class (b_size b) false).
Proof.
  intros [Hb Ha He Hp] Hw. exists b, a. conj_done. split; [|by conj_done].
  rewrite He, elem_of_app. right. apply list_elem_of_here.
Qed.

Lemma holes_class d w h c b : holes_in d w h c -> d_blocks d !! h = Some b -> c = get_size_class (b_size b) false.
Proof. intros (b'&a&Hb&_&_&_&_&->) Hb'. by rewrite Hb in Hb'; injection Hb' as <-. Qed.

(** The hole leaves the free list. *)
Lemma remove_list_ok d w h b :
  core_inv d -> d_blocks d !! h = Some b ->
  list_ok (fl_remove h (get_size_class (b_size b) false) (get_list w d))
    (fun id c => id <> h /\ holes_in d w id c).
Proof.
  intros Hinv Hb. apply fl_remove_ok; [apply get_size_class_range|apply (ci_lists _ Hinv)|].
  intros c Hh _. left. by eapply holes_class.
Qed.

(** What an allocation does: a live block more, the others as they were. *)
Record allocates (d d' : arena_device) (id : Z) (b : radv_shader_arena_block) : Prop := Allocates {
  al_core : core_inv d';
  al_new : live d !! id = None;
  al_live : live d' = <[id := b]> (live d)
}.

Lemma hole_not_live d h b : d_blocks d !! h = Some b -> b_prev b = true -> live d !! h = None.
Proof.
  intros Hb Hp. apply eq_None_not_Some. intros [b' (Hb'&Hp'&_)%lookup_live]. naive_solver congruence.
Qed.

Lemma unlinked_not_live d id : ~ linked d id -> live d !! id = None.
Proof. intros Hl. apply eq_None_not_Some. intros [b H%live_linked]. done. Qed.

(** The arenas known to the device, and their use, after a local change. *)
Definition keeps_arenas (d d' : arena_device) : Prop :=
  (d_shader_arenas d' = d_shader_arenas d /\ d_arena_shift d' = d_arena_shift d)
  /\ (forall aid, is_Some (d_arenas d' !! aid) <-> is_Some (d_arenas d !! aid))
  /\ (forall aid a', d_arenas d' !! aid = Some a' ->
      (forall a, d_arenas d !! aid = Some a -> arena_used d a) -> arena_used d' a').

Lemma keeps_arenas_inv d d' : arena_inv d -> core_inv d' -> keeps_arenas d d' -> arena_inv d'.
Proof.
  intros [_ Hn Hk Hu ?] Hc ([H1 Hsh]&H2&H3). split; [done|by rewrite H1| | |by rewrite Hsh].
  - intros aid. rewrite H1, H2. apply Hk.
  - intros aid a' Ha'. apply (H3 aid a' Ha'). intros a Ha. by eapply Hu.
Qed.

(** * A local change, as the operations make it *)

(** From [d] to [d'] the segment [old] of the arena's entries becomes [new], the free list of the
    arena becomes [f] of it, and the objects that leave the entries go to the pool. *)
Record splice (d d' : arena_device) (aid : Z) (a : radv_shader_arena) (l1 old new l2 : list Z)
    (f : radv_shader_free_list -> radv_shader_free_list) : Prop := Splice {
  sp_arena : d_arenas d !! aid = Some a;
  sp_entries : a_entries a = l1 ++ old ++ l2;
  sp_arenas : d_arenas d' = <[aid := with_entries a (l1 ++ new ++ l2)]> (d_arenas d);
  sp_blocks : forall id, id ∉ old -> id ∉ new -> d_blocks d' !! id = d_blocks d !! id;
  sp_new : forall id, id ∈ new -> id ∈ old \/ (~ linked d id /\ (id ∉ d_block_obj_pool d') /\ id < d_clock d');
  sp_ok : arena_ok (d_blocks d') aid (with_entries a (l1 ++ new ++ l2));
  sp_get : forall w, get_list w d' = if decide (arena_free_list (a_type a) = Some w) then f (get_list w d)
                                     else get_list w d;
  sp_list : forall w, arena_free_list (a_type a) = Some w ->
     list_ok (f (get_list w d))
       (fun id c => (id ∈ new /\ exists b, d_blocks d' !! id = Some b /\ b_prev b = true
                                           /\ c = get_size_class (b_size b) false)
                    \/ ((id ∉ old) /\ holes_in d w id c));
  sp_pool_nodup : NoDup (d_block_obj_pool d');
  sp_pool : forall id, id ∈ d_block_obj_pool d' ->
     id ∈ d_block_obj_pool d \/ (id ∈ old /\ (id ∉ new));
  sp_clock : d_clock d <= d_clock d';
  sp_vas : d_arena_vas d' = d_arena_vas d;
  sp_shader_arenas : d_shader_arenas d' = d_shader_arenas d;
  sp_shift : d_arena_shift d' = d_arena_shift d
}.

Lemma splice_new d d' aid a l1 old new l2 f :
  splice d d' aid a l1 old new l2 f -> forall id, id ∈ new -> id ∈ old \/ ~ linked d id.
Proof. intros [] id Hin. destruct (sp_new0 id Hin) as [|[]]; auto. Qed.

Lemma splice_sound d d' aid a l1 old new l2 f :
  core_inv d -> splice d d' aid a l1 old new l2 f ->
  core_inv d'
  /\ (forall id b, live d' !! id = Some b <->
       (id ∈ new /\ d_blocks d' !! id = Some b /\ b_prev b = false)
       \/ ((id ∉ old) /\ live d !! id = Some b))
  /\ (arena_used d' (with_entries a (l1 ++ new ++ l2)) -> keeps_arenas d d').
Proof.
  intros Hinv Hsp. pose proof (splice_new _ _ _ _ _ _ _ _ _ Hsp) as Hnew.
  destruct Hsp as [Ha He Hars Hbs Hn Hok Hget Hlist Hnd Hpool Hclock Hvas Hsa Hshift].
  assert (Hold : forall id, id ∈ old -> linked d id).
  { intros id Hid. exists aid, a. split; [done|]. rewrite He, !elem_of_app. auto. }
  split_and!.
  - apply (splice_core d d' Hinv aid a l1 old new l2); try done.
    + by apply (splice_lists d d' Hinv aid a l1 old new l2 Ha He Hars Hbs Hnew Hok f).
    + intros id Hid. split; [naive_solver|]. intros Hin. destruct (Hn id Hin) as [Ho|(?&?&?)]; [|done].
      destruct (Hpool id Hid) as [Hp|[_ ?]]; [|done]. destruct (ci_pool _ Hinv id Hp) as [Hl _].
      by apply Hl, Hold.
    + intros id Hin. destruct (Hn id Hin) as [Ho|(?&?&?)]; [|done].
      pose proof (ci_linked _ Hinv id (Hold id Ho)). lia.
  - intros id b. by apply (splice_live d d' Hinv aid a l1 old new l2).
  - intros Hu. split; [done|]. split; [intros; by eapply (splice_known d d' aid a)|].
    intros aid' a' Ha' Hall.
    by apply (splice_used d d' Hinv aid a l1 old new l2 Ha He Hars Hbs Hnew aid' a').
Qed.

(** The use the operations make of it: one block more, or one less. *)
Lemma splice_allocates d d' aid a l1 old new l2 f id b :
  core_inv d -> splice d d' aid a l1 old new l2 f ->
  live d !! id = None -> id ∈ new -> d_blocks d' !! id = Some b -> b_prev b = false ->
  (forall i, i ∈ new -> i <> id -> exists b', d_blocks d' !! i = Some b' /\ b_prev b' = true) ->
  (forall i, i ∈ old -> live d !! i = None) ->
  allocates d d' id b /\ keeps_arenas d d'.
Proof.
  intros Hinv Hsp Hl Hin Hb Hp Hothers Hold.
  destruct (splice_sound _ _ _ _ _ _ _ _ _ Hinv Hsp) as (Hcore&Hlive&Hkeep).
  split; [split; [done|done|]|apply Hkeep].
  - apply map_eq_some. intros i b2. rewrite Hlive. destruct (decide (i = id)) as [->|Hne].
    + rewrite lookup_insert_eq, Hb. naive_solver.
    + rewrite lookup_insert_ne by done. split.
      * intros [(Hi&Hb2&Hp2)|[_ ?]]; [|done]. destruct (Hothers i Hi Hne) as (b'&Hb'&?). congruence.
      * intros Hli. right. split; [|done]. intros Ho%Hold. congruence.
  - intros _. exists id, b. split; [simpl; rewrite !elem_of_app; auto|done].
Qed.
