(* ===== verification/ArenaTake.v ===== *)
(** [radv_alloc_shader_memory] on an existing hole: the search and the two ways to take the hole. *)

From stdpp Require Import gmap.
From S2P Require Import Prelude Pm4 ShaderArena ArenaLists ArenaInv ArenaAlloc.

(** * A list of one block, as the new segment of a splice *)

Ltac elem_simpl :=
  rewrite ?not_elem_of_cons, ?elem_of_cons, ?elem_of_nil in *.

(** [Hbs] of a splice whose updates are all at members of the segments. *)
Ltac splice_frame :=
  intros ? ? ?; elem_simpl; arena_simpl; rewrite ?lookup_insert_ne by naive_solver; try done.

Lemma with_entries_id a l : a_entries a = l -> with_entries a l = a.
Proof. intros <-. by destruct a. Qed.

Lemma decide_some_list {A} (w w' : free_list_name) (x y : A) :
  (if decide (Some w = Some w') then x else y) = if decide (w = w') then x else y.
Proof. destruct (decide (w = w')), (decide (Some w = Some w')); by simplify_eq. Qed.

Section Take.
Context (e : arena_env) (d : arena_device) (Hinv : core_inv d).
Context (w : free_list_name) (h : Z) (b : radv_shader_arena_block) (a : radv_shader_arena) (l1 l2 : list Z).
Context (Hh : hole_at d h b a l1 l2) (Hw : arena_free_list (a_type a) = Some w).

(** The whole hole. *)
Lemma take_exact_ok ptr : exists d',
  take_hole e w (b_size b) ptr h d = Some (Some h, d')
  /\ allocates d d' h (link_user ptr b) /\ keeps_arenas d d'.
Proof using Hinv Hh Hw.
  pose proof (hole_around_ok _ _ _ _ _ _ Hinv Hh) as (Hr&Hn1&Hn2).
  pose proof Hh as [Hb Ha He Hp]. unfold take_hole. rewrite Hb. cbn [mbind option_bind].
  rewrite Z.eqb_refl, (remove_hole_eq _ _ _ _ Hb). cbn [mbind option_bind].
  arena_simpl. eexists. split; [done|].
  set (d' := set_block h _ _).
  assert (Hb' : d_blocks d' !! h = Some (link_user ptr b)) by (subst d'; by arena_simpl).
  assert (Hbs : forall id, id ∉ [h] -> id ∉ [h] -> d_blocks d' !! id = d_blocks d !! id)
    by (subst d'; splice_frame).
  apply (splice_allocates d d' (b_arena b) a l1 [h] [h] l2
           (fl_remove h (get_size_class (b_size b) false))); try done.
  2: by eapply hole_not_live. 2: apply list_elem_of_here.
  2: by intros i ->%list_elem_of_singleton. 2: intros i ->%list_elem_of_singleton; by eapply hole_not_live.
  split; try done.
  - subst d'. arena_simpl. rewrite with_entries_id by done. by rewrite insert_id.
  - auto.
  - apply arena_split. destruct Hr as [Hs Hpos Hlo Hm Hst Hl [ph Hrt]]. split; [done|].
    destruct (tiles_after_alloc _ _ _ _ _ _ Hrt) as [ph' Hrt'].
    exists (b_offset b), false, (b_offset b + b_size b), false, ph'. split; [|split].
    + eapply tiles_frame; [|done]. intros id Hid. apply Hbs; elem_simpl; naive_solver.
    + exists (link_user ptr b). by conj_done.
    + eapply tiles_frame; [|done]. intros id Hid. apply Hbs; elem_simpl; naive_solver.
  - intros w'. subst d'. arena_simpl. rewrite Hw, decide_some_list. by destruct (decide (w = w')) as [<-|].
  - intros w' Hw'. rewrite Hw in Hw'. injection Hw' as <-.
    eapply list_ok_iff; [|by apply remove_list_ok]. intros id c _. elem_simpl. split; [naive_solver|].
    intros [[[->|[]] (b'&Hb2&Hp'&_)]|]; [|naive_solver]. rewrite Hb' in Hb2. by injection Hb2 as <-.
  - subst d'. arena_simpl. apply (ci_pool_nodup _ Hinv).
  - intros id. subst d'. arena_simpl. auto.
  - subst d'. arena_simpl. lia.
  - subst d'. by arena_simpl.
  - subst d'. by arena_simpl.
  - subst d'. by arena_simpl.
Qed.

(** The low end of a larger hole. *)
Lemma take_split_step size ptr alloc :
  0 < size < b_size b -> size mod 256 = 0 ->
  ~ linked d alloc -> alloc ∉ d_block_obj_pool d -> alloc < d_clock d ->
  exists d',
  (let! a := d_arenas d !! b_arena b ;;
   let d := set_arena (b_arena b) (with_entries a (insert_before h alloc (a_entries a))) d in
   let d := set_block alloc (Block (b_arena b) (b_offset b) size false ptr) d in
   let! d := remove_hole w h d ;;
   let! b := d_blocks d !! h ;;
   let d := set_block h (resize (u32 (b_offset b + size)) (u32 (b_size b - size)) b) d in
   let! d := add_hole w h d ;;
   Some (Some alloc, d)) = Some (Some alloc, d')
  /\ allocates d d' alloc (Block (b_arena b) (b_offset b) size false ptr) /\ keeps_arenas d d'.
Proof using Hinv Hh Hw.
  intros Hsz Hmod Hunl Hnp Hclk.
  pose proof (hole_around_ok _ _ _ _ _ _ Hinv Hh) as (Hr&Hn1&Hn2).
  pose proof Hh as [Hb Ha He Hp].
  assert (Hlh : linked d h).
  { exists (b_arena b), a. split; [done|]. rewrite He, elem_of_app. right. apply list_elem_of_here. }
  assert (Hne : alloc <> h) by (by intros ->).
  rewrite Ha. cbn [mbind option_bind]. rewrite He, insert_before_app by done.
  erewrite remove_hole_eq by (by arena_simpl). cbn [mbind option_bind]. arena_simpl.
  erewrite add_hole_eq by (by arena_simpl). cbn [mbind option_bind]. eexists. split; [done|].
  arena_simpl. set (d' := with_list w _ _).
  destruct Hr as [Hs Hpos Hlo Hm Hst Hl [ph Hrt]].
  assert (Hb' : d_blocks d' !! h = Some (Block (b_arena b) (b_offset b + size) (b_size b - size) true 0)).
  { subst d'. arena_simpl. unfold link_free. simpl. by unwrap. }
  assert (Hal : d_blocks d' !! alloc = Some (Block (b_arena b) (b_offset b) size false ptr))
    by (subst d'; by arena_simpl).
  assert (Hbs : forall id, id ∉ [h] -> id ∉ [alloc; h] -> d_blocks d' !! id = d_blocks d !! id)
    by (subst d'; splice_frame).
  assert (Hout : forall (id : Z) (l : list Z), id ∈ l -> h ∉ l -> (forall i, i ∈ l -> i ∈ a_entries a) ->
    d_blocks d' !! id = d_blocks d !! id).
  { intros id l Hid Hnl Hsub. assert (id <> h) by (by intros ->).
    assert (id <> alloc) by (intros ->; apply Hunl; exists (b_arena b), a; auto).
    apply Hbs; elem_simpl; naive_solver. }
  apply (splice_allocates d d' (b_arena b) a l1 [h] [alloc; h] l2
           (fun fl => fl_add h (get_size_class (b_size b - size) false)
                        (fl_remove h (get_size_class (b_size b) false) fl))); try done.
  2: by apply unlinked_not_live. 2: apply list_elem_of_here.
  2: { intros i Hi Hne'. elem_simpl. destruct Hi as [|[->|[]]]; [done|]. by eexists. }
  2: intros i ->%list_elem_of_singleton; by eapply hole_not_live.
  split; try done.
  - subst d'. by arena_simpl.
  - intros id Hid. elem_simpl. destruct Hid as [->|[->|[]]]; [right|by left; left].
    split; [done|]. subst d'. arena_simpl. done.
  - apply arena_split. split; [done|].
    exists (b_offset b), false, (b_offset b + b_size b), true, ph. split; [|split].
    + eapply tiles_frame; [|done]. intros id Hid. apply (Hout id l1 Hid Hn1).
      intros i Hi. rewrite He, elem_of_app. auto.
    + eexists. split; [exact Hal|]. conj_done. split; [split; [simpl; lia|done]|]. conj_done.
      eexists. split; [exact Hb'|]. conj_done. split; [|split; [done|split; [simpl; lia|done]]].
      simpl. split; [lia|]. rewrite Zminus_mod. destruct Hpos as [_ ->]. by rewrite Hmod.
    + eapply tiles_frame; [|done]. intros id Hid. apply (Hout id l2 Hid Hn2).
      intros i Hi. rewrite He, elem_of_app. right. by apply list_elem_of_further.
  - intros w'. subst d'. arena_simpl. rewrite Hw, decide_some_list. simpl.
    destruct (decide (w = w')) as [<-|]; [|done]. by unwrap.
  - intros w' Hw'. rewrite Hw in Hw'. injection Hw' as <-.
    eapply list_ok_iff; [|apply fl_add_ok; [apply get_size_class_range|by apply remove_list_ok|naive_solver]].
    intros id c _. elem_simpl. split.
    + intros [[-> ->]|[? ?]]; [left|right; naive_solver]. split; [auto|]. by eexists.
    + intros [[[->|[->|[]]] (b'&Hb2&Hp'&->)]|]; [|left|right; naive_solver].
      * rewrite Hal in Hb2. by injection Hb2 as <-.
      * rewrite Hb' in Hb2. by injection Hb2 as <-.
  - subst d'. arena_simpl. apply (ci_pool_nodup _ Hinv).
  - intros id. subst d'. arena_simpl. auto.
  - subst d'. arena_simpl. lia.
  - subst d'. by arena_simpl.
  - subst d'. by arena_simpl.
  - subst d'. by arena_simpl.
Qed.

End Take.

(** * Transport along a store that stays the same *)

Lemma same_store_hole_at d d1 h b a l1 l2 :
  same_store d d1 -> hole_at d h b a l1 l2 -> hole_at d1 h b a l1 l2.
Proof.
  intros Hs [Hb Ha He ?]. split; [|by destruct Hs as (_&->&_)|done|done].
  apply (same_store_block d d1 h b a Hs Ha); [|done]. rewrite He, elem_of_app. right. apply list_elem_of_here.
Qed.

Lemma same_store_allocates d d1 d' id b : same_store d d1 -> allocates d1 d' id b -> allocates d d' id b.
Proof. intros Hs [? ? ?]. split; [done|..]; by rewrite <- (same_store_live _ _ Hs). Qed.

Lemma same_store_keeps d d1 d' : same_store d d1 -> keeps_arenas d1 d' -> keeps_arenas d d'.
Proof.
  intros Hs ([K1 K1']&K2&K3). pose proof Hs as (_&H2&H3&_&_&H6&_).
  split; [by rewrite K1, K1'|]. split; [intros; by rewrite K2, H2|].
  intros aid a' Ha' Hu. apply (K3 aid a' Ha'). intros a2. rewrite H2. intros Ha2.
  eapply same_store_used; eauto.
Qed.

(** What [take_hole] returns; a failure changes no block. *)
Definition alloc_outcome (e : arena_env) (d : arena_device) (b : radv_shader_arena_block)
    (r : option Z) (d' : arena_device) : Prop :=
  match r with
  | Some id => allocates d d' id b /\ keeps_arenas d d'
  | None => core_inv d' /\ same_store d d' /\ malloc_ok e (d_clock d) = false
  end.

Lemma take_hole_ok e d w h b a l1 l2 size ptr :
  core_inv d -> hole_at d h b a l1 l2 -> arena_free_list (a_type a) = Some w ->
  0 < size <= b_size b -> size mod 256 = 0 ->
  exists r d', take_hole e w size ptr h d = Some (r, d')
    /\ alloc_outcome e d (Block (b_arena b) (b_offset b) size false ptr) r d'.
Proof.
  intros Hinv Hh Hw Hsz Hmod. destruct (Z.eq_dec size (b_size b)) as [->|Hne].
  { destruct (take_exact_ok e d Hinv w h b a l1 l2 Hh Hw ptr) as (d'&?&?&?). by exists (Some h), d'. }
  unfold take_hole. rewrite (ha_block _ _ _ _ _ _ Hh). cbn [mbind option_bind].
  destruct (Z.eqb_spec size (b_size b)); [done|].
  destruct (alloc_block_obj e d) as [r d1] eqn:E.
  destruct (alloc_block_obj_ok _ _ _ _ Hinv E) as (Hinv1&Hs&Hid&_&_&Hnone).
  destruct r as [id|]; [|exists None, d1; split; [done|by split_and!; auto]].
  destruct (Hid id eq_refl) as (Hl&Hp&Hc&_).
  destruct (take_split_step d1 Hinv1 w h b a l1 l2 (same_store_hole_at _ _ _ _ _ _ _ Hs Hh) Hw size ptr id)
    as (d'&Heq&Hal&Hk); [lia|done..|].
  exists (Some id), d'. split; [exact Heq|]. split; [by eapply same_store_allocates|by eapply same_store_keeps].
Qed.

(** * The search *)

Lemma ffs_from_spec fuel : forall i x,
  (ffs_from fuel i x = 0 /\ (0 <= i -> forall j, i <= j < i + Z.of_nat fuel -> Z.testbit x j = false))
  \/ exists k, i <= k < i + Z.of_nat fuel /\ ffs_from fuel i x = k + 1 /\ Z.testbit x k = true
       /\ forall j, i <= j < k -> Z.testbit x j = false.
Proof.
  induction fuel as [|fuel IH]; intros i x; cbn [ffs_from]; [left; split; [done|lia]|].
  destruct (Z.testbit x i) eqn:E; [right; exists i; split_and!; [lia|lia|done|done|lia]|].
  destruct (IH (i + 1) x) as [[-> Hz]|(k&Hk&->&Ht&Hz)].
  - left. split; [done|]. intros Hi j Hj. destruct (Z.eq_dec j i) as [->|]; [done|]. apply Hz; lia.
  - right. exists k. split_and!; [lia|lia|done|done|]. intros j Hj.
    destruct (Z.eq_dec j i) as [->|]; [done|]. apply Hz; lia.
Qed.

(** The bits the search looks at: the classes from [c] on. *)
Lemma class_mask_bit c i : 0 <= c < 8 -> 0 <= i < 8 ->
  Z.testbit (u32 (Z.shiftl (BITFIELD_MASK RADV_SHADER_ALLOC_NUM_FREE_LISTS) c)) i = (c <=? i).
Proof.
  intros Hc Hi.
  assert (c = 0 \/ c = 1 \/ c = 2 \/ c = 3 \/ c = 4 \/ c = 5 \/ c = 6 \/ c = 7) as Hcs by lia.
  assert (i = 0 \/ i = 1 \/ i = 2 \/ i = 3 \/ i = 4 \/ i = 5 \/ i = 6 \/ i = 7) as His by lia.
  destruct Hcs as [->|[->|[->|[->|[->|[->|[->| ->]]]]]]];
    destruct His as [->|[->|[->|[->|[->|[->|[->| ->]]]]]]]; reflexivity.
Qed.

Definition block_size (d : arena_device) (id : Z) : Z :=
  match d_blocks d !! id with Some b => b_size b | None => 0 end.

Lemma first_fit_spec d size l :
  (forall id, id ∈ l -> exists b, d_blocks d !! id = Some b /\ b_offset b mod 256 = 0) ->
  (first_fit d size l = Some None /\ forall id, id ∈ l -> block_size d id < size)
  \/ exists id, first_fit d size l = Some (Some id) /\ id ∈ l /\ size <= block_size d id.
Proof.
  induction l as [|x l IH]; intros Hl; cbn [first_fit].
  - left. split; [done|]. by intros id ?%elem_of_nil.
  - destruct (Hl x (list_elem_of_here _ _)) as (b&Hb&Ho). rewrite Hb. cbn [mbind option_bind].
    assert (Hbs : block_size d x = b_size b) by (unfold block_size; by rewrite Hb).
    destruct (Z.ltb_spec (b_size b) size) as [Hlt|Hge].
    + destruct IH as [[-> Hs]|(id&->&Hid&?)]; [intros; apply Hl; by apply list_elem_of_further|left|right].
      * split; [done|]. intros id [->|Hin]%elem_of_cons; [lia|auto].
      * exists id. split_and!; [done|by apply list_elem_of_further|done].
    + right. exists x. unfold RADV_SHADER_ALLOC_ALIGNMENT. rewrite Ho. split_and!; [done|apply list_elem_of_here|lia].
Qed.

(** A hole of the arenas a list serves. *)
Definition is_hole (d : arena_device) (w : free_list_name) (id : Z) : Prop := exists c, holes_in d w id c.

Lemma is_hole_at d w id : is_hole d w id ->
  exists b a l1 l2, hole_at d id b a l1 l2 /\ arena_free_list (a_type a) = Some w /\ block_size d id = b_size b.
Proof.
  intros (c&b&a&Hb&Ha&Hin&Hw&Hp&_). apply list_elem_of_split in Hin as (l1&l2&He).
  exists b, a, l1, l2. split; [by split|]. split; [done|]. unfold block_size. by rewrite Hb.
Qed.

(** The search fails only when no hole of the classes it may look at is large enough, and finds a
    hole that is. *)
Lemma find_hole_ok d w size :
  core_inv d -> 0 < size ->
  (find_hole w size d = Some None
   /\ forall id c, holes_in d w id c -> get_size_class size true <= c -> block_size d id < size)
  \/ exists id, find_hole w size d = Some (Some id) /\ is_hole d w id /\ size <= block_size d id.
Proof.
  intros Hinv Hsz. unfold find_hole.
  destruct (ci_lists _ Hinv w) as [Hlen Hnd Hel Hm Hbit].
  pose proof (get_size_class_range size true) as Hc.
  set (x := Z.land _ _). unfold ffs.
  assert (Hx : forall i, 0 <= i < 8 -> Z.testbit x i
    = (get_size_class size true <=? i) && negb (is_nil (nth_list (free_lists (get_list w d)) i))).
  { intros i Hi. subst x. rewrite Z.land_spec, class_mask_bit, Hbit by done. apply andb_comm. }
  assert (Hrange : forall id c, holes_in d w id c -> 0 <= c < 8)
    by (intros id c (b&a&_&_&_&_&_&->); apply get_size_class_range).
  destruct (ffs_from_spec 32 0 x) as [[-> Hz]|(k&Hk&->&Ht&Hz)]; [left; split; [done|]|].
  - intros id c Hh Hle. pose proof (Hrange _ _ Hh) as Hcr. specialize (Hz ltac:(lia) c ltac:(lia)).
    rewrite Hx, (proj2 (Z.leb_le _ _) Hle), andb_true_l, negb_false_iff, is_nil_true in Hz by done.
    apply Hel in Hh; [|done]. rewrite Hz in Hh. by apply elem_of_nil in Hh.
  - assert (Hk8 : k < 8).
    { apply Z.nle_gt. intros Hk8. subst x. rewrite Z.land_spec, (byte_bits (size_mask _)) in Ht by lia. done. }
    destruct (Z.eqb_spec (k + 1) 0); [lia|]. replace (k + 1 - 1) with k by lia.
    rewrite Hx, andb_true_iff, Z.leb_le in Ht by lia. destruct Ht as [Hck Hne].
    destruct (first_fit_spec d size (nth_list (free_lists (get_list w d)) k)) as [[-> Hs]|(id&->&Hin&?)].
    { intros id Hid. apply Hel in Hid; [|lia]. destruct Hid as (b&a&Hb&Ha&Hin&_). exists b. split; [done|].
      destruct (linked_block d Hinv _ _ _ Ha Hin) as (b'&Hb'&_&_&?&_). congruence. }
    + left. split; [done|]. intros id c Hh Hle. pose proof (Hrange _ _ Hh) as Hcr.
      destruct (Z.lt_trichotomy c k) as [Hlt|[->|Hgt]].
      * specialize (Hz c ltac:(lia)). rewrite Hx, (proj2 (Z.leb_le _ _) Hle) in Hz by done.
        rewrite andb_true_l, negb_false_iff, is_nil_true in Hz.
        apply Hel in Hh; [|done]. rewrite Hz in Hh. by apply elem_of_nil in Hh.
      * apply Hs. by apply Hel.
      * (* the class searched is not the last one: its first hole is large enough *)
        exfalso. destruct (nth_list (free_lists (get_list w d)) k) as [|y l] eqn:El; [done|].
        assert (Hy : y ∈ nth_list (free_lists (get_list w d)) k) by (rewrite El; apply list_elem_of_here).
        apply Hel in Hy; [|lia]. destruct Hy as (b&a&Hb&Ha&Hin&_&_&Hcl).
        destruct (linked_block d Hinv _ _ _ Ha Hin) as (b'&Hb'&_&_&_&[Hpos Hmod]&_). simplify_map_eq.
        specialize (Hs y (list_elem_of_here _ _)). unfold block_size in Hs. rewrite Hb in Hs.
        pose proof (Z.div_mod (b_size b) 256 ltac:(lia)).
        assert (256 <= b_size b) as H256 by nia.
        pose proof (proj1 (size_class_lower (b_size b) (get_size_class size true) H256 Hc) ltac:(lia)).
        pose proof (size_class_upper size Hsz ltac:(lia)). lia.
    + right. exists id. split_and!; [done| |done]. exists k. apply Hel; [lia|done].
Qed.
