(* ===== verification/ArenaInsert.v ===== *)
(** [insert_block]: a block at any place of a hole, with holes for what is left of it. *)

From stdpp Require Import gmap.
From S2P Require Import Prelude Pm4 ShaderArena ArenaLists ArenaInv ArenaAlloc ArenaTake.

Definition olist (o : option Z) : list Z := match o with Some x => [x] | None => [] end.

Lemma elem_olist x o : x ∈ olist o <-> o = Some x.
Proof. destruct o; simpl; rewrite ?list_elem_of_singleton, ?elem_of_nil; naive_solver. Qed.

(** The free list [w], if any, after the hole [x] of [size] bytes is added. *)
Definition fl_add_opt (x : option Z) (size : Z) (fl : radv_shader_free_list) : radv_shader_free_list :=
  match x with Some x => fl_add x (get_size_class size false) fl | None => fl end.

(** * The objects of the remainders *)

(** [x] is a new object, not linked by any arena, and with record [b]; nothing else changed but the
    free list. *)
Record new_object (d d1 : arena_device) (w : option free_list_name) (x : option Z)
    (b : radv_shader_arena_block) : Prop := NewObject {
  no_fresh : forall i, i ∈ olist x -> ~ linked d i /\ (i ∉ d_block_obj_pool d1) /\ i < d_clock d1
                       /\ (i ∈ d_block_obj_pool d \/ d_clock d <= i);
  no_block : forall i, i ∈ olist x -> d_blocks d1 !! i = Some b;
  no_blocks : forall i, i ∉ olist x -> d_blocks d1 !! i = d_blocks d !! i;
  no_pool : forall i, i ∈ d_block_obj_pool d1 -> i ∈ d_block_obj_pool d;
  no_pool_nodup : NoDup (d_block_obj_pool d1);
  no_arenas : d_arenas d1 = d_arenas d;
  no_shader_arenas : d_shader_arenas d1 = d_shader_arenas d;
  no_vas : d_arena_vas d1 = d_arena_vas d;
  no_shift : d_arena_shift d1 = d_arena_shift d;
  no_clock : d_clock d <= d_clock d1;
  no_get : forall w', get_list w' d1
     = if decide (w = Some w') then fl_add_opt x (b_size b) (get_list w' d) else get_list w' d
}.

Lemma no_object d w b : core_inv d -> new_object d d w None b.
Proof.
  intros Hinv. split; try done; try by intros i ?%elem_of_nil. apply (ci_pool_nodup _ Hinv).
  intros w'. by destruct (decide _).
Qed.

Lemma new_hole_ok e w arena offset size d :
  core_inv d ->
  exists r d1, new_hole e w arena offset size d = Some (r, d1)
    /\ match r with
       | None => core_inv d1 /\ same_store d d1 /\ malloc_ok e (d_clock d) = false
       | Some x => new_object d d1 w (Some x) (Block arena offset size true 0)
       end.
Proof.
  intros Hinv. unfold new_hole. destruct (alloc_block_obj e d) as [r d1] eqn:E.
  destruct (alloc_block_obj_ok _ _ _ _ Hinv E) as (Hinv1&Hs&Hid&Hpool&Hbl&Hnone).
  destruct r as [x|]; [|exists None, d1; split; [done|by split_and!; auto]].
  destruct (Hid x eq_refl) as (Hl&Hnp&Hc&Hor). rewrite (same_store_linked _ _ _ Hs) in Hl.
  destruct Hs as (_&Ha&Hsa&Hg&Hv&Hsh&Hcl).
  assert (exists d2, opt_list w add_hole x (set_block x (Block arena offset size true 0) d1) = Some d2
    /\ d_blocks d2 = <[x := Block arena offset size true 0]> (d_blocks d1)
    /\ d_arenas d2 = d_arenas d1 /\ d_shader_arenas d2 = d_shader_arenas d1
    /\ d_arena_vas d2 = d_arena_vas d1 /\ d_arena_shift d2 = d_arena_shift d1
    /\ d_clock d2 = d_clock d1 /\ d_block_obj_pool d2 = d_block_obj_pool d1
    /\ forall w', get_list w' d2
         = if decide (w = Some w') then fl_add x (get_size_class size false) (get_list w' d1)
           else get_list w' d1) as (d2&->&B&A&SA&V&S&C&P&G).
  { destruct w as [w|]; cbn [opt_list].
    - erewrite add_hole_eq by (by arena_simpl). eexists. split; [done|]. arena_simpl.
      split; [unfold link_free; simpl; by rewrite insert_insert_eq|]. conj_done.
      intros w'. arena_simpl. rewrite decide_some_list. by destruct (decide (w = w')) as [<-|].
    - eexists. split; [done|]. arena_simpl. conj_done. intros w'. by arena_simpl. }
  cbn [mbind option_bind]. exists (Some x), d2. split; [done|].
  split; rewrite ?A, ?SA, ?V, ?S, ?C, ?P; try done.
  - by intros i ->%list_elem_of_singleton.
  - intros i ->%list_elem_of_singleton. by rewrite B, lookup_insert_eq.
  - intros i Hi. simpl in Hi. rewrite list_elem_of_singleton in Hi. by rewrite B, lookup_insert_ne, Hbl.
  - apply (ci_pool_nodup _ Hinv1).
  - intros w'. rewrite G, Hg. done.
Qed.

(** Without a free list, a new object changes nothing that is linked. *)
Lemma new_object_same d d1 x b : core_inv d -> new_object d d1 None x b -> core_inv d1 /\ same_store d d1.
Proof.
  intros Hinv [Hf Hb Hbs Hp Hnd Ha Hsa Hv Hsh Hc Hg].
  assert (Hs : same_store d d1).
  { split; [intros id Hl; apply Hbs; intros Hin; by destruct (Hf id Hin)|]. by split_and!. }
  split; [by apply (same_store_core d)|done].
Qed.

(** * Linking them *)

(** The segment that replaces the hole. *)
Definition segment (left_hole : option Z) (h : Z) (right_hole : option Z) : list Z :=
  olist left_hole ++ [h] ++ olist right_hole.

Definition osize (o : option Z) (n : Z) : Z := match o with Some _ => n | None => 0 end.

Lemma link_holes_eq d2 h b a l1 l2 lo ro left right size :
  hole_at d2 h b a l1 l2 -> h ∉ l1 ->
  (forall x, x ∈ olist lo -> x <> h /\ exists o, d_blocks d2 !! x = Some (Block (b_arena b) o left true 0)) ->
  (forall x, x ∈ olist ro -> x <> h /\ exists o, d_blocks d2 !! x = Some (Block (b_arena b) o right true 0)) ->
  (forall x, x ∈ olist lo -> x ∈ olist ro -> False) ->
  (lo = None -> left = 0) -> (ro = None -> right = 0) ->
  0 <= left -> 0 <= right -> 0 < size -> b_size b = left + size + right -> 0 <= b_offset b ->
  b_offset b + b_size b < W32 ->
  exists d3,
    (let! d := link_left h lo d2 ;; link_right h ro d) = Some d3
    /\ d_blocks d3 = <[h := resize (b_offset b + left) size b]> (d_blocks d2)
    /\ d_arenas d3 = <[b_arena b := with_entries a (l1 ++ segment lo h ro ++ l2)]> (d_arenas d2)
    /\ d_shader_arenas d3 = d_shader_arenas d2 /\ d_arena_vas d3 = d_arena_vas d2
    /\ d_arena_shift d3 = d_arena_shift d2 /\ d_clock d3 = d_clock d2
    /\ d_block_obj_pool d3 = d_block_obj_pool d2 /\ forall w', get_list w' d3 = get_list w' d2.
Proof.
  intros [Hb Ha He Hp] Hn1 Hlo Hro Hdis Hl0 Hr0 Hle Hre Hsz Hsum Hoff Hend.
  destruct b as [ba bo bz bp bn]. simpl in *.
  assert (exists d3, link_left h lo d2 = Some d3
    /\ d_blocks d3 = <[h := Block ba (bo + left) (size + right) bp bn]> (d_blocks d2)
    /\ d_arenas d3 = <[ba := with_entries a (l1 ++ olist lo ++ h :: l2)]> (d_arenas d2)
    /\ d_shader_arenas d3 = d_shader_arenas d2 /\ d_arena_vas d3 = d_arena_vas d2
    /\ d_arena_shift d3 = d_arena_shift d2 /\ d_clock d3 = d_clock d2
    /\ d_block_obj_pool d3 = d_block_obj_pool d2 /\ forall w', get_list w' d3 = get_list w' d2)
    as (d3&->&B&A&SA&V&S&C&P&G).
  { destruct lo as [x|]; cbn [link_left].
    - destruct (Hlo x (list_elem_of_here _ _)) as (Hne&o&Hx). rewrite Hb, Hx. cbn [mbind option_bind b_arena].
      rewrite Ha. cbn [mbind option_bind]. eexists. split; [done|]. arena_simpl. unfold resize. simpl.
      unwrap. split; [repeat f_equal; lia|]. rewrite He, insert_before_app by done. conj_done.
      intros w'. by arena_simpl.
    - eexists. split; [done|]. rewrite (Hl0 eq_refl) in *.
      split; [symmetry; apply insert_id; rewrite Hb; repeat f_equal; lia|].
      split; [simpl; rewrite with_entries_id by done; by rewrite insert_id|]. by conj_done. }
  cbn [mbind option_bind]. destruct ro as [x|]; cbn [link_right].
  - destruct (Hro x (list_elem_of_here _ _)) as (Hne&o&Hx). rewrite B, lookup_insert_eq. cbn [mbind option_bind].
    rewrite lookup_insert_ne, Hx by done. cbn [mbind option_bind b_arena]. rewrite A, lookup_insert_eq.
    cbn [mbind option_bind]. eexists. split; [done|]. arena_simpl. unfold resize. simpl. unwrap.
    rewrite B, A, insert_insert_eq. split; [repeat f_equal; lia|].
    rewrite insert_insert_eq. simpl. rewrite (app_assoc l1), insert_after_app; [|destruct lo as [y|]; simpl].
    + split; [unfold with_entries, segment; simpl; by rewrite <- !app_assoc|]. conj_done.
      intros w'. arena_simpl. apply G.
    + rewrite elem_of_app, list_elem_of_singleton. intros [?|<-]; [done|].
      by destruct (Hlo h (list_elem_of_here _ _)).
    + by rewrite app_nil_r.
  - eexists. split; [done|]. rewrite (Hr0 eq_refl) in *. rewrite B, A. unfold resize, segment. simpl.
    split; [repeat f_equal; lia|]. split; [by rewrite <- app_assoc|]. by conj_done.
Qed.

(** * The whole operation *)

Section Insert.
Context (d : arena_device) (Hinv : core_inv d).
Context (h : Z) (b : radv_shader_arena_block) (a : radv_shader_arena) (l1 l2 : list Z).
Context (Hh : hole_at d h b a l1 l2).
Context (off size : Z) (Hoff : 0 <= off) (Hsz : 0 < size) (Hfit : off + size <= b_size b).
Context (Hoffm : off mod 256 = 0) (Hszm : size mod 256 = 0).
Context (w : option free_list_name) (Hw : w = arena_free_list (a_type a)).

(** With a free list the block goes to the start of the hole, and the class of the hole keeps a hole
    or is the class of the block. *)
Definition class_kept : Prop :=
  w = None \/ off = 0 /\ (size = b_size b \/ get_size_class size false = get_size_class (b_size b) false
                          \/ get_size_class (b_size b - size) false = get_size_class (b_size b) false).

Context (Hclass : class_kept).

Definition left_block : radv_shader_arena_block := Block (b_arena b) (b_offset b) off true 0.
Definition right_block : radv_shader_arena_block :=
  Block (b_arena b) (b_offset b + off + size) (b_size b - off - size) true 0.

(** The objects are there. *)
Context (d1 d2 : arena_device) (lo ro : option Z).
Context (Hlo : new_object d d1 w lo left_block) (Hro : new_object d1 d2 w ro right_block).
Context (Hlo0 : lo = None <-> off = 0) (Hro0 : ro = None <-> b_size b = off + size).

Lemma insert_left_none w' : w = Some w' -> lo = None.
Proof using Hclass Hlo0. intros Hs. destruct Hclass as [|[? _]]; [congruence|]. by apply Hlo0. Qed.

Lemma insert_fresh x : x ∈ olist lo \/ x ∈ olist ro ->
  ~ linked d x /\ (x ∉ d_block_obj_pool d2) /\ x < d_clock d2.
Proof using Hlo Hro.
  intros [Hx|Hx].
  - destruct (no_fresh _ _ _ _ _ Hlo x Hx) as (?&Hp&?&_). pose proof (no_clock _ _ _ _ _ Hro).
    split_and!; [done| |lia]. intros Hin%(no_pool _ _ _ _ _ Hro). done.
  - destruct (no_fresh _ _ _ _ _ Hro x Hx) as (Hl&?&?&_). split_and!; try done.
    unfold linked in *. by rewrite (no_arenas _ _ _ _ _ Hlo) in Hl.
Qed.

Lemma insert_disjoint x : x ∈ olist lo -> x ∈ olist ro -> False.
Proof using Hlo Hro.
  intros Hl Hr. destruct (no_fresh _ _ _ _ _ Hlo x Hl) as (_&Hp&?&_).
  destruct (no_fresh _ _ _ _ _ Hro x Hr) as (_&_&_&[?|?]); [done|lia].
Qed.

Lemma insert_hole_linked : linked d h.
Proof using Hh.
  destruct Hh as [_ Ha He _]. exists (b_arena b), a. split; [done|]. rewrite He, elem_of_app.
  right. apply list_elem_of_here.
Qed.

Lemma insert_blocks2 x : linked d x -> d_blocks d2 !! x = d_blocks d !! x.
Proof using Hlo Hro.
  intros Hx. rewrite (no_blocks _ _ _ _ _ Hro), (no_blocks _ _ _ _ _ Hlo); [done|..];
    intros Hin; by destruct (insert_fresh x) as [? _]; auto.
Qed.

(** What happens to the free list. *)
Definition insert_list (fl : radv_shader_free_list) : radv_shader_free_list :=
  fl_remove h (get_size_class size false) (fl_add_opt ro (b_size right_block) fl).

Lemma insert_list_ok w' : w = Some w' ->
  list_ok (insert_list (get_list w' d))
    (fun id c => id <> h /\ ((ro = Some id /\ c = get_size_class (b_size right_block) false)
                             \/ holes_in d w' id c)).
Proof using Hinv Hh Hoff Hclass Hlo Hro Hlo0 Hro0.
  intros Hs. unfold insert_list.
  pose proof (fun x Hx => proj1 (insert_fresh x Hx)) as Hfr.
  assert (Hadd : list_ok (fl_add_opt ro (b_size right_block) (get_list w' d))
    (fun id c => (ro = Some id /\ c = get_size_class (b_size right_block) false) \/ holes_in d w' id c)).
  { destruct ro as [x|] eqn:Er; cbn [fl_add_opt].
    - eapply list_ok_iff; [|apply fl_add_ok; [apply get_size_class_range|apply (ci_lists _ Hinv)|]].
      + intros id c _. simpl. naive_solver.
      + intros c _ Hx%holes_linked. apply (Hfr x); [right; apply list_elem_of_here|done].
    - eapply list_ok_iff; [|apply (ci_lists _ Hinv)]. naive_solver. }
  apply fl_remove_ok; [apply get_size_class_range|done|].
  intros c [[Hx _]|Hx] _.
  - exfalso. apply (Hfr h); [right; by apply elem_olist|apply insert_hole_linked].
  - rewrite (holes_class _ _ _ _ _ Hx (ha_block _ _ _ _ _ _ Hh)).
    destruct Hclass as [|[Ho [Heq|[Heq|Heq]]]]; [congruence|left; by rewrite Heq|by left|].
    destruct ro as [x|] eqn:Er.
    + right. exists x. split; [|left; split; [done|]].
      * intros ->. apply (Hfr h); [right; apply list_elem_of_here|apply insert_hole_linked].
      * simpl. rewrite Ho, Z.sub_0_r. by symmetry.
    + left. destruct Hro0 as [Hz _]. f_equal. rewrite (Hz eq_refl). lia.
Qed.

(** The blocks after the operation. *)
Lemma insert_finish ptr : exists d3 d4,
  (let! d := link_left h lo d2 ;; let! d := link_right h ro d ;;
   let! d := opt_list w remove_hole h d ;; Some (Some h, d)) = Some (Some h, d3)
  /\ give_to ptr h d3 = Some d4
  /\ splice d d4 (b_arena b) a l1 [h] (segment lo h ro) l2 insert_list
  /\ d_blocks d4 !! h = Some (Block (b_arena b) (b_offset b + off) size false ptr)
  /\ (forall i, i ∈ segment lo h ro -> i <> h -> exists b', d_blocks d4 !! i = Some b' /\ b_prev b' = true)
.
Proof using All.
  pose proof (hole_around_ok _ _ _ _ _ _ Hinv Hh) as (Hr&Hn1&Hn2).
  pose proof insert_hole_linked as Hhl. pose proof insert_fresh as Hfr. pose proof insert_disjoint as Hdis.
  pose proof (insert_blocks2 h Hhl) as Hb2. pose proof Hh as [Hb Ha He Hp]. rewrite Hb in Hb2.
  destruct Hr as [Hs Hpos Hlow Hm Hst Hl [ph Hrt]].
  assert (Hlb : forall x, x ∈ olist lo -> x <> h /\ d_blocks d2 !! x = Some left_block).
  { intros x Hx. split; [intros ->; by destruct (Hfr h); auto|].
    rewrite (no_blocks _ _ _ _ _ Hro) by (intros ?; by eapply Hdis). by apply (no_block _ _ _ _ _ Hlo). }
  assert (Hrb : forall x, x ∈ olist ro -> x <> h /\ d_blocks d2 !! x = Some right_block).
  { intros x Hx. split; [intros ->; by destruct (Hfr h); auto|]. by apply (no_block _ _ _ _ _ Hro). }
  assert (Hat2 : hole_at d2 h b a l1 l2).
  { split; [done| |done|done]. by rewrite (no_arenas _ _ _ _ _ Hro), (no_arenas _ _ _ _ _ Hlo). }
  destruct (link_holes_eq d2 h b a l1 l2 lo ro off (b_size b - off - size) size Hat2 Hn1)
    as (d3&Heq&B&A&SA&V&S&C&P&G); try lia.
  { intros x Hx. destruct (Hlb x Hx) as [? ?]. split; [done|]. by eexists. }
  { intros x Hx. destruct (Hrb x Hx) as [? ?]. split; [done|]. by eexists. }
  { done. } { by intros ->%Hlo0. } { intros ->%Hro0. lia. }
  assert (exists d4, opt_list w remove_hole h d3 = Some d4
    /\ d_blocks d4 !! h = Some (Block (b_arena b) (b_offset b + off) size (bool_decide (w = None)) (match w with Some _ => 0 | None => b_next b end))
    /\ (forall x, x <> h -> d_blocks d4 !! x = d_blocks d2 !! x)
    /\ d_arenas d4 = d_arenas d3 /\ d_shader_arenas d4 = d_shader_arenas d3
    /\ d_arena_vas d4 = d_arena_vas d3 /\ d_arena_shift d4 = d_arena_shift d3
    /\ d_clock d4 = d_clock d3 /\ d_block_obj_pool d4 = d_block_obj_pool d3
    /\ forall w', get_list w' d4
         = if decide (w = Some w') then fl_remove h (get_size_class size false) (get_list w' d3)
           else get_list w' d3) as (d4&Hrm&B4&Bo4&A4&SA4&V4&S4&C4&P4&G4).
  { destruct w as [w0|] eqn:Ew; cbn [opt_list].
    - erewrite remove_hole_eq by (rewrite B; by apply lookup_insert_eq). eexists. split; [done|]. arena_simpl.
      rewrite B. split; [by arena_simpl|]. split; [intros; by rewrite !lookup_insert_ne|]. conj_done.
      intros w'. arena_simpl. rewrite decide_some_list. by destruct (decide (w0 = w')) as [<-|].
    - eexists. split; [done|]. rewrite B. split; [arena_simpl; unfold resize; by rewrite Hp|].
      split; [intros; by rewrite lookup_insert_ne|]. by conj_done. }
  set (d5 := set_block h (Block (b_arena b) (b_offset b + off) size false ptr) d4).
  exists d4, d5. split.
  { destruct (link_left h lo d2) as [dl|]; [|done]. cbn [mbind option_bind] in Heq |- *.
    rewrite Heq. cbn [mbind option_bind]. by rewrite Hrm. }
  split; [unfold give_to; by rewrite B4|].
  assert (Hh5 : d_blocks d5 !! h = Some (Block (b_arena b) (b_offset b + off) size false ptr))
    by (subst d5; by arena_simpl).
  assert (Hl5 : forall x, x ∈ olist lo -> d_blocks d5 !! x = Some left_block).
  { intros x Hx. destruct (Hlb x Hx). subst d5. arena_simpl. by rewrite Bo4. }
  assert (Hr5 : forall x, x ∈ olist ro -> d_blocks d5 !! x = Some right_block).
  { intros x Hx. destruct (Hrb x Hx). subst d5. arena_simpl. by rewrite Bo4. }
  assert (Hbs : forall id, id ∉ [h] -> id ∉ segment lo h ro -> d_blocks d5 !! id = d_blocks d !! id).
  { intros id Hid1 Hid2. unfold segment in Hid2. rewrite !elem_of_app in Hid2.
    rewrite list_elem_of_singleton in Hid1. subst d5. arena_simpl. rewrite Bo4 by done.
    rewrite (no_blocks _ _ _ _ _ Hro) by naive_solver. apply (no_blocks _ _ _ _ _ Hlo). naive_solver. }
  assert (Hseg : forall id, id ∈ segment lo h ro -> id ∈ olist lo \/ id = h \/ id ∈ olist ro).
  { intros id. unfold segment. rewrite !elem_of_app, list_elem_of_singleton. done. }
  assert (Hout : forall (id : Z) (l : list Z), id ∈ l -> h ∉ l -> (forall i, i ∈ l -> i ∈ a_entries a) ->
    d_blocks d5 !! id = d_blocks d !! id).
  { intros id l Hid Hnl Hsub. apply Hbs; [rewrite list_elem_of_singleton; by intros ->|].
    assert (linked d id) by (exists (b_arena b), a; auto).
    intros [?|[->|?]]%Hseg; [|done|]; by destruct (Hfr id); auto. }
  split; [|split; [done|]].
  2: { intros i Hi Hne. apply Hseg in Hi as [Hi|[?|Hi]]; [|done|].
       - exists left_block. split; [by apply Hl5|done].
       - exists right_block. split; [by apply Hr5|done]. }
  split; try done.
  - subst d5. arena_simpl. rewrite A4, A, (no_arenas _ _ _ _ _ Hro), (no_arenas _ _ _ _ _ Hlo). done.
  - intros id Hid. subst d5. arena_simpl. rewrite P4, P, C4, C.
    apply Hseg in Hid as [Hid|[->|Hid]]; [right; by apply Hfr; auto| |right; by apply Hfr; auto].
    left. apply list_elem_of_here.
  - apply arena_split. split; [done|]. exists (b_offset b), false.
    assert (exists phs, tiles (d_blocks d5) (b_arena b) (b_offset b) false (segment lo h ro)
      (b_offset b + b_size b) phs /\ (phs = true \/ ro = None)) as (phs&Hts&Hphs).
    { assert (Hright : exists phs, tiles (d_blocks d5) (b_arena b) (b_offset b + off + size) false (olist ro)
        (b_offset b + b_size b) phs /\ (phs = true \/ ro = None)).
      { destruct ro as [x|] eqn:Er; simpl.
        - exists true. split; [|by left]. exists right_block. split; [by apply Hr5, list_elem_of_here|].
          conj_done. split; [|split; [done|simpl; split; [lia|done]]]. simpl.
          assert (b_size b <> off + size) by (intros Hz; by apply Hro0 in Hz).
          split; [lia|]. rewrite Zminus_mod, Hszm, Z.sub_0_r, Zmod_mod, Zminus_mod, Hoffm, (proj2 Hpos). done.
        - exists false. split; [|by right]. split; [|done]. destruct Hro0 as [Hz _]. rewrite (Hz eq_refl). lia. }
      destruct Hright as (phs&Hright&?). exists phs. split; [|done].
      destruct lo as [x|] eqn:El; unfold segment; simpl.
      - exists left_block. split; [by apply Hl5, list_elem_of_here|]. conj_done.
        assert (off <> 0) by (intros Hz; by apply Hlo0 in Hz).
        split; [split; [simpl; lia|done]|]. split; [done|]. eexists. split; [exact Hh5|]. by conj_done.
      - destruct Hlo0 as [Hz _]. rewrite (Hz eq_refl), Z.add_0_r in Hright, Hh5.
        eexists. split; [exact Hh5|]. by conj_done. }
    assert (Hl2 : exists ph', tiles (d_blocks d5) (b_arena b) (b_offset b + b_size b) phs l2 (a_size a) ph').
    { apply (tiles_frame _ (d_blocks d5)) in Hrt.
      - destruct phs; [by exists ph|]. by eapply tiles_after_alloc.
      - intros id Hid. apply (Hout id l2 Hid Hn2).
        intros i Hi. rewrite He, elem_of_app. right. by apply list_elem_of_further. }
    destruct Hl2 as [ph' Hl2]. exists (b_offset b + b_size b), phs, ph'. split; [|done].
    eapply tiles_frame; [|done]. intros id Hid. apply (Hout id l1 Hid Hn1). intros i Hi. rewrite He, elem_of_app. auto.
  - intros w'. subst d5. arena_simpl. rewrite G4, G, (no_get _ _ _ _ _ Hro), (no_get _ _ _ _ _ Hlo), <- Hw.
    destruct (decide (w = Some w')) as [Hw'|]; [|done]. rewrite (insert_left_none _ Hw'). done.
  - intros w'. rewrite <- Hw. intros Hw'. eapply list_ok_iff; [|by apply insert_list_ok].
    pose proof (insert_left_none _ Hw') as Hln. intros id c _. rewrite list_elem_of_singleton. split.
    + intros (Hne&[[Hr' ->]|Hi]); [|by right]. left. split; [|exists right_block].
      * unfold segment. rewrite !elem_of_app, !elem_olist. auto.
      * split; [apply Hr5; by apply elem_olist|done].
    + intros [(Hid&b'&Hb'&Hp'&->)|[Hne Hi]]; [|by split; [|right]].
      apply Hseg in Hid as [Hid|[->|Hid]].
      * rewrite Hln in Hid. by apply elem_of_nil in Hid.
      * rewrite Hh5 in Hb'. by injection Hb' as <-.
      * split; [by apply Hrb|]. left. rewrite (Hr5 id Hid) in Hb'. injection Hb' as <-.
        split; [by apply elem_olist|done].
  - subst d5. arena_simpl. rewrite P4, P. apply (no_pool_nodup _ _ _ _ _ Hro).
  - intros id. subst d5. arena_simpl. rewrite P4, P. intros Hid. left.
    by apply (no_pool _ _ _ _ _ Hlo), (no_pool _ _ _ _ _ Hro).
  - subst d5. arena_simpl. rewrite C4, C. pose proof (no_clock _ _ _ _ _ Hlo). pose proof (no_clock _ _ _ _ _ Hro). lia.
  - subst d5. arena_simpl. rewrite V4, V, (no_vas _ _ _ _ _ Hro). apply (no_vas _ _ _ _ _ Hlo).
  - subst d5. arena_simpl. rewrite SA4, SA, (no_shader_arenas _ _ _ _ _ Hro).
    apply (no_shader_arenas _ _ _ _ _ Hlo).
  - subst d5. arena_simpl. rewrite S4, S, (no_shift _ _ _ _ _ Hro). apply (no_shift _ _ _ _ _ Hlo).
Qed.

End Insert.

(** [free (left_hole)] of an object no arena links. *)
Lemma free_obj_same d lo :
  core_inv d -> (forall x, x ∈ olist lo -> ~ linked d x) ->
  core_inv (free_obj lo d) /\ same_store d (free_obj lo d).
Proof.
  intros Hinv Hl. assert (Hs : same_store d (free_obj lo d)).
  { destruct lo as [x|]; [|apply same_store_refl]. unfold same_store. simpl. split_and!; try done; try lia.
    intros id Hid. rewrite lookup_delete_ne; [done|]. intros ->. by apply (Hl id); [apply list_elem_of_here|]. }
  split; [|done]. apply (same_store_core d); [done|done| |]; destruct lo; simpl; auto; apply (ci_pool_nodup _ Hinv).
Qed.

(** What an insertion returns. *)
Definition insert_outcome (e : arena_env) (d d3 : arena_device) (h ptr : Z) (b : radv_shader_arena_block)
    (r : option Z) : Prop :=
  match r with
  | None => core_inv d3 /\ same_store d d3 /\ exists n, malloc_ok e n = false
  | Some x => x = h /\ exists d4, give_to ptr h d3 = Some d4 /\ allocates d d4 h b /\ keeps_arenas d d4
                /\ d_arena_vas d4 = d_arena_vas d
                /\ d_clock d <= d_clock d4
                /\ forall aid a, d_arenas d !! aid = Some a ->
                     exists a', d_arenas d4 !! aid = Some a' /\ a_size a' = a_size a /\ a_type a' = a_type a
  end.

Lemma insert_block_ok e d h b a l1 l2 off size ptr w :
  core_inv d -> hole_at d h b a l1 l2 -> 0 <= off -> 0 < size -> off + size <= b_size b ->
  off mod 256 = 0 -> size mod 256 = 0 -> w = arena_free_list (a_type a) ->
  class_kept b off size w ->
  exists r d3, insert_block e h off size w d = Some (r, d3)
    /\ insert_outcome e d d3 h ptr (Block (b_arena b) (b_offset b + off) size false ptr) r.
Proof.
  intros Hinv Hh Hoff Hsz Hfit Hoffm Hszm Hw Hclass.
  pose proof (hole_around_ok _ _ _ _ _ _ Hinv Hh) as ([Hs _ Hlow _ Hst _ _]&_&_).
  unfold insert_block. rewrite (ha_block _ _ _ _ _ _ Hh). cbn [mbind option_bind].
  assert (Hleft : exists (r : bool) lo d1,
    (if negb (off =? 0) then
       let! (h0, d0) := new_hole e w (b_arena b) (b_offset b) off d ;; Some (bool_decide (is_Some h0), h0, d0)
     else Some (true, None, d)) = Some (r, lo, d1)
    /\ (if r then new_object d d1 w lo (left_block b off) /\ (lo = None <-> off = 0)
          /\ core_inv d1 /\ same_store d d1
        else core_inv d1 /\ same_store d d1 /\ malloc_ok e (d_clock d) = false)).
  { destruct (Z.eqb_spec off 0) as [->|Ho]; simpl negb; cbv iota.
    - exists true, None, d. split_and!; try done; by apply no_object.
    - assert (w = None) as -> by (destruct Hclass as [|[? _]]; [done|lia]).
      destruct (new_hole_ok e None (b_arena b) (b_offset b) off d Hinv) as (r&d1&->&Hr).
      cbn [mbind option_bind]. destruct r as [x|]; do 3 eexists; (split; [done|]); simpl.
      + destruct (new_object_same _ _ _ _ Hinv Hr). by split_and!.
      + done. }
  destruct Hleft as (r&lo&d1&->&Hleft). cbn [mbind option_bind].
  destruct r; simpl negb; cbv iota.
  2: { exists None, d1. split; [done|]. destruct Hleft as (?&?&?). split_and!; try done. by eexists. }
  destruct Hleft as (Hlo&Hlo0&Hinv1&Hsame). unwrap.
  assert (Hright : exists (r : bool) ro d2,
    (if off + size <? b_size b then
       let! (h0, d0) := new_hole e w (b_arena b) (b_offset b + off + size)
                          (b_offset b + b_size b - (b_offset b + off + size)) d1 ;;
       Some (bool_decide (is_Some h0), h0, d0)
     else Some (true, None, d1)) = Some (r, ro, d2)
    /\ (if r then new_object d1 d2 w ro (right_block b off size) /\ (ro = None <-> b_size b = off + size)
        else core_inv d2 /\ same_store d1 d2 /\ malloc_ok e (d_clock d1) = false)).
  { destruct (Z.ltb_spec (off + size) (b_size b)) as [Hlt|Hge].
    - replace (b_offset b + b_size b - (b_offset b + off + size)) with (b_size b - off - size) by lia.
      destruct (new_hole_ok e w (b_arena b) (b_offset b + off + size) (b_size b - off - size) d1 Hinv1)
        as (r&d2&->&Hr). cbn [mbind option_bind].
      destruct r as [x|]; do 3 eexists; (split; [done|]); simpl; [|done].
      split; [done|]. split; [done|lia].
    - exists true, None, d1. split; [done|]. split; [by apply no_object|]. split; [intros _; lia|done]. }
  destruct Hright as (r&ro&d2&->&Hright). cbn [mbind option_bind].
  destruct r; simpl negb; cbv iota.
  - destruct Hright as (Hro&Hro0).
    destruct (insert_finish d Hinv h b a l1 l2 Hh off size Hoff Hsz Hfit Hoffm Hszm w Hw Hclass
                d1 d2 lo ro Hlo Hro Hlo0 Hro0 ptr) as (d3&d4&Heq&Hg&Hsp&Hb4&Hothers).
    exists (Some h), d3. split; [exact Heq|]. split; [done|]. exists d4. split; [done|].
    assert (Hnl : live d !! h = None)
      by (eapply hole_not_live; [apply (ha_block _ _ _ _ _ _ Hh)|apply (ha_prev _ _ _ _ _ _ Hh)]).
    edestruct (fun H => splice_allocates _ _ _ _ _ _ _ _ _ h _ Hinv Hsp Hnl H Hb4) as [Hal Hk]; try done.
    { unfold segment. rewrite !elem_of_app, list_elem_of_singleton. auto. }
    { by intros i ->%list_elem_of_singleton. }
    split_and!; try done; [apply (sp_vas _ _ _ _ _ _ _ _ _ Hsp)|apply (sp_clock _ _ _ _ _ _ _ _ _ Hsp)|].
    intros aid a0 Ha0. rewrite (sp_arenas _ _ _ _ _ _ _ _ _ Hsp). destruct (decide (aid = b_arena b)) as [->|].
    + rewrite lookup_insert_eq. eexists. split; [done|]. rewrite (ha_arena _ _ _ _ _ _ Hh) in Ha0. by injection Ha0 as <-.
    + rewrite lookup_insert_ne by done. by exists a0.
  - destruct Hright as (Hinv2&Hs2&Hm).
    assert (Hs12 : same_store d d2).
    { by eapply same_store_trans. }
    destruct (free_obj_same d2 lo Hinv2) as [Hi3 Hs3].
    { intros x Hx. rewrite (same_store_linked _ _ _ Hs12). by apply (no_fresh _ _ _ _ _ Hlo). }
    exists None, (free_obj lo d2). split; [done|]. split; [done|]. split; [by eapply same_store_trans|by eexists].
Qed.
