(* ===== verification/ArenaCreate.v ===== *)
(** [radv_create_shader_arena], and allocation at the start of a new arena. *)

From stdpp Require Import gmap.
From S2P Require Import Prelude Pm4 ShaderArena ArenaLists ArenaInv ArenaAlloc ArenaTake ArenaInsert.

(** * A new arena *)

(** [d2] is [d] with one arena more, all of it one hole [x]. *)
Record created (d d2 : arena_device) (aid x size : Z) (t : radv_shader_arena_type) : Prop := Created {
  cr_new : d_arenas d !! aid = None;
  cr_clock_new : aid < d_clock d2;
  cr_x : ~ linked d x /\ (x ∉ d_block_obj_pool d2) /\ x < d_clock d2;
  cr_block : d_blocks d2 !! x = Some (Block aid 0 size true 0);
  cr_blocks : forall i, linked d i -> d_blocks d2 !! i = d_blocks d !! i;
  cr_arenas : d_arenas d2 = <[aid := Arena [x] size t]> (d_arenas d);
  cr_get : forall w, get_list w d2 = if decide (arena_free_list t = Some w)
                                     then fl_add x (get_size_class size false) (get_list w d) else get_list w d;
  cr_pool_nodup : NoDup (d_block_obj_pool d2);
  cr_pool : forall i, i ∈ d_block_obj_pool d2 -> i ∈ d_block_obj_pool d;
  cr_shader_arenas : d_shader_arenas d2 = d_shader_arenas d;
  cr_vas : d_arena_vas d2 = d_arena_vas d;
  cr_shift : d_arena_shift d2 = d_arena_shift d;
  cr_clock : d_clock d <= d_clock d2
}.

Section Created.
Context (d d2 : arena_device) (aid x size : Z) (t : radv_shader_arena_type).
Context (Hinv : core_inv d) (Hc : created d d2 aid x size t).
Context (Hsz : 0 < size < W32) (Hmod : size mod 256 = 0).

Lemma created_linked i : linked d2 i <-> i = x \/ linked d i.
Proof using Hc.
  pose proof (cr_arenas _ _ _ _ _ _ Hc) as Ha. pose proof (cr_new _ _ _ _ _ _ Hc) as Hn. split.
  - intros (aid'&a&Ha'&Hin). rewrite Ha in Ha'. destruct (decide (aid' = aid)) as [->|].
    + rewrite lookup_insert_eq in Ha'. injection Ha' as <-. left. by apply list_elem_of_singleton in Hin.
    + rewrite lookup_insert_ne in Ha' by done. right. by exists aid', a.
  - intros [->|(aid'&a&Ha'&Hin)].
    + exists aid, (Arena [x] size t). rewrite Ha, lookup_insert_eq. split; [done|apply list_elem_of_here].
    + exists aid', a. rewrite Ha, lookup_insert_ne; [done|congruence].
Qed.

Lemma created_block (R : radv_shader_arena_block -> radv_shader_arena_type -> Prop) i b :
  (d_blocks d2 !! i = Some b /\ exists a, d_arenas d2 !! b_arena b = Some a /\ i ∈ a_entries a /\ R b (a_type a))
  <-> (i = x /\ b = Block aid 0 size true 0 /\ R b t)
      \/ (d_blocks d !! i = Some b
          /\ exists a, d_arenas d !! b_arena b = Some a /\ i ∈ a_entries a /\ R b (a_type a)).
Proof using Hinv Hc.
  pose proof (cr_arenas _ _ _ _ _ _ Hc) as Ha. pose proof (cr_new _ _ _ _ _ _ Hc) as Hn.
  pose proof (cr_block _ _ _ _ _ _ Hc) as Hx. split.
  - intros (Hb&a&Ha'&Hin&HR). destruct (decide (i = x)) as [->|Hne].
    + left. rewrite Hx in Hb. injection Hb as <-. simpl in Ha'. rewrite Ha, lookup_insert_eq in Ha'.
      by injection Ha' as <-.
    + right. assert (Hl : linked d i).
      { assert (linked d2 i) as [?|?]%created_linked by (by exists (b_arena b), a); done. }
      rewrite (cr_blocks _ _ _ _ _ _ Hc i Hl) in Hb. split; [done|].
      destruct Hl as (aid'&a'&Hal&Hil). pose proof (linked_arena d Hinv _ _ _ _ Hal Hil Hb) as Hab.
      rewrite Hab in Ha' |- *. rewrite Ha, lookup_insert_ne in Ha' by congruence. exists a. done.
  - intros [(->&->&HR)|(Hb&a&Ha'&Hin&HR)].
    + split; [done|]. exists (Arena [x] size t). simpl. rewrite Ha, lookup_insert_eq.
      split; [done|]. split; [apply list_elem_of_here|done].
    + split; [rewrite (cr_blocks _ _ _ _ _ _ Hc); [done|by exists (b_arena b), a]|].
      exists a. rewrite Ha, lookup_insert_ne; [done|congruence].
Qed.

Lemma created_live : live d2 = live d.
Proof using Hinv Hc.
  apply map_eq_some. intros i b. rewrite !lookup_live.
  pose proof (created_block (fun b _ => b_prev b = false) i b) as HR. simpl in HR.
  split; intros (Hb&Hp&a&Ha&Hin).
  - destruct HR as [[(?&->&?)|(?&a'&?&?&?)] _]; [|done|]; [split; [done|by exists a]|].
    split; [done|]. split; [done|]. by exists a'.
  - destruct HR as [_ (?&a'&?&?&?)]; [right; split; [done|by exists a]|].
    split; [done|]. split; [done|]. by exists a'.
Qed.

Lemma created_holes w i c :
  holes_in d2 w i c <->
  (arena_free_list t = Some w /\ i = x /\ c = get_size_class size false) \/ holes_in d w i c.
Proof using Hinv Hc.
  unfold holes_in. pose proof (fun b => created_block (fun b t => arena_free_list t = Some w /\ b_prev b = true
    /\ c = get_size_class (b_size b) false) i b) as HR. split.
  - intros (b&a&Hb&Ha&Hin&H). destruct (HR b) as [[(->&->&?&?&?)|(?&a'&?&?&?)] _]; [split; [done|by exists a]|..].
    + by left.
    + right. by exists b, a'.
  - intros [(?&->&->)|(b&a&Hb&Ha&Hin&H)].
    + destruct (HR (Block aid 0 size true 0)) as [_ (?&a'&?&?&?)]; [by left|]. by eexists _, a'.
    + destruct (HR b) as [_ (?&a'&?&?&?)]; [right; split; [done|by exists a]|]. by exists b, a'.
Qed.

Lemma created_core : core_inv d2.
Proof using All.
  pose proof Hc as [Hn Hcn (Hxl&Hxp&Hxc) Hx Hbs Hars Hg Hpn Hp Hsa Hv Hsh Hcl]. split.
  - intros aid' a. rewrite Hars. destruct (decide (aid' = aid)) as [->|].
    + rewrite lookup_insert_eq. intros [= <-]. split; [apply Hsz|]. exists true. simpl.
      eexists. split; [exact Hx|]. conj_done. split; [simpl; split; [lia|done]|]. by conj_done.
    + rewrite lookup_insert_ne by done. intros Ha. destruct (ci_arenas _ Hinv _ _ Ha) as (?&ph&Ht).
      split; [done|]. exists ph. eapply tiles_frame; [|done]. intros i Hi. apply Hbs. by exists aid', a.
  - intros w. rewrite Hg. destruct (decide _) as [Hw|Hw].
    + eapply list_ok_iff; [|apply fl_add_ok; [apply get_size_class_range|apply (ci_lists _ Hinv)|]].
      * intros i c _. rewrite created_holes. naive_solver.
      * by intros c _ ?%holes_linked.
    + eapply list_ok_iff; [|apply (ci_lists _ Hinv)]. intros i c _. rewrite created_holes. naive_solver.
  - done.
  - intros i Hi. rewrite created_linked. destruct (ci_pool _ Hinv i (Hp i Hi)). split; [|lia].
    intros [->|]; done.
  - intros i [->|Hl]%created_linked; [done|]. pose proof (ci_linked _ Hinv i Hl). lia.
  - intros aid' His. destruct (decide (aid' = aid)) as [->|]; [done|].
    rewrite Hars, lookup_insert_ne in His by done. pose proof (ci_aids _ Hinv aid' His). lia.
  - rewrite Hv. intros va aid' (a&Ha&?)%(ci_vas _ Hinv). exists a. rewrite Hars, lookup_insert_ne; [done|congruence].
  - rewrite Hv. apply (ci_vas_inj _ Hinv).
Qed.

Lemma created_hole : hole_at d2 x (Block aid 0 size true 0) (Arena [x] size t) [] [].
Proof using Hc.
  split; [apply (cr_block _ _ _ _ _ _ Hc)| |done|done]. cbn [b_arena].
  by rewrite (cr_arenas _ _ _ _ _ _ Hc), lookup_insert_eq.
Qed.

End Created.

(** * The operation *)

(** The CPU mapping of an arena does not fail, or is not made. *)
Definition map_works (e : arena_env) : Prop :=
  shader_use_invisible_vram e = true \/ forall n, buffer_map_ok e n = true.

Definition chosen_size (d : arena_device) (min_size arena_size : Z) : Z :=
  if arena_size =? 0
  then Z.max (u32 (Z.shiftl RADV_SHADER_ALLOC_MIN_ARENA_SIZE
                     (Z.min RADV_SHADER_ALLOC_MAX_ARENA_SIZE_SHIFT (d_arena_shift d)))) min_size
  else arena_size.

Definition chosen_type (replayable : bool) (replay_va : Z) : radv_shader_arena_type :=
  if negb (replay_va =? 0) then RADV_SHADER_ARENA_REPLAYED
  else if replayable then RADV_SHADER_ARENA_REPLAYABLE else RADV_SHADER_ARENA_DEFAULT.

Definition out_of_memory (e : arena_env) : Prop :=
  exists n, malloc_ok e n = false \/ bo_create_ok e n = false.

Lemma created_tick d d2 aid x size t : created d d2 aid x size t -> created d (tick d2) aid x size t.
Proof.
  intros [Hn Hcn (Hxl&Hxp&Hxc) Hx Hbs Hars Hg Hpn Hp Hsa Hv Hsh Hcl].
  assert (Hgt : forall w, get_list w (tick d2) = get_list w d2) by (by intros []).
  split; simpl; try done; try lia.
  all: first [intros w; by rewrite Hgt|by split_and!; try lia].
Qed.

Lemma radv_create_shader_arena_ok e w min_size arena_size replayable va d :
  core_inv d -> map_works e -> w = arena_free_list (chosen_type replayable va) ->
  exists r d', radv_create_shader_arena e w min_size arena_size replayable va d = Some (r, d')
    /\ match r with
       | None => core_inv d' /\ same_store d d' /\ out_of_memory e
       | Some aid => exists x, created d d' aid x (chosen_size d min_size arena_size) (chosen_type replayable va)
       end.
Proof.
  intros Hinv Hmap Hw. unfold radv_create_shader_arena.
  pose proof (tick_core _ Hinv) as Hi1. pose proof (tick_core _ Hi1) as Hi2.
  assert (Hs2 : same_store d (tick (tick d))) by (eapply same_store_trans; apply same_store_tick).
  destruct (malloc_ok e (d_clock d)) eqn:Em; simpl negb; cbv iota.
  2: { do 2 eexists. split; [done|]. split; [done|]. split; [apply same_store_tick|]. exists (d_clock d). auto. }
  destruct (bo_create_ok e (d_clock d + 1)) eqn:Eb; simpl negb; cbv iota.
  2: { do 2 eexists. split; [done|]. split; [done|]. split; [done|]. exists (d_clock d + 1). auto. }
  destruct (alloc_block_obj e (tick (tick d))) as [r d1] eqn:E.
  destruct (alloc_block_obj_ok _ _ _ _ Hi2 E) as (Hinv1&Hs&Hid&Hpool&Hbl&Hnone).
  assert (Hs1 : same_store d d1) by (by eapply same_store_trans).
  destruct r as [x|].
  2: { exists None, d1. split; [done|]. split; [done|]. split; [done|]. eexists. left. by apply Hnone. }
  destruct (Hid x eq_refl) as (Hl&Hnp&Hcx&Hor). rewrite (same_store_linked _ _ _ Hs1) in Hl.
  fold (chosen_type replayable va). fold (chosen_size d min_size arena_size).
  change (d_arena_shift (tick d)) with (d_arena_shift d). fold (chosen_size d min_size arena_size).
  set (t := chosen_type replayable va) in *. set (size := chosen_size d min_size arena_size).
  assert (Hnew : d_arenas d !! d_clock d = None).
  { apply eq_None_not_Some. intros H%(ci_aids _ Hinv). lia. }
  assert (Hcr : exists d2, opt_list w add_hole x (set_arena (d_clock d) (Arena [x] size t)
      (set_block x (Block (d_clock d) 0 size true 0) d1)) = Some d2
      /\ created d d2 (d_clock d) x size t).
  { destruct Hs as (_&_&_&_&_&_&Hcl'). simpl in Hcl'.
    destruct Hs1 as (B&A&SA&G&V&S&C). destruct w as [w0|] eqn:Ew; cbn [opt_list].
    - erewrite add_hole_eq by (by arena_simpl). eexists. split; [done|]. split; arena_simpl; try done; try lia.
      + intros i Hi. arena_simpl. rewrite lookup_insert_ne by (by intros <-). rewrite lookup_insert_ne by (by intros <-). by apply B.
      + by rewrite A.
      + intros w'. arena_simpl. rewrite <- Hw, decide_some_list, !G. by destruct (decide (w0 = w')) as [<-|].
      + apply (ci_pool_nodup _ Hinv1).
    - eexists. split; [done|]. split; arena_simpl; try done; try lia.
      + intros i Hi. arena_simpl. rewrite lookup_insert_ne by (by intros <-). by apply B.
      + by rewrite A.
      + intros w'. arena_simpl. rewrite <- Hw. apply G.
      + apply (ci_pool_nodup _ Hinv1). }
  destruct Hcr as (d2&->&Hcr). cbn [mbind option_bind].
  destruct (shader_use_invisible_vram e) eqn:Ei; [by do 2 eexists; split; [done|exists x]|].
  destruct Hmap as [|Hmap]; [congruence|]. rewrite Hmap.
  do 2 eexists. split; [done|]. exists x. by apply created_tick.
Qed.

(** * Allocation in a new arena *)

(** The size of an arena the allocator chooses. *)
Lemma chosen_size_ok d size : 0 <= d_arena_shift d -> 0 < size < W32 -> size mod 256 = 0 ->
  2 ^ 18 <= chosen_size d size 0 < W32 /\ size <= chosen_size d size 0 /\ chosen_size d size 0 mod 256 = 0.
Proof.
  intros Hs Hsz Hm. unfold chosen_size. simpl (0 =? 0). cbv iota.
  assert (exists n, Z.min RADV_SHADER_ALLOC_MAX_ARENA_SIZE_SHIFT (d_arena_shift d) = n /\ 0 <= n <= 5) as (n&->&Hn).
  { eexists; split; [done|]. unfold RADV_SHADER_ALLOC_MAX_ARENA_SIZE_SHIFT. lia. }
  assert (n = 0 \/ n = 1 \/ n = 2 \/ n = 3 \/ n = 4 \/ n = 5) as Hcs by lia.
  set (s := u32 _). assert (2 ^ 18 <= s <= 2 ^ 23 /\ s mod 256 = 0) as [? ?].
  { subst s. destruct Hcs as [->|[->|[->|[->|[->| ->]]]]]; by vm_compute. }
  unfold W32 in *. split; [lia|]. split; [lia|]. destruct (Z.max_spec s size) as [[_ ->]|[_ ->]]; done.
Qed.

Lemma size_class_last s : 2 ^ 15 <= s -> get_size_class s false = 7.
Proof.
  intros Hs. pose proof (get_size_class_range s false) as Hr.
  pose proof (proj2 (size_class_lower s 7 ltac:(lia) ltac:(lia)) Hs). lia.
Qed.

(** A new arena is so large that its list keeps a hole of the last class. *)
Lemma new_arena_class b size w :
  2 ^ 18 <= b_size b -> 0 < size <= b_size b -> class_kept b 0 size w.
Proof.
  intros Hb Hs. right. split; [done|]. right. rewrite (size_class_last (b_size b)) by lia.
  destruct (Z.le_gt_cases (2 ^ 15) size); [left|right]; apply size_class_last; lia.
Qed.

(** What an allocation of [size] bytes returns: a new live block, nothing, or a dereference of the
    null result of [insert_block]. *)
Definition alloc_result (e : arena_env) (d : arena_device) (size ptr : Z)
    (r : option (option Z * arena_device)) : Prop :=
  match r with
  | Some (Some id, d') =>
      arena_inv d' /\ live d !! id = None
      /\ exists aid off, live d' = <[id := Block aid off size false ptr]> (live d)
  | Some (None, d') => arena_inv d' /\ live d' = live d /\ out_of_memory e
  | None => exists n, malloc_ok e n = false
  end.

(** The state after a block of the new arena is allocated, and the arena is known. *)
Lemma created_inv d d1 d2 d3 aid x size t id b :
  arena_inv d -> created d d1 aid x size t -> allocates d1 d2 id b -> keeps_arenas d1 d2 ->
  b_arena b = aid ->
  d_blocks d3 = d_blocks d2 -> d_arenas d3 = d_arenas d2 -> core_inv d3 ->
  d_shader_arenas d3 = d_shader_arenas d2 ++ [aid] -> 0 <= d_arena_shift d3 -> arena_inv d3.
Proof.
  intros [Hinv Hnd Hk Hu _] Hc Hal ([H1 _]&H2&H3) Hb B A C S Hsh.
  pose proof (cr_arenas _ _ _ _ _ _ Hc) as Hars. pose proof (cr_new _ _ _ _ _ _ Hc) as Hnew.
  assert (Hsa : d_shader_arenas d3 = d_shader_arenas d ++ [aid])
    by (rewrite S, H1; by rewrite (cr_shader_arenas _ _ _ _ _ _ Hc)).
  split; [done| | | |done].
  - rewrite Hsa. apply NoDup_app. split; [done|]. split; [|apply NoDup_singleton].
    intros y Hy ->%list_elem_of_singleton. apply Hk in Hy as [? ?]. congruence.
  - intros aid'. rewrite Hsa, A, H2, Hars, elem_of_app, list_elem_of_singleton.
    destruct (decide (aid' = aid)) as [->|].
    + rewrite lookup_insert_eq. split; [by eexists|by right].
    + rewrite lookup_insert_ne by done. rewrite <- Hk. naive_solver.
  - intros aid' a' Ha'. rewrite A in Ha'. assert (arena_used d2 a') as Hused.
    { destruct (decide (aid' = aid)) as [->|Hne].
      - assert (Hlv : live d2 !! id = Some b) by (rewrite (al_live _ _ _ _ Hal); apply lookup_insert_eq).
        apply lookup_live in Hlv as (Hbl&?&a2&Ha2&Hin). rewrite Hb, Ha' in Ha2. injection Ha2 as <-.
        intros _. by exists id, b.
      - apply (H3 aid' a' Ha'). intros a2. rewrite Hars, lookup_insert_ne by done. intros Ha2 Ht2.
        destruct (Hu aid' a2 Ha2 Ht2) as (i&bi&Hi&Hbi&?). exists i, bi.
        rewrite (cr_blocks _ _ _ _ _ _ Hc); [done|by exists aid', a2]. }
    intros Ht'. destruct (Hused Ht') as (i&bi&?&?&?). exists i, bi. by rewrite B.
Qed.

(** [arena_inv] only looks at the store. *)
Lemma core_inv_known d l s : core_inv d -> core_inv (with_shader_arenas (with_shift d s) l).
Proof.
  intros [H1 H2 H3 H4 H5 H6 H7 H8]. by split.
Qed.

Lemma alloc_list_type replayable : Some (alloc_list replayable) = arena_free_list (chosen_type replayable 0).
Proof. by destruct replayable. Qed.

Lemma alloc_in_new_arena_ok e d size replayable ptr :
  arena_inv d -> map_works e -> 0 < size < W32 -> size mod 256 = 0 ->
  alloc_result e d size ptr (alloc_in_new_arena e (alloc_list replayable) size replayable ptr d).
Proof.
  intros Hai Hmap Hsz Hm. pose proof (ai_core _ Hai) as Hinv. unfold alloc_in_new_arena.
  destruct (radv_create_shader_arena_ok e (Some (alloc_list replayable)) size 0 replayable 0 d Hinv Hmap
              (alloc_list_type replayable)) as (r&d1&->&Hr). cbn [mbind option_bind].
  destruct r as [aid|].
  2: { destruct Hr as (Hc&Hs&?). split; [by eapply same_store_inv|]. split; [by apply same_store_live|done]. }
  destruct Hr as (x&Hc). pose proof (chosen_size_ok d size (ai_shift _ Hai) Hsz Hm) as (HS&Hle&HSm).
  set (S := chosen_size d size 0) in *.
  pose proof (created_core _ _ _ _ _ _ Hinv Hc ltac:(lia) HSm) as Hinv1.
  pose proof (created_hole _ _ _ _ _ _ Hc) as Hh.
  pose proof (ha_arena _ _ _ _ _ _ Hh) as Har. cbn [b_arena] in Har. rewrite Har.
  cbn [mbind option_bind a_entries head].
  destruct (insert_block_ok e d1 x _ _ [] [] 0 size ptr (Some (alloc_list replayable)) Hinv1 Hh)
    as (r&d2&->&Hr); try done; try lia; [apply alloc_list_type|apply new_arena_class; simpl; lia|].
  cbn [mbind option_bind]. destruct r as [y|].
  2: { destruct Hr as (_&_&?). done. }
  destruct Hr as (->&d3&Hg&Hal&Hk&_). cbn [mbind option_bind]. rewrite Hg. cbn [mbind option_bind].
  assert (Hsh : 0 <= u32 (d_arena_shift d3 + 1)) by apply u32_range.
  split; [|split].
  - eapply (created_inv d d1 d3 _ aid x S); try done. apply core_inv_known, (al_core _ _ _ _ Hal).
  - rewrite <- (created_live _ _ _ _ _ _ Hinv Hc). apply (al_new _ _ _ _ Hal).
  - exists aid, 0. rewrite <- (created_live _ _ _ _ _ _ Hinv Hc). apply (al_live _ _ _ _ Hal).
Qed.

(** * [radv_alloc_shader_memory] *)

(** A size whose alignment does not overflow. *)
Definition size_fits (e : arena_env) (size : Z) : Prop :=
  0 < size /\ 0 <= instr_prefetch_distance e
  /\ size + instr_prefetch_distance e * 64 + 127 + 255 < W32.

Lemma aligned_size_ok e size : size_fits e size ->
  size <= aligned_size e size < W32 /\ aligned_size e size mod 256 = 0.
Proof.
  intros (Hs&Hp&Hf). unfold aligned_size, ac_align_shader_binary_for_prefetch.
  assert (Hpre : exists s, (if instr_prefetch_distance e =? 0 then size
      else if gfx_ge (e_gfx_level e) GFX11
           then align (u32 (size + u32 (instr_prefetch_distance e * 64))) 128
           else align (u32 (size + u32 (instr_prefetch_distance e * 64))) 64) = s
      /\ size <= s /\ s + 255 < W32).
  { eexists. split; [done|]. destruct (Z.eqb_spec (instr_prefetch_distance e) 0); [lia|]. unwrap.
    destruct (gfx_ge _ _).
    - change 128 with (2 ^ 7). rewrite align_round_up by (unfold_words; lia).
      pose proof (round_up_spec (size + instr_prefetch_distance e * 64) (2 ^ 7) ltac:(lia)). unfold_words. lia.
    - change 64 with (2 ^ 6) at 2 4. rewrite align_round_up by (unfold_words; lia).
      pose proof (round_up_spec (size + instr_prefetch_distance e * 64) (2 ^ 6) ltac:(lia)). unfold_words. lia. }
  destruct Hpre as (s&->&Hs1&Hs2). unfold RADV_SHADER_ALLOC_ALIGNMENT. change 256 with (2 ^ 8).
  rewrite align_round_up by (unfold_words; lia).
  pose proof (round_up_spec s (2 ^ 8) ltac:(lia)). unfold_words. lia.
Qed.

Lemma radv_alloc_shader_memory_ok e d size replayable ptr :
  arena_inv d -> map_works e -> size_fits e size ->
  alloc_result e d (aligned_size e size) ptr (radv_alloc_shader_memory e size replayable ptr d).
Proof.
  intros Hai Hmap Hfit. pose proof (ai_core _ Hai) as Hinv. unfold radv_alloc_shader_memory.
  destruct (aligned_size_ok e size Hfit) as [Hs Hm]. destruct Hfit as [Hpos _].
  set (S := aligned_size e size) in *.
  destruct (find_hole_ok d (alloc_list replayable) S Hinv ltac:(lia)) as [[-> _]|(h&->&Hh&Hge)];
    cbn [mbind option_bind]; [apply alloc_in_new_arena_ok; try done; lia|].
  apply is_hole_at in Hh as (b&a&l1&l2&Hh&Hw&Hbs). rewrite Hbs in Hge.
  destruct (take_hole_ok e d (alloc_list replayable) h b a l1 l2 S ptr Hinv Hh Hw ltac:(lia) Hm) as (r&d'&->&Hr).
  destruct r as [id|].
  - destruct Hr as [Hal Hk]. split; [eapply keeps_arenas_inv; [done|apply (al_core _ _ _ _ Hal)|done]|].
    split; [apply (al_new _ _ _ _ Hal)|]. exists (b_arena b), (b_offset b). apply (al_live _ _ _ _ Hal).
  - destruct Hr as (Hc&Hsm&?). split; [by eapply same_store_inv|]. split; [by apply same_store_live|].
    eexists. by left.
Qed.
