(* ===== verification/ArenaFree.v ===== *)
(** [radv_free_shader_memory]: the block becomes a hole that absorbs the holes beside it. *)

From stdpp Require Import gmap.
From S2P Require Import Prelude Pm4 ShaderArena ArenaLists ArenaInv ArenaAlloc ArenaTake ArenaInsert ArenaCreate.

(** * The holes beside a block *)

Lemma tiles_last bs aid l x pos ph stop ph' :
  tiles bs aid pos ph (l ++ [x]) stop ph' -> exists b, bs !! x = Some b /\ b_prev b = ph'.
Proof. intros (m&phm&_&(b&Hb&_&_&_&_&_&<-))%tiles_app. by exists b. Qed.

Definition block_of (d : arena_device) (x : option Z) (arena offset size : Z) : Prop :=
  match x with
  | Some x => exists nx, d_blocks d !! x = Some (Block arena offset size true nx) /\ 0 < size /\ size mod 256 = 0
  | None => size = 0
  end.

(** The allocation [id] with the holes before and after it, [po] and [no]. *)
Record around (d : arena_device) (id : Z) (b : radv_shader_arena_block) (a : radv_shader_arena)
    (l1 : list Z) (po no : option Z) (l2 : list Z) (psz nsz : Z) : Prop := Around {
  ar_block : d_blocks d !! id = Some b;
  ar_alloc : b_prev b = false;
  ar_arena : d_arenas d !! b_arena b = Some a;
  ar_entries : a_entries a = l1 ++ (olist po ++ [id] ++ olist no) ++ l2;
  ar_prev : block_of d po (b_arena b) (b_offset b - psz) psz;
  ar_next : block_of d no (b_arena b) (b_offset b + b_size b) nsz;
  ar_size : 0 < b_size b /\ b_size b mod 256 = 0;
  ar_bounds : 0 <= b_offset b - psz /\ b_offset b + b_size b + nsz <= a_size a < W32;
  ar_left : tiles (d_blocks d) (b_arena b) 0 false l1 (b_offset b - psz) false;
  ar_right : exists ph, tiles (d_blocks d) (b_arena b) (b_offset b + b_size b + nsz) true l2 (a_size a) ph;
  ar_get_prev : get_hole d (prev_of id (a_entries a)) = Some po;
  ar_get_next : get_hole d (next_of id (a_entries a)) = Some no
}.

Lemma around_prev d id b l1 m phm :
  core_inv d -> d_blocks d !! id = Some b -> id ∉ l1 ->
  tiles (d_blocks d) (b_arena b) 0 false l1 m phm ->
  exists l1' po psz, l1 = l1' ++ olist po /\ get_hole d (last l1) = Some po
    /\ block_of d po (b_arena b) (m - psz) psz
    /\ tiles (d_blocks d) (b_arena b) 0 false l1' (m - psz) false.
Proof.
  intros Hinv Hb Hn Ht. destruct l1 as [|x l _] using rev_ind.
  - destruct Ht as [-> <-]. exists [], None, 0. by rewrite Z.sub_0_r.
  - rewrite last_snoc. destruct (tiles_last _ _ _ _ _ _ _ _ Ht) as (xb&Hx&Hp). unfold get_hole. rewrite Hx.
    cbn [mbind option_bind]. destruct phm.
    + rewrite Hp. apply tiles_app in Ht as (m'&phm'&Hl&(xb'&Hx'&Hxa&Hxo&Hxs&Hpp&[<- _])).
      rewrite Hx in Hx'. injection Hx' as <-. rewrite Hp, andb_true_r in Hpp. subst phm'.
      exists l, (Some x), (b_size xb). rewrite Z.add_simpl_r. conj_done.
      split; [|done]. exists (b_next xb). split; [|done]. rewrite Hx. destruct xb; simpl in *. by subst.
    + rewrite Hp. exists (l ++ [x]), None, 0. rewrite app_nil_r, Z.sub_0_r. by conj_done.
Qed.

Lemma around_next d aid l2 m stop ph :
  tiles (d_blocks d) aid m false l2 stop ph ->
  exists l2' no nsz, l2 = olist no ++ l2' /\ get_hole d (head l2) = Some no
    /\ block_of d no aid m nsz
    /\ exists ph', tiles (d_blocks d) aid (m + nsz) true l2' stop ph'.
Proof.
  destruct l2 as [|x l]; simpl.
  - intros [-> _]. exists [], None, 0. rewrite Z.add_0_r. conj_done. by exists true.
  - intros (b&Hb&Ha&Ho&Hs&_&Ht). rewrite Hb. cbn [mbind option_bind]. destruct (b_prev b) eqn:Hp.
    + exists l, (Some x), (b_size b). conj_done. split; [|by exists ph].
      exists (b_next b). split; [|done]. rewrite Hb. destruct b; simpl in *. by subst.
    + exists (x :: l), None, 0. rewrite Z.add_0_r. conj_done. exists ph, b. rewrite Hp. by conj_done.
Qed.

Lemma block_of_bound d x arena o s : block_of d x arena o s -> 0 <= s.
Proof. destruct x; [intros (?&?&?&?); lia|intros ->; lia]. Qed.

Lemma tiles_le bs aid l : forall pos ph stop ph', tiles bs aid pos ph l stop ph' -> pos <= stop.
Proof.
  induction l as [|x l IH]; intros pos ph stop ph'; simpl; [lia|]. intros (b&?&?&?&?&?&?%IH). lia.
Qed.

Lemma around_ok d id b :
  core_inv d -> live d !! id = Some b -> exists a l1 po no l2 psz nsz, around d id b a l1 po no l2 psz nsz.
Proof.
  intros Hinv (Hb&Hp&a&Ha&Hin)%lookup_live. apply list_elem_of_split in Hin as (l1&l2&He).
  destruct (ci_arenas _ Hinv _ _ Ha) as (Hs&ph&Ht). rewrite He in Ht.
  pose proof (tiles_nodup _ _ _ _ _ _ _ Ht) as [Hn1 Hn2]%nodup_middle.
  apply tiles_app in Ht as (m&phm&Hl&(b'&Hb'&_&Ho&Hsz&_&Hr)). rewrite Hb in Hb'. injection Hb' as <-.
  rewrite Hp in Hr. subst m.
  destruct (around_prev d id b l1 _ phm Hinv Hb Hn1 Hl) as (l1'&po&psz&Hl1&Hgp&Hpo&Hl').
  destruct (around_next d _ l2 _ _ _ Hr) as (l2'&no&nsz&Hl2&Hgn&Hno&ph'&Hr').
  pose proof (tiles_le _ _ _ _ _ _ _ Hl'). pose proof (tiles_le _ _ _ _ _ _ _ Hr').
  exists a, l1', po, no, l2', psz, nsz. split; try done.
  - by rewrite He, Hl1, Hl2, <- !app_assoc.
  - by exists ph'.
  - rewrite He, prev_of_app by done. done.
  - rewrite He, next_of_app by done. done.
Qed.

(** * Absorbing a block *)

Definition fl_remove_opt (x : option Z) (size : Z) (fl : radv_shader_free_list) : radv_shader_free_list :=
  match x with Some x => fl_remove x (get_size_class size false) fl | None => fl end.

(** The hole [x] takes the bytes of [y], whose object goes to the pool. *)
Record absorbed (d d' : arena_device) (w : option free_list_name) (x y aid : Z) (a : radv_shader_arena)
    (offset size oldsize : Z) : Prop := Absorbed {
  ab_block : exists b, d_blocks d' !! x = Some b /\ b_arena b = aid /\ b_offset b = offset /\ b_size b = size;
  ab_blocks : forall i, i <> x -> d_blocks d' !! i = d_blocks d !! i;
  ab_arenas : d_arenas d' = <[aid := with_entries a (list_del y (a_entries a))]> (d_arenas d);
  ab_pool : d_block_obj_pool d' = y :: d_block_obj_pool d;
  ab_get : forall w', get_list w' d'
    = if decide (w = Some w') then fl_remove x (get_size_class oldsize false) (get_list w' d) else get_list w' d;
  ab_shader_arenas : d_shader_arenas d' = d_shader_arenas d;
  ab_vas : d_arena_vas d' = d_arena_vas d;
  ab_shift : d_arena_shift d' = d_arena_shift d;
  ab_clock : d_clock d' = d_clock d
}.

Lemma absorb_ok d w x y xb yb aid a offset size
    (k : arena_device -> radv_shader_arena_block -> radv_shader_arena_block -> arena_device) :
  d_blocks d !! x = Some xb -> d_blocks d !! y = Some yb -> x <> y ->
  b_arena xb = aid -> b_arena yb = aid -> d_arenas d !! aid = Some a ->
  (forall d1 xb1, b_arena xb1 = aid -> b_offset xb1 = b_offset xb -> b_size xb1 = b_size xb ->
     k d1 xb1 yb = set_block x (resize offset size xb1) d1) ->
  exists d', (let! d := opt_list w remove_hole x d ;;
              let! xb := d_blocks d !! x ;;
              let! b := d_blocks d !! y ;;
              let d := k d xb b in
              free_block_obj y d) = Some d'
    /\ absorbed d d' w x y aid a offset size (b_size xb).
Proof.
  intros Hx Hy Hne Hxa Hya Ha Hk. destruct w as [w|]; cbn [opt_list].
  - rewrite (remove_hole_eq _ _ _ _ Hx). cbn [mbind option_bind]. arena_simpl. rewrite Hk by done.
    unfold free_block_obj. arena_simpl. rewrite Hya, Ha. cbn [mbind option_bind].
    eexists. split; [done|]. split; cbn [d_blocks d_arenas with_pool]; arena_simpl; try done.
    + by eexists.
    + intros i Hi. by rewrite !lookup_insert_ne.
    + intros w'. arena_simpl. rewrite decide_some_list. by destruct (decide (w = w')) as [<-|].
  - cbn [mbind option_bind]. rewrite Hx, Hy. cbn [mbind option_bind]. rewrite Hk by done.
    unfold free_block_obj. arena_simpl. rewrite Hya, Ha. cbn [mbind option_bind].
    eexists. split; [done|]. split; cbn [d_blocks d_arenas with_pool]; arena_simpl; try done.
    + by eexists.
    + intros i Hi. by rewrite lookup_insert_ne.
Qed.

(** The freed block and the holes beside it are one block, not yet a hole again. *)
Record merged (d d2 : arena_device) (w : option free_list_name) (id : Z) (b : radv_shader_arena_block)
    (a : radv_shader_arena) (l1 : list Z) (po no : option Z) (l2 : list Z) (psz nsz hole : Z) : Prop := Merged {
  mg_block : exists hb, d_blocks d2 !! hole = Some hb /\ b_arena hb = b_arena b
                        /\ b_offset hb = b_offset b - psz /\ b_size hb = psz + b_size b + nsz;
  mg_hole : hole ∈ olist po ++ [id] ++ olist no;
  mg_blocks : forall i, i ∉ olist po ++ [id] ++ olist no -> d_blocks d2 !! i = d_blocks d !! i;
  mg_arenas : d_arenas d2 = <[b_arena b := with_entries a (l1 ++ [hole] ++ l2)]> (d_arenas d);
  mg_pool : exists ms, d_block_obj_pool d2 = ms ++ d_block_obj_pool d /\ NoDup ms
              /\ forall i, i ∈ ms -> (i ∈ olist po ++ [id] ++ olist no) /\ i <> hole;
  mg_get : forall w', get_list w' d2
    = if decide (w = Some w') then fl_remove_opt no nsz (fl_remove_opt po psz (get_list w' d)) else get_list w' d;
  mg_shader_arenas : d_shader_arenas d2 = d_shader_arenas d;
  mg_vas : d_arena_vas d2 = d_arena_vas d;
  mg_shift : d_arena_shift d2 = d_arena_shift d;
  mg_clock : d_clock d2 = d_clock d
}.

Lemma list_del_middle l1 x l2 : NoDup (l1 ++ x :: l2) -> list_del x (l1 ++ x :: l2) = l1 ++ l2.
Proof.
  intros [H1 H2]%nodup_middle. by rewrite list_del_app, list_del_cons_eq, !list_del_notin.
Qed.

Section Merge.
Context (d : arena_device) (Hinv : core_inv d).
Context (id : Z) (b : radv_shader_arena_block) (a : radv_shader_arena) (l1 l2 : list Z).
Context (po no : option Z) (psz nsz : Z) (Har : around d id b a l1 po no l2 psz nsz).
Context (w : option free_list_name).

Lemma around_nodup : NoDup (l1 ++ (olist po ++ [id] ++ olist no) ++ l2).
Proof using Hinv Har.
  rewrite <- (ar_entries _ _ _ _ _ _ _ _ _ _ Har). eapply entries_nodup; [done|apply (ar_arena _ _ _ _ _ _ _ _ _ _ Har)].
Qed.

(** The hole before. *)
Lemma merge_prev_ok : exists d1,
  merge_prev w po id d = Some (default id po, d1)
  /\ (exists hb, d_blocks d1 !! default id po = Some hb /\ b_arena hb = b_arena b
        /\ b_offset hb = b_offset b - psz /\ b_size hb = psz + b_size b)
  /\ (forall i, i ∉ olist po ++ [id] -> d_blocks d1 !! i = d_blocks d !! i)
  /\ d_arenas d1 = <[b_arena b := with_entries a (l1 ++ default id po :: olist no ++ l2)]> (d_arenas d)
  /\ d_block_obj_pool d1 = match po with Some _ => [id] | None => [] end ++ d_block_obj_pool d
  /\ (forall w', get_list w' d1 = if decide (w = Some w') then fl_remove_opt po psz (get_list w' d) else get_list w' d)
  /\ d_shader_arenas d1 = d_shader_arenas d /\ d_arena_vas d1 = d_arena_vas d
  /\ d_arena_shift d1 = d_arena_shift d /\ d_clock d1 = d_clock d.
Proof using Hinv Har.
  pose proof around_nodup as Hnd. destruct Har as [Hb Hp Ha He Hpo Hno Hsz Hbd _ _ _ _].
  destruct po as [p|]; cbn [merge_prev default olist].
  - destruct Hpo as (nx&Hpb&Hps).
    assert (Hne : p <> id).
    { intros ->. rewrite Hb in Hpb. injection Hpb as Hpb. by rewrite Hpb in Hp. }
    edestruct (absorb_ok d w p id (Block (b_arena b) (b_offset b - psz) psz true nx) b (b_arena b) a (b_offset b - psz) (psz + b_size b)
      (fun d pb b => set_block p (resize (b_offset pb) (u32 (b_size pb + b_size b)) pb) d)) as (d'&Heq&Hab); try done.
    { intros d1 xb1 _ Ho Hs. rewrite Ho, Hs. simpl. pose proof (block_of_bound _ _ _ _ _ Hno). by unwrap. }
    exists d'. split.
    { destruct (opt_list w remove_hole p d) as [d0|]; [|done]. cbn [mbind option_bind] in Heq |- *.
      destruct (d_blocks d0 !! p); [|done]. cbn [mbind option_bind] in Heq |- *.
      destruct (d_blocks d0 !! id); [|done]. cbn [mbind option_bind] in Heq |- *. by rewrite Heq. }
    destruct Hab as [B Bs A P G SA V S C]. conj_done. split.
    { intros i Hi. apply Bs. simpl in Hi. elem_simpl. naive_solver. }
    split; [|by conj_done]. rewrite A, He. do 2 f_equal.
    change ((olist (Some p) ++ [id] ++ olist no) ++ l2) with ([p] ++ id :: (olist no ++ l2)) in *.
    rewrite app_assoc in Hnd |- *. rewrite list_del_middle by done. by rewrite <- app_assoc.
  - simpl in Hpo. subst psz. exists d. split; [done|]. rewrite Z.sub_0_r.
    split; [by eexists|]. conj_done. split; [rewrite with_entries_id by done; by rewrite insert_id|].
    conj_done. split; [|done]. intros w'. by destruct (decide _).
Qed.

(** Both holes. *)
Lemma merges_ok : exists hole d2,
  (let! (hole, d) := merge_prev w po id d ;; merge_next w no hole d) = Some (hole, d2)
  /\ merged d d2 w id b a l1 po no l2 psz nsz hole.
Proof using Hinv Har.
  pose proof around_nodup as Hnd.
  destruct merge_prev_ok as (d1&->&(hb&Hhb&Hba&Hbo&Hbz)&Bs&A&P&G&SA&V&S&C). cbn [mbind option_bind].
  set (h1 := default id po) in *.
  destruct Har as [Hb Hp Ha He Hpo Hno Hsz Hbd _ _ _ _].
  assert (Hh1 : h1 ∈ olist po ++ [id]).
  { subst h1. destruct po; simpl; [apply list_elem_of_here|apply list_elem_of_here]. }
  assert (Hnd1 : NoDup (l1 ++ h1 :: olist no ++ l2)).
  { subst h1. destruct po as [p|]; [|done].
    change ((olist (Some p) ++ [id] ++ olist no) ++ l2) with ([p] ++ id :: (olist no ++ l2)) in Hnd.
    rewrite (app_assoc l1 [p]) in Hnd. apply NoDup_app in Hnd as (H1&H2&H3). apply NoDup_cons in H3 as [_ H3].
    change (default id (Some p)) with p.
    replace (l1 ++ p :: olist no ++ l2) with ((l1 ++ [p]) ++ (olist no ++ l2)) by (by rewrite <- app_assoc).
    apply NoDup_app. split; [done|]. split; [|done]. intros x Hx Hx'. apply (H2 x Hx).
    by apply list_elem_of_further. }
  destruct no as [n|]; cbn [merge_next olist] in *.
  - destruct Hno as (nx&Hnb&Hns).
    assert (Hnn : n ∉ olist po ++ [id]).
    { intros Hin. apply NoDup_app in Hnd as (_&_&Hnd). apply NoDup_app in Hnd as (Hnd&_&_).
      rewrite app_assoc in Hnd. apply NoDup_app in Hnd as (_&Hnd&_). apply (Hnd n Hin), list_elem_of_here. }
    assert (Hne : n <> h1) by (by intros ->).
    pose proof (Bs n Hnn) as Hnb1. rewrite Hnb in Hnb1.
    edestruct (absorb_ok d1 w n h1 (Block (b_arena b) (b_offset b + b_size b) nsz true nx) hb (b_arena b)
      (with_entries a (l1 ++ h1 :: [n] ++ l2)) (b_offset b - psz) (psz + b_size b + nsz)
      (fun d nb b => set_block n (resize (u32 (b_offset nb - b_size b)) (u32 (b_size nb + b_size b)) nb) d))
      as (d'&Heq&Hab); try done.
    { by rewrite A, lookup_insert_eq. }
    { intros d2 xb1 _ Ho Hs. rewrite Ho, Hs, Hbz. simpl. pose proof (block_of_bound _ _ _ _ _ Hpo).
      unwrap. f_equal. f_equal; lia. }
    exists n, d'. split.
    { destruct (opt_list w remove_hole n d1) as [d0|]; [|done]. cbn [mbind option_bind] in Heq |- *.
      destruct (d_blocks d0 !! n); [|done]. cbn [mbind option_bind] in Heq |- *.
      destruct (d_blocks d0 !! h1); [|done]. cbn [mbind option_bind] in Heq |- *. by rewrite Heq. }
    destruct Hab as [B' Bs' A' P' G' SA' V' S' C'].
    split; [done| | | | | | | | |].
    + rewrite !elem_of_app. right; right. apply list_elem_of_here.
    + intros i Hi. rewrite app_assoc, elem_of_app in Hi. simpl in Hi. rewrite Bs'; [apply Bs; naive_solver|].
      intros ->. apply Hi. right. apply list_elem_of_here.
    + rewrite A', A, insert_insert_eq. do 2 f_equal. unfold with_entries. simpl. f_equal.
      by rewrite list_del_middle.
    + exists (h1 :: match po with Some _ => [id] | None => [] end). rewrite P', P. split; [done|].
      split; [|intros i Hi; split].
      * subst h1. destruct po as [p|]; [|apply NoDup_singleton]. simpl. apply NoDup_cons.
        split; [|apply NoDup_singleton]. rewrite list_elem_of_singleton. intros ->.
        apply NoDup_app in Hnd as (_&_&Hnd). apply NoDup_app in Hnd as (Hnd&_&_). inversion Hnd as [|?? Hout].
        apply Hout, list_elem_of_here.
      * rewrite app_assoc, elem_of_app. left. subst h1. destruct po as [p|]; simpl in *; [|done]. exact Hi.
      * intros ->. apply Hnn. subst h1. destruct po as [p|]; simpl in *; done.
    + intros w'. rewrite G', G. by destruct (decide (w = Some w')).
    + by rewrite SA', SA.
    + by rewrite V', V.
    + by rewrite S', S.
    + by rewrite C', C.
  - simpl in Hno. subst nsz. exists h1, d1. split; [done|]. split; try done.
    + exists hb. by rewrite Z.add_0_r.
    + eexists. split; [exact P|]. split; [destruct po; [apply NoDup_singleton|constructor]|].
      intros i Hi. subst h1. destruct po as [p|]; [|by apply elem_of_nil in Hi].
      apply list_elem_of_singleton in Hi as ->. simpl. split; [right; apply list_elem_of_here|].
      intros ->. apply NoDup_app in Hnd as (_&_&Hnd). apply NoDup_app in Hnd as (Hnd&_&_). inversion Hnd as [|?? Hout].
      apply Hout, list_elem_of_here.
Qed.

End Merge.

(** * The arena goes away *)

Section Destroy.
Context (d d' : arena_device) (Hinv : core_inv d) (aid : Z) (a : radv_shader_arena).
Context (Ha : d_arenas d !! aid = Some a) (Hars : d_arenas d' = delete aid (d_arenas d)).
Context (Hbs : forall i, i ∉ a_entries a -> d_blocks d' !! i = d_blocks d !! i).

Lemma destroy_other aid' a' i :
  d_arenas d' !! aid' = Some a' -> i ∈ a_entries a' ->
  d_arenas d !! aid' = Some a' /\ aid' <> aid /\ d_blocks d' !! i = d_blocks d !! i.
Proof using Hinv Ha Hars Hbs.
  rewrite Hars. intros [Hne Ha']%lookup_delete_Some Hin. split; [done|]. split; [done|].
  apply Hbs. intros Hi. apply Hne. by eapply linked_unique.
Qed.

Lemma destroy_linked i : linked d' i <-> linked d i /\ (i ∉ a_entries a).
Proof using Hinv Ha Hars Hbs.
  split.
  - intros (aid'&a'&Ha'&Hin). destruct (destroy_other _ _ _ Ha' Hin) as (H1&Hne&_).
    split; [by exists aid', a'|]. intros Hi. apply Hne. by eapply linked_unique.
  - intros ((aid'&a'&Ha'&Hin)&Hi). exists aid', a'. split; [|done]. rewrite Hars.
    apply lookup_delete_Some. split; [|done]. intros <-. rewrite Ha in Ha'. by injection Ha' as <-.
Qed.

Lemma destroy_blocks (R : radv_shader_arena_block -> radv_shader_arena_type -> Prop) i b :
  (d_blocks d' !! i = Some b /\ exists a', d_arenas d' !! b_arena b = Some a' /\ i ∈ a_entries a' /\ R b (a_type a'))
  <-> (i ∉ a_entries a) /\ d_blocks d !! i = Some b
      /\ exists a', d_arenas d !! b_arena b = Some a' /\ i ∈ a_entries a' /\ R b (a_type a').
Proof using Hinv Ha Hars Hbs.
  split.
  - intros (Hb&a'&Ha'&Hin&HR). destruct (destroy_other _ _ _ Ha' Hin) as (H1&Hne&Heq).
    rewrite Heq in Hb. split; [|split; [done|by exists a']]. intros Hi. apply Hne. by eapply linked_unique.
  - intros (Hi&Hb&a'&Ha'&Hin&HR). rewrite Hbs by done. split; [done|]. exists a'. split; [|done].
    rewrite Hars. apply lookup_delete_Some. split; [|done]. intros Heq. rewrite <- Heq, Ha in Ha'. by injection Ha' as <-.
Qed.

Lemma destroy_live i b : live d' !! i = Some b <-> (i ∉ a_entries a) /\ live d !! i = Some b.
Proof using Hinv Ha Hars Hbs.
  rewrite !lookup_live. pose proof (destroy_blocks (fun b _ => b_prev b = false) i b) as HR. naive_solver.
Qed.

Lemma destroy_holes w i c : holes_in d' w i c <-> (i ∉ a_entries a) /\ holes_in d w i c.
Proof using Hinv Ha Hars Hbs.
  unfold holes_in. pose proof (fun b => destroy_blocks (fun b t => arena_free_list t = Some w /\ b_prev b = true
    /\ c = get_size_class (b_size b) false) i b) as HR. split.
  - intros (b&a'&Hb&Ha'&Hin&H). destruct (HR b) as [(?&?&a2&?&?&?) _]; [split; [done|by exists a']|].
    split; [done|]. by exists b, a2.
  - intros (Hi&b&a'&Hb&Ha'&Hin&H). destruct (HR b) as [_ (?&a2&?&?&?)]; [split; [done|]; split; [done|by exists a']|].
    by exists b, a2.
Qed.

Lemma destroy_core ms :
  d_block_obj_pool d' = ms ++ d_block_obj_pool d -> NoDup ms -> (forall i, i ∈ ms -> i ∈ a_entries a) ->
  (forall w, list_ok (get_list w d') (fun i c => (i ∉ a_entries a) /\ holes_in d w i c)) ->
  d_clock d' = d_clock d -> d_arena_vas d' = filter (fun kv => kv.2 <> aid) (d_arena_vas d) -> core_inv d'.
Proof using Hinv Ha Hars Hbs.
  intros Hp Hnd Hms Hl Hc Hv. split.
  - intros aid' a' Ha'. assert (Ha0 := Ha'). rewrite Hars in Ha0. apply lookup_delete_Some in Ha0 as [_ Ha0].
    destruct (ci_arenas _ Hinv _ _ Ha0) as (?&ph&Ht). split; [done|]. exists ph. eapply tiles_frame; [|done].
    intros i Hi. by destruct (destroy_other _ _ _ Ha' Hi) as (_&_&?).
  - intros w. eapply list_ok_iff; [|apply Hl]. intros i c _. by rewrite destroy_holes.
  - rewrite Hp. apply NoDup_app. split; [done|]. split; [|apply (ci_pool_nodup _ Hinv)].
    intros i Hi%Hms Hin. destruct (ci_pool _ Hinv i Hin) as [[] _]. by exists aid, a.
  - intros i. rewrite Hp, elem_of_app, destroy_linked, Hc. intros [Hi%Hms|Hi].
    + split; [naive_solver|]. apply (ci_linked _ Hinv). by exists aid, a.
    + destruct (ci_pool _ Hinv i Hi). split; [naive_solver|done].
  - intros i. rewrite destroy_linked, Hc. intros [Hi _]. by apply (ci_linked _ Hinv).
  - intros aid' [a' Ha']. rewrite Hars in Ha'. apply lookup_delete_Some in Ha' as [_ Ha']. rewrite Hc.
    apply (ci_aids _ Hinv). by exists a'.
  - intros va aid'. rewrite Hv. intros [Hva Hne]%map_lookup_filter_Some. simpl in Hne.
    destruct (ci_vas _ Hinv _ _ Hva) as (a'&Ha'&Ht). exists a'. split; [|done]. rewrite Hars.
    apply lookup_delete_Some. by split.
  - intros va va' aid'. rewrite Hv. intros [H1 _]%map_lookup_filter_Some [H2 _]%map_lookup_filter_Some.
    by eapply (ci_vas_inj _ Hinv).
Qed.

End Destroy.

(** * The operation *)

Section Free.
Context (d : arena_device) (Hai : arena_inv d).
Context (id : Z) (b : radv_shader_arena_block) (a : radv_shader_arena) (l1 l2 : list Z).
Context (po no : option Z) (psz nsz : Z) (Har : around d id b a l1 po no l2 psz nsz).

Lemma free_old_linked i : i ∈ (olist po ++ [id] ++ olist no) -> linked d i.
Proof using Har.
  intros Hi. exists (b_arena b), a. split; [apply (ar_arena _ _ _ _ _ _ _ _ _ _ Har)|].
  rewrite (ar_entries _ _ _ _ _ _ _ _ _ _ Har), !elem_of_app in *. naive_solver.
Qed.

(** The blocks beside the freed one are holes. *)
Lemma free_live i : live (d) !! i <> None -> i ∈ (olist po ++ [id] ++ olist no) -> i = id.
Proof using Har.
  intros Hl Hi. destruct (live d !! i) as [bi|] eqn:E; [|done]. apply lookup_live in E as (Hb&Hp&_).
  rewrite !elem_of_app, list_elem_of_singleton in Hi. destruct Hi as [Hi|[->|Hi]]; [|done|].
  - pose proof (ar_prev _ _ _ _ _ _ _ _ _ _ Har) as Hpo. apply elem_olist in Hi as ->.
    destruct Hpo as (nx&Hpb&_). rewrite Hb in Hpb. by injection Hpb as ->.
  - pose proof (ar_next _ _ _ _ _ _ _ _ _ _ Har) as Hno. apply elem_olist in Hi as ->.
    destruct Hno as (nx&Hnb&_). rewrite Hb in Hnb. by injection Hnb as ->.
Qed.

(** The free list after both removals. *)
Lemma free_list_ok w : arena_free_list (a_type a) = Some w ->
  list_ok (fl_remove_opt no nsz (fl_remove_opt po psz (get_list w d)))
    (fun i c => (i ∉ (olist po ++ [id] ++ olist no)) /\ holes_in d w i c).
Proof using Hai Har.
  intros Hw. pose proof (ai_core _ Hai) as Hinv.
  assert (Hid : forall c, ~ holes_in d w id c).
  { intros c (b'&_&Hb'&_&_&_&Hp&_). rewrite (ar_block _ _ _ _ _ _ _ _ _ _ Har) in Hb'. injection Hb' as <-.
    by rewrite (ar_alloc _ _ _ _ _ _ _ _ _ _ Har) in Hp. }
  assert (Hrm : forall x off size P fl, block_of d x (b_arena b) off size -> list_ok fl P ->
    (forall i c, P i c -> holes_in d w i c) -> list_ok (fl_remove_opt x size fl) (fun i c => x <> Some i /\ P i c)).
  { intros x off size P fl Hx Hfl HP. destruct x as [x|]; cbn [fl_remove_opt].
    - destruct Hx as (nx&Hxb&_). eapply list_ok_iff; [|apply fl_remove_ok; [apply get_size_class_range|done|]].
      + intros i c _. simpl. naive_solver.
      + intros c Hc%HP _. left. by rewrite (holes_class _ _ _ _ _ Hc Hxb).
    - eapply list_ok_iff; [|done]. naive_solver. }
  eapply list_ok_iff; [|eapply Hrm; [apply (ar_next _ _ _ _ _ _ _ _ _ _ Har)|eapply Hrm;
    [apply (ar_prev _ _ _ _ _ _ _ _ _ _ Har)|apply (ci_lists _ Hinv)|done]|naive_solver]].
  intros i c _. rewrite !elem_of_app, list_elem_of_singleton, !elem_olist. simpl.
  split; [|naive_solver]. intros (H1&H2&H3). split; [|done]. intros [?|[->|?]]; [done| |done]. by eapply Hid.
Qed.

Context (d2 : arena_device) (hole : Z).
Context (Hm : merged d d2 (arena_free_list (a_type a)) id b a l1 po no l2 psz nsz hole).

(** Not the last block: a hole. *)
Lemma free_keep d4 hb :
  d_blocks d2 !! hole = Some hb -> l1 ++ [hole] ++ l2 <> [hole] ->
  d_blocks d4 = <[hole := link_free hb]> (d_blocks d2) -> d_arenas d4 = d_arenas d2 ->
  d_block_obj_pool d4 = d_block_obj_pool d2 -> d_shader_arenas d4 = d_shader_arenas d2 ->
  d_arena_vas d4 = d_arena_vas d2 -> d_arena_shift d4 = d_arena_shift d2 -> d_clock d4 = d_clock d2 ->
  (forall w, get_list w d4 = if decide (arena_free_list (a_type a) = Some w)
                             then fl_add hole (get_size_class (b_size hb) false) (get_list w d2)
                             else get_list w d2) ->
  arena_inv d4 /\ live d4 = delete id (live d).
Proof using Hai Har Hm.
  intros Hhb Hmore B A P SA V S C G. pose proof (ai_core _ Hai) as Hinv.
  pose proof free_list_ok as Hfl. pose proof free_old_linked as Hol. pose proof free_live as Hfv.
  destruct Har as [Hb Hp Ha He Hpo Hno Hsz Hbd Hl [phr Hr] _ _].
  pose proof Hm as [(hb'&Hhb'&Hhba&Hhbo&Hhbz) Hhole Hbs Hars (ms&Hpool&Hnms&Hms) Hget Hsa Hv Hsh Hcl].
  rewrite Hhb in Hhb'. injection Hhb' as <-.
  pose proof (block_of_bound _ _ _ _ _ Hpo). pose proof (block_of_bound _ _ _ _ _ Hno).
  assert (Hh4 : d_blocks d4 !! hole = Some (link_free hb)) by (by rewrite B, lookup_insert_eq).
  assert (Hbs4 : forall i, i ∉ (olist po ++ [id] ++ olist no) -> d_blocks d4 !! i = d_blocks d !! i).
  { intros i Hi. rewrite B, lookup_insert_ne by (by intros ->). by apply Hbs. }
  pose proof (entries_nodup d Hinv _ _ Ha) as Hnd. rewrite He in Hnd.
  apply NoDup_app in Hnd as (Hnd1&Hd1&Hnd2). apply NoDup_app in Hnd2 as (Hnd2&Hd2&Hnd3).
  assert (psz mod 256 = 0 /\ nsz mod 256 = 0) as [Hpm Hnm].
  { split; [destruct po; [by destruct Hpo as (?&_&_&?)|by rewrite Hpo]|
            destruct no; [by destruct Hno as (?&_&_&?)|by rewrite Hno]]. }
  assert (Hsp : splice d d4 (b_arena b) a l1 (olist po ++ [id] ++ olist no) [hole] l2
     (fun fl => fl_add hole (get_size_class (b_size hb) false) (fl_remove_opt no nsz (fl_remove_opt po psz fl)))).
  { split; try done.
    - by rewrite A.
    - intros i Hi _. by apply Hbs4.
    - intros i ->%list_elem_of_singleton. by left.
    - apply arena_split. split; [apply Hbd|].
      exists (b_offset b - psz), false, (b_offset b + b_size b + nsz), true, phr. split; [|split].
      + eapply tiles_frame; [|done]. intros i Hi. apply Hbs4. intros Ho. apply (Hd1 i Hi).
        rewrite elem_of_app. by left.
      + eexists. split; [exact Hh4|]. simpl. split; [done|]. split; [done|]. split; [|split; [done|split; [lia|done]]].
        rewrite Hhbz. split; [lia|]. rewrite Zplus_mod, (Zplus_mod psz), Hpm, (proj2 Hsz), Hnm. done.
      + eapply tiles_frame; [|done]. intros i Hi. apply Hbs4. intros Ho. by apply (Hd2 i Ho).
    - intros w'. rewrite G, Hget. by destruct (decide _).
    - intros w' Hw'. eapply list_ok_iff; [|apply fl_add_ok; [apply get_size_class_range|by apply Hfl|naive_solver]].
      intros i c _. simpl. rewrite list_elem_of_singleton. split.
      + intros [[-> ->]|?]; [|by right]. left. split; [done|]. by exists (link_free hb).
      + intros [[-> (b'&Hb'&_&->)]|?]; [|by right]. rewrite Hh4 in Hb'. injection Hb' as <-. by left.
    - rewrite P, Hpool. apply NoDup_app. split; [done|]. split; [|apply (ci_pool_nodup _ Hinv)].
      intros i [Hi _]%Hms Hin. destruct (ci_pool _ Hinv i Hin) as [[] _]. by apply Hol.
    - intros i. rewrite P, Hpool, elem_of_app, list_elem_of_singleton. intros [Hi%Hms|]; [right|by left]. done.
    - rewrite C, Hcl. lia.
    - by rewrite V.
    - by rewrite SA.
    - by rewrite S. }
  destruct (splice_sound _ _ _ _ _ _ _ _ _ Hinv Hsp) as (Hcore&Hlive&Hkeep). split.
  - apply (keeps_arenas_inv d); [done|done|]. apply Hkeep. intros _.
    assert (Hok := sp_ok _ _ _ _ _ _ _ _ _ Hsp). apply arena_split in Hok as (_&m&phm&s&phs&ph&T1&T2&T3).
    destruct T2 as (b'&Hb'&_&_&_&Hpp&[_ Hps]). rewrite Hh4 in Hb'. injection Hb' as <-. simpl in Hpp, Hps. subst phs.
    destruct l2 as [|y l2'].
    + destruct l1 as [|y l1' _] using rev_ind; [done|].
      destruct (tiles_last _ _ _ _ _ _ _ _ T1) as (yb&Hy&Hyp). exists y, yb.
      split; [simpl; rewrite !elem_of_app; left; right; apply list_elem_of_here|]. split; [done|].
      rewrite Hyp. by destruct phm.
    + destruct T3 as (yb&Hy&_&_&_&Hyp&_). exists y, yb.
      split; [simpl; rewrite elem_of_app; right; right; apply list_elem_of_here|done].
  - apply map_eq_some. intros i bi. rewrite Hlive, lookup_delete_Some, list_elem_of_singleton.
    split.
    + intros [(->&Hb'&Hp')|[Ho Hli]]; [rewrite Hh4 in Hb'; by injection Hb' as <-|].
      split; [|done]. intros <-. apply Ho. rewrite !elem_of_app, list_elem_of_singleton. auto.
    + intros [Hne Hli]. right. split; [|done]. intros Ho. apply Hne. symmetry. apply Hfv; [congruence|done].
Qed.

(** The last block: the arena is destroyed. *)
Lemma free_last : l1 ++ [hole] ++ l2 = [hole] ->
  exists d3, free_block_obj hole d2 = Some d3
    /\ arena_inv (destroy_arena (b_arena b) d3) /\ live (destroy_arena (b_arena b) d3) = delete id (live d).
Proof using Hai Har Hm.
  intros Hone. pose proof (ai_core _ Hai) as Hinv.
  pose proof free_list_ok as Hfl. pose proof free_live as Hfv.
  destruct Har as [Hb Hp Ha He Hpo Hno Hsz Hbd Hl [phr Hr] _ _].
  pose proof Hm as [(hb&Hhb&Hhba&_&_) Hhole Hbs Hars (ms&Hpool&Hnms&Hms) Hget Hsa Hv Hsh Hcl].
  assert (Hl1 : l1 = []) by (destruct l1 as [|? [|]]; [done|injection Hone; by destruct l2|done]).
  assert (Hl2 : l2 = []) by (rewrite Hl1 in Hone; by injection Hone).
  assert (Hent : a_entries a = olist po ++ [id] ++ olist no) by (by rewrite He, Hl1, Hl2, app_nil_r).
  unfold free_block_obj. rewrite Hhb. cbn [mbind option_bind]. rewrite Hhba, Hars, lookup_insert_eq.
  cbn [mbind option_bind]. eexists. split; [done|]. set (d4 := destroy_arena _ _).
  assert (A4 : d_arenas d4 = delete (b_arena b) (d_arenas d)).
  { subst d4. simpl. rewrite Hars. apply map_eq. intros i. destruct (decide (i = b_arena b)) as [->|].
    - by rewrite !lookup_delete_eq.
    - by rewrite !lookup_delete_ne, !lookup_insert_ne. }
  assert (B4 : forall i, i ∉ a_entries a -> d_blocks d4 !! i = d_blocks d !! i).
  { intros i Hi. rewrite Hent in Hi. by apply Hbs. }
  assert (G4 : forall w, get_list w d4 = get_list w d2) by (by intros []).
  assert (Hcore : core_inv d4).
  { apply (destroy_core d d4 Hinv (b_arena b) a Ha A4 B4 (hole :: ms)).
    - subst d4. simpl. by rewrite Hpool.
    - apply NoDup_cons. split; [|done]. intros Hi%Hms. naive_solver.
    - intros i [->|Hi%Hms]%elem_of_cons; rewrite Hent; naive_solver.
    - intros w. rewrite G4, Hget, Hent. destruct (decide _) as [Hw|Hw]; [by apply Hfl|].
      eapply list_ok_iff; [|apply (ci_lists _ Hinv)]. intros i c _. split; [|naive_solver]. intros Hh. split; [|done].
      rewrite <- Hent. intros Hi. destruct Hh as (bi&ai&Hbi&Hai'&_&Hwi&_).
      rewrite (linked_arena d Hinv _ _ _ _ Ha Hi Hbi), Ha in Hai'. by simplify_eq.
    - done.
    - subst d4. simpl. by rewrite Hv. }
  split; [split; [done|..]|].
  - subst d4. simpl. rewrite Hsa. apply nodup_list_del, (ai_nodup _ Hai).
  - intros aid'. rewrite A4. subst d4. simpl. rewrite Hsa, elem_list_del, (ai_known _ Hai).
    destruct (decide (aid' = b_arena b)) as [->|].
    + rewrite lookup_delete_eq. split; [by intros []|by intros [? ?]].
    + rewrite lookup_delete_ne by done. naive_solver.
  - intros aid' a' Ha'. assert (Ha0 := Ha'). rewrite A4 in Ha0. apply lookup_delete_Some in Ha0 as [Hne Ha0].
    intros Ht. destruct (ai_used _ Hai _ _ Ha0 Ht) as (i&bi&Hi&Hbi&?). exists i, bi.
    by destruct (destroy_other d d4 Hinv _ _ Ha A4 B4 _ _ i Ha' Hi) as (_&_&->).
  - subst d4. simpl. rewrite Hsh. apply (ai_shift _ Hai).
  - apply map_eq_some. intros i bi. rewrite (destroy_live d d4 Hinv (b_arena b) a Ha A4 B4), lookup_delete_Some, Hent.
    split.
    + intros [Ho Hli]. split; [|done]. intros <-. apply Ho. rewrite !elem_of_app, list_elem_of_singleton. auto.
    + intros [Hne Hli]. split; [|done]. intros Ho. apply Hne. symmetry. apply Hfv; [congruence|done].
Qed.

End Free.

(** Freeing an allocation always succeeds, and is the opposite of allocating it. *)
Lemma radv_free_shader_memory_ok d id b :
  arena_inv d -> live d !! id = Some b ->
  exists d', radv_free_shader_memory (Some id) d = Some d' /\ arena_inv d' /\ live d' = delete id (live d).
Proof.
  intros Hai Hl. pose proof (ai_core _ Hai) as Hinv.
  destruct (around_ok d id b Hinv Hl) as (a&l1&po&no&l2&psz&nsz&Har).
  destruct (merges_ok d Hinv id b a l1 l2 po no psz nsz Har (arena_free_list (a_type a))) as (hole&d2&Heq&Hm).
  unfold radv_free_shader_memory. rewrite (ar_block _ _ _ _ _ _ _ _ _ _ Har). cbn [mbind option_bind].
  rewrite (ar_arena _ _ _ _ _ _ _ _ _ _ Har). cbn [mbind option_bind].
  rewrite (ar_get_prev _ _ _ _ _ _ _ _ _ _ Har), (ar_get_next _ _ _ _ _ _ _ _ _ _ Har). cbn [mbind option_bind].
  destruct (merge_prev _ po id d) as [[h1 d1]|]; [|done]. cbn [mbind option_bind] in Heq |- *. rewrite Heq.
  cbn [mbind option_bind]. destruct (mg_block _ _ _ _ _ _ _ _ _ _ _ _ _ Hm) as (hb&Hhb&Hhba&_).
  rewrite Hhb. cbn [mbind option_bind]. rewrite Hhba, (mg_arenas _ _ _ _ _ _ _ _ _ _ _ _ _ Hm), lookup_insert_eq.
  cbn [mbind option_bind]. case_bool_decide as Hone.
  - destruct (free_last d Hai id b a l1 l2 po no psz nsz Har d2 hole Hm Hone) as (d3&->&?&?).
    cbn [mbind option_bind]. by eexists.
  - destruct (arena_free_list (a_type a)) as [w|] eqn:Ew.
    + rewrite (add_hole_eq _ _ _ _ Hhb). eexists. split; [done|].
      rewrite <- Ew in Hm. eapply (free_keep d Hai id b a l1 l2 po no psz nsz Har d2 hole Hm _ hb);
        arena_simpl; try done.
      intros w'. arena_simpl. rewrite Ew, decide_some_list. by destruct (decide (w = w')) as [<-|].
    + eexists. split; [done|]. rewrite <- Ew in Hm.
      eapply (free_keep d Hai id b a l1 l2 po no psz nsz Har d2 hole Hm _ hb); arena_simpl; try done.
      intros w'. by rewrite Ew.
Qed.
