(* ===== verification/ArenaReplay.v ===== *)
(** [radv_replay_shader_arena_block]: a block at the place a capture recorded. *)

From stdpp Require Import gmap.
From S2P Require Import Prelude Pm4 ShaderArena ArenaLists ArenaInv ArenaAlloc ArenaTake ArenaInsert ArenaCreate ArenaFree.

(** A handle a capture may have written. *)
Record handle_ok (src : radv_serialized_shader_arena_block) : Prop := HandleOk {
  hk_offset : 0 <= s_offset src /\ s_offset src mod 256 = 0;
  hk_size : 0 < s_size src /\ s_size src mod 256 = 0;
  hk_end : s_offset src + s_size src <= s_arena_size src;
  hk_arena : s_arena_size src < W32 /\ s_arena_size src mod 256 = 0;
  hk_va : s_arena_va src <> 0
}.

(** * The search for the hole *)

Definition covers (b : radv_shader_arena_block) (lo hi : Z) : Prop :=
  b_prev b = true /\ b_offset b <= lo /\ hi <= b_offset b + b_size b.

(** The loop finds the hole that covers the range, if there is one. *)
Lemma replay_hole_ok d aid l : forall pos ph stop ph' lo hi,
  tiles (d_blocks d) aid pos ph l stop ph' -> 0 <= pos -> stop < W32 -> lo < hi ->
  (replay_hole d lo hi l = Some None
   /\ forall h b, h ∈ l -> d_blocks d !! h = Some b -> ~ covers b lo hi)
  \/ exists h b, replay_hole d lo hi l = Some (Some h) /\ h ∈ l /\ d_blocks d !! h = Some b /\ covers b lo hi.
Proof.
  induction l as [|x l IH]; intros pos ph stop ph' lo hi Ht Hpos Hstop Hlt; cbn [replay_hole].
  - left. split; [done|]. by intros h b ?%elem_of_nil.
  - pose proof Ht as (b&Hb&_&Ho&Hs&_&Ht'). pose proof (tiles_le _ _ _ _ _ _ _ Ht') as Hle.
    rewrite Hb. cbn [mbind option_bind].
    assert (Hrest : ~ covers b lo hi ->
      (replay_hole d lo hi l = Some None /\ (forall h b, h ∈ x :: l -> d_blocks d !! h = Some b -> ~ covers b lo hi))
      \/ exists h b, replay_hole d lo hi l = Some (Some h) /\ h ∈ x :: l /\ d_blocks d !! h = Some b /\ covers b lo hi).
    { intros Hnc. destruct (IH _ _ _ _ lo hi Ht') as [[-> Hn]|(h&bh&->&Hh&?&?)]; try lia; [left|right].
      - split; [done|]. intros h bh [->|Hh]%elem_of_cons Hbh; [by rewrite Hb in Hbh; injection Hbh as <-|eauto].
      - exists h, bh. split; [done|]. by split; [apply list_elem_of_further|]. }
    destruct (b_prev b) eqn:Hp; simpl negb; cbv iota; [|apply Hrest; intros (?&_); congruence].
    unwrap. destruct (Z.ltb_spec (b_offset b + b_size b) hi) as [Hlt'|Hge].
    { apply Hrest. intros (_&_&?). lia. }
    destruct (Z.ltb_spec lo (b_offset b)) as [Hlo|Hlo].
    + left. split; [done|]. intros h bh [->|Hh]%elem_of_cons Hbh (_&Hc&_).
      * rewrite Hb in Hbh. injection Hbh as <-. lia.
      * destruct (tiles_elem _ _ _ _ _ _ _ _ Ht' Hh) as (bh'&Hbh'&_&?&_). rewrite Hbh in Hbh'. injection Hbh' as <-. lia.
    + right. exists x, b. split; [done|]. split; [apply list_elem_of_here|]. by split.
Qed.

(** A range that meets no allocation lies in one hole, because holes are merged. *)
Lemma free_range_covered bs aid l : forall pos ph stop ph' lo hi,
  tiles bs aid pos ph l stop ph' -> pos <= lo < hi -> hi <= stop ->
  (forall h b, h ∈ l -> bs !! h = Some b -> b_prev b = false -> b_offset b + b_size b <= lo \/ hi <= b_offset b) ->
  exists h b, h ∈ l /\ bs !! h = Some b /\ covers b lo hi.
Proof.
  induction l as [|x l IH]; intros pos ph stop ph' lo hi Ht Hlo Hhi Hfree.
  - destruct Ht as [-> _]. lia.
  - destruct Ht as (b&Hb&_&Ho&Hs&_&Ht').
    assert (Hskip : pos + b_size b <= lo -> exists h b, h ∈ x :: l /\ bs !! h = Some b /\ covers b lo hi).
    { intros Hge. destruct (IH _ _ _ _ lo hi Ht') as (h&bh&Hh&?); [lia|lia| |].
      - intros h bh Hh. apply Hfree. by apply list_elem_of_further.
      - exists h, bh. by split; [apply list_elem_of_further|]. }
    destruct (Z.le_gt_cases (pos + b_size b) lo) as [|Hlt]; [by apply Hskip|].
    destruct (b_prev b) eqn:Hp.
    + destruct (Z.le_gt_cases hi (pos + b_size b)) as [Hin|Hout].
      * exists x, b. split; [apply list_elem_of_here|]. split; [done|]. split; [done|]. lia.
      * exfalso. destruct l as [|y l']; [destruct Ht' as [? _]; lia|].
        destruct Ht' as (by'&Hby&_&Hyo&Hys&Hyp&_).
        destruct (Hfree y by') as [?|?]; try done; try lia.
        apply list_elem_of_further, list_elem_of_here.
    + destruct (Hfree x b) as [?|?]; try done; try lia. apply list_elem_of_here.
Qed.

(** * The arena *)

Lemma replay_created_inv d d1 aid x size va :
  arena_inv d -> created d d1 aid x size RADV_SHADER_ARENA_REPLAYED ->
  0 < size < W32 -> size mod 256 = 0 -> d_arena_vas d !! va = None ->
  let d2 := with_shader_arenas (with_vas d1 (<[va := aid]> (d_arena_vas d1))) (d_shader_arenas d1 ++ [aid]) in
  arena_inv d2 /\ live d2 = live d.
Proof.
  intros Hai Hc Hsz Hm Hva d2. pose proof (ai_core _ Hai) as Hinv.
  pose proof (created_core _ _ _ _ _ _ Hinv Hc Hsz Hm) as Hcore.
  pose proof (cr_arenas _ _ _ _ _ _ Hc) as Hars. pose proof (cr_new _ _ _ _ _ _ Hc) as Hnew.
  split; [|by rewrite <- (created_live _ _ _ _ _ _ Hinv Hc)].
  split.
  - destruct Hcore as [H1 H2 H3 H4 H5 H6 H7 H8]. split; try done; subst d2; simpl.
    + intros v aid'. destruct (decide (v = va)) as [->|].
      * rewrite lookup_insert_eq. intros [= <-]. eexists. by rewrite Hars, lookup_insert_eq.
      * rewrite lookup_insert_ne by done. apply H7.
    + assert (Hout : forall v, d_arena_vas d1 !! v <> Some aid).
      { intros v. rewrite (cr_vas _ _ _ _ _ _ Hc). intros (a&?&_)%(ci_vas _ Hinv). congruence. }
      intros v v' aid'. destruct (decide (v = va)) as [->|], (decide (v' = va)) as [->|]; try done;
        rewrite ?lookup_insert_eq, ?lookup_insert_ne by done.
      * intros [= <-] H. by apply Hout in H.
      * intros H [= <-]. by apply Hout in H.
      * apply H8.
  - simpl. rewrite (cr_shader_arenas _ _ _ _ _ _ Hc). apply NoDup_app. split; [apply (ai_nodup _ Hai)|].
    split; [|apply NoDup_singleton]. intros y Hy ->%list_elem_of_singleton.
    apply (ai_known _ Hai) in Hy as [? ?]. congruence.
  - intros aid'. simpl. rewrite (cr_shader_arenas _ _ _ _ _ _ Hc), Hars, elem_of_app, list_elem_of_singleton, (ai_known _ Hai).
    destruct (decide (aid' = aid)) as [->|].
    + rewrite lookup_insert_eq. split; [by eexists|by right].
    + rewrite lookup_insert_ne by done. naive_solver.
  - intros aid' a'. simpl. rewrite Hars. destruct (decide (aid' = aid)) as [->|].
    + rewrite lookup_insert_eq. intros [= <-] Ht. by destruct Ht.
    + rewrite lookup_insert_ne by done. intros Ha Ht. destruct (ai_used _ Hai _ _ Ha Ht) as (i&bi&Hi&Hbi&?).
      exists i, bi. simpl. rewrite (cr_blocks _ _ _ _ _ _ Hc); [done|by exists aid', a'].
  - simpl. rewrite (cr_shift _ _ _ _ _ _ Hc). apply (ai_shift _ Hai).
Qed.

(** The arena a handle names: the one the table has, or a new one. *)
Lemma replay_arena_ok e d src :
  arena_inv d -> map_works e -> handle_ok src ->
  exists r d1, replay_arena e src d = Some (r, d1) /\ arena_inv d1 /\ live d1 = live d
    /\ match r with
       | None => out_of_memory e
       | Some aid => exists a, d_arenas d1 !! aid = Some a /\ a_type a = RADV_SHADER_ARENA_REPLAYED
                       /\ d_arena_vas d1 = <[s_arena_va src := aid]> (d_arena_vas d)
                       /\ (forall aid' a', d_arenas d !! aid' = Some a' -> d_arenas d1 !! aid' = Some a')
                       /\ match d_arena_vas d !! s_arena_va src with
                          | Some aid0 => aid = aid0
                          | None => a_size a = s_arena_size src /\ d_arenas d !! aid = None
                          end
       end.
Proof.
  intros Hai Hmap Hk. pose proof (ai_core _ Hai) as Hinv. unfold replay_arena.
  destruct (d_arena_vas d !! s_arena_va src) as [aid|] eqn:Ev.
  { exists (Some aid), d. split; [done|]. split; [done|]. split; [done|].
    destruct (ci_vas _ Hinv _ _ Ev) as (a&Ha&Ht). exists a. rewrite insert_id by done. by split_and!. }
  assert (Hty : chosen_type true (s_arena_va src) = RADV_SHADER_ARENA_REPLAYED).
  { unfold chosen_type. destruct (Z.eqb_spec (s_arena_va src) 0); [by destruct (hk_va _ Hk)|done]. }
  destruct (radv_create_shader_arena_ok e None 0 (s_arena_size src) true (s_arena_va src) d Hinv Hmap)
    as (r&d1&->&Hr); [by rewrite Hty|]. cbn [mbind option_bind].
  assert (Hs : chosen_size d 0 (s_arena_size src) = s_arena_size src).
  { unfold chosen_size. destruct (Z.eqb_spec (s_arena_size src) 0); [|done].
    destruct Hk as [[? _] [? _] ? _ _]. lia. }
  destruct r as [aid|].
  - destruct Hr as (x&Hc). rewrite Hty, Hs in Hc.
    destruct (replay_created_inv d d1 aid x (s_arena_size src) (s_arena_va src) Hai Hc) as [Hi Hl]; try done;
      [destruct Hk as [[? _] [? _] ? [? _] _]; lia|apply (hk_arena _ Hk)|].
    do 2 eexists. split; [done|]. split; [done|]. split; [done|]. exists (Arena [x] (s_arena_size src) RADV_SHADER_ARENA_REPLAYED).
    simpl. rewrite (cr_arenas _ _ _ _ _ _ Hc), (cr_vas _ _ _ _ _ _ Hc), lookup_insert_eq.
    pose proof (cr_new _ _ _ _ _ _ Hc) as Hn. split_and!; try done.
    intros aid' a' Ha'. rewrite lookup_insert_ne; [done|]. congruence.
  - destruct Hr as (Hc&Hst&?). exists None, d1. split; [done|]. split; [by eapply same_store_inv|].
    split; [by apply same_store_live|done].
Qed.

(** * The operation *)

(** The bytes a handle names are in its arena, and no allocation has one of them. *)
Definition range_free (d : arena_device) (src : radv_serialized_shader_arena_block) : Prop :=
  forall aid, d_arena_vas d !! s_arena_va src = Some aid ->
  (exists a, d_arenas d !! aid = Some a /\ s_offset src + s_size src <= a_size a)
  /\ forall id b, live d !! id = Some b -> b_arena b = aid ->
       b_offset b + b_size b <= s_offset src \/ s_offset src + s_size src <= b_offset b.

Definition arenas_kept (d d' : arena_device) : Prop :=
  forall aid a, d_arenas d !! aid = Some a -> exists a', d_arenas d' !! aid = Some a' /\ a_size a' = a_size a.

Definition replay_result (e : arena_env) (d : arena_device) (src : radv_serialized_shader_arena_block)
    (ptr : Z) (r : option (option Z * arena_device)) : Prop :=
  match r with
  | Some (Some id, d') =>
      arena_inv d' /\ live d !! id = None
      /\ exists aid, d_arena_vas d' = <[s_arena_va src := aid]> (d_arena_vas d)
           /\ live d' = <[id := Block aid (s_offset src) (s_size src) false ptr]> (live d)
           /\ arenas_kept d d'
           /\ match d_arena_vas d !! s_arena_va src with
              | Some aid0 => aid = aid0
              | None => exists a, d_arenas d' !! aid = Some a /\ a_size a = s_arena_size src
              end
  | Some (None, d') => arena_inv d' /\ live d' = live d /\ (out_of_memory e \/ ~ range_free d src)
  | None => False
  end.

(** When the range is free, the arena has a hole that covers it. *)
Lemma range_free_hole d d1 src aid a :
  core_inv d1 -> handle_ok src -> live d1 = live d -> d_arenas d1 !! aid = Some a ->
  d_arena_vas d1 = <[s_arena_va src := aid]> (d_arena_vas d) ->
  (forall aid' a', d_arenas d !! aid' = Some a' -> d_arenas d1 !! aid' = Some a') ->
  match d_arena_vas d !! s_arena_va src with
  | Some aid0 => aid = aid0
  | None => a_size a = s_arena_size src /\ d_arenas d !! aid = None
  end ->
  range_free d src ->
  exists h b, h ∈ a_entries a /\ d_blocks d1 !! h = Some b /\ covers b (s_offset src) (s_offset src + s_size src).
Proof.
  intros Hinv Hk Hl Ha Hv Hkeep Hnew Hfree. destruct Hk as [[Ho _] [Hs _] He [Hw _] _].
  destruct (ci_arenas _ Hinv _ _ Ha) as (_&ph&Ht).
  assert (s_offset src + s_size src <= a_size a
    /\ forall id b, live d !! id = Some b -> b_arena b = aid ->
         b_offset b + b_size b <= s_offset src \/ s_offset src + s_size src <= b_offset b) as [Hle Hd].
  { destruct (d_arena_vas d !! s_arena_va src) as [aid0|] eqn:Ev.
    - subst aid0. destruct (Hfree aid Ev) as [(a'&Ha'&?) ?]. split; [|done].
      rewrite (Hkeep _ _ Ha') in Ha. by injection Ha as <-.
    - destruct Hnew as [-> Hno]. split; [done|]. intros id b (_&_&a'&Ha'&_)%lookup_live Hba.
      rewrite Hba in Ha'. congruence. }
  eapply free_range_covered; [done|lia|lia|]. intros h b Hh Hb Hp.
  apply (Hd h b); [|by eapply linked_arena]. rewrite <- Hl. apply lookup_live. split; [done|]. split; [done|].
  exists a. by rewrite (linked_arena d1 Hinv _ _ _ _ Ha Hh Hb).
Qed.

Lemma radv_replay_ok e d src ptr :
  arena_inv d -> map_works e -> handle_ok src ->
  replay_result e d src ptr (radv_replay_shader_arena_block e src ptr d).
Proof.
  intros Hai Hmap Hk. unfold radv_replay_shader_arena_block.
  destruct (replay_arena_ok e d src Hai Hmap Hk) as (r&d1&->&Hai1&Hl1&Hr). cbn [mbind option_bind].
  destruct r as [aid|]; [|split; [done|]; split; [done|by left]].
  destruct Hr as (a&Ha&Ht&Hv&Hkeep&Hold). rewrite Ha. cbn [mbind option_bind].
  pose proof (ai_core _ Hai1) as Hinv1. destruct (ci_arenas _ Hinv1 _ _ Ha) as (HaW&ph&Hti).
  pose proof Hk as [[Ho Hom] [Hs Hsm] He [HW _] _]. unwrap.
  destruct (replay_hole_ok d1 aid (a_entries a) 0 false (a_size a) ph (s_offset src)
              (s_offset src + s_size src) Hti) as [[-> Hn]|(h&b&->&Hh&Hb&Hp&Hlo&Hhi)]; try lia; cbn [mbind option_bind].
  { split; [done|]. split; [done|]. right. intros Hf.
    destruct (range_free_hole d d1 src aid a Hinv1 Hk Hl1 Ha Hv Hkeep Hold Hf) as (h&b&Hh&Hb&Hc).
    by eapply Hn. }
  rewrite Hb. cbn [mbind option_bind].
  pose proof (linked_arena d1 Hinv1 _ _ _ _ Ha Hh Hb) as Hba.
  destruct (linked_block d1 Hinv1 _ _ _ Ha Hh) as (b'&Hb'&_&?&Hbm&_&?&_). rewrite Hb in Hb'. injection Hb' as <-.
  apply list_elem_of_split in Hh as (l1&l2&Hent).
  assert (Hat : hole_at d1 h b a l1 l2) by (split; [done|by rewrite Hba|done|done]). unwrap.
  destruct (insert_block_ok e d1 h b a l1 l2 (s_offset src - b_offset b) (s_size src) ptr None Hinv1 Hat)
    as (r&d2&->&Hr); try done; try lia.
  { by rewrite Zminus_mod, Hom, Hbm. } { by rewrite Ht. } { by left. }
  cbn [mbind option_bind]. destruct r as [y|].
  - destruct Hr as (->&d3&Hg&Hal&Hkp&Hvas&Hclk&Hars). rewrite Hg. cbn [mbind option_bind].
    split; [eapply keeps_arenas_inv; [exact Hai1|apply (al_core _ _ _ _ Hal)|done]|].
    split; [rewrite <- Hl1; apply (al_new _ _ _ _ Hal)|]. exists aid. split; [by rewrite Hvas|].
    split; [rewrite (al_live _ _ _ _ Hal), Hl1, Hba; do 2 f_equal; lia|].
    split; [intros aid' a' Ha'; destruct (Hars aid' a' (Hkeep _ _ Ha')) as (a2&?&?&_); by exists a2|].
    destruct (d_arena_vas d !! s_arena_va src); [done|]. destruct (Hars aid a Ha) as (a2&?&Has&_). exists a2. rewrite Has. by destruct Hold.
  - destruct Hr as (Hc&Hst&n&?). split; [by eapply same_store_inv|].
    split; [by rewrite (same_store_live _ _ Hst)|]. left. exists n. by left.
Qed.
