(* ===== verification/ArenaMain.v ===== *)
(** The theorems about the shader memory allocator. *)

From stdpp Require Import gmap.
From S2P Require Import Prelude Pm4 ShaderArena ArenaLists ArenaInv ArenaAlloc ArenaTake ArenaInsert ArenaCreate ArenaFree ArenaReplay.

(** * Reachable states *)

(** The calls the driver makes: a size that fits 32 bits, an allocation that is live, a handle of a
    capture. *)
Inductive arena_step (e : arena_env) : arena_device -> arena_device -> Prop :=
| step_alloc size replayable ptr r d d' :
    size_fits e size -> radv_alloc_shader_memory e size replayable ptr d = Some (r, d') -> arena_step e d d'
| step_free id b d d' :
    live d !! id = Some b -> radv_free_shader_memory (Some id) d = Some d' -> arena_step e d d'
| step_replay src ptr r d d' :
    handle_ok src -> radv_replay_shader_arena_block e src ptr d = Some (r, d') -> arena_step e d d'.

Definition arena_reachable (e : arena_env) : arena_device -> Prop :=
  rtc (arena_step e) radv_init_shader_arenas.

Lemma init_inv : arena_inv radv_init_shader_arenas.
Proof.
  assert (Hnl : forall id, ~ linked radv_init_shader_arenas id) by (intros id (aid&a&Ha&_); done).
  split; [split; try done| | | |].
  - intros w. eapply list_ok_iff; [|destruct w; exact list_ok_empty].
    intros id c _. split; [done|]. by intros ?%holes_linked%Hnl.
  - constructor.
  - by intros id ?%elem_of_nil.
  - by intros id ?%Hnl.
  - by intros aid [? ?].
  - constructor.
  - intros aid. split; [by intros ?%elem_of_nil|by intros [? ?]].
  - done.
  - done.
Qed.

Lemma arena_step_inv e d d' : map_works e -> arena_inv d -> arena_step e d d' -> arena_inv d'.
Proof.
  intros Hmap Hai Hst. revert Hai. destruct Hst as [size replayable ptr r d1 d2 Hs Heq|id b d1 d2 Hl Heq|src ptr r d1 d2 Hk Heq]; intros Hai.
  - pose proof (radv_alloc_shader_memory_ok e d1 size replayable ptr Hai Hmap Hs) as Hr. rewrite Heq in Hr.
    by destruct r; destruct Hr.
  - destruct (radv_free_shader_memory_ok d1 id b Hai Hl) as (d3&Heq'&?&_). congruence.
  - pose proof (radv_replay_ok e d1 src ptr Hai Hmap Hk) as Hr. rewrite Heq in Hr. by destruct r; destruct Hr.
Qed.

Lemma arena_reachable_inv e d : map_works e -> arena_reachable e d -> arena_inv d.
Proof.
  intros Hmap Hr. unfold arena_reachable in Hr. remember radv_init_shader_arenas as d0 eqn:E.
  assert (arena_inv d0) as H0 by (subst; apply init_inv). clear E.
  induction Hr as [|x y z Hxy _ IH]; [done|]. apply IH. by eapply arena_step_inv.
Qed.

(** * What the invariant says about live allocations *)

(** Two blocks share no byte. *)
Definition apart (b1 b2 : radv_shader_arena_block) : Prop :=
  b_arena b1 = b_arena b2 ->
  b_offset b1 + b_size b1 <= b_offset b2 \/ b_offset b2 + b_size b2 <= b_offset b1.

(** A block is where the GPU can fetch it: in its arena, at a multiple of 256 bytes. *)
Definition placed (d : arena_device) (b : radv_shader_arena_block) : Prop :=
  exists a, d_arenas d !! b_arena b = Some a /\ b_arena b ∈ d_shader_arenas d
    /\ 0 <= b_offset b /\ b_offset b mod 256 = 0 /\ 0 < b_size b
    /\ b_offset b + b_size b <= a_size a < W32.

Lemma live_placed d id b : arena_inv d -> live d !! id = Some b -> placed d b.
Proof.
  intros Hai (Hb&_&a&Ha&Hin)%lookup_live. pose proof (ai_core _ Hai) as Hinv.
  destruct (linked_block d Hinv _ _ _ Ha Hin) as (b'&Hb'&_&?&?&[? _]&?). rewrite Hb in Hb'. injection Hb' as <-.
  exists a. split; [done|]. split; [by apply (ai_known _ Hai); eexists|]. done.
Qed.

Lemma live_apart d i j bi bj : core_inv d ->
  live d !! i = Some bi -> live d !! j = Some bj -> i <> j -> apart bi bj.
Proof.
  intros Hinv (Hbi&_&a&Ha&Hi)%lookup_live (Hbj&_&a'&Ha'&Hj)%lookup_live Hne Heq.
  rewrite <- Heq, Ha in Ha'. injection Ha' as <-. destruct (ci_arenas _ Hinv _ _ Ha) as (_&ph&Ht).
  by apply (tiles_disjoint _ _ _ _ _ _ _ i j bi bj Ht).
Qed.

(** The bytes of an arena are the bytes of its blocks: none is lost. *)
Lemma tiles_cover bs aid l : forall pos ph stop ph' x,
  tiles bs aid pos ph l stop ph' -> pos <= x < stop ->
  exists id b, id ∈ l /\ bs !! id = Some b /\ b_offset b <= x < b_offset b + b_size b.
Proof.
  induction l as [|y l IH]; intros pos ph stop ph' x Ht Hx.
  - destruct Ht as [-> _]. lia.
  - destruct Ht as (b&Hb&_&Ho&_&_&Ht). destruct (Z.lt_ge_cases x (pos + b_size b)).
    + exists y, b. split; [apply list_elem_of_here|]. split; [done|lia].
    + destruct (IH _ _ _ _ x Ht) as (i&bi&Hi&?); [lia|]. exists i, bi. by split; [apply list_elem_of_further|].
Qed.

(** Every byte of an arena is in an allocation, or in a hole; a hole the free lists serve is in the
    list of its class, and the mask of non-empty lists is exact. *)
Definition bytes_accounted (d : arena_device) : Prop :=
  forall aid a x, d_arenas d !! aid = Some a -> 0 <= x < a_size a ->
  exists id b, d_blocks d !! id = Some b /\ b_arena b = aid /\ b_offset b <= x < b_offset b + b_size b
    /\ (live d !! id = Some b
        \/ b_prev b = true
           /\ forall w, arena_free_list (a_type a) = Some w ->
                let c := get_size_class (b_size b) false in
                id ∈ nth_list (free_lists (get_list w d)) c /\ Z.testbit (size_mask (get_list w d)) c = true).

Lemma inv_bytes_accounted d : core_inv d -> bytes_accounted d.
Proof.
  intros Hinv aid a x Ha Hx. destruct (ci_arenas _ Hinv _ _ Ha) as (_&ph&Ht).
  destruct (tiles_cover _ _ _ _ _ _ _ x Ht Hx) as (id&b&Hin&Hb&Hr).
  pose proof (linked_arena d Hinv _ _ _ _ Ha Hin Hb) as Hba.
  exists id, b. split; [done|]. split; [done|]. split; [done|]. destruct (b_prev b) eqn:Hp; [right|left].
  - split; [done|]. intros w Hw c. pose proof (get_size_class_range (b_size b) false) as Hc.
    destruct (ci_lists _ Hinv w) as [_ _ Hel _ Hbit].
    assert (Hid : id ∈ nth_list (free_lists (get_list w d)) c).
    { apply Hel; [done|]. exists b, a. by rewrite Hba. }
    split; [done|]. rewrite Hbit by done. by destruct (nth_list _ _); [apply elem_of_nil in Hid|].
  - apply lookup_live. split; [done|]. split; [done|]. exists a. by rewrite Hba.
Qed.

Definition arena_kept_for_replay (d : arena_device) : Prop :=
  forall aid a, d_arenas d !! aid = Some a -> a_type a <> RADV_SHADER_ARENA_REPLAYED ->
  exists id b, live d !! id = Some b /\ b_arena b = aid.

Lemma inv_arena_used d : arena_inv d -> arena_kept_for_replay d.
Proof.
  intros Hai aid a Ha Ht. destruct (ai_used _ Hai _ _ Ha Ht) as (id&b&Hin&Hb&Hp).
  pose proof (linked_arena d (ai_core _ Hai) _ _ _ _ Ha Hin Hb) as Hba.
  exists id, b. split; [|done]. apply lookup_live. split; [done|]. split; [done|]. exists a. by rewrite Hba.
Qed.

(** C19: when the CPU mapping of an arena never fails (or is not made, with shaders in invisible VRAM),
    in every state the allocator reaches, whichever other allocations fail, blocks are aligned, inside
    their arena and apart from each other; every byte of an arena is in an allocation or in a hole the
    free lists hold; and an arena without an allocation is only kept for replay. (A mapping that fails
    leaves the hole of the destroyed arena in the lists, [map_failure_leaves_dangling_hole].) *)
Theorem shader_arenas_sound e d :
  map_works e -> arena_reachable e d ->
  (forall id b, live d !! id = Some b -> placed d b)
  /\ (forall i j bi bj, live d !! i = Some bi -> live d !! j = Some bj -> i <> j -> apart bi bj)
  /\ bytes_accounted d /\ arena_kept_for_replay d.
Proof.
  intros Hmap Hr. pose proof (arena_reachable_inv e d Hmap Hr) as Hai. pose proof (ai_core _ Hai) as Hinv.
  split; [|split; [|split]].
  - intros id b. by apply live_placed.
  - intros i j bi bj. by apply live_apart.
  - by apply inv_bytes_accounted.
  - by apply inv_arena_used.
Qed.

(** Destroying the device destroys the buffer of every arena once, and frees no object twice. *)
Lemma destroy_arenas_once e d :
  map_works e -> arena_reachable e d ->
  NoDup (radv_destroy_shader_arenas d).1 /\ NoDup (radv_destroy_shader_arenas d).2
  /\ forall aid, aid ∈ (radv_destroy_shader_arenas d).2 <-> is_Some (d_arenas d !! aid).
Proof.
  intros Hmap Hr. pose proof (arena_reachable_inv e d Hmap Hr) as Hai.
  split; [apply (ci_pool_nodup _ (ai_core _ Hai))|]. split; [apply (ai_nodup _ Hai)|apply (ai_known _ Hai)].
Qed.

(** * The operations *)

Definition memory_works (e : arena_env) : Prop :=
  (forall n, malloc_ok e n = true) /\ (forall n, bo_create_ok e n = true) /\ map_works e.

Lemma memory_works_oom e : memory_works e -> ~ out_of_memory e.
Proof. intros (Hm&Hb&_) (n&[H|H]); [by rewrite Hm in H|by rewrite Hb in H]. Qed.

(** C20: an allocation returns memory no allocation has, of the aligned size and for the caller's
    pointer, and keeps the other allocations; it fails only when the system is out of memory, and
    then changes no allocation; with memory available it never fails. *)
Theorem alloc_returns_fresh_memory e d size replayable ptr :
  map_works e -> arena_reachable e d -> size_fits e size ->
  match radv_alloc_shader_memory e size replayable ptr d with
  | Some (Some id, d') =>
      exists b, live d' = <[id := b]> (live d) /\ live d !! id = None
        /\ size <= b_size b /\ b_size b = aligned_size e size /\ b_next b = ptr /\ placed d' b
        /\ forall j bj, live d !! j = Some bj -> apart b bj
  | Some (None, d') => live d' = live d /\ out_of_memory e
  | None => ~ memory_works e
  end.
Proof.
  intros Hmap Hr Hs. pose proof (arena_reachable_inv e d Hmap Hr) as Hai.
  pose proof (radv_alloc_shader_memory_ok e d size replayable ptr Hai Hmap Hs) as Hres.
  destruct (radv_alloc_shader_memory e size replayable ptr d) as [[[id|] d']|]; simpl in Hres.
  - destruct Hres as (Hai'&Hn&aid&off&Hl). eexists. split; [exact Hl|]. split; [done|].
    destruct (aligned_size_ok e size Hs) as [[? _] _]. split; [done|]. split; [done|]. split; [done|].
    assert (Hid : live d' !! id = Some (Block aid off (aligned_size e size) false ptr))
      by (by rewrite Hl, lookup_insert_eq).
    split; [by eapply live_placed|]. intros j bj Hj.
    assert (Hne : id <> j) by congruence.
    eapply (live_apart d' id j); [apply (ai_core _ Hai')|done| |done]. by rewrite Hl, lookup_insert_ne.
  - by destruct Hres as (_&?&?).
  - destruct Hres as [n Hn]. intros (Hm&_). by rewrite Hm in Hn.
Qed.

(** C21: freeing a live allocation always succeeds, takes away that allocation and no other, and
    merges: afterwards no two holes of an arena are neighbours. *)
Theorem free_shader_memory_exact e d id b :
  map_works e -> arena_reachable e d -> live d !! id = Some b ->
  exists d', radv_free_shader_memory (Some id) d = Some d' /\ live d' = delete id (live d)
    /\ forall i j bi bj, d_blocks d' !! i = Some bi -> d_blocks d' !! j = Some bj ->
         linked d' i -> linked d' j -> b_arena bi = b_arena bj ->
         b_offset bi + b_size bi = b_offset bj -> b_prev bi && b_prev bj = false.
Proof.
  intros Hmap Hr Hl. pose proof (arena_reachable_inv e d Hmap Hr) as Hai.
  destruct (radv_free_shader_memory_ok d id b Hai Hl) as (d'&Heq&Hai'&Hl'). exists d'.
  split; [done|]. split; [done|]. intros i j bi bj Hbi Hbj (aid&a&Ha&Hi) (aid'&a'&Ha'&Hj) Hab Hadj.
  pose proof (ai_core _ Hai') as Hinv'.
  pose proof (linked_arena d' Hinv' _ _ _ _ Ha Hi Hbi) as Hai1.
  pose proof (linked_arena d' Hinv' _ _ _ _ Ha' Hj Hbj) as Haj1.
  assert (aid = aid') as <- by congruence. rewrite Ha in Ha'. injection Ha' as <-.
  destruct (ci_arenas _ Hinv' _ _ Ha) as (_&ph&Ht). apply list_elem_of_split in Hi as (l1&l2&He).
  rewrite He in Ht, Hj. apply tiles_app in Ht as (m&phm&T1&T2).
  destruct T2 as (bi'&Hbi'&_&Ho&Hs&_&T2). rewrite Hbi in Hbi'. injection Hbi' as <-.
  rewrite elem_of_app, elem_of_cons in Hj. destruct Hj as [Hj|[->|Hj]].
  - destruct (tiles_elem _ _ _ _ _ _ _ _ T1 Hj) as (bj'&Hbj'&_&_&?&?&_). rewrite Hbj in Hbj'. injection Hbj' as <-. lia.
  - rewrite Hbi in Hbj. injection Hbj as <-. lia.
  - destruct l2 as [|y l2]; [by apply elem_of_nil in Hj|]. destruct T2 as (by'&Hby&_&Hyo&Hys&Hpp&T3).
    apply elem_of_cons in Hj as [->|Hj].
    + rewrite Hbj in Hby. by injection Hby as <-.
    + destruct (tiles_elem _ _ _ _ _ _ _ _ T3 Hj) as (bj'&Hbj'&_&?&?&_). rewrite Hbj in Hbj'. injection Hbj' as <-. lia.
Qed.

(** A hole is used when it is twice as large as the request, or when the request is one the last
    class serves. *)
Lemma hole_found d w S h :
  core_inv d -> 0 < S -> is_hole d w h -> (2 * S <= block_size d h \/ 2 ^ 15 <= S <= block_size d h) ->
  exists id, find_hole w S d = Some (Some id) /\ is_hole d w id /\ S <= block_size d id.
Proof.
  intros Hinv HS Hh Hbig. destruct (find_hole_ok d w S Hinv HS) as [[_ Hno]|Hyes]; [exfalso|done].
  destruct Hh as (c&Hc). assert (block_size d h < S); [|lia]. apply (Hno h c Hc).
  destruct Hc as (b&a&Hb&Ha&Hin&_&_&->). unfold block_size in Hbig. rewrite Hb in Hbig.
  destruct (linked_block d Hinv _ _ _ Ha Hin) as (b'&Hb'&_&_&_&[Hpos Hmod]&_). rewrite Hb in Hb'. injection Hb' as <-.
  pose proof (Z.div_mod (b_size b) 256 ltac:(lia)). assert (256 <= b_size b) by nia.
  destruct Hbig as [?|[? ?]]; [apply size_class_double; lia|].
  rewrite (size_class_last (b_size b)) by lia. pose proof (get_size_class_range S true). lia.
Qed.

(** C23: no arena is created while an existing arena has a hole of twice the aligned size, or, for
    requests from 32 KiB, of that size. *)
Theorem alloc_reuses_holes e d size replayable ptr h :
  map_works e -> arena_reachable e d -> size_fits e size ->
  is_hole d (alloc_list replayable) h ->
  2 * aligned_size e size <= block_size d h \/ 2 ^ 15 <= aligned_size e size <= block_size d h ->
  exists r d', radv_alloc_shader_memory e size replayable ptr d = Some (r, d')
    /\ d_shader_arenas d' = d_shader_arenas d
    /\ forall aid, is_Some (d_arenas d' !! aid) <-> is_Some (d_arenas d !! aid).
Proof.
  intros Hmap Hr Hs Hh Hbig. pose proof (ai_core _ (arena_reachable_inv e d Hmap Hr)) as Hinv.
  destruct (aligned_size_ok e size Hs) as [Hle Hm]. destruct Hs as [Hpos _].
  assert (Hpos' : 0 < aligned_size e size) by lia.
  destruct (hole_found d _ _ h Hinv Hpos' Hh Hbig) as (id&Hf&Hid&Hge).
  unfold radv_alloc_shader_memory. rewrite Hf. cbn [mbind option_bind].
  apply is_hole_at in Hid as (b&a&l1&l2&Hat&Hw&Hbs). rewrite Hbs in Hge.
  destruct (take_hole_ok e d (alloc_list replayable) id b a l1 l2 (aligned_size e size) ptr Hinv Hat Hw ltac:(lia) Hm)
    as (r&d'&->&Hres). exists r, d'. split; [done|]. destruct r as [x|].
  - destruct Hres as [_ ([? _]&?&_)]. done.
  - destruct Hres as (_&(_&Ha&?&_)&_). by rewrite Ha.
Qed.

(** * Capture and replay *)

(** Replay of the handles of the blocks [ids] of [d], in that order, on the device [d2]. *)
Fixpoint replay_all (e : arena_env) (va : Z -> Z) (d : arena_device) (ids : list Z) (d2 : arena_device)
  : option (list (option Z) * arena_device) :=
  match ids with
  | [] => Some ([], d2)
  | id :: ids =>
      let! src := serialize_block va id d ;;
      let! (r, d2) := radv_replay_shader_arena_block e src 0 d2 ;;
      let! (rs, d2) := replay_all e va d ids d2 ;;
      Some (r :: rs, d2)
  end.

(** Block [id2] of the replaying device is where block [id] of the capturing device was: in the arena
    that has the same address, at the same offset, with the same size. *)
Definition same_place (va : Z -> Z) (d d2 : arena_device) (id id2 : Z) : Prop :=
  exists b b2, live d !! id = Some b /\ live d2 !! id2 = Some b2
    /\ b_offset b2 = b_offset b /\ b_size b2 = b_size b
    /\ d_arena_vas d2 !! va (b_arena b) = Some (b_arena b2).

(** The arenas of the capturing device have different addresses. *)
Definition distinct_vas (va : Z -> Z) (d : arena_device) : Prop :=
  (forall aid, is_Some (d_arenas d !! aid) -> va aid <> 0)
  /\ forall aid aid', is_Some (d_arenas d !! aid) -> is_Some (d_arenas d !! aid') -> va aid = va aid' -> aid = aid'.

Lemma tiles_mod bs aid l : forall pos ph stop ph',
  tiles bs aid pos ph l stop ph' -> pos mod 256 = 0 -> stop mod 256 = 0.
Proof.
  induction l as [|x l IH]; intros pos ph stop ph'; simpl; [by intros [-> _]|].
  intros (b&_&_&_&[_ Hs]&_&Ht) Hp. apply (IH _ _ _ _ Ht). by rewrite Zplus_mod, Hp, Hs.
Qed.

Lemma serialize_ok va d id b :
  arena_inv d -> distinct_vas va d -> live d !! id = Some b ->
  exists a, d_arenas d !! b_arena b = Some a
    /\ serialize_block va id d = Some (Serialized (b_offset b) (b_size b) (va (b_arena b)) (a_size a))
    /\ handle_ok (Serialized (b_offset b) (b_size b) (va (b_arena b)) (a_size a)).
Proof.
  intros Hai [Hnz _] (Hb&Hp&a&Ha&Hin)%lookup_live. pose proof (ai_core _ Hai) as Hinv.
  destruct (linked_block d Hinv _ _ _ Ha Hin) as (b'&Hb'&_&?&?&?&?&?). rewrite Hb in Hb'. injection Hb' as <-.
  exists a. split; [done|]. unfold serialize_block. rewrite Hb. cbn [mbind option_bind]. rewrite Ha.
  split; [done|]. split; simpl; try done.
  - split; [done|]. destruct (ci_arenas _ Hinv _ _ Ha) as (_&ph&Ht). by eapply tiles_mod.
  - apply Hnz. by exists a.
Qed.

(** What holds after the blocks [done] were replayed as [news]. *)
Record replaying (va : Z -> Z) (d d2 : arena_device) (done news : list Z) : Prop := Replaying {
  rp_inv : arena_inv d2;
  rp_same : Forall2 (same_place va d d2) done news;
  rp_all : forall id2 b2, live d2 !! id2 = Some b2 -> id2 ∈ news;
  rp_size : forall v aid2, d_arena_vas d2 !! v = Some aid2 ->
    exists aid a a2, va aid = v /\ d_arenas d !! aid = Some a /\ d_arenas d2 !! aid2 = Some a2 /\ a_size a2 = a_size a
}.

(** The place of the next block is free: the blocks replayed so far are where blocks that were apart
    from it were. *)
Lemma replaying_free va d d2 done news id b a :
  arena_inv d -> distinct_vas va d -> replaying va d d2 done news -> live d !! id = Some b -> id ∉ done ->
  d_arenas d !! b_arena b = Some a ->
  range_free d2 (Serialized (b_offset b) (b_size b) (va (b_arena b)) (a_size a)).
Proof.
  intros Hai [_ Hinj] [Hai2 Hsame Hall Hsize] Hl Hid Ha aid2 Hv. simpl in *.
  pose proof (ai_core _ Hai) as Hinv. split.
  - destruct (Hsize _ _ Hv) as (aid&a'&a2&Hva&Ha'&Ha2&Hs). exists a2. split; [done|].
    assert (aid = b_arena b) as -> by (apply Hinj; [by eexists..|done]).
    rewrite Ha in Ha'. injection Ha' as <-. apply lookup_live in Hl as (Hb&_&a3&Ha3&Hin). rewrite Ha in Ha3. injection Ha3 as <-.
    destruct (linked_block d Hinv _ _ _ Ha Hin) as (b'&Hb'&_&_&_&_&?&_). rewrite Hb in Hb'. injection Hb' as <-. lia.
  - intros id2 b2 Hl2 Hba. pose proof (Hall _ _ Hl2) as [k Hk]%list_elem_of_lookup.
    destruct (Forall2_lookup_r _ _ _ _ _ Hsame Hk) as (id'&Hk'&b'&b2'&Hl'&Hl2'&Ho&Hs&Hva).
    rewrite Hl2 in Hl2'. injection Hl2' as <-. rewrite Ho, Hs.
    assert (Hne : id' <> id) by (intros ->; apply Hid; by eapply list_elem_of_lookup_2).
    pose proof (ci_vas_inj _ (ai_core _ Hai2) _ _ _ Hv ltac:(by rewrite Hva, Hba)) as Heq.
    apply (live_apart d id' id b' b Hinv Hl' Hl Hne).
    pose proof Hl' as (_&_&a'&Ha'&_)%lookup_live. symmetry. apply Hinj; [by eexists..|done].
Qed.

Lemma replaying_step e va d d2 done news id b :
  arena_inv d -> distinct_vas va d -> memory_works e -> replaying va d d2 done news ->
  live d !! id = Some b -> id ∉ done ->
  exists src id2 d2', serialize_block va id d = Some src
    /\ radv_replay_shader_arena_block e src 0 d2 = Some (Some id2, d2')
    /\ replaying va d d2' (done ++ [id]) (news ++ [id2]).
Proof.
  intros Hai Hvas Hmem Hrp Hl Hid.
  destruct (serialize_ok va d id b Hai Hvas Hl) as (a&Ha&Hser&Hok).
  pose proof (replaying_free va d d2 done news id b a Hai Hvas Hrp Hl Hid Ha) as Hfree.
  set (src := Serialized (b_offset b) (b_size b) (va (b_arena b)) (a_size a)) in *.
  pose proof Hrp as [Hai2 Hsame Hall Hsize].
  pose proof (radv_replay_ok e d2 src 0 Hai2 (proj2 (proj2 Hmem)) Hok) as Hres.
  destruct (radv_replay_shader_arena_block e src 0 d2) as [[[id2|] d2']|] eqn:Er; simpl in Hres; [|exfalso|done].
  2: { destruct Hres as (_&_&[Ho|Hn]); [by apply (memory_works_oom e)|done]. }
  exists src, id2, d2'. split; [done|]. split; [done|].
  destruct Hres as (Hai2'&Hnew&aid2&Hv&Hl2&Hkept&Hold).
  assert (Hvk : forall v x, d_arena_vas d2 !! v = Some x -> d_arena_vas d2' !! v = Some x).
  { intros v x Hx. rewrite Hv. destruct (decide (v = va (b_arena b))) as [->|]; [|by rewrite lookup_insert_ne].
    rewrite lookup_insert_eq. change (s_arena_va src) with (va (b_arena b)) in Hold. rewrite Hx in Hold. by subst. }
  split; [done|..].
  - apply Forall2_app.
    + eapply Forall2_impl; [done|]. intros i i2 (bi&bi2&H1&H2&H3&H4&H5). exists bi, bi2.
      split; [done|]. split; [rewrite Hl2, lookup_insert_ne; [done|congruence]|]. split; [done|]. split; [done|]. by apply Hvk.
    + constructor; [|constructor]. eexists b, _. split; [done|]. rewrite Hl2, lookup_insert_eq.
      split; [done|]. split; [done|]. split; [done|]. rewrite Hv. simpl. by rewrite lookup_insert_eq.
  - intros i bi Hi. rewrite elem_of_app, list_elem_of_singleton. rewrite Hl2 in Hi.
    destruct (decide (i = id2)) as [->|]; [by right|]. rewrite lookup_insert_ne in Hi by done. left. by eapply Hall.
  - intros v x Hx. rewrite Hv in Hx. destruct (decide (v = va (b_arena b))) as [->|Hne].
    + simpl in Hx. rewrite lookup_insert_eq in Hx. injection Hx as <-.
      change (s_arena_va src) with (va (b_arena b)) in Hold.
      destruct (d_arena_vas d2 !! va (b_arena b)) as [x|] eqn:Ex.
      * subst x. destruct (Hsize _ _ Ex) as (aid&a'&a2&H1&H2&H3&H4). destruct (Hkept _ _ H3) as (a3&H5&H6).
        exists aid, a', a3. split_and!; try done. congruence.
      * destruct Hold as (a2&H1&H2). by exists (b_arena b), a, a2.
    + simpl in Hx. rewrite lookup_insert_ne in Hx by done.
      destruct (Hsize _ _ Hx) as (aid&a'&a2&H1&H2&H3&H4). destruct (Hkept _ _ H3) as (a3&H5&H6).
      exists aid, a', a3. split_and!; try done. congruence.
Qed.

Lemma replay_all_ok e va d : forall ids d2 done news,
  arena_inv d -> distinct_vas va d -> memory_works e -> replaying va d d2 done news ->
  (forall id, id ∈ ids -> is_Some (live d !! id)) -> NoDup (done ++ ids) ->
  exists new' d2', replay_all e va d ids d2 = Some (Some <$> new', d2')
    /\ replaying va d d2' (done ++ ids) (news ++ new').
Proof.
  induction ids as [|id ids IH]; intros d2 done news Hai Hv Hm Hrp Hall Hnd.
  - exists [], d2. by rewrite !app_nil_r.
  - destruct (Hall id (list_elem_of_here _ _)) as [b Hb].
    assert (Hid : id ∉ done) by (by apply nodup_middle in Hnd as [? _]).
    destruct (replaying_step e va d d2 done news id b Hai Hv Hm Hrp Hb Hid) as (src&id2&d2'&Hs&Hr&Hrp').
    destruct (IH d2' (done ++ [id]) (news ++ [id2]) Hai Hv Hm Hrp') as (new'&d3&Heq&Hrp3).
    + intros i Hi. apply Hall. by apply list_elem_of_further.
    + by rewrite <- app_assoc.
    + exists (id2 :: new'), d3. rewrite <- !app_assoc in Hrp3. split; [|done].
      cbn [replay_all]. rewrite Hs. cbn [mbind option_bind]. rewrite Hr. cbn [mbind option_bind].
      rewrite Heq. done.
Qed.

(** C22: the handles of any allocations of one device, replayed in any order on a new device with
    memory available, all succeed, and give each allocation its offset and size again, in the arena
    created at the address of its old arena. *)
Theorem capture_replay_roundtrip e e' va d ids :
  map_works e -> arena_reachable e d -> distinct_vas va d -> memory_works e' ->
  (forall id, id ∈ ids -> is_Some (live d !! id)) -> NoDup ids ->
  exists new d2, replay_all e' va d ids radv_init_shader_arenas = Some (Some <$> new, d2)
    /\ Forall2 (same_place va d d2) ids new.
Proof.
  intros Hmap Hr Hv Hm Hall Hnd. pose proof (arena_reachable_inv e d Hmap Hr) as Hai.
  destruct (replay_all_ok e' va d ids radv_init_shader_arenas [] [] Hai Hv Hm) as (new&d2&Heq&Hrp); try done.
  - split; [apply init_inv|constructor|done|done].
  - exists new, d2. split; [done|]. apply (rp_same _ _ _ _ _ Hrp).
Qed.

(** * Error paths *)

(** When the mapping of a new arena fails, [radv_alloc_shader_memory] returns nothing but leaves
    the block object of the destroyed arena in the free list, and in the pool of free objects. *)
Theorem map_failure_leaves_dangling_hole e e' d size replayable ptr :
  map_works e' -> arena_reachable e' d ->
  shader_use_invisible_vram e = false -> (forall n, buffer_map_ok e n = false) ->
  (forall n, malloc_ok e n = true) -> (forall n, bo_create_ok e n = true) ->
  find_hole (alloc_list replayable) (aligned_size e size) d = Some None ->
  exists x d', radv_alloc_shader_memory e size replayable ptr d = Some (None, d')
    /\ (exists c, x ∈ nth_list (free_lists (get_list (alloc_list replayable) d')) c)
    /\ x ∈ d_block_obj_pool d'
    /\ exists b, d_blocks d' !! x = Some b /\ d_arenas d' !! b_arena b = None.
Proof.
  intros Hmap Hr Hinvis Hmapf Hm Hb Hf. pose proof (ai_core _ (arena_reachable_inv e' d Hmap Hr)) as Hinv.
  unfold radv_alloc_shader_memory. rewrite Hf. cbn [mbind option_bind].
  unfold alloc_in_new_arena, radv_create_shader_arena. rewrite Hm, Hb. cbn [negb].
  destruct (alloc_block_obj e (tick (tick d))) as [r d1] eqn:E.
  destruct (alloc_block_obj_ok _ _ _ _ (tick_core _ (tick_core _ Hinv)) E) as (Hinv1&Hs&Hid&_&_&Hnone).
  destruct r as [x|]; [|specialize (Hnone eq_refl); by rewrite Hm in Hnone].
  cbn [opt_list]. erewrite add_hole_eq by (by arena_simpl). cbn [mbind option_bind].
  rewrite Hinvis, Hmapf. unfold free_block_obj. cbn [tick d_blocks d_arenas]. arena_simpl.
  exists x. eexists. split; [done|].
  split; [eexists|split; [apply list_elem_of_here|]].
  - assert (Hfl : forall c w, 0 <= c < 8 -> x ∈ nth_list (free_lists (fl_add x c (get_list w d1))) c).
    { intros c w Hc. cbn [fl_add free_lists].
      rewrite nth_list_alter by (done || apply (lo_len _ _ (ci_lists _ Hinv1 w))).
      rewrite Z.eqb_refl, elem_of_app. right. apply list_elem_of_here. }
    destruct replayable; apply (Hfl _ _ (get_size_class_range _ _)).
  - eexists. split; [cbn [d_blocks with_arenas with_pool set_arena]; arena_simpl; done|].
    cbn [d_arenas with_arenas b_arena link_free]. apply lookup_delete_eq.
Qed.

Lemma alloc_block_obj_fail e d :
  d_block_obj_pool d = [] -> malloc_ok e (d_clock d) = false -> alloc_block_obj e d = (None, tick d).
Proof. intros H1 H2. unfold alloc_block_obj. by rewrite H1, H2. Qed.

(** The clock of the n-th call that may fail, from now on. *)
Definition nth_call (d : arena_device) (n : Z) : Z := d_clock d + n.

(** When the object for the rest of a new arena cannot be allocated, [insert_block] returns null
    and [radv_alloc_shader_memory] writes through it. *)
Theorem rest_object_failure_faults e e' d size replayable ptr :
  map_works e' -> arena_reachable e' d -> size_fits e size -> aligned_size e size < 2 ^ 18 ->
  shader_use_invisible_vram e = false -> d_block_obj_pool d = [] ->
  find_hole (alloc_list replayable) (aligned_size e size) d = Some None ->
  malloc_ok e (nth_call d 0) = true -> bo_create_ok e (nth_call d 1) = true ->
  malloc_ok e (nth_call d 2) = true -> buffer_map_ok e (nth_call d 3) = true ->
  malloc_ok e (nth_call d 4) = false ->
  radv_alloc_shader_memory e size replayable ptr d = None.
Proof.
  unfold nth_call. intros Hmap Hr Hsf Hlt Hvis Hpool Hf H0 H1 H2 H3 H4.
  pose proof (arena_reachable_inv e' d Hmap Hr) as Hai.
  destruct (aligned_size_ok e size Hsf) as [Hle Hm]. destruct Hsf as [Hpos _].
  assert (Hs : 0 < aligned_size e size < W32) by lia.
  pose proof (chosen_size_ok d (aligned_size e size) (ai_shift _ Hai) Hs Hm) as (HS&_&_).
  unfold radv_alloc_shader_memory. rewrite Hf. cbn [mbind option_bind].
  unfold alloc_in_new_arena, radv_create_shader_arena. rewrite Z.add_0_r in H0. rewrite H0. cbn [negb].
  change (d_clock (tick d)) with (d_clock d + 1). rewrite H1. cbn [negb].
  unfold alloc_block_obj at 1. cbn [tick d_block_obj_pool d_clock]. rewrite Hpool.
  replace (d_clock d + 1 + 1) with (d_clock d + 2) by lia. rewrite H2.
  cbn [opt_list]. erewrite add_hole_eq by (by arena_simpl). cbn [mbind option_bind].
  rewrite Hvis. autorewrite with arena.
  change (d_clock (set_block _ _ _)) with (d_clock d + 1 + 1 + 1).
  replace (d_clock d + 1 + 1 + 1) with (d_clock d + 3) by lia. rewrite H3. cbn [mbind option_bind].
  change (d_arenas (tick ?d)) with (d_arenas d). change (0 =? 0) with true. cbn [negb].
  arena_simpl. cbn [mbind option_bind a_entries head].
  unfold insert_block. change (d_blocks (tick ?d)) with (d_blocks d). arena_simpl.
  cbn [mbind option_bind negb Z.eqb b_size b_offset link_free b_arena]. unwrap.
  unfold chosen_size in HS. change (0 =? 0) with true in HS. cbv iota in HS.
  destruct (Z.ltb_spec (0 + aligned_size e size) (Z.max (u32 (Z.shiftl RADV_SHADER_ALLOC_MIN_ARENA_SIZE
    (Z.min RADV_SHADER_ALLOC_MAX_ARENA_SIZE_SHIFT (d_arena_shift d)))) (aligned_size e size))); [|lia].
  unfold new_hole. rewrite alloc_block_obj_fail; [done| |]; cbn [tick d_block_obj_pool d_clock]; autorewrite with arena.
  - exact Hpool.
  - change (d_clock (set_block _ _ _)) with (d_clock d + 1 + 1 + 1).
    by replace (d_clock d + 1 + 1 + 1 + 1) with (d_clock d + 4) by lia.
Qed.

(** * Witnesses *)

Definition sample_env : arena_env :=
  ArenaEnv (fun _ => true) (fun _ => true) (fun _ => true) false GFX10_3 3.

Lemma sample_memory_works : memory_works sample_env.
Proof. split; [done|]. split; [done|]. by right. Qed.

(** One allocation of 1000 bytes. *)
Definition sample_device : arena_device :=
  match radv_alloc_shader_memory sample_env 1000 false 7 radv_init_shader_arenas with
  | Some (_, d) => d
  | None => radv_init_shader_arenas
  end.

Lemma sample_alloc :
  radv_alloc_shader_memory sample_env 1000 false 7 radv_init_shader_arenas = Some (Some 3, sample_device).
Proof. by vm_compute. Qed.

Lemma sample_fits size : 0 < size < 2 ^ 20 -> size_fits sample_env size.
Proof. intros H. unfold size_fits. simpl. unfold_words. lia. Qed.

Lemma sample_reachable : arena_reachable sample_env sample_device.
Proof. eapply rtc_once, step_alloc; [|apply sample_alloc]. apply sample_fits. lia. Qed.

Lemma sample_live : live sample_device !! 3 = Some (Block 1 0 1280 false 7).
Proof. by vm_compute. Qed.

Lemma sample_arenas : d_arenas sample_device = {[1 := Arena [3; 5] 262144 RADV_SHADER_ARENA_DEFAULT]}.
Proof. by vm_compute. Qed.

Lemma sample_hole : is_hole sample_device SHADER_FREE_LIST 5.
Proof.
  exists 7, (Block 1 1280 260864 true 0), (Arena [3; 5] 262144 RADV_SHADER_ARENA_DEFAULT).
  split_and!; try by vm_compute. apply list_elem_of_further, list_elem_of_here.
Qed.

Lemma shader_arenas_sound_witness : placed sample_device (Block 1 0 1280 false 7).
Proof.
  apply (proj1 (shader_arenas_sound sample_env sample_device (proj2 (proj2 sample_memory_works)) sample_reachable) 3).
  apply sample_live.
Defined.

Lemma alloc_returns_fresh_memory_witness :
  exists id d' b, radv_alloc_shader_memory sample_env 5000 false 8 sample_device = Some (Some id, d')
    /\ live d' = <[id := b]> (live sample_device) /\ b_size b = 5376.
Proof.
  pose proof (alloc_returns_fresh_memory sample_env sample_device 5000 false 8
    (proj2 (proj2 sample_memory_works)) sample_reachable (sample_fits 5000 ltac:(lia))) as H.
  destruct (radv_alloc_shader_memory sample_env 5000 false 8 sample_device) as [[[id|] d']|] eqn:E.
  - destruct H as (b&Hl&_&_&Hs&_). exists id, d', b. split; [done|]. split; [done|]. rewrite Hs. by vm_compute.
  - destruct (memory_works_oom _ sample_memory_works (proj2 H)).
  - destruct (H sample_memory_works).
Defined.

Lemma free_shader_memory_exact_witness :
  exists d', radv_free_shader_memory (Some 3) sample_device = Some d' /\ live d' = delete 3 (live sample_device).
Proof.
  destruct (free_shader_memory_exact sample_env sample_device 3 _ (proj2 (proj2 sample_memory_works))
              sample_reachable sample_live) as (d'&H1&H2&_).
  by exists d'.
Defined.

Lemma alloc_reuses_holes_witness :
  exists r d', radv_alloc_shader_memory sample_env 1000 false 8 sample_device = Some (r, d')
    /\ d_shader_arenas d' = d_shader_arenas sample_device.
Proof.
  destruct (alloc_reuses_holes sample_env sample_device 1000 false 8 5 (proj2 (proj2 sample_memory_works))
              sample_reachable (sample_fits 1000 ltac:(lia)) sample_hole) as (r&d'&H1&H2&_);
    [left; by vm_compute|by exists r, d'].
Defined.

Lemma sample_vas : distinct_vas (fun aid => 4096 * aid) sample_device.
Proof.
  unfold distinct_vas. rewrite sample_arenas.
  split; [intros aid [a [<- _]%lookup_singleton_Some]; done|].
  intros aid aid' [a [<- _]%lookup_singleton_Some] [a' [<- _]%lookup_singleton_Some]. done.
Qed.

Lemma capture_replay_roundtrip_witness :
  exists new d2, replay_all sample_env (fun aid => 4096 * aid) sample_device [3] radv_init_shader_arenas
    = Some (Some <$> new, d2) /\ Forall2 (same_place (fun aid => 4096 * aid) sample_device d2) [3] new.
Proof.
  apply (capture_replay_roundtrip sample_env sample_env (fun aid => 4096 * aid) sample_device [3]
           (proj2 (proj2 sample_memory_works)) sample_reachable sample_vas sample_memory_works).
  - intros id ->%list_elem_of_singleton. rewrite sample_live. by eexists.
  - apply NoDup_singleton.
Defined.

(** No arena can be mapped. *)
Definition unmappable_env : arena_env :=
  ArenaEnv (fun _ => true) (fun _ => true) (fun _ => false) false GFX10_3 3.

Lemma map_failure_leaves_dangling_hole_witness :
  exists x d', radv_alloc_shader_memory unmappable_env 1000 false 7 radv_init_shader_arenas = Some (None, d')
    /\ x ∈ d_block_obj_pool d'.
Proof.
  destruct (map_failure_leaves_dangling_hole unmappable_env sample_env radv_init_shader_arenas 1000 false 7
              (proj2 (proj2 sample_memory_works))) as (x&d'&H1&_&H2&_); try done; [apply rtc_refl|].
  by exists x, d'.
Defined.

(** Memory runs out after the objects of the arena and of its block. *)
Definition scarce_env : arena_env :=
  ArenaEnv (fun n => n <? 5) (fun _ => true) (fun _ => true) false GFX10_3 3.

Lemma rest_object_failure_faults_witness :
  radv_alloc_shader_memory scarce_env 1000 false 7 radv_init_shader_arenas = None.
Proof.
  apply (rest_object_failure_faults scarce_env sample_env radv_init_shader_arenas 1000 false 7
           (proj2 (proj2 sample_memory_works))); try done; by vm_compute.
Defined.
