(* ===== verification/BoModel.v ===== *)
(** The buffer objects of the amdgpu winsys (src/amd/vulkan/winsys/amdgpu/radv_amdgpu_bo.c and the
    allocation trackers and teardown of radv_amdgpu_winsys.c): creation, import and destruction, the
    process-wide reuse cache of command buffers, the GPU address space, sparse (virtual) buffers,
    the global buffer list and the memory counters.

    The state of the process is a record [proc]; a [struct radv_amdgpu_winsys_bo] and a winsys are
    named by addresses, so that the cache, the global lists and the caller share one object.  The
    kernel, libdrm and libc are not part of the sources: they are the class [Drm] of operations on
    an abstract state [K], which may fail whenever they like.  An operation is a computation in
    [M K]: it reads and changes the process; [None] is a failed assertion or a dangling pointer. *)

From stdpp Require Import gmap.
From S2P Require Import Prelude Pm4.

(** * Constants (radv_radeon_winsys.h, drm-uapi/amdgpu_drm.h) *)

Definition RADEON_DOMAIN_GTT : Z := 2.
Definition RADEON_DOMAIN_VRAM : Z := 4.
Definition RADEON_DOMAIN_VRAM_GTT : Z := 6.
Definition RADEON_DOMAIN_GDS : Z := 8.
Definition RADEON_DOMAIN_OA : Z := 16.

Definition RADEON_FLAG_GTT_WC : Z := 2 ^ 0.
Definition RADEON_FLAG_CPU_ACCESS : Z := 2 ^ 1.
Definition RADEON_FLAG_NO_CPU_ACCESS : Z := 2 ^ 2.
Definition RADEON_FLAG_VIRTUAL : Z := 2 ^ 3.
Definition RADEON_FLAG_GL2_BYPASS : Z := 2 ^ 4.
Definition RADEON_FLAG_IMPLICIT_SYNC : Z := 2 ^ 5.
Definition RADEON_FLAG_NO_INTERPROCESS_SHARING : Z := 2 ^ 6.
Definition RADEON_FLAG_READ_ONLY : Z := 2 ^ 7.
Definition RADEON_FLAG_32BIT : Z := 2 ^ 8.
Definition RADEON_FLAG_PREFER_LOCAL_BO : Z := 2 ^ 9.
Definition RADEON_FLAG_REPLAYABLE : Z := 2 ^ 10.
Definition RADEON_FLAG_DISCARDABLE : Z := 2 ^ 11.
Definition RADEON_FLAG_GFX12_ALLOW_DCC : Z := 2 ^ 12.
Definition RADEON_FLAG_VM_UPDATE_WAIT : Z := 2 ^ 13.
Definition RADEON_FLAG_VM_PAD_1PAGE : Z := 2 ^ 14.
Definition RADEON_FLAG_ENCRYPTED : Z := 2 ^ 15.
Definition RADEON_FLAG_EMULATE_SPARSE_RESIDENCY : Z := 2 ^ 16.
Definition RADEON_FLAG_XCLIPSE_CACHEABLE : Z := 2 ^ 17.

(** The winsys-local bit of [bo_flags]. *)
Definition RADV_XCLIPSE_VA_MTYPE_DEFAULT : Z := 2 ^ 31.

Definition AMDGPU_GEM_DOMAIN_GTT : Z := 2.
Definition AMDGPU_GEM_DOMAIN_VRAM : Z := 4.
Definition AMDGPU_GEM_DOMAIN_GDS : Z := 8.
Definition AMDGPU_GEM_DOMAIN_OA : Z := 32.

Definition AMDGPU_GEM_CREATE_CPU_ACCESS_REQUIRED : Z := 2 ^ 0.
Definition AMDGPU_GEM_CREATE_NO_CPU_ACCESS : Z := 2 ^ 1.
Definition AMDGPU_GEM_CREATE_CPU_GTT_USWC : Z := 2 ^ 2.
Definition AMDGPU_GEM_CREATE_VM_ALWAYS_VALID : Z := 2 ^ 6.
Definition AMDGPU_GEM_CREATE_EXPLICIT_SYNC : Z := 2 ^ 7.
Definition AMDGPU_GEM_CREATE_ENCRYPTED : Z := 2 ^ 10.
Definition AMDGPU_GEM_CREATE_DISCARDABLE : Z := 2 ^ 12.
Definition AMDGPU_GEM_CREATE_GFX12_DCC : Z := 2 ^ 16.
(** sid.h defines it when libdrm does not. *)
Definition AMDGPU_GEM_CREATE_VIRTIO_SHARED : Z := 2 ^ 31.

Definition AMDGPU_VM_PAGE_READABLE : Z := 2 ^ 1.
Definition AMDGPU_VM_PAGE_WRITEABLE : Z := 2 ^ 2.
Definition AMDGPU_VM_PAGE_EXECUTABLE : Z := 2 ^ 3.
Definition AMDGPU_VM_PAGE_PRT : Z := 2 ^ 4.
Definition AMDGPU_VM_MTYPE_NC : Z := Z.shiftl 1 5.
Definition AMDGPU_VM_MTYPE_WC : Z := Z.shiftl 2 5.
Definition AMDGPU_VM_MTYPE_CC : Z := Z.shiftl 3 5.
Definition AMDGPU_VM_MTYPE_UC : Z := Z.shiftl 4 5.
Definition AMDGPU_VM_MTYPE_RW : Z := Z.shiftl 5 5.

Inductive amdgpu_va_op :=
| AMDGPU_VA_OP_MAP | AMDGPU_VA_OP_UNMAP | AMDGPU_VA_OP_CLEAR | AMDGPU_VA_OP_REPLACE.

#[global] Instance amdgpu_va_op_eq_dec : EqDecision amdgpu_va_op.
Proof. solve_decision. Defined.

(** [AMDGPU_VA_RANGE_*] of libdrm's amdgpu.h. *)
Definition AMDGPU_VA_RANGE_32_BIT : Z := 1.
Definition AMDGPU_VA_RANGE_HIGH : Z := 2.
Definition AMDGPU_VA_RANGE_REPLAYABLE : Z := 4.

(** * Data *)

(** [struct radeon_winsys_bo] (the fields up to [obj_id]) and [struct radv_amdgpu_winsys_bo]. *)
Record radv_amdgpu_winsys_bo := WinsysBo {
  bo_va : Z;
  bo_size : Z;
  is_local : bool;
  vram_no_cpu_access : bool;
  use_global_list : bool;
  gfx12_allow_dcc : bool;
  is_virtual : bool;
  imported : bool;
  initial_domain : Z;
  obj_id : Z;
  va_handle : Z;
  bo_flags : Z;
  bo_priority : Z;
  bo_buf : Z;
  bo_handle : Z;
  cpu_map : Z;
  emulate_sparse_residency : bool;
  xclipse_alignment : Z;
  churn_counted : bool
}.

Definition with_cpu_map (m : Z) (bo : radv_amdgpu_winsys_bo) : radv_amdgpu_winsys_bo :=
  WinsysBo (bo_va bo) (bo_size bo) (is_local bo) (vram_no_cpu_access bo) (use_global_list bo)
    (gfx12_allow_dcc bo) (is_virtual bo) (imported bo) (initial_domain bo) (obj_id bo) (va_handle bo)
    (bo_flags bo) (bo_priority bo) (bo_buf bo) (bo_handle bo) m (emulate_sparse_residency bo)
    (xclipse_alignment bo) (churn_counted bo).
Definition with_use_global_list (g : bool) (bo : radv_amdgpu_winsys_bo) : radv_amdgpu_winsys_bo :=
  WinsysBo (bo_va bo) (bo_size bo) (is_local bo) (vram_no_cpu_access bo) g
    (gfx12_allow_dcc bo) (is_virtual bo) (imported bo) (initial_domain bo) (obj_id bo) (va_handle bo)
    (bo_flags bo) (bo_priority bo) (bo_buf bo) (bo_handle bo) (cpu_map bo) (emulate_sparse_residency bo)
    (xclipse_alignment bo) (churn_counted bo).
Definition with_va (va : Z) (bo : radv_amdgpu_winsys_bo) : radv_amdgpu_winsys_bo :=
  WinsysBo va (bo_size bo) (is_local bo) (vram_no_cpu_access bo) (use_global_list bo)
    (gfx12_allow_dcc bo) (is_virtual bo) (imported bo) (initial_domain bo) (obj_id bo) (va_handle bo)
    (bo_flags bo) (bo_priority bo) (bo_buf bo) (bo_handle bo) (cpu_map bo) (emulate_sparse_residency bo)
    (xclipse_alignment bo) (churn_counted bo).
Definition with_priority (pr : Z) (bo : radv_amdgpu_winsys_bo) : radv_amdgpu_winsys_bo :=
  WinsysBo (bo_va bo) (bo_size bo) (is_local bo) (vram_no_cpu_access bo) (use_global_list bo)
    (gfx12_allow_dcc bo) (is_virtual bo) (imported bo) (initial_domain bo) (obj_id bo) (va_handle bo)
    (bo_flags bo) pr (bo_buf bo) (bo_handle bo) (cpu_map bo) (emulate_sparse_residency bo)
    (xclipse_alignment bo) (churn_counted bo).

(** What [radeon_info] and the debug options say; it never changes. *)
Record winsys_info := WinsysInfo {
  ws_dev : Z;
  ws_cookie : Z;
  gfx11_shader_core : bool;
  pci_id : Z;
  ws_gfx_level : amd_gfx_level;
  pte_fragment_size : Z;
  gart_page_size : Z;
  vram_size_kb : Z;
  is_virtio : bool;
  drm_minor : Z;
  address_prt_wa_control_bit : Z;
  has_tmz_support : bool;
  has_smem_with_null_prt_bug : bool;
  perftest_no_gtt_spill : bool;
  perftest_local_bos : bool;
  debug_vm : bool;
  debug_all_bos : bool
}.

(** [struct radv_amdgpu_winsys].  [global_bos] is the first [count] entries of the array of
    [global_bo_list]; [ib_cache_bos] is the cache of command streams, only emptied here. *)
Record radv_amdgpu_winsys := Winsys {
  ws_info : winsys_info;
  global_bos : list Z;
  global_capacity : Z;
  vm_timeline_seq_num : Z;
  null_prt_bo : option Z;
  ib_cache_bos : list Z
}.

(** [struct radv_amdgpu_alloc_tracker]. *)
Record radv_amdgpu_alloc_tracker := Tracker {
  allocated_vram : Z;
  allocated_vram_vis : Z;
  allocated_gtt : Z;
  tr_refcount : Z
}.

(** [struct radv_xclipse_ibcache_entry]. *)
Record radv_xclipse_ibcache_entry := Entry {
  e_bo : Z;
  e_ws : Z;
  e_size : Z;
  e_alignment : Z;
  e_flags : Z;
  e_domain : Z
}.

(** The static counters of [radv_xclipse_bo_churn] and the size histogram. *)
Record churn := Churn {
  bo_hist : list Z;
  n_create : Z;
  n_destroy : Z;
  bytes_created : Z;
  live_bytes : Z
}.

(** [struct amdgpu_bo_alloc_request] and what the kernel reports of a buffer. *)
Record bo_alloc_request := BoRequest {
  alloc_size : Z;
  phys_alignment : Z;
  preferred_heap : Z;
  alloc_flags : Z
}.
Record amdgpu_bo_info := BoInfo { info_heap : Z; info_flags : Z; info_alloc_size : Z }.

(** The arguments of [DRM_AMDGPU_GEM_VA]; [vo_point] is the timeline point of the second form. *)
Record va_op_args := VaOp {
  vo_dev : Z;
  vo_handle : Z;
  vo_offset : Z;
  vo_size : Z;
  vo_addr : Z;
  vo_flags : Z;
  vo_ops : amdgpu_va_op;
  vo_point : option Z
}.

(** * The kernel, libdrm and libc *)

Class Drm (K : Type) := {
  getpagesize : Z;
  os_calloc : K -> K * bool;
  os_realloc : K -> K * bool;
  os_mmap : Z -> Z -> Z -> option Z -> K -> K * option Z;
  os_munmap : Z -> Z -> K -> K;
  sysfs_gtt_used : K -> K * option (option Z);
  env_mtype : K -> option Z;
  prop_mtype : K -> option Z;
  drm_va_range_alloc : Z -> Z -> Z -> Z -> Z -> K -> K * option (Z * Z);
  drm_va_range_free : Z -> K -> K;
  drm_bo_alloc : Z -> bo_alloc_request -> K -> K * option Z;
  drm_bo_from_user_mem : Z -> Z -> Z -> K -> K * option Z;
  drm_bo_import : Z -> Z -> K -> K * option (Z * Z);
  drm_bo_export_kms : Z -> Z -> K -> option Z;
  drm_bo_query_info : Z -> Z -> K -> option amdgpu_bo_info;
  drm_bo_free : Z -> Z -> K -> K;
  drm_bo_va_op : va_op_args -> K -> K * Z;
  drm_timeline_wait : Z -> Z -> K -> K * Z;
  drm_bo_cpu_map : Z -> Z -> option Z -> K -> K * option Z;
  drm_bo_cpu_unmap : Z -> Z -> K -> K;
  drm_syncobj_create : Z -> K -> K * bool
}.

(** * The process *)

Record proc (K : Type) := Proc {
  p_k : K;
  p_winsys : gmap Z radv_amdgpu_winsys;
  p_bos : gmap Z radv_amdgpu_winsys_bo;
  p_trackers : gmap Z radv_amdgpu_alloc_tracker;
  p_cache : list radv_xclipse_ibcache_entry;
  p_cache_bytes : Z;
  p_dying : option Z;
  p_mt : Z;
  p_sysfs_ok : Z;
  p_churn : churn;
  p_next : Z
}.
Arguments Proc {K}.
Arguments p_k {K}.
Arguments p_winsys {K}.
Arguments p_bos {K}.
Arguments p_trackers {K}.
Arguments p_cache {K}.
Arguments p_cache_bytes {K}.
Arguments p_dying {K}.
Arguments p_mt {K}.
Arguments p_sysfs_ok {K}.
Arguments p_churn {K}.
Arguments p_next {K}.

Definition set_k {K} (k : K) (p : proc K) : proc K :=
  Proc k (p_winsys p) (p_bos p) (p_trackers p) (p_cache p) (p_cache_bytes p) (p_dying p) (p_mt p)
    (p_sysfs_ok p) (p_churn p) (p_next p).
Definition set_winsys {K} m (p : proc K) : proc K :=
  Proc (p_k p) m (p_bos p) (p_trackers p) (p_cache p) (p_cache_bytes p) (p_dying p) (p_mt p)
    (p_sysfs_ok p) (p_churn p) (p_next p).
Definition set_bos {K} m (p : proc K) : proc K :=
  Proc (p_k p) (p_winsys p) m (p_trackers p) (p_cache p) (p_cache_bytes p) (p_dying p) (p_mt p)
    (p_sysfs_ok p) (p_churn p) (p_next p).
Definition set_trackers {K} m (p : proc K) : proc K :=
  Proc (p_k p) (p_winsys p) (p_bos p) m (p_cache p) (p_cache_bytes p) (p_dying p) (p_mt p)
    (p_sysfs_ok p) (p_churn p) (p_next p).
Definition set_cache {K} l bytes (p : proc K) : proc K :=
  Proc (p_k p) (p_winsys p) (p_bos p) (p_trackers p) l bytes (p_dying p) (p_mt p)
    (p_sysfs_ok p) (p_churn p) (p_next p).
Definition set_dying {K} d (p : proc K) : proc K :=
  Proc (p_k p) (p_winsys p) (p_bos p) (p_trackers p) (p_cache p) (p_cache_bytes p) d (p_mt p)
    (p_sysfs_ok p) (p_churn p) (p_next p).
Definition set_mt {K} v (p : proc K) : proc K :=
  Proc (p_k p) (p_winsys p) (p_bos p) (p_trackers p) (p_cache p) (p_cache_bytes p) (p_dying p) v
    (p_sysfs_ok p) (p_churn p) (p_next p).
Definition set_sysfs_ok {K} v (p : proc K) : proc K :=
  Proc (p_k p) (p_winsys p) (p_bos p) (p_trackers p) (p_cache p) (p_cache_bytes p) (p_dying p) (p_mt p)
    v (p_churn p) (p_next p).
Definition set_churn {K} c (p : proc K) : proc K :=
  Proc (p_k p) (p_winsys p) (p_bos p) (p_trackers p) (p_cache p) (p_cache_bytes p) (p_dying p) (p_mt p)
    (p_sysfs_ok p) c (p_next p).
Definition set_next {K} n (p : proc K) : proc K :=
  Proc (p_k p) (p_winsys p) (p_bos p) (p_trackers p) (p_cache p) (p_cache_bytes p) (p_dying p) (p_mt p)
    (p_sysfs_ok p) (p_churn p) n.

(** * Computations *)

Definition M (K A : Type) : Type := proc K -> option (A * proc K).

#[global] Instance M_ret K : MRet (M K) := fun A a p => Some (a, p).
#[global] Instance M_bind K : MBind (M K) := fun A B f m p =>
  match m p with Some (a, p') => f a p' | None => None end.

Definition gets {K A} (f : proc K -> A) : M K A := fun p => Some (f p, p).
Definition modify {K} (f : proc K -> proc K) : M K unit := fun p => Some (tt, f p).
Definition massert {K} (b : bool) : M K unit := fun p => if b then Some (tt, p) else None.
Definition deref {K A} (f : proc K -> option A) : M K A :=
  fun p => match f p with Some a => Some (a, p) | None => None end.
Definition kcall {K A} (f : K -> K * A) : M K A :=
  fun p => let '(k, a) := f (p_k p) in Some (a, set_k k p).
Definition kdo {K} (f : K -> K) : M K unit := modify (fun p => set_k (f (p_k p)) p).
Definition when {K} (b : bool) (m : M K unit) : M K unit := if b then m else mret tt.

Definition get_ws {K} (w : Z) : M K radv_amdgpu_winsys := deref (fun p => p_winsys p !! w).
Definition get_bo {K} (b : Z) : M K radv_amdgpu_winsys_bo := deref (fun p => p_bos p !! b).
Definition put_ws {K} (w : Z) (ws : radv_amdgpu_winsys) : M K unit :=
  modify (fun p => set_winsys (<[w := ws]> (p_winsys p)) p).
Definition put_bo {K} (b : Z) (bo : radv_amdgpu_winsys_bo) : M K unit :=
  modify (fun p => set_bos (<[b := bo]> (p_bos p)) p).
(** [FREE (bo)]. *)
Definition free_bo {K} (b : Z) : M K unit := modify (fun p => set_bos (delete b (p_bos p)) p).

(** * Counters *)

(** [while (b < 7 && size >= lim) { lim *= 4; b++; }]: at most seven rounds. *)
Fixpoint size_bucket_from (fuel : nat) (b lim size : Z) : Z :=
  match fuel with
  | O => b
  | S fuel => if (b <? 7) && (lim <=? size) then size_bucket_from fuel (b + 1) (lim * 4) size else b
  end.
Definition radv_xclipse_size_bucket (size : Z) : Z := size_bucket_from 7 0 (16 * 1024) size.

(** The counters only; the report is logging. *)
Definition churn_event (size : Z) (created : bool) (c : churn) : churn :=
  if created then
    Churn (alter (fun n => u32 (n + 1)) (Z.to_nat (radv_xclipse_size_bucket size)) (bo_hist c))
      (u32 (n_create c + 1)) (n_destroy c) (u64 (bytes_created c + size)) (u64 (live_bytes c + size))
  else
    Churn (bo_hist c) (n_create c) (u32 (n_destroy c + 1)) (bytes_created c) (u64 (live_bytes c - size)).

Definition radv_xclipse_bo_churn {K} (size : Z) (created : bool) : M K unit :=
  modify (fun p => set_churn (churn_event size created (p_churn p)) p).

(** [p_atomic_add] of the three counters of a tracker. *)
Definition tracker_add (vram vram_vis gtt : Z) (t : radv_amdgpu_alloc_tracker) : radv_amdgpu_alloc_tracker :=
  Tracker (u64 (allocated_vram t + vram)) (u64 (allocated_vram_vis t + vram_vis))
    (u64 (allocated_gtt t + gtt)) (tr_refcount t).

(** The bytes a buffer counts for, in the order VRAM, visible VRAM, GTT. *)
Definition bo_bytes (i : winsys_info) (bo : radv_amdgpu_winsys_bo) : Z * Z * Z :=
  let n := align64 (bo_size bo) (gart_page_size i) in
  let vram := has (initial_domain bo) RADEON_DOMAIN_VRAM in
  (if vram && vram_no_cpu_access bo then n else 0,
   if vram && negb (vram_no_cpu_access bo) then n else 0,
   if has (initial_domain bo) RADEON_DOMAIN_GTT then n else 0).

(** The counting at the end of a creation ([sign] 1) and of a destruction ([sign] -1). *)
Definition count_bo {K} (sign : Z) (i : winsys_info) (bo : radv_amdgpu_winsys_bo) : M K unit :=
  let! t := deref (fun p => p_trackers p !! ws_cookie i) ;;
  let '(vram, vis, gtt) := bo_bytes i bo in
  modify (fun p => set_trackers
    (<[ws_cookie i := tracker_add (sign * vram) (sign * vis) (sign * gtt) t]> (p_trackers p)) p).

(** [radv_amdgpu_alloc_tracker_acquire]: the hash table is keyed by the cookie of the device; its
    creation counts as one more allocation that may fail. *)
Definition radv_amdgpu_alloc_tracker_acquire {K} `{!Drm K} (cookie : Z) : M K bool :=
  let! m := gets p_trackers ;;
  let! table := (if decide (m = ∅) then kcall os_calloc else mret true) ;;
  if negb table then mret false
  else
    match m !! cookie with
    | Some t =>
        let! _ := modify (set_trackers (<[cookie := Tracker (allocated_vram t) (allocated_vram_vis t)
                                           (allocated_gtt t) (u32 (tr_refcount t + 1))]> m)) ;;
        mret true
    | None =>
        let! ok := kcall os_calloc ;;
        if negb ok then mret false
        else
          let! _ := modify (set_trackers (<[cookie := Tracker 0 0 0 1]> m)) ;;
          mret true
    end.

Definition radv_amdgpu_alloc_tracker_release {K} (cookie : Z) : M K unit :=
  let! t := deref (fun p => p_trackers p !! cookie) ;;
  let n := u32 (tr_refcount t - 1) in
  modify (fun p => set_trackers
    (if n =? 0 then delete cookie (p_trackers p)
     else <[cookie := Tracker (allocated_vram t) (allocated_vram_vis t) (allocated_gtt t) n]> (p_trackers p)) p).

(** * The memory guard *)

Definition XCLIPSE_MEMGUARD_LIMIT : Z := Z.shiftl 8192 20.

Section ops.
Context {K : Type} `{!Drm K}.

Definition xclipse_memguard_reject (i : winsys_info) (size : Z) : M K bool :=
  if negb (gfx11_shader_core i) || (size <? Z.shiftl 2 20) then mret false
  else
    let! ok := gets p_sysfs_ok ;;
    let! used :=
      (if ok =? 0 then mret 0
       else
         let! f := kcall sysfs_gtt_used ;;
         match f with
         | Some (Some used) => let! _ := modify (set_sysfs_ok 1) ;; mret used
         | _ => let! _ := modify (set_sysfs_ok 0) ;; mret 0
         end) ;;
    let! ok := gets p_sysfs_ok ;;
    let! used :=
      (if negb (ok =? 1) then
         let! t := deref (fun p => p_trackers p !! ws_cookie i) ;; mret (allocated_gtt t)
       else mret used) ;;
    mret (XCLIPSE_MEMGUARD_LIMIT <? u64 (used + size)).

(** * The GPU address space *)

(** Sampled once for the process; -2 is "not sampled yet". *)
Definition radv_xclipse_mtype (i : winsys_info) : M K Z :=
  let! mt := gets p_mt ;;
  if negb (mt =? -2) then mret mt
  else
    let! e := gets (fun p => env_mtype (p_k p)) ;;
    let! prop := gets (fun p => prop_mtype (p_k p)) ;;
    let v := match e with Some v => v | None => default (-1) prop end in
    let v := if (v <? 0) && (pci_id i =? 0x73a0) then 0 else v in
    let v := if 5 <? v then -1 else v in
    let! _ := modify (set_mt v) ;;
    mret v.

Definition mtv (mt : Z) : Z :=
  default 0 ([0; AMDGPU_VM_MTYPE_NC; AMDGPU_VM_MTYPE_WC; AMDGPU_VM_MTYPE_CC; AMDGPU_VM_MTYPE_UC;
              AMDGPU_VM_MTYPE_RW] !! Z.to_nat mt).

(** The page flags of a mapping of a buffer. *)
Definition va_page_flags (i : winsys_info) (mt bo_flags : Z) : Z :=
  let flags := Z.lor AMDGPU_VM_PAGE_READABLE AMDGPU_VM_PAGE_EXECUTABLE in
  let flags :=
    if 0 <=? mt then Z.lor flags (mtv mt)
    else if has bo_flags RADV_XCLIPSE_VA_MTYPE_DEFAULT then flags
    else if has bo_flags RADEON_FLAG_GL2_BYPASS && gfx_ge (ws_gfx_level i) GFX9
    then Z.lor flags AMDGPU_VM_MTYPE_UC
    else if gfx_ge (ws_gfx_level i) GFX9 then Z.lor flags AMDGPU_VM_MTYPE_CC
    else flags in
  if has bo_flags RADEON_FLAG_READ_ONLY then flags else Z.lor flags AMDGPU_VM_PAGE_WRITEABLE.

Definition radv_amdgpu_bo_va_op (w : Z) (handle offset size addr bo_flags internal_flags : Z)
    (ops : amdgpu_va_op) : M K Z :=
  let! ws := get_ws w ;;
  let i := ws_info ws in
  let! flags :=
    (if handle =? 0 then mret internal_flags
     else let! mt := radv_xclipse_mtype i ;; mret (va_page_flags i mt bo_flags)) ;;
  let size := align64 size getpagesize in
  if has bo_flags RADEON_FLAG_VM_UPDATE_WAIT then
    let! _ := massert (bool_decide (ops = AMDGPU_VA_OP_MAP)) ;;
    let point := u64 (vm_timeline_seq_num ws + 1) in
    let! _ := put_ws w (Winsys i (global_bos ws) (global_capacity ws) point (null_prt_bo ws) (ib_cache_bos ws)) ;;
    let! r := kcall (drm_bo_va_op (VaOp (ws_dev i) handle offset size addr flags ops (Some point))) ;;
    if negb (r =? 0) then mret r else kcall (drm_timeline_wait (ws_dev i) point)
  else kcall (drm_bo_va_op (VaOp (ws_dev i) handle offset size addr flags ops None)).

Definition radv_amdgpu_canonicalize_va (va : Z) : Z := Z.land va (Z.shiftl 1 48 - 1).

Definition radv_amdgpu_bo_va_size (bo_size flags : Z) : Z :=
  if has flags RADEON_FLAG_VM_PAD_1PAGE then u64 (align64 bo_size 4096 + 4096) else bo_size.

Definition radv_amdgpu_virtual_bo_get_low_addr (i : winsys_info) (bo : radv_amdgpu_winsys_bo) : Z :=
  Z.land (bo_va bo) (u64 (Z.lnot (Z.shiftl 1 (address_prt_wa_control_bit i)))).

(** The loop over [bo_size] in chunks of the zero buffer.  [fuel] bounds the number of rounds; 0 is
    returned when it runs out, which [bo_size / chunk + 1] rounds never do. *)
Fixpoint bind_low_chunks (fuel : nat) (w null_handle null_size base offset bo_size : Z) (ops : amdgpu_va_op)
  : M K Z :=
  match fuel with
  | O => mret 0
  | S fuel =>
      if 0 <? bo_size then
        let chunk_size := Z.min bo_size null_size in
        let! r := radv_amdgpu_bo_va_op w null_handle 0 chunk_size (u64 (base + offset)) 0 0 ops ;;
        if negb (r =? 0) then mret r
        else bind_low_chunks fuel w null_handle null_size base (offset + chunk_size) (bo_size - chunk_size) ops
      else mret 0
  end.

Definition radv_amdgpu_virtual_bo_bind_low_null_prt (w : Z) (bo : radv_amdgpu_winsys_bo)
    (bo_offset bo_size : Z) (ops : amdgpu_va_op) : M K Z :=
  let! ws := get_ws w ;;
  let low_va := radv_amdgpu_virtual_bo_get_low_addr (ws_info ws) bo in
  let! _ := massert ((bo_offset mod 4096 =? 0) && (bo_size mod 4096 =? 0)) ;;
  if 0 <? bo_size then
    let! nb := deref (fun _ => null_prt_bo ws) ;;
    let! null := get_bo nb ;;
    bind_low_chunks (Z.to_nat (bo_size / BoModel.bo_size null) + 1) w (bo_handle null) (BoModel.bo_size null)
      (low_va + bo_offset) 0 bo_size ops
  else mret 0.

Definition radv_amdgpu_virtual_bo_init_mapping (w : Z) (bo : radv_amdgpu_winsys_bo) (size : Z) : M K Z :=
  let! r := radv_amdgpu_bo_va_op w 0 0 size (bo_va bo) 0 AMDGPU_VM_PAGE_PRT AMDGPU_VA_OP_MAP ;;
  if negb (r =? 0) then mret r
  else if emulate_sparse_residency bo
  then radv_amdgpu_virtual_bo_bind_low_null_prt w bo 0 size AMDGPU_VA_OP_MAP
  else mret r.

Definition radv_amdgpu_virtual_bo_clear_mapping (w : Z) (bo : radv_amdgpu_winsys_bo) : M K Z :=
  let! ws := get_ws w ;;
  let! r := radv_amdgpu_bo_va_op w 0 0 (bo_size bo) (bo_va bo) 0 0 AMDGPU_VA_OP_CLEAR ;;
  if negb (r =? 0) then mret r
  else if emulate_sparse_residency bo
  then radv_amdgpu_bo_va_op w 0 0 (bo_size bo) (radv_amdgpu_virtual_bo_get_low_addr (ws_info ws) bo) 0 0
         AMDGPU_VA_OP_CLEAR
  else mret r.

Definition radv_amdgpu_virtual_bo_map (w : Z) (parent : radv_amdgpu_winsys_bo) (offset size : Z)
    (bo : radv_amdgpu_winsys_bo) (bo_offset : Z) : M K Z :=
  let! ws := get_ws w ;;
  let bypass := Z.land (bo_flags bo) RADEON_FLAG_GL2_BYPASS in
  let! r := radv_amdgpu_bo_va_op w (bo_handle bo) bo_offset size (u64 (bo_va parent + offset)) bypass 0
              AMDGPU_VA_OP_REPLACE ;;
  if negb (r =? 0) then mret r
  else if emulate_sparse_residency parent then
    let low_va := radv_amdgpu_virtual_bo_get_low_addr (ws_info ws) parent in
    radv_amdgpu_bo_va_op w (bo_handle bo) bo_offset size (u64 (low_va + offset)) bypass 0 AMDGPU_VA_OP_REPLACE
  else mret r.

Definition radv_amdgpu_virtual_bo_unmap (w : Z) (parent : radv_amdgpu_winsys_bo) (offset size : Z) : M K Z :=
  let! r := radv_amdgpu_bo_va_op w 0 0 size (u64 (bo_va parent + offset)) 0 AMDGPU_VM_PAGE_PRT
              AMDGPU_VA_OP_REPLACE ;;
  if negb (r =? 0) then mret r
  else if emulate_sparse_residency parent
  then radv_amdgpu_virtual_bo_bind_low_null_prt w parent offset size AMDGPU_VA_OP_REPLACE
  else mret r.

Definition radv_amdgpu_winsys_bo_virtual_bind (w parent offset size : Z) (bo : option Z) (bo_offset : Z)
  : M K VkResult :=
  let! pb := get_bo parent ;;
  let! _ := massert (is_virtual pb) ;;
  let! r :=
    (match bo with
     | Some b =>
         let! bo := get_bo b ;;
         let! _ := massert (negb (is_virtual bo)) ;;
         radv_amdgpu_virtual_bo_map w pb offset size bo bo_offset
     | None => radv_amdgpu_virtual_bo_unmap w pb offset size
     end) ;;
  mret (if negb (r =? 0) then VK_ERROR_OUT_OF_DEVICE_MEMORY else VK_SUCCESS).

(** * The global buffer list *)

Definition radv_amdgpu_global_bo_list_add (w b : Z) : M K VkResult :=
  let! ws := get_ws w ;;
  let full := Z.of_nat (length (global_bos ws)) =? global_capacity ws in
  let! ok := (if full then kcall os_realloc else mret true) ;;
  if negb ok then mret VK_ERROR_OUT_OF_HOST_MEMORY
  else
    let capacity := if full then Z.max 4 (u32 (global_capacity ws * 2)) else global_capacity ws in
    let! bo := get_bo b ;;
    let! _ := put_ws w (Winsys (ws_info ws) (global_bos ws ++ [b]) capacity (vm_timeline_seq_num ws)
                          (null_prt_bo ws) (ib_cache_bos ws)) ;;
    let! _ := put_bo b (with_use_global_list true bo) ;;
    mret VK_SUCCESS.

(** The index of the last occurrence, searching from the end. *)
Fixpoint last_index_from (n : nat) (b : Z) (l : list Z) : option nat :=
  match n with
  | O => None
  | S n => if bool_decide (l !! n = Some b) then Some n else last_index_from n b l
  end.

Definition radv_amdgpu_global_bo_list_del (w b : Z) : M K unit :=
  let! ws := get_ws w ;;
  match last_index_from (length (global_bos ws)) b (global_bos ws) with
  | None => mret tt
  | Some i =>
      let! bo := get_bo b ;;
      let! _ := put_ws w (Winsys (ws_info ws) (swap_remove i (global_bos ws)) (global_capacity ws)
                            (vm_timeline_seq_num ws) (null_prt_bo ws) (ib_cache_bos ws)) ;;
      put_bo b (with_use_global_list false bo)
  end.

Definition radv_amdgpu_winsys_bo_make_resident (w b : Z) (resident : bool) : M K VkResult :=
  let! bo := get_bo b ;;
  let! ws := get_ws w ;;
  if is_local bo then mret VK_SUCCESS
  else if debug_all_bos (ws_info ws) then mret VK_SUCCESS
  else if resident then radv_amdgpu_global_bo_list_add w b
  else let! _ := radv_amdgpu_global_bo_list_del w b ;; mret VK_SUCCESS.

Definition radv_amdgpu_winsys_virtual_bo_destroy (w b : Z) : M K unit :=
  let! bo := get_bo b ;;
  let! _ := radv_amdgpu_virtual_bo_clear_mapping w bo ;;
  let! _ := kdo (drm_va_range_free (va_handle bo)) ;;
  free_bo b.

(** * The reuse cache of command buffers *)

Definition RADV_XCLIPSE_IBCACHE_BUCKETS : Z := 64.
Definition RADV_XCLIPSE_IBCACHE_CAP : Z := Z.shiftl 64 20.

Definition radv_xclipse_ibcache_cacheable (bo : radv_amdgpu_winsys_bo) : bool :=
  if is_virtual bo || imported bo then false
  else if negb (has (bo_flags bo) RADEON_FLAG_NO_INTERPROCESS_SHARING) then false
  else if negb (has (bo_flags bo) RADEON_FLAG_XCLIPSE_CACHEABLE) then false
  else if has (bo_flags bo) (Z.lor RADEON_FLAG_VIRTUAL RADEON_FLAG_REPLAYABLE) then false
  else if emulate_sparse_residency bo then false
  else true.

Definition radv_xclipse_ibcache_park (w b : Z) (alignment : Z) : M K bool :=
  let! bo := get_bo b ;;
  if negb (radv_xclipse_ibcache_cacheable bo) then mret false
  else
    let! dying := gets p_dying ;;
    if bool_decide (dying = Some w) then mret false
    else
      let! cache := gets p_cache ;;
      let! bytes := gets p_cache_bytes ;;
      if (RADV_XCLIPSE_IBCACHE_BUCKETS <=? Z.of_nat (length cache))
         || (RADV_XCLIPSE_IBCACHE_CAP <? u64 (bytes + bo_size bo))
      then mret false
      else
        let! _ := when (negb (cpu_map bo =? 0))
                    (let! _ := kdo (os_munmap (cpu_map bo) (bo_size bo)) ;; put_bo b (with_cpu_map 0 bo)) ;;
        let! _ := modify (set_cache (cache ++ [Entry b w (bo_size bo) alignment (bo_flags bo) (initial_domain bo)])
                            (u64 (bytes + bo_size bo))) ;;
        mret true.

(** The VRAM domain of a device without VRAM. *)
Definition normalise_domain (i : winsys_info) (domain : Z) : Z :=
  if (vram_size_kb i =? 0) && has domain RADEON_DOMAIN_VRAM
  then Z.lor (Z.land domain (Z.lnot RADEON_DOMAIN_VRAM)) RADEON_DOMAIN_GTT
  else domain.

Definition entry_matches (w size alignment flags domain : Z) (e : radv_xclipse_ibcache_entry) : bool :=
  (e_ws e =? w) && (e_size e =? size) && (e_alignment e =? alignment) && (e_flags e =? flags)
  && (e_domain e =? domain).

(** The first entry that satisfies [f], from index [i]. *)
Fixpoint find_entry (f : radv_xclipse_ibcache_entry -> bool) (i : nat) (l : list radv_xclipse_ibcache_entry)
  : option (nat * radv_xclipse_ibcache_entry) :=
  match l with
  | [] => None
  | e :: l => if f e then Some (i, e) else find_entry f (S i) l
  end.

(** Take the first entry that satisfies [f] out of the cache: the loop of both users of the cache. *)
Definition cache_take (f : radv_xclipse_ibcache_entry -> bool) : M K (option Z) :=
  let! cache := gets p_cache ;;
  let! bytes := gets p_cache_bytes ;;
  match find_entry f 0 cache with
  | Some (i, e) =>
      let! _ := modify (set_cache (swap_remove i cache) (u64 (bytes - e_size e))) ;;
      mret (Some (e_bo e))
  | None => mret None
  end.

Definition radv_xclipse_ibcache_reuse (w size alignment domain flags : Z) : M K (option Z) :=
  if negb (has flags RADEON_FLAG_XCLIPSE_CACHEABLE) || negb (has flags RADEON_FLAG_NO_INTERPROCESS_SHARING)
  then mret None
  else
    let! ws := get_ws w ;;
    cache_take (entry_matches w size alignment flags (normalise_domain (ws_info ws) domain)).

(** * Destruction *)

(** The unmaps of a plain buffer: the padding page, then the buffer. *)
Definition unmap_bo (w : Z) (bo : radv_amdgpu_winsys_bo) : M K Z :=
  let! _ := when (has (bo_flags bo) RADEON_FLAG_VM_PAD_1PAGE)
              (let! _ := radv_amdgpu_bo_va_op w (bo_handle bo) 0 4096
                           (u64 (bo_va bo + align64 (bo_size bo) 4096)) 0 0 AMDGPU_VA_OP_UNMAP ;;
               mret tt) ;;
  radv_amdgpu_bo_va_op w (bo_handle bo) 0 (radv_amdgpu_bo_va_size (bo_size bo) (bo_flags bo)) (bo_va bo) 0 0
    AMDGPU_VA_OP_UNMAP.

(** [radv_amdgpu_winsys_bo_destroy] after the cache has declined the buffer. *)
Definition bo_destroy_now (w b : Z) : M K unit :=
  let! bo := get_bo b ;;
  let! _ := when (churn_counted bo) (radv_xclipse_bo_churn (bo_size bo) false) ;;
  if is_virtual bo then radv_amdgpu_winsys_virtual_bo_destroy w b
  else
    let! ws := get_ws w ;;
    let i := ws_info ws in
    let! _ := when (negb (cpu_map bo =? 0)) (kdo (os_munmap (cpu_map bo) (bo_size bo))) ;;
    let! _ := when (debug_all_bos i) (radv_amdgpu_global_bo_list_del w b) ;;
    let! _ := unmap_bo w bo ;;
    let! _ := kdo (drm_bo_free (ws_dev i) (bo_buf bo)) ;;
    let! _ := count_bo (-1) i bo ;;
    let! _ := kdo (drm_va_range_free (va_handle bo)) ;;
    free_bo b.

Definition radv_amdgpu_winsys_bo_destroy (w b : Z) : M K unit :=
  let! bo := get_bo b ;;
  let! parked := radv_xclipse_ibcache_park w b (xclipse_alignment bo) ;;
  if (parked : bool) then mret tt else bo_destroy_now w b.

(** One round of the loop; [true] is its [return]. *)
Definition purge_round (w : Z) : M K bool :=
  let! bo := cache_take (fun e => e_ws e =? w) ;;
  match bo with
  | None => mret true
  | Some b => let! _ := radv_amdgpu_winsys_bo_destroy w b ;; mret false
  end.

(** [for (;;)]: the result says whether the loop has returned within [fuel] rounds. *)
Fixpoint radv_xclipse_ibcache_purge_ws (fuel : nat) (w : Z) : M K bool :=
  match fuel with
  | O => mret false
  | S fuel =>
      let! done := purge_round w ;;
      if (done : bool) then mret true else radv_xclipse_ibcache_purge_ws fuel w
  end.

Definition radv_xclipse_ibcache_winsys_begin_destroy (fuel : nat) (w : Z) : M K bool :=
  let! _ := modify (set_dying (Some w)) ;;
  radv_xclipse_ibcache_purge_ws fuel w.

Definition radv_xclipse_ibcache_winsys_end_destroy (fuel : nat) (w : Z) : M K bool :=
  let! done := radv_xclipse_ibcache_purge_ws fuel w ;;
  if negb done then mret false
  else
    let! dying := gets p_dying ;;
    let! _ := when (bool_decide (dying = Some w)) (modify (set_dying None)) ;;
    mret true.

(** * Creation *)

(** [CALLOC_STRUCT]: the address of a new structure; it is stored when its fields have been filled,
    until which only the function that creates it knows it. *)
Definition alloc_bo : M K (option Z) :=
  let! ok := kcall os_calloc ;;
  if negb ok then mret None
  else
    let! b := gets p_next ;;
    let! _ := modify (set_next (b + 1)) ;;
    mret (Some b).

Definition virt_alignment (i : winsys_info) (size alignment : Z) : Z :=
  if pte_fragment_size i <=? size then Z.max alignment (pte_fragment_size i) else alignment.

Definition va_range_flags (flags : Z) : Z :=
  Z.lor (Z.lor AMDGPU_VA_RANGE_HIGH (if has flags RADEON_FLAG_32BIT then AMDGPU_VA_RANGE_32_BIT else 0))
    (if has flags RADEON_FLAG_REPLAYABLE then AMDGPU_VA_RANGE_REPLAYABLE else 0).

Definition va_gap_size (i : winsys_info) (va_align : Z) : Z :=
  if debug_vm i then Z.max (u32 (4 * va_align)) (64 * 1024) else 0.

(** [bo->base.is_local] of a created buffer. *)
Definition wants_local (i : winsys_info) (domain flags : Z) : bool :=
  has domain RADEON_DOMAIN_VRAM_GTT && has flags RADEON_FLAG_NO_INTERPROCESS_SHARING
  && (perftest_local_bos i || has flags RADEON_FLAG_PREFER_LOCAL_BO).

Definition bit_if (c : bool) (bit : Z) : Z := if c then bit else 0.

(** The request to the kernel, from the normalised domain. *)
Definition make_request (i : winsys_info) (size alignment domain flags : Z) : bo_alloc_request :=
  let vram := has domain RADEON_DOMAIN_VRAM in
  let heap :=
    Z.lor (bit_if vram (Z.lor AMDGPU_GEM_DOMAIN_VRAM
                          (bit_if (negb (perftest_no_gtt_spill i)) AMDGPU_GEM_DOMAIN_GTT)))
   (Z.lor (bit_if (has domain RADEON_DOMAIN_GTT) AMDGPU_GEM_DOMAIN_GTT)
   (Z.lor (bit_if (has domain RADEON_DOMAIN_GDS) AMDGPU_GEM_DOMAIN_GDS)
          (bit_if (has domain RADEON_DOMAIN_OA) AMDGPU_GEM_DOMAIN_OA))) in
  let rflags :=
    Z.lor (bit_if (has flags RADEON_FLAG_CPU_ACCESS) AMDGPU_GEM_CREATE_CPU_ACCESS_REQUIRED)
   (Z.lor (bit_if (has flags RADEON_FLAG_NO_CPU_ACCESS) AMDGPU_GEM_CREATE_NO_CPU_ACCESS)
   (Z.lor (bit_if (has flags RADEON_FLAG_GTT_WC) AMDGPU_GEM_CREATE_CPU_GTT_USWC)
   (Z.lor (bit_if (negb (has flags RADEON_FLAG_IMPLICIT_SYNC)) AMDGPU_GEM_CREATE_EXPLICIT_SYNC)
   (Z.lor (bit_if (wants_local i domain flags) AMDGPU_GEM_CREATE_VM_ALWAYS_VALID)
   (Z.lor (bit_if (is_virtio i && has domain RADEON_DOMAIN_VRAM_GTT
                   && negb (has flags RADEON_FLAG_NO_INTERPROCESS_SHARING))
             AMDGPU_GEM_CREATE_VIRTIO_SHARED)
   (Z.lor (bit_if (has flags RADEON_FLAG_DISCARDABLE && (47 <=? drm_minor i)) AMDGPU_GEM_CREATE_DISCARDABLE)
   (Z.lor (bit_if (has flags RADEON_FLAG_GFX12_ALLOW_DCC) AMDGPU_GEM_CREATE_GFX12_DCC)
          (bit_if (has flags RADEON_FLAG_ENCRYPTED) AMDGPU_GEM_CREATE_ENCRYPTED)))))))) in
  BoRequest size alignment heap rflags.

(** The assertions of the request. *)
Definition request_asserts (i : winsys_info) (domain flags : Z) : bool :=
  (negb (has flags RADEON_FLAG_GFX12_ALLOW_DCC)
   || (gfx_ge (ws_gfx_level i) GFX12 && has domain RADEON_DOMAIN_VRAM && has flags RADEON_FLAG_NO_CPU_ACCESS))
  && (negb (has flags RADEON_FLAG_ENCRYPTED) || has_tmz_support i).

(** The two maps of a new buffer: itself and, after it, its first page once more, read-only. *)
Definition map_new_bo (w handle size va flags : Z) : M K Z :=
  let! r := radv_amdgpu_bo_va_op w handle 0 size va flags 0 AMDGPU_VA_OP_MAP ;;
  if negb (r =? 0) then mret r
  else if has flags RADEON_FLAG_VM_PAD_1PAGE
  then radv_amdgpu_bo_va_op w handle 0 4096 (u64 (va + align64 size 4096)) (Z.lor flags RADEON_FLAG_READ_ONLY) 0
         AMDGPU_VA_OP_MAP
  else mret r.

(** The end of a successful creation: the structure, the counters and the global list. *)
Definition finish_bo (w b : Z) (i : winsys_info) (bo : radv_amdgpu_winsys_bo) : M K unit :=
  let! _ := put_bo b bo ;;
  let! _ := count_bo 1 i bo ;;
  when (debug_all_bos i) (let! _ := radv_amdgpu_global_bo_list_add w b ;; mret tt).

(** [radv_amdgpu_winsys_bo_create] once no parked buffer can be reused. *)
Definition bo_create_fresh (w size alignment domain flags priority replay_address : Z)
  : M K (VkResult * option Z) :=
  let! ws := get_ws w ;;
  let i := ws_info ws in
  let! ob := alloc_bo ;;
  match ob with
  | None => mret (VK_ERROR_OUT_OF_HOST_MEMORY, None)
  | Some b =>
      let va_align := virt_alignment i size alignment in
      let! _ := massert ((replay_address =? 0) || has flags RADEON_FLAG_REPLAYABLE) ;;
      let va_size := radv_amdgpu_bo_va_size size flags in
      let! range := kcall (drm_va_range_alloc (ws_dev i) (u64 (va_size + va_gap_size i va_align)) va_align
                             replay_address (va_range_flags flags)) ;;
      match range with
      | None =>
          mret (if negb (replay_address =? 0) then VK_ERROR_INVALID_OPAQUE_CAPTURE_ADDRESS
                else VK_ERROR_OUT_OF_DEVICE_MEMORY, None)
      | Some (va, vah) =>
          let domain := normalise_domain i domain in
          let! _ := massert (request_asserts i domain flags) ;;
          let! obuf := kcall (drm_bo_alloc (ws_dev i) (make_request i size alignment domain flags)) ;;
          match obuf with
          | None =>
              let! _ := kdo (drm_va_range_free vah) ;;
              mret (VK_ERROR_OUT_OF_DEVICE_MEMORY, None)
          | Some buf =>
              let! kms := deref (fun p => drm_bo_export_kms (ws_dev i) buf (p_k p)) ;;
              let! r := map_new_bo w kms size va flags ;;
              if negb (r =? 0) then
                let! _ := kdo (drm_bo_free (ws_dev i) buf) ;;
                let! _ := kdo (drm_va_range_free vah) ;;
                mret (VK_ERROR_OUT_OF_DEVICE_MEMORY, None)
              else
                let! _ := radv_xclipse_bo_churn size true ;;
                let no_cpu := has flags RADEON_FLAG_NO_CPU_ACCESS && has domain RADEON_DOMAIN_VRAM in
                let bo := WinsysBo va size (wants_local i domain flags) no_cpu false
                            (has flags RADEON_FLAG_GFX12_ALLOW_DCC) false false domain buf vah flags priority
                            buf kms 0 false alignment true in
                let! _ := finish_bo w b i bo ;;
                mret (VK_SUCCESS, Some b)
          end
      end
  end.

(** [radv_amdgpu_winsys_bo_create] without [RADEON_FLAG_VIRTUAL]. *)
Definition bo_create_plain (w size alignment domain flags priority replay_address : Z)
  : M K (VkResult * option Z) :=
  let! ws := get_ws w ;;
  let! reject := xclipse_memguard_reject (ws_info ws) size ;;
  if (reject : bool) then mret (VK_ERROR_OUT_OF_DEVICE_MEMORY, None)
  else
    let! reused :=
      (if replay_address =? 0 then radv_xclipse_ibcache_reuse w size alignment domain flags else mret None) ;;
    match reused with
    | Some b =>
        let! bo := get_bo b ;;
        let! _ := put_bo b (with_priority priority bo) ;;
        mret (VK_SUCCESS, Some b)
    | None => bo_create_fresh w size alignment domain flags priority replay_address
    end.

Definition NULL_PRT_FLAGS : Z :=
  Z.lor RADEON_FLAG_NO_CPU_ACCESS (Z.lor RADEON_FLAG_READ_ONLY
    (Z.lor RADEON_FLAG_NO_INTERPROCESS_SHARING RADEON_FLAG_PREFER_LOCAL_BO)).
Definition RADV_BO_PRIORITY_VIRTUAL : Z := 0.

(** [ws->base.buffer_create] is [radv_amdgpu_winsys_bo_create]; the flags are not virtual. *)
Definition radv_amdgpu_init_null_prt_bo (w : Z) : M K VkResult :=
  let! ws := get_ws w ;;
  match null_prt_bo ws with
  | Some _ => mret VK_SUCCESS
  | None =>
      let! (result, bo) :=
        bo_create_plain w (8 * 1024 * 1024) 4096 RADEON_DOMAIN_VRAM NULL_PRT_FLAGS RADV_BO_PRIORITY_VIRTUAL 0 ;;
      match result with
      | VK_SUCCESS =>
          let! ws := get_ws w ;;
          let! _ := put_ws w (Winsys (ws_info ws) (global_bos ws) (global_capacity ws) (vm_timeline_seq_num ws)
                                bo (ib_cache_bos ws)) ;;
          mret VK_SUCCESS
      | r => mret r
      end
  end.

Definition radv_amdgpu_winsys_virtual_bo_create (w size alignment flags replay_address : Z)
  : M K (VkResult * option Z) :=
  let! ws := get_ws w ;;
  let i := ws_info ws in
  let! ob := alloc_bo ;;
  match ob with
  | None => mret (VK_ERROR_OUT_OF_HOST_MEMORY, None)
  | Some b =>
      let va_align := virt_alignment i size alignment in
      let! _ := massert ((replay_address =? 0) || has flags RADEON_FLAG_REPLAYABLE) ;;
      let emulate := has flags RADEON_FLAG_EMULATE_SPARSE_RESIDENCY in
      let control := Z.shiftl 1 (address_prt_wa_control_bit i) in
      let replay_address := if emulate then Z.land replay_address (u64 (Z.lnot control)) else replay_address in
      let! range := kcall (drm_va_range_alloc (ws_dev i) (u64 (size + va_gap_size i va_align)) va_align
                             replay_address (va_range_flags flags)) ;;
      match range with
      | None =>
          mret (if negb (replay_address =? 0) then VK_ERROR_INVALID_OPAQUE_CAPTURE_ADDRESS
                else VK_ERROR_OUT_OF_DEVICE_MEMORY, None)
      | Some (va, vah) =>
          let bo := WinsysBo va size false false false false true false 0 0 vah 0 0 0 0 0 emulate 0 false in
          let! _ := put_bo b bo ;;
          let! result := (if emulate then radv_amdgpu_init_null_prt_bo w else mret VK_SUCCESS) ;;
          match result with
          | VK_SUCCESS =>
              let bo := if emulate then with_va (Z.lor va control) bo else bo in
              let! _ := put_bo b bo ;;
              let! r := radv_amdgpu_virtual_bo_init_mapping w bo size ;;
              if negb (r =? 0) then
                let! _ := kdo (drm_va_range_free vah) ;;
                let! _ := free_bo b ;;
                mret (VK_ERROR_OUT_OF_DEVICE_MEMORY, None)
              else mret (VK_SUCCESS, Some b)
          | r =>
              let! _ := kdo (drm_va_range_free vah) ;;
              let! _ := free_bo b ;;
              mret (r, None)
          end
      end
  end.

Definition radv_amdgpu_winsys_bo_create (w size alignment domain flags priority replay_address : Z)
  : M K (VkResult * option Z) :=
  if has flags RADEON_FLAG_VIRTUAL
  then radv_amdgpu_winsys_virtual_bo_create w size alignment flags replay_address
  else bo_create_plain w size alignment domain flags priority replay_address.

(** * CPU mappings *)

(** [NULL] is 0; [fixed] is the address of [use_fixed_addr].  The second result of the kernel's
    [DRM_AMDGPU_GEM_MMAP] and [mmap] are one call of [os_mmap]: device, handle, size, address. *)
Definition radv_amdgpu_winsys_bo_map (w b : Z) (fixed : option Z) : M K Z :=
  let! bo := get_bo b ;;
  if negb (cpu_map bo =? 0) && bool_decide (fixed = None) then mret (cpu_map bo)
  else
    let! _ := massert (cpu_map bo =? 0) ;;
    let! ws := get_ws w ;;
    let i := ws_info ws in
    if is_virtio i then
      let! data := kcall (drm_bo_cpu_map (ws_dev i) (bo_buf bo) fixed) ;;
      mret (default 0 data)
    else
      let! data := kcall (os_mmap (ws_dev i) (bo_handle bo) (bo_size bo) fixed) ;;
      match data with
      | None => mret 0
      | Some a => let! _ := put_bo b (with_cpu_map a bo) ;; mret a
      end.

(** [replace] maps inaccessible memory over the mapping, which [os_munmap] stands for as well. *)
Definition radv_amdgpu_winsys_bo_unmap (w b : Z) (replace : bool) : M K unit :=
  let! bo := get_bo b ;;
  if (cpu_map bo =? 0) && negb replace then mret tt
  else
    let! _ := massert (negb (cpu_map bo =? 0)) ;;
    let! ws := get_ws w ;;
    let! _ := (if is_virtio (ws_info ws) && negb replace
               then kdo (drm_bo_cpu_unmap (ws_dev (ws_info ws)) (bo_buf bo))
               else kdo (os_munmap (cpu_map bo) (bo_size bo))) ;;
    put_bo b (with_cpu_map 0 bo).

(** * Imports *)

(** [util_last_bit64]: the position of the highest bit set, from 1. *)
Definition util_last_bit64 (u : Z) : Z := if u =? 0 then 0 else Z.log2 u + 1.

Definition radv_amdgpu_get_optimal_vm_alignment (i : winsys_info) (size alignment : Z) : Z :=
  let vm_alignment := alignment in
  let vm_alignment :=
    if pte_fragment_size i <=? size then Z.max vm_alignment (pte_fragment_size i) else vm_alignment in
  if gfx_ge (ws_gfx_level i) GFX9 then
    let msb := util_last_bit64 size in
    let msb_alignment := if msb =? 0 then 0 else Z.shiftl 1 (msb - 1) in
    Z.max vm_alignment msb_alignment
  else vm_alignment.

Definition radv_amdgpu_winsys_bo_from_ptr (w pointer size priority : Z) : M K (VkResult * option Z) :=
  let! ws := get_ws w ;;
  let i := ws_info ws in
  let! ob := alloc_bo ;;
  match ob with
  | None => mret (VK_ERROR_OUT_OF_HOST_MEMORY, None)
  | Some b =>
      let! obuf := kcall (drm_bo_from_user_mem (ws_dev i) pointer size) ;;
      match obuf with
      | None => mret (VK_ERROR_INVALID_EXTERNAL_HANDLE, None)
      | Some buf =>
          let vm_alignment := radv_amdgpu_get_optimal_vm_alignment i size (gart_page_size i) in
          let! range := kcall (drm_va_range_alloc (ws_dev i) size vm_alignment 0 AMDGPU_VA_RANGE_HIGH) ;;
          match range with
          | None =>
              let! _ := kdo (drm_bo_free (ws_dev i) buf) ;;
              mret (VK_ERROR_OUT_OF_DEVICE_MEMORY, None)
          | Some (va, vah) =>
              let! kms := deref (fun p => drm_bo_export_kms (ws_dev i) buf (p_k p)) ;;
              let! r := radv_amdgpu_bo_va_op w kms 0 size va 0 0 AMDGPU_VA_OP_MAP ;;
              if negb (r =? 0) then
                let! _ := kdo (drm_va_range_free vah) ;;
                let! _ := kdo (drm_bo_free (ws_dev i) buf) ;;
                mret (VK_ERROR_UNKNOWN, None)
              else
                let bo := WinsysBo va size false false false false false true RADEON_DOMAIN_GTT buf vah 0 priority
                            buf kms 0 false 0 false in
                let! _ := finish_bo w b i bo ;;
                mret (VK_SUCCESS, Some b)
          end
      end
  end.

(** The domain of an imported buffer. *)
Definition import_domain (info : amdgpu_bo_info) : Z :=
  Z.lor (bit_if (has (info_heap info) AMDGPU_GEM_DOMAIN_VRAM) RADEON_DOMAIN_VRAM)
    (bit_if (has (info_heap info) AMDGPU_GEM_DOMAIN_GTT) RADEON_DOMAIN_GTT).

Definition radv_amdgpu_winsys_bo_from_fd (w fd priority : Z) : M K (VkResult * option Z) :=
  let! ws := get_ws w ;;
  let i := ws_info ws in
  let! ob := alloc_bo ;;
  match ob with
  | None => mret (VK_ERROR_OUT_OF_HOST_MEMORY, None)
  | Some b =>
      let! import := kcall (drm_bo_import (ws_dev i) fd) ;;
      match import with
      | None => mret (VK_ERROR_INVALID_EXTERNAL_HANDLE, None)
      | Some (buf, size) =>
          let! kms := deref (fun p => drm_bo_export_kms (ws_dev i) buf (p_k p)) ;;
          let! oinfo := gets (fun p => drm_bo_query_info (ws_dev i) kms (p_k p)) ;;
          match oinfo with
          | None =>
              let! _ := kdo (drm_bo_free (ws_dev i) buf) ;;
              mret (VK_ERROR_UNKNOWN, None)
          | Some info =>
              let! range := kcall (drm_va_range_alloc (ws_dev i) size (Z.shiftl 1 20) 0 AMDGPU_VA_RANGE_HIGH) ;;
              match range with
              | None =>
                  let! _ := kdo (drm_bo_free (ws_dev i) buf) ;;
                  mret (VK_ERROR_OUT_OF_DEVICE_MEMORY, None)
              | Some (va, vah) =>
                  let import_va_flags := if pci_id i =? 0x73a0 then RADV_XCLIPSE_VA_MTYPE_DEFAULT else 0 in
                  let! r := radv_amdgpu_bo_va_op w kms 0 size va import_va_flags 0 AMDGPU_VA_OP_MAP ;;
                  if negb (r =? 0) then
                    let! _ := kdo (drm_va_range_free vah) ;;
                    let! _ := kdo (drm_bo_free (ws_dev i) buf) ;;
                    mret (VK_ERROR_OUT_OF_DEVICE_MEMORY, None)
                  else
                    let no_cpu := has (info_heap info) AMDGPU_GEM_DOMAIN_VRAM
                                  && has (info_flags info) AMDGPU_GEM_CREATE_NO_CPU_ACCESS in
                    let bo := WinsysBo va size (pci_id i =? 0x73a0) no_cpu false false false true
                                (import_domain info) buf vah 0 priority buf kms 0 false 0 false in
                    let! _ := finish_bo w b i bo ;;
                    mret (VK_SUCCESS, Some b)
              end
          end
      end
  end.

(** The domains and flags of a shared buffer, [None] when it cannot be imported or queried. *)
Definition radv_amdgpu_bo_get_flags_from_fd (w fd : Z) : M K (option (Z * Z)) :=
  let! ws := get_ws w ;;
  let i := ws_info ws in
  let! import := kcall (drm_bo_import (ws_dev i) fd) ;;
  match import with
  | None => mret None
  | Some (buf, _) =>
      let! kms := deref (fun p => drm_bo_export_kms (ws_dev i) buf (p_k p)) ;;
      let! oinfo := gets (fun p => drm_bo_query_info (ws_dev i) kms (p_k p)) ;;
      let! _ := kdo (drm_bo_free (ws_dev i) buf) ;;
      match oinfo with
      | None => mret None
      | Some info =>
          let heap := info_heap info in
          let fl := info_flags info in
          let domains :=
            Z.lor (bit_if (has heap AMDGPU_GEM_DOMAIN_VRAM) RADEON_DOMAIN_VRAM)
           (Z.lor (bit_if (has heap AMDGPU_GEM_DOMAIN_GTT) RADEON_DOMAIN_GTT)
           (Z.lor (bit_if (has heap AMDGPU_GEM_DOMAIN_GDS) RADEON_DOMAIN_GDS)
                  (bit_if (has heap AMDGPU_GEM_DOMAIN_OA) RADEON_DOMAIN_OA))) in
          let flags :=
            Z.lor (bit_if (has fl AMDGPU_GEM_CREATE_CPU_ACCESS_REQUIRED) RADEON_FLAG_CPU_ACCESS)
           (Z.lor (bit_if (has fl AMDGPU_GEM_CREATE_NO_CPU_ACCESS) RADEON_FLAG_NO_CPU_ACCESS)
           (Z.lor (bit_if (negb (has fl AMDGPU_GEM_CREATE_EXPLICIT_SYNC)) RADEON_FLAG_IMPLICIT_SYNC)
           (Z.lor (bit_if (has fl AMDGPU_GEM_CREATE_CPU_GTT_USWC) RADEON_FLAG_GTT_WC)
           (Z.lor (bit_if (has fl AMDGPU_GEM_CREATE_VM_ALWAYS_VALID)
                     (Z.lor RADEON_FLAG_NO_INTERPROCESS_SHARING RADEON_FLAG_PREFER_LOCAL_BO))
           (Z.lor (bit_if (has fl AMDGPU_GEM_CREATE_DISCARDABLE) RADEON_FLAG_DISCARDABLE)
           (Z.lor (bit_if (has fl AMDGPU_GEM_CREATE_GFX12_DCC) RADEON_FLAG_GFX12_ALLOW_DCC)
                  (bit_if (has fl AMDGPU_GEM_CREATE_ENCRYPTED) RADEON_FLAG_ENCRYPTED))))))) in
          mret (Some (domains, flags))
      end
  end.

(** * The winsys *)

(** [buffer_destroy] of every command buffer of [ib_cache]. *)
Fixpoint destroy_all (w : Z) (bs : list Z) : M K unit :=
  match bs with
  | [] => mret tt
  | b :: bs => let! _ := radv_amdgpu_winsys_bo_destroy w b ;; destroy_all w bs
  end.

(** [radv_amdgpu_winsys_create] after the device has been opened: [None] is an error.  The result of
    the failure of the timeline object is [VK_SUCCESS] with no winsys. *)
Definition radv_amdgpu_winsys_create (i : winsys_info) : M K (VkResult * option Z) :=
  let! ok := kcall os_calloc ;;
  if negb ok then mret (VK_ERROR_OUT_OF_HOST_MEMORY, None)
  else
    let! tracker := radv_amdgpu_alloc_tracker_acquire (ws_cookie i) ;;
    if negb tracker then mret (VK_ERROR_OUT_OF_HOST_MEMORY, None)
    else
      let! syncobj := kcall (drm_syncobj_create (ws_dev i)) ;;
      if negb syncobj then
        let! _ := radv_amdgpu_alloc_tracker_release (ws_cookie i) ;;
        mret (VK_SUCCESS, None)
      else
        let! w := gets p_next ;;
        let! _ := modify (set_next (w + 1)) ;;
        let! _ := put_ws w (Winsys i [] 0 0 None []) ;;
        mret (VK_SUCCESS, Some w).

(** The result says whether both purges of the cache have returned. *)
Definition radv_amdgpu_winsys_destroy (fuel : nat) (w : Z) : M K bool :=
  let! done := radv_xclipse_ibcache_winsys_begin_destroy fuel w ;;
  if negb done then mret false
  else
    let! ws := get_ws w ;;
    let! _ :=
      (match null_prt_bo ws with
       | Some b => when (has_smem_with_null_prt_bug (ws_info ws)) (radv_amdgpu_winsys_bo_destroy w b)
       | None => mret tt
       end) ;;
    let! _ := destroy_all w (ib_cache_bos ws) ;;
    let! ws := get_ws w ;;
    let! _ := put_ws w (Winsys (ws_info ws) [] 0 (vm_timeline_seq_num ws) (null_prt_bo ws) []) ;;
    let! done := radv_xclipse_ibcache_winsys_end_destroy fuel w ;;
    if negb done then mret false
    else
      let! _ := radv_amdgpu_alloc_tracker_release (ws_cookie (ws_info ws)) ;;
      let! _ := modify (fun p => set_winsys (delete w (p_winsys p)) p) ;;
      mret true.

End ops.
