(* ===== verification/BoLogic.v ===== *)
(** Reasoning about the computations of [BoModel]: weakest preconditions (a computation that fails an
    assertion has none), sums over the store of buffers, and the removal of a list element by moving
    the last one into its place. *)

From stdpp Require Import gmap.
From S2P Require Import Prelude Pm4 BoModel.

(** * Weakest preconditions *)

Definition wp {K A} (m : M K A) (Q : A -> proc K -> Prop) (p : proc K) : Prop :=
  match m p with Some (a, p') => Q a p' | None => False end.

Section wp.
Context {K : Type}.
Implicit Types p : proc K.

Lemma wp_run {A} (m : M K A) Q p : wp m Q p -> exists a p', m p = Some (a, p') /\ Q a p'.
Proof. unfold wp. destruct (m p) as [[a p']|] eqn:E; [|done]. eauto. Qed.

Lemma wp_eq {A} (m : M K A) (Q : A -> proc K -> Prop) p a p' : wp m Q p -> m p = Some (a, p') -> Q a p'.
Proof. unfold wp. intros H E. by rewrite E in H. Qed.

Lemma wp_mono {A} (m : M K A) (Q Q' : A -> proc K -> Prop) p :
  wp m Q p -> (forall a p', Q a p' -> Q' a p') -> wp m Q' p.
Proof. unfold wp. destruct (m p) as [[a p']|]; auto. Qed.

Lemma wp_bind {A B} (m : M K A) (f : A -> M K B) Q p :
  wp m (fun a p' => wp (f a) Q p') p -> wp (mbind f m) Q p.
Proof. unfold wp, mbind, M_bind. by destruct (m p) as [[a p']|]. Qed.

(** Run [m] by a specification of it, then the rest. *)
Lemma wp_seq {A B} (m : M K A) (f : A -> M K B) (R : A -> proc K -> Prop) Q p :
  wp m R p -> (forall a p', R a p' -> wp (f a) Q p') -> wp (mbind f m) Q p.
Proof. intros Hm Hf. apply wp_bind. by eapply wp_mono. Qed.

Lemma wp_ret {A} (a : A) (Q : A -> proc K -> Prop) p : Q a p -> wp (mret a) Q p.
Proof. done. Qed.

Lemma wp_gets {A} (f : proc K -> A) (Q : A -> proc K -> Prop) p : Q (f p) p -> wp (gets f) Q p.
Proof. done. Qed.

Lemma wp_modify (f : proc K -> proc K) (Q : unit -> proc K -> Prop) p : Q tt (f p) -> wp (modify f) Q p.
Proof. done. Qed.

Lemma wp_massert b (Q : unit -> proc K -> Prop) p : b = true -> Q tt p -> wp (massert b) Q p.
Proof. by intros ->. Qed.

Lemma wp_deref {A} (f : proc K -> option A) (Q : A -> proc K -> Prop) p a :
  f p = Some a -> Q a p -> wp (deref f) Q p.
Proof. unfold wp, deref. by intros ->. Qed.

Lemma wp_get_ws w ws (Q : radv_amdgpu_winsys -> proc K -> Prop) p :
  p_winsys p !! w = Some ws -> Q ws p -> wp (get_ws w) Q p.
Proof. intros H HQ. by apply (wp_deref _ _ _ ws). Qed.

Lemma wp_get_bo b bo (Q : radv_amdgpu_winsys_bo -> proc K -> Prop) p :
  p_bos p !! b = Some bo -> Q bo p -> wp (get_bo b) Q p.
Proof. intros H HQ. by apply (wp_deref _ _ _ bo). Qed.

Lemma wp_kcall {A} (f : K -> K * A) (Q : A -> proc K -> Prop) p :
  (forall k a, f (p_k p) = (k, a) -> Q a (set_k k p)) -> wp (kcall f) Q p.
Proof. intros H. unfold wp, kcall. destruct (f (p_k p)) as [k a] eqn:E. by apply H. Qed.

Lemma wp_kdo (f : K -> K) (Q : unit -> proc K -> Prop) p : Q tt (set_k (f (p_k p)) p) -> wp (kdo f) Q p.
Proof. done. Qed.

Lemma wp_when b (m : M K unit) Q p :
  (b = true -> wp m Q p) -> (b = false -> Q tt p) -> wp (when b m) Q p.
Proof. unfold when. destruct b; intros H1 H2; [by apply H1|by apply H2]. Qed.

Lemma wp_if {A} (b : bool) (m1 m2 : M K A) Q p :
  (b = true -> wp m1 Q p) -> (b = false -> wp m2 Q p) -> wp (if b then m1 else m2) Q p.
Proof. destruct b; auto. Qed.

End wp.

(** Split the conjunctions one sees, not those behind a definition. *)
Ltac conj_split := repeat match goal with |- _ /\ _ => split end.

(** One step of a computation whose result is determined. *)
Ltac wp_step :=
  lazymatch goal with
  | |- wp (mbind _ (gets _)) _ _ => apply wp_bind, wp_gets
  | |- wp (mbind _ (modify _)) _ _ => apply wp_bind, wp_modify
  | |- wp (mbind _ (mret _)) _ _ => apply wp_bind, wp_ret
  | |- wp (mbind _ (kdo _)) _ _ => apply wp_bind, wp_kdo
  | |- wp (mbind _ (put_bo _ _)) _ _ => apply wp_bind, wp_modify
  | |- wp (mbind _ (put_ws _ _)) _ _ => apply wp_bind, wp_modify
  | |- wp (put_bo _ _) _ _ => apply wp_modify
  | |- wp (put_ws _ _) _ _ => apply wp_modify
  | |- wp (free_bo _) _ _ => apply wp_modify
  | |- wp (modify _) _ _ => apply wp_modify
  | |- wp (kdo _) _ _ => apply wp_kdo
  | |- wp (mret _) _ _ => apply wp_ret
  end.

(** * Sums over the store *)

Definition bo_sum {A} (f : Z -> A -> Z) (m : gmap Z A) : Z := map_fold (fun b x acc => f b x + acc) 0 m.

Section sums.
Context {A : Type}.
Implicit Types m : gmap Z A.

Lemma bo_sum_empty (f : Z -> A -> Z) : bo_sum f ∅ = 0.
Proof. apply map_fold_empty. Qed.

Lemma bo_sum_insert (f : Z -> A -> Z) m b x :
  m !! b = None -> bo_sum f (<[b := x]> m) = f b x + bo_sum f m.
Proof.
  intros H. unfold bo_sum.
  rewrite (map_fold_insert_L (fun b x acc => f b x + acc)); [done| |done]. intros. lia.
Qed.

Lemma bo_sum_delete (f : Z -> A -> Z) m b x :
  m !! b = Some x -> bo_sum f (delete b m) = bo_sum f m - f b x.
Proof.
  intros H. rewrite <- (insert_delete_id m b x H) at 2.
  rewrite bo_sum_insert by apply lookup_delete_eq. lia.
Qed.

Lemma bo_sum_update (f : Z -> A -> Z) m b x y :
  m !! b = Some x -> bo_sum f (<[b := y]> m) = bo_sum f m - f b x + f b y.
Proof.
  intros H. rewrite <- insert_delete_eq, bo_sum_insert by apply lookup_delete_eq.
  rewrite (bo_sum_delete f m b x H). lia.
Qed.

Lemma bo_sum_ext (f g : Z -> A -> Z) m :
  (forall b x, m !! b = Some x -> f b x = g b x) -> bo_sum f m = bo_sum g m.
Proof.
  induction m as [|b x m Hb IH] using map_ind; intros H; [done|].
  rewrite !bo_sum_insert by done. rewrite (H b x) by apply lookup_insert_eq.
  f_equal. apply IH. intros b' x' Hb'. apply H. rewrite lookup_insert_ne; [done|]. congruence.
Qed.

(** An update that does not change the summand. *)
Lemma bo_sum_same (f : Z -> A -> Z) m b x y :
  m !! b = Some x -> f b y = f b x -> bo_sum f (<[b := y]> m) = bo_sum f m.
Proof. intros H E. rewrite (bo_sum_update f m b x y H). lia. Qed.

Lemma bo_sum_nonneg (f : Z -> A -> Z) m :
  (forall b x, m !! b = Some x -> 0 <= f b x) -> 0 <= bo_sum f m.
Proof.
  induction m as [|b x m Hb IH] using map_ind; intros H; [done|].
  rewrite bo_sum_insert by done. pose proof (H b x (lookup_insert_eq _ _ _)).
  assert (0 <= bo_sum f m); [|lia]. apply IH. intros b' x' Hb'. apply (H b').
  rewrite lookup_insert_ne; [done|]. congruence.
Qed.

(** A summand is at most the sum. *)
Lemma bo_sum_ge (f : Z -> A -> Z) m b x :
  (forall b x, m !! b = Some x -> 0 <= f b x) -> m !! b = Some x -> f b x <= bo_sum f m.
Proof.
  intros H Hb. pose proof (bo_sum_delete f m b x Hb).
  assert (0 <= bo_sum f (delete b m)); [|lia]. apply bo_sum_nonneg.
  intros b' x' [_ Hb']%lookup_delete_Some. by apply (H b').
Qed.

(** Two summands are together at most the sum. *)
Lemma bo_sum_ge2 (f : Z -> A -> Z) m b1 b2 x1 x2 :
  (forall b x, m !! b = Some x -> 0 <= f b x) -> b1 <> b2 -> m !! b1 = Some x1 -> m !! b2 = Some x2 ->
  f b1 x1 + f b2 x2 <= bo_sum f m.
Proof.
  intros H Hne H1 H2. pose proof (bo_sum_delete f m b1 x1 H1).
  assert (f b2 x2 <= bo_sum f (delete b1 m)); [|lia]. apply bo_sum_ge.
  - intros b' x' [_ Hb']%lookup_delete_Some. by apply (H b').
  - by rewrite lookup_delete_ne.
Qed.

(** A positive sum has a positive summand. *)
Lemma bo_sum_pos (f : Z -> A -> Z) m :
  bo_sum f m <> 0 -> exists b x, m !! b = Some x /\ f b x <> 0.
Proof.
  induction m as [|b x m Hb IH] using map_ind; [done|]. rewrite bo_sum_insert by done. intros H.
  destruct (decide (f b x = 0)) as [E|E].
  - destruct IH as (b'&x'&Hb'&?); [lia|]. exists b', x'. split; [|done].
    rewrite lookup_insert_ne; [done|]. congruence.
  - exists b, x. split; [apply lookup_insert_eq|done].
Qed.

End sums.

Lemma find_entry_from f i l j e :
  find_entry f i l = Some (j, e) -> (i <= j)%nat /\ l !! (j - i)%nat = Some e /\ f e = true.
Proof.
  revert i. induction l as [|x l IH]; intros i; [done|]. simpl. destruct (f x) eqn:E.
  - intros [= <- <-]. by rewrite Nat.sub_diag.
  - intros (?&Hl&?)%IH. split; [lia|]. split; [|done].
    replace (j - i)%nat with (S (j - S i)) by lia. done.
Qed.

Lemma find_entry_some f l j e : find_entry f 0 l = Some (j, e) -> l !! j = Some e /\ f e = true.
Proof. intros (_&?&?)%find_entry_from. by rewrite Nat.sub_0_r in *. Qed.

Lemma find_entry_none f i l : find_entry f i l = None -> forall e, e ∈ l -> f e = false.
Proof.
  revert i. induction l as [|x l IH]; intros i; simpl; [by intros _ e ?%elem_of_nil|].
  destruct (f x) eqn:E; [done|]. intros H e [->|He]%elem_of_cons; [done|]. by eapply IH.
Qed.

Lemma last_index_from_some n b l i : last_index_from n b l = Some i -> l !! i = Some b.
Proof.
  induction n as [|n IH]; [done|]. simpl. case_bool_decide; [by intros [= <-]|done].
Qed.

Lemma last_index_from_none n b l : (length l <= n)%nat -> last_index_from n b l = None -> b ∉ l.
Proof.
  intros Hn. assert (forall j, (j < n)%nat -> last_index_from n b l = None -> l !! j <> Some b) as H.
  { clear Hn. induction n as [|n IH]; intros j Hj; [lia|]. simpl. case_bool_decide; [done|].
    destruct (decide (j = n)) as [->|]; [done|]. apply IH. lia. }
  intros Hl (j&Hj)%list_elem_of_lookup. apply (H j); [|done..].
  apply lookup_lt_Some in Hj. lia.
Qed.
