(* ===== verification/BoKernel.v ===== *)
(** What the winsys relies on of the kernel and libdrm: a view of their state (reserved address
    ranges, buffer objects with their reference counts, page mappings) and the documented effect of
    every call on it, as a class of laws.  Calls may fail; the laws say what a failure leaves. *)

From stdpp Require Import gmap.
From S2P Require Import Prelude Pm4 BoModel.

(** A mapping of [m_size] bytes at [m_addr] to the buffer [m_handle] from [m_offset]; handle 0 with
    [AMDGPU_VM_PAGE_PRT] is a range without memory. *)
Record mapping := Mapping {
  m_dev : Z; m_addr : Z; m_size : Z; m_handle : Z; m_offset : Z; m_flags : Z
}.

#[global] Instance mapping_eq_dec : EqDecision mapping.
Proof. solve_decision. Defined.

(** A range handle to its device, address and size; a buffer to its device, handle and references. *)
Class DrmView (K : Type) := {
  k_ranges : K -> gmap Z (Z * Z * Z);
  k_bos : K -> gmap Z (Z * Z * Z);
  k_maps : K -> list mapping;
  k_control_bit : Z -> option Z
}.

(** * Effects on the view *)

Definition overlaps (m : mapping) (dev a n : Z) : Prop :=
  m_dev m = dev /\ m_addr m < a + n /\ a < m_addr m + m_size m.

(** Address [a] of the device reaches byte [off] of the buffer [h]. *)
Definition maps_at (l : list mapping) (dev a : Z) (t : Z * Z * Z) : Prop :=
  exists m, m ∈ l /\ m_dev m = dev /\ m_addr m <= a < m_addr m + m_size m
    /\ t = (m_handle m, m_offset m + (a - m_addr m), m_flags m).

Definition same_maps (l l' : list mapping) : Prop := forall m, m ∈ l' <-> m ∈ l.

Definition apart_ranges (a1 n1 a2 n2 : Z) : Prop := a1 + n1 <= a2 \/ a2 + n2 <= a1.

Definition va_mapping (a : va_op_args) : mapping :=
  Mapping (vo_dev a) (vo_addr a) (vo_size a) (vo_handle a) (vo_offset a) (vo_flags a).

Section effects.
Context {K : Type} `{!DrmView K}.

Definition same_view (k k' : K) : Prop :=
  k_ranges k' = k_ranges k /\ k_bos k' = k_bos k /\ same_maps (k_maps k) (k_maps k').

(** The half of the address space without the control bit, where libdrm reserves its ranges. *)
Definition range_placed (dev va n : Z) : Prop :=
  0 <= va /\ va + n <= W64 /\
  match k_control_bit dev with
  | Some bit => 12 <= bit < 63 /\ exists q, q * 2 ^ (bit + 1) <= va /\ va + n <= q * 2 ^ (bit + 1) + 2 ^ bit
  | None => True
  end.

(** The reservation of [n] bytes at [va] under handle [h]. *)
Definition range_added (dev h va n : Z) (k k' : K) : Prop :=
  k_ranges k !! h = None
  /\ (forall h' va' n', k_ranges k !! h' = Some (dev, va', n') -> apart_ranges va n va' n')
  /\ k_ranges k' = <[h := (dev, va, n)]> (k_ranges k)
  /\ k_bos k' = k_bos k /\ same_maps (k_maps k) (k_maps k').

(** A new buffer object with a handle of its own. *)
Definition buffer_added (dev buf h : Z) (k k' : K) : Prop :=
  k_bos k !! buf = None /\ h <> 0
  /\ (forall buf' h' r, k_bos k !! buf' = Some (dev, h', r) -> h' <> h)
  /\ k_bos k' = <[buf := (dev, h, 1)]> (k_bos k)
  /\ k_ranges k' = k_ranges k /\ same_maps (k_maps k) (k_maps k').

(** One more reference to a buffer the device already has. *)
Definition buffer_shared (dev buf h : Z) (k k' : K) : Prop :=
  exists r, k_bos k !! buf = Some (dev, h, r)
  /\ k_bos k' = <[buf := (dev, h, r + 1)]> (k_bos k)
  /\ k_ranges k' = k_ranges k /\ same_maps (k_maps k) (k_maps k').

(** A reference is given back; the last one takes the mappings of the buffer along. *)
Definition buffer_released (dev buf h r : Z) (k k' : K) : Prop :=
  k_ranges k' = k_ranges k
  /\ (r <> 1 -> k_bos k' = <[buf := (dev, h, r - 1)]> (k_bos k) /\ same_maps (k_maps k) (k_maps k'))
  /\ (r = 1 -> k_bos k' = delete buf (k_bos k)
       /\ forall m, m ∈ k_maps k' <-> m ∈ k_maps k /\ ~ (m_dev m = dev /\ m_handle m = h)).

Definition map_added (m : mapping) (k k' : K) : Prop :=
  (forall m', m' ∈ k_maps k -> ~ overlaps m' (m_dev m) (m_addr m) (m_size m))
  /\ forall m', m' ∈ k_maps k' <-> m' = m \/ m' ∈ k_maps k.

(** Outside [n] bytes from [a] nothing changes. *)
Definition outside_kept (dev a n : Z) (k k' : K) : Prop :=
  (forall m, m ∈ k_maps k -> ~ overlaps m dev a n -> m ∈ k_maps k')
  /\ forall dev' x t, ~ (dev' = dev /\ a <= x < a + n) ->
       maps_at (k_maps k') dev' x t <-> maps_at (k_maps k) dev' x t.

End effects.

(** * The laws *)

Class DrmLaws (K : Type) `{!Drm K} `{!DrmView K} := {
  page_size : exists n, 12 <= n <= 16 /\ getpagesize = 2 ^ n;
  calloc_silent k k' r : os_calloc k = (k', r) -> same_view k k';
  realloc_silent k k' r : os_realloc k = (k', r) -> same_view k k';
  mmap_silent d h n f k k' r : os_mmap d h n f k = (k', r) -> same_view k k';
  munmap_silent a n k : same_view k (os_munmap a n k);
  cpu_map_silent d b f k k' r : drm_bo_cpu_map d b f k = (k', r) -> same_view k k';
  cpu_unmap_silent d b k : same_view k (drm_bo_cpu_unmap d b k);
  syncobj_silent d k k' r : drm_syncobj_create d k = (k', r) -> same_view k k';
  sysfs_silent k k' r : sysfs_gtt_used k = (k', r) -> same_view k k';
  wait_silent d n k k' r : drm_timeline_wait d n k = (k', r) -> same_view k k';
  range_alloc_fails d n al b f k k' : drm_va_range_alloc d n al b f k = (k', None) -> same_view k k';
  (** libdrm rounds a reservation up to whole pages. *)
  range_alloc_spec d n al b f k k' va h :
    0 < n < 2 ^ 62 -> drm_va_range_alloc d n al b f k = (k', Some (va, h)) ->
    va mod getpagesize = 0 /\ (0 < al -> va mod al = 0) /\ (b <> 0 -> va = b)
    /\ range_placed d va (round_up n getpagesize) /\ range_added d h va (round_up n getpagesize) k k';
  range_free_spec h k :
    k_ranges (drm_va_range_free h k) = delete h (k_ranges k)
    /\ k_bos (drm_va_range_free h k) = k_bos k /\ same_maps (k_maps k) (k_maps (drm_va_range_free h k));
  bo_alloc_fails d r k k' : drm_bo_alloc d r k = (k', None) -> same_view k k';
  bo_alloc_spec d r k k' buf : drm_bo_alloc d r k = (k', Some buf) -> exists h, buffer_added d buf h k k';
  user_mem_fails d a n k k' : drm_bo_from_user_mem d a n k = (k', None) -> same_view k k';
  user_mem_spec d a n k k' buf :
    drm_bo_from_user_mem d a n k = (k', Some buf) -> exists h, buffer_added d buf h k k';
  import_fails d fd k k' : drm_bo_import d fd k = (k', None) -> same_view k k';
  import_spec d fd k k' buf n :
    drm_bo_import d fd k = (k', Some (buf, n)) ->
    0 < n < 2 ^ 48 /\ exists h, buffer_added d buf h k k' \/ buffer_shared d buf h k k';
  export_spec d buf h r k : k_bos k !! buf = Some (d, h, r) -> drm_bo_export_kms d buf k = Some h;
  bo_free_spec d buf h r k :
    k_bos k !! buf = Some (d, h, r) -> buffer_released d buf h r k (drm_bo_free d buf k);
  va_op_keeps a k k' r :
    drm_bo_va_op a k = (k', r) -> k_ranges k' = k_ranges k /\ k_bos k' = k_bos k;
  va_op_map a k k' r :
    vo_ops a = AMDGPU_VA_OP_MAP -> drm_bo_va_op a k = (k', r) ->
    (r = 0 -> map_added (va_mapping a) k k') /\ (r <> 0 -> same_maps (k_maps k) (k_maps k'));
  (** An unmap removes the one mapping of the buffer that begins at the address. *)
  va_op_unmap a k k' r :
    vo_ops a = AMDGPU_VA_OP_UNMAP -> drm_bo_va_op a k = (k', r) ->
    (forall m, m ∈ k_maps k' <->
       m ∈ k_maps k /\ ~ (m_dev m = vo_dev a /\ m_addr m = vo_addr a /\ m_handle m = vo_handle a))
    \/ (r <> 0 /\ same_maps (k_maps k) (k_maps k'));
  (** A replace first unmaps what overlaps the range (splitting mappings) and then maps it. *)
  va_op_replace a k k' :
    vo_ops a = AMDGPU_VA_OP_REPLACE -> drm_bo_va_op a k = (k', 0) ->
    forall x t, vo_addr a <= x < vo_addr a + vo_size a ->
      maps_at (k_maps k') (vo_dev a) x t <-> t = (vo_handle a, vo_offset a + (x - vo_addr a), vo_flags a);
  va_op_clear a k k' :
    vo_ops a = AMDGPU_VA_OP_CLEAR -> drm_bo_va_op a k = (k', 0) ->
    forall x t, vo_addr a <= x < vo_addr a + vo_size a -> ~ maps_at (k_maps k') (vo_dev a) x t;
  va_op_outside a k k' r :
    vo_ops a = AMDGPU_VA_OP_REPLACE \/ vo_ops a = AMDGPU_VA_OP_CLEAR -> drm_bo_va_op a k = (k', r) ->
    outside_kept (vo_dev a) (vo_addr a) (vo_size a) k k'
}.

(** * The view as an equivalence *)

Section view.
Context {K : Type} `{!DrmView K}.

Lemma same_view_refl (k : K) : same_view k k.
Proof. repeat split; by intros. Qed.

Lemma same_view_trans (k1 k2 k3 : K) : same_view k1 k2 -> same_view k2 k3 -> same_view k1 k3.
Proof.
  intros (?&?&H1) (?&?&H2). split; [congruence|]. split; [congruence|].
  intros m. by rewrite (H2 m), (H1 m).
Qed.

Lemma same_view_sym (k1 k2 : K) : same_view k1 k2 -> same_view k2 k1.
Proof. intros (?&?&H). split; [done|]. split; [done|]. intros m. by rewrite (H m). Qed.

#[global] Instance same_view_equivalence : Equivalence (same_view (K := K)).
Proof.
  split; [intros k; apply same_view_refl|intros k1 k2; apply same_view_sym
         |intros k1 k2 k3; apply same_view_trans].
Qed.

Lemma maps_at_same l l' dev a t : same_maps l l' -> maps_at l' dev a t <-> maps_at l dev a t.
Proof. intros H. unfold maps_at. by setoid_rewrite (H _). Qed.

End view.
