(* ===== verification/BoInv.v ===== *)
(** The invariant of the winsys buffers.  [own] says which winsys created each buffer structure that
    exists; the books of the process agree with it ([books]) and the kernel holds exactly what the
    structures name, every buffer being mapped where its structure says ([held]). *)

From stdpp Require Import gmap.
From S2P Require Import Prelude Pm4 BoModel BoLogic BoKernel.

(** * Sizes *)

Definition size_fits (n : Z) : Prop := 0 < n < 2 ^ 48.

Lemma align64_page n k : 12 <= k <= 16 -> 0 <= n < 2 ^ 60 -> align64 n (2 ^ k) = round_up n (2 ^ k).
Proof.
  intros Hk Hn. apply align64_round_up; [lia|lia|].
  assert (2 ^ k <= 2 ^ 16) by (apply Z.pow_le_mono_r; lia). unfold W64. lia.
Qed.

Lemma align64_4096 n : 0 <= n < 2 ^ 60 -> align64 n 4096 = round_up n 4096.
Proof. intros H. by apply (align64_page n 12). Qed.

(** * Frames: what a call on the address space leaves alone *)

Definition ws_same (ws ws' : radv_amdgpu_winsys) : Prop :=
  ws_info ws' = ws_info ws /\ global_bos ws' = global_bos ws /\ null_prt_bo ws' = null_prt_bo ws
  /\ ib_cache_bos ws' = ib_cache_bos ws.

(** Everything but the kernel, the sampled memory type, the state of the memory guard and the
    timelines of the winsys. *)
Record framed {K} (p p' : proc K) : Prop := Framed {
  fr_winsys : forall w, option_Forall2 ws_same (p_winsys p !! w) (p_winsys p' !! w);
  fr_bos : p_bos p' = p_bos p;
  fr_trackers : p_trackers p' = p_trackers p;
  fr_cache : p_cache p' = p_cache p;
  fr_cache_bytes : p_cache_bytes p' = p_cache_bytes p;
  fr_dying : p_dying p' = p_dying p;
  fr_churn : p_churn p' = p_churn p;
  fr_next : p_next p <= p_next p'
}.

Lemma ws_same_refl ws : ws_same ws ws.
Proof. done. Qed.

Lemma ws_same_trans ws1 ws2 ws3 : ws_same ws1 ws2 -> ws_same ws2 ws3 -> ws_same ws1 ws3.
Proof. intros (?&?&?&?) (?&?&?&?). repeat split; congruence. Qed.

Lemma opt_same_refl (o : option radv_amdgpu_winsys) : option_Forall2 ws_same o o.
Proof. destruct o; constructor. apply ws_same_refl. Qed.

Section frames.
Context {K : Type}.
Implicit Types p : proc K.

Lemma framed_refl p : framed p p.
Proof. split; try done. intros w. apply opt_same_refl. Qed.

Lemma framed_trans p1 p2 p3 : framed p1 p2 -> framed p2 p3 -> framed p1 p3.
Proof.
  intros [H1 ? ? ? ? ? ? ?] [H2 ? ? ? ? ? ? ?]. split; try congruence; [|lia].
  intros w. specialize (H1 w). specialize (H2 w).
  inversion H1 as [ws1 ws2 Hs E1 E2|E1 E2]; rewrite <- E2 in H2; inversion H2; constructor.
  by eapply ws_same_trans.
Qed.

#[global] Instance framed_preorder : PreOrder (@framed K).
Proof. split; [intros p; apply framed_refl|intros p1 p2 p3; apply framed_trans]. Qed.

Lemma framed_k k p : framed p (set_k k p).
Proof. split; try done. intros w. apply opt_same_refl. Qed.

Lemma framed_mt v p : framed p (set_mt v p).
Proof. split; try done. intros w. apply opt_same_refl. Qed.

Lemma framed_sysfs v p : framed p (set_sysfs_ok v p).
Proof. split; try done. intros w. apply opt_same_refl. Qed.

Lemma framed_next n p : p_next p <= n -> framed p (set_next n p).
Proof. intros H. split; try done. intros w. apply opt_same_refl. Qed.

Lemma framed_put_ws w ws ws' p :
  p_winsys p !! w = Some ws -> ws_same ws ws' -> framed p (set_winsys (<[w := ws']> (p_winsys p)) p).
Proof.
  intros H Hs. split; try done. intros w'. simpl. destruct (decide (w' = w)) as [->|].
  - rewrite lookup_insert_eq, H. by constructor.
  - rewrite lookup_insert_ne by done. apply opt_same_refl.
Qed.

Lemma framed_ws p p' w ws :
  framed p p' -> p_winsys p !! w = Some ws -> exists ws', p_winsys p' !! w = Some ws' /\ ws_same ws ws'.
Proof.
  intros Hf H. pose proof (fr_winsys _ _ Hf w) as Hw. rewrite H in Hw.
  inversion Hw as [? ws' ?|]; subst. eauto.
Qed.

Lemma framed_ws_back p p' w ws' :
  framed p p' -> p_winsys p' !! w = Some ws' -> exists ws, p_winsys p !! w = Some ws /\ ws_same ws ws'.
Proof.
  intros Hf H. pose proof (fr_winsys _ _ Hf w) as Hw. rewrite H in Hw.
  inversion Hw as [ws ? ?|]; subst. eauto.
Qed.

End frames.

(** * The books *)

(** What buffer [b] adds to the tracker [c]. *)
Definition share (own : gmap Z (Z * winsys_info)) (c : Z) (sel : Z * Z * Z -> Z) (b : Z) (bo : radv_amdgpu_winsys_bo) : Z :=
  match own !! b with
  | Some (w, i) => if (ws_cookie i =? c) && negb (is_virtual bo) then sel (bo_bytes i bo) else 0
  | None => 0
  end.

Definition sel_vram (t : Z * Z * Z) : Z := t.1.1.
Definition sel_vis (t : Z * Z * Z) : Z := t.1.2.
Definition sel_gtt (t : Z * Z * Z) : Z := t.2.

(** The counters of tracker [c] are the sums over the buffers of its device. *)
Definition tracker_counts (own : gmap Z (Z * winsys_info)) (bos : gmap Z radv_amdgpu_winsys_bo) (c : Z)
    (t : radv_amdgpu_alloc_tracker) : Prop :=
  allocated_vram t = u64 (bo_sum (share own c sel_vram) bos)
  /\ allocated_vram_vis t = u64 (bo_sum (share own c sel_vis) bos)
  /\ allocated_gtt t = u64 (bo_sum (share own c sel_gtt) bos).

Definition counted_size (_ : Z) (bo : radv_amdgpu_winsys_bo) : Z :=
  if churn_counted bo then bo_size bo else 0.

(** An entry of the cache describes the buffer it parks, which no list but the one of all buffers
    names. *)
Definition entry_ok (own : gmap Z (Z * winsys_info)) (bos : gmap Z radv_amdgpu_winsys_bo) (e : radv_xclipse_ibcache_entry) : Prop :=
  exists i bo, own !! e_bo e = Some (e_ws e, i) /\ bos !! e_bo e = Some bo
    /\ e = Entry (e_bo e) (e_ws e) (bo_size bo) (xclipse_alignment bo) (bo_flags bo) (initial_domain bo)
    /\ radv_xclipse_ibcache_cacheable bo = true /\ cpu_map bo = 0
    /\ (debug_all_bos i = true \/ use_global_list bo = false).

Definition sum_sizes (l : list radv_xclipse_ibcache_entry) : Z := foldr Z.add 0 (e_size <$> l).

Record cache_ok {K} (own : gmap Z (Z * winsys_info)) (p : proc K) : Prop := CacheOk {
  ca_entries : Forall (entry_ok own (p_bos p)) (p_cache p);
  ca_nodup : NoDup (e_bo <$> p_cache p);
  ca_count : Z.of_nat (length (p_cache p)) <= RADV_XCLIPSE_IBCACHE_BUCKETS;
  ca_bytes : p_cache_bytes p = sum_sizes (p_cache p);
  ca_cap : p_cache_bytes p <= RADV_XCLIPSE_IBCACHE_CAP
}.

(** The lists a winsys keeps name buffers of its own; a winsys that is being torn down does not clear
    the pointer to its zero buffer. *)
Record winsys_ok (own : gmap Z (Z * winsys_info)) (bos : gmap Z radv_amdgpu_winsys_bo) (dying : option Z)
    (w : Z) (ws : radv_amdgpu_winsys) : Prop :=
  WinsysOk {
  wo_nodup : NoDup (global_bos ws);
  wo_global : forall b, b ∈ global_bos ws ->
    exists bo, own !! b = Some (w, ws_info ws) /\ bos !! b = Some bo /\ use_global_list bo = true;
  wo_null : forall b, dying <> Some w -> null_prt_bo ws = Some b ->
    exists bo, own !! b = Some (w, ws_info ws) /\ bos !! b = Some bo /\ bo_flags bo = NULL_PRT_FLAGS
      /\ bo_size bo = 8 * 1024 * 1024 /\ is_virtual bo = false
      /\ (debug_all_bos (ws_info ws) = true \/ use_global_list bo = false)
      /\ has_smem_with_null_prt_bug (ws_info ws) = true
}.

Record books {K} (own : gmap Z (Z * winsys_info)) (p : proc K) : Prop := Books {
  bk_dom : forall b, is_Some (own !! b) <-> is_Some (p_bos p !! b);
  bk_next : forall b, is_Some (own !! b) -> b < p_next p;
  bk_sizes : forall b bo, p_bos p !! b = Some bo -> size_fits (bo_size bo);
  bk_winsys : forall b w i, own !! b = Some (w, i) ->
    exists ws, p_winsys p !! w = Some ws /\ ws_info ws = i;
  bk_trackers : forall w ws, p_winsys p !! w = Some ws -> is_Some (p_trackers p !! ws_cookie (ws_info ws));
  bk_counts : forall c t, p_trackers p !! c = Some t -> tracker_counts own (p_bos p) c t;
  bk_cache : cache_ok own p;
  bk_lists : forall w ws, p_winsys p !! w = Some ws -> winsys_ok own (p_bos p) (p_dying p) w ws;
  bk_listed : forall b w i bo ws, own !! b = Some (w, i) -> p_bos p !! b = Some bo ->
    p_winsys p !! w = Some ws -> use_global_list bo = true -> b ∈ global_bos ws;
  bk_churn : live_bytes (p_churn p) = u64 (bo_sum counted_size (p_bos p))
}.

(** The client holds [b]: it exists and is not parked. *)
Definition live {K} (own : gmap Z (Z * winsys_info)) (p : proc K) (w b : Z) : Prop :=
  (exists i, own !! b = Some (w, i)) /\ (b ∉ e_bo <$> p_cache p).

Lemma ws_same_ok own bos d w ws ws' :
  ws_same ws ws' -> winsys_ok own bos d w ws -> winsys_ok own bos d w ws'.
Proof. intros (E1&E2&E3&_) [? ? ?]. split; by rewrite ?E1, ?E2, ?E3. Qed.

Lemma books_framed {K} own (p p' : proc K) : framed p p' -> books own p -> books own p'.
Proof.
  intros Hf [Hdom Hnext Hsz Hws Htr Hct [? ? ? ? ?] Hls Hld Hch].
  pose proof Hf as [_ Eb Et Ec Ecb Ed Ech En]. split; rewrite ?Eb, ?Et, ?Ech, ?Ed; try done.
  - intros b Hb. specialize (Hnext b Hb). lia.
  - intros b w i H. destruct (Hws b w i H) as (ws&Hw&Hi).
    destruct (framed_ws _ _ _ _ Hf Hw) as (ws'&?&(E&_)). exists ws'. split; [done|congruence].
  - intros w ws' H. destruct (framed_ws_back _ _ _ _ Hf H) as (ws&Hw&(E&_)). rewrite E. by eapply Htr.
  - split; rewrite ?Eb, ?Ec, ?Ecb; done.
  - intros w ws' H. destruct (framed_ws_back _ _ _ _ Hf H) as (ws&Hw&Hs).
    eapply ws_same_ok; [done|]. by eapply Hls.
  - intros b w i bo ws' Ho Hb H. destruct (framed_ws_back _ _ _ _ Hf H) as (ws&Hw&(_&E&_)).
    rewrite E. by eapply Hld.
Qed.

(** * What the kernel holds *)

Section held.
Context {K : Type} `{!Drm K} `{!DrmView K}.

(** The address libdrm reserved: without the control bit for an emulated sparse buffer. *)
Definition range_va (i : winsys_info) (bo : radv_amdgpu_winsys_bo) : Z :=
  if emulate_sparse_residency bo then radv_amdgpu_virtual_bo_get_low_addr i bo else bo_va bo.

(** The bytes of address space the buffer's own mappings reach. *)
Definition span (bo : radv_amdgpu_winsys_bo) : Z :=
  if has (bo_flags bo) RADEON_FLAG_VM_PAD_1PAGE then align64 (bo_size bo) 4096 + getpagesize
  else align64 (bo_size bo) getpagesize.

Definition perms (readonly : bool) (fl : Z) : Prop :=
  has fl AMDGPU_VM_PAGE_READABLE = true /\ has fl AMDGPU_VM_PAGE_EXECUTABLE = true
  /\ has fl AMDGPU_VM_PAGE_WRITEABLE = negb readonly.

(** The buffer is at its address from its first byte to its last, and its padding page after it. *)
Definition mapped (k : K) (dev : Z) (bo : radv_amdgpu_winsys_bo) : Prop :=
  (exists fl, Mapping dev (bo_va bo) (align64 (bo_size bo) getpagesize) (bo_handle bo) 0 fl ∈ k_maps k
     /\ perms (has (bo_flags bo) RADEON_FLAG_READ_ONLY) fl)
  /\ (has (bo_flags bo) RADEON_FLAG_VM_PAD_1PAGE = true ->
      align64 (bo_size bo) 4096 mod getpagesize = 0
      /\ exists fl, Mapping dev (bo_va bo + align64 (bo_size bo) 4096) getpagesize (bo_handle bo) 0 fl ∈ k_maps k
           /\ perms true fl).

(** The kernel objects behind one structure. *)
Record backed (k : K) (i : winsys_info) (bo : radv_amdgpu_winsys_bo) : Prop := Backed {
  ba_range : exists n, k_ranges k !! va_handle bo = Some (ws_dev i, range_va i bo, n) /\ span bo <= n;
  ba_emulated : emulate_sparse_residency bo = true ->
    is_virtual bo = true /\ k_control_bit (ws_dev i) = Some (address_prt_wa_control_bit i)
    /\ (bo_va bo = range_va i bo \/ bo_va bo = range_va i bo + 2 ^ address_prt_wa_control_bit i);
  ba_virtual : is_virtual bo = true -> bo_flags bo = 0;
  ba_buffer : is_virtual bo = false ->
    (exists r, k_bos k !! bo_buf bo = Some (ws_dev i, bo_handle bo, r)) /\ mapped k (ws_dev i) bo
}.

Definition uses_range (h : Z) (_ : Z) (bo : radv_amdgpu_winsys_bo) : Z := if va_handle bo =? h then 1 else 0.
Definition uses_buf (buf : Z) (_ : Z) (bo : radv_amdgpu_winsys_bo) : Z :=
  if negb (is_virtual bo) && (bo_buf bo =? buf) then 1 else 0.

Definition range_held (k : K) (h : Z) : Z := match k_ranges k !! h with Some _ => 1 | None => 0 end.
Definition buf_refs (k : K) (buf : Z) : Z := match k_bos k !! buf with Some (_, _, r) => r | None => 0 end.

(** The kernel's own bookkeeping. *)
Record kernel_ok (k : K) : Prop := KernelOk {
  ko_placed : forall h dev va n, k_ranges k !! h = Some (dev, va, n) ->
    va mod getpagesize = 0 /\ 0 < n /\ n mod getpagesize = 0 /\ range_placed dev va n;
  ko_apart : forall h1 h2 dev va1 n1 va2 n2, h1 <> h2 ->
    k_ranges k !! h1 = Some (dev, va1, n1) -> k_ranges k !! h2 = Some (dev, va2, n2) ->
    apart_ranges va1 n1 va2 n2;
  ko_refs : forall buf dev h r, k_bos k !! buf = Some (dev, h, r) -> 0 < r /\ h <> 0;
  ko_handles : forall buf1 buf2 dev h r1 r2,
    k_bos k !! buf1 = Some (dev, h, r1) -> k_bos k !! buf2 = Some (dev, h, r2) -> buf1 = buf2
}.

(** Exactly the ranges and references the structures name are held. *)
Record held (own : gmap Z (Z * winsys_info)) (bos : gmap Z radv_amdgpu_winsys_bo) (k : K) : Prop := Held {
  he_kernel : kernel_ok k;
  he_backed : forall b w i bo, own !! b = Some (w, i) -> bos !! b = Some bo -> backed k i bo;
  he_ranges : forall h, range_held k h = bo_sum (uses_range h) bos;
  he_bufs : forall buf, buf_refs k buf = bo_sum (uses_buf buf) bos
}.

Lemma mapped_same k k' dev bo : same_maps (k_maps k) (k_maps k') -> mapped k dev bo -> mapped k' dev bo.
Proof.
  intros H [(fl&?&?) Hp]. split.
  - exists fl. split; [by apply H|done].
  - intros Hf. destruct (Hp Hf) as (?&fl'&?&?). split; [done|]. exists fl'. split; [by apply H|done].
Qed.

Lemma backed_same k k' i bo : same_view k k' -> backed k i bo -> backed k' i bo.
Proof.
  intros (Er&Eb&Hm) [Hr He Hv Hb]. split; [by rewrite Er|done|done|].
  intros H. destruct (Hb H) as [(r&?) ?]. split; [exists r; by rewrite Eb|by eapply mapped_same].
Qed.

Lemma kernel_same k k' : same_view k k' -> kernel_ok k -> kernel_ok k'.
Proof.
  intros (Er&Eb&_) [? ? ? ?]. split; rewrite ?Er, ?Eb; done.
Qed.

Lemma held_same own bos k k' : same_view k k' -> held own bos k -> held own bos k'.
Proof.
  intros Hs [? Hb Hr Hc]. split; [by eapply kernel_same| | |].
  - intros b w i bo Ho Hl. eapply backed_same; [done|]. by eapply Hb.
  - intros h. destruct Hs as (E&_). unfold range_held. rewrite E. apply Hr.
  - intros buf. destruct Hs as (_&E&_). unfold buf_refs. rewrite E. apply Hc.
Qed.

(** A buffer structure without a change to what the kernel sees of it. *)
Definition same_backing (bo bo' : radv_amdgpu_winsys_bo) : Prop :=
  bo_va bo' = bo_va bo /\ bo_size bo' = bo_size bo /\ va_handle bo' = va_handle bo
  /\ bo_flags bo' = bo_flags bo /\ bo_buf bo' = bo_buf bo /\ bo_handle bo' = bo_handle bo
  /\ is_virtual bo' = is_virtual bo /\ emulate_sparse_residency bo' = emulate_sparse_residency bo.

Lemma backed_same_backing k i bo bo' : same_backing bo bo' -> backed k i bo -> backed k i bo'.
Proof.
  intros (E1&E2&E3&E4&E5&E6&E7&E8) [Hr He Hv Hb].
  split; unfold range_va, radv_amdgpu_virtual_bo_get_low_addr, span, mapped in *; rewrite ?E1, ?E2, ?E3, ?E4, ?E5, ?E6, ?E7, ?E8; done.
Qed.

(** A structure that names the same kernel objects. *)
Lemma held_replace own bos k b w i bo bo' :
  own !! b = Some (w, i) -> bos !! b = Some bo -> va_handle bo' = va_handle bo -> bo_buf bo' = bo_buf bo ->
  is_virtual bo' = is_virtual bo -> backed k i bo' -> held own bos k -> held own (<[b := bo']> bos) k.
Proof.
  intros Ho Hb E3 E5 E7 Hba [? Hk Hr Hc]. split; [done| | |].
  - intros b' w' i' bo0 Ho' [[<- <-]|[? H]]%lookup_insert_Some; [|by eapply Hk].
    rewrite Ho in Ho'. by injection Ho' as <- <-.
  - intros h. rewrite Hr. symmetry. apply (bo_sum_same _ _ _ bo); [done|]. unfold uses_range. by rewrite E3.
  - intros buf. rewrite Hc. symmetry. apply (bo_sum_same _ _ _ bo); [done|]. unfold uses_buf. by rewrite E5, E7.
Qed.

Lemma held_update own bos k b bo bo' :
  bos !! b = Some bo -> same_backing bo bo' -> held own bos k -> held own (<[b := bo']> bos) k.
Proof.
  intros Hb Hs [? Hk Hr Hc]. pose proof Hs as (_&_&E3&_&E5&_&E7&_). split; [done| | |].
  - intros b' w i bo0 Ho [[<- <-]|[? H]]%lookup_insert_Some; [|by eapply Hk].
    eapply backed_same_backing; [done|]. by eapply Hk.
  - intros h. rewrite Hr. symmetry. apply (bo_sum_same _ _ _ bo); [done|]. unfold uses_range. by rewrite E3.
  - intros buf. rewrite Hc. symmetry. apply (bo_sum_same _ _ _ bo); [done|]. unfold uses_buf. by rewrite E5, E7.
Qed.

End held.
