(* ===== verification/BoVa.v ===== *)
(** The effect of the calls on the GPU address space and of the global buffer list. *)

From stdpp Require Import gmap.
From S2P Require Import Prelude Pm4 BoModel BoLogic BoKernel BoInv.

(** * Page flags *)

Lemma mtv_cases mt : mtv mt ∈ [0; 32; 64; 96; 128; 160].
Proof.
  unfold mtv. destruct (_ !! Z.to_nat mt) as [x|] eqn:E; simpl; [|by left].
  by apply list_elem_of_lookup_2 in E.
Qed.

Lemma va_page_flags_perms i mt fl : perms (has fl RADEON_FLAG_READ_ONLY) (va_page_flags i mt fl).
Proof.
  assert (exists x, x ∈ [0; 32; 64; 96; 128; 160] /\ va_page_flags i mt fl =
    if has fl RADEON_FLAG_READ_ONLY then Z.lor 10 x else Z.lor (Z.lor 10 x) 4) as (x&Hx&->).
  { unfold va_page_flags. change (Z.lor AMDGPU_VM_PAGE_READABLE AMDGPU_VM_PAGE_EXECUTABLE) with 10.
    destruct (0 <=? mt); [exists (mtv mt); split; [apply mtv_cases|done]|].
    destruct (has fl RADV_XCLIPSE_VA_MTYPE_DEFAULT); [exists 0; split; [by left|done]|].
    destruct (has fl RADEON_FLAG_GL2_BYPASS && gfx_ge (ws_gfx_level i) GFX9).
    { exists 128. split; [set_solver|done]. }
    destruct (gfx_ge (ws_gfx_level i) GFX9); [exists 96; split; [set_solver|done]|].
    exists 0. split; [by left|done]. }
  rewrite !elem_of_cons, elem_of_nil in Hx.
  destruct (has fl RADEON_FLAG_READ_ONLY); destruct_or? Hx; subst; by vm_compute.
Qed.

(** * The control bit *)

Lemma control_bit_clear x q bit :
  0 <= bit -> q * 2 ^ (bit + 1) <= x < q * 2 ^ (bit + 1) + 2 ^ bit -> Z.land x (2 ^ bit) = 0.
Proof.
  intros Hb Hx. assert (0 < 2 ^ bit) by (apply Z.pow_pos_nonneg; lia).
  assert (Z.testbit x bit = false) as Ht.
  { apply Z.testbit_false; [done|]. replace (x / 2 ^ bit) with (2 * q).
    - rewrite Z.mul_comm. apply Z_mod_mult.
    - apply Z.div_unique with (x - 2 * q * 2 ^ bit); [left|lia].
      rewrite Z.pow_add_r in Hx by lia. lia. }
  apply Z.bits_inj'. intros n Hn. rewrite Z.land_spec, Z.bits_0, Z.pow2_bits_eqb by lia.
  destruct (Z.eqb_spec bit n) as [<-|]; [by rewrite Ht|apply andb_false_r].
Qed.

Lemma add_control_bit x q bit :
  0 <= bit -> q * 2 ^ (bit + 1) <= x < q * 2 ^ (bit + 1) + 2 ^ bit -> Z.lor x (2 ^ bit) = x + 2 ^ bit.
Proof.
  intros Hb Hx. pose proof (control_bit_clear x q bit Hb Hx) as E.
  rewrite Z.add_nocarry_lxor by done. symmetry. by apply Z.lxor_lor.
Qed.

Lemma drop_control_bit x q bit :
  0 <= bit -> 0 <= x -> x + 2 ^ bit < W64 -> q * 2 ^ (bit + 1) <= x < q * 2 ^ (bit + 1) + 2 ^ bit ->
  Z.land (x + 2 ^ bit) (u64 (Z.lnot (Z.shiftl 1 bit))) = x.
Proof.
  intros Hb H0 Hw Hx. assert (0 < 2 ^ bit) by (apply Z.pow_pos_nonneg; lia).
  change (u64 (Z.lnot (Z.shiftl 1 bit))) with (Z.lnot (Z.shiftl 1 bit) mod 2 ^ 64).
  rewrite land_mod_r by (change (2 ^ 64) with W64; lia).
  rewrite Z.shiftl_mul_pow2, Z.mul_1_l by lia.
  rewrite <- (add_control_bit x q bit Hb Hx), Z.land_lor_distr_l, Z.land_lnot_diag, Z.lor_0_r.
  rewrite <- Z.ldiff_land. pose proof (Z.lor_ldiff_and x (2 ^ bit)) as E.
  by rewrite (control_bit_clear x q bit Hb Hx), Z.lor_0_r in E.
Qed.

Lemma low_stays_low x q bit :
  0 <= bit -> 0 <= x < W64 -> q * 2 ^ (bit + 1) <= x < q * 2 ^ (bit + 1) + 2 ^ bit ->
  Z.land x (u64 (Z.lnot (Z.shiftl 1 bit))) = x.
Proof.
  intros Hb H0 Hx. change (u64 (Z.lnot (Z.shiftl 1 bit))) with (Z.lnot (Z.shiftl 1 bit) mod 2 ^ 64).
  rewrite land_mod_r by (change (2 ^ 64) with W64; lia).
  rewrite Z.shiftl_mul_pow2, Z.mul_1_l, <- Z.ldiff_land by lia.
  pose proof (Z.lor_ldiff_and x (2 ^ bit)) as E.
  by rewrite (control_bit_clear x q bit Hb Hx), Z.lor_0_r in E.
Qed.

Section va.
Context {K : Type} `{!Drm K} `{!DrmView K} `{!DrmLaws K}.
Implicit Types p : proc K.
#[local] Set Default Proof Using "All".

Lemma page_cases : exists n, 12 <= n <= 16 /\ getpagesize (K := K) = 2 ^ n.
Proof. apply page_size. Qed.

Lemma page_pos : 4096 <= getpagesize (K := K) <= 65536.
Proof.
  destruct page_cases as (n&Hn&->). split.
  - change 4096 with (2 ^ 12). apply Z.pow_le_mono_r; lia.
  - change 65536 with (2 ^ 16). apply Z.pow_le_mono_r; lia.
Qed.

Lemma page_gt0 : 0 < getpagesize (K := K).
Proof. pose proof page_pos. lia. Qed.

Lemma page_4096 : getpagesize (K := K) mod 4096 = 0.
Proof. destruct page_cases as (n&Hn&->). apply (pow2_mod_pow2 12). lia. Qed.

Lemma align64_pagesize n : 0 <= n < 2 ^ 60 -> align64 n (getpagesize (K := K)) = round_up n getpagesize.
Proof. destruct page_cases as (e&He&->). by apply align64_page. Qed.

Lemma align64_one_page : align64 4096 (getpagesize (K := K)) = getpagesize.
Proof.
  rewrite align64_pagesize by lia. destruct page_cases as (n&Hn&->). unfold round_up.
  assert (4096 <= 2 ^ n) by (change 4096 with (2 ^ 12); apply Z.pow_le_mono_r; lia).
  replace ((4096 + 2 ^ n - 1) / 2 ^ n) with 1; [lia|].
  apply Z.div_unique with 4095; lia.
Qed.

(** * One call *)

(** What a call on the address space has done when it returns [r]. *)
Definition va_done (a : va_op_args) (r : Z) (k k' : K) : Prop :=
  k_ranges k' = k_ranges k /\ k_bos k' = k_bos k /\
  match vo_ops a with
  | AMDGPU_VA_OP_MAP => map_added (va_mapping a) k k' \/ (r <> 0 /\ same_maps (k_maps k) (k_maps k'))
  | AMDGPU_VA_OP_UNMAP =>
      (forall m, m ∈ k_maps k' <->
         m ∈ k_maps k /\ ~ (m_dev m = vo_dev a /\ m_addr m = vo_addr a /\ m_handle m = vo_handle a))
      \/ same_maps (k_maps k) (k_maps k')
  | AMDGPU_VA_OP_REPLACE =>
      outside_kept (vo_dev a) (vo_addr a) (vo_size a) k k'
      /\ (r = 0 -> forall x t, vo_addr a <= x < vo_addr a + vo_size a ->
            maps_at (k_maps k') (vo_dev a) x t <-> t = (vo_handle a, vo_offset a + (x - vo_addr a), vo_flags a))
  | AMDGPU_VA_OP_CLEAR =>
      outside_kept (vo_dev a) (vo_addr a) (vo_size a) k k'
      /\ (r = 0 -> forall x t, vo_addr a <= x < vo_addr a + vo_size a -> ~ maps_at (k_maps k') (vo_dev a) x t)
  end.

Lemma va_op_done a k k' r : drm_bo_va_op a k = (k', r) -> va_done a r k k'.
Proof.
  intros H. destruct (va_op_keeps _ _ _ _ H) as [? ?]. split; [done|]. split; [done|].
  destruct (vo_ops a) eqn:E.
  - destruct (va_op_map _ _ _ _ E H) as [Hz Hnz].
    destruct (decide (r = 0)) as [->|Hr]; [left; by apply Hz|right; split; [done|by apply Hnz]].
  - destruct (va_op_unmap _ _ _ _ E H) as [?|[_ ?]]; [by left|by right].
  - split; [eapply va_op_outside; [by right|done]|]. intros ->. by eapply va_op_clear.
  - split; [eapply va_op_outside; [by left|done]|]. intros ->. by eapply va_op_replace.
Qed.

Definition page_flags (handle bo_flags internal_flags fl : Z) : Prop :=
  if handle =? 0 then fl = internal_flags else perms (has bo_flags RADEON_FLAG_READ_ONLY) fl.

Lemma wp_mtype i (Q : Z -> proc K -> Prop) p :
  (forall mt p', framed p p' -> p_k p' = p_k p -> p_winsys p' = p_winsys p -> Q mt p') ->
  wp (radv_xclipse_mtype i) Q p.
Proof.
  intros H. unfold radv_xclipse_mtype. wp_step. apply wp_if; intros _.
  - apply wp_ret, H; [apply framed_refl|done..].
  - do 3 wp_step. apply wp_ret, H; [apply framed_mt|done..].
Qed.

(** A call on the address space of winsys [w]. *)
Lemma wp_va_op w ws h off size addr fl ifl ops (Q : Z -> proc K -> Prop) p :
  p_winsys p !! w = Some ws -> (has fl RADEON_FLAG_VM_UPDATE_WAIT = true -> ops = AMDGPU_VA_OP_MAP) ->
  (forall fl' pt r p', framed p p' -> page_flags h fl ifl fl' ->
     va_done (VaOp (ws_dev (ws_info ws)) h off (align64 size getpagesize) addr fl' ops pt) r (p_k p) (p_k p') ->
     Q r p') ->
  wp (radv_amdgpu_bo_va_op w h off size addr fl ifl ops) Q p.
Proof.
  intros Hws Hwait H. unfold radv_amdgpu_bo_va_op. apply wp_bind. eapply wp_get_ws; [done|].
  eapply (wp_seq _ _ (fun fl' p' => framed p p' /\ p_k p' = p_k p /\ p_winsys p' = p_winsys p
                                     /\ page_flags h fl ifl fl')).
  { unfold page_flags. destruct (h =? 0); [apply wp_ret; split_and!; try done; apply framed_refl|].
    apply wp_bind, wp_mtype. intros mt p' ? ? ?. apply wp_ret. split_and!; try done; try apply va_page_flags_perms. }
  intros fl' p1 (Hf&Ek&Ew&Hfl). apply wp_if; intros Hw.
  - apply wp_bind, wp_massert; [apply bool_decide_eq_true_2; auto|]. wp_step.
    apply wp_bind, wp_kcall. intros k r Hk. simpl in Hk.
    assert (framed p (set_k k (set_winsys (<[w:=Winsys (ws_info ws) (global_bos ws) (global_capacity ws)
              (u64 (vm_timeline_seq_num ws + 1)) (null_prt_bo ws) (ib_cache_bos ws)]> (p_winsys p1)) p1))) as Hf1.
    { etrans; [exact Hf|]. etrans; [|apply framed_k]. apply (framed_put_ws _ ws); [by rewrite Ew|done]. }
    rewrite Ek in Hk. apply va_op_done in Hk as Hd.
    apply wp_if; intros Hr; [apply wp_ret; by eapply H|].
    apply negb_false_iff, Z.eqb_eq in Hr as ->. apply wp_kcall. intros k' r' Hk'. simpl in Hk'.
    apply wait_silent in Hk' as (Er&Eb&Hm). eapply H; [etrans; [exact Hf1|apply framed_k]|done|].
    destruct Hd as (?&?&Hd). split; [simpl; congruence|]. split; [simpl; congruence|].
    simpl in *. rewrite (Hwait Hw) in *. destruct Hd as [[Hn Hd]|[? _]]; [|done]. left. split; [done|].
    intros m. by rewrite (Hm m), (Hd m).
  - apply wp_kcall. intros k r Hk. rewrite Ek in Hk. eapply H; [etrans; [exact Hf|apply framed_k]|done|].
    by apply va_op_done.
Qed.

End va.
