(* ===== verification/BoBooks.v ===== *)
(** Updates of the books: a structure that changes in ways the counters do not see, the global buffer
    list, the arrival and departure of a structure, and the cache. *)

From stdpp Require Import gmap.
From S2P Require Import Prelude Pm4 BoModel BoLogic BoKernel BoInv.

(** The fields the counters, the cache and the lists of the winsys read. *)
Definition same_account (bo bo' : radv_amdgpu_winsys_bo) : Prop :=
  bo_size bo' = bo_size bo /\ is_virtual bo' = is_virtual bo /\ initial_domain bo' = initial_domain bo
  /\ vram_no_cpu_access bo' = vram_no_cpu_access bo /\ churn_counted bo' = churn_counted bo
  /\ bo_flags bo' = bo_flags bo /\ xclipse_alignment bo' = xclipse_alignment bo
  /\ imported bo' = imported bo /\ emulate_sparse_residency bo' = emulate_sparse_residency bo.

Lemma share_account own c sel b bo bo' : same_account bo bo' -> share own c sel b bo' = share own c sel b bo.
Proof.
  intros (E1&E2&E3&E4&_). unfold share, bo_bytes. by rewrite E1, E2, E3, E4.
Qed.

Lemma cacheable_account bo bo' : same_account bo bo' ->
  radv_xclipse_ibcache_cacheable bo' = radv_xclipse_ibcache_cacheable bo.
Proof.
  intros (_&E2&_&_&_&E6&_&E8&E9). unfold radv_xclipse_ibcache_cacheable. by rewrite E2, E6, E8, E9.
Qed.

Lemma cpu_map_account m bo : same_account bo (with_cpu_map m bo).
Proof. done. Qed.
Lemma cpu_map_backing m bo : same_backing bo (with_cpu_map m bo).
Proof. done. Qed.
Lemma priority_account n bo : same_account bo (with_priority n bo).
Proof. done. Qed.
Lemma priority_backing n bo : same_backing bo (with_priority n bo).
Proof. done. Qed.
Lemma global_account g bo : same_account bo (with_use_global_list g bo).
Proof. done. Qed.
Lemma global_backing g bo : same_backing bo (with_use_global_list g bo).
Proof. done. Qed.

Lemma with_global_same g bo : use_global_list bo = g -> with_use_global_list g bo = bo.
Proof. intros <-. by destruct bo. Qed.
Lemma with_cpu_map_same m bo : cpu_map bo = m -> with_cpu_map m bo = bo.
Proof. intros <-. by destruct bo. Qed.

#[export] Hint Resolve cpu_map_account cpu_map_backing priority_account priority_backing global_account
  global_backing : radv.

Section books.
Context {K : Type}.
Implicit Types (p : proc K) (own : gmap Z (Z * winsys_info)).

Lemma counts_account own bos b bo bo' c t :
  bos !! b = Some bo -> same_account bo bo' -> tracker_counts own bos c t ->
  tracker_counts own (<[b := bo']> bos) c t.
Proof.
  intros Hb Hs (?&?&?). unfold tracker_counts.
  rewrite !(bo_sum_same _ bos b bo bo' Hb) by by apply share_account. done.
Qed.

Lemma churn_account bos b bo bo' :
  bos !! b = Some bo -> same_account bo bo' -> bo_sum counted_size (<[b := bo']> bos) = bo_sum counted_size bos.
Proof.
  intros Hb (E1&_&_&_&E5&_). apply (bo_sum_same _ _ _ bo); [done|]. unfold counted_size. by rewrite E1, E5.
Qed.

Lemma entries_account own bos b bo bo' l :
  bos !! b = Some bo -> same_account bo bo' -> (b ∉ e_bo <$> l) \/ (cpu_map bo' = 0 /\ (use_global_list bo = false -> use_global_list bo' = false)) ->
  Forall (entry_ok own bos) l -> Forall (entry_ok own (<[b := bo']> bos)) l.
Proof.
  intros Hb Hs Hc Hl. rewrite Forall_forall in *. intros e He.
  destruct (Hl e He) as (i&bo0&Ho&Hb0&E&Hca&Hm&Hul). destruct (decide (e_bo e = b)) as [Eb|Hne].
  - rewrite Eb, Hb in Hb0. injection Hb0 as <-. exists i, bo'.
    split; [done|]. split; [rewrite Eb; apply lookup_insert_eq|].
    pose proof Hs as (E1&E2&E3&E4&E5&E6&E7&_). split; [by rewrite E1, E3, E6, E7|].
    split; [by rewrite (cacheable_account bo bo' Hs)|]. destruct Hc as [Hc|[? Hc]]; [|naive_solver].
    destruct Hc. rewrite <- Eb. by apply list_elem_of_fmap_2.
  - exists i, bo0. split; [done|]. split; [|done]. by rewrite lookup_insert_ne.
Qed.

Lemma winsys_account own bos b bo bo' d w ws :
  bos !! b = Some bo -> same_account bo bo' -> (b ∈ global_bos ws -> use_global_list bo' = true) ->
  (own !! b = Some (w, ws_info ws) -> use_global_list bo = false ->
     debug_all_bos (ws_info ws) = true \/ use_global_list bo' = false) ->
  winsys_ok own bos d w ws -> winsys_ok own (<[b := bo']> bos) d w ws.
Proof.
  intros Hb (E1&E2&_&_&_&E6&_) Hu Hun [? Hg Hn]. split; [done| |].
  - intros b' Hin. destruct (Hg b' Hin) as (bo0&?&Hb'&?). destruct (decide (b' = b)) as [->|].
    + exists bo'. rewrite lookup_insert_eq. auto.
    + exists bo0. by rewrite lookup_insert_ne.
  - intros b' Hd Hin. destruct (Hn b' Hd Hin) as (bo0&Ho'&Hb'&?&?&?&Hl'&?). destruct (decide (b' = b)) as [->|].
    + rewrite Hb in Hb'. injection Hb' as <-. exists bo'. rewrite lookup_insert_eq. split_and!; try congruence.
      destruct Hl' as [?|?]; [by left|by apply Hun].
    + exists bo0. by rewrite lookup_insert_ne.
Qed.

(** A structure changes without the lists or the counters noticing. *)
Lemma books_put own p b bo bo' :
  p_bos p !! b = Some bo -> same_account bo bo' -> use_global_list bo' = use_global_list bo ->
  (b ∉ e_bo <$> p_cache p) \/ cpu_map bo' = 0 ->
  books own p -> books own (set_bos (<[b := bo']> (p_bos p)) p).
Proof.
  intros Hb Hs Hg Hc [Hdom Hnext Hsz Hws Htr Hct [? ? ? ? ?] Hls Hld Hch]. split; simpl; try done.
  - intros b'. rewrite Hdom. destruct (decide (b' = b)) as [->|]; [rewrite lookup_insert_eq, Hb|by rewrite lookup_insert_ne].
    by split; intros _; eexists.
  - intros b' bo0 [[<- <-]|[_ H]]%lookup_insert_Some; [|by eapply Hsz].
    destruct Hs as (->&_). by eapply Hsz.
  - intros c t Ht. eapply counts_account; eauto.
  - split; simpl; try done. eapply entries_account; [done..| |done]. destruct Hc as [?|?]; [by left|right]. by rewrite Hg.
  - intros w ws Hw. eapply winsys_account; [done|done| |by rewrite Hg; right|by eapply Hls].
    intros Hin. destruct (wo_global _ _ _ _ _ (Hls w ws Hw) b Hin) as (bo0&_&Hb0&?).
    rewrite Hb in Hb0. injection Hb0 as <-. congruence.
  - intros b' w i bo0 ws Ho [[<- <-]|[_ H]]%lookup_insert_Some Hw Hu; [|by eapply Hld].
    eapply Hld; [done..|]. congruence.
  - rewrite (churn_account _ b bo); done.
Qed.

(** The buffer enters ([g]) or leaves the global list of its winsys, which becomes [l]. *)
Lemma books_list own p b bo w ws g l cap :
  books own p -> own !! b = Some (w, ws_info ws) -> p_bos p !! b = Some bo -> p_winsys p !! w = Some ws ->
  NoDup l -> (forall b', b' <> b -> b' ∈ l <-> b' ∈ global_bos ws) -> (b ∈ l <-> g = true) ->
  (g = true -> (b ∉ e_bo <$> p_cache p)
     /\ (null_prt_bo ws <> Some b \/ p_dying p = Some w \/ debug_all_bos (ws_info ws) = true)) ->
  books own (set_bos (<[b := with_use_global_list g bo]> (p_bos p))
               (set_winsys (<[w := Winsys (ws_info ws) l cap (vm_timeline_seq_num ws) (null_prt_bo ws)
                                     (ib_cache_bos ws)]> (p_winsys p)) p)).
Proof.
  intros [Hdom Hnext Hsz Hws Htr Hct [Hce ? ? ? ?] Hls Hld Hch] Ho Hb Hw Hnd Hl Hg Hgc.
  set (bo' := with_use_global_list g bo). assert (same_account bo bo') as Hs by done.
  split; simpl; try done.
  - intros b'. rewrite Hdom. destruct (decide (b' = b)) as [->|]; [rewrite lookup_insert_eq, Hb|by rewrite lookup_insert_ne].
    by split; intros _; eexists.
  - intros b' bo0 [[<- <-]|[_ H]]%lookup_insert_Some; [|by eapply Hsz]. by apply (Hsz b bo).
  - intros b' w' i Hb'. destruct (Hws b' w' i Hb') as (ws'&Hw'&<-).
    destruct (decide (w' = w)) as [->|]; [|exists ws'; by rewrite lookup_insert_ne].
    rewrite Hw in Hw'. injection Hw' as <-. eexists. rewrite lookup_insert_eq. done.
  - intros w' ws' [[<- <-]|[_ H]]%lookup_insert_Some; [by apply (Htr w ws)|by eapply Htr].
  - intros c t Ht. eapply counts_account; eauto.
  - split; simpl; try done. eapply entries_account; [done|done| |done].
    destruct (decide (b ∈ e_bo <$> p_cache p)) as [Hin|]; [right|by left].
    assert (g = false) as -> by (destruct g; [by destruct (Hgc eq_refl) as [[] _]|done]).
    apply list_elem_of_fmap in Hin as (e&->&He). rewrite Forall_forall in Hce.
    destruct (Hce e He) as (_&bo0&_&Hb0&_&_&?&_). rewrite Hb in Hb0. by injection Hb0 as <-.
  - intros w' ws' [[<- <-]|[Hne H']]%lookup_insert_Some.
    + destruct (Hls w ws Hw) as [? Hgl Hnl]. split; simpl; [done| |].
      * intros b' Hin. destruct (decide (b' = b)) as [->|Hne].
        { exists bo'. rewrite lookup_insert_eq. split; [done|]. split; [done|]. by apply Hg. }
        apply Hl in Hin; [|done]. destruct (Hgl b' Hin) as (bo0&?&?&?). exists bo0. by rewrite lookup_insert_ne.
      * intros b' Hd Hin. destruct (Hnl b' Hd Hin) as (bo0&?&Hb'&H2). destruct (decide (b' = b)) as [->|].
        { rewrite Hb in Hb'. injection Hb' as <-. exists bo'. rewrite lookup_insert_eq. destruct H2 as (?&?&?&H2&?).
          split_and!; try done. destruct g; [|by right]. destruct (Hgc eq_refl) as [_ [?|[?|?]]]; [done|done|by left]. }
        exists bo0. by rewrite lookup_insert_ne.
    + eapply winsys_account; [done|done| |congruence|by eapply Hls]. intros Hin.
      destruct (wo_global _ _ _ _ _ (Hls w' ws' H') b Hin) as (bo0&Ho'&_). rewrite Ho in Ho'. by injection Ho'.
  - intros b' w' i bo0 ws' Ho' Hb' Hw' Hu.
    destruct (decide (b' = b)) as [->|Hne].
    + rewrite Ho in Ho'. injection Ho' as <- <-. rewrite lookup_insert_eq in Hw'. injection Hw' as <-.
      rewrite lookup_insert_eq in Hb'. injection Hb' as <-. by apply Hg.
    + rewrite lookup_insert_ne in Hb' by done.
      apply lookup_insert_Some in Hw' as [[<- <-]|[_ Hw']]; simpl; [apply Hl; [done|]|]; by eapply Hld.
  - by rewrite (churn_account _ b bo).
Qed.

(** The winsys gets its zero buffer. *)
Lemma books_null own p w ws b bo :
  books own p -> p_winsys p !! w = Some ws -> own !! b = Some (w, ws_info ws) -> p_bos p !! b = Some bo ->
  bo_flags bo = NULL_PRT_FLAGS -> bo_size bo = 8 * 1024 * 1024 -> is_virtual bo = false ->
  debug_all_bos (ws_info ws) = true \/ use_global_list bo = false -> has_smem_with_null_prt_bug (ws_info ws) = true ->
  books own (set_winsys (<[w := Winsys (ws_info ws) (global_bos ws) (global_capacity ws) (vm_timeline_seq_num ws)
                                  (Some b) (ib_cache_bos ws)]> (p_winsys p)) p).
Proof.
  intros [Hdom Hnext Hsz Hws Htr Hct [Hce ? ? ? ?] Hls Hld Hch] Hw Ho Hb Hf Hs Hv Hlst Hbug. split; simpl; try done.
  - intros b' w' i Hb'. destruct (Hws b' w' i Hb') as (ws'&Hw'&<-).
    destruct (decide (w' = w)) as [->|]; [|exists ws'; by rewrite lookup_insert_ne].
    rewrite Hw in Hw'. injection Hw' as <-. eexists. by rewrite lookup_insert_eq.
  - intros w' ws' [[<- <-]|[_ H]]%lookup_insert_Some; [by apply (Htr w ws)|by eapply Htr].
  - intros w' ws' [[<- <-]|[_ H]]%lookup_insert_Some; [|by eapply Hls].
    destruct (Hls w ws Hw) as [? ? _]. split; simpl; try done. intros b' _ [= <-]. by exists bo.
  - intros b' w' i bo0 ws' Ho' Hb' [[<- <-]|[_ H]]%lookup_insert_Some Hu; [|by eapply Hld]. by apply (Hld b' w i bo0 ws).
Qed.

(** * Arrival and departure *)

Lemma u64_add x y : u64 (u64 x + y) = u64 (x + y).
Proof. unfold u64. by rewrite Zplus_mod_idemp_l. Qed.

(** The trackers after buffer [bo] of a winsys [i] has been counted [sign] times. *)
Definition recount (sign : Z) (i : winsys_info) (bo : radv_amdgpu_winsys_bo)
    (m m' : gmap Z radv_amdgpu_alloc_tracker) : Prop :=
  forall c, m' !! c =
    (if (ws_cookie i =? c) && negb (is_virtual bo)
     then tracker_add (sign * (bo_bytes i bo).1.1) (sign * (bo_bytes i bo).1.2) (sign * (bo_bytes i bo).2) <$> m !! c
     else m !! c).

Lemma recount_known sign i bo m m' c : recount sign i bo m m' -> is_Some (m' !! c) <-> is_Some (m !! c).
Proof. intros H. rewrite H. destruct (_ && _); [by rewrite fmap_is_Some|done]. Qed.

Lemma share_insert own b w i bos c sel :
  bos !! b = None -> bo_sum (share (<[b := (w, i)]> own) c sel) bos = bo_sum (share own c sel) bos.
Proof.
  intros Hb. apply bo_sum_ext. intros b' bo' Hb'. unfold share. rewrite lookup_insert_ne; [done|congruence].
Qed.

Lemma share_delete own b bos c sel :
  bos !! b = None -> bo_sum (share (delete b own) c sel) bos = bo_sum (share own c sel) bos.
Proof.
  intros Hb. apply bo_sum_ext. intros b' bo' Hb'. unfold share. rewrite lookup_delete_ne; [done|congruence].
Qed.

Lemma share_owned own c sel b bo w i : own !! b = Some (w, i) ->
  share own c sel b bo = if (ws_cookie i =? c) && negb (is_virtual bo) then sel (bo_bytes i bo) else 0.
Proof. intros H. unfold share. by rewrite H. Qed.

Lemma counts_arrive own bos b w i bo c m m' t' :
  bos !! b = None -> recount 1 i bo m m' -> m' !! c = Some t' ->
  (forall t, m !! c = Some t -> tracker_counts own bos c t) ->
  tracker_counts (<[b := (w, i)]> own) (<[b := bo]> bos) c t'.
Proof.
  intros Hb Hm Ht H. rewrite Hm in Ht. unfold tracker_counts. rewrite !bo_sum_insert, !share_insert by done.
  rewrite !(share_owned _ _ _ b bo w i) by apply lookup_insert_eq. destruct (bo_bytes i bo) as [[x y] z].
  destruct (_ && _); [|rewrite !Z.add_0_l; by apply H].
  destruct (m !! c) as [t|] eqn:Et; [|done]. injection Ht as <-. destruct (H t eq_refl) as (E1&E2&E3).
  cbn [allocated_vram allocated_vram_vis allocated_gtt tracker_add sel_vram sel_vis sel_gtt fst snd].
  rewrite E1, E2, E3, !u64_add. split_and!; f_equal; lia.
Qed.

Lemma counts_depart own bos b w i bo c m m' t' :
  own !! b = Some (w, i) -> bos !! b = Some bo -> recount (-1) i bo m m' -> m' !! c = Some t' ->
  (forall t, m !! c = Some t -> tracker_counts own bos c t) ->
  tracker_counts (delete b own) (delete b bos) c t'.
Proof.
  intros Ho Hb Hm Ht H. rewrite Hm in Ht. unfold tracker_counts.
  rewrite !share_delete by apply lookup_delete_eq. rewrite !(bo_sum_delete _ _ _ _ Hb).
  rewrite !(share_owned _ _ _ b bo w i Ho). destruct (bo_bytes i bo) as [[x y] z].
  destruct (_ && _); [|rewrite !Z.sub_0_r; by apply H].
  destruct (m !! c) as [t|] eqn:Et; [|done]. injection Ht as <-. destruct (H t eq_refl) as (E1&E2&E3).
  cbn [allocated_vram allocated_vram_vis allocated_gtt tracker_add sel_vram sel_vis sel_gtt fst snd].
  rewrite E1, E2, E3, !u64_add. split_and!; f_equal; lia.
Qed.

Lemma entry_insert own bos b w i bo e :
  own !! b = None -> entry_ok own bos e -> entry_ok (<[b := (w, i)]> own) (<[b := bo]> bos) e.
Proof.
  intros Hb (i'&bo'&Ho&?&?). exists i', bo'. assert (e_bo e <> b) by congruence.
  by rewrite !lookup_insert_ne.
Qed.

Lemma entry_delete own bos b e :
  e_bo e <> b -> entry_ok own bos e -> entry_ok (delete b own) (delete b bos) e.
Proof. intros Hb (i'&bo'&?&?&?). exists i', bo'. by rewrite !lookup_delete_ne. Qed.

(** A new structure [b] of winsys [w]. *)
Lemma books_arrive own p p' b w ws bo :
  books own p -> own !! b = None -> b < p_next p' -> p_next p <= p_next p' ->
  p_winsys p !! w = Some ws -> size_fits (bo_size bo) -> use_global_list bo = false ->
  p_winsys p' = p_winsys p -> p_dying p' = p_dying p -> p_bos p' = <[b := bo]> (p_bos p) -> p_cache p' = p_cache p ->
  p_cache_bytes p' = p_cache_bytes p -> recount 1 (ws_info ws) bo (p_trackers p) (p_trackers p') ->
  live_bytes (p_churn p') = u64 (live_bytes (p_churn p) + counted_size b bo) ->
  books (<[b := (w, ws_info ws)]> own) p'.
Proof.
  intros [Hdom Hnext Hsz Hws Htr Hct [Hce ? ? ? ?] Hls Hld Hch] Ho Hlt Hn Hw Hfit Hug Ew Ed Eb Ec Ecb Hm El.
  assert (p_bos p !! b = None) as Hb.
  { apply eq_None_not_Some. rewrite <- Hdom, Ho. by intros [? ?]. }
  split; rewrite ?Ew, ?Eb, ?Ed.
  - intros b'. destruct (decide (b' = b)) as [->|]; [rewrite !lookup_insert_eq|by rewrite !lookup_insert_ne].
    by split; intros _; eexists.
  - intros b'. destruct (decide (b' = b)) as [->|]; [done|]. rewrite lookup_insert_ne by done.
    intros Hb'. specialize (Hnext b' Hb'). lia.
  - intros b' bo0 [[<- <-]|[_ H']]%lookup_insert_Some; [done|by eapply Hsz].
  - intros b' w' i [[<- [= <- <-]]|[_ H']]%lookup_insert_Some; [by exists ws|by eapply Hws].
  - intros w' ws' H'. rewrite (recount_known _ _ _ _ _ _ Hm). by eapply Htr.
  - intros c t' Ht. eapply counts_arrive; [done..|]. intros t. by apply Hct.
  - split; rewrite ?Ec, ?Ecb, ?Eb; try done. eapply Forall_impl; [exact Hce|]. intros e. by apply entry_insert.
  - intros w' ws' H'. destruct (Hls w' ws' H') as [? Hgl Hnl]. split; [done| |].
    + intros b' Hin. destruct (Hgl b' Hin) as (bo0&?&?&?). exists bo0.
      assert (b' <> b) by congruence. by rewrite !lookup_insert_ne.
    + intros b' Hd Hin. destruct (Hnl b' Hd Hin) as (bo0&?&?&?). exists bo0.
      assert (b' <> b) by congruence. by rewrite !lookup_insert_ne.
  - intros b' w' i bo0 ws' Ho' Hb' Hw' Hu. destruct (decide (b' = b)) as [->|].
    + rewrite lookup_insert_eq in Hb'. injection Hb' as <-. congruence.
    + rewrite lookup_insert_ne in Ho' by done. rewrite lookup_insert_ne in Hb' by done. by eapply Hld.
  - rewrite El, bo_sum_insert, Hch, u64_add by done. f_equal. lia.
Qed.

(** The structure [b], which no list names any more, is freed. *)
Lemma books_depart own p p' b w ws bo :
  books own p -> own !! b = Some (w, ws_info ws) -> p_bos p !! b = Some bo -> p_winsys p !! w = Some ws ->
  (b ∉ e_bo <$> p_cache p) -> use_global_list bo = false ->
  null_prt_bo ws <> Some b \/ p_dying p = Some w ->
  p_winsys p' = p_winsys p -> p_dying p' = p_dying p -> p_bos p' = delete b (p_bos p) -> p_cache p' = p_cache p ->
  p_cache_bytes p' = p_cache_bytes p -> p_next p <= p_next p' ->
  recount (-1) (ws_info ws) bo (p_trackers p) (p_trackers p') ->
  live_bytes (p_churn p') = u64 (live_bytes (p_churn p) - counted_size b bo) ->
  books (delete b own) p'.
Proof.
  intros [Hdom Hnext Hsz Hws Htr Hct [Hce ? ? ? ?] Hls Hld Hch] Ho Hb Hw Hnc Hug Hnn Ew Ed Eb Ec Ecb En Hm El.
  split; rewrite ?Ew, ?Eb, ?Ed.
  - intros b'. destruct (decide (b' = b)) as [->|]; [by rewrite !lookup_delete_eq|by rewrite !lookup_delete_ne].
  - intros b' [[w' i'] [_ H']%lookup_delete_Some]. assert (is_Some (own !! b')) as Hs by by eexists.
    specialize (Hnext b' Hs). lia.
  - intros b' bo0 [_ H']%lookup_delete_Some. by eapply Hsz.
  - intros b' w' i [_ H']%lookup_delete_Some. by eapply Hws.
  - intros w' ws' H'. rewrite (recount_known _ _ _ _ _ _ Hm). by eapply Htr.
  - intros c t' Ht. eapply counts_depart; [done..|]. intros t. by apply Hct.
  - split; rewrite ?Ec, ?Ecb, ?Eb; try done. rewrite Forall_forall in *. intros e He.
    apply entry_delete; [|by apply Hce]. intros <-. destruct Hnc. by apply list_elem_of_fmap_2.
  - intros w' ws' H'. destruct (Hls w' ws' H') as [? Hgl Hnl]. split; [done| |].
    + intros b' Hin. destruct (Hgl b' Hin) as (bo0&?&?&?). exists bo0.
      assert (b' <> b) by congruence. by rewrite !lookup_delete_ne.
    + intros b' Hd Hin. destruct (Hnl b' Hd Hin) as (bo0&Ho'&?&?). exists bo0.
      assert (b' <> b).
      { intros ->. rewrite Ho in Ho'. injection Ho' as -> _. rewrite Hw in H'. injection H' as <-. by destruct Hnn. }
      by rewrite !lookup_delete_ne.
  - intros b' w' i bo0 ws' [_ Ho']%lookup_delete_Some [_ Hb']%lookup_delete_Some Hw' Hu. by eapply Hld.
  - rewrite El, (bo_sum_delete _ _ _ _ Hb), Hch. unfold Z.sub. rewrite u64_add. done.
Qed.

(** * The cache *)

Lemma sum_sizes_perm l l' : l ≡ₚ l' -> sum_sizes l = sum_sizes l'.
Proof.
  intros H. unfold sum_sizes. apply (fmap_Permutation e_size) in H.
  induction H; simpl; lia.
Qed.

Lemma sum_sizes_app l e : sum_sizes (l ++ [e]) = sum_sizes l + e_size e.
Proof.
  rewrite (sum_sizes_perm (l ++ [e]) (e :: l)) by by rewrite Permutation_app_comm.
  change (sum_sizes (e :: l)) with (e_size e + sum_sizes l). lia.
Qed.

Lemma entry_size own bos e :
  (forall b bo, bos !! b = Some bo -> size_fits (bo_size bo)) -> entry_ok own bos e -> size_fits (e_size e).
Proof. intros H (i&bo&_&Hb&->&_). simpl in *. by eapply H. Qed.

Lemma sum_sizes_nonneg own bos l :
  (forall b bo, bos !! b = Some bo -> size_fits (bo_size bo)) -> Forall (entry_ok own bos) l -> 0 <= sum_sizes l.
Proof.
  intros H Hl. induction Hl as [|e l He Hl IH]; [done|].
  pose proof (entry_size _ _ _ H He). change (sum_sizes (e :: l)) with (e_size e + sum_sizes l).
  unfold size_fits in *. lia.
Qed.

(** A buffer is parked. *)
Lemma books_park own p b w i bo :
  books own p -> own !! b = Some (w, i) -> p_bos p !! b = Some bo -> (b ∉ e_bo <$> p_cache p) ->
  radv_xclipse_ibcache_cacheable bo = true -> cpu_map bo = 0 ->
  debug_all_bos i = true \/ use_global_list bo = false ->
  Z.of_nat (length (p_cache p)) < RADV_XCLIPSE_IBCACHE_BUCKETS ->
  u64 (p_cache_bytes p + bo_size bo) <= RADV_XCLIPSE_IBCACHE_CAP ->
  books own (set_cache (p_cache p ++ [Entry b w (bo_size bo) (xclipse_alignment bo) (bo_flags bo) (initial_domain bo)])
               (u64 (p_cache_bytes p + bo_size bo)) p).
Proof.
  intros [Hdom Hnext Hsz Hws Htr Hct [Hce Hnd Hcn Hby Hcap] Hls Hld Hch] Ho Hb Hnc Hca Hm Hul Hlen Hcap'.
  pose proof (Hsz b bo Hb) as Hf. pose proof (sum_sizes_nonneg _ _ _ Hsz Hce) as Hnn.
  assert (u64 (p_cache_bytes p + bo_size bo) = p_cache_bytes p + bo_size bo) as Eu.
  { apply u64_small. unfold size_fits in Hf. change RADV_XCLIPSE_IBCACHE_CAP with 67108864 in *. unfold W64. lia. }
  split; simpl; try done. split; simpl.
  - apply Forall_app. split; [done|]. constructor; [|constructor]. exists i, bo. done.
  - rewrite fmap_app. simpl. rewrite NoDup_app. split; [done|]. split; [|apply NoDup_singleton].
    intros b' Hin ->%list_elem_of_singleton. done.
  - rewrite length_app. simpl. lia.
  - rewrite Eu, sum_sizes_app. simpl. by rewrite Hby.
  - done.
Qed.

(** An entry is taken out. *)
Lemma books_take own p j e :
  books own p -> p_cache p !! j = Some e ->
  books own (set_cache (swap_remove j (p_cache p)) (u64 (p_cache_bytes p - e_size e)) p)
  /\ entry_ok own (p_bos p) e /\ (e_bo e ∉ e_bo <$> swap_remove j (p_cache p)).
Proof.
  intros [Hdom Hnext Hsz Hws Htr Hct [Hce Hnd Hcn Hby Hcap] Hls Hld Hch] Hj.
  pose proof (swap_remove_Permutation _ _ _ Hj) as Hp.
  rewrite Hp in Hce, Hnd. apply Forall_cons in Hce as [He Hce]. simpl in Hnd. apply NoDup_cons in Hnd as [Hni Hnd].
  rewrite Hp in Hcn. simpl in Hcn. rewrite (sum_sizes_perm _ _ Hp) in Hby.
  change (sum_sizes (e :: ?l)) with (e_size e + sum_sizes l) in Hby.
  pose proof (sum_sizes_nonneg _ _ _ Hsz Hce) as Hnn. pose proof (entry_size _ _ _ Hsz He) as Hf.
  unfold size_fits in Hf. change RADV_XCLIPSE_IBCACHE_CAP with 67108864 in *.
  assert (u64 (p_cache_bytes p - e_size e) = sum_sizes (swap_remove j (p_cache p))) as Eu.
  { rewrite u64_small; unfold W64; lia. }
  split; [|done]. split; simpl; try done. split; simpl; try done; [lia|]. rewrite Eu. change RADV_XCLIPSE_IBCACHE_CAP with 67108864. lia.
Qed.

End books.
