(* ===== verification/BoHeld.v ===== *)
(** What the calls of the winsys leave of the buffers they are not about: the ranges of two buffers
    are apart, so nothing done inside one of them reaches the other. *)

From stdpp Require Import gmap.
From S2P Require Import Prelude Pm4 BoModel BoLogic BoKernel BoInv BoVa.

Section held.
Context {K : Type} `{!Drm K} `{!DrmView K} `{!DrmLaws K}.
Implicit Types (k : K) (own : gmap Z (Z * winsys_info)) (bos : gmap Z radv_amdgpu_winsys_bo).
#[local] Set Default Proof Using "All".

(** * The mappings of a buffer lie in its range *)

Definition within (bo : radv_amdgpu_winsys_bo) (m : mapping) : Prop :=
  bo_va bo <= m_addr m /\ m_addr m + m_size m <= bo_va bo + span bo /\ 0 < m_size m.

Lemma main_within dev bo fl : size_fits (bo_size bo) ->
  within bo (Mapping dev (bo_va bo) (align64 (bo_size bo) getpagesize) (bo_handle bo) 0 fl).
Proof.
  intros Hs. unfold size_fits in Hs. unfold within, span. simpl. pose proof page_pos.
  rewrite align64_pagesize by lia.
  pose proof (round_up_spec (bo_size bo) _ page_gt0) as [H1 _].
  destruct (has _ _); [|lia]. rewrite align64_4096 by lia.
  pose proof (round_up_spec (bo_size bo) 4096 ltac:(lia)) as [H2 _]. lia.
Qed.

Lemma pad_within dev bo fl : size_fits (bo_size bo) -> has (bo_flags bo) RADEON_FLAG_VM_PAD_1PAGE = true ->
  within bo (Mapping dev (bo_va bo + align64 (bo_size bo) 4096) getpagesize (bo_handle bo) 0 fl).
Proof.
  intros Hs Hp. unfold size_fits in Hs. unfold within, span. rewrite Hp. simpl. pose proof page_pos.
  rewrite align64_4096 by lia. pose proof (round_up_spec (bo_size bo) 4096 ltac:(lia)) as [? _]. lia.
Qed.

Lemma span_pos bo : size_fits (bo_size bo) -> 0 < span bo.
Proof. intros H. destruct (main_within 0 bo 0 H) as (?&?&?). simpl in *. lia. Qed.

(** A buffer stays mapped when its own mappings do. *)
Lemma mapped_keep k k' dev bo :
  size_fits (bo_size bo) -> mapped k dev bo ->
  (forall m, m ∈ k_maps k -> m_dev m = dev -> m_handle m = bo_handle bo -> within bo m -> m ∈ k_maps k') ->
  mapped k' dev bo.
Proof.
  intros Hs [(fl&?&?) Hp] Hkp. split.
  - exists fl. split; [|done]. apply Hkp; [done..|]. by apply main_within.
  - intros Hf. destruct (Hp Hf) as (?&fl'&?&?). split; [done|]. exists fl'. split; [|done].
    apply Hkp; [done..|]. by apply pad_within.
Qed.

(** * Ranges of different buffers *)

Definition bo_fits bos : Prop := forall b bo, bos !! b = Some bo -> size_fits (bo_size bo).

Lemma uses_range_nonneg h b bo : 0 <= uses_range h b bo.
Proof. unfold uses_range. destruct (_ =? _); lia. Qed.

Lemma uses_buf_nonneg buf b bo : 0 <= uses_buf buf b bo.
Proof. unfold uses_buf. destruct (_ && _); lia. Qed.

Lemma va_handles_differ own bos k b1 b2 bo1 bo2 :
  held own bos k -> b1 <> b2 -> bos !! b1 = Some bo1 -> bos !! b2 = Some bo2 -> va_handle bo1 <> va_handle bo2.
Proof.
  intros Hh Hne H1 H2 E.
  pose proof (bo_sum_ge2 (uses_range (va_handle bo1)) bos b1 b2 bo1 bo2
                (fun b x _ => uses_range_nonneg _ b x) Hne H1 H2) as H.
  rewrite <- (he_ranges _ _ _ Hh) in H. unfold uses_range in H. rewrite <- E, Z.eqb_refl in H.
  unfold range_held in H. destruct (k_ranges k !! va_handle bo1); lia.
Qed.

(** The reserved range of a buffer, and its place. *)
Lemma backed_range own bos k b w i bo :
  held own bos k -> own !! b = Some (w, i) -> bos !! b = Some bo ->
  exists n, k_ranges k !! va_handle bo = Some (ws_dev i, range_va i bo, n) /\ span bo <= n
    /\ range_placed (ws_dev i) (range_va i bo) n /\ range_va i bo mod getpagesize = 0.
Proof.
  intros Hh Ho Hb. destruct (ba_range _ _ _ (he_backed _ _ _ Hh _ _ _ _ Ho Hb)) as (n&Hr&Hn).
  exists n. split; [done|]. split; [done|].
  destruct (ko_placed _ (he_kernel _ _ _ Hh) _ _ _ _ Hr) as (?&?&?&?). done.
Qed.

(** A byte of the reserved range of [b1] (or of its image under the control bit) is in no mapping of [b2]. *)
Lemma ranges_separate own bos k b1 b2 w1 w2 i1 i2 bo1 bo2 x m :
  held own bos k -> b1 <> b2 ->
  own !! b1 = Some (w1, i1) -> bos !! b1 = Some bo1 -> own !! b2 = Some (w2, i2) -> bos !! b2 = Some bo2 ->
  is_virtual bo2 = false -> ws_dev i1 = ws_dev i2 -> within bo2 m ->
  (range_va i1 bo1 <= x < range_va i1 bo1 + span bo1
   \/ (emulate_sparse_residency bo1 = true /\ bo_va bo1 <= x < bo_va bo1 + span bo1)) ->
  ~ (m_addr m <= x < m_addr m + m_size m).
Proof.
  intros Hh Hne Ho1 Hb1 Ho2 Hb2 Hv2 Hd (Hm1&Hm2&_) Hx Hin.
  destruct (backed_range _ _ _ _ _ _ _ Hh Ho1 Hb1) as (n1&Hr1&Hn1&(Hp1&Hp1'&Hc1)&_).
  destruct (backed_range _ _ _ _ _ _ _ Hh Ho2 Hb2) as (n2&Hr2&Hn2&(Hp2&Hp2'&Hc2)&_).
  assert (range_va i2 bo2 = bo_va bo2) as E2.
  { unfold range_va. destruct (emulate_sparse_residency bo2) eqn:E; [|done].
    destruct (ba_emulated _ _ _ (he_backed _ _ _ Hh _ _ _ _ Ho2 Hb2) E) as [? _]. congruence. }
  rewrite E2 in *. rewrite Hd in Hr1, Hc1.
  destruct Hx as [Hx|[He Hx]].
  - destruct (ko_apart _ (he_kernel _ _ _ Hh) _ _ _ _ _ _ _
                (va_handles_differ _ _ _ _ _ _ _ Hh Hne Hb1 Hb2) Hr1 Hr2); lia.
  - destruct (ba_emulated _ _ _ (he_backed _ _ _ Hh _ _ _ _ Ho1 Hb1) He) as (_&Hbit&[Eva|Eva]).
    { rewrite Eva in Hx. destruct (ko_apart _ (he_kernel _ _ _ Hh) _ _ _ _ _ _ _
                (va_handles_differ _ _ _ _ _ _ _ Hh Hne Hb1 Hb2) Hr1 Hr2); lia. }
    rewrite Hd in Hbit. rewrite Hbit in Hc1, Hc2. destruct Hc1 as (Hbt&q1&Hq1&Hq1'). destruct Hc2 as (_&q2&Hq2&Hq2').
    set (bit := address_prt_wa_control_bit i1) in *.
    replace (2 ^ (bit + 1)) with (2 * 2 ^ bit) in * by (rewrite Z.pow_add_r by lia; lia).
    assert (0 < 2 ^ bit) by (apply Z.pow_pos_nonneg; lia).
    assert (q1 < q2 \/ q2 <= q1) as [?|?] by lia; nia.
Qed.

(** * Keeping the other buffers *)

Definition keeps own bos k k' : Prop :=
  forall b w i bo, own !! b = Some (w, i) -> bos !! b = Some bo -> is_virtual bo = false ->
    mapped k (ws_dev i) bo -> mapped k' (ws_dev i) bo.

Lemma keeps_trans own bos k1 k2 k3 : keeps own bos k1 k2 -> keeps own bos k2 k3 -> keeps own bos k1 k3.
Proof. intros H1 H2 b w i bo ? ? ? ?. eapply H2; eauto. Qed.

Lemma keeps_same own bos k k' : same_maps (k_maps k) (k_maps k') -> keeps own bos k k'.
Proof. intros H b w i bo _ _ _. by apply mapped_same. Qed.

Lemma keeps_added own bos k k' m : map_added m k k' -> keeps own bos k k'.
Proof.
  intros [_ H] b w i bo _ _ _ [(fl&?&?) Hp]. split.
  - exists fl. split; [apply H; by right|done].
  - intros Hf. destruct (Hp Hf) as (?&fl'&?&?). split; [done|]. exists fl'. split; [apply H; by right|done].
Qed.

(** Every mapping outside [n] bytes from [a] is kept, and these are bytes of buffer [b]. *)
Lemma keeps_outside own bos k0 k k' b w i bo a n :
  held own bos k0 -> bo_fits bos -> own !! b = Some (w, i) -> bos !! b = Some bo -> 0 < n ->
  (range_va i bo <= a /\ a + n <= range_va i bo + span bo
   \/ emulate_sparse_residency bo = true /\ bo_va bo <= a /\ a + n <= bo_va bo + span bo) ->
  (forall m, m ∈ k_maps k -> 0 < m_size m -> ~ overlaps m (ws_dev i) a n -> m ∈ k_maps k') ->
  keeps (delete b own) (delete b bos) k k'.
Proof.
  intros Hh Hf Ho Hb Hn Ha Hk b2 w2 i2 bo2 [Hne Ho2]%lookup_delete_Some [_ Hb2]%lookup_delete_Some Hv2 Hm.
  eapply mapped_keep; [by eapply Hf|done|]. intros m Hm2 Hdev _ Hw. apply Hk; [done|by destruct Hw as (_&_&?)|].
  intros (Hd&Hlo&Hhi). pose proof Hw as (_&_&Hpos). 
  apply (ranges_separate own bos k0 b b2 w w2 i i2 bo bo2 (Z.max a (m_addr m)) m); try done; [congruence| |lia].
  destruct Ha as [Ha|[He Ha]]; [left; lia|right; split; [done|lia]].
Qed.

(** Another buffer with the same handle is a second reference to the same object. *)
Lemma handle_shared own bos k b1 b2 w1 w2 i1 i2 bo1 bo2 r :
  held own bos k -> b1 <> b2 ->
  own !! b1 = Some (w1, i1) -> bos !! b1 = Some bo1 -> own !! b2 = Some (w2, i2) -> bos !! b2 = Some bo2 ->
  is_virtual bo1 = false -> is_virtual bo2 = false -> ws_dev i1 = ws_dev i2 -> bo_handle bo1 = bo_handle bo2 ->
  k_bos k !! bo_buf bo1 = Some (ws_dev i1, bo_handle bo1, r) -> r <> 1.
Proof.
  intros Hh Hne Ho1 Hb1 Ho2 Hb2 Hv1 Hv2 Hd Heq Hr ->.
  destruct (ba_buffer _ _ _ (he_backed _ _ _ Hh _ _ _ _ Ho2 Hb2) Hv2) as [(r2&Hr2) _].
  assert (bo_buf bo1 = bo_buf bo2) as E.
  { rewrite <- Hd, <- Heq in Hr2. by eapply (ko_handles _ (he_kernel _ _ _ Hh)). }
  pose proof (bo_sum_ge2 (uses_buf (bo_buf bo1)) bos b1 b2 bo1 bo2
                (fun b x _ => uses_buf_nonneg _ b x) Hne Hb1 Hb2) as H.
  rewrite <- (he_bufs _ _ _ Hh) in H. unfold uses_buf, buf_refs in H.
  rewrite Hr, Hv1, Hv2, <- E, !Z.eqb_refl in H. simpl in H. lia.
Qed.

(** Giving back the reference of [b] leaves the others mapped. *)
Lemma keeps_released own bos k0 k k' b w i bo r :
  held own bos k0 -> bo_fits bos -> own !! b = Some (w, i) -> bos !! b = Some bo -> is_virtual bo = false ->
  k_bos k0 !! bo_buf bo = Some (ws_dev i, bo_handle bo, r) ->
  buffer_released (ws_dev i) (bo_buf bo) (bo_handle bo) r k k' ->
  keeps (delete b own) (delete b bos) k k'.
Proof.
  intros Hh Hf Ho Hb Hv Hr (_&Hrn&Hr1) b2 w2 i2 bo2 [Hne Ho2]%lookup_delete_Some [_ Hb2]%lookup_delete_Some Hv2 Hm.
  destruct (decide (r = 1)) as [E1|E1]; [|eapply mapped_same; [|done]; by apply Hrn].
  eapply mapped_keep; [by eapply Hf|done|]. intros m Hin Hdm Hhm _. apply (proj2 (Hr1 E1)). split; [done|].
  intros [Hd' Hh']. eapply (handle_shared own bos k0 b b2 w w2 i i2 bo bo2 r); try done; congruence.
Qed.

Lemma held_kept own bos k k' :
  held own bos k -> k_ranges k' = k_ranges k -> k_bos k' = k_bos k -> keeps own bos k k' -> held own bos k'.
Proof.
  intros Hh Er Eb Hk. destruct Hh as [[? ? ? ?] Hb Hr Hc]. split.
  - split; rewrite ?Er, ?Eb; done.
  - intros b w i bo Ho Hl. destruct (Hb _ _ _ _ Ho Hl) as [? ? ? Hbuf]. split; rewrite ?Er, ?Eb; try done.
    intros Hv. destruct (Hbuf Hv) as [? ?]. split; [done|]. by eapply Hk.
  - intros h. unfold range_held. rewrite Er. apply Hr.
  - intros buf. unfold buf_refs. rewrite Eb. apply Hc.
Qed.

(** The kernel has more than before. *)
Record grows k k' : Prop := Grows {
  gr_ranges : forall h v, k_ranges k !! h = Some v -> k_ranges k' !! h = Some v;
  gr_bos : forall buf d h r, k_bos k !! buf = Some (d, h, r) -> exists r', k_bos k' !! buf = Some (d, h, r');
  gr_maps : forall m, m ∈ k_maps k -> m ∈ k_maps k'
}.

Lemma grows_trans k1 k2 k3 : grows k1 k2 -> grows k2 k3 -> grows k1 k3.
Proof.
  intros [H1 H2 H3] [H4 H5 H6]. split; [auto| |auto].
  intros buf d h r (r1&?)%H2. by eapply H5.
Qed.

Lemma grows_same k k' : same_view k k' -> grows k k'.
Proof. intros (E1&E2&H). split; rewrite ?E1, ?E2; [done|eauto|]. intros m Hm. by apply H. Qed.

Lemma grows_range dev h va n k k' : range_added dev h va n k k' -> grows k k'.
Proof.
  intros (Hn&_&E&Eb&Hm). split; rewrite ?E, ?Eb; [|eauto|intros m ?; by apply Hm].
  intros h' v Hv. rewrite lookup_insert_ne; [done|congruence].
Qed.

Lemma grows_buffer dev buf h k k' : buffer_added dev buf h k k' -> grows k k'.
Proof.
  intros (Hn&_&_&E&Er&Hm). split; rewrite ?E, ?Er; [done| |intros m ?; by apply Hm].
  intros buf' d h' r Hv. exists r. rewrite lookup_insert_ne; [done|congruence].
Qed.

Lemma grows_shared dev buf h k k' : buffer_shared dev buf h k k' -> grows k k'.
Proof.
  intros (r&Hn&E&Er&Hm). split; rewrite ?E, ?Er; [done| |intros m ?; by apply Hm].
  intros buf' d h' r' Hv. destruct (decide (buf' = buf)) as [->|].
  - rewrite Hn in Hv. injection Hv as <- <- <-. exists (r + 1). apply lookup_insert_eq.
  - exists r'. by rewrite lookup_insert_ne.
Qed.

Lemma grows_done a r k k' : va_done a r k k' -> vo_ops a = AMDGPU_VA_OP_MAP -> grows k k'.
Proof.
  intros (E1&E2&H) Ho. rewrite Ho in H. split; rewrite ?E1, ?E2; [done|eauto|].
  intros m Hm. destruct H as [[_ H]|[_ H]]; apply H; [by right|done].
Qed.

Lemma backed_grows k k' i bo : grows k k' -> backed k i bo -> backed k' i bo.
Proof.
  intros [H1 H2 H3] [(n&Hr&?) ? ? Hb]. split; [exists n; auto|done|done|].
  intros Hv. destruct (Hb Hv) as [(r&Hbuf) [(fl&?&?) Hp]]. split; [by eapply H2|]. split.
  - exists fl. auto.
  - intros Hf. destruct (Hp Hf) as (?&fl'&?&?). split; [done|]. exists fl'. auto.
Qed.

(** * Arrival and departure of a buffer *)

Lemma held_arrive own bos k k' b w i bo :
  held own bos k -> own !! b = None -> bos !! b = None -> kernel_ok k' -> grows k k' -> backed k' i bo ->
  (forall h, range_held k' h = range_held k h + uses_range h b bo) ->
  (forall buf, buf_refs k' buf = buf_refs k buf + uses_buf buf b bo) ->
  held (<[b := (w, i)]> own) (<[b := bo]> bos) k'.
Proof.
  intros Hh Ho Hb Hk Hg Hba Hr Hc. split; [done| | |].
  - intros b' w' i' bo'. destruct (decide (b' = b)) as [->|].
    + rewrite !lookup_insert_eq. by intros [= <- <-] [= <-].
    + rewrite !lookup_insert_ne by done. intros Ho' Hb'. eapply backed_grows; [done|]. by eapply (he_backed _ _ _ Hh).
  - intros h. rewrite Hr, bo_sum_insert, (he_ranges _ _ _ Hh) by done. lia.
  - intros buf. rewrite Hc, bo_sum_insert, (he_bufs _ _ _ Hh) by done. lia.
Qed.

Lemma held_depart own bos k k' b w i bo :
  held own bos k -> own !! b = Some (w, i) -> bos !! b = Some bo -> kernel_ok k' ->
  k_ranges k' = delete (va_handle bo) (k_ranges k) ->
  (forall buf d h r, k_bos k !! buf = Some (d, h, r) ->
     (is_virtual bo = true \/ buf <> bo_buf bo \/ r <> 1) -> exists r', k_bos k' !! buf = Some (d, h, r')) ->
  (forall buf, buf_refs k' buf = buf_refs k buf - uses_buf buf b bo) ->
  keeps (delete b own) (delete b bos) k k' ->
  held (delete b own) (delete b bos) k'.
Proof.
  intros Hh Ho Hb Hk Er Hbf Hc Hkeep. split; [done| | |].
  - intros b' w' i' bo' Ho' Hb'. pose proof Ho' as [Hne Ho1]%lookup_delete_Some.
    pose proof Hb' as [_ Hb1]%lookup_delete_Some.
    destruct (he_backed _ _ _ Hh _ _ _ _ Ho1 Hb1) as [(n&Hr&Hn) ? ? Hbuf]. split; [|done|done|].
    + exists n. rewrite Er. split; [|done]. rewrite lookup_delete_ne; [done|].
      by eapply (va_handles_differ own bos k b b').
    + intros Hv. destruct (Hbuf Hv) as [(r&Hbf') Hm]. split; [|by eapply Hkeep].
      apply (Hbf _ _ _ r); [done|]. destruct (decide (is_virtual bo = true)) as [|Hvb]; [by left|right].
      destruct (decide (bo_buf bo' = bo_buf bo)) as [E|]; [right|by left]. intros ->.
      pose proof (bo_sum_ge2 (uses_buf (bo_buf bo)) bos b b' bo bo'
                    (fun b x _ => uses_buf_nonneg _ b x) Hne Hb Hb1) as H.
      rewrite <- (he_bufs _ _ _ Hh) in H. unfold uses_buf, buf_refs in H. rewrite <- E, Hbf' in H.
      apply not_true_is_false in Hvb. rewrite Hv, Hvb, !Z.eqb_refl in H. simpl in H. lia.
  - intros h. rewrite (bo_sum_delete _ _ _ _ Hb), <- (he_ranges _ _ _ Hh). unfold range_held, uses_range.
    rewrite Er. destruct (Z.eqb_spec (va_handle bo) h) as [<-|].
    + rewrite lookup_delete_eq.
      destruct (ba_range _ _ _ (he_backed _ _ _ Hh _ _ _ _ Ho Hb)) as (n&->&_). lia.
    + rewrite lookup_delete_ne by done. destruct (_ !! _); lia.
  - intros buf. rewrite (bo_sum_delete _ _ _ _ Hb), <- (he_bufs _ _ _ Hh). apply Hc.
Qed.

(** The kernel after the last two calls of a destruction. *)
Lemma kernel_released k k1 k2 dev buf h r vah :
  kernel_ok k -> k_bos k !! buf = Some (dev, h, r) ->
  k_ranges k1 = k_ranges k -> k_bos k1 = k_bos k -> buffer_released dev buf h r k1 k2 ->
  kernel_ok (drm_va_range_free vah k2).
Proof.
  intros [Hp Ha Hr Hh] Hb Er1 Eb1 (Er2&Hn&H1). destruct (range_free_spec vah k2) as (Er&Eb&_).
  destruct (Hr _ _ _ _ Hb) as [Hr0 Hh0].
  assert (forall buf' d' h' r', k_bos k2 !! buf' = Some (d', h', r') ->
            0 < r' /\ exists r0, k_bos k !! buf' = Some (d', h', r0)) as Hsub.
  { intros buf' d' h' r'. destruct (decide (r = 1)) as [E|E].
    - rewrite (proj1 (H1 E)), Eb1. intros [_ H']%lookup_delete_Some. split; [by apply (Hr _ _ _ _ H')|eauto].
    - rewrite (proj1 (Hn E)), Eb1. intros [[<- [= <- <- <-]]|[_ H']]%lookup_insert_Some.
      + split; [lia|eauto].
      + split; [by apply (Hr _ _ _ _ H')|eauto]. }
  split; rewrite ?Er, ?Eb, ?Er2, ?Er1.
  - intros h' d' va n [_ H']%lookup_delete_Some. by eapply Hp.
  - intros h1 h2 d' va1 n1 va2 n2 Hne [_ H']%lookup_delete_Some [_ H'']%lookup_delete_Some. by eapply (Ha h1 h2).
  - intros buf' d' h' r' H'. destruct (Hsub _ _ _ _ H') as (?&r0&H0'). split; [done|]. by apply (Hr _ _ _ _ H0').
  - intros buf1 buf2 d' h' r1 r2 H'1 H'2. destruct (Hsub _ _ _ _ H'1) as (_&?&?).
    destruct (Hsub _ _ _ _ H'2) as (_&?&?). by eapply Hh.
Qed.

(** The kernel after the destruction of a buffer object. *)
Lemma held_released own bos k k1 k2 b w i bo r :
  held own bos k -> bo_fits bos -> own !! b = Some (w, i) -> bos !! b = Some bo -> is_virtual bo = false ->
  k_bos k !! bo_buf bo = Some (ws_dev i, bo_handle bo, r) ->
  k_ranges k1 = k_ranges k -> k_bos k1 = k_bos k -> keeps (delete b own) (delete b bos) k k1 ->
  buffer_released (ws_dev i) (bo_buf bo) (bo_handle bo) r k1 k2 ->
  held (delete b own) (delete b bos) (drm_va_range_free (va_handle bo) k2).
Proof.
  intros Hh Hf Ho Hb Hv Hr Er1 Eb1 Hk1 Hrel. destruct (range_free_spec (va_handle bo) k2) as (Er&Eb&Hm).
  pose proof Hrel as (Er2&Hn&H1). destruct (ko_refs _ (he_kernel _ _ _ Hh) _ _ _ _ Hr) as [Hr0 _].
  eapply (held_depart own bos k _ b w i bo); try done.
  - by eapply (kernel_released k k1 k2); [apply Hh|..].
  - by rewrite Er, Er2, Er1.
  - intros buf d h r' Hb' Hc. rewrite Eb. destruct (decide (r = 1)) as [E|E].
    + rewrite (proj1 (H1 E)), Eb1. exists r'. rewrite lookup_delete_ne; [done|]. intros <-.
      rewrite Hr in Hb'. injection Hb' as <- <- <-. destruct Hc as [?|[?|?]]; congruence.
    + rewrite (proj1 (Hn E)), Eb1. destruct (decide (buf = bo_buf bo)) as [->|].
      * rewrite Hr in Hb'. injection Hb' as <- <- <-. rewrite lookup_insert_eq. eauto.
      * rewrite lookup_insert_ne by done. eauto.
  - intros buf. unfold buf_refs, uses_buf. rewrite Eb, Hv. simpl. destruct (decide (r = 1)) as [->|E].
    + rewrite (proj1 (H1 eq_refl)), Eb1. destruct (Z.eqb_spec (bo_buf bo) buf) as [<-|].
      * rewrite lookup_delete_eq, Hr. lia.
      * rewrite lookup_delete_ne by done. destruct (k_bos k !! buf) as [[[? ?] ?]|]; lia.
    + rewrite (proj1 (Hn E)), Eb1. destruct (Z.eqb_spec (bo_buf bo) buf) as [<-|].
      * rewrite lookup_insert_eq, Hr. lia.
      * rewrite lookup_insert_ne by done. destruct (k_bos k !! buf) as [[[? ?] ?]|]; lia.
  - eapply keeps_trans; [exact Hk1|]. eapply keeps_trans; [by eapply (keeps_released own bos k)|by apply keeps_same].
Qed.

(** The kernel after the destruction of a sparse buffer. *)
Lemma held_virtual_released own bos k k1 b w i bo :
  held own bos k -> own !! b = Some (w, i) -> bos !! b = Some bo -> is_virtual bo = true ->
  k_ranges k1 = k_ranges k -> k_bos k1 = k_bos k -> keeps (delete b own) (delete b bos) k k1 ->
  held (delete b own) (delete b bos) (drm_va_range_free (va_handle bo) k1).
Proof.
  intros Hh Ho Hb Hv Er1 Eb1 Hk1. destruct (range_free_spec (va_handle bo) k1) as (Er&Eb&Hm).
  eapply (held_depart own bos k _ b w i bo); try done.
  - destruct (he_kernel _ _ _ Hh) as [Hp Ha Hr Hc]. split; rewrite ?Er, ?Eb, ?Er1, ?Eb1; try done.
    + intros h' d' va n [_ H']%lookup_delete_Some. by eapply Hp.
    + intros h1 h2 d' va1 n1 va2 n2 Hne [_ H']%lookup_delete_Some [_ H'']%lookup_delete_Some. by eapply (Ha h1 h2).
  - by rewrite Er, Er1.
  - intros buf d h r ? _. rewrite Eb, Eb1. eauto.
  - intros buf. unfold buf_refs, uses_buf. rewrite Eb, Eb1, Hv. simpl. destruct (k_bos k !! buf) as [[[? ?] ?]|]; lia.
  - eapply keeps_trans; [exact Hk1|by apply keeps_same].
Qed.

End held.
