(* ===== verification/BoDestroy.v ===== *)
(** The global buffer list, the cache and the destruction of a buffer keep the invariant. *)

From stdpp Require Import gmap.
From S2P Require Import Prelude Pm4 BoModel BoLogic BoKernel BoInv BoVa BoBooks BoHeld.

Section inv.
Context {K : Type} `{!Drm K} `{!DrmView K}.

(** The control bit the winsys was told is the one libdrm keeps out of its ranges. *)
Definition info_ok (i : winsys_info) : Prop :=
  has_smem_with_null_prt_bug i = true -> k_control_bit (K := K) (ws_dev i) = Some (address_prt_wa_control_bit i).

Record inv (own : gmap Z (Z * winsys_info)) (p : proc K) : Prop := Inv {
  in_books : books own p;
  in_held : held own (p_bos p) (p_k p);
  in_infos : forall w ws, p_winsys p !! w = Some ws -> info_ok (ws_info ws)
}.

(** Besides the kernel only buffer [b] and the lists of the winsys have changed. *)
Record only_bo (b : Z) (p p' : proc K) : Prop := OnlyBo {
  ob_cache : p_cache p' = p_cache p;
  ob_dying : p_dying p' = p_dying p;
  ob_next : p_next p <= p_next p';
  ob_bos : forall b', b' <> b -> p_bos p' !! b' = p_bos p !! b';
  ob_winsys : forall w ws, p_winsys p !! w = Some ws ->
    exists ws', p_winsys p' !! w = Some ws' /\ ws_info ws' = ws_info ws /\ null_prt_bo ws' = null_prt_bo ws
      /\ ib_cache_bos ws' = ib_cache_bos ws /\ forall b', b' <> b -> b' ∈ global_bos ws' <-> b' ∈ global_bos ws
}.

Lemma only_bo_refl b p : only_bo b p p.
Proof. split; try done. intros w ws ?. by exists ws. Qed.

Lemma only_bo_trans b p1 p2 p3 : only_bo b p1 p2 -> only_bo b p2 p3 -> only_bo b p1 p3.
Proof.
  intros [? ? ? H1 H2] [? ? ? H3 H4]. split; [congruence|congruence|lia| |].
  - intros b' Hb. by rewrite H3, H1.
  - intros w ws Hw. destruct (H2 w ws Hw) as (ws2&Hw2&?&?&?&Hg2). destruct (H4 w ws2 Hw2) as (ws3&Hw3&?&?&?&Hg3).
    exists ws3. split_and!; [done|congruence..|]. intros b' Hb. by rewrite Hg3, Hg2.
Qed.

Lemma framed_only b p p' : framed p p' -> only_bo b p p'.
Proof.
  intros Hf. pose proof Hf as [_ Eb _ Ec _ Ed _ En]. split; [done|done|done| |].
  - intros b' _. by rewrite Eb.
  - intros w ws Hw. destruct (framed_ws _ _ _ _ Hf Hw) as (ws'&?&(?&E&?&?)). exists ws'.
    split_and!; try done. intros b' _. by rewrite E.
Qed.

(** [w] may destroy [b]: it is not parked, not the zero buffer in use, and not in the list of
    buffers of every submission (unless that list holds all buffers). *)
Definition destroyable (own : gmap Z (Z * winsys_info)) (p : proc K) (w b : Z) : Prop :=
  exists ws bo, p_winsys p !! w = Some ws /\ own !! b = Some (w, ws_info ws) /\ p_bos p !! b = Some bo
    /\ (b ∉ e_bo <$> p_cache p) /\ (null_prt_bo ws <> Some b \/ p_dying p = Some w)
    /\ (debug_all_bos (ws_info ws) = true /\ is_virtual bo = false \/ use_global_list bo = false).

End inv.

Section destroy.
Context {K : Type} `{!Drm K} `{!DrmView K} `{!DrmLaws K}.
Implicit Types (p : proc K) (own : gmap Z (Z * winsys_info)).
#[local] Set Default Proof Using "All".

Lemma inv_framed own p p' :
  framed p p' -> held own (p_bos p) (p_k p') -> inv own p -> inv own p'.
Proof.
  intros Hf Hh [Hb _ Hi]. split; [by eapply books_framed|by rewrite (fr_bos _ _ Hf)|].
  intros w ws' Hw. destruct (framed_ws_back _ _ _ _ Hf Hw) as (ws&Hw'&(E&_)). rewrite E. by eapply Hi.
Qed.

Lemma inv_silent own p k : same_view (p_k p) k -> inv own p -> inv own (set_k k p).
Proof.
  intros Hs Hi. eapply inv_framed; [apply framed_k| |done]. simpl. eapply held_same; [done|apply Hi].
Qed.

Lemma inv_put own p b bo bo' :
  p_bos p !! b = Some bo -> same_account bo bo' -> same_backing bo bo' ->
  use_global_list bo' = use_global_list bo -> (b ∉ e_bo <$> p_cache p) \/ cpu_map bo' = 0 ->
  inv own p -> inv own (set_bos (<[b := bo']> (p_bos p)) p).
Proof.
  intros Hb Ha Hs Hu Hc [Hbk Hh Hi]. split; [by eapply books_put|by eapply held_update|done].
Qed.

Lemma inv_owned own p b w i :
  inv own p -> own !! b = Some (w, i) ->
  exists ws bo, p_winsys p !! w = Some ws /\ ws_info ws = i /\ p_bos p !! b = Some bo.
Proof.
  intros Hi Ho. destruct (bk_winsys _ _ (in_books _ _ Hi) b w i Ho) as (ws&?&?).
  assert (is_Some (p_bos p !! b)) as [bo ?] by (apply (bk_dom _ _ (in_books _ _ Hi)); by eexists). eauto.
Qed.

Lemma not_cached own p b : inv own p -> own !! b = None -> b ∉ e_bo <$> p_cache p.
Proof.
  intros Hi Ho Hin. apply list_elem_of_fmap in Hin as (e&->&Hin).
  pose proof (ca_entries _ _ (bk_cache _ _ (in_books _ _ Hi))) as Hall. rewrite Forall_forall in Hall.
  destruct (Hall e Hin) as (i&bo&?&_). congruence.
Qed.

(** * The global list *)

Lemma wp_global_add own p w ws b bo (Q : VkResult -> proc K -> Prop) :
  inv own p -> p_winsys p !! w = Some ws -> own !! b = Some (w, ws_info ws) -> p_bos p !! b = Some bo ->
  use_global_list bo = false -> (b ∉ e_bo <$> p_cache p) ->
  null_prt_bo ws <> Some b \/ p_dying p = Some w \/ debug_all_bos (ws_info ws) = true ->
  (forall r p' g, inv own p' -> only_bo b p p' -> p_bos p' !! b = Some (with_use_global_list g bo) ->
     (r = VK_SUCCESS /\ g = true \/ r = VK_ERROR_OUT_OF_HOST_MEMORY /\ g = false) -> Q r p') ->
  wp (radv_amdgpu_global_bo_list_add w b) Q p.
Proof.
  intros Hi Hw Ho Hb Hu Hnc Hnl HQ. unfold radv_amdgpu_global_bo_list_add. apply wp_bind. eapply wp_get_ws; [done|].
  eapply (wp_seq _ _ (fun _ p1 => framed p p1 /\ p_winsys p1 = p_winsys p /\ inv own p1)).
  { apply wp_if; intros _; [|apply wp_ret; split; [apply framed_refl|done]].
    apply wp_kcall. intros k a Hk. apply realloc_silent in Hk. split; [apply framed_k|]. split; [done|].
    by apply inv_silent. }
  intros ok p1 (Hf&Ew&Hi1). rewrite <- Ew in Hw. rewrite <- (fr_bos _ _ Hf) in Hb. apply wp_if; intros _.
  - apply wp_ret. apply (HQ _ _ false); [done|by apply framed_only| |by right].
    by rewrite with_global_same.
  - apply wp_bind. eapply wp_get_bo; [done|]. do 2 wp_step. apply wp_ret.
    assert (b ∉ global_bos ws) as Hnin.
    { intros Hin. destruct (wo_global _ _ _ _ _ (bk_lists _ _ (in_books _ _ Hi1) w ws Hw) b Hin) as (bo0&_&Hb0&?).
      rewrite Hb in Hb0. injection Hb0 as <-. congruence. }
    apply (HQ _ _ true); [| |simpl; apply lookup_insert_eq|by left].
    + destruct Hi1 as [Hbk Hh Hin]. split.
      * simpl. apply (books_list own p1 b bo w ws true); [done..| | | |by rewrite (fr_cache _ _ Hf), (fr_dying _ _ Hf)].
        -- apply NoDup_app. split; [apply (wo_nodup _ _ _ _ _ (bk_lists _ _ Hbk w ws Hw))|].
           split; [by intros b' Hb' ->%list_elem_of_singleton|apply NoDup_singleton].
        -- intros b' Hne. rewrite elem_of_app, list_elem_of_singleton. naive_solver.
        -- rewrite elem_of_app, list_elem_of_singleton. naive_solver.
      * simpl. eapply held_update; [done| |done]. auto with radv.
      * simpl. intros w' ws' [[<- <-]|[_ H']]%lookup_insert_Some; [by apply (Hin w ws)|by eapply Hin].
    + eapply only_bo_trans; [by apply framed_only|]. split; simpl; [done..| |].
      * intros b' Hne. by rewrite lookup_insert_ne.
      * intros w' ws' H'. destruct (decide (w' = w)) as [->|]; [|exists ws'; by rewrite lookup_insert_ne].
        rewrite Hw in H'. injection H' as <-. eexists. rewrite lookup_insert_eq. split; [done|]. simpl.
        split_and!; try done. intros b' Hne. rewrite elem_of_app, list_elem_of_singleton. naive_solver.
Qed.

Lemma wp_global_del own p w ws b bo (Q : unit -> proc K -> Prop) :
  inv own p -> p_winsys p !! w = Some ws -> own !! b = Some (w, ws_info ws) -> p_bos p !! b = Some bo ->
  (forall p', inv own p' -> only_bo b p p' -> p_k p' = p_k p -> p_trackers p' = p_trackers p ->
     p_churn p' = p_churn p -> p_bos p' !! b = Some (with_use_global_list false bo) -> Q tt p') ->
  wp (radv_amdgpu_global_bo_list_del w b) Q p.
Proof.
  intros Hi Hw Ho Hb HQ. unfold radv_amdgpu_global_bo_list_del. apply wp_bind. eapply wp_get_ws; [done|].
  destruct (last_index_from _ _ _) as [j|] eqn:Ej.
  - apply last_index_from_some in Ej. pose proof (swap_remove_Permutation _ _ _ Ej) as Hp.
    apply wp_bind. eapply wp_get_bo; [done|]. do 2 wp_step. destruct Hi as [Hbk Hh Hin].
    pose proof (wo_nodup _ _ _ _ _ (bk_lists _ _ Hbk w ws Hw)) as Hnd. pose proof Hnd as Hnd'.
    rewrite Hp in Hnd'. apply NoDup_cons in Hnd' as [Hni Hnd'].
    assert (forall b', b' <> b -> b' ∈ swap_remove j (global_bos ws) <-> b' ∈ global_bos ws) as Hl.
    { intros b' Hne. rewrite Hp at 2. rewrite elem_of_cons. naive_solver. }
    apply HQ; [| |done|done|done|simpl; apply lookup_insert_eq].
    + split.
      * simpl. apply (books_list own p b bo w ws false); [done..| |done]. split; [done|discriminate].
      * simpl. eapply held_update; [done| |done]. auto with radv.
      * simpl. intros w' ws' [[<- <-]|[_ H']]%lookup_insert_Some; [by apply (Hin w ws)|by eapply Hin].
    + split; simpl; [done..| |].
      * intros b' Hne. by rewrite lookup_insert_ne.
      * intros w' ws' H'. destruct (decide (w' = w)) as [->|]; [|exists ws'; by rewrite lookup_insert_ne].
        rewrite Hw in H'. injection H' as <-. eexists. by rewrite lookup_insert_eq.
  - apply last_index_from_none in Ej; [|done]. apply wp_ret. apply HQ; [done|apply only_bo_refl|done..|].
    rewrite with_global_same; [done|]. apply not_true_is_false. intros Hu. apply Ej.
    by eapply (bk_listed _ _ (in_books _ _ Hi)).
Qed.

(** * The cache *)

Lemma wp_park own p w b i bo (Q : bool -> proc K -> Prop) :
  inv own p -> own !! b = Some (w, i) -> p_bos p !! b = Some bo -> (b ∉ e_bo <$> p_cache p) ->
  debug_all_bos i = true \/ use_global_list bo = false ->
  (radv_xclipse_ibcache_cacheable bo = false \/ p_dying p = Some w
   \/ RADV_XCLIPSE_IBCACHE_BUCKETS <= Z.of_nat (length (p_cache p))
   \/ RADV_XCLIPSE_IBCACHE_CAP < u64 (p_cache_bytes p + bo_size bo) -> Q false p) ->
  (forall p', radv_xclipse_ibcache_cacheable bo = true -> p_dying p <> Some w -> inv own p' ->
     (b ∈ e_bo <$> p_cache p') -> p_dying p' = p_dying p -> p_next p' = p_next p -> p_winsys p' = p_winsys p ->
     p_trackers p' = p_trackers p -> same_view (p_k p) (p_k p') ->
     p_cache p' = p_cache p ++ [Entry b w (bo_size bo) (xclipse_alignment bo) (bo_flags bo) (initial_domain bo)] ->
     (forall b', b' <> b -> p_bos p' !! b' = p_bos p !! b') -> p_bos p' !! b = Some (with_cpu_map 0 bo) -> Q true p') ->
  wp (radv_xclipse_ibcache_park w b (xclipse_alignment bo)) Q p.
Proof.
  intros Hi Ho Hb Hnc Hul Hq HQ. unfold radv_xclipse_ibcache_park. apply wp_bind. eapply wp_get_bo; [done|].
  apply wp_if; intros Hc; [apply wp_ret, Hq; left; by apply negb_true_iff|].
  wp_step. apply wp_if; intros Hd; [apply wp_ret, Hq; right; left; by apply bool_decide_eq_true in Hd|].
  do 2 wp_step. apply wp_if; intros Hlim.
  { apply wp_ret, Hq. right. right. by apply orb_true_iff in Hlim as [?%Z.leb_le|?%Z.ltb_lt]; [left|right]. }
  apply negb_false_iff in Hc. apply bool_decide_eq_false in Hd.
  apply orb_false_iff in Hlim as [Hl1 Hl2]. apply Z.leb_gt in Hl1. apply Z.ltb_ge in Hl2.
  set (e := Entry _ _ _ _ _ _).
  eapply (wp_seq _ _ (fun _ p1 => inv own p1 /\ p_bos p1 !! b = Some (with_cpu_map 0 bo) /\ p_trackers p1 = p_trackers p
      /\ p_cache p1 = p_cache p /\ p_cache_bytes p1 = p_cache_bytes p /\ p_dying p1 = p_dying p /\ p_winsys p1 = p_winsys p /\ p_next p1 = p_next p
      /\ same_view (p_k p) (p_k p1) /\ forall b', b' <> b -> p_bos p1 !! b' = p_bos p !! b')).
  { apply wp_when; intros Hm.
    - do 2 wp_step. conj_split; simpl; try done.
      + apply (inv_put own (set_k _ p) b bo (with_cpu_map 0 bo)); [done|auto with radv..|].
        apply inv_silent; [apply munmap_silent|done].
      + apply lookup_insert_eq.
      + apply munmap_silent.
      + intros b' Hne. by rewrite lookup_insert_ne.
    - apply negb_false_iff, Z.eqb_eq in Hm. conj_split; try done.
      by rewrite with_cpu_map_same. }
  intros _ p1 (Hi1&Hb1&Et&Ec&Ecb&Ed&Ew&En&Hv&Hbs). wp_step. apply wp_ret.
  destruct Hi1 as [Hbk Hh Hinf]. apply HQ; simpl; try done.
  - split; [|done|done]. rewrite <- Ec, <- Ecb. 
    apply (books_park own p1 b w i (with_cpu_map 0 bo)); simpl; rewrite ?Ec, ?Ecb; done.
  - rewrite fmap_app. apply elem_of_app. right. by apply list_elem_of_singleton.
Qed.

Lemma wp_cache_take own p f (Q : option Z -> proc K -> Prop) :
  inv own p ->
  ((forall e, e ∈ p_cache p -> f e = false) -> Q None p) ->
  (forall j e, p_cache p !! j = Some e -> f e = true -> entry_ok own (p_bos p) e ->
     inv own (set_cache (swap_remove j (p_cache p)) (u64 (p_cache_bytes p - e_size e)) p) ->
     (e_bo e ∉ e_bo <$> swap_remove j (p_cache p)) ->
     Q (Some (e_bo e)) (set_cache (swap_remove j (p_cache p)) (u64 (p_cache_bytes p - e_size e)) p)) ->
  wp (cache_take f) Q p.
Proof.
  intros Hi Hn Hs. unfold cache_take. do 2 wp_step. destruct (find_entry f 0 (p_cache p)) as [[j e]|] eqn:E.
  - apply find_entry_some in E as [Hj Hf]. destruct Hi as [Hbk Hh Hin].
    destruct (books_take own p j e Hbk Hj) as (Hbk'&He&Hni). wp_step. apply wp_ret. by apply Hs.
  - apply wp_ret. apply Hn. by eapply find_entry_none.
Qed.

End destroy.
