(* ===== verification/BoFree.v ===== *)
(** The destruction of a buffer: everything it holds is given back, and the other buffers stay. *)

From stdpp Require Import gmap.
From S2P Require Import Prelude Pm4 BoModel BoLogic BoKernel BoInv BoVa BoBooks BoHeld BoDestroy.

Section free.
Context {K : Type} `{!Drm K} `{!DrmView K} `{!DrmLaws K}.
Implicit Types (p : proc K) (own : gmap Z (Z * winsys_info)).
#[local] Set Default Proof Using "All".

(** * Sparse buffers: the two halves of the address space *)

Lemma placed_high dev va n bit :
  range_placed (K := K) dev va n -> k_control_bit (K := K) dev = Some bit -> 0 < n ->
  0 <= bit /\ exists q, q * 2 ^ (bit + 1) <= va < q * 2 ^ (bit + 1) + 2 ^ bit
    /\ va + n <= q * 2 ^ (bit + 1) + 2 ^ bit /\ va + n + 2 ^ bit <= W64.
Proof.
  intros (H0&Hw&Hc) E Hn. rewrite E in Hc. destruct Hc as (Hb&q&Hq1&Hq2). split; [lia|]. exists q.
  split; [lia|]. split; [done|].
  assert (q < 2 ^ (63 - bit)) as Hq.
  { apply (Zmult_lt_reg_r _ _ (2 ^ (bit + 1))); [apply Z.pow_pos_nonneg; lia|].
    rewrite <- Z.pow_add_r by lia. replace (63 - bit + (bit + 1)) with 64 by lia.
    change (2 ^ 64) with W64. lia. }
  assert (W64 = 2 ^ (63 - bit) * 2 ^ (bit + 1)) as EW.
  { rewrite <- Z.pow_add_r by lia. by replace (63 - bit + (bit + 1)) with 64 by lia. }
  assert ((q + 1) * 2 ^ (bit + 1) <= W64).
  { rewrite EW. apply Z.mul_le_mono_nonneg_r; [apply Z.pow_nonneg; lia|lia]. }
  rewrite (Z.pow_add_r 2 bit 1) in * by lia. lia.
Qed.

(** * What one call on the address space of a buffer leaves *)

Definition touched own bos (k k' : K) : Prop :=
  k_ranges k' = k_ranges k /\ k_bos k' = k_bos k /\ keeps own bos k k'.

Lemma touched_trans own bos k1 k2 k3 : touched own bos k1 k2 -> touched own bos k2 k3 -> touched own bos k1 k3.
Proof. intros (?&?&?) (?&?&?). split; [congruence|]. split; [congruence|]. by eapply keeps_trans. Qed.

Lemma touched_same own bos k k' : same_view k k' -> touched own bos k k'.
Proof. intros (?&?&?). split; [done|]. split; [done|]. by apply keeps_same. Qed.

Lemma unmap_touched own bos k0 k k' b w i bo a r :
  held own bos k0 -> bo_fits bos -> own !! b = Some (w, i) -> bos !! b = Some bo -> va_done a r k k' ->
  is_virtual bo = false -> vo_ops a = AMDGPU_VA_OP_UNMAP -> vo_dev a = ws_dev i ->
  bo_va bo <= vo_addr a < bo_va bo + span bo -> touched (delete b own) (delete b bos) k k'.
Proof.
  intros Hh Hf Ho Hb (Er&Eb&H) Hv Hop Hd Ha. rewrite Hop in H. split; [done|]. split; [done|].
  assert (range_va i bo = bo_va bo) as E.
  { unfold range_va. destruct (emulate_sparse_residency bo) eqn:E; [|done].
    destruct (ba_emulated _ _ _ (he_backed _ _ _ Hh _ _ _ _ Ho Hb) E) as [? _]. congruence. }
  eapply (keeps_outside own bos k0 k k' b w i bo (vo_addr a) 1); try done; [left; lia|].
  intros m Hm Hpos Hno. destruct H as [H|H]; apply H; [|done]. split; [done|]. intros (?&?&_).
  apply Hno. unfold overlaps. split; [congruence|lia].
Qed.

Lemma outside_touched own bos k0 k k' b w i bo a r :
  held own bos k0 -> bo_fits bos -> own !! b = Some (w, i) -> bos !! b = Some bo -> va_done a r k k' ->
  vo_ops a = AMDGPU_VA_OP_REPLACE \/ vo_ops a = AMDGPU_VA_OP_CLEAR -> vo_dev a = ws_dev i -> 0 < vo_size a ->
  (range_va i bo <= vo_addr a /\ vo_addr a + vo_size a <= range_va i bo + span bo
   \/ emulate_sparse_residency bo = true /\ bo_va bo <= vo_addr a /\ vo_addr a + vo_size a <= bo_va bo + span bo) ->
  touched (delete b own) (delete b bos) k k'.
Proof.
  intros Hh Hf Ho Hb (Er&Eb&H) Hop Hd Hn Ha. split; [done|]. split; [done|].
  assert (outside_kept (vo_dev a) (vo_addr a) (vo_size a) k k') as [Hk _].
  { destruct Hop as [E|E]; rewrite E in H; by destruct H. }
  eapply (keeps_outside own bos k0 k k' b w i bo (vo_addr a) (vo_size a)); try done.
  intros m Hm _ Hno. apply Hk; [done|]. by rewrite Hd.
Qed.

(** A virtual buffer spans its size in whole pages. *)
Lemma virtual_span own bos k b w i bo :
  held own bos k -> own !! b = Some (w, i) -> bos !! b = Some bo -> is_virtual bo = true ->
  span bo = align64 (bo_size bo) getpagesize.
Proof.
  intros Hh Ho Hb Hv. unfold span. by rewrite (ba_virtual _ _ _ (he_backed _ _ _ Hh _ _ _ _ Ho Hb) Hv).
Qed.

Lemma high_span own bos k b w i bo :
  held own bos k -> own !! b = Some (w, i) -> bos !! b = Some bo ->
  range_va i bo <= bo_va bo /\ bo_va bo + span bo <= range_va i bo + span bo
  \/ emulate_sparse_residency bo = true /\ bo_va bo <= bo_va bo /\ bo_va bo + span bo <= bo_va bo + span bo.
Proof.
  intros Hh Ho Hb. destruct (emulate_sparse_residency bo) eqn:E; [right; split; [done|lia]|left].
  unfold range_va. rewrite E. lia.
Qed.

Lemma wp_clear_mapping own p0 p w ws b bo (Q : Z -> proc K -> Prop) :
  held own (p_bos p0) (p_k p0) -> bo_fits (p_bos p0) -> p_winsys p !! w = Some ws ->
  own !! b = Some (w, ws_info ws) -> p_bos p0 !! b = Some bo -> is_virtual bo = true ->
  (forall r p', framed p p' -> touched (delete b own) (delete b (p_bos p0)) (p_k p) (p_k p') -> Q r p') ->
  wp (radv_amdgpu_virtual_bo_clear_mapping w bo) Q p.
Proof.
  intros Hh Hf Hw Ho Hb Hv HQ. unfold radv_amdgpu_virtual_bo_clear_mapping.
  pose proof (virtual_span _ _ _ _ _ _ _ Hh Ho Hb Hv) as Es.
  pose proof (span_pos bo (Hf _ _ Hb)) as Hsp. rewrite Es in Hsp.
  apply wp_bind. eapply wp_get_ws; [done|]. apply wp_bind.
  eapply wp_va_op; [done|done|]. intros fl pt r p1 Hf1 _ Hd1.
  assert (touched (delete b own) (delete b (p_bos p0)) (p_k p) (p_k p1)) as Ht1.
  { eapply outside_touched; [exact Hh|exact Hf|exact Ho|exact Hb|exact Hd1|by right|done|done|].
    simpl. rewrite <- Es. by eapply high_span. }
  apply wp_if; intros _; [apply wp_ret; by apply HQ|]. apply wp_if; intros He; [|apply wp_ret; by apply HQ].
  destruct (framed_ws _ _ _ _ Hf1 Hw) as (ws1&Hw1&(Ei&_)).
  eapply wp_va_op; [done|done|]. intros fl' pt' r' p2 Hf2 _ Hd2. apply HQ; [by etrans|].
  eapply touched_trans; [done|].
  eapply outside_touched; [exact Hh|exact Hf|exact Ho|exact Hb|exact Hd2|by right| |done|]; simpl.
  - by rewrite Ei.
  - left. unfold range_va. rewrite He, <- Es. lia.
Qed.

(** * Counting *)

Lemma wp_count sign i bo t (Q : unit -> proc K -> Prop) p :
  p_trackers p !! ws_cookie i = Some t -> is_virtual bo = false ->
  (forall m, recount sign i bo (p_trackers p) m -> Q tt (set_trackers m p)) ->
  wp (count_bo sign i bo) Q p.
Proof.
  intros Ht Hv HQ. unfold count_bo. apply wp_bind. eapply wp_deref; [done|].
  destruct (bo_bytes i bo) as [[x y] z] eqn:E. apply wp_modify. apply HQ. intros c. rewrite E, Hv.
  simpl. rewrite andb_true_r. destruct (Z.eqb_spec (ws_cookie i) c) as [<-|].
  - by rewrite lookup_insert_eq, Ht.
  - by rewrite lookup_insert_ne.
Qed.

(** Removal from the global list does not look at the churn counters. *)
Lemma wp_del_churn c w b (Q : unit -> proc K -> Prop) p :
  wp (radv_amdgpu_global_bo_list_del w b) (fun a p' => Q a (set_churn c p')) p ->
  wp (radv_amdgpu_global_bo_list_del w b) Q (set_churn c p).
Proof.
  unfold radv_amdgpu_global_bo_list_del, wp, mbind, M_bind, get_ws, deref. simpl.
  destruct (p_winsys p !! w) as [ws|]; [|done].
  destruct (last_index_from _ _ _); [|done]. unfold get_bo, deref. simpl.
  by destruct (p_bos p !! b).
Qed.

(** * Destruction *)

(** What a destruction that is not parked leaves. *)
Definition destroyed own p b p' : Prop :=
  inv (delete b own) p' /\ p_cache p' = p_cache p /\ p_dying p' = p_dying p /\ p_next p <= p_next p'
  /\ p_bos p' = delete b (p_bos p)
  /\ forall w ws, p_winsys p !! w = Some ws ->
       exists ws', p_winsys p' !! w = Some ws' /\ ws_info ws' = ws_info ws /\ null_prt_bo ws' = null_prt_bo ws
         /\ ib_cache_bos ws' = ib_cache_bos ws.

Definition churn_after (bo : radv_amdgpu_winsys_bo) (c : churn) : churn :=
  if churn_counted bo then churn_event (bo_size bo) false c else c.

Lemma churn_after_live bo c b :
  u64 (live_bytes c) = live_bytes c -> live_bytes (churn_after bo c) = u64 (live_bytes c - counted_size b bo).
Proof.
  intros Hc. unfold churn_after, counted_size, churn_event. destruct (churn_counted bo); [done|]. by rewrite Z.sub_0_r.
Qed.

Lemma books_churn_wrapped own p : books own p -> u64 (live_bytes (p_churn p)) = live_bytes (p_churn p).
Proof. intros Hb. rewrite (bk_churn _ _ Hb). unfold u64. by rewrite Zmod_mod. Qed.

(** The invariant after the departure, from the state [p] that still had the buffer. *)
Lemma inv_depart own p p' b w ws bo :
  inv own p -> p_winsys p !! w = Some ws -> own !! b = Some (w, ws_info ws) -> p_bos p !! b = Some bo ->
  (b ∉ e_bo <$> p_cache p) -> use_global_list bo = false -> null_prt_bo ws <> Some b \/ p_dying p = Some w ->
  framed (set_bos (delete b (p_bos p)) (set_trackers (p_trackers p') (set_churn (churn_after bo (p_churn p)) p))) p' ->
  recount (-1) (ws_info ws) bo (p_trackers p) (p_trackers p') ->
  held (delete b own) (delete b (p_bos p)) (p_k p') ->
  inv (delete b own) p'.
Proof.
  intros Hi Hw Ho Hb Hnc Hu Hn Hf Hm Hh. destruct Hi as [Hbk _ Hin].
  split; [|by rewrite (fr_bos _ _ Hf)|].
  - eapply books_framed; [exact Hf|]. eapply (books_depart own p _ b w ws bo); try done. simpl.
    apply churn_after_live. by eapply books_churn_wrapped.
  - intros w' ws' Hw'. destruct (framed_ws_back _ _ _ _ Hf Hw') as (ws0&H0&(E&_)). rewrite E. by eapply (Hin w').
Qed.

Lemma wp_churn_after bo (Q : unit -> proc K -> Prop) p :
  Q tt (set_churn (churn_after bo (p_churn p)) p) ->
  wp (when (churn_counted bo) (radv_xclipse_bo_churn (bo_size bo) false)) Q p.
Proof.
  intros H. unfold churn_after in H. apply wp_when; intros E; rewrite E in H; [exact H|]. by destruct p.
Qed.

(** The end of a sparse buffer: its range is given back and its structure goes. *)
Lemma inv_virtual_released own p p3 b w ws bo :
  inv own p -> p_winsys p !! w = Some ws -> own !! b = Some (w, ws_info ws) -> p_bos p !! b = Some bo ->
  (b ∉ e_bo <$> p_cache p) -> use_global_list bo = false -> null_prt_bo ws <> Some b \/ p_dying p = Some w ->
  is_virtual bo = true -> framed (set_churn (churn_after bo (p_churn p)) p) p3 ->
  touched (delete b own) (delete b (p_bos p)) (p_k p) (p_k p3) ->
  destroyed own p b (set_bos (delete b (p_bos p3)) (set_k (drm_va_range_free (va_handle bo) (p_k p3)) p3)).
Proof.
  intros Hi Hw Ho Hb Hnc Hu Hn Hv Hf (Er&Eb&Hk).
  assert (framed (set_bos (delete b (p_bos p)) (set_trackers (p_trackers p) (set_churn (churn_after bo (p_churn p)) p)))
            (set_bos (delete b (p_bos p3)) (set_k (drm_va_range_free (va_handle bo) (p_k p3)) p3))) as Hf2.
  { destruct Hf as [? E1 E2 E3 E4 E5 E6 E7]. simpl in *. split; simpl; try done. by rewrite E1. }
  split.
  - eapply (inv_depart own p _ b w ws bo); try done.
    + simpl. rewrite (fr_trackers _ _ Hf). done.
    + simpl. rewrite (fr_trackers _ _ Hf). intros c. by rewrite Hv, andb_false_r.
    + simpl. eapply (held_virtual_released own _ (p_k p)); try done. apply Hi.
  - simpl. pose proof Hf as [_ E1 _ E3 _ E5 _ E7]. simpl in *. split; [done|]. split; [done|]. split; [done|].
    split; [by rewrite E1|]. intros w' ws' Hw'. destruct (framed_ws _ _ _ _ Hf Hw') as (ws1&?&(?&_&?&?)). by exists ws1.
Qed.

(** A sparse buffer. *)
Lemma wp_virtual_destroy own p w ws b bo (Q : unit -> proc K -> Prop) :
  inv own p -> p_winsys p !! w = Some ws -> own !! b = Some (w, ws_info ws) -> p_bos p !! b = Some bo ->
  (b ∉ e_bo <$> p_cache p) -> use_global_list bo = false -> null_prt_bo ws <> Some b \/ p_dying p = Some w ->
  is_virtual bo = true -> (forall p', destroyed own p b p' -> Q tt p') ->
  wp (radv_amdgpu_winsys_virtual_bo_destroy w b) Q (set_churn (churn_after bo (p_churn p)) p).
Proof.
  intros Hi Hw Ho Hb Hnc Hu Hn Hv HQ. pose proof (bk_sizes _ _ (in_books _ _ Hi)) as Hsz.
  unfold radv_amdgpu_winsys_virtual_bo_destroy. apply wp_bind. eapply wp_get_bo; [done|]. apply wp_bind.
  eapply (wp_clear_mapping own p); [apply Hi|exact Hsz|done|done|done|done|]. intros r p1 Hf Ht.
  do 2 wp_step. apply HQ. by apply (inv_virtual_released own p p1 b w ws bo).
Qed.

Lemma wp_unmap_bo own bos k0 p w ws b bo (Q : Z -> proc K -> Prop) :
  held own bos k0 -> bo_fits bos -> p_winsys p !! w = Some ws ->
  own !! b = Some (w, ws_info ws) -> bos !! b = Some bo -> is_virtual bo = false ->
  (forall r p', framed p p' -> touched (delete b own) (delete b bos) (p_k p) (p_k p') -> Q r p') ->
  wp (unmap_bo w bo) Q p.
Proof.
  intros Hh Hf Hw Ho Hb Hv HQ. pose proof (Hf _ _ Hb) as Hs. pose proof (span_pos bo Hs) as Hsp. unfold unmap_bo.
  destruct (backed_range _ _ _ _ _ _ _ Hh Ho Hb) as (n&_&Hn&(Hp0&Hp1&_)&_).
  assert (range_va (ws_info ws) bo = bo_va bo) as E.
  { unfold range_va. destruct (emulate_sparse_residency bo) eqn:E; [|done].
    destruct (ba_emulated _ _ _ (he_backed _ _ _ Hh _ _ _ _ Ho Hb) E) as [? _]. congruence. }
  rewrite E in Hp0, Hp1.
  eapply (wp_seq _ _ (fun _ p1 => framed p p1 /\ touched (delete b own) (delete b bos) (p_k p) (p_k p1))).
  { apply wp_when; intros Hpad; [|split; [apply framed_refl|by apply touched_same]].
    pose proof (pad_within 0 bo 0 Hs Hpad) as (Hpa&Hpb&Hpc). simpl in Hpa, Hpb, Hpc.
    apply wp_bind. eapply wp_va_op; [done|done|]. intros fl pt r p1 Hf1 _ Hd1. apply wp_ret. split; [done|].
    eapply unmap_touched; [exact Hh|exact Hf|exact Ho|exact Hb|exact Hd1|done|done|done|]. simpl.
    rewrite u64_small by lia. lia. }
  intros _ p1 [Hf1 Ht1]. destruct (framed_ws _ _ _ _ Hf1 Hw) as (ws1&Hw1&(Ei&_)).
  eapply wp_va_op; [done|done|]. intros fl pt r p2 Hf2 _ Hd2. apply HQ; [by etrans|].
  eapply touched_trans; [done|].
  eapply unmap_touched; [exact Hh|exact Hf|exact Ho|exact Hb|exact Hd2|done|done| |]; simpl; [by rewrite Ei|lia].
Qed.

Lemma wp_destroy_now own p w b (Q : unit -> proc K -> Prop) :
  inv own p -> destroyable own p w b -> (forall p', destroyed own p b p' -> Q tt p') ->
  wp (bo_destroy_now w b) Q p.
Proof.
  intros Hi (ws&bo&Hw&Ho&Hb&Hnc&Hn&Hg) HQ. unfold bo_destroy_now. apply wp_bind. eapply wp_get_bo; [done|].
  apply wp_bind, wp_churn_after. apply wp_if; intros Hv.
  { eapply (wp_virtual_destroy own p); try done. destruct Hg as [[_ ?]|?]; [congruence|done]. }
  apply wp_bind. eapply wp_get_ws; [done|]. set (c := churn_after bo (p_churn p)).
  (* the CPU mapping and the global list *)
  eapply (wp_seq _ _ (fun _ p1 => exists k, same_view (p_k p) k /\ p1 = set_churn c (set_k k p))).
  { apply wp_when; intros _; [|exists (p_k p); by destruct p].
    apply wp_kdo. eexists. split; [apply munmap_silent|done]. }
  intros _ p1 (k&Hsv&->). assert (inv own (set_k k p)) as Hi1 by by apply inv_silent.
  eapply (wp_seq _ _ (fun _ p2 => exists p2', p2 = set_churn c p2' /\ inv own p2' /\ only_bo b p p2'
            /\ same_view (p_k p) (p_k p2') /\ p_trackers p2' = p_trackers p /\ p_churn p2' = p_churn p
            /\ p_bos p2' !! b = Some (with_use_global_list false bo))).
  { apply wp_when; intros Hd.
    - apply wp_del_churn. eapply (wp_global_del own (set_k k p)); try done.
      intros p2 Hi2 Ho2 Ek Et Ec Hb2. exists p2. split; [done|]. split; [done|].
      split; [by eapply only_bo_trans; [apply framed_only, framed_k|]|]. simpl in *. by rewrite Ek, Et, Ec.
    - exists (set_k k p). split; [done|]. split; [done|]. split; [apply framed_only, framed_k|].
      split; [done|]. split; [done|]. split; [done|]. destruct Hg as [[? _]|?]; [congruence|].
      simpl. by rewrite with_global_same. }
  intros _ ? (p2&->&Hi2&Hob&Hsv2&Et2&Ec2&Hb2). destruct Hob as [Ecache Edying En Hbs Hws].
  destruct (Hws w ws Hw) as (ws2&Hw2&Ei2&Enull&_).
  set (bo2 := with_use_global_list false bo) in *. pose proof (bk_sizes _ _ (in_books _ _ Hi2)) as Hsz.
  rewrite <- Ei2 in Ho |- *. apply wp_bind. change (unmap_bo w bo) with (unmap_bo (K := K) w bo2).
  eapply (wp_unmap_bo own (p_bos p2) (p_k p2)); [apply Hi2|exact Hsz|exact Hw2|done|done|done|].
  intros r p3 Hf3 (Er3&Eb3&Hk3). simpl in Er3, Eb3, Hk3. wp_step.
  destruct (ba_buffer _ _ _ (he_backed _ _ _ (in_held _ _ Hi2) _ _ _ _ Ho Hb2) Hv) as [(refs&Hrefs) _].
  assert (buffer_released (ws_dev (ws_info ws2)) (bo_buf bo) (bo_handle bo) refs (p_k p3)
            (drm_bo_free (ws_dev (ws_info ws2)) (bo_buf bo) (p_k p3))) as Hrel.
  { apply bo_free_spec. by rewrite Eb3. }
  destruct (bk_trackers _ _ (in_books _ _ Hi2) w ws2 Hw2) as [t Ht].
  assert (p_trackers p3 = p_trackers p2) as Et3 by apply (fr_trackers _ _ Hf3).
  apply wp_bind. apply (wp_count _ _ _ t); [simpl; by rewrite Et3|done|]. intros m Hm. do 2 wp_step. simpl in Hm.
  apply HQ. set (pf := set_bos _ _).
  assert (framed (set_bos (delete b (p_bos p2)) (set_trackers (p_trackers pf) (set_churn c p2))) pf) as Hff.
  { destruct Hf3 as [? E1 E2 E3 E4 E5 E6 E7]. simpl in *. split; simpl; try done. by rewrite E1. }
  split.
  - eapply (inv_depart own p2 pf b w ws2 bo2); try done.
    + by rewrite Ecache.
    + rewrite Enull, Edying. done.
    + unfold churn_after. simpl. rewrite Ec2. exact Hff.
    + intros c'. simpl. rewrite <- Et3. apply Hm.
    + simpl. eapply (held_released own (p_bos p2) (p_k p2) (p_k p3) _ b w _ bo2 refs); try done. apply Hi2.
  - pose proof Hff as [_ E1 _ E3 _ E5 _ E7]. simpl in E1, E3, E5, E7.
    split; [simpl; congruence|]. split; [simpl; congruence|]. split; [simpl; lia|]. split.
    + simpl in *. rewrite E1. apply map_eq. intros b'. destruct (decide (b' = b)) as [->|].
      * by rewrite !lookup_delete_eq.
      * rewrite !lookup_delete_ne by done. by apply Hbs.
    + intros w' ws' Hw'. destruct (Hws w' ws' Hw') as (ws3&Hw3&?&?&?&_).
      destruct (framed_ws _ _ w' ws3 Hff Hw3) as (ws4&?&(?&_&?&?)). exists ws4. split_and!; congruence.
Qed.

(** A destruction parks the buffer or frees it. *)
Lemma wp_destroy own p w b (Q : unit -> proc K -> Prop) :
  inv own p -> destroyable own p w b ->
  (forall p', destroyed own p b p' -> Q tt p') ->
  (forall p' bo, p_bos p !! b = Some bo -> radv_xclipse_ibcache_cacheable bo = true -> p_dying p <> Some w ->
     inv own p' -> (b ∈ e_bo <$> p_cache p') ->
     p_cache p' = p_cache p ++ [Entry b w (bo_size bo) (xclipse_alignment bo) (bo_flags bo) (initial_domain bo)] ->
     p_trackers p' = p_trackers p -> p_next p' = p_next p -> p_winsys p' = p_winsys p -> p_dying p' = p_dying p ->
     same_view (p_k p) (p_k p') -> (forall b', b' <> b -> p_bos p' !! b' = p_bos p !! b') ->
     p_bos p' !! b = Some (with_cpu_map 0 bo) -> Q tt p') ->
  wp (radv_amdgpu_winsys_bo_destroy w b) Q p.
Proof.
  intros Hi Hd Hnow Hpark. pose proof Hd as (ws&bo&Hw&Ho&Hb&Hnc&_&Hul).
  unfold radv_amdgpu_winsys_bo_destroy. apply wp_bind. eapply wp_get_bo; [done|]. apply wp_bind.
  eapply (wp_park own p); [done..|naive_solver| |].
  - intros _. by eapply wp_destroy_now.
  - intros p' Hc Hdy Hi' Hin Ed En Ew Et Hs Ec Hbs Hb'. apply wp_ret. by eapply Hpark.
Qed.

End free.
