(* ===== verification/BoAcquire.v ===== *)
(** What a creation acquires from the kernel, and how a failed creation gives it back. *)

From stdpp Require Import gmap.
From S2P Require Import Prelude Pm4 BoModel BoLogic BoKernel BoInv BoVa BoBooks BoHeld BoDestroy BoFree.

Section acquire.
Context {K : Type} `{!Drm K} `{!DrmView K} `{!DrmLaws K}.
Implicit Types (k : K) (p : proc K) (own : gmap Z (Z * winsys_info)).
#[local] Set Default Proof Using "All".

(** A reference to a buffer object, new or shared. *)
Definition buffer_acquired (dev buf h : Z) k k' : Prop :=
  k_bos k' = <[buf := (dev, h, buf_refs k buf + 1)]> (k_bos k) /\ h <> 0
  /\ (k_bos k !! buf = None /\ (forall buf' h' r, k_bos k !! buf' = Some (dev, h', r) -> h' <> h)
      \/ exists r, k_bos k !! buf = Some (dev, h, r))
  /\ k_ranges k' = k_ranges k /\ same_maps (k_maps k) (k_maps k').

Lemma acquired_new dev buf h k k' : buffer_added dev buf h k k' -> buffer_acquired dev buf h k k'.
Proof.
  intros (Hn&Hz&Hf&E&Er&Hm). split; [unfold buf_refs; by rewrite Hn|]. split; [done|]. split; [by left|done].
Qed.

Lemma acquired_shared dev buf h k k' : kernel_ok k -> buffer_shared dev buf h k k' -> buffer_acquired dev buf h k k'.
Proof.
  intros Hk (r&Hr&E&Er&Hm). destruct (ko_refs _ Hk _ _ _ _ Hr). split; [unfold buf_refs; by rewrite Hr|].
  split; [done|]. split; [right; eauto|done].
Qed.

Lemma grows_acquired dev buf h k k' : buffer_acquired dev buf h k k' -> grows k k'.
Proof.
  intros (E&_&Hc&Er&Hm). split; rewrite ?E, ?Er; [done| |intros m ?; by apply Hm].
  intros buf' d h' r Hv. destruct (decide (buf' = buf)) as [->|].
  - destruct Hc as [[Hn _]|(r0&Hr0)]; [congruence|]. rewrite Hr0 in Hv. injection Hv as <- <- <-.
    eexists. apply lookup_insert_eq.
  - exists r. by rewrite lookup_insert_ne.
Qed.

(** The new reference has the handle that an export gives. *)
Lemma acquired_export dev buf h k k' : buffer_acquired dev buf h k k' -> drm_bo_export_kms dev buf k' = Some h.
Proof. intros (E&_). eapply export_spec. rewrite E. apply lookup_insert_eq. Qed.

(** * The kernel's bookkeeping *)

Lemma kernel_range_added dev h va n k k' :
  kernel_ok k -> range_added dev h va n k k' -> va mod getpagesize (K := K) = 0 -> 0 < n ->
  n mod getpagesize (K := K) = 0 -> range_placed (K := K) dev va n -> kernel_ok k'.
Proof.
  intros [Hp Ha Hr Hh] (Hn&Hap&Er&Eb&_) Hva Hn0 Hnp Hpl. split; rewrite ?Er, ?Eb; try done.
  - intros h' d va' n' [[<- [= <- <- <-]]|[_ H]]%lookup_insert_Some; [done|by eapply Hp].
  - intros h1 h2 d va1 n1 va2 n2 Hne H1%lookup_insert_Some H2%lookup_insert_Some.
    destruct H1 as [[? ?]|[? ?]], H2 as [[? ?]|[? ?]]; simplify_eq;
      [by eapply Hap|apply or_comm; by eapply Hap|by eapply (Ha h1 h2)].
Qed.

Lemma kernel_acquired dev buf h k k' : kernel_ok k -> buffer_acquired dev buf h k k' -> kernel_ok k'.
Proof.
  intros [Hp Ha Hr Hh] (E&Hz&Hc&Er&_). split; rewrite ?Er, ?E; try done.
  - intros buf' d h' r [[<- [= <- <- <-]]|[_ H]]%lookup_insert_Some; [|by eapply Hr]. split; [|done].
    unfold buf_refs. destruct (k_bos k !! buf) as [[[? ?] r]|] eqn:Eb; [|lia].
    destruct (Hr _ _ _ _ Eb). lia.
  - intros buf1 buf2 d h' r1 r2 H1%lookup_insert_Some H2%lookup_insert_Some.
    destruct H1 as [[? ?]|[? H1]], H2 as [[? ?]|[? H2]]; simplify_eq; [done| | |by eapply Hh].
    + destruct Hc as [[_ Hf]|(r&Hr0)]; [|by eapply Hh]. by destruct (Hf _ _ _ H2).
    + destruct Hc as [[_ Hf]|(r&Hr0)]; [|by eapply Hh]. by destruct (Hf _ _ _ H1).
Qed.

Lemma kernel_done a r k k' : kernel_ok k -> va_done a r k k' -> kernel_ok k'.
Proof. intros [? ? ? ?] (Er&Eb&_). split; rewrite ?Er, ?Eb; done. Qed.

(** * A range and a buffer together *)

(** From [k0] to [k2] the range [vah] and a reference to [buf] have been acquired, in any order. *)
Record acquired (k0 k2 : K) (dev va vah n buf h : Z) : Prop := Acquired {
  ac_none : k_ranges k0 !! vah = None;
  ac_ranges : k_ranges k2 = <[vah := (dev, va, n)]> (k_ranges k0);
  ac_bos : k_bos k2 = <[buf := (dev, h, buf_refs k0 buf + 1)]> (k_bos k0);
  ac_handle : h <> 0;
  ac_fresh : k_bos k0 !! buf = None /\ (forall buf' h' r, k_bos k0 !! buf' = Some (dev, h', r) -> h' <> h)
             \/ exists r, k_bos k0 !! buf = Some (dev, h, r);
  ac_kernel : kernel_ok k2;
  ac_grows : grows k0 k2;
  ac_placed : range_placed (K := K) dev va n
}.

Lemma acquired_range_buffer k0 k1 k2 dev va vah n buf h :
  kernel_ok k0 -> range_added dev vah va n k0 k1 -> buffer_acquired dev buf h k1 k2 ->
  va mod getpagesize (K := K) = 0 -> 0 < n -> n mod getpagesize (K := K) = 0 -> range_placed (K := K) dev va n ->
  acquired k0 k2 dev va vah n buf h.
Proof.
  intros Hk Hr Hb Hva Hn Hnp Hp. pose proof Hr as (Hn0&_&Er&Eb&_). pose proof Hb as (Eb2&Hh&Hc&Er2&_).
  split; try done; rewrite <- ?Eb; try done.
  - congruence.
  - rewrite Eb2. unfold buf_refs. by rewrite Eb.
  - eapply kernel_acquired; [|exact Hb]. by eapply kernel_range_added.
  - eapply grows_trans; [by eapply grows_range|by eapply grows_acquired].
Qed.

Lemma acquired_buffer_range k0 k1 k2 dev va vah n buf h :
  kernel_ok k0 -> buffer_acquired dev buf h k0 k1 -> range_added dev vah va n k1 k2 ->
  va mod getpagesize (K := K) = 0 -> 0 < n -> n mod getpagesize (K := K) = 0 -> range_placed (K := K) dev va n ->
  acquired k0 k2 dev va vah n buf h.
Proof.
  intros Hk Hb Hr Hva Hn Hnp Hp. pose proof Hr as (Hn0&_&Er&Eb&_). pose proof Hb as (Eb2&Hh&Hc&Er2&_).
  split; try done.
  - congruence.
  - congruence.
  - congruence.
  - eapply kernel_range_added; [|exact Hr|done..]. by eapply kernel_acquired.
  - eapply grows_trans; [by eapply grows_acquired|by eapply grows_range].
Qed.

(** * Giving back *)

Lemma undo_range dev h va n k k1 k2 :
  range_added dev h va n k k1 -> k_ranges k2 = k_ranges k1 ->
  k_ranges (drm_va_range_free h k2) = k_ranges k /\ k_bos (drm_va_range_free h k2) = k_bos k2
  /\ same_maps (k_maps k2) (k_maps (drm_va_range_free h k2)).
Proof.
  intros (Hn&_&E&_&_) E2. destruct (range_free_spec h k2) as (Er&Eb&Hm). split; [|done].
  rewrite Er, E2, E. by apply delete_insert_id.
Qed.

(** The reference goes, and with a new buffer all its mappings, which no other buffer's are. *)
Lemma undo_buffer own bos k0 k2 dev buf h :
  held own bos k0 -> bo_fits bos -> k_bos k2 = <[buf := (dev, h, buf_refs k0 buf + 1)]> (k_bos k0) ->
  (k_bos k0 !! buf = None /\ (forall buf' h' r, k_bos k0 !! buf' = Some (dev, h', r) -> h' <> h)
   \/ exists r, k_bos k0 !! buf = Some (dev, h, r)) ->
  (forall m, m ∈ k_maps k0 -> m ∈ k_maps k2) ->
  k_bos (drm_bo_free dev buf k2) = k_bos k0 /\ k_ranges (drm_bo_free dev buf k2) = k_ranges k2
  /\ keeps own bos k0 (drm_bo_free dev buf k2).
Proof.
  intros Hh Hfit E Hc Hm.
  assert (k_bos k2 !! buf = Some (dev, h, buf_refs k0 buf + 1)) as Hl by (rewrite E; apply lookup_insert_eq).
  destruct (bo_free_spec _ _ _ _ _ Hl) as (Er&Hn&H1). destruct Hc as [[Hnone Hfresh]|(r&Hr)].
  - unfold buf_refs in *. rewrite Hnone in *. destruct (H1 eq_refl) as [Eb Hm']. split; [|split; [done|]].
    { rewrite Eb, E. by apply delete_insert_id. }
    intros b w i bo Ho Hb Hv Hmap. eapply mapped_keep; [by eapply Hfit|done|]. intros m Hin Hdm Hhm _. apply Hm'.
    split; [by apply Hm|]. intros [Hd Hh'].
    destruct (ba_buffer _ _ _ (he_backed _ _ _ Hh _ _ _ _ Ho Hb) Hv) as [(r&Hr) _].
    rewrite <- Hdm, Hd, <- Hhm, Hh' in Hr. by eapply Hfresh.
  - assert (0 < r) as Hr0 by (by destruct (ko_refs _ (he_kernel _ _ _ Hh) _ _ _ _ Hr)).
    unfold buf_refs in *. rewrite Hr in *. destruct (Hn ltac:(lia)) as [Eb Hm']. split; [|split; [done|]].
    { rewrite Eb, E, insert_insert_eq. apply insert_id. rewrite Hr. f_equal. f_equal. lia. }
    intros b w i bo Ho Hb Hv Hmap. eapply mapped_keep; [by eapply Hfit|done|]. intros m Hin _ _ _. by apply Hm', Hm.
Qed.

(** A failed creation gives the range and the reference back, in either order. *)
Lemma acquired_undo own bos k0 k2 k3 dev va vah n buf h :
  held own bos k0 -> bo_fits bos -> acquired k0 k2 dev va vah n buf h ->
  k_ranges k3 = k_ranges k2 -> k_bos k3 = k_bos k2 -> grows k2 k3 ->
  touched own bos k0 (drm_va_range_free vah (drm_bo_free dev buf k3))
  /\ touched own bos k0 (drm_bo_free dev buf (drm_va_range_free vah k3)).
Proof.
  intros Hh Hf [Hn Er Eb Hz Hc _ Hg _] Er3 Eb3 Hg3.
  assert (forall m, m ∈ k_maps k0 -> m ∈ k_maps k3) as Hm.
  { intros m Hm. by apply (gr_maps _ _ Hg3), (gr_maps _ _ Hg). }
  assert (forall k, k_ranges k = k_ranges k2 -> k_ranges (drm_va_range_free vah k) = k_ranges k0) as Hrf.
  { intros k E. destruct (range_free_spec vah k) as (->&_). rewrite E, Er. by apply delete_insert_id. }
  split.
  - destruct (undo_buffer own bos k0 k3 dev buf h) as (Eb4&Er4&Hk4); [done|done|congruence|done|done|].
    destruct (range_free_spec vah (drm_bo_free dev buf k3)) as (_&Eb5&Hm5). split; [apply Hrf; congruence|].
    split; [congruence|]. eapply keeps_trans; [exact Hk4|by apply keeps_same].
  - destruct (range_free_spec vah k3) as (_&Eb5&Hm5).
    destruct (undo_buffer own bos k0 (drm_va_range_free vah k3) dev buf h) as (Eb4&Er4&Hk4); try done.
    { congruence. }
    { intros m ?. by apply Hm5, Hm. }
    split; [rewrite Er4; by apply Hrf|done].
Qed.

(** * A new plain buffer *)

(** The kernel after a successful creation. *)
Lemma held_new own bos k0 k2 k b w i bo n :
  held own bos k0 -> own !! b = None -> bos !! b = None -> is_virtual bo = false ->
  emulate_sparse_residency bo = false -> 
  acquired k0 k2 (ws_dev i) (bo_va bo) (va_handle bo) n (bo_buf bo) (bo_handle bo) ->
  k_ranges k = k_ranges k2 -> k_bos k = k_bos k2 -> grows k2 k -> span bo <= n -> mapped k (ws_dev i) bo ->
  held (<[b := (w, i)]> own) (<[b := bo]> bos) k.
Proof.
  intros Hh Ho Hb Hv He [Hn Er Eb Hz Hc Hko Hg _] Er3 Eb3 Hg3 Hsp Hm. eapply held_arrive; try done.
  - destruct Hko as [? ? ? ?]. split; rewrite ?Er3, ?Eb3; done.
  - by eapply grows_trans.
  - split; [|by rewrite He|by rewrite Hv|].
    + exists n. split; [|done]. unfold range_va. rewrite He, Er3, Er. apply lookup_insert_eq.
    + intros _. split; [|done]. eexists. rewrite Eb3, Eb. apply lookup_insert_eq.
  - intros h. unfold range_held, uses_range. rewrite Er3, Er. destruct (Z.eqb_spec (va_handle bo) h) as [<-|].
    + by rewrite lookup_insert_eq, Hn.
    + rewrite lookup_insert_ne by done. destruct (_ !! h); lia.
  - intros buf. unfold uses_buf. rewrite Hv. unfold buf_refs at 1. rewrite Eb3, Eb. simpl.
    destruct (Z.eqb_spec (bo_buf bo) buf) as [<-|].
    + by rewrite lookup_insert_eq.
    + rewrite lookup_insert_ne by done. unfold buf_refs. lia.
Qed.

(** A new sparse buffer, before its range is mapped. *)
Lemma held_new_virtual own bos k0 k b w i bo n :
  held own bos k0 -> own !! b = None -> bos !! b = None -> is_virtual bo = true ->
  k_ranges k0 !! va_handle bo = None -> k_ranges k = <[va_handle bo := (ws_dev i, range_va i bo, n)]> (k_ranges k0) ->
  k_bos k = k_bos k0 -> kernel_ok k -> grows k0 k -> backed k i bo ->
  held (<[b := (w, i)]> own) (<[b := bo]> bos) k.
Proof.
  intros Hh Ho Hb Hv Hr0 Er Eb Hk Hg Hba. eapply held_arrive; try done.
  - intros h. unfold range_held, uses_range. rewrite Er. destruct (Z.eqb_spec (va_handle bo) h) as [<-|].
    + by rewrite lookup_insert_eq, Hr0.
    + rewrite lookup_insert_ne by done. destruct (_ !! h); lia.
  - intros buf. unfold uses_buf, buf_refs. rewrite Hv, Eb. simpl. lia.
Qed.

End acquire.
