(* ===== verification/BoCreate.v ===== *)
(** The creation and the import of plain buffers: a success returns a buffer nobody had, mapped and
    counted; a failure leaves the buffers and what the kernel holds as they were. *)

From stdpp Require Import gmap.
From S2P Require Import Prelude Pm4 BoModel BoLogic BoKernel BoInv BoVa BoBooks BoHeld BoDestroy BoFree BoAcquire.

Lemma has_lor_r a b : b <> 0 -> has (Z.lor a b) b = true.
Proof.
  intros Hb. unfold has. replace (Z.land (Z.lor a b) b) with b; [by apply negb_true_iff, Z.eqb_neq|].
  apply Z.bits_inj'. intros n Hn. rewrite Z.land_spec, Z.lor_spec.
  by destruct (Z.testbit a n), (Z.testbit b n).
Qed.

Section create.
Context {K : Type} `{!Drm K} `{!DrmView K} `{!DrmLaws K}.
Implicit Types (k : K) (p : proc K) (own : gmap Z (Z * winsys_info)).
#[local] Set Default Proof Using "All".

(** * Steps that only ask *)

Lemma wp_alloc_bo own p (Q : option Z -> proc K -> Prop) :
  inv own p ->
  (forall p', framed p p' -> inv own p' -> Q None p') ->
  (forall p', framed p p' -> inv own p' -> own !! p_next p = None -> p_next p < p_next p' -> Q (Some (p_next p)) p') ->
  wp alloc_bo Q p.
Proof.
  intros Hi Hn Hs. unfold alloc_bo. apply wp_bind, wp_kcall. intros k ok Hk. apply calloc_silent in Hk.
  pose proof (inv_silent own p k Hk Hi) as Hi1. apply wp_if; intros _.
  - apply wp_ret, Hn; [apply framed_k|done].
  - do 2 wp_step. apply wp_ret. simpl.
    assert (framed (set_k k p) (set_next (p_next p + 1) (set_k k p))) as Hf by (apply framed_next; simpl; lia).
    apply Hs; [etrans; [apply framed_k|exact Hf]|eapply inv_framed; [exact Hf|apply Hi1|done]| |simpl; lia].
    apply eq_None_not_Some. intros H. pose proof (bk_next _ _ (in_books _ _ Hi) _ H). lia.
Qed.

Lemma wp_memguard own p w ws size (Q : bool -> proc K -> Prop) :
  inv own p -> p_winsys p !! w = Some ws -> (forall r p', framed p p' -> inv own p' -> Q r p') ->
  wp (xclipse_memguard_reject (ws_info ws) size) Q p.
Proof.
  intros Hi Hw HQ. unfold xclipse_memguard_reject. apply wp_if; intros _; [apply wp_ret, HQ; [apply framed_refl|done]|].
  wp_step. eapply (wp_seq _ _ (fun _ p1 => framed p p1 /\ inv own p1)).
  { apply wp_if; intros _; [apply wp_ret; split; [apply framed_refl|done]|]. apply wp_bind, wp_kcall.
    intros k f Hk. apply sysfs_silent in Hk. pose proof (inv_silent own p k Hk Hi) as Hi1.
    assert (forall v, framed p (set_sysfs_ok v (set_k k p)) /\ inv own (set_sysfs_ok v (set_k k p))) as Hv.
    { intros v. split; [etrans; [apply framed_k|apply framed_sysfs]|].
      eapply inv_framed; [apply framed_sysfs|apply Hi1|done]. }
    destruct f as [[used|]|]; wp_step; apply wp_ret; apply Hv. }
  intros used p1 [Hf Hi1]. wp_step. destruct (framed_ws _ _ _ _ Hf Hw) as (ws1&Hw1&(Ei&_)).
  destruct (bk_trackers _ _ (in_books _ _ Hi1) w ws1 Hw1) as [t Ht]. rewrite Ei in Ht.
  eapply (wp_seq _ _ (fun _ p2 => p2 = p1)).
  { apply wp_if; intros _; [|by apply wp_ret]. apply wp_bind. eapply wp_deref; [done|]. by apply wp_ret. }
  intros u p2 ->. apply wp_ret. by apply HQ.
Qed.

(** * The end of a creation *)

Lemma wp_finish own p0 p w ws b bo c (Q : unit -> proc K -> Prop) :
  inv own p0 -> framed (set_churn c p0) p -> p_winsys p0 !! w = Some ws -> own !! b = None -> b < p_next p ->
  size_fits (bo_size bo) -> is_virtual bo = false -> use_global_list bo = false ->
  live_bytes c = u64 (live_bytes (p_churn p0) + counted_size b bo) ->
  held (<[b := (w, ws_info ws)]> own) (<[b := bo]> (p_bos p0)) (p_k p) ->
  (forall p' g, inv (<[b := (w, ws_info ws)]> own) p' -> only_bo b p0 p' ->
     p_bos p' !! b = Some (with_use_global_list g bo) -> debug_all_bos (ws_info ws) = true \/ g = false -> Q tt p') ->
  wp (finish_bo w b (ws_info ws) bo) Q p.
Proof.
  intros Hi Hf Hw Ho Hb Hs Hv Hu Hc Hh HQ. unfold finish_bo. wp_step. apply wp_bind.
  destruct (bk_trackers _ _ (in_books _ _ Hi) w ws Hw) as [t Ht].
  apply (wp_count _ _ _ t); [simpl; by rewrite (fr_trackers _ _ Hf)|done|]. intros m Hm. simpl in Hm.
  rewrite (fr_trackers _ _ Hf) in Hm. simpl in Hm.
  set (own' := <[b := (w, ws_info ws)]> own) in *. set (p2 := set_trackers m _).
  set (q := set_trackers m (set_bos (<[b := bo]> (p_bos p0)) (set_churn c (set_next (p_next p) p0)))).
  assert (framed q p2) as Hq.
  { destruct Hf as [? E1 E2 E3 E4 E5 E6 E7]. simpl in *. split; simpl; try done. by rewrite E1. }
  assert (inv own' p2) as Hi2.
  { split.
    - eapply books_framed; [exact Hq|]. eapply (books_arrive own p0 q b w ws bo); try done; [apply Hi|].
      apply (fr_next _ _ Hf).
    - simpl. by rewrite (fr_bos _ _ Hf).
    - intros w' ws' Hw'. destruct (framed_ws_back _ _ _ _ Hf Hw') as (ws0&H0&(E&_)). rewrite E. by eapply Hi. }
  assert (only_bo b p0 p2) as Hob.
  { pose proof Hf as [_ E1 _ E3 _ E5 _ E7]. simpl in *. split; simpl; [done|done|lia| |].
    - intros b' Hne. rewrite lookup_insert_ne by done. by rewrite E1.
    - intros w' ws' Hw'. destruct (framed_ws _ _ w' ws' Hf Hw') as (ws2&?&(?&E&?&?)). exists ws2.
      split_and!; try done. intros b' _. by rewrite E. }
  assert (p_bos p2 !! b = Some bo) as Hb2 by apply lookup_insert_eq.
  apply wp_when; intros Hd; [|apply (HQ p2 false); [done|done|by rewrite with_global_same|by right]].
  destruct (framed_ws _ _ w ws Hf Hw) as (ws2&Hw2&(Ei&_)). apply wp_bind.
  eapply (wp_global_add own' p2 w ws2 b bo); try done.
  - rewrite Ei. apply lookup_insert_eq.
  - rewrite (ob_cache _ _ _ Hob). by eapply not_cached.
  - right. right. by rewrite Ei.
  - intros r p3 g Hi3 Ho3 Hb3 _. apply wp_ret. eapply HQ; [done| |done|by left]. by eapply only_bo_trans.
Qed.

(** * The results of a creation *)

Definition created own p w i (spec : radv_amdgpu_winsys_bo -> Prop) (b : Z) p' : Prop :=
  own !! b = None /\ inv (<[b := (w, i)]> own) p' /\ only_bo b p p'
  /\ exists bo, p_bos p' !! b = Some bo /\ spec bo /\ (debug_all_bos i = true \/ use_global_list bo = false).

Definition failed own p p' : Prop := inv own p' /\ framed p p'.

Definition creation own p w i spec (res : VkResult * option Z) p' : Prop :=
  match res with
  | (VK_SUCCESS, Some b) => created own p w i spec b p'
  | (VK_SUCCESS, None) | (_, Some _) => False
  | (_, None) => failed own p p'
  end.

Lemma creation_failed own p w i spec r p' :
  r <> VK_SUCCESS -> failed own p p' -> creation own p w i spec (r, None) p'.
Proof. intros Hr Hf. by destruct r. Qed.

(** A failed creation has given everything back. *)
Lemma failed_touched own p p' :
  inv own p -> framed p p' -> touched own (p_bos p) (p_k p) (p_k p') -> failed own p p'.
Proof.
  intros Hi Hf (Er&Eb&Hk). split; [|done]. eapply inv_framed; [done| |done].
  eapply held_kept; [apply Hi|done..].
Qed.

Lemma failed_trans own p p1 p' : framed p p1 -> failed own p1 p' -> failed own p p'.
Proof. intros Hf [? ?]. split; [done|by etrans]. Qed.

(** * The maps of a new buffer *)

Lemma wp_map_new w ws bo r0 (Q : Z -> proc K -> Prop) p :
  p_winsys p !! w = Some ws -> size_fits (bo_size bo) -> bo_handle bo <> 0 ->
  0 <= bo_va bo -> bo_va bo + r0 <= W64 -> (has (bo_flags bo) RADEON_FLAG_VM_PAD_1PAGE = true ->
    align64 (bo_size bo) 4096 < r0) ->
  (forall r p', framed p p' -> grows (p_k p) (p_k p') -> k_ranges (p_k p') = k_ranges (p_k p) ->
     k_bos (p_k p') = k_bos (p_k p) -> (r = 0 -> mapped (p_k p') (ws_dev (ws_info ws)) bo) -> Q r p') ->
  wp (map_new_bo w (bo_handle bo) (bo_size bo) (bo_va bo) (bo_flags bo)) Q p.
Proof.
  intros Hw Hs Hh Hva Hr0 Hpad HQ. unfold map_new_bo. apply wp_bind. eapply wp_va_op; [done|done|].
  intros fl pt r p1 Hf1 Hfl Hd1. pose proof (grows_done _ _ _ _ Hd1 eq_refl) as Hg1. destruct Hd1 as (Er1&Eb1&H1).
  unfold page_flags in Hfl. rewrite (proj2 (Z.eqb_neq _ _) Hh) in Hfl.
  apply wp_if; intros Er; [apply wp_ret; apply HQ; try done; intros ->; done|].
  apply negb_false_iff, Z.eqb_eq in Er as ->. simpl in H1. destruct H1 as [[Hno1 H1]|[? _]]; [|done].
  unfold va_mapping in H1. simpl in H1. set (m1 := Mapping _ _ _ _ _ _) in H1.
  assert (m1 ∈ k_maps (p_k p1)) as Hm1 by (apply H1; by left).
  apply wp_if; intros Hp.
  - specialize (Hpad Hp). unfold size_fits in Hs. destruct (framed_ws _ _ _ _ Hf1 Hw) as (ws1&Hw1&(Ei&_)).
    pose proof page_gt0 as Hpg.
    assert (0 <= align64 (bo_size bo) 4096) as Ha by (rewrite align64_4096 by lia; pose proof (round_up_spec (bo_size bo) 4096 ltac:(lia)); lia).
    rewrite u64_small by lia. eapply wp_va_op; [done|done|]. intros fl2 pt2 r p2 Hf2 Hfl2 Hd2.
    pose proof (grows_done _ _ _ _ Hd2 eq_refl) as Hg2. destruct Hd2 as (Er2&Eb2&H2).
    unfold page_flags in Hfl2. rewrite (proj2 (Z.eqb_neq _ _) Hh), has_lor_r in Hfl2 by done.
    apply HQ; [by etrans|by eapply grows_trans|congruence|congruence|]. intros ->.
    simpl in H2. destruct H2 as [[Hno2 H2]|[? _]]; [|done]. unfold va_mapping in H2, Hno2. simpl in H2, Hno2.
    rewrite align64_one_page, Ei in H2, Hno2. split.
    + exists fl. split; [|done]. apply H2. by right.
    + intros _. split; [|eexists; split; [apply H2; by left|done]].
      specialize (Hno2 _ Hm1). unfold overlaps in Hno2. simpl in Hno2.
      pose proof (align64_pagesize (K := K) (bo_size bo) ltac:(lia)) as EA. rewrite EA in Hno2.
      rewrite align64_4096 in * by lia. pose proof (round_up_spec (bo_size bo) _ Hpg) as [HA HAm].
      pose proof (round_up_spec (bo_size bo) 4096 ltac:(lia)) as [HB HBm].
      assert (round_up (bo_size bo) 4096 <= round_up (bo_size bo) (getpagesize (K := K))).
      { apply round_up_least; [lia| |lia].
        destruct (Z.mod_divide (getpagesize (K := K)) 4096) as [Hdiv _]; [lia|].
        destruct (Hdiv page_4096) as [q Hq]. apply Z.mod_divide in HAm as [q' Hq']; [|lia].
        rewrite Hq', Hq, Z.mul_assoc. apply Z_mod_mult. }
      assert (round_up (bo_size bo) (getpagesize (K := K)) = round_up (bo_size bo) 4096) as <-; [|done].
      apply Z.le_antisymm; [|done]. apply Z.nlt_ge. intros Hlt. apply Hno2. split; [done|]. lia.
  - apply wp_ret. apply HQ; try done. intros _. split; [|congruence]. exists fl. split; [|done]. exact Hm1.
Qed.

(** * Buffers of the driver *)

(** What the client of a creation must see to: the assertions of the source. *)
Definition create_ok (i : winsys_info) (size domain flags replay_address : Z) : Prop :=
  size_fits size /\ ((replay_address =? 0) || has flags RADEON_FLAG_REPLAYABLE) = true
  /\ request_asserts i (normalise_domain i domain) flags = true.

(** The buffer is what was asked for. *)
Record described (i : winsys_info) (size alignment domain flags priority : Z) (bo : radv_amdgpu_winsys_bo) : Prop :=
  Described {
  de_size : bo_size bo = size;
  de_alignment : xclipse_alignment bo = alignment;
  de_flags : bo_flags bo = flags;
  de_domain : initial_domain bo = normalise_domain i domain;
  de_priority : bo_priority bo = priority;
  de_plain : is_virtual bo = false /\ imported bo = false /\ cpu_map bo = 0
}.

(** The bytes a creation reserves. *)
Definition reserved_size (i : winsys_info) (size alignment flags : Z) : Z :=
  u64 (radv_amdgpu_bo_va_size size flags + va_gap_size i (virt_alignment i size alignment)).

Lemma va_size_bounds size flags : size_fits size ->
  size <= radv_amdgpu_bo_va_size size flags < 2 ^ 49
  /\ (has flags RADEON_FLAG_VM_PAD_1PAGE = true -> radv_amdgpu_bo_va_size size flags = align64 size 4096 + 4096).
Proof.
  unfold size_fits, radv_amdgpu_bo_va_size. intros H. destruct (has _ _); [|split; [lia|done]].
  rewrite align64_4096 by lia. pose proof (round_up_spec size 4096 ltac:(lia)) as [? _].
  rewrite u64_small by (unfold W64; lia). split; [lia|done].
Qed.

Lemma gap_bounds i al : 0 <= va_gap_size i al <= 2 ^ 32.
Proof.
  unfold va_gap_size. destruct (debug_vm i); [|lia]. pose proof (u32_range (4 * al)). unfold W32 in *. lia.
Qed.

Lemma reserved_bounds i size alignment flags : size_fits size ->
  radv_amdgpu_bo_va_size size flags <= reserved_size i size alignment flags
  /\ 0 < reserved_size i size alignment flags < 2 ^ 62.
Proof.
  intros H. destruct (va_size_bounds size flags H) as [? _]. unfold size_fits in H.
  pose proof (gap_bounds i (virt_alignment i size alignment)). unfold reserved_size.
  rewrite u64_small by (unfold W64; lia). lia.
Qed.

(** A mapped buffer lies in the bytes reserved for it. *)
Lemma span_reserved k dev i alignment bo : size_fits (bo_size bo) -> mapped k dev bo ->
  span bo <= round_up (reserved_size i (bo_size bo) alignment (bo_flags bo)) getpagesize.
Proof.
  intros Hs [_ Hp]. destruct (reserved_bounds i _ alignment (bo_flags bo) Hs) as [Hr _].
  destruct (va_size_bounds _ (bo_flags bo) Hs) as [Hv Hvp]. unfold size_fits in Hs. unfold span. pose proof page_gt0 as Hpg.
  destruct (round_up_spec (reserved_size i (bo_size bo) alignment (bo_flags bo)) _ Hpg) as [Hru Hrm].
  destruct (has (bo_flags bo) RADEON_FLAG_VM_PAD_1PAGE) eqn:E.
  - destruct (Hp eq_refl) as [Hm _]. rewrite (Hvp eq_refl) in Hr. apply Z.mod_divide in Hm as [q Hq]; [|lia].
    apply Z.mod_divide in Hrm as [q' Hq']; [|lia]. rewrite Hq, Hq' in *.
    assert (q < q') by nia. nia.
  - rewrite align64_pagesize by lia. apply round_up_least; [lia|done|lia].
Qed.

(** The tail of every successful creation. *)
Lemma wp_acquired_finish own p1 p3 k2 w ws b bo c n (spec : radv_amdgpu_winsys_bo -> Prop) (Q : unit -> proc K -> Prop) :
  inv own p1 -> p_winsys p1 !! w = Some ws -> own !! b = None -> b < p_next p1 ->
  acquired (p_k p1) k2 (ws_dev (ws_info ws)) (bo_va bo) (va_handle bo) n (bo_buf bo) (bo_handle bo) ->
  framed (set_k k2 p1) p3 -> k_ranges (p_k p3) = k_ranges k2 -> k_bos (p_k p3) = k_bos k2 -> grows k2 (p_k p3) ->
  span bo <= n -> mapped (p_k p3) (ws_dev (ws_info ws)) bo -> size_fits (bo_size bo) ->
  is_virtual bo = false -> emulate_sparse_residency bo = false -> use_global_list bo = false ->
  live_bytes c = u64 (live_bytes (p_churn p1) + counted_size b bo) ->
  (forall g, spec (with_use_global_list g bo)) ->
  (forall p', created own p1 w (ws_info ws) spec b p' -> Q tt p') ->
  wp (finish_bo w b (ws_info ws) bo) Q (set_churn c p3).
Proof.
  intros Hi Hw Ho Hb Hac Hf Er Eb Hg Hsp Hm Hs Hv He Hu Hc Hspec HQ.
  assert (p_bos p1 !! b = None) as Hb1.
  { apply eq_None_not_Some. rewrite <- (bk_dom _ _ (in_books _ _ Hi)), Ho. by intros [? ?]. }
  pose proof (fr_next _ _ Hf) as En. simpl in En.
  eapply (wp_finish own p1 _ w ws b bo c); try done.
  - destruct Hf as [? ? ? ? ? ? ? ?]. by split.
  - simpl. lia.
  - simpl. eapply held_new; try done. apply Hi.
  - intros p' g Hi' Hob Hb' Hg'. apply HQ. split; [done|]. split; [done|]. split; [done|]. eexists. split; [exact Hb'|done].
Qed.

(** A failed creation, from the state in which the structure was allocated. *)
Lemma failed_from own p p1 p' :
  framed p p1 -> inv own p1 -> framed p1 p' -> touched own (p_bos p1) (p_k p1) (p_k p') -> failed own p p'.
Proof. intros Hf Hi Hf' Ht. eapply failed_trans; [done|]. by apply failed_touched. Qed.

Lemma created_from own p p1 w i spec b p' :
  framed p p1 -> created own p1 w i spec b p' -> created own p w i spec b p'.
Proof.
  intros Hf (?&?&?&?). split; [done|]. split; [done|]. split; [|done].
  eapply only_bo_trans; [by apply framed_only|done].
Qed.

Lemma wp_create_fresh own p w ws size alignment domain flags priority replay_address
    (Q : VkResult * option Z -> proc K -> Prop) :
  inv own p -> p_winsys p !! w = Some ws -> create_ok (ws_info ws) size domain flags replay_address ->
  (forall res p', creation own p w (ws_info ws) (described (ws_info ws) size alignment domain flags priority) res p' ->
     Q res p') ->
  wp (bo_create_fresh w size alignment domain flags priority replay_address) Q p.
Proof.
  intros Hi Hw (Hs&Hrep&Hreq) HQ. unfold bo_create_fresh. apply wp_bind. eapply wp_get_ws; [done|]. apply wp_bind.
  set (i := ws_info ws) in *. destruct (reserved_bounds i size alignment flags Hs) as [Hres Hresb].
  eapply (wp_alloc_bo own); [done| |].
  { intros p1 Hf1 Hi1. apply wp_ret, HQ, creation_failed; [done|by split]. }
  intros p1 Hf1 Hi1 Ho Hlt. set (b := p_next p) in *. apply wp_bind, wp_massert; [done|].
  apply wp_bind, wp_kcall. intros k1 [[va vah]|] Hk1.
  2:{ apply range_alloc_fails in Hk1. apply wp_ret, HQ, creation_failed; [by destruct (_ =? 0)|].
      split; [by apply inv_silent|etrans; [exact Hf1|apply framed_k]]. }
  apply range_alloc_spec in Hk1 as (Hvap&_&_&Hpl&Hra); [|done]. fold (reserved_size i size alignment flags) in *.
  destruct (round_up_spec (reserved_size i size alignment flags) _ page_gt0) as [Hru Hrm].
  set (n := round_up (reserved_size i size alignment flags) getpagesize) in *.
  apply wp_bind, wp_massert; [done|]. set (dom := normalise_domain i domain) in *.
  apply wp_bind, wp_kcall. simpl. intros k2 [buf|] Hk2.
  2:{ apply bo_alloc_fails in Hk2 as (E1&E2&E3). wp_step. apply wp_ret, HQ, creation_failed; [done|].
      destruct (undo_range _ _ _ _ _ _ k2 Hra E1) as (Er&Eb&Hm). destruct Hra as (_&_&_&Ebr&Hmr).
      eapply failed_from; [exact Hf1|done|exact (framed_k _ p1)|].
      split; [exact Er|]. split; [simpl; congruence|]. apply keeps_same. simpl.
      intros m. by rewrite (Hm m), (E3 m), (Hmr m). }
  apply bo_alloc_spec in Hk2 as [h Hk2%acquired_new].
  apply wp_bind. eapply wp_deref; [by eapply acquired_export|]. apply wp_bind.
  set (no_cpu := has flags RADEON_FLAG_NO_CPU_ACCESS && has dom RADEON_DOMAIN_VRAM).
  set (bo := WinsysBo va size (wants_local i dom flags) no_cpu false (has flags RADEON_FLAG_GFX12_ALLOW_DCC) false false
               dom buf vah flags priority buf h 0 false alignment true).
  assert (acquired (p_k p1) k2 (ws_dev i) va vah n buf h) as Hac.
  { eapply acquired_range_buffer; try done; [apply Hi1|lia]. }
  destruct (framed_ws _ _ _ _ Hf1 Hw) as (ws1&Hw1&(Ei1&_)). fold i in Ei1.
  destruct (va_size_bounds size flags Hs) as [Hvs Hvsp]. pose proof Hpl as (Hva0&Hvan&_).
  apply (wp_map_new w ws1 bo n); [done|done|apply (ac_handle _ _ _ _ _ _ _ _ Hac)|done|done| |].
  { simpl. intros Hpad. rewrite (Hvsp Hpad) in Hres. lia. }
  simpl. intros r p3 Hf3 Hg3 Er3 Eb3 Hmap. apply wp_if; intros Hr.
  - do 2 wp_step. apply wp_ret, HQ, creation_failed; [done|].
    eapply failed_from; [exact Hf1|done| |].
    { eapply framed_trans; [exact (framed_k k2 p1)|]. eapply framed_trans; [exact Hf3|]. apply (framed_k _ p3). }
    eapply (proj1 (acquired_undo own _ _ _ _ _ _ _ _ _ _ (in_held _ _ Hi1) (bk_sizes _ _ (in_books _ _ Hi1)) Hac Er3 Eb3 Hg3)).
  - apply negb_false_iff, Z.eqb_eq in Hr. specialize (Hmap Hr). rewrite Ei1 in Hmap.
    apply wp_bind, wp_modify, wp_bind.
    rewrite <- Ei1 in Hac |- *.
    eapply (wp_acquired_finish own p1 p3 k2 w ws1 b bo _ n
              (described i size alignment domain flags priority)); try done.
    + exact (span_reserved (p_k p3) _ i alignment bo Hs Hmap).
    + by rewrite Ei1.
    + by simpl; rewrite (fr_churn _ _ Hf3).
    + intros p' Hc. rewrite Ei1 in Hc. apply wp_ret, HQ. by eapply created_from.
Qed.

End create.
