(* ===== verification/BoImport.v ===== *)
(** Imports, the choice between a parked and a new buffer, and the zero buffer of a winsys. *)

From stdpp Require Import gmap.
From S2P Require Import Prelude Pm4 BoModel BoLogic BoKernel BoInv BoVa BoBooks BoHeld BoDestroy BoFree BoAcquire BoCreate.

Section import.
Context {K : Type} `{!Drm K} `{!DrmView K} `{!DrmLaws K}.
Implicit Types (k : K) (p : proc K) (own : gmap Z (Z * winsys_info)).
#[local] Set Default Proof Using "All".

(** * One map of a whole buffer *)

Lemma wp_map_one w ws bo vfl (Q : Z -> proc K -> Prop) p :
  p_winsys p !! w = Some ws -> bo_handle bo <> 0 ->
  has (bo_flags bo) RADEON_FLAG_VM_PAD_1PAGE = false ->
  has vfl RADEON_FLAG_READ_ONLY = has (bo_flags bo) RADEON_FLAG_READ_ONLY ->
  (forall r p', framed p p' -> grows (p_k p) (p_k p') -> k_ranges (p_k p') = k_ranges (p_k p) ->
     k_bos (p_k p') = k_bos (p_k p) -> (r = 0 -> mapped (p_k p') (ws_dev (ws_info ws)) bo) -> Q r p') ->
  wp (radv_amdgpu_bo_va_op w (bo_handle bo) 0 (bo_size bo) (bo_va bo) vfl 0 AMDGPU_VA_OP_MAP) Q p.
Proof.
  intros Hw Hh Hpad Hro HQ. eapply wp_va_op; [done|done|]. intros fl pt r p1 Hf1 Hfl Hd1.
  pose proof (grows_done _ _ _ _ Hd1 eq_refl) as Hg1. destruct Hd1 as (Er1&Eb1&H1).
  unfold page_flags in Hfl. rewrite (proj2 (Z.eqb_neq _ _) Hh), Hro in Hfl.
  apply HQ; try done. intros ->. simpl in H1. destruct H1 as [[_ H1]|[? _]]; [|done].
  split; [|congruence]. exists fl. split; [|done]. apply H1. by left.
Qed.

(** A range of whole pages holds the span of a buffer without padding. *)
Lemma span_plain bo : has (bo_flags bo) RADEON_FLAG_VM_PAD_1PAGE = false -> size_fits (bo_size bo) ->
  span bo <= round_up (bo_size bo) getpagesize.
Proof. unfold size_fits, span. intros -> Hs. rewrite align64_pagesize by lia. lia. Qed.

(** * Imports *)

(** An imported buffer of [size] bytes. *)
Record imported_as (size priority : Z) (bo : radv_amdgpu_winsys_bo) : Prop := ImportedAs {
  im_size : bo_size bo = size;
  im_priority : bo_priority bo = priority;
  im_flags : bo_flags bo = 0;
  im_plain : is_virtual bo = false /\ imported bo = true /\ cpu_map bo = 0 /\ churn_counted bo = false
}.

(** From a reserved range and an acquired buffer to the result, for an import: the map, then the tail
    or the two releases, the range first. *)
Lemma wp_import_tail own p p1 k2 w ws b bo n vfl err (Q : VkResult * option Z -> proc K -> Prop) :
  inv own p1 -> framed p p1 -> p_winsys p1 !! w = Some ws -> own !! b = None -> b < p_next p1 ->
  acquired (p_k p1) k2 (ws_dev (ws_info ws)) (bo_va bo) (va_handle bo) n (bo_buf bo) (bo_handle bo) ->
  n = round_up (bo_size bo) getpagesize -> size_fits (bo_size bo) ->
  imported_as (bo_size bo) (bo_priority bo) bo -> emulate_sparse_residency bo = false -> use_global_list bo = false ->
  has vfl RADEON_FLAG_READ_ONLY = false -> err <> VK_SUCCESS ->
  (forall res p', creation own p w (ws_info ws) (imported_as (bo_size bo) (bo_priority bo)) res p' -> Q res p') ->
  wp (let! r := radv_amdgpu_bo_va_op w (bo_handle bo) 0 (bo_size bo) (bo_va bo) vfl 0 AMDGPU_VA_OP_MAP ;;
      if negb (r =? 0) then
        let! _ := kdo (drm_va_range_free (va_handle bo)) ;;
        let! _ := kdo (drm_bo_free (ws_dev (ws_info ws)) (bo_buf bo)) ;;
        mret (err, None)
      else
        let! _ := finish_bo w b (ws_info ws) bo ;;
        mret (VK_SUCCESS, Some b)) Q (set_k k2 p1).
Proof.
  intros Hi Hf Hw Ho Hb Hac -> Hs Him He Hu Hvfl Herr HQ. pose proof Him as [_ _ Hfl (Hv&_&_&Hch)].
  apply wp_bind. eapply wp_map_one; [done|apply (ac_handle _ _ _ _ _ _ _ _ Hac)|by rewrite Hfl|by rewrite Hfl|].
  intros r p3 Hf3 Hg3 Er3 Eb3 Hmap. simpl in Hg3, Er3, Eb3. apply wp_if; intros Hr.
  - do 2 wp_step. apply wp_ret, HQ, creation_failed; [done|]. eapply failed_from; [exact Hf|done| |].
    { eapply framed_trans; [exact (framed_k k2 p1)|]. eapply framed_trans; [exact Hf3|]. apply (framed_k _ p3). }
    eapply (proj2 (acquired_undo own _ _ _ _ _ _ _ _ _ _ (in_held _ _ Hi) (bk_sizes _ _ (in_books _ _ Hi)) Hac Er3 Eb3 Hg3)).
  - apply negb_false_iff, Z.eqb_eq in Hr. specialize (Hmap Hr). apply wp_bind.
    replace p3 with (set_churn (p_churn p1) p3).
    2:{ pose proof (fr_churn _ _ Hf3) as E. simpl in E. rewrite <- E. by destruct p3. }
    eapply (wp_acquired_finish own p1 p3 k2 w ws b bo _ _ (imported_as (bo_size bo) (bo_priority bo))); try done.
    + by apply span_plain; [rewrite Hfl|].
    + unfold counted_size. rewrite Hch, Z.add_0_r. symmetry. by eapply books_churn_wrapped, Hi.
    + intros g. destruct Him. by split.
    + intros p' Hc. apply wp_ret, HQ. by eapply created_from.
Qed.

Lemma wp_from_ptr own p w ws pointer size priority (Q : VkResult * option Z -> proc K -> Prop) :
  inv own p -> p_winsys p !! w = Some ws -> size_fits size ->
  (forall res p', creation own p w (ws_info ws) (imported_as size priority) res p' -> Q res p') ->
  wp (radv_amdgpu_winsys_bo_from_ptr w pointer size priority) Q p.
Proof.
  intros Hi Hw Hs HQ. unfold radv_amdgpu_winsys_bo_from_ptr. apply wp_bind. eapply wp_get_ws; [done|]. apply wp_bind.
  eapply (wp_alloc_bo own); [done| |].
  { intros p1 Hf1 Hi1. apply wp_ret, HQ, creation_failed; [done|by split]. }
  intros p1 Hf1 Hi1 Ho Hlt. destruct (framed_ws _ _ _ _ Hf1 Hw) as (ws1&Hw1&(Ei1&_)). rewrite <- Ei1 in *.
  set (i := ws_info ws1) in *. apply wp_bind, wp_kcall. intros k1 [buf|] Hk1.
  2:{ apply user_mem_fails in Hk1. apply wp_ret, HQ, creation_failed; [done|].
      split; [by apply inv_silent|etrans; [exact Hf1|apply framed_k]]. }
  apply user_mem_spec in Hk1 as [h Hk1%acquired_new]. pose proof Hk1 as (Eb1&_&Hc1&Er1&Hm1).
  apply wp_bind, wp_kcall. simpl. intros k2 [[va vah]|] Hk2.
  2:{ apply range_alloc_fails in Hk2 as (E1&E2&E3). wp_step. apply wp_ret, HQ, creation_failed; [done|].
      destruct (undo_buffer own (p_bos p1) (p_k p1) k2 (ws_dev i) buf h (in_held _ _ Hi1)
                  (bk_sizes _ _ (in_books _ _ Hi1))) as (Eb2&Er2&Hk2); [congruence|done| |].
      { intros m Hm. by apply E3, Hm1. }
      eapply failed_from; [exact Hf1|done|exact (framed_k _ p1)|]. split; [simpl; congruence|]. by split. }
  unfold size_fits in Hs. apply range_alloc_spec in Hk2 as (Hvap&_&_&Hpl&Hra); [|lia].
  destruct (round_up_spec size _ page_gt0) as [Hru Hrm].
  apply wp_bind. eapply wp_deref.
  { eapply export_spec. simpl. destruct Hra as (_&_&_&->&_). rewrite Eb1. apply lookup_insert_eq. }
  apply (wp_import_tail own p p1 k2 w ws1 (p_next p)
    (WinsysBo va size false false false false false true RADEON_DOMAIN_GTT buf vah 0 priority buf h 0 false 0 false)
    (round_up size getpagesize)); try done.
  eapply acquired_buffer_range; try done; [apply Hi1|lia].
Qed.

Lemma wp_from_fd own p w ws fd priority (Q : VkResult * option Z -> proc K -> Prop) :
  inv own p -> p_winsys p !! w = Some ws ->
  (forall size res p', creation own p w (ws_info ws) (imported_as size priority) res p' -> Q res p') ->
  wp (radv_amdgpu_winsys_bo_from_fd w fd priority) Q p.
Proof.
  intros Hi Hw HQ. unfold radv_amdgpu_winsys_bo_from_fd. apply wp_bind. eapply wp_get_ws; [done|]. apply wp_bind.
  eapply (wp_alloc_bo own); [done| |].
  { intros p1 Hf1 Hi1. apply wp_ret, (HQ 0), creation_failed; [done|by split]. }
  intros p1 Hf1 Hi1 Ho Hlt. destruct (framed_ws _ _ _ _ Hf1 Hw) as (ws1&Hw1&(Ei1&_)). rewrite <- Ei1 in *.
  set (i := ws_info ws1) in *. apply wp_bind, wp_kcall. intros k1 [[buf size]|] Hk1.
  2:{ apply import_fails in Hk1. apply wp_ret, (HQ 0), creation_failed; [done|].
      split; [by apply inv_silent|etrans; [exact Hf1|apply framed_k]]. }
  apply import_spec in Hk1 as (Hs&h&Hk1).
  assert (buffer_acquired (ws_dev i) buf h (p_k p1) k1) as Hac1.
  { destruct Hk1; [by apply acquired_new|apply acquired_shared; [apply Hi1|done]]. }
  pose proof Hac1 as (Eb1&_&Hc1&Er1&Hm1). simpl.
  assert (forall r, r <> VK_SUCCESS -> forall k2, same_view k1 k2 ->
    Q (r, None) (set_k (drm_bo_free (ws_dev i) buf k2) p1)) as Hfail.
  { intros r Hr k2 (E1&E2&E3). apply (HQ 0), creation_failed; [done|].
    destruct (undo_buffer own (p_bos p1) (p_k p1) k2 (ws_dev i) buf h (in_held _ _ Hi1)
                (bk_sizes _ _ (in_books _ _ Hi1))) as (Eb2&Er2&Hk2); [congruence|done| |].
    { intros m Hm. by apply E3, Hm1. }
    eapply failed_from; [exact Hf1|done|exact (framed_k _ p1)|]. split; [simpl; congruence|]. by split. }
  apply wp_bind. eapply wp_deref; [by eapply acquired_export|]. wp_step.
  destruct (drm_bo_query_info _ _ _) as [info|]; [|wp_step; apply wp_ret, Hfail; [done|apply same_view_refl]].
  apply wp_bind, wp_kcall. simpl. intros k2 [[va vah]|] Hk2.
  2:{ apply range_alloc_fails in Hk2. wp_step. apply wp_ret. by apply Hfail. }
  apply range_alloc_spec in Hk2 as (Hvap&_&_&Hpl&Hra); [|lia].
  destruct (round_up_spec size _ page_gt0) as [Hru Hrm].
  apply (wp_import_tail own p p1 k2 w ws1 (p_next p)
    (WinsysBo va size (pci_id i =? 0x73a0) (has (info_heap info) AMDGPU_GEM_DOMAIN_VRAM
       && has (info_flags info) AMDGPU_GEM_CREATE_NO_CPU_ACCESS) false false false true
       (import_domain info) buf vah 0 priority buf h 0 false 0 false)
    (round_up size getpagesize)); try done.
  - eapply acquired_buffer_range; try done; [apply Hi1|lia].
  - by destruct (pci_id i =? 0x73a0).
  - apply HQ.
Qed.

Lemma wp_get_flags_from_fd own p w ws fd (Q : option (Z * Z) -> proc K -> Prop) :
  inv own p -> p_winsys p !! w = Some ws ->
  (forall r p', inv own p' -> framed p p' -> Q r p') ->
  wp (radv_amdgpu_bo_get_flags_from_fd w fd) Q p.
Proof.
  intros Hi Hw HQ. unfold radv_amdgpu_bo_get_flags_from_fd. apply wp_bind. eapply wp_get_ws; [done|].
  set (i := ws_info ws). apply wp_bind, wp_kcall. intros k1 [[buf size]|] Hk1.
  2:{ apply import_fails in Hk1. apply wp_ret, HQ; [by apply inv_silent|apply framed_k]. }
  apply import_spec in Hk1 as (Hs&h&Hk1).
  assert (buffer_acquired (ws_dev i) buf h (p_k p) k1) as Hac1.
  { destruct Hk1; [by apply acquired_new|apply acquired_shared; [apply Hi|done]]. }
  pose proof Hac1 as (Eb1&_&Hc1&Er1&Hm1). apply wp_bind. eapply wp_deref; [by eapply acquired_export|]. do 2 wp_step.
  destruct (undo_buffer own (p_bos p) (p_k p) k1 (ws_dev i) buf h (in_held _ _ Hi)
              (bk_sizes _ _ (in_books _ _ Hi))) as (Eb2&Er2&Hk2); [done|done| |].
  { intros m Hm. by apply Hm1. }
  destruct (failed_touched own p (set_k (drm_bo_free (ws_dev i) buf k1) p)) as [Hi' Hf'];
    [done|apply framed_k|by split; [simpl; congruence|split]|].
  destruct (drm_bo_query_info _ _ _); apply wp_ret; by apply HQ.
Qed.

(** * A parked buffer or a new one *)

(** [b] was parked by the same winsys and is handed out again. *)
Definition reused own p w i (spec : radv_amdgpu_winsys_bo -> Prop) (b : Z) p' : Prop :=
  own !! b = Some (w, i) /\ inv own p' /\ (b ∉ e_bo <$> p_cache p')
  /\ (exists e, e_bo e = b /\ p_cache p ≡ₚ e :: p_cache p')
  /\ p_dying p' = p_dying p /\ p_next p <= p_next p'
  /\ (forall b', b' <> b -> p_bos p' !! b' = p_bos p !! b')
  /\ (forall w', option_Forall2 ws_same (p_winsys p !! w') (p_winsys p' !! w'))
  /\ exists bo0 bo, p_bos p !! b = Some bo0 /\ p_bos p' !! b = Some bo /\ bo = with_priority (bo_priority bo) bo0
     /\ radv_xclipse_ibcache_cacheable bo = true /\ spec bo
     /\ (debug_all_bos i = true \/ use_global_list bo = false).

Definition provision own p w i spec (res : VkResult * option Z) p' : Prop :=
  creation own p w i spec res p' \/ exists b, res = (VK_SUCCESS, Some b) /\ reused own p w i spec b p'.

Lemma creation_from own p p1 w i spec res p' :
  framed p p1 -> creation own p1 w i spec res p' -> creation own p w i spec res p'.
Proof.
  intros Hf. destruct res as [[] [b|]]; simpl; try done; try (by apply created_from); by apply failed_trans.
Qed.

Lemma wp_reuse own p w ws size alignment domain flags (Q : option Z -> proc K -> Prop) :
  inv own p -> p_winsys p !! w = Some ws -> Q None p ->
  (forall b bo p', p_bos p !! b = Some bo -> own !! b = Some (w, ws_info ws) -> inv own p' ->
     (b ∉ e_bo <$> p_cache p') -> (exists e, e_bo e = b /\ p_cache p ≡ₚ e :: p_cache p') ->
     p_dying p' = p_dying p -> p_next p' = p_next p -> p_bos p' = p_bos p -> p_winsys p' = p_winsys p ->
     radv_xclipse_ibcache_cacheable bo = true -> debug_all_bos (ws_info ws) = true \/ use_global_list bo = false ->
     described (ws_info ws) size alignment domain flags (bo_priority bo) bo -> Q (Some b) p') ->
  wp (radv_xclipse_ibcache_reuse w size alignment domain flags) Q p.
Proof.
  intros Hi Hw Hn HQ. unfold radv_xclipse_ibcache_reuse. apply wp_if; intros _; [done|].
  apply wp_bind. eapply wp_get_ws; [done|]. apply (wp_cache_take own); [done|done|].
  intros j e Hj Hm (i&bo&Ho&Hb&He&Hc&Hcpu&Hul) Hi' Hni. unfold entry_matches in Hm.
  apply andb_true_iff in Hm as [Hm Hm5]. apply andb_true_iff in Hm as [Hm Hm4].
  apply andb_true_iff in Hm as [Hm Hm3]. apply andb_true_iff in Hm as [Hm1 Hm2].
  apply Z.eqb_eq in Hm1, Hm2, Hm3, Hm4, Hm5. rewrite Hm1 in Ho.
  assert (i = ws_info ws) as ->.
  { destruct (inv_owned _ _ _ _ _ Hi Ho) as (ws'&_&Hw'&<-&_). rewrite Hw in Hw'. by injection Hw' as <-. }
  eapply (HQ (e_bo e) bo); try done.
  - exists e. split; [done|]. by apply swap_remove_Permutation.
  - rewrite He in Hm2, Hm3, Hm4, Hm5. simpl in *. split; try done.
    unfold radv_xclipse_ibcache_cacheable in Hc. by destruct (is_virtual bo), (imported bo).
Qed.

Lemma wp_create_plain own p w ws size alignment domain flags priority replay_address
    (Q : VkResult * option Z -> proc K -> Prop) :
  inv own p -> p_winsys p !! w = Some ws -> create_ok (ws_info ws) size domain flags replay_address ->
  (forall res p', provision own p w (ws_info ws) (described (ws_info ws) size alignment domain flags priority) res p' ->
     Q res p') ->
  wp (bo_create_plain w size alignment domain flags priority replay_address) Q p.
Proof.
  intros Hi Hw Hok HQ. unfold bo_create_plain. apply wp_bind. eapply wp_get_ws; [done|]. apply wp_bind.
  apply (wp_memguard own p w); [done|done|]. intros reject p1 Hf1 Hi1.
  apply wp_if; intros _; [by apply wp_ret, HQ; left|].
  destruct (framed_ws _ _ _ _ Hf1 Hw) as (ws1&Hw1&(Ei1&_)). rewrite <- Ei1 in *.
  assert (wp (bo_create_fresh w size alignment domain flags priority replay_address) Q p1) as Hfresh.
  { eapply (wp_create_fresh own p1 w ws1); try done. intros res p' Hc. apply HQ. left. by eapply creation_from. }
  apply wp_bind, wp_if; intros _; [|by apply wp_ret].
  apply (wp_reuse own p1 w ws1); [done|done|done|].
  intros b bo p2 Hb Ho Hi2 Hni (e&He&Hp) Ed En Eb Ew Hca Hul Hd. rewrite <- Eb in Hb.
  apply wp_bind. eapply wp_get_bo; [done|]. wp_step. apply wp_ret, HQ. right. exists b. split; [done|].
  split; [done|]. pose proof (fr_dying _ _ Hf1). pose proof (fr_next _ _ Hf1).
  conj_split; simpl.
  - apply (inv_put own p2 b bo); auto with radv.
  - done.
  - exists e. by rewrite <- (fr_cache _ _ Hf1).
  - congruence.
  - lia.
  - intros b' Hne. rewrite lookup_insert_ne by done. by rewrite Eb, (fr_bos _ _ Hf1).
  - rewrite Ew. apply (fr_winsys _ _ Hf1).
  - exists bo, (with_priority priority bo). split; [by rewrite <- (fr_bos _ _ Hf1), <- Eb|].
    split; [apply lookup_insert_eq|]. split; [done|]. split; [done|]. split; [|done]. destruct Hd. by split.
Qed.

End import.
