(* ===== verification/BoVirtual.v ===== *)
(** Sparse buffers: their creation (with the zero buffer of the workaround for partially resident
    buffers), their bindings, and that neither touches any other buffer. *)

From stdpp Require Import gmap.
From S2P Require Import Prelude Pm4 BoModel BoLogic BoKernel BoInv BoVa BoBooks BoHeld BoDestroy BoFree BoAcquire BoCreate BoImport.

Section virtual.
Context {K : Type} `{!Drm K} `{!DrmView K} `{!DrmLaws K}.
Implicit Types (k : K) (p : proc K) (own : gmap Z (Z * winsys_info)).
#[local] Set Default Proof Using "All".

(** New buffers have come; those that were there have not changed. *)
Record extends own p own' p' : Prop := Extends {
  ex_own : own ⊆ own';
  ex_cache : p_cache p' = p_cache p;
  ex_dying : p_dying p' = p_dying p;
  ex_next : p_next p <= p_next p';
  ex_bos : forall b, is_Some (own !! b) -> p_bos p' !! b = p_bos p !! b;
  ex_winsys : forall w ws, p_winsys p !! w = Some ws ->
    exists ws', p_winsys p' !! w = Some ws' /\ ws_info ws' = ws_info ws /\ ib_cache_bos ws' = ib_cache_bos ws
      /\ (forall b, is_Some (own !! b) -> b ∈ global_bos ws' <-> b ∈ global_bos ws)
      /\ (forall b, null_prt_bo ws = Some b -> null_prt_bo ws' = Some b)
}.

Lemma extends_refl own p : extends own p own p.
Proof. split; try done. intros w ws ?. by exists ws. Qed.

Lemma extends_trans own p own1 p1 own2 p2 : extends own p own1 p1 -> extends own1 p1 own2 p2 -> extends own p own2 p2.
Proof.
  intros [Ho1 ? ? ? Hb1 Hw1] [Ho2 ? ? ? Hb2 Hw2].
  assert (forall b, is_Some (own !! b) -> is_Some (own1 !! b)) as Hsub.
  { intros b [x Hx]. exists x. by eapply lookup_weaken. }
  split; [by etrans|congruence|congruence|lia| |].
  - intros b Hb. rewrite Hb2 by auto. auto.
  - intros w ws Hw. destruct (Hw1 w ws Hw) as (ws1&H1&?&?&Hg1&Hn1). destruct (Hw2 w ws1 H1) as (ws2&H2&?&?&Hg2&Hn2).
    exists ws2. conj_split; [done|congruence|congruence| |auto].
    intros b Hb. rewrite Hg2 by auto. auto.
Qed.

Lemma extends_framed own p p' : framed p p' -> extends own p own p'.
Proof.
  intros Hf. pose proof Hf as [_ Eb _ Ec _ Ed _ En]. split; try done.
  - intros b _. by rewrite Eb.
  - intros w ws Hw. destruct (framed_ws _ _ _ _ Hf Hw) as (ws'&?&(?&E&E'&?)). exists ws'.
    conj_split; try done; [intros b _; by rewrite E|by rewrite E'].
Qed.

Lemma extends_only own p w i b p' : own !! b = None -> only_bo b p p' -> extends own p (<[b := (w, i)]> own) p'.
Proof.
  intros Ho [? ? ? Hb Hw]. assert (forall b', is_Some (own !! b') -> b' <> b) as Hne by (intros b' [? ?] ->; congruence).
  split; try done.
  - by apply insert_subseteq.
  - intros b' Hb'. apply Hb. auto.
  - intros w' ws Hw'. destruct (Hw w' ws Hw') as (ws'&?&?&En&?&Hg). exists ws'. conj_split; try done.
    + intros b' Hb'. apply Hg. auto.
    + by rewrite En.
Qed.

Lemma keeps_grows own bos k k' : grows k k' -> keeps own bos k k'.
Proof.
  intros [_ _ H] b w i bo _ _ _ [(fl&?&?) Hp]. split.
  - exists fl. auto.
  - intros Hf. destruct (Hp Hf) as (?&fl'&?&?). split; [done|]. exists fl'. auto.
Qed.

(** * The zero buffer *)

(** The buffers that have come belong to [w]: the one asked for, or the zero buffer. *)
Definition newcomers own own' p w i (ob : option Z) : Prop :=
  forall b x, own !! b = None -> own' !! b = Some x ->
    x = (w, i) /\ (ob = Some b \/ exists ws, p_winsys p !! w = Some ws /\ null_prt_bo ws = Some b).

Lemma newcomers_refl own p w i ob : newcomers own own p w i ob.
Proof. intros b x. congruence. Qed.

Lemma newcomers_framed own own' p p' w i ob :
  framed p p' -> newcomers own own' p w i ob -> newcomers own own' p' w i ob.
Proof.
  intros Hf Hn b x Ho Ho'. destruct (Hn b x Ho Ho') as (E&[?|(ws&Hw&Hb)]); (split; [done|]); [by left|right].
  destruct (framed_ws _ _ _ _ Hf Hw) as (ws'&?&(_&_&En&_)). exists ws'. split; [done|congruence].
Qed.

Lemma newcomers_winsys own own' p p' w i ob :
  p_winsys p' = p_winsys p -> newcomers own own' p w i ob -> newcomers own own' p' w i ob.
Proof. intros E Hn. unfold newcomers. by rewrite E. Qed.

(** The buffer asked for has gone again. *)
Lemma newcomers_delete own own' p w i b : newcomers own own' p w i (Some b) -> newcomers own (delete b own') p w i None.
Proof.
  intros Hn b' x Ho [Hne Ho']%lookup_delete_Some. destruct (Hn b' x Ho Ho') as (E&[[=]|?]); [done|].
  split; [done|by right].
Qed.

(** It came before the zero buffer. *)
Lemma newcomers_insert own own' p w i b :
  newcomers (<[b := (w, i)]> own) own' p w i None -> own' !! b = Some (w, i) -> newcomers own own' p w i (Some b).
Proof.
  intros Hn Hb b' x Ho Ho'. destruct (decide (b' = b)) as [->|Hne]; [split; [congruence|by left]|].
  destruct (Hn b' x) as (E&[[=]|?]); [by rewrite lookup_insert_ne|done|]. split; [done|by right].
Qed.

(** The winsys has its zero buffer. *)
Definition null_ready own p w : Prop :=
  exists ws nb, p_winsys p !! w = Some ws /\ null_prt_bo ws = Some nb.

Lemma wp_init_null own p w ws (Q : VkResult -> proc K -> Prop) :
  inv own p -> p_winsys p !! w = Some ws -> has_smem_with_null_prt_bug (ws_info ws) = true ->
  (forall r own' p', inv own' p' -> extends own p own' p' -> newcomers own own' p' w (ws_info ws) None ->
     (r = VK_SUCCESS -> null_ready own' p' w) -> Q r p') ->
  wp (radv_amdgpu_init_null_prt_bo w) Q p.
Proof.
  intros Hi Hw Hbug HQ. unfold radv_amdgpu_init_null_prt_bo. apply wp_bind. eapply wp_get_ws; [done|].
  destruct (null_prt_bo ws) as [nb|] eqn:En.
  { apply wp_ret. apply (HQ _ own); [done|apply extends_refl|apply newcomers_refl|]. intros _. by exists ws, nb. }
  apply wp_bind. apply (wp_create_plain own p w ws); [done|done| |].
  { split; [done|]. by split. }
  intros [r ob] p1 [Hc|(b&_&Hr)].
  2:{ (* the zero buffer is not of the cacheable kind *)
      destruct Hr as (_&_&_&_&_&_&_&_&bo0&bo&_&_&_&Hca&Hd&_). unfold radv_xclipse_ibcache_cacheable in Hca.
      rewrite (de_flags _ _ _ _ _ _ _ Hd) in Hca. by destruct (is_virtual bo || imported bo). }
  assert (r <> VK_SUCCESS -> failed own p p1 -> wp (mret r) Q p1) as Hfail.
  { intros Hr [Hi1 Hf1]. apply wp_ret, (HQ _ own); [done|by apply extends_framed|apply newcomers_refl|done]. }
  destruct r; simpl in Hc; (destruct ob as [b|]; [try done|try done; by apply Hfail]).
  destruct Hc as (Ho&Hi1&Hob&bo&Hb&[Ds _ Df _ _ (Dv&_&_)]&Hlst).
  destruct (ob_winsys _ _ _ Hob w ws Hw) as (ws1&Hw1&Ei1&En1&Eb1&Eg1).
  apply wp_bind. eapply wp_get_ws; [done|]. wp_step. apply wp_ret.
  set (ws2 := Winsys _ _ _ _ _ _). set (own' := <[b := (w, ws_info ws)]> own) in *.
  apply (HQ _ own').
  - destruct Hi1 as [Hbk Hh Hin]. split; [|done|].
    + apply (books_null own' p1 w ws1 b bo); try done; rewrite Ei1; [apply lookup_insert_eq|done|done].
    + simpl. intros w' ws' [[<- <-]|[_ H']]%lookup_insert_Some; [by apply (Hin w ws1)|by eapply Hin].
  - eapply extends_trans; [by apply (extends_only own p w (ws_info ws) b)|]. split; try done.
    simpl. intros w' ws' H'. destruct (decide (w' = w)) as [->|]; [|exists ws'; by rewrite lookup_insert_ne].
    exists ws2. rewrite lookup_insert_eq. rewrite Hw1 in H'. injection H' as <-. conj_split; try done.
    by rewrite En1, En.
  - intros b' x Hb' [[<- <-]|[_ ?]]%lookup_insert_Some; [|congruence]. split; [done|]. right.
    exists ws2. split; [apply lookup_insert_eq|done].
  - intros _. exists ws2, b. simpl. by rewrite lookup_insert_eq.
Qed.

(** * The page table of a sparse buffer *)

(** Every mapping at the address is what [P] says, and there is one. *)
Definition resolves (l : list mapping) (dev a : Z) (P : Z * Z * Z -> Prop) : Prop :=
  (exists t, maps_at l dev a t) /\ forall t, maps_at l dev a t -> P t.

Lemma resolves_iff l l' dev a P :
  (forall t, maps_at l' dev a t <-> maps_at l dev a t) -> resolves l dev a P -> resolves l' dev a P.
Proof. intros H [(t&Ht) HP]. split; [exists t; by apply H|]. intros t' Ht'. by apply HP, H. Qed.

(** [n] bytes at [a] are mapped as asked; the rest is as before. *)
Definition exactly (a : va_op_args) (k k' : K) : Prop :=
  (forall x t, vo_addr a <= x < vo_addr a + vo_size a ->
     maps_at (k_maps k') (vo_dev a) x t <-> t = (vo_handle a, vo_offset a + (x - vo_addr a), vo_flags a))
  /\ forall dev x t, ~ (dev = vo_dev a /\ vo_addr a <= x < vo_addr a + vo_size a) ->
     maps_at (k_maps k') dev x t <-> maps_at (k_maps k) dev x t.

Definition mapping_op (ops : amdgpu_va_op) : Prop := ops = AMDGPU_VA_OP_MAP \/ ops = AMDGPU_VA_OP_REPLACE.

Lemma done_exactly a k k' : va_done a 0 k k' -> mapping_op (vo_ops a) -> exactly a k k'.
Proof.
  intros (_&_&H) Hop. destruct Hop as [E|E]; rewrite E in H.
  - destruct H as [[Hno H]|[? _]]; [|done]. unfold overlaps in Hno. simpl in Hno. split.
    + intros x t Hx. split.
      * intros (m&Hm&Hd&Hr&->). apply H in Hm as [->|Hm]; [done|]. destruct (Hno m Hm). split; [done|lia].
      * intros ->. exists (va_mapping a). split; [apply H; by left|]. done.
    + intros dev x t Hx. split.
      * intros (m&Hm&Hd&Hr&->). apply H in Hm as [->|Hm]; [by destruct Hx|]. by exists m.
      * intros (m&Hm&?). exists m. split; [apply H; by right|done].
  - destruct H as [[_ Hout] Hin]. split; [by apply Hin|]. intros dev x t Hx. apply Hout. done.
Qed.

Lemma exactly_in a k k' x (P : Z * Z * Z -> Prop) :
  exactly a k k' -> vo_addr a <= x < vo_addr a + vo_size a ->
  P (vo_handle a, vo_offset a + (x - vo_addr a), vo_flags a) -> resolves (k_maps k') (vo_dev a) x P.
Proof.
  intros [H _] Hx HP. split; [eexists; by apply H|]. intros t Ht. apply H in Ht as ->; done.
Qed.

Lemma exactly_out a k k' dev x P :
  exactly a k k' -> ~ (dev = vo_dev a /\ vo_addr a <= x < vo_addr a + vo_size a) ->
  resolves (k_maps k) dev x P -> resolves (k_maps k') dev x P.
Proof. intros [_ H] Hx. apply resolves_iff. intros t. by apply H. Qed.

(** ** The loop over the low addresses *)

(** [P off] holds after [off] bytes, [F] after a failure. *)
Lemma wp_chunks (P : Z -> proc K -> Prop) (F : Z -> proc K -> Prop) w dev nh ns base total ops :
  0 < ns ->
  (forall off p, 0 <= off < total -> P off p -> 
     exists ws, p_winsys p !! w = Some ws /\ ws_dev (ws_info ws) = dev) ->
  (forall off p r p' fl pt, 0 <= off < total -> off mod ns = 0 -> P off p -> framed p p' -> page_flags nh 0 0 fl ->
     va_done (VaOp dev nh 0 (align64 (Z.min (total - off) ns) getpagesize) (u64 (base + off)) fl ops pt) r
       (p_k p) (p_k p') ->
     (r = 0 -> P (off + Z.min (total - off) ns) p') /\ (r <> 0 -> F r p')) ->
  forall fuel off p (Q : Z -> proc K -> Prop), 0 <= off <= total -> (off mod ns = 0 \/ off = total) ->
  total - off <= Z.of_nat fuel * ns -> P off p ->
  (forall p', P total p' -> Q 0 p') -> (forall r p', r <> 0 -> F r p' -> Q r p') ->
  wp (bind_low_chunks fuel w nh ns base off (total - off) ops) Q p.
Proof.
  intros Hns Hws Hstep fuel. induction fuel as [|fuel IH]; intros off p Q Hoff Hmod Hfuel HP HQ HF.
  { simpl. apply wp_ret. replace total with off by lia. assert (off = total) as -> by lia. by apply HQ. }
  simpl. destruct (Z.ltb_spec 0 (total - off)) as [Hlt|Hge].
  2:{ apply wp_ret. assert (off = total) as -> by lia. by apply HQ. }
  destruct Hmod as [Hmod|]; [|lia].
  destruct (Hws off p ltac:(lia) HP) as (ws&Hw&<-).
  apply wp_bind. eapply wp_va_op; [done|done|]. intros fl pt r p1 Hf Hfl Hd.
  destruct (Hstep off p r p1 fl pt ltac:(lia) Hmod HP Hf Hfl Hd) as [H0 H1].
  apply wp_if; intros Hr.
  - apply wp_ret. apply negb_true_iff, Z.eqb_neq in Hr. by apply HF; [|apply H1].
  - apply negb_false_iff, Z.eqb_eq in Hr. specialize (H0 Hr).
    replace (total - off - Z.min (total - off) ns) with (total - (off + Z.min (total - off) ns)) by lia.
    apply IH; try done; [lia| |].
    + destruct (Z.min_spec (total - off) ns) as [[? ->]|[? ->]]; [right; lia|left].
      by rewrite <- Z.add_mod_idemp_r, Z_mod_same_full, Z.add_0_r by lia.
    + destruct (Z.min_spec (total - off) ns) as [[? ->]|[? ->]]; lia.
Qed.

(** ** The zero buffer over a range of low addresses *)

Definition NULL_SIZE : Z := 8 * 1024 * 1024.

Definition null_target (nh : Z) (t : Z * Z * Z) : Prop := t.1.1 = nh /\ 0 <= t.1.2 < NULL_SIZE /\ perms false t.2.

Lemma page_multiple n : 0 <= n < 2 ^ 60 -> n mod getpagesize (K := K) = 0 -> align64 n (getpagesize (K := K)) = n.
Proof. intros Hn Hm. rewrite align64_pagesize by done. apply round_up_id; [apply page_gt0|done]. Qed.

Lemma null_pages : NULL_SIZE mod getpagesize (K := K) = 0.
Proof. destruct page_cases as (n&Hn&->). change NULL_SIZE with (2 ^ 23). apply pow2_mod_pow2. lia. Qed.

(** The first [off] bytes from [base] read the zero buffer [nh]; the rest is as before. *)
Definition nulled (dev nh base off : Z) (k k' : K) : Prop :=
  (forall x, 0 <= x < off -> resolves (k_maps k') dev (base + x) (null_target nh))
  /\ forall dev' a t, ~ (dev' = dev /\ base <= a < base + off) ->
       maps_at (k_maps k') dev' a t <-> maps_at (k_maps k) dev' a t.

Lemma nulled_step dev nh base off c fl ops pt k k1 k2 :
  nh <> 0 -> mapping_op ops -> page_flags nh 0 0 fl -> 0 <= off -> 0 < c <= NULL_SIZE ->
  nulled dev nh base off k k1 -> va_done (VaOp dev nh 0 c (base + off) fl ops pt) 0 k1 k2 ->
  nulled dev nh base (off + c) k k2.
Proof.
  intros Hnh Hop Hfl Hoff Hc [Hin Hout] Hd. pose proof (done_exactly _ _ _ Hd Hop) as He.
  unfold page_flags in Hfl. rewrite (proj2 (Z.eqb_neq _ _) Hnh) in Hfl. split.
  - intros x Hx. destruct (Z.lt_ge_cases x off) as [Hlt|Hge].
    + eapply exactly_out; [exact He| |by apply Hin; lia]. simpl. lia.
    + eapply (exactly_in _ _ _ _ _ He); simpl; [lia|]. split; [done|]. simpl. split; [lia|done].
  - intros dev' a t Hx. destruct He as [_ He]. rewrite He by (simpl; lia). apply Hout. lia.
Qed.

Lemma wp_bind_null own p w ws nb bo boff total ops (S : K -> K -> Prop) (Q : Z -> proc K -> Prop) :
  inv own p -> p_winsys p !! w = Some ws -> null_prt_bo ws = Some nb -> p_dying p <> Some w ->
  let i := ws_info ws in let base := radv_amdgpu_virtual_bo_get_low_addr i bo + boff in
  mapping_op ops -> boff mod 4096 = 0 -> 0 < total < 2 ^ 49 -> total mod getpagesize (K := K) = 0 ->
  0 <= base -> base + total <= W64 -> S (p_k p) (p_k p) ->
  (forall nh k k' a n fl r pt, S (p_k p) k -> nh <> 0 -> base <= a -> 0 < n -> a + n <= base + total ->
     va_done (VaOp (ws_dev i) nh 0 n a fl ops pt) r k k' -> S (p_k p) k') ->
  (forall nh r p', framed p p' -> S (p_k p) (p_k p') -> nh <> 0 ->
     (exists nbo, p_bos p !! nb = Some nbo /\ bo_handle nbo = nh) ->
     (r = 0 -> nulled (ws_dev i) nh base total (p_k p) (p_k p')) -> Q r p') ->
  wp (radv_amdgpu_virtual_bo_bind_low_null_prt w bo boff total ops) Q p.
Proof.
  intros Hi Hw En Hdy i base Hop Hboff Htot Htp Hb0 Hb1 HS0 HS HQ.
  destruct (wo_null _ _ _ _ _ (bk_lists _ _ (in_books _ _ Hi) w ws Hw) nb Hdy En) as (nbo&Hno&Hnb&_&Hns&Hnv&_).
  destruct (ba_buffer _ _ _ (he_backed _ _ _ (in_held _ _ Hi) _ _ _ _ Hno Hnb) Hnv) as [(refs&Hrefs) _].
  destruct (ko_refs _ (he_kernel _ _ _ (in_held _ _ Hi)) _ _ _ _ Hrefs) as [_ Hnh].
  unfold radv_amdgpu_virtual_bo_bind_low_null_prt. apply wp_bind. eapply wp_get_ws; [done|].
  fold i. apply wp_bind, wp_massert.
  { apply andb_true_iff. split; apply Z.eqb_eq; [done|].
    apply Z.mod_divide in Htp as [q ->]; [|pose proof (page_gt0 (K := K)); lia].
    rewrite <- Z.mul_mod_idemp_r, page_4096, Z.mul_0_r by lia. done. }
  rewrite (proj2 (Z.ltb_lt 0 total)) by lia.
  apply wp_bind. eapply wp_deref; [done|]. apply wp_bind. eapply wp_get_bo; [done|]. rewrite Hns.
  change (8 * 1024 * 1024) with NULL_SIZE. replace total with (total - 0) at 2 by lia.
  eapply (wp_chunks
    (fun off p' => framed p p' /\ S (p_k p) (p_k p') /\ nulled (ws_dev i) (bo_handle nbo) base off (p_k p) (p_k p'))
    (fun _ p' => framed p p' /\ S (p_k p) (p_k p')) w (ws_dev i)); try done.
  - intros off p1 _ (Hf1&_). destruct (framed_ws _ _ _ _ Hf1 Hw) as (ws1&?&(E&_)). exists ws1. by rewrite E.
  - intros off p1 r p2 fl pt Hoff Hom (Hf1&HS1&Hn1) Hf2 Hfl Hd.
    assert ((total - off) mod getpagesize (K := K) = 0) as Hrest.
    { apply Z.mod_divide in Hom as [q ->]; [|done]. pose proof (page_gt0 (K := K)).
      rewrite Zminus_mod, Htp, <- Z.mul_mod_idemp_r, null_pages, Z.mul_0_r by lia. by rewrite Z.mod_0_l by lia. }
    assert (Z.min (total - off) NULL_SIZE mod getpagesize (K := K) = 0) as Hcp.
    { destruct (Z.min_spec (total - off) NULL_SIZE) as [[_ ->]|[_ ->]]; [done|apply null_pages]. }
    set (c := Z.min (total - off) NULL_SIZE) in *. assert (0 < c <= NULL_SIZE /\ c <= total - off) as [Hc Hct] by (subst c; unfold NULL_SIZE in *; lia).
    rewrite page_multiple in Hd by (unfold NULL_SIZE in *; try lia; done).
    rewrite u64_small in Hd by lia. fold base in Hd.
    assert (S (p_k p) (p_k p2)) as HS2.
    { apply (HS (bo_handle nbo) (p_k p1) _ (base + off) c fl r pt); try done; lia. }
    split; [intros ->|intros _]; (split; [by etrans|]); [|done]. split; [done|]. eapply (nulled_step _ _ _ _ c fl ops pt _ (p_k p1)); try done; lia.
  - lia.
  - by left.
  - pose proof (Z.div_lt_upper_bound total NULL_SIZE (total / NULL_SIZE + 1)) as _.
    rewrite Nat2Z.inj_add, Z2Nat.id by (apply Z.div_pos; [lia|done]).
    pose proof (Z.mul_succ_div_gt total NULL_SIZE ltac:(done)). lia.
  - split; [apply framed_refl|]. split; [done|]. split; [intros x ?; lia|done].
  - intros p' (Hf'&HS'&Hn'). eapply HQ; try done. by exists nbo.
  - intros r p' Hr (Hf'&HS'). eapply (HQ (bo_handle nbo)); try done. by exists nbo.
Qed.

(** * Creation *)

Definition control (i : winsys_info) : Z := Z.shiftl 1 (address_prt_wa_control_bit i).

(** Where the two halves of an emulated buffer are. *)
Lemma low_high i va n :
  k_control_bit (K := K) (ws_dev i) = Some (address_prt_wa_control_bit i) ->
  range_placed (K := K) (ws_dev i) va n -> 0 < n ->
  let bit := address_prt_wa_control_bit i in
  Z.land va (u64 (Z.lnot (control i))) = va /\ Z.lor va (control i) = va + 2 ^ bit
  /\ Z.land (va + 2 ^ bit) (u64 (Z.lnot (control i))) = va /\ n <= 2 ^ bit /\ va + n + 2 ^ bit <= W64.
Proof.
  intros Hc Hp Hn bit. destruct (placed_high _ _ _ _ Hp Hc Hn) as (Hb&q&Hq1&Hq2&Hq3). fold bit in Hb, Hq1, Hq2, Hq3.
  assert (0 < 2 ^ bit) by (apply Z.pow_pos_nonneg; lia). destruct Hp as (H0&_).
  unfold control. fold bit. split; [apply (low_stays_low _ q); lia|]. split.
  { rewrite Z.shiftl_mul_pow2, Z.mul_1_l by lia. by apply (add_control_bit _ q). }
  split; [apply (drop_control_bit _ q); lia|]. lia.
Qed.

(** The page table of sparse buffer [bo], whose byte [x] is bound to [f x] (a buffer handle and an
    offset, or nothing). *)
Definition high_target (b : option (Z * Z)) (t : Z * Z * Z) : Prop :=
  match b with Some ho => t.1 = ho /\ perms false t.2 | None => t.1.1 = 0 /\ t.2 = AMDGPU_VM_PAGE_PRT end.
Definition low_target (nh : Z) (b : option (Z * Z)) (t : Z * Z * Z) : Prop :=
  match b with Some ho => t.1 = ho /\ perms false t.2 | None => null_target nh t end.

Definition sparse (k : K) (i : winsys_info) (bo : radv_amdgpu_winsys_bo) (nh : Z) (f : Z -> option (Z * Z)) : Prop :=
  forall x, 0 <= x < bo_size bo ->
    resolves (k_maps k) (ws_dev i) (bo_va bo + x) (high_target (f x))
    /\ (emulate_sparse_residency bo = true ->
        resolves (k_maps k) (ws_dev i) (range_va i bo + x) (low_target nh (f x))).

(** What a sparse buffer needs of its size. *)
Definition sparse_size (n : Z) : Prop := size_fits n /\ n mod getpagesize (K := K) = 0.

(** The halves of the buffer are apart and do not wrap. *)
Record halves (i : winsys_info) (bo : radv_amdgpu_winsys_bo) : Prop := Halves {
  ha_low : 0 <= range_va i bo;
  ha_low_end : range_va i bo + bo_size bo <= W64;
  ha_high : 0 <= bo_va bo;
  ha_high_end : bo_va bo + bo_size bo <= W64;
  ha_apart : emulate_sparse_residency bo = true -> range_va i bo + bo_size bo <= bo_va bo
}.

(** The state after the reservation: the structure without the control bit is a buffer of the winsys. *)
Lemma virtual_arrive own p w ws b va vah n size k1 emulate :
  inv own p -> p_winsys p !! w = Some ws -> own !! b = None -> b < p_next p -> sparse_size size ->
  (emulate = true -> has_smem_with_null_prt_bug (ws_info ws) = true) ->
  range_placed (K := K) (ws_dev (ws_info ws)) va n -> va mod getpagesize (K := K) = 0 -> size <= n ->
  n mod getpagesize (K := K) = 0 -> range_added (ws_dev (ws_info ws)) vah va n (p_k p) k1 ->
  let bo := WinsysBo va size false false false false true false 0 0 vah 0 0 0 0 0 emulate 0 false in
  inv (<[b := (w, ws_info ws)]> own) (set_bos (<[b := bo]> (p_bos p)) (set_k k1 p)) /\ range_va (ws_info ws) bo = va.
Proof.
  intros Hi Hw Ho Hb [Hs Hsp] Hem Hpl Hvap Hn Hnp Hra bo. pose proof Hra as (Hn0&_&Er&Eb&Hm).
  unfold size_fits in Hs. assert (range_va (ws_info ws) bo = va) as Erv.
  { unfold range_va. simpl. destruct emulate; [|done]. unfold radv_amdgpu_virtual_bo_get_low_addr. simpl.
    refine (proj1 (low_high _ _ n _ Hpl _)); [|lia]. apply (in_infos _ _ Hi w ws Hw). auto. }
  split; [|done]. assert (p_bos p !! b = None) as Hb1.
  { apply eq_None_not_Some. rewrite <- (bk_dom _ _ (in_books _ _ Hi)), Ho. by intros [? ?]. }
  split; simpl; [| |apply Hi].
  - eapply (books_arrive own p _ b w ws bo); try done; simpl; try lia; [apply Hi| |].
    + intros c. by rewrite andb_false_r.
    + unfold counted_size. simpl. rewrite Z.add_0_r. symmetry. by eapply books_churn_wrapped, Hi.
  - eapply (held_new_virtual own _ (p_k p) k1 b w _ bo n); try done; [apply Hi|by rewrite Erv| | |].
    + eapply kernel_range_added; [apply Hi|exact Hra|done|lia|done|done].
    + by eapply grows_range.
    + split; [|simpl; intros ->|done|done].
      * exists n. rewrite Er, Erv. split; [apply lookup_insert_eq|]. unfold span. simpl.
        rewrite page_multiple; [done|lia|done].
      * split; [done|]. split; [apply (in_infos _ _ Hi w ws Hw); auto|]. left. by rewrite Erv.
Qed.

Lemma virtual_pages own p b w i bo :
  inv own p -> own !! b = Some (w, i) -> p_bos p !! b = Some bo -> is_virtual bo = true ->
  bo_size bo mod getpagesize (K := K) = 0 -> span bo = bo_size bo.
Proof.
  intros Hi Ho Hb Hv Hp. rewrite (virtual_span _ _ _ _ _ _ _ (in_held _ _ Hi) Ho Hb Hv).
  pose proof (bk_sizes _ _ (in_books _ _ Hi) b bo Hb) as Hs. unfold size_fits in Hs. apply page_multiple; [lia|done].
Qed.

Lemma virtual_halves own p b w i bo :
  inv own p -> own !! b = Some (w, i) -> p_bos p !! b = Some bo -> is_virtual bo = true ->
  bo_size bo mod getpagesize (K := K) = 0 ->
  (emulate_sparse_residency bo = true -> bo_va bo = range_va i bo + 2 ^ address_prt_wa_control_bit i) ->
  halves i bo.
Proof.
  intros Hi Ho Hb Hv Hp Hva. pose proof (virtual_pages _ _ _ _ _ _ Hi Ho Hb Hv Hp) as Es.
  destruct (backed_range _ _ _ _ _ _ _ (in_held _ _ Hi) Ho Hb) as (n&_&Hn&Hpl&_). pose proof Hpl as (H0&H1&_).
  pose proof (bk_sizes _ _ (in_books _ _ Hi) b bo Hb) as Hs. unfold size_fits in Hs.
  destruct (emulate_sparse_residency bo) eqn:E.
  - destruct (ba_emulated _ _ _ (he_backed _ _ _ (in_held _ _ Hi) _ _ _ _ Ho Hb) E) as (_&Hc&_).
    destruct (low_high i _ n Hc Hpl) as (_&_&_&?&?); [lia|]. specialize (Hva eq_refl).
    assert (0 <= 2 ^ address_prt_wa_control_bit i) by (apply Z.pow_nonneg; lia).
    split; try lia.
  - assert (range_va i bo = bo_va bo) as Er by (unfold range_va; by rewrite E). rewrite Er in *. split; try lia.
Qed.

Lemma inv_set_control own p w ws b bo :
  inv own p -> p_winsys p !! w = Some ws -> own !! b = Some (w, ws_info ws) -> p_bos p !! b = Some bo ->
  is_virtual bo = true -> emulate_sparse_residency bo = true -> bo_va bo = range_va (ws_info ws) bo ->
  let bo' := with_va (Z.lor (bo_va bo) (control (ws_info ws))) bo in
  inv own (set_bos (<[b := bo']> (p_bos p)) p) /\ range_va (ws_info ws) bo' = range_va (ws_info ws) bo
  /\ bo_va bo' = range_va (ws_info ws) bo' + 2 ^ address_prt_wa_control_bit (ws_info ws).
Proof.
  intros Hi Hw Ho Hb Hv He Hva bo'. set (i := ws_info ws) in *.
  pose proof (he_backed _ _ _ (in_held _ _ Hi) _ _ _ _ Ho Hb) as Hba.
  destruct (backed_range _ _ _ _ _ _ _ (in_held _ _ Hi) Ho Hb) as (n&Hr&Hn&Hpl&_).
  destruct (ba_emulated _ _ _ Hba He) as (_&Hc&_).
  pose proof (span_pos bo (bk_sizes _ _ (in_books _ _ Hi) b bo Hb)) as Hsp.
  destruct (low_high i _ n Hc Hpl) as (_&Eor&Eand&_); [lia|]. rewrite <- Hva in Eor, Eand.
  assert (bo_va bo' = bo_va bo + 2 ^ address_prt_wa_control_bit i) as Eva by exact Eor.
  assert (range_va i bo' = range_va i bo) as Erv.
  { rewrite <- Hva. unfold range_va, radv_amdgpu_virtual_bo_get_low_addr.
    change (emulate_sparse_residency bo') with (emulate_sparse_residency bo). rewrite He, Eva. exact Eand. }
  split; [|split; [done|by rewrite Erv, <- Hva]]. split; [|simpl|apply Hi].
  - eapply books_put; [exact Hb|done|done| |apply Hi]. left. intros Hin.
    apply list_elem_of_fmap in Hin as (e&->&Hin). pose proof (ca_entries _ _ (bk_cache _ _ (in_books _ _ Hi))) as Hall.
    rewrite Forall_forall in Hall. destruct (Hall e Hin) as (_&bo0&_&Hb0&_&Hca&_). rewrite Hb in Hb0.
    injection Hb0 as <-. unfold radv_xclipse_ibcache_cacheable in Hca. by rewrite Hv in Hca.
  - eapply held_replace; try done; [|apply Hi]. destruct Hba as [Hr' He' Hv' Hb']. split.
    + by rewrite Erv.
    + intros _. rewrite Erv, Eva, Hva. split; [done|]. split; [done|by right].
    + done.
    + change (is_virtual bo') with (is_virtual bo). congruence.
Qed.

(** The first mapping of a sparse buffer: nothing is bound. *)
Lemma wp_init_mapping own p w ws b bo (Q : Z -> proc K -> Prop) :
  inv own p -> p_winsys p !! w = Some ws -> own !! b = Some (w, ws_info ws) -> p_bos p !! b = Some bo ->
  is_virtual bo = true -> sparse_size (bo_size bo) -> halves (ws_info ws) bo ->
  (emulate_sparse_residency bo = true -> p_dying p <> Some w /\ null_ready own p w) ->
  (forall r p' nh, framed p p' -> grows (p_k p) (p_k p') -> k_ranges (p_k p') = k_ranges (p_k p) ->
     k_bos (p_k p') = k_bos (p_k p) ->
     (emulate_sparse_residency bo = true -> nh <> 0 /\ exists ws nb nbo, p_winsys p !! w = Some ws /\ null_prt_bo ws = Some nb
        /\ p_bos p !! nb = Some nbo /\ bo_handle nbo = nh) ->
     (r = 0 -> sparse (p_k p') (ws_info ws) bo nh (fun _ => None)) -> Q r p') ->
  wp (radv_amdgpu_virtual_bo_init_mapping w bo (bo_size bo)) Q p.
Proof.
  intros Hi Hw Ho Hb Hv [Hs Hsp] [Hl Hle Hh Hhe Hap] Hnull HQ. unfold size_fits in Hs. set (i := ws_info ws) in *.
  unfold radv_amdgpu_virtual_bo_init_mapping. apply wp_bind. eapply wp_va_op; [done|done|].
  rewrite page_multiple by (try lia; done).
  intros fl pt r p1 Hf1 Hfl Hd1. pose proof (grows_done _ _ _ _ Hd1 eq_refl) as Hg1. pose proof Hd1 as (Er1&Eb1&_).
  assert (r = 0 -> forall x, 0 <= x < bo_size bo ->
            resolves (k_maps (p_k p1)) (ws_dev i) (bo_va bo + x) (high_target None)) as Hhigh.
  { intros -> x Hx. eapply (exactly_in _ _ _ _ _ (done_exactly _ _ _ Hd1 (or_introl eq_refl))); simpl; [lia|].
    split; [done|]. by rewrite Hfl. }
  destruct (emulate_sparse_residency bo) eqn:E.
  2:{ assert (Q r p1) as HQ1.
      { apply (HQ r p1 0); try done. intros ->. intros x Hx. split; [by apply Hhigh|congruence]. }
      by apply wp_if; intros _; apply wp_ret. }
  destruct (Hnull eq_refl) as (Hdy&ws0&nb&Hw0&Hnb). rewrite Hw in Hw0. injection Hw0 as <-.
  destruct (wo_null _ _ _ _ _ (bk_lists _ _ (in_books _ _ Hi) w ws Hw) nb Hdy Hnb) as (nbo&Hno&Hnbo&_&_&Hnv&_).
  destruct (ba_buffer _ _ _ (he_backed _ _ _ (in_held _ _ Hi) _ _ _ _ Hno Hnbo) Hnv) as [(refs&Hrefs) _].
  destruct (ko_refs _ (he_kernel _ _ _ (in_held _ _ Hi)) _ _ _ _ Hrefs) as [_ Hnh].
  assert (bo_handle nbo <> 0 /\ exists ws nb nbo', p_winsys p !! w = Some ws /\ null_prt_bo ws = Some nb
        /\ p_bos p !! nb = Some nbo' /\ bo_handle nbo' = bo_handle nbo) as Hnh' by (split; [done|by exists ws, nb, nbo]).
  apply wp_if; intros Hr; [apply wp_ret, (HQ r p1 (bo_handle nbo)); try done; by intros ->|].
  apply negb_false_iff, Z.eqb_eq in Hr as ->. specialize (Hhigh eq_refl).
  destruct (framed_ws _ _ _ _ Hf1 Hw) as (ws1&Hw1&(Ei1&_&En1&_)). fold i in Ei1.
  assert (inv own p1) as Hi1.
  { eapply inv_framed; [exact Hf1| |done]. eapply held_kept; [apply Hi|done|done|by apply keeps_grows]. }
  assert (range_va i bo = radv_amdgpu_virtual_bo_get_low_addr (ws_info ws1) bo + 0) as Elow.
  { rewrite Z.add_0_r. unfold range_va. by rewrite E, Ei1. }
  eapply (wp_bind_null own p1 w ws1 nb bo 0 (bo_size bo) _
            (fun k k' => grows k k' /\ k_ranges k' = k_ranges k /\ k_bos k' = k_bos k)); rewrite <- ?Elow; try done.
  - congruence.
  - by rewrite (fr_dying _ _ Hf1).
  - by left.
  - lia.
  - split; [apply grows_same, same_view_refl|done].
  - intros nh k k' a n fl' r' pt' (Hgk&?&?) _ _ _ _ Hd. pose proof Hd as (?&?&_).
    split; [eapply grows_trans; [exact Hgk|by eapply grows_done]|]. split; congruence.
  - intros nh r p2 Hf2 (Hg2&Er2&Eb2) Hnh2 (nbo2&Hnb2&Eh2) Hn.
    rewrite (fr_bos _ _ Hf1), Hnbo in Hnb2. injection Hnb2 as <-. subst nh.
    apply (HQ r p2 (bo_handle nbo)); try done; [by etrans|by eapply grows_trans|congruence|congruence|].
    intros ->. destruct (Hn eq_refl) as [Hin Hout]. rewrite Ei1 in Hin, Hout. intros x Hx. split.
    + eapply resolves_iff; [|by apply Hhigh]. intros t. apply Hout. specialize (Hap eq_refl). lia.
    + intros _. by apply Hin.
Qed.

End virtual.
