(* ===== verification/BoSparse.v ===== *)
(** The life of a sparse buffer: creation with nothing bound, and bindings that read like writes to a
    function from bytes to memory, on both halves of the address space where the workaround is on. *)

From stdpp Require Import gmap.
From S2P Require Import Prelude Pm4 BoModel BoLogic BoKernel BoInv BoVa BoBooks BoHeld BoDestroy BoFree BoAcquire BoCreate BoImport BoVirtual.

Section sparse.
Context {K : Type} `{!Drm K} `{!DrmView K} `{!DrmLaws K}.
Implicit Types (k : K) (p : proc K) (own : gmap Z (Z * winsys_info)).
#[local] Set Default Proof Using "All".

(** * Creation *)

(** The zero buffer of the winsys has handle [nh]. *)
Definition null_handle p w nh : Prop :=
  exists ws nb nbo, p_winsys p !! w = Some ws /\ null_prt_bo ws = Some nb /\ p_bos p !! nb = Some nbo
    /\ bo_handle nbo = nh.

Lemma null_handle_framed p p' w nh : framed p p' -> null_handle p w nh -> null_handle p' w nh.
Proof.
  intros Hf (ws&nb&nbo&Hw&Hn&Hb&<-). destruct (framed_ws _ _ _ _ Hf Hw) as (ws'&Hw'&(_&_&E&_)).
  exists ws', nb, nbo. rewrite E, (fr_bos _ _ Hf). done.
Qed.

(** Buffer [b] of [w] is sparse, [nh] the handle of the zero buffer that stands in for its holes. *)
Record sparse_buffer own p w b (ws : radv_amdgpu_winsys) (bo : radv_amdgpu_winsys_bo) (nh : Z) : Prop := SparseBuffer {
  sb_winsys : p_winsys p !! w = Some ws;
  sb_own : own !! b = Some (w, ws_info ws);
  sb_bo : p_bos p !! b = Some bo;
  sb_virtual : is_virtual bo = true;
  sb_size : sparse_size (K := K) (bo_size bo);
  sb_halves : halves (ws_info ws) bo;
  sb_null : emulate_sparse_residency bo = true -> p_dying p <> Some w /\ nh <> 0 /\ null_handle p w nh
}.

(** Its byte [x] is bound to [f x]. *)
Definition is_sparse own p w b (f : Z -> option (Z * Z)) : Prop :=
  exists ws bo nh, sparse_buffer own p w b ws bo nh /\ sparse (p_k p) (ws_info ws) bo nh f.

Definition create_sparse_ok (ws : radv_amdgpu_winsys) (dying : option Z) (w size flags replay_address : Z) : Prop :=
  sparse_size (K := K) size /\ ((replay_address =? 0) || has flags RADEON_FLAG_REPLAYABLE) = true
  /\ (has flags RADEON_FLAG_EMULATE_SPARSE_RESIDENCY = true ->
      has_smem_with_null_prt_bug (ws_info ws) = true /\ dying <> Some w).

(** A new sparse buffer of [size] bytes with nothing bound, or a failure; the zero buffer may have
    come with either. *)
Definition sparse_creation own p w i size (res : VkResult * option Z) p' : Prop :=
  exists own', inv own' p' /\ extends own p own' p' /\ newcomers own own' p' w i res.2 /\
  match res with
  | (VK_SUCCESS, Some b) => own !! b = None /\ is_sparse own' p' w b (fun _ => None)
      /\ exists bo, p_bos p' !! b = Some bo /\ bo_size bo = size
  | (VK_SUCCESS, None) | (_, Some _) => False
  | (_, None) => True
  end.

(** A structure that came and went again. *)
Lemma extends_depart own p own1 p1 b p' :
  own !! b = None -> extends own p own1 p1 -> framed (set_bos (delete b (p_bos p1)) p1) p' ->
  extends own p (delete b own1) p'.
Proof.
  intros Ho [Hs Hc Hd Hn Hb Hw] Hf. pose proof Hf as [_ Eb _ Ec _ Ed _ En]. simpl in *.
  split; [|congruence|congruence|lia| |].
  - apply map_subseteq_spec. intros b' x Hx. apply lookup_delete_Some. split; [congruence|]. by eapply lookup_weaken.
  - intros b' Hb'. rewrite Eb, lookup_delete_ne; [by apply Hb|]. intros <-. destruct Hb'. congruence.
  - intros w ws Hws. destruct (Hw w ws Hws) as (ws1&H1&Ei&Ecb&Hgl&Hnl).
    destruct (framed_ws _ _ w ws1 Hf H1) as (ws2&H2&(Ei2&Eg2&En2&Ec2)).
    exists ws2. conj_split; [done|congruence|congruence| |].
    + intros b' Hb'. rewrite Eg2. by apply Hgl.
    + intros nb Hnb. rewrite En2. by apply Hnl.
Qed.

(** The failure paths: the range is given back and the structure goes. *)
Lemma virtual_undo own p own1 p1 p3 b w ws bo :
  own !! b = None -> extends own p own1 p1 -> b ∉ e_bo <$> p_cache p ->
  inv own1 p1 -> p_winsys p1 !! w = Some ws -> own1 !! b = Some (w, ws_info ws) -> p_bos p1 !! b = Some bo ->
  use_global_list bo = false -> is_virtual bo = true -> churn_counted bo = false ->
  framed p1 p3 -> touched own1 (p_bos p1) (p_k p1) (p_k p3) ->
  inv (delete b own1) (set_bos (delete b (p_bos p3)) (set_k (drm_va_range_free (va_handle bo) (p_k p3)) p3))
    /\ extends own p (delete b own1) (set_bos (delete b (p_bos p3)) (set_k (drm_va_range_free (va_handle bo) (p_k p3)) p3)).
Proof.
  intros Ho Hex Hnc Hi Hw Ho1 Hb Hu Hv Hch Hf (Er&Eb&Hk). split.
  - eapply (inv_virtual_released own1 p1 p3 b w ws bo); try done.
    + by rewrite (ex_cache _ _ _ _ Hex).
    + destruct (decide (p_dying p1 = Some w)) as [|Hd]; [by right|left]. intros En.
      destruct (wo_null _ _ _ _ _ (bk_lists _ _ (in_books _ _ Hi) w ws Hw) b Hd En) as (nbo&_&Hnb&_&_&?&_). congruence.
    + unfold churn_after. rewrite Hch. by destruct p1.
    + split; [done|]. split; [done|]. intros b' w' i' bo' [_ Ho']%lookup_delete_Some [_ Hb']%lookup_delete_Some. by eapply Hk.
  - eapply extends_depart; [done|exact Hex|]. destruct Hf as [? E1 E2 E3 E4 E5 E6 E7].
    split; simpl; try done. by rewrite E1.
Qed.

(** The end of a creation, from the structure with its final address. *)
Lemma wp_sparse_tail own p own1 p1 w ws b bo (Q : VkResult * option Z -> proc K -> Prop) :
  inv own p -> own !! b = None -> extends own p own1 p1 -> newcomers own own1 p1 w (ws_info ws) (Some b) ->
  inv own1 p1 -> p_winsys p1 !! w = Some ws -> own1 !! b = Some (w, ws_info ws) -> p_bos p1 !! b = Some bo ->
  use_global_list bo = false -> is_virtual bo = true -> churn_counted bo = false ->
  sparse_size (K := K) (bo_size bo) -> halves (ws_info ws) bo ->
  (emulate_sparse_residency bo = true -> p_dying p1 <> Some w /\ null_ready own1 p1 w) ->
  (forall res p', sparse_creation own p w (ws_info ws) (bo_size bo) res p' -> Q res p') ->
  wp (let! r := radv_amdgpu_virtual_bo_init_mapping w bo (bo_size bo) ;;
      if negb (r =? 0) then
        let! _ := kdo (drm_va_range_free (va_handle bo)) ;;
        let! _ := free_bo b ;;
        mret (VK_ERROR_OUT_OF_DEVICE_MEMORY, None)
      else mret (VK_SUCCESS, Some b)) Q p1.
Proof.
  intros Hi Ho Hex Hnew Hi1 Hw Ho1 Hb Hu Hv Hch Hs Hha Hnull HQ. apply wp_bind.
  eapply (wp_init_mapping own1 p1 w ws b bo); try done.
  intros r p3 nh Hf Hg Er Eb Hnh Htab. apply wp_if; intros Hr.
  - apply wp_bind, wp_kdo. apply wp_bind, wp_modify. apply wp_ret, HQ.
    destruct (virtual_undo own p own1 p1 p3 b w ws bo) as [Hi' Hex']; try done.
    { by apply (not_cached own p b). }
    { split; [done|]. split; [done|]. by apply keeps_grows. }
    exists (delete b own1). split; [done|]. split; [done|]. split; [|done]. apply newcomers_delete.
    eapply (newcomers_winsys _ _ p3); [done|]. by eapply newcomers_framed.
  - apply negb_false_iff, Z.eqb_eq in Hr. specialize (Htab Hr). apply wp_ret, HQ. exists own1.
    assert (inv own1 p3) as Hi3.
    { eapply inv_framed; [exact Hf| |done]. eapply held_kept; [apply Hi1|done|done|by apply keeps_grows]. }
    split; [done|]. split; [eapply extends_trans; [exact Hex|by apply extends_framed]|].
    split; [by eapply newcomers_framed|]. split; [done|].
    pose proof (fr_bos _ _ Hf) as Ebos. split; [|exists bo; by rewrite Ebos].
    destruct (framed_ws _ _ _ _ Hf Hw) as (ws3&Hw3&(Ei&_)). exists ws3, bo, nh. rewrite Ei. split; [|by apply Htab]. split; rewrite ?Ei, ?Ebos; try done.
    intros He. destruct (Hnh He) as (Hnh0&Hnh'). destruct (Hnull He) as [Hdy _].
    rewrite (fr_dying _ _ Hf). split; [done|]. split; [done|]. eapply null_handle_framed; [exact Hf|].
    destruct Hnh' as (ws'&nb&nbo&?&?&?&?). by exists ws', nb, nbo.
Qed.

Lemma wp_virtual_create own p w ws size alignment flags replay_address (Q : VkResult * option Z -> proc K -> Prop) :
  inv own p -> p_winsys p !! w = Some ws -> create_sparse_ok ws (p_dying p) w size flags replay_address ->
  (forall res p', sparse_creation own p w (ws_info ws) size res p' -> Q res p') ->
  wp (radv_amdgpu_winsys_virtual_bo_create w size alignment flags replay_address) Q p.
Proof.
  intros Hi Hw (Hs&Hrep&Hem) HQ. unfold radv_amdgpu_winsys_virtual_bo_create.
  assert (forall r p', r <> VK_SUCCESS -> inv own p' -> framed p p' -> Q (r, None) p') as Hfail.
  { intros r p' Hr Hi' Hf'. apply HQ. exists own. split; [done|]. split; [by apply extends_framed|]. split; [apply newcomers_refl|]. by destruct r. }
  apply wp_bind. eapply wp_get_ws; [done|]. apply wp_bind. eapply (wp_alloc_bo own); [done| |].
  { intros p1 Hf1 Hi1. by apply wp_ret, Hfail. }
  intros p1 Hf1 Hi1 Ho Hlt. set (b := p_next p) in *. destruct (framed_ws _ _ _ _ Hf1 Hw) as (ws1&Hw1&(Ei1&_)).
  rewrite <- Ei1 in *. set (i := ws_info ws1) in *. apply wp_bind, wp_massert; [done|].
  set (emulate := has flags RADEON_FLAG_EMULATE_SPARSE_RESIDENCY) in *.
  set (replay := if emulate then _ else replay_address). apply wp_bind, wp_kcall. intros k1 [[va vah]|] Hk1.
  2:{ apply range_alloc_fails in Hk1. apply wp_ret, Hfail; [by destruct (negb (replay =? 0))| |].
      - by apply inv_silent. - etrans; [exact Hf1|apply framed_k]. }
  destruct Hs as [Hs Hsp]. pose proof Hs as Hs'. unfold size_fits in Hs'.
  pose proof (gap_bounds i (virt_alignment i size alignment)) as Hgap.
  rewrite u64_small in Hk1 by (unfold W64; lia). apply range_alloc_spec in Hk1 as (Hvap&_&_&Hpl&Hra); [|lia].
  destruct (round_up_spec (size + va_gap_size i (virt_alignment i size alignment)) _ (page_gt0 (K := K))) as [Hru Hrm].
  set (n := round_up _ _) in *. wp_step. set (bo := WinsysBo _ _ _ _ _ _ _ _ _ _ _ _ _ _ _ _ _ _ _).
  destruct (virtual_arrive own p1 w ws1 b va vah n size k1 emulate) as [Hi2 Erv]; try done; [by intros He; apply Hem|lia|].
  fold i in Hi2, Erv. fold bo in Hi2, Erv. set (own1 := <[b := (w, i)]> own) in *.
  change (p_bos (set_k k1 p1)) with (p_bos p1). set (p2 := set_bos _ _) in Hi2 |- *.
  assert (extends own p own1 p2) as Hex2.
  { eapply extends_trans; [by apply extends_framed|]. apply extends_only; [done|]. split; try done.
    - simpl. intros b' Hne. by rewrite lookup_insert_ne.
    - intros w' ws' ?. by exists ws'. }
  assert (own1 !! b = Some (w, i)) as Ho1 by apply lookup_insert_eq.
  assert (p_bos p2 !! b = Some bo) as Hb2 by apply lookup_insert_eq.
  destruct emulate eqn:Ee.
  2:{ wp_step. apply wp_bind, wp_modify.
      replace (set_bos (<[b:=bo]> (p_bos p2)) p2) with p2 by (unfold p2; simpl; by rewrite insert_insert_eq).
      apply (wp_sparse_tail own p own1 p2 w ws1 b bo); try done.
      { apply newcomers_insert; [apply newcomers_refl|done]. }
      eapply (virtual_halves own1 p2); try done. }
  destruct (Hem eq_refl) as [Hbug Hdy].
  apply wp_bind. eapply (wp_init_null own1 p2); [done|exact Hw1|done|].
  intros r own3 p3 Hi3 Hex3 Hnew3 Hnull. pose proof (extends_trans _ _ _ _ _ _ Hex2 Hex3) as Hex.
  destruct (ex_winsys _ _ _ _ Hex3 w ws1 Hw1) as (ws3&Hw3&Ei3&_). fold i in Ei3.
  assert (own3 !! b = Some (w, ws_info ws3)) as Ho3.
  { rewrite Ei3. eapply lookup_weaken; [exact Ho1|apply Hex3]. }
  assert (p_bos p3 !! b = Some bo) as Hb3 by (rewrite (ex_bos _ _ _ _ Hex3); [done|by exists (w, i)]).
  assert (newcomers own own3 p3 w i (Some b)) as Hnew by (apply newcomers_insert; [exact Hnew3|by rewrite Ho3, Ei3]).
  destruct r.
  2-10: apply wp_bind, wp_kdo; apply wp_bind, wp_modify; apply wp_ret, HQ;
    destruct (virtual_undo own p own3 p3 p3 b w ws3 bo) as [Hi' Hex']; try done;
    [by apply (not_cached own p b)|by apply touched_same|exists (delete b own3); split; [done|]; split; [done|];
     split; [|done]; apply newcomers_delete; exact (newcomers_winsys _ _ p3 _ _ _ _ eq_refl Hnew)].
  destruct (inv_set_control own3 p3 w ws3 b bo) as (Hi4&Erv4&Eva4); try done; [by rewrite Ei3|].
  apply wp_bind, wp_modify. rewrite Ei3 in Hi4, Erv4, Eva4. fold (control i). set (bo4 := with_va _ _) in *.
  set (p4 := set_bos _ _) in Hi4 |- *. change (bo_size bo) with (bo_size bo4).
  assert (extends own p own3 p4) as Hex4.
  { destruct Hex as [? ? ? ? Hbs ?]. split; try done. simpl. intros b' Hb'. rewrite lookup_insert_ne; [by apply Hbs|].
    intros <-. destruct Hb'. congruence. }
  assert (p_bos p4 !! b = Some bo4) as Hb4 by apply lookup_insert_eq.
  apply (wp_sparse_tail own p own3 p4 w ws3 b bo4); try done.
  - by rewrite Ei3.
  - rewrite Ei3. fold i. apply (virtual_halves own3 p4 b w i bo4); try done. by rewrite <- Ei3.
  - intros _. split; [|apply Hnull; done]. by rewrite (ex_dying _ _ _ _ Hex4).
  - intros res p'. rewrite Ei3. apply HQ.
Qed.

End sparse.
