(* ===== verification/BoBind.v ===== *)
(** Bindings of a sparse buffer: each one rewrites the bytes it names, on both halves of the address
    space, and nothing else. *)

From stdpp Require Import gmap.
From S2P Require Import Prelude Pm4 BoModel BoLogic BoKernel BoInv BoVa BoBooks BoHeld BoDestroy BoFree BoAcquire BoCreate BoImport BoVirtual BoSparse.

(** [size] bytes from [offset] are bound to the buffer with the handle and offset [target], or to
    nothing. *)
Definition bind_fn (offset size : Z) (target : option (Z * Z)) (f : Z -> option (Z * Z)) (x : Z) : option (Z * Z) :=
  if (offset <=? x) && (x <? offset + size) then
    match target with Some (h, o) => Some (h, o + (x - offset)) | None => None end
  else f x.

Lemma bind_fn_in offset size target f x : offset <= x < offset + size ->
  bind_fn offset size target f x = match target with Some (h, o) => Some (h, o + (x - offset)) | None => None end.
Proof. intros H. unfold bind_fn. rewrite (proj2 (Z.leb_le _ _)), (proj2 (Z.ltb_lt _ _)) by lia. done. Qed.

Lemma bind_fn_out offset size target f x : ~ offset <= x < offset + size -> bind_fn offset size target f x = f x.
Proof.
  intros H. unfold bind_fn. destruct (Z.leb_spec offset x), (Z.ltb_spec x (offset + size)); try done. lia.
Qed.

Section bind.
Context {K : Type} `{!Drm K} `{!DrmView K} `{!DrmLaws K}.
Implicit Types (k : K) (p : proc K) (own : gmap Z (Z * winsys_info)).
#[local] Set Default Proof Using "All".

(** * One half of the address space *)

(** The bytes of [bo] read at [base] as [P] of their binding says. *)
Definition half k dev base (P : option (Z * Z) -> Z * Z * Z -> Prop) (f : Z -> option (Z * Z)) (size : Z) : Prop :=
  forall x, 0 <= x < size -> resolves (k_maps k) dev (base + x) (P (f x)).

Lemma half_replace k k' dev base P f size offset n target fl o h pt :
  half k dev base P f size ->
  exactly (VaOp dev h o n (base + offset) fl AMDGPU_VA_OP_REPLACE pt) k k' ->
  (forall y, 0 <= y < n -> P (match target with Some (h, o) => Some (h, o + y) | None => None end) (h, o + y, fl)) ->
  half k' dev base P (bind_fn offset n target f) size.
Proof.
  intros Hh He HP x Hx. destruct (decide (offset <= x < offset + n)) as [Hin|Hout].
  - rewrite bind_fn_in by done. eapply (exactly_in _ _ _ _ _ He); simpl; [lia|].
    replace (base + x - (base + offset)) with (x - offset) by lia. apply HP. lia.
  - rewrite bind_fn_out by done. eapply exactly_out; [exact He| |by apply Hh]. simpl. lia.
Qed.

Lemma half_nulled k k' dev base f size offset n nh :
  half k dev base (low_target nh) f size -> nulled dev nh (base + offset) n k k' ->
  half k' dev base (low_target nh) (bind_fn offset n None f) size.
Proof.
  intros Hh [Hin Hout] x Hx. destruct (decide (offset <= x < offset + n)) as [Hi|Ho].
  - rewrite bind_fn_in by done. replace (base + x) with (base + offset + (x - offset)) by lia. apply Hin. lia.
  - rewrite bind_fn_out by done. eapply resolves_iff; [|by apply Hh]. intros t. apply Hout. lia.
Qed.

(** A change elsewhere leaves the half alone. *)
Lemma half_kept k k' dev base P f size a n :
  half k dev base P f size ->
  (forall dev' x t, ~ (dev' = dev /\ a <= x < a + n) -> maps_at (k_maps k') dev' x t <-> maps_at (k_maps k) dev' x t) ->
  a + n <= base \/ base + size <= a -> half k' dev base P f size.
Proof. intros Hh Ho Ha x Hx. eapply resolves_iff; [|by apply Hh]. intros t. apply Ho. lia. Qed.

Lemma sparse_iff k i bo nh f :
  sparse k i bo nh f <->
  half k (ws_dev i) (bo_va bo) high_target f (bo_size bo)
  /\ (emulate_sparse_residency bo = true -> half k (ws_dev i) (range_va i bo) (low_target nh) f (bo_size bo)).
Proof.
  split.
  - intros H. split; [intros x Hx; by apply H|]. intros He x Hx. by apply H.
  - intros [Hh Hl] x Hx. split; [by apply Hh|]. intros He. by apply Hl.
Qed.

(** * What a binding leaves of the other buffers *)

(** The bytes of a sparse buffer itself are no buffer's memory. *)
Lemma keeps_virtual own bos k k' b bo :
  bos !! b = Some bo -> is_virtual bo = true -> keeps (delete b own) (delete b bos) k k' -> keeps own bos k k'.
Proof.
  intros Hb Hv Hk b' w i bo' Ho Hb' Hv' Hm. assert (b <> b') by (intros <-; congruence).
  by apply (Hk b' w i bo'); rewrite ?lookup_delete_ne.
Qed.

Lemma replace_touched own p k k' w b bo i a r :
  inv own p -> own !! b = Some (w, i) -> p_bos p !! b = Some bo -> is_virtual bo = true ->
  bo_size bo mod getpagesize (K := K) = 0 -> va_done a r k k' -> vo_ops a = AMDGPU_VA_OP_REPLACE ->
  vo_dev a = ws_dev i -> 0 < vo_size a ->
  (range_va i bo <= vo_addr a /\ vo_addr a + vo_size a <= range_va i bo + bo_size bo
   \/ emulate_sparse_residency bo = true /\ bo_va bo <= vo_addr a /\ vo_addr a + vo_size a <= bo_va bo + bo_size bo) ->
  touched own (p_bos p) k k'.
Proof.
  intros Hi Ho Hb Hv Hp Hd Hop Hdev Hn Ha.
  rewrite <- (virtual_pages _ _ _ _ _ _ Hi Ho Hb Hv Hp) in Ha.
  destruct (outside_touched own (p_bos p) (p_k p) k k' b w i bo a r) as (?&?&?); try done.
  - apply Hi. - exact (bk_sizes _ _ (in_books _ _ Hi)). - by left.
  - split; [done|]. split; [done|]. by eapply keeps_virtual.
Qed.

Lemma inv_touched own p p' : inv own p -> framed p p' -> touched own (p_bos p) (p_k p) (p_k p') -> inv own p'.
Proof. intros Hi Hf Ht. by apply (failed_touched own p p'). Qed.

(** A sparse buffer after calls that changed only mappings. *)
Lemma sparse_framed own p p' w b ws bo nh f :
  framed p p' -> sparse_buffer own p w b ws bo nh -> sparse (p_k p') (ws_info ws) bo nh f -> is_sparse own p' w b f.
Proof.
  intros Hf [Hw Ho Hb Hv Hs Hh Hn] Ht. destruct (framed_ws _ _ _ _ Hf Hw) as (ws'&Hw'&(Ei&_)).
  exists ws', bo, nh. rewrite Ei. split; [|done]. split; rewrite ?Ei, ?(fr_bos _ _ Hf), ?(fr_dying _ _ Hf); try done.
  intros He. destruct (Hn He) as (?&?&?). split; [done|]. split; [done|]. by eapply null_handle_framed.
Qed.

(** * The two bindings *)

(** A range of whole pages of the buffer. *)
Definition bind_ok (bo : radv_amdgpu_winsys_bo) (offset size : Z) : Prop :=
  0 <= offset /\ 0 < size /\ offset + size <= bo_size bo
  /\ offset mod getpagesize (K := K) = 0 /\ size mod getpagesize (K := K) = 0.

Lemma bypass_flags x : has (Z.land x RADEON_FLAG_GL2_BYPASS) RADEON_FLAG_READ_ONLY = false
  /\ has (Z.land x RADEON_FLAG_GL2_BYPASS) RADEON_FLAG_VM_UPDATE_WAIT = false.
Proof. unfold has. rewrite <- !Z.land_assoc. change (Z.land _ RADEON_FLAG_READ_ONLY) with 0.
  change (Z.land _ RADEON_FLAG_VM_UPDATE_WAIT) with 0. by rewrite Z.land_0_r. Qed.

(** One replacement in one half. *)
Lemma wp_replace own p p1 w b ws bo nh h o fl ifl base offset n (Q : Z -> proc K -> Prop) :
  inv own p -> sparse_buffer own p w b ws bo nh -> bind_ok bo offset n -> framed p p1 ->
  base = bo_va bo \/ (emulate_sparse_residency bo = true /\ base = range_va (ws_info ws) bo) ->
  has fl RADEON_FLAG_VM_UPDATE_WAIT = false ->
  (forall fl' pt r p', framed p p' -> page_flags h fl ifl fl' -> touched own (p_bos p) (p_k p1) (p_k p') ->
     (r = 0 -> exactly (VaOp (ws_dev (ws_info ws)) h o n (base + offset) fl' AMDGPU_VA_OP_REPLACE pt) (p_k p1) (p_k p')) ->
     Q r p') ->
  wp (radv_amdgpu_bo_va_op w h o n (u64 (base + offset)) fl ifl AMDGPU_VA_OP_REPLACE) Q p1.
Proof.
  intros Hi [Hw Ho Hb Hv [Hs Hsp] Hha _] (Ho0&Hn0&Hle&Hop&Hnp) Hf Hbase Hwt HQ. set (i := ws_info ws) in *.
  destruct (framed_ws _ _ _ _ Hf Hw) as (ws1&Hw1&(Ei&_)). destruct Hha as [H1 H2 H3 H4 H5].
  assert (0 <= base + offset /\ base + offset + n <= W64) as Hr by (destruct Hbase as [->|[_ ->]]; lia).
  rewrite u64_small by lia. unfold size_fits in Hs. eapply wp_va_op; [done|by rewrite Hwt|].
  rewrite page_multiple by (try lia; done). fold i in Ei. rewrite Ei.
  intros fl' pt r p2 Hf2 Hfl Hd. apply (HQ fl' pt); [by etrans|done| |].
  - eapply (replace_touched own p _ _ w b bo i); try done. simpl.
    destruct Hbase as [->|[He ->]]; [|left; lia].
    destruct (emulate_sparse_residency bo) eqn:E; [right; split; [done|lia]|left]. unfold range_va. rewrite E. lia.
  - intros ->. eapply done_exactly; [exact Hd|by right].
Qed.

(** The table of a buffer whose high half was rewritten, and whose low half needs no writing. *)
Lemma sparse_high_only k k1 i bo nh f offset n h o fl pt target :
  sparse k i bo nh f -> emulate_sparse_residency bo = false ->
  exactly (VaOp (ws_dev i) h o n (bo_va bo + offset) fl AMDGPU_VA_OP_REPLACE pt) k k1 ->
  (forall y, 0 <= y < n -> high_target (match target with Some (h, o) => Some (h, o + y) | None => None end) (h, o + y, fl)) ->
  sparse k1 i bo nh (bind_fn offset n target f).
Proof.
  intros [Hhi _]%sparse_iff He Hd Ht. apply sparse_iff. split; [|congruence]. by eapply half_replace.
Qed.

Lemma wp_virtual_map own p w b ws bo nh bo2 o offset n (Q : Z -> proc K -> Prop) :
  inv own p -> sparse_buffer own p w b ws bo nh -> bind_ok bo offset n -> bo_handle bo2 <> 0 ->
  (forall r p', framed p p' -> touched own (p_bos p) (p_k p) (p_k p') ->
     (r = 0 -> forall f, sparse (p_k p) (ws_info ws) bo nh f ->
        sparse (p_k p') (ws_info ws) bo nh (bind_fn offset n (Some (bo_handle bo2, o)) f)) -> Q r p') ->
  wp (radv_amdgpu_virtual_bo_map w bo offset n bo2 o) Q p.
Proof.
  intros Hi Hsb Hok Hh HQ. pose proof Hsb as [Hw Ho Hb Hv Hs Hha _]. set (i := ws_info ws) in *.
  destruct (bypass_flags (bo_flags bo2)) as [Hro Hwt].
  unfold radv_amdgpu_virtual_bo_map. apply wp_bind. eapply wp_get_ws; [done|]. apply wp_bind.
  eapply (wp_replace own p p w b ws bo nh); try done; [by left|]. intros fl pt r p1 Hf1 Hfl Ht1 Hd1.
  unfold page_flags in Hfl. rewrite (proj2 (Z.eqb_neq _ _) Hh), Hro in Hfl.
  apply wp_if; intros Hr; [apply wp_ret, HQ; [done|done|by intros ->]|].
  apply negb_false_iff, Z.eqb_eq in Hr. specialize (Hd1 Hr).
  apply wp_if; intros He; [|apply wp_ret, HQ; try done; intros _ f Hf; by eapply sparse_high_only].
  assert (range_va i bo = radv_amdgpu_virtual_bo_get_low_addr i bo) as El by (unfold range_va; by rewrite He).
  destruct Hok as (?&?&?&?&?). pose proof Hha as [_ _ _ _ Hap]. specialize (Hap He). fold i in Hap.
  fold i. rewrite <- El. eapply (wp_replace own p p1 w b ws bo nh); try done; [by right|].
  intros fl2 pt2 r2 p2 Hf2 Hfl2 Ht2 Hd2. unfold page_flags in Hfl2. rewrite (proj2 (Z.eqb_neq _ _) Hh), Hro in Hfl2.
  apply HQ; [done|by eapply touched_trans|]. intros E f [Hhi Hlo]%sparse_iff. specialize (Hd2 E). apply sparse_iff. split.
  - eapply half_kept; [eapply half_replace; [exact Hhi|exact Hd1|done]|apply Hd2|]. simpl. left. lia.
  - intros _. eapply half_replace; [|exact Hd2|done]. eapply half_kept; [by apply Hlo|apply Hd1|]. simpl. lia.
Qed.

Lemma wp_virtual_unmap own p w b ws bo nh offset n (Q : Z -> proc K -> Prop) :
  inv own p -> sparse_buffer own p w b ws bo nh -> bind_ok bo offset n ->
  (forall r p', framed p p' -> touched own (p_bos p) (p_k p) (p_k p') ->
     (r = 0 -> forall f, sparse (p_k p) (ws_info ws) bo nh f ->
        sparse (p_k p') (ws_info ws) bo nh (bind_fn offset n None f)) -> Q r p') ->
  wp (radv_amdgpu_virtual_bo_unmap w bo offset n) Q p.
Proof.
  intros Hi Hsb Hok HQ. pose proof Hsb as [Hw Ho Hb Hv [Hs Hsp] Hha Hn]. set (i := ws_info ws) in *.
  unfold radv_amdgpu_virtual_bo_unmap. apply wp_bind.
  eapply (wp_replace own p p w b ws bo nh); try done; [by left|]. intros fl pt r p1 Hf1 Hfl Ht1 Hd1.
  unfold page_flags in Hfl. simpl in Hfl. subst fl.
  apply wp_if; intros Hr; [apply wp_ret, HQ; [done|done|by intros ->]|].
  apply negb_false_iff, Z.eqb_eq in Hr. specialize (Hd1 Hr).
  apply wp_if; intros He; [|apply wp_ret, HQ; try done; intros _ f Hf; by eapply sparse_high_only].
  destruct Hok as (?&?&?&Hop&Hnp). pose proof Hha as [Hl0 Hl1 _ _ Hap]. specialize (Hap He). fold i in Hap, Hl0, Hl1.
  destruct (Hn He) as (Hdy&Hnh&(ws0&nb&nbo&Hw0&Hnb&Hnbo&<-)). rewrite Hw in Hw0. injection Hw0 as <-.
  destruct (framed_ws _ _ _ _ Hf1 Hw) as (ws1&Hw1&(Ei1&_&En1&_)). fold i in Ei1.
  assert (inv own p1) as Hi1 by by eapply inv_touched.
  assert (range_va i bo = radv_amdgpu_virtual_bo_get_low_addr i bo) as El by (unfold range_va; by rewrite He).
  assert (offset mod 4096 = 0) as Hop4.
  { apply Z.mod_divide in Hop as [q ->]; [|pose proof (page_gt0 (K := K)); lia].
    rewrite <- Z.mul_mod_idemp_r, page_4096, Z.mul_0_r by lia. done. }
  unfold size_fits in Hs.
  eapply (wp_bind_null own p1 w ws1 nb bo offset n _ (touched own (p_bos p))); rewrite ?Ei1, <- ?El; try done; try lia.
  - congruence.
  - by rewrite (fr_dying _ _ Hf1).
  - by right.
  - apply touched_same, same_view_refl.
  - intros nh k k' a c fl r2 pt2 HS Hh Ha Hc Hac Hd. eapply touched_trans; [exact HS|].
    eapply (replace_touched own p _ _ w b bo i); try done. left. simpl. lia.
  - intros nh r2 p2 Hf2 Ht2 Hnh2 (nbo2&Hnb2&<-) Hnull. rewrite (fr_bos _ _ Hf1), Hnbo in Hnb2. injection Hnb2 as <-.
    apply HQ; [by etrans|by eapply touched_trans|]. intros E f [Hhi Hlo]%sparse_iff. specialize (Hnull E).
    apply sparse_iff. split.
    + eapply half_kept; [eapply half_replace; [exact Hhi|exact Hd1|done]|apply Hnull|]. left. lia.
    + intros _. eapply half_nulled; [|exact Hnull]. eapply half_kept; [by apply Hlo|apply Hd1|]. simpl. lia.
Qed.

(** What a binding to [target] at [bo_offset] binds to. *)
Definition bind_target p (target : option Z) (bo_offset : Z) (t : option (Z * Z)) : Prop :=
  match target with
  | Some b2 => exists bo2, p_bos p !! b2 = Some bo2 /\ is_virtual bo2 = false /\ t = Some (bo_handle bo2, bo_offset)
  | None => t = None
  end.

Lemma wp_virtual_bind own p w b ws bo nh offset n target bo_offset t (Q : VkResult -> proc K -> Prop) :
  inv own p -> sparse_buffer own p w b ws bo nh -> bind_ok bo offset n -> bind_target p target bo_offset t ->
  (forall r p', inv own p' -> framed p p' ->
     (r = VK_SUCCESS /\ (forall f, sparse (p_k p) (ws_info ws) bo nh f ->
        sparse (p_k p') (ws_info ws) bo nh (bind_fn offset n t f)) \/ r = VK_ERROR_OUT_OF_DEVICE_MEMORY) -> Q r p') ->
  wp (radv_amdgpu_winsys_bo_virtual_bind w b offset n target bo_offset) Q p.
Proof.
  intros Hi Hsb Hok Ht HQ. pose proof Hsb as [Hw Ho Hb Hv _ _ _]. unfold radv_amdgpu_winsys_bo_virtual_bind.
  apply wp_bind. eapply wp_get_bo; [done|]. apply wp_bind, wp_massert; [done|].
  eapply (wp_seq _ _ (fun r p' => framed p p' /\ touched own (p_bos p) (p_k p) (p_k p')
            /\ (r = 0 -> forall f, sparse (p_k p) (ws_info ws) bo nh f ->
                  sparse (p_k p') (ws_info ws) bo nh (bind_fn offset n t f)))).
  - destruct target as [b2|]; simpl in Ht.
    + destruct Ht as (bo2&Hb2&Hv2&->). apply wp_bind. eapply wp_get_bo; [done|].
      apply wp_bind, wp_massert; [by rewrite Hv2|]. eapply wp_virtual_map; try done.
      assert (is_Some (own !! b2)) as [[w2 i2] Ho2] by (apply (bk_dom _ _ (in_books _ _ Hi)); by exists bo2).
      destruct (ba_buffer _ _ _ (he_backed _ _ _ (in_held _ _ Hi) _ _ _ _ Ho2 Hb2) Hv2) as [(r&Hr) _].
      apply (ko_refs _ (he_kernel _ _ _ (in_held _ _ Hi)) _ _ _ _ Hr).
    + rewrite Ht. by eapply wp_virtual_unmap.
  - intros r p' (Hf&Htc&Hsp). apply wp_ret. apply HQ; [by eapply inv_touched|done|].
    destruct (Z.eqb_spec r 0) as [->|]; simpl; [left|by right]. by split; [|apply Hsp].
Qed.

End bind.
