(* ===== verification/BoTeardown.v ===== *)
(** Residency, CPU mappings, and the end of a winsys: the loop that empties the cache returns, and
    takes every buffer the winsys had parked along. *)

From stdpp Require Import gmap.
From S2P Require Import Prelude Pm4 BoModel BoLogic BoKernel BoInv BoVa BoBooks BoHeld BoDestroy BoFree BoAcquire BoCreate.

Lemma filter_none {A} (P : A -> Prop) `{!forall x, Decision (P x)} (l : list A) : (forall x, x ∈ l -> ~ P x) -> filter P l = [].
Proof.
  induction l as [|x l IH]; intros HP; [done|]. rewrite filter_cons_False by (apply HP; by left).
  apply IH. intros y Hy. apply HP. by right.
Qed.

Lemma filter_every {A} (P : A -> Prop) `{!forall x, Decision (P x)} (l : list A) : (forall x, x ∈ l -> P x) -> filter P l = l.
Proof.
  induction l as [|x l IH]; intros HP; [done|]. rewrite filter_cons_True by (apply HP; by left).
  f_equal. apply IH. intros y Hy. apply HP. by right.
Qed.

Section teardown.
Context {K : Type} `{!Drm K} `{!DrmView K} `{!DrmLaws K}.
Implicit Types (k : K) (p : proc K) (own : gmap Z (Z * winsys_info)).
#[local] Set Default Proof Using "All".

(** * Residency and CPU mappings *)

Lemma wp_make_resident own p w ws b bo resident (Q : VkResult -> proc K -> Prop) :
  inv own p -> p_winsys p !! w = Some ws -> own !! b = Some (w, ws_info ws) -> p_bos p !! b = Some bo ->
  (b ∉ e_bo <$> p_cache p) -> null_prt_bo ws <> Some b \/ p_dying p = Some w ->
  (resident = true -> use_global_list bo = false) ->
  (forall r p' g, inv own p' -> only_bo b p p' -> p_bos p' !! b = Some (with_use_global_list g bo) -> Q r p') ->
  wp (radv_amdgpu_winsys_bo_make_resident w b resident) Q p.
Proof.
  intros Hi Hw Ho Hb Hnc Hnl Hres HQ. unfold radv_amdgpu_winsys_bo_make_resident.
  apply wp_bind. eapply wp_get_bo; [done|]. apply wp_bind. eapply wp_get_ws; [done|].
  assert (forall r, wp (mret r) Q p) as Hsame.
  { intros r. apply wp_ret, (HQ _ _ (use_global_list bo)); [done|apply only_bo_refl|by rewrite with_global_same]. }
  apply wp_if; intros _; [done|]. apply wp_if; intros _; [done|]. apply wp_if; intros Hr.
  - eapply (wp_global_add own p w ws b bo); auto; [naive_solver|]. intros r p' g Hi' Hob Hb' _. by eapply HQ.
  - apply wp_bind. eapply (wp_global_del own p w ws b bo); try done. intros p' Hi' Hob _ _ _ Hb'.
    apply wp_ret. by eapply HQ.
Qed.

(** The mapping of [b], new or not, and the kernel. *)
Record mapped_cpu own p b bo p' m : Prop := MappedCpu {
  mc_inv : inv own p';
  mc_bo : p_bos p' = <[b := with_cpu_map m bo]> (p_bos p);
  mc_rest : p_winsys p' = p_winsys p /\ p_trackers p' = p_trackers p /\ p_cache p' = p_cache p
    /\ p_cache_bytes p' = p_cache_bytes p /\ p_dying p' = p_dying p /\ p_next p' = p_next p;
  mc_view : same_view (p_k p) (p_k p')
}.

Lemma mapped_cpu_put own p b bo k m :
  inv own p -> p_bos p !! b = Some bo -> (b ∉ e_bo <$> p_cache p) -> same_view (p_k p) k ->
  mapped_cpu own p b bo (set_bos (<[b := with_cpu_map m bo]> (p_bos p)) (set_k k p)) m.
Proof.
  intros Hi Hb Hnc Hv. split; [|done|done|done].
  apply (inv_put own (set_k k p) b bo); [done|auto with radv..|by apply inv_silent].
Qed.

Lemma mapped_cpu_same own p b bo k :
  inv own p -> p_bos p !! b = Some bo -> same_view (p_k p) k -> mapped_cpu own p b bo (set_k k p) (cpu_map bo).
Proof.
  intros Hi Hb Hv. split; [by apply inv_silent| |done|done].
  rewrite with_cpu_map_same by done. simpl. symmetry. by apply insert_id.
Qed.

Lemma wp_map own p w ws b bo fixed (Q : Z -> proc K -> Prop) :
  inv own p -> p_winsys p !! w = Some ws -> p_bos p !! b = Some bo -> (b ∉ e_bo <$> p_cache p) ->
  (fixed = None \/ cpu_map bo = 0) ->
  (forall a m p', mapped_cpu own p b bo p' m -> 
     (a = m /\ (cpu_map bo <> 0 -> m = cpu_map bo) \/ cpu_map bo = m /\ m = 0) -> Q a p') ->
  wp (radv_amdgpu_winsys_bo_map w b fixed) Q p.
Proof.
  intros Hi Hw Hb Hnc Hfix HQ. unfold radv_amdgpu_winsys_bo_map. apply wp_bind. eapply wp_get_bo; [done|].
  apply wp_if; intros Hc.
  { apply wp_ret, (HQ _ (cpu_map bo)); [|by left]. replace p with (set_k (p_k p) p) at 2 by by destruct p.
    apply mapped_cpu_same; [done|done|apply same_view_refl]. }
  assert (cpu_map bo = 0) as Ez.
  { destruct (Z.eqb_spec (cpu_map bo) 0) as [|Hne]; [done|]. destruct Hfix as [->|?]; [by simpl in Hc|done]. }
  apply wp_bind, wp_massert; [by rewrite Ez|]. apply wp_bind. eapply wp_get_ws; [done|].
  apply wp_if; intros _.
  - apply wp_bind, wp_kcall. intros k data Hk. apply cpu_map_silent in Hk. apply wp_ret.
    apply (HQ _ (cpu_map bo)); [by apply mapped_cpu_same|by right].
  - apply wp_bind, wp_kcall. intros k [a|] Hk; apply mmap_silent in Hk.
    + wp_step. apply wp_ret. apply (HQ _ a); [by apply (mapped_cpu_put own p b bo k a)|left; split; [done|by rewrite Ez]].
    + apply wp_ret. apply (HQ _ (cpu_map bo)); [by apply mapped_cpu_same|by right].
Qed.

Lemma wp_unmap own p w ws b bo replace (Q : unit -> proc K -> Prop) :
  inv own p -> p_winsys p !! w = Some ws -> p_bos p !! b = Some bo -> (b ∉ e_bo <$> p_cache p) ->
  (replace = true -> cpu_map bo <> 0) -> (forall p', mapped_cpu own p b bo p' 0 -> Q tt p') ->
  wp (radv_amdgpu_winsys_bo_unmap w b replace) Q p.
Proof.
  intros Hi Hw Hb Hnc Hrep HQ. unfold radv_amdgpu_winsys_bo_unmap. apply wp_bind. eapply wp_get_bo; [done|].
  apply wp_if; intros Hc.
  { apply andb_true_iff in Hc as [Ez%Z.eqb_eq _]. apply wp_ret, HQ. rewrite <- Ez.
    replace p with (set_k (p_k p) p) at 2 by by destruct p. apply mapped_cpu_same; [done|done|apply same_view_refl]. }
  assert (negb (cpu_map bo =? 0) = true) as Ez.
  { destruct (Z.eqb_spec (cpu_map bo) 0) as [E|]; [|done]. destruct replace; [by destruct (Hrep eq_refl)|done]. }
  apply wp_bind, wp_massert; [done|]. apply wp_bind. eapply wp_get_ws; [done|].
  eapply (wp_seq _ _ (fun _ p1 => exists k, same_view (p_k p) k /\ p1 = set_k k p)).
  { apply wp_if; intros _; apply wp_kdo; eexists; (split; [|done]); [apply cpu_unmap_silent|apply munmap_silent]. }
  intros _ p1 (k&Hk&->). wp_step. apply HQ. by apply (mapped_cpu_put own p b bo k).
Qed.

(** * Emptying the cache *)

Definition parked (w : Z) (l : list radv_xclipse_ibcache_entry) : list Z :=
  e_bo <$> filter (fun e => e_ws e = w) l.

(** The buffers [l] are gone, the cache is [c], and the other buffers are as they were. *)
Record departed own p (l : list Z) (c : list radv_xclipse_ibcache_entry) own' p' : Prop := Departed {
  dp_inv : inv own' p';
  dp_dying : p_dying p' = p_dying p;
  dp_next : p_next p <= p_next p';
  dp_cache : p_cache p' ≡ₚ c;
  dp_gone : forall b, (b ∈ l) -> own' !! b = None /\ p_bos p' !! b = None;
  dp_kept : forall b, (b ∉ l) -> own' !! b = own !! b /\ p_bos p' !! b = p_bos p !! b;
  dp_winsys : forall w' ws, p_winsys p !! w' = Some ws ->
    exists ws', p_winsys p' !! w' = Some ws' /\ ws_info ws' = ws_info ws /\ null_prt_bo ws' = null_prt_bo ws
      /\ ib_cache_bos ws' = ib_cache_bos ws
}.

Lemma departed_refl own p : inv own p -> departed own p [] (p_cache p) own p.
Proof. intros Hi. split; try done; [by intros b ?%elem_of_nil|]. intros w ws ?. by exists ws. Qed.

Lemma departed_cache own p c n : inv own (set_cache c n p) -> departed own p [] c own (set_cache c n p).
Proof. intros Hi. split; try done; [by intros b ?%elem_of_nil|]. intros w ws ?. by exists ws. Qed.

Lemma departed_one own p b p' : destroyed own p b p' -> departed own p [b] (p_cache p) (delete b own) p'.
Proof.
  intros (Hi&Ec&Ed&En&Eb&Ew). split; try done.
  - by rewrite Ec.
  - intros b' ->%list_elem_of_singleton. by rewrite Eb, !lookup_delete_eq.
  - intros b' Hb'. rewrite list_elem_of_singleton in Hb'. by rewrite Eb, !lookup_delete_ne by done.
Qed.

Lemma departed_trans own p l1 c1 own1 p1 l2 c2 own2 p2 :
  departed own p l1 c1 own1 p1 -> departed own1 p1 l2 c2 own2 p2 -> departed own p (l1 ++ l2) c2 own2 p2.
Proof.
  intros [Hi1 Hd1 Hn1 Hc1 Hg1 Hk1 Hw1] [Hi2 Hd2 Hn2 Hc2 Hg2 Hk2 Hw2]. split; [done|congruence|lia|done| | |].
  - intros b Hb. destruct (decide (b ∈ l2)) as [|Hn]; [by apply Hg2|]. apply elem_of_app in Hb as [Hb|]; [|done].
    destruct (Hk2 b Hn) as [E1 E2]. rewrite E1, E2. by apply Hg1.
  - intros b Hb. rewrite elem_of_app in Hb. destruct (Hk2 b) as [E1 E2]; [naive_solver|].
    rewrite E1, E2. apply Hk1. naive_solver.
  - intros w ws Hw. destruct (Hw1 w ws Hw) as (ws1&H1&?&?&?). destruct (Hw2 w ws1 H1) as (ws2&?&?&?&?).
    exists ws2. split_and!; congruence.
Qed.

Lemma departed_perm own p l l' c c' own' p' :
  l ≡ₚ l' -> c ≡ₚ c' -> departed own p l c own' p' -> departed own p l' c' own' p'.
Proof.
  intros Hl Hc [Hi Hd Hn Hca Hg Hk Hw]. split; try done.
  - by rewrite Hca.
  - intros b Hb. apply Hg. by rewrite Hl.
  - intros b Hb. apply Hk. by rewrite Hl.
Qed.

(** The buffers [w] had parked are gone, with their entries. *)
Definition purged own p w own' p' : Prop :=
  departed own p (parked w (p_cache p)) (filter (fun e => e_ws e <> w) (p_cache p)) own' p'.

Lemma purged_none own p w :
  inv own p -> (forall e, e ∈ p_cache p -> (e_ws e =? w) = false) -> purged own p w own p.
Proof.
  intros Hi Hn. unfold purged, parked. rewrite filter_none, filter_every; [by apply departed_refl| |];
    intros e He; by apply Z.eqb_neq, Hn.
Qed.

(** An entry of [w] taken out of the cache may be destroyed. *)
Lemma taken_destroyable own p p1 w e :
  inv own p1 -> p_dying p1 = Some w -> entry_ok own (p_bos p1) e -> e_ws e = w -> (e_bo e ∉ e_bo <$> p_cache p1) ->
  destroyable own p1 w (e_bo e).
Proof.
  intros Hi Hd (i&bo&Ho&Hb&_&Hca&_&Hul) He Hni. rewrite He in Ho.
  destruct (inv_owned _ _ _ _ _ Hi Ho) as (ws&_&Hw&<-&_). exists ws, bo.
  split; [done|]. split; [done|]. split; [done|]. split; [done|]. split; [by right|].
  destruct Hul as [?|?]; [left|by right]. split; [done|]. unfold radv_xclipse_ibcache_cacheable in Hca.
  by destruct (is_virtual bo).
Qed.

(** One round. *)
Lemma purged_round own p w e l own' n p' :
  p_cache p ≡ₚ e :: l -> e_ws e = w -> inv own (set_cache l n p) -> destroyed own (set_cache l n p) (e_bo e) p' ->
  forall p2, purged (delete (e_bo e) own) p' w own' p2 -> purged own p w own' p2.
Proof.
  intros Hp He Hi Hd p2 Hpu. pose proof Hd as (_&Ec&_). simpl in Ec. unfold purged in Hpu. rewrite Ec in Hpu.
  eapply departed_perm; [| |eapply departed_trans; [by eapply departed_cache|]; eapply departed_trans; [by eapply departed_one|exact Hpu]].
  - unfold parked. rewrite Hp, filter_cons_True; done.
  - rewrite Hp, filter_cons_False by naive_solver. done.
Qed.

(** The loop returns within as many rounds as there are entries, and one. *)
Lemma wp_purge own p w fuel (Q : bool -> proc K -> Prop) :
  inv own p -> p_dying p = Some w -> (length (parked w (p_cache p)) < fuel)%nat ->
  (forall own' p', purged own p w own' p' -> Q true p') ->
  wp (radv_xclipse_ibcache_purge_ws fuel w) Q p.
Proof.
  revert own p Q. induction fuel as [|fuel IH]; intros own p Q Hi Hd Hlen HQ; [lia|]. simpl.
  unfold purge_round. apply wp_bind, wp_bind. apply (wp_cache_take own); [done| |].
  - intros Hn. do 2 apply wp_ret. eapply HQ. by apply purged_none.
  - intros j e Hj He%Z.eqb_eq Hok Hi1 Hni. pose proof (swap_remove_Permutation _ _ _ Hj) as Hp.
    set (p1 := set_cache _ _ p) in *. apply wp_bind.
    assert (destroyable own p1 w (e_bo e)) as Hds by by eapply (taken_destroyable own p p1).
    eapply (wp_destroy own p1 w (e_bo e)); [done|done| |].
    2:{ intros p' bo _ _ Hnd. by destruct Hnd. }
    intros p' Hdes. apply wp_ret. pose proof Hdes as (Hi'&Ec&Ed&_). eapply IH; [exact Hi'|by rewrite Ed| |].
    + rewrite Ec. simpl. assert (length (parked w (p_cache p)) = S (length (parked w (swap_remove j (p_cache p))))) as E.
      { unfold parked. rewrite !length_fmap, Hp at 1. by rewrite filter_cons_True. }
      lia.
    + intros own' p2 Hpu. apply (HQ own'). by eapply purged_round.
Qed.

(** * The end of a winsys *)

Lemma destroyable_kept own p l c own' p' w b :
  departed own p l c own' p' -> (forall b, (b ∈ e_bo <$> c) -> b ∈ e_bo <$> p_cache p) -> b ∉ l ->
  (forall ws, p_winsys p !! w = Some ws -> null_prt_bo ws <> Some b \/ p_dying p = Some w) ->
  destroyable own p w b -> destroyable own' p' w b.
Proof.
  intros [Hi Hd Hn Hca Hg Hk Hw] Hc Hb Hnl (ws&bo&H1&H2&H3&H4&H5&H6). destruct (Hk b Hb) as [E1 E2].
  destruct (Hw w ws H1) as (ws'&H1'&Ei&En&_). exists ws', bo. rewrite Ei, En, E1, E2, Hd.
  split; [done|]. split; [done|]. split; [done|]. split; [|done]. intros Hin. apply H4, Hc. by rewrite <- Hca.
Qed.

(** A dying winsys destroys for good. *)
Lemma wp_destroy_dying own p w b (Q : unit -> proc K -> Prop) :
  inv own p -> p_dying p = Some w -> destroyable own p w b ->
  (forall p', departed own p [b] (p_cache p) (delete b own) p' -> Q tt p') ->
  wp (radv_amdgpu_winsys_bo_destroy w b) Q p.
Proof.
  intros Hi Hd Hb HQ. eapply (wp_destroy own p w b); [done|done| |].
  - intros p' Hp'. by apply HQ, departed_one.
  - intros p' bo _ _ Hnd. by destruct Hnd.
Qed.

Lemma wp_destroy_all own p w bs (Q : unit -> proc K -> Prop) :
  inv own p -> p_dying p = Some w -> NoDup bs -> (forall b, (b ∈ bs) -> destroyable own p w b) ->
  (forall own' p', departed own p bs (p_cache p) own' p' -> Q tt p') ->
  wp (destroy_all w bs) Q p.
Proof.
  revert own p Q. induction bs as [|b bs IH]; intros own p Q Hi Hd Hnd Hbs HQ; simpl.
  { apply wp_ret. eapply HQ. by apply departed_refl. }
  apply NoDup_cons in Hnd as [Hni Hnd]. apply wp_bind.
  eapply (wp_destroy_dying own p w b); [done|done|by apply Hbs; left|]. intros p1 Hp1.
  apply (IH (delete b own)); [apply Hp1|by rewrite (dp_dying _ _ _ _ _ _ Hp1)|done| |].
  - intros b' Hb'. eapply destroyable_kept; [exact Hp1|done| |by right|by apply Hbs; right].
    rewrite list_elem_of_singleton. congruence.
  - intros own' p' Hp'. eapply HQ. eapply departed_perm; [| |by eapply departed_trans]; [done|].
    apply (dp_cache _ _ _ _ _ _ Hp1).
Qed.

End teardown.
