(* ===== verification/BoSteady.v ===== *)
(** What no operation on buffers changes: which winsys exist, what they were told of their device,
    and how many of them share a tracker; and where buffers come from: one that is there afterwards was
    there before, with the same range and memory, or the operation has just created or imported it.
    Each computation is walked through once, by its structure. *)

From stdpp Require Import gmap.
From S2P Require Import Prelude Pm4 BoModel BoLogic.

Record steady {K} (p p' : proc K) : Prop := Steady {
  st_winsys : forall w, ws_info <$> p_winsys p' !! w = ws_info <$> p_winsys p !! w;
  st_next : p_next p <= p_next p';
  st_refs : forall c, tr_refcount <$> p_trackers p' !! c = tr_refcount <$> p_trackers p !! c
}.

(** Winsys [w] exists and has the information [i]. *)
Definition told {K} (p : proc K) (w : Z) (i : winsys_info) : Prop := ws_info <$> p_winsys p !! w = Some i.

(** From a state that is steady since [p0], the computation stays so. *)
Definition stays {K A} (p0 : proc K) (m : M K A) : Prop :=
  forall p a p', steady p0 p -> m p = Some (a, p') -> steady p0 p'.

(** ** Where buffers come from *)

(** What the use of a buffer does not change. *)
Definition same_grant (bo bo' : radv_amdgpu_winsys_bo) : Prop :=
  bo_va bo' = bo_va bo /\ va_handle bo' = va_handle bo /\ bo_buf bo' = bo_buf bo /\ bo_size bo' = bo_size bo
  /\ xclipse_alignment bo' = xclipse_alignment bo /\ bo_flags bo' = bo_flags bo
  /\ initial_domain bo' = initial_domain bo /\ is_virtual bo' = is_virtual bo /\ imported bo' = imported bo.

(** The address range and the memory of the buffer are what libdrm and the kernel answered to the
    requests of a creation on a winsys with information [i], at [replay_address] when it is not 0. *)
Definition granted {K} `{!Drm K} (i : winsys_info) (replay_address : Z) (bo : radv_amdgpu_winsys_bo) : Prop :=
  (exists k k', drm_va_range_alloc (ws_dev i)
     (u64 (radv_amdgpu_bo_va_size (bo_size bo) (bo_flags bo)
           + va_gap_size i (virt_alignment i (bo_size bo) (xclipse_alignment bo))))
     (virt_alignment i (bo_size bo) (xclipse_alignment bo)) replay_address (va_range_flags (bo_flags bo)) k
     = (k', Some (bo_va bo, va_handle bo)))
  /\ exists k k', drm_bo_alloc (ws_dev i)
       (make_request i (bo_size bo) (xclipse_alignment bo) (initial_domain bo) (bo_flags bo)) k
     = (k', Some (bo_buf bo)).

(** Buffer [b] was there in [p0], or [G] holds of it. *)
Definition from {K} (p0 : proc K) (G : Z -> radv_amdgpu_winsys_bo -> Prop) (b : Z) (bo : radv_amdgpu_winsys_bo) : Prop :=
  (exists bo0, p_bos p0 !! b = Some bo0 /\ same_grant bo0 bo) \/ G b bo.

Definition arises {K} (p0 : proc K) (G : Z -> radv_amdgpu_winsys_bo -> Prop) (p : proc K) : Prop :=
  forall b bo, p_bos p !! b = Some bo -> from p0 G b bo.

(** From a state that is steady since [p0] and whose other buffers satisfy [G], the computation leaves
    such a state. *)
Definition keeps {K A} (p0 : proc K) (G : Z -> radv_amdgpu_winsys_bo -> Prop) (m : M K A) : Prop :=
  forall p a p', steady p0 p -> arises p0 G p -> m p = Some (a, p') -> steady p0 p' /\ arises p0 G p'.

(** The same, but the winsys may change at the end. *)
Definition brings {K A} (p0 : proc K) (G : Z -> radv_amdgpu_winsys_bo -> Prop) (m : M K A) : Prop :=
  forall p a p', steady p0 p -> arises p0 G p -> m p = Some (a, p') -> arises p0 G p'.

(** The computation leaves the buffers alone. *)
Definition idle {K A} (m : M K A) : Prop := forall p a p', m p = Some (a, p') -> p_bos p' = p_bos p.

(** [G] allows new buffers that [bo_create_fresh] does not create, and the use of any buffer. *)
Record lenient {K} (p0 : proc K) (G : Z -> radv_amdgpu_winsys_bo -> Prop) : Prop := Lenient {
  le_same : forall b bo bo', same_grant bo bo' -> G b bo -> G b bo';
  le_other : forall b bo, p_next p0 <= b -> is_virtual bo = true \/ imported bo = true -> G b bo
}.

(** [G] allows what [bo_create_fresh] creates on [w] at [replay_address]. *)
Definition allows_new {K} `{!Drm K} (p0 : proc K) (G : Z -> radv_amdgpu_winsys_bo -> Prop) (w replay_address : Z) : Prop :=
  forall b i bo, p_next p0 <= b -> told p0 w i -> granted i replay_address bo -> G b bo.

Create HintDb stays.

Section rules.
Context {K : Type} `{!Drm K}.
Implicit Types (p : proc K) (G : Z -> radv_amdgpu_winsys_bo -> Prop).

Lemma steady_refl p : steady p p.
Proof. by split. Qed.

Lemma stays_run {A} (m : M K A) p a p' : (forall p0, stays p0 m) -> m p = Some (a, p') -> steady p p'.
Proof. intros H. apply H, steady_refl. Qed.

Lemma steady_trans p1 p2 p3 : steady p1 p2 -> steady p2 p3 -> steady p1 p3.
Proof.
  intros [H1 ? H2] [H3 ? H4]. split; [|lia|]; [intros w; by rewrite H3, H1|intros c; by rewrite H4, H2].
Qed.

(** A specification may use that the computation is steady. *)
Lemma wp_steady {A} (m : M K A) (Q : A -> proc K -> Prop) p :
  (forall p0, stays p0 m) -> wp m (fun a p' => steady p p' -> Q a p') p -> wp m Q p.
Proof.
  intros Hs. unfold wp. destruct (m p) as [[a p']|] eqn:E; [|done]. intros H. by apply H, (stays_run m p a).
Qed.

(** When [G] allows everything, what is left is that the state is steady. *)
Lemma keeps_stays {A} p0 (m : M K A) :
  (forall G, lenient p0 G -> (forall w ra, allows_new p0 G w ra) -> keeps p0 G m) -> stays p0 m.
Proof.
  intros H p a p' Hs E. refine (proj1 (H (fun _ _ => True) _ _ p a p' Hs _ E)); [done|done|]. by right.
Qed.

Lemma stays_ret {A} p0 (a : A) : stays p0 (mret a).
Proof. by intros p b p' Hs [= <- <-]. Qed.

Lemma stays_when p0 b (m : M K unit) : stays p0 m -> stays p0 (when b m).
Proof. intros H. unfold when. destruct b; [done|apply stays_ret]. Qed.

Lemma stays_put_ws p0 w ws : told p0 w (ws_info ws) -> stays p0 (put_ws w ws).
Proof.
  intros Ht p a p' [H1 H2 H3] [= <- <-]. split; [|done|done]. simpl. intros w'. destruct (decide (w' = w)) as [->|].
  - by rewrite lookup_insert_eq.
  - by rewrite lookup_insert_ne.
Qed.

Lemma from_same p0 G b bo bo' : lenient p0 G -> same_grant bo bo' -> from p0 G b bo -> from p0 G b bo'.
Proof.
  intros [HG _] Hs [(bo0&Hb&Hs0)|Hg]; [left|right; by eapply HG].
  exists bo0. split; [done|]. unfold same_grant in *. intuition congruence.
Qed.

Lemma arises_refl p G : arises p G p.
Proof. intros b bo Hb. left. by exists bo. Qed.

(** ** The walk *)

Lemma keeps_ret {A} p0 G (a : A) : keeps p0 G (mret a).
Proof. by intros p b p' Hs Ha [= <- <-]. Qed.

Lemma keeps_bind {A B} p0 G (m : M K A) (f : A -> M K B) :
  keeps p0 G m -> (forall a, keeps p0 G (f a)) -> keeps p0 G (mbind f m).
Proof.
  intros Hm Hf p b p' Hs Ha. unfold mbind, M_bind. destruct (m p) as [[a p1]|] eqn:E; [|done].
  destruct (Hm _ _ _ Hs Ha E). by apply Hf.
Qed.

(** The structure that is read is kept in mind, and where a buffer comes from. *)
Lemma keeps_get_ws {B} p0 G w (f : radv_amdgpu_winsys -> M K B) :
  (forall ws, told p0 w (ws_info ws) -> keeps p0 G (f ws)) -> keeps p0 G (mbind f (get_ws w)).
Proof.
  intros Hf p b p' Hs Ha. unfold mbind, M_bind, get_ws, deref. destruct (p_winsys p !! w) as [ws|] eqn:E; [|done].
  apply Hf; [|done..]. unfold told. by rewrite <- (st_winsys _ _ Hs), E.
Qed.

Lemma keeps_get_bo {B} p0 G b (f : radv_amdgpu_winsys_bo -> M K B) :
  (forall bo, from p0 G b bo -> keeps p0 G (f bo)) -> keeps p0 G (mbind f (get_bo b)).
Proof.
  intros Hf p a p' Hs Ha. unfold mbind, M_bind, get_bo, deref. destruct (p_bos p !! b) as [bo|] eqn:E; [|done].
  apply Hf; [by apply Ha|done..].
Qed.

Lemma keeps_kcall_bind {A B} p0 G (f : K -> K * A) (g : A -> M K B) :
  (forall k k' a, f k = (k', a) -> keeps p0 G (g a)) -> keeps p0 G (mbind g (kcall f)).
Proof.
  intros Hg p b p' Hs Ha. unfold mbind, M_bind, kcall. destruct (f (p_k p)) as [k a] eqn:E.
  apply (Hg _ _ _ E); [by destruct Hs; split|done].
Qed.

Lemma keeps_put_ws p0 G w ws : told p0 w (ws_info ws) -> keeps p0 G (put_ws w ws).
Proof.
  intros Ht p a p' Hs Ha E. split; [by eapply stays_put_ws|]. injection E as <- <-. done.
Qed.

Lemma keeps_modify p0 G (f : proc K -> proc K) :
  (forall p, p_winsys (f p) = p_winsys p /\ p_next p <= p_next (f p) /\ p_trackers (f p) = p_trackers p
             /\ p_bos (f p) = p_bos p) ->
  keeps p0 G (modify f).
Proof.
  intros Hf p a p' [H1 H2 H3] Ha [= <- <-]. destruct (Hf p) as (E1&E2&E3&E4). split.
  - split; rewrite ?E1, ?E3; [done|lia|done].
  - intros b bo. rewrite E4. apply Ha.
Qed.

Lemma keeps_unchanged {A} p0 G (m : M K A) : (forall p a p', m p = Some (a, p') -> p' = p) -> keeps p0 G m.
Proof. intros H p a p' Hs Ha E. by rewrite (H _ _ _ E). Qed.

Lemma keeps_gets {A} p0 G (f : proc K -> A) : keeps p0 G (gets f).
Proof. apply keeps_unchanged. by intros p a p' [= _ <-]. Qed.

Lemma keeps_massert p0 G b : keeps (K := K) p0 G (massert b).
Proof. apply keeps_unchanged. intros p a p'. unfold massert. destruct b; [by intros [= _ <-]|done]. Qed.

Lemma keeps_deref {A} p0 G (f : proc K -> option A) : keeps p0 G (deref f).
Proof. apply keeps_unchanged. intros p a p'. unfold deref. destruct (f p); [by intros [= _ <-]|done]. Qed.

Lemma keeps_kcall {A} p0 G (f : K -> K * A) : keeps p0 G (kcall f).
Proof. intros p a p' [H1 H2 H3] Ha. unfold kcall. destruct (f (p_k p)). by intros [= _ <-]. Qed.

Lemma keeps_kdo p0 G (f : K -> K) : keeps p0 G (kdo f).
Proof. by apply keeps_modify. Qed.

Lemma keeps_put_bo p0 G b bo : from p0 G b bo -> keeps (K := K) p0 G (put_bo b bo).
Proof.
  intros Hf p a p' [H1 H2 H3] Ha [= <- <-]. split; [by split|]. intros b' bo'. simpl.
  intros [[<- <-]|[_ Hb]]%lookup_insert_Some; [done|by apply Ha].
Qed.

Lemma keeps_free_bo p0 G b : keeps (K := K) p0 G (free_bo b).
Proof.
  intros p a p' [H1 H2 H3] Ha [= <- <-]. split; [by split|]. intros b' bo'. simpl.
  intros [_ Hb]%lookup_delete_Some. by apply Ha.
Qed.

Lemma keeps_when p0 G b (m : M K unit) : keeps p0 G m -> keeps p0 G (when b m).
Proof. intros H. unfold when. destruct b; [done|apply keeps_ret]. Qed.

Lemma keeps_if {A} p0 G (b : bool) (m1 m2 : M K A) : keeps p0 G m1 -> keeps p0 G m2 -> keeps p0 G (if b then m1 else m2).
Proof. by destruct b. Qed.

(** A new structure has a new address. *)
Lemma keeps_alloc {B} p0 G (f : option Z -> M K B) :
  (forall ob, (forall b, ob = Some b -> p_next p0 <= b) -> keeps p0 G (f ob)) -> keeps p0 G (mbind f alloc_bo).
Proof.
  intros Hf p a p' Hs Ha. unfold alloc_bo, mbind, M_bind, kcall. destruct (os_calloc (p_k p)) as [k ok].
  assert (steady p0 (set_k k p)) as Hs' by by destruct Hs; split.
  destruct ok; simpl; [|by apply Hf]. apply Hf.
  - intros b [= <-]. apply (st_next _ _ Hs).
  - destruct Hs as [? ? ?]. split; simpl; [done|lia|done].
  - done.
Qed.

Lemma brings_keeps {A} p0 G (m : M K A) : keeps p0 G m -> brings p0 G m.
Proof. intros H p a p' Hs Ha E. by apply (H p a p'). Qed.

Lemma brings_bind {A B} p0 G (m : M K A) (f : A -> M K B) :
  keeps p0 G m -> (forall a, brings p0 G (f a)) -> brings p0 G (mbind f m).
Proof.
  intros Hm Hf p b p' Hs Ha. unfold mbind, M_bind. destruct (m p) as [[a p1]|] eqn:E; [|done].
  destruct (Hm _ _ _ Hs Ha E). by apply Hf.
Qed.

Lemma brings_get_ws {B} p0 G w (f : radv_amdgpu_winsys -> M K B) :
  (forall ws, told p0 w (ws_info ws) -> brings p0 G (f ws)) -> brings p0 G (mbind f (get_ws w)).
Proof.
  intros Hf p b p' Hs Ha. unfold mbind, M_bind, get_ws, deref. destruct (p_winsys p !! w) as [ws|] eqn:E; [|done].
  apply Hf; [|done..]. unfold told. by rewrite <- (st_winsys _ _ Hs), E.
Qed.

Lemma brings_if {A} p0 G (b : bool) (m1 m2 : M K A) : brings p0 G m1 -> brings p0 G m2 -> brings p0 G (if b then m1 else m2).
Proof. by destruct b. Qed.

(** What leaves the buffers alone. *)
Lemma brings_idle {A} p0 G (m : M K A) : idle m -> brings p0 G m.
Proof. intros H p a p' _ Ha E b bo. rewrite (H _ _ _ E). apply Ha. Qed.

Lemma idle_same {A} (m : M K A) : (forall p a p', m p = Some (a, p') -> p' = p) -> idle m.
Proof. intros H p a p' E. by rewrite (H _ _ _ E). Qed.

Lemma idle_ret {A} (a : A) : idle (K := K) (mret a).
Proof. apply idle_same. by intros p b p' [= _ <-]. Qed.

Lemma idle_gets {A} (f : proc K -> A) : idle (gets f).
Proof. apply idle_same. by intros p b p' [= _ <-]. Qed.

Lemma idle_deref {A} (f : proc K -> option A) : idle (deref f).
Proof. apply idle_same. intros p a p'. unfold deref. destruct (f p); [by intros [= _ <-]|done]. Qed.

Lemma idle_kcall {A} (f : K -> K * A) : idle (kcall f).
Proof. intros p a p'. unfold kcall. destruct (f (p_k p)). by intros [= _ <-]. Qed.

Lemma idle_modify (f : proc K -> proc K) : (forall p, p_bos (f p) = p_bos p) -> idle (modify f).
Proof. by intros H p a p' [= _ <-]. Qed.

Lemma idle_bind {A B} (m : M K A) (f : A -> M K B) : idle m -> (forall a, idle (f a)) -> idle (mbind f m).
Proof.
  intros Hm Hf p b p'. unfold mbind, M_bind. destruct (m p) as [[a p1]|] eqn:E; [|done].
  intros E'. by rewrite (Hf _ _ _ _ E'), (Hm _ _ _ E).
Qed.

End rules.

#[export] Hint Resolve keeps_ret keeps_gets keeps_massert keeps_deref keeps_kcall keeps_kdo keeps_free_bo stays_ret
  : stays.

(** A buffer that was read, whatever of its use has changed since. *)
Ltac from_read :=
  solve [assumption | eapply from_same; [eassumption| |eassumption]; done
        | right; eapply le_other; [eassumption|eauto|by auto]].

Ltac idle_walk :=
  repeat match goal with
  | |- idle (mbind _ _) => apply idle_bind; [|intros ?]
  | |- idle (mret _) => apply idle_ret
  | |- idle (gets _) => apply idle_gets
  | |- idle (deref _) => apply idle_deref
  | |- idle (kcall _) => apply idle_kcall
  | |- idle (modify _) => apply idle_modify; done
  | |- idle (match ?x with _ => _ end) => destruct x
  end.

(** Walk through a computation: binds, branches, and the known parts. *)
Ltac keeps_walk :=
  repeat match goal with
  | |- keeps _ _ (mbind _ (get_ws _)) => apply keeps_get_ws; intros ? ?
  | |- keeps _ _ (mbind _ (get_bo _)) => apply keeps_get_bo; intros ? ?
  | |- keeps _ _ (mbind _ alloc_bo) => apply keeps_alloc; intros ? ?
  | |- keeps _ _ (mbind _ _) => apply keeps_bind; [|intros ?]
  | |- keeps _ _ (when _ _) => apply keeps_when
  | |- keeps _ _ (put_ws _ _) => apply keeps_put_ws; assumption
  | |- keeps _ _ (put_bo _ _) => apply keeps_put_bo; from_read
  | |- keeps _ _ (modify _) => apply keeps_modify; intros ?; simpl; repeat split; lia
  | |- keeps _ _ (get_bo _) => apply keeps_deref
  | |- keeps _ _ (if _ then _ else _) => apply keeps_if
  | |- keeps _ _ (match ?x with _ => _ end) => destruct x
  | |- keeps _ _ _ => solve [eauto with stays]
  end.

Section ops.
Context {K : Type} `{!Drm K} (p0 : proc K) (G : Z -> radv_amdgpu_winsys_bo -> Prop) (HG : lenient p0 G).
#[local] Set Default Proof Using "All".

Lemma keeps_churn size c : keeps p0 G (radv_xclipse_bo_churn (K := K) size c).
Proof. unfold radv_xclipse_bo_churn. keeps_walk. Qed.

Lemma keeps_count sign i bo : keeps p0 G (count_bo (K := K) sign i bo).
Proof.
  intros p a p' [H1 H2 H3] Ha. unfold count_bo, mbind, M_bind, deref, modify.
  destruct (p_trackers p !! ws_cookie i) as [t|] eqn:E; [|done]. destruct (bo_bytes i bo) as [[? ?] ?].
  intros [= _ <-]. split; [|done]. split; [done|done|]. intros c. simpl. destruct (decide (c = ws_cookie i)) as [->|].
  - by rewrite lookup_insert_eq, <- H3, E.
  - by rewrite lookup_insert_ne.
Qed.

Lemma keeps_memguard i size : keeps p0 G (xclipse_memguard_reject (K := K) i size).
Proof. unfold xclipse_memguard_reject. keeps_walk. Qed.

Lemma keeps_va_op w h o n a fl ifl ops : keeps p0 G (radv_amdgpu_bo_va_op (K := K) w h o n a fl ifl ops).
Proof. unfold radv_amdgpu_bo_va_op, radv_xclipse_mtype. keeps_walk. Qed.

#[local] Hint Resolve keeps_churn keeps_count keeps_memguard keeps_va_op : stays.

Lemma keeps_chunks fuel w h hs base off n ops : keeps p0 G (bind_low_chunks (K := K) fuel w h hs base off n ops).
Proof. revert off n. induction fuel as [|fuel IH]; intros off n; simpl; keeps_walk. Qed.

#[local] Hint Resolve keeps_chunks : stays.

Lemma keeps_bind_low w bo o n ops : keeps p0 G (radv_amdgpu_virtual_bo_bind_low_null_prt (K := K) w bo o n ops).
Proof. unfold radv_amdgpu_virtual_bo_bind_low_null_prt. keeps_walk. Qed.

#[local] Hint Resolve keeps_bind_low : stays.

Lemma keeps_init_mapping w bo n : keeps p0 G (radv_amdgpu_virtual_bo_init_mapping (K := K) w bo n).
Proof. unfold radv_amdgpu_virtual_bo_init_mapping. keeps_walk. Qed.

Lemma keeps_virtual_bind w b o n t bo : keeps p0 G (radv_amdgpu_winsys_bo_virtual_bind (K := K) w b o n t bo).
Proof.
  unfold radv_amdgpu_winsys_bo_virtual_bind, radv_amdgpu_virtual_bo_map, radv_amdgpu_virtual_bo_unmap. keeps_walk.
Qed.

Lemma keeps_list_add w b : keeps p0 G (radv_amdgpu_global_bo_list_add (K := K) w b).
Proof. unfold radv_amdgpu_global_bo_list_add. keeps_walk. Qed.

Lemma keeps_list_del w b : keeps p0 G (radv_amdgpu_global_bo_list_del (K := K) w b).
Proof. unfold radv_amdgpu_global_bo_list_del. keeps_walk. Qed.

#[local] Hint Resolve keeps_init_mapping keeps_list_add keeps_list_del : stays.

Lemma keeps_make_resident w b r : keeps p0 G (radv_amdgpu_winsys_bo_make_resident (K := K) w b r).
Proof. unfold radv_amdgpu_winsys_bo_make_resident. keeps_walk. Qed.

Lemma keeps_cache_take f : keeps p0 G (cache_take (K := K) f).
Proof. unfold cache_take. keeps_walk. Qed.

Lemma keeps_virtual_destroy w b : keeps p0 G (radv_amdgpu_winsys_virtual_bo_destroy (K := K) w b).
Proof. unfold radv_amdgpu_winsys_virtual_bo_destroy, radv_amdgpu_virtual_bo_clear_mapping. keeps_walk. Qed.

#[local] Hint Resolve keeps_cache_take keeps_virtual_destroy : stays.

Lemma keeps_destroy w b : keeps p0 G (radv_amdgpu_winsys_bo_destroy (K := K) w b).
Proof.
  unfold radv_amdgpu_winsys_bo_destroy, radv_xclipse_ibcache_park, bo_destroy_now, unmap_bo. keeps_walk.
Qed.

#[local] Hint Resolve keeps_destroy : stays.

Lemma keeps_purge fuel w : keeps p0 G (radv_xclipse_ibcache_purge_ws (K := K) fuel w).
Proof. induction fuel as [|fuel IH]; simpl; unfold purge_round; keeps_walk. Qed.

Lemma keeps_destroy_all w bs : keeps p0 G (destroy_all (K := K) w bs).
Proof. induction bs as [|b bs IH]; simpl; keeps_walk. Qed.

Lemma keeps_finish w b i bo : from p0 G b bo -> keeps p0 G (finish_bo (K := K) w b i bo).
Proof. intros Hf. unfold finish_bo. keeps_walk. Qed.

Lemma keeps_map_new w h n va fl : keeps p0 G (map_new_bo (K := K) w h n va fl).
Proof. unfold map_new_bo. keeps_walk. Qed.

#[local] Hint Resolve keeps_purge keeps_destroy_all keeps_map_new : stays.

Lemma keeps_create_fresh w n al d fl pr ra :
  allows_new p0 G w ra -> keeps p0 G (bo_create_fresh (K := K) w n al d fl pr ra).
Proof.
  intros Hnew. unfold bo_create_fresh. apply keeps_get_ws. intros ws Ht. apply keeps_alloc. intros [b|] Hb; [|keeps_walk].
  apply keeps_bind; [keeps_walk|intros _]. apply keeps_kcall_bind. intros k k' [[va vah]|] Hva; [|keeps_walk].
  apply keeps_bind; [keeps_walk|intros _]. apply keeps_kcall_bind. intros k1 k1' [buf|] Hbuf; [|keeps_walk].
  apply keeps_bind; [keeps_walk|intros kms]. apply keeps_bind; [keeps_walk|intros r].
  apply keeps_if; [keeps_walk|]. apply keeps_bind; [keeps_walk|intros _].
  apply keeps_bind; [|intros _; keeps_walk]. apply keeps_finish. right.
  eapply Hnew; [by apply Hb|exact Ht|]. split; [by exists k, k'|by exists k1, k1'].
Qed.

Lemma keeps_create_plain w n al d fl pr ra :
  allows_new p0 G w ra -> keeps p0 G (bo_create_plain (K := K) w n al d fl pr ra).
Proof.
  intros Hnew. pose proof (keeps_create_fresh w n al d fl pr ra Hnew).
  unfold bo_create_plain, radv_xclipse_ibcache_reuse. keeps_walk.
Qed.

Lemma keeps_init_null w : allows_new p0 G w 0 -> keeps p0 G (radv_amdgpu_init_null_prt_bo (K := K) w).
Proof.
  intros Hnew. unfold radv_amdgpu_init_null_prt_bo.
  apply keeps_get_ws. intros ws Ht. destruct (null_prt_bo ws); [keeps_walk|].
  apply keeps_bind; [by apply keeps_create_plain|]. intros [r ob]. keeps_walk.
Qed.

Lemma keeps_create w n al d fl pr ra :
  allows_new p0 G w (if has fl RADEON_FLAG_VIRTUAL then 0 else ra) ->
  keeps p0 G (radv_amdgpu_winsys_bo_create (K := K) w n al d fl pr ra).
Proof.
  unfold radv_amdgpu_winsys_bo_create. destruct (has fl RADEON_FLAG_VIRTUAL); intros Hnew; [|by apply keeps_create_plain].
  pose proof (keeps_init_null w Hnew).
  unfold radv_amdgpu_winsys_virtual_bo_create. keeps_walk.
  apply keeps_put_bo. destruct (has fl RADEON_FLAG_EMULATE_SPARSE_RESIDENCY); from_read.
Qed.

Lemma keeps_map w b f : keeps p0 G (radv_amdgpu_winsys_bo_map (K := K) w b f).
Proof. unfold radv_amdgpu_winsys_bo_map. keeps_walk. Qed.

Lemma keeps_unmap w b r : keeps p0 G (radv_amdgpu_winsys_bo_unmap (K := K) w b r).
Proof. unfold radv_amdgpu_winsys_bo_unmap. keeps_walk. Qed.

Ltac finish_walk := keeps_walk; apply keeps_finish; from_read.

Lemma keeps_from_ptr w a n pr : keeps p0 G (radv_amdgpu_winsys_bo_from_ptr (K := K) w a n pr).
Proof. unfold radv_amdgpu_winsys_bo_from_ptr. finish_walk. Qed.

Lemma keeps_from_fd w fd pr : keeps p0 G (radv_amdgpu_winsys_bo_from_fd (K := K) w fd pr).
Proof. unfold radv_amdgpu_winsys_bo_from_fd. finish_walk. Qed.

Lemma keeps_flags_from_fd w fd : keeps p0 G (radv_amdgpu_bo_get_flags_from_fd (K := K) w fd).
Proof. unfold radv_amdgpu_bo_get_flags_from_fd. keeps_walk. Qed.

(** The creation and the end of a winsys bring no buffer. *)
Lemma brings_winsys_create i : brings p0 G (radv_amdgpu_winsys_create (K := K) i).
Proof.
  apply brings_idle. unfold radv_amdgpu_winsys_create, radv_amdgpu_alloc_tracker_acquire,
    radv_amdgpu_alloc_tracker_release, put_ws. idle_walk.
Qed.

Lemma brings_winsys_destroy fuel w : brings p0 G (radv_amdgpu_winsys_destroy (K := K) fuel w).
Proof.
  unfold radv_amdgpu_winsys_destroy, radv_xclipse_ibcache_winsys_begin_destroy, radv_xclipse_ibcache_winsys_end_destroy.
  apply brings_bind; [keeps_walk|intros d]. apply brings_if; [apply brings_keeps; keeps_walk|].
  apply brings_get_ws. intros ws Ht. apply brings_bind; [keeps_walk|intros _].
  apply brings_bind; [keeps_walk|intros _]. apply brings_get_ws. intros ws' Ht'.
  apply brings_bind; [keeps_walk|intros _]. apply brings_bind; [keeps_walk|intros d'].
  apply brings_if; [apply brings_keeps; keeps_walk|]. apply brings_idle. unfold radv_amdgpu_alloc_tracker_release. idle_walk.
Qed.

End ops.

(** * What stays *)

Ltac by_keeps H := apply keeps_stays; intros ? ? ?; apply H; auto.

Section stays.
Context {K : Type} `{!Drm K}.

Lemma stays_create p0 w n al d fl pr ra : stays p0 (radv_amdgpu_winsys_bo_create (K := K) w n al d fl pr ra).
Proof. by_keeps @keeps_create. Qed.

Lemma stays_destroy p0 w b : stays p0 (radv_amdgpu_winsys_bo_destroy (K := K) w b).
Proof. by_keeps @keeps_destroy. Qed.

Lemma stays_map p0 w b f : stays p0 (radv_amdgpu_winsys_bo_map (K := K) w b f).
Proof. by_keeps @keeps_map. Qed.

Lemma stays_unmap p0 w b r : stays p0 (radv_amdgpu_winsys_bo_unmap (K := K) w b r).
Proof. by_keeps @keeps_unmap. Qed.

Lemma stays_from_ptr p0 w a n pr : stays p0 (radv_amdgpu_winsys_bo_from_ptr (K := K) w a n pr).
Proof. by_keeps @keeps_from_ptr. Qed.

Lemma stays_from_fd p0 w fd pr : stays p0 (radv_amdgpu_winsys_bo_from_fd (K := K) w fd pr).
Proof. by_keeps @keeps_from_fd. Qed.

Lemma stays_flags_from_fd p0 w fd : stays p0 (radv_amdgpu_bo_get_flags_from_fd (K := K) w fd).
Proof. by_keeps @keeps_flags_from_fd. Qed.

Lemma stays_make_resident p0 w b r : stays p0 (radv_amdgpu_winsys_bo_make_resident (K := K) w b r).
Proof. by_keeps @keeps_make_resident. Qed.

Lemma stays_virtual_bind p0 w b o n t bo : stays p0 (radv_amdgpu_winsys_bo_virtual_bind (K := K) w b o n t bo).
Proof. by_keeps @keeps_virtual_bind. Qed.

Lemma stays_purge p0 fuel w : stays p0 (radv_xclipse_ibcache_purge_ws (K := K) fuel w).
Proof. by_keeps @keeps_purge. Qed.

Lemma stays_destroy_all p0 w bs : stays p0 (destroy_all (K := K) w bs).
Proof. by_keeps @keeps_destroy_all. Qed.

End stays.

#[export] Hint Resolve stays_create stays_destroy stays_map stays_unmap stays_from_ptr stays_from_fd stays_flags_from_fd
  stays_make_resident stays_virtual_bind stays_purge stays_destroy_all : stays.
