(* ===== verification/BoWinsys.v ===== *)
(** The winsys itself: the trackers its instances share, its creation, and its end, after which
    nothing of it is left. *)

From stdpp Require Import gmap.
From S2P Require Import Prelude Pm4 BoModel BoLogic BoKernel BoInv BoVa BoBooks BoHeld BoDestroy BoFree BoCreate BoTeardown BoSteady.

(** How many winsys have the cookie [c]. *)
Definition winsys_count {K} (c : Z) (p : proc K) : Z :=
  bo_sum (fun _ i => if ws_cookie i =? c then 1 else 0) (ws_info <$> p_winsys p).

(** Winsys addresses are taken in order, and a tracker lives as long as a winsys that shares it. *)
Record winsyses {K} (p : proc K) : Prop := Winsyses {
  wn_next : forall w, is_Some (p_winsys p !! w) -> w < p_next p;
  wn_refs : forall c t, p_trackers p !! c = Some t -> tr_refcount t = winsys_count c p /\ 0 < tr_refcount t < W32;
  wn_none : forall c, p_trackers p !! c = None -> winsys_count c p = 0
}.

Section winsys.
Context {K : Type} `{!Drm K} `{!DrmView K} `{!DrmLaws K}.
Implicit Types (k : K) (p : proc K) (own : gmap Z (Z * winsys_info)).
#[local] Set Default Proof Using "All".

Lemma steady_count c p p' : steady p p' -> winsys_count c p' = winsys_count c p.
Proof.
  intros [H _ _]. unfold winsys_count. f_equal. apply map_eq. intros w. rewrite !lookup_fmap. apply H.
Qed.

Lemma steady_winsyses p p' : steady p p' -> winsyses p -> winsyses p'.
Proof.
  intros Hs [Hn Hr H0]. pose proof Hs as [Hw He Hc]. split.
  - intros w Hp. assert (is_Some (p_winsys p !! w)) as Hp'.
    { apply (fmap_is_Some ws_info). rewrite <- Hw. by apply fmap_is_Some. }
    specialize (Hn w Hp'). lia.
  - intros c t Ht. specialize (Hc c). rewrite Ht in Hc. destruct (p_trackers p !! c) as [t0|] eqn:E; [|done].
    injection Hc as Hc. rewrite (steady_count _ _ _ Hs), Hc. by apply Hr.
  - intros c Ht. specialize (Hc c). rewrite Ht in Hc. destruct (p_trackers p !! c) as [t0|] eqn:E; [done|].
    rewrite (steady_count _ _ _ Hs). by apply H0.
Qed.

Lemma count_insert c p w ws :
  p_winsys p !! w = None ->
  bo_sum (fun _ i => if ws_cookie i =? c then 1 else 0) (ws_info <$> <[w := ws]> (p_winsys p))
  = (if ws_cookie (ws_info ws) =? c then 1 else 0) + winsys_count c p.
Proof. intros Hw. rewrite fmap_insert, bo_sum_insert; [done|]. by rewrite lookup_fmap, Hw. Qed.

Lemma count_delete c p w ws :
  p_winsys p !! w = Some ws ->
  bo_sum (fun _ i => if ws_cookie i =? c then 1 else 0) (ws_info <$> delete w (p_winsys p))
  = winsys_count c p - (if ws_cookie (ws_info ws) =? c then 1 else 0).
Proof. intros Hw. rewrite fmap_delete, (bo_sum_delete _ _ w (ws_info ws)); [done|]. by rewrite lookup_fmap, Hw. Qed.

Lemma count_pos p w ws : p_winsys p !! w = Some ws -> 0 < winsys_count (ws_cookie (ws_info ws)) p.
Proof.
  intros Hw. unfold winsys_count.
  assert (1 <= bo_sum (fun _ i => if ws_cookie i =? ws_cookie (ws_info ws) then 1 else 0) (ws_info <$> p_winsys p)); [|lia].
  etrans; [|apply (bo_sum_ge _ _ w (ws_info ws))]; [cbv beta; by rewrite Z.eqb_refl|intros b x _; by destruct (_ =? _)|].
  by rewrite lookup_fmap, Hw.
Qed.

(** * Trackers *)

Lemma inv_trackers own p m :
  inv own p -> (forall c t, m !! c = Some t -> tracker_counts own (p_bos p) c t) ->
  (forall w ws, p_winsys p !! w = Some ws -> is_Some (m !! ws_cookie (ws_info ws))) ->
  inv own (set_trackers m p).
Proof.
  intros [[? ? ? ? ? ? [? ? ? ? ?] ? ? ?] ? ?] Hc Hs. split; simpl; [|done|done]. split; simpl; try done.
Qed.

(** No buffer counts for a device that no winsys is open on. *)
Lemma untracked_counts own p c n : inv own p -> p_trackers p !! c = None -> tracker_counts own (p_bos p) c (Tracker 0 0 0 n).
Proof.
  intros Hi Hc. assert (forall sel, bo_sum (share own c sel) (p_bos p) = 0) as Hz.
  { intros sel. destruct (Z.eq_dec (bo_sum (share own c sel) (p_bos p)) 0) as [|Hne]; [done|].
    apply bo_sum_pos in Hne as (b&bo&Hb&Hne). destruct Hne. unfold share.
    destruct (own !! b) as [[w i]|] eqn:Ho; [|done].
    destruct (bk_winsys _ _ (in_books _ _ Hi) b w i Ho) as (ws&Hw&<-).
    destruct (bk_trackers _ _ (in_books _ _ Hi) w ws Hw) as [t Ht].
    destruct (Z.eqb_spec (ws_cookie (ws_info ws)) c) as [<-|]; [congruence|done]. }
  unfold tracker_counts. by rewrite !Hz.
Qed.

(** The tracker of [cookie] has one more holder. *)
Definition acquired_tracker (m m' : gmap Z radv_amdgpu_alloc_tracker) (cookie : Z) : Prop :=
  match m !! cookie with
  | Some t => m' = <[cookie := Tracker (allocated_vram t) (allocated_vram_vis t) (allocated_gtt t)
                                 (u32 (tr_refcount t + 1))]> m
  | None => m' = <[cookie := Tracker 0 0 0 1]> m
  end.

Lemma wp_acquire cookie (Q : bool -> proc K -> Prop) p :
  (forall k, same_view (p_k p) k -> Q false (set_k k p)) ->
  (forall k m', same_view (p_k p) k -> acquired_tracker (p_trackers p) m' cookie -> Q true (set_trackers m' (set_k k p))) ->
  wp (radv_amdgpu_alloc_tracker_acquire cookie) Q p.
Proof.
  intros Hf Ht. unfold radv_amdgpu_alloc_tracker_acquire. wp_step.
  eapply (wp_seq _ _ (fun _ p1 => exists k, same_view (p_k p) k /\ p1 = set_k k p)).
  { destruct (decide _).
    - apply wp_kcall. intros k a Hk. apply calloc_silent in Hk. by exists k.
    - apply wp_ret. exists (p_k p). split; [apply same_view_refl|by destruct p]. }
  intros table p1 (k&Hk&->). apply wp_if; intros _; [apply wp_ret; by apply Hf|]. unfold acquired_tracker in Ht.
  destruct (p_trackers p !! cookie) as [t|].
  - wp_step. apply wp_ret. by apply Ht.
  - apply wp_bind, wp_kcall. intros k' ok Hk'. apply calloc_silent in Hk'.
    assert (same_view (p_k p) k') as Hs by (etrans; [exact Hk|exact Hk']).
    apply wp_if; intros _; [apply wp_ret; by apply (Hf k')|]. wp_step. apply wp_ret. by apply (Ht k').
Qed.

Lemma acquired_inv own p m' cookie : inv own p -> acquired_tracker (p_trackers p) m' cookie -> inv own (set_trackers m' p).
Proof.
  intros Hi Ha. apply inv_trackers; [done| |].
  - intros c t Ht. unfold acquired_tracker in Ha. destruct (p_trackers p !! cookie) as [t0|] eqn:E; subst m';
      apply lookup_insert_Some in Ht as [[<- <-]|[_ Ht]]; try by apply (bk_counts _ _ (in_books _ _ Hi)).
    + destruct (bk_counts _ _ (in_books _ _ Hi) cookie t0 E) as (?&?&?). by repeat split.
    + by apply untracked_counts.
  - intros w ws Hw. destruct (bk_trackers _ _ (in_books _ _ Hi) w ws Hw) as [t Ht].
    unfold acquired_tracker in Ha. destruct (p_trackers p !! cookie); subst m'; rewrite lookup_insert_is_Some';
      right; by exists t.
Qed.

(** The invariant does not look at the addresses of the winsys that are not there yet. *)
Lemma inv_new_winsys own p i :
  inv own p -> (forall w, is_Some (p_winsys p !! w) -> w < p_next p) -> info_ok (K := K) i -> is_Some (p_trackers p !! ws_cookie i) ->
  inv own (set_winsys (<[p_next p := Winsys i [] 0 0 None []]> (p_winsys p)) (set_next (p_next p + 1) p)).
Proof.
  intros [[Hdom Hnext Hsz Hws Htr Hct [? ? ? ? ?] Hls Hld Hch] Hh Hin] Hn Hi Ht.
  assert (forall w ws, p_winsys p !! w = Some ws -> w <> p_next p) as Hne.
  { intros w ws Hw ->. specialize (Hn (p_next p) (mk_is_Some _ _ Hw)). lia. }
  split; simpl; [|done|].
  - split; simpl; try done.
    + intros b Hb. specialize (Hnext b Hb). lia.
    + intros b w i' Ho. destruct (Hws b w i' Ho) as (ws&Hw&?). exists ws.
      rewrite lookup_insert_ne; [done|]. apply not_eq_sym. by eapply Hne.
    + intros w ws [[<- <-]|[_ Hw]]%lookup_insert_Some; [done|by eapply Htr].
    + intros w ws [[<- <-]|[_ Hw]]%lookup_insert_Some; [|by apply Hls].
      split; simpl; [apply NoDup_nil_2|by intros b ?%elem_of_nil|done].
    + intros b w i' bo ws Ho Hb [[<- <-]|[_ Hw]]%lookup_insert_Some Hu; [|by eapply Hld].
      destruct (Hws b _ i' Ho) as (ws&Hw&_). by destruct (Hne _ _ Hw).
  - intros w ws [[<- <-]|[_ Hw]]%lookup_insert_Some; [done|by eapply Hin].
Qed.

Lemma winsyses_new p i m' :
  winsyses p -> acquired_tracker (p_trackers p) m' (ws_cookie i) -> winsys_count (ws_cookie i) p + 1 < W32 ->
  winsyses (set_winsys (<[p_next p := Winsys i [] 0 0 None []]> (p_winsys p))
              (set_next (p_next p + 1) (set_trackers m' p))).
Proof.
  intros [Hn Hr H0] Ha Hlt. assert (p_winsys p !! p_next p = None) as Hnone.
  { apply eq_None_not_Some. intros H. specialize (Hn _ H). lia. }
  assert (forall c, winsys_count c (set_winsys (<[p_next p := Winsys i [] 0 0 None []]> (p_winsys p))
              (set_next (p_next p + 1) (set_trackers m' p))) = (if ws_cookie i =? c then 1 else 0) + winsys_count c p) as Hc.
  { intros c. by apply (count_insert c p). }
  split; simpl.
  - intros w [ws [[<- _]|[_ Hw]]%lookup_insert_Some]; [lia|]. specialize (Hn w (mk_is_Some _ _ Hw)). lia.
  - intros c t Ht. rewrite Hc. unfold acquired_tracker in Ha.
    destruct (p_trackers p !! ws_cookie i) as [t0|] eqn:E; subst m';
      apply lookup_insert_Some in Ht as [[<- <-]|[Hne Ht]]; simpl; rewrite ?Z.eqb_refl.
    + destruct (Hr _ _ E) as [E1 ?]. rewrite u32_small by lia. lia.
    + rewrite (proj2 (Z.eqb_neq _ _) Hne). by apply Hr.
    + rewrite (H0 _ E). done.
    + rewrite (proj2 (Z.eqb_neq _ _) Hne). by apply Hr.
  - intros c Ht. rewrite Hc. unfold acquired_tracker in Ha.
    destruct (p_trackers p !! ws_cookie i) as [t0|] eqn:E; subst m'; apply lookup_insert_None in Ht as [Ht Hne];
      rewrite (proj2 (Z.eqb_neq _ _) Hne); by apply H0.
Qed.

Lemma framed_steady p p' : framed p p' -> steady p p'.
Proof.
  intros [Hw _ Ht _ _ _ _ Hn]. split; [|done|by rewrite Ht]. intros w. specialize (Hw w).
  inversion Hw as [ws ws' (E&_) E1 E2|]; simpl; congruence.
Qed.

(** * Creation *)

(** Giving the tracker back undoes the acquisition. *)
Lemma wp_release_acquired p m' cookie (Q : unit -> proc K -> Prop) :
  winsyses p -> acquired_tracker (p_trackers p) m' cookie -> winsys_count cookie p + 1 < W32 ->
  forall k, Q tt (set_k k p) -> wp (radv_amdgpu_alloc_tracker_release cookie) Q (set_k k (set_trackers m' p)).
Proof.
  intros [_ Hr _] Ha Hlt k HQ. unfold radv_amdgpu_alloc_tracker_release, acquired_tracker in *. apply wp_bind.
  assert (set_trackers (p_trackers p) (set_k k p) = set_k k p) as Es by by destruct p.
  destruct (p_trackers p !! cookie) as [t|] eqn:E; subst m'; (eapply wp_deref; [simpl; apply lookup_insert_eq|]);
    apply wp_modify; simpl.
  - destruct (Hr _ _ E) as [E1 ?]. rewrite (u32_small (tr_refcount t + 1)) by lia.
    replace (tr_refcount t + 1 - 1) with (tr_refcount t) by lia. rewrite u32_small by lia.
    rewrite (proj2 (Z.eqb_neq _ _)) by lia. rewrite insert_insert_eq.
    destruct t as [v vv g n]. simpl. rewrite insert_id by done. unfold set_trackers in *. simpl in *. by rewrite Es.
  - rewrite delete_insert_id by done. unfold set_trackers in *. simpl in *. by rewrite Es.
Qed.

Lemma wp_winsys_create own p i (Q : VkResult * option Z -> proc K -> Prop) :
  inv own p -> winsyses p -> info_ok (K := K) i -> winsys_count (ws_cookie i) p + 1 < W32 ->
  (forall r p', inv own p' -> framed p p' -> Q (r, None) p') ->
  (forall p' k m', inv own p' -> winsyses p' -> same_view (p_k p) k -> 
     p' = set_winsys (<[p_next p := Winsys i [] 0 0 None []]> (p_winsys p))
            (set_next (p_next p + 1) (set_trackers m' (set_k k p))) ->
     Q (VK_SUCCESS, Some (p_next p)) p') ->
  wp (radv_amdgpu_winsys_create i) Q p.
Proof.
  intros Hi Hw Hin Hlt Hfail HQ. unfold radv_amdgpu_winsys_create. apply wp_bind, wp_kcall.
  intros k1 ok Hk1. apply calloc_silent in Hk1. pose proof (inv_silent own p k1 Hk1 Hi) as Hi1.
  apply wp_if; intros _; [apply wp_ret, Hfail; [done|apply framed_k]|]. apply wp_bind, wp_acquire.
  - intros k2 Hk2. apply wp_if; intros E; [clear E|done].
    apply wp_ret, Hfail; [by apply (inv_silent own (set_k k1 p))|exact (framed_k k2 p)].
  - intros k2 m' Hk2 Ha. simpl in Hk2, Ha. apply wp_if; intros E; [done|clear E].
    apply wp_bind, wp_kcall. simpl. intros k3 sync Hk3. apply syncobj_silent in Hk3. 
    assert (same_view (p_k p) k3) as Hk by (etrans; [exact Hk1|]; by etrans).
    pose proof (inv_silent own p k3 Hk Hi) as Hi3.
    apply wp_if; intros _.
    + apply wp_bind. apply (wp_release_acquired p m' (ws_cookie i) _ Hw Ha Hlt k3). apply wp_ret, Hfail; [done|apply framed_k].
    + do 3 wp_step. apply wp_ret. simpl. apply (HQ _ k3 m'); [| |done|done].
      * apply (inv_new_winsys own (set_trackers m' (set_k k3 p)) i); [|apply Hw|done|].
        -- by apply (acquired_inv own (set_k k3 p) m' (ws_cookie i)).
        -- simpl. unfold acquired_tracker in Ha.
           destruct (p_trackers p !! ws_cookie i); subst m'; eexists; apply lookup_insert_eq.
      * destruct (winsyses_new p i m' Hw Ha Hlt) as [? ? ?]. by split.
Qed.

(** * The end of a winsys *)

(** The client has destroyed its buffers of [w]: what is left is parked, the zero buffer, or in the
    cache of command streams. *)
Record closable own p w ws : Prop := Closable {
  cl_winsys : p_winsys p !! w = Some ws;
  cl_dying : p_dying p = None;
  cl_ib : NoDup (ib_cache_bos ws);
  cl_ib_bos : forall b, (b ∈ ib_cache_bos ws) -> destroyable own p w b;
  cl_rest : forall b i, own !! b = Some (w, i) ->
    (b ∈ parked w (p_cache p)) \/ null_prt_bo ws = Some b \/ b ∈ ib_cache_bos ws
}.

(** Nothing of [w] is left, and the rest is as it was. *)
Record closed own p w own' p' : Prop := Closed {
  cd_inv : inv own' p';
  cd_winsyses : winsyses p';
  cd_gone : p_winsys p' !! w = None;
  cd_dying : p_dying p' = None;
  cd_others : forall w' ws, w' <> w -> p_winsys p !! w' = Some ws ->
    exists ws', p_winsys p' !! w' = Some ws' /\ ws_info ws' = ws_info ws /\ null_prt_bo ws' = null_prt_bo ws
      /\ ib_cache_bos ws' = ib_cache_bos ws;
  cd_known : forall w', is_Some (p_winsys p' !! w') -> is_Some (p_winsys p !! w');
  cd_cache : p_cache p' ≡ₚ filter (fun e => e_ws e <> w) (p_cache p);
  cd_bos : forall b, match own !! b with
    | Some (w', i) => if decide (w' = w) then own' !! b = None /\ p_bos p' !! b = None
                      else own' !! b = Some (w', i) /\ p_bos p' !! b = p_bos p !! b
    | None => own' !! b = None
    end
}.

Lemma inv_dying own p d : p_dying p = None -> inv own p -> inv own (set_dying d p).
Proof.
  intros Hd [[? ? ? ? ? ? [? ? ? ? ?] Hls ? ?] ? ?]. split; simpl; [|done|done]. split; simpl; try done.
  intros w ws Hw. destruct (Hls w ws Hw) as [? ? Hn]. split; [done|done|]. intros b _. apply Hn. by rewrite Hd.
Qed.

Lemma null_not_cached own p w ws nb : inv own p -> p_winsys p !! w = Some ws -> p_dying p <> Some w ->
  null_prt_bo ws = Some nb -> nb ∉ e_bo <$> p_cache p.
Proof.
  intros Hi Hw Hd Hn Hin. destruct (wo_null _ _ _ _ _ (bk_lists _ _ (in_books _ _ Hi) w ws Hw) nb Hd Hn) as (bo&_&Hb&Hf&_).
  apply list_elem_of_fmap in Hin as (e&->&He). pose proof (ca_entries _ _ (bk_cache _ _ (in_books _ _ Hi))) as Hall.
  rewrite Forall_forall in Hall. destruct (Hall e He) as (i&bo'&_&Hb'&_&Hca&_). rewrite Hb in Hb'. injection Hb' as <-.
  unfold radv_xclipse_ibcache_cacheable in Hca. rewrite Hf in Hca. by destruct (is_virtual bo || imported bo).
Qed.

(** The last steps: the winsys, of which nothing is left, gives its tracker back and goes. *)
Lemma inv_leave own p w ws t :
  inv own p -> winsyses p -> p_winsys p !! w = Some ws -> p_dying p = Some w -> 
  (forall b i, own !! b <> Some (w, i)) -> p_trackers p !! ws_cookie (ws_info ws) = Some t ->
  let n := u32 (tr_refcount t - 1) in
  let m := if n =? 0 then delete (ws_cookie (ws_info ws)) (p_trackers p)
           else <[ws_cookie (ws_info ws) := Tracker (allocated_vram t) (allocated_vram_vis t) (allocated_gtt t) n]> (p_trackers p) in
  let p' := set_winsys (delete w (p_winsys p)) (set_trackers m (set_dying None p)) in
  inv own p' /\ winsyses p'.
Proof.
  intros [[Hdom Hnext Hsz Hws Htr Hct [? ? ? ? ?] Hls Hld Hch] Hh Hin] [Hn Hr H0] Hw Hd Hown Ht n m p'.
  set (c := ws_cookie (ws_info ws)) in *. destruct (Hr _ _ Ht) as [Ec Hc].
  assert (n = tr_refcount t - 1) as En by (unfold n; rewrite u32_small by lia; done).
  assert (forall c', winsys_count c' p' = winsys_count c' p - (if c =? c' then 1 else 0)) as Hcnt.
  { intros c'. by apply (count_delete c' p). }
  assert (forall c' t', m !! c' = Some t' -> exists t0, p_trackers p !! c' = Some t0
            /\ allocated_vram t' = allocated_vram t0 /\ allocated_vram_vis t' = allocated_vram_vis t0
            /\ allocated_gtt t' = allocated_gtt t0
            /\ tr_refcount t' = tr_refcount t0 - (if c =? c' then 1 else 0) /\ 0 < tr_refcount t') as Hm.
  { intros c' t' Ht'. unfold m in Ht'. destruct (Z.eqb_spec n 0) as [Ez|Hnz].
    - apply lookup_delete_Some in Ht' as [Hne Ht']. exists t'. rewrite (proj2 (Z.eqb_neq c c') Hne).
      destruct (Hr _ _ Ht'). split_and!; try done; lia.
    - apply lookup_insert_Some in Ht' as [[<- <-]|[Hne Ht']].
      + exists t. rewrite Z.eqb_refl. simpl. split_and!; try done; lia.
      + exists t'. rewrite (proj2 (Z.eqb_neq c c') Hne). destruct (Hr _ _ Ht'). split_and!; try done; lia. }
  split.
  - split; simpl; [|done|intros w' ws' [_ Hw']%lookup_delete_Some; by eapply Hin]. split; simpl; try done.
    + intros b w' i Ho. destruct (Hws b w' i Ho) as (ws'&Hw'&?). exists ws'. rewrite lookup_delete_ne; [done|].
      intros <-. by eapply Hown.
    + intros w' ws' [Hne Hw']%lookup_delete_Some. destruct (Htr w' ws' Hw') as [t' Ht']. unfold m.
      destruct (decide (ws_cookie (ws_info ws') = c)) as [E|Hnc].
      * rewrite E. destruct (Z.eqb_spec n 0) as [Ez|]; [|rewrite lookup_insert_eq; by eexists].
        assert (0 < winsys_count c p') as Hpos.
        { rewrite <- E. apply (count_pos p' w'). simpl. by rewrite lookup_delete_ne. }
        rewrite Hcnt, Z.eqb_refl in Hpos. lia.
      * destruct (n =? 0); [rewrite lookup_delete_ne by done|rewrite lookup_insert_ne by done]; by exists t'.
    + intros c' t' Ht'. destruct (Hm _ _ Ht') as (t0&Ht0&E1&E2&E3&_). destruct (Hct _ _ Ht0) as (?&?&?).
      unfold tracker_counts. by rewrite E1, E2, E3.
    + intros w' ws' [Hne Hw']%lookup_delete_Some. destruct (Hls w' ws' Hw') as [? ? Hnl]. split; [done|done|].
      intros b _. apply Hnl. rewrite Hd. congruence.
    + intros b w' i bo ws' Ho Hb [_ Hw']%lookup_delete_Some Hu. by eapply Hld.
  - split; simpl.
    + intros w' [ws' [_ Hw']%lookup_delete_Some]. apply Hn. by exists ws'.
    + intros c' t' Ht'. destruct (Hm _ _ Ht') as (t0&Ht0&_&_&_&E&?). destruct (Hr _ _ Ht0) as [E0 ?].
      change (winsys_count c' p') with (winsys_count c' p'). rewrite Hcnt. split; [lia|]. destruct (c =? c'); lia.
    + intros c' Ht'. rewrite Hcnt. destruct (Z.eqb_spec c c') as [<-|Hne].
      * unfold m in Ht'. destruct (Z.eqb_spec n 0); [lia|]. by rewrite lookup_insert_eq in Ht'.
      * rewrite Z.sub_0_r. apply H0. unfold m in Ht'.
        destruct (n =? 0); [by rewrite lookup_delete_ne in Ht'|by rewrite lookup_insert_ne in Ht'].
Qed.

(** The caches of a winsys are not part of the invariant. *)
Lemma inv_put_ws own p w ws ws' :
  p_winsys p !! w = Some ws -> ws_info ws' = ws_info ws -> global_bos ws' = global_bos ws ->
  null_prt_bo ws' = null_prt_bo ws -> inv own p -> inv own (set_winsys (<[w := ws']> (p_winsys p)) p).
Proof.
  intros Hw Ei Eg En [[Hdom Hnext Hsz Hws Htr Hct [? ? ? ? ?] Hls Hld Hch] Hh Hin]. split; simpl; [|done|].
  - split; simpl; try done.
    + intros b w' i Ho. destruct (Hws b w' i Ho) as (ws0&Hw0&E). destruct (decide (w' = w)) as [->|].
      * exists ws'. rewrite lookup_insert_eq. rewrite Hw in Hw0. injection Hw0 as <-. split; [done|congruence].
      * exists ws0. by rewrite lookup_insert_ne.
    + intros w' ws0 [[<- <-]|[_ H]]%lookup_insert_Some; [rewrite Ei; by eapply Htr|by eapply Htr].
    + intros w' ws0 [[<- <-]|[_ H]]%lookup_insert_Some; [|by eapply Hls].
      destruct (Hls w ws Hw) as [? ? ?]. split; by rewrite ?Ei, ?Eg, ?En.
    + intros b w' i bo ws0 Ho Hb [[<- <-]|[_ H]]%lookup_insert_Some Hu; [rewrite Eg; by eapply Hld|by eapply Hld].
  - intros w' ws0 [[<- <-]|[_ H]]%lookup_insert_Some; [rewrite Ei|]; by eapply Hin.
Qed.

(** The zero buffer, if there is one. *)
Definition null_list (ws : radv_amdgpu_winsys) : list Z := match null_prt_bo ws with Some b => [b] | None => [] end.

Lemma wp_destroy_null own p w ws (Q : unit -> proc K -> Prop) :
  inv own p -> p_dying p = Some w -> (forall b, null_prt_bo ws = Some b -> destroyable own p w b) ->
  (null_prt_bo ws <> None -> has_smem_with_null_prt_bug (ws_info ws) = true) ->
  (forall own' p', departed own p (null_list ws) (p_cache p) own' p' -> Q tt p') ->
  wp (match null_prt_bo ws with
      | Some b => when (has_smem_with_null_prt_bug (ws_info ws)) (radv_amdgpu_winsys_bo_destroy w b)
      | None => mret tt
      end) Q p.
Proof.
  intros Hi Hd Hb Hbug HQ. unfold null_list in HQ. destruct (null_prt_bo ws) as [b|].
  - rewrite (Hbug ltac:(done)). apply (wp_destroy_dying own p w b); [done|done|by apply Hb|]. intros p' Hp'. by eapply HQ.
  - apply wp_ret. eapply HQ. by apply departed_refl.
Qed.

Lemma parked_cached w l b : b ∈ parked w l -> b ∈ e_bo <$> l.
Proof. intros (e&->&He)%list_elem_of_fmap. apply list_elem_of_filter in He as [_ ?]. by apply list_elem_of_fmap_2. Qed.

Lemma filter_cached w (l : list radv_xclipse_ibcache_entry) b : b ∈ e_bo <$> filter (fun e => e_ws e <> w) l -> b ∈ e_bo <$> l.
Proof. intros (e&->&He)%list_elem_of_fmap. apply list_elem_of_filter in He as [_ ?]. by apply list_elem_of_fmap_2. Qed.

Lemma parked_filtered w (l l' : list radv_xclipse_ibcache_entry) : l' ≡ₚ filter (fun e => e_ws e <> w) l -> parked w l' = [].
Proof.
  intros Hl. unfold parked. rewrite filter_none; [done|]. intros e He. rewrite Hl in He.
  by apply list_elem_of_filter in He as [? _].
Qed.

(** The zero buffer may be destroyed by its dying winsys. *)
Lemma null_destroyable own p w ws nb :
  inv own p -> p_winsys p !! w = Some ws -> p_dying p = None -> null_prt_bo ws = Some nb ->
  destroyable own (set_dying (Some w) p) w nb /\ has_smem_with_null_prt_bug (ws_info ws) = true.
Proof.
  intros Hi Hw Hd Hn. assert (p_dying p <> Some w) as Hd' by congruence.
  destruct (wo_null _ _ _ _ _ (bk_lists _ _ (in_books _ _ Hi) w ws Hw) nb Hd' Hn) as (bo&Ho&Hb&_&_&Hv&Hl&Hbug).
  split; [|done]. exists ws, bo. conj_split; try done; [exact (null_not_cached own p w ws nb Hi Hw Hd' Hn)|by right|naive_solver].
Qed.

Lemma closing_destroyable own p w b :
  destroyable own p w b -> p_dying p = None -> destroyable own (set_dying (Some w) p) w b.
Proof. intros (ws&bo&?&?&?&?&?&?) _. exists ws, bo. conj_split; try done. by right. Qed.

(** What the three kinds of buffers of a closing winsys leave. *)
Lemma closing_rest own p w ws l c own' p' :
  closable own p w ws -> departed own (set_dying (Some w) p) l c own' p' ->
  (forall b, (b ∈ parked w (p_cache p)) \/ null_prt_bo ws = Some b \/ b ∈ ib_cache_bos ws -> b ∈ l) ->
  forall b i, own' !! b <> Some (w, i).
Proof.
  intros [_ _ _ _ Hrest] Hdep Hl b i Ho. destruct (decide (b ∈ l)) as [Hb|Hb].
  - destruct (dp_gone _ _ _ _ _ _ Hdep b Hb) as [E _]. congruence.
  - destruct (dp_kept _ _ _ _ _ _ Hdep b Hb) as [E _]. rewrite E in Ho. destruct Hb. apply Hl. by eapply Hrest.
Qed.

(** The end, from the state in which all buffers are gone. *)
Lemma wp_leave own p w ws fuel (Q : bool -> proc K -> Prop) :
  inv own p -> winsyses p -> p_winsys p !! w = Some ws -> p_dying p = Some w -> parked w (p_cache p) = [] ->
  (0 < fuel)%nat -> (forall b i, own !! b <> Some (w, i)) ->
  (forall p', inv own p' -> winsyses p' -> p_winsys p' = delete w (p_winsys p) -> p_dying p' = None ->
     p_next p' = p_next p -> p_cache p' = p_cache p -> p_bos p' = p_bos p -> Q true p') ->
  wp (let! done := radv_xclipse_ibcache_winsys_end_destroy fuel w ;;
      if negb done then mret false
      else
        let! _ := radv_amdgpu_alloc_tracker_release (ws_cookie (ws_info ws)) ;;
        let! _ := modify (fun p => set_winsys (delete w (p_winsys p)) p) ;;
        mret true) Q p.
Proof.
  intros Hi Hws Hw Hd Hpk Hfuel Hown HQ. unfold radv_xclipse_ibcache_winsys_end_destroy.
  destruct fuel as [|fuel]; [lia|]. simpl. do 2 apply wp_bind. apply wp_bind. apply wp_bind. apply (wp_cache_take own); [done| |].
  2:{ intros j e Hj He%Z.eqb_eq _ _ _. assert (e ∈ p_cache p) as Hin by by eapply list_elem_of_lookup_2.
      assert (e_bo e ∈ parked w (p_cache p)) as Hb.
      { apply list_elem_of_fmap_2, list_elem_of_filter. done. }
      rewrite Hpk in Hb. by apply elem_of_nil in Hb. }
  intros _. do 2 apply wp_ret. simpl. wp_step. rewrite Hd, bool_decide_eq_true_2 by done. simpl. wp_step. apply wp_ret. simpl.
  destruct (bk_trackers _ _ (in_books _ _ Hi) w ws Hw) as [t Ht].
  destruct (inv_leave own p w ws t Hi Hws Hw Hd Hown Ht) as [Hi' Hw'].
  apply wp_bind. unfold radv_amdgpu_alloc_tracker_release. apply wp_bind. eapply wp_deref; [exact Ht|].
  do 2 wp_step. apply wp_ret. by apply HQ.
Qed.

(** The buffers of a closing winsys: the cache is emptied, then the zero buffer and the command
    buffers go. *)
Lemma wp_close_buffers own p w ws fuel (Q : bool -> proc K -> Prop) (rest : M K bool) :
  inv own p -> closable own p w ws -> (64 < fuel)%nat ->
  (forall own' p', departed own (set_dying (Some w) p)
       (parked w (p_cache p) ++ null_list ws ++ ib_cache_bos ws)
       (filter (fun e => e_ws e <> w) (p_cache p)) own' p' -> steady p p' -> wp rest Q p') ->
  wp (let! done := radv_xclipse_ibcache_winsys_begin_destroy fuel w ;;
      if negb done then mret false
      else
        let! ws := get_ws w ;;
        let! _ :=
          (match null_prt_bo ws with
           | Some b => when (has_smem_with_null_prt_bug (ws_info ws)) (radv_amdgpu_winsys_bo_destroy w b)
           | None => mret tt
           end) ;;
        let! _ := destroy_all w (ib_cache_bos ws) ;;
        rest) Q p.
Proof.
  intros Hi [Hw Hd Hnd Hib Hrest] Hfuel HQ. set (p0 := set_dying (Some w) p) in *.
  assert (inv own p0) as Hi0 by by apply inv_dying.
  assert (forall b ws, p_winsys p0 !! w = Some ws -> null_prt_bo ws <> Some b \/ p_dying p0 = Some w) as Hdn by by right.
  unfold radv_xclipse_ibcache_winsys_begin_destroy. apply wp_bind. wp_step. fold p0.
  apply wp_steady; [auto with stays|]. apply (wp_purge own p0 w); [done|done| |].
  { pose proof (ca_count _ _ (bk_cache _ _ (in_books _ _ Hi))) as Hc. change RADV_XCLIPSE_IBCACHE_BUCKETS with 64 in Hc.
    unfold parked. rewrite length_fmap. eapply Nat.le_lt_trans; [apply length_filter|]. simpl. lia. }
  intros own1 p1 Hp1 Hs1. unfold purged in Hp1. simpl. destruct (dp_winsys _ _ _ _ _ _ Hp1 w ws Hw) as (ws1&Hw1&Ei1&En1&Eib1).
  apply wp_bind. eapply wp_get_ws; [exact Hw1|]. rewrite Ei1, En1, Eib1.
  assert (p_dying p1 = Some w) as Hd1 by by rewrite (dp_dying _ _ _ _ _ _ Hp1).
  apply wp_bind, wp_steady.
  { intros q. destruct (null_prt_bo ws); [apply stays_when; auto with stays|apply stays_ret]. }
  apply (wp_destroy_null own1 p1 w ws); [apply Hp1|done| | |].
  { intros nb Hn. destruct (null_destroyable own p w ws nb Hi Hw Hd Hn) as [Hds _].
    eapply destroyable_kept; [exact Hp1|apply filter_cached| |by apply Hdn|exact Hds].
    intros Hin%parked_cached. revert Hin. apply (null_not_cached own p w ws nb Hi Hw); [by rewrite Hd|done]. }
  { intros Hn. destruct (null_prt_bo ws) as [nb|] eqn:En; [|done].
    by destruct (null_destroyable own p w ws nb Hi Hw Hd En). }
  intros own2 p2 Hp2 Hs2. assert (p_dying p2 = Some w) as Hd2 by by rewrite (dp_dying _ _ _ _ _ _ Hp2).
  apply wp_bind, wp_steady; [auto with stays|]. apply (wp_destroy_all own2 p2 w); [apply Hp2|done|done| |].
  { intros b Hb. pose proof (Hib b Hb) as Hds. pose proof Hds as (ws'&bo&Hw'&_&_&Hnc&Hnn&_).
    rewrite Hw in Hw'. injection Hw' as <-.
    eapply destroyable_kept; [exact Hp2|done| |by right|].
    - unfold null_list. destruct (null_prt_bo ws) as [nb|]; [|apply not_elem_of_nil].
      rewrite list_elem_of_singleton. intros ->. destruct Hnn as [?|?]; congruence.
    - eapply destroyable_kept; [exact Hp1|apply filter_cached| |by apply Hdn|by apply closing_destroyable].
      by intros Hin%parked_cached. }
  intros own3 p3 Hp3 Hs3. eapply HQ.
  - eapply departed_perm; [done| |eapply departed_trans; [exact Hp1|]; eapply departed_trans; [exact Hp2|exact Hp3]].
    by rewrite (dp_cache _ _ _ _ _ _ Hp2), (dp_cache _ _ _ _ _ _ Hp1).
  - eapply steady_trans; [by destruct Hs1; split|]. by eapply steady_trans.
Qed.

Lemma wp_winsys_destroy own p w ws fuel (Q : bool -> proc K -> Prop) :
  inv own p -> winsyses p -> closable own p w ws -> (64 < fuel)%nat ->
  (forall own' p', closed own p w own' p' -> p_next p <= p_next p' -> Q true p') ->
  wp (radv_amdgpu_winsys_destroy fuel w) Q p.
Proof.
  intros Hi Hws Hcl Hfuel HQ. pose proof Hcl as [Hw Hd Hnd Hib Hrest]. unfold radv_amdgpu_winsys_destroy.
  apply (wp_close_buffers own p w ws fuel); [done|done|done|]. intros own3 p3 Hp3 Hs3.
  destruct (dp_winsys _ _ _ _ _ _ Hp3 w ws Hw) as (ws3&Hw3&Ei3&En3&Eib3).
  assert (p_dying p3 = Some w) as Hd3 by by rewrite (dp_dying _ _ _ _ _ _ Hp3).
  apply wp_bind. eapply wp_get_ws; [exact Hw3|]. wp_step. set (ws4 := Winsys _ _ _ _ _ _). set (p4 := set_winsys _ p3).
  assert (forall b i, own3 !! b <> Some (w, i)) as Hgone.
  { eapply closing_rest; [exact Hcl|exact Hp3|]. intros b Hb. rewrite !elem_of_app. unfold null_list.
    destruct Hb as [?|[->|?]]; [by left|right; left; by left|by right; right]. }
  assert (global_bos ws3 = []) as Eg.
  { destruct (global_bos ws3) as [|b l] eqn:E; [done|].
    destruct (wo_global _ _ _ _ _ (bk_lists _ _ (in_books _ _ (dp_inv _ _ _ _ _ _ Hp3)) w ws3 Hw3) b) as (bo&Ho&_).
    { rewrite E. by left. } by destruct (Hgone b (ws_info ws3)). }
  assert (inv own3 p4) as Hi4 by (apply (inv_put_ws own3 p3 w ws3 ws4); [done|done|by rewrite Eg|done|apply Hp3]).
  assert (winsyses p4) as Hws4.
  { apply (steady_winsyses p); [|done]. eapply steady_trans; [exact Hs3|].
    eapply (stays_put_ws p3 w ws4); [|apply steady_refl|done]. unfold told. by rewrite Hw3. }
  assert (p_winsys p4 !! w = Some ws4) as Hw4 by apply lookup_insert_eq.
  apply (wp_leave own3 p4 w ws4 fuel); try done.
  { apply (parked_filtered w (p_cache p)). apply (dp_cache _ _ _ _ _ _ Hp3). }
  { lia. }
  intros p' Hi' Hws' Ew' Ed' En' Ec' Eb'. apply (HQ own3).
  2:{ rewrite En'. apply (dp_next _ _ _ _ _ _ Hp3). }
  split; try done.
  - by rewrite Ew', lookup_delete_eq.
  - intros w' ws' Hne Hw'. destruct (dp_winsys _ _ _ _ _ _ Hp3 w' ws' Hw') as (ws5&Hw5&?).
    exists ws5. split; [|done]. rewrite Ew', lookup_delete_ne by done. simpl. by rewrite lookup_insert_ne.
  - intros w'. rewrite Ew'. intros [ws' [Hne Hw']%lookup_delete_Some]. simpl in Hw'. rewrite lookup_insert_ne in Hw' by done.
    apply (fmap_is_Some ws_info). rewrite <- (st_winsys _ _ Hs3). apply fmap_is_Some. by eexists.
  - rewrite Ec'. apply (dp_cache _ _ _ _ _ _ Hp3).
  - intros b. set (l := parked w (p_cache p) ++ null_list ws ++ ib_cache_bos ws) in *.
    assert (forall w' i, own !! b = Some (w', i) -> b ∈ l -> w' = w) as Hl.
    { intros w' i Ho Hb. unfold l in Hb. rewrite !elem_of_app in Hb. destruct Hb as [Hb|[Hb|Hb]].
      - apply list_elem_of_fmap in Hb as (e&->&He). apply list_elem_of_filter in He as [<- He].
        pose proof (ca_entries _ _ (bk_cache _ _ (in_books _ _ Hi))) as Hall. rewrite Forall_forall in Hall.
        destruct (Hall e He) as (i'&bo&Ho'&_). rewrite Ho in Ho'. by injection Ho'.
      - unfold null_list in Hb. destruct (null_prt_bo ws) as [nb|] eqn:En; [|by apply elem_of_nil in Hb].
        apply list_elem_of_singleton in Hb as ->.
        destruct (null_destroyable own p w ws nb Hi Hw Hd En) as [(ws'&bo&_&Ho'&_) _]. rewrite Ho in Ho'. by injection Ho'.
      - destruct (Hib b Hb) as (ws'&bo&_&Ho'&_). rewrite Ho in Ho'. by injection Ho'. }
    rewrite Eb'. destruct (decide (b ∈ l)) as [Hb|Hb].
    + destruct (dp_gone _ _ _ _ _ _ Hp3 b Hb) as [E1 E2]. destruct (own !! b) as [[w' i]|] eqn:Ho; [|done].
      by rewrite decide_True by by eapply Hl.
    + destruct (dp_kept _ _ _ _ _ _ Hp3 b Hb) as [E1 E2]. destruct (own !! b) as [[w' i]|] eqn:Ho; [|done].
      destruct (decide (w' = w)) as [->|]; [|split; [by rewrite E1|exact E2]]. by destruct (Hgone b i).
Qed.

End winsys.
