(* ===== verification/BoSteps.v ===== *)
(** The clients of the winsys: the operations they may run, what they must see to, and the states a
    process reaches.  An allowed operation never fails an assertion or follows a dangling pointer, and
    leaves the invariant. *)

From stdpp Require Import gmap.
From S2P Require Import Prelude Pm4 BoModel BoLogic BoKernel BoInv BoVa BoBooks BoHeld BoDestroy BoFree BoAcquire BoCreate BoImport BoVirtual BoSparse BoBind BoTeardown BoSteady BoWinsys.

(** * Operations *)

Inductive bo_op :=
| OpWinsysCreate (i : winsys_info)
| OpWinsysDestroy (w : Z)
| OpCreate (w size alignment domain flags priority replay_address : Z)
| OpFromPtr (w pointer size priority : Z)
| OpFromFd (w fd priority : Z)
| OpFlagsFromFd (w fd : Z)
| OpDestroy (w b : Z)
| OpMap (w b : Z) (fixed : option Z)
| OpUnmap (w b : Z) (replace : bool)
| OpResident (w b : Z) (resident : bool)
| OpBind (w parent offset size : Z) (target : option Z) (bo_offset : Z).

(** More rounds than the cache has entries. *)
Definition PURGE_FUEL : nat := 65.

(** The winsys an operation is run on. *)
Definition op_winsys {K} (o : bo_op) (p : proc K) : Z :=
  match o with
  | OpWinsysCreate _ => p_next p
  | OpWinsysDestroy w | OpCreate w _ _ _ _ _ _ | OpFromPtr w _ _ _ | OpFromFd w _ _ | OpFlagsFromFd w _
  | OpDestroy w _ | OpMap w _ _ | OpUnmap w _ _ | OpResident w _ _ | OpBind w _ _ _ _ _ => w
  end.

Section steps.
Context {K : Type} `{!Drm K} `{!DrmView K} `{!DrmLaws K}.
Implicit Types (k : K) (p : proc K) (own : gmap Z (Z * winsys_info)).
#[local] Set Default Proof Using "All".

(** The result of an operation, and the buffer, the winsys or the address it returns. *)
Definition run_op (o : bo_op) : M K (VkResult * option Z) :=
  match o with
  | OpWinsysCreate i => radv_amdgpu_winsys_create i
  | OpWinsysDestroy w =>
      let! done := radv_amdgpu_winsys_destroy PURGE_FUEL w ;;
      mret (if (done : bool) then VK_SUCCESS else VK_ERROR_UNKNOWN, None)
  | OpCreate w size alignment domain flags priority replay_address =>
      radv_amdgpu_winsys_bo_create w size alignment domain flags priority replay_address
  | OpFromPtr w pointer size priority => radv_amdgpu_winsys_bo_from_ptr w pointer size priority
  | OpFromFd w fd priority => radv_amdgpu_winsys_bo_from_fd w fd priority
  | OpFlagsFromFd w fd =>
      let! r := radv_amdgpu_bo_get_flags_from_fd w fd ;;
      mret (match (r : option (Z * Z)) with Some _ => VK_SUCCESS | None => VK_ERROR_UNKNOWN end, None)
  | OpDestroy w b => let! _ := radv_amdgpu_winsys_bo_destroy w b ;; mret (VK_SUCCESS, None)
  | OpMap w b fixed => let! a := radv_amdgpu_winsys_bo_map w b fixed ;; mret (VK_SUCCESS, Some a)
  | OpUnmap w b replace => let! _ := radv_amdgpu_winsys_bo_unmap w b replace ;; mret (VK_SUCCESS, None)
  | OpResident w b resident => let! r := radv_amdgpu_winsys_bo_make_resident w b resident ;; mret (r, None)
  | OpBind w parent offset size target bo_offset =>
      let! r := radv_amdgpu_winsys_bo_virtual_bind w parent offset size target bo_offset ;; mret (r, None)
  end.

(** * The clients' side *)

(** Buffer [b] is the client's: created by [w], not destroyed, and not the winsys' own. *)
Definition client own p w b ws bo : Prop :=
  p_winsys p !! w = Some ws /\ own !! b = Some (w, ws_info ws) /\ p_bos p !! b = Some bo
  /\ (b ∉ e_bo <$> p_cache p) /\ null_prt_bo ws <> Some b.

(** What the caller of an operation must see to. *)
Definition allowed own p (o : bo_op) : Prop :=
  match o with
  | OpWinsysCreate i => info_ok (K := K) i /\ winsys_count (ws_cookie i) p + 1 < W32
  | OpWinsysDestroy w => exists ws, p_winsys p !! w = Some ws
      /\ forall b i, own !! b = Some (w, i) -> (b ∈ parked w (p_cache p)) \/ null_prt_bo ws = Some b
  | OpCreate w size alignment domain flags priority replay_address => exists ws, p_winsys p !! w = Some ws
      /\ if has flags RADEON_FLAG_VIRTUAL then create_sparse_ok (K := K) ws (p_dying p) w size flags replay_address
         else create_ok (ws_info ws) size domain flags replay_address
  | OpFromPtr w _ size _ => is_Some (p_winsys p !! w) /\ size_fits size
  | OpFromFd w _ _ | OpFlagsFromFd w _ => is_Some (p_winsys p !! w)
  | OpDestroy w b => exists ws bo, client own p w b ws bo
      /\ (debug_all_bos (ws_info ws) = true /\ is_virtual bo = false \/ use_global_list bo = false)
  | OpMap w b fixed => exists ws bo, client own p w b ws bo /\ (fixed = None \/ cpu_map bo = 0)
  | OpUnmap w b replace => exists ws bo, client own p w b ws bo /\ (replace = true -> cpu_map bo <> 0)
  | OpResident w b resident => exists ws bo, client own p w b ws bo /\ (resident = true -> use_global_list bo = false)
  | OpBind w parent offset size target bo_offset => exists ws bo t, client own p w parent ws bo
      /\ is_virtual bo = true /\ bind_ok (K := K) bo offset size /\ bind_target p target bo_offset t
  end.

(** The owners after an operation on [w]: a buffer that was not there is [w]'s. *)
Definition own_after own (w : Z) p' : gmap Z (Z * winsys_info) :=
  map_imap (fun b _ => match own !! b with
                       | Some x => Some x
                       | None => (fun ws => (w, ws_info ws)) <$> p_winsys p' !! w
                       end) (p_bos p').

(** The states of a process that has started with nothing. *)
Inductive reachable : gmap Z (Z * winsys_info) -> proc K -> Prop :=
| reach_start k mt sysfs n :
    k_ranges k = ∅ -> k_bos k = ∅ ->
    reachable ∅ (Proc k ∅ ∅ ∅ [] 0 None mt sysfs (Churn (replicate 8 0) 0 0 0 0) n)
| reach_step own p o r p' :
    reachable own p -> allowed own p o -> run_op o p = Some (r, p') ->
    reachable (own_after own (op_winsys o p) p') p'.

(** * The invariant of the reachable states *)

(** A sparse buffer of [ws]: its halves, and the zero buffer for its holes. *)
Definition shaped (ws : radv_amdgpu_winsys) (bo : radv_amdgpu_winsys_bo) : Prop :=
  sparse_size (K := K) (bo_size bo) /\ halves (ws_info ws) bo
  /\ (emulate_sparse_residency bo = true -> null_prt_bo ws <> None).

Record good own p : Prop := Good {
  gd_inv : inv own p;
  gd_winsyses : winsyses p;
  gd_dying : p_dying p = None;
  gd_shapes : forall b w ws bo, own !! b = Some (w, ws_info ws) -> p_winsys p !! w = Some ws ->
    p_bos p !! b = Some bo -> is_virtual bo = true -> shaped ws bo;
  gd_ib : forall w ws, p_winsys p !! w = Some ws -> ib_cache_bos ws = []
}.

Definition same_shape (bo bo' : radv_amdgpu_winsys_bo) : Prop :=
  bo_va bo' = bo_va bo /\ bo_size bo' = bo_size bo /\ is_virtual bo' = is_virtual bo
  /\ emulate_sparse_residency bo' = emulate_sparse_residency bo.

(** What every operation on the buffers of [w] leaves of the rest. *)
Record outcome own p w own' p' : Prop := Outcome {
  oc_inv : inv own' p';
  oc_dying : p_dying p' = p_dying p;
  oc_steady : steady p p';
  oc_own : forall b x, own' !! b = Some x ->
    own !! b = Some x \/ own !! b = None /\ exists ws, p_winsys p' !! w = Some ws /\ x = (w, ws_info ws);
  oc_old : forall b, is_Some (own !! b) -> is_Some (own' !! b) ->
    exists bo bo', p_bos p !! b = Some bo /\ p_bos p' !! b = Some bo' /\ same_shape bo bo';
  oc_new : forall b bo ws, own !! b = None -> p_bos p' !! b = Some bo -> p_winsys p' !! w = Some ws ->
    is_virtual bo = true -> shaped ws bo;
  oc_winsys : forall w' ws, p_winsys p !! w' = Some ws -> exists ws', p_winsys p' !! w' = Some ws'
    /\ ib_cache_bos ws' = ib_cache_bos ws /\ (null_prt_bo ws <> None -> null_prt_bo ws' <> None)
}.

Lemma shaped_same ws ws' bo bo' :
  ws_info ws' = ws_info ws -> (null_prt_bo ws <> None -> null_prt_bo ws' <> None) -> same_shape bo bo' ->
  shaped ws bo -> shaped ws' bo'.
Proof.
  intros Ei Hn (E1&E2&E3&E4) (Hs&[? ? ? ? ?]&Hnu). split; [by rewrite E2|]. split; [|rewrite E4; auto].
  split; unfold range_va, radv_amdgpu_virtual_bo_get_low_addr in *; rewrite ?Ei, ?E1, ?E2, ?E4; done.
Qed.

Lemma steady_ws p p' w ws' :
  steady p p' -> p_winsys p' !! w = Some ws' -> exists ws, p_winsys p !! w = Some ws /\ ws_info ws' = ws_info ws.
Proof.
  intros [H _ _] Hw. specialize (H w). rewrite Hw in H. destruct (p_winsys p !! w) as [ws|]; [|done].
  injection H as H. by exists ws.
Qed.

Lemma own_after_eq own own' w p' :
  (forall b, is_Some (own' !! b) <-> is_Some (p_bos p' !! b)) ->
  (forall b x, own' !! b = Some x ->
     own !! b = Some x \/ own !! b = None /\ exists ws, p_winsys p' !! w = Some ws /\ x = (w, ws_info ws)) ->
  own_after own w p' = own'.
Proof.
  intros Hd Ho. apply map_eq. intros b. unfold own_after. rewrite map_lookup_imap. specialize (Hd b).
  destruct (p_bos p' !! b) as [bo|] eqn:Eb; simpl.
  - destruct (own' !! b) as [x|] eqn:E; [|by destruct (proj2 Hd (mk_is_Some _ _ eq_refl))].
    destruct (Ho b x E) as [->|(->&ws&->&->)]; done.
  - destruct (own' !! b) eqn:E; [|done]. by destruct (proj1 Hd (mk_is_Some _ _ eq_refl)).
Qed.

Lemma outcome_good own p w own' p' : good own p -> outcome own p w own' p' -> own_after own w p' = own' /\ good own' p'.
Proof.
  intros [Hi Hws Hd Hsh Hib] [Hi' Hd' Hst Ho Hold Hnew Hw]. split.
  { apply own_after_eq; [|done]. apply (bk_dom _ _ (in_books _ _ Hi')). }
  split; [done|by eapply steady_winsyses|congruence| |].
  - intros b w' ws' bo' Ho' Hw' Hb' Hv. destruct (steady_ws _ _ _ _ Hst Hw') as (ws&Hw0&Ei).
    destruct (Ho b _ Ho') as [Ho1|(Hno&ws1&Hw1&[= -> Ei1])].
    + destruct (Hold b) as (bo&bo2&Hb&Hb2&Hss); [by eexists|by eexists|]. rewrite Hb' in Hb2. injection Hb2 as <-.
      destruct (Hw w' ws Hw0) as (ws2&Hw2&_&Hn). rewrite Hw' in Hw2. injection Hw2 as <-.
      eapply shaped_same; [exact Ei|exact Hn|exact Hss|]. eapply (Hsh b w'); [by rewrite <- Ei|done|done|].
      destruct Hss as (_&_&E&_). congruence.
    + eapply Hnew; try done.
  - intros w' ws' Hw'. destruct (steady_ws _ _ _ _ Hst Hw') as (ws&Hw0&_).
    destruct (Hw w' ws Hw0) as (ws2&Hw2&E&_). rewrite Hw' in Hw2. injection Hw2 as <-. rewrite E. by eapply Hib.
Qed.

(** * The outcomes *)

Lemma same_table_refl bo : same_shape bo bo.
Proof. done. Qed.

(** Two processes whose winsys agree up to what an operation may change. *)
Definition ws_kept p p' : Prop :=
  forall w ws, p_winsys p !! w = Some ws -> exists ws', p_winsys p' !! w = Some ws'
    /\ ib_cache_bos ws' = ib_cache_bos ws /\ (null_prt_bo ws <> None -> null_prt_bo ws' <> None).

(** No buffer has come. *)
Lemma outcome_shrink own p w own' p' :
  inv own p -> inv own' p' -> p_dying p' = p_dying p -> steady p p' -> own' ⊆ own ->
  (forall b bo', p_bos p' !! b = Some bo' -> exists bo, p_bos p !! b = Some bo /\ same_shape bo bo') ->
  ws_kept p p' -> outcome own p w own' p'.
Proof.
  intros Hi Hi' Hd Hst Hsub Hold Hw. split; try done.
  - intros b x Hx. left. by eapply lookup_weaken.
  - intros b _ Hb'. apply (bk_dom _ _ (in_books _ _ Hi')) in Hb' as [bo' Hb'].
    destruct (Hold b bo' Hb') as (bo&?&?). by exists bo, bo'.
  - intros b bo ws Hn Hb. destruct (Hold b bo Hb) as (bo0&Hb0&_).
    assert (is_Some (own !! b)) as [? ?] by (apply (bk_dom _ _ (in_books _ _ Hi)); by eexists). congruence.
Qed.

Lemma ws_kept_framed p p' : framed p p' -> ws_kept p p'.
Proof.
  intros Hf w ws Hw. destruct (framed_ws _ _ _ _ Hf Hw) as (ws'&?&(_&_&E&E')). exists ws'. by rewrite E, E'.
Qed.

Lemma ws_kept_only b p p' : only_bo b p p' -> ws_kept p p'.
Proof. intros Hob w ws Hw. destruct (ob_winsys _ _ _ Hob w ws Hw) as (ws'&?&_&E&E'&_). exists ws'. by rewrite E, E'. Qed.

Lemma outcome_failed own p w p' : inv own p -> failed own p p' -> outcome own p w own p'.
Proof.
  intros Hi [Hi' Hf]. apply outcome_shrink; try done.
  - apply (fr_dying _ _ Hf). - by apply framed_steady.
  - intros b bo' Hb. exists bo'. by rewrite <- (fr_bos _ _ Hf). - by apply ws_kept_framed.
Qed.

(** One buffer has changed in ways its shape does not show. *)
Lemma outcome_changed own p w b bo bo' p' :
  inv own p -> inv own p' -> p_dying p' = p_dying p -> steady p p' -> ws_kept p p' ->
  p_bos p !! b = Some bo -> p_bos p' !! b = Some bo' -> same_shape bo bo' ->
  (forall b', b' <> b -> p_bos p' !! b' = p_bos p !! b') -> outcome own p w own p'.
Proof.
  intros Hi Hi' Hd Hst Hw Hb Hb' Hss Hrest. apply outcome_shrink; try done.
  intros b' bo0 H0. destruct (decide (b' = b)) as [->|Hne].
  - rewrite Hb' in H0. injection H0 as <-. by exists bo.
  - rewrite Hrest in H0 by done. by exists bo0.
Qed.

Lemma outcome_destroyed own p w b p' :
  inv own p -> steady p p' -> destroyed own p b p' -> outcome own p w (delete b own) p'.
Proof.
  intros Hi Hst (Hi'&_&Ed&_&Eb&Ew). apply outcome_shrink; try done.
  - apply delete_subseteq.
  - intros b' bo' Hb'. rewrite Eb in Hb'. apply lookup_delete_Some in Hb' as [_ Hb']. by exists bo'.
  - intros w' ws Hw. destruct (Ew w' ws Hw) as (ws'&?&_&E&E'). exists ws'. by rewrite E, E'.
Qed.

(** A buffer that is not sparse has come. *)
Lemma outcome_created own p w ws (spec : radv_amdgpu_winsys_bo -> Prop) b p' :
  inv own p -> p_winsys p !! w = Some ws -> steady p p' -> created own p w (ws_info ws) spec b p' ->
  (forall bo, spec bo -> is_virtual bo = false) -> outcome own p w (<[b := (w, ws_info ws)]> own) p'.
Proof.
  intros Hi Hw Hst (Ho&Hi'&Hob&bo&Hb&Hsp&_) Hv. destruct (ob_winsys _ _ _ Hob w ws Hw) as (ws'&Hw'&Ei&_).
  split; [done|apply (ob_dying _ _ _ Hob)|done| | | |by apply (ws_kept_only b)].
  - intros b' x [[<- <-]|[_ ?]]%lookup_insert_Some; [right|by left]. split; [done|]. exists ws'. by rewrite Ei.
  - intros b' [x Hx] _. assert (b' <> b) as Hne by congruence.
    assert (is_Some (p_bos p !! b')) as [bo' Hb'] by (apply (bk_dom _ _ (in_books _ _ Hi)); by eexists).
    exists bo', bo'. by rewrite (ob_bos _ _ _ Hob).
  - intros b' bo' ws0 Hn Hb' _ Hv'. destruct (decide (b' = b)) as [->|Hne].
    + rewrite Hb in Hb'. injection Hb' as <-. rewrite Hv in Hv'; done.
    + rewrite (ob_bos _ _ _ Hob) in Hb' by done.
      assert (is_Some (own !! b')) as [? ?] by (apply (bk_dom _ _ (in_books _ _ Hi)); by eexists). congruence.
Qed.

Lemma outcome_reused own p w i spec b p' :
  inv own p -> steady p p' -> reused own p w i spec b p' -> outcome own p w own p'.
Proof.
  intros Hi Hst (Ho&Hi'&_&_&Hd&_&Hbs&Hws&bo&bo'&Hb&Hb'&E&_).
  apply (outcome_changed own p w b bo bo' p'); try done; [|by rewrite E].
  intros w' ws' Hw'. specialize (Hws w'). rewrite Hw' in Hws. inversion Hws as [? ws2 (_&_&E1&E2) E3 E4|]; subst.
  exists ws2. by rewrite E1, E2.
Qed.

Lemma sparse_shaped own p w b f ws bo :
  is_sparse own p w b f -> p_winsys p !! w = Some ws -> p_bos p !! b = Some bo -> shaped ws bo.
Proof.
  intros (ws'&bo'&nh&[Hw' _ Hb' _ Hs Hh Hn]&_) Hw Hb. rewrite Hw in Hw'. injection Hw' as <-.
  rewrite Hb in Hb'. injection Hb' as <-. split; [done|]. split; [done|]. intros He.
  destruct (Hn He) as (_&_&ws'&nb&nbo&Hw'&Hnb&_). rewrite Hw in Hw'. injection Hw' as <-. by rewrite Hnb.
Qed.

Lemma outcome_sparse own p w ws size res p' :
  good own p -> p_winsys p !! w = Some ws -> steady p p' -> sparse_creation own p w (ws_info ws) size res p' ->
  exists own', outcome own p w own' p'.
Proof.
  intros Hg Hw Hst (own'&Hi'&Hex&Hnew&Hres). pose proof (gd_inv _ _ Hg) as Hi. exists own'.
  destruct (ex_winsys _ _ _ _ Hex w ws Hw) as (ws'&Hw'&Ei&_).
  assert (p_dying p' = None) as Hd' by (rewrite (ex_dying _ _ _ _ Hex); apply Hg).
  split; [done|apply Hex|done| | | |].
  - intros b x Hx. destruct (own !! b) as [y|] eqn:Ho.
    + left. pose proof (lookup_weaken _ _ _ _ Ho (ex_own _ _ _ _ Hex)) as Hy. congruence.
    + right. split; [done|]. exists ws'. rewrite Ei. split; [done|]. by apply (Hnew b x).
  - intros b Hb _. assert (is_Some (p_bos p !! b)) as [bo Hbo] by by apply (bk_dom _ _ (in_books _ _ Hi)).
    exists bo, bo. by rewrite (ex_bos _ _ _ _ Hex).
  - intros b bo ws0 Hn Hb Hw0 Hv. rewrite Hw' in Hw0. injection Hw0 as <-.
    assert (is_Some (own' !! b)) as [x Hx] by (apply (bk_dom _ _ (in_books _ _ Hi')); by eexists).
    destruct (Hnew b x Hn Hx) as (->&[Hr|(ws0&Hw0&Hnull)]).
    + destruct res as [[] [b'|]]; simpl in Hr; try done. injection Hr as ->. destruct Hres as (_&Hsp&_). by eapply sparse_shaped.
    + assert (p_dying p' <> Some w) as Hdw by by rewrite Hd'.
      destruct (wo_null _ _ _ _ _ (bk_lists _ _ (in_books _ _ Hi') w ws0 Hw0) b Hdw Hnull) as (nbo&_&Hnb&_&_&Hnv&_). congruence.
  - intros w' ws0 Hw0. destruct (ex_winsys _ _ _ _ Hex w' ws0 Hw0) as (ws1&Hw1&_&Eib&_&Hnl). exists ws1.
    split; [done|]. split; [done|]. intros Hne. destruct (null_prt_bo ws0) as [nb|]; [|done]. by rewrite (Hnl nb).
Qed.

(** A creation or an import. *)
Lemma outcome_creation own p w ws spec res p' :
  inv own p -> p_winsys p !! w = Some ws -> steady p p' -> creation own p w (ws_info ws) spec res p' ->
  (forall bo, spec bo -> is_virtual bo = false) -> exists own', outcome own p w own' p'.
Proof.
  intros Hi Hw Hst Hc Hv. destruct res as [r ob].
  assert (creation own p w (ws_info ws) spec (r, ob) p' -> (exists b, ob = Some b /\ created own p w (ws_info ws) spec b p') \/ failed own p p') as Hcase.
  { destruct r, ob; simpl; try done; try (by right). intros ?. left. by eexists. }
  destruct (Hcase Hc) as [(b&->&Hcr)|Hf].
  - eexists. by eapply outcome_created.
  - exists own. by apply outcome_failed.
Qed.

(** * One operation on buffers *)

Lemma client_destroyable own p w b ws bo :
  client own p w b ws bo -> debug_all_bos (ws_info ws) = true /\ is_virtual bo = false \/ use_global_list bo = false ->
  destroyable own p w b.
Proof. intros (?&?&?&?&?) Hl. exists ws, bo. split_and!; try done. by left. Qed.

Lemma step_create own p w ws size alignment domain flags priority replay_address :
  good own p -> p_winsys p !! w = Some ws ->
  (if has flags RADEON_FLAG_VIRTUAL then create_sparse_ok (K := K) ws (p_dying p) w size flags replay_address
   else create_ok (ws_info ws) size domain flags replay_address) ->
  wp (radv_amdgpu_winsys_bo_create w size alignment domain flags priority replay_address)
     (fun _ p' => exists own', outcome own p w own' p') p.
Proof.
  intros Hg Hw Hok. pose proof (gd_inv _ _ Hg) as Hi. apply wp_steady; [auto with stays|].
  unfold radv_amdgpu_winsys_bo_create. destruct (has flags RADEON_FLAG_VIRTUAL).
  - apply (wp_virtual_create own p w ws); [done|done|done|]. intros res p' Hc Hst. by eapply outcome_sparse.
  - apply (wp_create_plain own p w ws); [done|done|done|]. intros res p' [Hc|(b&->&Hr)] Hst.
    + eapply outcome_creation; try done. intros bo [_ _ _ _ _ (?&_)]. done.
    + exists own. by eapply outcome_reused.
Qed.

Lemma step_destroy own p w b :
  good own p -> destroyable own p w b ->
  wp (radv_amdgpu_winsys_bo_destroy w b) (fun _ p' => exists own', outcome own p w own' p') p.
Proof.
  intros Hg Hd. pose proof (gd_inv _ _ Hg) as Hi. apply wp_steady; [auto with stays|].
  apply (wp_destroy own p w b); [done|done| |].
  - intros p' Hp' Hst. eexists. by eapply outcome_destroyed.
  - intros p' bo Hb _ _ Hi' _ _ _ _ Ew Ed _ Hbs Hb' Hst. exists own.
    apply (outcome_changed own p w b bo (with_cpu_map 0 bo) p'); try done. intros w' ws Hw'. exists ws. by rewrite Ew.
Qed.

Lemma step_cpu own p w b bo p' m :
  good own p -> p_bos p !! b = Some bo -> steady p p' -> mapped_cpu own p b bo p' m -> outcome own p w own p'.
Proof.
  intros Hg Hb Hst [Hi' Eb (Ew&_&_&_&Ed&_) _].
  apply (outcome_changed own p w b bo (with_cpu_map m bo) p'); try done; [apply Hg| | |].
  - intros w' ws Hw'. exists ws. by rewrite Ew.
  - by rewrite Eb, lookup_insert_eq.
  - intros b' Hne. by rewrite Eb, lookup_insert_ne.
Qed.

(** A client's sparse buffer. *)
Lemma client_sparse own p w b ws bo :
  good own p -> client own p w b ws bo -> is_virtual bo = true -> exists nh, sparse_buffer own p w b ws bo nh.
Proof.
  intros Hg (Hw&Ho&Hb&_) Hv. destruct (gd_shapes _ _ Hg b w ws bo Ho Hw Hb Hv) as (Hs&Hh&Hn).
  pose proof (gd_inv _ _ Hg) as Hi. assert (p_dying p <> Some w) as Hd by (by rewrite (gd_dying _ _ Hg)).
  destruct (emulate_sparse_residency bo) eqn:E.
  - destruct (null_prt_bo ws) as [nb|] eqn:En; [|by destruct (Hn eq_refl)].
    destruct (wo_null _ _ _ _ _ (bk_lists _ _ (in_books _ _ Hi) w ws Hw) nb Hd En) as (nbo&Hno&Hnb&_&_&Hnv&_).
    destruct (ba_buffer _ _ _ (he_backed _ _ _ (in_held _ _ Hi) _ _ _ _ Hno Hnb) Hnv) as [(r&Hr) _].
    destruct (ko_refs _ (he_kernel _ _ _ (in_held _ _ Hi)) _ _ _ _ Hr) as [_ Hnh].
    exists (bo_handle nbo). split; try done. intros _. split; [done|]. split; [done|]. by exists ws, nb, nbo.
  - exists 0. split; try done. congruence.
Qed.

Lemma step_buffers own p o :
  good own p -> allowed own p o ->
  match o with OpWinsysCreate _ | OpWinsysDestroy _ => True | _ =>
    wp (run_op o) (fun _ p' => exists own', outcome own p (op_winsys o p) own' p') p
  end.
Proof.
  intros Hg Ha. pose proof (gd_inv _ _ Hg) as Hi. destruct o; simpl in *; try done.
  - destruct Ha as (ws&Hw&Hok). by eapply step_create.
  - destruct Ha as [[ws Hw] Hs]. apply wp_steady; [auto with stays|].
    apply (wp_from_ptr own p w ws); [done|done|done|]. intros res p' Hc Hst. eapply outcome_creation; try done.
    intros bo [_ _ _ (?&_)]. done.
  - destruct Ha as [ws Hw]. apply wp_steady; [auto with stays|].
    apply (wp_from_fd own p w ws); [done|done|]. intros size res p' Hc Hst. eapply outcome_creation; try done.
    intros bo [_ _ _ (?&_)]. done.
  - destruct Ha as [ws Hw]. apply wp_bind. apply (wp_get_flags_from_fd own p w ws); [done|done|].
    intros r p' Hi' Hf. apply wp_ret. exists own. by apply outcome_failed.
  - destruct Ha as (ws&bo&Hc&Hl). apply wp_bind. eapply wp_mono; [eapply step_destroy|]; [done|by eapply client_destroyable|].
    intros [] p' Ho. by apply wp_ret.
  - destruct Ha as (ws&bo&(Hw&Ho&Hb&Hnc&_)&Hfix). apply wp_bind, wp_steady; [auto with stays|].
    apply (wp_map own p w ws b bo); [done..|]. intros a m p' Hm _ Hst. apply wp_ret. exists own. by eapply step_cpu.
  - destruct Ha as (ws&bo&(Hw&Ho&Hb&Hnc&_)&Hrep). apply wp_bind, wp_steady; [auto with stays|].
    apply (wp_unmap own p w ws b bo); [done..|]. intros p' Hm Hst. apply wp_ret. exists own. by eapply step_cpu.
  - destruct Ha as (ws&bo&(Hw&Ho&Hb&Hnc&Hnn)&Hres). apply wp_bind, wp_steady; [auto with stays|].
    apply (wp_make_resident own p w ws b bo); [done..|by left|done|]. intros r p' g Hi' Hob Hb' Hst. apply wp_ret.
    exists own. apply (outcome_changed own p w b bo (with_use_global_list g bo) p'); try done.
    + apply (ob_dying _ _ _ Hob). + by apply (ws_kept_only b). + apply (ob_bos _ _ _ Hob).
  - destruct Ha as (ws&bo&t&Hc&Hv&Hok&Ht). destruct (client_sparse _ _ _ _ _ _ Hg Hc Hv) as [nh Hsb].
    apply wp_bind. eapply (wp_virtual_bind own p w parent ws bo nh); [done..|].
    intros r p' Hi' Hf _. apply wp_ret. exists own. by apply outcome_failed.
Qed.

(** * A winsys comes and goes *)

Lemma good_framed own p p' w : good own p -> inv own p' -> framed p p' -> own_after own w p' = own /\ good own p'.
Proof. intros Hg Hi' Hf. apply (outcome_good own p w); [done|]. by apply outcome_failed; [apply Hg|]. Qed.

Lemma owned_not_next own p b w i : good own p -> own !! b = Some (w, i) -> w <> p_next p.
Proof.
  intros Hg Ho ->. destruct (inv_owned _ _ _ _ _ (gd_inv _ _ Hg) Ho) as (ws&_&Hw&_).
  pose proof (wn_next _ (gd_winsyses _ _ Hg) _ (mk_is_Some _ _ Hw)). lia.
Qed.

Lemma step_winsys_create own p i :
  good own p -> info_ok (K := K) i -> winsys_count (ws_cookie i) p + 1 < W32 ->
  wp (radv_amdgpu_winsys_create i) (fun _ p' => good (own_after own (p_next p) p') p') p.
Proof.
  intros Hg Hin Hlt. pose proof Hg as [Hi Hws Hd Hsh Hib]. apply (wp_winsys_create own p i); [done..| |].
  - intros r p' Hi' Hf. by destruct (good_framed own p p' (p_next p) Hg Hi' Hf) as [-> ?].
  - intros p' k m' Hi' Hws' Hk ->.
    rewrite (own_after_eq own own); [|apply (bk_dom _ _ (in_books _ _ Hi'))|by left]. split; [done|done|done| |].
    + simpl. intros b w ws bo Ho Hw Hb Hv. apply lookup_insert_Some in Hw as [[<- _]|[_ Hw]]; [|by eapply Hsh].
      by destruct (owned_not_next _ _ _ _ _ Hg Ho).
    + simpl. intros w ws [[_ <-]|[_ Hw]]%lookup_insert_Some; [done|by eapply Hib].
Qed.

Lemma good_closed own p w own' p' :
  good own p -> closed own p w own' p' -> own_after own w p' = own' /\ good own' p'.
Proof.
  intros Hg [Hi' Hws' Hgone Hd' Hothers Hknown _ Hbos]. pose proof Hg as [Hi Hws Hd Hsh Hib].
  assert (forall b x, own' !! b = Some x -> own !! b = Some x /\ x.1 <> w /\ p_bos p' !! b = p_bos p !! b) as Hkept.
  { intros b x Hx. specialize (Hbos b). destruct (own !! b) as [[w' i]|]; [|congruence].
    destruct (decide (w' = w)) as [|Hne]; destruct Hbos as [E1 E2]; [congruence|]. rewrite Hx in E1. injection E1 as ->. done. }
  split.
  - apply own_after_eq; [apply (bk_dom _ _ (in_books _ _ Hi'))|]. intros b x Hx. left. by apply Hkept.
  - split; [done|done|done| |].
    + intros b w0 ws' bo Ho Hw0 Hb Hv. destruct (Hkept b _ Ho) as (Ho1&Hne&Eb). simpl in Hne.
      destruct (inv_owned _ _ _ _ _ Hi Ho1) as (ws&_&Hw&Ei&_).
      destruct (Hothers w0 ws Hne Hw) as (ws2&Hw2&_&En&_). rewrite Hw0 in Hw2. injection Hw2 as <-.
      apply (shaped_same ws ws' bo bo); [done|by rewrite En|done|]. eapply (Hsh b w0 ws bo); [by rewrite Ei|done|by rewrite <- Eb|done].
    + intros w0 ws' Hw0. destruct (Hknown w0 (mk_is_Some _ _ Hw0)) as [ws Hw].
      destruct (decide (w0 = w)) as [->|Hne]; [congruence|].
      destruct (Hothers w0 ws Hne Hw) as (ws2&Hw2&_&_&Eib). rewrite Hw0 in Hw2. injection Hw2 as <-.
      rewrite Eib. by eapply Hib.
Qed.

Lemma allowed_closable own p w :
  good own p -> allowed own p (OpWinsysDestroy w) -> exists ws, closable own p w ws.
Proof.
  intros Hg (ws&Hw&Hrest). exists ws. pose proof (gd_ib _ _ Hg w ws Hw) as E.
  split; [done|apply Hg|rewrite E; apply NoDup_nil_2|intros b; rewrite E; by intros ?%elem_of_nil|].
  intros b i Ho. destruct (Hrest b i Ho); auto.
Qed.

Lemma step_winsys_destroy own p w :
  good own p -> allowed own p (OpWinsysDestroy w) ->
  wp (radv_amdgpu_winsys_destroy PURGE_FUEL w)
     (fun done p' => done = true /\ good (own_after own w p') p' /\ closed own p w (own_after own w p') p') p.
Proof.
  intros Hg Ha. destruct (allowed_closable _ _ _ Hg Ha) as [ws Hcl].
  apply (wp_winsys_destroy own p w ws); [apply Hg|apply Hg|done|unfold PURGE_FUEL; lia|].
  intros own' p' Hc _. by destruct (good_closed _ _ _ _ _ Hg Hc) as [-> ?].
Qed.

(** * All operations *)

Lemma step_ok own p o :
  good own p -> allowed own p o -> wp (run_op o) (fun _ p' => good (own_after own (op_winsys o p) p') p') p.
Proof.
  intros Hg Ha.
  assert (forall m : M K (VkResult * option Z), wp m (fun _ p' => exists own', outcome own p (op_winsys o p) own' p') p ->
    wp m (fun _ p' => good (own_after own (op_winsys o p) p') p') p) as Hout.
  { intros m Hm. eapply wp_mono; [exact Hm|]. intros r p' [own' Ho]. by destruct (outcome_good _ _ _ _ _ Hg Ho) as [-> ?]. }
  pose proof (step_buffers own p o Hg Ha) as Hb. destruct o; try (by apply Hout).
  - destruct Ha as [Hin Hlt]. by apply step_winsys_create.
  - apply wp_bind. eapply wp_mono; [by apply (step_winsys_destroy own p)|]. intros d p' (_&Hg'&_). by apply wp_ret.
Qed.

Lemma good_start k mt sysfs n :
  k_ranges k = ∅ -> k_bos k = ∅ -> good ∅ (Proc k ∅ ∅ ∅ [] 0 None mt sysfs (Churn (replicate 8 0) 0 0 0 0) n).
Proof.
  intros Er Eb. split; [split; [|split|]| | | |]; simpl; try done.
  - split; simpl; try done; [intros b; by rewrite !lookup_empty|intros b [x Hx]; by rewrite lookup_empty in Hx|].
    split; simpl; try done. apply NoDup_nil_2.
  - split; rewrite ?Er, ?Eb; done.
  - intros h. unfold range_held. by rewrite Er.
  - intros buf. unfold buf_refs. by rewrite Eb.
  - split; simpl; try done. intros w [x Hx]. by rewrite lookup_empty in Hx.
Qed.

Lemma reachable_good own p : reachable own p -> good own p.
Proof.
  intros H. induction H as [|own p o r p' _ IH Ha Hr]; [by apply good_start|].
  exact (wp_eq _ _ _ _ _ (step_ok own p o IH Ha) Hr).
Qed.

End steps.
