(* ===== verification/BoSim.v ===== *)
(** A kernel that satisfies the laws of [BoKernel]: a bump allocator of address space and handles, and
    a page table kept as a list of mappings that a replacement splits.  The concrete runs use it. *)

From stdpp Require Import gmap.
From S2P Require Import Prelude Pm4 BoModel BoKernel.

(** [s_fail] counts the calls on the address space down to one that fails; a negative count never does. *)
Record sim := Sim {
  s_ranges : gmap Z (Z * Z * Z);
  s_bos : gmap Z (Z * Z * Z);
  s_maps : list mapping;
  s_addr : Z;
  s_id : Z;
  s_fail : Z
}.

Definition SIM_BIT : Z := 46.

Definition sim_with_maps (l : list mapping) (k : sim) : sim :=
  Sim (s_ranges k) (s_bos k) l (s_addr k) (s_id k) (s_fail k - 1).

Definition apart_b (dev va n : Z) (v : Z * Z * Z) : bool :=
  let '(d, va', n') := v in negb (d =? dev) || (va + n <=? va') || (va' + n' <=? va).

Definition sim_range_alloc (dev n al b _ : Z) (k : sim) : sim * option (Z * Z) :=
  let step := Z.max 1 al * 4096 in
  let va := round_up (s_addr k) step in
  let len := round_up n 4096 in
  if (b =? 0) && (0 <=? va) && (va + len <=? 2 ^ SIM_BIT) && bool_decide (s_ranges k !! s_id k = None)
     && forallb (fun e => apart_b dev va len e.2) (map_to_list (s_ranges k))
  then (Sim (<[s_id k := (dev, va, len)]> (s_ranges k)) (s_bos k) (s_maps k) (va + len) (s_id k + 1) (s_fail k),
        Some (va, s_id k))
  else (k, None).

Definition other_handle (dev h : Z) (v : Z * Z * Z) : bool := let '(d, h', _) := v in negb ((d =? dev) && (h' =? h)).

Definition sim_new_bo (dev : Z) (k : sim) : sim * option Z :=
  let h := s_id k in
  if negb (h =? 0) && bool_decide (s_bos k !! h = None)
     && forallb (fun e => other_handle dev h e.2) (map_to_list (s_bos k))
  then (Sim (s_ranges k) (<[h := (dev, h, 1)]> (s_bos k)) (s_maps k) (s_addr k) (s_id k + 1) (s_fail k), Some h)
  else (k, None).

(** A descriptor is the number of a buffer of this device, or a buffer of another one. *)
Definition sim_import (dev fd : Z) (k : sim) : sim * option (Z * Z) :=
  match s_bos k !! fd with
  | Some (d, h, r) =>
      if d =? dev then (Sim (s_ranges k) (<[fd := (d, h, r + 1)]> (s_bos k)) (s_maps k) (s_addr k) (s_id k) (s_fail k),
                        Some (fd, 65536))
      else (k, None)
  | None => let '(k, o) := sim_new_bo dev k in (k, (fun b => (b, 65536)) <$> o)
  end.

Definition sim_bo_free (dev buf : Z) (k : sim) : sim :=
  match s_bos k !! buf with
  | Some (d, h, r) =>
      if r =? 1 then
        Sim (s_ranges k) (delete buf (s_bos k))
          (filter (fun m => ~ (m_dev m = dev /\ m_handle m = h)) (s_maps k)) (s_addr k) (s_id k) (s_fail k)
      else Sim (s_ranges k) (<[buf := (d, h, r - 1)]> (s_bos k)) (s_maps k) (s_addr k) (s_id k) (s_fail k)
  | None => k
  end.

Definition overlaps_b (m : mapping) (dev a n : Z) : bool :=
  (m_dev m =? dev) && (m_addr m <? a + n) && (a <? m_addr m + m_size m).

(** The parts of a mapping outside [n] bytes from [a]. *)
Definition split_mapping (dev a n : Z) (m : mapping) : list mapping :=
  if overlaps_b m dev a n then
    (if m_addr m <? a then [Mapping dev (m_addr m) (a - m_addr m) (m_handle m) (m_offset m) (m_flags m)] else [])
    ++ (if a + n <? m_addr m + m_size m
        then [Mapping dev (a + n) (m_addr m + m_size m - (a + n)) (m_handle m) (m_offset m + (a + n - m_addr m)) (m_flags m)]
        else [])
  else [m].

Definition sim_va_op (a : va_op_args) (k : sim) : sim * Z :=
  if s_fail k =? 1 then (sim_with_maps (s_maps k) k, -12)
  else
    let new := Mapping (vo_dev a) (vo_addr a) (vo_size a) (vo_handle a) (vo_offset a) (vo_flags a) in
    match vo_ops a with
    | AMDGPU_VA_OP_MAP =>
        if existsb (fun m => overlaps_b m (vo_dev a) (vo_addr a) (vo_size a)) (s_maps k)
        then (sim_with_maps (s_maps k) k, -22) else (sim_with_maps (new :: s_maps k) k, 0)
    | AMDGPU_VA_OP_UNMAP =>
        (sim_with_maps (filter (fun m => ~ (m_dev m = vo_dev a /\ m_addr m = vo_addr a /\ m_handle m = vo_handle a))
                          (s_maps k)) k, 0)
    | AMDGPU_VA_OP_CLEAR => (sim_with_maps (s_maps k ≫= split_mapping (vo_dev a) (vo_addr a) (vo_size a)) k, 0)
    | AMDGPU_VA_OP_REPLACE => (sim_with_maps (new :: (s_maps k ≫= split_mapping (vo_dev a) (vo_addr a) (vo_size a))) k, 0)
    end.

#[global] Instance sim_drm : Drm sim := {
  getpagesize := 4096;
  os_calloc k := (k, true);
  os_realloc k := (k, true);
  os_mmap _ _ _ f k := (k, Some (default 4096 f));
  os_munmap _ _ k := k;
  sysfs_gtt_used k := (k, None);
  env_mtype _ := None;
  prop_mtype _ := None;
  drm_va_range_alloc := sim_range_alloc;
  drm_va_range_free h k := Sim (delete h (s_ranges k)) (s_bos k) (s_maps k) (s_addr k) (s_id k) (s_fail k);
  drm_bo_alloc dev _ k := sim_new_bo dev k;
  drm_bo_from_user_mem dev _ _ k := sim_new_bo dev k;
  drm_bo_import := sim_import;
  drm_bo_export_kms dev buf k := match s_bos k !! buf with Some (_, h, _) => Some h | None => None end;
  drm_bo_query_info _ _ _ := Some (BoInfo 2 0 65536);
  drm_bo_free := sim_bo_free;
  drm_bo_va_op := sim_va_op;
  drm_timeline_wait _ _ k := (k, 0);
  drm_bo_cpu_map _ _ f k := (k, Some (default 4096 f));
  drm_bo_cpu_unmap _ _ k := k;
  drm_syncobj_create _ k := (k, true)
}.

#[global] Instance sim_view : DrmView sim := {
  k_ranges := s_ranges;
  k_bos := s_bos;
  k_maps := s_maps;
  k_control_bit _ := Some SIM_BIT
}.

(** * The laws *)

Lemma overlaps_iff m dev a n : overlaps_b m dev a n = true <-> overlaps m dev a n.
Proof.
  unfold overlaps_b, overlaps. rewrite !andb_true_iff, Z.eqb_eq, !Z.ltb_lt. tauto.
Qed.

(** A split keeps exactly the bytes outside. *)
Lemma split_maps_at l dev a n dev' x t :
  maps_at (l ≫= split_mapping dev a n) dev' x t <-> maps_at l dev' x t /\ ~ (dev' = dev /\ a <= x < a + n).
Proof.
  unfold maps_at. split.
  - intros (m&Hm&Hd&Hx&->). apply list_elem_of_bind in Hm as (m0&Hm&Hm0). unfold split_mapping in Hm.
    destruct (overlaps_b m0 dev a n) eqn:E.
    + apply overlaps_iff in E as (E1&E2&E3). apply elem_of_app in Hm as [Hm|Hm].
      * destruct (Z.ltb_spec (m_addr m0) a); [|by apply elem_of_nil in Hm]. apply list_elem_of_singleton in Hm as ->.
        simpl in *. split; [|lia]. exists m0. split_and!; try done; [congruence|lia|lia].
      * destruct (Z.ltb_spec (a + n) (m_addr m0 + m_size m0)); [|by apply elem_of_nil in Hm].
        apply list_elem_of_singleton in Hm as ->. simpl in *. destruct (Z.lt_ge_cases n 0) as [Hn|Hn].
        -- split; [|lia]. destruct (Z.lt_ge_cases x (m_addr m0)); exists m0; split_and!; try done; try congruence; try lia;
             f_equal; f_equal; lia.
        -- split; [|lia]. exists m0. split_and!; try done; [congruence|lia|lia|f_equal; f_equal; lia].
    + apply list_elem_of_singleton in Hm as ->. split; [by exists m0|]. intros [-> Hin].
      assert (overlaps m0 dev a n) as Ho by (split; [done|lia]). apply overlaps_iff in Ho. congruence.
  - intros [(m&Hm&Hd&Hx&->) Hout]. destruct (overlaps_b m dev a n) eqn:E.
    + pose proof E as (E1&E2&E3)%overlaps_iff. assert (x < a \/ a + n <= x) as [Hlt|Hge] by naive_solver lia.
      * eexists. split; [apply list_elem_of_bind; exists m; split; [|done]; unfold split_mapping; rewrite E|].
        { rewrite (proj2 (Z.ltb_lt (m_addr m) a)) by lia. by left. }
        simpl. split_and!; try done; try congruence; lia.
      * eexists. split; [apply list_elem_of_bind; exists m; split; [|done]; unfold split_mapping; rewrite E|].
        { rewrite (proj2 (Z.ltb_lt (a + n) _)) by lia. apply elem_of_app. right. by left. }
        simpl. split_and!; try congruence; try lia. f_equal. f_equal. lia.
    + exists m. split; [|done]. apply list_elem_of_bind. exists m. split; [|done]. unfold split_mapping. rewrite E. by left.
Qed.

Lemma split_outside m l dev a n : m ∈ l -> ~ overlaps m dev a n -> m ∈ l ≫= split_mapping dev a n.
Proof.
  intros Hm Ho. apply list_elem_of_bind. exists m. split; [|done]. unfold split_mapping.
  destruct (overlaps_b m dev a n) eqn:E; [by apply overlaps_iff in E|by left].
Qed.

Lemma sim_range_law d n al b f k k' va h :
  sim_range_alloc d n al b f k = (k', Some (va, h)) ->
  va mod 4096 = 0 /\ (0 < al -> va mod al = 0) /\ (b <> 0 -> va = b)
  /\ range_placed (K := sim) d va (round_up n 4096) /\ range_added (K := sim) d h va (round_up n 4096) k k'.
Proof.
  unfold sim_range_alloc. set (step := Z.max 1 al * 4096). destruct (_ && forallb _ _) eqn:E; [|done]. intros [= <- <- <-].
  apply andb_true_iff in E as [E Hap]. apply andb_true_iff in E as [E Hno]. apply andb_true_iff in E as [E Hle].
  apply andb_true_iff in E as [Hb H0]. apply Z.eqb_eq in Hb. apply Z.leb_le in H0, Hle. apply bool_decide_eq_true in Hno.
  destruct (round_up_spec (s_addr k) step ltac:(unfold step; lia)) as [_ Hm]. set (va := round_up (s_addr k) step) in *.
  apply Z.mod_divide in Hm as [q Hq]; [|unfold step; lia].
  split; [apply Z.mod_divide; [done|]; exists (q * Z.max 1 al); rewrite Hq; unfold step; ring|].
  split; [intros Hal; apply Z.mod_divide; [lia|]; exists (q * 4096); rewrite Hq; unfold step; replace (Z.max 1 al) with al by lia; ring|].
  split; [lia|]. split.
  - split; [done|]. simpl. unfold SIM_BIT in *. change W64 with (2 ^ 64). split; [lia|]. split; [lia|]. exists 0. lia.
  - split; [done|]. split; [|done]. intros h' va' n' Hr. rewrite forallb_forall in Hap.
    specialize (Hap (h', (d, va', n'))). rewrite <- list_elem_of_In, elem_of_map_to_list in Hap. specialize (Hap Hr).
    unfold apart_b, apart_ranges in *. simpl in Hap. rewrite Z.eqb_refl in Hap. simpl in Hap.
    apply orb_true_iff in Hap as [?%Z.leb_le|?%Z.leb_le]; [by left|by right].
Qed.

Lemma sim_new_law d k k' buf : sim_new_bo d k = (k', Some buf) -> exists h, buffer_added (K := sim) d buf h k k'.
Proof.
  unfold sim_new_bo. destruct (_ && forallb _ _) eqn:E; [|done]. intros [= <- <-]. exists (s_id k).
  apply andb_true_iff in E as [E Hh]. apply andb_true_iff in E as [Hz Hno].
  apply bool_decide_eq_true in Hno. apply negb_true_iff, Z.eqb_neq in Hz.
  split; [done|]. split; [done|]. split; [|done]. intros buf' h' r Hb ->. rewrite forallb_forall in Hh.
  specialize (Hh (buf', (d, s_id k, r))). rewrite <- list_elem_of_In, elem_of_map_to_list in Hh. specialize (Hh Hb).
  unfold other_handle in Hh. simpl in Hh. by rewrite !Z.eqb_refl in Hh.
Qed.

Lemma sim_new_fails d k k' : sim_new_bo d k = (k', None) -> k' = k.
Proof. unfold sim_new_bo. destruct (_ && forallb _ _); [done|]. by intros [= <-]. Qed.

Lemma sim_va_outside a k k' r :
  vo_ops a = AMDGPU_VA_OP_REPLACE \/ vo_ops a = AMDGPU_VA_OP_CLEAR -> sim_va_op a k = (k', r) ->
  outside_kept (K := sim) (vo_dev a) (vo_addr a) (vo_size a) k k'.
Proof.
  unfold sim_va_op. intros Hop. destruct (s_fail k =? 1).
  { intros [= <- <-]. split; simpl; [done|]. by intros. }
  destruct Hop as [->| ->]; intros [= <- <-]; split; simpl.
  - intros m Hm Ho. right. by apply split_outside.
  - intros dev' x t Hx. pose proof (split_maps_at (s_maps k) (vo_dev a) (vo_addr a) (vo_size a) dev' x t) as Hs. split.
    + intros (m&[->|Hm]%elem_of_cons&Hd&Hr&->); [simpl in *; destruct Hx; done|]. apply Hs. by exists m.
    + intros Ht. destruct (proj2 Hs (conj Ht Hx)) as (m&Hm&?). exists m. split; [by right|done].
  - intros m Hm Ho. by apply split_outside.
  - intros dev' x t Hx. rewrite split_maps_at. naive_solver.
Qed.

#[global] Instance sim_laws : DrmLaws sim.
Proof.
  split; simpl; try (by intros; simplify_eq; apply same_view_refl).
  - by exists 12.
  - intros d n al b f k k'. unfold sim_range_alloc. destruct (_ && forallb _ _); [done|]. by intros [= <-].
  - intros d n al b f k k' va h _. apply sim_range_law.
  - done.
  - intros d _ k k' ->%sim_new_fails. apply same_view_refl.
  - intros d _ k k' buf. apply sim_new_law.
  - intros d _ _ k k' ->%sim_new_fails. apply same_view_refl.
  - intros d _ _ k k' buf. apply sim_new_law.
  - intros d fd k k'. unfold sim_import. destruct (s_bos k !! fd) as [[[d' h] r]|].
    + destruct (d' =? d); [done|]. by intros [= <-].
    + destruct (sim_new_bo d k) as [k1 [b|]] eqn:E; [done|]. intros [= <-]. apply sim_new_fails in E as ->. apply same_view_refl.
  - intros d fd k k' buf n. unfold sim_import. destruct (s_bos k !! fd) as [[[d' h] r]|] eqn:El.
    + destruct (Z.eqb_spec d' d) as [->|]; [|done]. intros [= <- <- <-]. split; [done|]. exists h. right. by exists r.
    + destruct (sim_new_bo d k) as [k1 [b|]] eqn:E; [|done]. intros [= <- <- <-]. split; [done|].
      apply sim_new_law in E as [h ?]. exists h. by left.
  - intros d buf h r k Hb. by rewrite Hb.
  - intros d buf h r k Hb. unfold sim_bo_free. rewrite Hb. destruct (Z.eqb_spec r 1) as [->|Hr]; split; simpl; try done.
    split; [done|]. intros _. split; [done|]. intros m. rewrite list_elem_of_filter. tauto.
  - intros a k k' r. unfold sim_va_op. destruct (s_fail k =? 1); [by intros [= <- <-]|].
    destruct (vo_ops a); try destruct (existsb _ _); by intros [= <- <-].
  - intros a k k' r Hop. unfold sim_va_op. destruct (s_fail k =? 1); [by intros [= <- <-]|]. rewrite Hop.
    destruct (existsb _ _) eqn:E; intros [= <- <-]; [done|]. split; [intros _|done]. split; simpl.
    + intros m Hm Ho. apply overlaps_iff in Ho. apply not_true_iff_false in E. apply E, existsb_exists.
      exists m. split; [by apply list_elem_of_In|done].
    + intros m. by rewrite elem_of_cons.
  - intros a k k' r Hop. unfold sim_va_op. destruct (s_fail k =? 1); [intros [= <- <-]; by right|]. rewrite Hop.
    intros [= <- <-]. left. intros m. simpl. rewrite list_elem_of_filter. tauto.
  - intros a k k' Hop. unfold sim_va_op. destruct (s_fail k =? 1); [done|]. rewrite Hop. intros [= <-] x t Hx. simpl. split.
    + intros (m&[->|Hm]%elem_of_cons&Hd&Hr&->); [done|].
      assert (maps_at (s_maps k ≫= split_mapping (vo_dev a) (vo_addr a) (vo_size a)) (vo_dev a) x
                (m_handle m, m_offset m + (x - m_addr m), m_flags m)) as Hs by by exists m.
      apply split_maps_at in Hs as [_ []]. done.
    + intros ->. eexists. split; [by left|done].
  - intros a k k' Hop. unfold sim_va_op. destruct (s_fail k =? 1); [done|]. rewrite Hop. intros [= <-] x t Hx. simpl.
    rewrite split_maps_at. naive_solver.
  - intros a k k' r. apply sim_va_outside.
Qed.
