(* ===== verification/BoRuns.v ===== *)
(** Concrete runs on the kernel of [BoSim]: a winsys, a command buffer, its parking, and buffers a
    sparse buffer is bound to.  The witnesses of the properties start from them. *)

From stdpp Require Import gmap.
From S2P Require Import Prelude Pm4 BoModel BoLogic BoKernel BoInv BoDestroy BoCreate BoVirtual BoSparse BoBind BoTeardown BoWinsys BoSteps BoSim.

Definition state : Type := gmap Z (Z * winsys_info) * proc sim.

(** Run operations one after the other. *)
Fixpoint run_ops (l : list bo_op) (s : state) : state :=
  match l with
  | [] => s
  | o :: l =>
      match run_op o s.2 with
      | Some (_, p') => run_ops l (own_after s.1 (op_winsys o s.2) p', p')
      | None => s
      end
  end.

Fixpoint all_allowed (l : list bo_op) (s : state) : Prop :=
  match l with
  | [] => True
  | o :: l =>
      allowed s.1 s.2 o /\
      match run_op o s.2 with
      | Some (_, p') => all_allowed l (own_after s.1 (op_winsys o s.2) p', p')
      | None => False
      end
  end.

Lemma run_reachable l s : reachable s.1 s.2 -> all_allowed l s -> reachable (run_ops l s).1 (run_ops l s).2.
Proof.
  revert s. induction l as [|o l IH]; intros s Hr; [done|]. simpl. intros [Ha Hl].
  destruct (run_op o s.2) as [[r p']|] eqn:E; [|done]. apply IH; [|done]. simpl. by eapply reach_step.
Qed.

(** A device with the sparse residency bug, whose address bit 46 libdrm keeps free. *)
Definition run_info : winsys_info :=
  WinsysInfo 1 7 false 0 GFX10_3 65536 4096 0 false 50 46 false true false false false false.

Definition start (fail : Z) : state := (∅, Proc (Sim ∅ ∅ [] 0 1 fail) ∅ ∅ ∅ [] 0 None (-2) (-1) (Churn (replicate 8 0) 0 0 0 0) 1).

Definition RUN_CMD_FLAGS : Z :=
  Z.lor RADEON_FLAG_CPU_ACCESS (Z.lor RADEON_FLAG_NO_INTERPROCESS_SHARING RADEON_FLAG_XCLIPSE_CACHEABLE).
Definition RUN_SPARSE_FLAGS : Z := Z.lor RADEON_FLAG_VIRTUAL RADEON_FLAG_EMULATE_SPARSE_RESIDENCY.

Definition op_winsys_run : bo_op := OpWinsysCreate run_info.
Definition op_command_buffer : bo_op := OpCreate 1 65536 4096 RADEON_DOMAIN_GTT RUN_CMD_FLAGS 0 0.
Definition op_sparse : bo_op := OpCreate 1 65536 4096 0 RUN_SPARSE_FLAGS 0 0.

(** Winsys 1; its command buffer 2; the buffer parked. *)
Definition run_winsys : state := run_ops [op_winsys_run] (start 0).
Definition run_buffer : state := run_ops [op_winsys_run; op_command_buffer] (start 0).
Definition run_parked : state := run_ops [op_winsys_run; op_command_buffer; OpDestroy 1 2] (start 0).

Lemma start_reachable fail : reachable (start fail).1 (start fail).2.
Proof. by apply reach_start. Qed.

Lemma winsys_allowed fail : allowed (start fail).1 (start fail).2 op_winsys_run.
Proof. split; [done|by vm_compute]. Qed.

Lemma run_winsys_reachable : reachable run_winsys.1 run_winsys.2.
Proof. apply run_reachable; [apply start_reachable|]. split; [apply winsys_allowed|done]. Qed.

(** The winsys after its creation, and with one buffer. *)
Definition run_ws : radv_amdgpu_winsys := Winsys run_info [] 0 0 None [].

Lemma create_run_ok : create_ok run_info 65536 RADEON_DOMAIN_GTT RUN_CMD_FLAGS 0.
Proof. by split; [|split]. Qed.

Lemma run_buffer_reachable : reachable run_buffer.1 run_buffer.2.
Proof.
  apply run_reachable; [apply start_reachable|]. split; [apply winsys_allowed|].
  split; [|by vm_compute]. exists run_ws. split; [by vm_compute|]. exact create_run_ok.
Qed.

Definition run_bo : radv_amdgpu_winsys_bo :=
  WinsysBo 0 65536 false false false false false false RADEON_DOMAIN_GTT 2 1 RUN_CMD_FLAGS 0 2 2 0 false 4096 true.

Lemma run_client : client run_buffer.1 run_buffer.2 1 2 run_ws run_bo.
Proof.
  split; [by vm_compute|]. split; [by vm_compute|]. split; [by vm_compute|]. split; [|done].
  refine (bool_decide_unpack _ _). by vm_compute.
Qed.

Lemma run_parked_reachable : reachable run_parked.1 run_parked.2.
Proof.
  assert (run_parked = run_ops [OpDestroy 1 2] run_buffer) as -> by (by vm_compute).
  apply run_reachable; [apply run_buffer_reachable|]. split; [|by vm_compute]. exists run_ws, run_bo.
  split; [apply run_client|by right].
Qed.

Definition run_entry : radv_xclipse_ibcache_entry := Entry 2 1 65536 4096 RUN_CMD_FLAGS RADEON_DOMAIN_GTT.

(** Buffer 2 is all that winsys 1 has. *)
Lemma run_parked_closable : allowed run_parked.1 run_parked.2 (OpWinsysDestroy 1).
Proof.
  exists run_ws. split; [by vm_compute|]. intros b i Ho. left.
  assert (run_parked.1 = {[2 := (1, run_info)]}) as E by by vm_compute. rewrite E in Ho.
  apply lookup_singleton_Some in Ho as [<- _]. refine (bool_decide_unpack _ _). by vm_compute.
Qed.

(** A sparse buffer 3 next to the command buffer; 4 is the zero buffer. *)
Definition run_sparse : proc sim :=
  match run_op op_sparse run_buffer.2 with Some (_, p') => p' | None => run_buffer.2 end.

Lemma run_sparse_eq : run_op op_sparse run_buffer.2 = Some ((VK_SUCCESS, Some 3), run_sparse).
Proof. by vm_compute. Qed.

Lemma sparse_run_ok : create_sparse_ok (K := sim) run_ws None 1 65536 RUN_SPARSE_FLAGS 0.
Proof. split; [by split|]. by split. Qed.
