(* ===== verification/BoMain.v ===== *)
(** The properties of the buffers of the winsys, over the states a process reaches: the invariant,
    progress, and what creation (the requests to libdrm and the kernel included), import and destruction
    do. *)

From stdpp Require Import gmap.
From S2P Require Import Prelude Pm4 BoModel BoLogic BoKernel BoInv BoVa BoBooks BoHeld BoDestroy BoFree BoAcquire BoCreate BoImport BoVirtual BoSparse BoBind BoTeardown BoSteady BoWinsys BoSteps BoSim BoRuns.

(** What a failed creation leaves: every structure, counter and list as it was, and of the kernel the
    same ranges and references. *)
Definition nothing_changed {K} `{!DrmView K} (p p' : proc K) : Prop :=
  p_bos p' = p_bos p /\ p_trackers p' = p_trackers p /\ p_cache p' = p_cache p /\ p_churn p' = p_churn p
  /\ (forall w, option_Forall2 ws_same (p_winsys p !! w) (p_winsys p' !! w))
  /\ (forall h, range_held (p_k p') h = range_held (p_k p) h)
  /\ (forall buf, buf_refs (p_k p') buf = buf_refs (p_k p) buf).

(** A creation that asks for [spec]: a buffer nobody holds that is mapped as described, the others as
    they were; or nothing. *)
Definition provides {K} `{!Drm K} `{!DrmView K} (own : gmap Z (Z * winsys_info)) (p : proc K) (w : Z) (i : winsys_info)
    (spec : radv_amdgpu_winsys_bo -> Prop) (res : VkResult * option Z) (p' : proc K) : Prop :=
  match res with
  | (VK_SUCCESS, Some b) =>
      (own !! b = None /\ p_cache p' = p_cache p \/ (b ∈ parked w (p_cache p)) /\ b ∉ e_bo <$> p_cache p')
      /\ (forall b', b' <> b -> p_bos p' !! b' = p_bos p !! b')
      /\ exists bo, p_bos p' !! b = Some bo /\ spec bo /\ mapped (p_k p') (ws_dev i) bo
  | (VK_SUCCESS, None) | (_, Some _) => False
  | (_, None) => nothing_changed p p'
  end.

(** ** What a creation asks libdrm and the kernel for *)

Definition power_of_two (n : Z) : Prop := exists k, 0 <= k /\ n = 2 ^ k.

(** Where the memory may be: a device without VRAM has its VRAM domain in system memory. *)
Definition in_vram (i : winsys_info) (domain : Z) : bool := negb (vram_size_kb i =? 0) && has domain RADEON_DOMAIN_VRAM.
Definition in_gtt (i : winsys_info) (domain : Z) : bool :=
  has domain RADEON_DOMAIN_GTT || (vram_size_kb i =? 0) && has domain RADEON_DOMAIN_VRAM.

(** The heaps and the flags of the kernel, and when a creation asks for each. *)
Definition heap_table (i : winsys_info) (domain : Z) : list (Z * bool) :=
  [(AMDGPU_GEM_DOMAIN_VRAM, in_vram i domain);
   (AMDGPU_GEM_DOMAIN_GTT, in_gtt i domain || in_vram i domain && negb (perftest_no_gtt_spill i));
   (AMDGPU_GEM_DOMAIN_GDS, has domain RADEON_DOMAIN_GDS);
   (AMDGPU_GEM_DOMAIN_OA, has domain RADEON_DOMAIN_OA)].

Definition flag_table (i : winsys_info) (domain flags : Z) : list (Z * bool) :=
  let shared := negb (has flags RADEON_FLAG_NO_INTERPROCESS_SHARING) in
  let memory := in_vram i domain || in_gtt i domain in
  [(AMDGPU_GEM_CREATE_CPU_ACCESS_REQUIRED, has flags RADEON_FLAG_CPU_ACCESS);
   (AMDGPU_GEM_CREATE_NO_CPU_ACCESS, has flags RADEON_FLAG_NO_CPU_ACCESS);
   (AMDGPU_GEM_CREATE_CPU_GTT_USWC, has flags RADEON_FLAG_GTT_WC);
   (AMDGPU_GEM_CREATE_EXPLICIT_SYNC, negb (has flags RADEON_FLAG_IMPLICIT_SYNC));
   (AMDGPU_GEM_CREATE_VM_ALWAYS_VALID,
    memory && negb shared && (perftest_local_bos i || has flags RADEON_FLAG_PREFER_LOCAL_BO));
   (AMDGPU_GEM_CREATE_VIRTIO_SHARED, is_virtio i && memory && shared);
   (AMDGPU_GEM_CREATE_DISCARDABLE, has flags RADEON_FLAG_DISCARDABLE && (47 <=? drm_minor i));
   (AMDGPU_GEM_CREATE_GFX12_DCC, has flags RADEON_FLAG_GFX12_ALLOW_DCC);
   (AMDGPU_GEM_CREATE_ENCRYPTED, has flags RADEON_FLAG_ENCRYPTED)].

(** [x] has the bits of the table that are asked for, and no other bit. *)
Definition bits_are (x : Z) (table : list (Z * bool)) : Prop :=
  Forall (fun t => has x t.1 = t.2) table /\ Z.ldiff x (lors (fst <$> table)) = 0.

Definition requested (i : winsys_info) (size alignment domain flags : Z) (r : bo_alloc_request) : Prop :=
  alloc_size r = size /\ phys_alignment r = alignment
  /\ bits_are (preferred_heap r) (heap_table i domain) /\ bits_are (alloc_flags r) (flag_table i domain flags).

(** The address range and the memory of a buffer: the range is aligned as asked for, and to the
    fragments of the page table when the buffer is as large as one; it is reserved in the half of the
    address space and at the address the flags ask for; and the kernel was asked for the right memory. *)
Record obtained {K} `{!Drm K} (i : winsys_info) (size alignment domain flags replay_address : Z)
    (bo : radv_amdgpu_winsys_bo) : Prop := Obtained {
  ob_aligned : power_of_two alignment -> power_of_two (pte_fragment_size i) ->
    bo_va bo mod alignment = 0 /\ (pte_fragment_size i <= size -> bo_va bo mod pte_fragment_size i = 0);
  ob_replay : replay_address <> 0 -> bo_va bo = replay_address;
  ob_range : exists n al replay fl k k',
    drm_va_range_alloc (ws_dev i) n al replay fl k = (k', Some (bo_va bo, va_handle bo))
    /\ size <= n
    /\ bits_are fl [(AMDGPU_VA_RANGE_HIGH, true); (AMDGPU_VA_RANGE_32_BIT, has flags RADEON_FLAG_32BIT);
                    (AMDGPU_VA_RANGE_REPLAYABLE, has flags RADEON_FLAG_REPLAYABLE)];
  ob_memory : exists r k k', drm_bo_alloc (ws_dev i) r k = (k', Some (bo_buf bo))
    /\ requested i size alignment domain flags r
}.

Lemma has_lor_bits a b m : has (Z.lor a b) m = has a m || has b m.
Proof.
  unfold has. rewrite Z.land_lor_distr_l.
  destruct (Z.eqb_spec (Z.land a m) 0) as [->|Ha]; [done|]. simpl.
  destruct (Z.eqb_spec (Z.lor (Z.land a m) (Z.land b m)) 0) as [E|]; [|done].
  by apply Z.lor_eq_0_iff in E as [? _].
Qed.

Lemma has_bit_if c bit m : has (bit_if c bit) m = c && has bit m.
Proof. by destruct c. Qed.

Lemma ldiff_lor a b m : Z.ldiff a m = 0 -> Z.ldiff b m = 0 -> Z.ldiff (Z.lor a b) m = 0.
Proof. intros Ha Hb. by rewrite !Z.ldiff_land, Z.land_lor_distr_l, <- !Z.ldiff_land, Ha, Hb. Qed.

Lemma ldiff_bit_if c bit m : Z.ldiff bit m = 0 -> Z.ldiff (bit_if c bit) m = 0.
Proof. by destruct c; [|rewrite Z.ldiff_0_l]. Qed.

(** The bits of a request, one by one. *)
Ltac bits_tac :=
  split; [repeat (apply Forall_cons; split); [..|apply Forall_nil; exact I];
          cbn [fst snd]; rewrite ?has_lor_bits, ?has_bit_if
         |repeat first [apply ldiff_lor|apply ldiff_bit_if]; vm_compute; reflexivity].

Lemma normalised_has i domain :
  has (normalise_domain i domain) RADEON_DOMAIN_VRAM = in_vram i domain
  /\ has (normalise_domain i domain) RADEON_DOMAIN_GTT = in_gtt i domain
  /\ has (normalise_domain i domain) RADEON_DOMAIN_GDS = has domain RADEON_DOMAIN_GDS
  /\ has (normalise_domain i domain) RADEON_DOMAIN_OA = has domain RADEON_DOMAIN_OA.
Proof.
  unfold normalise_domain, in_vram, in_gtt. destruct (vram_size_kb i =? 0); simpl; [|by rewrite ?orb_false_r].
  destruct (has domain RADEON_DOMAIN_VRAM) eqn:E; simpl; [|by rewrite ?orb_false_r].
  rewrite !has_lor_bits. unfold has in *. rewrite <- !Z.land_assoc.
  split_and!; cbn; rewrite ?Z.land_0_r, ?orb_true_r, ?orb_false_r; done.
Qed.

Lemma make_request_requested i size alignment domain flags :
  requested i size alignment domain flags (make_request i size alignment (normalise_domain i domain) flags).
Proof.
  destruct (normalised_has i domain) as (Ev&Eg&Ed&Eo).
  assert (has (normalise_domain i domain) RADEON_DOMAIN_VRAM_GTT = in_vram i domain || in_gtt i domain) as Em.
  { rewrite <- Ev, <- Eg. unfold has.
    change RADEON_DOMAIN_VRAM_GTT with (Z.lor RADEON_DOMAIN_VRAM RADEON_DOMAIN_GTT).
    rewrite Z.land_lor_distr_r. set (x := Z.land _ RADEON_DOMAIN_VRAM). set (y := Z.land _ RADEON_DOMAIN_GTT).
    destruct (Z.eqb_spec (Z.lor x y) 0) as [[-> ->]%Z.lor_eq_0_iff|Hn]; [done|].
    destruct (Z.eqb_spec x 0) as [->|]; [|done]. rewrite Z.lor_0_l in Hn. by rewrite (proj2 (Z.eqb_neq y 0)). }
  unfold requested, make_request, wants_local. cbn [alloc_size phys_alignment preferred_heap alloc_flags].
  rewrite Ev, Eg, Ed, Eo, Em. split; [done|]. split; [done|]. split; unfold heap_table, flag_table.
  - bits_tac; cbn; rewrite ?andb_true_r, ?andb_false_r, ?orb_false_r; try done.
    all: by destruct (in_vram i domain), (in_gtt i domain), (perftest_no_gtt_spill i).
  - rewrite negb_involutive. bits_tac; cbn; by rewrite ?andb_true_r, ?andb_false_r, ?orb_false_r.
Qed.

(** Buffer [b] is gone, and the kernel has its range and one reference back. *)
Definition given_back {K} `{!DrmView K} (p : proc K) (b : Z) (bo : radv_amdgpu_winsys_bo) (p' : proc K) : Prop :=
  p_bos p' !! b = None /\ p_cache p' = p_cache p
  /\ (forall h, range_held (p_k p') h = if h =? va_handle bo then 0 else range_held (p_k p) h)
  /\ (forall buf, buf_refs (p_k p') buf = buf_refs (p_k p) buf - uses_buf buf b bo).

(** Buffer [b] waits in the cache; the kernel and the counters have not noticed. *)
Definition kept_back {K} `{!DrmView K} (p : proc K) (w b : Z) (bo : radv_amdgpu_winsys_bo) (p' : proc K) : Prop :=
  radv_xclipse_ibcache_cacheable bo = true /\ same_view (p_k p) (p_k p') /\ p_trackers p' = p_trackers p
  /\ p_bos p' !! b = Some (with_cpu_map 0 bo)
  /\ p_cache p' = p_cache p ++ [Entry b w (bo_size bo) (xclipse_alignment bo) (bo_flags bo) (initial_domain bo)].

Section results.
Context {K : Type} `{!Drm K} `{!DrmView K} `{!DrmLaws K}.
Implicit Types (k : K) (p : proc K) (own : gmap Z (Z * winsys_info)).
#[local] Set Default Proof Using "All".

Lemma failed_nothing own p p' : inv own p -> failed own p p' -> nothing_changed p p'.
Proof.
  intros Hi [Hi' Hf]. pose proof Hf as [Hw Eb Et Ec _ _ Ech _]. split; [done|]. split; [done|]. split; [done|].
  split; [done|]. split; [done|]. split; [intros h|intros buf].
  - by rewrite (he_ranges _ _ _ (in_held _ _ Hi')), (he_ranges _ _ _ (in_held _ _ Hi)), Eb.
  - by rewrite (he_bufs _ _ _ (in_held _ _ Hi')), (he_bufs _ _ _ (in_held _ _ Hi)), Eb.
Qed.

Lemma owned_mapped own p b w i bo :
  inv own p -> own !! b = Some (w, i) -> p_bos p !! b = Some bo -> is_virtual bo = false -> mapped (p_k p) (ws_dev i) bo.
Proof. intros Hi Ho Hb Hv. by apply (ba_buffer _ _ _ (he_backed _ _ _ (in_held _ _ Hi) _ _ _ _ Ho Hb) Hv). Qed.

Lemma creation_provides own p w i spec res p' :
  inv own p -> creation own p w i spec res p' -> (forall bo, spec bo -> is_virtual bo = false) -> provides own p w i spec res p'.
Proof.
  intros Hi Hc Hv.
  assert (failed own p p' -> nothing_changed p p') as Hf by by apply failed_nothing.
  destruct res as [[] [b|]]; simpl in *; try done; try by apply Hf.
  destruct Hc as (Ho&Hi'&Hob&bo&Hb&Hsp&_). split; [left; split; [done|apply (ob_cache _ _ _ Hob)]|].
  split; [apply (ob_bos _ _ _ Hob)|]. exists bo. split; [done|]. split; [done|].
  apply (owned_mapped (<[b := (w, i)]> own) p' b w i); [done|apply lookup_insert_eq|done|by apply Hv].
Qed.

Lemma provision_provides own p w i spec res p' :
  inv own p -> provision own p w i spec res p' -> (forall bo, spec bo -> is_virtual bo = false) -> provides own p w i spec res p'.
Proof.
  intros Hi [Hc|(b&->&Hr)] Hv; [by eapply creation_provides|].
  destruct Hr as (Ho&Hi'&Hnc&(e&He&Hp)&_&_&Hbs&_&bo0&bo&_&Hb&_&_&Hsp&_). simpl.
  split; [right; split; [|done]|split; [done|exists bo; split; [done|split; [done|]]]].
  - pose proof (ca_entries _ _ (bk_cache _ _ (in_books _ _ Hi))) as Hall. rewrite Forall_forall in Hall.
    assert (e ∈ p_cache p) as Hin by (rewrite Hp; by left). destruct (Hall e Hin) as (i'&bo'&Ho'&_).
    rewrite He, Ho in Ho'. injection Ho' as Ew _. rewrite <- He. apply list_elem_of_fmap_2, list_elem_of_filter. done.
  - eapply owned_mapped; [exact Hi'|exact Ho|exact Hb|by apply Hv].
Qed.

Lemma provides_mono own p w i (spec spec' : radv_amdgpu_winsys_bo -> Prop) res p' :
  provides own p w i spec res p' ->
  (forall b bo, res = (VK_SUCCESS, Some b) -> own !! b = None \/ (b ∈ parked w (p_cache p)) -> p_bos p' !! b = Some bo ->
     spec bo -> spec' bo) ->
  provides own p w i spec' res p'.
Proof.
  intros Hp Hs. destruct res as [[] [b|]]; try done. destruct Hp as (Ho&Hbs&bo&Hb&Hsp&Hm).
  split; [done|]. split; [done|]. exists bo. split; [done|]. split; [|done].
  apply (Hs b bo); [done| |done|done]. destruct Ho as [[? _]|[? _]]; auto.
Qed.

(** ** Where the buffers of a process come from *)

(** The address a creation asks for, 0 when it is left to libdrm. *)
Definition op_replay (o : bo_op) : Z :=
  match o with
  | OpCreate _ _ _ _ flags _ replay_address => if has flags RADEON_FLAG_VIRTUAL then 0 else replay_address
  | _ => 0
  end.

(** A buffer that [p] does not have, created on [w]. *)
Definition new_on p (w replay_address : Z) (b : Z) (bo : radv_amdgpu_winsys_bo) : Prop :=
  p_next p <= b
  /\ (is_virtual bo = true \/ imported bo = true \/ exists i, told p w i /\ granted i replay_address bo).

Lemma granted_same i ra bo bo' : same_grant bo bo' -> granted i ra bo -> granted i ra bo'.
Proof. unfold granted. by intros (->&->&->&->&->&->&->&_). Qed.

Lemma new_on_lenient p w ra : lenient p (new_on p w ra).
Proof.
  split; [|intros b bo Hn Ho; split; [done|destruct Ho; auto]].
  intros b bo bo' Hs (Hn&Hg). pose proof Hs as (_&_&_&_&_&_&_&Ev&Ei). split; [done|]. rewrite Ev, Ei.
  destruct Hg as [?|[?|(i&Ht&Hg)]]; auto. right. right. exists i. split; [done|]. by eapply granted_same.
Qed.

Lemma new_on_allows p w ra : allows_new p (new_on p w ra) w ra.
Proof. intros b i bo Hn Ht Hg. split; [done|]. right. right. by exists i. Qed.

(** A buffer after an operation was there before it, or the operation created it. *)
Lemma run_op_brings o p r p' :
  run_op o p = Some (r, p') -> arises p (new_on p (op_winsys o p) (op_replay o)) p'.
Proof.
  assert (brings p (new_on p (op_winsys o p) (op_replay o)) (run_op o)) as H.
  { pose proof (new_on_lenient p (op_winsys o p) (op_replay o)) as HG.
    pose proof (new_on_allows p (op_winsys o p) (op_replay o)) as HN. revert HG HN.
    generalize (new_on p (op_winsys o p) (op_replay o)). intros G HG HN.
    destruct o; simpl in *.
    3-11: apply brings_keeps; try (apply keeps_bind; [|intros ?; apply keeps_ret]).
    - by apply brings_winsys_create.
    - intros q a q' Hs Ha. unfold mbind, M_bind. destruct (radv_amdgpu_winsys_destroy _ _ q) as [[d q1]|] eqn:E; [|done].
      intros [= _ <-]. by eapply brings_winsys_destroy.
    - by apply keeps_create.
    - by apply keeps_from_ptr.
    - by apply keeps_from_fd.
    - by apply keeps_flags_from_fd.
    - by apply keeps_destroy.
    - by apply keeps_map.
    - by apply keeps_unmap.
    - by apply keeps_make_resident.
    - by apply keeps_virtual_bind. }
  apply H; [apply steady_refl|apply arises_refl].
Qed.

Definition all_granted own p : Prop :=
  forall b w i bo, own !! b = Some (w, i) -> p_bos p !! b = Some bo -> is_virtual bo = false -> imported bo = false ->
  exists ra, granted i ra bo.

(** The state after an operation on [w]: old buffers keep what they were granted, new ones have it. *)
Lemma arises_granted own p w ra p' b w' i bo :
  inv own p -> all_granted own p -> (forall i ws, told p w i -> p_winsys p' !! w = Some ws -> ws_info ws = i) ->
  arises p (new_on p w ra) p' ->
  own_after own w p' !! b = Some (w', i) -> p_bos p' !! b = Some bo -> is_virtual bo = false -> imported bo = false ->
  exists ra', granted i ra' bo /\ (own !! b = None -> ra' = ra).
Proof.
  intros Hi Hall Hst Har Ho Hb Hv Him. unfold own_after in Ho. rewrite map_lookup_imap, Hb in Ho. simpl in Ho.
  destruct (Har b bo Hb) as [(bo0&Hb0&Hs)|(Hn&Hg)].
  - destruct (own !! b) as [[w0 i0]|] eqn:Eo.
    + injection Ho as -> ->. pose proof Hs as (_&_&_&_&_&_&_&Ev&Ei).
      destruct (Hall b w' i bo0 Eo Hb0) as [ra' Hra]; [congruence|congruence|].
      exists ra'. split; [by eapply granted_same|done].
    + destruct (proj2 (bk_dom _ _ (in_books _ _ Hi) b)) as [x Hx]; [by exists bo0|]. congruence.
  - destruct (own !! b) as [x|] eqn:Eo.
    { pose proof (bk_next _ _ (in_books _ _ Hi) b ltac:(by rewrite Eo)). lia. }
    destruct Hg as [?|[?|(i'&Ht&Hg)]]; [congruence|congruence|].
    destruct (p_winsys p' !! w) as [ws|] eqn:Ew; [|done]. injection Ho as _ <-. exists ra. by rewrite (Hst i' ws Ht eq_refl).
Qed.

(** C5: in every state a process reaches, the memory counters of each device are the sums over its
    buffers; the cache holds at most 64 buffers and 64 MiB, each once; every plain buffer is mapped at its
    address from its first byte to its last; two buffers of a device are apart; and the kernel holds one
    range and one reference for each structure, and nothing else. *)
Theorem reachable_buffers own p :
  reachable own p ->
  (forall c t, p_trackers p !! c = Some t -> tracker_counts own (p_bos p) c t)
  /\ (NoDup (e_bo <$> p_cache p) /\ Z.of_nat (length (p_cache p)) <= 64
      /\ p_cache_bytes p = sum_sizes (p_cache p) /\ sum_sizes (p_cache p) <= 64 * 1024 * 1024)
  /\ (forall b, is_Some (own !! b) <-> is_Some (p_bos p !! b))
  /\ (forall b w i bo, own !! b = Some (w, i) -> p_bos p !! b = Some bo -> is_virtual bo = false ->
        mapped (p_k p) (ws_dev i) bo)
  /\ (forall b1 b2 w1 w2 i1 i2 bo1 bo2, b1 <> b2 -> own !! b1 = Some (w1, i1) -> own !! b2 = Some (w2, i2) ->
        p_bos p !! b1 = Some bo1 -> p_bos p !! b2 = Some bo2 -> ws_dev i1 = ws_dev i2 ->
        apart_ranges (range_va i1 bo1) (span bo1) (range_va i2 bo2) (span bo2))
  /\ (forall h, range_held (p_k p) h = bo_sum (uses_range h) (p_bos p))
  /\ (forall buf, buf_refs (p_k p) buf = bo_sum (uses_buf buf) (p_bos p)).
Proof.
  intros Hr. pose proof (reachable_good own p Hr) as Hg. pose proof (gd_inv _ _ Hg) as Hi.
  pose proof (bk_cache _ _ (in_books _ _ Hi)) as [_ Hnd Hlen Hby Hcap].
  split; [apply (bk_counts _ _ (in_books _ _ Hi))|]. split; [split_and!; try done; by rewrite <- Hby|].
  split; [apply (bk_dom _ _ (in_books _ _ Hi))|]. split; [intros b w i bo; by apply owned_mapped|].
  split; [|split; apply (in_held _ _ Hi)].
  intros b1 b2 w1 w2 i1 i2 bo1 bo2 Hne Ho1 Ho2 Hb1 Hb2 Hd.
  destruct (backed_range _ _ _ _ _ _ _ (in_held _ _ Hi) Ho1 Hb1) as (n1&Hr1&Hn1&_).
  destruct (backed_range _ _ _ _ _ _ _ (in_held _ _ Hi) Ho2 Hb2) as (n2&Hr2&Hn2&_). rewrite Hd in Hr1.
  destruct (ko_apart _ (he_kernel _ _ _ (in_held _ _ Hi)) _ _ _ _ _ _ _
              (va_handles_differ _ _ _ _ _ _ _ (in_held _ _ Hi) Hne Hb1 Hb2) Hr1 Hr2); [left|right]; lia.
Qed.

(** C7: in every state a process reaches, an operation whose caller keeps to the rules fails no
    assertion, follows no dangling pointer and returns. *)
Theorem allowed_operations_return own p o :
  reachable own p -> allowed own p o -> exists r p', run_op o p = Some (r, p').
Proof.
  intros Hr Ha. destruct (wp_run _ _ _ (step_ok own p o (reachable_good own p Hr) Ha)) as (r&p'&E&_). by exists r, p'.
Qed.

(** The winsys an operation is run on is still told the same, unless it ends. *)
Lemma run_op_told own p o r p' i ws :
  good own p -> allowed own p o -> run_op o p = Some (r, p') -> told p (op_winsys o p) i ->
  p_winsys p' !! op_winsys o p = Some ws -> ws_info ws = i.
Proof.
  intros Hg Ha E Ht Hw. pose proof (step_buffers own p o Hg Ha) as Hb.
  destruct o as [i0|w|w s a d f n l|w l s n|w l n|w l|w b|w b l|w b l|w b l|w b s n t l].
  3-11: destruct (wp_eq _ _ _ _ _ Hb E) as [own' Ho];
    pose proof (st_winsys _ _ (oc_steady _ _ _ _ _ Ho) w) as Hs; unfold told in Ht; simpl in *;
    rewrite Hw, Ht in Hs; by injection Hs.
  - simpl in *. unfold told in Ht. destruct (p_winsys p !! p_next p) as [ws0|] eqn:E0; [|done].
    pose proof (wn_next _ (gd_winsyses _ _ Hg) _ (mk_is_Some _ _ E0)). lia.
  - simpl in *. unfold mbind, M_bind in E. destruct (radv_amdgpu_winsys_destroy PURGE_FUEL w p) as [[d q]|] eqn:E0; [|done].
    destruct (wp_eq _ _ _ _ _ (step_winsys_destroy own p w Hg Ha) E0) as (_&_&Hc). injection E as _ <-.
    by rewrite (cd_gone _ _ _ _ _ Hc) in Hw.
Qed.

Lemma reachable_granted own p : reachable own p -> all_granted own p.
Proof.
  intros Hr. induction Hr as [k mt sysfs n|own p o r p' Hr IH Ha E]; [intros b w i bo Ho; by rewrite lookup_empty in Ho|].
  intros b w i bo Ho Hb Hv Him. pose proof (reachable_good own p Hr) as Hg.
  destruct (arises_granted own p (op_winsys o p) (op_replay o) p' b w i bo) as (ra&Hgr&_);
    [apply Hg|done| |by apply (run_op_brings o p r p')|done..|by exists ra].
  intros i' ws'. by apply (run_op_told own p o r p').
Qed.

Lemma power_max_divides a b x : power_of_two a -> power_of_two b -> x mod Z.max a b = 0 -> x mod a = 0 /\ x mod b = 0.
Proof.
  intros [m [Hm ->]] [n [Hn ->]] Hx.
  assert (forall u v, 0 <= u <= v -> (2 ^ u | 2 ^ v)) as Hd.
  { intros u v Huv. exists (2 ^ (v - u)). rewrite <- Z.pow_add_r by lia. f_equal. lia. }
  assert (forall u, 0 <= u -> 0 < 2 ^ u) as Hp by (intros; by apply Z.pow_pos_nonneg).
  pose proof (Hp m Hm). pose proof (Hp n Hn). apply Z.mod_divide in Hx; [|lia].
  destruct (Z.le_ge_cases m n) as [Hmn|Hmn].
  - rewrite Z.max_r in Hx by (apply Z.pow_le_mono_r; lia).
    split; apply Z.mod_divide; [lia| |lia|done]. etrans; [|exact Hx]. apply Hd; lia.
  - rewrite Z.max_l in Hx by (apply Z.pow_le_mono_r; lia).
    split; apply Z.mod_divide; [lia|done|lia|]. etrans; [|exact Hx]. apply Hd; lia.
Qed.

Lemma granted_obtained i size alignment domain flags priority ra replay_address bo :
  size_fits size -> described i size alignment domain flags priority bo -> granted i ra bo ->
  (replay_address <> 0 -> ra = replay_address) -> obtained i size alignment domain flags replay_address bo.
Proof.
  intros Hs Hd ((k&k'&Hr)&(k1&k1'&Hm)) Hra. rewrite (de_size _ _ _ _ _ _ _ Hd), (de_alignment _ _ _ _ _ _ _ Hd), (de_flags _ _ _ _ _ _ _ Hd) in *.
  rewrite (de_domain _ _ _ _ _ _ _ Hd) in Hm. fold (reserved_size i size alignment flags) in Hr.
  destruct (reserved_bounds i size alignment flags Hs) as [Hle Hb].
  destruct (range_alloc_spec _ _ _ _ _ _ _ _ _ Hb Hr) as (_&Hal&Hat&_&_). split.
  - unfold virt_alignment in Hal. intros Ha Hp. destruct (Z.leb_spec (pte_fragment_size i) size) as [Hle'|Hlt].
    + destruct (power_max_divides _ _ (bo_va bo) Ha Hp); [|done].
      apply Hal. destruct Ha as [m [Hm0 ->]]. pose proof (Z.pow_pos_nonneg 2 m). lia.
    + split; [|lia]. apply Hal. destruct Ha as [m [Hm0 ->]]. by apply Z.pow_pos_nonneg.
  - intros Hn. rewrite <- (Hra Hn). apply Hat. by rewrite (Hra Hn).
  - exists (reserved_size i size alignment flags), (virt_alignment i size alignment), ra, (va_range_flags flags), k, k'.
    split; [done|]. split; [destruct (va_size_bounds size flags Hs); lia|].
    unfold va_range_flags. change (if has flags RADEON_FLAG_32BIT then ?x else 0) with (bit_if (has flags RADEON_FLAG_32BIT) x).
    change (if has flags RADEON_FLAG_REPLAYABLE then ?x else 0) with (bit_if (has flags RADEON_FLAG_REPLAYABLE) x).
    bits_tac; cbn; by rewrite ?andb_true_r, ?andb_false_r, ?orb_false_r.
  - eexists _, k1, k1'. split; [exact Hm|]. apply make_request_requested.
Qed.

Lemma cacheable_not_replayable bo :
  radv_xclipse_ibcache_cacheable bo = true -> has (bo_flags bo) RADEON_FLAG_REPLAYABLE = false.
Proof.
  unfold radv_xclipse_ibcache_cacheable. destruct (has (bo_flags bo) (Z.lor _ _)) eqn:E.
  { by repeat case_match. }
  intros _. revert E. unfold has. rewrite Z.land_lor_distr_r. intros E%negb_false_iff%Z.eqb_eq%Z.lor_eq_0_iff. by rewrite (proj2 E).
Qed.

(** What a creation returns, it has obtained: now, or when the parked buffer was created. *)
Lemma created_obtained own p w ws size alignment domain flags priority replay_address r p' b bo :
  let o := OpCreate w size alignment domain flags priority replay_address in
  reachable own p -> allowed own p o -> p_winsys p !! w = Some ws -> has flags RADEON_FLAG_VIRTUAL = false ->
  create_ok (ws_info ws) size domain flags replay_address -> run_op o p = Some (r, p') ->
  own !! b = None \/ (b ∈ parked w (p_cache p)) -> p_bos p' !! b = Some bo ->
  described (ws_info ws) size alignment domain flags priority bo ->
  obtained (ws_info ws) size alignment domain flags replay_address bo.
Proof.
  intros o Hr Ha Hw Hv (Hs&Hrep&_) E Hown Hb Hd. pose proof (reachable_good own p Hr) as Hg.
  pose proof (gd_inv _ _ Hg) as Hi. pose proof Hd as [_ _ Hfl _ _ (Hvb&Him&_)].
  pose proof (run_op_brings o p r p' E b bo Hb) as Har. simpl in Har. rewrite Hv in Har.
  destruct Hown as [Hn|(e&->&[He Hin]%list_elem_of_filter)%list_elem_of_fmap].
  - destruct Har as [(bo0&Hb0&_)|(_&[?|[?|(i&Ht&Hgr)]])]; [|congruence|congruence|].
    { destruct (proj2 (bk_dom _ _ (in_books _ _ Hi) b)) as [x Hx]; [by exists bo0|]. congruence. }
    unfold told in Ht. rewrite Hw in Ht. injection Ht as <-. by eapply granted_obtained.
  - pose proof (ca_entries _ _ (bk_cache _ _ (in_books _ _ Hi))) as Hall. rewrite Forall_forall in Hall.
    destruct (Hall e Hin) as (i&bo0&Ho&Hb0&_&Hca&_). rewrite He in Ho.
    destruct Har as [(bo1&Hb1&Hsg)|(Hlt&_)]; [|pose proof (bk_next _ _ (in_books _ _ Hi) _ (mk_is_Some _ _ Ho)); lia].
    rewrite Hb0 in Hb1. injection Hb1 as <-. pose proof Hsg as (_&_&_&_&_&Ef&_&Ev&Ei).
    destruct (reachable_granted own p Hr _ _ _ _ Ho Hb0) as [ra Hgr]; [congruence|congruence|].
    destruct (bk_winsys _ _ (in_books _ _ Hi) _ _ _ Ho) as (ws0&Hw0&<-). rewrite Hw in Hw0. injection Hw0 as <-.
    eapply granted_obtained; [done|done|by eapply granted_same|]. intros Hne.
    rewrite (proj2 (Z.eqb_neq _ _) Hne), <- Hfl, Ef in Hrep. apply cacheable_not_replayable in Hca. simpl in Hrep. congruence.
Qed.

(** C9: a creation that is not of a sparse buffer returns a buffer of the size, alignment, domain, flags
    and priority asked for, mapped at its address, which was new or parked by the same winsys; or it
    fails and has given back everything it took. The address is a multiple of the alignment, and of the
    fragment size of the page tables when the buffer is as large as a fragment; it is the replay address
    when one is given; its range is as long as the buffer and in the part of the address space the flags
    ask for; and the memory is what the kernel answered to a request with the size, the alignment, the
    heaps and the flags that were asked for. *)
Theorem create_provides own p w ws size alignment domain flags priority replay_address :
  reachable own p -> p_winsys p !! w = Some ws -> has flags RADEON_FLAG_VIRTUAL = false ->
  create_ok (ws_info ws) size domain flags replay_address ->
  exists res p', run_op (OpCreate w size alignment domain flags priority replay_address) p = Some (res, p')
    /\ provides own p w (ws_info ws) (fun bo => described (ws_info ws) size alignment domain flags priority bo
         /\ obtained (ws_info ws) size alignment domain flags replay_address bo) res p'.
Proof.
  intros Hr Hw Hv Hok. pose proof (gd_inv _ _ (reachable_good own p Hr)) as Hi.
  set (o := OpCreate w size alignment domain flags priority replay_address).
  assert (wp (run_op o) (fun res p' =>
    provides own p w (ws_info ws) (described (ws_info ws) size alignment domain flags priority) res p') p) as Hwp.
  { simpl. unfold radv_amdgpu_winsys_bo_create. rewrite Hv. apply (wp_create_plain own p w ws); [done..|]. intros res p' Hp.
    apply provision_provides; [done|done|]. intros bo [_ _ _ _ _ (?&_)]. done. }
  destruct (wp_run _ _ _ Hwp) as (res&p'&E&Hp). exists res, p'. split; [exact E|].
  eapply provides_mono; [exact Hp|]. intros b bo -> Hown Hb Hd. split; [done|].
  eapply (created_obtained own p w ws); try done. exists ws. by rewrite Hv.
Qed.

(** An import of memory of the process, or of a descriptor, returns a mapped buffer of that size, or
    fails and has given back everything it took. *)
Theorem import_provides own p w ws pointer size fd priority :
  reachable own p -> p_winsys p !! w = Some ws -> size_fits size ->
  (exists res p', run_op (OpFromPtr w pointer size priority) p = Some (res, p')
     /\ provides own p w (ws_info ws) (imported_as size priority) res p')
  /\ exists res p' size', run_op (OpFromFd w fd priority) p = Some (res, p')
     /\ provides own p w (ws_info ws) (imported_as size' priority) res p'.
Proof.
  intros Hr Hw Hs. pose proof (gd_inv _ _ (reachable_good own p Hr)) as Hi. split.
  - apply wp_run. simpl. apply (wp_from_ptr own p w ws); [done..|]. intros res p' Hc.
    apply creation_provides; [done|done|]. intros bo [_ _ _ (?&_)]. done.
  - assert (wp (run_op (OpFromFd w fd priority)) (fun res p' => exists size',
        provides own p w (ws_info ws) (imported_as size' priority) res p') p) as Hwp.
    { simpl. apply (wp_from_fd own p w ws); [done..|]. intros size' res p' Hc. exists size'.
      apply creation_provides; [done|done|]. intros bo [_ _ _ (?&_)]. done. }
    destruct (wp_run _ _ _ Hwp) as (res&p'&E&size'&Hp). by exists res, p', size'.
Qed.

(** C10: a destruction gives the buffer's address range and its reference back to the kernel and frees
    the structure; or, for a buffer of the cacheable kind, parks it: then the kernel's state and the
    counters stay, and the mapping of the process is dropped. No other buffer changes. *)
Theorem destroy_releases own p w b ws bo :
  reachable own p -> client own p w b ws bo ->
  debug_all_bos (ws_info ws) = true /\ is_virtual bo = false \/ use_global_list bo = false ->
  exists p', run_op (OpDestroy w b) p = Some ((VK_SUCCESS, None), p')
    /\ (forall b', b' <> b -> p_bos p' !! b' = p_bos p !! b')
    /\ (given_back p b bo p' \/ kept_back p w b bo p').
Proof.
  intros Hr Hc Hl. pose proof (gd_inv _ _ (reachable_good own p Hr)) as Hi. pose proof Hc as (Hw&Ho&Hb&_).
  assert (wp (run_op (OpDestroy w b)) (fun r p' => r = (VK_SUCCESS, None) /\
    (forall b', b' <> b -> p_bos p' !! b' = p_bos p !! b') /\ (given_back p b bo p' \/ kept_back p w b bo p')) p) as Hwp;
    [|destruct (wp_run _ _ _ Hwp) as (r&p'&E&->&H); by exists p'].
  simpl. apply wp_bind. apply (wp_destroy own p w b); [done|by eapply client_destroyable| |].
  - intros p' (Hi'&Ec&_&_&Eb&_). apply wp_ret. split; [done|]. split; [intros b' Hne; by rewrite Eb, lookup_delete_ne|].
    left. split; [by rewrite Eb, lookup_delete_eq|]. split; [done|]. split.
    + intros h. rewrite (he_ranges _ _ _ (in_held _ _ Hi')), Eb, (bo_sum_delete _ _ _ _ Hb), <- (he_ranges _ _ _ (in_held _ _ Hi)).
      unfold uses_range. destruct (Z.eqb_spec h (va_handle bo)) as [->|Hne].
      * rewrite Z.eqb_refl. destruct (backed_range _ _ _ _ _ _ _ (in_held _ _ Hi) Ho Hb) as (n&Hrg&_). unfold range_held. by rewrite Hrg.
      * rewrite (proj2 (Z.eqb_neq (va_handle bo) h)) by done. lia.
    + intros buf. by rewrite (he_bufs _ _ _ (in_held _ _ Hi')), Eb, (bo_sum_delete _ _ _ _ Hb), <- (he_bufs _ _ _ (in_held _ _ Hi)).
  - intros p' bo0 Hb0 Hca _ _ _ Ec Et _ _ _ Hv Hbs Hb'. rewrite Hb in Hb0. injection Hb0 as <-. apply wp_ret.
    split; [done|]. split; [done|]. by right.
Qed.

(** * The end of a winsys *)

(** C8: a winsys whose client has destroyed its buffers is torn down within 65 rounds of the loop
    that empties the cache: no buffer, no parked entry and no structure of it is left, the buffers and
    entries of the other winsys stay, and the trackers count the winsys that remain. *)
Theorem winsys_destroy_returns own p w :
  reachable own p -> allowed own p (OpWinsysDestroy w) ->
  exists p', run_op (OpWinsysDestroy w) p = Some ((VK_SUCCESS, None), p')
    /\ p_winsys p' !! w = None /\ p_dying p' = None
    /\ (forall e, (e ∈ p_cache p') -> e_ws e <> w)
    /\ (forall b i, own !! b = Some (w, i) -> p_bos p' !! b = None)
    /\ (forall b w' i, own !! b = Some (w', i) -> w' <> w -> p_bos p' !! b = p_bos p !! b)
    /\ (forall e, (e ∈ p_cache p) -> e_ws e <> w -> e ∈ p_cache p')
    /\ (forall c t, p_trackers p' !! c = Some t -> tr_refcount t = winsys_count c p' /\ 0 < tr_refcount t)
    /\ forall c, p_trackers p' !! c = None -> winsys_count c p' = 0.
Proof.
  intros Hr Ha. pose proof (reachable_good own p Hr) as Hg.
  destruct (wp_run _ _ _ (step_winsys_destroy own p w Hg Ha)) as (d&p'&E&->&Hg'&Hcl). exists p'.
  split; [unfold run_op, mbind, M_bind; by rewrite E|]. destruct Hcl as [_ Hws Hgone Hd _ _ Hc Hb].
  split; [done|]. split; [done|]. split; [|split; [|split; [|split; [|split]]]].
  - intros e He. rewrite Hc in He. by apply list_elem_of_filter in He as [? _].
  - intros b i Ho. specialize (Hb b). rewrite Ho, decide_True in Hb by done. by destruct Hb.
  - intros b w' i Ho Hne. specialize (Hb b). rewrite Ho, decide_False in Hb by done. by destruct Hb.
  - intros e He Hne. rewrite Hc. by apply list_elem_of_filter.
  - intros c t Ht. destruct (wn_refs _ Hws c t Ht) as [? ?]. split; [done|lia].
  - apply (wn_none _ Hws).
Qed.

End results.

(** * Witnesses *)

Lemma reachable_buffers_witness :
  reachable run_parked.1 run_parked.2 /\ p_cache run_parked.2 <> [] /\ Z.of_nat (length (p_cache run_parked.2)) <= 64.
Proof.
  split; [apply run_parked_reachable|]. split; [by vm_compute|].
  apply (reachable_buffers run_parked.1 run_parked.2 run_parked_reachable).
Defined.

Lemma allowed_operations_return_witness :
  exists r p', run_op (OpWinsysDestroy 1) run_parked.2 = Some (r, p').
Proof. exact (allowed_operations_return run_parked.1 run_parked.2 _ run_parked_reachable run_parked_closable). Defined.

Lemma create_provides_witness :
  reachable run_winsys.1 run_winsys.2 /\
  exists res p', run_op op_command_buffer run_winsys.2 = Some (res, p')
    /\ provides run_winsys.1 run_winsys.2 1 run_info
         (fun bo => described run_info 65536 4096 RADEON_DOMAIN_GTT RUN_CMD_FLAGS 0 bo
            /\ obtained run_info 65536 4096 RADEON_DOMAIN_GTT RUN_CMD_FLAGS 0 bo) res p'.
Proof.
  split; [apply run_winsys_reachable|].
  apply (create_provides run_winsys.1 run_winsys.2 1 run_ws 65536 4096 RADEON_DOMAIN_GTT RUN_CMD_FLAGS 0 0);
    [apply run_winsys_reachable|by vm_compute|done|exact create_run_ok].
Defined.

Lemma import_provides_witness :
  exists res p', run_op (OpFromPtr 1 8192 4096 0) run_winsys.2 = Some (res, p')
    /\ provides run_winsys.1 run_winsys.2 1 run_info (imported_as 4096 0) res p'.
Proof.
  apply (import_provides run_winsys.1 run_winsys.2 1 run_ws 8192 4096 3 0); [apply run_winsys_reachable|by vm_compute|done].
Defined.

Lemma destroy_releases_witness :
  client run_buffer.1 run_buffer.2 1 2 run_ws run_bo /\
  exists p', run_op (OpDestroy 1 2) run_buffer.2 = Some ((VK_SUCCESS, None), p')
    /\ (given_back run_buffer.2 2 run_bo p' \/ kept_back run_buffer.2 1 2 run_bo p').
Proof.
  split; [apply run_client|].
  destruct (destroy_releases run_buffer.1 run_buffer.2 1 2 run_ws run_bo run_buffer_reachable run_client (or_intror eq_refl))
    as (p'&E&_&H).
  exists p'. split; [exact E|exact H].
Defined.

Lemma winsys_destroy_returns_witness :
  exists p', run_op (OpWinsysDestroy 1) run_parked.2 = Some ((VK_SUCCESS, None), p') /\ p_winsys p' !! 1 = None.
Proof.
  destruct (winsys_destroy_returns run_parked.1 run_parked.2 1 run_parked_reachable run_parked_closable) as (p'&E&H&_).
  exists p'. split; [exact E|exact H].
Defined.
