(* ===== verification/BoSparseMain.v ===== *)
(** The properties of sparse buffers and of the teardown of two winsys at once, with concrete runs on
    the kernel of [BoSim]. *)

From stdpp Require Import gmap.
From S2P Require Import Prelude Pm4 BoModel BoLogic BoKernel BoInv BoVa BoBooks BoHeld BoDestroy BoFree BoAcquire BoCreate BoImport BoVirtual BoSparse BoBind BoTeardown BoSteady BoWinsys BoSteps BoSim BoRuns.

(** * Bindings *)

(** One [VkSparseMemoryBind]. *)
Record bind_req := BindReq { br_offset : Z; br_size : Z; br_target : option Z; br_bo_offset : Z }.

(** The bindings of a submission, up to the first that fails. *)
Fixpoint bind_all {K} `{!Drm K} (w b : Z) (l : list bind_req) : M K bool :=
  match l with
  | [] => mret true
  | r :: l =>
      let! res := radv_amdgpu_winsys_bo_virtual_bind w b (br_offset r) (br_size r) (br_target r) (br_bo_offset r) ;;
      if bool_decide (res = VK_SUCCESS) then bind_all w b l else mret false
  end.

(** The specification: bindings are writes to a function, in their order. *)
Fixpoint bound (l : list (bind_req * option (Z * Z))) (f : Z -> option (Z * Z)) : Z -> option (Z * Z) :=
  match l with
  | [] => f
  | (r, t) :: l => bound l (bind_fn (br_offset r) (br_size r) t f)
  end.

Section sparse_main.
Context {K : Type} `{!Drm K} `{!DrmView K} `{!DrmLaws K}.
Implicit Types (k : K) (p : proc K) (own : gmap Z (Z * winsys_info)).
#[local] Set Default Proof Using "All".

Definition bind_valid p bo (r : bind_req) (t : option (Z * Z)) : Prop :=
  bind_ok (K := K) bo (br_offset r) (br_size r) /\ bind_target p (br_target r) (br_bo_offset r) t.

Lemma sparse_buffer_framed own p p' w b ws bo nh :
  framed p p' -> sparse_buffer own p w b ws bo nh ->
  exists ws', ws_info ws' = ws_info ws /\ sparse_buffer own p' w b ws' bo nh.
Proof.
  intros Hf [Hw Ho Hb Hv Hs Hh Hn]. destruct (framed_ws _ _ _ _ Hf Hw) as (ws'&Hw'&(Ei&_)). exists ws'. split; [done|].
  split; rewrite ?Ei, ?(fr_bos _ _ Hf), ?(fr_dying _ _ Hf); try done.
  intros He. destruct (Hn He) as (?&?&?). split; [done|]. split; [done|]. by eapply null_handle_framed.
Qed.

Lemma wp_bind_all own p w b ws bo nh l ts f (Q : bool -> proc K -> Prop) :
  inv own p -> sparse_buffer own p w b ws bo nh -> sparse (p_k p) (ws_info ws) bo nh f ->
  Forall2 (bind_valid p bo) l ts ->
  (forall ok p', framed p p' -> inv own p' ->
     (ok = true -> sparse (p_k p') (ws_info ws) bo nh (bound (zip l ts) f)) -> Q ok p') ->
  wp (bind_all w b l) Q p.
Proof.
  revert p ws ts f Q. induction l as [|r l IH]; intros p ws ts f Q Hi Hsb Hsp Hl HQ.
  { apply Forall2_nil_inv_l in Hl as ->. apply wp_ret, HQ; [apply framed_refl|done|done]. }
  apply Forall2_cons_inv_l in Hl as (t&ts'&[Hok Ht]&Hl&->). simpl. apply wp_bind.
  eapply (wp_virtual_bind own p w b ws bo nh); [done..|]. intros res p1 Hi1 Hf1 [[-> Hb]| ->].
  - rewrite bool_decide_eq_true_2 by done. destruct (sparse_buffer_framed _ _ _ _ _ _ _ _ Hf1 Hsb) as (ws1&Ei&Hsb1).
    apply (IH p1 ws1 ts' (bind_fn (br_offset r) (br_size r) t f)); [done|done|rewrite Ei; by apply Hb| |].
    + eapply Forall2_impl; [exact Hl|]. intros r' t' [? Ht']. split; [done|]. unfold bind_target in *.
      by rewrite (fr_bos _ _ Hf1).
    + intros ok p2 Hf2 Hi2 Hsp2. apply HQ; [by etrans|done|]. intros E. rewrite <- Ei. by apply Hsp2.
  - apply wp_ret, HQ; done.
Qed.

(** C6: a new sparse buffer has nothing bound; after any list of bindings that all succeed, each of its
    bytes reaches the memory of the last binding that covers it, or none, through the address of the buffer
    and, under the workaround, through its low address, where the zero buffer stands in for no memory. *)
Theorem sparse_bindings_refine own p w ws size alignment domain flags priority replay_address b p1 :
  reachable own p -> p_winsys p !! w = Some ws -> has flags RADEON_FLAG_VIRTUAL = true ->
  create_sparse_ok (K := K) ws (p_dying p) w size flags replay_address ->
  run_op (OpCreate w size alignment domain flags priority replay_address) p = Some ((VK_SUCCESS, Some b), p1) ->
  exists bo nh, p_bos p1 !! b = Some bo /\ bo_size bo = size
    /\ sparse (p_k p1) (ws_info ws) bo nh (fun _ => None)
    /\ forall l ts, Forall2 (bind_valid p1 bo) l ts ->
         exists ok p2, bind_all w b l p1 = Some (ok, p2) /\ p_bos p2 = p_bos p1
           /\ (ok = true -> sparse (p_k p2) (ws_info ws) bo nh (bound (zip l ts) (fun _ => None))).
Proof.
  intros Hr Hw Hv Hok Hrun. pose proof (reachable_good own p Hr) as Hg. pose proof (gd_inv _ _ Hg) as Hi. simpl in Hrun.
  unfold radv_amdgpu_winsys_bo_create in Hrun. rewrite Hv in Hrun.
  destruct (wp_eq _ _ _ _ _ (wp_virtual_create own p w ws _ _ _ _ _ Hi Hw Hok (fun res p' H => H)) Hrun)
    as (own'&Hi'&Hex&_&_&Hsp&bo&Hb&Hs).
  destruct Hsp as (ws1&bo1&nh&Hsb&Htab). pose proof Hsb as [Hw1 _ Hb1 _ _ _ _]. rewrite Hb in Hb1. injection Hb1 as <-.
  destruct (ex_winsys _ _ _ _ Hex w ws Hw) as (ws'&Hw'&Ei&_). rewrite Hw1 in Hw'. injection Hw' as <-.
  exists bo, nh. rewrite <- Ei. split; [done|]. split; [done|]. split; [done|]. intros l ts Hl. apply wp_run.
  eapply (wp_bind_all own' p1 w b ws1 bo nh l ts); [done..|]. intros ok p2 Hf _ Hsp2. split; [apply (fr_bos _ _ Hf)|done].
Qed.

(** * Two winsys torn down at once *)

(** The teardown of [w1] is about to empty the cache when that of [w2] begins. *)
Definition begin_destroy_both (fuel : nat) (w1 w2 : Z) : M K bool :=
  let! _ := modify (set_dying (Some w1)) ;;
  let! _ := modify (set_dying (Some w2)) ;;
  radv_xclipse_ibcache_purge_ws fuel w1.

(** A buffer just taken out of the cache goes back in. *)
Lemma wp_park_again own p w j e (Q : unit -> proc K -> Prop) :
  inv own p -> p_dying p <> Some w -> p_cache p !! j = Some e -> e_ws e = w ->
  let p1 := set_cache (swap_remove j (p_cache p)) (u64 (p_cache_bytes p - e_size e)) p in
  inv own p1 -> (e_bo e ∉ e_bo <$> p_cache p1) ->
  (forall p', inv own p' -> p_dying p' = p_dying p -> (exists e', e' ∈ p_cache p' /\ e_ws e' = w) -> Q tt p') ->
  wp (radv_amdgpu_winsys_bo_destroy w (e_bo e)) Q p1.
Proof.
  intros Hi Hd Hj He p1 Hi1 Hni HQ. pose proof (bk_cache _ _ (in_books _ _ Hi)) as [Hall _ Hlen Hby Hcap].
  rewrite Forall_forall in Hall. destruct (Hall e ltac:(by eapply list_elem_of_lookup_2)) as (i&bo&Ho&Hb&Ee&Hca&_&Hul).
  rewrite He in Ho. pose proof (swap_remove_Permutation _ _ _ Hj) as Hp.
  unfold radv_amdgpu_winsys_bo_destroy. apply wp_bind. eapply wp_get_bo; [done|]. apply wp_bind.
  eapply (wp_park own p1 w (e_bo e) i bo); [done|done|done|done|done| |].
  - intros Hno. exfalso. destruct Hno as [Hno|[Hno|[Hno|Hno]]]; [congruence|by apply Hd|simpl in Hno|simpl in Hno].
    + rewrite Hp in Hlen. simpl in Hlen. lia.
    + assert (e_size e = bo_size bo) as Es by by rewrite Ee. pose proof (bk_sizes _ _ (in_books _ _ Hi) _ _ Hb) as Hsz.
      pose proof (ca_bytes _ _ (bk_cache _ _ (in_books _ _ Hi1))) as Hb1. simpl in Hb1.
      pose proof (sum_sizes_perm _ _ Hp) as Hsum. change (sum_sizes (e :: ?l)) with (e_size e + sum_sizes l) in Hsum.
      rewrite Hb1 in Hno. unfold size_fits in Hsz. change RADV_XCLIPSE_IBCACHE_CAP with 67108864 in *.
      pose proof (sum_sizes_nonneg _ _ _ (bk_sizes _ _ (in_books _ _ Hi1)) (ca_entries _ _ (bk_cache _ _ (in_books _ _ Hi1)))) as Hnn.
      simpl in Hnn. rewrite u64_small in Hno by (unfold W64; lia). lia.
  - intros p' _ _ Hi' _ Ed _ _ _ _ Ec _ _. apply wp_ret. apply HQ; [done|done|].
    eexists. split; [rewrite Ec; apply elem_of_app; right; by left|done].
Qed.

Lemma wp_purge_stuck own p w fuel :
  inv own p -> p_dying p <> Some w -> (exists e, e ∈ p_cache p /\ e_ws e = w) ->
  wp (radv_xclipse_ibcache_purge_ws fuel w) (fun r _ => r = false) p.
Proof.
  revert p. induction fuel as [|fuel IH]; intros p Hi Hd Hin; [by apply wp_ret|]. simpl. unfold purge_round.
  apply wp_bind, wp_bind. apply (wp_cache_take own); [done| |].
  - intros Hn. destruct Hin as (e&He&Hw). specialize (Hn e He). by apply Z.eqb_neq in Hn.
  - intros j e Hj He%Z.eqb_eq _ Hi1 Hni. apply wp_bind. eapply (wp_park_again own p w j e); try done.
    intros p' Hi' Hd' Hin'. apply wp_ret. apply IH; [done|congruence|done].
Qed.

(** C38: when a second winsys begins its teardown before the first has emptied the cache, the loop of the
    first never returns: each buffer it takes out of the cache, its destruction parks again. *)
Theorem two_teardowns_never_return own p w1 w2 e :
  reachable own p -> w1 <> w2 -> e ∈ p_cache p -> e_ws e = w1 ->
  forall fuel, exists p', begin_destroy_both fuel w1 w2 p = Some (false, p').
Proof.
  intros Hr Hne He Hw fuel. pose proof (reachable_good own p Hr) as Hg.
  assert (wp (begin_destroy_both fuel w1 w2) (fun r _ => r = false) p) as Hwp.
  { unfold begin_destroy_both. do 2 wp_step. apply (wp_purge_stuck own); [|simpl; congruence|by exists e].
    apply (inv_dying own p (Some w2)); apply Hg. }
  destruct (wp_run _ _ _ Hwp) as (r&p'&E&->). by exists p'.
Qed.

End sparse_main.

(** * A failed creation of a sparse buffer *)

(** The kernel fails its third call on the address space: the first maps the zero buffer, the second
    the high half of the sparse buffer. *)
Definition failing_winsys : state := run_ops [op_winsys_run] (start 3).

(** When the low half of a sparse buffer cannot be mapped, its creation fails and gives its range
    back, but its high half stays mapped: no structure names the mapping, and no range of the device holds
    its address, with or without the control bit. *)
Theorem sparse_failure_leaves_mapping :
  reachable failing_winsys.1 failing_winsys.2 /\ allowed failing_winsys.1 failing_winsys.2 op_sparse /\
  exists p' m, run_op op_sparse failing_winsys.2 = Some ((VK_ERROR_OUT_OF_DEVICE_MEMORY, None), p')
    /\ (m ∈ k_maps (p_k p')) /\ m_flags m = AMDGPU_VM_PAGE_PRT /\ m_addr m = 2 ^ SIM_BIT
    /\ (forall b bo, p_bos p' !! b = Some bo -> is_virtual bo = false)
    /\ forall h dev va n, k_ranges (p_k p') !! h = Some (dev, va, n) ->
         ~ va <= m_addr m < va + n /\ ~ va <= m_addr m - 2 ^ SIM_BIT < va + n.
Proof.
  assert (reachable failing_winsys.1 failing_winsys.2) as Hr.
  { apply run_reachable; [apply start_reachable|]. split; [apply winsys_allowed|done]. }
  split; [done|]. split; [exists run_ws; split; [by vm_compute|exact sparse_run_ok]|].
  destruct (run_op op_sparse failing_winsys.2) as [[r p']|] eqn:E; [|by vm_compute in E].
  exists p', (Mapping 1 (2 ^ SIM_BIT) 65536 0 0 AMDGPU_VM_PAGE_PRT). vm_compute in E. injection E as <- <-.
  split; [done|]. split; [refine (bool_decide_unpack _ _); by vm_compute|]. split; [done|]. split; [done|]. split.
  - intros b bo Hb. apply elem_of_map_to_list in Hb. vm_compute in Hb.
    apply list_elem_of_singleton in Hb. by injection Hb as -> ->.
  - intros h dev va n Hh. apply elem_of_map_to_list in Hh. vm_compute in Hh.
    apply list_elem_of_singleton in Hh. injection Hh as -> -> -> ->. split; vm_compute; naive_solver.
Qed.

(** * Witnesses *)

Lemma two_teardowns_never_return_witness :
  reachable run_parked.1 run_parked.2 /\ p_cache run_parked.2 = [run_entry] /\
  forall fuel, exists p', begin_destroy_both fuel 1 9 run_parked.2 = Some (false, p').
Proof.
  assert (p_cache run_parked.2 = [run_entry]) as Ec by by vm_compute.
  assert (run_entry ∈ p_cache run_parked.2) as Hin by (rewrite Ec; by left).
  split; [apply run_parked_reachable|]. split; [exact Ec|].
  exact (two_teardowns_never_return run_parked.1 run_parked.2 1 9 run_entry run_parked_reachable ltac:(done) Hin eq_refl).
Defined.

(** The whole buffer is bound, then its second and third page unbound. *)
Definition run_binds : list bind_req := [BindReq 0 65536 (Some 2) 0; BindReq 4096 8192 None 0].

Lemma sparse_bindings_refine_witness :
  exists bo nh p2, bind_all 1 3 run_binds run_sparse = Some (true, p2)
    /\ sparse (p_k p2) run_info bo nh (bound (zip run_binds [Some (2, 0); None]) (fun _ => None)).
Proof.
  destruct (sparse_bindings_refine run_buffer.1 run_buffer.2 1 run_ws 65536 4096 0 RUN_SPARSE_FLAGS 0 0 3 run_sparse
              run_buffer_reachable ltac:(by vm_compute) eq_refl sparse_run_ok run_sparse_eq) as (bo&nh&Hb&_&_&H).
  destruct (H run_binds [Some (2, 0); None]) as (ok&p2&E&_&Hs).
  { vm_compute in Hb. injection Hb as <-. constructor; [|constructor; [|constructor]]; (split; [by repeat split|]); [|done].
    exists run_bo. split; [by vm_compute|done]. }
  assert (fst <$> bind_all 1 3 run_binds run_sparse = Some true) as Ok by by vm_compute. rewrite E in Ok. injection Ok as ->.
  exists bo, nh, p2. split; [exact E|exact (Hs eq_refl)].
Defined.
