(* ===== verification/BoMetadata.v ===== *)
(** The tiling metadata of a buffer object: the bit fields of the tiling word
    (src/include/drm-uapi/amdgpu_drm.h), [radv_amdgpu_winsys_bo_set_metadata] and
    [radv_amdgpu_winsys_bo_get_metadata] (radv_amdgpu_bo.c), the libdrm layer they call
    (src/amd/common/ac_linux_drm.c, a device that is not virtio), and both ends of the channel in
    radv_image.c: [radv_image_bo_set_metadata] and [radv_patch_surface_from_metadata].

    The two ioctls of the kernel are the class [Gem]. *)

From stdpp Require Import gmap.
From S2P Require Import Prelude Pm4 BoModel.

(** * The fields of the tiling word *)

Record tiling_field := TilingField { tf_shift : Z; tf_mask : Z }.

Definition ARRAY_MODE : tiling_field := TilingField 0 0xf.
Definition PIPE_CONFIG : tiling_field := TilingField 4 0x1f.
Definition TILE_SPLIT : tiling_field := TilingField 9 0x7.
Definition MICRO_TILE_MODE : tiling_field := TilingField 12 0x7.
Definition BANK_WIDTH : tiling_field := TilingField 15 0x3.
Definition BANK_HEIGHT : tiling_field := TilingField 17 0x3.
Definition MACRO_TILE_ASPECT : tiling_field := TilingField 19 0x3.
Definition NUM_BANKS : tiling_field := TilingField 21 0x3.

Definition SWIZZLE_MODE : tiling_field := TilingField 0 0x1f.
Definition DCC_OFFSET_256B : tiling_field := TilingField 5 0xFFFFFF.
Definition DCC_PITCH_MAX : tiling_field := TilingField 29 0x3FFF.
Definition DCC_INDEPENDENT_64B : tiling_field := TilingField 43 0x1.
Definition DCC_INDEPENDENT_128B : tiling_field := TilingField 44 0x1.
(** Defined by radv_amdgpu_bo.c itself. *)
Definition DCC_MAX_COMPRESSED_BLOCK_SIZE : tiling_field := TilingField 45 0x3.
Definition SCANOUT : tiling_field := TilingField 63 0x1.

Definition GFX12_SWIZZLE_MODE : tiling_field := TilingField 0 0x7.
Definition GFX12_DCC_MAX_COMPRESSED_BLOCK : tiling_field := TilingField 3 0x3.
Definition GFX12_DCC_NUMBER_TYPE : tiling_field := TilingField 5 0x7.
Definition GFX12_DCC_DATA_FORMAT : tiling_field := TilingField 8 0x3f.
Definition GFX12_DCC_WRITE_COMPRESS_DISABLE : tiling_field := TilingField 14 0x1.
Definition GFX12_SCANOUT : tiling_field := TilingField 63 0x1.

Definition AMDGPU_TILING_SET (f : tiling_field) (value : Z) : Z :=
  u64 (Z.shiftl (Z.land (u64 value) (tf_mask f)) (tf_shift f)).
Definition AMDGPU_TILING_GET (value : Z) (f : tiling_field) : Z :=
  Z.land (Z.shiftr (u64 value) (tf_shift f)) (tf_mask f).

(** * Data *)

Inductive radeon_bo_layout :=
| RADEON_LAYOUT_LINEAR | RADEON_LAYOUT_TILED | RADEON_LAYOUT_SQUARETILED | RADEON_LAYOUT_UNKNOWN.

#[global] Instance radeon_bo_layout_eq_dec : EqDecision radeon_bo_layout.
Proof. solve_decision. Defined.

Record legacy_metadata := LegacyMetadata {
  l_microtile : radeon_bo_layout;
  l_macrotile : radeon_bo_layout;
  l_pipe_config : Z;
  l_bankw : Z;
  l_bankh : Z;
  l_tile_split : Z;
  l_mtilea : Z;
  l_num_banks : Z;
  l_stride : Z;
  l_scanout : bool
}.
Record gfx9_metadata := Gfx9Metadata {
  g9_swizzle_mode : Z;
  g9_scanout : bool;
  g9_dcc_offset_256b : Z;
  g9_dcc_pitch_max : Z;
  g9_dcc_independent_64b_blocks : bool;
  g9_dcc_independent_128b_blocks : bool;
  g9_dcc_max_compressed_block_size : Z
}.
Record gfx12_metadata := Gfx12Metadata {
  g12_swizzle_mode : Z;
  g12_dcc_max_compressed_block : Z;
  g12_dcc_data_format : Z;
  g12_dcc_number_type : Z;
  g12_dcc_write_compress_disable : bool;
  g12_scanout : bool
}.

(** [struct radeon_bo_metadata].  The member of the union in use is the one of the generation of the
    device, for the writer and the reader alike. *)
Inductive metadata_union :=
| MdLegacy (l : legacy_metadata) | MdGfx9 (g : gfx9_metadata) | MdGfx12 (g : gfx12_metadata).
Record radeon_bo_metadata := BoMetadata {
  md_u : metadata_union;
  md_size_metadata : Z;
  md_metadata : list Z
}.

(** [struct amdgpu_bo_metadata], and the same data of the GEM_METADATA ioctl. *)
Record amdgpu_bo_metadata := KernelMetadata {
  km_flags : Z;
  km_tiling_info : Z;
  km_size_metadata : Z;
  km_umd_metadata : list Z
}.

(** * The kernel *)

Class Gem (K : Type) := {
  gem_metadata_set : Z -> Z -> amdgpu_bo_metadata -> K -> K * Z;
  gem_metadata_get : Z -> Z -> K -> option amdgpu_bo_metadata;
  gem_create_info : Z -> Z -> K -> option amdgpu_bo_info
}.

(** * Encoding and decoding *)

Definition eg_tile_split (tile_split : Z) : Z :=
  if tile_split =? 0 then 64 else if tile_split =? 1 then 128 else if tile_split =? 2 then 256
  else if tile_split =? 3 then 512 else if tile_split =? 5 then 2048 else if tile_split =? 6 then 4096
  else 1024.

Definition radv_eg_tile_split_rev (eg_tile_split : Z) : Z :=
  if eg_tile_split =? 64 then 0 else if eg_tile_split =? 128 then 1 else if eg_tile_split =? 256 then 2
  else if eg_tile_split =? 512 then 3 else if eg_tile_split =? 2048 then 5
  else if eg_tile_split =? 4096 then 6 else 4.

Definition is_tiled (l : radeon_bo_layout) : bool := bool_decide (l = RADEON_LAYOUT_TILED).

(** The tiling word of the three branches of [set_metadata]. *)
Definition gfx12_tiling_flags (m : gfx12_metadata) : Z :=
  Z.lor (AMDGPU_TILING_SET GFX12_SWIZZLE_MODE (g12_swizzle_mode m))
 (Z.lor (AMDGPU_TILING_SET GFX12_DCC_MAX_COMPRESSED_BLOCK (g12_dcc_max_compressed_block m))
 (Z.lor (AMDGPU_TILING_SET GFX12_DCC_NUMBER_TYPE (g12_dcc_number_type m))
 (Z.lor (AMDGPU_TILING_SET GFX12_DCC_DATA_FORMAT (g12_dcc_data_format m))
 (Z.lor (AMDGPU_TILING_SET GFX12_DCC_WRITE_COMPRESS_DISABLE (Z.b2z (g12_dcc_write_compress_disable m)))
        (AMDGPU_TILING_SET GFX12_SCANOUT (Z.b2z (g12_scanout m))))))).

Definition gfx9_tiling_flags (m : gfx9_metadata) : Z :=
  Z.lor (AMDGPU_TILING_SET SWIZZLE_MODE (g9_swizzle_mode m))
 (Z.lor (AMDGPU_TILING_SET DCC_OFFSET_256B (g9_dcc_offset_256b m))
 (Z.lor (AMDGPU_TILING_SET DCC_PITCH_MAX (g9_dcc_pitch_max m))
 (Z.lor (AMDGPU_TILING_SET DCC_INDEPENDENT_64B (Z.b2z (g9_dcc_independent_64b_blocks m)))
 (Z.lor (AMDGPU_TILING_SET DCC_INDEPENDENT_128B (Z.b2z (g9_dcc_independent_128b_blocks m)))
 (Z.lor (AMDGPU_TILING_SET DCC_MAX_COMPRESSED_BLOCK_SIZE (g9_dcc_max_compressed_block_size m))
        (AMDGPU_TILING_SET SCANOUT (Z.b2z (g9_scanout m)))))))).

Definition legacy_array_mode (m : legacy_metadata) : Z :=
  if is_tiled (l_macrotile m) then 4 else if is_tiled (l_microtile m) then 2 else 1.

Definition legacy_tiling_flags (m : legacy_metadata) : Z :=
  Z.lor (AMDGPU_TILING_SET ARRAY_MODE (legacy_array_mode m))
 (Z.lor (AMDGPU_TILING_SET PIPE_CONFIG (l_pipe_config m))
 (Z.lor (AMDGPU_TILING_SET BANK_WIDTH (util_logbase2 (u32 (l_bankw m))))
 (Z.lor (AMDGPU_TILING_SET BANK_HEIGHT (util_logbase2 (u32 (l_bankh m))))
 (Z.lor (if l_tile_split m =? 0 then 0
         else AMDGPU_TILING_SET TILE_SPLIT (radv_eg_tile_split_rev (l_tile_split m)))
 (Z.lor (AMDGPU_TILING_SET MACRO_TILE_ASPECT (util_logbase2 (u32 (l_mtilea m))))
 (Z.lor (AMDGPU_TILING_SET NUM_BANKS (u32 (util_logbase2 (u32 (l_num_banks m)) - 1)))
        (AMDGPU_TILING_SET MICRO_TILE_MODE (if l_scanout m then 0 else 1)))))))).

(** [None]: the union holds the member of another generation. *)
Definition encode_metadata (g : amd_gfx_level) (u : metadata_union) : option Z :=
  match u with
  | MdGfx12 m => if gfx_ge g GFX12 then Some (gfx12_tiling_flags m) else None
  | MdGfx9 m => if gfx_ge g GFX9 && negb (gfx_ge g GFX12) then Some (gfx9_tiling_flags m) else None
  | MdLegacy m => if gfx_ge g GFX9 then None else Some (legacy_tiling_flags m)
  end.

(** The union after [get_metadata] has stored the fields of its branch in [u]; the GFX9 branch keeps
    the other members of [u], the legacy branch the stride. *)
Definition decode_metadata (g : amd_gfx_level) (tiling_flags : Z) (u : metadata_union) : option metadata_union :=
  let get := AMDGPU_TILING_GET tiling_flags in
  match u with
  | MdGfx12 _ =>
      if gfx_ge g GFX12 then
        Some (MdGfx12 (Gfx12Metadata (get GFX12_SWIZZLE_MODE) (get GFX12_DCC_MAX_COMPRESSED_BLOCK)
          (get GFX12_DCC_DATA_FORMAT) (get GFX12_DCC_NUMBER_TYPE)
          (negb (get GFX12_DCC_WRITE_COMPRESS_DISABLE =? 0)) (negb (get GFX12_SCANOUT =? 0))))
      else None
  | MdGfx9 m =>
      if gfx_ge g GFX9 && negb (gfx_ge g GFX12) then
        Some (MdGfx9 (Gfx9Metadata (get SWIZZLE_MODE) (negb (get SCANOUT =? 0)) (g9_dcc_offset_256b m)
          (g9_dcc_pitch_max m) (g9_dcc_independent_64b_blocks m) (g9_dcc_independent_128b_blocks m)
          (g9_dcc_max_compressed_block_size m)))
      else None
  | MdLegacy m =>
      if gfx_ge g GFX9 then None
      else
        let array_mode := get ARRAY_MODE in
        Some (MdLegacy (LegacyMetadata
          (if array_mode =? 4 then RADEON_LAYOUT_LINEAR
           else if array_mode =? 2 then RADEON_LAYOUT_TILED else RADEON_LAYOUT_LINEAR)
          (if array_mode =? 4 then RADEON_LAYOUT_TILED else RADEON_LAYOUT_LINEAR)
          (get PIPE_CONFIG) (Z.shiftl 1 (get BANK_WIDTH)) (Z.shiftl 1 (get BANK_HEIGHT))
          (eg_tile_split (get TILE_SPLIT)) (Z.shiftl 1 (get MACRO_TILE_ASPECT))
          (Z.shiftl 2 (get NUM_BANKS)) (l_stride m) (get MICRO_TILE_MODE =? 0)))
  end.

(** * libdrm *)

(** [memcpy] of the first [n] bytes of an array of little-endian words onto a zeroed one. *)
Definition copy_bytes (n : Z) (src : list Z) : list Z :=
  imap (fun i w => let left := n - 4 * Z.of_nat i in
                   if 4 <=? left then w else if 0 <? left then w mod 2 ^ (8 * left) else 0) src.

Section metadata.
Context {K : Type} `{!Gem K}.

(** 22 is [EINVAL]. *)
Definition ac_drm_bo_set_metadata (dev handle : Z) (info : amdgpu_bo_metadata) (k : K) : K * Z :=
  if 256 <? km_size_metadata info then (k, -22)
  else
    gem_metadata_set dev handle
      (KernelMetadata (km_flags info) (km_tiling_info info) (km_size_metadata info)
         (if km_size_metadata info =? 0 then replicate 64 0
          else copy_bytes (km_size_metadata info) (km_umd_metadata info))) k.

(** The metadata part of the result; [None] is an error. *)
Definition ac_drm_bo_query_info (dev handle : Z) (k : K) : option (amdgpu_bo_info * amdgpu_bo_metadata) :=
  if handle =? 0 then None
  else
    md ← gem_metadata_get dev handle k;
    if 256 <? km_size_metadata md then None
    else
      info ← gem_create_info dev handle k;
      Some (info, KernelMetadata (km_flags md) (km_tiling_info md) (km_size_metadata md)
                    (if 0 <? km_size_metadata md then copy_bytes (km_size_metadata md) (km_umd_metadata md)
                     else replicate 64 0)).

(** * The winsys *)

Definition radv_amdgpu_winsys_bo_set_metadata (w b : Z) (md : radeon_bo_metadata) : M K unit :=
  let! ws := get_ws w ;;
  let! bo := get_bo b ;;
  let! tiling_flags := deref (fun _ => encode_metadata (ws_gfx_level (ws_info ws)) (md_u md)) ;;
  let! _ := kcall (ac_drm_bo_set_metadata (ws_dev (ws_info ws)) (bo_handle bo)
                     (KernelMetadata 0 tiling_flags (md_size_metadata md) (md_metadata md))) ;;
  mret tt.

(** The result is [*md] afterwards. *)
Definition radv_amdgpu_winsys_bo_get_metadata (w b : Z) (md : radeon_bo_metadata) : M K radeon_bo_metadata :=
  let! ws := get_ws w ;;
  let! bo := get_bo b ;;
  let! info := gets (fun p => ac_drm_bo_query_info (ws_dev (ws_info ws)) (bo_handle bo) (p_k p)) ;;
  match info with
  | None => mret md
  | Some (_, km) =>
      let! u := deref (fun _ => decode_metadata (ws_gfx_level (ws_info ws)) (km_tiling_info km) (md_u md)) ;;
      mret (BoMetadata u (km_size_metadata km) (km_umd_metadata km))
  end.

End metadata.

(** * The image at both ends *)

Definition RADEON_SURF_SCANOUT : Z := Z.shiftl 1 16.
Definition RADEON_SURF_MODE_LINEAR_ALIGNED : Z := 1.
Definition RADEON_SURF_MODE_1D : Z := 2.
Definition RADEON_SURF_MODE_2D : Z := 3.
Definition SURF_MODE : tiling_field := TilingField 8 0xFF.

(** [RADEON_SURF_GET], [RADEON_SURF_SET] and [RADEON_SURF_CLR] (the mask and its shift are [int]s). *)
Definition RADEON_SURF_GET (v : Z) (f : tiling_field) : Z := Z.land (Z.shiftr v (tf_shift f)) (tf_mask f).
Definition RADEON_SURF_SET (v : Z) (f : tiling_field) : Z := Z.shiftl (Z.land v (tf_mask f)) (tf_shift f).
Definition RADEON_SURF_CLR (v : Z) (f : tiling_field) : Z := Z.land v (Z.lnot (Z.shiftl (tf_mask f) (tf_shift f))).

(** The members of [struct legacy_surf_layout] and [struct gfx9_surf_layout] the two functions use. *)
Record legacy_surf := LegacySurf {
  ls_pipe_config : Z;
  ls_bankw : Z;
  ls_bankh : Z;
  ls_tile_split : Z;
  ls_mtilea : Z;
  ls_num_banks : Z;
  ls_mode : Z;
  ls_nblk_x : Z
}.
Record gfx9_surf := Gfx9Surf {
  gs_swizzle_mode : Z;
  gs_dcc_number_type : Z;
  gs_dcc_data_format : Z;
  gs_dcc_write_compress_disable : bool;
  gs_independent_64B_blocks : bool;
  gs_independent_128B_blocks : bool;
  gs_max_compressed_block_size : Z;
  gs_display_dcc_pitch_max : Z
}.
Inductive surf_union := SurfLegacy (l : legacy_surf) | SurfGfx9 (g : gfx9_surf).

Record radeon_surf := Surf {
  surf_flags : Z;
  surf_bpe : Z;
  surf_meta_offset : Z;
  surf_display_dcc_offset : Z;
  surf_u : surf_union
}.

(** The union [radv_image_bo_set_metadata] fills in; a bit field takes the value modulo its width. *)
Definition image_metadata (g : amd_gfx_level) (s : radeon_surf) : option metadata_union :=
  let scanout := has (surf_flags s) RADEON_SURF_SCANOUT in
  match surf_u s with
  | SurfGfx9 l =>
      if gfx_ge g GFX12 then
        Some (MdGfx12 (Gfx12Metadata (gs_swizzle_mode l mod 2 ^ 3) (gs_max_compressed_block_size l mod 2 ^ 3)
          (gs_dcc_data_format l mod 2 ^ 6) (gs_dcc_number_type l mod 2 ^ 3) (gs_dcc_write_compress_disable l)
          scanout))
      else if gfx_ge g GFX9 then
        let dcc_offset := if surf_display_dcc_offset s =? 0 then surf_meta_offset s else surf_display_dcc_offset s in
        Some (MdGfx9 (Gfx9Metadata (gs_swizzle_mode l mod 2 ^ 5) scanout (u32 (Z.shiftr dcc_offset 8))
          (gs_display_dcc_pitch_max l) (gs_independent_64B_blocks l) (gs_independent_128B_blocks l)
          (gs_max_compressed_block_size l)))
      else None
  | SurfLegacy l =>
      if gfx_ge g GFX9 then None
      else
        Some (MdLegacy (LegacyMetadata
          (if RADEON_SURF_MODE_1D <=? ls_mode l then RADEON_LAYOUT_TILED else RADEON_LAYOUT_LINEAR)
          (if RADEON_SURF_MODE_2D <=? ls_mode l then RADEON_LAYOUT_TILED else RADEON_LAYOUT_LINEAR)
          (ls_pipe_config l) (ls_bankw l) (ls_bankh l) (ls_tile_split l) (ls_mtilea l) (ls_num_banks l)
          (u32 (ls_nblk_x l * surf_bpe s)) scanout))
  end.

(** [size_metadata] and [metadata] are what [ac_surface_compute_umd_metadata] makes of the texture
    descriptor; [s] is the surface of plane 0. *)
Definition radv_image_bo_set_metadata {K} `{!Gem K} (w b : Z) (s : radeon_surf) (size_metadata : Z)
    (metadata : list Z) : M K unit :=
  let! ws := get_ws w ;;
  let! u := deref (fun _ => image_metadata (ws_gfx_level (ws_info ws)) s) ;;
  radv_amdgpu_winsys_bo_set_metadata w b (BoMetadata u size_metadata metadata).

(** [radv_patch_surface_from_metadata]; [None]: the unions are of another generation. *)
Definition radv_patch_surface_from_metadata (g : amd_gfx_level) (s : radeon_surf) (md : radeon_bo_metadata)
  : option radeon_surf :=
  let flags := RADEON_SURF_CLR (surf_flags s) SURF_MODE in
  let with_mode m := Z.lor flags (RADEON_SURF_SET m SURF_MODE) in
  let patched flags u := Some (Surf flags (surf_bpe s) (surf_meta_offset s) (surf_display_dcc_offset s) u) in
  match md_u md, surf_u s with
  | MdGfx12 m, SurfGfx9 l =>
      if gfx_ge g GFX12 then
        patched flags
          (SurfGfx9 (Gfx9Surf (g12_swizzle_mode m) (g12_dcc_number_type m) (g12_dcc_data_format m)
            (g12_dcc_write_compress_disable m) (gs_independent_64B_blocks l) (gs_independent_128B_blocks l)
            (g12_dcc_max_compressed_block m mod 2 ^ 2) (gs_display_dcc_pitch_max l)))
      else None
  | MdGfx9 m, SurfGfx9 l =>
      if gfx_ge g GFX9 && negb (gfx_ge g GFX12) then
        patched (with_mode (if 0 <? g9_swizzle_mode m then RADEON_SURF_MODE_2D else RADEON_SURF_MODE_LINEAR_ALIGNED))
          (SurfGfx9 (Gfx9Surf (g9_swizzle_mode m) (gs_dcc_number_type l) (gs_dcc_data_format l)
            (gs_dcc_write_compress_disable l) (gs_independent_64B_blocks l) (gs_independent_128B_blocks l)
            (gs_max_compressed_block_size l) (gs_display_dcc_pitch_max l)))
      else None
  | MdLegacy m, SurfLegacy l =>
      if gfx_ge g GFX9 then None
      else
        patched (with_mode (if is_tiled (l_macrotile m) then RADEON_SURF_MODE_2D
                            else if is_tiled (l_microtile m) then RADEON_SURF_MODE_1D
                            else RADEON_SURF_MODE_LINEAR_ALIGNED))
          (SurfLegacy (LegacySurf (l_pipe_config m mod 2 ^ 5) (l_bankw m mod 2 ^ 4) (l_bankh m mod 2 ^ 4)
            (l_tile_split m mod 2 ^ 13) (l_mtilea m mod 2 ^ 4) (l_num_banks m mod 2 ^ 5) (ls_mode l) (ls_nblk_x l)))
  | _, _ => None
  end.
