(* ===== verification/BoMetadataMain.v ===== *)
(** What one process writes into the metadata of a shared buffer object, another reads back: the fields
    of the tiling word do not overlap, each encoded value is decoded to itself, and the surface an
    importer patches has the tiling of the surface that was exported. *)

From stdpp Require Import gmap.
From S2P Require Import Prelude Pm4 BoModel BoLogic BoMetadata.

(** * Bit fields *)

Definition tf_width (f : tiling_field) : Z := Z.log2 (tf_mask f) + 1.

(** A field of the 64-bit word. *)
Definition field_ok (f : tiling_field) : bool :=
  (tf_mask f =? Z.ones (tf_width f)) && (0 <? tf_mask f) && (0 <=? tf_shift f) && (tf_shift f + tf_width f <=? 64).
Definition fields_apart (f g : tiling_field) : bool :=
  (tf_shift f + tf_width f <=? tf_shift g) || (tf_shift g + tf_width g <=? tf_shift f).

Lemma field_ok_spec f :
  field_ok f = true ->
  tf_mask f = Z.ones (tf_width f) /\ 0 < tf_width f /\ 0 <= tf_shift f /\ tf_shift f + tf_width f <= 64.
Proof.
  unfold field_ok. rewrite !andb_true_iff, Z.eqb_eq, Z.ltb_lt, !Z.leb_le. intros (((Hm&H0)&Hs)&Hw).
  split; [done|]. split; [|done]. pose proof (Z.log2_nonneg (tf_mask f)). unfold tf_width. lia.
Qed.

Lemma u64_testbit x i : 0 <= i -> Z.testbit (u64 x) i = (i <? 64) && Z.testbit x i.
Proof.
  intros Hi. unfold u64. change W64 with (2 ^ 64). destruct (Z.ltb_spec i 64).
  - by rewrite Z.mod_pow2_bits_low.
  - by rewrite Z.mod_pow2_bits_high.
Qed.

Lemma tiling_set_testbit f v i :
  field_ok f = true -> 0 <= i ->
  Z.testbit (AMDGPU_TILING_SET f v) i =
  (tf_shift f <=? i) && (i <? tf_shift f + tf_width f) && Z.testbit v (i - tf_shift f).
Proof.
  intros (Hm&Hw&Hs&H64)%field_ok_spec Hi. unfold AMDGPU_TILING_SET.
  rewrite u64_testbit, Z.shiftl_spec by done. destruct (Z.leb_spec (tf_shift f) i); simpl.
  - rewrite Z.land_spec, Hm, Z.testbit_ones, u64_testbit by lia.
    destruct (Z.leb_spec 0 (i - tf_shift f)), (Z.ltb_spec (i - tf_shift f) (tf_width f)),
      (Z.ltb_spec i 64), (Z.ltb_spec i (tf_shift f + tf_width f)), (Z.ltb_spec (i - tf_shift f) 64);
      try lia; simpl; by rewrite ?andb_true_r, ?andb_false_r.
  - rewrite Z.testbit_neg_r by lia. apply andb_false_r.
Qed.

Lemma tiling_get_testbit x f i :
  field_ok f = true -> 0 <= i ->
  Z.testbit (AMDGPU_TILING_GET x f) i = (i <? tf_width f) && Z.testbit x (i + tf_shift f).
Proof.
  intros (Hm&Hw&Hs&H64)%field_ok_spec Hi. unfold AMDGPU_TILING_GET.
  rewrite Z.land_spec, Z.shiftr_spec, u64_testbit, Hm, Z.testbit_ones by lia.
  destruct (Z.ltb_spec i (tf_width f)), (Z.leb_spec 0 i), (Z.ltb_spec (i + tf_shift f) 64); try lia; simpl;
    by rewrite ?andb_true_r, ?andb_false_r.
Qed.

Lemma tiling_get_set f v :
  field_ok f = true -> AMDGPU_TILING_GET (AMDGPU_TILING_SET f v) f = v mod 2 ^ tf_width f.
Proof.
  intros Hf. pose proof (field_ok_spec f Hf) as (_&Hw&Hs&_). apply Z.bits_inj'. intros i Hi.
  rewrite tiling_get_testbit, tiling_set_testbit by (done || lia). replace (i + tf_shift f - tf_shift f) with i by lia.
  destruct (Z.ltb_spec i (tf_width f)); simpl.
  - rewrite Z.mod_pow2_bits_low by lia.
    by rewrite (proj2 (Z.leb_le (tf_shift f) (i + tf_shift f))), (proj2 (Z.ltb_lt (i + tf_shift f) _)) by lia.
  - by rewrite Z.mod_pow2_bits_high by lia.
Qed.

Lemma tiling_get_other f g v :
  field_ok f = true -> field_ok g = true -> fields_apart f g = true -> AMDGPU_TILING_GET (AMDGPU_TILING_SET f v) g = 0.
Proof.
  intros Hf Hg. unfold fields_apart. rewrite orb_true_iff, !Z.leb_le. intros Ha. apply Z.bits_inj'. intros i Hi.
  pose proof (field_ok_spec g Hg) as (_&_&Hs&_).
  rewrite tiling_get_testbit, tiling_set_testbit, Z.bits_0 by (done || lia).
  destruct (Z.ltb_spec i (tf_width g)), (Z.leb_spec (tf_shift f) (i + tf_shift g)),
    (Z.ltb_spec (i + tf_shift g) (tf_shift f + tf_width f)); simpl; done || lia.
Qed.

Lemma tiling_get_lor x y f :
  field_ok f = true -> AMDGPU_TILING_GET (Z.lor x y) f = Z.lor (AMDGPU_TILING_GET x f) (AMDGPU_TILING_GET y f).
Proof.
  intros Hf. pose proof (field_ok_spec f Hf) as (_&_&Hs&_). apply Z.bits_inj'. intros i Hi.
  rewrite Z.lor_spec, !tiling_get_testbit, Z.lor_spec by (done || lia). apply andb_orb_distrib_r.
Qed.

Lemma tiling_get_zero f : AMDGPU_TILING_GET 0 f = 0.
Proof. unfold AMDGPU_TILING_GET. by rewrite (u64_small 0), Z.shiftr_0_l, Z.land_0_l by done. Qed.

(** Read one field of a word that is a union of distinct fields. *)
Ltac tiling_field_get :=
  rewrite ?tiling_get_lor by reflexivity;
  repeat first
    [ rewrite tiling_get_zero | rewrite tiling_get_set by reflexivity
    | rewrite tiling_get_other by reflexivity ];
  rewrite ?Z.lor_0_l, ?Z.lor_0_r;
  repeat match goal with
         | |- context [2 ^ tf_width ?f] => let n := eval vm_compute in (2 ^ tf_width f) in change (2 ^ tf_width f) with n
         end.

(** * The three encodings *)

Lemma flag_read b n : 1 < n -> negb (Z.b2z b mod n =? 0) = b.
Proof. intros. rewrite Z.mod_small by (destruct b; simpl; lia). by destruct b. Qed.

Lemma decode_gfx12 g m m0 :
  gfx_ge g GFX12 = true ->
  decode_metadata g (gfx12_tiling_flags m) (MdGfx12 m0) =
  Some (MdGfx12 (Gfx12Metadata (g12_swizzle_mode m mod 8) (g12_dcc_max_compressed_block m mod 4)
    (g12_dcc_data_format m mod 64) (g12_dcc_number_type m mod 8) (g12_dcc_write_compress_disable m) (g12_scanout m))).
Proof.
  intros Hg. unfold decode_metadata, gfx12_tiling_flags. rewrite Hg. do 3 f_equal;
    tiling_field_get; by rewrite ?flag_read.
Qed.

Lemma decode_gfx9 g m m0 :
  gfx_ge g GFX9 = true -> gfx_ge g GFX12 = false ->
  decode_metadata g (gfx9_tiling_flags m) (MdGfx9 m0) =
  Some (MdGfx9 (Gfx9Metadata (g9_swizzle_mode m mod 32) (g9_scanout m) (g9_dcc_offset_256b m0) (g9_dcc_pitch_max m0)
    (g9_dcc_independent_64b_blocks m0) (g9_dcc_independent_128b_blocks m0) (g9_dcc_max_compressed_block_size m0))).
Proof.
  intros Hg Hg'. unfold decode_metadata, gfx9_tiling_flags. rewrite Hg, Hg'. cbn [negb andb]. do 3 f_equal;
    tiling_field_get; by rewrite ?flag_read.
Qed.

(** The values that the fields of a macro-tiled surface can hold. *)
Definition tile_values (bankw bankh tile_split mtilea num_banks : Z) : Prop :=
  In bankw [1; 2; 4; 8] /\ In bankh [1; 2; 4; 8] /\ In mtilea [1; 2; 4; 8] /\ In num_banks [2; 4; 8; 16]
  /\ In tile_split [64; 128; 256; 512; 1024; 2048; 4096].

Definition legacy_tiling_decoded (m : legacy_metadata) (u : metadata_union) : Prop :=
  exists m', u = MdLegacy m' /\ l_macrotile m' = (if is_tiled (l_macrotile m) then RADEON_LAYOUT_TILED else RADEON_LAYOUT_LINEAR)
  /\ l_microtile m' = (if negb (is_tiled (l_macrotile m)) && is_tiled (l_microtile m) then RADEON_LAYOUT_TILED
                       else RADEON_LAYOUT_LINEAR)
  /\ l_pipe_config m' = l_pipe_config m mod 32 /\ l_scanout m' = l_scanout m
  /\ (tile_values (l_bankw m) (l_bankh m) (l_tile_split m) (l_mtilea m) (l_num_banks m) ->
      l_bankw m' = l_bankw m /\ l_bankh m' = l_bankh m /\ l_tile_split m' = l_tile_split m
      /\ l_mtilea m' = l_mtilea m /\ l_num_banks m' = l_num_banks m).

Lemma logbase2_read n : In n [1; 2; 4; 8] -> Z.shiftl 1 (util_logbase2 (u32 n) mod 4) = n.
Proof. intros H. repeat destruct H as [<-|H]; done. Qed.

Lemma num_banks_read n : In n [2; 4; 8; 16] -> Z.shiftl 2 (u32 (util_logbase2 (u32 n) - 1) mod 4) = n.
Proof. intros H. repeat destruct H as [<-|H]; done. Qed.

Lemma tile_split_read n :
  In n [64; 128; 256; 512; 1024; 2048; 4096] ->
  (n =? 0) = false /\ eg_tile_split (radv_eg_tile_split_rev n mod 8) = n.
Proof. intros H. repeat destruct H as [<-|H]; done. Qed.

Lemma array_mode_read m :
  AMDGPU_TILING_GET (legacy_tiling_flags m) ARRAY_MODE = legacy_array_mode m.
Proof.
  unfold legacy_tiling_flags. destruct (l_tile_split m =? 0); tiling_field_get; unfold legacy_array_mode;
    by destruct (is_tiled (l_macrotile m)), (is_tiled (l_microtile m)).
Qed.

Lemma decode_legacy g m m0 :
  gfx_ge g GFX9 = false ->
  exists u, decode_metadata g (legacy_tiling_flags m) (MdLegacy m0) = Some u /\ legacy_tiling_decoded m u.
Proof.
  intros Hg. unfold decode_metadata. rewrite Hg, array_mode_read. eexists. split; [done|]. eexists. split; [done|].
  cbn [l_macrotile l_microtile l_pipe_config l_scanout l_bankw l_bankh l_tile_split l_mtilea l_num_banks].
  split; [unfold legacy_array_mode; by destruct (is_tiled (l_macrotile m)), (is_tiled (l_microtile m))|].
  split; [unfold legacy_array_mode; by destruct (is_tiled (l_macrotile m)), (is_tiled (l_microtile m))|].
  split; [unfold legacy_tiling_flags; destruct (l_tile_split m =? 0); by tiling_field_get|].
  split; [unfold legacy_tiling_flags; destruct (l_tile_split m =? 0); tiling_field_get; by destruct (l_scanout m)|].
  intros (Hw&Hh&Ha&Hn&Hs). unfold legacy_tiling_flags. apply tile_split_read in Hs as [-> Hs].
  tiling_field_get.
  by rewrite !logbase2_read, num_banks_read, Hs.
Qed.

(** * The bytes beside the tiling word *)

Lemma copy_bytes_twice n l : copy_bytes n (copy_bytes n l) = copy_bytes n l.
Proof.
  apply list_eq. intros i. unfold copy_bytes. rewrite !list_lookup_imap. destruct (l !! i) as [x|]; [|done]. simpl. f_equal.
  set (left := n - 4 * Z.of_nat i). destruct (4 <=? left); [done|]. destruct (Z.ltb_spec 0 left); [|done].
  apply Zmod_mod.
Qed.

Lemma copy_bytes_none l : copy_bytes 0 l = replicate (length l) 0.
Proof.
  apply list_eq. intros i. unfold copy_bytes. rewrite list_lookup_imap. destruct (l !! i) as [x|] eqn:E; simpl.
  - apply lookup_lt_Some in E. rewrite lookup_replicate_2 by done.
    rewrite (proj2 (Z.leb_gt _ _)), (proj2 (Z.ltb_ge _ _)) by lia. done.
  - symmetry. apply lookup_replicate_None. by apply lookup_ge_None in E.
Qed.

(** * The kernel *)

(** The object a handle of a device names. *)
Class GemView (K : Type) := { gem_object : Z -> Z -> K -> option Z }.

(** The kernel stores the metadata with the object: what was stored last is what every handle of the
    object reads, and storing metadata does not change what the handles name. *)
Class GemLaws (K : Type) `{!Gem K} `{!GemView K} : Prop := {
  law_metadata : forall dev h md (k k' : K) dev' h' o,
    gem_metadata_set dev h md k = (k', 0) -> gem_object dev h k = Some o -> gem_object dev' h' k = Some o ->
    gem_metadata_get dev' h' k' = Some md /\ is_Some (gem_create_info dev' h' k')
}.

Lemma wp_exact {K A} (m : M K A) a (p p' : proc K) : wp m (fun a' q => a' = a /\ q = p') p -> m p = Some (a, p').
Proof. intros (?&?&E&->&->)%wp_run. done. Qed.

(** * From surface to surface *)

(** The generation uses this member of the union. *)
Definition of_generation (g : amd_gfx_level) (s : radeon_surf) : bool :=
  match surf_u s with SurfLegacy _ => negb (gfx_ge g GFX9) | SurfGfx9 _ => gfx_ge g GFX9 end.
Definition md_of_generation (g : amd_gfx_level) (u : metadata_union) : bool :=
  match u with
  | MdLegacy _ => negb (gfx_ge g GFX9)
  | MdGfx9 _ => gfx_ge g GFX9 && negb (gfx_ge g GFX12)
  | MdGfx12 _ => gfx_ge g GFX12
  end.

(** The values that addrlib computes for a surface of the generation. *)
Definition surf_values (g : amd_gfx_level) (s : radeon_surf) : Prop :=
  match surf_u s with
  | SurfLegacy l =>
      1 <= ls_mode l <= 3 /\ 0 <= ls_pipe_config l < 32
      /\ (ls_mode l = RADEON_SURF_MODE_2D ->
          tile_values (ls_bankw l) (ls_bankh l) (ls_tile_split l) (ls_mtilea l) (ls_num_banks l))
  | SurfGfx9 l =>
      0 <= gs_swizzle_mode l < (if gfx_ge g GFX12 then 8 else 32) /\ 0 <= gs_max_compressed_block_size l < 4
      /\ 0 <= gs_dcc_number_type l < 8 /\ 0 <= gs_dcc_data_format l < 64
  end.

(** The tiling the importer [s'] needs to read the pixels that the exporter [s] writes: on GFX12 with
    the parameters of the compression, before it the swizzle mode, before GFX9 the mode of the base level
    and, for a macro-tiled one, the shape of the tiles. *)
Definition same_tiling (g : amd_gfx_level) (s s' : radeon_surf) : Prop :=
  match surf_u s, surf_u s' with
  | SurfGfx9 l, SurfGfx9 l' =>
      gs_swizzle_mode l' = gs_swizzle_mode l
      /\ (if gfx_ge g GFX12 then
            gs_max_compressed_block_size l' = gs_max_compressed_block_size l
            /\ gs_dcc_number_type l' = gs_dcc_number_type l /\ gs_dcc_data_format l' = gs_dcc_data_format l
            /\ gs_dcc_write_compress_disable l' = gs_dcc_write_compress_disable l
          else
            RADEON_SURF_GET (surf_flags s') SURF_MODE =
            (if gs_swizzle_mode l =? 0 then RADEON_SURF_MODE_LINEAR_ALIGNED else RADEON_SURF_MODE_2D))
  | SurfLegacy l, SurfLegacy l' =>
      RADEON_SURF_GET (surf_flags s') SURF_MODE = ls_mode l /\ ls_pipe_config l' = ls_pipe_config l
      /\ (ls_mode l = RADEON_SURF_MODE_2D ->
          ls_bankw l' = ls_bankw l /\ ls_bankh l' = ls_bankh l /\ ls_tile_split l' = ls_tile_split l
          /\ ls_mtilea l' = ls_mtilea l /\ ls_num_banks l' = ls_num_banks l)
  | _, _ => False
  end.

Lemma surf_mode_replaced f m :
  0 <= m < 256 -> RADEON_SURF_GET (Z.lor (RADEON_SURF_CLR f SURF_MODE) (RADEON_SURF_SET m SURF_MODE)) SURF_MODE = m.
Proof.
  intros Hm. unfold RADEON_SURF_GET, RADEON_SURF_CLR, RADEON_SURF_SET. cbn [tf_shift tf_mask SURF_MODE].
  change 0xFF with (Z.ones 8). apply Z.bits_inj'. intros i Hi.
  rewrite Z.land_spec, Z.shiftr_spec, Z.lor_spec, Z.land_spec, Z.lnot_spec, !Z.shiftl_spec, Z.land_spec by lia.
  replace (i + 8 - 8) with i by lia. rewrite !Z.testbit_ones by lia.
  rewrite (proj2 (Z.leb_le 0 i)) by lia. destruct (Z.ltb_spec i 8); simpl; rewrite ?andb_false_r, ?andb_true_r; [done|].
  symmetry. destruct (decide (m = 0)) as [->|]; [apply Z.bits_0|]. apply Z.bits_above_log2; [lia|].
  apply (Z.lt_le_trans _ 8); [|done]. apply Z.log2_lt_pow2; lia.
Qed.

(** Bit fields that hold their values, from the inside. *)
Ltac small_fields :=
  repeat match goal with
         | |- context [?x mod ?n] => lazymatch x with context [_ mod _] => fail | _ => rewrite (Z.mod_small x n) by lia end
         end.

Lemma listed_small x n l : In x l -> forallb (fun y => (0 <=? y) && (y <? n)) l = true -> x mod n = x.
Proof.
  intros Hx Hl. rewrite forallb_forall in Hl. apply Hl, andb_true_iff in Hx as [?%Z.leb_le ?%Z.ltb_lt].
  by apply Z.mod_small.
Qed.

(** What the steps from the exported surface to the patched one do together. *)
Definition surface_carried (g : amd_gfx_level) (s : radeon_surf) (u0 : metadata_union) (s0 : radeon_surf) : Prop :=
  exists u f u', image_metadata g s = Some u /\ encode_metadata g u = Some f /\ decode_metadata g f u0 = Some u'
    /\ forall n l, exists s', radv_patch_surface_from_metadata g s0 (BoMetadata u' n l) = Some s' /\ same_tiling g s s'.

Lemma gfx12_carried g s l u0 s0 l0 :
  surf_u s = SurfGfx9 l -> surf_u s0 = SurfGfx9 l0 -> gfx_ge g GFX9 = true -> gfx_ge g GFX12 = true ->
  md_of_generation g u0 = true -> surf_values g s -> surface_carried g s u0 s0.
Proof.
  intros Hs Hs0 H9 H12 Hu. unfold surf_values, md_of_generation, surface_carried, image_metadata in *.
  rewrite Hs, H12. intros (H1&H2&H3&H4). destruct u0 as [m|m|m]; [by rewrite H9 in Hu|by rewrite H9, H12 in Hu|].
  do 3 eexists. split; [done|]. unfold encode_metadata. rewrite H12. split; [done|]. split; [by apply decode_gfx12|].
  intros n ws. unfold radv_patch_surface_from_metadata. cbn [md_u]. rewrite Hs0, H12. eexists. split; [done|].
  unfold same_tiling. rewrite Hs, H12. cbn. small_fields. done.
Qed.

Lemma gfx9_carried g s l u0 s0 l0 :
  surf_u s = SurfGfx9 l -> surf_u s0 = SurfGfx9 l0 -> gfx_ge g GFX9 = true -> gfx_ge g GFX12 = false ->
  md_of_generation g u0 = true -> surf_values g s -> surface_carried g s u0 s0.
Proof.
  intros Hs Hs0 H9 H12 Hu. unfold surf_values, md_of_generation, surface_carried, image_metadata in *.
  rewrite Hs, H9, H12. intros (H1&H2&H3&H4). destruct u0 as [m|m|m]; [by rewrite H9 in Hu| |by rewrite H12 in Hu].
  do 3 eexists. split; [done|]. unfold encode_metadata. rewrite H9, H12. split; [done|]. split; [by apply decode_gfx9|].
  intros n ws. unfold radv_patch_surface_from_metadata. cbn [md_u]. rewrite Hs0, H9, H12. eexists. split; [done|].
  unfold same_tiling. rewrite Hs, H12. cbn [surf_u gs_swizzle_mode g9_swizzle_mode surf_flags].
  small_fields. split; [done|]. rewrite surf_mode_replaced.
  - destruct (Z.ltb_spec 0 (gs_swizzle_mode l)), (Z.eqb_spec (gs_swizzle_mode l) 0); done || lia.
  - by destruct (0 <? _).
Qed.

Lemma legacy_carried g s l u0 s0 l0 :
  surf_u s = SurfLegacy l -> surf_u s0 = SurfLegacy l0 -> gfx_ge g GFX9 = false ->
  md_of_generation g u0 = true -> surf_values g s -> surface_carried g s u0 s0.
Proof.
  intros Hs Hs0 H9 Hu. unfold surf_values, md_of_generation, surface_carried, image_metadata in *.
  rewrite Hs, H9. intros (H1&H2&H3). destruct u0 as [m0|m|m]; [|by rewrite H9 in Hu|].
  2: { by destruct g. }
  eexists. destruct (decode_legacy g (LegacyMetadata
    (if RADEON_SURF_MODE_1D <=? ls_mode l then RADEON_LAYOUT_TILED else RADEON_LAYOUT_LINEAR)
    (if RADEON_SURF_MODE_2D <=? ls_mode l then RADEON_LAYOUT_TILED else RADEON_LAYOUT_LINEAR)
    (ls_pipe_config l) (ls_bankw l) (ls_bankh l) (ls_tile_split l) (ls_mtilea l) (ls_num_banks l)
    (u32 (ls_nblk_x l * surf_bpe s)) (has (surf_flags s) RADEON_SURF_SCANOUT)) m0 H9) as (u&Hd&m&->&Ha&Hi&Hp&_&Hv).
  eexists _, _. split; [done|]. unfold encode_metadata. rewrite H9. split; [done|]. split; [exact Hd|].
  intros n ws. unfold radv_patch_surface_from_metadata. cbn [md_u]. rewrite Hs0, H9. eexists. split; [done|].
  unfold same_tiling. rewrite Hs.
  cbn [surf_u surf_flags l_macrotile l_microtile l_pipe_config l_bankw l_bankh l_tile_split l_mtilea l_num_banks
       ls_pipe_config ls_bankw ls_bankh ls_tile_split ls_mtilea ls_num_banks] in *.
  rewrite Ha, Hi, Hp. split_and!.
  - assert (ls_mode l = 1 \/ ls_mode l = 2 \/ ls_mode l = 3) as [->|[->| ->]] by lia; by apply surf_mode_replaced.
  - by small_fields.
  - intros Hm. specialize (H3 Hm). destruct (Hv H3) as (->&->&->&->&->). destruct H3 as (I1&I2&I3&I4&I5).
    split_and!; (eapply listed_small; [done|reflexivity]).
Qed.

(** The decoded union, patched into a surface, is the tiling that was encoded. *)
Lemma surface_round_trip g s u0 s0 :
  of_generation g s = true -> of_generation g s0 = true -> md_of_generation g u0 = true -> surf_values g s ->
  surface_carried g s u0 s0.
Proof.
  unfold of_generation. intros Hs Hs0 Hu Hv. destruct (surf_u s) as [l|l] eqn:E, (surf_u s0) as [l0|l0] eqn:E0.
  - eapply legacy_carried; try done. by apply negb_true_iff.
  - by rewrite Hs0 in Hs.
  - by rewrite Hs in Hs0.
  - destruct (gfx_ge g GFX12) eqn:H12; [by eapply gfx12_carried|by eapply gfx9_carried].
Qed.

Lemma image_encoded g s :
  of_generation g s = true -> exists u f, image_metadata g s = Some u /\ encode_metadata g u = Some f.
Proof.
  unfold of_generation, image_metadata. destruct (surf_u s) as [l|l]; intros Hg.
  - apply negb_true_iff in Hg. rewrite Hg. eexists _, _. split; [done|]. simpl. by rewrite Hg.
  - rewrite Hg. destruct (gfx_ge g GFX12) eqn:H12; eexists _, _; (split; [done|]); simpl; by rewrite ?Hg, H12.
Qed.

(** * Through the kernel *)

Section shared.
Context {K : Type} `{!Gem K} `{!GemView K} `{!GemLaws K}.
Implicit Types (k : K) (p : proc K).
#[local] Set Default Proof Using "All".

Lemma query_after_set dev h info k k' dev' h' o :
  ac_drm_bo_set_metadata dev h info k = (k', 0) -> 0 <= km_size_metadata info -> length (km_umd_metadata info) = 64%nat ->
  gem_object dev h k = Some o -> gem_object dev' h' k = Some o -> h' <> 0 ->
  exists i, ac_drm_bo_query_info dev' h' k' =
    Some (i, KernelMetadata (km_flags info) (km_tiling_info info) (km_size_metadata info)
               (copy_bytes (km_size_metadata info) (km_umd_metadata info))).
Proof.
  unfold ac_drm_bo_set_metadata, ac_drm_bo_query_info. destruct (Z.ltb_spec 256 (km_size_metadata info)) as [|Hn]; [done|].
  intros Hset H0 Hl Ho Ho' Hh. destruct (law_metadata _ _ _ _ _ _ _ _ Hset Ho Ho') as [-> [i ->]].
  rewrite (proj2 (Z.eqb_neq h' 0) Hh). cbn [km_size_metadata km_flags km_tiling_info km_umd_metadata mbind option_bind].
  rewrite (proj2 (Z.ltb_ge 256 _) Hn). exists i. do 3 f_equal.
  destruct (Z.eqb_spec (km_size_metadata info) 0) as [->|].
  - cbn [Z.ltb Z.compare]. by rewrite copy_bytes_none, Hl.
  - rewrite (proj2 (Z.ltb_lt 0 _)) by lia. apply copy_bytes_twice.
Qed.

(** C11: a surface that one process exports through the metadata of a buffer object is the surface
    another process, or another device, imports: whatever the writer stores, a reader that has a handle
    of the same object decodes, and the surface it patches has the same swizzle mode (on GFX12 with the
    parameters of the compression; before GFX9 the same array mode and, if macro-tiled, the same tile
    shape), together with the first [size] bytes of the opaque metadata. *)
Theorem image_tiling_shared g s size words w b ws bo o p :
  p_winsys p !! w = Some ws -> p_bos p !! b = Some bo -> ws_gfx_level (ws_info ws) = g ->
  gem_object (ws_dev (ws_info ws)) (bo_handle bo) (p_k p) = Some o ->
  (forall md, (gem_metadata_set (ws_dev (ws_info ws)) (bo_handle bo) md (p_k p)).2 = 0) ->
  of_generation g s = true -> surf_values g s -> 0 <= size <= 256 -> length words = 64%nat ->
  exists p1, radv_image_bo_set_metadata w b s size words p = Some (tt, p1) /\
    forall p' w' b' ws' bo' md s0,
      p_k p' = p_k p1 -> p_winsys p' !! w' = Some ws' -> p_bos p' !! b' = Some bo' ->
      ws_gfx_level (ws_info ws') = g -> bo_handle bo' <> 0 ->
      gem_object (ws_dev (ws_info ws')) (bo_handle bo') (p_k p) = Some o ->
      md_of_generation g (md_u md) = true -> of_generation g s0 = true ->
      exists md' s', radv_amdgpu_winsys_bo_get_metadata w' b' md p' = Some (md', p')
        /\ md_size_metadata md' = size /\ md_metadata md' = copy_bytes size words
        /\ radv_patch_surface_from_metadata g s0 md' = Some s' /\ same_tiling g s s'.
Proof.
  intros Hw Hb Hg Ho Hset Hs Hv Hsize Hl. destruct (image_encoded g s Hs) as (u&f&Hu&Hf).
  destruct (ac_drm_bo_set_metadata (ws_dev (ws_info ws)) (bo_handle bo) (KernelMetadata 0 f size words) (p_k p))
    as [k1 r] eqn:Ek.
  assert (r = 0) as ->.
  { revert Ek. unfold ac_drm_bo_set_metadata. cbn [km_size_metadata]. rewrite (proj2 (Z.ltb_ge 256 size)) by lia.
    intros Ek. match type of Ek with gem_metadata_set _ _ ?md _ = _ => pose proof (Hset md) as H0 end.
    by rewrite Ek in H0. }
  exists (set_k k1 p). split.
  { apply (wp_exact _ _ _ _). unfold radv_image_bo_set_metadata, radv_amdgpu_winsys_bo_set_metadata.
    apply wp_bind, (wp_get_ws _ ws); [done|]. apply wp_bind, (wp_deref _ _ _ u); [by rewrite Hg|].
    apply wp_bind, (wp_get_ws _ ws); [done|]. apply wp_bind, (wp_get_bo _ bo); [done|].
    apply wp_bind, (wp_deref _ _ _ f); [by rewrite Hg|]. apply wp_bind, wp_kcall. intros k r.
    cbn [md_size_metadata md_metadata]. rewrite Ek. by intros [= <- <-]. }
  intros p' w' b' ws' bo' md s0 Hk Hw' Hb' Hg' Hh Ho' Hmd Hs0.
  destruct (surface_round_trip g s (md_u md) s0 Hs Hs0 Hmd Hv) as (u1&f1&u'&Hu1&Hf1&Hd&Hpatch).
  rewrite Hu in Hu1. injection Hu1 as <-. rewrite Hf in Hf1. injection Hf1 as <-.
  edestruct query_after_set as [i Hq]; [exact Ek|simpl; lia|done|exact Ho|exact Ho'|done|].
  destruct (Hpatch size (copy_bytes size words)) as (s'&Hs'&Hsame). exists (BoMetadata u' size (copy_bytes size words)), s'.
  split; [|done]. apply (wp_exact _ _ _ _). unfold radv_amdgpu_winsys_bo_get_metadata.
  apply wp_bind, (wp_get_ws _ ws'); [done|]. apply wp_bind, (wp_get_bo _ bo'); [done|]. apply wp_bind, wp_gets.
  rewrite Hk. cbn [p_k set_k]. rewrite Hq. apply wp_bind, (wp_deref _ _ _ u'); [by rewrite Hg'|]. by apply wp_ret.
Qed.

End shared.

(** * A run *)

(** Objects with the handles that name them. *)
Record gem_sim := GemSim { gs_names : gmap (Z * Z) Z; gs_store : gmap Z amdgpu_bo_metadata }.

#[global] Instance gem_sim_gem : Gem gem_sim := {
  gem_metadata_set dev h md k :=
    match gs_names k !! (dev, h) with
    | Some o => (GemSim (gs_names k) (<[o := md]> (gs_store k)), 0)
    | None => (k, -2)
    end;
  gem_metadata_get dev h k := o ← gs_names k !! (dev, h); gs_store k !! o;
  gem_create_info dev h k := _ ← gs_names k !! (dev, h); Some (BoInfo 4 0 65536)
}.

#[global] Instance gem_sim_view : GemView gem_sim := { gem_object dev h k := gs_names k !! (dev, h) }.

#[global] Instance gem_sim_laws : GemLaws gem_sim.
Proof.
  split. simpl. intros dev h md k k' dev' h' o Hset Ho Ho'. rewrite Ho in Hset. injection Hset as <-. simpl.
  rewrite Ho'. simpl. split; [apply lookup_insert_eq|done].
Qed.

(** The object 9 is the handle 2 of device 1 and the handle 5 of device 3. *)
Definition gem_run : gem_sim := GemSim {[(1, 2) := 9; (3, 5) := 9]} ∅.
Definition gem_info (dev : Z) (g : amd_gfx_level) : winsys_info :=
  WinsysInfo dev 7 false 0 g 65536 4096 0 false 50 46 false false false false false false.
Definition gem_bo (handle : Z) : radv_amdgpu_winsys_bo :=
  WinsysBo 0 65536 false false false false false false RADEON_DOMAIN_GTT 2 1 0 0 2 handle 0 false 4096 true.
Definition gem_proc (dev handle : Z) (g : amd_gfx_level) (k : gem_sim) : proc gem_sim :=
  Proc k {[1 := Winsys (gem_info dev g) [] 0 0 None []]} {[2 := gem_bo handle]} ∅ [] 0 None (-2) (-1)
    (Churn [] 0 0 0 0) 3.

(** A macro-tiled surface of GFX8, and one that has not been laid out. *)
Definition gem_surf : radeon_surf := Surf 0 4 0 0 (SurfLegacy (LegacySurf 12 1 4 1024 2 16 3 64)).
Definition gem_surf0 : radeon_surf := Surf (Z.shiftl 1 8) 4 0 0 (SurfLegacy (LegacySurf 0 0 0 0 0 0 0 0)).
Definition gem_words : list Z := 1 :: replicate 63 7.

Lemma image_tiling_shared_witness :
  exists p1 md' s', radv_image_bo_set_metadata 1 2 gem_surf 6 gem_words (gem_proc 1 2 GFX8 gem_run) = Some (tt, p1)
    /\ md_metadata md' = 1 :: 7 :: replicate 62 0
    /\ radv_patch_surface_from_metadata GFX8 gem_surf0 md' = Some s' /\ same_tiling GFX8 gem_surf s'.
Proof.
  destruct (image_tiling_shared GFX8 gem_surf 6 gem_words 1 2 (Winsys (gem_info 1 GFX8) [] 0 0 None []) (gem_bo 2) 9
    (gem_proc 1 2 GFX8 gem_run)) as (p1&E&H);
    [reflexivity|reflexivity|reflexivity|reflexivity|intros md; reflexivity|reflexivity| |lia|reflexivity|].
  { split; [vm_compute; split; discriminate|]. split; [vm_compute; split; [discriminate|reflexivity]|].
    intros _. vm_compute. tauto. }
  destruct (H (gem_proc 3 5 GFX8 (p_k p1)) 1 2 (Winsys (gem_info 3 GFX8) [] 0 0 None []) (gem_bo 5)
    (BoMetadata (MdLegacy (LegacyMetadata RADEON_LAYOUT_LINEAR RADEON_LAYOUT_LINEAR 0 0 0 0 0 0 0 false)) 0 []) gem_surf0)
    as (md&s'&_&_&Hmd&Hs&Ht); [reflexivity|reflexivity|reflexivity|reflexivity|discriminate|reflexivity|reflexivity|reflexivity|].
  exists p1, md, s'. split; [exact E|]. split; [exact Hmd|]. by split.
Defined.
