(* ===== verification/CText.v ===== *)
(** The parts of the C standard library's text conversion the driver reads its
    environment with (strtoul, strtol, atoi on an LP64 target), over [string]. A string
    here has no NUL, so the end of the C string is [EmptyString]. *)

From Stdlib Require Import Ascii String.
From S2P Require Import Prelude.
Open Scope Z_scope.

(** * Characters *)

Definition code (c : ascii) : Z := Z.of_N (N_of_ascii c).

Definition isspace (c : ascii) : bool := (code c =? 32) || ((9 <=? code c) && (code c <=? 13)).

(** The value of a digit or letter, in bases up to 36. *)
Definition digit_value (c : ascii) : option Z :=
  let k := code c in
  if (48 <=? k) && (k <=? 57) then Some (k - 48)
  else if (97 <=? k) && (k <=? 122) then Some (k - 87)
  else if (65 <=? k) && (k <=? 90) then Some (k - 55)
  else None.

Definition digit_in (base : Z) (c : ascii) : option Z :=
  match digit_value c with
  | Some d => if d <? base then Some d else None
  | None => None
  end.

Definition starts_digit (base : Z) (s : string) : bool :=
  match s with
  | String c _ => bool_decide (is_Some (digit_in base c))
  | EmptyString => false
  end.

(** * strtoul and strtol *)

Fixpoint skip_space (s : string) : string :=
  match s with
  | String c s' => if isspace c then skip_space s' else s
  | EmptyString => s
  end.

Definition read_sign (s : string) : bool * string :=
  match s with
  | String c s' =>
      if code c =? 45 then (true, s') else if code c =? 43 then (false, s') else (false, s)
  | EmptyString => (false, s)
  end.

(** A "0x" counts only when a hexadecimal digit follows it. *)
Definition read_prefix (base : Z) (s : string) : Z * string :=
  match s with
  | String z (String x s') =>
      if (code z =? 48) && ((code x =? 120) || (code x =? 88)) && starts_digit 16 s'
         && ((base =? 0) || (base =? 16))
      then (16, s')
      else if base =? 0 then (if code z =? 48 then (8, s) else (10, s)) else (base, s)
  | String z EmptyString => if base =? 0 then (if code z =? 48 then (8, s) else (10, s)) else (base, s)
  | EmptyString => ((if base =? 0 then 10 else base), s)
  end.

Fixpoint read_digits (base acc : Z) (s : string) : Z * string :=
  match s with
  | String c s' =>
      match digit_in base c with
      | Some d => read_digits base (acc * base + d) s'
      | None => (acc, s)
      end
  | EmptyString => (acc, s)
  end.

(** The number read and the rest of the string; with no digits the rest is the whole
    argument ([*endptr = nptr]). *)
Definition read_number (base : Z) (s : string) : option (bool * Z * string) :=
  let '(neg, s1) := read_sign (skip_space s) in
  let '(b, s2) := read_prefix base s1 in
  if starts_digit b s2 then let '(v, rest) := read_digits b 0 s2 in Some (neg, v, rest)
  else None.

Definition ULONG_MAX : Z := W64 - 1.
Definition LONG_MAX : Z := 2 ^ 63 - 1.

Definition strtoul (s : string) (base : Z) : Z * string :=
  match read_number base s with
  | Some (neg, v, rest) =>
      ((if ULONG_MAX <? v then ULONG_MAX else if neg then u64 (- v) else v), rest)
  | None => (0, s)
  end.

Definition strtol (s : string) (base : Z) : Z * string :=
  match read_number base s with
  | Some (neg, v, rest) =>
      (if neg then Z.max (- v) (- LONG_MAX - 1) else Z.min v LONG_MAX, rest)
  | None => (0, s)
  end.

(** [(int)strtol(s, NULL, 10)]. *)
Definition s32 (x : Z) : Z := (x + 2 ^ 31) mod W32 - 2 ^ 31.
Definition atoi (s : string) : Z := s32 (strtol s 10).1.

(** * The environment *)

Definition environment : Type := string -> option string.

(** [e && e[0]]: a set, non-empty variable. *)
Definition env_nonempty (e : option string) : option string :=
  match e with Some EmptyString => None | _ => e end.

(** * Printing three hexadecimal digits, the way the driver logs a dword offset *)

Definition hex_digit (d : Z) : ascii :=
  ascii_of_N (Z.to_N (if d <? 10 then 48 + d else 87 + d)).

Definition hex3 (v : Z) (rest : string) : string :=
  String (hex_digit (v / 256)) (String (hex_digit (v / 16 mod 16)) (String (hex_digit (v mod 16)) rest)).

(** * Lemmas *)

Lemma digit_cases (P : Z -> Prop) d :
  0 <= d < 16 ->
  P 0 -> P 1 -> P 2 -> P 3 -> P 4 -> P 5 -> P 6 -> P 7 -> P 8 -> P 9 -> P 10 -> P 11 -> P 12 ->
  P 13 -> P 14 -> P 15 -> P d.
Proof.
  intros Hd. intros.
  assert (d = 0 \/ d = 1 \/ d = 2 \/ d = 3 \/ d = 4 \/ d = 5 \/ d = 6 \/ d = 7 \/ d = 8
          \/ d = 9 \/ d = 10 \/ d = 11 \/ d = 12 \/ d = 13 \/ d = 14 \/ d = 15) by lia.
  naive_solver.
Qed.

Lemma hex_digit_value d : 0 <= d < 16 -> digit_in 16 (hex_digit d) = Some d.
Proof. intros. by apply (digit_cases (fun d => digit_in 16 (hex_digit d) = Some d)). Qed.

(** A hexadecimal digit is no space, no sign and no letter x. *)
Lemma hex_digit_plain d :
  0 <= d < 16 ->
  isspace (hex_digit d) = false /\ code (hex_digit d) <> 45 /\ code (hex_digit d) <> 43
  /\ code (hex_digit d) <> 120 /\ code (hex_digit d) <> 88.
Proof.
  intros. by apply (digit_cases (fun d =>
    isspace (hex_digit d) = false /\ code (hex_digit d) <> 45 /\ code (hex_digit d) <> 43
    /\ code (hex_digit d) <> 120 /\ code (hex_digit d) <> 88)).
Qed.

Lemma read_digits_stop base acc s : starts_digit base s = false -> read_digits base acc s = (acc, s).
Proof.
  destruct s as [|c s]; [done|]. cbn. case_bool_decide as H; [done|]. intros _.
  destruct (digit_in base c); [|done]. exfalso. apply H. eauto.
Qed.

(** Reading three digits back. *)
Lemma strtoul_hex3 v rest :
  0 <= v < 4096 -> starts_digit 16 rest = false -> strtoul (hex3 v rest) 16 = (v, rest).
Proof.
  intros Hv Hrest.
  assert (0 <= v / 256 < 16) by (split; [apply Z.div_pos|apply Z.div_lt_upper_bound]; lia).
  pose proof (Z.mod_pos_bound (v / 16) 16 ltac:(lia)).
  pose proof (Z.mod_pos_bound v 16 ltac:(lia)).
  unfold strtoul, read_number, hex3. cbn [skip_space].
  destruct (hex_digit_plain (v / 256)) as (-> & Hm & Hp & _ & _); [done|]. cbn [read_sign].
  rewrite (proj2 (Z.eqb_neq _ _) Hm), (proj2 (Z.eqb_neq _ _) Hp). cbn [read_prefix].
  destruct (hex_digit_plain (v / 16 mod 16)) as (_ & _ & _ & Hx & HX); [done|].
  rewrite (proj2 (Z.eqb_neq _ _) Hx), (proj2 (Z.eqb_neq _ _) HX), andb_false_r. cbn [orb andb].
  cbn [Z.eqb]. unfold starts_digit at 1. rewrite hex_digit_value by done.
  rewrite bool_decide_eq_true_2 by eauto. cbn [read_digits].
  rewrite !hex_digit_value by done. rewrite read_digits_stop by done.
  replace (((0 * 16 + v / 256) * 16 + v / 16 mod 16) * 16 + v mod 16) with v.
  - unfold ULONG_MAX. destruct (Z.ltb_spec (W64 - 1) v); [unfold_words; lia|done].
  - pose proof (Z.div_mod v 16 ltac:(lia)). pose proof (Z.div_mod (v / 16) 16 ltac:(lia)).
    rewrite Z.div_div in * by lia. change (16 * 16) with 256 in *. lia.
Qed.
