(* ===== verification/TitanMap.v ===== *)
(** TITAN's register map: the generated tables of src/amd/common/ac_titan_kmap.h, the
    graded hand-recovered table, the overrides and the run check of
    src/amd/common/ac_titan_regmap.h, and the validator that guards their activation
    (src/amd/common/ac_gpu_info.c). *)

From Stdlib Require Import Ascii String.
From S2P Require Import Prelude CText.
Local Open Scope string_scope.
Local Open Scope list_scope.
Open Scope Z_scope.

(** * Register spaces (sid.h) *)

Definition SI_CONFIG_REG_OFFSET : Z := 0x8000.
Definition SI_CONFIG_REG_END : Z := 0xB000.
Definition SI_SH_REG_OFFSET : Z := 0xB000.
Definition SI_SH_REG_END : Z := 0xC000.
Definition SI_CONTEXT_REG_OFFSET : Z := 0x28000.
Definition SI_CONTEXT_REG_END : Z := 0x30000.
Definition CIK_UCONFIG_REG_OFFSET : Z := 0x30000.
Definition CIK_UCONFIG_REG_END : Z := 0x40000.

(** * Switches over dword offsets *)

(** The cases of a [switch]: the first that matches. *)
Fixpoint cases (l : list (Z * Z)) (dw : Z) : option Z :=
  match l with
  | [] => None
  | (src, dst) :: l' => if src =? dw then Some dst else cases l' dw
  end.

(** * The generated map (ac_titan_kmap.h) *)

(** [switch (dw)] of ac_titan_kmap_ctx: 337 context registers move. *)
Definition kmap_ctx_table : list (Z * Z) :=
  [ (0x0, 0x19); (0x2, 0x16); (0x4, 0x17); (0x5, 0xe); (0x7, 0xf); (0xf, 0x7);
    (0x16, 0x2); (0x17, 0x4); (0x18, 0x2af); (0x19, 0x0); (0x1a, 0x1f); (0x1b, 0x23);
    (0x1c, 0x22); (0x1f, 0x1a); (0x8e, 0x37a); (0x8f, 0x37b); (0xb4, 0x117); (0xb5, 0x118);
    (0xb6, 0x11f); (0xb7, 0x120); (0xb8, 0x127); (0xb9, 0x128); (0xba, 0x12f); (0xbb, 0x130);
    (0xbc, 0x137); (0xbd, 0x138); (0xbe, 0x13f); (0xbf, 0x140); (0xc0, 0x147); (0xc1, 0x148);
    (0xc2, 0x14f); (0xc3, 0x150); (0xc4, 0x157); (0xc5, 0x158); (0xc6, 0x15f); (0xc7, 0x160);
    (0xc8, 0x167); (0xc9, 0x168); (0xca, 0x16f); (0xcb, 0x170); (0xcc, 0x177); (0xcd, 0x178);
    (0xce, 0x17f); (0xcf, 0x180); (0xd0, 0x187); (0xd1, 0x188); (0xd2, 0x18f); (0xd3, 0x190);
    (0x10a, 0x379); (0x10b, 0x201); (0x10c, 0xfa); (0x10d, 0xfb); (0x10f, 0x111); (0x110, 0x112);
    (0x111, 0x113); (0x112, 0x114); (0x113, 0x115); (0x114, 0x116); (0x115, 0x119); (0x116, 0x11a);
    (0x117, 0x11b); (0x118, 0x11c); (0x119, 0x11d); (0x11a, 0x11e); (0x11b, 0x121); (0x11c, 0x122);
    (0x11d, 0x123); (0x11e, 0x124); (0x11f, 0x125); (0x120, 0x126); (0x121, 0x129); (0x122, 0x12a);
    (0x123, 0x12b); (0x124, 0x12c); (0x125, 0x12d); (0x126, 0x12e); (0x127, 0x131); (0x128, 0x132);
    (0x129, 0x133); (0x12a, 0x134); (0x12b, 0x135); (0x12c, 0x136); (0x12d, 0x139); (0x12e, 0x13a);
    (0x12f, 0x13b); (0x130, 0x13c); (0x131, 0x13d); (0x132, 0x13e); (0x133, 0x141); (0x134, 0x142);
    (0x135, 0x143); (0x136, 0x144); (0x137, 0x145); (0x138, 0x146); (0x139, 0x149); (0x13a, 0x14a);
    (0x13b, 0x14b); (0x13c, 0x14c); (0x13d, 0x14d); (0x13e, 0x14e); (0x13f, 0x151); (0x140, 0x152);
    (0x141, 0x153); (0x142, 0x154); (0x143, 0x155); (0x144, 0x156); (0x145, 0x159); (0x146, 0x15a);
    (0x147, 0x15b); (0x148, 0x15c); (0x149, 0x15d); (0x14a, 0x15e); (0x14b, 0x161); (0x14c, 0x162);
    (0x14d, 0x163); (0x14e, 0x164); (0x14f, 0x165); (0x150, 0x166); (0x151, 0x169); (0x152, 0x16a);
    (0x153, 0x16b); (0x154, 0x16c); (0x155, 0x16d); (0x156, 0x16e); (0x157, 0x171); (0x158, 0x172);
    (0x159, 0x173); (0x15a, 0x174); (0x15b, 0x175); (0x15c, 0x176); (0x15d, 0x179); (0x15e, 0x17a);
    (0x15f, 0x17b); (0x160, 0x17c); (0x161, 0x17d); (0x162, 0x17e); (0x163, 0x181); (0x164, 0x182);
    (0x165, 0x183); (0x166, 0x184); (0x167, 0x185); (0x168, 0x186); (0x169, 0x189); (0x16a, 0x18a);
    (0x16b, 0x18b); (0x16c, 0x18c); (0x16d, 0x18d); (0x16e, 0x18e); (0x16f, 0xb4); (0x170, 0xb5);
    (0x171, 0xb6); (0x172, 0xb7); (0x173, 0xb8); (0x174, 0xb9); (0x175, 0xba); (0x176, 0xbb);
    (0x177, 0xbc); (0x178, 0xbd); (0x179, 0xbe); (0x17a, 0xbf); (0x17b, 0xc0); (0x17c, 0xc1);
    (0x17d, 0xc2); (0x17e, 0xc3); (0x17f, 0xc4); (0x180, 0xc5); (0x181, 0xc6); (0x182, 0xc7);
    (0x183, 0xc8); (0x184, 0xc9); (0x185, 0xca); (0x186, 0xcb); (0x187, 0xcc); (0x188, 0xcd);
    (0x191, 0x199); (0x192, 0x19a); (0x193, 0x19b); (0x194, 0x19c); (0x195, 0x19d); (0x196, 0x19e);
    (0x197, 0x19f); (0x198, 0x1a0); (0x199, 0x1a1); (0x19a, 0x1a2); (0x19b, 0x1a3); (0x19c, 0x1a4);
    (0x19d, 0x1a5); (0x19e, 0x1a6); (0x19f, 0x1a7); (0x1a0, 0x1a8); (0x1a1, 0x1a9); (0x1a2, 0x1aa);
    (0x1a3, 0x1ab); (0x1a4, 0x1ac); (0x1a5, 0x1ad); (0x1a6, 0x1ae); (0x1a7, 0x1af); (0x1a8, 0x1b0);
    (0x1a9, 0x1b1); (0x1aa, 0x1b2); (0x1ab, 0x1b3); (0x1ac, 0x1b4); (0x1ad, 0x1b5); (0x1ae, 0x1b6);
    (0x1af, 0x1b7); (0x1b0, 0x1b8); (0x1b1, 0x1c3); (0x1b3, 0x197); (0x1b4, 0x198); (0x1b5, 0x191);
    (0x1b6, 0x1c4); (0x1b7, 0x1c2); (0x1b8, 0x196); (0x1c2, 0x192); (0x1c3, 0x193); (0x1c4, 0x194);
    (0x1c5, 0x195); (0x201, 0x1b); (0x202, 0x378); (0x204, 0x205); (0x205, 0x204); (0x291, 0x2a9);
    (0x292, 0x310); (0x2a1, 0x2a5); (0x2a6, 0x2a8); (0x2aa, 0x2db); (0x2ab, 0x2d0); (0x2ad, 0x2a7);
    (0x2af, 0x18); (0x2d5, 0x2a6); (0x2db, 0x2aa); (0x2dc, 0x1c); (0x2e4, 0x2cf); (0x2f5, 0x2fc);
    (0x2f6, 0x2fd); (0x2fa, 0x10d); (0x2fb, 0x10e); (0x2fc, 0x10f); (0x2fd, 0x110); (0x310, 0x316);
    (0x313, 0x315); (0x315, 0x313); (0x31b, 0x319); (0x31c, 0x360); (0x31d, 0x31a); (0x31e, 0x31b);
    (0x31f, 0x31c); (0x321, 0x31d); (0x323, 0x368); (0x324, 0x369); (0x325, 0x31e); (0x327, 0x321);
    (0x32a, 0x322); (0x32b, 0x361); (0x32c, 0x323); (0x32d, 0x324); (0x32e, 0x325); (0x330, 0x326);
    (0x332, 0x36a); (0x333, 0x36b); (0x334, 0x327); (0x336, 0x32a); (0x339, 0x32b); (0x33a, 0x362);
    (0x33b, 0x32c); (0x33c, 0x32d); (0x33d, 0x32e); (0x33f, 0x32f); (0x341, 0x36c); (0x342, 0x36d);
    (0x343, 0x330); (0x345, 0x333); (0x348, 0x334); (0x349, 0x363); (0x34a, 0x335); (0x34b, 0x336);
    (0x34c, 0x337); (0x34e, 0x338); (0x350, 0x36e); (0x351, 0x36f); (0x352, 0x339); (0x354, 0x33c);
    (0x357, 0x33d); (0x358, 0x364); (0x359, 0x33e); (0x35a, 0x33f); (0x35b, 0x340); (0x35d, 0x341);
    (0x35f, 0x370); (0x360, 0x371); (0x361, 0x342); (0x363, 0x345); (0x366, 0x346); (0x367, 0x365);
    (0x368, 0x347); (0x369, 0x348); (0x36a, 0x349); (0x36c, 0x34a); (0x36e, 0x372); (0x36f, 0x373);
    (0x370, 0x34b); (0x372, 0x34e); (0x375, 0x34f); (0x376, 0x366); (0x377, 0x350); (0x378, 0x351);
    (0x379, 0x352); (0x37b, 0x353); (0x37d, 0x374); (0x37e, 0x375); (0x37f, 0x354); (0x381, 0x357);
    (0x384, 0x358); (0x385, 0x367); (0x386, 0x359); (0x387, 0x35a); (0x388, 0x35b); (0x38a, 0x35c);
    (0x38c, 0x376); (0x38d, 0x377); (0x38e, 0x35d); (0x3b0, 0x31f); (0x3b1, 0x328); (0x3b2, 0x331);
    (0x3b3, 0x33a); (0x3b4, 0x343); (0x3b5, 0x34c); (0x3b6, 0x355); (0x3b7, 0x35e); (0x3b8, 0x320);
    (0x3b9, 0x329); (0x3ba, 0x332); (0x3bb, 0x33b); (0x3bc, 0x344); (0x3bd, 0x34d); (0x3be, 0x356);
    (0x3bf, 0x35f) ].

(** [switch (dw)] of ac_titan_kmap_sh: 13 SH registers move. *)
Definition kmap_sh_table : list (Z * Z) :=
  [ (0x7, 0x0); (0x81, 0x8b); (0x87, 0x8a); (0x8a, 0x84); (0x8b, 0x85); (0xc8, 0x86);
    (0xc9, 0x87); (0x101, 0x10b); (0x107, 0x10a); (0x10a, 0x104); (0x10b, 0x105); (0x148, 0x106);
    (0x149, 0x107) ].

(** [switch (dw)] of ac_titan_kmap_ucfg: two uconfig registers trade places. *)
Definition kmap_ucfg_table : list (Z * Z) :=
  [ (0x261, 0x262); (0x262, 0x261) ].

Definition ac_titan_kmap_ctx (dw : Z) : Z := default dw (cases kmap_ctx_table dw).
Definition ac_titan_kmap_sh (dw : Z) : Z := default dw (cases kmap_sh_table dw).
Definition ac_titan_kmap_ucfg (dw : Z) : Z := default dw (cases kmap_ucfg_table dw).

(** * The globals of ac_gpu_info.c *)

Record regmap := {
  regmap_active : bool;              (* ac_titan_regmap_active *)
  regmap_level : Z;                  (* ac_titan_regmap_level *)
  regmap_suppress : bool;            (* ac_titan_regmap_suppress *)
  regmap_hits : Z;                   (* ac_titan_regmap_hits *)
  mapovr : list (Z * Z)              (* ac_titan_mapovr_src/_dst, the first ac_titan_mapovr_n *)
}.

Definition regmap_init : regmap :=
  {| regmap_active := false; regmap_level := 0; regmap_suppress := true; regmap_hits := 0;
     mapovr := [] |}.

Definition AC_TITAN_MAPOVR_MAX : nat := 16.

(** * Environment switches

    Each is read once and cached; the environment does not change under the driver. *)

Section Environment.
Variable getenv : environment.

(** [(e && e[0]) ? atoi(e) : 3], returned as uint32_t. *)
Definition ac_titan_kmap_level : Z :=
  u32 (match env_nonempty (getenv "RADV_XCLIPSE_KMAP") with Some e => atoi e | None => 3 end).

Definition ac_titan_legacy_pgm_hi : bool :=
  match env_nonempty (getenv "RADV_XCLIPSE_TITAN_PGMHI") with
  | Some e => negb (atoi e =? 0)
  | None => ac_titan_kmap_level <? 2
  end.

Definition ac_titan_preamble_remap : bool :=
  match env_nonempty (getenv "RADV_XCLIPSE_PREMAP") with Some e => negb (atoi e =? 0) | None => true end.

Definition ac_titan_spi_slot (env : string) (dflt : Z) : Z :=
  match env_nonempty (getenv env) with Some e => u32 (strtoul e 0).1 | None => dflt end.

Definition ac_titan_db_active (m : regmap) : bool := regmap_active m && (10 <=? regmap_level m).

Definition ac_titan_tex_iterate256 (m : regmap) : bool :=
  regmap_active m
  && match env_nonempty (getenv "RADV_XCLIPSE_TEXIT256") with Some e => negb (atoi e =? 0) | None => false end.

(** * The hand-recovered table, by level *)

Definition level1_cases : list (Z * Z) :=
  [ (0x2d5, 0x2a6); (0x2a6, 0x2a8); (0x10c, 0x0fa); (0x10d, 0x0fb) ].
Definition level4_cases : list (Z * Z) :=
  [ (0x1b5, 0x191); (0x1c2, 0x192); (0x1c3, 0x193); (0x1c4, 0x194); (0x1c5, 0x195);
    (0x1b8, 0x196); (0x1b3, 0x197); (0x1b4, 0x198);
    (0x1b1, ac_titan_spi_slot "RADV_XCLIPSE_SPIVOC" 0x1c3);
    (0x1b6, ac_titan_spi_slot "RADV_XCLIPSE_SPIPIC" 0x1c4);
    (0x2fa, 0x10d); (0x2fb, 0x10e); (0x2fc, 0x10f); (0x2fd, 0x110) ].
Definition level6_cases : list (Z * Z) := [ (0x291, 0x2a9); (0x2e4, 0x2d0) ].
Definition level8_cases : list (Z * Z) := [ (0x202, 0x378); (0x08e, 0x37a); (0x08f, 0x37b) ].
Definition level10_cases : list (Z * Z) :=
  [ (0x000, 0x019); (0x004, 0x017); (0x005, 0x00e); (0x007, 0x00f); (0x01f, 0x01a);
    (0x10b, 0x201); (0x201, 0x01b); (0x2af, 0x018); (0x2dc, 0x01c) ].

(** Level 9: the nine-dword blocks of the colour targets. *)
Definition level9_cases (dw : Z) : option Z :=
  let mrt := (dw - 0x318) / 0x0f in
  let slot := (dw - 0x318) mod 0x0f in
  if (0x318 <=? dw) && (dw <? 0x318 + 0x0f * 8) && (slot =? 0) then Some (0x318 + 9 * mrt)
  else if (0x318 <=? dw) && (dw <? 0x318 + 0x0f * 8) && (slot =? 4) then Some (0x360 + mrt)
  else if (0x3b0 <=? dw) && (dw <? 0x3b8) then Some (0x31f + 9 * (dw - 0x3b0))
  else if (0x3b8 <=? dw) && (dw <? 0x3c0) then Some (0x320 + 9 * (dw - 0x3b8))
  else None.

(** The table after the overrides and the kernel's map. *)
Definition hand_ctx (level dw : Z) : Z :=
  match cases level1_cases dw with Some to => to | None =>
  if (0x10f <=? dw) && (dw <? 0x10f + 8 * 16) then dw + 2 else
  if level <? 4 then dw else
  if (0x191 <=? dw) && (dw <=? 0x1b0) then dw + 8 else
  match cases level4_cases dw with Some to => to | None =>
  if level <? 6 then dw else
  match cases level6_cases dw with Some to => to | None =>
  if level <? 8 then dw else
  match cases level8_cases dw with Some to => to | None =>
  if level <? 9 then dw else
  match level9_cases dw with Some to => to | None =>
  if level <? 10 then dw else
  default dw (cases level10_cases dw)
  end end end end end.

Definition ac_titan_ctx_dw (m : regmap) (dw : Z) : Z :=
  match cases (mapovr m) dw with
  | Some to => to
  | None =>
      if 1 <=? ac_titan_kmap_level then ac_titan_kmap_ctx dw else hand_ctx (regmap_level m) dw
  end.

Definition ac_titan_sh_dw (m : regmap) (dw : Z) : Z :=
  if 2 <=? ac_titan_kmap_level then ac_titan_kmap_sh dw
  else if dw =? 0x0c8 then 0x086
  else if regmap_level m <? 3 then dw
  else default dw (cases [ (0x08a, 0x084); (0x08b, 0x085) ] dw).

(** [reg] is a byte address. *)
Definition ac_titan_sh_suppressed (m : regmap) (reg : Z) : bool :=
  let dw := u32 (reg - SI_SH_REG_OFFSET) / 4 in
  if negb (regmap_active m) || (regmap_level m <? 2) || negb (regmap_suppress m) then false
  else (dw =? 0x087) || (dw =? 0x081).

Definition ac_titan_remap_dw_quiet (m : regmap) (base dw : Z) : Z :=
  if negb (regmap_active m) then dw
  else if base =? SI_CONTEXT_REG_OFFSET then ac_titan_ctx_dw m dw
  else if base =? SI_SH_REG_OFFSET then ac_titan_sh_dw m dw
  else if (base =? CIK_UCONFIG_REG_OFFSET) && (3 <=? ac_titan_kmap_level) then ac_titan_kmap_ucfg dw
  else dw.

(** The mapping of a write; it counts the registers that move. *)
Definition ac_titan_remap_dw (m : regmap) (base dw : Z) : Z * regmap :=
  if negb (regmap_active m) then (dw, m)
  else
    let out :=
      if base =? SI_CONTEXT_REG_OFFSET then ac_titan_ctx_dw m dw
      else if base =? SI_SH_REG_OFFSET then ac_titan_sh_dw m dw
      else if (base =? CIK_UCONFIG_REG_OFFSET) && (3 <=? ac_titan_kmap_level)
           then ac_titan_kmap_ucfg dw
           else dw in
    (out,
     if negb (out =? dw)
     then {| regmap_active := regmap_active m; regmap_level := regmap_level m;
             regmap_suppress := regmap_suppress m; regmap_hits := u32 (regmap_hits m + 1);
             mapovr := mapovr m |}
     else m).

(** The loop [for (k = 1; k < num; k++)], [num - 1] rounds from [k]. *)
Fixpoint run_split_from (m : regmap) (base dw d0 : Z) (rounds : nat) (k : Z) : option Z :=
  match rounds with
  | O => None
  | S r =>
      if negb (ac_titan_remap_dw_quiet m base (u32 (dw + k)) =? u32 (d0 + k)) then Some k
      else run_split_from m base dw d0 r (k + 1)
  end.

Definition ac_titan_run_split (m : regmap) (base dw num : Z) : bool :=
  if negb (regmap_active m) then false
  else
    let d0 := ac_titan_remap_dw_quiet m base dw in
    bool_decide (is_Some (run_split_from m base dw d0 (Z.to_nat (num - 1)) 1)).

(** The register of a run that is reported as scattering: its index [k] in the run. *)
Definition ac_titan_check_run (enabled : bool) (m : regmap) (base dw num : Z) : option Z :=
  if negb enabled || negb (regmap_active m) || (num <? 2) then None
  else if (base =? SI_CONTEXT_REG_OFFSET) && (dw =? 0x10f) then None
  else run_split_from m base dw (ac_titan_remap_dw_quiet m base dw) (Z.to_nat (num - 1)) 1.

(** * The validator (ac_gpu_info.c) *)

Inductive complaint :=
| OutsideSpace (dw to : Z)
| BothMoved (other dw to : Z)              (* COLLISION (FATAL) *)
| UnmappedSlot (dw other to : Z).          (* a warning *)

Record check_state := {
  src_of : list Z;                         (* uint16_t, 0 = no source yet *)
  n_moved : Z;
  n_warn : Z;
  fatal : bool;
  complaints : list complaint
}.

Definition check_slot (n : Z) (remap : Z -> Z) (s : check_state) (dw : Z) : check_state :=
  let to := remap dw in
  if n <=? to then
    {| src_of := src_of s; n_moved := n_moved s; n_warn := n_warn s; fatal := true;
       complaints := complaints s ++ [OutsideSpace dw to] |}
  else
    let moved := if negb (to =? dw) then n_moved s + 1 else n_moved s in
    let seen := default 0 (src_of s !! Z.to_nat to) in
    if negb (seen =? 0) then
      let other := seen - 1 in
      if negb (remap other =? other) && negb (to =? dw) then
        {| src_of := src_of s; n_moved := moved; n_warn := n_warn s; fatal := true;
           complaints := complaints s ++ [BothMoved other dw to] |}
      else
        {| src_of := src_of s; n_moved := moved; n_warn := n_warn s + 1; fatal := fatal s;
           complaints := complaints s ++
             [UnmappedSlot (if negb (to =? dw) then dw else other)
                           (if negb (to =? dw) then other else dw) to] |}
    else
      {| src_of := <[Z.to_nat to := u16 (dw + 1)]> (src_of s); n_moved := moved;
         n_warn := n_warn s; fatal := fatal s; complaints := complaints s |}.

Definition check_from (n : Z) (remap : Z -> Z) (dws : list Z) (s : check_state) : check_state :=
  fold_left (check_slot n remap) dws s.

(** [for (dw = 0; dw < n; dw++)] over a cleared table. *)
Definition check_run (n : Z) (remap : Z -> Z) : check_state :=
  check_from n remap (seqZ 0 n)
    {| src_of := replicate (Z.to_nat n) 0; n_moved := 0; n_warn := 0; fatal := false;
       complaints := [] |}.

Definition ac_titan_check_space (n : Z) (remap : Z -> Z) : bool := negb (fatal (check_run n remap)).

Definition AC_TITAN_CTX_DWORDS : Z := (SI_CONTEXT_REG_END - SI_CONTEXT_REG_OFFSET) / 4.
Definition AC_TITAN_SH_DWORDS : Z := (SI_SH_REG_END - SI_SH_REG_OFFSET) / 4.

Definition ac_titan_regmap_validate (m : regmap) : bool :=
  ac_titan_check_space AC_TITAN_CTX_DWORDS (ac_titan_ctx_dw m)
  && ac_titan_check_space AC_TITAN_SH_DWORDS (ac_titan_sh_dw m).

(** * Overrides *)

(** One "src:dst" at the head of the string: what is recorded, and what follows a comma. *)
Definition mapovr_entry (s : string) : option ((Z * Z) * option string) :=
  let '(src, e1) := strtoul s 16 in
  match e1 with
  | String colon s1 =>
      if String.eqb e1 s || negb (code colon =? 58) then None
      else
        let '(dst, e2) := strtoul s1 16 in
        if (0x3ff <? src) || (0x3ff <? dst) then None
        else Some ((u32 src, u32 dst),
                   match e2 with
                   | String comma s2 => if code comma =? 44 then Some s2 else None
                   | EmptyString => None
                   end)
  | EmptyString => None
  end.

(** The loop, [room] entries of the arrays left. *)
Fixpoint mapovr_entries (room : nat) (s : string) : list (Z * Z) :=
  match room, s with
  | O, _ | _, EmptyString => []
  | S r, _ =>
      match mapovr_entry s with
      | None => []
      | Some (e, None) => [e]
      | Some (e, Some s') => e :: mapovr_entries r s'
      end
  end.

Definition ac_titan_mapovr_parse (m : regmap) : regmap :=
  {| regmap_active := regmap_active m; regmap_level := regmap_level m;
     regmap_suppress := regmap_suppress m; regmap_hits := regmap_hits m;
     mapovr := match env_nonempty (getenv "RADV_XCLIPSE_MAPOVR") with
               | Some s => mapovr_entries AC_TITAN_MAPOVR_MAX s
               | None => []
               end |}.

Definition ac_titan_regmap_set_level (m : regmap) (level : Z) : regmap :=
  let m1 := ac_titan_mapovr_parse
              {| regmap_active := 0 <? level; regmap_level := level;
                 regmap_suppress := regmap_suppress m; regmap_hits := regmap_hits m;
                 mapovr := mapovr m |} in
  if (0 <? level) && negb (ac_titan_regmap_validate m1) then
    {| regmap_active := false; regmap_level := 0; regmap_suppress := regmap_suppress m1;
       regmap_hits := regmap_hits m1; mapovr := mapovr m1 |}
  else m1.
End Environment.
