(* ===== verification/TitanProofs.v ===== *)
(** The validator of TITAN's register map keeps, for every slot, the first register that
    lands on it; switches over distinct destinations are injective where they move. *)

From Stdlib Require Import Ascii String.
From S2P Require Import Prelude CText TitanMap.
Local Open Scope list_scope.
Open Scope Z_scope.

(** * Switches *)

Lemma cases_in l dw to : cases l dw = Some to -> (dw, to) ∈ l.
Proof.
  induction l as [|[src dst] l IH]; [done|]. cbn. case_cmp; [|set_solver].
  intros [= ->]. subst. set_solver.
Qed.

Lemma cases_inj l a b to :
  NoDup l.*2 -> cases l a = Some to -> cases l b = Some to -> a = b.
Proof.
  intros Hnd Ha%cases_in Hb%cases_in. revert Hnd Ha Hb.
  induction l as [|[src dst] l IH]; [set_solver|]. cbn. intros [Hnin Hnd]%NoDup_cons.
  assert (Hfst : forall x y, (x, y) ∈ l -> y ∈ l.*2).
  { intros x y Hin. by apply (list_elem_of_fmap_2 snd l (x, y)). }
  rewrite !elem_of_cons. intros [[= -> ->]|Ha] [[= ->]|Hb]; try congruence.
  - exfalso. apply Hnin. by eapply Hfst.
  - exfalso. apply Hnin. subst. by eapply Hfst.
  - by apply IH.
Qed.

Lemma cases_above l dw : Forall (fun p => p.1 < dw) l -> cases l dw = None.
Proof.
  induction 1 as [|[src dst] l Hlt _ IH]; [done|]. cbn in *. case_cmp; [lia|done].
Qed.

(** * Maps that are injective where they move *)

Section Maps.
Variable n : Z.
Variable remap : Z -> Z.

Definition confined : Prop := forall dw, 0 <= dw < n -> 0 <= remap dw < n.
Definition moves_injectively : Prop :=
  forall a b, 0 <= a < n -> 0 <= b < n -> remap a <> a -> remap b <> b -> remap a = remap b -> a = b.

(** The first register that lands on a slot. *)
Definition first_source (to x : Z) : Prop :=
  0 <= x /\ remap x = to /\ forall y, 0 <= y < x -> remap y <> to.

Lemma first_source_exists to a : 0 <= a -> remap a = to -> exists x, first_source to x.
Proof.
  intros Ha. pattern a. apply (Zlt_0_ind _); [|done]. clear a Ha. intros a IH Ha Heq.
  destruct (decide (Forall (fun y => remap y <> to) (seqZ 0 a))) as [Hall|Hex].
  - exists a. split; [done|]. split; [done|]. intros y Hy. rewrite Forall_forall in Hall.
    apply Hall, elem_of_seqZ. lia.
  - apply not_Forall_Exists, Exists_exists in Hex as (y & Hy%elem_of_seqZ & Heq'); [|apply _].
    apply (IH y); [lia|]. by apply dec_stable.
Qed.

(** What the validator refuses. *)
Definition refused (dw : Z) : Prop :=
  n <= remap dw
  \/ exists x, x < dw /\ first_source (remap dw) x /\ remap x <> x /\ remap dw <> dw.

Lemma first_source_unique to x y : first_source to x -> first_source to y -> x = y.
Proof.
  intros (Hx0 & Hx & Hxm) (Hy0 & Hy & Hym).
  destruct (Z.lt_trichotomy x y) as [|[|]]; [|done|].
  - exfalso. apply (Hym x); [lia|done].
  - exfalso. apply (Hxm y); [lia|done].
Qed.

(** ** The state of the loop after [k] registers *)

Record checked (k : Z) (s : check_state) : Prop := {
  checked_len : length (src_of s) = Z.to_nat n;
  checked_src to : 0 <= to < n ->
    exists v, src_of s !! Z.to_nat to = Some v
      /\ ((v = 0 /\ forall x, 0 <= x < k -> remap x <> to)
          \/ (1 <= v <= k /\ first_source to (v - 1)));
  checked_fatal : fatal s = true <-> exists dw, 0 <= dw < k /\ refused dw
}.

(** [fatal] after a register that is refused, and after one that is not. *)
Lemma fatal_refused k b :
  (b = true <-> exists dw, 0 <= dw < k /\ refused dw) -> 0 <= k -> refused k ->
  true = true <-> exists dw, 0 <= dw < k + 1 /\ refused dw.
Proof. intros _ Hk Hr. split; [|done]. intros _. exists k. split; [lia|done]. Qed.

Lemma fatal_kept k b :
  (b = true <-> exists dw, 0 <= dw < k /\ refused dw) -> ~ refused k ->
  b = true <-> exists dw, 0 <= dw < k + 1 /\ refused dw.
Proof.
  intros -> Hr. split; intros (dw & Hdw0 & Hrd); exists dw; (split; [|done]); [lia|].
  assert (dw <> k) by naive_solver. lia.
Qed.

(** The recorded sources do not change when the slot already has one, or none is hit. *)
Lemma src_kept k (l : list Z) :
  (forall to, 0 <= to < n -> exists v, l !! Z.to_nat to = Some v
     /\ ((v = 0 /\ forall x, 0 <= x < k -> remap x <> to) \/ (1 <= v <= k /\ first_source to (v - 1)))) ->
  (0 <= remap k < n -> exists v, l !! Z.to_nat (remap k) = Some v /\ v <> 0) ->
  forall to, 0 <= to < n -> exists v, l !! Z.to_nat to = Some v
     /\ ((v = 0 /\ forall x, 0 <= x < k + 1 -> remap x <> to)
         \/ (1 <= v <= k + 1 /\ first_source to (v - 1))).
Proof.
  intros Hsrc Hseen to Hto. destruct (Hsrc to Hto) as (v & Hv & Hcase).
  exists v. split; [done|]. destruct Hcase as [[-> Hno]|[Hr Hf]].
  - left. split; [done|]. intros x Hx Heq. destruct (decide (x = k)) as [->|]; [|by apply (Hno x); [lia|]].
    destruct Hseen as (w & Hw & Hw0); [lia|]. rewrite Heq in Hw. congruence.
  - right. split; [lia|done].
Qed.

Hypothesis Hn : 0 <= n < W16.
Hypothesis Hnonneg : forall dw, 0 <= dw < n -> 0 <= remap dw.

Lemma checked_step k s :
  0 <= k < n -> checked k s -> checked (k + 1) (check_slot n remap s k).
Proof using Hn Hnonneg.
  intros Hk [Hlen Hsrc Hfat]. unfold check_slot. pose proof (Hnonneg k Hk) as Hr0.
  destruct (Z.leb_spec n (remap k)) as [Hout|Hin].
  { constructor; cbn; [done|apply src_kept; [done|lia]|].
    eapply fatal_refused; eauto; [lia|by left]. }
  destruct (Hsrc (remap k)) as (v & Hv & Hcase); [lia|]. rewrite Hv. cbn [default from_option id].
  destruct Hcase as [[-> Hno]|[Hvr Hf]].
  - cbn [Z.eqb negb]. constructor; cbn.
    + by rewrite length_insert.
    + intros to Hto. destruct (decide (to = remap k)) as [->|Hne].
      * exists (k + 1). rewrite list_lookup_insert_eq by (rewrite Hlen; lia).
        unfold u16. rewrite Z.mod_small by lia. split; [done|]. right. split; [lia|].
        replace (k + 1 - 1) with k by lia. split; [lia|]. split; [done|]. intros y Hy. by apply Hno.
      * rewrite list_lookup_insert_ne by lia. destruct (Hsrc to Hto) as (w & Hw & Hcase).
        exists w. split; [done|]. destruct Hcase as [[-> Hno']|[Hwr Hf]]; [left|right; split; [lia|done]].
        split; [done|]. intros x Hx. destruct (decide (x = k)) as [->|]; [done|apply Hno'; lia].
    + apply fatal_kept; [done|]. intros [|(x & Hx & (Hx0 & Heq & _) & _)]; [lia|]. by apply (Hno x); [lia|].
  - rewrite (proj2 (Z.eqb_neq v 0)) by lia. cbn [negb].
    assert (Hseen : 0 <= remap k < n -> exists w, src_of s !! Z.to_nat (remap k) = Some w /\ w <> 0)
      by (intros _; exists v; split; [done|lia]).
    assert (Hbad : refused k <-> remap (v - 1) <> v - 1 /\ remap k <> k).
    { split; [|intros [? ?]; right; exists (v - 1); split; [lia|done]].
      intros [|(x & Hx & Hfx & Hm)]; [lia|]. by rewrite (first_source_unique _ _ _ Hf Hfx). }
    destruct (negb (remap (v - 1) =? v - 1) && negb (remap k =? k)) eqn:E.
    + constructor; cbn; [done|by apply src_kept|].
      eapply fatal_refused; eauto; [lia|]. apply Hbad. lia.
    + constructor; cbn; [done|by apply src_kept|].
      apply fatal_kept; [done|]. intros [? ?]%Hbad. lia.
Qed.

Lemma checked_run : checked n (check_run n remap).
Proof using Hn Hnonneg.
  enough (H : forall (m : nat), Z.of_nat m <= n ->
            checked (Z.of_nat m) (check_from n remap (seqZ 0 (Z.of_nat m))
              {| src_of := replicate (Z.to_nat n) 0; n_moved := 0; n_warn := 0; fatal := false;
                 complaints := [] |})).
  { specialize (H (Z.to_nat n)). rewrite Z2Nat.id in H by lia. apply H. lia. }
  unfold check_from. induction m as [|m IH]; intros Hm.
  - constructor; cbn; [apply length_replicate| |split; [done|intros (? & ? & _); lia]].
    intros to Hto. exists 0. split; [apply lookup_replicate_2; lia|]. left. split; [done|lia].
  - replace (Z.of_nat (S m)) with (Z.of_nat m + 1) by lia. rewrite seqZ_app by lia.
    rewrite fold_left_app. replace (seqZ (0 + Z.of_nat m) 1) with [Z.of_nat m] by done.
    cbn [fold_left]. apply checked_step; [lia|]. apply IH. lia.
Qed.

Lemma check_space_refused :
  ac_titan_check_space n remap = true <-> forall dw, 0 <= dw < n -> ~ refused dw.
Proof using Hn Hnonneg.
  unfold ac_titan_check_space. pose proof (checked_fatal _ _ checked_run) as Hf.
  destruct (fatal _) eqn:E; cbn.
  - destruct (proj1 Hf eq_refl) as (dw & Hdw & Hr). split; [done|]. intros H. by destruct (H dw).
  - split; [|done]. intros _ dw Hdw Hr. assert (false = true) by (apply Hf; eauto). done.
Qed.

(** A map that stays in the space and is injective where it moves is accepted. *)
Lemma check_space_accepts : confined -> moves_injectively -> ac_titan_check_space n remap = true.
Proof using Hn Hnonneg.
  intros Hc Hm. apply check_space_refused. intros dw Hdw [Hout|(x & Hx & (Hx0 & Heq & _) & Hmx & Hmd)].
  - pose proof (Hc dw Hdw). lia.
  - assert (x = dw) by (apply Hm; [lia..|done|done|done]). lia.
Qed.

Lemma check_space_confined : ac_titan_check_space n remap = true -> confined.
Proof using Hn Hnonneg.
  intros Ha dw Hdw. pose proof (Hnonneg dw Hdw).
  destruct (Z.le_gt_cases n (remap dw)); [|lia]. exfalso.
  eapply check_space_refused; [done| |left]; eauto.
Qed.
End Maps.

(** * The generated tables *)

(** Whether every entry stays below [n], and no two entries share a destination. *)
Definition table_ok (n : Z) (l : list (Z * Z)) : bool :=
  forallb (fun p => (0 <=? p.1) && (p.1 <? n) && (0 <=? p.2) && (p.2 <? n)) l
  && bool_decide (NoDup l.*2).

Lemma table_confined n l :
  table_ok n l = true -> forall dw, 0 <= dw < n -> 0 <= default dw (cases l dw) < n.
Proof.
  intros [Hall _]%andb_true_iff dw Hdw. destruct (cases l dw) as [to|] eqn:E; cbn; [|done].
  apply cases_in in E. rewrite forallb_forall in Hall.
  apply list_elem_of_In in E. specialize (Hall _ E). cbn in Hall. lia.
Qed.

Lemma table_injective n l :
  table_ok n l = true -> moves_injectively n (fun dw => default dw (cases l dw)).
Proof.
  intros [_ Hnd%bool_decide_eq_true]%andb_true_iff a b _ _ Ha Hb Heq.
  destruct (cases l a) as [to|] eqn:Ea; [|done]. destruct (cases l b) as [to'|] eqn:Eb; [|done].
  cbn in Heq. subst to'. by eapply cases_inj.
Qed.

Lemma kmap_ctx_ok : table_ok 0x400 kmap_ctx_table = true.
Proof. vm_compute. reflexivity. Qed.
Lemma kmap_sh_ok : table_ok 0x400 kmap_sh_table = true.
Proof. vm_compute. reflexivity. Qed.
Lemma kmap_ucfg_ok : table_ok 0x400 kmap_ucfg_table = true.
Proof. vm_compute. reflexivity. Qed.

Lemma table_ok_mono n n' l : n <= n' -> table_ok n l = true -> table_ok n' l = true.
Proof.
  intros Hle. unfold table_ok. rewrite !andb_true_iff. intros [Hall ?]. split; [|done].
  rewrite forallb_forall in *. intros p Hp. specialize (Hall p Hp). lia.
Qed.

(** * The hand-recovered tables

    Below the levels 2, 4, 6, 8, 9 and 10 the same entries apply; each of the six tables
    is checked over the thousand registers it touches. *)
Definition hand_ok (f : Z -> Z) : bool :=
  let dws := seqZ 0 0x400 in
  forallb (fun dw => (0 <=? f dw) && (f dw <? 0x400)) dws
  && bool_decide (NoDup (f <$> filter (fun dw => f dw <> dw) dws)).

Lemma NoDup_fmap_inj {A B} (f : A -> B) l a b :
  NoDup (f <$> l) -> a ∈ l -> b ∈ l -> f a = f b -> a = b.
Proof.
  induction l as [|x l IH]; [set_solver|]. cbn. intros [Hx Hnd]%NoDup_cons.
  rewrite !elem_of_cons. intros [->|Ha] [->|Hb] Heq; [done| | |by apply IH].
  - exfalso. apply Hx. rewrite Heq. by apply list_elem_of_fmap_2.
  - exfalso. apply Hx. rewrite <- Heq. by apply list_elem_of_fmap_2.
Qed.

Lemma hand_ok_spec n f :
  hand_ok f = true -> 0x400 <= n -> (forall dw, 0x400 <= dw -> f dw = dw) ->
  confined n f /\ moves_injectively n f.
Proof.
  intros [Hall Hnd%bool_decide_eq_true]%andb_true_iff Hn Habove. rewrite forallb_forall in Hall.
  assert (Hin : forall dw, 0 <= dw < 0x400 -> dw ∈ seqZ 0 0x400) by (intros; apply elem_of_seqZ; lia).
  assert (Hc : forall dw, 0 <= dw < 0x400 -> 0 <= f dw < 0x400).
  { intros dw Hdw. specialize (Hall dw). rewrite <- list_elem_of_In in Hall. specialize (Hall (Hin _ Hdw)). lia. }
  split.
  - intros dw Hdw. destruct (Z.lt_ge_cases dw 0x400); [specialize (Hc dw)|rewrite Habove by lia]; lia.
  - intros a b Ha Hb Hma Hmb Heq.
    assert (Hlow : forall x, 0 <= x -> f x <> x -> x ∈ filter (fun dw => f dw <> dw) (seqZ 0 0x400)).
    { intros x Hx Hmx. apply list_elem_of_filter. split; [done|]. apply Hin.
      destruct (Z.lt_ge_cases x 0x400); [lia|]. by rewrite Habove in Hmx by lia. }
    eapply NoDup_fmap_inj; [exact Hnd|apply Hlow; [lia|done]..|done].
Qed.

Section Environment.
Variable getenv : environment.

Definition slots_default : Prop :=
  env_nonempty (getenv "RADV_XCLIPSE_SPIVOC"%string) = None
  /\ env_nonempty (getenv "RADV_XCLIPSE_SPIPIC"%string) = None.

Lemma hand_ctx_slots level dw :
  slots_default -> hand_ctx getenv level dw = hand_ctx (fun _ => None) level dw.
Proof. intros [Hv Hp]. unfold hand_ctx, level4_cases, ac_titan_spi_slot. by rewrite Hv, Hp. Qed.

Definition hand_grade (level : Z) : Z :=
  if level <? 4 then 1 else if level <? 6 then 4 else if level <? 8 then 6
  else if level <? 9 then 8 else if level <? 10 then 9 else 10.

Lemma hand_ctx_grade level dw : hand_ctx getenv level dw = hand_ctx getenv (hand_grade level) dw.
Proof.
  unfold hand_grade, hand_ctx.
  destruct (Z.ltb_spec level 4), (Z.ltb_spec level 6), (Z.ltb_spec level 8), (Z.ltb_spec level 9),
    (Z.ltb_spec level 10); try lia; reflexivity.
Qed.

Lemma hand_ctx_above level dw : 0x400 <= dw -> hand_ctx (fun _ => None) level dw = dw.
Proof.
  intros Hdw. unfold hand_ctx, level9_cases.
  rewrite !cases_above by (repeat constructor; cbn; lia).
  repeat match goal with |- context [if ?b then _ else _] => destruct b eqn:?; [try lia|]; try done end; lia.
Qed.

Lemma hand_ctx_grades :
  forallb (fun g => hand_ok (hand_ctx (fun _ => None) g)) [1; 4; 6; 8; 9; 10] = true.
Proof. vm_compute. reflexivity. Qed.

Lemma hand_ctx_ok n level :
  slots_default -> 0x400 <= n ->
  confined n (hand_ctx getenv level) /\ moves_injectively n (hand_ctx getenv level).
Proof.
  intros Hs Hn. assert (Hok : hand_ok (hand_ctx (fun _ => None) (hand_grade level)) = true).
  { pose proof hand_ctx_grades as H. rewrite forallb_forall in H. apply H.
    unfold hand_grade. repeat case_cmp; cbn; tauto. }
  destruct (hand_ok_spec n _ Hok Hn) as [Hc Hi]; [intros; by apply hand_ctx_above|].
  assert (Heq : forall dw, hand_ctx getenv level dw = hand_ctx (fun _ => None) (hand_grade level) dw).
  { intros dw. by rewrite hand_ctx_grade, hand_ctx_slots. }
  split.
  - intros dw Hdw. rewrite Heq. by apply Hc.
  - intros a b Ha Hb. rewrite !Heq. by apply Hi.
Qed.
End Environment.

(** * The SH space *)

Definition hand_sh (level dw : Z) : Z :=
  if dw =? 0x0c8 then 0x086
  else if level <? 3 then dw else default dw (cases [ (0x08a, 0x084); (0x08b, 0x085) ] dw).

Lemma hand_sh_ok level :
  confined AC_TITAN_SH_DWORDS (hand_sh level) /\ moves_injectively AC_TITAN_SH_DWORDS (hand_sh level).
Proof.
  apply hand_ok_spec; [|vm_compute; discriminate|].
  - enough (forallb (fun l => hand_ok (hand_sh l)) [1; 3] = true) as H.
    + rewrite forallb_forall in H. unfold hand_sh in *.
      destruct (Z.ltb_spec level 3); [apply (H 1)|apply (H 3)]; cbn; tauto.
    + vm_compute. reflexivity.
  - intros dw Hdw. unfold hand_sh. rewrite cases_above by (repeat constructor; cbn; lia).
    repeat case_cmp; by (lia || done).
Qed.

Lemma sh_dw_ok getenv m :
  confined AC_TITAN_SH_DWORDS (ac_titan_sh_dw getenv m)
  /\ moves_injectively AC_TITAN_SH_DWORDS (ac_titan_sh_dw getenv m).
Proof.
  unfold ac_titan_sh_dw. destruct (2 <=? ac_titan_kmap_level getenv); [|apply hand_sh_ok].
  split; [exact (table_confined _ _ kmap_sh_ok)|exact (table_injective _ _ kmap_sh_ok)].
Qed.

(** * The context space *)

Lemma ctx_ok : table_ok AC_TITAN_CTX_DWORDS kmap_ctx_table = true.
Proof. eapply table_ok_mono, kmap_ctx_ok. vm_compute. discriminate. Qed.

Lemma ctx_dw_ok getenv m :
  slots_default getenv -> mapovr m = [] ->
  confined AC_TITAN_CTX_DWORDS (ac_titan_ctx_dw getenv m)
  /\ moves_injectively AC_TITAN_CTX_DWORDS (ac_titan_ctx_dw getenv m).
Proof.
  intros Hs Ho. unfold ac_titan_ctx_dw. rewrite Ho. cbn [cases].
  destruct (1 <=? ac_titan_kmap_level getenv).
  - split; [exact (table_confined _ _ ctx_ok)|exact (table_injective _ _ ctx_ok)].
  - apply hand_ctx_ok; [done|]. vm_compute. discriminate.
Qed.

(** Overrides and slots are 32-bit words, so that no remapped offset is negative. *)
Lemma u32_nonneg x : 0 <= u32 x.
Proof. apply u32_range. Qed.

Lemma mapovr_entries_nonneg room s : Forall (fun p => 0 <= p.1 /\ 0 <= p.2) (mapovr_entries room s).
Proof.
  revert s. induction room as [|r IH]; intros s; [done|]. cbn. destruct s as [|c s]; [done|].
  set (str := String c s). unfold mapovr_entry. destruct (strtoul str 16) as [src [|colon e1]]; [done|].
  destruct (_ || _); [done|]. destruct (strtoul e1 16) as [dst e2]. destruct (_ || _); [done|].
  destruct e2 as [|comma e2]; [|destruct (code comma =? 44)];
    constructor; cbn; auto using u32_nonneg.
Qed.

Lemma mapovr_parse_nonneg getenv m :
  Forall (fun p => 0 <= p.1 /\ 0 <= p.2) (mapovr (ac_titan_mapovr_parse getenv m)).
Proof.
  unfold ac_titan_mapovr_parse. cbn [mapovr].
  destruct (env_nonempty _); [apply mapovr_entries_nonneg|constructor].
Qed.

Lemma cases_nonneg l dw to : Forall (fun p => 0 <= p.2) l -> cases l dw = Some to -> 0 <= to.
Proof. intros Hl Hc%cases_in. rewrite Forall_forall in Hl. by apply (Hl _ Hc). Qed.

Lemma hand_ctx_nonneg getenv level dw : 0 <= dw -> 0 <= hand_ctx getenv level dw.
Proof.
  intros Hdw. unfold hand_ctx.
  assert (H4 : Forall (fun p => 0 <= p.2) (level4_cases getenv)).
  { assert (Hs : forall s d, 0 <= d -> 0 <= ac_titan_spi_slot getenv s d).
    { intros. unfold ac_titan_spi_slot. destruct (env_nonempty _); [apply u32_nonneg|done]. }
    repeat constructor; cbn; try lia; apply Hs; lia. }
  assert (H9 : forall to, level9_cases dw = Some to -> 0 <= to).
  { intros to. unfold level9_cases. pose proof (Z.div_pos (dw - 0x318) 0x0f) as Hq.
    generalize dependent ((dw - 0x318) / 0x0f). intros q Hq. generalize ((dw - 0x318) mod 0x0f). intros r.
    destruct (Z.leb_spec 0x318 dw); cbn [andb];
      repeat match goal with |- context [if ?b then _ else _] => destruct b eqn:? end;
      intros [= <-]; lia. }
  repeat match goal with
         | |- context [match cases ?l ?d with _ => _ end] =>
             destruct (cases l d) eqn:?; [eapply cases_nonneg; [|eassumption]; first [done | repeat constructor; cbn; lia]|]
         | |- context [match level9_cases ?d with _ => _ end] => destruct (level9_cases d) eqn:?; [by apply H9|]
         | |- context [if ?b then _ else _] => destruct b; [lia|]
         end.
  destruct (cases level10_cases dw) eqn:E; [|done]. cbn. eapply cases_nonneg; [|exact E].
  repeat constructor; cbn; lia.
Qed.

Lemma ctx_dw_nonneg getenv m dw :
  Forall (fun p => 0 <= p.1 /\ 0 <= p.2) (mapovr m) -> 0 <= dw < AC_TITAN_CTX_DWORDS ->
  0 <= ac_titan_ctx_dw getenv m dw.
Proof.
  intros Ho Hdw. unfold ac_titan_ctx_dw. destruct (cases (mapovr m) dw) as [to|] eqn:E.
  { eapply cases_nonneg; [|exact E]. eapply Forall_impl; [exact Ho|]. by intros ? []. }
  destruct (1 <=? _); [|apply hand_ctx_nonneg; lia].
  apply (table_confined _ _ ctx_ok dw Hdw).
Qed.

Lemma set_level_mapovr getenv m level :
  mapovr (ac_titan_regmap_set_level getenv m level) = mapovr (ac_titan_mapovr_parse getenv m).
Proof. unfold ac_titan_regmap_set_level. by destruct (_ && _). Qed.

(** Activation is decided by the context table alone: the SH table always passes. *)
Lemma validate_ctx getenv m :
  ac_titan_regmap_validate getenv m = ac_titan_check_space AC_TITAN_CTX_DWORDS (ac_titan_ctx_dw getenv m).
Proof.
  unfold ac_titan_regmap_validate. destruct (sh_dw_ok getenv m) as [Hc Hi].
  rewrite (check_space_accepts AC_TITAN_SH_DWORDS), andb_true_r; [done|vm_compute; intuition discriminate| |done|done].
  intros dw Hdw. by apply Hc.
Qed.

(** What a set level leaves when the context table passes, and when it does not. *)
Lemma set_level_accepted getenv m level m1 :
  0 < level ->
  m1 = {| regmap_active := true; regmap_level := level; regmap_suppress := regmap_suppress m;
          regmap_hits := regmap_hits m; mapovr := mapovr (ac_titan_mapovr_parse getenv m) |} ->
  ac_titan_check_space AC_TITAN_CTX_DWORDS (ac_titan_ctx_dw getenv m1) = true ->
  ac_titan_regmap_set_level getenv m level = m1.
Proof.
  intros Hl -> Hc. unfold ac_titan_regmap_set_level. rewrite validate_ctx.
  rewrite (proj2 (Z.ltb_lt 0 level)) by lia. unfold ac_titan_mapovr_parse in *. cbn in *. by rewrite Hc.
Qed.

Lemma active_ctx_confined getenv m level :
  regmap_active (ac_titan_regmap_set_level getenv m level) = true ->
  confined AC_TITAN_CTX_DWORDS (ac_titan_ctx_dw getenv (ac_titan_regmap_set_level getenv m level)).
Proof.
  unfold ac_titan_regmap_set_level. set (m1 := ac_titan_mapovr_parse getenv _). rewrite validate_ctx.
  destruct (0 <? level) eqn:El; cbn [andb].
  2: done.
  destruct (ac_titan_check_space _ _) eqn:Hc; cbn [negb]; [|done]. intros _.
  apply check_space_confined in Hc; [done|vm_compute; intuition discriminate|].
  intros dw Hdw. apply ctx_dw_nonneg; [apply mapovr_parse_nonneg|done].
Qed.

(** * The override syntax *)

(** The syntax: "src:dst,src:dst,..." in three hexadecimal digits. *)
Fixpoint print_mapovr (l : list (Z * Z)) : string :=
  match l with
  | [] => EmptyString
  | (src, dst) :: l' =>
      hex3 src (String ":"%char (hex3 dst (match l' with [] => EmptyString
                                           | _ => String ","%char (print_mapovr l') end)))
  end.

Lemma hex3_tail_neq v rest : String.eqb rest (hex3 v rest) = false.
Proof.
  apply String.eqb_neq. intros H. apply (f_equal String.length) in H. cbn in H. lia.
Qed.

Lemma mapovr_entry_print src dst l :
  0 <= src <= 0x3ff -> 0 <= dst <= 0x3ff ->
  mapovr_entry (print_mapovr ((src, dst) :: l))
  = Some ((src, dst), match l with [] => None | _ => Some (print_mapovr l) end).
Proof.
  intros Hs Hd. cbn [print_mapovr]. unfold mapovr_entry. rewrite strtoul_hex3 by (lia || done).
  set (rest := match l with [] => _ | _ => _ end).
  assert (Hrest : starts_digit 16 rest = false) by (unfold rest; by destruct l).
  rewrite strtoul_hex3 by (lia || done).
  rewrite hex3_tail_neq. cbn [code orb negb]. cbn [N_of_ascii]. 
  replace (code ":" =? 58) with true by reflexivity. cbn [negb].
  rewrite (proj2 (Z.ltb_ge 0x3ff src)), (proj2 (Z.ltb_ge 0x3ff dst)) by lia. cbn [orb].
  rewrite !u32_small by (unfold_words; lia). unfold rest. by destruct l.
Qed.

Lemma mapovr_entries_print room l :
  Forall (fun p => 0 <= p.1 <= 0x3ff /\ 0 <= p.2 <= 0x3ff) l ->
  mapovr_entries room (print_mapovr l) = take room l.
Proof.
  revert l. induction room as [|r IH]; intros l Hl; [done|].
  destruct l as [|[src dst] l]; [done|]. apply Forall_cons in Hl as [[Hs Hd] Hl]. cbn in Hs, Hd.
  cbn [mapovr_entries]. destruct (print_mapovr ((src, dst) :: l)) eqn:E; [done|].
  rewrite <- E, mapovr_entry_print by done. cbn [take]. destruct l; [by destruct r|].
  by rewrite IH.
Qed.

(** Two overrides onto a slot that keeps its own register, and comes before both. *)
Lemma override_pair_accepted f a b t :
  0 <= t < a -> a < b < AC_TITAN_CTX_DWORDS ->
  cases kmap_ctx_table t = None -> t ∉ kmap_ctx_table.*2 ->
  (forall dw, f dw = if (a =? dw) || (b =? dw) then t else ac_titan_kmap_ctx dw) ->
  ac_titan_check_space AC_TITAN_CTX_DWORDS f = true.
Proof.
  intros Ht Hab Hid Hfree Hf.
  assert (Hk : forall dw, 0 <= dw < AC_TITAN_CTX_DWORDS -> 0 <= ac_titan_kmap_ctx dw < AC_TITAN_CTX_DWORDS)
    by exact (table_confined _ _ ctx_ok).
  assert (Hnot : forall x, ac_titan_kmap_ctx x = t -> x = t).
  { intros x. unfold ac_titan_kmap_ctx. destruct (cases kmap_ctx_table x) as [to|] eqn:E; [|done].
    cbn. intros ->. exfalso. apply Hfree. apply cases_in in E. by apply (list_elem_of_fmap_2 snd _ (x, t)). }
  assert (Htt : f t = t).
  { rewrite Hf. unfold ac_titan_kmap_ctx. rewrite Hid. by destruct (_ || _). }
  assert (Hc : confined AC_TITAN_CTX_DWORDS f).
  { intros dw Hdw. rewrite Hf. destruct (_ || _); [lia|by apply Hk]. }
  apply check_space_refused; [vm_compute; intuition discriminate|intros dw Hdw; by apply Hc|].
  intros dw Hdw [Hout|(x & Hlt & (Hx0 & Heq & Hmin) & Hmx & Hmd)]; [pose proof (Hc dw Hdw); lia|].
  destruct (decide (f dw = t)) as [Hdt|Hdt].
  - (* the slot itself is the first to land there *)
    rewrite Hdt in *. destruct (Z.lt_trichotomy x t) as [|[->|]]; [|done|by apply (Hmin t); [lia|]].
    assert (x = t); [|lia]. apply Hnot. rewrite Hf in Heq.
    by rewrite (proj2 (Z.eqb_neq a x)), (proj2 (Z.eqb_neq b x)) in Heq by lia.
  - rewrite !Hf in *. destruct (_ || _) eqn:Ed in Hdt; [done|].
    rewrite Ed in *. destruct (_ || _) eqn:Ex in Heq; [congruence|]. rewrite Ex in *.
    assert (x = dw); [|lia]. apply (table_injective _ _ ctx_ok); [lia..|done|done|done].
Qed.
