(* ===== verification/TitanMain.v ===== *)
(** TITAN's register map: what its validator accepts, that the tables the driver ships are
    accepted at every level, what an active map guarantees, and the override syntax. *)

From Stdlib Require Import Ascii String.
From S2P Require Import Prelude CText TitanMap TitanProofs.
Local Open Scope string_scope.
Local Open Scope list_scope.
Open Scope Z_scope.

(** An environment in which one variable is set. *)
Definition only (name value : string) : environment :=
  fun v => if String.eqb v name then Some value else None.

(** C28: the validator accepts a space exactly when every register stays inside it and the
    first register to land where a moved one lands is that register itself or one that
    does not move; so two moved registers it lets share a slot both lie above that slot,
    which is one the table leaves alone. *)
Theorem validator_exact n remap :
  0 <= n < W16 -> (forall dw, 0 <= dw < n -> 0 <= remap dw) ->
  (ac_titan_check_space n remap = true <->
     confined n remap
     /\ forall dw x, 0 <= dw < n -> remap dw <> dw -> first_source remap (remap dw) x ->
          x = dw \/ remap x = x)
  /\ (ac_titan_check_space n remap = true ->
      forall a b, 0 <= a < b -> b < n -> remap a <> a -> remap b <> b -> remap a = remap b ->
        remap a < a /\ remap (remap a) = remap a).
Proof.
  intros Hn H0.
  assert (Hiff : ac_titan_check_space n remap = true <->
     confined n remap
     /\ forall dw x, 0 <= dw < n -> remap dw <> dw -> first_source remap (remap dw) x ->
          x = dw \/ remap x = x).
  { rewrite check_space_refused by done. split.
    - intros Hr. split; [apply check_space_confined; [done..|]; by apply check_space_refused|].
      intros dw x Hdw Hm Hf. destruct (decide (x = dw)); [by left|].
      destruct (decide (remap x = x)); [by right|]. exfalso. apply (Hr dw Hdw). right. exists x.
      destruct Hf as (Hx0 & Heq & Hmin). split; [|done].
      destruct (Z.lt_trichotomy x dw) as [|[|]]; [done|done|]. exfalso. apply (Hmin dw); [lia|done].
    - intros [Hc Hx] dw Hdw [Hout|(x & Hlt & Hf & Hmx & Hmd)]; [pose proof (Hc dw Hdw); lia|].
      destruct (Hx dw x Hdw Hmd Hf); [lia|done]. }
  split; [done|]. intros Hacc a b Hab Hb Hma Hmb Heq.
  destruct (proj1 Hiff Hacc) as [Hc Hx].
  destruct (first_source_exists remap (remap a) a) as (x & Hf); [lia|done|].
  pose proof Hf as (Hx0 & Hxa & Hmin).
  assert (Hxle : x <= a) by (destruct (Z.le_gt_cases x a); [done|exfalso; apply (Hmin a); [lia|done]]).
  destruct (Hx b x) as [->|Hid]; [lia|done|by rewrite <- Heq|lia|].
  rewrite <- Hxa, Hid. split; [|done]. destruct (decide (x = a)) as [->|]; [done|lia].
Qed.

Lemma validator_exact_witness :
  ac_titan_check_space 4 (fun dw => if dw <? 2 then 1 - dw else dw) = true.
Proof.
  apply (validator_exact 4 (fun dw => if dw <? 2 then 1 - dw else dw)).
  - unfold W16. lia.
  - intros dw Hdw. case_cmp; lia.
  - split; [intros dw Hdw; case_cmp; lia|].
    intros dw x Hdw Hm (Hx0 & Heq & _). left. revert Hm Heq. repeat case_cmp; lia.
Defined.

(** C29: with no override set, whichever tables RADV_XCLIPSE_KMAP selects, every level above
    zero is activated: the validator accepts the kernel's map and each grade of the
    hand-recovered one, and no two moved registers of a space share a slot. *)
Theorem default_maps_accepted getenv m level :
  env_nonempty (getenv "RADV_XCLIPSE_MAPOVR") = None -> slots_default getenv -> 0 < level ->
  let m' := ac_titan_regmap_set_level getenv m level in
  regmap_active m' = true /\ regmap_level m' = level
  /\ moves_injectively AC_TITAN_CTX_DWORDS (ac_titan_ctx_dw getenv m')
  /\ moves_injectively AC_TITAN_SH_DWORDS (ac_titan_sh_dw getenv m').
Proof.
  intros Ho Hs Hl.
  assert (He : mapovr (ac_titan_mapovr_parse getenv m) = [])
    by (unfold ac_titan_mapovr_parse; cbn [mapovr]; by rewrite Ho).
  cbv zeta. erewrite set_level_accepted; [|done|done|].
  - cbn [regmap_active regmap_level]. split_and!; [done|done|by apply ctx_dw_ok|apply sh_dw_ok].
  - match goal with |- context [ac_titan_ctx_dw _ ?m1] => destruct (ctx_dw_ok getenv m1) as [Hc Hi]; [done|done|] end.
    apply check_space_accepts; [vm_compute; intuition discriminate| |done|done]. intros dw Hdw. by apply Hc.
Qed.

Lemma default_maps_accepted_witness :
  regmap_active (ac_titan_regmap_set_level (only "RADV_XCLIPSE_KMAP" "0") regmap_init 10) = true.
Proof. apply (default_maps_accepted (only "RADV_XCLIPSE_KMAP" "0") regmap_init 10); [done|done|lia]. Defined.

(** Whatever the environment says, setting a level leaves a map that keeps every context,
    SH and uconfig register inside its space; when the table is refused, or the level is
    zero, the map is the identity. *)
Theorem active_map_confined getenv m level :
  let m' := ac_titan_regmap_set_level getenv m level in
  (forall base len dw,
     (base, len) ∈ [(SI_CONTEXT_REG_OFFSET, AC_TITAN_CTX_DWORDS); (SI_SH_REG_OFFSET, AC_TITAN_SH_DWORDS);
                    (CIK_UCONFIG_REG_OFFSET, (CIK_UCONFIG_REG_END - CIK_UCONFIG_REG_OFFSET) / 4)] ->
     0 <= dw < len -> 0 <= (ac_titan_remap_dw getenv m' base dw).1 < len)
  /\ (regmap_active m' = false -> forall base dw, (ac_titan_remap_dw getenv m' base dw).1 = dw).
Proof.
  cbv zeta. set (m' := ac_titan_regmap_set_level getenv m level). split.
  2: { intros Hoff base dw. unfold ac_titan_remap_dw. by rewrite Hoff. }
  intros base len dw Hb Hdw. unfold ac_titan_remap_dw.
  destruct (regmap_active m') eqn:Hact; cbn [negb fst]; [|done].
  rewrite !elem_of_cons in Hb. destruct Hb as [[= -> ->]|[[= -> ->]|[[= -> ->]|[]%elem_of_nil]]]; cbn [Z.eqb Pos.eqb SI_CONTEXT_REG_OFFSET SI_SH_REG_OFFSET CIK_UCONFIG_REG_OFFSET andb].
  - by apply active_ctx_confined.
  - by apply sh_dw_ok.
  - destruct (3 <=? _); [|done].
    refine (table_confined _ _ (table_ok_mono _ _ _ _ kmap_ucfg_ok) dw Hdw). vm_compute. discriminate.
Qed.

(** Overrides written as "src:dst,src:dst,..." in hexadecimal are read back as they
    are, up to the sixteen the arrays hold. *)
Theorem mapovr_roundtrip l m :
  Forall (fun p => 0 <= p.1 <= 0x3ff /\ 0 <= p.2 <= 0x3ff) l ->
  mapovr (ac_titan_mapovr_parse (only "RADV_XCLIPSE_MAPOVR" (print_mapovr l)) m)
  = take AC_TITAN_MAPOVR_MAX l.
Proof.
  intros Hl. unfold ac_titan_mapovr_parse, only. cbn [mapovr].
  rewrite String.eqb_refl. destruct (print_mapovr l) eqn:E; cbn [env_nonempty].
  - by destruct l as [|[] ?].
  - rewrite <- E. by apply mapovr_entries_print.
Qed.

Lemma mapovr_roundtrip_witness :
  mapovr (ac_titan_mapovr_parse
            (only "RADV_XCLIPSE_MAPOVR" (print_mapovr [(0x205, 0x204); (0x2fa, 0x10d)])) regmap_init)
  = [(0x205, 0x204); (0x2fa, 0x10d)].
Proof. apply (mapovr_roundtrip [(0x205, 0x204); (0x2fa, 0x10d)]). repeat constructor; cbn; lia. Defined.

(** C39: the validator misses the collision it exists for when the slot comes first: two
    overrides that move different registers onto one slot below both, a slot the kernel's
    table neither moves nor fills, are accepted and both applied. *)
Theorem override_collision_accepted getenv m level a b t :
  0 < level -> 1 <= ac_titan_kmap_level getenv ->
  mapovr (ac_titan_mapovr_parse getenv m) = [(a, t); (b, t)] ->
  0 <= t < a -> a < b < AC_TITAN_CTX_DWORDS ->
  cases kmap_ctx_table t = None -> t ∉ kmap_ctx_table.*2 ->
  let m' := ac_titan_regmap_set_level getenv m level in
  regmap_active m' = true /\ ac_titan_ctx_dw getenv m' a = t /\ ac_titan_ctx_dw getenv m' b = t.
Proof.
  intros Hl Hk Ho Ht Hab Hid Hfree. cbv zeta.
  erewrite set_level_accepted; [|exact Hl|reflexivity|].
  - unfold ac_titan_ctx_dw. cbn [regmap_active mapovr]. rewrite Ho. cbn [cases].
    rewrite Z.eqb_refl, (proj2 (Z.eqb_neq a b)), Z.eqb_refl by lia. done.
  - apply (override_pair_accepted _ a b t); [done..|]. intros dw.
    unfold ac_titan_ctx_dw. cbn [mapovr]. rewrite Ho, (proj2 (Z.leb_le 1 _) Hk). cbn [cases].
    by destruct (a =? dw), (b =? dw).
Qed.

Lemma override_collision_accepted_witness :
  regmap_active (ac_titan_regmap_set_level (only "RADV_XCLIPSE_MAPOVR" "300:010,301:010") regmap_init 10)
  = true.
Proof.
  apply (override_collision_accepted (only "RADV_XCLIPSE_MAPOVR" "300:010,301:010") regmap_init 10
           0x300 0x301 0x010).
  - lia.
  - vm_compute. discriminate.
  - vm_compute. reflexivity.
  - lia.
  - vm_compute. split; reflexivity.
  - vm_compute. reflexivity.
  - apply (bool_decide_eq_true_1 (0x010 ∉ kmap_ctx_table.*2)). vm_compute. reflexivity.
Defined.
