(* ===== verification/RegPm4.v ===== *)
(** The register packet builder of src/amd/common/ac_pm4.c (struct ac_pm4_state of
    ac_pm4.h), which merges register writes into SET packets of the kind the chip is
    fastest with, and the reader of those packets in src/amd/common/ac_parse_ib.c. *)

From S2P Require Import Prelude Pm4 CText TitanMap.
Open Scope Z_scope.

(** * Faults *)

Inductive fault := AssertionFailed | OutOfBounds | Unreachable | NoFuel.

Inductive result (A : Type) := Ok (a : A) | Fault (f : fault).
#[global] Arguments Ok {A} a.
#[global] Arguments Fault {A} f.

#[global] Instance result_bind : MBind result :=
  fun A B k m => match m with Ok a => k a | Fault f => Fault f end.

Notation "'need!' b ;; k" := (if b then k else Fault AssertionFailed)
  (at level 100, b at level 99, k at level 200, right associativity) : radv_scope.

(** * Opcodes (sid.h) *)

Definition PKT3_CONTEXT_CONTROL : Z := 0x28.
Definition PKT3_SET_CONFIG_REG : Z := 0x68.
Definition PKT3_SET_CONTEXT_REG : Z := 0x69.
Definition PKT3_SET_UCONFIG_REG : Z := 0x79.
Definition PKT3_SET_UCONFIG_REG_INDEX : Z := 0x7A.
Definition PKT3_SET_SH_REG_INDEX : Z := 0x9B.
Definition PKT3_SET_CONTEXT_REG_PAIRS : Z := 0xB8.
Definition PKT3_SET_CONTEXT_REG_PAIRS_PACKED : Z := 0xB9.
Definition PKT3_SET_SH_REG_PAIRS : Z := 0xBA.
Definition PKT3_SET_SH_REG_PAIRS_PACKED : Z := 0xBB.
Definition PKT3_SET_SH_REG_PAIRS_PACKED_N : Z := 0xBD.
Definition PKT3_SET_UCONFIG_REG_PAIRS : Z := 0xBE.

Definition PKT3_RESET_FILTER_CAM_S (b : bool) : Z := S_field 2 1 (b2z b).
Definition PKT3_IT_OPCODE_C : Z := 0xFFFF00FF.
Definition PKT3_IT_OPCODE_S (op : Z) : Z := S_field 8 8 op.

Definition opcode_is_pairs (opcode : Z) : bool :=
  (opcode =? PKT3_SET_CONTEXT_REG_PAIRS) || (opcode =? PKT3_SET_SH_REG_PAIRS)
  || (opcode =? PKT3_SET_UCONFIG_REG_PAIRS).

Definition opcode_is_pairs_packed (opcode : Z) : bool :=
  (opcode =? PKT3_SET_CONTEXT_REG_PAIRS_PACKED) || (opcode =? PKT3_SET_SH_REG_PAIRS_PACKED)
  || (opcode =? PKT3_SET_SH_REG_PAIRS_PACKED_N).

(** * State *)

(** The fields of struct radeon_info the builder reads. *)
Record pm4_info := {
  pi_gfx_level : amd_gfx_level;
  has_set_context_pairs : bool;
  has_set_context_pairs_packed : bool;
  has_set_sh_pairs : bool;
  has_set_sh_pairs_packed : bool;
  has_set_uconfig_pairs : bool
}.

Record ac_pm4_state := mk_pm4 {
  info : pm4_info;
  last_reg : Z;                            (* uint16_t, in dwords *)
  last_pm4 : Z;                            (* uint16_t *)
  ndw : Z;                                 (* uint16_t *)
  last_opcode : Z;                         (* uint8_t *)
  last_idx : Z;                            (* uint8_t *)
  is_compute_queue : bool;
  packed_is_padded : bool;
  max_dw : Z;                              (* uint16_t *)
  debug_sqtt : bool;
  spi_shader_pgm_lo_reg : Z;
  pm4 : list Z
}.

Definition with_last_reg r idx st :=
  mk_pm4 (info st) (r mod W16) (last_pm4 st) (ndw st) (last_opcode st) (idx mod 256)
    (is_compute_queue st) (packed_is_padded st) (max_dw st) (debug_sqtt st)
    (spi_shader_pgm_lo_reg st) (pm4 st).
Definition with_ndw n st :=
  mk_pm4 (info st) (last_reg st) (last_pm4 st) (n mod W16) (last_opcode st) (last_idx st)
    (is_compute_queue st) (packed_is_padded st) (max_dw st) (debug_sqtt st)
    (spi_shader_pgm_lo_reg st) (pm4 st).
Definition with_opcode op st :=
  mk_pm4 (info st) (last_reg st) (last_pm4 st) (ndw st) op (last_idx st)
    (is_compute_queue st) (packed_is_padded st) (max_dw st) (debug_sqtt st)
    (spi_shader_pgm_lo_reg st) (pm4 st).
Definition with_last_pm4 n st :=
  mk_pm4 (info st) (last_reg st) (n mod W16) (ndw st) (last_opcode st) (last_idx st)
    (is_compute_queue st) (packed_is_padded st) (max_dw st) (debug_sqtt st)
    (spi_shader_pgm_lo_reg st) (pm4 st).
Definition with_padded b st :=
  mk_pm4 (info st) (last_reg st) (last_pm4 st) (ndw st) (last_opcode st) (last_idx st)
    (is_compute_queue st) b (max_dw st) (debug_sqtt st) (spi_shader_pgm_lo_reg st) (pm4 st).
Definition with_pgm_lo r st :=
  mk_pm4 (info st) (last_reg st) (last_pm4 st) (ndw st) (last_opcode st) (last_idx st)
    (is_compute_queue st) (packed_is_padded st) (max_dw st) (debug_sqtt st) r (pm4 st).
Definition with_pm4 l st :=
  mk_pm4 (info st) (last_reg st) (last_pm4 st) (ndw st) (last_opcode st) (last_idx st)
    (is_compute_queue st) (packed_is_padded st) (max_dw st) (debug_sqtt st)
    (spi_shader_pgm_lo_reg st) l.

(** [pm4[i]] as a value and as a place. *)
Definition peek (st : ac_pm4_state) (i : Z) : result Z :=
  if i <? 0 then Fault OutOfBounds
  else match pm4 st !! Z.to_nat i with Some v => Ok v | None => Fault OutOfBounds end.
Definition poke (i v : Z) (st : ac_pm4_state) : result ac_pm4_state :=
  if (i <? 0) || (Z.of_nat (length (pm4 st)) <=? i) then Fault OutOfBounds
  else Ok (with_pm4 (<[Z.to_nat i := v]> (pm4 st)) st).
(** [pm4[ndw++] = v]. *)
Definition push (v : Z) (st : ac_pm4_state) : result ac_pm4_state :=
  let! st := poke (ndw st) v st ;; Ok (with_ndw (ndw st + 1) st).

(** * Packed packets *)

Definition packed_next_is_reg_offset_pair (st : ac_pm4_state) : bool :=
  Z.rem (ndw st - last_pm4 st) 3 =? 2.
Definition packed_next_is_reg_value1 (st : ac_pm4_state) : bool :=
  Z.rem (ndw st - last_pm4 st) 3 =? 1.
Definition packed_prev_is_reg_value0 (st : ac_pm4_state) : bool := packed_next_is_reg_value1 st.

Definition get_packed_reg_dw_offsetN (st : ac_pm4_state) (index : Z) : result Z :=
  let i := last_pm4 st + 2 + index / 2 * 3 in
  need! i <? ndw st ;;
  let! w := peek st i ;;
  Ok (Z.land (Z.shiftr w (index mod 2 * 16)) 0xffff).

Definition get_packed_reg_valueN_idx (st : ac_pm4_state) (index : Z) : result Z :=
  let i := last_pm4 st + 2 + index / 2 * 3 + 1 + index mod 2 in
  need! i <? ndw st ;;
  Ok i.

Definition get_packed_reg_valueN (st : ac_pm4_state) (index : Z) : result Z :=
  let! i := get_packed_reg_valueN_idx st index ;; peek st i.

Definition get_packed_reg_count (st : ac_pm4_state) : result Z :=
  let body_size := ndw st - last_pm4 st - 2 in
  need! (0 <? body_size) && (Z.rem body_size 3 =? 0) ;;
  Ok (body_size / 3 * 2).

Definition pairs_packed_opcode_to_regular (opcode : Z) : result Z :=
  if opcode =? PKT3_SET_CONTEXT_REG_PAIRS_PACKED then Ok PKT3_SET_CONTEXT_REG
  else if opcode =? PKT3_SET_SH_REG_PAIRS_PACKED then Ok PKT3_SET_SH_REG
  else Fault Unreachable.

Definition regular_opcode_to_pairs (st : ac_pm4_state) (opcode : Z) : Z :=
  let i := info st in
  if opcode =? PKT3_SET_CONTEXT_REG then
    if has_set_context_pairs_packed i then PKT3_SET_CONTEXT_REG_PAIRS_PACKED
    else if has_set_context_pairs i then PKT3_SET_CONTEXT_REG_PAIRS else opcode
  else if opcode =? PKT3_SET_SH_REG then
    if has_set_sh_pairs_packed i then PKT3_SET_SH_REG_PAIRS_PACKED
    else if has_set_sh_pairs i then PKT3_SET_SH_REG_PAIRS else opcode
  else if opcode =? PKT3_SET_UCONFIG_REG then
    if has_set_uconfig_pairs i then PKT3_SET_UCONFIG_REG_PAIRS else opcode
  else opcode.

(** [for (i = 1; i < reg_count; i++)]: every offset is [i] above the first. *)
Fixpoint all_consecutive_from (st : ac_pm4_state) (offset0 : Z) (rounds : nat) (i : Z) : result bool :=
  match rounds with
  | O => Ok true
  | S r =>
      let! o := get_packed_reg_dw_offsetN st i ;;
      if negb (offset0 =? u32 (o - i)) then Ok false else all_consecutive_from st offset0 r (i + 1)
  end.

(** [for (i = 0; i < reg_count; i++) pm4[last_pm4 + 2 + i] = get_packed_reg_valueN(i)]. *)
Fixpoint unpack_from (rounds : nat) (i : Z) (st : ac_pm4_state) : result ac_pm4_state :=
  match rounds with
  | O => Ok st
  | S r =>
      let! v := get_packed_reg_valueN st i ;;
      let! st := poke (last_pm4 st + 2 + i) v st ;;
      unpack_from r (i + 1) st
  end.

Section Builder.
(** Whether the generated name of a register of the chip contains SPI_SHADER_PGM_LO_. *)
Variable names_pgm_lo : Z -> bool.

(** The first register among those a loop visits that has such a name. *)
Fixpoint find_pgm_lo (regs : list (result Z)) : result (option Z) :=
  match regs with
  | [] => Ok None
  | r :: regs' =>
      let! reg := r ;;
      if names_pgm_lo reg then Ok (Some reg) else find_pgm_lo regs'
  end.

Definition record_pgm_lo (st : ac_pm4_state) (regs : list (result Z)) : result ac_pm4_state :=
  let! found := find_pgm_lo regs ;;
  Ok (match found with Some reg => with_pgm_lo reg st | None => st end).

(** The first statement of ac_pm4_finalize. *)
Definition finalize_packed (st : ac_pm4_state) : result ac_pm4_state :=
  let! total := get_packed_reg_count st ;;
  let! offset0 := get_packed_reg_dw_offsetN st 0 ;;
  let reg_count := if packed_is_padded st then total - 1 else total in
  let! all_consecutive := all_consecutive_from st offset0 (Z.to_nat (reg_count - 1)) 1 ;;
  if (all_consecutive : bool) then
    need! ndw st - last_pm4 st =? 2 + 3 * (reg_count + b2z (packed_is_padded st)) / 2 ;;
    let! opcode := pairs_packed_opcode_to_regular (last_opcode st) ;;
    let! st := poke (last_pm4 st) (PKT3 opcode reg_count 0) st ;;
    let! st := poke (last_pm4 st + 1) offset0 st ;;
    let! st := unpack_from (Z.to_nat reg_count) 0 st ;;
    Ok (with_opcode PKT3_SET_SH_REG (with_ndw (last_pm4 st + 2 + reg_count) st))
  else
    let is_sh := (last_opcode st =? PKT3_SET_SH_REG_PAIRS_PACKED)
                 || (last_opcode st =? PKT3_SET_SH_REG_PAIRS_PACKED_N) in
    let reg_count := if debug_sqtt st && is_sh && packed_is_padded st then reg_count + 1 else reg_count in
    let! st :=
      (if debug_sqtt st && is_sh then
         record_pgm_lo st
           ((fun i => let! o := get_packed_reg_dw_offsetN st i ;; Ok (SI_SH_REG_OFFSET + o * 4))
              <$> rev (seqZ 0 reg_count))
       else Ok st) ;;
    if (last_opcode st =? PKT3_SET_SH_REG_PAIRS_PACKED) && (reg_count <=? 14) then
      let! h := peek st (last_pm4 st) ;;
      poke (last_pm4 st)
        (Z.lor (Z.land h PKT3_IT_OPCODE_C) (PKT3_IT_OPCODE_S PKT3_SET_SH_REG_PAIRS_PACKED_N)) st
    else Ok st.

Definition finalize_sqtt_regs (st : ac_pm4_state) : result ac_pm4_state :=
  let! h := peek st (last_pm4 st) ;;
  let! o := peek st (last_pm4 st + 1) ;;
  record_pgm_lo st ((fun i => Ok (u32 (SI_SH_REG_OFFSET + o * 4 + i * 4))) <$> seqZ 0 (PKT_COUNT_G h)).

Definition finalize_sqtt_pairs (st : ac_pm4_state) : result ac_pm4_state :=
  let! h := peek st (last_pm4 st) ;;
  record_pgm_lo st
    ((fun i => let! o := peek st (last_pm4 st + 1 + 2 * i) ;; Ok (u32 (SI_SH_REG_OFFSET + o * 4)))
       <$> seqZ 0 ((PKT_COUNT_G h + 1) / 2)).

Definition ac_pm4_finalize (st : ac_pm4_state) : result ac_pm4_state :=
  let! st := (if opcode_is_pairs_packed (last_opcode st) then finalize_packed st else Ok st) ;;
  let! st := (if debug_sqtt st && (last_opcode st =? PKT3_SET_SH_REG)
              then finalize_sqtt_regs st else Ok st) ;;
  if debug_sqtt st && (last_opcode st =? PKT3_SET_SH_REG_PAIRS) then finalize_sqtt_pairs st else Ok st.

(** * Recording *)

Definition ac_pm4_cmd_begin (opcode : Z) (st : ac_pm4_state) : result ac_pm4_state :=
  let! st := ac_pm4_finalize st ;;
  need! negb (max_dw st =? 0) ;;
  need! ndw st <? max_dw st ;;
  need! opcode <=? 254 ;;
  Ok (with_padded false (with_ndw (ndw st + 1) (with_last_pm4 (ndw st) (with_opcode opcode st)))).

Definition ac_pm4_cmd_add (dw : Z) (st : ac_pm4_state) : result ac_pm4_state :=
  need! negb (max_dw st =? 0) ;;
  need! ndw st <? max_dw st ;;
  let! st := push dw st ;;
  Ok (with_opcode 255 st).

(** Several ac_pm4_cmd_add in a row. *)
Fixpoint cmd_add_all (dws : list Z) (st : ac_pm4_state) : result ac_pm4_state :=
  match dws with
  | [] => Ok st
  | dw :: dws' => let! st := ac_pm4_cmd_add dw st ;; cmd_add_all dws' st
  end.

(** The trace registers of GFX11 whose writes must bypass the filter CAM. *)
Definition sqtt_cam_regs : list Z := [0x367A4; 0x367A0; 0x367B4; 0x367B8; 0x367B0].

Definition need_reset_filter_cam (st : ac_pm4_state) : bool :=
  if negb (is_compute_queue st)
     && (opcode_is_pairs (last_opcode st) || opcode_is_pairs_packed (last_opcode st))
  then true
  else gfx_ge (pi_gfx_level (info st)) GFX11 && negb (is_compute_queue st)
       && existsb (Z.eqb (last_reg st * 4 + CIK_UCONFIG_REG_OFFSET)) sqtt_cam_regs.

(** [set_reg] is the call of ac_pm4_set_reg_custom that pads an odd packed packet. *)
Definition cmd_end_with (set_reg : Z -> Z -> Z -> Z -> ac_pm4_state -> result ac_pm4_state)
    (predicate : bool) (st : ac_pm4_state) : result ac_pm4_state :=
  let count := u32 (ndw st - last_pm4 st - 2) in
  let! st := poke (last_pm4 st)
               (Z.lor (PKT3 (last_opcode st) count (b2z predicate))
                      (PKT3_RESET_FILTER_CAM_S (need_reset_filter_cam st))) st ;;
  if opcode_is_pairs_packed (last_opcode st) then
    let! st :=
      (if packed_prev_is_reg_value0 st then
         let! o := get_packed_reg_dw_offsetN st 0 ;;
         let! v := get_packed_reg_valueN st 0 ;;
         let! st := set_reg (o * 4) v (last_opcode st) 0 st ;;
         Ok (with_padded true st)
       else Ok st) ;;
    let! n := get_packed_reg_count st ;;
    poke (last_pm4 st + 1) n st
  else Ok st.

(** Open the packet the register goes to, if it is not open yet. [reg] is in dwords. *)
Definition open_packet (reg opcode idx : Z) (st : ac_pm4_state) : result ac_pm4_state :=
  if opcode_is_pairs_packed opcode then
    need! idx =? 0 ;;
    if negb (opcode =? last_opcode st) then
      let! st := ac_pm4_cmd_begin opcode st ;; Ok (with_ndw (ndw st + 1) st)
    else Ok st
  else if opcode_is_pairs opcode then
    need! idx =? 0 ;;
    let! st := (if negb (opcode =? last_opcode st) then ac_pm4_cmd_begin opcode st else Ok st) ;;
    push reg st
  else if negb (opcode =? last_opcode st) || negb (reg =? last_reg st + 1) || negb (idx =? last_idx st) then
    let! st := ac_pm4_cmd_begin opcode st ;;
    push (Z.lor reg (u32 (Z.shiftl idx 28))) st
  else Ok st.

(** In a packed packet: drop the padding and write the register's offset. *)
Definition place_packed_offset (reg : Z) (st : ac_pm4_state) : result ac_pm4_state :=
  let st := if packed_is_padded st then with_ndw (ndw st - 1) (with_padded false st) else st in
  if packed_next_is_reg_offset_pair st then push reg st
  else if packed_next_is_reg_value1 st then
    let! w := peek st (ndw st - 2) ;;
    poke (ndw st - 2) (Z.lor (Z.land w 0xffff) (u32 (Z.shiftl reg 16))) st
  else Ok st.

(** [reg] in bytes from the start of the space. *)
Fixpoint set_reg_fuel (fuel : nat) (reg val opcode idx : Z) (st : ac_pm4_state) : result ac_pm4_state :=
  match fuel with
  | O => Fault NoFuel
  | S fuel' =>
      let reg := reg / 4 in
      need! negb (max_dw st =? 0) ;;
      need! ndw st + 2 <=? max_dw st ;;
      let! st := open_packet reg opcode idx st ;;
      need! reg <=? 0xffff ;;
      let st := with_last_reg reg idx st in
      let! st := (if opcode_is_pairs_packed opcode then place_packed_offset reg st else Ok st) ;;
      let! st := push val st ;;
      cmd_end_with (set_reg_fuel fuel') false st
  end.

(** The padding write does not pad again: two levels of calls. *)
Definition ac_pm4_set_reg_custom (reg val opcode idx : Z) (st : ac_pm4_state) : result ac_pm4_state :=
  set_reg_fuel 2 reg val opcode idx st.

Definition ac_pm4_cmd_end (predicate : bool) (st : ac_pm4_state) : result ac_pm4_state :=
  cmd_end_with (set_reg_fuel 1) predicate st.

(** * Registers by their address *)

Definition is_privileged_reg (st : ac_pm4_state) (reg : Z) : bool :=
  let g := pi_gfx_level (info st) in
  if gfx_ge g GFX10 && gfx_le g GFX10_3
  then existsb (Z.eqb reg) [0x8D04; 0x8D00; 0x8D14; 0x8D18; 0x8D1C]
  else if gfx_ge g GFX6 && gfx_le g GFX8 then reg =? 0x9100 else false.

Definition COPY_DATA_PERF : Z := 4.
Definition COPY_DATA_IMM : Z := 5.
Definition COPY_DATA_SRC_SEL (x : Z) : Z := Z.land x 0xf.
Definition COPY_DATA_DST_SEL (x : Z) : Z := Z.shiftl (Z.land x 0xf) 8.

Definition privileged_packet (reg val : Z) : list Z :=
  [PKT3 PKT3_COPY_DATA 4 0; Z.lor (COPY_DATA_SRC_SEL COPY_DATA_IMM) (COPY_DATA_DST_SEL COPY_DATA_PERF);
   val; 0; reg / 4; 0].

Definition ac_pm4_set_privileged_reg (reg val : Z) (st : ac_pm4_state) : result ac_pm4_state :=
  need! (SI_CONFIG_REG_OFFSET <=? reg) && (reg <? SI_CONFIG_REG_END) ;;
  cmd_add_all (privileged_packet reg val) st.

(** The space of a register: its opcode and its first address. *)
Definition reg_space (reg : Z) : option (Z * Z) :=
  if (SI_CONFIG_REG_OFFSET <=? reg) && (reg <? SI_CONFIG_REG_END)
  then Some (PKT3_SET_CONFIG_REG, SI_CONFIG_REG_OFFSET)
  else if (SI_SH_REG_OFFSET <=? reg) && (reg <? SI_SH_REG_END)
  then Some (PKT3_SET_SH_REG, SI_SH_REG_OFFSET)
  else if (SI_CONTEXT_REG_OFFSET <=? reg) && (reg <? SI_CONTEXT_REG_END)
  then Some (PKT3_SET_CONTEXT_REG, SI_CONTEXT_REG_OFFSET)
  else if (CIK_UCONFIG_REG_OFFSET <=? reg) && (reg <? CIK_UCONFIG_REG_END)
  then Some (PKT3_SET_UCONFIG_REG, CIK_UCONFIG_REG_OFFSET)
  else None.

Variable getenv : environment.

(** TITAN's map over the offset in a space; context and SH registers only. *)
Definition premap (m : regmap) (opcode reg : Z) : Z * regmap :=
  if regmap_active m && ac_titan_preamble_remap getenv then
    if opcode =? PKT3_SET_CONTEXT_REG then
      let '(dw, m') := ac_titan_remap_dw getenv m SI_CONTEXT_REG_OFFSET (reg / 4) in (dw * 4, m')
    else if opcode =? PKT3_SET_SH_REG then
      let '(dw, m') := ac_titan_remap_dw getenv m SI_SH_REG_OFFSET (reg / 4) in (dw * 4, m')
    else (reg, m)
  else (reg, m).

Definition ac_pm4_set_reg (m : regmap) (reg val : Z) (st : ac_pm4_state) : result (ac_pm4_state * regmap) :=
  match reg_space reg with
  | None => Ok (st, m)
  | Some (opcode, base) =>
      let '(off, m') := premap m opcode (reg - base) in
      let! st :=
        (if is_privileged_reg st reg then ac_pm4_set_privileged_reg reg val st
         else ac_pm4_set_reg_custom off val (regular_opcode_to_pairs st opcode) 0 st) ;;
      Ok (st, m')
  end.

(** * Life cycle *)

Definition ac_pm4_clear_state (i : pm4_info) (sqtt compute : bool) (st : ac_pm4_state) : ac_pm4_state :=
  mk_pm4 i (last_reg st) (last_pm4 st) 0 (last_opcode st) (last_idx st) compute
    (packed_is_padded st) (if max_dw st =? 0 then 64 else max_dw st) sqtt
    (spi_shader_pgm_lo_reg st) (pm4 st).

(** calloc gives zeroes; [None] when it fails. *)
Definition ac_pm4_create_sized (alloc : bool) (i : pm4_info) (sqtt : bool) (dw : Z) (compute : bool)
  : option ac_pm4_state :=
  let dw := Z.max dw 64 in
  if alloc then
    Some (ac_pm4_clear_state i sqtt compute
            (mk_pm4 i 0 0 0 0 0 false false (dw mod W16) false 0 (replicate (Z.to_nat dw) 0)))
  else None.

(** The dwords ac_pm4_emit_commands copies to the stream. *)
Definition ac_pm4_emit_commands (st : ac_pm4_state) : list Z := take (Z.to_nat (ndw st)) (pm4 st).
End Builder.

(** * Reading a stream back (ac_parse_ib.c)

    What the parser prints is a list of register writes; a packet of another kind is
    kept whole. *)

Inductive ib_event := Write (reg value : Z) | Packet (dws : list Z).

Section Parser.
Variable ib : list Z.

Definition ac_ib_get (cur : nat) : Z * nat := (default 0 (ib !! cur), S cur).

Fixpoint parse_values (rounds : nat) (reg : Z) (cur : nat) : list ib_event * nat :=
  match rounds with
  | O => ([], cur)
  | S r =>
      let '(v, cur) := ac_ib_get cur in
      let '(evs, cur) := parse_values r (reg + 4) cur in (Write reg v :: evs, cur)
  end.

Definition ac_parse_set_reg_packet (count base : Z) (cur : nat) : list ib_event * nat :=
  let '(reg_dw, cur) := ac_ib_get cur in
  parse_values (Z.to_nat count) (Z.land reg_dw 0xFFFF * 4 + base) cur.

Fixpoint parse_pairs (rounds : nat) (base : Z) (cur : nat) : list ib_event * nat :=
  match rounds with
  | O => ([], cur)
  | S r =>
      let '(o, cur) := ac_ib_get cur in
      let '(v, cur) := ac_ib_get cur in
      let '(evs, cur) := parse_pairs r base cur in (Write (u32 (u32 (o * 4) + base)) v :: evs, cur)
  end.

Definition ac_parse_set_reg_pairs_packet (count base : Z) (cur : nat) : list ib_event * nat :=
  parse_pairs (Z.to_nat ((count + 1) / 2)) base cur.

Fixpoint parse_packed (rounds : nat) (i base off0 off1 : Z) (cur : nat) : list ib_event * nat :=
  match rounds with
  | O => ([], cur)
  | S r =>
      let '(w, cur) := ac_ib_get cur in
      if i mod 3 =? 0 then
        parse_packed r (i + 1) base (Z.land w 0xffff * 4 + base) (Z.shiftr w 16 * 4 + base) cur
      else
        let '(evs, cur) := parse_packed r (i + 1) base off0 off1 cur in
        (Write (if i mod 3 =? 1 then off0 else off1) w :: evs, cur)
  end.

Definition ac_parse_set_reg_pairs_packed_packet (count base : Z) (cur : nat) : list ib_event * nat :=
  let '(_, cur) := ac_ib_get cur in parse_packed (Z.to_nat count) 0 base 0 0 cur.

(** The SET packets of the switch: how each is read, and its space. *)
Definition parse_set_packet (op count : Z) (cur : nat) : option (list ib_event * nat) :=
  if op =? PKT3_SET_CONTEXT_REG then Some (ac_parse_set_reg_packet count SI_CONTEXT_REG_OFFSET cur)
  else if op =? PKT3_SET_CONFIG_REG then Some (ac_parse_set_reg_packet count SI_CONFIG_REG_OFFSET cur)
  else if (op =? PKT3_SET_UCONFIG_REG) || (op =? PKT3_SET_UCONFIG_REG_INDEX)
  then Some (ac_parse_set_reg_packet count CIK_UCONFIG_REG_OFFSET cur)
  else if (op =? PKT3_SET_SH_REG) || (op =? PKT3_SET_SH_REG_INDEX)
  then Some (ac_parse_set_reg_packet count SI_SH_REG_OFFSET cur)
  else if op =? PKT3_SET_UCONFIG_REG_PAIRS
  then Some (ac_parse_set_reg_pairs_packet count CIK_UCONFIG_REG_OFFSET cur)
  else if op =? PKT3_SET_CONTEXT_REG_PAIRS
  then Some (ac_parse_set_reg_pairs_packet count SI_CONTEXT_REG_OFFSET cur)
  else if op =? PKT3_SET_SH_REG_PAIRS
  then Some (ac_parse_set_reg_pairs_packet count SI_SH_REG_OFFSET cur)
  else if op =? PKT3_SET_CONTEXT_REG_PAIRS_PACKED
  then Some (ac_parse_set_reg_pairs_packed_packet count SI_CONTEXT_REG_OFFSET cur)
  else if (op =? PKT3_SET_SH_REG_PAIRS_PACKED) || (op =? PKT3_SET_SH_REG_PAIRS_PACKED_N)
  then Some (ac_parse_set_reg_pairs_packed_packet count SI_SH_REG_OFFSET cur)
  else None.

(** [first] is the index after the header; the cursor ends past the dwords the header
    counts. *)
Definition ac_parse_packet3 (header : Z) (first : nat) : list ib_event * nat :=
  let count := PKT_COUNT_G header in
  match parse_set_packet (PKT3_IT_OPCODE_G header) count first with
  | Some (evs, cur) => (evs, Nat.max cur (first + Z.to_nat (count + 1)))
  | None =>
      let n := if header =? PKT3_NOP_PAD then 0%nat else Z.to_nat (count + 1) in
      ([Packet (header :: take n (drop first ib))], (first + n)%nat)
  end.

Fixpoint parse_gfx_ib (fuel : nat) (cur : nat) : option (list ib_event * nat) :=
  if (length ib <=? cur)%nat then Some ([], cur)
  else match fuel with
       | O => None
       | S fuel' =>
           let '(header, cur) := ac_ib_get cur in
           let '(evs, cur) :=
             if PKT_TYPE_G header =? 3 then ac_parse_packet3 header cur else ([], cur) in
           let! (rest, cur) := parse_gfx_ib fuel' cur ;;
           Some (evs ++ rest, cur)
       end.

(** [None]: a packet ends after the end of the IB. *)
Definition ac_parse_ib_chunk : option (list ib_event) :=
  let! (evs, cur) := parse_gfx_ib (length ib) 0 ;;
  if (length ib <? cur)%nat then None else Some evs.
End Parser.
