(* ===== verification/RegPm4Spec.v ===== *)
(** What a stream of register packets means: packets as data, the dwords that encode
    them, and that the parser reads any sequence of encoded packets back. *)

From stdpp Require Import gmap.
From S2P Require Import Prelude Pm4 CText TitanMap RegPm4.
Open Scope Z_scope.

(** * Packets *)

Inductive packet :=
| PRun (op idx base : Z) (vals : list Z)       (* consecutive registers from a dword offset *)
| PPairs (op : Z) (l : list (Z * Z))           (* (offset, value) pairs *)
| PPacked (op : Z) (l : list (Z * Z))          (* packed, before padding *)
| PRaw (dws : list Z).                         (* a packet that sets no register *)

Definition regular_opcodes : list Z :=
  [PKT3_SET_CONFIG_REG; PKT3_SET_CONTEXT_REG; PKT3_SET_SH_REG; PKT3_SET_UCONFIG_REG;
   PKT3_SET_UCONFIG_REG_INDEX; PKT3_SET_SH_REG_INDEX].
Definition pairs_opcodes : list Z :=
  [PKT3_SET_CONTEXT_REG_PAIRS; PKT3_SET_SH_REG_PAIRS; PKT3_SET_UCONFIG_REG_PAIRS].
Definition packed_opcodes : list Z :=
  [PKT3_SET_CONTEXT_REG_PAIRS_PACKED; PKT3_SET_SH_REG_PAIRS_PACKED].
Definition set_opcodes : list Z :=
  regular_opcodes ++ pairs_opcodes ++ packed_opcodes ++ [PKT3_SET_SH_REG_PAIRS_PACKED_N].

(** The space an opcode writes to. *)
Definition op_base (op : Z) : Z :=
  if existsb (Z.eqb op) [PKT3_SET_CONTEXT_REG; PKT3_SET_CONTEXT_REG_PAIRS; PKT3_SET_CONTEXT_REG_PAIRS_PACKED]
  then SI_CONTEXT_REG_OFFSET
  else if op =? PKT3_SET_CONFIG_REG then SI_CONFIG_REG_OFFSET
  else if existsb (Z.eqb op) [PKT3_SET_UCONFIG_REG; PKT3_SET_UCONFIG_REG_INDEX; PKT3_SET_UCONFIG_REG_PAIRS]
  then CIK_UCONFIG_REG_OFFSET
  else SI_SH_REG_OFFSET.

(** * What a packet writes *)

Fixpoint run_writes (reg : Z) (vals : list Z) : list ib_event :=
  match vals with [] => [] | v :: vs => Write reg v :: run_writes (reg + 4) vs end.

Definition pair_write (op : Z) (p : Z * Z) : ib_event := Write (p.1 * 4 + op_base op) p.2.

(** The writes asked for. *)
Definition issued (p : packet) : list ib_event :=
  match p with
  | PRun op _ base vals => run_writes (base * 4 + op_base op) vals
  | PPairs op l | PPacked op l => pair_write op <$> l
  | PRaw dws => [Packet dws]
  end.

(** An odd packed packet repeats its first register. *)
Definition pad {A} (l : list A) : list A := if Nat.odd (length l) then take 1 l else [].

Definition padding (p : packet) : list ib_event :=
  match p with PPacked op l => pair_write op <$> pad l | _ => [] end.

Definition shown (p : packet) : list ib_event := issued p ++ padding p.

(** * Dwords *)

Definition header (op count : Z) (cam : bool) : Z :=
  Z.lor (PKT3 op count 0) (PKT3_RESET_FILTER_CAM_S cam).

Definition flat (l : list (Z * Z)) : list Z := concat ((fun p => [p.1; p.2]) <$> l).

Fixpoint pack (l : list (Z * Z)) : list Z :=
  match l with
  | (r0, v0) :: (r1, v1) :: l' => Z.lor r0 (Z.shiftl r1 16) :: v0 :: v1 :: pack l'
  | [(r0, v0)] => [r0; v0]
  | [] => []
  end.

Definition offset_ok (r : Z) : Prop := 0 <= r <= 0xffff.

Definition raw_packet (dws : list Z) : Prop :=
  exists op count pred body, dws = PKT3 op count pred :: body
    /\ 0 <= op < 0x100 /\ ~ (op ∈ set_opcodes) /\ 0 <= count < 0x3fff
    /\ length body = Z.to_nat (count + 1).

Definition encodes (p : packet) (ws : list Z) : Prop :=
  match p with
  | PRun op idx base vals =>
      exists cam, ws = header op (Z.of_nat (length vals)) cam :: Z.lor base (Z.shiftl idx 28) :: vals
        /\ op ∈ regular_opcodes /\ 0 <= idx < 16 /\ 0 <= base /\ vals <> []
        /\ base + Z.of_nat (length vals) <= 0x10000 /\ Z.of_nat (length vals) < 0x3fff
  | PPairs op l =>
      exists cam, ws = header op (2 * Z.of_nat (length l) - 1) cam :: flat l
        /\ op ∈ pairs_opcodes /\ Forall (fun q => offset_ok q.1) l /\ l <> []
        /\ 2 * Z.of_nat (length l) < 0x3fff
  | PPacked op l =>
      exists op' cam, ws = header op' (3 * Z.of_nat (length (l ++ pad l)) / 2) cam
                           :: Z.of_nat (length (l ++ pad l)) :: pack (l ++ pad l)
        /\ op ∈ packed_opcodes
        /\ (op' = op \/ op = PKT3_SET_SH_REG_PAIRS_PACKED /\ op' = PKT3_SET_SH_REG_PAIRS_PACKED_N)
        /\ Forall (fun q => offset_ok q.1) l /\ l <> []
        /\ 3 * Z.of_nat (length (l ++ pad l)) / 2 < 0x3fff
  | PRaw dws => ws = dws /\ raw_packet dws
  end.

(** * Header fields *)

Lemma header_type op count cam : PKT_TYPE_G (header op count cam) = 3.
Proof.
  unfold header, PKT3_RESET_FILTER_CAM_S, PKT_TYPE_G. rewrite G_lor, G_S_other, Z.lor_0_r by lia.
  apply PKT3_type.
Qed.

Lemma header_count op count cam : 0 <= count < 0x4000 -> PKT_COUNT_G (header op count cam) = count.
Proof.
  intros. unfold header, PKT3_RESET_FILTER_CAM_S, PKT_COUNT_G. rewrite G_lor, G_S_other, Z.lor_0_r by lia.
  by apply PKT3_count.
Qed.

Lemma header_opcode op count cam : 0 <= op < 0x100 -> PKT3_IT_OPCODE_G (header op count cam) = op.
Proof.
  intros. unfold header, PKT3_RESET_FILTER_CAM_S, PKT3_IT_OPCODE_G. rewrite G_lor, G_S_other, Z.lor_0_r by lia.
  by apply PKT3_opcode.
Qed.

(** * Lists *)

Lemma odd_even_S n : Nat.odd (S n) = negb (Nat.odd n).
Proof. by rewrite Nat.odd_succ, <- Nat.negb_odd. Qed.

Lemma length_pad {A} (l : list A) : Nat.even (length (l ++ pad l)) = true.
Proof.
  unfold pad. rewrite length_app. destruct (Nat.odd (length l)) eqn:E.
  - destruct l as [|x l]; [done|]. change (length (take 1 (x :: l))) with 1%nat.
    by rewrite Nat.add_1_r, Nat.even_succ.
  - cbn [length]. rewrite Nat.add_0_r, <- Nat.negb_odd. by rewrite E.
Qed.

(** Induction two at a time. *)
Lemma pairs_ind {A} (P : list A -> Prop) :
  P [] -> (forall x, P [x]) -> (forall x y l, P l -> P (x :: y :: l)) -> forall l, P l.
Proof.
  intros H0 H1 H2. fix IH 1. intros [|x [|y l]]; [done|done|]. by apply H2.
Qed.

Lemma length_pack_even (l : list (Z * Z)) :
  Nat.even (length l) = true -> 2 * Z.of_nat (length (pack l)) = 3 * Z.of_nat (length l).
Proof.
  induction l as [|x|[r0 v0] [r1 v1] l IH] using pairs_ind; [done|done|]. cbn [length pack Nat.even].
  intros He. specialize (IH He). lia.
Qed.

Lemma pack_app_even l m : Nat.even (length l) = true -> pack (l ++ m) = pack l ++ pack m.
Proof.
  induction l as [|x|[r0 v0] [r1 v1] l IH] using pairs_ind; [done|done|]. cbn [length app pack Nat.even].
  intros He. by rewrite IH.
Qed.

Lemma length_flat l : length (flat l) = (2 * length l)%nat.
Proof. induction l as [|x l IH]; [done|]. cbn in *. unfold flat in IH. cbn in IH. rewrite IH. lia. Qed.

(** * The parser on each kind of body *)

Lemma ib_get_mid pre x l : ac_ib_get (pre ++ x :: l) (length pre) = (x, length (pre ++ [x])).
Proof. unfold ac_ib_get. rewrite list_lookup_middle by done. cbn. rewrite length_app. cbn. f_equal. lia. Qed.

Lemma parse_values_spec vals reg pre post :
  parse_values (pre ++ vals ++ post) (length vals) reg (length pre)
  = (run_writes reg vals, length (pre ++ vals)).
Proof.
  revert reg pre. induction vals as [|v vals IH]; intros reg pre; cbn [parse_values length run_writes].
  - by rewrite app_nil_r.
  - cbn [app]. rewrite ib_get_mid.
    replace (pre ++ v :: vals ++ post) with ((pre ++ [v]) ++ vals ++ post) by by rewrite <- app_assoc.
    rewrite IH. by rewrite <- app_assoc.
Qed.

Lemma parse_pairs_spec l op pre post :
  Forall (fun q => offset_ok q.1) l ->
  parse_pairs (pre ++ flat l ++ post) (length l) (op_base op) (length pre)
  = (pair_write op <$> l, length (pre ++ flat l)).
Proof.
  intros Hl. revert pre. induction Hl as [|[r v] l Hr Hl IH]; intros pre; cbn [parse_pairs length].
  - cbn. by rewrite app_nil_r.
  - change (flat ((r, v) :: l)) with (r :: v :: flat l). cbn [app]. rewrite ib_get_mid.
    replace (pre ++ r :: v :: flat l ++ post) with ((pre ++ [r]) ++ v :: flat l ++ post) by by rewrite <- app_assoc.
    rewrite ib_get_mid.
    replace ((pre ++ [r]) ++ v :: flat l ++ post) with (((pre ++ [r]) ++ [v]) ++ flat l ++ post)
      by by rewrite <- !app_assoc.
    rewrite IH. rewrite <- !app_assoc. cbn [app fmap list_fmap pair_write fst snd].
    unfold offset_ok in Hr. cbn in Hr. f_equal. f_equal. f_equal.
    assert (0 <= op_base op < 0x40000).
    { unfold op_base. repeat match goal with |- context [if ?b then _ else _] => destruct b end;
        unfold SI_CONTEXT_REG_OFFSET, SI_CONFIG_REG_OFFSET, CIK_UCONFIG_REG_OFFSET, SI_SH_REG_OFFSET; lia. }
    rewrite (u32_small (r * 4)), u32_small by (unfold_words; lia). done.
Qed.

Lemma unpack_offsets r0 r1 :
  offset_ok r0 -> offset_ok r1 ->
  Z.land (Z.lor r0 (Z.shiftl r1 16)) 0xffff = r0 /\ Z.shiftr (Z.lor r0 (Z.shiftl r1 16)) 16 = r1.
Proof.
  unfold offset_ok. intros H0 H1. change 0xffff with (Z.ones 16). split.
  - rewrite Z.land_lor_distr_l. rewrite (Z.land_ones (Z.shiftl r1 16)), Z.shiftl_mul_pow2 by lia.
    rewrite Z.mod_mul by lia. rewrite Z.lor_0_r. apply land_ones_small; lia.
  - rewrite Z.shiftr_lor, Z.shiftr_shiftl_l by lia. rewrite Z.shiftl_0_r.
    rewrite Z.shiftr_div_pow2, Z.div_small by lia. done.
Qed.

Lemma parse_packed_spec l op i off0 off1 pre post :
  Nat.even (length l) = true -> i mod 3 = 0 -> Forall (fun q => offset_ok q.1) l ->
  parse_packed (pre ++ pack l ++ post) (length (pack l)) i (op_base op) off0 off1 (length pre)
  = (pair_write op <$> l, length (pre ++ pack l)).
Proof.
  intros He Hi Hl. revert i off0 off1 pre He Hi Hl.
  induction l as [|x|[r0 v0] [r1 v1] l IH] using pairs_ind; intros i off0 off1 pre He Hi Hl.
  - cbn. by rewrite app_nil_r.
  - done.
  - cbn [pack length parse_packed]. apply Forall_cons in Hl as [Hr0 [Hr1 Hl]%Forall_cons]. cbn in Hr0, Hr1.
    cbn [app]. set (w := Z.lor r0 (Z.shiftl r1 16)). rewrite ib_get_mid.
    rewrite Hi. cbn [Z.eqb].
    replace ((i + 1) mod 3) with 1 by (rewrite Z.add_mod, Hi by lia; done).
    replace ((i + 1 + 1) mod 3) with 2 by (rewrite <- Z.add_assoc, Z.add_mod, Hi by lia; done).
    cbn [Z.eqb Pos.eqb].
    replace (pre ++ w :: v0 :: v1 :: pack l ++ post) with ((pre ++ [w]) ++ v0 :: v1 :: pack l ++ post)
      by by rewrite <- app_assoc.
    rewrite ib_get_mid.
    replace ((pre ++ [w]) ++ v0 :: v1 :: pack l ++ post) with (((pre ++ [w]) ++ [v0]) ++ v1 :: pack l ++ post)
      by by rewrite <- !app_assoc.
    rewrite ib_get_mid.
    replace (((pre ++ [w]) ++ [v0]) ++ v1 :: pack l ++ post)
      with ((((pre ++ [w]) ++ [v0]) ++ [v1]) ++ pack l ++ post) by by rewrite <- !app_assoc.
    rewrite IH; [|done| |done].
    + destruct (unpack_offsets r0 r1 Hr0 Hr1) as [E0 E1]. unfold w. rewrite E0, E1.
      rewrite <- !app_assoc. done.
    + rewrite <- !Z.add_assoc, Z.add_mod, Hi by lia. done.
Qed.

(** * Whole packets *)

Lemma encodes_length p ws : encodes p ws -> (0 < length ws)%nat.
Proof. destruct p; cbn; [naive_solver (cbn; lia)..|]. intros [-> (?&?&?&?&->&_)]. cbn. lia. Qed.

(** A run. *)
Lemma parse_run op base vals cam idx pre post :
  op ∈ regular_opcodes -> 0 <= idx < 16 -> 0 <= base -> base + Z.of_nat (length vals) <= 0x10000 ->
  vals <> [] ->
  let ws := header op (Z.of_nat (length vals)) cam :: Z.lor base (Z.shiftl idx 28) :: vals in
  parse_set_packet (pre ++ ws ++ post) op (Z.of_nat (length vals)) (S (length pre))
  = Some (run_writes (base * 4 + op_base op) vals, length (pre ++ ws)).
Proof.
  intros Hop Hidx Hb Hmax Hne. set (o := Z.lor base (Z.shiftl idx 28)). set (h := header _ _ _). cbv zeta.
  assert (Ho : Z.land o 0xFFFF = base).
  { unfold o. change 0xFFFF with (Z.ones 16).
    rewrite Z.land_lor_distr_l, (Z.land_ones (Z.shiftl idx 28)), Z.shiftl_mul_pow2 by lia.
    replace (idx * 2 ^ 28) with (idx * 2 ^ 12 * 2 ^ 16) by lia. rewrite Z.mod_mul, Z.lor_0_r by lia.
    assert (0 < length vals)%nat by (destruct vals; [done|cbn; lia]). apply land_ones_small; lia. }
  assert (H : ac_parse_set_reg_packet (pre ++ (h :: o :: vals) ++ post) (Z.of_nat (length vals)) (op_base op)
                (S (length pre))
              = (run_writes (base * 4 + op_base op) vals, length (pre ++ h :: o :: vals))).
  { unfold ac_parse_set_reg_packet. cbn [app].
    replace (pre ++ h :: o :: vals ++ post) with ((pre ++ [h]) ++ o :: vals ++ post) by by rewrite <- app_assoc.
    replace (S (length pre)) with (length (pre ++ [h])) by (rewrite length_app; cbn; lia).
    rewrite ib_get_mid, Ho, Nat2Z.id.
    replace ((pre ++ [h]) ++ o :: vals ++ post) with (((pre ++ [h]) ++ [o]) ++ vals ++ post)
      by by rewrite <- !app_assoc.
    rewrite parse_values_spec. by rewrite <- !app_assoc. }
  rewrite <- H. unfold regular_opcodes, pairs_opcodes, packed_opcodes in Hop.
  rewrite !elem_of_cons in Hop.
  destruct Hop as [->|[->|[->|[->|[->|[->|[]%elem_of_nil]]]]]]; reflexivity.
Qed.

Lemma parse_pairs_packet op l cam pre post :
  op ∈ pairs_opcodes -> Forall (fun q => offset_ok q.1) l -> l <> [] ->
  let ws := header op (2 * Z.of_nat (length l) - 1) cam :: flat l in
  parse_set_packet (pre ++ ws ++ post) op (2 * Z.of_nat (length l) - 1) (S (length pre))
  = Some (pair_write op <$> l, length (pre ++ ws)).
Proof.
  intros Hop Hl Hne. set (h := header _ _ _). cbv zeta.
  assert (H : ac_parse_set_reg_pairs_packet (pre ++ (h :: flat l) ++ post) (2 * Z.of_nat (length l) - 1)
                (op_base op) (S (length pre))
              = (pair_write op <$> l, length (pre ++ h :: flat l))).
  { unfold ac_parse_set_reg_pairs_packet. cbn [app].
    replace (pre ++ h :: flat l ++ post) with ((pre ++ [h]) ++ flat l ++ post) by by rewrite <- app_assoc.
    replace (S (length pre)) with (length (pre ++ [h])) by (rewrite length_app; cbn; lia).
    replace ((2 * Z.of_nat (length l) - 1 + 1) / 2) with (Z.of_nat (length l))
      by (replace (2 * Z.of_nat (length l) - 1 + 1) with (Z.of_nat (length l) * 2) by lia; by rewrite Z.div_mul).
    rewrite Nat2Z.id, parse_pairs_spec by done. by rewrite <- !app_assoc. }
  rewrite <- H. unfold regular_opcodes, pairs_opcodes, packed_opcodes in Hop.
  rewrite !elem_of_cons in Hop.
  destruct Hop as [->|[->|[->|[]%elem_of_nil]]]; reflexivity.
Qed.

Lemma parse_packed_packet op op' l cam pre post :
  op ∈ packed_opcodes ->
  op' = op \/ op = PKT3_SET_SH_REG_PAIRS_PACKED /\ op' = PKT3_SET_SH_REG_PAIRS_PACKED_N ->
  Forall (fun q => offset_ok q.1) l -> Nat.even (length l) = true ->
  let n := 3 * Z.of_nat (length l) / 2 in
  let ws := header op' n cam :: Z.of_nat (length l) :: pack l in
  parse_set_packet (pre ++ ws ++ post) op' n (S (length pre))
  = Some (pair_write op <$> l, length (pre ++ ws)).
Proof.
  intros Hop Hop' Hl He. cbv zeta. set (h := header _ _ _). set (c := Z.of_nat (length l)).
  assert (H : ac_parse_set_reg_pairs_packed_packet (pre ++ (h :: c :: pack l) ++ post) (3 * c / 2)
                (op_base op) (S (length pre))
              = (pair_write op <$> l, length (pre ++ h :: c :: pack l))).
  { unfold ac_parse_set_reg_pairs_packed_packet. cbn [app].
    replace (pre ++ h :: c :: pack l ++ post) with ((pre ++ [h]) ++ c :: pack l ++ post) by by rewrite <- app_assoc.
    replace (S (length pre)) with (length (pre ++ [h])) by (rewrite length_app; cbn; lia).
    rewrite ib_get_mid.
    replace ((pre ++ [h]) ++ c :: pack l ++ post) with (((pre ++ [h]) ++ [c]) ++ pack l ++ post)
      by by rewrite <- !app_assoc.
    replace (Z.to_nat (3 * c / 2)) with (length (pack l)).
    - rewrite parse_packed_spec by done. by rewrite <- !app_assoc.
    - pose proof (length_pack_even l He). unfold c.
      replace (3 * Z.of_nat (length l)) with (Z.of_nat (length (pack l)) * 2) by lia.
      rewrite Z.div_mul by lia. lia. }
  rewrite <- H. unfold regular_opcodes, pairs_opcodes, packed_opcodes in Hop.
  rewrite !elem_of_cons in Hop.
  destruct Hop' as [->|[-> ->]]; [|reflexivity].
  destruct Hop as [->|[->|[]%elem_of_nil]]; reflexivity.
Qed.

Lemma set_opcode_range op : op ∈ set_opcodes -> 0 <= op < 0x100.
Proof.
  intros H. cbv [set_opcodes regular_opcodes pairs_opcodes packed_opcodes app] in H. repeat (apply elem_of_cons in H as [->|H]; [vm_compute; intuition discriminate|]).
  by apply elem_of_nil in H.
Qed.

Lemma not_set_packet ib op count cur : op ∉ set_opcodes -> parse_set_packet ib op count cur = None.
Proof.
  intros Hop. unfold parse_set_packet, set_opcodes in *. 
  assert (H : forall o, o ∈ set_opcodes -> (op =? o) = false)
    by (intros o Ho; apply Z.eqb_neq; intros ->; done).
  rewrite !H by (unfold set_opcodes; set_solver). done.
Qed.

Lemma forall_pad l : Forall (fun q => offset_ok q.1) l -> Forall (fun q : Z * Z => offset_ok q.1) (l ++ pad l).
Proof.
  intros Hl. apply Forall_app. split; [done|]. unfold pad. destruct (Nat.odd _); [by apply Forall_take|done].
Qed.

(** The parser on one packet of a stream. *)
Lemma parse_packet_spec p ws pre post h t :
  encodes p ws -> ws = h :: t ->
  PKT_TYPE_G h = 3
  /\ ac_parse_packet3 (pre ++ ws ++ post) h (S (length pre)) = (shown p, length (pre ++ ws)).
Proof.
  intros He Hws. unfold shown. unfold ac_parse_packet3.
  assert (Hmax : forall n k, n = (S (length pre) + k)%nat -> Nat.max n (S (length pre) + k) = n) by lia.
  destruct p as [op idx base vals|op l|op l|dws].
  - destruct He as (cam & -> & Hop & Hidx & Hb & Hne & Hm & Hc). injection Hws as <- <-.
    split; [apply header_type|]. rewrite header_opcode, header_count by
      (try apply set_opcode_range; unfold set_opcodes; set_solver || lia).
    rewrite parse_run by done. cbn [padding]. rewrite app_nil_r. f_equal. apply Hmax.
    rewrite length_app. cbn [length]. lia.
  - destruct He as (cam & -> & Hop & Hl & Hne & Hc). injection Hws as <- <-.
    assert (0 < length l)%nat by (destruct l; [done|cbn; lia]).
    split; [apply header_type|]. rewrite header_opcode, header_count by
      (try apply set_opcode_range; unfold set_opcodes; set_solver || lia).
    rewrite parse_pairs_packet by done. cbn [padding]. rewrite app_nil_r. f_equal. apply Hmax.
    rewrite length_app. cbn [length]. rewrite length_flat. lia.
  - destruct He as (op' & cam & -> & Hop & Hop' & Hl & Hne & Hc). injection Hws as <- <-.
    split; [apply header_type|].
    pose proof (Z.div_pos (3 * Z.of_nat (length (l ++ pad l))) 2 ltac:(lia) ltac:(lia)).
    rewrite header_opcode, header_count; [|lia|apply set_opcode_range; unfold set_opcodes; set_solver].
    rewrite (parse_packed_packet op) by (done || apply length_pad || by apply forall_pad).
    cbn [issued padding]. rewrite fmap_app. f_equal. apply Hmax.
    rewrite length_app. cbn [length]. pose proof (length_pack_even _ (length_pad l)).
    replace (3 * Z.of_nat (length (l ++ pad l))) with (Z.of_nat (length (pack (l ++ pad l))) * 2) by lia.
    rewrite Z.div_mul by lia. lia.
  - destruct He as [-> (op & count & pred & body & -> & Hop & Hns & Hc & Hlen)]. injection Hws as <- <-.
    split; [apply PKT3_type|]. rewrite PKT3_opcode, PKT3_count by lia. rewrite not_set_packet by done.
    assert (Hnop : (PKT3 op count pred =? PKT3_NOP_PAD) = false).
    { apply Z.eqb_neq. intros E. apply (f_equal PKT_COUNT_G) in E. unfold PKT3_NOP_PAD in E.
      rewrite !PKT3_count in E by lia. lia. }
    rewrite Hnop. cbn [issued padding app]. rewrite <- Hlen. f_equal.
    + do 2 f_equal. cbn [app].
      replace (pre ++ PKT3 op count pred :: body ++ post) with ((pre ++ [PKT3 op count pred]) ++ body ++ post)
        by by rewrite <- app_assoc.
      rewrite drop_app_length' by (rewrite length_app; cbn; lia). by rewrite take_app_length.
    + rewrite length_app. cbn. lia.
Qed.

Lemma parse_stream ps wss fuel pre post :
  Forall2 encodes ps wss -> (length (concat wss) <= fuel)%nat -> post = [] ->
  parse_gfx_ib (pre ++ concat wss ++ post) fuel (length pre)
  = Some (concat (shown <$> ps), length (pre ++ concat wss)).
Proof.
  intros H2 Hfuel ->. revert pre fuel Hfuel. induction H2 as [|p ws ps wss He H2 IH]; intros pre fuel Hfuel.
  - cbn. rewrite !app_nil_r. destruct fuel; cbn [parse_gfx_ib]; by rewrite (proj2 (Nat.leb_le _ _)).
  - pose proof (encodes_length _ _ He). destruct ws as [|h t] eqn:Ews; [cbn in *; lia|]. rewrite <- Ews in *.
    cbn [concat] in *. rewrite length_app in Hfuel.
    destruct fuel as [|fuel]; [lia|]. cbn [parse_gfx_ib].
    rewrite (proj2 (Nat.leb_gt _ _)) by (rewrite !length_app; lia).
    destruct (parse_packet_spec p ws pre (concat wss ++ []) h t He Ews) as [Ht Hp].
    assert (Hget : ac_ib_get (pre ++ (ws ++ concat wss) ++ []) (length pre) = (h, S (length pre))).
    { rewrite Ews. cbn [app]. rewrite ib_get_mid, length_app. cbn. f_equal. lia. }
    rewrite Hget, Ht. cbn [Z.eqb Pos.eqb]. rewrite <- app_assoc, Hp.
    replace (pre ++ ws ++ concat wss ++ []) with ((pre ++ ws) ++ concat wss ++ []) by by rewrite <- app_assoc.
    rewrite IH by lia. cbn. by rewrite <- app_assoc.
Qed.

(** Reading back any stream of encoded packets. *)
Lemma parse_chunk_encoded ps wss :
  Forall2 encodes ps wss -> ac_parse_ib_chunk (concat wss) = Some (concat (shown <$> ps)).
Proof.
  intros H2. unfold ac_parse_ib_chunk.
  pose proof (parse_stream ps wss (length (concat wss)) [] [] H2 ltac:(lia) eq_refl) as Hp.
  cbn [app length] in Hp. rewrite app_nil_r in Hp. rewrite Hp. cbn [mbind option_bind].
  by rewrite (proj2 (Nat.ltb_ge _ _)).
Qed.
