(* ===== verification/RegPm4Proofs.v ===== *)
(** The packet builder keeps its buffer a sequence of encoded packets: the array as a
    written part and a rest, the packed form read back by index, and what finalizing an
    open packet leaves. *)

From stdpp Require Import gmap.
From S2P Require Import Prelude Pm4 CText TitanMap RegPm4 RegPm4Spec.
Open Scope Z_scope.

(** * The buffer *)

(** [ws] is written, [tail] is the rest of the array. *)
Record buf (st : ac_pm4_state) (ws tail : list Z) : Prop := {
  buf_pm4 : pm4 st = ws ++ tail;
  buf_ndw : ndw st = Z.of_nat (length ws);
  buf_small : Z.of_nat (length (ws ++ tail)) < W16
}.

Definition set_buf (st : ac_pm4_state) (ws tail : list Z) : ac_pm4_state :=
  with_ndw (Z.of_nat (length ws)) (with_pm4 (ws ++ tail) st).

Lemma buf_set_buf st ws tail : Z.of_nat (length (ws ++ tail)) < W16 -> buf (set_buf st ws tail) ws tail.
Proof.
  intros H. constructor; [done| |done]. cbn. apply Z.mod_small. rewrite length_app in H. lia.
Qed.

Lemma peek_at st a x b i : pm4 st = a ++ x :: b -> i = Z.of_nat (length a) -> peek st i = Ok x.
Proof.
  intros E ->. unfold peek. rewrite E. destruct (Z.ltb_spec (Z.of_nat (length a)) 0); [lia|].
  by rewrite Nat2Z.id, list_lookup_middle.
Qed.

Lemma peek_lookup st i x : 0 <= i -> pm4 st !! Z.to_nat i = Some x -> peek st i = Ok x.
Proof. intros Hi E. unfold peek. rewrite E. by destruct (Z.ltb_spec i 0); [lia|]. Qed.

Lemma poke_at st a x b i v :
  pm4 st = a ++ x :: b -> i = Z.of_nat (length a) -> poke i v st = Ok (with_pm4 (a ++ v :: b) st).
Proof.
  intros E ->. unfold poke. rewrite E, length_app. cbn [length].
  destruct (Z.ltb_spec (Z.of_nat (length a)) 0); [lia|].
  destruct (Z.leb_spec (Z.of_nat (length a + S (length b))) (Z.of_nat (length a))); [lia|]. cbn [orb].
  rewrite Nat2Z.id, insert_app_r_alt, Nat.sub_diag by lia. done.
Qed.

Lemma push_at st ws x tail v :
  buf st ws (x :: tail) -> push v st = Ok (set_buf st (ws ++ [v]) tail).
Proof.
  intros [Hp Hn Hs]. unfold push. rewrite (poke_at st ws x tail) by done. cbn [mbind result_bind].
  unfold set_buf, with_ndw, with_pm4. cbn. rewrite Hn, length_app, <- app_assoc. cbn.
  by rewrite Nat2Z.inj_add.
Qed.

Lemma buf_push st ws x tail v : buf st ws (x :: tail) -> buf (set_buf st (ws ++ [v]) tail) (ws ++ [v]) tail.
Proof. intros [_ _ Hs]. apply buf_set_buf. rewrite !length_app in *. cbn in *. lia. Qed.

(** There is a dword left when the array is longer than what is written. *)
Lemma buf_room st ws tail :
  buf st ws tail -> Z.of_nat (length ws) < Z.of_nat (length (pm4 st)) -> exists x tail', tail = x :: tail'.
Proof.
  intros [Hp _ _] Hl. rewrite Hp, length_app in Hl. destruct tail as [|x tail]; [cbn in Hl; lia|]. eauto.
Qed.

(** * Packed registers by index *)

Lemma pack_lookup l (k : nat) r0 v0 r1 v1 :
  l !! (2 * k)%nat = Some (r0, v0) -> l !! (2 * k + 1)%nat = Some (r1, v1) ->
  pack l !! (3 * k)%nat = Some (Z.lor r0 (Z.shiftl r1 16))
  /\ pack l !! (3 * k + 1)%nat = Some v0 /\ pack l !! (3 * k + 2)%nat = Some v1.
Proof.
  revert k. induction l as [|x|[a b] [c d] l IH] using pairs_ind; intros k H0 H1; [done| |].
  { rewrite lookup_ge_None_2 in H1 by (cbn; lia). done. }
  destruct k as [|k].
  - cbn in H0, H1. by simplify_eq.
  - replace (2 * S k)%nat with (S (S (2 * k))) in H0 by lia.
    replace (2 * S k + 1)%nat with (S (S (2 * k + 1))) in H1 by lia. cbn [lookup] in H0, H1.
    destruct (IH k) as (E0 & E1 & E2); [done..|]. cbn [pack].
    replace (3 * S k)%nat with (S (S (S (3 * k)))) by lia. done.
Qed.

(** The written part ends with a packed packet that starts at [last_pm4]. *)
Section Packed.
Variables (st : ac_pm4_state) (pre : list Z) (h c : Z) (l : list (Z * Z)) (tail : list Z).
Hypothesis Hbuf : buf st (pre ++ h :: c :: pack l) tail.
Hypothesis Hlast : last_pm4 st = Z.of_nat (length pre).
Hypothesis Heven : Nat.even (length l) = true.
Hypothesis Hl : Forall (fun q => offset_ok q.1) l.

Lemma pm4_body (q : nat) x : pack l !! q = Some x -> pm4 st !! (length pre + 2 + q)%nat = Some x.
Proof using Hbuf Hlast Heven Hl.
  intros Hq. rewrite (buf_pm4 _ _ _ Hbuf), <- app_assoc, lookup_app_r by lia.
  replace (length pre + 2 + q - length pre)%nat with (S (S q)) by lia. cbn.
  apply lookup_app_l_Some. done.
Qed.

Lemma ndw_packed : ndw st = Z.of_nat (length pre) + 2 + 3 * Z.of_nat (length l) / 2.
Proof using Hbuf Hlast Heven Hl.
  rewrite (buf_ndw _ _ _ Hbuf), length_app. cbn [length]. pose proof (length_pack_even l Heven).
  replace (3 * Z.of_nat (length l)) with (Z.of_nat (length (pack l)) * 2) by lia.
  rewrite Z.div_mul by lia. lia.
Qed.

Lemma packed_half : 3 * Z.of_nat (length l) / 2 = 3 * (Z.of_nat (length l) / 2).
Proof using Hbuf Hlast Heven Hl.
  pose proof (length_pack_even l Heven) as H.
  assert (Z.of_nat (length l) mod 2 = 0) as H2.
  { apply Nat.even_spec in Heven as [k ->]. rewrite Nat2Z.inj_mul, Z.mul_comm. apply Z.mod_mul. lia. }
  pose proof (Z.div_mod (Z.of_nat (length l)) 2 ltac:(lia)) as H3. rewrite H2 in H3.
  replace (3 * Z.of_nat (length l)) with (3 * (Z.of_nat (length l) / 2) * 2) by lia. by rewrite Z.div_mul.
Qed.

Lemma packed_index (i : nat) r v :
  l !! i = Some (r, v) ->
  get_packed_reg_dw_offsetN st (Z.of_nat i) = Ok r /\ get_packed_reg_valueN st (Z.of_nat i) = Ok v.
Proof using Hbuf Hlast Heven Hl.
  intros Hi. pose proof (lookup_lt_Some _ _ _ Hi) as Hlt.
  pose proof (Nat.div_mod_eq i 2) as Hdm. pose proof (Nat.mod_upper_bound i 2 ltac:(lia)) as Hm.
  set (k := (i / 2)%nat) in *.
  assert (Hk : (2 * k + 1 < length l)%nat).
  { apply Nat.even_spec in Heven as [m Hm2]. lia. }
  destruct (lookup_lt_is_Some_2 l (2 * k)%nat) as [[r0 v0] H0]; [lia|].
  destruct (lookup_lt_is_Some_2 l (2 * k + 1)%nat) as [[r1 v1] H1]; [lia|].
  destruct (pack_lookup l k r0 v0 r1 v1 H0 H1) as (E0 & E1 & E2).
  assert (Hr0 : offset_ok r0) by (rewrite Forall_lookup in Hl; by apply (Hl _ _ H0)).
  assert (Hr1 : offset_ok r1) by (rewrite Forall_lookup in Hl; by apply (Hl _ _ H1)).
  destruct (unpack_offsets r0 r1 Hr0 Hr1) as [U0 U1].
  assert (Hzk : Z.of_nat i / 2 = Z.of_nat k) by (unfold k; by rewrite Nat2Z.inj_div).
  assert (Hzm : Z.of_nat i mod 2 = Z.of_nat (i mod 2)) by by rewrite Nat2Z.inj_mod.
  pose proof ndw_packed as Hndw. rewrite packed_half in Hndw.
  assert (Hh : Z.of_nat k + 1 <= Z.of_nat (length l) / 2) by (apply Z.div_le_lower_bound; lia).
  assert (Hcase : (i mod 2 = 0 /\ r = r0 /\ v = v0 \/ i mod 2 = 1 /\ r = r1 /\ v = v1)%nat).
  { assert (i mod 2 = 0 \/ i mod 2 = 1)%nat as [E|E] by lia; [left|right]; rewrite E in *; split; try done.
    - rewrite Hdm, Nat.add_0_r in Hi. naive_solver congruence.
    - rewrite Hdm in Hi. naive_solver congruence. }
  unfold get_packed_reg_dw_offsetN, get_packed_reg_valueN, get_packed_reg_valueN_idx.
  rewrite Hzk, Hzm, Hlast.
  rewrite (proj2 (Z.ltb_lt (Z.of_nat (length pre) + 2 + Z.of_nat k * 3) _)) by lia.
  rewrite (proj2 (Z.ltb_lt (Z.of_nat (length pre) + 2 + Z.of_nat k * 3 + 1 + Z.of_nat (i mod 2)) _)) by lia.
  rewrite (peek_lookup st _ (Z.lor r0 (Z.shiftl r1 16))).
  3: { rewrite <- (pm4_body (3 * k)) by done. f_equal. lia. } 2: lia.
  cbn [mbind result_bind].
  destruct Hcase as [(Em & -> & ->)|(Em & -> & ->)]; rewrite Em.
  - change (Z.of_nat 0 * 16) with 0. rewrite Z.shiftr_0_r. split; [by rewrite U0|]. apply peek_lookup; [lia|].
    rewrite <- (pm4_body (3 * k + 1)) by done. f_equal. lia.
  - split.
    + change (Z.of_nat 1 * 16) with 16.
      rewrite U1. f_equal. change 0xffff with (Z.ones 16). apply land_ones_small; unfold offset_ok in Hr1; lia.
    + apply peek_lookup; [lia|]. rewrite <- (pm4_body (3 * k + 2)) by done. f_equal. lia.
Qed.

Lemma packed_count : l <> [] -> get_packed_reg_count st = Ok (Z.of_nat (length l)).
Proof using Hbuf Hlast Heven Hl.
  intros Hne. unfold get_packed_reg_count. rewrite ndw_packed, Hlast, packed_half.
  assert (Hmod : Z.of_nat (length l) = 2 * (Z.of_nat (length l) / 2)).
  { apply Nat.even_spec in Heven as [k ->]. rewrite Nat2Z.inj_mul, (Z.mul_comm (Z.of_nat 2)), Z.div_mul by lia. lia. }
  set (m := Z.of_nat (length l) / 2) in *.
  assert (0 < m) by (destruct l; [done|cbn [length] in *; lia]).
  replace (Z.of_nat (length pre) + 2 + 3 * m - Z.of_nat (length pre) - 2) with (m * 3) by lia.
  rewrite Z.rem_mul, Z.div_mul by lia. rewrite (proj2 (Z.ltb_lt _ _)) by lia. cbn. f_equal. lia.
Qed.
End Packed.

(** * Finalizing a packed packet *)

(** The fields no operation but creation sets. *)
Record keeps_chip (st st' : ac_pm4_state) : Prop := {
  keeps_info : info st' = info st;
  keeps_queue : is_compute_queue st' = is_compute_queue st;
  keeps_max : max_dw st' = max_dw st;
  keeps_sqtt : debug_sqtt st' = debug_sqtt st;
  keeps_len : length (pm4 st') = length (pm4 st)
}.

Lemma keeps_chip_refl st : keeps_chip st st.
Proof. done. Qed.
Lemma keeps_chip_trans a b c : keeps_chip a b -> keeps_chip b c -> keeps_chip a c.
Proof. intros [] []. constructor; congruence. Qed.
#[export] Hint Resolve keeps_chip_refl : radv.

Lemma keeps_set_buf st ws tail : length (ws ++ tail) = length (pm4 st) -> keeps_chip st (set_buf st ws tail).
Proof. done. Qed.

(** The offsets follow one another, when the loop says so. *)
Lemma all_consecutive_spec st pre h c l tail off0 rounds (i : nat) :
  buf st (pre ++ h :: c :: pack l) tail -> last_pm4 st = Z.of_nat (length pre) ->
  Nat.even (length l) = true -> Forall (fun q => offset_ok q.1) l -> (i + rounds <= length l)%nat ->
  exists b, all_consecutive_from st off0 rounds (Z.of_nat i) = Ok b
    /\ (b = true -> forall j r v, (i <= j < i + rounds)%nat -> l !! j = Some (r, v) ->
          off0 = u32 (r - Z.of_nat j)).
Proof.
  intros Hb Hlast He Hl. revert i. induction rounds as [|n IH]; intros i Hi; cbn [all_consecutive_from].
  { exists true. split; [done|]. intros _ j r v Hj. lia. }
  destruct (lookup_lt_is_Some_2 l i) as [[r v] Hlook]; [lia|].
  destruct (packed_index st pre h c l tail Hb Hlast He Hl i r v Hlook) as [-> _]. cbn [mbind result_bind].
  destruct (Z.eqb_spec off0 (u32 (r - Z.of_nat i))) as [E|E]; cbn [negb].
  - replace (Z.of_nat i + 1) with (Z.of_nat (S i)) by lia. destruct (IH (S i)) as (b & Hb' & Hspec); [lia|].
    exists b. split; [done|]. intros -> j r' v' Hj Hlook'.
    destruct (decide (j = i)) as [->|]; [congruence|]. apply (Hspec eq_refl j r' v'); [lia|done].
  - exists false. done.
Qed.

Lemma pack_value l (i : nat) r v :
  Nat.even (length l) = true -> l !! i = Some (r, v) ->
  pack l !! (3 * (i / 2) + 1 + i mod 2)%nat = Some v.
Proof.
  revert i. induction l as [|x|[r0 v0] [r1 v1] l IH] using pairs_ind; intros i He Hi; [done|done|].
  destruct i as [|[|i]]; [cbn in Hi; by simplify_eq..|].
  cbn [length Nat.even] in He. cbn [lookup] in Hi. specialize (IH i He Hi).
  replace (S (S i)) with (i + 1 * 2)%nat by lia. rewrite Nat.div_add, Nat.Div0.mod_add by lia.
  replace (3 * (i / 2 + 1) + 1 + i mod 2)%nat with (S (S (S (3 * (i / 2) + 1 + i mod 2))))%nat by lia. done.
Qed.

(** Values are copied down over the packed form; a value is read before it is overwritten. *)
Lemma unpack_spec pre h o l vals tail rounds (i : nat) st :
  pm4 st = pre ++ h :: o :: (take i vals ++ drop i (pack l)) ++ tail ->
  last_pm4 st = Z.of_nat (length pre) ->
  ndw st = Z.of_nat (length pre + 2 + length (pack l)) ->
  Nat.even (length l) = true -> vals `prefix_of` l.*2 -> (i + rounds <= length vals)%nat ->
  unpack_from rounds (Z.of_nat i) st
  = Ok (with_pm4 (pre ++ h :: o :: (take (i + rounds) vals ++ drop (i + rounds) (pack l)) ++ tail) st).
Proof.
  intros Hp Hlast Hndw He Hpre. revert i st Hp Hlast Hndw. 
  induction rounds as [|n IH]; intros i st Hp Hlast Hndw Hi; cbn [unpack_from].
  { rewrite Nat.add_0_r, <- Hp. by destruct st. }
  destruct (lookup_lt_is_Some_2 vals i) as [v Hv]; [lia|].
  assert (Hlen : (length vals <= length l)%nat) by (apply prefix_length in Hpre; by rewrite length_fmap in Hpre).
  assert (Hlook : exists r, l !! i = Some (r, v)).
  { pose proof (prefix_lookup_Some _ _ _ _ Hv Hpre) as H. rewrite list_lookup_fmap_Some in H.
    destruct H as ([r v'] & Hr1 & Hr2). exists r. cbn in *. congruence. }
  destruct Hlook as [r Hlook]. pose proof (pack_value l i r v He Hlook) as Hpv.
  pose proof (lookup_lt_Some _ _ _ Hpv) as Hlt.
  pose proof (Nat.div_mod_eq i 2). pose proof (Nat.mod_upper_bound i 2 ltac:(lia)).
  assert (Hti : length (take i vals) = i) by (rewrite length_take; lia).
  assert (Hval : get_packed_reg_valueN st (Z.of_nat i) = Ok v).
  { unfold get_packed_reg_valueN, get_packed_reg_valueN_idx.
    assert (Hzk : Z.of_nat i / 2 = Z.of_nat (i / 2)) by by rewrite Nat2Z.inj_div.
    assert (Hzm : Z.of_nat i mod 2 = Z.of_nat (i mod 2)) by by rewrite Nat2Z.inj_mod.
    rewrite Hlast, Hndw, Hzk, Hzm.
    rewrite (proj2 (Z.ltb_lt _ _)) by lia. cbn [mbind result_bind]. apply peek_lookup; [lia|].
    rewrite Hp. rewrite lookup_app_r by lia.
    remember (3 * (i / 2) + 1 + i mod 2)%nat as q eqn:Hq.
    replace (Z.to_nat _ - length pre)%nat with (S (S q)) by lia.
    change (((take i vals ++ drop i (pack l)) ++ tail) !! q = Some v).
rewrite lookup_app_l by (rewrite length_app, Hti, length_drop; lia).
    rewrite lookup_app_r by lia. rewrite Hti, lookup_drop. by replace (i + (q - i))%nat with q by lia. }
  rewrite Hval. cbn [mbind result_bind].
  assert (Hsplit : exists x, pm4 st = (pre ++ h :: o :: take i vals) ++ x :: drop (S i) (pack l) ++ tail).
  { destruct (lookup_lt_is_Some_2 (pack l) i) as [x Hx]; [lia|]. exists x.
    rewrite Hp, (drop_S _ _ _ Hx), <- !app_assoc. done. }
  destruct Hsplit as [x Hx].
  rewrite (poke_at st _ x _ _ v Hx) by (rewrite Hlast, length_app; cbn [length]; rewrite Hti; lia).
  cbn [mbind result_bind].
  replace (Z.of_nat i + 1) with (Z.of_nat (S i)) by lia.
  rewrite IH; [|cbn [pm4 with_pm4]; rewrite (take_S_r _ _ _ Hv), <- !app_assoc; done|done|done|lia].
  replace (i + S n)%nat with (S i + n)%nat by lia. done.
Qed.

(** Switching the opcode in a finished header. *)
Lemma header_to_N op n cam :
  Z.lor (Z.land (header op n cam) PKT3_IT_OPCODE_C) (PKT3_IT_OPCODE_S PKT3_SET_SH_REG_PAIRS_PACKED_N)
  = header PKT3_SET_SH_REG_PAIRS_PACKED_N n cam.
Proof.
  assert (Hc : forall k, 0 <= k -> Z.testbit PKT3_IT_OPCODE_C k = (k <? 32) && negb ((8 <=? k) && (k <? 16))).
  { intros k Hk. unfold PKT3_IT_OPCODE_C. destruct (Z.ltb_spec k 32).
    - assert (Hall : forallb (fun k => Bool.eqb (Z.testbit 0xFFFF00FF k) (negb ((8 <=? k) && (k <? 16)))) (seqZ 0 32) = true)
        by (vm_compute; reflexivity).
      rewrite forallb_forall in Hall. apply eqb_prop, Hall. rewrite <- list_elem_of_In. apply elem_of_seqZ. lia.
    - apply Z.bits_above_log2; [lia|]. change (Z.log2 0xFFFF00FF) with 31. lia. }
  apply Z.bits_inj'. intros k Hk. unfold header, PKT3, PKT3_IT_OPCODE_S, PKT3_RESET_FILTER_CAM_S.
  replace (Z.land 0 1) with 0 by done.
  rewrite ?Z.lor_spec, ?Z.land_spec, ?Z.lor_spec, ?S_field_testbit, ?Z.bits_0, Hc by lia.
  destruct ((8 <=? k) && (k <? 8 + 8)) eqn:E.
  - replace (30 <=? k) with false by lia. replace (16 <=? k) with false by lia.
    replace (k <? 2 + 1) with false by lia. replace ((8 <=? k) && (k <? 16)) with true by lia.
    cbn [andb orb negb]. by rewrite ?andb_false_r, ?orb_false_r.
  - replace ((8 <=? k) && (k <? 16)) with false by lia. cbn [andb orb negb].
    rewrite ?orb_false_r, andb_true_r. destruct (Z.ltb_spec k 32); [by rewrite andb_true_r|].
    replace (k <? 30 + 2) with false by lia. replace (k <? 16 + 14) with false by lia.
    replace (k <? 2 + 1) with false by lia. by rewrite ?andb_false_r.
Qed.

(** Consecutive offsets make a run of the values. *)
Lemma run_of_consecutive op op' r0 l :
  op_base op' = op_base op ->
  (forall j r v, l !! j = Some (r, v) -> r = r0 + Z.of_nat j) ->
  run_writes (r0 * 4 + op_base op') l.*2 = pair_write op <$> l.
Proof.
  intros Hb. revert r0. induction l as [|[r v] l IH]; intros r0 Hl; [done|].
  cbn [fmap list_fmap run_writes snd]. pose proof (Hl 0%nat r v eq_refl) as E. cbn in E. f_equal.
  - unfold pair_write. cbn. rewrite Hb. f_equal. lia.
  - rewrite <- (IH (r0 + 1)).
    + f_equal. lia.
    + intros j r' v' Hj. rewrite (Hl (S j) r' v' Hj). lia.
Qed.

Definition unpacked (p : packet) : Prop := match p with PPacked _ _ => False | _ => True end.

Lemma finalize_unpacked (names : Z -> bool) st :
  debug_sqtt st = false -> opcode_is_pairs_packed (last_opcode st) = false -> ac_pm4_finalize names st = Ok st.
Proof. intros Hd Ho. unfold ac_pm4_finalize. rewrite Ho. cbn. rewrite Hd. cbn. by rewrite Hd. Qed.

(** The regular form of a packed opcode writes to the same space. *)
Lemma regular_of_packed op :
  op ∈ packed_opcodes ->
  exists reg, pairs_packed_opcode_to_regular op = Ok reg /\ reg ∈ regular_opcodes /\ op_base reg = op_base op.
Proof.
  unfold packed_opcodes, regular_opcodes. rewrite !elem_of_cons. intros [->|[->|[]%elem_of_nil]];
    eexists; (split; [reflexivity|]; split; [rewrite !elem_of_cons; tauto|reflexivity]).
Qed.

(** Consecutive registers, as one run. *)
Lemma run_encodes reg off0 l :
  reg ∈ regular_opcodes -> l <> [] -> Forall (fun q => offset_ok q.1) l ->
  (forall j r v, l !! j = Some (r, v) -> r = off0 + Z.of_nat j) -> Z.of_nat (length l) < 0x3fff ->
  encodes (PRun reg 0 off0 l.*2) (PKT3 reg (Z.of_nat (length l)) 0 :: off0 :: l.*2).
Proof.
  intros Hreg Hne Hl Hcons Hc. assert (H0 : (0 < length l)%nat) by (destruct l; [done|cbn; lia]).
  destruct (lookup_lt_is_Some_2 l 0%nat) as [[r0 v0] Hr0]; [lia|].
  destruct (lookup_lt_is_Some_2 l (length l - 1)%nat) as [[rn vn] Hrn]; [lia|].
  pose proof (Hcons _ _ _ Hr0) as E0. pose proof (Hcons _ _ _ Hrn) as En.
  rewrite Forall_lookup in Hl. pose proof (Hl _ _ Hr0) as O0. pose proof (Hl _ _ Hrn) as On.
  unfold offset_ok in O0, On. cbn in O0, On.
  exists false. rewrite length_fmap. unfold header.
  change (PKT3_RESET_FILTER_CAM_S false) with 0. rewrite !Z.lor_0_r.
  split; [done|]. split; [done|]. split; [lia|]. split; [lia|]. split; [by destruct l|]. lia.
Qed.

(** The test of ac_pm4_finalize, without its wrap-around. *)
Lemma offset_unwrap r0 r j :
  offset_ok r0 -> offset_ok r -> Z.of_nat j < W16 -> r0 = u32 (r - Z.of_nat j) -> r = r0 + Z.of_nat j.
Proof.
  unfold u32, offset_ok. intros H0 Hr Hj E. unfold_words. destruct (Z.lt_ge_cases (r - Z.of_nat j) 0).
  - rewrite <- (Z.mod_unique_pos (r - Z.of_nat j) 4294967296 (-1) (r - Z.of_nat j + 4294967296)) in E by lia. lia.
  - rewrite Z.mod_small in E by lia. lia.
Qed.

Section Finalize.
Variables (st : ac_pm4_state) (pre : list Z) (op : Z) (l : list (Z * Z)) (wo tail : list Z).
Hypothesis Hsqtt : debug_sqtt st = false.
Hypothesis Hbuf : buf st (pre ++ wo) tail.
Hypothesis Henc : encodes (PPacked op l) wo.
Hypothesis Hlast : last_pm4 st = Z.of_nat (length pre).
Hypothesis Hop : last_opcode st = op.
Hypothesis Hpad : packed_is_padded st = Nat.odd (length l).

(** The packet a finalized one is, and that nothing else changes. *)
Definition finalized (r : result ac_pm4_state) : Prop :=
  exists st' p' wo' tail', r = Ok st' /\ buf st' (pre ++ wo') tail' /\ encodes p' wo'
    /\ issued p' = issued (PPacked op l) /\ (unpacked p' \/ p' = PPacked op l)
    /\ keeps_chip st st' /\ (length wo' <= length wo)%nat.

Lemma finalize_to_run h off0 :
  wo = h :: Z.of_nat (length (l ++ pad l)) :: pack (l ++ pad l) ->
  (forall j r v, l !! j = Some (r, v) -> r = off0 + Z.of_nat j) ->
  finalized (let! opcode := pairs_packed_opcode_to_regular op ;;
             let! st := poke (last_pm4 st) (PKT3 opcode (Z.of_nat (length l)) 0) st ;;
             let! st := poke (last_pm4 st + 1) off0 st ;;
             let! st := unpack_from (length l) 0 st ;;
             Ok (with_opcode PKT3_SET_SH_REG (with_ndw (last_pm4 st + 2 + Z.of_nat (length l)) st))).
Proof using Hsqtt Hbuf Henc Hlast Hop Hpad.
  intros Hwo Hcons. destruct Henc as (op' & cam & _ & Hops & _ & Hl & Hne & Hc).
  destruct (regular_of_packed op Hops) as (reg & -> & Hreg & Hbase). cbn [mbind result_bind].
  set (c := Z.of_nat (length (l ++ pad l))) in *. set (body := pack (l ++ pad l)) in *.
  set (h' := PKT3 reg (Z.of_nat (length l)) 0).
  assert (Hlen : (length l <= length (l ++ pad l))%nat) by (rewrite length_app; lia).
  pose proof (length_pack_even _ (length_pad l)) as Hpk. fold body in Hpk.
  assert (Hp : pm4 st = pre ++ h :: c :: body ++ tail).
  { rewrite (buf_pm4 _ _ _ Hbuf), Hwo, <- app_assoc. done. }
  rewrite (poke_at st _ _ _ _ h' Hp) by done. cbn [mbind result_bind].
  rewrite (poke_at _ (pre ++ [h']) c (body ++ tail)); [|cbn; by rewrite <- app_assoc|cbn; rewrite Hlast, length_app; cbn; lia].
  cbn [mbind result_bind].
  change 0 with (Z.of_nat 0) at 1.
  rewrite (unpack_spec pre h' off0 (l ++ pad l) l.*2 tail).
  - cbn [mbind result_bind plus].
    set (vals := take (length l) l.*2).
    assert (Hvals : vals = l.*2) by (unfold vals; apply take_ge; by rewrite length_fmap).
    assert (Hsz : Z.of_nat (length (pre ++ wo ++ tail)) < W16).
    { pose proof (buf_small _ _ _ Hbuf) as H. by rewrite <- app_assoc in H. }
    rewrite Hwo, !length_app in Hsz. cbn [length] in Hsz. 
    eexists _, (PRun reg 0 off0 l.*2), (h' :: off0 :: l.*2), (drop (length l) body ++ tail).
    split; [reflexivity|]. set (st' := with_opcode _ _).
    assert (Hdrop : length (drop (length l) body) = (length body - length l)%nat) by apply length_drop.
    assert (Hll : (length l <= length body)%nat) by lia.
    assert (Hb : buf st' (pre ++ h' :: off0 :: l.*2) (drop (length l) body ++ tail)).
    { constructor; cbn.
      - rewrite Hvals, <- !app_assoc. done.
      - rewrite Hlast, length_app. cbn [length]. rewrite length_fmap. rewrite Z.mod_small; lia.
      - rewrite !length_app. cbn [length]. rewrite length_fmap, Hdrop. lia. }
    split; [done|]. split; [|split; [|split; [by left|split]]].
    + apply run_encodes; [done..|].
      assert (3 * Z.of_nat (length l) / 2 <= 3 * c / 2) by (apply Z.div_le_mono; lia).
      assert (Z.of_nat (length l) <= 3 * Z.of_nat (length l) / 2) by (apply Z.div_le_lower_bound; lia).
      lia.
    + cbn [issued]. by apply run_of_consecutive.
    + constructor; [done..|]. rewrite (buf_pm4 _ _ _ Hb), Hp, !length_app. cbn [length].
      rewrite !length_app, length_fmap, Hdrop. lia.
    + rewrite Hwo. cbn [length]. rewrite length_fmap. lia.
  - cbn. rewrite <- !app_assoc. done.
  - done.
  - cbn. rewrite (buf_ndw _ _ _ Hbuf), Hwo, length_app. cbn [length]. fold body. lia.
  - apply length_pad.
  - rewrite fmap_app. by apply prefix_app_r.
  - rewrite length_fmap. lia.
Qed.

(** The faster opcode for short packets. *)
Lemma finalize_to_N :
  op = PKT3_SET_SH_REG_PAIRS_PACKED ->
  finalized (let! h := peek st (last_pm4 st) ;;
             poke (last_pm4 st)
               (Z.lor (Z.land h PKT3_IT_OPCODE_C) (PKT3_IT_OPCODE_S PKT3_SET_SH_REG_PAIRS_PACKED_N)) st).
Proof using Hsqtt Hbuf Henc Hlast Hop Hpad.
  intros HN. destruct Henc as (op' & cam & Hwo & Hops & Hops' & Hl & Hne & Hc).
  assert (Hb2 := Hbuf). rewrite Hwo in Hb2.
  set (n := 3 * Z.of_nat (length (l ++ pad l)) / 2) in *.
  assert (Hp : pm4 st = pre ++ header op' n cam :: (Z.of_nat (length (l ++ pad l)) :: pack (l ++ pad l)) ++ tail)
    by (rewrite (buf_pm4 _ _ _ Hb2), <- app_assoc; done).
  rewrite (peek_at st _ _ _ _ Hp) by done. cbn [mbind result_bind].
  rewrite (poke_at st _ _ _ _ _ Hp) by done. cbn [mbind result_bind]. rewrite header_to_N.
  eexists _, (PPacked op l), (header PKT3_SET_SH_REG_PAIRS_PACKED_N n cam :: _ :: pack (l ++ pad l)), tail.
  split; [reflexivity|]. split; [|split; [|split; [done|split; [by right|split]]]].
  - destruct Hb2 as [H1 H2 H3]. constructor; cbn.
    + by rewrite <- app_assoc.
    + rewrite H2, !length_app. done.
    + rewrite !length_app in *. done.
  - exists PKT3_SET_SH_REG_PAIRS_PACKED_N, cam. split_and!; try done. by right.
  - constructor; try done. cbn. rewrite Hp, !length_app. done.
  - rewrite Hwo. done.
Qed.

Lemma finalize_packed_spec names :
  finalized (ac_pm4_finalize names st).
Proof using Hsqtt Hbuf Henc Hlast Hop Hpad.
  destruct Henc as (op' & cam & Hwo & Hops & Hops' & Hl & Hne & Hc).
  assert (Hpk : opcode_is_pairs_packed (last_opcode st) = true /\ last_opcode st <> PKT3_SET_SH_REG_PAIRS_PACKED_N).
  { rewrite Hop. unfold packed_opcodes in Hops. rewrite !elem_of_cons in Hops.
    by destruct Hops as [->|[->|[]%elem_of_nil]]. }
  destruct Hpk as [Hpk HnN].
  pose proof (length_pad l) as He. pose proof (forall_pad l Hl) as Hlp.
  assert (Hpl : Z.of_nat (length (l ++ pad l)) = Z.of_nat (length l) + b2z (packed_is_padded st)).
  { rewrite Hpad, length_app. unfold pad. destruct (Nat.odd _); cbn; [|lia].
    destruct l; [done|]. cbn. rewrite length_take. cbn. lia. }
  assert (Hb2 := Hbuf). rewrite Hwo in Hb2.
  destruct (l !! 0%nat) as [[r0 v0]|] eqn:Hl0; [|by destruct l].
  assert (Hl0' : (l ++ pad l) !! 0%nat = Some (r0, v0)) by by apply lookup_app_l_Some.
  assert (Hr0 : offset_ok r0) by (rewrite Forall_lookup in Hl; by apply (Hl _ _ Hl0)).
  assert (Hn : (0 < length l)%nat) by (destruct l; [done|cbn; lia]).
  destruct (all_consecutive_spec st pre _ _ (l ++ pad l) tail r0 (length l - 1) 1 Hb2 Hlast He Hlp)
    as (b & Hb & Hcons); [rewrite length_app; lia|].
  unfold ac_pm4_finalize. rewrite Hpk. unfold finalize_packed.
  rewrite (packed_count st pre _ _ (l ++ pad l) tail Hb2 Hlast He Hlp) by by destruct l.
  cbn [mbind result_bind].
  pose proof (packed_index st pre _ _ (l ++ pad l) tail Hb2 Hlast He Hlp 0%nat r0 v0 Hl0') as [Hi0 _].
  change (Z.of_nat 0) with 0 in Hi0. rewrite Hi0. cbn [mbind result_bind].
  replace (if packed_is_padded st then Z.of_nat (length (l ++ pad l)) - 1 else Z.of_nat (length (l ++ pad l)))
    with (Z.of_nat (length l)) by (rewrite Hpl; unfold b2z; destruct (packed_is_padded st); lia).
  replace (Z.to_nat (Z.of_nat (length l) - 1)) with (length l - 1)%nat by lia.
  change (Z.of_nat 1) with 1 in Hb. rewrite Hb. cbn [mbind result_bind]. destruct b.
  - rewrite <- Hpl, (ndw_packed st pre _ _ (l ++ pad l) tail Hb2 Hlast He Hlp), Hlast.
    replace (_ =? _) with true by lia. rewrite Hop, Nat2Z.id.
    destruct (finalize_to_run (header op' (3 * Z.of_nat (length (l ++ pad l)) / 2) cam) r0 Hwo)
      as (st' & p' & wo' & tail' & Hr & Hrest).
    { intros j r v Hj. destruct (decide (j = 0%nat)) as [->|]; [rewrite Hl0 in Hj; injection Hj as <- <-; lia|].
      pose proof (lookup_lt_Some _ _ _ Hj).
      apply offset_unwrap; [done|rewrite Forall_lookup in Hl; by apply (Hl _ _ Hj)| |].
      - pose proof (buf_small _ _ _ Hbuf) as Hs. rewrite Hwo in Hs. pose proof (length_pack_even _ He) as Hpe.
        rewrite !length_app in Hs. cbn [length] in Hs. rewrite !length_app in Hpe. lia.
      - apply (Hcons eq_refl j r v); [lia|by apply lookup_app_l_Some]. }
    rewrite Hlast in Hr. rewrite Hr. cbn [mbind result_bind].
    destruct Hrest as (Hb' & He' & Hi' & Hp' & Hk' & Hlen').
    exists st', p', wo', tail'. split; [|done].
    destruct Hk' as [_ _ _ Hsq _]. rewrite Hsqtt in Hsq. cbn. rewrite Hsq. cbn. by rewrite Hsq.
  - rewrite Hsqtt. cbn [andb mbind result_bind].
    assert (Hsame : forall st', keeps_chip st st' -> debug_sqtt st' = false) by (intros st' [_ _ _ Hsq _]; by rewrite Hsq).
    destruct ((last_opcode st =? PKT3_SET_SH_REG_PAIRS_PACKED) && _) eqn:EN.
    + destruct finalize_to_N as (st' & p' & wo' & tail' & Hr & Hrest); [lia|].
      destruct (peek st (last_pm4 st)) as [hd|]; [|done]. cbn [mbind result_bind] in *. rewrite Hr.
      cbn [mbind result_bind]. exists st', p', wo', tail'. split; [|done].
      destruct Hrest as (_ & _ & _ & _ & [_ _ _ Hsq _] & _). rewrite Hsqtt in Hsq. rewrite Hsq. cbn. by rewrite Hsq.
    + cbn [mbind result_bind]. rewrite Hsqtt. cbn [andb mbind result_bind]. rewrite Hsqtt. cbn [andb].
      exists st, (PPacked op l), wo, tail. split_and!; [done|done| |done|by right|done|done].
      exists op', cam. done.
Qed.
End Finalize.
