(* ===== verification/RegPm4Ops.v ===== *)
(** The recording operations of the packet builder over its representation: a sequence
    of closed packets and the one that is open. *)

From stdpp Require Import gmap.
From S2P Require Import Prelude Pm4 CText TitanMap RegPm4 RegPm4Spec RegPm4Proofs.
Open Scope Z_scope.

(** * Representation *)

Definition open_ok (st : ac_pm4_state) (start : nat) (o : option packet) (wo : list Z) : Prop :=
  match o with
  | None => wo = [] /\ (last_opcode st = 0 \/ last_opcode st = 255)
  | Some p =>
      encodes p wo /\ last_pm4 st = Z.of_nat start
      /\ match p with
         | PRun op idx base vals =>
             last_opcode st = op /\ last_reg st = base + Z.of_nat (length vals) - 1 /\ last_idx st = idx
         | PPairs op _ => last_opcode st = op
         | PPacked op l => last_opcode st = op /\ packed_is_padded st = Nat.odd (length l)
         | PRaw _ => False
         end
  end.

Record rep (st : ac_pm4_state) (ps : list packet) (wss : list (list Z)) (o : option packet)
    (wo tail : list Z) : Prop := {
  rep_buf : buf st (concat wss ++ wo) tail;
  rep_max : max_dw st = Z.of_nat (length (pm4 st));
  rep_limit : max_dw st <= 0x3fff;
  rep_sqtt : debug_sqtt st = false;
  rep_closed : Forall2 encodes ps wss;
  rep_open : open_ok st (length (concat wss)) o wo
}.

Definition issues (ps : list packet) : list ib_event := concat (issued <$> ps).

(** The packets a state holds. *)
Definition holds_packets (st : ac_pm4_state) (qs : list packet) : Prop :=
  exists ps wss o wo tail, rep st ps wss o wo tail /\ qs = ps ++ option_list o.

(** [qs'] asks for what [qs] did, then [evs]; packed packets appear only where allowed. *)
Definition issues_more (packed : bool) (qs qs' : list packet) (evs : list ib_event) : Prop :=
  issues qs' = issues qs ++ evs
  /\ (packed = false -> Forall unpacked qs -> Forall unpacked qs').

Lemma issues_app a b : issues (a ++ b) = issues a ++ issues b.
Proof. unfold issues. by rewrite fmap_app, concat_app. Qed.
Lemma issues_one p : issues [p] = issued p.
Proof. unfold issues. cbn. by rewrite app_nil_r. Qed.

Lemma rep_room st ps wss o wo tail n :
  rep st ps wss o wo tail -> ndw st + Z.of_nat n <= max_dw st ->
  exists a b, tail = a ++ b /\ length a = n.
Proof.
  intros [[Hp Hn _] Hm _ _ _ _] Hr. exists (take n tail), (drop n tail). rewrite take_drop. split; [done|].
  rewrite length_take. rewrite Hm, Hp, Hn, !length_app in Hr. lia.
Qed.

(** * Starting a packet *)

Record packet_begun (st : ac_pm4_state) (st0 : ac_pm4_state) (op : Z) (ps : list packet)
    (wss : list (list Z)) (x : Z) (tail : list Z) : Prop := {
  begun_buf : buf st (concat wss ++ [x]) tail;
  begun_keeps : keeps_chip st0 st;
  begun_closed : Forall2 encodes ps wss;
  begun_last : last_pm4 st = Z.of_nat (length (concat wss));
  begun_op : last_opcode st = op;
  begun_pad : packed_is_padded st = false;
  begun_ndw : ndw st <= ndw st0 + 1
}.

(** Finalizing closes the open packet. *)
Lemma close_spec names st ps wss o wo tail :
  rep st ps wss o wo tail ->
  exists st' ps' wss' tail', ac_pm4_finalize names st = Ok st' /\ buf st' (concat wss') tail'
    /\ Forall2 encodes ps' wss' /\ issues_more false (ps ++ option_list o) ps' [] /\ keeps_chip st st'
    /\ (length (concat wss') <= length (concat wss ++ wo))%nat.
Proof.
  intros [Hb _ _ Hs Hc Ho].
  assert (Hplain : opcode_is_pairs_packed (last_opcode st) = false ->
    ac_pm4_finalize names st = Ok st) by (intros; by apply finalize_unpacked).
  destruct o as [[op idx base vals|op l|op l|dws]|]; cbn [option_list option_rect app]; cbn in Ho.
  - destruct Ho as (He & _ & Hop & _). exists st, (ps ++ [PRun op idx base vals]), (wss ++ [wo]), tail.
    rewrite concat_app. cbn [concat]. rewrite app_nil_r. split_and!; try done.
    + apply Hplain. destruct He as (_ & _ & Hreg & _). rewrite Hop. unfold regular_opcodes in Hreg.
      rewrite !elem_of_cons in Hreg. by destruct Hreg as [->|[->|[->|[->|[->|[->|[]%elem_of_nil]]]]]].
    + apply Forall2_app; [done|]. by constructor.
    + split; [by rewrite app_nil_r|done].
  - destruct Ho as (He & _ & Hop). exists st, (ps ++ [PPairs op l]), (wss ++ [wo]), tail.
    rewrite concat_app. cbn [concat]. rewrite app_nil_r. split_and!; try done.
    + apply Hplain. destruct He as (_ & _ & Hreg & _). rewrite Hop. unfold pairs_opcodes in Hreg.
      rewrite !elem_of_cons in Hreg. by destruct Hreg as [->|[->|[->|[]%elem_of_nil]]].
    + apply Forall2_app; [done|]. by constructor.
    + split; [by rewrite app_nil_r|done].
  - destruct Ho as (He & Hl & Hop & Hpad).
    destruct (finalize_packed_spec st _ op l wo tail Hs Hb He Hl Hop Hpad names)
      as (st' & p' & wo' & tail' & Hr & Hb' & He' & Hi' & Hp' & Hk' & Hlen).
    exists st', (ps ++ [p']), (wss ++ [wo']), tail'. rewrite concat_app. cbn [concat]. rewrite app_nil_r.
    split_and!; try done.
    + apply Forall2_app; [done|]. by constructor.
    + split; [rewrite app_nil_r, !issues_app, !issues_one; by rewrite Hi'|].
      intros _. rewrite !Forall_app, !Forall_singleton. intros [Hu Hq]. split; [done|].
      by destruct Hp' as [| ->].
    + rewrite !length_app. lia.
  - by destruct Ho as (_ & _ & ?).
  - destruct Ho as [-> Hop]. exists st, ps, wss, tail. rewrite !app_nil_r in *. split_and!; try done.
    + apply Hplain. by destruct Hop as [->| ->].
    + split; [by rewrite app_nil_r|done].
Qed.

Lemma cmd_begin_spec names st ps wss o wo tail op :
  rep st ps wss o wo tail -> ndw st + 1 <= max_dw st -> 0 <= op <= 254 ->
  exists st' ps' wss' x tail', ac_pm4_cmd_begin names op st = Ok st' /\ packet_begun st' st op ps' wss' x tail'
    /\ issues_more false (ps ++ option_list o) ps' [].
Proof.
  intros Hrep Hroom Hop. pose proof Hrep as [Hb Hm Hlim Hs Hc Ho].
  destruct (close_spec names st ps wss o wo tail Hrep)
    as (st' & ps' & wss' & tail' & Hf & Hb' & Hc' & Hx & Hk & Hlen).
  assert (Hle : ndw st' <= ndw st) by (rewrite (buf_ndw _ _ _ Hb), (buf_ndw _ _ _ Hb'); lia).
  assert (Hpos : 0 <= ndw st') by (rewrite (buf_ndw _ _ _ Hb'); lia).
  destruct (buf_room st' _ _ Hb') as (x & tl & ->).
  { rewrite <- (buf_ndw _ _ _ Hb'), (keeps_len _ _ Hk). lia. }
  unfold ac_pm4_cmd_begin. rewrite Hf. cbn [mbind result_bind]. rewrite (keeps_max _ _ Hk).
  replace (negb (max_dw st =? 0)) with true by lia. replace (ndw st' <? max_dw st) with true by lia.
  replace (op <=? 254) with true by lia.
  eexists _, ps', wss', x, tl. split; [reflexivity|]. split; [|done].
  destruct Hb' as [Hp' Hn' Hs']. rewrite length_app in Hs'. cbn [length] in Hs'. unfold W16 in *.
  constructor; cbn; try done.
  - constructor; cbn.
    + by rewrite Hp', <- app_assoc.
    + rewrite Hn', length_app. cbn. rewrite Z.mod_small; [lia|]. unfold W16. lia.
    + rewrite <- app_assoc, length_app. cbn. unfold W16. lia.
  - by destruct Hk.
  - rewrite Hn'. apply Z.mod_small. unfold W16. lia.
  - rewrite Z.mod_small; [lia|]. unfold W16. lia.
Qed.

(** Lengths of appended and consed dwords. *)
Ltac lens := repeat first [rewrite length_app | progress cbn [length]].
Ltac assoc := repeat first [rewrite <- app_assoc | progress cbn [app]].
Ltac lens_in H := repeat first [rewrite length_app in H | progress cbn [length] in H].

(** * Ending a packet *)

Lemma cmd_end_plain f st pre x body tail :
  buf st (pre ++ x :: body) tail -> last_pm4 st = Z.of_nat (length pre) -> body <> [] ->
  opcode_is_pairs_packed (last_opcode st) = false ->
  cmd_end_with f false st
  = Ok (with_pm4 (pre ++ header (last_opcode st) (Z.of_nat (length body) - 1) (need_reset_filter_cam st)
                      :: body ++ tail) st).
Proof.
  intros [Hp Hn Hs] Hl Hne Hop. unfold cmd_end_with.
  rewrite (poke_at st pre x (body ++ tail)) by (done || by rewrite Hp, <- app_assoc).
  cbn [mbind result_bind last_opcode with_pm4]. rewrite Hop.
  rewrite Hn, Hl, length_app. cbn [length b2z].
  assert (0 < length body)%nat by (destruct body; [done|cbn; lia]).
  rewrite u32_small by (rewrite !length_app in Hs; cbn [length] in Hs; unfold_words; lia).
  replace (Z.of_nat (length pre + S (length body)) - Z.of_nat (length pre) - 2) with (Z.of_nat (length body) - 1) by lia.
  done.
Qed.

Lemma packed_opcode_spec op : op ∈ packed_opcodes -> opcode_is_pairs_packed op = true.
Proof. unfold packed_opcodes. rewrite !elem_of_cons. by intros [->|[->|[]%elem_of_nil]]. Qed.

Lemma rem_packed a k r : 0 <= k -> 0 <= r < 3 -> Z.rem (a + 3 * k + r - a) 3 = r.
Proof.
  intros. replace (a + 3 * k + r - a) with (r + k * 3) by lia. rewrite Z.rem_add by nia. by apply Z.rem_small.
Qed.

(** The number of dwords of an even packed body. *)
Lemma pack_even_len l : Nat.even (length l) = true -> exists k, length l = (2 * k)%nat /\ length (pack l) = (3 * k)%nat.
Proof.
  intros He. pose proof (length_pack_even l He). apply Nat.even_spec in He as [k Hk]. exists k. lia.
Qed.

(** A packet with an even number of registers is not padded. *)
Lemma cmd_end_even f st pre h c l tail :
  buf st (pre ++ h :: c :: pack l) tail -> last_pm4 st = Z.of_nat (length pre) ->
  opcode_is_pairs_packed (last_opcode st) = true -> Nat.even (length l) = true -> l <> [] ->
  Forall (fun q => offset_ok q.1) l ->
  exists cam, cmd_end_with f false st
    = Ok (with_pm4 (pre ++ header (last_opcode st) (3 * Z.of_nat (length l) / 2) cam
                        :: Z.of_nat (length l) :: pack l ++ tail) st).
Proof.
  intros Hb Hl Hop He Hne Hok. pose proof Hb as [Hp Hn Hs]. exists (need_reset_filter_cam st).
  destruct (pack_even_len l He) as (k & Hk1 & Hk2).
  unfold cmd_end_with.
  rewrite (poke_at st pre h (c :: pack l ++ tail)) by (done || by rewrite Hp, <- app_assoc).
  cbn [mbind result_bind last_opcode with_pm4]. rewrite Hop.
  assert (Hcount : ndw st - last_pm4 st - 2 = 3 * Z.of_nat (length l) / 2).
  { rewrite (ndw_packed st pre h c l tail Hb Hl He Hok), Hl. lia. }
  rewrite Hcount. cbn [b2z].
  rewrite u32_small.
  2: { rewrite <- Hcount, Hn, Hl, length_app. cbn [length]. rewrite !length_app in Hs. cbn [length] in Hs.
       unfold_words. lia. }
  set (h' := Z.lor _ _). set (st1 := with_pm4 _ st).
  assert (Hb1 : buf st1 (pre ++ h' :: c :: pack l) tail).
  { constructor; cbn; [by rewrite <- app_assoc|by rewrite Hn, !length_app|rewrite !length_app in *; done]. }
  assert (Hv0 : packed_prev_is_reg_value0 st1 = false).
  { unfold packed_prev_is_reg_value0, packed_next_is_reg_value1. cbn. rewrite Hn, Hl, length_app. cbn [length].
    rewrite Hk2. replace (Z.of_nat (length pre + S (S (3 * k)))) with (Z.of_nat (length pre) + 3 * Z.of_nat k + 2) by lia.
    by rewrite rem_packed by lia. }
  rewrite Hv0. cbn [mbind result_bind].
  rewrite (packed_count st1 pre h' c l tail Hb1 Hl He Hok Hne). cbn [mbind result_bind].
  rewrite (poke_at st1 (pre ++ [h']) c (pack l ++ tail)).
  - cbn. by rewrite <- app_assoc.
  - cbn. by rewrite <- app_assoc.
  - cbn. rewrite Hl, length_app. cbn. lia.
Qed.

(** * Adding a register to an open run *)

Lemma finish_run f st ps wss x tail op idx base vals r v y :
  buf st (concat wss ++ x :: Z.lor base (Z.shiftl idx 28) :: vals) (y :: tail) ->
  last_pm4 st = Z.of_nat (length (concat wss)) -> last_opcode st = op -> op ∈ regular_opcodes ->
  max_dw st = Z.of_nat (length (pm4 st)) -> max_dw st <= 0x3fff -> debug_sqtt st = false ->
  Forall2 encodes ps wss -> 0 <= idx < 16 -> 0 <= base -> r = base + Z.of_nat (length vals) -> r <= 0xffff ->
  exists st' wo, (let! st := push v (with_last_reg r idx st) ;; cmd_end_with f false st) = Ok st'
    /\ rep st' ps wss (Some (PRun op idx base (vals ++ [v]))) wo tail
    /\ keeps_chip st st' /\ ndw st' = ndw st + 1.
Proof.
  intros Hb Hl Hop Hreg Hm Hlim Hsq Hc Hidx Hbase Hr Hmax.
  set (st1 := with_last_reg r idx st). set (o := Z.lor base (Z.shiftl idx 28)) in *.
  assert (Hb1 : buf st1 (concat wss ++ x :: o :: vals) (y :: tail)) by by destruct Hb.
  rewrite (push_at st1 _ y tail v Hb1). cbn [mbind result_bind].
  pose proof (buf_push st1 _ y tail v Hb1) as Hb2.
  replace ((concat wss ++ x :: o :: vals) ++ [v]) with (concat wss ++ x :: o :: vals ++ [v]) in *
    by by rewrite <- app_assoc.
  assert (Hnp : opcode_is_pairs_packed op = false).
  { unfold regular_opcodes in Hreg. rewrite !elem_of_cons in Hreg.
    by destruct Hreg as [->|[->|[->|[->|[->|[->|[]%elem_of_nil]]]]]]. }
  rewrite (cmd_end_plain f _ _ _ _ _ Hb2) by (done || cbn; by rewrite Hop).
  cbn [length]. rewrite Nat2Z.inj_succ.
  replace (Z.succ (Z.of_nat (length (vals ++ [v]))) - 1) with (Z.of_nat (length (vals ++ [v]))) by lia.
  set (h' := header _ _ _).
  eexists _, (h' :: o :: vals ++ [v]). split; [reflexivity|].
  pose proof (buf_small _ _ _ Hb) as Hs. pose proof (buf_pm4 _ _ _ Hb) as Hp. pose proof (buf_ndw _ _ _ Hb) as Hn.
  assert (Hlen : length (pm4 st) = (length (concat wss) + length vals + 3 + length tail)%nat).
  { rewrite Hp. lens. lia. }
  split; [|split].
  - constructor; cbn; try done.
    + constructor; cbn.
      * by assoc.
      * lens. lens_in Hs. unfold W16 in *. rewrite Z.mod_small; lia.
      * lens. unfold W16. lia.
    + rewrite Hm, Hlen. lens. lia.
    + split; [|split; [done|]].
      * exists (need_reset_filter_cam (set_buf st1 (concat wss ++ x :: o :: vals ++ [v]) tail)).
        unfold h'. cbn [last_opcode set_buf with_ndw with_pm4 st1 with_last_reg]. rewrite Hop.
        split; [done|]. rewrite length_app. cbn [length].
        split_and!; try done; try lia. by destruct vals.
      * rewrite Hop, length_app. cbn [length]. rewrite !Z.mod_small by (unfold W16; lia). split; [done|]. split; [lia|done].
  - constructor; cbn; try done. rewrite Hlen. lens. lia.
  - cbn. rewrite Hn. lens. lens_in Hs. unfold W16 in *. rewrite Z.mod_small; lia.
Qed.

Lemma flat_app a b : flat (a ++ b) = flat a ++ flat b.
Proof. unfold flat. by rewrite fmap_app, concat_app. Qed.

Lemma finish_pairs f st ps wss x tail op l r v y :
  buf st (concat wss ++ x :: flat l ++ [r]) (y :: tail) ->
  last_pm4 st = Z.of_nat (length (concat wss)) -> last_opcode st = op -> op ∈ pairs_opcodes ->
  max_dw st = Z.of_nat (length (pm4 st)) -> max_dw st <= 0x3fff -> debug_sqtt st = false ->
  Forall2 encodes ps wss -> Forall (fun q => offset_ok q.1) l -> offset_ok r ->
  exists st' wo, (let! st := push v (with_last_reg r 0 st) ;; cmd_end_with f false st) = Ok st'
    /\ rep st' ps wss (Some (PPairs op (l ++ [(r, v)]))) wo tail
    /\ keeps_chip st st' /\ ndw st' = ndw st + 1.
Proof.
  intros Hb Hl Hop Hpairs Hm Hlim Hsq Hc Hok Hr.
  set (st1 := with_last_reg r 0 st).
  assert (Hb1 : buf st1 (concat wss ++ x :: flat l ++ [r]) (y :: tail)) by by destruct Hb.
  rewrite (push_at st1 _ y tail v Hb1). cbn [mbind result_bind].
  pose proof (buf_push st1 _ y tail v Hb1) as Hb2.
  replace ((concat wss ++ x :: flat l ++ [r]) ++ [v]) with (concat wss ++ x :: flat (l ++ [(r, v)])) in *
    by (rewrite flat_app; assoc; done).
  assert (Hnp : opcode_is_pairs_packed op = false).
  { unfold pairs_opcodes in Hpairs. rewrite !elem_of_cons in Hpairs.
    by destruct Hpairs as [->|[->|[->|[]%elem_of_nil]]]. }
  assert (Hne : flat (l ++ [(r, v)]) <> []) by (rewrite flat_app; by destruct (flat l)).
  rewrite (cmd_end_plain f _ _ _ _ _ Hb2) by (done || cbn; by rewrite Hop).
  rewrite length_flat.
  replace (Z.of_nat (2 * length (l ++ [(r, v)])) - 1) with (2 * Z.of_nat (length (l ++ [(r, v)])) - 1) by lia.
  set (h' := header _ _ _).
  eexists _, (h' :: flat (l ++ [(r, v)])). split; [reflexivity|].
  pose proof (buf_small _ _ _ Hb) as Hs. pose proof (buf_pm4 _ _ _ Hb) as Hp. pose proof (buf_ndw _ _ _ Hb) as Hn.
  assert (Hlen : length (pm4 st) = (length (concat wss) + length (flat l) + 3 + length tail)%nat).
  { rewrite Hp. lens. lia. }
  assert (Hfl : length (flat (l ++ [(r, v)])) = (length (flat l) + 2)%nat) by (rewrite flat_app; lens; cbn; lia).
  pose proof (length_flat l) as Hfl0. lens_in Hs.
  split; [|split].
  - constructor; cbn; try done.
    + constructor; cbn.
      * by assoc.
      * lens. rewrite Hfl. unfold W16 in *. rewrite Z.mod_small; lia.
      * lens. rewrite Hfl. unfold W16. lia.
    + rewrite Hm, Hlen. lens. rewrite Hfl. lia.
    + split; [|split; [done|done]].
      exists (need_reset_filter_cam (set_buf st1 (concat wss ++ x :: flat (l ++ [(r, v)])) tail)).
      unfold h'. cbn [last_opcode set_buf with_ndw with_pm4 st1 with_last_reg]. rewrite Hop.
      split; [done|]. split_and!; [done|by apply Forall_app; split; [|constructor]|by destruct l|].
      lens. lia.
  - constructor; cbn; try done. rewrite Hlen. lens. rewrite Hfl. lia.
  - cbn. rewrite Hn. lens. rewrite Hfl. unfold W16 in *. rewrite Z.mod_small; lia.
Qed.

(** * Adding a register to a packed packet *)

(** After the last value of an even packed packet: its header and count are written. *)
Lemma finish_even f st ps wss h c tail op l l' :
  buf st (concat wss ++ h :: c :: pack l) tail ->
  last_pm4 st = Z.of_nat (length (concat wss)) -> last_opcode st = op -> op ∈ packed_opcodes ->
  max_dw st = Z.of_nat (length (pm4 st)) -> max_dw st <= 0x3fff -> debug_sqtt st = false ->
  Forall2 encodes ps wss -> Forall (fun q => offset_ok q.1) l' -> l' <> [] -> l = l' ++ pad l' ->
  exists st' wo, cmd_end_with f false st = Ok st'
    /\ buf st' (concat wss ++ wo) tail /\ encodes (PPacked op l') wo
    /\ (exists h', wo = h' :: Z.of_nat (length l) :: pack l)
    /\ st' = with_pm4 (pm4 st') st /\ length (pm4 st') = length (pm4 st).
Proof.
  intros Hb Hl Hop Hpk Hm Hlim Hsq Hc Hok Hne Hpad.
  assert (He : Nat.even (length l) = true) by (rewrite Hpad; apply length_pad).
  assert (Hokl : Forall (fun q => offset_ok q.1) l) by (rewrite Hpad; by apply forall_pad).
  assert (Hnel : l <> []) by (rewrite Hpad; by destruct l').
  destruct (cmd_end_even f st _ _ _ _ _ Hb Hl) as [cam E]; [rewrite Hop; by apply packed_opcode_spec|done..|].
  rewrite E, Hop. set (n := 3 * Z.of_nat (length l) / 2).
  eexists _, (header op n cam :: Z.of_nat (length l) :: pack l). split; [reflexivity|].
  pose proof (buf_small _ _ _ Hb) as Hs. pose proof (buf_pm4 _ _ _ Hb) as Hp. pose proof (buf_ndw _ _ _ Hb) as Hn.
  lens_in Hs. pose proof (f_equal length Hp) as Hlen. lens_in Hlen.
  destruct (pack_even_len l He) as (k & Hk1 & Hk2).
  split; [|split; [|split; [|split]]].
  - constructor; cbn; [by assoc|rewrite Hn; by lens|by lens].
  - exists op, cam. rewrite <- Hpad. split_and!; try done; [by left|]. fold n. unfold n.
    rewrite Hk1. replace (3 * Z.of_nat (2 * k)) with (3 * Z.of_nat k * 2) by lia. rewrite Z.div_mul by lia. lia.
  - by eexists.
  - done.
  - cbn. rewrite Hlen. lens. lia.
Qed.

(** The second register of a triple: its offset goes in the high half of the offset word,
    its value behind. *)
Lemma put_second st pre h c l w ry vy r y tail :
  buf st (pre ++ h :: c :: pack l ++ [w; vy]) (y :: tail) ->
  last_pm4 st = Z.of_nat (length pre) -> Nat.even (length l) = true ->
  Z.land w 0xffff = ry -> offset_ok r -> packed_is_padded st = false ->
  exists st', place_packed_offset r st = Ok st'
    /\ buf st' (pre ++ h :: c :: pack l ++ [Z.lor ry (Z.shiftl r 16); vy]) (y :: tail)
    /\ st' = with_pm4 (pm4 st') st.
Proof.
  intros Hb Hl He Hw Hr Hpad. pose proof Hb as [Hp Hn Hs].
  destruct (pack_even_len l He) as (k & Hk1 & Hk2).
  unfold place_packed_offset. rewrite Hpad. unfold packed_next_is_reg_offset_pair, packed_next_is_reg_value1.
  assert (Hrem : Z.rem (ndw st - last_pm4 st) 3 = 1).
  { rewrite Hn, Hl. lens. rewrite Hk2.
    replace (Z.of_nat _) with (Z.of_nat (length pre) + 3 * (Z.of_nat k + 1) + 1) by lia.
    apply rem_packed; lia. }
  rewrite Hrem. cbn [Z.eqb Pos.eqb].
  assert (Hp2 : pm4 st = (pre ++ h :: c :: pack l) ++ w :: vy :: y :: tail) by (rewrite Hp; by assoc).
  rewrite (peek_at st _ _ _ _ Hp2) by (rewrite Hn; lens; lia). cbn [mbind result_bind].
  rewrite (poke_at st _ _ _ _ _ Hp2) by (rewrite Hn; lens; lia).
  unfold offset_ok in Hr. rewrite u32_small by (rewrite Z.shiftl_mul_pow2 by lia; unfold_words; lia).
  rewrite Hw. eexists. split; [reflexivity|]. split; [|done].
  constructor; cbn; [by assoc|rewrite Hn; by lens|lens; lens_in Hs; lia].
Qed.

(** A state that differs from another in its array only. *)
Lemma with_pm4_fields a b :
  b = with_pm4 (pm4 b) a ->
  last_pm4 b = last_pm4 a /\ last_opcode b = last_opcode a /\ packed_is_padded b = packed_is_padded a
  /\ max_dw b = max_dw a /\ debug_sqtt b = debug_sqtt a /\ info b = info a
  /\ is_compute_queue b = is_compute_queue a.
Proof. intros E. rewrite E. done. Qed.

Lemma pack_first l r0 v0 :
  l !! 0%nat = Some (r0, v0) -> Forall (fun q => offset_ok q.1) l ->
  exists w t, pack l = w :: v0 :: t /\ Z.land w 0xffff = r0.
Proof.
  intros H0 Hok. destruct l as [|[r v] [|[r1 v1] l]]; [done|..]; cbn in H0; injection H0 as -> ->; cbn [pack].
  - apply Forall_cons in Hok as [Hr _]. unfold offset_ok in Hr. cbn in Hr.
    eexists _, _. split; [done|]. change 0xffff with (Z.ones 16). apply land_ones_small; lia.
  - apply Forall_cons in Hok as [Hr [Hr1 _]%Forall_cons].
    eexists _, _. split; [done|]. by apply unpack_offsets.
Qed.

(** Reading the first register, whether or not the packet is padded yet. *)
Lemma packed_first st pre h c l tail r0 v0 :
  buf st (pre ++ h :: c :: pack l) tail -> last_pm4 st = Z.of_nat (length pre) ->
  l !! 0%nat = Some (r0, v0) -> Forall (fun q => offset_ok q.1) l ->
  get_packed_reg_dw_offsetN st 0 = Ok r0 /\ get_packed_reg_valueN st 0 = Ok v0.
Proof.
  intros [Hp Hn Hs] Hl H0 Hok. destruct (pack_first l r0 v0 H0 Hok) as (w & t & Ew & Hw). rewrite Ew in *.
  unfold get_packed_reg_dw_offsetN, get_packed_reg_valueN, get_packed_reg_valueN_idx.
  rewrite Hl, Hn. lens. change (0 / 2 * 3) with 0. change (0 mod 2) with 0. rewrite !Z.add_0_r.
  rewrite !(proj2 (Z.ltb_lt _ _)) by lia. cbn [mbind result_bind].
  rewrite (peek_at st (pre ++ [h; c]) w (v0 :: t ++ tail)) by (rewrite ?Hp; lens; assoc; done || lia).
  rewrite (peek_at st (pre ++ [h; c; w]) v0 (t ++ tail)) by (rewrite ?Hp; lens; assoc; done || lia).
  cbn [mbind result_bind]. change (0 * 16) with 0. rewrite Z.shiftr_0_r. by rewrite Hw.
Qed.

Section PackedStep.
Variable names : Z -> bool.
Variables (ps : list packet) (wss : list (list Z)) (op : Z).
Hypothesis Hc : Forall2 encodes ps wss.
Hypothesis Hpk : op ∈ packed_opcodes.

(** A packed packet under construction; [l] may be empty. *)
Record packing (st : ac_pm4_state) (l : list (Z * Z)) (h c : Z) (tail : list Z) : Prop := {
  packing_buf : buf st (concat wss ++ h :: c :: pack (l ++ pad l)) tail;
  packing_last : last_pm4 st = Z.of_nat (length (concat wss));
  packing_op : last_opcode st = op;
  packing_pad : packed_is_padded st = Nat.odd (length l);
  packing_ok : Forall (fun q => offset_ok q.1) l;
  packing_max : max_dw st = Z.of_nat (length (pm4 st));
  packing_limit : max_dw st <= 0x3fff;
  packing_sqtt : debug_sqtt st = false
}.

(** The call that repeats the first register. *)
Lemma pad_call st pre h c l r v y tail r0 v0 :
  buf st (pre ++ h :: c :: pack l ++ [r; v]) (y :: tail) ->
  last_pm4 st = Z.of_nat (length pre) -> last_opcode st = op -> packed_is_padded st = false ->
  Nat.even (length l) = true -> Forall (fun q => offset_ok q.1) l -> offset_ok r -> offset_ok r0 ->
  ndw st + 2 <= max_dw st ->
  exists st' h', set_reg_fuel names 1 (r0 * 4) v0 op 0 st = Ok st'
    /\ buf st' (pre ++ h' :: Z.of_nat (length l + 2) :: pack (l ++ [(r, v); (r0, v0)])) tail
    /\ (exists lr, st' = with_pm4 (pm4 st') (with_ndw (ndw st + 1) (with_last_reg lr 0 st)))
    /\ (exists cam, h' = header op (3 * Z.of_nat (length l + 2) / 2) cam).
Proof using Hpk.
  intros Hb Hl Hop Hpad He Hok Hr Hr0 Hroom.
  pose proof (packed_opcode_spec op Hpk) as Hpo.
  pose proof (buf_ndw _ _ _ Hb) as Hn. pose proof (buf_small _ _ _ Hb) as Hs.
  cbn [set_reg_fuel]. rewrite Z.div_mul by lia.
  replace (negb (max_dw st =? 0)) with true by lia. replace (ndw st + 2 <=? max_dw st) with true by lia.
  unfold open_packet. rewrite Hpo, Hop, !Z.eqb_refl. cbn [Z.eqb negb mbind result_bind].
  replace (r0 <=? 0xffff) with true by (unfold offset_ok in Hr0; lia).
  cbv zeta. set (st1 := with_last_reg r0 0 st).
  assert (Hb1 : buf st1 (pre ++ h :: c :: pack l ++ [r; v]) (y :: tail)) by by destruct Hb.
  assert (Hland : Z.land r 0xffff = r).
  { unfold offset_ok in Hr. change 0xffff with (Z.ones 16). apply land_ones_small; lia. }
  destruct (put_second st1 pre h c l r r v r0 y tail Hb1) as (st2 & -> & Hb2 & Est2); [done..|].
  cbn [mbind result_bind]. rewrite (push_at st2 _ y tail v0 Hb2). cbn [mbind result_bind].
  pose proof (buf_push st2 _ y tail v0 Hb2) as Hb3.
  assert (Epack : (pre ++ h :: c :: pack l ++ [Z.lor r (Z.shiftl r0 16); v]) ++ [v0]
                  = pre ++ h :: c :: pack (l ++ [(r, v); (r0, v0)])).
  { rewrite pack_app_even by done. cbn [pack]. by assoc. }
  rewrite Epack in *.
  destruct (cmd_end_even (fun _ _ _ _ _ => Fault NoFuel) _ pre h c (l ++ [(r, v); (r0, v0)]) tail Hb3) as [cam Ecam].
  - rewrite Est2. cbn. done.
  - rewrite Est2. cbn. by rewrite Hop.
  - rewrite length_app. cbn [length]. by rewrite Nat.even_add, He.
  - by destruct l.
  - apply Forall_app. split; [done|]. by rewrite !Forall_cons.
  - rewrite Ecam. eexists _, _. split; [reflexivity|]. rewrite Est2. cbn [last_opcode set_buf with_ndw with_pm4 st1 with_last_reg].
    rewrite Hop, length_app. cbn [length]. split; [|split; [|by eexists]].
    + lens_in Hs. pose proof (buf_ndw _ _ _ Hb3) as Hn3. pose proof (buf_small _ _ _ Hb3) as Hs3.
      constructor; cbn; [by assoc| |lens; lens_in Hs3; lia].
      rewrite Z.mod_small; [lens; lia|]. lens. lens_in Hs3. lia.
    + exists r0. unfold with_pm4, with_ndw, with_last_reg. cbn. f_equal.
      rewrite Hn. pose proof (pack_app_even l [(r, v); (r0, v0)] He) as Epa. rewrite Epa. f_equal. lens. cbn [pack length]. lia.
Qed.

Definition add_packed (r v : Z) (st : ac_pm4_state) : result ac_pm4_state :=
  let! st := place_packed_offset r (with_last_reg r 0 st) ;;
  let! st := push v st ;;
  cmd_end_with (set_reg_fuel names 1) false st.

Definition packed_added (st : ac_pm4_state) (l : list (Z * Z)) (r v : Z) : Prop :=
  exists st' wo tail', add_packed r v st = Ok st'
    /\ rep st' ps wss (Some (PPacked op (l ++ [(r, v)]))) wo tail' /\ keeps_chip st st' /\ ndw st' <= ndw st + 3.

(** The register takes the place of the padding. *)
Lemma packed_step_odd st l h c tail r v :
  packing st l h c tail -> Nat.odd (length l) = true -> offset_ok r -> packed_added st l r v.
Proof using Hc Hpk.
  intros [Hb Hl Hop Hpad Hok Hm Hlim Hsq] Hodd Hr.
  destruct (exists_last (l := l)) as (l0 & [ry vy] & El); [by destruct l|].
  assert (He0 : Nat.even (length l0) = true).
  { rewrite El, length_app in Hodd. cbn [length] in Hodd. rewrite Nat.add_1_r, Nat.odd_succ in Hodd. done. }
  assert (Hpl : pad l = take 1 l) by (unfold pad; by rewrite Hodd).
  destruct l as [|[ra va] l'] eqn:Ell; [done|]. rewrite <- Ell in *.
  assert (Hpl2 : pad l = [(ra, va)]) by (rewrite Hpl, Ell; done).
  assert (Epk : pack (l ++ pad l) = pack l0 ++ [Z.lor ry (Z.shiftl ra 16); vy; va]).
  { rewrite Hpl2, El, <- app_assoc, pack_app_even by done. done. }
  assert (Hry : offset_ok ry).
  { rewrite El, Forall_app, Forall_singleton in Hok. apply Hok. }
  assert (Hra : offset_ok ra).
  { rewrite Ell, Forall_cons in Hok. apply Hok. }
  rewrite Epk in Hb. pose proof Hb as [Hp Hn Hs]. lens_in Hn. lens_in Hs.
  set (w := Z.lor ry (Z.shiftl ra 16)) in *.
  set (st1 := with_ndw (ndw st - 1) (with_padded false (with_last_reg r 0 st))).
  assert (Hb1 : buf st1 (concat wss ++ h :: c :: pack l0 ++ [w; vy]) (va :: tail)).
  { constructor; cbn; [rewrite Hp; by assoc| |lens; lia].
    rewrite Hn. lens. unfold W16 in *. rewrite Z.mod_small; lia. }
  destruct (put_second st1 _ h c l0 w ry vy r va tail Hb1 Hl He0) as (st2 & E2 & Hb2 & Est2);
    [by apply unpack_offsets|done|done|].
  assert (Eplace : place_packed_offset r (with_last_reg r 0 st) = Ok st2).
  { rewrite <- E2. unfold place_packed_offset at 1. cbn [packed_is_padded with_last_reg]. by rewrite Hpad, Hodd. }
  unfold packed_added, add_packed. rewrite Eplace. cbn [mbind result_bind].
  rewrite (push_at st2 _ va tail v Hb2). cbn [mbind result_bind].
  pose proof (buf_push st2 _ va tail v Hb2) as Hb3.
  assert (Epl : l ++ [(r, v)] = l0 ++ [(ry, vy); (r, v)]) by (rewrite El; by assoc).
  assert (Ew : (concat wss ++ h :: c :: pack l0 ++ [Z.lor ry (Z.shiftl r 16); vy]) ++ [v]
               = concat wss ++ h :: c :: pack (l ++ [(r, v)])).
  { rewrite Epl, pack_app_even by done. by assoc. }
  rewrite Ew in *.
  assert (Hpad' : pad (l ++ [(r, v)]) = []).
  { unfold pad. rewrite length_app. cbn [length]. by rewrite Nat.add_1_r, odd_even_S, Hodd. }
  set (st3 := set_buf st2 _ _) in *.
  assert (Hlen3 : length (pm4 st3) = length (pm4 st)).
  { rewrite (buf_pm4 _ _ _ Hb3), Hp, Epl, pack_app_even by done. cbn [pack]. lens. lia. }
  destruct (with_pm4_fields _ _ Est2) as (F1 & F2 & F3 & F4 & F5 & F6 & F7).
  cbn in F1, F2, F3, F4, F5, F6, F7.
  destruct (finish_even (set_reg_fuel names 1) st3 ps wss h c tail op (l ++ [(r, v)]) (l ++ [(r, v)]) Hb3)
    as (st' & wo & E' & Hb' & He' & _ & Est' & Hlen').
  { cbn. by rewrite F1. } { cbn. by rewrite F2. } { done. } { rewrite Hlen3. cbn. by rewrite F4. }
  { cbn. by rewrite F4. } { cbn. by rewrite F5. } { done. }
  { apply Forall_app. split; [done|]. by rewrite Forall_singleton. }
  { by destruct l. } { by rewrite Hpad', app_nil_r. }
  destruct (with_pm4_fields _ _ Est') as (G1 & G2 & G3 & G4 & G5 & G6 & G7).
  cbn in G1, G2, G3, G4, G5, G6, G7.
  exists st', wo, tail. split; [done|].
  split; [|split].
  - constructor; [done|congruence|lia|congruence|done|].
    split; [done|]. split; [congruence|]. split; [congruence|].
    rewrite G3, F3, length_app. cbn [length]. by rewrite Nat.add_1_r, odd_even_S, Hodd.
  - constructor; congruence.
  - rewrite (buf_ndw _ _ _ Hb'), Hn. pose proof (f_equal length (buf_pm4 _ _ _ Hb')) as H1. lens_in H1.
    rewrite Hlen', Hlen3, Hp in H1. lens_in H1. lens. lia.
Qed.

(** Ending a packet with an odd number of registers repeats the first one. *)
Lemma cmd_end_odd st pre h c l r v y tail r0 v0 :
  buf st (pre ++ h :: c :: pack l ++ [r; v]) (y :: tail) ->
  last_pm4 st = Z.of_nat (length pre) -> last_opcode st = op -> packed_is_padded st = false ->
  Nat.even (length l) = true -> Forall (fun q => offset_ok q.1) l -> offset_ok r ->
  (l ++ [(r, v)]) !! 0%nat = Some (r0, v0) -> ndw st + 2 <= max_dw st ->
  exists st' cam, cmd_end_with (set_reg_fuel names 1) false st = Ok st'
    /\ buf st' (pre ++ header op (3 * Z.of_nat (length l + 2) / 2) cam :: Z.of_nat (length l + 2)
                 :: pack (l ++ [(r, v); (r0, v0)])) tail
    /\ exists lr, st' = with_padded true (with_pm4 (pm4 st') (with_ndw (ndw st + 1) (with_last_reg lr 0 st))).
Proof using Hpk.
  intros Hb Hl Hop Hpad He Hok Hr H0 Hroom. pose proof Hb as [Hp Hn Hs]. lens_in Hn. lens_in Hs.
  pose proof (packed_opcode_spec op Hpk) as Hpo.
  assert (Hok' : Forall (fun q => offset_ok q.1) (l ++ [(r, v)])).
  { apply Forall_app. split; [done|]. by rewrite Forall_singleton. }
  assert (Hr0 : offset_ok r0) by (rewrite Forall_lookup in Hok'; by apply (Hok' _ _ H0)).
  assert (Epk : pack (l ++ [(r, v)]) = pack l ++ [r; v]) by by rewrite pack_app_even.
  unfold cmd_end_with.
  rewrite (poke_at st pre h (c :: pack l ++ [r; v] ++ y :: tail)) by (done || (rewrite Hp; by assoc)).
  cbn [mbind result_bind last_opcode with_pm4]. rewrite Hop, Hpo.
  set (h1 := Z.lor _ _). set (st1 := with_pm4 _ st).
  assert (Hb1 : buf st1 (pre ++ h1 :: c :: pack l ++ [r; v]) (y :: tail)).
  { constructor; cbn; [by assoc|rewrite Hn; by lens|lens; lia]. }
  destruct (pack_even_len l He) as (k & Hk1 & Hk2).
  assert (Hv0 : packed_prev_is_reg_value0 st1 = true).
  { unfold packed_prev_is_reg_value0, packed_next_is_reg_value1. cbn. rewrite Hn, Hl, Hk2.
    replace (Z.of_nat _) with (Z.of_nat (length pre) + 3 * (Z.of_nat k + 1) + 1) by lia.
    by rewrite rem_packed by lia. }
  rewrite Hv0. assert (Hb1' := Hb1). rewrite <- Epk in Hb1'.
  destruct (packed_first st1 pre h1 c (l ++ [(r, v)]) (y :: tail) r0 v0 Hb1' Hl H0 Hok') as [-> ->].
  cbn [mbind result_bind].
  destruct (pad_call st1 pre h1 c l r v y tail r0 v0 Hb1 Hl Hop Hpad He Hok Hr Hr0 Hroom)
    as (st2 & h2 & E2 & Hb2 & (lr & Est2) & (cam & ->)).
  rewrite E2. cbn [mbind result_bind].
  assert (Hlast2 : last_pm4 st2 = Z.of_nat (length pre)) by (rewrite Est2; done).
  set (l2 := l ++ [(r, v); (r0, v0)]) in *.
  assert (Hlen2 : length l2 = (length l + 2)%nat) by (unfold l2; by lens).
  assert (He2 : Nat.even (length l2) = true) by (rewrite Hlen2, Nat.even_add, He; done).
  assert (Hok2 : Forall (fun q => offset_ok q.1) l2).
  { unfold l2. rewrite Forall_app, !Forall_cons. done. }
  set (h2 := header op _ cam) in *. set (n2 := Z.of_nat (length l + 2)) in *.
  set (st3 := with_padded true st2).
  assert (Hb3 : buf st3 (pre ++ h2 :: n2 :: pack l2) tail) by by destruct Hb2.
  rewrite (packed_count st3 pre h2 n2 l2 tail Hb3 Hlast2 He2 Hok2) by by destruct l.
  cbn [mbind result_bind].
  rewrite (poke_at st3 (pre ++ [h2]) n2 (pack l2 ++ tail)).
  2: { rewrite (buf_pm4 _ _ _ Hb3). by assoc. } 2: { cbn. rewrite Hlast2. lens. lia. }
  eexists _, cam. split; [reflexivity|].
  assert (Epm4 : (pre ++ [h2]) ++ Z.of_nat (length l2) :: pack l2 ++ tail = pm4 st2).
  { rewrite (buf_pm4 _ _ _ Hb2), Hlen2. by assoc. }
  rewrite Epm4. split; [by destruct Hb3|]. exists lr.
  assert (Es : with_pm4 (pm4 st2) st3 = with_padded true st2) by done. rewrite Es. rewrite Est2 at 1. done.
Qed.

(** The register is followed by a repetition of the first one. *)
Lemma packed_step_even st l h c tail r v :
  packing st l h c tail -> Nat.odd (length l) = false -> offset_ok r -> ndw st + 4 <= max_dw st ->
  packed_added st l r v.
Proof using Hc Hpk.
  intros [Hb Hl Hop Hpad Hok Hm Hlim Hsq] Hodd Hr Hroom. pose proof (packed_opcode_spec op Hpk) as Hpo.
  assert (He : Nat.even (length l) = true) by (rewrite <- Nat.negb_odd; by rewrite Hodd).
  assert (Hpl : pad l = []) by (unfold pad; by rewrite Hodd).
  rewrite Hpl, app_nil_r in Hb. pose proof Hb as [Hp Hn Hs]. pose proof (f_equal length Hp) as Hlen.
  lens_in Hlen. lens_in Hn. lens_in Hs. destruct (pack_even_len l He) as (k & Hk1 & Hk2).
  destruct tail as [|y1 [|y2 [|y3 tail]]]; cbn [length] in Hlen; [lia..|].
  set (st0 := with_last_reg r 0 st).
  assert (Hb0 : buf st0 (concat wss ++ h :: c :: pack l) (y1 :: y2 :: y3 :: tail)) by by destruct Hb.
  assert (Hplace : place_packed_offset r st0 = push r st0).
  { unfold place_packed_offset. cbn [packed_is_padded st0 with_last_reg]. rewrite Hpad, Hodd.
    unfold packed_next_is_reg_offset_pair. cbn [ndw last_pm4 st0 with_last_reg]. rewrite Hn, Hl, Hk2.
    replace (Z.of_nat _) with (Z.of_nat (length (concat wss)) + 3 * Z.of_nat k + 2) by lia.
    by rewrite rem_packed by lia. }
  unfold packed_added, add_packed. fold st0. rewrite Hplace, (push_at st0 _ _ _ r Hb0). cbn [mbind result_bind].
  pose proof (buf_push st0 _ _ _ r Hb0) as Hb1.
  rewrite (push_at _ _ _ _ v Hb1). cbn [mbind result_bind].
  pose proof (buf_push _ _ _ _ v Hb1) as Hb2. set (st2 := set_buf (set_buf _ _ _) _ _) in *.
  assert (Ew : ((concat wss ++ h :: c :: pack l) ++ [r]) ++ [v] = concat wss ++ h :: c :: pack l ++ [r; v])
    by by assoc.
  rewrite Ew in Hb2.
  destruct (lookup_lt_is_Some_2 (l ++ [(r, v)]) 0) as [[r0 v0] H0]; [lens; lia|].
  destruct (cmd_end_odd st2 (concat wss) h c l r v y3 tail r0 v0 Hb2) as (st' & cam & E' & Hb' & (lr & Est')); try done.
  { cbn. by rewrite Hpad, Hodd. }
  { rewrite (buf_ndw _ _ _ Hb2). cbn. lens. lia. }
  rewrite E'.
  assert (Hok' : Forall (fun q => offset_ok q.1) (l ++ [(r, v)])).
  { apply Forall_app. split; [done|]. by rewrite Forall_singleton. }
  assert (Hodd' : Nat.odd (length (l ++ [(r, v)])) = true) by (lens; by rewrite Nat.add_1_r, odd_even_S, Hodd).
  assert (Hpad' : pad (l ++ [(r, v)]) = [(r0, v0)]).
  { unfold pad. rewrite Hodd'. destruct (l ++ [(r, v)]) eqn:E; [done|]. cbn in H0. by simplify_eq. }
  assert (Hlen' : length (pm4 st') = length (pm4 st)).
  { rewrite (buf_pm4 _ _ _ Hb'), Hp. rewrite pack_app_even by done. cbn [pack]. lens. lia. }
  set (n2 := Z.of_nat (length l + 2)) in *.
  eexists st', (header op (3 * n2 / 2) cam :: n2 :: pack (l ++ [(r, v); (r0, v0)])), tail.
  split; [done|]. split; [|split].
  - constructor; [done|rewrite Est' at 1; cbn; by rewrite Hlen'|rewrite Est'; cbn; done|rewrite Est'; cbn; done|done|].
    split; [|rewrite Est'; cbn; by rewrite Hodd'].
    exists op, cam. rewrite Hpad', <- app_assoc. cbn [app].
    replace (Z.of_nat (length (l ++ [(r, v); (r0, v0)]))) with n2 by (unfold n2; lens; done).
    split_and!; [done|done|by left|done|by destruct l|].
    unfold n2. rewrite Hk1. replace (3 * Z.of_nat (2 * k + 2)) with (3 * (Z.of_nat k + 1) * 2) by lia.
    rewrite Z.div_mul by lia. lia.
  - constructor; try (rewrite Est'; cbn; done).
  - rewrite (buf_ndw _ _ _ Hb'), Hn, pack_app_even by done. cbn [pack]. lens. lia.
Qed.
End PackedStep.

(** * One register *)

Lemma opcode_kinds op :
  (op ∈ regular_opcodes -> ~ op ∈ pairs_opcodes /\ ~ op ∈ packed_opcodes /\ 0 <= op <= 254 /\ op <> 0
     /\ opcode_is_pairs_packed op = false /\ opcode_is_pairs op = false)
  /\ (op ∈ pairs_opcodes -> ~ op ∈ packed_opcodes /\ 0 <= op <= 254 /\ op <> 0
     /\ opcode_is_pairs_packed op = false /\ opcode_is_pairs op = true)
  /\ (op ∈ packed_opcodes -> 0 <= op <= 254 /\ op <> 0 /\ opcode_is_pairs_packed op = true).
Proof.
  unfold regular_opcodes, pairs_opcodes, packed_opcodes. rewrite !elem_of_cons.
  split_and!.
  - intros [->|[->|[->|[->|[->|[->|[]%elem_of_nil]]]]]]; rewrite ?elem_of_nil; vm_compute; intuition discriminate.
  - intros [->|[->|[->|[]%elem_of_nil]]]; rewrite ?elem_of_nil; vm_compute; intuition discriminate.
  - intros [->|[->|[]%elem_of_nil]]; vm_compute; intuition discriminate.
Qed.

(** The dwords an operation may need. *)
Definition reg_cost (op : Z) : Z := if opcode_is_pairs_packed op then 6 else 3.

(** What recording one register comes to. *)
Definition reg_recorded (st : ac_pm4_state) (qs : list packet) (op reg val : Z) (r : result ac_pm4_state) : Prop :=
  exists st' qs', r = Ok st' /\ holds_packets st' qs'
    /\ issues_more (opcode_is_pairs_packed op) qs qs' [Write (reg / 4 * 4 + op_base op) val]
    /\ keeps_chip st st' /\ ndw st' <= ndw st + reg_cost op.

Lemma run_writes_app reg a b :
  run_writes reg (a ++ b) = run_writes reg a ++ run_writes (reg + 4 * Z.of_nat (length a)) b.
Proof.
  revert reg. induction a as [|v a IH]; intros reg; cbn [app run_writes length].
  - by rewrite Z.add_0_r.
  - rewrite IH. do 3 f_equal. lia.
Qed.

(** The last packet of a sequence gets one more write. *)
Lemma issues_more_last b qs p p' evs :
  issued p' = issued p ++ evs -> (b = false -> unpacked p -> unpacked p') ->
  issues_more b (qs ++ [p]) (qs ++ [p']) evs.
Proof.
  intros Hi Hu. split; [by rewrite !issues_app, !issues_one, Hi, app_assoc|].
  intros Hb. rewrite !Forall_app, !Forall_singleton. naive_solver.
Qed.

(** A new packet after those of a closed state. *)
Lemma issues_more_new b qs qs' p evs :
  issues_more false qs qs' [] -> issued p = evs -> (b = false -> unpacked p) -> issues_more b qs (qs' ++ [p]) evs.
Proof.
  intros [Hi Hu] Hp Hup. split; [by rewrite issues_app, issues_one, Hi, app_nil_r, Hp|].
  intros Hb Hq. rewrite Forall_app, Forall_singleton. auto.
Qed.

Section OneRegister.
Variable names : Z -> bool.

(** The state a register packet is opened in. *)
Lemma begun_limits st st0 op ps wss x tail :
  packet_begun st st0 op ps wss x tail -> max_dw st0 = Z.of_nat (length (pm4 st0)) -> debug_sqtt st0 = false ->
  max_dw st = Z.of_nat (length (pm4 st)) /\ max_dw st = max_dw st0 /\ debug_sqtt st = false.
Proof. intros [_ [_ _ Hm Hs Hl] _ _ _ _ _] Hm0 Hs0. rewrite Hm, Hl, Hs. done. Qed.

Lemma begun_room st st0 op ps wss x tail n :
  packet_begun st st0 op ps wss x tail -> max_dw st0 = Z.of_nat (length (pm4 st0)) ->
  ndw st0 + 1 + Z.of_nat n <= max_dw st0 -> exists a b, tail = a ++ b /\ length a = n.
Proof.
  intros [[Hp Hn _] [_ _ _ _ Hl] _ _ _ _ Hle] Hm Hr. exists (take n tail), (drop n tail). rewrite take_drop.
  split; [done|]. rewrite length_take. apply (f_equal length) in Hp. lens_in Hp. lens_in Hn. lia.
Qed.

Lemma set_run_open st ps wss op idx base vals wo tail reg val :
  rep st ps wss (Some (PRun op idx base vals)) wo tail -> op ∈ regular_opcodes -> 0 <= idx < 16 ->
  reg / 4 = last_reg st + 1 -> 0 <= reg -> reg / 4 <= 0xffff -> ndw st + 3 <= max_dw st ->
  reg_recorded st (ps ++ [PRun op idx base vals]) op reg val
    (let! st := push val (with_last_reg (reg / 4) idx st) ;; cmd_end_with (set_reg_fuel names 1) false st).
Proof.
  intros Hrep Hreg Hidx Hnext H0 Hmax Hroom. pose proof Hrep as [Hb Hm Hlim Hs Hc Ho].
  destruct Ho as ((cam & Hwo & _ & _ & Hbase & Hne & _) & Hl & Hop & Hlr & Hli).
  destruct (rep_room _ _ _ _ _ _ 1 Hrep) as (a & b & -> & Ha); [lia|]. destruct a as [|y [|]]; [done| |done].
  rewrite Hwo in Hb.
  destruct (finish_run (set_reg_fuel names 1) st ps wss _ b op idx base vals (reg / 4) val y Hb)
    as (st' & wo' & E & Hrep' & Hk & Hn); [done..|lia|lia|].
  rewrite E. exists st', (ps ++ [PRun op idx base (vals ++ [val])]). split; [done|].
  split; [by exists ps, wss, (Some (PRun op idx base (vals ++ [val]))), wo', b|].
  unfold reg_cost. rewrite (proj1 (proj2 (proj2 (proj2 (proj2 (proj1 (opcode_kinds op) Hreg)))))).
  split; [|split; [done|lia]]. apply issues_more_last; [|done].
  cbn [issued]. rewrite run_writes_app. cbn [run_writes]. do 3 f_equal. lia.
Qed.

Lemma set_run_new st ps wss o wo tail op idx reg val :
  rep st ps wss o wo tail -> op ∈ regular_opcodes -> 0 <= idx < 16 ->
  0 <= reg -> reg / 4 <= 0xffff -> ndw st + 3 <= max_dw st ->
  reg_recorded st (ps ++ option_list o) op reg val
    (let! st := (let! st := ac_pm4_cmd_begin names op st ;; push (Z.lor (reg / 4) (u32 (Z.shiftl idx 28))) st) ;;
     let! st := push val (with_last_reg (reg / 4) idx st) ;; cmd_end_with (set_reg_fuel names 1) false st).
Proof.
  intros Hrep Hreg Hidx H0 Hmax Hroom. pose proof Hrep as [_ Hm Hlim Hs _ _].
  destruct (proj1 (opcode_kinds op) Hreg) as (_ & _ & Hrange & _ & Hnp & _).
  pose proof (Z.div_pos reg 4 H0 ltac:(lia)) as Hdw.
  destruct (cmd_begin_spec names st ps wss o wo tail op Hrep) as (st1 & ps' & wss' & x & tail' & E & Hbeg & Hx); [lia|done|].
  rewrite E. cbn [mbind result_bind].
  destruct (begun_limits _ _ _ _ _ _ _ Hbeg Hm Hs) as (Hm1 & Hmm & Hs1).
  destruct (begun_room _ _ _ _ _ _ _ 2 Hbeg Hm) as (a & b & -> & Ha); [lia|].
  destruct a as [|y1 [|y2 [|]]]; [done..| |done]. cbn [app] in Hbeg.
  pose proof Hbeg as [Hb1 Hk1 Hc1 Hl1 Hop1 _ Hn1].
  rewrite (u32_small (Z.shiftl idx 28)) by (rewrite Z.shiftl_mul_pow2 by lia; unfold_words; lia).
  set (off := Z.lor (reg / 4) (Z.shiftl idx 28)).
  rewrite (push_at st1 _ _ _ off Hb1). cbn [mbind result_bind].
  pose proof (buf_push st1 _ _ _ off Hb1) as Hb2. set (st2 := set_buf st1 _ _) in *.
  assert (Hlen2 : length (pm4 st2) = length (pm4 st1)) by (rewrite (buf_pm4 _ _ _ Hb2), (buf_pm4 _ _ _ Hb1); lens; lia).
  rewrite <- app_assoc in Hb2. cbn [app] in Hb2.
  destruct (finish_run (set_reg_fuel names 1) st2 ps' wss' x b op idx (reg / 4) [] (reg / 4) val y2 Hb2)
    as (st' & wo' & E' & Hrep' & Hk & Hn).
  { done. } { done. } { done. } { rewrite Hlen2. done. } { cbn. lia. } { done. } { done. } { done. } { done. }
  { cbn. lia. } { done. }
  rewrite E'. exists st', (ps' ++ [PRun op idx (reg / 4) ([] ++ [val])]). split; [done|].
  split; [by exists ps', wss', (Some (PRun op idx (reg / 4) ([] ++ [val]))), wo', b|].
  unfold reg_cost. rewrite Hnp. split; [by apply issues_more_new|].
  split.
  - eapply keeps_chip_trans; [exact Hk1|]. eapply keeps_chip_trans; [|exact Hk]. constructor; done.
  - rewrite Hn, (buf_ndw _ _ _ Hb2). rewrite (buf_ndw _ _ _ Hb1) in Hn1. lens. lens_in Hn1. lia.
Qed.

Lemma set_pairs_open st ps wss op l wo tail reg val :
  rep st ps wss (Some (PPairs op l)) wo tail -> op ∈ pairs_opcodes ->
  0 <= reg -> reg / 4 <= 0xffff -> ndw st + 3 <= max_dw st ->
  reg_recorded st (ps ++ [PPairs op l]) op reg val
    (let! st := push (reg / 4) st ;;
     let! st := push val (with_last_reg (reg / 4) 0 st) ;; cmd_end_with (set_reg_fuel names 1) false st).
Proof.
  intros Hrep Hpairs H0 Hmax Hroom. pose proof Hrep as [Hb Hm Hlim Hs Hc Ho].
  destruct (proj1 (proj2 (opcode_kinds op)) Hpairs) as (_ & _ & _ & Hnp & _).
  destruct Ho as ((cam & Hwo & _ & Hok & Hne & _) & Hl & Hop).
  pose proof (Z.div_pos reg 4 H0 ltac:(lia)) as Hdw.
  destruct (rep_room _ _ _ _ _ _ 2 Hrep) as (a & b & -> & Ha); [lia|].
  destruct a as [|y1 [|y2 [|]]]; [done..| |done]. cbn [app] in Hb.
  rewrite (push_at st _ _ _ (reg / 4) Hb). cbn [mbind result_bind].
  pose proof (buf_push st _ _ _ (reg / 4) Hb) as Hb2. rewrite Hwo in *. set (st2 := set_buf st _ _) in *.
  assert (Hlen2 : length (pm4 st2) = length (pm4 st)) by (rewrite (buf_pm4 _ _ _ Hb2), (buf_pm4 _ _ _ Hb); lens; lia).
  pose proof (buf_ndw _ _ _ Hb2) as Hn2. pose proof (buf_ndw _ _ _ Hb) as Hn. lens_in Hn2. lens_in Hn.
  rewrite <- app_assoc in Hb2. cbn [app] in Hb2.
  destruct (finish_pairs (set_reg_fuel names 1) st2 ps wss _ b op l (reg / 4) val y2 Hb2)
    as (st' & wo' & E & Hrep' & Hk & Hn'); [done|done|done|by rewrite Hlen2|done|done|done|done|by unfold offset_ok|].
  rewrite E. exists st', (ps ++ [PPairs op (l ++ [(reg / 4, val)])]). split; [done|].
  split; [by exists ps, wss, (Some (PPairs op (l ++ [(reg / 4, val)]))), wo', b|].
  unfold reg_cost. rewrite Hnp. split; [|split].
  - apply issues_more_last; [|done]. cbn [issued]. by rewrite fmap_app.
  - eapply keeps_chip_trans; [|exact Hk]. constructor; done.
  - rewrite Hn', Hn2. lia.
Qed.

Lemma set_pairs_new st ps wss o wo tail op reg val :
  rep st ps wss o wo tail -> op ∈ pairs_opcodes ->
  0 <= reg -> reg / 4 <= 0xffff -> ndw st + 3 <= max_dw st ->
  reg_recorded st (ps ++ option_list o) op reg val
    (let! st := (let! st := ac_pm4_cmd_begin names op st ;; push (reg / 4) st) ;;
     let! st := push val (with_last_reg (reg / 4) 0 st) ;; cmd_end_with (set_reg_fuel names 1) false st).
Proof.
  intros Hrep Hpairs H0 Hmax Hroom. pose proof Hrep as [_ Hm Hlim Hs _ _].
  destruct (proj1 (proj2 (opcode_kinds op)) Hpairs) as (_ & Hrange & _ & Hnp & _).
  pose proof (Z.div_pos reg 4 H0 ltac:(lia)) as Hdw.
  destruct (cmd_begin_spec names st ps wss o wo tail op Hrep) as (st1 & ps' & wss' & x & tail' & E & Hbeg & Hx); [lia|done|].
  rewrite E. cbn [mbind result_bind].
  destruct (begun_limits _ _ _ _ _ _ _ Hbeg Hm Hs) as (Hm1 & Hmm & Hs1).
  destruct (begun_room _ _ _ _ _ _ _ 2 Hbeg Hm) as (a & b & -> & Ha); [lia|].
  destruct a as [|y1 [|y2 [|]]]; [done..| |done]. cbn [app] in Hbeg.
  pose proof Hbeg as [Hb1 Hk1 Hc1 Hl1 Hop1 _ Hn1].
  rewrite (push_at st1 _ _ _ (reg / 4) Hb1). cbn [mbind result_bind].
  pose proof (buf_push st1 _ _ _ (reg / 4) Hb1) as Hb2. set (st2 := set_buf st1 _ _) in *.
  assert (Hlen2 : length (pm4 st2) = length (pm4 st1)) by (rewrite (buf_pm4 _ _ _ Hb2), (buf_pm4 _ _ _ Hb1); lens; lia).
  pose proof (buf_ndw _ _ _ Hb2) as Hn2. rewrite (buf_ndw _ _ _ Hb1) in Hn1. lens_in Hn2. lens_in Hn1.
  rewrite <- app_assoc in Hb2. cbn [app] in Hb2.
  destruct (finish_pairs (set_reg_fuel names 1) st2 ps' wss' x b op [] (reg / 4) val y2 Hb2)
    as (st' & wo' & E' & Hrep' & Hk & Hn').
  { done. } { done. } { done. } { rewrite Hlen2. done. } { cbn. lia. } { done. } { done. } { done. }
  { by unfold offset_ok. }
  rewrite E'. exists st', (ps' ++ [PPairs op ([] ++ [(reg / 4, val)])]). split; [done|].
  split; [by exists ps', wss', (Some (PPairs op ([] ++ [(reg / 4, val)]))), wo', b|].
  unfold reg_cost. rewrite Hnp. split; [by apply issues_more_new|]. split.
  - eapply keeps_chip_trans; [exact Hk1|]. eapply keeps_chip_trans; [|exact Hk]. constructor; done.
  - rewrite Hn', Hn2. lia.
Qed.

Lemma set_packed_open st ps wss op l wo tail reg val :
  rep st ps wss (Some (PPacked op l)) wo tail -> op ∈ packed_opcodes ->
  0 <= reg -> reg / 4 <= 0xffff -> ndw st + 6 <= max_dw st ->
  reg_recorded st (ps ++ [PPacked op l]) op reg val (add_packed names (reg / 4) val st).
Proof.
  intros Hrep Hpk H0 Hmax Hroom. pose proof Hrep as [Hb Hm Hlim Hs Hc Ho].
  destruct (proj2 (proj2 (opcode_kinds op)) Hpk) as (_ & _ & Hp).
  destruct Ho as ((op' & cam & Hwo & _ & _ & Hok & Hne & _) & Hl & Hop & Hpad).
  pose proof (Z.div_pos reg 4 H0 ltac:(lia)) as Hdw. rewrite Hwo in Hb.
  assert (Hpa : packing wss op st l _ _ tail) by by constructor.
  assert (Hadd : packed_added names ps wss op st l (reg / 4) val).
  { destruct (Nat.odd (length l)) eqn:E.
    - eapply packed_step_odd; [done..|by unfold offset_ok].
    - eapply packed_step_even; [done..|by unfold offset_ok|lia]. }
  destruct Hadd as (st' & wo' & tail' & E & Hrep' & Hk & Hn).
  exists st', (ps ++ [PPacked op (l ++ [(reg / 4, val)])]). split; [done|].
  split; [by exists ps, wss, (Some (PPacked op (l ++ [(reg / 4, val)]))), wo', tail'|].
  unfold reg_cost. rewrite Hp. split; [|split; [done|lia]].
  apply issues_more_last; [|done]. cbn [issued]. by rewrite fmap_app.
Qed.

Lemma set_packed_new st ps wss o wo tail op reg val :
  rep st ps wss o wo tail -> op ∈ packed_opcodes ->
  0 <= reg -> reg / 4 <= 0xffff -> ndw st + 6 <= max_dw st ->
  reg_recorded st (ps ++ option_list o) op reg val
    (let! st := (let! st := ac_pm4_cmd_begin names op st ;; Ok (with_ndw (ndw st + 1) st)) ;;
     add_packed names (reg / 4) val st).
Proof.
  intros Hrep Hpk H0 Hmax Hroom. pose proof Hrep as [_ Hm Hlim Hs _ _].
  destruct (proj2 (proj2 (opcode_kinds op)) Hpk) as (Hrange & _ & Hp).
  pose proof (Z.div_pos reg 4 H0 ltac:(lia)) as Hdw.
  destruct (cmd_begin_spec names st ps wss o wo tail op Hrep) as (st1 & ps' & wss' & x & tail' & E & Hbeg & Hx); [lia|done|].
  rewrite E. cbn [mbind result_bind].
  destruct (begun_limits _ _ _ _ _ _ _ Hbeg Hm Hs) as (Hm1 & Hmm & Hs1).
  destruct (begun_room _ _ _ _ _ _ _ 1 Hbeg Hm) as (a & b & -> & Ha); [lia|].
  destruct a as [|y [|]]; [done| |done]. cbn [app] in Hbeg.
  pose proof Hbeg as [[Hp1 Hn1 Hs1'] Hk1 Hc1 Hl1 Hop1 Hpd1 Hle1].
  set (st2 := with_ndw (ndw st1 + 1) st1).
  assert (Hn2 : ndw st2 = Z.of_nat (length (concat wss') + 2)).
  { cbn. rewrite Hn1. lens. lens_in Hs1'. unfold W16 in *. rewrite Z.mod_small; lia. }
  assert (Hpa : packing wss' op st2 [] x y b).
  { constructor; [|done|done|done|constructor|done|cbn; lia|done].
    change (pack ([] ++ pad [])) with (@nil Z).
    constructor; [cbn; rewrite Hp1; by assoc|rewrite Hn2; lens; lia|lens; lens_in Hs1'; lia]. }
  destruct (packed_step_even names ps' wss' op Hc1 Hpk st2 [] x y b (reg / 4) val Hpa)
    as (st' & wo' & tail' & E' & Hrep' & Hk & Hn); [done|by unfold offset_ok|cbn [max_dw st2 with_ndw]; rewrite Hn2; lens_in Hn1; lia|].
  rewrite E'. exists st', (ps' ++ [PPacked op ([] ++ [(reg / 4, val)])]). split; [done|].
  split; [by exists ps', wss', (Some (PPacked op ([] ++ [(reg / 4, val)]))), wo', tail'|].
  unfold reg_cost. rewrite Hp. split; [by apply issues_more_new|]. split.
  - eapply keeps_chip_trans; [exact Hk1|]. eapply keeps_chip_trans; [|exact Hk]. constructor; done.
  - lens_in Hn1. lia.
Qed.
End OneRegister.
