(* ===== verification/RegPm4Main.v ===== *)
(** The packet builder refines its contract: the stream it leaves performs the register
    writes asked for, through TITAN's map, in any form the chip prefers; and where it
    does not. Any sequence of recording operations is a list of [reg_op]. *)

From stdpp Require Import gmap.
From S2P Require Import Prelude Pm4 CText TitanMap TitanProofs RegPm4 RegPm4Spec RegPm4Proofs RegPm4Ops.
Open Scope Z_scope.

(** * ac_pm4_set_reg_custom *)

Definition custom_ok (op idx : Z) : Prop :=
  op ∈ regular_opcodes /\ 0 <= idx < 16 \/ (op ∈ pairs_opcodes \/ op ∈ packed_opcodes) /\ idx = 0.

(** With the opcode of the last packet, that packet is open and of that kind. *)
Lemma open_regular st start o wo :
  open_ok st start o wo -> last_opcode st ∈ regular_opcodes ->
  exists idx base vals, o = Some (PRun (last_opcode st) idx base vals) /\ idx = last_idx st.
Proof.
  intros Ho Hreg. destruct (proj1 (opcode_kinds _) Hreg) as (Hnp & Hnk & _ & H0 & _).
  destruct o as [[op idx base vals|op l|op l|dws]|]; cbn in Ho.
  - destruct Ho as (_ & _ & <- & _ & <-). eauto.
  - destruct Ho as ((cam & _ & Hk & _) & _ & E). rewrite E in *. by destruct Hnp.
  - destruct Ho as ((op' & cam & _ & Hk & _) & _ & E & _). rewrite E in *. by destruct Hnk.
  - by destruct Ho as (_ & _ & ?).
  - destruct Ho as [_ [E|E]]; [done|]. rewrite E in Hreg. unfold regular_opcodes in Hreg.
    rewrite !elem_of_cons in Hreg. by destruct Hreg as [?|[?|[?|[?|[?|[?|[]%elem_of_nil]]]]]].
Qed.

Lemma open_pairs st start o wo :
  open_ok st start o wo -> last_opcode st ∈ pairs_opcodes -> exists l, o = Some (PPairs (last_opcode st) l).
Proof.
  intros Ho Hp. destruct (proj1 (proj2 (opcode_kinds _)) Hp) as (Hnk & _ & H0 & _).
  destruct o as [[op idx base vals|op l|op l|dws]|]; cbn in Ho.
  - destruct Ho as ((cam & _ & Hk & _) & _ & E & _). rewrite <- E in Hk.
    by destruct (proj1 (opcode_kinds _) Hk) as (? & _).
  - destruct Ho as (_ & _ & <-). eauto.
  - destruct Ho as ((op' & cam & _ & Hk & _) & _ & E & _). rewrite E in *. by destruct Hnk.
  - by destruct Ho as (_ & _ & ?).
  - destruct Ho as [_ [E|E]]; [done|]. rewrite E in Hp. unfold pairs_opcodes in Hp.
    rewrite !elem_of_cons in Hp. by destruct Hp as [?|[?|[?|[]%elem_of_nil]]].
Qed.

Lemma open_packed st start o wo :
  open_ok st start o wo -> last_opcode st ∈ packed_opcodes -> exists l, o = Some (PPacked (last_opcode st) l).
Proof.
  intros Ho Hp. destruct (proj2 (proj2 (opcode_kinds _)) Hp) as (_ & H0 & _).
  destruct o as [[op idx base vals|op l|op l|dws]|]; cbn in Ho.
  - destruct Ho as ((cam & _ & Hk & _) & _ & E & _). rewrite <- E in Hk.
    by destruct (proj1 (opcode_kinds _) Hk) as (_ & ? & _).
  - destruct Ho as ((cam & _ & Hk & _) & _ & E). rewrite <- E in Hk.
    by destruct (proj1 (proj2 (opcode_kinds _)) Hk) as (? & _).
  - destruct Ho as (_ & _ & <- & _). eauto.
  - by destruct Ho as (_ & _ & ?).
  - destruct Ho as [_ [E|E]]; [done|]. rewrite E in Hp. unfold packed_opcodes in Hp.
    rewrite !elem_of_cons in Hp. by destruct Hp as [?|[?|[]%elem_of_nil]].
Qed.

Section Run.
Variable names : Z -> bool.

Lemma set_reg_custom_spec st qs reg val op idx :
  holds_packets st qs -> custom_ok op idx -> 0 <= reg -> reg / 4 <= 0xffff ->
  ndw st + reg_cost op <= max_dw st ->
  reg_recorded st qs op reg val (ac_pm4_set_reg_custom names reg val op idx st).
Proof.
  intros (ps & wss & o & wo & tail & Hrep & ->) Hok H0 Hmax Hroom.
  pose proof (rep_open _ _ _ _ _ _ Hrep) as Ho. pose proof (buf_ndw _ _ _ (rep_buf _ _ _ _ _ _ Hrep)) as Hn.
  assert (Hroom2 : ndw st + 2 <= max_dw st) by (unfold reg_cost in Hroom; destruct (opcode_is_pairs_packed op); lia).
  unfold ac_pm4_set_reg_custom. set (k := 2%nat). cbn [set_reg_fuel k].
  replace (negb (max_dw st =? 0)) with true by lia. replace (ndw st + 2 <=? max_dw st) with true by lia.
  replace (reg / 4 <=? 0xffff) with true by lia. unfold open_packet. cbv zeta.
  destruct Hok as [[Hreg Hidx]|[Hpp ->]].
  - destruct (proj1 (opcode_kinds op) Hreg) as (_ & _ & _ & _ & Enp & Ep).
    unfold reg_cost in Hroom. rewrite Enp in *. rewrite Ep. cbn [mbind result_bind].
    destruct (negb (op =? last_opcode st) || negb (reg / 4 =? last_reg st + 1) || negb (idx =? last_idx st)) eqn:E.
    + eapply set_run_new; [exact Hrep|done..].
    + cbn [mbind result_bind]. apply orb_false_elim in E as [[E1 E2]%orb_false_elim E3].
      assert (op = last_opcode st) as -> by lia. assert (idx = last_idx st) as -> by lia.
      destruct (open_regular _ _ _ _ Ho Hreg) as (idx & base & vals & -> & ->).
      eapply set_run_open; [exact Hrep|done|done|lia|done..].
  - destruct Hpp as [Hpairs|Hpk].
    + destruct (proj1 (proj2 (opcode_kinds op)) Hpairs) as (_ & _ & _ & Enp & Ep).
      unfold reg_cost in Hroom. rewrite Enp in *. rewrite Ep. cbn [Z.eqb].
      destruct (op =? last_opcode st) eqn:E; cbn [negb mbind result_bind].
      * assert (op = last_opcode st) as -> by lia. destruct (open_pairs _ _ _ _ Ho Hpairs) as [l ->].
        by eapply set_pairs_open.
      * apply set_pairs_new with (wss := wss) (wo := wo) (tail := tail); done.
    + destruct (proj2 (proj2 (opcode_kinds op)) Hpk) as (_ & _ & Ep).
      unfold reg_cost in Hroom. rewrite Ep in *. cbn [Z.eqb].
      destruct (op =? last_opcode st) eqn:E; cbn [negb mbind result_bind].
      * assert (op = last_opcode st) as -> by lia. destruct (open_packed _ _ _ _ Ho Hpk) as [l ->].
        by eapply set_packed_open.
      * apply set_packed_new with (wss := wss) (wo := wo) (tail := tail); done.
Qed.

(** * Packets added dword by dword *)

Lemma cmd_add_all_spec dws st ws a b :
  buf st ws (a ++ b) -> length a = length dws -> dws <> [] ->
  ndw st + Z.of_nat (length dws) <= max_dw st ->
  cmd_add_all dws st = Ok (with_opcode 255 (set_buf st (ws ++ dws) b)).
Proof.
  revert st ws a. induction dws as [|dw dws IH]; intros st ws a Hb Ha Hne Hroom; [done|].
  destruct a as [|x a]; [done|]. cbn [app length] in *. cbn [cmd_add_all].
  pose proof (buf_ndw _ _ _ Hb) as Hn.
  unfold ac_pm4_cmd_add. replace (negb (max_dw st =? 0)) with true by lia.
  replace (ndw st <? max_dw st) with true by lia. rewrite (push_at st ws x (a ++ b) dw Hb). cbn [mbind result_bind].
  pose proof (buf_push st ws x (a ++ b) dw Hb) as Hb1. set (st1 := set_buf _ _ _) in *.
  destruct dws as [|dw' dws'].
  - destruct a; [|done]. done.
  - rewrite (IH (with_opcode 255 st1) (ws ++ [dw]) a); [|by destruct Hb1|lia|done|].
    + f_equal. unfold set_buf, with_opcode, with_ndw, with_pm4. cbn. by rewrite <- app_assoc.
    + cbn [ndw max_dw with_opcode]. rewrite (buf_ndw _ _ _ Hb1). cbn [max_dw st1 set_buf with_ndw with_pm4].
      lens. cbn [length] in *. lia.
Qed.

Lemma cmd_add_packet_spec st qs dws :
  holds_packets st qs -> raw_packet dws -> ndw st + Z.of_nat (length dws) <= max_dw st ->
  exists st', cmd_add_all dws st = Ok st' /\ holds_packets st' (qs ++ [PRaw dws]) /\ keeps_chip st st'
    /\ ndw st' = ndw st + Z.of_nat (length dws).
Proof.
  intros (ps & wss & o & wo & tail & Hrep & ->) Hraw Hroom.
  assert (Hne : dws <> []) by by destruct Hraw as (?&?&?&?&->&_).
  destruct (rep_room _ _ _ _ _ _ (length dws) Hrep Hroom) as (a & b & -> & Ha).
  pose proof Hrep as [Hb Hm Hlim Hs Hc Ho].
  rewrite (cmd_add_all_spec dws st _ a b Hb Ha Hne Hroom). eexists. split; [reflexivity|].
  set (st' := with_opcode 255 _). pose proof (buf_small _ _ _ Hb) as Hsm.
  assert (Hb' : buf st' ((concat wss ++ wo) ++ dws) b).
  { assert (buf (set_buf st ((concat wss ++ wo) ++ dws) b) ((concat wss ++ wo) ++ dws) b) as []; [|done].
    apply buf_set_buf. lens. lens_in Hsm. lia. }
  assert (Hlen : length (pm4 st') = length (pm4 st)).
  { rewrite (buf_pm4 _ _ _ Hb'), (buf_pm4 _ _ _ Hb). lens. lia. }
  split; [|split].
  - destruct o as [p|]; cbn [option_list option_rect] in *.
    + exists (ps ++ [p; PRaw dws]), (wss ++ [wo; dws]), None, [], b. split; [|by rewrite app_nil_r, <- app_assoc].
      constructor; [|rewrite Hlen; done|done|done| |by split; [|right]].
      * rewrite concat_app. cbn [concat]. rewrite !app_nil_r. by rewrite <- app_assoc in Hb'.
      * apply Forall2_app; [done|]. destruct Ho as [He _]. by repeat constructor.
    + destruct Ho as [-> _]. rewrite app_nil_r in Hb'.
      exists (ps ++ [PRaw dws]), (wss ++ [dws]), None, [], b. split; [|by rewrite !app_nil_r].
      constructor; [|rewrite Hlen; done|done|done| |by split; [|right]].
      * rewrite concat_app. cbn [concat]. by rewrite !app_nil_r.
      * apply Forall2_app; [done|]. by repeat constructor.
  - by constructor.
  - rewrite (buf_ndw _ _ _ Hb'), (buf_ndw _ _ _ Hb). lens. lia.
Qed.
End Run.

(** * Operations *)

Inductive reg_op :=
| OSet (reg val : Z)                       (* ac_pm4_set_reg *)
| OCustom (reg val op idx : Z)             (* ac_pm4_set_reg_custom *)
| OPacket (dws : list Z).                  (* a packet, by ac_pm4_cmd_add *)

Definition reg_op_ok (o : reg_op) : Prop :=
  match o with
  | OSet reg _ => True
  | OCustom reg _ op idx => custom_ok op idx /\ 0 <= reg /\ reg / 4 <= 0xffff
  | OPacket dws => raw_packet dws
  end.

(** The opcode ac_pm4_set_reg chooses. *)
Definition set_opcode (st : ac_pm4_state) (reg : Z) : option Z :=
  match reg_space reg with
  | Some (op, _) => if is_privileged_reg st reg then None else Some (regular_opcode_to_pairs st op)
  | None => None
  end.

(** A bound on the dwords of an operation. *)
Definition op_cost (st : ac_pm4_state) (o : reg_op) : Z :=
  match o with
  | OSet reg _ => match set_opcode st reg with Some op => reg_cost op | None => 6 end
  | OCustom _ _ op _ => reg_cost op
  | OPacket dws => Z.of_nat (length dws)
  end.

Definition op_packed (st : ac_pm4_state) (o : reg_op) : bool :=
  match o with
  | OSet reg _ => match set_opcode st reg with Some op => opcode_is_pairs_packed op | None => false end
  | OCustom _ _ op _ => opcode_is_pairs_packed op
  | OPacket _ => false
  end.

Section Operations.
Variable getenv : environment.

Definition record_op (names : Z -> bool) (o : reg_op) (s : ac_pm4_state * regmap) : result (ac_pm4_state * regmap) :=
  let '(st, m) := s in
  match o with
  | OSet reg val => ac_pm4_set_reg names getenv m reg val st
  | OCustom reg val op idx => let! st := ac_pm4_set_reg_custom names reg val op idx st ;; Ok (st, m)
  | OPacket dws => let! st := cmd_add_all dws st ;; Ok (st, m)
  end.

Fixpoint record_ops (names : Z -> bool) (l : list reg_op) (s : ac_pm4_state * regmap) : result (ac_pm4_state * regmap) :=
  match l with
  | [] => Ok s
  | o :: l' => let! s := record_op names o s ;; record_ops names l' s
  end.

(** What an operation asks for, by absolute register address, after TITAN's map. *)
Definition op_events (st : ac_pm4_state) (m : regmap) (o : reg_op) : list ib_event :=
  match o with
  | OSet reg val =>
      match reg_space reg with
      | None => []
      | Some (op, base) =>
          if is_privileged_reg st reg then [Packet (privileged_packet reg val)]
          else [Write (base + (premap getenv m op (reg - base)).1 / 4 * 4) val]
      end
  | OCustom reg val op _ => [Write (op_base op + reg / 4 * 4) val]
  | OPacket dws => [Packet dws]
  end.

(** A map that keeps the registers it is applied to in their space. *)
Definition map_safe (m : regmap) : Prop :=
  regmap_active m = true -> confined AC_TITAN_CTX_DWORDS (ac_titan_ctx_dw getenv m).

(** Counting a remapped write does not change the map. *)
Definition same_map (m m' : regmap) : Prop :=
  regmap_active m' = regmap_active m /\ regmap_level m' = regmap_level m /\ mapovr m' = mapovr m.

Lemma premap_same m op off : same_map m (premap getenv m op off).2.
Proof.
  unfold premap, ac_titan_remap_dw. repeat case_match; simplify_eq; done.
Qed.

Lemma same_map_dw m m' :
  same_map m m' ->
  (forall dw, ac_titan_ctx_dw getenv m' dw = ac_titan_ctx_dw getenv m dw)
  /\ (forall dw, ac_titan_sh_dw getenv m' dw = ac_titan_sh_dw getenv m dw).
Proof. intros (_ & Hl & Ho). unfold ac_titan_ctx_dw, ac_titan_sh_dw. by rewrite Hl, Ho. Qed.

Lemma premap_eq m m' op off : same_map m m' -> (premap getenv m' op off).1 = (premap getenv m op off).1.
Proof.
  intros Hs. pose proof (same_map_dw _ _ Hs) as [Hc Hh]. destruct Hs as (Ha & _ & _).
  unfold premap, ac_titan_remap_dw. rewrite Ha. destruct (regmap_active m); [|done]. cbn [negb andb].
  destruct (ac_titan_preamble_remap getenv); [|done].
  destruct (op =? _); [cbn; by rewrite Hc|]. destruct (op =? _); [cbn; by rewrite Hh|done].
Qed.

Lemma same_map_safe m m' : same_map m m' -> map_safe m -> map_safe m'.
Proof.
  intros Hs Hm Ha dw Hdw. rewrite (proj1 (same_map_dw _ _ Hs)). apply Hm; [|done].
  destruct Hs as (<- & _). done.
Qed.

Lemma reg_space_spec reg op base :
  reg_space reg = Some (op, base) ->
  op ∈ regular_opcodes /\ op_base op = base /\ 0 <= reg - base < 0x10000
  /\ (op = PKT3_SET_CONTEXT_REG -> (reg - base) / 4 < AC_TITAN_CTX_DWORDS)
  /\ (op = PKT3_SET_SH_REG -> (reg - base) / 4 < AC_TITAN_SH_DWORDS).
Proof.
  unfold reg_space, regular_opcodes. rewrite !elem_of_cons.
  assert (forall n, AC_TITAN_CTX_DWORDS = 0x2000 /\ AC_TITAN_SH_DWORDS = 0x400 /\ (n < 0x8000 -> n / 4 < 0x2000)
            /\ (n < 0x1000 -> n / 4 < 0x400)) as H.
  { intros n. split_and!; [done|done|intros; apply Z.div_lt_upper_bound; lia..]. }
  specialize (H (reg - base)) as (-> & -> & H1 & H2).
  unfold SI_CONFIG_REG_OFFSET, SI_CONFIG_REG_END, SI_SH_REG_OFFSET, SI_SH_REG_END, SI_CONTEXT_REG_OFFSET,
    SI_CONTEXT_REG_END, CIK_UCONFIG_REG_OFFSET, CIK_UCONFIG_REG_END in *.
  repeat match goal with |- context [if ?b then _ else _] => destruct b eqn:? end;
    intros [= <- <-]; (split; [tauto|]); (split; [done|]); (split; [lia|]);
    (split; intros E; try discriminate E); [apply H2|apply H1]; lia.
Qed.

Lemma premap_range m reg op base :
  map_safe m -> reg_space reg = Some (op, base) ->
  0 <= (premap getenv m op (reg - base)).1 /\ (premap getenv m op (reg - base)).1 / 4 <= 0xffff.
Proof.
  intros Hm Hsp. destruct (reg_space_spec _ _ _ Hsp) as (_ & _ & Hr & Hctx & Hsh).
  assert (Hid : 0 <= reg - base /\ (reg - base) / 4 <= 0xffff).
  { split; [lia|]. apply Z.lt_succ_r, Z.div_lt_upper_bound; lia. }
  assert (Hd : 0 <= (reg - base) / 4) by (apply Z.div_pos; lia).
  unfold premap, ac_titan_remap_dw. destruct (regmap_active m) eqn:Ha; [|done]. cbn [negb andb].
  destruct (ac_titan_preamble_remap getenv); [|done].
  destruct (Z.eqb_spec op PKT3_SET_CONTEXT_REG) as [->|].
  - cbn. destruct (Hm Ha ((reg - base) / 4)) as [Hlo Hhi]; [split; [done|by apply Hctx]|].
    change AC_TITAN_CTX_DWORDS with 0x2000 in Hhi. rewrite Z.div_mul by lia. lia.
  - destruct (Z.eqb_spec op PKT3_SET_SH_REG) as [->|]; [|done]. cbn.
    destruct (proj1 (sh_dw_ok getenv m) ((reg - base) / 4)) as [Hlo Hhi]; [split; [done|by apply Hsh]|].
    change AC_TITAN_SH_DWORDS with 0x400 in Hhi. rewrite Z.div_mul by lia. lia.
Qed.

Lemma regular_opcode_to_pairs_spec st op :
  op ∈ regular_opcodes ->
  custom_ok (regular_opcode_to_pairs st op) 0 /\ op_base (regular_opcode_to_pairs st op) = op_base op.
Proof.
  intros Hop. unfold regular_opcode_to_pairs, custom_ok.
  destruct (Z.eqb_spec op PKT3_SET_CONTEXT_REG) as [->|].
  { destruct (has_set_context_pairs_packed _); [|destruct (has_set_context_pairs _)]; (split; [|done]).
    - right. split; [right|done]. unfold packed_opcodes. rewrite !elem_of_cons. tauto.
    - right. split; [left|done]. unfold pairs_opcodes. rewrite !elem_of_cons. tauto.
    - left. split; [done|lia]. }
  destruct (Z.eqb_spec op PKT3_SET_SH_REG) as [->|].
  { destruct (has_set_sh_pairs_packed _); [|destruct (has_set_sh_pairs _)]; (split; [|done]).
    - right. split; [right|done]. unfold packed_opcodes. rewrite !elem_of_cons. tauto.
    - right. split; [left|done]. unfold pairs_opcodes. rewrite !elem_of_cons. tauto.
    - left. split; [done|lia]. }
  destruct (Z.eqb_spec op PKT3_SET_UCONFIG_REG) as [->|].
  { destruct (has_set_uconfig_pairs _); (split; [|done]).
    - right. split; [left|done]. unfold pairs_opcodes. rewrite !elem_of_cons. tauto.
    - left. split; [done|lia]. }
  split; [left; split; [done|lia]|done].
Qed.

Lemma privileged_packet_raw reg val : raw_packet (privileged_packet reg val).
Proof.
  eexists PKT3_COPY_DATA, 4, 0, _. split; [reflexivity|]. split; [vm_compute; intuition discriminate|].
  split; [|split; [lia|done]].
  apply (bool_decide_eq_false_1 (PKT3_COPY_DATA ∈ set_opcodes)). vm_compute. reflexivity.
Qed.

Lemma privileged_config st reg : is_privileged_reg st reg = true -> SI_CONFIG_REG_OFFSET <= reg < SI_CONFIG_REG_END.
Proof.
  unfold is_privileged_reg, SI_CONFIG_REG_OFFSET, SI_CONFIG_REG_END. cbn [existsb].
  destruct (_ && _); [|destruct (_ && _)]; lia.
Qed.

(** One operation. *)
Lemma record_op_spec names st m qs o :
  holds_packets st qs -> map_safe m -> reg_op_ok o -> ndw st + op_cost st o <= max_dw st ->
  exists st' m' qs', record_op names o (st, m) = Ok (st', m') /\ holds_packets st' qs' /\ same_map m m'
    /\ issues_more (op_packed st o) qs qs' (op_events st m o) /\ keeps_chip st st'
    /\ ndw st' <= ndw st + op_cost st o.
Proof.
  intros Hh Hm Hok Hroom. destruct o as [reg val|reg val op idx|dws]; cbn [record_op op_cost op_packed op_events] in *.
  - unfold ac_pm4_set_reg, set_opcode in *. destruct (reg_space reg) as [[op base]|] eqn:Hsp.
    2: { exists st, m, qs. split_and!; try done; [|lia]. split; [by rewrite app_nil_r|done]. }
    destruct (premap getenv m op (reg - base)) as [off m'] eqn:Hpm.
    assert (Hsame : same_map m m') by (pose proof (premap_same m op (reg - base)) as H; by rewrite Hpm in H).
    destruct (is_privileged_reg st reg) eqn:Hpriv.
    + unfold ac_pm4_set_privileged_reg. pose proof (privileged_config _ _ Hpriv).
      replace ((SI_CONFIG_REG_OFFSET <=? reg) && (reg <? SI_CONFIG_REG_END)) with true by lia.
      destruct (cmd_add_packet_spec st qs _ Hh (privileged_packet_raw reg val)) as (st' & -> & Hh' & Hk & Hn); [done|].
      exists st', m', (qs ++ [PRaw (privileged_packet reg val)]). cbn [mbind result_bind]. cbn [length privileged_packet] in Hn.
      split_and!; try done; [|lia]. split; [by rewrite issues_app, issues_one|].
      intros _ Hu. by rewrite Forall_app, Forall_singleton.
    + pose proof (premap_range m reg op base Hm Hsp) as [H0 Hmax]. rewrite Hpm in H0, Hmax. cbn [fst] in *.
      destruct (reg_space_spec _ _ _ Hsp) as (Hop & Hbase & _).
      destruct (regular_opcode_to_pairs_spec st op Hop) as [Hc Hb].
      destruct (set_reg_custom_spec names st qs off val _ 0 Hh Hc H0 Hmax Hroom)
        as (st' & qs' & -> & Hh' & Hx & Hk & Hn).
      exists st', m', qs'. cbn [mbind result_bind]. split_and!; try done. rewrite Hb, Hbase in Hx.
      by rewrite (Z.add_comm base).
  - destruct Hok as (Hc & H0 & Hmax).
    destruct (set_reg_custom_spec names st qs reg val op idx Hh Hc H0 Hmax Hroom)
      as (st' & qs' & -> & Hh' & Hx & Hk & Hn).
    exists st', m, qs'. cbn [mbind result_bind]. split_and!; try done. by rewrite (Z.add_comm (op_base op)).
  - destruct (cmd_add_packet_spec st qs dws Hh Hok Hroom) as (st' & -> & Hh' & Hk & Hn).
    exists st', m, (qs ++ [PRaw dws]). cbn [mbind result_bind]. split_and!; try done; [|lia].
    split; [by rewrite issues_app, issues_one|]. intros _ Hu. by rewrite Forall_app, Forall_singleton.
Qed.

(** What depends on the chip only. *)
Lemma op_keeps st st' o m m' :
  keeps_chip st st' -> same_map m m' ->
  op_cost st' o = op_cost st o /\ op_packed st' o = op_packed st o
  /\ op_events st' m' o = op_events st m o.
Proof.
  intros [Hi _ _ _ _] Hs. destruct o as [reg val| |]; [|done..].
  cbn [op_cost op_packed op_events]. unfold set_opcode, is_privileged_reg, regular_opcode_to_pairs. rewrite Hi.
  split; [done|]. split; [done|]. destruct (reg_space reg) as [[op base]|]; [|done].
  by rewrite (premap_eq m m' op (reg - base) Hs).
Qed.

Definition total_cost (st : ac_pm4_state) (l : list reg_op) : Z := foldr (fun o n => op_cost st o + n) 0 l.
Definition all_events (st : ac_pm4_state) (m : regmap) (l : list reg_op) : list ib_event :=
  concat (op_events st m <$> l).

Lemma op_cost_nonneg st o : 0 <= op_cost st o.
Proof. unfold op_cost, set_opcode, reg_cost. repeat case_match; lia. Qed.

Lemma total_cost_nonneg st l : 0 <= total_cost st l.
Proof. induction l as [|o l IH]; [done|]. cbn. pose proof (op_cost_nonneg st o). unfold total_cost in IH. lia. Qed.

Lemma record_ops_spec names l st m qs :
  holds_packets st qs -> map_safe m -> Forall reg_op_ok l -> ndw st + total_cost st l <= max_dw st ->
  exists st' m' qs', record_ops names l (st, m) = Ok (st', m') /\ holds_packets st' qs'
    /\ issues_more (existsb (op_packed st) l) qs qs' (all_events st m l) /\ keeps_chip st st'.
Proof.
  revert st m qs. induction l as [|o l IH]; intros st m qs Hh Hm Hok Hroom.
  { exists st, m, qs. split_and!; try done. split; [by rewrite app_nil_r|done]. }
  apply Forall_cons in Hok as [Ho Hok]. unfold total_cost in Hroom. cbn in Hroom. fold (total_cost st l) in Hroom.
  pose proof (total_cost_nonneg st l) as Hnn.
  destruct (record_op_spec names st m qs o Hh Hm Ho) as (st1 & m1 & qs1 & E & Hh1 & Hs & [Hx1 Hu1] & Hk & Hn); [lia|].
  cbn [record_ops]. rewrite E. cbn [mbind result_bind].
  assert (Heq : total_cost st1 l = total_cost st l /\ existsb (op_packed st1) l = existsb (op_packed st) l
                /\ all_events st1 m1 l = all_events st m l).
  { unfold total_cost, all_events. clear -Hk Hs. induction l as [|o l IH]; [done|]. cbn.
    destruct (op_keeps st st1 o m m1 Hk Hs) as (-> & -> & ->). destruct IH as (-> & -> & ->). done. }
  destruct Heq as (Ec & Ep & Ee).
  destruct (IH st1 m1 qs1 Hh1) as (st' & m' & qs' & E' & Hh' & [Hx Hu] & Hk').
  { by eapply same_map_safe. } { done. } { rewrite Ec, (keeps_max _ _ Hk). lia. }
  exists st', m', qs'. split; [done|]. split; [done|]. split; [|by eapply keeps_chip_trans].
  rewrite Ep in Hu. rewrite Ee in Hx. split.
  - rewrite Hx, Hx1, <- app_assoc. done.
  - cbn [existsb]. intros [Hp1 Hp2]%orb_false_elim Hq. auto.
Qed.
End Operations.

(** * Performing a stream *)

(** What the hardware sees: the packets that are no register writes, each with the
    registers at that point, and the registers at the end. *)
Fixpoint perform (regs : gmap Z Z) (evs : list ib_event) : list (gmap Z Z * list Z) * gmap Z Z :=
  match evs with
  | [] => ([], regs)
  | Write r v :: evs' => perform (<[r := v]> regs) evs'
  | Packet dws :: evs' => let '(t, regs') := perform regs evs' in ((regs, dws) :: t, regs')
  end.

Definition is_write (e : ib_event) : Prop := match e with Write _ _ => True | Packet _ => False end.
Definition written (e : ib_event) : Z := match e with Write r _ => r | Packet _ => 0 end.

(** No register is written twice between two other packets. *)
Definition distinct_runs (evs : list ib_event) : Prop :=
  forall a b c, evs = a ++ b ++ c -> Forall is_write b -> NoDup (written <$> b).

Lemma perform_app regs a b :
  perform regs (a ++ b)
  = let '(t1, r1) := perform regs a in let '(t2, r2) := perform r1 b in (t1 ++ t2, r2).
Proof.
  revert regs. induction a as [|[r v|dws] a IH]; intros regs; cbn [app perform].
  - by destruct (perform regs b).
  - apply IH.
  - rewrite IH. destruct (perform regs a) as [t1 r1]. by destruct (perform r1 b).
Qed.

(** A run of writes leaves a register it does not write as it was. *)
Lemma perform_writes regs evs :
  Forall is_write evs ->
  (perform regs evs).1 = [] /\ forall r, r ∉ written <$> evs -> (perform regs evs).2 !! r = regs !! r.
Proof.
  intros Hw. revert regs. induction Hw as [|[r v|dws] evs H Hw IH]; intros regs; [done| |done].
  cbn [perform]. destruct (IH (<[r := v]> regs)) as [H1 H2]. split; [done|].
  cbn [fmap list_fmap written]. intros r' [Hne Hin]%not_elem_of_cons. rewrite H2 by done.
  by rewrite lookup_insert_ne.
Qed.

(** Repeating the first write of a run changes nothing when the run does not write that
    register again. *)
Lemma perform_repeat regs r v evs :
  Forall is_write evs -> r ∉ written <$> evs ->
  perform regs (Write r v :: evs ++ [Write r v]) = perform regs (Write r v :: evs).
Proof.
  intros Hw Hr. cbn [perform]. rewrite perform_app.
  destruct (perform_writes (<[r := v]> regs) evs Hw) as [H1 H2]. specialize (H2 r Hr).
  destruct (perform _ evs) as [t regs'] eqn:E. cbn in H1, H2. subst t. cbn.
  rewrite lookup_insert_eq in H2. by rewrite insert_id.
Qed.

Lemma pair_writes op l : Forall is_write (pair_write op <$> l).
Proof. apply Forall_fmap. by apply Forall_true. Qed.

Lemma shown_issued regs p :
  (Forall is_write (issued p) -> NoDup (written <$> issued p)) -> perform regs (shown p) = perform regs (issued p).
Proof.
  unfold shown. destruct p as [op idx base vals|op l|op l|dws]; cbn [padding]; rewrite ?app_nil_r; try done.
  intros Hnd. specialize (Hnd (pair_writes op l)). cbn [issued] in *. unfold pad.
  destruct (Nat.odd (length l)); [|by rewrite app_nil_r]. destruct l as [|[r v] l]; [done|].
  cbn [take fmap list_fmap] in *. apply NoDup_cons in Hnd as [Hr _]. rewrite take_0.
  by apply perform_repeat; [apply pair_writes|].
Qed.

Lemma shown_issues ps :
  distinct_runs (issues ps) -> forall regs, perform regs (concat (shown <$> ps)) = perform regs (issues ps).
Proof.
  induction ps as [|p ps IH]; intros Hd regs; [done|].
  change (concat (shown <$> p :: ps)) with (shown p ++ concat (shown <$> ps)).
  change (issues (p :: ps)) with (issued p ++ issues ps) in *. rewrite !perform_app.
  rewrite shown_issued.
  - destruct (perform regs (issued p)) as [t r]. rewrite IH; [done|].
    intros a b c E. apply (Hd (issued p ++ a) b c). by rewrite E, <- app_assoc.
  - intros Hw. by apply (Hd [] (issued p) (issues ps)).
Qed.

Lemma shown_unpacked ps : Forall unpacked ps -> concat (shown <$> ps) = issues ps.
Proof.
  unfold issues. induction 1 as [|p ps Hp _ IH]; [done|]. cbn. rewrite IH. f_equal. unfold shown.
  destruct p; [by rewrite app_nil_r..|done|by rewrite app_nil_r].
Qed.

(** * A new state *)

Lemma create_holds_packets i dw compute st :
  ac_pm4_create_sized true i false dw compute = Some st -> Z.max dw 64 <= 0x3fff ->
  holds_packets st [] /\ ndw st = 0 /\ max_dw st = Z.max dw 64.
Proof.
  unfold ac_pm4_create_sized, ac_pm4_clear_state. intros [= <-] Hd. cbn [max_dw ndw].
  assert (E : Z.max dw 64 mod W16 = Z.max dw 64) by (apply Z.mod_small; unfold W16; lia). rewrite E.
  replace (Z.max dw 64 =? 0) with false by lia. split; [|done].
  exists [], [], None, [], (replicate (Z.to_nat (Z.max dw 64)) 0). split; [|done].
  constructor; cbn [max_dw pm4 debug_sqtt]; try done.
  - constructor; cbn; [done|done|]. rewrite length_replicate. unfold W16. lia.
  - rewrite length_replicate. lia.
  - split; [done|by left].
Qed.

(** Finalizing gives a stream that reads back as the packets held. *)
Lemma finalize_reads names st qs :
  holds_packets st qs ->
  exists st' ps, ac_pm4_finalize names st = Ok st'
    /\ ac_parse_ib_chunk (ac_pm4_emit_commands st') = Some (concat (shown <$> ps))
    /\ issues_more false qs ps [].
Proof.
  intros (ps & wss & o & wo & tail & Hrep & ->).
  destruct (close_spec names st ps wss o wo tail Hrep) as (st' & ps' & wss' & tail' & E & Hb & Hc & Hx & _).
  exists st', ps'. split; [done|]. split; [|done]. unfold ac_pm4_emit_commands.
  rewrite (buf_ndw _ _ _ Hb), (buf_pm4 _ _ _ Hb), Nat2Z.id, take_app_length. by apply parse_chunk_encoded.
Qed.

Lemma set_level_safe getenv m level : map_safe getenv (ac_titan_regmap_set_level getenv m level).
Proof. intros Hact. by apply active_ctx_confined. Qed.

(** C3: a state is created without thread-trace markers (no [debug_sqtt]) and with a buffer of at most
    0x3fff dwords. Recording any sequence of register writes, register writes by a SET opcode of the
    caller's (with an index that opcode takes) and whole packets that are not SET packets, of a total
    cost the buffer has room for, fails no assertion and stays in the buffer; the stream ac_pm4_finalize
    leaves reads back, packet by packet, as exactly the operations recorded, with every
    context and SH register where TITAN's map puts it, when no packed packets are used;
    with packed packets, whose padding repeats a write, it performs the same writes
    before every other packet and at the end, provided no register is written twice in
    a row of writes. (The assertions of the builder itself do not ensure the room,
    [set_reg_assertion_too_weak].) *)
Theorem register_packets_execute names getenv m0 level i compute dw ops st :
  ac_pm4_create_sized true i false dw compute = Some st -> Z.max dw 64 <= 0x3fff ->
  Forall reg_op_ok ops -> total_cost st ops <= max_dw st ->
  let m := ac_titan_regmap_set_level getenv m0 level in
  exists st1 m1 st2 evs,
    record_ops getenv names ops (st, m) = Ok (st1, m1) /\ ac_pm4_finalize names st1 = Ok st2
    /\ ac_parse_ib_chunk (ac_pm4_emit_commands st2) = Some evs
    /\ (existsb (op_packed st) ops = false -> evs = all_events getenv st m ops)
    /\ (distinct_runs (all_events getenv st m ops) ->
        forall regs, perform regs evs = perform regs (all_events getenv st m ops)).
Proof.
  intros Hc Hd Hok Hroom m. destruct (create_holds_packets i dw compute st Hc Hd) as (Hh & Hn & Hmax).
  destruct (record_ops_spec getenv names ops st m [] Hh (set_level_safe getenv m0 level) Hok)
    as (st1 & m1 & qs & E & Hh1 & [Hx Hu] & _); [lia|].
  destruct (finalize_reads names st1 qs Hh1) as (st2 & ps & E2 & Hp & [Hx2 Hu2]).
  exists st1, m1, st2, (concat (shown <$> ps)). rewrite app_nil_r in Hx2. cbn in Hx.
  split; [done|]. split; [done|]. split; [done|]. split.
  - intros Hnp. rewrite shown_unpacked; [by rewrite Hx2, Hx|]. apply Hu2; [done|]. by apply Hu.
  - rewrite <- Hx, <- Hx2. apply shown_issues.
Qed.

(** A chip that packs context and SH registers, as GFX11 does. *)
Definition packing_chip : pm4_info :=
  {| pi_gfx_level := GFX11; has_set_context_pairs := false; has_set_context_pairs_packed := true;
     has_set_sh_pairs := false; has_set_sh_pairs_packed := true; has_set_uconfig_pairs := false |}.

(** TITAN's chip, of the GFX10.3 generation: no pairs. *)
Definition titan_chip : pm4_info :=
  {| pi_gfx_level := GFX10_3; has_set_context_pairs := false; has_set_context_pairs_packed := false;
     has_set_sh_pairs := false; has_set_sh_pairs_packed := false; has_set_uconfig_pairs := false |}.

Definition witness_ops : list reg_op :=
  [OSet 0x28000 1; OSet 0x28010 2; OSet 0x2843C 3; OPacket (privileged_packet 0x8D04 5); OSet 0xB020 6;
   OCustom 0x40 7 PKT3_SET_UCONFIG_REG_INDEX 1].

Lemma register_packets_execute_witness :
  let st := default (mk_pm4 titan_chip 0 0 0 0 0 false false 0 false 0 [])
              (ac_pm4_create_sized true packing_chip false 64 false) in
  let m := ac_titan_regmap_set_level (fun _ => None) regmap_init 10 in
  exists st1 m1 st2 evs,
    record_ops (fun _ => None) (fun _ => false) witness_ops (st, m) = Ok (st1, m1)
    /\ ac_pm4_finalize (fun _ => false) st1 = Ok st2
    /\ ac_parse_ib_chunk (ac_pm4_emit_commands st2) = Some evs
    /\ (existsb (op_packed st) witness_ops = false -> evs = all_events (fun _ => None) st m witness_ops)
    /\ (distinct_runs (all_events (fun _ => None) st m witness_ops) ->
        forall regs, perform regs evs = perform regs (all_events (fun _ => None) st m witness_ops)).
Proof.
  apply (register_packets_execute (fun _ => false) (fun _ => None) regmap_init 10 packing_chip false 64 witness_ops).
  - vm_compute. reflexivity.
  - vm_compute. discriminate.
  - repeat (apply Forall_cons; split); cbn [reg_op_ok]; try exact I; [apply privileged_packet_raw| |by apply Forall_nil].
    split; [|vm_compute; intuition discriminate]. left. split; [|lia].
    apply (bool_decide_eq_true_1 (PKT3_SET_UCONFIG_REG_INDEX ∈ regular_opcodes)). vm_compute. reflexivity.
  - vm_compute. discriminate.
Defined.

(** * Where it does not

    The padding of an odd packed packet repeats its first write when the packet is
    closed, after the others: a register written again later in the packet goes back to
    its first value. *)

Lemma packed_padding_restores_stale_value :
  exists st, ac_pm4_create_sized true packing_chip false 64 false = Some st
    /\ let ops := [OSet 0xB020 1; OSet 0xB028 2; OSet 0xB020 3] in
       exists st1 m1 st2 evs,
         record_ops (fun _ => None) (fun _ => false) ops (st, regmap_init) = Ok (st1, m1)
         /\ ac_pm4_finalize (fun _ => false) st1 = Ok st2
         /\ ac_parse_ib_chunk (ac_pm4_emit_commands st2) = Some evs
         /\ (perform ∅ (all_events (fun _ => None) st regmap_init ops)).2 !! 0xB020 = Some 3
         /\ (perform ∅ evs).2 !! 0xB020 = Some 1.
Proof.
  eexists. split; [reflexivity|]. cbv zeta. do 4 eexists.
  split; [vm_compute; reflexivity|]. split; [vm_compute; reflexivity|]. split; [vm_compute; reflexivity|].
  split; vm_compute; reflexivity.
Qed.

(** ac_pm4_set_reg_custom asks for two free dwords and may need three: with two left in a
    buffer of 64, a register that opens a packet is written past the end. *)
Lemma set_reg_assertion_too_weak :
  exists st, ac_pm4_create_sized true titan_chip false 64 false = Some st
    /\ let ops := [OSet 0x28000 1; OPacket (PKT3 PKT3_NOP 57 0 :: replicate 58 0)] in
       exists st1,
         record_ops (fun _ => None) (fun _ => false) ops (st, regmap_init) = Ok (st1, regmap_init)
         /\ ndw st1 + 2 <= max_dw st1
         /\ ac_pm4_set_reg (fun _ => false) (fun _ => None) regmap_init 0x28010 2 st1 = Fault OutOfBounds.
Proof.
  eexists. split; [reflexivity|]. cbv zeta. eexists. split; [vm_compute; reflexivity|].
  split; [vm_compute; discriminate|vm_compute; reflexivity].
Qed.
