(* ===== verification/RegSeq.v ===== *)
(** Register runs written straight into a command stream (the SET packet macros of
    src/amd/common/ac_cmdbuf.h), where TITAN's map is applied to the first register of
    the run only, and the test that tells which runs survive that. *)

From stdpp Require Import gmap.
From S2P Require Import Prelude Pm4 CText TitanMap TitanProofs TitanMain RegPm4 RegPm4Spec.
Open Scope Z_scope.

Section Sequences.
Variable getenv : environment.

(** * The macros *)

(** __ac_cmdbuf_set_reg_seq: header and first offset of [num] registers from byte
    address [reg] of the space [base, end). *)
Definition ac_cmdbuf_set_reg_seq (m : regmap) (base end_ reg num idx packet : Z) (cam : bool)
  : result (list Z * regmap) :=
  need! (base <=? reg) && (reg <? end_) ;;
  let '(dw, m') := ac_titan_remap_dw getenv m base ((reg - base) / 4) in
  Ok ([Z.lor (PKT3 packet num 0) (PKT3_RESET_FILTER_CAM_S cam); Z.lor dw (u32 (Z.shiftl idx 28))], m').

(** The run with its values behind. *)
Definition emit_reg_seq (m : regmap) (base end_ reg idx packet : Z) (cam : bool) (vals : list Z)
  : result (list Z * regmap) :=
  let! (ws, m') := ac_cmdbuf_set_reg_seq m base end_ reg (Z.of_nat (length vals)) idx packet cam ;;
  Ok (ws ++ vals, m').

(** __ac_cmdbuf_set_reg *)
Definition ac_cmdbuf_set_reg (m : regmap) (base end_ reg idx value packet : Z) : result (list Z * regmap) :=
  emit_reg_seq m base end_ reg idx packet false [value].

Definition ac_cmdbuf_set_cfg_reg_seq m reg num :=
  ac_cmdbuf_set_reg_seq m SI_CONFIG_REG_OFFSET SI_CONFIG_REG_END reg num 0 PKT3_SET_CONFIG_REG false.
Definition ac_cmdbuf_set_cfg_reg m reg value :=
  ac_cmdbuf_set_reg m SI_CONFIG_REG_OFFSET SI_CONFIG_REG_END reg 0 value PKT3_SET_CONFIG_REG.
Definition ac_cmdbuf_set_ucfg_reg_seq m reg num :=
  ac_cmdbuf_set_reg_seq m CIK_UCONFIG_REG_OFFSET CIK_UCONFIG_REG_END reg num 0 PKT3_SET_UCONFIG_REG false.
Definition ac_cmdbuf_set_ucfg_reg m reg value :=
  ac_cmdbuf_set_reg m CIK_UCONFIG_REG_OFFSET CIK_UCONFIG_REG_END reg 0 value PKT3_SET_UCONFIG_REG.
Definition ac_cmdbuf_set_ucfg_perfctr_reg_seq (g : amd_gfx_level) (ip : amd_ip_type) m reg num :=
  ac_cmdbuf_set_reg_seq m CIK_UCONFIG_REG_OFFSET CIK_UCONFIG_REG_END reg num 0 PKT3_SET_UCONFIG_REG
    (gfx_ge g GFX10 && ip_eq ip AMD_IP_GFX).
Definition ac_cmdbuf_set_ucfg_reg_idx (g : amd_gfx_level) (me_fw_version : Z) m reg idx value :=
  need! negb (idx =? 0) ;;
  ac_cmdbuf_set_reg m CIK_UCONFIG_REG_OFFSET CIK_UCONFIG_REG_END reg idx value
    (if gfx_lt g GFX9 || (gfx_eq g GFX9 && (me_fw_version <? 26))
     then PKT3_SET_UCONFIG_REG else PKT3_SET_UCONFIG_REG_INDEX).
Definition ac_cmdbuf_set_ctx_reg_seq m reg num :=
  ac_cmdbuf_set_reg_seq m SI_CONTEXT_REG_OFFSET SI_CONTEXT_REG_END reg num 0 PKT3_SET_CONTEXT_REG false.
Definition ac_cmdbuf_set_ctx_reg m reg value :=
  ac_cmdbuf_set_reg m SI_CONTEXT_REG_OFFSET SI_CONTEXT_REG_END reg 0 value PKT3_SET_CONTEXT_REG.
Definition ac_cmdbuf_set_ctx_reg_idx m reg idx value :=
  ac_cmdbuf_set_reg m SI_CONTEXT_REG_OFFSET SI_CONTEXT_REG_END reg idx value PKT3_SET_CONTEXT_REG.
Definition ac_cmdbuf_set_sh_reg_seq m reg num :=
  ac_cmdbuf_set_reg_seq m SI_SH_REG_OFFSET SI_SH_REG_END reg num 0 PKT3_SET_SH_REG false.
Definition ac_cmdbuf_set_sh_reg m reg value :=
  ac_cmdbuf_set_reg m SI_SH_REG_OFFSET SI_SH_REG_END reg 0 value PKT3_SET_SH_REG.
Definition ac_cmdbuf_set_ucfg_perfctr_reg (g : amd_gfx_level) (ip : amd_ip_type) m reg value : result (list Z * regmap) :=
  let! (ws, m') := ac_cmdbuf_set_ucfg_perfctr_reg_seq g ip m reg 1 ;; Ok (ws ++ [value], m').
(** The low half of an address; the shader supplies the high half. *)
Definition ac_cmdbuf_emit_32bit_pointer (address32_hi : Z) m sh_offset va : result (list Z * regmap) :=
  need! (va =? 0) || (Z.shiftr va 32 =? address32_hi) ;;
  ac_cmdbuf_set_sh_reg m sh_offset (u32 va).
(** A 64-bit address in two registers. *)
Definition ac_cmdbuf_emit_64bit_pointer m sh_offset va : result (list Z * regmap) :=
  emit_reg_seq m SI_SH_REG_OFFSET SI_SH_REG_END sh_offset 0 PKT3_SET_SH_REG false [u32 va; u32 (Z.shiftr va 32)].

(** * One packet per register *)

(** The same registers written one at a time. *)
Fixpoint emit_each (m : regmap) (base end_ reg idx packet : Z) (vals : list Z) : result (list Z * regmap) :=
  match vals with
  | [] => Ok ([], m)
  | v :: vs =>
      let! (ws, m1) := ac_cmdbuf_set_reg m base end_ reg idx v packet ;;
      let! (ws', m2) := emit_each m1 base end_ (reg + 4) idx packet vs ;;
      Ok (ws ++ ws', m2)
  end.

(** * The spaces of the macros *)

Definition seq_space (base end_ packet : Z) : Prop :=
  (base, end_, packet) ∈ [(SI_CONFIG_REG_OFFSET, SI_CONFIG_REG_END, PKT3_SET_CONFIG_REG);
    (CIK_UCONFIG_REG_OFFSET, CIK_UCONFIG_REG_END, PKT3_SET_UCONFIG_REG);
    (CIK_UCONFIG_REG_OFFSET, CIK_UCONFIG_REG_END, PKT3_SET_UCONFIG_REG_INDEX);
    (SI_CONTEXT_REG_OFFSET, SI_CONTEXT_REG_END, PKT3_SET_CONTEXT_REG);
    (SI_SH_REG_OFFSET, SI_SH_REG_END, PKT3_SET_SH_REG)].

Definition dw_of (m : regmap) (base reg : Z) : Z := ac_titan_remap_dw_quiet getenv m base ((reg - base) / 4).

(** The map a level leaves keeps every register below 64K dwords. *)
Definition map_in_range (m : regmap) (base end_ : Z) : Prop :=
  forall reg, base <= reg < end_ -> 0 <= dw_of m base reg <= 0xffff.

Lemma remap_dw_quiet m base dw : (ac_titan_remap_dw getenv m base dw).1 = ac_titan_remap_dw_quiet getenv m base dw.
Proof. unfold ac_titan_remap_dw, ac_titan_remap_dw_quiet. by destruct (regmap_active m). Qed.

Lemma remap_dw_same m base dw dw' :
  ac_titan_remap_dw_quiet getenv (ac_titan_remap_dw getenv m base dw).2 base dw'
  = ac_titan_remap_dw_quiet getenv m base dw'.
Proof.
  unfold ac_titan_remap_dw. destruct (regmap_active m) eqn:E; [|done]. cbn [negb].
  destruct (negb _); [|done]. cbn [snd]. unfold ac_titan_remap_dw_quiet, ac_titan_ctx_dw, ac_titan_sh_dw. cbn. by rewrite E.
Qed.

(** A run of values from a remapped offset, as an encoded packet. *)
Lemma seq_encodes m base end_ reg idx packet cam vals :
  seq_space base end_ packet -> map_in_range m base end_ -> base <= reg < end_ -> 0 <= idx < 16 ->
  vals <> [] -> dw_of m base reg + Z.of_nat (length vals) <= 0x10000 -> Z.of_nat (length vals) < 0x3fff ->
  exists ws m', emit_reg_seq m base end_ reg idx packet cam vals = Ok (ws, m')
    /\ encodes (PRun packet idx (dw_of m base reg) vals) ws /\ op_base packet = base
    /\ forall dw, ac_titan_remap_dw_quiet getenv m' base dw = ac_titan_remap_dw_quiet getenv m base dw.
Proof.
  intros Hsp Hm Hr Hidx Hne Hlen Hcount. unfold emit_reg_seq, ac_cmdbuf_set_reg_seq.
  replace ((base <=? reg) && (reg <? end_)) with true by lia.
  pose proof (remap_dw_quiet m base ((reg - base) / 4)) as Hq.
  pose proof (remap_dw_same m base ((reg - base) / 4)) as Hsame.
  destruct (ac_titan_remap_dw getenv m base ((reg - base) / 4)) as [dw m'] eqn:E. cbn [fst snd] in *.
  cbn [mbind result_bind app]. eexists _, m'. split; [reflexivity|]. split; [|split; [|done]].
  - exists cam. fold (dw_of m base reg) in Hq. rewrite Hq.
    rewrite u32_small by (rewrite Z.shiftl_mul_pow2 by lia; unfold_words; lia).
    pose proof (Hm reg Hr). split_and!; try done; try lia.
    unfold seq_space in Hsp. unfold regular_opcodes. rewrite !elem_of_cons in *.
    destruct Hsp as [[= -> -> ->]|[[= -> -> ->]|[[= -> -> ->]|[[= -> -> ->]|[[= -> -> ->]|[]%elem_of_nil]]]]]; tauto.
  - unfold seq_space in Hsp. rewrite !elem_of_cons in Hsp.
    by destruct Hsp as [[= -> -> ->]|[[= -> -> ->]|[[= -> -> ->]|[[= -> -> ->]|[[= -> -> ->]|[]%elem_of_nil]]]]].
Qed.

(** What one packet per register writes. *)
Fixpoint each_writes (m : regmap) (base reg : Z) (vals : list Z) : list ib_event :=
  match vals with
  | [] => []
  | v :: vs => Write (dw_of m base reg * 4 + base) v :: each_writes m base (reg + 4) vs
  end.

Lemma emit_each_spec base end_ idx packet vals :
  seq_space base end_ packet -> 0 <= idx < 16 ->
  forall m reg, map_in_range m base end_ -> base <= reg -> reg + 4 * Z.of_nat (length vals) <= end_ ->
  exists wss ps m', emit_each m base end_ reg idx packet vals = Ok (concat wss, m')
    /\ Forall2 encodes ps wss /\ concat (shown <$> ps) = each_writes m base reg vals.
Proof.
  intros Hsp Hidx. induction vals as [|v vals IH]; intros m reg Hm Hlo Hhi.
  { exists [], [], m. by repeat constructor. }
  cbn [length] in Hhi. pose proof (Hm reg ltac:(lia)) as Hdw.
  destruct (seq_encodes m base end_ reg idx packet false [v] Hsp Hm) as (ws & m1 & E & He & Hb & Hsame);
    [lia|done|done|cbn; lia|cbn; lia|].
  assert (Heq : forall r, dw_of m1 base r = dw_of m base r) by (intros r; apply Hsame).
  destruct (IH m1 (reg + 4)) as (wss & ps & m2 & E2 & H2 & Hw); [|lia|lia|].
  { intros r Hr. rewrite Heq. by apply Hm. }
  exists (ws :: wss), (PRun packet idx (dw_of m base reg) [v] :: ps), m2.
  cbn [emit_each]. unfold ac_cmdbuf_set_reg. rewrite E. cbn [mbind result_bind]. rewrite E2. cbn [mbind result_bind].
  split; [done|]. split; [by constructor|].
  cbn [fmap list_fmap concat]. rewrite Hw. unfold shown. cbn [issued run_writes padding app each_writes].
  rewrite Hb. f_equal. clear -Heq. revert reg. induction vals as [|w vals IH]; intros reg; [done|].
  cbn [each_writes]. by rewrite Heq, IH.
Qed.

(** The test compares every register of the run with the place after the first one. *)
Lemma run_split_from_none m base dw d0 rounds k :
  0 <= dw -> 0 <= d0 -> 0 <= k -> dw + k + Z.of_nat rounds < W32 -> d0 + k + Z.of_nat rounds < W32 ->
  run_split_from getenv m base dw d0 rounds k = None
  <-> forall j, k <= j < k + Z.of_nat rounds -> ac_titan_remap_dw_quiet getenv m base (dw + j) = d0 + j.
Proof.
  intros Hdw Hd0. revert k. induction rounds as [|n IH]; intros k Hk H1 H2; cbn [run_split_from].
  { split; [|done]. intros _ j Hj. lia. }
  rewrite !u32_small by lia. destruct (Z.eqb_spec (ac_titan_remap_dw_quiet getenv m base (dw + k)) (d0 + k)) as [E|E]; cbn [negb].
  - rewrite IH by lia. split; intros H j Hj.
    + destruct (decide (j = k)) as [->|]; [done|apply H; lia].
    + apply H. lia.
  - split; [done|]. intros H. exfalso. apply E, H. lia.
Qed.

Lemma each_writes_run m base reg vals d0 :
  (forall j, 0 <= j < Z.of_nat (length vals) -> dw_of m base (reg + 4 * j) = d0 + j)
  <-> run_writes (d0 * 4 + base) vals = each_writes m base reg vals.
Proof.
  revert reg d0. induction vals as [|v vals IH]; intros reg d0; cbn [run_writes each_writes length].
  { split; [done|]. intros _ j Hj. lia. }
  specialize (IH (reg + 4) (d0 + 1)). replace ((d0 + 1) * 4 + base) with (d0 * 4 + base + 4) in IH by lia. split.
  - intros H. rewrite <- (proj1 IH).
    + do 2 f_equal. specialize (H 0 ltac:(lia)). rewrite Z.mul_0_r, Z.add_0_r in H. lia.
    + intros j Hj. replace (reg + 4 + 4 * j) with (reg + 4 * (j + 1)) by lia. rewrite H by lia. lia.
  - intros [= Hd Hrest] j Hj. destruct (decide (j = 0)) as [->|].
    + rewrite Z.mul_0_r, Z.add_0_r. lia.
    + pose proof (proj2 IH Hrest (j - 1)) as H. replace (reg + 4 + 4 * (j - 1)) with (reg + 4 * j) in H by lia.
      rewrite H by lia. lia.
Qed.
End Sequences.

(** * When a run may be one packet *)

Lemma seq_space_cases base end_ packet :
  seq_space base end_ packet ->
  (base, end_) = (SI_CONFIG_REG_OFFSET, SI_CONFIG_REG_END)
  \/ (base, end_) = (CIK_UCONFIG_REG_OFFSET, CIK_UCONFIG_REG_END)
  \/ (base, end_) = (SI_CONTEXT_REG_OFFSET, SI_CONTEXT_REG_END) \/ (base, end_) = (SI_SH_REG_OFFSET, SI_SH_REG_END).
Proof. unfold seq_space. rewrite !elem_of_cons, elem_of_nil. intuition congruence. Qed.

(** Registers stay below 0x4000 dwords in every space. *)
Lemma set_level_in_range getenv m0 level base end_ packet reg :
  seq_space base end_ packet -> base <= reg < end_ ->
  0 <= dw_of getenv (ac_titan_regmap_set_level getenv m0 level) base reg < 0x4000.
Proof.
  intros Hsp Hr. set (m := ac_titan_regmap_set_level getenv m0 level).
  assert (Hd : forall n, reg - base < 4 * n -> 0 <= (reg - base) / 4 < n)
    by (intros n Hn; split; [apply Z.div_pos|apply Z.div_lt_upper_bound]; lia).
  pose proof (proj1 (active_map_confined getenv m0 level)) as Hc. fold m in Hc.
  unfold dw_of. rewrite <- remap_dw_quiet.
  destruct (seq_space_cases _ _ _ Hsp) as [[= -> ->]|[[= -> ->]|[[= -> ->]|[= -> ->]]]].
  - unfold ac_titan_remap_dw. specialize (Hd 0xc00). unfold SI_CONFIG_REG_OFFSET, SI_CONFIG_REG_END in *.
    destruct (negb _); cbn; lia.
  - specialize (Hc CIK_UCONFIG_REG_OFFSET _ ((reg - CIK_UCONFIG_REG_OFFSET) / 4) ltac:(rewrite !elem_of_cons; tauto)).
    change ((CIK_UCONFIG_REG_END - CIK_UCONFIG_REG_OFFSET) / 4) with 0x4000 in Hc. apply Hc, Hd.
    unfold CIK_UCONFIG_REG_OFFSET, CIK_UCONFIG_REG_END in *. lia.
  - specialize (Hc SI_CONTEXT_REG_OFFSET _ ((reg - SI_CONTEXT_REG_OFFSET) / 4) ltac:(rewrite !elem_of_cons; tauto)).
    change AC_TITAN_CTX_DWORDS with 0x2000 in Hc. specialize (Hd 0x2000).
    unfold SI_CONTEXT_REG_OFFSET, SI_CONTEXT_REG_END in *. lia.
  - specialize (Hc SI_SH_REG_OFFSET _ ((reg - SI_SH_REG_OFFSET) / 4) ltac:(rewrite !elem_of_cons; tauto)).
    change AC_TITAN_SH_DWORDS with 0x400 in Hc. specialize (Hd 0x400).
    unfold SI_SH_REG_OFFSET, SI_SH_REG_END in *. lia.
Qed.

(** The run test, as a comparison of places. *)
Lemma run_split_places getenv m base reg n :
  0 <= (reg - base) / 4 < 0x10000 -> 0 <= dw_of getenv m base reg < 0x10000 -> 0 < n < 0x10000 ->
  ac_titan_run_split getenv m base ((reg - base) / 4) n = false
  <-> forall j, 0 <= j < n -> dw_of getenv m base (reg + 4 * j) = dw_of getenv m base reg + j.
Proof.
  intros Hdw Hd0 Hn.
  assert (Hj : forall j, (reg + 4 * j - base) / 4 = (reg - base) / 4 + j).
  { intros j. replace (reg + 4 * j - base) with (reg - base + j * 4) by lia. by rewrite Z.div_add. }
  unfold ac_titan_run_split. destruct (regmap_active m) eqn:Ha; cbn [negb].
  - pose proof (run_split_from_none getenv m base ((reg - base) / 4) (dw_of getenv m base reg) (Z.to_nat (n - 1)) 1) as H.
    rewrite Z2Nat.id in H by lia.
    assert (H' : run_split_from getenv m base ((reg - base) / 4) (dw_of getenv m base reg) (Z.to_nat (n - 1)) 1 = None
      <-> forall j, 1 <= j < 1 + (n - 1) ->
            ac_titan_remap_dw_quiet getenv m base ((reg - base) / 4 + j) = dw_of getenv m base reg + j)
      by (apply H; unfold W32; lia).
    rewrite bool_decide_eq_false, <- eq_None_not_Some. fold (dw_of getenv m base reg). rewrite H'. split; intros E j Hjn.
    + destruct (decide (j = 0)) as [->|]; [by rewrite Z.mul_0_r, !Z.add_0_r|].
      unfold dw_of at 1. rewrite Hj. apply E. lia.
    + rewrite <- Hj. apply E. lia.
  - split; [|done]. intros _ j _. unfold dw_of, ac_titan_remap_dw_quiet. rewrite Ha. cbn [negb]. apply Hj.
Qed.

(** C13: on a map a level leaves, writing a run of registers with one packet, which maps
    the first register and lets the rest follow, performs the writes of one packet per
    register if and only if ac_titan_run_split says the run is not split. *)
Theorem run_packet_exact getenv m0 level base end_ packet reg idx vals :
  seq_space base end_ packet -> base <= reg -> reg + 4 * Z.of_nat (length vals) <= end_ ->
  0 <= idx < 16 -> vals <> [] -> Z.of_nat (length vals) < 0x3fff ->
  let m := ac_titan_regmap_set_level getenv m0 level in
  exists run m1 each m2 evs evs',
    emit_reg_seq getenv m base end_ reg idx packet false vals = Ok (run, m1)
    /\ emit_each getenv m base end_ reg idx packet vals = Ok (each, m2)
    /\ ac_parse_ib_chunk run = Some evs /\ ac_parse_ib_chunk each = Some evs'
    /\ (evs = evs' <-> ac_titan_run_split getenv m base ((reg - base) / 4) (Z.of_nat (length vals)) = false).
Proof.
  intros Hsp Hlo Hhi Hidx Hne Hcount m.
  assert (Hlen : 0 < Z.of_nat (length vals)) by (destruct vals; [done|cbn; lia]).
  assert (Hrange : forall r, base <= r < end_ -> 0 <= dw_of getenv m base r < 0x4000)
    by (intros; by eapply set_level_in_range).
  assert (Hm : map_in_range getenv m base end_) by (intros r Hr; specialize (Hrange r Hr); lia).
  pose proof (Hrange reg ltac:(lia)) as Hd0.
  destruct (seq_encodes getenv m base end_ reg idx packet false vals Hsp Hm)
    as (run & m1 & E1 & He & Hb & _); [lia|done|done|lia|done|].
  destruct (emit_each_spec getenv base end_ idx packet vals Hsp Hidx m reg Hm Hlo Hhi)
    as (wss & ps & m2 & E2 & H2 & Hw).
  exists run, m1, (concat wss), m2, (shown (PRun packet idx (dw_of getenv m base reg) vals)), (concat (shown <$> ps)).
  split; [done|]. split; [done|]. split.
  { pose proof (parse_chunk_encoded [PRun packet idx (dw_of getenv m base reg) vals] [run]) as Hp.
    cbn [concat fmap list_fmap] in Hp. rewrite !app_nil_r in Hp. apply Hp. by repeat constructor. }
  split; [by apply parse_chunk_encoded|].
  rewrite Hw. unfold shown. cbn [issued padding]. rewrite app_nil_r, Hb, <- each_writes_run.
  symmetry. apply run_split_places; [|lia|lia].
  split; [apply Z.div_pos; lia|]. apply Z.div_lt_upper_bound; [lia|].
  destruct (seq_space_cases _ _ _ Hsp) as [[= -> ->]|[[= -> ->]|[[= -> ->]|[= -> ->]]]];
    unfold SI_CONFIG_REG_OFFSET, SI_CONFIG_REG_END, CIK_UCONFIG_REG_OFFSET, CIK_UCONFIG_REG_END,
      SI_CONTEXT_REG_OFFSET, SI_CONTEXT_REG_END, SI_SH_REG_OFFSET, SI_SH_REG_END in *; lia.
Qed.

(** The viewport region moves as a block; DB_RENDER_CONTROL and its neighbours do not. *)
Lemma run_packet_exact_witness :
  let m := ac_titan_regmap_set_level (fun _ => None) regmap_init 10 in
  exists run m1 each m2 evs evs',
    emit_reg_seq (fun _ => None) m SI_CONTEXT_REG_OFFSET SI_CONTEXT_REG_END 0x28000 0 PKT3_SET_CONTEXT_REG false [1; 2]
      = Ok (run, m1)
    /\ emit_each (fun _ => None) m SI_CONTEXT_REG_OFFSET SI_CONTEXT_REG_END 0x28000 0 PKT3_SET_CONTEXT_REG [1; 2]
      = Ok (each, m2)
    /\ ac_parse_ib_chunk run = Some evs /\ ac_parse_ib_chunk each = Some evs'
    /\ (evs = evs' <->
        ac_titan_run_split (fun _ => None) m SI_CONTEXT_REG_OFFSET ((0x28000 - SI_CONTEXT_REG_OFFSET) / 4)
          (Z.of_nat (length [1; 2])) = false).
Proof.
  apply (run_packet_exact (fun _ => None) regmap_init 10 SI_CONTEXT_REG_OFFSET SI_CONTEXT_REG_END
           PKT3_SET_CONTEXT_REG 0x28000 0 [1; 2]).
  - unfold seq_space. rewrite !elem_of_cons. tauto.
  - vm_compute. discriminate.
  - vm_compute. discriminate.
  - lia.
  - discriminate.
  - vm_compute. reflexivity.
Defined.
