(* ===== verification/Xclipse.v ===== *)
(** The Xclipse chips (src/amd/common/ac_gpu_info.c): the row of each, which chip a device
    is, the knobs that override a row, and the set-up of TITAN's register map; the context
    registers the preamble initializes on chips that never get a clear state
    (ac_xclipse_ctxinit.h), and the head of radv_emit_graphics (radv_queue.c), which
    writes them first. *)

From Stdlib Require Import Ascii String.
From S2P Require Import Prelude Pm4 CText TitanMap RegPm4.
Local Open Scope string_scope.
Local Open Scope list_scope.
Open Scope Z_scope.

(** * The chips *)

Inductive ac_xclipse_model :=
| AC_XCLIPSE_NONE | AC_XCLIPSE_920 | AC_XCLIPSE_530 | AC_XCLIPSE_940 | AC_XCLIPSE_540
| AC_XCLIPSE_950 | AC_XCLIPSE_960 | AC_XCLIPSE_550 | AC_XCLIPSE_UNKNOWN.

#[global] Instance ac_xclipse_model_eq_dec : EqDecision ac_xclipse_model.
Proof. solve_decision. Defined.

Definition all_models : list ac_xclipse_model :=
  [ AC_XCLIPSE_NONE; AC_XCLIPSE_920; AC_XCLIPSE_530; AC_XCLIPSE_940; AC_XCLIPSE_540;
    AC_XCLIPSE_950; AC_XCLIPSE_960; AC_XCLIPSE_550; AC_XCLIPSE_UNKNOWN ].

Record xclipse_pbb := mk_pbb {
  bin_size : Z; context_states : Z; persistent_states : Z; cntl_1 : Z; cntl_2 : Z; pbb_on : bool
}.

Record ac_xclipse_chip := mk_chip {
  chip_name : string;
  codename : option string;
  titan_regmap : bool;
  has_rt : bool;
  ctx_init : bool;
  no_cp_dma_prefetch : bool;
  submit_pacing : bool;
  unstable : bool;
  pbb : xclipse_pbb
}.

(** A row without a binner is zero there. *)
Definition no_pbb : xclipse_pbb := mk_pbb 0 0 0 0 0 false.

Definition ac_xclipse_chips (m : ac_xclipse_model) : ac_xclipse_chip :=
  match m with
  | AC_XCLIPSE_NONE => mk_chip "none" None false true false false false false no_pbb
  | AC_XCLIPSE_920 => mk_chip "920" (Some "VANGOGHLITE") false true false false true false
                        (mk_pbb 64 3 8 0x03ff0154 0x00c00000 false)
  | AC_XCLIPSE_530 => mk_chip "530" (Some "TITAN") true false true false false false
                        (mk_pbb 0 4 32 0x06ff0154 0x03e00000 false)
  | AC_XCLIPSE_940 => mk_chip "940" (Some "MAGELLAN CARL") true true true true false false no_pbb
  | AC_XCLIPSE_540 => mk_chip "540" (Some "ARIEL") true false true true false false no_pbb
  | AC_XCLIPSE_950 => mk_chip "950" (Some "GALILEO") true true true true false false no_pbb
  | AC_XCLIPSE_960 => mk_chip "960" (Some "JUNO") true true true true false false no_pbb
  | AC_XCLIPSE_550 => mk_chip "550" (Some "TRITON") true false true true false false no_pbb
  | AC_XCLIPSE_UNKNOWN => mk_chip "unknown" None false true false false false false no_pbb
  end%string.

(** The enum value; [m] out of range gives the unknown row. *)
Definition model_index (m : ac_xclipse_model) : Z :=
  match m with
  | AC_XCLIPSE_NONE => 0 | AC_XCLIPSE_920 => 1 | AC_XCLIPSE_530 => 2 | AC_XCLIPSE_940 => 3
  | AC_XCLIPSE_540 => 4 | AC_XCLIPSE_950 => 5 | AC_XCLIPSE_960 => 6 | AC_XCLIPSE_550 => 7
  | AC_XCLIPSE_UNKNOWN => 8
  end.

Definition ac_xclipse_chip_info (xclipse_model : Z) : ac_xclipse_chip :=
  ac_xclipse_chips (default AC_XCLIPSE_UNKNOWN (all_models !! Z.to_nat (u32 xclipse_model))).

(** * Which chip a device is *)

Definition AC_MGFX_GEN (rev : Z) : Z := Z.land (Z.shiftr rev 24) 0xff.
Definition AC_MGFX_MOD (rev : Z) : Z := Z.land (Z.shiftr rev 16) 0xff.

Definition ac_model_from_chip_rev (chip_rev : Z) : ac_xclipse_model :=
  let gen := AC_MGFX_GEN chip_rev in
  let mod_ := AC_MGFX_MOD chip_rev in
  if (gen =? 0) && (mod_ =? 0x60) then AC_XCLIPSE_920
  else if (gen =? 1) && (mod_ =? 0x30) then AC_XCLIPSE_530
  else if (gen =? 2) && (mod_ =? 0x60) then AC_XCLIPSE_940
  else if (gen =? 2) && (mod_ =? 0x30) then AC_XCLIPSE_540
  else if (gen =? 3) && (mod_ =? 0x60) then AC_XCLIPSE_950
  else if (gen =? 3) && (mod_ =? 0x30) then AC_XCLIPSE_550
  else if (gen =? 4) && (mod_ =? 0x60) then AC_XCLIPSE_960
  else AC_XCLIPSE_UNKNOWN.

Definition model_from_soc (soc : string) : ac_xclipse_model :=
  if String.eqb soc "s5e9925" || String.eqb soc "s5e9935" then AC_XCLIPSE_920
  else if String.eqb soc "s5e8845" then AC_XCLIPSE_530
  else if String.eqb soc "s5e9945" then AC_XCLIPSE_940
  else if String.eqb soc "s5e8855" then AC_XCLIPSE_540
  else if String.eqb soc "s5e9955" then AC_XCLIPSE_950
  else if String.eqb soc "s5e9965" then AC_XCLIPSE_960
  else if String.eqb soc "s5e8865" then AC_XCLIPSE_550
  else AC_XCLIPSE_UNKNOWN.

Section Process.
(** The environment, and the system properties of an Android build ([None]: not one). *)
Variable getenv : environment.
Variable props : option environment.

Definition property_get (name : string) : option string :=
  match props with Some p => env_nonempty (p name) | None => None end.

Definition ac_detect_xclipse_model (device_id chip_rev : Z) : ac_xclipse_model :=
  if negb (device_id =? 0x73a0) then AC_XCLIPSE_NONE
  else
    let from_rev := ac_model_from_chip_rev chip_rev in
    match property_get "ro.soc.model" with
    | None => from_rev
    | Some soc =>
        let from_soc := model_from_soc soc in
        if bool_decide (from_soc <> AC_XCLIPSE_UNKNOWN) && bool_decide (from_rev <> AC_XCLIPSE_UNKNOWN)
           && bool_decide (from_soc <> from_rev)
        then from_rev
        else if bool_decide (from_soc <> AC_XCLIPSE_UNKNOWN) then from_soc else from_rev
    end.

(** * Knobs *)

Definition xclipse_knob_int (env_name prop_name : string) : Z :=
  let from_prop := match property_get prop_name with Some v => atoi v | None => -1 end in
  match env_nonempty (getenv env_name) with
  | Some e =>
      let '(l, rest) := strtol e 10 in
      if negb (String.eqb rest e) && String.eqb rest EmptyString then s32 l else from_prop
  | None => from_prop
  end.

Definition xclipse_knob_hex (env_name prop_name : string) : Z :=
  let t := match env_nonempty (getenv env_name) with
           | Some e => Some e
           | None => property_get prop_name
           end in
  match t with
  | Some s =>
      let '(l, rest) := strtol s 0 in
      if negb (String.eqb rest s) && String.eqb rest EmptyString then s32 l else -1
  | None => -1
  end.

Definition ac_xclipse_pbb (xclipse_model : Z) : option xclipse_pbb :=
  let knob := xclipse_knob_int "RADV_XCLIPSE_PBB" "debug.radv_xclipse_pbb" in
  let p := pbb (ac_xclipse_chip_info xclipse_model) in
  if (cntl_1 p =? 0) || (knob =? 0) then None
  else if (0 <? knob) || pbb_on p then Some p else None.

Definition ac_xclipse_full_db_flush (xclipse_model : Z) : bool :=
  negb (xclipse_model =? model_index AC_XCLIPSE_NONE)
  && negb (xclipse_knob_int "RADV_XCLIPSE_DBFLUSH" "debug.radv_xclipse_dbflush" =? 0).

(** TITAN's map, set up once the chip is known; [Some] when the family becomes
    CHIP_TITAN: the map, ac_titan_cb_ext_slot and ac_titan_cb_view_slot. *)
Definition titan_setup (xclipse_model : Z) (m : regmap) : option (regmap * Z * Z) :=
  if titan_regmap (ac_xclipse_chip_info xclipse_model) then
    let twant := xclipse_knob_int "RADV_XCLIPSE_TITAN" "debug.radv_xclipse_titan" in
    let twant := if twant <? 0 then 10 else twant in
    if 0 <? twant then
      let swant := xclipse_knob_int "RADV_XCLIPSE_TITAN_SUP" "debug.radv_xclipse_titan_sup" in
      let m1 := {| regmap_active := regmap_active m; regmap_level := regmap_level m;
                   regmap_suppress := negb (swant =? 0); regmap_hits := regmap_hits m;
                   mapovr := mapovr m |} in
      let m2 := ac_titan_regmap_set_level getenv m1 twant in
      let cwant := xclipse_knob_int "RADV_XCLIPSE_TITAN_CBEXT" "debug.radv_xclipse_titan_cbext" in
      let vwant := xclipse_knob_int "RADV_XCLIPSE_TITAN_CBVIEW" "debug.radv_xclipse_titan_cbview" in
      Some (m2, cwant, if 0 <=? vwant then vwant else 1)
    else None
  else None.

(** The mode of the context initialization (radv_queue.c): 0, 1, 2 or what the knob says. *)
Definition radv_xclipse_ctxinit_mode (xclipse_model : Z) : Z :=
  let want := match env_nonempty (getenv "RADV_XCLIPSE_CTXINIT") with Some e => atoi e | None => -1 end in
  let want := if want <? 0
              then match property_get "debug.radv_xclipse_ctxinit" with Some v => atoi v | None => want end
              else want in
  if 0 <=? want then want else b2z (ctx_init (ac_xclipse_chip_info xclipse_model)).

Definition radv_xclipse_needs_ctx_init (xclipse_model : Z) : bool :=
  radv_xclipse_ctxinit_mode xclipse_model =? 1.
Definition radv_xclipse_allows_clear_state (xclipse_model : Z) : bool :=
  radv_xclipse_ctxinit_mode xclipse_model =? 0.
End Process.

(** * The context initialization and the head of the preamble *)

(** A register and its value. *)
Definition ac_xclipse_ctx_init : list (Z * Z) :=
  [(0x28000, 0x0); (0x28004, 0x0); (0x28008, 0x0); (0x2800c, 0x0); (0x28010, 0x0); (0x28014, 0x0);
    (0x28018, 0x0); (0x2801c, 0x0); (0x28020, 0x0); (0x28024, 0x0); (0x28028, 0x0); (0x2802c, 0x0);
    (0x28030, 0x0); (0x28034, 0x40004000); (0x2803c, 0x0); (0x28040, 0x0); (0x28044, 0x0); (0x28048, 0x0);
    (0x2804c, 0x0); (0x28050, 0x0); (0x28054, 0x0); (0x28058, 0x0); (0x2805c, 0x0); (0x28060, 0x0);
    (0x28064, 0x0); (0x28068, 0x0); (0x2806c, 0x0); (0x28070, 0x0); (0x28074, 0x0); (0x28078, 0x0);
    (0x28088, 0x0); (0x2808c, 0x0); (0x281e8, 0x0); (0x281ec, 0x0); (0x281f0, 0x0); (0x281f4, 0x0);
    (0x281f8, 0x0); (0x281fc, 0x0); (0x28200, 0x0); (0x28204, 0x80000000); (0x28208, 0x40004000);
    (0x2820c, 0xffff); (0x28210, 0x0); (0x28214, 0x40004000); (0x28218, 0x0); (0x2821c, 0x40004000);
    (0x28220, 0x0); (0x28224, 0x40004000); (0x28228, 0x0); (0x2822c, 0x40004000); (0x28234, 0x0);
    (0x28238, 0x0); (0x2823c, 0x0); (0x28240, 0x80000000); (0x28244, 0x40004000); (0x28248, 0x0);
    (0x2824c, 0x0); (0x28250, 0x80000000); (0x28254, 0x40004000); (0x28258, 0x80000000);
    (0x2825c, 0x40004000); (0x28260, 0x80000000); (0x28264, 0x40004000); (0x28268, 0x80000000);
    (0x2826c, 0x40004000); (0x28270, 0x80000000); (0x28274, 0x40004000); (0x28278, 0x80000000);
    (0x2827c, 0x40004000); (0x28280, 0x80000000); (0x28284, 0x40004000); (0x28288, 0x80000000);
    (0x2828c, 0x40004000); (0x28290, 0x80000000); (0x28294, 0x40004000); (0x28298, 0x80000000);
    (0x2829c, 0x40004000); (0x282a0, 0x80000000); (0x282a4, 0x40004000); (0x282a8, 0x80000000);
    (0x282ac, 0x40004000); (0x282b0, 0x80000000); (0x282b4, 0x40004000); (0x282b8, 0x80000000);
    (0x282bc, 0x40004000); (0x282c0, 0x80000000); (0x282c4, 0x40004000); (0x282c8, 0x80000000);
    (0x282cc, 0x40004000); (0x28350, 0x0); (0x28354, 0x0); (0x28358, 0x0); (0x2835c, 0x0); (0x28374, 0x0);
    (0x28378, 0x0); (0x2837c, 0x0); (0x28380, 0x0); (0x2840c, 0x0); (0x28414, 0x0); (0x28418, 0x0);
    (0x2841c, 0x0); (0x28420, 0x0); (0x28424, 0x0); (0x28428, 0x0); (0x2842c, 0x0); (0x28430, 0x0);
    (0x28434, 0x0); (0x28438, 0x0); (0x2843c, 0x0); (0x28440, 0x0); (0x28444, 0x0); (0x28448, 0x0);
    (0x2844c, 0x0); (0x28450, 0x0); (0x28454, 0x0); (0x28458, 0x0); (0x2845c, 0x0); (0x28460, 0x0);
    (0x28464, 0x0); (0x28468, 0x0); (0x2846c, 0x0); (0x28470, 0x0); (0x28474, 0x0); (0x28478, 0x0);
    (0x2847c, 0x0); (0x28480, 0x0); (0x28484, 0x0); (0x28488, 0x0); (0x2848c, 0x0); (0x28490, 0x0);
    (0x28494, 0x0); (0x28498, 0x0); (0x2849c, 0x0); (0x284a0, 0x0); (0x284a4, 0x0); (0x284a8, 0x0);
    (0x284ac, 0x0); (0x284b0, 0x0); (0x284b4, 0x0); (0x284b8, 0x0); (0x284bc, 0x0); (0x284c0, 0x0);
    (0x284c4, 0x0); (0x284c8, 0x0); (0x284cc, 0x0); (0x284d0, 0x0); (0x284d4, 0x0); (0x284d8, 0x0);
    (0x284dc, 0x0); (0x284e0, 0x0); (0x284e4, 0x0); (0x284e8, 0x0); (0x284ec, 0x0); (0x284f0, 0x0);
    (0x284f4, 0x0); (0x284f8, 0x0); (0x284fc, 0x0); (0x28500, 0x0); (0x28504, 0x0); (0x28508, 0x0);
    (0x2850c, 0x0); (0x28510, 0x0); (0x28514, 0x0); (0x28518, 0x0); (0x2851c, 0x0); (0x28520, 0x0);
    (0x28524, 0x0); (0x28528, 0x0); (0x2852c, 0x0); (0x28530, 0x0); (0x28534, 0x0); (0x28538, 0x0);
    (0x2853c, 0x0); (0x28540, 0x0); (0x28544, 0x0); (0x28548, 0x0); (0x2854c, 0x0); (0x28550, 0x0);
    (0x28554, 0x0); (0x28558, 0x0); (0x2855c, 0x0); (0x28560, 0x0); (0x28564, 0x0); (0x28568, 0x0);
    (0x2856c, 0x0); (0x28570, 0x0); (0x28574, 0x0); (0x28578, 0x0); (0x2857c, 0x0); (0x28580, 0x0);
    (0x28584, 0x0); (0x28588, 0x0); (0x2858c, 0x0); (0x28590, 0x0); (0x28594, 0x0); (0x28598, 0x0);
    (0x2859c, 0x0); (0x285a0, 0x0); (0x285a4, 0x0); (0x285a8, 0x0); (0x285ac, 0x0); (0x285b0, 0x0);
    (0x285b4, 0x0); (0x285b8, 0x0); (0x285bc, 0x0); (0x285c0, 0x0); (0x285c4, 0x0); (0x285c8, 0x0);
    (0x285cc, 0x0); (0x285d0, 0x0); (0x285d4, 0x0); (0x285d8, 0x0); (0x285dc, 0x0); (0x285e0, 0x0);
    (0x285e4, 0x0); (0x285e8, 0x0); (0x285ec, 0x0); (0x285f0, 0x0); (0x285f4, 0x0); (0x285f8, 0x0);
    (0x285fc, 0x0); (0x28600, 0x0); (0x28604, 0x0); (0x28608, 0x0); (0x2860c, 0x0); (0x28610, 0x0);
    (0x28614, 0x0); (0x28618, 0x0); (0x2861c, 0x0); (0x28620, 0x0); (0x28624, 0x0); (0x28628, 0x0);
    (0x2862c, 0x0); (0x28630, 0x0); (0x28634, 0x0); (0x28638, 0x0); (0x28640, 0x0); (0x28644, 0x0);
    (0x28648, 0x0); (0x2864c, 0x0); (0x28650, 0x0); (0x28654, 0x0); (0x28658, 0x0); (0x2865c, 0x0);
    (0x28660, 0x0); (0x28664, 0x0); (0x28668, 0x0); (0x2866c, 0x0); (0x28670, 0x0); (0x28674, 0x0);
    (0x28678, 0x0); (0x2867c, 0x0); (0x28680, 0x0); (0x28684, 0x0); (0x28688, 0x0); (0x2868c, 0x0);
    (0x28690, 0x0); (0x28694, 0x0); (0x28698, 0x0); (0x2869c, 0x0); (0x286a0, 0x0); (0x286a4, 0x0);
    (0x286a8, 0x0); (0x286ac, 0x0); (0x286b0, 0x0); (0x286b4, 0x0); (0x286b8, 0x0); (0x286bc, 0x0);
    (0x286c0, 0x0); (0x286c4, 0x0); (0x286c8, 0x0); (0x286cc, 0x0); (0x286d0, 0x0); (0x286d8, 0x0);
    (0x286dc, 0x0); (0x286e0, 0x0); (0x286e4, 0x0); (0x286e8, 0x0); (0x286ec, 0x0); (0x286f0, 0x0);
    (0x28708, 0x0); (0x2870c, 0x0); (0x28710, 0x0); (0x28754, 0x0); (0x28758, 0x0); (0x2875c, 0x0);
    (0x28760, 0x0); (0x28764, 0x0); (0x28768, 0x0); (0x2876c, 0x0); (0x28770, 0x0); (0x28774, 0x0);
    (0x28778, 0x0); (0x2877c, 0x0); (0x28780, 0x0); (0x28784, 0x0); (0x28788, 0x0); (0x2878c, 0x0);
    (0x28790, 0x0); (0x28794, 0x0); (0x28798, 0x0); (0x2879c, 0x0); (0x287d4, 0x0); (0x287d8, 0x0);
    (0x287dc, 0x0); (0x287e0, 0x0); (0x287fc, 0x0); (0x28800, 0x0); (0x28804, 0x0); (0x28808, 0x0);
    (0x2880c, 0x0); (0x28810, 0x0); (0x28814, 0x0); (0x2881c, 0x0); (0x28820, 0x0); (0x28824, 0x0);
    (0x2882c, 0x0); (0x28834, 0x0); (0x2883c, 0x0); (0x28840, 0x0); (0x28844, 0x0); (0x28848, 0x0);
    (0x28a08, 0x0); (0x28a0c, 0x0); (0x28a1c, 0x0); (0x28a4c, 0x0); (0x28a50, 0x0); (0x28a8c, 0x0);
    (0x28a94, 0x0); (0x28a98, 0x0); (0x28a9c, 0x0); (0x28aa0, 0x0); (0x28aa4, 0x0); (0x28aa8, 0x0);
    (0x28ab0, 0x0); (0x28ab4, 0x0); (0x28ab8, 0x0); (0x28abc, 0x0); (0x28ac0, 0x0); (0x28ac4, 0x0);
    (0x28ac8, 0x0); (0x28ad0, 0x0); (0x28ad4, 0x0); (0x28adc, 0x0); (0x28ae0, 0x0); (0x28ae4, 0x0);
    (0x28aec, 0x0); (0x28af0, 0x0); (0x28af4, 0x0); (0x28afc, 0x0); (0x28b00, 0x0); (0x28b04, 0x0);
    (0x28b0c, 0x0); (0x28b28, 0x0); (0x28b2c, 0x0); (0x28b30, 0x0); (0x28b38, 0x0); (0x28b3c, 0x0);
    (0x28b4c, 0x0); (0x28b54, 0x0); (0x28b58, 0x0); (0x28b5c, 0x0); (0x28b60, 0x0); (0x28b64, 0x0);
    (0x28b68, 0x0); (0x28b6c, 0x0); (0x28b70, 0x0); (0x28b74, 0x0); (0x28b78, 0x0); (0x28b7c, 0x0);
    (0x28b80, 0x0); (0x28b84, 0x0); (0x28b88, 0x0); (0x28b8c, 0x0); (0x28bdc, 0x1000); (0x28be0, 0x0);
    (0x28be8, 0x0); (0x28bec, 0x0); (0x28bf0, 0x0); (0x28bf4, 0x0); (0x28bf8, 0x0); (0x28bfc, 0x0);
    (0x28c00, 0x0); (0x28c04, 0x0); (0x28c08, 0x0); (0x28c0c, 0x0); (0x28c10, 0x0); (0x28c14, 0x0);
    (0x28c18, 0x0); (0x28c1c, 0x0); (0x28c20, 0x0); (0x28c24, 0x0); (0x28c28, 0x0); (0x28c2c, 0x0);
    (0x28c30, 0x0); (0x28c34, 0x0); (0x28c38, 0xffffffff); (0x28c3c, 0xffffffff); (0x28c40, 0x0);
    (0x28c44, 0x3); (0x28c4c, 0x0); (0x28c54, 0x0); (0x28c5c, 0x0); (0x28c60, 0x0); (0x28c64, 0x0);
    (0x28c68, 0x0); (0x28c6c, 0x0); (0x28c70, 0x0); (0x28c74, 0x0); (0x28c78, 0x0); (0x28c7c, 0x0);
    (0x28c80, 0x0); (0x28c84, 0x0); (0x28c88, 0x0); (0x28c8c, 0x0); (0x28c90, 0x0); (0x28c94, 0x0);
    (0x28c98, 0x0); (0x28c9c, 0x0); (0x28ca0, 0x0); (0x28ca4, 0x0); (0x28ca8, 0x0); (0x28cac, 0x0);
    (0x28cb0, 0x0); (0x28cb4, 0x0); (0x28cb8, 0x0); (0x28cbc, 0x0); (0x28cc0, 0x0); (0x28cc4, 0x0);
    (0x28cc8, 0x0); (0x28ccc, 0x0); (0x28cd0, 0x0); (0x28cd4, 0x0); (0x28cd8, 0x0); (0x28cdc, 0x0);
    (0x28ce0, 0x0); (0x28ce4, 0x0); (0x28ce8, 0x0); (0x28cec, 0x0); (0x28cf0, 0x0); (0x28cf4, 0x0);
    (0x28cf8, 0x0); (0x28cfc, 0x0); (0x28d00, 0x0); (0x28d04, 0x0); (0x28d08, 0x0); (0x28d0c, 0x0);
    (0x28d10, 0x0); (0x28d14, 0x0); (0x28d18, 0x0); (0x28d1c, 0x0); (0x28d20, 0x0); (0x28d24, 0x0);
    (0x28d28, 0x0); (0x28d2c, 0x0); (0x28d30, 0x0); (0x28d34, 0x0); (0x28d38, 0x0); (0x28d3c, 0x0);
    (0x28d40, 0x0); (0x28d44, 0x0); (0x28d48, 0x0); (0x28d4c, 0x0); (0x28d50, 0x0); (0x28d54, 0x0);
    (0x28d58, 0x0); (0x28d5c, 0x0); (0x28d60, 0x0); (0x28d64, 0x0); (0x28d68, 0x0); (0x28d6c, 0x0);
    (0x28d70, 0x0); (0x28d74, 0x0); (0x28d78, 0x0); (0x28d7c, 0x0); (0x28d80, 0x0); (0x28d84, 0x0);
    (0x28d88, 0x0); (0x28d8c, 0x0); (0x28d90, 0x0); (0x28d94, 0x0); (0x28d98, 0x0); (0x28d9c, 0x0);
    (0x28da0, 0x0); (0x28da4, 0x0); (0x28da8, 0x0); (0x28dac, 0x0); (0x28db0, 0x0); (0x28db4, 0x0);
    (0x28db8, 0x0); (0x28dbc, 0x0); (0x28dc0, 0x0); (0x28dc4, 0x0); (0x28dc8, 0x0); (0x28dcc, 0x0);
    (0x28dd0, 0x0); (0x28dd4, 0x0); (0x28dd8, 0x0); (0x28ddc, 0x0); (0x28de0, 0x0); (0x28de4, 0x0);
    (0x28de8, 0x0); (0x28dec, 0x0); (0x28e40, 0x0); (0x28e44, 0x0); (0x28e48, 0x0); (0x28e4c, 0x0);
    (0x28e50, 0x0); (0x28e54, 0x0); (0x28e58, 0x0); (0x28e5c, 0x0); (0x28e60, 0x0); (0x28e64, 0x0);
    (0x28e68, 0x0); (0x28e6c, 0x0); (0x28e70, 0x0); (0x28e74, 0x0); (0x28e78, 0x0); (0x28e7c, 0x0);
    (0x28e80, 0x0); (0x28e84, 0x0); (0x28e88, 0x0); (0x28e8c, 0x0); (0x28e90, 0x0); (0x28e94, 0x0);
    (0x28e98, 0x0); (0x28e9c, 0x0); (0x28ea0, 0x0); (0x28ea4, 0x0); (0x28ea8, 0x0); (0x28eac, 0x0);
    (0x28eb0, 0x0); (0x28eb4, 0x0); (0x28eb8, 0x0); (0x28ebc, 0x0)].

Definition PKT3_CLEAR_STATE : Z := 0x12.

Section Preamble.
Variable names : Z -> bool.
Variable getenv : environment.
Variable props : option environment.
(** S_281_UPDATE_LOAD_ENABLES(1) and S_282_UPDATE_SHADOW_ENABLES(1), of the generated
    register header. *)
Variables load_enables shadow_enables : Z.

Definition context_control : list Z := [PKT3 PKT3_CONTEXT_CONTROL 1 0; load_enables; shadow_enables].

(** The loop over the table. *)
Fixpoint init_registers (l : list (Z * Z)) (m : regmap) (st : ac_pm4_state) : result (ac_pm4_state * regmap) :=
  match l with
  | [] => Ok (st, m)
  | (reg, val) :: l' =>
      let! (st, m) := ac_pm4_set_reg names getenv m reg val st ;; init_registers l' m st
  end.

(** radv_emit_graphics down to the loop. [None]: no memory for the state. *)
Definition emit_graphics_head (i : pm4_info) (xclipse_model : Z) (has_clear_state uses_shadow_regs alloc : bool)
    (m : regmap) : option (result (ac_pm4_state * regmap)) :=
  let has_clear_state :=
    if radv_xclipse_allows_clear_state getenv props xclipse_model then has_clear_state else false in
  let needs := radv_xclipse_needs_ctx_init getenv props xclipse_model in
  match ac_pm4_create_sized alloc i false (if needs then 2048 else 512) false with
  | None => None
  | Some st =>
      Some (let! st :=
              (if negb uses_shadow_regs then
                 let! st := cmd_add_all context_control st ;;
                 if has_clear_state then cmd_add_all [PKT3 PKT3_CLEAR_STATE 0 0; 0] st else Ok st
               else Ok st) ;;
            if needs then init_registers ac_xclipse_ctx_init m st else Ok (st, m))
  end.
End Preamble.
