(* ===== verification/CtxInitMain.v ===== *)
(** On a chip that runs TITAN's map, the preamble leaves every context register of the
    table with its value, wherever the map puts it. *)

From Stdlib Require Import Ascii String.
From stdpp Require Import gmap.
From S2P Require Import Prelude Pm4 CText TitanMap TitanProofs RegPm4 RegPm4Spec RegPm4Proofs RegPm4Ops RegPm4Main Xclipse.
Local Open Scope string_scope.
Local Open Scope list_scope.
Open Scope Z_scope.

(** * A list of writes in which a register has one value *)

Definition one_value (l : list (Z * Z)) : Prop := forall p q, p ∈ l -> q ∈ l -> p.1 = q.1 -> p.2 = q.2.

Lemma perform_one_value l regs r v :
  one_value l -> (forall q, q ∈ l -> q.1 = r -> q.2 = v) -> (r, v) ∈ l \/ regs !! r = Some v ->
  (perform regs ((fun p => Write p.1 p.2) <$> l)).2 !! r = Some v.
Proof.
  revert regs. induction l as [|[r0 v0] l IH]; intros regs Hone Hr Hin.
  { destruct Hin as [[]%elem_of_nil|]; done. }
  cbn [fmap list_fmap perform fst snd]. apply IH.
  - intros p q Hp Hq. apply Hone; by apply list_elem_of_further.
  - intros q Hq. apply Hr. by apply list_elem_of_further.
  - rewrite elem_of_cons in Hin. destruct (decide (r0 = r)) as [->|Hne].
    + right. rewrite lookup_insert_eq. f_equal. apply (Hr (r, v0)); [apply list_elem_of_here|done].
    + rewrite lookup_insert_ne by done. destruct Hin as [[[= -> ->]|]|]; [done|by left|by right].
Qed.

(** The table, with each register at dword [f] of the context space. *)
Definition placed_at (f : Z -> Z) : list (Z * Z) :=
  (fun p => (SI_CONTEXT_REG_OFFSET + f ((p.1 - SI_CONTEXT_REG_OFFSET) / 4) * 4, p.2)) <$> ac_xclipse_ctx_init.

(** Each register's first value is remembered; the others must repeat it. *)
Fixpoint one_value_from (m : gmap Z Z) (l : list (Z * Z)) : bool :=
  match l with
  | [] => true
  | (r, v) :: l' =>
      match m !! r with
      | Some v' => (v' =? v) && one_value_from m l'
      | None => one_value_from (<[r := v]> m) l'
      end
  end.

Definition one_value_b (l : list (Z * Z)) : bool := one_value_from ∅ l.

Lemma one_value_from_spec m l :
  one_value_from m l = true -> exists m', m ⊆ m' /\ forall p, p ∈ l -> m' !! p.1 = Some p.2.
Proof.
  revert m. induction l as [|[r v] l IH]; intros m; cbn [one_value_from].
  { intros _. exists m. split; [done|]. by intros p ?%elem_of_nil. }
  destruct (m !! r) as [v'|] eqn:E.
  - intros [->%Z.eqb_eq H]%andb_true_iff. destruct (IH m H) as (m' & Hm & Hl). exists m'. split; [done|].
    intros p [->|Hp]%elem_of_cons; [by eapply lookup_weaken|by apply Hl].
  - intros H. destruct (IH _ H) as (m' & Hm & Hl). exists m'. split.
    + etrans; [by apply insert_subseteq|exact Hm].
    + intros p [->|Hp]%elem_of_cons; [|by apply Hl]. eapply lookup_weaken; [|exact Hm]. apply lookup_insert_eq.
Qed.

Lemma one_value_b_spec l : one_value_b l = true -> one_value l.
Proof.
  intros H. destruct (one_value_from_spec _ _ H) as (m & _ & Hm). intros p q Hp Hq E.
  apply Hm in Hp, Hq. rewrite E in Hp. congruence.
Qed.

Lemma placed_at_ext f g : (forall dw, f dw = g dw) -> placed_at f = placed_at g.
Proof. intros H. unfold placed_at. apply list_fmap_ext. intros _ p _. by rewrite H. Qed.

Lemma placed_identity : one_value_b (placed_at (fun dw => dw)) = true.
Proof. vm_compute. reflexivity. Qed.
Lemma placed_kernel : one_value_b (placed_at ac_titan_kmap_ctx) = true.
Proof. vm_compute. reflexivity. Qed.
Lemma placed_hand :
  forallb (fun g => one_value_b (placed_at (hand_ctx (fun _ => None) g))) [1; 4; 6; 8; 9; 10] = true.
Proof. vm_compute. reflexivity. Qed.

Section Maps.
Variable getenv : environment.

(** Where ac_pm4_set_reg puts a context register. *)
Definition context_place (m : regmap) (reg : Z) : Z :=
  SI_CONTEXT_REG_OFFSET
  + (premap getenv m PKT3_SET_CONTEXT_REG (reg - SI_CONTEXT_REG_OFFSET)).1 / 4 * 4.

Definition context_dw (m : regmap) (dw : Z) : Z :=
  if regmap_active m && ac_titan_preamble_remap getenv then ac_titan_ctx_dw getenv m dw else dw.

Lemma context_place_dw m reg :
  context_place m reg = SI_CONTEXT_REG_OFFSET + context_dw m ((reg - SI_CONTEXT_REG_OFFSET) / 4) * 4.
Proof.
  unfold context_place, premap, context_dw, ac_titan_remap_dw.
  destruct (regmap_active m); [|done]. cbn [andb negb].
  destruct (ac_titan_preamble_remap getenv); [|done]. cbn. by rewrite Z.div_mul by lia.
Qed.

(** Registers of the table that share a place have the same value. *)
Lemma placed_one_value m :
  slots_default getenv -> mapovr m = [] -> one_value (placed_at (context_dw m)).
Proof.
  intros Hs Ho. apply one_value_b_spec. unfold context_dw.
  destruct (regmap_active m && ac_titan_preamble_remap getenv).
  2: apply placed_identity.
  unfold ac_titan_ctx_dw. rewrite Ho. cbn [cases]. destruct (1 <=? ac_titan_kmap_level getenv).
  { apply placed_kernel. }
  rewrite (placed_at_ext _ (hand_ctx (fun _ => None) (hand_grade (regmap_level m)))).
  - pose proof placed_hand as H. rewrite forallb_forall in H. apply H.
    unfold hand_grade. repeat case_cmp; cbn; tauto.
  - intros dw. by rewrite hand_ctx_grade, hand_ctx_slots.
Qed.
End Maps.

(** * The head of the preamble, as operations *)

Lemma context_control_raw load_enables shadow_enables : raw_packet (context_control load_enables shadow_enables).
Proof.
  eexists PKT3_CONTEXT_CONTROL, 1, 0, _. split; [reflexivity|]. split; [vm_compute; intuition discriminate|].
  split; [|split; [lia|done]].
  apply (bool_decide_eq_false_1 (PKT3_CONTEXT_CONTROL ∈ set_opcodes)). vm_compute. reflexivity.
Qed.

Section Preamble.
Variable names : Z -> bool.
Variable getenv : environment.
Variable props : option environment.
Variables load_enables shadow_enables : Z.

Definition head_ops (shadow : bool) : list reg_op :=
  (if shadow then [] else [OPacket (context_control load_enables shadow_enables)])
  ++ ((fun p => OSet p.1 p.2) <$> ac_xclipse_ctx_init).

Lemma init_registers_run l m st :
  init_registers names getenv l m st = record_ops getenv names ((fun p => OSet p.1 p.2) <$> l) (st, m).
Proof.
  revert m st. induction l as [|[reg val] l IH]; intros m st; [done|]. cbn.
  destruct (ac_pm4_set_reg names getenv m reg val st) as [[st1 m1]|]; [apply IH|done].
Qed.

Lemma head_run i model clear shadow st m :
  radv_xclipse_needs_ctx_init getenv props model = true ->
  ac_pm4_create_sized true i false 2048 false = Some st ->
  emit_graphics_head names getenv props load_enables shadow_enables i model clear shadow true m
  = Some (record_ops getenv names (head_ops shadow) (st, m)).
Proof.
  unfold radv_xclipse_needs_ctx_init, emit_graphics_head, radv_xclipse_allows_clear_state, radv_xclipse_needs_ctx_init.
  intros H Hc. rewrite H. replace (radv_xclipse_ctxinit_mode getenv props model =? 0) with false by lia.
  rewrite Hc. f_equal. unfold head_ops. destruct shadow; cbn [negb app].
  - apply init_registers_run.
  - cbn [record_ops record_op]. destruct (cmd_add_all _ st) as [st1|]; [apply init_registers_run|done].
Qed.
End Preamble.

(** * The theorem *)

Lemma table_context p :
  p ∈ ac_xclipse_ctx_init -> reg_space p.1 = Some (PKT3_SET_CONTEXT_REG, SI_CONTEXT_REG_OFFSET)
    /\ forall st, is_privileged_reg st p.1 = false.
Proof.
  intros Hp.
  assert (H : forallb (fun p => (SI_CONTEXT_REG_OFFSET <=? p.1) && (p.1 <? SI_CONTEXT_REG_END)) ac_xclipse_ctx_init
              = true) by (vm_compute; reflexivity).
  rewrite forallb_forall in H. specialize (H p (proj1 (list_elem_of_In _ _) Hp)).
  unfold reg_space, is_privileged_reg. cbn [existsb]. unfold SI_CONFIG_REG_OFFSET, SI_CONFIG_REG_END, SI_SH_REG_OFFSET, SI_SH_REG_END,
    SI_CONTEXT_REG_OFFSET, SI_CONTEXT_REG_END in *.
  split; [|intros st; repeat (destruct (gfx_ge _ _ && _)); lia].
  replace ((0x8000 <=? p.1) && (p.1 <? 0xB000)) with false by lia.
  replace ((0xB000 <=? p.1) && (p.1 <? 0xC000)) with false by lia. by rewrite H.
Qed.

(** What the head asks for. *)
Lemma head_events getenv le se shadow st m :
  all_events getenv st m (head_ops le se shadow)
  = (if shadow then [] else [Packet (context_control le se)])
    ++ ((fun p => Write p.1 p.2) <$> placed_at (context_dw getenv m)).
Proof.
  unfold head_ops, all_events. rewrite fmap_app, concat_app. f_equal; [by destruct shadow|].
  unfold placed_at. rewrite <- !list_fmap_compose.
  transitivity (concat ((fun p => [Write (context_place getenv m p.1) p.2]) <$> ac_xclipse_ctx_init)).
  - f_equal. apply Forall_fmap_ext. apply Forall_forall. intros p Hp. cbn.
    destruct (table_context p Hp) as [-> ->]. done.
  - induction ac_xclipse_ctx_init as [|p l IH]; [done|]. cbn. rewrite IH. f_equal.
    by rewrite context_place_dw.
Qed.

Lemma head_cost le se shadow st :
  has_set_context_pairs_packed (info st) = false ->
  total_cost st (head_ops le se shadow) <= 1608 /\ existsb (op_packed st) (head_ops le se shadow) = false.
Proof.
  intros Hnp.
  assert (Hl : forall l, (forall p, p ∈ l -> p ∈ ac_xclipse_ctx_init) ->
    let ops := (fun p => OSet p.1 p.2) <$> l in
    total_cost st ops = 3 * Z.of_nat (length l) /\ existsb (op_packed st) ops = false).
  { induction l as [|p l IH]; intros Hin; [done|]. cbn -[Z.mul Z.of_nat]. unfold total_cost in IH.
    destruct IH as [-> ->]; [intros q Hq; by apply Hin, list_elem_of_further|].
    unfold set_opcode. destruct (table_context p) as [-> ->]; [apply Hin, list_elem_of_here|].
    unfold regular_opcode_to_pairs. cbn -[Z.mul Z.of_nat]. rewrite Hnp.
    destruct (has_set_context_pairs _); (split; [|done]); unfold reg_cost; cbn -[Z.mul Z.of_nat]; lia. }
  destruct (Hl ac_xclipse_ctx_init) as [Hc Hp]; [done|].
  change (Z.of_nat (length ac_xclipse_ctx_init)) with 535 in Hc.
  unfold head_ops. destruct shadow; cbn [app]; [by rewrite Hc|]. unfold total_cost in *.
  cbn [foldr existsb op_cost op_packed orb]. rewrite Hc, Hp. split; [|done]. cbn. lia.
Qed.

Lemma head_ok le se shadow : Forall reg_op_ok (head_ops le se shadow).
Proof.
  unfold head_ops. apply Forall_app. split.
  - destruct shadow; [done|]. constructor; [apply context_control_raw|done].
  - apply Forall_fmap. by apply Forall_true.
Qed.

(** C12: on a chip that runs TITAN's map and needs the context initialization, with no
    override set, the head of the graphics preamble fails no assertion and fits its
    state; the stream it leaves reads back and, once performed, every register of
    ac_xclipse_ctx_init holds its value at the place the map gives it - whichever tables
    are selected, the registers that share a place agree. *)
Theorem preamble_initializes_context names getenv props le se i model clear shadow m0 m cb_ext cb_view :
  titan_setup getenv props model m0 = Some (m, cb_ext, cb_view) ->
  radv_xclipse_needs_ctx_init getenv props model = true ->
  env_nonempty (getenv "RADV_XCLIPSE_MAPOVR") = None -> slots_default getenv ->
  has_set_context_pairs_packed i = false ->
  exists st1 m1 st2 evs,
    emit_graphics_head names getenv props le se i model clear shadow true m = Some (Ok (st1, m1))
    /\ ac_pm4_finalize names st1 = Ok st2
    /\ ac_parse_ib_chunk (ac_pm4_emit_commands st2) = Some evs
    /\ forall regs reg val, (reg, val) ∈ ac_xclipse_ctx_init ->
         (perform regs evs).2 !! context_place getenv m reg = Some val.
Proof.
  intros Hset Hneed Hovr Hslots Hnp.
  assert (Hm : exists m2 level, m = ac_titan_regmap_set_level getenv m2 level).
  { unfold titan_setup in Hset. destruct (titan_regmap _); [|done]. destruct (0 <? _); [|done].
    injection Hset as <- _ _. eauto. }
  destruct Hm as (m2 & level & ->). set (m := ac_titan_regmap_set_level getenv m2 level) in *.
  destruct (ac_pm4_create_sized true i false 2048 false) as [st|] eqn:Hc; [|done].
  destruct (create_holds_packets i 2048 false st Hc) as (Hh & Hn & Hmax); [lia|].
  assert (Hi : info st = i) by (injection Hc as <-; done).
  destruct (head_cost le se shadow st) as [Hcost Hpk]; [by rewrite Hi|].
  destruct (record_ops_spec getenv names (head_ops le se shadow) st m [] Hh (set_level_safe getenv m2 level)
              (head_ok le se shadow)) as (st1 & m1 & qs & E & Hh1 & [Hx Hu] & _); [lia|].
  destruct (finalize_reads names st1 qs Hh1) as (st2 & ps & E2 & Hp & [Hx2 Hu2]).
  exists st1, m1, st2, (concat (shown <$> ps)). split; [by rewrite (head_run names getenv props le se i model clear shadow st m Hneed Hc), E|].
  split; [done|]. split; [done|]. intros regs reg val Hin.
  rewrite shown_unpacked by (apply Hu2; [done|]; by apply Hu).
  rewrite app_nil_r in Hx2. rewrite Hx2, Hx. cbn [app]. change (issues []) with (@nil ib_event). cbn [app].
  rewrite head_events, perform_app.
  assert (Hone : one_value (placed_at (context_dw getenv m))).
  { apply placed_one_value; [done|]. unfold m. rewrite set_level_mapovr. unfold ac_titan_mapovr_parse. cbn. by rewrite Hovr. }
  assert (Hw : forall regs, (perform regs ((fun p => Write p.1 p.2) <$> placed_at (context_dw getenv m))).2
                             !! context_place getenv m reg = Some val).
  { intros regs'.
    assert (Hin' : (context_place getenv m reg, val) ∈ placed_at (context_dw getenv m)).
    { rewrite context_place_dw. unfold placed_at. apply list_elem_of_fmap. by exists (reg, val). }
    apply perform_one_value; [done| |by left]. intros q Hq Eq. exact (Hone q _ Hq Hin' Eq). }
  destruct (perform regs _) as [t1 r1]. specialize (Hw r1). by destruct (perform r1 _).
Qed.

(** The Xclipse 530 with nothing set. *)
Definition map_530 : regmap :=
  ac_titan_regmap_set_level (fun _ => None)
    {| regmap_active := false; regmap_level := 0; regmap_suppress := true; regmap_hits := 0; mapovr := [] |} 10.

Lemma preamble_initializes_context_witness :
  exists st1 m1 st2 evs,
    emit_graphics_head (fun _ => false) (fun _ => None) None 1 1 titan_chip (model_index AC_XCLIPSE_530) true false true map_530
      = Some (Ok (st1, m1))
    /\ ac_pm4_finalize (fun _ => false) st1 = Ok st2
    /\ ac_parse_ib_chunk (ac_pm4_emit_commands st2) = Some evs
    /\ forall regs reg val, (reg, val) ∈ ac_xclipse_ctx_init ->
         (perform regs evs).2 !! context_place (fun _ => None) map_530 reg = Some val.
Proof.
  apply (preamble_initializes_context (fun _ => false) (fun _ => None) None 1 1 titan_chip
           (model_index AC_XCLIPSE_530) true false regmap_init map_530 (-1) 1).
  - vm_compute. reflexivity.
  - reflexivity.
  - reflexivity.
  - split; reflexivity.
  - reflexivity.
Defined.
